(* ===== verification/_CoqProject ===== *)
-Q . S2P
Prelude.v
Api.v
NodeState.v
Platform.v
Executor.v
Config.v
Task.v
Planner.v
StaticConfig.v
Resolve.v
EngineStore.v
Engine.v
EngineSteps.v
SignTx.v
GovTasks.v
NodeTask.v
NetApi.v
Network.v
NetworkSample.v
NetworkSpec.v
NetworkRun.v
NetworkHealth.v
NetworkConverge.v
Workflow.v
HashLog.v
HashReader.v
HashServer.v
TomlPatch.v
RpcClient.v
JsonWire.v
ProcessTasks.v
HomeDir.v
DataTasks.v
TaskWire.v
EvmDigest.v
Peering.v
DataVolume.v
NodeReconcile.v
NodeEvents.v
NodeLifecycle.v
