(* ===== verification/Prelude.v ===== *)
(** * sei-k8s-controller: a verified model

    The controller runs Sei blockchain nodes on Kubernetes. A SeiNode resource
    is reconciled by building a plan, a list of tasks, and executing it one
    task at a time; most tasks run on a sidecar process in the node's pod,
    which keeps their results in SQLite, opens or closes the gate seid starts
    behind, and signs transactions for the validator's operator.

    ** Parts of the program and where they are modelled

    - Prelude.v: results with error texts ([result]), the string functions of
      Go the code uses, tactics and shared lemmas.
    - Api.v: the SeiNode resource, its spec, status, plans, tasks and
      conditions (src/api/v1alpha1/), and the task names (src/sidecarapi/wire).
      The fields that only shape Kubernetes objects are left out.
    - NodeState.v: reads and updates of a node's status and conditions.
    - Platform.v: what the code takes from outside the repository (names of
      sei-config, hash functions) and the platform configuration the planners
      read (src/internal/platform/platform.go).
    - Executor.v: ExecutePlan (src/internal/planner/executor.go) over an
      interface of tasks (src/internal/task/task.go): which task is current,
      submission, polling, retries with backoff, failure, completion, the
      target phase. State: the plan in the node's status, and the world the
      tasks act on.
    - Config.v: spec.configValues as a TOML merge patch, its canonical hash
      and the overlays merged over it (config_overlay.go,
      consensus_overlay.go). SHA-256 is a parameter.
    - Task.v: the task executions that carry decisions: sidecar submit and
      poll, the start guard in front of mark-ready, the record tasks,
      observe-image, replace-pod (src/internal/task/).
    - Planner.v: the plans of each mode, full, archive, replayer, validator,
      seed, and the intents they are compared with (full.go, archive.go,
      replay.go, validator.go, seed.go, config_update.go, planner.go).
    - StaticConfig.v: nodes with a mounted config, the maintenance hold and
      the data reset, with their conditions (static_config.go, maintenance.go,
      data_reset.go).
    - Resolve.v: ResolvePlan, which decides the next plan of a node, the
      sidecar probe and the fleet's roll budget (planner.go, sidecar_probe.go,
      drift_budget.go).
    - EngineStore.v: the result store as an interface with laws, and its
      SQLite implementation (src/sidecar/engine/sqlite_store.go).
    - Engine.v: the functions of the sidecar engine over that interface:
      Submit, a task run, RemoveResult, recovery of stale tasks after a crash
      (engine.go, tasks/ready.go, tasks/mark_not_ready.go).
    - EngineSteps.v: the same functions cut at their locks, as a step relation
      with requests, runs, removals and recovery interleaved.
    - SignTx.v: the signing cycle every sign-tx task runs
      (src/sidecar/tasks/sign_and_broadcast.go, transactions.go,
      engine/checkpoint.go). The process may die before any call; the markers
      outlive it. The chain SDK, the keyring and the node are interfaces.
    - GovTasks.v: votes, the three proposals and the unjail task built on it
      (gov_*.go, unjail.go), with their completion contract.
    - NodeTask.v: the SeiNodeTask controller (src/internal/controller/nodetask)
      that submits one such task, or another sidecar task, to one node and
      latches its outcome, with the parameters of each kind
      (src/internal/task/seinodetask_params.go).
    - NetApi.v, Network.v: the SeiNetwork resource with the group planner
      (src/api/v1alpha1/seinetwork_types.go, src/internal/planner/group.go) and
      its controller (src/internal/controller/seinetwork) with the tasks of its
      one plan, the genesis ceremony (src/internal/task/genesis_peers.go,
      await_nodes_running.go). State: the namespace's network, children,
      Service and pods, what becomes of each API call, and a log of the writes
      that took effect. NetworkSample.v is a concrete network; NetworkSpec.v a
      program logic for such reconciles and the invariants; NetworkRun.v the
      network over its life, between arbitrary edits; NetworkHealth.v the
      Producing condition; NetworkConverge.v what a reconcile achieves when
      the server answers.
    - Workflow.v: the workflow half of the node controller
      (src/internal/controller/node/workflow.go) with the recipe planner
      (src/internal/planner/workflow.go) and the order of the node reconcile
      around it (controller.go). State: the stored node and its workflows, and
      what becomes of each API call.
    - HashLog.v, HashReader.v, HashServer.v: the hash-log comparison of a
      migrating node with its reserve. HashLog compares the buffered rows of a
      pair (src/internal/hashlogcompare/compare.go); HashReader tails a log by
      a byte cursor, polls a pair and validates the configuration (reader.go,
      run.go, config.go) over an interface of the sidecar; HashServer is that
      interface, the handlers and the client (src/sidecar/server/hashlog.go,
      src/sidecarapi/client/client.go) over a directory that changes in time.

    - TomlPatch.v, HomeDir.v: the merge patch of configuration documents, the
      genesis overrides, and atomic writes (src/sidecarapi/tomlpatch,
      src/sidecar/tasks/genesis_overrides.go) over a file system whose calls may
      fail or be cut short, with a program logic for tasks that use it.
    - RpcClient.v: what the sidecar reads of its local node (src/sidecar/rpc).
    - ProcessTasks.v: the tasks that stop, restart and wait for seid
      (src/sidecar/actions, stop_seid.go, restart_seid.go, await_*.go).
    - DataTasks.v: the tasks that work on the home directory (config.go,
      reset_data.go, statesync.go). State: the file tree, and what becomes of
      each call.
    - JsonWire.v, TaskWire.v: the way of a task from the controller's typed client
      (src/sidecarapi/client/tasks.go) as JSON through the server's handler
      (src/sidecar/server/server.go) to the decoding in front of a handler
      (src/sidecar/engine/types.go).
    - EvmDigest.v: the comparison of EVM state digests, the rounds of a chain with
      their metrics and the source behind them (src/internal/evmdigestcompare),
      down to the sidecar task that runs the digest (tasks/evm_digest.go).
    - Peering.v: spec.peers into persistent_peers (src/internal/peering,
      src/internal/controller/node/peers.go).
    - DataVolume.v: the claim a node's data lives on, from the pre-flight of its
      class over creation, import and growth to deletion
      (src/internal/task/ensure_pvc.go, controller/node/volumeattributesclass.go,
      datavolumeresize.go, controller.go, noderesource). State: the claims at the
      server and in the cache, and a log of the writes.
    - NodeReconcile.v, NodeEvents.v, NodeLifecycle.v: the rest of the node
      controller (src/internal/controller/node): the conditions and endpoints of
      every path (statesync.go, evmserving.go, endpoints.go); the Events with the
      memory of the condition slice they compare (controller.go); the StatefulSet
      (statefulset.go, noderesource/sync.go), the half of a reconcile no workflow
      occupies, the wake-ups (driftwake.go) and the deletion, which is composed
      of DataVolume.v and Workflow.v.

    A plan flows through these parts as in the code: Resolve asks the planners
    for a plan and stores it; Executor runs its tasks as Task defines them;
    a sidecar task reaches Engine through Submit, which runs a handler such as
    those of GovTasks. A network makes the nodes those plans are for; its own
    ceremony plan runs through the same Executor. NodeLifecycle calls Resolve
    and Executor the way the node reconcile does, after the conditions of
    NodeReconcile, which Resolve's gates read, and the workflow half of Workflow.

    ** What the theorems show

    - Safety of a running node: a held or resetting node is not started
      (Task.start_guard_safety, Resolve.held_node_not_released), no persisted
      plan wipes data before seid is stopped
      (Resolve.persisted_plan_never_wipes_live), a mounted config is not
      written, only stale pods of the node's own StatefulSet are deleted.
    - Plans: the plan in the status is well formed after every ResolvePlan and
      ExecutePlan, tasks run in order, retries stay in their budget, execution
      ends, and a plan that ends sets the phase it should. A Running node
      stays Running.
    - Plan contents: the order of the init plans, that the running intent of a
      node is what its init plan writes, that hold and reset plans take
      effect and that their conditions tell the truth.
    - Fleet: the nodes rolled at one time never exceed the budget.
    - Engine: a running row is owned by a live run or by recovery, in every
      interleaving; the registry of cancel functions is sound; a hold
      supersedes an earlier mark-ready across a crash; the SQLite store
      refines a map; the step relation is the functions.
    - Signing: over any sequence of crashed runs a task puts at most one
      transaction on chain; what is signed was checked against the chain, the
      fees, the memo and the message; an unjail is signed only when the chain
      would accept it; a task completes only on evidence read from the node;
      every run ends.
    - Node tasks: the status of a SeiNodeTask is well formed for life, its
      phase never moves back, its task has one id and is stored before it is
      submitted, and it completes only when its task reports completion.
    - Workflows: over any sequence of reconciles, failed and lost API calls and
      operator actions, a workflow in progress keeps its deletion gate and the
      pointer of its node, so a node has at most one and its own plans do not
      run beside it; the recipe wipes data only behind a shut gate and a
      stopped seid.
    - Networks: every write of a reconcile of a SeiNetwork is justified by the
      network it read, whatever calls fail, and the log of the writes accounts
      for all that becomes of the children; a finished ceremony stays finished;
      an adopted validator is never deleted; the stored status is well typed
      through any life of the object; the children converge to the spec and
      then stay; a set released under Retain is taken up unchanged; Producing is
      the documented table and True only while new heights are read.
    - Sidecar tasks on files and processes: the file of the last signed height
      survives any sequence of resets, wherever config.toml puts it and however
      they fail or die; a reset clears the chain data and nothing else, and only
      of a stopped node; a stop sends one SIGTERM and reports success only on
      evidence; a config patch is applied whole or not at all and does at every
      path what it says; state sync is set up from witnesses that answered.
    - Hash logs: a comparison reports exactly the heights and columns that
      differ, no height is compared twice, the buffers stay within their cap;
      a reader that tails a growing file returns each complete row once, and
      one that is behind reads the files in index order; a divergence that is
      raised is in the two logs; no read leaves the hash-log directory.
    - The way of a task: every typed request arrives at its handler with the values
      the controller gave it, or is refused with an error on the way.
    - EVM digests: the rounds record exactly the pairs of digests that were taken
      at one height, a digest is the one its task printed, and no attempt leaves
      its task behind.
    - Nodes: every write to a data volume is justified by the node and the claim it was
      made for, whatever the cache shows and whichever calls fail, and a larger
      size arrives; no outage and no silence of a peer shrinks the peer set; the
      always-present conditions are resolved on every path and the endpoint of
      an EVM-only node follows its condition; a StatefulSet converges to the
      rendered one under the tracked UID; a node no workflow occupies always
      comes back; a freed roll slot wakes the next node; a node that is deleted
      has let go of its claim and its workflows.
    - Findings are stated as theorems where the model shows them: the counter
      of active plans, the retry schedule, invalid parameters that poll
      forever, the text order of timestamps in SQLite, a read error that
      reruns a task, a submission error that outlives its timeout, a failed
      workflow that runs again, an invalid genesis that no status shows, a
      failed ceremony that restarts, a cut-short zero sign state that a later
      reset keeps, an exited seid that fails the task that waits for its exit,
      genesis overrides whose result depends on the order of a map, a transition
    compared through a pointer with itself, a stale cache that deletes a fresh
    StatefulSet, a workflow left gated by a conflict, a drift taken back that
    wakes nobody, a foreign claim deleted with the node, a size that passes
    startup and panics later, a peer's new key lost after an outage.

    ** Fuel and bounds

    Loops that are not structural take fuel, and a theorem shows it is enough:
    executePlan gets one round more than the plan has tasks
    (Executor.executePlan_terminates); a poll loop gets one round per interval
    of its timeout and two more (SignTx.signing_terminates, at most 133
    queries), and a confirmation loop 31 rounds (GovTasks.handlers_answer),
    both on a clock that does not go back. A poll of a hash log makes the
    sixteen reads the code allows, and the parser of a line gets one round per
    byte; the digest of a height gets the attempts the code gives it
    (EvmDigest.digest_cleans_up). The pages of EC2 are followed while there are
    answers, each page once. Times are integers of nanoseconds
    or seconds; counters of retries and runs are integers that the code bounds
    far below their width.

    ** Not modelled

    - Kubernetes itself, and the objects the controller renders
      (src/internal/noderesource except what the planner, the volume and the
      StatefulSet upkeep read): literals; a rendered template is a parameter.
    - The handlers that work on S3, the chain SDK and sei-config (genesis
      assembly, snapshots, exports, peers, config-apply): behind the handler
      interface of Engine.v.
    - Keys, HTTP transport, the generated client, deepcopy code, the loading of
      the platform's file, command-line glue, metrics and logs. *)

From stdpp Require Import base list strings pretty gmap.
From Stdlib Require Import ZArith Lia.

#[export] Set Warnings "-clear-no-such-hyp".

(** ** Fallible computations

    Go functions that return [(T, error)] return a [result T]: the error is
    kept as the text its [Error()] method prints. *)
Inductive result (A : Type) : Type :=
| Ok (a : A)
| Err (e : string).
Arguments Ok {A} _.
Arguments Err {A} _.

#[export] Instance result_ret : MRet result := fun _ a => Ok a.
#[export] Instance result_bind : MBind result :=
  fun _ _ f m => match m with Ok a => f a | Err e => Err e end.
#[export] Instance result_fmap : FMap result :=
  fun _ _ f m => match m with Ok a => Ok (f a) | Err e => Err e end.

Definition is_ok {A} (r : result A) : bool :=
  match r with Ok _ => true | Err _ => false end.

(** [fmt.Errorf("...: %w", err)] applied to the error branch. *)
Definition wrap_err {A} (prefix : string) (r : result A) : result A :=
  match r with Ok a => Ok a | Err e => Err (prefix +:+ e) end.

(** ** Notations of the development *)
Declare Scope sei_scope.
Delimit Scope sei_scope with sei.
Notation "a =s b" := (String.eqb a b) (at level 70, no associativity) : sei_scope.
Notation "a <>s b" := (negb (String.eqb a b)) (at level 70, no associativity) : sei_scope.
Open Scope sei_scope.

(** ** Strings: the parts of Go's [strings] and [fmt] the code uses *)

(** [strings.Join] *)
Fixpoint join (sep : string) (l : list string) : string :=
  match l with
  | [] => ""
  | [x] => x
  | x :: l' => x +:+ sep +:+ join sep l'
  end.

(** [strings.HasPrefix] *)
Fixpoint has_prefix (p s : string) : bool :=
  match p, s with
  | EmptyString, _ => true
  | String a p', String b s' => Ascii.eqb a b && has_prefix p' s'
  | String _ _, EmptyString => false
  end.

(** [strings.Contains] *)
Fixpoint contains (s sub : string) : bool :=
  has_prefix sub s ||
  match s with
  | EmptyString => false
  | String _ s' => contains s' sub
  end.

(** [strings.HasSuffix] *)
Fixpoint has_suffix (suf s : string) : bool :=
  String.eqb s suf || match s with EmptyString => false | String _ s' => has_suffix suf s' end.

(** [strings.TrimSpace]: the white space of Unicode, in UTF-8. *)
Definition bytes (l : list nat) : string := fold_right (fun n s => String (Ascii.ascii_of_nat n) s) EmptyString l.
Definition white_space : list string :=
  map (fun n => bytes [n]) [9; 10; 11; 12; 13; 32] ++ map bytes [[194; 133]; [194; 160]; [225; 154; 128]] ++
  map (fun n => bytes [226; 128; n]) [128; 129; 130; 131; 132; 133; 134; 135; 136; 137; 138; 168; 169; 175] ++
  map bytes [[226; 129; 159]; [227; 128; 128]].
Fixpoint drop_prefix (p s : string) : option string :=
  match p, s with
  | EmptyString, _ => Some s
  | String a p', String b s' => if Ascii.eqb a b then drop_prefix p' s' else None
  | String _ _, EmptyString => None
  end.
Fixpoint first_of (ps : list string) (s : string) : option string :=
  match ps with
  | [] => None
  | p :: ps' => match drop_prefix p s with Some r => Some r | None => first_of ps' s end
  end.
Fixpoint trim_left (fuel : nat) (s : string) : string :=
  match fuel with
  | O => s
  | S n => match first_of white_space s with Some r => trim_left n r | None => s end
  end.
Fixpoint trim_right (s : string) : string :=
  match s with
  | EmptyString => EmptyString
  | String c s' => if String.eqb (trim_left (String.length s) s) EmptyString then EmptyString
                   else String c (trim_right s')
  end.
Definition TrimSpace (s : string) : string := trim_right (trim_left (String.length s) s).

(** [%q]: the text between double quotes. The escapes of [strconv.Quote] are
    the identity on the names and keys that reach these messages. *)
Definition dquote : string := String (Ascii.ascii_of_nat 34) EmptyString.
Definition quote (s : string) : string := dquote +:+ s +:+ dquote.

Fixpoint str_forall (f : Ascii.ascii -> bool) (s : string) : bool :=
  match s with EmptyString => true | String c s' => f c && str_forall f s' end.

Definition mem (x : string) (l : list string) : bool := existsb (String.eqb x) l.

(** ** Tactics *)

(** Case on the scrutinee of a match in the goal or in a hypothesis. *)
Ltac by_decide := apply (bool_decide_unpack _); vm_compute; exact I.
Ltac case_scrut :=
  match goal with
  | |- context [match ?x with _ => _ end] => destruct x eqn:?
  | H : context [match ?x with _ => _ end] |- _ => destruct x eqn:?
  end.

(** Existential and conjunctive hypotheses are opened, equations used. *)
Ltac open_hyps :=
  repeat match goal with
  | H : _ /\ _ |- _ => destruct H
  | H : exists x, _ |- _ => let y := fresh x in destruct H as [y H]
  end; simplify_eq.

(** Boolean tests become propositions. *)
Ltac bool_to_prop :=
  repeat match goal with
  | H : (_ && _)%bool = true |- _ => apply andb_true_iff in H as [? ?]
  | H : (_ || _)%bool = false |- _ => apply orb_false_iff in H as [? ?]
  | H : negb _ = true |- _ => apply negb_true_iff in H
  | H : negb _ = false |- _ => apply negb_false_iff in H
  | H : String.eqb _ _ = true |- _ => apply String.eqb_eq in H
  | H : String.eqb _ _ = false |- _ => apply String.eqb_neq in H
  | H : bool_decide _ = true |- _ => apply bool_decide_eq_true in H
  | H : bool_decide _ = false |- _ => apply bool_decide_eq_false in H
  end.

(** ** Lemma databases *)
Create HintDb sei.
Create Rewrite HintDb sei_rw.

(** ** Lemmas on strings and lists shared by the components *)

Lemma mem_In x l : mem x l = true <-> In x l.
Proof.
  unfold mem. rewrite existsb_exists. split.
  - intros (y & Hy & ->%String.eqb_eq). exact Hy.
  - intros H. exists x. split; [exact H | apply String.eqb_refl].
Qed.

Lemma mem_app x l1 l2 : mem x (l1 ++ l2) = mem x l1 || mem x l2.
Proof. apply existsb_app. Qed.

Lemma mem_not_In x l : mem x l = false <-> ~ In x l.
Proof. rewrite <- mem_In. destruct (mem x l); intuition congruence. Qed.

Lemma has_prefix_app p s : has_prefix p (p +:+ s) = true.
Proof. induction p as [|a p IH]; simpl; [done|]. by rewrite Ascii.eqb_refl. Qed.

Lemma contains_app_l p s : contains (p +:+ s) p = true.
Proof.
  destruct (p +:+ s) eqn:E; simpl; rewrite <- E, has_prefix_app; done.
Qed.


Lemma str_forall_app f a b : str_forall f (a +:+ b) = str_forall f a && str_forall f b.
Proof. induction a as [|c a IH]; [done|]. simpl. by rewrite IH, andb_assoc. Qed.
Lemma str_forall_impl f g s : (forall c, f c = true -> g c = true) -> str_forall f s = true -> str_forall g s = true.
Proof.
  intros Hfg. induction s as [|c s IH]; [done|]. simpl. intros [Hc Hs]%andb_true_iff.
  rewrite (Hfg c Hc). by apply IH.
Qed.

#[export] Hint Resolve has_prefix_app contains_app_l : sei.
#[export] Hint Rewrite mem_app : sei_rw.

(** The index of the first element that passes the test, with the witness that
    nothing before it does. *)
Lemma list_find_first {A} (f : A -> bool) (l : list A) i x :
  list_find (fun y => f y = true) l = Some (i, x) ->
  l !! i = Some x /\ f x = true /\
  (forall j y, l !! j = Some y -> j < i -> f y = false).
Proof.
  rewrite list_find_Some. intros (Hl & Hf & Hb). split_and!; [done..|].
  intros j y Hy Hlt. specialize (Hb j y Hy Hlt). by destruct (f y).
Qed.

Lemma Forall_take_le {A} (P : A -> Prop) (l : list A) m n :
  Forall P (take m l) -> n <= m -> Forall P (take n l).
Proof.
  intros H Hle. replace (take n l) with (take n (take m l)); [by apply Forall_take|].
  rewrite take_take. f_equal. lia.
Qed.
