(* ===== verification/Api.v ===== *)
(** * The API types (src/api/v1alpha1) and the task wire names

    The SeiNode object as the planner, the executor and the tasks see it: spec,
    status, task plans and conditions. A Go pointer is an [option]; a string
    enum whose zero value [""] has a meaning of its own gets a constructor for
    it. The records carry the fields the modelled code reads or writes. *)

From stdpp Require Import base list strings pretty gmap.
From Stdlib Require Import ZArith.
From S2P Require Import Prelude.

Set Warnings "-register-all".

(** ** JSON values, as [json.Decoder] with [UseNumber] yields them. A number
    keeps its literal; a map is an association list. *)
Inductive jval : Type :=
| JNull
| JBool (b : bool)
| JNum (lit : string)
| JStr (s : string)
| JArr (l : list jval)
| JObj (l : list (string * jval)).

(** ** Enumerations *)
Inductive SeiNodePhase := PhaseNone | PhasePending | PhaseInitializing
  | PhaseRunning | PhaseFailed | PhaseTerminating.
#[export] Instance SeiNodePhase_eq_dec : EqDecision SeiNodePhase.
Proof. solve_decision. Defined.

Inductive TaskPlanPhase := TaskPlanActive | TaskPlanComplete | TaskPlanFailed.
#[export] Instance TaskPlanPhase_eq_dec : EqDecision TaskPlanPhase.
Proof. solve_decision. Defined.

Inductive TaskStatus := TaskPending | TaskRunning | TaskComplete | TaskFailed.
#[export] Instance TaskStatus_eq_dec : EqDecision TaskStatus.
Proof. solve_decision. Defined.

(** [HoldNone] is the empty string: no hold. *)
Inductive MaintenanceHold := HoldNone | HoldImmediate | HoldAfterExit.
#[export] Instance MaintenanceHold_eq_dec : EqDecision MaintenanceHold.
Proof. solve_decision. Defined.

(** The text of a hold value, as [%s] prints it. *)
Definition hold_string (h : MaintenanceHold) : string :=
  match h with HoldNone => "" | HoldImmediate => "Immediate" | HoldAfterExit => "AfterExit" end.

(** [IsolationNone] is the empty string: not set, or not yet observed. *)
Inductive NodeIsolation := IsolationNone | NodeIsolationShared | NodeIsolationDedicated.
#[export] Instance NodeIsolation_eq_dec : EqDecision NodeIsolation.
Proof. solve_decision. Defined.

Definition isolation_string (i : NodeIsolation) : string :=
  match i with
  | IsolationNone => "" | NodeIsolationShared => "Shared" | NodeIsolationDedicated => "Dedicated"
  end.

Inductive ConditionStatus := ConditionTrue | ConditionFalse | ConditionUnknown.
#[export] Instance ConditionStatus_eq_dec : EqDecision ConditionStatus.
Proof. solve_decision. Defined.

(** ** Conditions ([metav1.Condition], without its transition time) *)
Record Condition := mkCondition {
  c_Type : string;
  c_Status : ConditionStatus;
  c_Reason : string;
  c_Message : string;
  c_ObservedGeneration : Z;
}.

Definition ConditionNodeUpdateInProgress := "NodeUpdateInProgress".
Definition ConditionSidecarReady := "SidecarReady".
Definition ConditionStateSyncReady := "StateSyncReady".
Definition ConditionDataResetInProgress := "DataResetInProgress".
Definition ConditionMaintenanceInProgress := "MaintenanceInProgress".

Definition ReasonMaintenanceNotApplicable := "NotApplicable".
Definition ReasonNotHeld := "NotHeld".
Definition ReasonHoldPending := "HoldPending".
Definition ReasonHeld := "Held".
Definition ReasonArmed := "Armed".
Definition ReasonDataResetNotApplicable := "NotApplicable".
Definition ReasonNoResetRequested := "NoResetRequested".
Definition ReasonResetPending := "ResetPending".
Definition ReasonResetRunning := "ResetRunning".
Definition ReasonResetComplete := "ResetComplete".
Definition ReasonResetFailed := "ResetFailed".

(** ** Consensus and execution engine *)
Inductive ConsensusEngine := EngineNone | ConsensusEngineTendermint | ConsensusEngineAutobahn.
#[export] Instance ConsensusEngine_eq_dec : EqDecision ConsensusEngine.
Proof. solve_decision. Defined.

Record ConsensusSpec := mkConsensusSpec {
  cs_Engine : ConsensusEngine;
  cs_EvmOnly : bool;
}.

Inductive ExecutionEngineMode := ModeUnset | ExecutionEngineDefault | ExecutionEngineEvmOnly.
#[export] Instance ExecutionEngineMode_eq_dec : EqDecision ExecutionEngineMode.
Proof. solve_decision. Defined.

(** [ee_EvmOnly] is the [*EvmOnlyExecutionSpec]; its one field is [*bool]. *)
Record ExecutionEngineSpec := mkExecutionEngineSpec {
  ee_Mode : ExecutionEngineMode;
  ee_EvmOnly : option (option bool);
}.

Definition ConsensusSpec_EffectiveEngine (c : option ConsensusSpec) : ConsensusEngine :=
  match c with
  | None => ConsensusEngineTendermint
  | Some c => match cs_Engine c with EngineNone => ConsensusEngineTendermint | e => e end
  end.

Definition ConsensusSpec_IsAutobahn (c : option ConsensusSpec) : bool :=
  bool_decide (ConsensusSpec_EffectiveEngine c = ConsensusEngineAutobahn).

Definition ConsensusSpec_IsEvmOnly (c : option ConsensusSpec) : bool :=
  match c with None => false | Some c => cs_EvmOnly c end.

Definition EffectiveMode (e : ExecutionEngineSpec) : ExecutionEngineMode :=
  match ee_Mode e with ModeUnset => ExecutionEngineDefault | m => m end.

Definition IsEvmOnly (e : ExecutionEngineSpec) : bool :=
  bool_decide (EffectiveMode e = ExecutionEngineEvmOnly).

Definition EvmHTTPEnabled (e : ExecutionEngineSpec) : bool :=
  match ee_EvmOnly e with
  | Some (Some b) => b
  | _ => true
  end.

Definition ResolveExecutionEngine
    (engine : option ExecutionEngineSpec) (consensus : option ConsensusSpec) : ExecutionEngineSpec :=
  let resolve (e : ExecutionEngineSpec) :=
    let m := EffectiveMode e in
    mkExecutionEngineSpec m
      (if decide (m = ExecutionEngineEvmOnly) then Some (Some (EvmHTTPEnabled e)) else None) in
  match engine with
  | Some e => resolve e
  | None =>
      if negb (ConsensusSpec_IsEvmOnly consensus)
      then mkExecutionEngineSpec ExecutionEngineDefault None
      else resolve (mkExecutionEngineSpec ExecutionEngineEvmOnly None)
  end.

(** ** Spec *)
Record LabelPeerSource := mkLabelPeerSource {
  lp_Selector : gmap string string;
  lp_Namespace : string;
}.
Record EC2TagsPeerSource := mkEC2TagsPeerSource {
  ec_Region : string;
  ec_Tags : gmap string string;
}.
Record PeerSource := mkPeerSource {
  ps_EC2Tags : option EC2TagsPeerSource;
  ps_Static : option (list string);
  ps_Label : option LabelPeerSource;
}.

(** [ss_S3] is the target height of the [*S3SnapshotSource]; [ss_StateSync] is
    the empty struct. *)
Record SnapshotSource := mkSnapshotSource {
  ss_S3 : option Z;
  ss_StateSync : option unit;
  ss_TrustPeriod : string;
  ss_RpcServers : list string;
  ss_BackfillBlocks : Z;
}.

Record TendermintSnapshotGenerationConfig := mkTendermintSnapshotGenerationConfig {
  tsg_KeepRecent : Z;
  tsg_Publish : option unit;
}.
(** The config holds one optional sub-struct. *)
Record SnapshotGenerationConfig := mkSnapshotGenerationConfig {
  sg_Tendermint : option TendermintSnapshotGenerationConfig;
}.
Record FreezeSpec := mkFreezeSpec { fz_Height : Z }.
(** Kubernetes resources are kept as the JSON they are written as. *)
Record SidecarConfig := mkSidecarConfig { sc_Image : string; sc_Port : Z; sc_Resources : option jval }.
(** [cv_Value] is what decoding the raw JSON yields, [None] when it is
    malformed. *)
Record ConfigValue := mkConfigValue {
  cv_FileName : string;
  cv_Key : string;
  cv_Value : option jval;
}.
Record SchedulingConfig := mkSchedulingConfig {
  sch_NodeIsolation : NodeIsolation;
  sch_NodePool : string;
}.
(** The two ConfigMap names. *)
Record NodeConfig := mkNodeConfig { nc_ConfigRef : string; nc_AppRef : string }.
Record MaintenanceSpec := mkMaintenanceSpec { ms_Hold : MaintenanceHold }.

Record FullNodeSpec := mkFullNodeSpec {
  fn_Snapshot : option SnapshotSource;
  fn_SnapshotGeneration : option SnapshotGenerationConfig;
  fn_Freeze : option FreezeSpec;
}.
Record ArchiveSpec := mkArchiveSpec {
  ar_SnapshotGeneration : option SnapshotGenerationConfig;
  ar_Freeze : option FreezeSpec;
}.
Record ReplayerSpec := mkReplayerSpec { rp_Snapshot : SnapshotSource }.

(** Key sources: the [*Secret...Source] of a key, by its secret name. *)
Record SigningKeySource := mkSigningKeySource { sk_Secret : option string }.
Record NodeKeySource := mkNodeKeySource { nk_Secret : option string }.
Record PassphraseSecretRef := mkPassphraseSecretRef { pp_SecretName : string; pp_Key : string }.
Record SecretOperatorKeyringSource := mkSecretOperatorKeyringSource {
  ok_SecretName : string;
  ok_KeyName : string;
  ok_PassphraseSecretRef : PassphraseSecretRef;
  ok_SeidMount : bool;
}.
Record OperatorKeyringSource := mkOperatorKeyringSource {
  okr_Secret : option SecretOperatorKeyringSource;
}.
Record GenesisCeremonyNodeConfig := mkGenesisCeremonyNodeConfig {
  gc_ChainID : string;
  gc_StakingAmount : string;
  gc_AccountBalance : string;
  gc_Index : Z;
}.
Record ValidatorSpec := mkValidatorSpec {
  v_Snapshot : option SnapshotSource;
  v_GenesisCeremony : option GenesisCeremonyNodeConfig;
  v_SigningKey : option SigningKeySource;
  v_NodeKey : option NodeKeySource;
  v_OperatorKeyring : option OperatorKeyringSource;
}.
Record SeedSpec := mkSeedSpec { sd_NodeKey : NodeKeySource }.

Definition DefaultOperatorKeyName := "node_admin".

(** Without [PodLabels], [DataVolume] and [Resources], which only shape the
    Kubernetes objects of the node. *)
Record SeiNodeSpec := mkSeiNodeSpec {
  sp_ChainID : string;
  sp_Image : string;
  sp_Peers : list PeerSource;
  sp_Overrides : gmap string string;
  sp_Consensus : option ConsensusSpec;
  sp_ExecutionEngine : option ExecutionEngineSpec;
  sp_ConfigValues : list ConfigValue;
  sp_NodeConfig : option NodeConfig;
  sp_Scheduling : option SchedulingConfig;
  sp_Sidecar : option SidecarConfig;
  sp_FullNode : option FullNodeSpec;
  sp_Archive : option ArchiveSpec;
  sp_Replayer : option ReplayerSpec;
  sp_Validator : option ValidatorSpec;
  sp_Seed : option SeedSpec;
  sp_ExternalAddress : string;
  sp_Paused : bool;
  sp_DataResetGeneration : Z;
  sp_Maintenance : option MaintenanceSpec;
}.

(** [SeiNodeSpec.HoldRequested] *)
Definition HoldRequested (s : SeiNodeSpec) : MaintenanceHold :=
  match sp_Maintenance s with None => HoldNone | Some m => ms_Hold m end.

(** [SeiNodeSpec.SnapshotSource] *)
Definition SnapshotSourceOf (s : SeiNodeSpec) : option SnapshotSource :=
  match sp_FullNode s, sp_Validator s, sp_Replayer s with
  | Some f, _, _ => fn_Snapshot f
  | None, Some v, _ => v_Snapshot v
  | None, None, Some r => Some (rp_Snapshot r)
  | None, None, None => None
  end.

(** [SeiNodeSpec.NodeKeySecret] *)
Definition NodeKeySecret (s : SeiNodeSpec) : option string :=
  match sp_Validator s ≫= v_NodeKey, sp_Seed s with
  | Some nk, _ => nk_Secret nk
  | None, Some sd => nk_Secret (sd_NodeKey sd)
  | None, None => None
  end.

(** [SeiNodeSpec.EffectiveExecutionEngine] *)
Definition EffectiveExecutionEngine (s : SeiNodeSpec) : ExecutionEngineSpec :=
  ResolveExecutionEngine (sp_ExecutionEngine s) (sp_Consensus s).

(** ** Task types (wire names) *)
Definition TaskSnapshotRestore := "snapshot-restore".
Definition TaskConfigPatch := "config-patch".
Definition TaskConfigApply := "config-apply".
Definition TaskConfigValidate := "config-validate".
Definition TaskMarkReady := "mark-ready".
Definition TaskTypeRestartSeid := "restart-seid".
Definition TaskConfigureGenesis := "configure-genesis".
Definition TaskConfigureStateSync := "configure-state-sync".
Definition TaskAwaitCondition := "await-condition".
Definition TaskGenerateIdentity := "generate-identity".
Definition TaskGenerateGentx := "generate-gentx".
Definition TaskUploadGenesisArtifacts := "upload-genesis-artifacts".
Definition TaskAssembleGenesis := "assemble-and-upload-genesis".
Definition TaskSetGenesisPeers := "set-genesis-peers".
Definition TaskGovVote := "gov-vote".
Definition TaskGovSoftwareUpgrade := "gov-software-upgrade".
Definition TaskGovParamChange := "gov-param-change".
Definition TaskGovUpdateInstantiateConfig := "gov-update-instantiate-config".
Definition taskTypeMarkNotReady := "mark-not-ready".
Definition taskTypeStopSeid := "stop-seid".
Definition taskTypeResetData := "reset-data".
Definition TaskTypeAwaitSeidStart := "await-seid-start".
Definition TaskTypeResetDataKeepSignState := "reset-data-keep-sign-state".
Definition TaskTypeUnjail := "unjail".

(** Controller-side task types (src/internal/task). *)
Definition TaskTypeAwaitNodesRunning := "await-nodes-running".
Definition TaskTypeCollectAndSetPeers := "collect-and-set-peers".
Definition TaskTypeEnsureDataPVC := "ensure-data-pvc".
Definition TaskTypeApplyStatefulSet := "apply-statefulset".
Definition TaskTypeApplyService := "apply-service".
Definition TaskTypeApplyRBACProxyConfig := "apply-rbac-proxy-config".
Definition TaskTypeReplacePod := "replace-pod".
Definition TaskTypeObserveImage := "observe-image".
Definition TaskTypeRecordDataReset := "record-data-reset".
Definition TaskTypeRecordMaintenanceHold := "record-maintenance-hold".
Definition TaskTypeStartSeidOnce := "start-seid-once".
Definition TaskTypeUpdateNodeImage := "update-node-image".
Definition TaskTypeValidateSigningKey := "validate-signing-key".
Definition TaskTypeValidateNodeKey := "validate-node-key".
Definition TaskTypeValidateOperatorKeyring := "validate-operator-keyring".

(** ** Task params: the struct each task type carries. [PlannedTask.Params]
    holds its JSON; the model keeps the struct that JSON encodes. *)
Inductive ConfigMode := ModeFull | ModeValidator | ModeArchive | ModeSeed.
Record ConfigIntent := mkConfigIntent {
  ci_Mode : ConfigMode;
  ci_Overrides : gmap string string;
}.
Inductive UpCheckScheme := UpCheckHTTP | UpCheckTCP.
Record UpCheck := mkUpCheck { uc_Scheme : UpCheckScheme; uc_Port : Z; uc_Path : string }.


(** Raw JSON: no bytes, bytes that do not decode, or the decoded value. *)
Inductive raw_json := RawNone | RawMalformed | RawValue (v : jval).

(** [wire.GenesisAccountEntry] has the fields of the API's [GenesisAccount], and
    the client's [AutobahnConfigParams] those of [AutobahnCeremonySpec]. *)
Record GenesisAccountVesting := mkVesting {
  gv_Amount : string;
  gv_EndTime : Z;
  gv_Delayed : bool;
}.
Record GenesisAccount := mkGenesisAccount {
  ga_Address : string;
  ga_Balance : string;
  ga_Vesting : option GenesisAccountVesting;
}.
Record AutobahnCeremonySpec := mkAutobahnCeremony {
  ab_BlockInterval : string;
  ab_AllowEmptyBlocks : option bool;
  ab_MaxTxsPerBlock : option Z;
  ab_EnableEvmProxy : option bool;
}.

Inductive TaskParams :=
| NilParams
| EnsureDataPVCParams (nodeName namespace : string)
| ApplyStatefulSetParams (nodeName namespace : string)
| ApplyServiceParams (nodeName namespace : string)
| ApplyRBACProxyConfigParams (nodeName namespace : string)
| ReplacePodParams (nodeName namespace : string)
| ObserveImageParams (nodeName namespace : string)
| ValidateSigningKeyParams (secretName namespace : string)
| ValidateNodeKeyParams (secretName namespace : string)
| ValidateOperatorKeyringParams (secretName keyName passSecretName passSecretKey namespace : string)
| RecordDataResetParams (generation : Z)
| RecordMaintenanceHoldParams (hold : MaintenanceHold)
| SnapshotRestoreTask (targetHeight : Z)
| ConfigureGenesisTask (autobahn : bool)
| ConfigApplyIntent (intent : option ConfigIntent)
| ConfigureStateSyncTask (useLocalSnapshot : bool) (rpcServers : list string)
    (trustPeriod : string) (backfillBlocks : Z)
| ConfigValidateTask
| MarkReadyTask
| MarkNotReadyTask
| StopSeidTask (upCheck : option UpCheck)
| ResetDataTask
| ResetDataKeepSignStateTask
| AwaitSeidStartTask
| RestartSeidTask (upCheck : option UpCheck)
| ConfigPatchTask (files : list (string * list (string * jval)))
| GenerateIdentityTask (chainID moniker : string)
| GenerateGentxTask (chainID stakingAmount accountBalance : string)
| UploadGenesisArtifactsTask (nodeName namespace : string) (autobahn : bool)
| SetGenesisPeersTask
| AssembleAndUploadGenesisTask (accountBalance namespace : string) (nodes : list string)
    (accounts : list GenesisAccount) (overrides : gmap string raw_json)
    (consensusParams : raw_json) (autobahn : bool) (autobahnConfig : option AutobahnCeremonySpec)
| CollectAndSetPeersParams (groupName namespace : string) (nodeNames : list string)
| AwaitNodesRunningParams (groupName namespace : string) (expected : Z) (nodeNames : list string).

(** ** Plans *)
Record PlannedTask := mkPlannedTask {
  pt_Type : string;
  pt_ID : string;
  pt_Status : TaskStatus;
  pt_Params : option TaskParams;
  pt_SubmittedAt : option Z;
  pt_Error : string;
  pt_MaxRetries : Z;
  pt_RetryCount : Z;
}.

Record FailedTaskInfo := mkFailedTaskInfo {
  fi_Type : string;
  fi_ID : string;
  fi_Error : string;
  fi_RetryCount : Z;
  fi_MaxRetries : Z;
}.

Record TaskPlan := mkTaskPlan {
  pl_ID : string;
  pl_Phase : TaskPlanPhase;
  pl_Tasks : list PlannedTask;
  pl_TargetPhase : SeiNodePhase;
  pl_ConfigValuesHash : string;
  pl_FailedPhase : SeiNodePhase;
  pl_FailedTaskIndex : option nat;
  pl_FailedTaskDetail : option FailedTaskInfo;
}.

(** ** Status and the SeiNode object *)
(** Without the fields no modelled operation reads or writes: [CommittedHeight]
    and its time, [ResolvedRPCWitnesses], [StatefulSet] and [Endpoint].
    [AdoptedWorkflow] is kept beside the node, in [Workflow.wnode]. *)
Record SeiNodeStatus := mkSeiNodeStatus {
  st_Phase : SeiNodePhase;
  st_CurrentImage : string;
  st_CurrentConfigValuesHash : string;
  st_CurrentSidecarImage : string;
  st_CurrentNodeIsolation : NodeIsolation;
  st_CurrentNodePool : string;
  st_Conditions : list Condition;
  st_PhaseTransitionTime : option Z;
  st_Plan : option TaskPlan;
  st_ResolvedPeers : list string;
  st_ResolvedStateSyncers : list string;
  st_DataResetGeneration : Z;
  st_MaintenanceHold : MaintenanceHold;
}.

Record SeiNode := mkSeiNode {
  n_Name : string;
  n_Namespace : string;
  n_Generation : Z;
  n_CreationTimestamp : Z;
  n_Annotations : gmap string string;
  n_Spec : SeiNodeSpec;
  n_Status : SeiNodeStatus;
}.

(** ** Equality of the values a status holds *)
Fixpoint jval_eq (a b : jval) {struct a} : Decision (a = b).
Proof.
  refine
   (match a, b with
    | JNull, JNull => left _
    | JBool x, JBool y => cast_if (decide (x = y))
    | JNum x, JNum y => cast_if (decide (x = y))
    | JStr x, JStr y => cast_if (decide (x = y))
    | JArr l, JArr k => cast_if (@decide (l = k) (@list_eq_dec _ jval_eq l k))
    | JObj l, JObj k => cast_if (@decide (l = k) (@list_eq_dec _ (@prod_eq_dec _ _ _ jval_eq) l k))
    | _, _ => right _
    end); abstract congruence.
Defined.
#[export] Instance jval_eq_dec : EqDecision jval := jval_eq.
#[export] Instance ConfigMode_eq_dec : EqDecision ConfigMode.
Proof. solve_decision. Defined.
#[export] Instance ConfigIntent_eq_dec : EqDecision ConfigIntent.
Proof. solve_decision. Defined.
#[export] Instance UpCheckScheme_eq_dec : EqDecision UpCheckScheme.
Proof. solve_decision. Defined.
#[export] Instance UpCheck_eq_dec : EqDecision UpCheck.
Proof. solve_decision. Defined.
#[export] Instance raw_json_eq_dec : EqDecision raw_json.
Proof. solve_decision. Defined.
#[export] Instance GenesisAccountVesting_eq_dec : EqDecision GenesisAccountVesting.
Proof. solve_decision. Defined.
#[export] Instance GenesisAccount_eq_dec : EqDecision GenesisAccount.
Proof. solve_decision. Defined.
#[export] Instance AutobahnCeremonySpec_eq_dec : EqDecision AutobahnCeremonySpec.
Proof. solve_decision. Defined.
#[export] Instance TaskParams_eq_dec : EqDecision TaskParams.
Proof. solve_decision. Defined.
#[export] Instance PlannedTask_eq_dec : EqDecision PlannedTask.
Proof. solve_decision. Defined.
#[export] Instance FailedTaskInfo_eq_dec : EqDecision FailedTaskInfo.
Proof. solve_decision. Defined.
#[export] Instance TaskPlan_eq_dec : EqDecision TaskPlan.
Proof. solve_decision. Defined.
#[export] Instance Condition_eq_dec : EqDecision Condition.
Proof. solve_decision. Defined.
#[export] Instance SeiNodeStatus_eq_dec : EqDecision SeiNodeStatus.
Proof. solve_decision. Defined.
