(* ===== verification/NodeState.v ===== *)
(** * In-memory updates of a SeiNode and its status conditions

    The reconciler mutates the SeiNode it holds in memory; the model passes it
    along. The condition list is read and written through apimachinery's
    [meta.FindStatusCondition] and [meta.SetStatusCondition], which are library
    code: the class [StatusConditions] states what the controller relies on, and
    every theorem about conditions is proved against the class. *)

From stdpp Require Import base list strings gmap.
From Stdlib Require Import ZArith.
From S2P Require Import Prelude Api.

(** ** Field updates *)
Definition with_Status (n : SeiNode) (s : SeiNodeStatus) : SeiNode :=
  mkSeiNode (n_Name n) (n_Namespace n) (n_Generation n) (n_CreationTimestamp n)
    (n_Annotations n) (n_Spec n) s.

Definition with_Spec (n : SeiNode) (s : SeiNodeSpec) : SeiNode :=
  mkSeiNode (n_Name n) (n_Namespace n) (n_Generation n) (n_CreationTimestamp n)
    (n_Annotations n) s (n_Status n).

Definition set_Conditions (cs : list Condition) (s : SeiNodeStatus) : SeiNodeStatus :=
  mkSeiNodeStatus (st_Phase s) (st_CurrentImage s) (st_CurrentConfigValuesHash s)
    (st_CurrentSidecarImage s) (st_CurrentNodeIsolation s) (st_CurrentNodePool s) cs
    (st_PhaseTransitionTime s) (st_Plan s) (st_ResolvedPeers s) (st_ResolvedStateSyncers s)
    (st_DataResetGeneration s) (st_MaintenanceHold s).

Definition set_Phase (p : SeiNodePhase) (now : Z) (s : SeiNodeStatus) : SeiNodeStatus :=
  mkSeiNodeStatus p (st_CurrentImage s) (st_CurrentConfigValuesHash s)
    (st_CurrentSidecarImage s) (st_CurrentNodeIsolation s) (st_CurrentNodePool s)
    (st_Conditions s) (Some now) (st_Plan s) (st_ResolvedPeers s) (st_ResolvedStateSyncers s)
    (st_DataResetGeneration s) (st_MaintenanceHold s).

Definition set_Plan (p : option TaskPlan) (s : SeiNodeStatus) : SeiNodeStatus :=
  mkSeiNodeStatus (st_Phase s) (st_CurrentImage s) (st_CurrentConfigValuesHash s)
    (st_CurrentSidecarImage s) (st_CurrentNodeIsolation s) (st_CurrentNodePool s)
    (st_Conditions s) (st_PhaseTransitionTime s) p (st_ResolvedPeers s)
    (st_ResolvedStateSyncers s) (st_DataResetGeneration s) (st_MaintenanceHold s).

Definition set_CurrentConfigValuesHash (h : string) (s : SeiNodeStatus) : SeiNodeStatus :=
  mkSeiNodeStatus (st_Phase s) (st_CurrentImage s) h
    (st_CurrentSidecarImage s) (st_CurrentNodeIsolation s) (st_CurrentNodePool s)
    (st_Conditions s) (st_PhaseTransitionTime s) (st_Plan s) (st_ResolvedPeers s)
    (st_ResolvedStateSyncers s) (st_DataResetGeneration s) (st_MaintenanceHold s).

Definition set_DataResetGeneration (g : Z) (s : SeiNodeStatus) : SeiNodeStatus :=
  mkSeiNodeStatus (st_Phase s) (st_CurrentImage s) (st_CurrentConfigValuesHash s)
    (st_CurrentSidecarImage s) (st_CurrentNodeIsolation s) (st_CurrentNodePool s)
    (st_Conditions s) (st_PhaseTransitionTime s) (st_Plan s) (st_ResolvedPeers s)
    (st_ResolvedStateSyncers s) g (st_MaintenanceHold s).

Definition set_MaintenanceHold (h : MaintenanceHold) (s : SeiNodeStatus) : SeiNodeStatus :=
  mkSeiNodeStatus (st_Phase s) (st_CurrentImage s) (st_CurrentConfigValuesHash s)
    (st_CurrentSidecarImage s) (st_CurrentNodeIsolation s) (st_CurrentNodePool s)
    (st_Conditions s) (st_PhaseTransitionTime s) (st_Plan s) (st_ResolvedPeers s)
    (st_ResolvedStateSyncers s) (st_DataResetGeneration s) h.

(** The four fields observe-image stamps together. *)
Definition set_Observed (image sidecar : string) (iso : NodeIsolation) (pool : string)
    (s : SeiNodeStatus) : SeiNodeStatus :=
  mkSeiNodeStatus (st_Phase s) image (st_CurrentConfigValuesHash s) sidecar iso pool
    (st_Conditions s) (st_PhaseTransitionTime s) (st_Plan s) (st_ResolvedPeers s)
    (st_ResolvedStateSyncers s) (st_DataResetGeneration s) (st_MaintenanceHold s).

Definition upd_status (f : SeiNodeStatus -> SeiNodeStatus) (n : SeiNode) : SeiNode :=
  with_Status n (f (n_Status n)).

(** ** Status conditions: the interface apimachinery provides *)
Class StatusConditions := {
  SetStatusCondition : list Condition -> Condition -> list Condition;
  FindStatusCondition : list Condition -> string -> option Condition;
}.

(** What the documentation of the two functions promises: a set condition is
    found by its type, with what was set; conditions of other types are left
    alone; a condition found is in the list and has the type asked for. *)
Class StatusConditionsLaws (SC : StatusConditions) : Prop := {
  find_set_same : forall cs c, FindStatusCondition (SetStatusCondition cs c) (c_Type c) = Some c;
  find_set_other : forall cs c t, t <> c_Type c ->
    FindStatusCondition (SetStatusCondition cs c) t = FindStatusCondition cs t;
  find_type : forall cs t c, FindStatusCondition cs t = Some c -> c_Type c = t;
  find_in : forall cs t c, FindStatusCondition cs t = Some c -> In c cs;
}.

(** The list-based instance used to run the model. *)
Module ListConditions.

Fixpoint set (cs : list Condition) (c : Condition) : list Condition :=
  match cs with
  | [] => [c]
  | d :: cs' => if String.eqb (c_Type d) (c_Type c) then c :: cs' else d :: set cs' c
  end.

Fixpoint find (cs : list Condition) (t : string) : option Condition :=
  match cs with
  | [] => None
  | d :: cs' => if String.eqb (c_Type d) t then Some d else find cs' t
  end.

End ListConditions.

Definition list_conditions : StatusConditions :=
  {| SetStatusCondition := ListConditions.set; FindStatusCondition := ListConditions.find |}.

Lemma list_conditions_laws : StatusConditionsLaws list_conditions.
Proof.
  split; simpl.
  - induction cs as [|d cs IH]; intros c; simpl.
    + by rewrite String.eqb_refl.
    + destruct (String.eqb (c_Type d) (c_Type c)) eqn:E; simpl.
      * by rewrite String.eqb_refl.
      * by rewrite E, IH.
  - induction cs as [|d cs IH]; intros c t Ht; simpl.
    + by rewrite (proj2 (String.eqb_neq _ _)).
    + destruct (String.eqb (c_Type d) (c_Type c)) eqn:E; simpl.
      * apply String.eqb_eq in E. rewrite E, (proj2 (String.eqb_neq _ _)); done.
      * by rewrite IH.
  - induction cs as [|d cs IH]; intros t c; simpl; [done|].
    destruct (String.eqb (c_Type d) t) eqn:E; [|apply IH].
    intros [= <-]. by apply String.eqb_eq.
  - induction cs as [|d cs IH]; intros t c; simpl; [done|].
    destruct (String.eqb (c_Type d) t); [intros [= <-]; by left|intros Hf; right; by apply (IH t)].
Qed.

(** ** Reading and writing a node's conditions *)
Section NodeConditions.
Context {SC : StatusConditions}.

Definition node_cond (n : SeiNode) (t : string) : option Condition :=
  FindStatusCondition (st_Conditions (n_Status n)) t.

(** [meta.SetStatusCondition(&node.Status.Conditions, metav1.Condition{...})]
    with [ObservedGeneration: node.Generation], the form every writer uses. *)
Definition set_node_cond (t : string) (status : ConditionStatus) (reason message : string)
    (n : SeiNode) : SeiNode :=
  upd_status (fun s =>
    set_Conditions
      (SetStatusCondition (st_Conditions s) (mkCondition t status reason message (n_Generation n)))
      s) n.

Definition cond_is (n : SeiNode) (t : string) (status : ConditionStatus) : bool :=
  match node_cond n t with
  | Some c => bool_decide (c_Status c = status)
  | None => false
  end.

Definition cond_reason (n : SeiNode) (t : string) : string :=
  match node_cond n t with Some c => c_Reason c | None => "" end.

Context {SCL : StatusConditionsLaws SC}.

Lemma node_cond_set t st r m n :
  node_cond (set_node_cond t st r m n) t = Some (mkCondition t st r m (n_Generation n)).
Proof. apply (find_set_same _ (mkCondition t st r m (n_Generation n))). Qed.

Lemma node_cond_set_other t t' st r m n :
  t' <> t -> node_cond (set_node_cond t st r m n) t' = node_cond n t'.
Proof. intros H. apply find_set_other. exact H. Qed.

Lemma cond_is_set t st r m n st' :
  cond_is (set_node_cond t st r m n) t st' = bool_decide (st = st').
Proof. unfold cond_is. by rewrite node_cond_set. Qed.

Lemma cond_is_set_other t t' st r m n st' :
  t' <> t -> cond_is (set_node_cond t st r m n) t' st' = cond_is n t' st'.
Proof. intros H. unfold cond_is. by rewrite node_cond_set_other. Qed.

Lemma cond_reason_set t st r m n : cond_reason (set_node_cond t st r m n) t = r.
Proof. unfold cond_reason. by rewrite node_cond_set. Qed.

End NodeConditions.

#[export] Hint Rewrite @node_cond_set @cond_is_set @cond_reason_set using typeclasses eauto : sei_rw.

(** ** Nodes that differ in their conditions only *)
Definition conds_only (n n' : SeiNode) : Prop :=
  exists cs, n' = upd_status (set_Conditions cs) n.

Lemma conds_only_refl n : conds_only n n.
Proof. exists (st_Conditions (n_Status n)). by destruct n as [? ? ? ? ? ? []]. Qed.

Lemma conds_only_trans n1 n2 n3 : conds_only n1 n2 -> conds_only n2 n3 -> conds_only n1 n3.
Proof. intros [cs ->] [cs' ->]. by exists cs'. Qed.

Lemma conds_only_set {SC : StatusConditions} t st r m n : conds_only n (set_node_cond t st r m n).
Proof. by eexists. Qed.

#[export] Hint Resolve conds_only_refl conds_only_set : sei.

#[export] Instance conds_only_preorder : PreOrder conds_only.
Proof. split; [exact conds_only_refl|exact conds_only_trans]. Qed.
