(* ===== verification/Platform.v ===== *)
(** * What the modelled code takes from outside the repository

    Library code the sources only call is a parameter of the model: one class
    per library, and a second class for the properties the code relies on. *)

From stdpp Require Import base list strings gmap.
From Stdlib Require Import ZArith.
From S2P Require Import Prelude Api.

(** sei-config: key names, defaults and ports. *)
Class SeiConfig := {
  KeyP2PExternalAddress : string;
  KeySnapshotInterval : string;
  KeySnapshotKeepRecent : string;
  DefaultSnapshotInterval : Z;
  SnapshotGenerationOverrides : Z -> gmap string string;
  PortEVMHTTP : Z;
  PortP2P : Z;
  PortRPC : Z;
  PortREST : Z;
  PortEVMWS : Z;
}.

(** Hash functions: the text of [uuid.NewSHA1] in the task-ID namespace, and of
    a SHA-256 sum in hexadecimal. *)
Class Hashes := {
  NewSHA1 : string -> string;
  Sum256 : string -> string;
}.

(** UUID v5 is collision-free for the seeds that occur. *)
Class HashesLaws (H : Hashes) : Prop := {
  NewSHA1_inj : forall a b, NewSHA1 a = NewSHA1 b -> a = b;
}.

(** The instances used to run the model. *)
Definition sample_config : SeiConfig := {|
  KeyP2PExternalAddress := "network.p2p.external_address";
  KeySnapshotInterval := "storage.snapshot_interval";
  KeySnapshotKeepRecent := "storage.snapshot_keep_recent";
  DefaultSnapshotInterval := 2000;
  SnapshotGenerationOverrides := fun _ => empty;
  PortEVMHTTP := 8545;
  PortP2P := 26656;
  PortRPC := 26657;
  PortREST := 1317;
  PortEVMWS := 8546;
|}.

Definition sample_hashes : Hashes := {| NewSHA1 := fun s => s; Sum256 := fun s => s |}.

Lemma sample_hashes_laws : HashesLaws sample_hashes.
Proof. by split. Qed.

(** The fields of [platform.Config] (src/internal/platform) the planner reads. *)
Record PlatformConfig := mkPlatformConfig {
  pc_SidecarImage : string;
  pc_DriftUpdateBudgetPercent : Z;
}.

(** ** The API server *)

(** What happens to a call: it is done; it is done and still reports an error; it
    is refused, by a conflict or not. *)
Inductive fault := Done | Lost | Refused (conflict : bool).
Inductive api_error := ENotFound | EConflict | EOther.
#[export] Instance api_error_eq_dec : EqDecision api_error.
Proof. solve_decision. Defined.
