(* ===== verification/Executor.v ===== *)
(** * The plan executor (src/internal/planner/executor.go)

    [executePlan] drives a persisted plan: it submits the first task that is not
    Complete, polls it, and goes on in the same call while tasks complete. The
    model is written against [TaskRuntime], the interface of
    [task.Deserialize]/[TaskExecution], so its theorems hold whatever the tasks
    do to the cluster, to the sidecar and to the owning object. *)

From stdpp Require Import base list strings gmap pretty.
From Stdlib Require Import ZArith Lia.
From S2P Require Import Prelude Api NodeState.

(** ** The interface of a task *)

(** The owning Kubernetes object of a plan. Only a SeiNode has a phase. *)
Inductive Object :=
| ObjNode (n : SeiNode)
| ObjNetwork (name namespace : string)
| ObjOther (name namespace : string).

Definition obj_namespace (o : Object) : string :=
  match o with
  | ObjNode n => n_Namespace n
  | ObjNetwork _ ns => ns
  | ObjOther _ ns => ns
  end.

Definition obj_name (o : Object) : string :=
  match o with
  | ObjNode n => n_Name n
  | ObjNetwork name _ => name
  | ObjOther name _ => name
  end.

(** [ExecutionOther] stands for every status string but the three named ones,
    the [default] arm of the executor's switch. *)
Inductive ExecutionStatus := ExecutionRunning | ExecutionComplete | ExecutionFailed | ExecutionOther.
#[export] Instance ExecutionStatus_eq_dec : EqDecision ExecutionStatus.
Proof. solve_decision. Defined.

(** An [Execute] error: its text, and whether [errors.As] finds a
    [TerminalError] in its chain. *)
Record exec_error := mkExecError { ee_terminal : bool; ee_msg : string }.

Class TaskRuntime (W : Type) := {
  TaskExecution : Type;
  Deserialize : string -> string -> option TaskParams -> Object -> result TaskExecution;
  Execute : TaskExecution -> Object -> W -> option exec_error * TaskExecution * Object * W;
  Status : TaskExecution -> Object -> W -> ExecutionStatus * TaskExecution * Object * W;
  ExecErr : TaskExecution -> option string;
}.

(** ** Definitions *)

(** Durations are nanoseconds, as in Go's [time.Duration]. *)
Definition second : Z := 1000000000.
Definition TaskPollInterval : Z := 5 * second.
Definition maxRetryBackoff : Z := 30 * second.

(** [ctrl.Result]: the requeue delay, 0 for none. *)
Record Result := mkResult { RequeueAfter : Z }.
Definition ResultRequeueImmediate : Result := mkResult 1000000.
Definition ResultNone : Result := mkResult 0.
Definition ResultPoll : Result := mkResult TaskPollInterval.

Definition controllerName (o : Object) : string :=
  match o with
  | ObjNode _ => "seinode"
  | ObjNetwork _ _ => "seinetwork"
  | ObjOther _ _ => "unknown"
  end.

Definition needsSubmission (t : PlannedTask) : bool :=
  bool_decide (pt_Status t = TaskPending).

(** The index of the first task that is not Complete. *)
Definition CurrentTask (p : TaskPlan) : option nat :=
  fst <$> list_find (fun t => pt_Status t <> TaskComplete) (pl_Tasks p).

Definition retryBackoff (attempt : Z) : Z :=
  let d := (TaskPollInterval * Z.shiftl 1 (Z.min attempt 5))%Z in
  if (maxRetryBackoff <? d)%Z then maxRetryBackoff else d.

Definition setTargetPhase (o : Object) (phase : SeiNodePhase) (now : Z) : Object :=
  match phase with
  | PhaseNone => o
  | _ =>
      match o with
      | ObjNode n => ObjNode (upd_status (set_Phase phase now) n)
      | _ => o
      end
  end.

(** Field updates of a planned task. *)
Definition task_submitted (now : Z) (t : PlannedTask) : PlannedTask :=
  match pt_SubmittedAt t with
  | Some _ => t
  | None => mkPlannedTask (pt_Type t) (pt_ID t) (pt_Status t) (pt_Params t) (Some now)
              (pt_Error t) (pt_MaxRetries t) (pt_RetryCount t)
  end.

Definition task_completed (t : PlannedTask) : PlannedTask :=
  mkPlannedTask (pt_Type t) (pt_ID t) TaskComplete (pt_Params t) (pt_SubmittedAt t)
    (pt_Error t) (pt_MaxRetries t) (pt_RetryCount t).

Definition task_retried (t : PlannedTask) : PlannedTask :=
  mkPlannedTask (pt_Type t) (pt_ID t) TaskPending (pt_Params t) None
    "" (pt_MaxRetries t) (pt_RetryCount t + 1).

Definition task_failed (msg : string) (t : PlannedTask) : PlannedTask :=
  mkPlannedTask (pt_Type t) (pt_ID t) TaskFailed (pt_Params t) (pt_SubmittedAt t)
    msg (pt_MaxRetries t) (pt_RetryCount t).

Definition plan_with_tasks (p : TaskPlan) (ts : list PlannedTask) : TaskPlan :=
  mkTaskPlan (pl_ID p) (pl_Phase p) ts (pl_TargetPhase p) (pl_ConfigValuesHash p)
    (pl_FailedPhase p) (pl_FailedTaskIndex p) (pl_FailedTaskDetail p).

Definition plan_with_phase (p : TaskPlan) (ph : TaskPlanPhase) : TaskPlan :=
  mkTaskPlan (pl_ID p) ph (pl_Tasks p) (pl_TargetPhase p) (pl_ConfigValuesHash p)
    (pl_FailedPhase p) (pl_FailedTaskIndex p) (pl_FailedTaskDetail p).

(** A plan with task [i] replaced: the pointer [t] the Go code holds. *)
Definition plan_set_task (p : TaskPlan) (i : nat) (t : PlannedTask) : TaskPlan :=
  plan_with_tasks p (<[i := t]> (pl_Tasks p)).

(** What [executePlan] reads and writes: the owner, the plan, the outside world
    and the [planActiveCount] up-down counter, per controller and namespace. *)
Record exec_state (W : Type) := mkState {
  es_obj : Object;
  es_plan : TaskPlan;
  es_world : W;
  es_active : gmap (string * string) Z;
}.
Arguments mkState {W} _ _ _ _.
Arguments es_obj {W} _.
Arguments es_plan {W} _.
Arguments es_world {W} _.
Arguments es_active {W} _.

Definition active_add (cn ns : string) (d : Z) (g : gmap (string * string) Z)
    : gmap (string * string) Z :=
  <[(cn, ns) := (default 0 (g !! (cn, ns)) + d)%Z]> g.

(** The index [failTask] records: the first task with the failing task's ID. *)
Definition index_of_id (id : string) (ts : list PlannedTask) : option nat :=
  fst <$> list_find (fun t => pt_ID t = id) ts.

Section Executor.
Context {W : Type} {RT : TaskRuntime W}.
Variable now : Z.

Definition failTask (cn : string) (i : nat) (t : PlannedTask) (msg : string)
    (s : exec_state W) : exec_state W :=
  let t' := task_failed msg t in
  let p := plan_set_task (es_plan s) i t' in
  let idx := match index_of_id (pt_ID t) (pl_Tasks p) with
             | Some j => Some j
             | None => pl_FailedTaskIndex p
             end in
  let p' := mkTaskPlan (pl_ID p) TaskPlanFailed (pl_Tasks p) (pl_TargetPhase p)
              (pl_ConfigValuesHash p) (pl_FailedPhase p) idx
              (Some (mkFailedTaskInfo (pt_Type t) (pt_ID t) msg (pt_RetryCount t) (pt_MaxRetries t))) in
  mkState (setTargetPhase (es_obj s) (pl_FailedPhase p) now) p' (es_world s)
    (active_add cn (obj_namespace (es_obj s)) (-1) (es_active s)).

(** [advanceTask] after the submission: poll the execution and act on it. *)
Definition pollTask (cn : string) (i : nat) (t : PlannedTask) (ex : TaskExecution)
    (s : exec_state W) : Result * exec_state W :=
  let '(st, ex', o, w) := Status ex (es_obj s) (es_world s) in
  let s := mkState o (es_plan s) w (es_active s) in
  match st with
  | ExecutionRunning | ExecutionOther => (ResultPoll, s)
  | ExecutionComplete =>
      (ResultRequeueImmediate,
       mkState o (plan_set_task (es_plan s) i (task_completed t)) w (es_active s))
  | ExecutionFailed =>
      let msg := default "unknown error" (ExecErr ex') in
      if (0 <? pt_MaxRetries t)%Z && (pt_RetryCount t <? pt_MaxRetries t)%Z then
        let t' := task_retried t in
        (mkResult (retryBackoff (pt_RetryCount t')),
         mkState o (plan_set_task (es_plan s) i t') w (es_active s))
      else (ResultNone, failTask cn i t msg s)
  end.

Definition advanceTask (cn : string) (i : nat) (t : PlannedTask) (s : exec_state W)
    : Result * exec_state W :=
  match Deserialize (pt_Type t) (pt_ID t) (pt_Params t) (es_obj s) with
  | Err e => (ResultNone, failTask cn i t e s)
  | Ok ex =>
      if needsSubmission t then
        let '(err, ex', o, w) := Execute ex (es_obj s) (es_world s) in
        let s := mkState o (es_plan s) w (es_active s) in
        match err with
        | Some e =>
            if ee_terminal e then (ResultNone, failTask cn i t (ee_msg e) s)
            else (ResultPoll, s)
        | None =>
            let t' := task_submitted now t in
            pollTask cn i t' ex'
              (mkState o (plan_set_task (es_plan s) i t') w (es_active s))
        end
      else pollTask cn i t ex s
  end.

(** All tasks complete: the plan is marked Complete and the target phase set. *)
Definition completePlan (cn : string) (s : exec_state W) : exec_state W :=
  let p := plan_with_phase (es_plan s) TaskPlanComplete in
  let o := match es_obj s with
           | ObjNode n =>
               if pl_ConfigValuesHash p <>s ""
               then ObjNode (upd_status (set_CurrentConfigValuesHash (pl_ConfigValuesHash p)) n)
               else ObjNode n
           | o => o
           end in
  mkState (setTargetPhase o (pl_TargetPhase p) now) p (es_world s)
    (active_add cn (obj_namespace (es_obj s)) (-1) (es_active s)).

(** The [for] loop of [executePlan], with fuel. *)
Fixpoint executeLoop (cn : string) (fuel : nat) (s : exec_state W)
    : option (Result * exec_state W) :=
  match fuel with
  | O => None
  | S fuel' =>
      match CurrentTask (es_plan s) with
      | None => Some (ResultRequeueImmediate, completePlan cn s)
      | Some i =>
          match pl_Tasks (es_plan s) !! i with
          | None => None
          | Some t =>
              let '(r, s') := advanceTask cn i t s in
              match pl_Tasks (es_plan s') !! i with
              | None => None
              | Some t' =>
                  if decide (pt_Status t' = TaskComplete)
                  then executeLoop cn fuel' s' else Some (r, s')
              end
          end
      end
  end.

(** One iteration per task and one to notice the end is all the loop can do;
    [executePlan_total] shows this fuel is enough. *)
Definition executePlan (s : exec_state W) : option (Result * exec_state W) :=
  let cn := controllerName (es_obj s) in
  match pl_Phase (es_plan s) with
  | TaskPlanComplete | TaskPlanFailed => Some (ResultNone, s)
  | TaskPlanActive =>
      executeLoop cn (S (length (pl_Tasks (es_plan s))))
        (mkState (es_obj s) (es_plan s) (es_world s)
           (active_add cn (obj_namespace (es_obj s)) 1 (es_active s)))
  end.

(** [Executor.ExecutePlan]: the nil-plan check in front of [executePlan]. *)
Definition ExecutePlan (o : Object) (p : option TaskPlan) (w : W) (g : gmap (string * string) Z)
    : result (option (Result * exec_state W)) :=
  match p with
  | None => Err ("ExecutePlan called with nil plan for " +:+ obj_namespace o +:+ "/" +:+ obj_name o)
  | Some p => Ok (executePlan (mkState o p w g))
  end.

End Executor.

(** ** What one step of the executor does to the plan *)

(** The four ways [advanceTask] can leave a plan, for the task [t] at [i]. *)
Inductive advance_outcome (p : TaskPlan) (i : nat) (t : PlannedTask) : TaskPlan -> Prop :=
| adv_waiting t' :
    pt_ID t' = pt_ID t -> pt_Type t' = pt_Type t -> pt_Status t' = pt_Status t ->
    pt_RetryCount t' = pt_RetryCount t -> pt_MaxRetries t' = pt_MaxRetries t ->
    advance_outcome p i t (plan_set_task p i t')
| adv_completed t' :
    pt_ID t' = pt_ID t -> pt_Type t' = pt_Type t -> pt_Status t' = TaskComplete ->
    pt_RetryCount t' = pt_RetryCount t -> pt_MaxRetries t' = pt_MaxRetries t ->
    advance_outcome p i t (plan_set_task p i t')
| adv_retried :
    (pt_RetryCount t < pt_MaxRetries t)%Z ->
    advance_outcome p i t (plan_set_task p i (task_retried t))
| adv_failed t' p' :
    pt_ID t' = pt_ID t -> pt_Type t' = pt_Type t -> pt_Status t' = TaskFailed ->
    pt_RetryCount t' = pt_RetryCount t -> pt_MaxRetries t' = pt_MaxRetries t ->
    pl_Phase p' = TaskPlanFailed -> pl_Tasks p' = <[i := t']> (pl_Tasks p) ->
    pl_ID p' = pl_ID p -> pl_FailedPhase p' = pl_FailedPhase p ->
    pl_TargetPhase p' = pl_TargetPhase p ->
    pl_ConfigValuesHash p' = pl_ConfigValuesHash p ->
    pl_FailedTaskIndex p' = index_of_id (pt_ID t) (<[i := t']> (pl_Tasks p)) ->
    pl_FailedTaskDetail p' = Some (mkFailedTaskInfo (pt_Type t) (pt_ID t) (pt_Error t')
                                     (pt_RetryCount t) (pt_MaxRetries t)) ->
    advance_outcome p i t p'.

Lemma plan_set_task_twice p i t t' :
  plan_set_task (plan_set_task p i t) i t' = plan_set_task p i t'.
Proof. unfold plan_set_task, plan_with_tasks; simpl. by rewrite list_insert_insert_eq. Qed.

Lemma plan_set_task_id p i t :
  pl_Tasks p !! i = Some t -> plan_set_task p i t = p.
Proof.
  intros H. unfold plan_set_task, plan_with_tasks. rewrite list_insert_id by done. by destruct p.
Qed.

Lemma adv_unchanged p i t : pl_Tasks p !! i = Some t -> advance_outcome p i t p.
Proof.
  intros H. pose proof (adv_waiting p i t t eq_refl eq_refl eq_refl eq_refl eq_refl) as Ha.
  by rewrite plan_set_task_id in Ha.
Qed.

Lemma index_of_id_insert i (t : PlannedTask) ts :
  i < length ts -> exists j, index_of_id (pt_ID t) (<[i := t]> ts) = Some j /\ j <= i.
Proof.
  intros Hi. unfold index_of_id.
  destruct (list_find (fun t0 => pt_ID t0 = pt_ID t) (<[i:=t]> ts)) as [[j u]|] eqn:E; simpl.
  - exists j. split; [done|]. apply list_find_Some in E as (_ & _ & Hfirst).
    destruct (decide (j <= i)) as [|Hn]; [done|]. exfalso.
    apply (Hfirst i t); [by apply list_lookup_insert_eq | lia | done].
  - exfalso. apply list_find_None in E. rewrite Forall_forall in E.
    apply (E t); [|done].
    apply list_elem_of_lookup. exists i. by apply list_lookup_insert_eq.
Qed.

Section Steps.
Context {W : Type} {RT : TaskRuntime W}.
Variable now : Z.
Implicit Types (s : exec_state W) (p : TaskPlan) (t : PlannedTask).

(** Failing the task [u], the current form of the task [t] at index [i]. *)
Lemma failTask_outcome cn i t u msg s :
  pl_Tasks (es_plan s) !! i = Some t -> pt_ID u = pt_ID t -> pt_Type u = pt_Type t ->
  pt_RetryCount u = pt_RetryCount t -> pt_MaxRetries u = pt_MaxRetries t ->
  advance_outcome (es_plan s) i t (es_plan (failTask now cn i u msg s)).
Proof.
  intros Hi Hid Hty Hr Hm. apply adv_failed with (t' := task_failed msg u); simpl; try done.
  - destruct (index_of_id_insert i (task_failed msg u) (pl_Tasks (es_plan s))) as (j & Hj & _).
    { by eapply lookup_lt_Some. }
    simpl in Hj. rewrite Hj. by rewrite <- Hid, Hj.
  - congruence.
Qed.

Lemma pollTask_outcome cn i t u ex s p0 :
  pl_Tasks p0 !! i = Some t -> es_plan s = plan_set_task p0 i u ->
  pt_ID u = pt_ID t -> pt_Type u = pt_Type t -> pt_Status u = pt_Status t ->
  pt_RetryCount u = pt_RetryCount t -> pt_MaxRetries u = pt_MaxRetries t ->
  task_retried u = task_retried t ->
  advance_outcome p0 i t (es_plan (pollTask now cn i u ex s).2).
Proof.
  intros Hi Hs Hid Hty Hst Hr Hm Hre. unfold pollTask.
  destruct (Status ex (es_obj s) (es_world s)) as [[[st ex'] o] w].
  destruct st; simpl.
  - rewrite Hs. by apply adv_waiting.
  - rewrite Hs, plan_set_task_twice. by apply adv_completed.
  - destruct ((0 <? pt_MaxRetries u)%Z && (pt_RetryCount u <? pt_MaxRetries u)%Z) eqn:E; simpl.
    + rewrite Hs, plan_set_task_twice, Hre. apply adv_retried.
      apply andb_true_iff in E as [_ E]. apply Z.ltb_lt in E. lia.
    + assert (Hlt : i < length (pl_Tasks p0)) by by eapply lookup_lt_Some.
      rewrite Hs.
      apply adv_failed with (t' := task_failed (default "unknown error" (ExecErr ex')) u);
        simpl; rewrite ?list_insert_insert_eq; try done.
      * destruct (index_of_id_insert i (task_failed (default "unknown error" (ExecErr ex')) u)
                    (pl_Tasks p0) Hlt) as (j & Hj & _).
        simpl in Hj. rewrite Hj, <- Hid, Hj. done.
      * congruence.
  - rewrite Hs. by apply adv_waiting.
Qed.

Lemma task_submitted_same t :
  pt_ID (task_submitted now t) = pt_ID t /\ pt_Type (task_submitted now t) = pt_Type t /\
  pt_Status (task_submitted now t) = pt_Status t /\
  pt_RetryCount (task_submitted now t) = pt_RetryCount t /\
  pt_MaxRetries (task_submitted now t) = pt_MaxRetries t /\
  task_retried (task_submitted now t) = task_retried t.
Proof. unfold task_submitted. by destruct (pt_SubmittedAt t). Qed.

Lemma advanceTask_outcome cn i t s :
  pl_Tasks (es_plan s) !! i = Some t ->
  advance_outcome (es_plan s) i t (es_plan (advanceTask now cn i t s).2).
Proof.
  intros Hi. unfold advanceTask.
  destruct (Deserialize _ _ _ _) as [ex|e]; [|by apply failTask_outcome].
  destruct (needsSubmission t).
  - destruct (Execute ex (es_obj s) (es_world s)) as [[[err ex'] o] w].
    destruct err as [e|].
    + destruct (ee_terminal e); simpl.
      * by apply (failTask_outcome cn i t t (ee_msg e) (mkState o (es_plan s) w (es_active s))).
      * by apply adv_unchanged.
    + destruct (task_submitted_same t) as (? & ? & ? & ? & ? & ?).
      by eapply pollTask_outcome.
  - eapply pollTask_outcome; try done. by rewrite plan_set_task_id.
Qed.

End Steps.

(** ** The shape of a plan *)

Definition is_complete (t : PlannedTask) : Prop := pt_Status t = TaskComplete.
Definition is_pending (t : PlannedTask) : Prop := pt_Status t = TaskPending.
(** The retry budget: never more retries than the plan allows. *)
Definition retry_ok (t : PlannedTask) : Prop := (0 <= pt_RetryCount t <= Z.max 0 (pt_MaxRetries t))%Z.
(** What the executor never changes of a task. *)
Definition task_key (t : PlannedTask) : string * string := (pt_Type t, pt_ID t).

(** The well-formedness of a plan. Active: a completed prefix, then tasks still
    to run. Complete: every task is. Failed: a completed prefix, the one failed
    task, whose detail the plan carries, and tasks that never ran. *)
Definition plan_wf (p : TaskPlan) : Prop :=
  Forall retry_ok (pl_Tasks p) /\
  match pl_Phase p with
  | TaskPlanActive =>
      exists finished todo, pl_Tasks p = finished ++ todo /\
        Forall is_complete finished /\ Forall is_pending todo
  | TaskPlanComplete => Forall is_complete (pl_Tasks p)
  | TaskPlanFailed =>
      exists finished t todo, pl_Tasks p = finished ++ t :: todo /\
        Forall is_complete finished /\ pt_Status t = TaskFailed /\ Forall is_pending todo /\
        pl_FailedTaskDetail p = Some (mkFailedTaskInfo (pt_Type t) (pt_ID t) (pt_Error t)
                                        (pt_RetryCount t) (pt_MaxRetries t)) /\
        pl_FailedTaskIndex p = index_of_id (pt_ID t) (pl_Tasks p)
  end.

(** A plan as the builders hand it over: Active, nothing started. *)
Definition fresh_task (t : PlannedTask) : Prop :=
  pt_Status t = TaskPending /\ pt_RetryCount t = 0%Z.
Definition fresh_plan (p : TaskPlan) : Prop :=
  pl_Phase p = TaskPlanActive /\ Forall fresh_task (pl_Tasks p).

Lemma fresh_plan_wf p : fresh_plan p -> plan_wf p.
Proof.
  intros [Hp Ht]. split.
  - eapply Forall_impl; [exact Ht|]. intros t [_ H]. unfold retry_ok. rewrite H. lia.
  - rewrite Hp. exists [], (pl_Tasks p). split_and!; [done..|].
    eapply Forall_impl; [exact Ht|]. by intros t [H _].
Qed.

(** The tasks still to complete: the measure of the loop. *)
Definition remaining (p : TaskPlan) : nat :=
  length (filter (fun t => pt_Status t <> TaskComplete) (pl_Tasks p)).

Lemma CurrentTask_Some p i :
  CurrentTask p = Some i ->
  exists finished t todo, pl_Tasks p = finished ++ t :: todo /\ length finished = i /\
    Forall is_complete finished /\ pt_Status t <> TaskComplete.
Proof.
  unfold CurrentTask. destruct (list_find _ _) as [[j t]|] eqn:E; intros [= <-]; simpl.
  apply list_find_Some in E as (Ht & Hne & Hfirst).
  destruct (list_elem_of_split_length _ _ _ Ht) as (l1 & l2 & Hl & ->).
  exists l1, t, l2. split_and!; [done..| |done].
  apply Forall_lookup. intros k u Hu.
  destruct (decide (pt_Status u = TaskComplete)) as [|Hn]; [done|].
  exfalso. apply (Hfirst k u); [|by eapply lookup_lt_Some|done].
  rewrite Hl. by apply lookup_app_l_Some.
Qed.

Lemma CurrentTask_None p : CurrentTask p = None <-> Forall is_complete (pl_Tasks p).
Proof.
  unfold CurrentTask. destruct (list_find _ _) as [[j t]|] eqn:E; simpl.
  - split; [done|]. intros H. apply list_find_Some in E as (Ht & Hne & _).
    rewrite Forall_lookup in H. by specialize (H _ _ Ht).
  - split; [|done]. intros _. apply list_find_None in E.
    eapply Forall_impl; [exact E|]. intros t Ht. simpl in Ht.
    unfold is_complete. destruct (decide (pt_Status t = TaskComplete)); [done|]. by destruct Ht.
Qed.

(** Two splits of a list into a completed prefix and a task that is not. *)
Lemma split_le (a b c d : list PlannedTask) x y :
  a ++ x :: c = b ++ y :: d -> Forall is_complete a -> ~ is_complete y -> length a <= length b.
Proof.
  intros Heq Ha Hy. destruct (decide (length a <= length b)) as [|Hgt]; [done|].
  exfalso. apply Hy.
  assert (Hl : (a ++ x :: c) !! length b = Some y).
  { rewrite Heq, lookup_app_r by lia. by rewrite Nat.sub_diag. }
  rewrite lookup_app_l in Hl by lia. rewrite Forall_lookup in Ha. eauto.
Qed.

Lemma split_unique (a b c d : list PlannedTask) x y :
  a ++ x :: c = b ++ y :: d -> Forall is_complete a -> Forall is_complete b ->
  ~ is_complete x -> ~ is_complete y -> a = b /\ x = y /\ c = d.
Proof.
  intros Heq Ha Hb Hx Hy.
  assert (Hlen : length a = length b).
  { apply Nat.le_antisymm; [eapply (split_le a b) | eapply (split_le b a)]; eauto. }
  apply app_inj_1 in Heq as [-> [=]]; done.
Qed.

Lemma pending_not_complete t : is_pending t -> ~ is_complete t.
Proof. unfold is_pending, is_complete. congruence. Qed.

Lemma active_split finished todo (a d : list PlannedTask) y :
  finished ++ todo = a ++ y :: d -> Forall is_complete finished -> Forall is_complete a ->
  Forall is_pending todo -> ~ is_complete y -> a = finished /\ todo = y :: d.
Proof.
  intros Heq Hf Ha Hp Hy. destruct Hp as [|x c Hx Hc].
  - exfalso. apply Hy. rewrite app_nil_r in Heq. subst. apply Forall_app in Hf as [_ Hf].
    by inversion Hf.
  - destruct (split_unique finished a c d x y) as (-> & -> & ->); auto.
    by apply pending_not_complete.
Qed.

Lemma insert_middle {A} (l1 l2 : list A) x y :
  <[length l1 := y]> (l1 ++ x :: l2) = l1 ++ y :: l2.
Proof. rewrite insert_app_r_alt by lia. by rewrite Nat.sub_diag. Qed.

Lemma remaining_middle p finished t todo :
  pl_Tasks p = finished ++ t :: todo -> Forall is_complete finished ->
  remaining p = length (filter (fun u => pt_Status u <> TaskComplete) (t :: todo)).
Proof.
  intros Hp Hd. unfold remaining. rewrite Hp, filter_app, length_app.
  replace (filter (fun u => pt_Status u <> TaskComplete) finished) with (@nil PlannedTask); [done|].
  symmetry. clear Hp. induction Hd as [|u l Hu Hl IH]; [done|].
  rewrite filter_cons_False; [done|]. by intros [].
Qed.

Lemma outcome_tasks p i t p' :
  advance_outcome p i t p' ->
  exists t', pl_Tasks p' = <[i := t']> (pl_Tasks p) /\ task_key t' = task_key t /\
    (retry_ok t -> retry_ok t').
Proof.
  unfold task_key, retry_ok.
  destruct 1; [exists t' | exists t' | exists (task_retried t) | exists t'];
    (split; [done|]); split; simpl; try congruence; lia.
Qed.

(** A step that completes its task leaves the plan's phase alone. *)
Lemma outcome_active p i t p' t' :
  advance_outcome p i t p' -> pl_Tasks p !! i = Some t -> pl_Tasks p' !! i = Some t' ->
  is_complete t' -> pl_Phase p' = pl_Phase p.
Proof.
  intros Ho Hi Hi' Hc. destruct Ho as [| | |v p' Hid Hty Hst Hrc Hmr Hph Hts]; simpl; try done.
  exfalso. rewrite Hts, list_lookup_insert_eq in Hi' by by eapply lookup_lt_Some.
  simplify_eq. unfold is_complete in Hc. congruence.
Qed.

Lemma lookup_middle {A} (l1 l2 : list A) x : (l1 ++ x :: l2) !! length l1 = Some x.
Proof. rewrite lookup_app_r by lia. by rewrite Nat.sub_diag. Qed.

(** ** The loop *)
Section Loop.
Context {W : Type} {RT : TaskRuntime W}.
Variable now : Z.
Implicit Types (s : exec_state W) (p : TaskPlan) (t : PlannedTask).

(** One iteration, by what it does to the plan. *)
Inductive loop_step (cn : string) (fuel : nat) (s : exec_state W) (r : Result)
    (s' : exec_state W) : Prop :=
| loop_done :
    Forall is_complete (pl_Tasks (es_plan s)) -> r = ResultRequeueImmediate ->
    s' = completePlan now cn s -> loop_step cn fuel s r s'
| loop_advance finished t todo t' s1 :
    pl_Tasks (es_plan s) = finished ++ t :: todo -> Forall is_complete finished ->
    ~ is_complete t ->
    advance_outcome (es_plan s) (length finished) t (es_plan s1) ->
    advanceTask now cn (length finished) t s = (ResultRequeueImmediate, s1) ->
    pl_Tasks (es_plan s1) = finished ++ t' :: todo -> is_complete t' ->
    executeLoop now cn fuel s1 = Some (r, s') -> loop_step cn fuel s r s'
| loop_stop finished t todo t' :
    pl_Tasks (es_plan s) = finished ++ t :: todo -> Forall is_complete finished ->
    ~ is_complete t ->
    advance_outcome (es_plan s) (length finished) t (es_plan s') ->
    advanceTask now cn (length finished) t s = (r, s') ->
    pl_Tasks (es_plan s') = finished ++ t' :: todo -> ~ is_complete t' ->
    loop_step cn fuel s r s'.

(** A task that becomes Complete asks for an immediate requeue. *)
Lemma advanceTask_complete_result cn i t s r s1 t' :
  pl_Tasks (es_plan s) !! i = Some t -> ~ is_complete t ->
  advanceTask now cn i t s = (r, s1) -> pl_Tasks (es_plan s1) !! i = Some t' ->
  is_complete t' -> r = ResultRequeueImmediate.
Proof.
  intros Hi Ht Hadv Hi' Hc.
  assert (Hlt : i < length (pl_Tasks (es_plan s))) by by eapply lookup_lt_Some.
  assert (Hpoll : forall u ex s0, es_plan s0 = plan_set_task (es_plan s) i u -> ~ is_complete u ->
    pollTask now cn i u ex s0 = (r, s1) -> r = ResultRequeueImmediate).
  { intros u ex s0 Hs0 Hu. unfold pollTask.
    destruct (Status ex (es_obj s0) (es_world s0)) as [[[[] ex'] o] w]; simpl;
      [| intros [= <- _]; done | destruct (_ && _)%bool | ]; intros [= <- <-]; exfalso;
      revert Hi'; simpl; rewrite ?Hs0; simpl;
      rewrite ?list_insert_insert_eq, list_lookup_insert_eq by done; intros [= <-]; done. }
  unfold advanceTask in Hadv. destruct (Deserialize _ _ _ _) as [ex|e].
  - destruct (needsSubmission t).
    + destruct (Execute ex (es_obj s) (es_world s)) as [[[[e|] ex'] o] w].
      * exfalso. destruct (ee_terminal e); simplify_eq; simpl in *.
        -- rewrite list_lookup_insert_eq in Hi' by done. by simplify_eq.
        -- by rewrite Hi in Hi'; simplify_eq.
      * eapply Hpoll; [| |exact Hadv]; [done|].
        unfold is_complete. by destruct (task_submitted_same now t) as (_ & _ & -> & _).
    + eapply Hpoll; [| |exact Hadv]; [|done]. by rewrite plan_set_task_id.
  - simplify_eq. simpl in Hi'. rewrite list_lookup_insert_eq in Hi' by done. by simplify_eq.
Qed.

Lemma executeLoop_S cn fuel s r s' :
  executeLoop now cn (S fuel) s = Some (r, s') -> loop_step cn fuel s r s'.
Proof.
  simpl. destruct (CurrentTask (es_plan s)) as [i|] eqn:E.
  - destruct (CurrentTask_Some _ _ E) as (fin & t & todo & Hp & Hlen & Hf & Ht).
    assert (Hi : pl_Tasks (es_plan s) !! i = Some t).
    { rewrite Hp, lookup_app_r by lia. by replace (i - length fin) with 0 by lia. }
    rewrite Hi. destruct (advanceTask now cn i t s) as [r1 s1] eqn:Ea. simpl.
    pose proof (advanceTask_outcome now cn i t s Hi) as Ho. rewrite Ea in Ho; simpl in Ho.
    destruct (outcome_tasks _ _ _ _ Ho) as (t' & Ht' & _).
    rewrite Hp, <- Hlen, insert_middle in Ht'.
    assert (Hi' : pl_Tasks (es_plan s1) !! i = Some t').
    { rewrite Ht', lookup_app_r by lia. by replace (i - length fin) with 0 by lia. }
    rewrite Hi'. subst i. case_decide as Hc.
    + intros Hl. pose proof (advanceTask_complete_result _ _ _ _ _ _ _ Hi Ht Ea Hi' Hc) as ->.
      by eapply loop_advance.
    + intros [= <- <-]. by eapply loop_stop.
  - intros [= <- <-]. apply CurrentTask_None in E. by apply loop_done.
Qed.

Lemma executeLoop_total cn fuel s :
  remaining (es_plan s) < fuel -> exists r s', executeLoop now cn fuel s = Some (r, s').
Proof.
  revert s. induction fuel as [|fuel IH]; intros s Hr; [lia|]. simpl.
  destruct (CurrentTask (es_plan s)) as [i|] eqn:E; [|eauto].
  destruct (CurrentTask_Some _ _ E) as (fin & t & todo & Hp & Hlen & Hf & Ht).
  assert (Hi : pl_Tasks (es_plan s) !! i = Some t).
  { rewrite Hp, lookup_app_r by lia. by replace (i - length fin) with 0 by lia. }
  rewrite Hi. destruct (advanceTask now cn i t s) as [r1 s1] eqn:Ea.
  pose proof (advanceTask_outcome now cn i t s Hi) as Ho. rewrite Ea in Ho; simpl in Ho.
  destruct (outcome_tasks _ _ _ _ Ho) as (t' & Ht' & _).
  rewrite Hp, <- Hlen, insert_middle in Ht'.
  assert (Hi' : pl_Tasks (es_plan s1) !! i = Some t').
  { rewrite Ht', lookup_app_r by lia. by replace (i - length fin) with 0 by lia. }
  rewrite Hi'. case_decide as Hc; [|eauto].
  apply IH. rewrite (remaining_middle _ _ _ _ Ht') by done.
  rewrite (remaining_middle _ _ _ _ Hp) in Hr by done.
  rewrite filter_cons_False by (by intros []).
  rewrite filter_cons_True in Hr by done. simpl in Hr. lia.
Qed.

(** The loop from a completed prefix and pending tasks: it ends in a
    well-formed plan with the same tasks. *)
Lemma executeLoop_wf cn fuel s r s' finished todo :
  pl_Phase (es_plan s) = TaskPlanActive -> pl_Tasks (es_plan s) = finished ++ todo ->
  Forall is_complete finished -> Forall is_pending todo -> Forall retry_ok (pl_Tasks (es_plan s)) ->
  executeLoop now cn fuel s = Some (r, s') ->
  plan_wf (es_plan s') /\
  task_key <$> pl_Tasks (es_plan s') = task_key <$> pl_Tasks (es_plan s).
Proof.
  revert s finished todo. induction fuel as [|fuel IH]; intros s fin0 todo0 Hact Hp0 Hf0 Hpend Hretry Hrun;
    [done|].
  destruct (executeLoop_S _ _ _ _ _ Hrun)
    as [Hall _ -> | fin t todo t' s1 Hp Hf Ht Ho _ Ht' Hc Hl | fin t todo t' Hp Hf Ht Ho _ Ht' Hc];
    [by repeat split| |];
    (rewrite Hp0 in Hp; destruct (active_split _ _ _ _ _ Hp Hf0 Hf Hpend Ht) as [-> ->];
     destruct (outcome_tasks _ _ _ _ Ho) as (u & Hu & Hk & Hru);
     rewrite Hp0, insert_middle, Ht' in Hu; apply app_inv_head in Hu; injection Hu as ->;
     rewrite Hp0 in Hretry; apply Forall_app in Hretry as [Hr0 Hr1];
     inversion Hr1; inversion Hpend; subst;
     assert (Hr2 : Forall retry_ok (fin0 ++ u :: todo)) by (apply Forall_app; split; auto)).
  - destruct (IH s1 (fin0 ++ [u]) todo) as [Hw Hkeys]; try done.
    + rewrite <- Hact. eapply outcome_active; [exact Ho|..|exact Hc].
      * rewrite Hp0. apply lookup_middle.
      * rewrite Ht'. apply lookup_middle.
    + by rewrite Ht', <- app_assoc.
    + by apply Forall_app; split; [|constructor].
    + by rewrite Ht'.
    + split; [done|]. by rewrite Hkeys, Ht', Hp0, !fmap_app, !fmap_cons, Hk.
  - split; [|by rewrite Ht', Hp0, !fmap_app, !fmap_cons, Hk].
    split; [by rewrite Ht'|].
    destruct Ho as [v Hid Hty Hst| | |v p' Hid Hty Hst Hrc Hmr Hph Hts _ _ _ _ Hidx Hdet].
    + simpl. rewrite Hact. exists fin0, (u :: todo). split; [done|]. split; [done|].
      constructor; [|done]. simpl in Ht'. rewrite Hp0, insert_middle in Ht'.
      apply app_inv_head in Ht'. simplify_eq. unfold is_pending in *. congruence.
    + simpl in Ht'. rewrite Hp0, insert_middle in Ht'. apply app_inv_head in Ht'. by simplify_eq.
    + simpl. rewrite Hact. exists fin0, (u :: todo). split; [done|]. split; [done|].
      constructor; [|done]. simpl in Ht'. rewrite Hp0, insert_middle in Ht'.
      apply app_inv_head in Ht'. by simplify_eq.
    + rewrite Hph. exists fin0, u, todo. rewrite Hts, Hp0, insert_middle in Ht'.
      apply app_inv_head in Ht'. simplify_eq. rewrite Hts, Hp0, insert_middle.
      rewrite Hp0, insert_middle in Hidx. split_and!; try done; congruence.
Qed.

(** The IDs of a plan's tasks are distinct: how the builders make them. *)
Definition ids_distinct (p : TaskPlan) : Prop := NoDup (pt_ID <$> pl_Tasks p).

Lemma index_of_id_middle (l1 l2 : list PlannedTask) t :
  NoDup (pt_ID <$> (l1 ++ t :: l2)) -> index_of_id (pt_ID t) (l1 ++ t :: l2) = Some (length l1).
Proof.
  intros Hnd. unfold index_of_id.
  destruct (list_find (fun u => pt_ID u = pt_ID t) (l1 ++ t :: l2)) as [[j u]|] eqn:E; simpl.
  - apply list_find_Some in E as (Hj & Hid & _). f_equal.
    eapply (NoDup_lookup (pt_ID <$> (l1 ++ t :: l2))); [done| |].
    + by rewrite list_lookup_fmap, Hj.
    + rewrite list_lookup_fmap, lookup_middle. simpl. by rewrite Hid.
  - exfalso. apply list_find_None in E. apply Forall_app in E as [_ E]. by inversion E.
Qed.

Lemma ids_of_keys p p' :
  task_key <$> pl_Tasks p' = task_key <$> pl_Tasks p -> ids_distinct p -> ids_distinct p'.
Proof.
  unfold ids_distinct. intros H.
  assert (Hk : forall l : list PlannedTask, pt_ID <$> l = snd <$> (task_key <$> l)).
  { intros l. rewrite <- list_fmap_compose. done. }
  by rewrite !Hk, H.
Qed.

(** An Active well-formed plan is one [executeLoop_wf] applies to, whatever the
    active counter is. *)
Lemma executePlan_keeps s r s' :
  plan_wf (es_plan s) -> executePlan now s = Some (r, s') ->
  plan_wf (es_plan s') /\
  task_key <$> pl_Tasks (es_plan s') = task_key <$> pl_Tasks (es_plan s).
Proof.
  intros Hwf. unfold executePlan. destruct (pl_Phase (es_plan s)) eqn:Hph;
    [|intros [= <- <-]; done..].
  destruct Hwf as [Hr Hs]. rewrite Hph in Hs. destruct Hs as (fin & todo & Hp & Hf & Htodo).
  intros Hrun. eapply executeLoop_wf in Hrun; simpl; eauto.
Qed.

Lemma remaining_le p : remaining p <= length (pl_Tasks p).
Proof. apply length_filter. Qed.

End Loop.

(** ** A scripted runtime: the outcomes of [Execute] and [Status] are read off a
    list, so that concrete runs can be evaluated. *)
Module Scripted.

Inductive outcome := Done | StillRunning | Fails (msg : string) | Refuses (terminal : bool) (msg : string).

#[global] Instance runtime : TaskRuntime (list outcome) := {|
  TaskExecution := option string;
  Deserialize := fun _ _ _ _ => Ok None;
  Execute := fun ex o w =>
    match w with
    | Refuses tm m :: w' => (Some (mkExecError tm m), ex, o, w')
    | _ => (None, ex, o, w)
    end;
  Status := fun ex o w =>
    match w with
    | Done :: w' => (ExecutionComplete, ex, o, w')
    | Fails m :: w' => (ExecutionFailed, Some m, o, w')
    | StillRunning :: w' => (ExecutionRunning, ex, o, w')
    | Refuses _ _ :: w' => (ExecutionOther, ex, o, w')
    | [] => (ExecutionRunning, ex, o, [])
    end;
  ExecErr := fun ex => ex;
|}.

Definition task (ty id : string) (maxRetries : Z) : PlannedTask :=
  mkPlannedTask ty id TaskPending (Some NilParams) None "" maxRetries 0.

Definition plan (ts : list PlannedTask) : TaskPlan :=
  mkTaskPlan "plan" TaskPlanActive ts PhaseRunning "" PhaseFailed None None.

(** A two-task plan of an object with no phase. *)
Definition state (w : list outcome) : exec_state (list outcome) :=
  mkState (ObjNetwork "net" "ns") (plan [task "replace-pod" "a" 3; task "mark-ready" "b" 0]) w empty.

End Scripted.

(** ** Runtimes that leave the owner's identity and phase alone

    Tasks stamp status fields of the owner; none of them renames it, edits its
    spec, moves its phase or touches the plan that is running. *)
Definition same_object (o o' : Object) : Prop :=
  match o, o' with
  | ObjNode n, ObjNode n' =>
      n_Name n' = n_Name n /\ n_Namespace n' = n_Namespace n /\ n_Spec n' = n_Spec n /\
      st_Phase (n_Status n') = st_Phase (n_Status n) /\ st_Plan (n_Status n') = st_Plan (n_Status n)
  | ObjNode _, _ => False
  | _, _ => o' = o
  end.

Class RuntimeFrame {W} (RT : TaskRuntime W) : Prop := {
  execute_frame : forall ex o w err ex' o' w',
    Execute ex o w = (err, ex', o', w') -> same_object o o';
  status_frame : forall ex o w st ex' o' w',
    Status ex o w = (st, ex', o', w') -> same_object o o';
}.

#[export] Instance scripted_frame : RuntimeFrame Scripted.runtime.
Proof.
  split; intros ex o w x ex' o' w'; simpl;
    destruct w as [|[] w]; intros [= <- <- <- <-]; by destruct o.
Qed.

Lemma same_object_refl o : same_object o o.
Proof. by destruct o. Qed.

Lemma same_object_trans o1 o2 o3 : same_object o1 o2 -> same_object o2 o3 -> same_object o1 o3.
Proof.
  destruct o1, o2; simpl; try done; destruct o3; simpl; try done; intuition congruence.
Qed.

#[export] Hint Resolve same_object_refl : sei.

Lemma same_object_ns o o' : same_object o o' -> obj_namespace o' = obj_namespace o.
Proof. destruct o, o'; simpl; try done; intuition congruence. Qed.

Definition obj_phase (o : Object) : option SeiNodePhase :=
  match o with ObjNode n => Some (st_Phase (n_Status n)) | _ => None end.

Lemma same_object_phase o o' : same_object o o' -> obj_phase o' = obj_phase o.
Proof. destruct o, o'; simpl; try done; intuition congruence. Qed.

(** The phase the owner is left in by a plan that ended in [p]. *)
Definition phase_after (p : TaskPlan) (ph : SeiNodePhase) : SeiNodePhase :=
  let go target := match target with PhaseNone => ph | _ => target end in
  match pl_Phase p with
  | TaskPlanActive => ph
  | TaskPlanComplete => go (pl_TargetPhase p)
  | TaskPlanFailed => go (pl_FailedPhase p)
  end.

Definition counter (k : string * string) (g : gmap (string * string) Z) : Z := default 0%Z (g !! k).

Lemma counter_add cn ns d g : counter (cn, ns) (active_add cn ns d g) = (counter (cn, ns) g + d)%Z.
Proof. unfold counter, active_add. by rewrite lookup_insert_eq. Qed.

Lemma obj_phase_setTargetPhase o target now :
  obj_phase (setTargetPhase o target now) =
  match target with PhaseNone => obj_phase o | _ => (fun _ => target) <$> obj_phase o end.
Proof. by destruct target, o. Qed.

Section Frame.
Context {W : Type} {RT : TaskRuntime W} {RF : RuntimeFrame RT}.
Variable now : Z.
Implicit Types (s : exec_state W) (p : TaskPlan) (t : PlannedTask).

(** What a step leaves of the owner and of the counter, by the plan's phase. *)
Definition framed (cn : string) (s s' : exec_state W) : Prop :=
  match pl_Phase (es_plan s') with
  | TaskPlanActive => same_object (es_obj s) (es_obj s') /\ es_active s' = es_active s
  | _ =>
      (exists o, same_object (es_obj s) o /\
         obj_phase (es_obj s') =
           (fun ph => phase_after (es_plan s') ph) <$> obj_phase o) /\
      es_active s' = active_add cn (obj_namespace (es_obj s)) (-1) (es_active s)
  end /\
  pl_TargetPhase (es_plan s') = pl_TargetPhase (es_plan s) /\
  pl_FailedPhase (es_plan s') = pl_FailedPhase (es_plan s).

Lemma failTask_framed cn i t msg o s :
  same_object (es_obj s) o ->
  framed cn s (failTask now cn i t msg (mkState o (es_plan s) (es_world s) (es_active s))).
Proof.
  intros Ho. split_and!; [|done..]. simpl. split.
  - exists o. split; [done|]. rewrite obj_phase_setTargetPhase. unfold phase_after; simpl.
    destruct (pl_FailedPhase (es_plan s)); destruct o; done.
  - by rewrite (same_object_ns _ _ Ho).
Qed.

(** [framed] looks at the owner, the phase, the two targets and the counter. *)
Lemma framed_by cn s s1 s' :
  same_object (es_obj s) (es_obj s1) -> es_active s1 = es_active s ->
  pl_TargetPhase (es_plan s1) = pl_TargetPhase (es_plan s) ->
  pl_FailedPhase (es_plan s1) = pl_FailedPhase (es_plan s) ->
  framed cn s1 s' -> framed cn s s'.
Proof.
  intros Ho Ha Ht Hf (Hp & Ht' & Hf'). split_and!; [|congruence..].
  destruct (pl_Phase (es_plan s')).
  - destruct Hp as [? ?]. split; [by eapply same_object_trans|congruence].
  - destruct Hp as [(o & ? & ?) Hac]. split; [exists o; split; [by eapply same_object_trans|done]|].
    by rewrite Hac, Ha, (same_object_ns _ _ Ho).
  - destruct Hp as [(o & ? & ?) Hac]. split; [exists o; split; [by eapply same_object_trans|done]|].
    by rewrite Hac, Ha, (same_object_ns _ _ Ho).
Qed.

Lemma framed_active cn s s' :
  pl_Phase (es_plan s') = TaskPlanActive -> same_object (es_obj s) (es_obj s') ->
  es_active s' = es_active s -> pl_TargetPhase (es_plan s') = pl_TargetPhase (es_plan s) ->
  pl_FailedPhase (es_plan s') = pl_FailedPhase (es_plan s) -> framed cn s s'.
Proof. intros Hp ? ? ? ?. unfold framed. by rewrite Hp. Qed.

Lemma pollTask_framed cn i t ex s :
  pl_Phase (es_plan s) = TaskPlanActive -> framed cn s (pollTask now cn i t ex s).2.
Proof.
  intros Hact. unfold pollTask.
  destruct (Status ex (es_obj s) (es_world s)) as [[[st ex'] o] w] eqn:E.
  apply status_frame in E.
  destruct st; simpl; try by apply framed_active.
  destruct (_ && _)%bool; [by apply framed_active|].
  exact (failTask_framed cn i t (default "unknown error" (ExecErr ex')) o
           (mkState (es_obj s) (es_plan s) w (es_active s)) E).
Qed.

Lemma advanceTask_framed cn i t s :
  pl_Phase (es_plan s) = TaskPlanActive -> framed cn s (advanceTask now cn i t s).2.
Proof.
  intros Hact. unfold advanceTask.
  destruct (Deserialize _ _ _ _) as [ex|e];
    [|destruct s as [o p w g]; exact (failTask_framed cn i t e o (mkState o p w g) (same_object_refl o))].
  destruct (needsSubmission t); [|by apply pollTask_framed].
  destruct (Execute ex (es_obj s) (es_world s)) as [[[err ex'] o] w] eqn:E.
  apply execute_frame in E. destruct err as [e|].
  - destruct (ee_terminal e); simpl; [|by apply framed_active].
    exact (failTask_framed cn i t (ee_msg e) o (mkState (es_obj s) (es_plan s) w (es_active s)) E).
  - refine (framed_by cn s (mkState o (plan_set_task (es_plan s) i (task_submitted now t)) w (es_active s))
              _ E eq_refl eq_refl eq_refl _).
    by apply pollTask_framed.
Qed.

Lemma completePlan_framed cn s : framed cn s (completePlan now cn s).
Proof.
  unfold framed, completePlan; simpl. split; [|by split]. split; [|done].
  exists (es_obj s). split; [apply same_object_refl|].
  rewrite obj_phase_setTargetPhase. unfold phase_after; simpl.
  destruct (pl_TargetPhase (es_plan s)), (es_obj s); simpl; try done;
    by destruct (negb (pl_ConfigValuesHash (es_plan s) =s "")).
Qed.

Lemma executeLoop_framed cn fuel s r s' :
  pl_Phase (es_plan s) = TaskPlanActive -> executeLoop now cn fuel s = Some (r, s') ->
  framed cn s s'.
Proof.
  revert s. induction fuel as [|fuel IH]; intros s Hact Hrun; [done|].
  destruct (executeLoop_S _ _ _ _ _ _ Hrun)
    as [Hall _ -> | fin t todo t' s1 Hp Hf Ht Ho Ha Ht' Hc Hl | fin t todo t' Hp Hf Ht Ho Ha Ht' Hc].
  - apply completePlan_framed.
  - pose proof (advanceTask_framed cn (length fin) t s Hact) as Hfr. rewrite Ha in Hfr; simpl in Hfr.
    assert (Hact1 : pl_Phase (es_plan s1) = TaskPlanActive).
    { rewrite <- Hact. eapply outcome_active; [exact Ho|..|exact Hc];
        [rewrite Hp | rewrite Ht']; apply lookup_middle. }
    destruct Hfr as (Hfr & ? & ?). rewrite Hact1 in Hfr. destruct Hfr.
    eapply framed_by; [..|apply IH; [exact Hact1|exact Hl]]; done.
  - pose proof (advanceTask_framed cn (length fin) t s Hact) as Hfr. by rewrite Ha in Hfr.
Qed.

End Frame.

Lemma CurrentTask_middle p finished t todo :
  pl_Tasks p = finished ++ t :: todo -> Forall is_complete finished -> ~ is_complete t ->
  CurrentTask p = Some (length finished).
Proof.
  intros Hp Hf Ht. unfold CurrentTask.
  assert (list_find (fun u => pt_Status u <> TaskComplete) (pl_Tasks p) = Some (length finished, t))
    as ->; [|done].
  apply list_find_Some. rewrite Hp. split_and!; [apply lookup_middle|done|].
  intros j u Hj Hlt Hn. apply Hn. rewrite lookup_app_l in Hj by done.
  rewrite Forall_lookup in Hf. by apply (Hf j).
Qed.

(** ** Invariants of a run

    [respects Inv ty]: every execution of a task of type [ty] keeps [Inv], a
    property of the owner and of the outside world. [ended o o']: the end of a
    plan turns [o] into [o'], where only the phase and the config hash moved. *)
Definition ended (o o' : Object) : Prop :=
  match o, o' with
  | ObjNode n, ObjNode n' =>
      n_Name n' = n_Name n /\ n_Namespace n' = n_Namespace n /\ n_Generation n' = n_Generation n /\
      n_Spec n' = n_Spec n /\
      (let s := n_Status n in let s' := n_Status n' in
       st_CurrentImage s' = st_CurrentImage s /\
       st_CurrentSidecarImage s' = st_CurrentSidecarImage s /\
       st_CurrentNodeIsolation s' = st_CurrentNodeIsolation s /\
       st_CurrentNodePool s' = st_CurrentNodePool s /\
       st_Conditions s' = st_Conditions s /\ st_Plan s' = st_Plan s /\
       st_DataResetGeneration s' = st_DataResetGeneration s /\
       st_MaintenanceHold s' = st_MaintenanceHold s)
  | ObjNode _, _ => False
  | _, _ => o' = o
  end.

Lemma ended_refl o : ended o o.
Proof. by destruct o. Qed.

Lemma ended_setTargetPhase o ph now : ended o (setTargetPhase o ph now).
Proof. by destruct ph, o. Qed.

Section Invariants.
Context {W : Type} {RT : TaskRuntime W}.
Variable now : Z.
Variable Inv : Object -> W -> Prop.
Implicit Types (s : exec_state W) (t : PlannedTask).

Definition respects (ty : string) : Prop :=
  forall id ps o w ex, Inv o w -> Deserialize ty id ps o = Ok ex ->
  (forall st ex' o' w', Status ex o w = (st, ex', o', w') -> Inv o' w') /\
  (forall err ex' o' w', Execute ex o w = (err, ex', o', w') ->
     Inv o' w' /\ (forall st ex'' o'' w'', Status ex' o' w' = (st, ex'', o'', w'') -> Inv o'' w'')).

(** [Inv] holds of the world and of the owner, the latter as it was before the
    end of the plan stamped it; while the plan is Active it is as it is. *)
Definition kept s : Prop :=
  match pl_Phase (es_plan s) with
  | TaskPlanActive => Inv (es_obj s) (es_world s)
  | _ => exists o, Inv o (es_world s) /\ ended o (es_obj s)
  end.

Lemma kept_intro s : Inv (es_obj s) (es_world s) -> kept s.
Proof. unfold kept. destruct (pl_Phase _); eauto using ended_refl. Qed.

Lemma failTask_kept cn i t msg s : Inv (es_obj s) (es_world s) -> kept (failTask now cn i t msg s).
Proof. unfold kept; simpl; eauto using ended_setTargetPhase. Qed.

Lemma pollTask_kept cn i t ex s :
  (forall st ex' o' w', Status ex (es_obj s) (es_world s) = (st, ex', o', w') -> Inv o' w') ->
  kept (pollTask now cn i t ex s).2.
Proof.
  intros H. unfold pollTask.
  destruct (Status ex (es_obj s) (es_world s)) as [[[st ex'] o] w] eqn:E.
  specialize (H _ _ _ _ eq_refl).
  destruct st; simpl; try by apply kept_intro.
  destruct (_ && _)%bool; [by apply kept_intro|by apply failTask_kept].
Qed.

Lemma advanceTask_kept cn i t s :
  respects (pt_Type t) -> Inv (es_obj s) (es_world s) -> kept (advanceTask now cn i t s).2.
Proof.
  intros Hr HI. unfold advanceTask.
  destruct (Deserialize _ _ _ _) as [ex|e] eqn:Ed; [|by apply failTask_kept].
  destruct (Hr _ _ _ _ _ HI Ed) as [Hs He].
  destruct (needsSubmission t); [|by apply pollTask_kept].
  destruct (Execute ex (es_obj s) (es_world s)) as [[[err ex'] o] w] eqn:E.
  destruct (He _ _ _ _ eq_refl) as [HI' Hs'].
  destruct err as [e|]; [|by apply pollTask_kept].
  destruct (ee_terminal e); simpl; [by apply failTask_kept|by apply kept_intro].
Qed.

Lemma executeLoop_kept cn fuel s r s' :
  Forall respects (pt_Type <$> pl_Tasks (es_plan s)) ->
  pl_Phase (es_plan s) = TaskPlanActive -> Inv (es_obj s) (es_world s) ->
  executeLoop now cn fuel s = Some (r, s') -> kept s'.
Proof.
  revert s. induction fuel as [|fuel IH]; intros s Hr Hact HI Hrun; [done|].
  destruct (executeLoop_S _ _ _ _ _ _ Hrun)
    as [Hall _ -> | fin t todo t' s1 Hp Hf Ht Ho Ha Ht' Hc Hl | fin t todo t' Hp Hf Ht Ho Ha Ht' Hc].
  - unfold kept; simpl. exists (es_obj s). split; [done|].
    destruct (es_obj s), (pl_TargetPhase (es_plan s)); simpl; try done;
      by destruct (negb (pl_ConfigValuesHash (es_plan s) =s "")).
  - pose proof Hr as Hr1. rewrite Hp, fmap_app, fmap_cons, Forall_app, Forall_cons in Hr.
    destruct Hr as (_ & Hrt & _).
    pose proof (advanceTask_kept cn (length fin) t s Hrt HI) as Hk. rewrite Ha in Hk; simpl in Hk.
    assert (Hact1 : pl_Phase (es_plan s1) = TaskPlanActive).
    { rewrite <- Hact. eapply outcome_active; [exact Ho|..|exact Hc];
        [rewrite Hp | rewrite Ht']; apply lookup_middle. }
    unfold kept in Hk. rewrite Hact1 in Hk. apply (IH s1); [|done..].
    destruct (outcome_tasks _ _ _ _ Ho) as (u & Hu & Hkey & _).
    rewrite Ht' in Hu. rewrite Hp, insert_middle in Hu. apply app_inj_1 in Hu as [_ [= ->]]; [|done].
    rewrite Ht', fmap_app, fmap_cons. rewrite Hp, fmap_app, fmap_cons in Hr1.
    replace (pt_Type u) with (pt_Type t); [exact Hr1|].
    unfold task_key in Hkey. congruence.
  - rewrite Hp, fmap_app, fmap_cons, Forall_app, Forall_cons in Hr. destruct Hr as (_ & Hrt & _).
    pose proof (advanceTask_kept cn (length fin) t s Hrt HI) as Hk. by rewrite Ha in Hk.
Qed.

(** The rule: an invariant every task type of the plan respects survives a run. *)
Lemma executePlan_kept s r s' :
  Forall respects (pt_Type <$> pl_Tasks (es_plan s)) -> Inv (es_obj s) (es_world s) ->
  executePlan now s = Some (r, s') -> kept s'.
Proof.
  intros Hr HI. unfold executePlan. destruct (pl_Phase (es_plan s)) eqn:Hph.
  - intros Hrun. eapply executeLoop_kept; [| | |exact Hrun]; done.
  - intros [= <- <-]. by apply kept_intro.
  - intros [= <- <-]. by apply kept_intro.
Qed.

End Invariants.

(** ** The order of submissions

    [traced RT] is the runtime [RT] with a log: every [Execute] appends the ID of
    its task. *)
Section Traced.
Context {W : Type} (RT : TaskRuntime W).

Definition traced : TaskRuntime (W * list string) := {|
  TaskExecution := string * @TaskExecution W RT;
  Deserialize := fun ty id ps o => pair id <$> Deserialize ty id ps o;
  Execute := fun ex o w =>
    let '(err, e', o', w') := Execute ex.2 o w.1 in
    (err, (ex.1, e'), o', (w', w.2 ++ [ex.1]));
  Status := fun ex o w =>
    let '(st, e', o', w') := Status ex.2 o w.1 in (st, (ex.1, e'), o', (w', w.2));
  ExecErr := fun ex => ExecErr ex.2;
|}.

End Traced.

Section Order.
Context {W : Type} {RT : TaskRuntime W}.
Variable now : Z.
Abbreviation adv := (@advanceTask (W * list string) (traced RT) now).
Abbreviation loop := (@executeLoop (W * list string) (traced RT) now).
Implicit Types s : exec_state (W * list string).

Definition log (s : exec_state (W * list string)) : list string := (es_world s).2.

Lemma poll_log cn i t ex s :
  log (@pollTask _ (traced RT) now cn i t ex s).2 = log s.
Proof.
  unfold pollTask, log. simpl.
  destruct (Status ex.2 (es_obj s) (es_world s).1) as [[[st e'] o'] w'].
  destruct st; simpl; try done. by destruct (_ && _)%bool.
Qed.

(** A pending task is submitted at most once per step, and one that completes
    was. *)
Lemma advance_log cn i t s :
  is_pending t -> pl_Tasks (es_plan s) !! i = Some t ->
  (log (adv cn i t s).2 = log s /\
   ~ (exists t', pl_Tasks (es_plan (adv cn i t s).2) !! i = Some t' /\ is_complete t')) \/
  log (adv cn i t s).2 = log s ++ [pt_ID t].
Proof.
  intros Hp Hi. unfold advanceTask. simpl.
  destruct (Deserialize _ _ _ _) as [ex|e]; simpl.
  - right. unfold needsSubmission. rewrite bool_decide_eq_true_2 by done.
    destruct (Execute ex (es_obj s) (es_world s).1) as [[[err e'] o'] w'].
    destruct err as [e|]; [by destruct (ee_terminal e)|]. apply poll_log.
  - left. split; [done|]. intros (t' & Ht' & Hc).
    rewrite list_lookup_insert_eq in Ht' by by eapply lookup_lt_Some.
    by simplify_eq.
Qed.

Lemma loop_log cn fuel s r s' finished todo :
  pl_Phase (es_plan s) = TaskPlanActive -> pl_Tasks (es_plan s) = finished ++ todo ->
  Forall is_complete finished -> Forall is_pending todo ->
  loop cn fuel s = Some (r, s') ->
  exists n, log s' = log s ++ (pt_ID <$> take n todo) /\
    Forall is_complete (take (length finished + pred n) (pl_Tasks (es_plan s'))).
Proof.
  revert s finished todo.
  induction fuel as [|fuel IH]; intros s fin0 todo0 Hact Hp0 Hf0 Hpend Hrun; [done|].
  destruct (@executeLoop_S _ (traced RT) now _ _ _ _ _ Hrun)
    as [Hall _ -> | fin t todo t' s1 Hp Hf Ht Ho Ha Ht' Hc Hl | fin t todo t' Hp Hf Ht Ho Ha Ht' Hc].
  { exists 0. simpl. rewrite app_nil_r. split; [done|]. by apply Forall_take. }
  all: rewrite Hp0 in Hp; destruct (active_split _ _ _ _ _ Hp Hf0 Hf Hpend Ht) as [-> ->].
  all: inversion Hpend as [|? ? Htp Hrest]; subst.
  all: assert (Hlk : pl_Tasks (es_plan s) !! length fin0 = Some t)
         by (rewrite Hp0; apply lookup_middle).
  all: destruct (advance_log cn (length fin0) t s Htp Hlk) as [[Hlog Hno]|Hlog];
         rewrite Ha in Hlog; simpl in Hlog.
  - exfalso. apply Hno. rewrite Ha. exists t'. split; [|done]. simpl. rewrite Ht'. apply lookup_middle.
  - destruct (IH s1 (fin0 ++ [t']) todo) as (n & Hn & Hdone); try done.
    + rewrite <- Hact. eapply outcome_active; [exact Ho|exact Hlk|..|exact Hc].
      rewrite Ht'. apply lookup_middle.
    + by rewrite Ht', <- app_assoc.
    + by apply Forall_app; split; [|constructor].
    + exists (S n). simpl. rewrite Hn, Hlog, <- app_assoc. split; [done|].
      rewrite length_app in Hdone. simpl in Hdone.
      eapply Forall_take_le; [exact Hdone|lia].
  - exists 0. simpl. rewrite app_nil_r. split; [done|].
    rewrite Ht', Nat.add_0_r, take_app_length. done.
  - exists 1. simpl. rewrite Hlog. split; [done|].
    rewrite Ht', Nat.add_0_r, take_app_length. done.
Qed.
End Order.

(** ** Runtimes with a known outcome *)

(** Every task is accepted and done at once. *)
Record synchronous {W} (RT : TaskRuntime W) : Prop := {
  sync_deserialize : forall ty id ps o, is_ok (Deserialize ty id ps o) = true;
  sync_execute : forall ex o w, (Execute ex o w).1.1.1 = None;
  sync_status : forall ex o w, (Status ex o w).1.1.1 = ExecutionComplete;
}.

(** Every task is accepted and then reports failure. *)
Record always_failing {W} (RT : TaskRuntime W) : Prop := {
  fail_deserialize : forall ty id ps o, is_ok (Deserialize ty id ps o) = true;
  fail_execute : forall ex o w, (Execute ex o w).1.1.1 = None;
  fail_status : forall ex o w, (Status ex o w).1.1.1 = ExecutionFailed;
}.

(** [n] reconciles in a row, each running [executePlan] once. *)
Fixpoint reconciles {W} {RT : TaskRuntime W} (now : Z) (n : nat) (s : exec_state W)
    : option (exec_state W) :=
  match n with
  | O => Some s
  | S n' => match executePlan now s with
            | Some (_, s') => reconciles now n' s'
            | None => None
            end
  end.

(** The state and the requeue of one call. *)
Definition after {W} {RT : TaskRuntime W} (now : Z) (s : exec_state W) : exec_state W :=
  match executePlan now s with Some (_, s') => s' | None => s end.
Definition requeue {W} {RT : TaskRuntime W} (now : Z) (s : exec_state W) : Result :=
  match executePlan now s with Some (r, _) => r | None => ResultNone end.

Lemma reconciles_app {W} {RT : TaskRuntime W} (now : Z) m n (s : exec_state W) :
  reconciles now (m + n) s = reconciles now m s ≫= reconciles now n.
Proof.
  revert s. induction m as [|m IH]; intros s; [done|]. simpl.
  destruct (executePlan now s) as [[r s']|]; [apply IH|done].
Qed.

Lemma executePlan_phase_step {W} {RT : TaskRuntime W} {RF : RuntimeFrame RT} (now : Z)
    (s : exec_state W) r s' ph :
  pl_Phase (es_plan s) = TaskPlanActive -> obj_phase (es_obj s) = Some ph ->
  executePlan now s = Some (r, s') ->
  obj_phase (es_obj s') = Some (phase_after (es_plan s') ph) /\
  pl_TargetPhase (es_plan s') = pl_TargetPhase (es_plan s) /\
  pl_FailedPhase (es_plan s') = pl_FailedPhase (es_plan s).
Proof.
  intros Hact Hph. unfold executePlan. rewrite Hact. intros Hrun.
  apply executeLoop_framed in Hrun as (Hfr & Ht & Hf); [|done].
  split; [|done]. simpl in Hfr. unfold phase_after at 1.
  destruct (pl_Phase (es_plan s')) eqn:E.
  - destruct Hfr as [Ho _]. by rewrite (same_object_phase _ _ Ho).
  - destruct Hfr as [(o & Ho & ->) _]. rewrite (same_object_phase _ _ Ho), Hph. simpl.
    unfold phase_after. by rewrite E.
  - destruct Hfr as [(o & Ho & ->) _]. rewrite (same_object_phase _ _ Ho), Hph. simpl.
    unfold phase_after. by rewrite E.
Qed.

(** A plan that aims at Running and never fails its node keeps it Running. *)
Lemma reconciles_running {W} {RT : TaskRuntime W} {RF : RuntimeFrame RT} (now : Z) n
    (s : exec_state W) s' :
  pl_TargetPhase (es_plan s) = PhaseRunning -> pl_FailedPhase (es_plan s) = PhaseNone ->
  obj_phase (es_obj s) = Some PhaseRunning -> reconciles now n s = Some s' ->
  obj_phase (es_obj s') = Some PhaseRunning.
Proof.
  revert s. induction n as [|n IH]; intros s Ht Hf Hph; cbn [reconciles]; [by intros [= <-]|].
  destruct (executePlan now s) as [[r s1]|] eqn:E; [|done].
  destruct (pl_Phase (es_plan s)) eqn:Hact.
  - destruct (executePlan_phase_step now s r s1 PhaseRunning Hact Hph E) as (Hph1 & Ht1 & Hf1).
    apply IH; [congruence..|]. rewrite Hph1. unfold phase_after. rewrite Ht1, Hf1, Ht, Hf.
    by destruct (pl_Phase (es_plan s1)).
  - unfold executePlan in E. rewrite Hact in E. injection E as <- <-. by apply IH.
  - unfold executePlan in E. rewrite Hact in E. injection E as <- <-. by apply IH.
Qed.

Lemma executePlan_total {W} {RT : TaskRuntime W} (now : Z) (s : exec_state W) :
  exists r s', executePlan now s = Some (r, s').
Proof.
  unfold executePlan. destruct (pl_Phase (es_plan s)); [|eauto..].
  apply executeLoop_total. simpl. pose proof (remaining_le (es_plan s)). lia.
Qed.

(** ** What a completed task has established

    [P] is a property of the owner that the task at index [k] establishes when it
    completes, and that no task of the plan destroys. *)
Section Establishes.
Context {W : Type} {RT : TaskRuntime W}.
Variables (now : Z) (P : Object -> Prop) (k : nat) (ty0 : string) (ps0 : option TaskParams).
Hypothesis P_ended : forall o o', P o -> ended o o' -> P o'.
Hypothesis P_established : forall id o w ex ex' o' w' ex'' o'' w'',
  Deserialize ty0 id ps0 o = Ok ex -> Execute ex o w = (None, ex', o', w') ->
  Status ex' o' w' = (ExecutionComplete, ex'', o'', w'') -> P o''.
Implicit Types (s : exec_state W) (t : PlannedTask).

Abbreviation stable := (respects (fun o (_ : W) => P o)).

(** The types of all tasks but the one at [k] leave [P] alone. *)
Definition others_stable (types : list string) : Prop :=
  forall i ty, types !! i = Some ty -> i <> k -> stable ty.

Definition established s : Prop :=
  exists t, pl_Tasks (es_plan s) !! k = Some t /\ pt_Type t = ty0 /\ pt_Params t = ps0 /\
    (is_pending t \/ (is_complete t /\ P (es_obj s)) \/ pl_Phase (es_plan s) = TaskPlanFailed).

Lemma kept_P s : kept (fun o _ => P o) s -> P (es_obj s).
Proof. unfold kept. destruct (pl_Phase _); [done|..]; intros (o & Ho & He); by eapply P_ended. Qed.

Lemma task_submitted_params t :
  pt_Type (task_submitted now t) = pt_Type t /\ pt_Params (task_submitted now t) = pt_Params t /\
  pt_Status (task_submitted now t) = pt_Status t.
Proof. unfold task_submitted. by destruct (pt_SubmittedAt t). Qed.

(** The step on the task itself. *)
Lemma advance_establishes cn t s :
  pl_Tasks (es_plan s) !! k = Some t -> pt_Type t = ty0 -> pt_Params t = ps0 -> is_pending t ->
  established (advanceTask now cn k t s).2.
Proof.
  intros Hk Hty Hps Hp. pose proof (lookup_lt_Some _ _ _ Hk) as Hlt.
  unfold advanceTask. rewrite Hty, Hps.
  destruct (Deserialize ty0 (pt_ID t) ps0 (es_obj s)) as [ex|e] eqn:Ed; simpl.
  2: { exists (task_failed e t). simpl. rewrite list_lookup_insert_eq by done. naive_solver. }
  unfold needsSubmission. rewrite bool_decide_eq_true_2 by done.
  destruct (Execute ex (es_obj s) (es_world s)) as [[[[e|] ex'] o'] w'] eqn:Ee.
  { destruct (ee_terminal e); simpl; [|exists t; naive_solver].
    exists (task_failed (ee_msg e) t). simpl. rewrite list_lookup_insert_eq by done. naive_solver. }
  destruct (task_submitted_params t) as (Ht1 & Ht2 & Ht3).
  unfold pollTask. simpl. destruct (Status ex' o' w') as [[[st ex''] o''] w''] eqn:Es.
  destruct st; simpl.
  - exists (task_submitted now t). simpl. rewrite list_lookup_insert_eq by done.
    split_and!; [done|congruence|congruence|]. left. unfold is_pending. by rewrite Ht3.
  - exists (task_completed (task_submitted now t)). simpl.
    rewrite list_insert_insert_eq, list_lookup_insert_eq by done.
    split_and!; [done|simpl; congruence|simpl; congruence|]. right; left. split; [done|].
    by eapply P_established.
  - destruct (_ && _)%bool; simpl.
    + exists (task_retried (task_submitted now t)). simpl.
      rewrite list_insert_insert_eq, list_lookup_insert_eq by done.
      split_and!; [done|simpl; congruence|simpl; congruence|]. by left.
    + exists (task_failed (default "unknown error" (ExecErr ex'')) (task_submitted now t)). simpl.
      rewrite list_insert_insert_eq, list_lookup_insert_eq by done.
      split_and!; [done|simpl; congruence|simpl; congruence|]. by right; right.
  - exists (task_submitted now t). simpl. rewrite list_lookup_insert_eq by done.
    split_and!; [done|congruence|congruence|]. left. unfold is_pending. by rewrite Ht3.
Qed.

Lemma advance_established cn i t s :
  others_stable (pt_Type <$> pl_Tasks (es_plan s)) -> pl_Phase (es_plan s) = TaskPlanActive ->
  pl_Tasks (es_plan s) !! i = Some t -> ~ is_complete t -> established s ->
  established (advanceTask now cn i t s).2.
Proof.
  intros Hst Hact Hi Ht (u & Hu & Hty & Hps & Hcase).
  destruct (decide (i = k)) as [->|Hne].
  - rewrite Hi in Hu. injection Hu as ->. apply advance_establishes; try done.
    destruct Hcase as [|[[? _]|?]]; [done|done|congruence].
  - pose proof (advanceTask_outcome now cn i t s Hi) as Ho.
    destruct (outcome_tasks _ _ _ _ Ho) as (t' & Ht' & _).
    exists u. rewrite Ht', list_lookup_insert_ne by done. split_and!; [done..|].
    destruct Hcase as [|[[Hc HP]|?]]; [by left| |congruence]. right; left. split; [done|].
    apply kept_P, advanceTask_kept; [|done].
    apply (Hst i); [|done]. by rewrite list_lookup_fmap, Hi.
Qed.

Lemma outcome_types p i t p' :
  pl_Tasks p !! i = Some t -> advance_outcome p i t p' ->
  pt_Type <$> pl_Tasks p' = pt_Type <$> pl_Tasks p.
Proof.
  intros Hi Ho. destruct (outcome_tasks _ _ _ _ Ho) as (t' & -> & Hkey & _).
  unfold task_key in Hkey. injection Hkey as Hty _.
  rewrite list_fmap_insert, Hty. apply list_insert_id. by rewrite list_lookup_fmap, Hi.
Qed.

Lemma completePlan_P cn s : P (es_obj s) -> P (es_obj (completePlan now cn s)).
Proof.
  intros HP. eapply P_ended; [exact HP|].
  unfold completePlan. simpl. destruct (es_obj s), (pl_TargetPhase (es_plan s)); simpl; try done;
    by destruct (negb (pl_ConfigValuesHash (es_plan s) =s "")).
Qed.

Lemma executeLoop_established cn fuel s r s' :
  others_stable (pt_Type <$> pl_Tasks (es_plan s)) -> pl_Phase (es_plan s) = TaskPlanActive ->
  established s -> executeLoop now cn fuel s = Some (r, s') -> established s'.
Proof.
  revert s. induction fuel as [|fuel IH]; intros s Hst Hact He Hrun; [done|].
  destruct (executeLoop_S _ _ _ _ _ _ Hrun)
    as [Hall _ -> | fin t todo t' s1 Hp Hf Ht Ho Ha Ht' Hc Hl | fin t todo t' Hp Hf Ht Ho Ha Ht' Hc].
  - destruct He as (u & Hu & ? & ? & Hcase). exists u. split_and!; [done..|].
    rewrite Forall_lookup in Hall. specialize (Hall _ _ Hu).
    destruct Hcase as [Hpend|[[_ HP]|?]]; [by apply pending_not_complete in Hpend| |congruence].
    right; left. split; [done|]. by apply completePlan_P.
  - assert (Hi : pl_Tasks (es_plan s) !! length fin = Some t) by (rewrite Hp; apply lookup_middle).
    pose proof (advance_established cn _ _ _ Hst Hact Hi Ht He) as He1. rewrite Ha in He1.
    assert (Hact1 : pl_Phase (es_plan s1) = TaskPlanActive).
    { rewrite <- Hact. eapply outcome_active; [exact Ho|exact Hi|rewrite Ht'; apply lookup_middle|exact Hc]. }
    apply (IH s1); [|done..]. by rewrite (outcome_types _ _ _ _ Hi Ho).
  - assert (Hi : pl_Tasks (es_plan s) !! length fin = Some t) by (rewrite Hp; apply lookup_middle).
    pose proof (advance_established cn _ _ _ Hst Hact Hi Ht He) as He1. by rewrite Ha in He1.
Qed.

Lemma executePlan_established s r s' :
  others_stable (pt_Type <$> pl_Tasks (es_plan s)) -> established s ->
  executePlan now s = Some (r, s') -> established s'.
Proof.
  intros Hst He. unfold executePlan. destruct (pl_Phase (es_plan s)) eqn:Hph; [|by intros [= <- <-]..].
  apply executeLoop_established; [done|done|]. destruct He as (u & Hu & ? & ? & Hcase).
  exists u. split_and!; [done..|]. exact Hcase.
Qed.

(** After any number of reconciles: a plan that is Complete has [P]. *)
Lemma reconciles_established n s s' :
  others_stable (pt_Type <$> pl_Tasks (es_plan s)) -> established s -> plan_wf (es_plan s) ->
  reconciles now n s = Some s' -> pl_Phase (es_plan s') = TaskPlanComplete -> P (es_obj s').
Proof.
  revert s. induction n as [|n IH]; intros s Hst He Hwf; cbn [reconciles].
  - intros [= <-] Hc. destruct He as (u & Hu & _ & _ & Hcase). destruct Hwf as [_ Hwf].
    rewrite Hc in Hwf, Hcase. rewrite Forall_lookup in Hwf. specialize (Hwf _ _ Hu).
    destruct Hcase as [Hpend|[[_ HP]|?]]; [by apply pending_not_complete in Hpend|done|done].
  - destruct (executePlan now s) as [[r s1]|] eqn:E; [|done].
    destruct (executePlan_keeps _ _ _ _ Hwf E) as [Hwf1 Hkeys].
    apply IH; [|by eapply executePlan_established|done].
    replace (pt_Type <$> pl_Tasks (es_plan s1)) with (pt_Type <$> pl_Tasks (es_plan s)); [done|].
    apply (f_equal (fmap fst)) in Hkeys. rewrite <- !list_fmap_compose in Hkeys. by symmetry.
Qed.

End Establishes.

Section Outcomes.
Context {W : Type} {RT : TaskRuntime W}.
Variable now : Z.
Implicit Types (s : exec_state W) (t : PlannedTask).

Lemma advance_synchronous cn i t s :
  synchronous RT -> is_pending t -> pl_Tasks (es_plan s) !! i = Some t ->
  exists t', pl_Tasks (es_plan (advanceTask now cn i t s).2) !! i = Some t' /\ is_complete t'.
Proof.
  intros [Hd He Hs] Hp Hi. unfold advanceTask.
  assert (Hlt : i < length (pl_Tasks (es_plan s))) by by eapply lookup_lt_Some.
  specialize (Hd (pt_Type t) (pt_ID t) (pt_Params t) (es_obj s)).
  destruct (Deserialize _ _ _ _) as [ex|e]; [|done].
  unfold needsSubmission. rewrite bool_decide_eq_true_2 by done.
  specialize (He ex (es_obj s) (es_world s)).
  destruct (Execute ex _ _) as [[[err ex'] o] w]. simpl in He. subst err.
  unfold pollTask. simpl. specialize (Hs ex' o w).
  destruct (Status ex' o w) as [[[st ex2] o2] w2]. simpl in Hs. subst st. simpl.
  rewrite list_insert_insert_eq, list_lookup_insert_eq by done. by eexists.
Qed.

Lemma loop_synchronous cn fuel s r s' finished todo :
  synchronous RT -> pl_Phase (es_plan s) = TaskPlanActive ->
  pl_Tasks (es_plan s) = finished ++ todo -> Forall is_complete finished -> Forall is_pending todo ->
  executeLoop now cn fuel s = Some (r, s') ->
  pl_Phase (es_plan s') = TaskPlanComplete /\ r = ResultRequeueImmediate.
Proof.
  intros Hsync. revert s finished todo.
  induction fuel as [|fuel IH]; intros s fin0 todo0 Hact Hp0 Hf0 Hpend Hrun; [done|].
  destruct (executeLoop_S now _ _ _ _ _ Hrun)
    as [Hall -> -> | fin t todo t' s1 Hp Hf Ht Ho Ha Ht' Hc Hl | fin t todo t' Hp Hf Ht Ho Ha Ht' Hc];
    [done| |];
    (rewrite Hp0 in Hp; destruct (active_split _ _ _ _ _ Hp Hf0 Hf Hpend Ht) as [-> ->];
     inversion Hpend; subst;
     assert (Hlk : pl_Tasks (es_plan s) !! length fin0 = Some t) by (rewrite Hp0; apply lookup_middle)).
  - apply (IH s1 (fin0 ++ [t']) todo); try done.
    + rewrite <- Hact. eapply outcome_active; [exact Ho|exact Hlk|..|exact Hc].
      rewrite Ht'. apply lookup_middle.
    + by rewrite Ht', <- app_assoc.
    + by apply Forall_app; split; [|constructor].
  - exfalso. destruct (advance_synchronous cn (length fin0) t s) as (u & Hu & Huc); try done.
    rewrite Ha in Hu. simpl in Hu. rewrite Ht', lookup_middle in Hu. by simplify_eq.
Qed.

(** One call on a one-task plan under a runtime that always fails. *)
Lemma executePlan_one_failure s t :
  always_failing RT -> pl_Phase (es_plan s) = TaskPlanActive -> pl_Tasks (es_plan s) = [t] ->
  is_pending t ->
  exists r s', executePlan now s = Some (r, s') /\
    if ((0 <? pt_MaxRetries t) && (pt_RetryCount t <? pt_MaxRetries t))%Z
    then pl_Phase (es_plan s') = TaskPlanActive /\ pl_Tasks (es_plan s') = [task_retried t] /\
         r = mkResult (retryBackoff (pt_RetryCount t + 1))
    else pl_Phase (es_plan s') = TaskPlanFailed.
Proof.
  intros [Hd He Hs] Hact Hp Ht. unfold executePlan. rewrite Hact, Hp. simpl.
  assert (Hcur : CurrentTask (es_plan s) = Some 0).
  { unfold CurrentTask. rewrite Hp. cbn. rewrite decide_True; [done|].
    intros Hc. by apply (pending_not_complete t Ht). }
  rewrite Hcur, Hp. simpl. unfold advanceTask; simpl.
  specialize (Hd (pt_Type t) (pt_ID t) (pt_Params t) (es_obj s)).
  destruct (Deserialize _ _ _ _) as [ex|e]; [|done].
  unfold needsSubmission. rewrite bool_decide_eq_true_2 by done.
  specialize (He ex (es_obj s) (es_world s)).
  destruct (Execute ex _ _) as [[[err ex'] o] w]. simpl in He. subst err.
  unfold pollTask. simpl. specialize (Hs ex' o w).
  destruct (Status ex' o w) as [[[st ex2] o2] w2]. simpl in Hs. subst st. simpl.
  destruct (task_submitted_same now t) as (_ & _ & _ & Hrc & Hmr & Hre). rewrite Hrc, Hmr.
  destruct ((0 <? pt_MaxRetries t) && (pt_RetryCount t <? pt_MaxRetries t))%Z; simpl;
    rewrite Hp; simpl; [rewrite Hre|]; eexists _, _; (split; [reflexivity|]); simpl;
    rewrite ?Hp, ?Hre, ?Hrc; done.
Qed.

Lemma reconciles_failing n s t :
  always_failing RT -> pl_Phase (es_plan s) = TaskPlanActive -> pl_Tasks (es_plan s) = [t] ->
  is_pending t -> (0 <= pt_RetryCount t)%Z -> (pt_RetryCount t + Z.of_nat n <= pt_MaxRetries t)%Z ->
  exists s' t', reconciles now n s = Some s' /\ pl_Phase (es_plan s') = TaskPlanActive /\
    pl_Tasks (es_plan s') = [t'] /\ is_pending t' /\
    pt_RetryCount t' = (pt_RetryCount t + Z.of_nat n)%Z /\ pt_MaxRetries t' = pt_MaxRetries t.
Proof.
  intros Hf. revert s t. induction n as [|n IH]; intros s t Hact Hp Ht H0 Hle.
  - exists s, t. split_and!; try done. lia.
  - destruct (executePlan_one_failure s t Hf Hact Hp Ht) as (r & s1 & Hrun & Hres).
    rewrite (proj2 (Z.ltb_lt 0 _)), (proj2 (Z.ltb_lt (pt_RetryCount t) _)) in Hres by lia.
    simpl in Hres. destruct Hres as (Hact1 & Hp1 & _).
    destruct (IH s1 (task_retried t)) as (s' & t' & Hr & ? & ? & ? & Hc & ?);
      [done|done|done|simpl; lia|simpl; lia|].
    exists s', t'. simpl. rewrite Hrun. split_and!; try done. rewrite Hc. simpl. lia.
Qed.

End Outcomes.

(** ** The properties of the executor *)

(** C29: every call of [executePlan] returns, whatever the plan and whatever the
    tasks do: the loop completes a task per iteration or stops. *)
Theorem executePlan_terminates {W} {RT : TaskRuntime W} (now : Z) (s : exec_state W) :
  exists r s', executePlan now s = Some (r, s').
Proof. exact (executePlan_total now s). Qed.

(** Property: [executePlan] keeps a plan well formed (a completed prefix, then at most
    one failed task, then tasks that never ran; retries within budget) and never
    adds, drops, reorders or renames a task. *)
Theorem executePlan_preserves_wf {W} {RT : TaskRuntime W} (now : Z) (s : exec_state W) r s' :
  plan_wf (es_plan s) -> executePlan now s = Some (r, s') ->
  plan_wf (es_plan s') /\ task_key <$> pl_Tasks (es_plan s') = task_key <$> pl_Tasks (es_plan s).
Proof. apply executePlan_keeps. Qed.

Lemma executePlan_preserves_wf_witness :
  let s := Scripted.state [Scripted.Done; Scripted.StillRunning] in
  plan_wf (es_plan s) /\ plan_wf (es_plan (after 0 s)).
Proof.
  intros s. assert (H : plan_wf (es_plan s)) by (apply fresh_plan_wf; repeat constructor).
  split; [exact H|].
  refine (proj1 (executePlan_preserves_wf 0 s (requeue 0 s) (after 0 s) H _)).
  vm_compute. reflexivity.
Defined.

(** Property: When a plan fails, [FailedTaskIndex] is the position of the task that
    failed: every task before it is complete and no task after it was started.
    The task IDs of the plan must be distinct, as the builders make them. *)
Theorem executePlan_failed_index {W} {RT : TaskRuntime W} (now : Z) (s : exec_state W) r s' :
  plan_wf (es_plan s) -> ids_distinct (es_plan s) -> pl_Phase (es_plan s) = TaskPlanActive ->
  executePlan now s = Some (r, s') -> pl_Phase (es_plan s') = TaskPlanFailed ->
  exists i t, pl_FailedTaskIndex (es_plan s') = Some i /\ pl_Tasks (es_plan s') !! i = Some t /\
    pt_Status t = TaskFailed /\ Forall is_complete (take i (pl_Tasks (es_plan s'))) /\
    Forall is_pending (drop (S i) (pl_Tasks (es_plan s'))).
Proof.
  intros Hwf Hids Hact Hrun Hfail.
  destruct (executePlan_keeps now s r s' Hwf Hrun) as [[_ Hwf'] Hkeys].
  rewrite Hfail in Hwf'. destruct Hwf' as (fin & t & todo & Hp & Hf & Hst & Hpend & _ & Hidx).
  apply (ids_of_keys _ _ Hkeys) in Hids. unfold ids_distinct in Hids. rewrite Hp in Hids, Hidx |- *.
  rewrite (index_of_id_middle _ _ _ Hids) in Hidx.
  exists (length fin), t. rewrite take_app_length, lookup_middle.
  split_and!; try done. by rewrite drop_app_ge, Nat.sub_succ_l, Nat.sub_diag by lia.
Qed.

Lemma executePlan_failed_index_witness :
  let s := Scripted.state [Scripted.Done; Scripted.Fails "boom"] in
  let s' := after 0 s in
  exists i t, pl_FailedTaskIndex (es_plan s') = Some i /\ pl_Tasks (es_plan s') !! i = Some t /\
    pt_Status t = TaskFailed /\ Forall is_complete (take i (pl_Tasks (es_plan s'))) /\
    Forall is_pending (drop (S i) (pl_Tasks (es_plan s'))).
Proof.
  intros s s'. refine (executePlan_failed_index 0 s (requeue 0 s) s' _ _ _ _ _).
  - apply fresh_plan_wf. repeat constructor.
  - by apply (bool_decide_unpack _).
  - reflexivity.
  - vm_compute. reflexivity.
  - vm_compute. reflexivity.
Defined.

(** Property: Tasks are submitted in plan order, one after the other: the log of
    [Execute] calls of one reconcile is a run of consecutive tasks that starts
    at the first incomplete one, and every task of the run but the last is
    complete when the reconcile ends. *)
Theorem executePlan_in_order {W} {RT : TaskRuntime W} (now : Z)
    (s s' : exec_state (W * list string)) r finished todo :
  pl_Phase (es_plan s) = TaskPlanActive -> pl_Tasks (es_plan s) = finished ++ todo ->
  Forall is_complete finished -> Forall is_pending todo ->
  @executePlan _ (traced RT) now s = Some (r, s') ->
  exists n, (es_world s').2 = (es_world s).2 ++ (pt_ID <$> take n todo) /\
    Forall is_complete (take (length finished + pred n) (pl_Tasks (es_plan s'))).
Proof.
  intros Hact Hp Hf Hpend. unfold executePlan. rewrite Hact. intros Hrun.
  by eapply loop_log in Hrun; [exact Hrun|..].
Qed.

Lemma executePlan_in_order_witness :
  let p := es_plan (Scripted.state []) in
  let s := mkState (ObjNetwork "net" "ns") p ([Scripted.Done; Scripted.StillRunning], []) empty in
  let s' := @after _ (traced Scripted.runtime) 0 s in
  exists n, (es_world s').2 = (es_world s).2 ++ (pt_ID <$> take n (pl_Tasks p)) /\
    Forall is_complete (take (length (@nil PlannedTask) + pred n) (pl_Tasks (es_plan s'))).
Proof.
  intros p s s'.
  refine (executePlan_in_order 0 s s' (@requeue _ (traced Scripted.runtime) 0 s) [] (pl_Tasks p) _ _ _ _ _).
  - reflexivity.
  - reflexivity.
  - constructor.
  - repeat constructor.
  - vm_compute. reflexivity.
Defined.

(** Property: The phase of the owning node moves only at the end of a plan: to
    [TargetPhase] when the plan completes, to [FailedPhase] when it fails, and
    not at all when the matching field is empty (a failed update plan leaves a
    Running node Running). *)
Theorem executePlan_phase {W} {RT : TaskRuntime W} {RF : RuntimeFrame RT} (now : Z)
    (s : exec_state W) r s' ph :
  pl_Phase (es_plan s) = TaskPlanActive -> obj_phase (es_obj s) = Some ph ->
  executePlan now s = Some (r, s') ->
  obj_phase (es_obj s') = Some (phase_after (es_plan s') ph) /\
  pl_TargetPhase (es_plan s') = pl_TargetPhase (es_plan s) /\
  pl_FailedPhase (es_plan s') = pl_FailedPhase (es_plan s).
Proof. exact (executePlan_phase_step now s r s' ph). Qed.

(** Property: The number of failures a plan survives is exactly its retry budget. A
    task that always fails is retried [MaxRetries] times, with the plan Active in
    between, and the next failure fails the plan. *)
Theorem retry_budget_exact {W} {RT : TaskRuntime W} (now : Z) (s : exec_state W) t :
  always_failing RT -> pl_Phase (es_plan s) = TaskPlanActive -> pl_Tasks (es_plan s) = [t] ->
  is_pending t -> pt_RetryCount t = 0%Z -> (0 <= pt_MaxRetries t)%Z ->
  (forall n, (Z.of_nat n <= pt_MaxRetries t)%Z ->
     exists s', reconciles now n s = Some s' /\ pl_Phase (es_plan s') = TaskPlanActive) /\
  exists s', reconciles now (S (Z.to_nat (pt_MaxRetries t))) s = Some s' /\
    pl_Phase (es_plan s') = TaskPlanFailed.
Proof.
  intros Hf Hact Hp Ht H0 Hm.
  assert (Hgo : forall n, (Z.of_nat n <= pt_MaxRetries t)%Z -> exists s' t',
    reconciles now n s = Some s' /\ pl_Phase (es_plan s') = TaskPlanActive /\
    pl_Tasks (es_plan s') = [t'] /\ is_pending t' /\
    pt_RetryCount t' = (pt_RetryCount t + Z.of_nat n)%Z /\ pt_MaxRetries t' = pt_MaxRetries t).
  { intros n Hn. apply reconciles_failing; try done; lia. }
  split; [intros n Hn; destruct (Hgo n Hn) as (s' & t' & ? & ? & _); eauto|].
  destruct (Hgo (Z.to_nat (pt_MaxRetries t))) as (s' & t' & Hr & Ha & Hp' & Ht' & Hc & Hmr); [lia|].
  destruct (executePlan_one_failure now s' t' Hf Ha Hp' Ht') as (r & s2 & Hrun & Hres).
  rewrite (proj2 (Z.ltb_ge (pt_RetryCount t') _)), andb_false_r in Hres by lia.
  exists s2. split; [|done].
  replace (S (Z.to_nat (pt_MaxRetries t))) with (Z.to_nat (pt_MaxRetries t) + 1) by lia.
  by rewrite (reconciles_app now _ 1), Hr; simpl; rewrite Hrun.
Qed.

(** Witnesses of the two theorems above. *)
Definition witness_node : SeiNode :=
  mkSeiNode "node-0" "ns" 1 0 empty
    (mkSeiNodeSpec "pacific-1" "seid:v2" [] empty None None [] None None None
       (Some (mkFullNodeSpec None None None)) None None None None "" false 0 None)
    (mkSeiNodeStatus PhaseInitializing "seid:v1" "" "sidecar:v1" NodeIsolationShared "" [] None None
       [] [] 0 HoldNone).

Lemma executePlan_phase_witness :
  let s := mkState (ObjNode witness_node) (es_plan (Scripted.state []))
             [Scripted.Done; Scripted.Fails "boom"] empty in
  obj_phase (es_obj (after 7 s)) = Some (phase_after (es_plan (after 7 s)) PhaseInitializing) /\
  phase_after (es_plan (after 7 s)) PhaseInitializing = PhaseFailed.
Proof.
  intros s. split; [|vm_compute; reflexivity].
  refine (proj1 (executePlan_phase 7 s (requeue 7 s) (after 7 s) PhaseInitializing _ _ _));
    vm_compute; reflexivity.
Defined.

(** The runtime every task of which fails. *)
Definition failing_runtime : TaskRuntime unit := {|
  TaskExecution := unit;
  Deserialize := fun _ _ _ _ => Ok tt;
  Execute := fun ex o w => (None, ex, o, w);
  Status := fun ex o w => (ExecutionFailed, ex, o, w);
  ExecErr := fun _ => None;
|}.

Lemma retry_budget_exact_witness :
  let s := mkState (ObjNetwork "net" "ns") (Scripted.plan [Scripted.task "replace-pod" "a" 3]) tt empty in
  exists s', @reconciles _ failing_runtime 0 4 s = Some s' /\ pl_Phase (es_plan s') = TaskPlanFailed.
Proof.
  intros s. refine (proj2 (@retry_budget_exact _ failing_runtime 0 s
    (Scripted.task "replace-pod" "a" 3) _ _ _ _ _ _)); try reflexivity; done.
Defined.

(** Property: Liveness: when every task is accepted and reports completion, one call
    runs the whole plan to Complete and asks for an immediate requeue. *)
Theorem executePlan_completes {W} {RT : TaskRuntime W} (now : Z) (s : exec_state W) :
  synchronous RT -> fresh_plan (es_plan s) ->
  exists s', executePlan now s = Some (ResultRequeueImmediate, s') /\
    pl_Phase (es_plan s') = TaskPlanComplete.
Proof.
  intros Hsync [Hact Ht]. destruct (executePlan_terminates now s) as (r & s' & Hrun).
  exists s'. rewrite Hrun. unfold executePlan in Hrun. rewrite Hact in Hrun.
  eapply loop_synchronous with (finished := []) in Hrun as [Hc ->]; [done..|].
  eapply Forall_impl; [exact Ht|]. by intros t [H _].
Qed.

(** The runtime every task of which completes at once. *)
Definition sync_runtime : TaskRuntime unit := {|
  TaskExecution := unit;
  Deserialize := fun _ _ _ _ => Ok tt;
  Execute := fun ex o w => (None, ex, o, w);
  Status := fun ex o w => (ExecutionComplete, ex, o, w);
  ExecErr := fun _ => None;
|}.

#[export] Instance sync_runtime_frame : RuntimeFrame sync_runtime.
Proof. split; intros ex o w x ex' o' w' [= <- <- <- <-]; apply same_object_refl. Qed.

Lemma executePlan_completes_witness :
  let s := mkState (ObjNetwork "net" "ns") (es_plan (Scripted.state [])) tt empty in
  exists s', @executePlan _ sync_runtime 0 s = Some (ResultRequeueImmediate, s') /\
    pl_Phase (es_plan s') = TaskPlanComplete.
Proof.
  intros s. apply (@executePlan_completes _ sync_runtime 0 s); [by split|].
  repeat constructor.
Defined.

(** ** Backoff *)

(** The wait of the first [n] retries. *)
Fixpoint total_backoff (n : nat) : Z :=
  match n with
  | O => 0
  | S n' => total_backoff n' + retryBackoff (Z.of_nat n)
  end.

Lemma retryBackoff_values k :
  retryBackoff (Z.of_nat (S (S (S k)))) = (30 * second)%Z.
Proof.
  unfold retryBackoff.
  assert (H : (8 <= Z.shiftl 1 (Z.min (Z.of_nat (S (S (S k)))) 5))%Z).
  { rewrite Z.shiftl_mul_pow2 by lia. rewrite Z.mul_1_l.
    transitivity (2 ^ 3)%Z; [done|]. apply Z.pow_le_mono_r; lia. }
  rewrite (proj2 (Z.ltb_lt _ _)); [done|].
  unfold maxRetryBackoff, TaskPollInterval, second. lia.
Qed.

(** Property: The retry schedule: 10s for one retry, and 10s + 20s + 30s*(n-2) for n
    retries, as [taskMaxRetries] documents. Every single wait is between 10s and
    30s. *)
Theorem retry_schedule (n : nat) :
  total_backoff n = (match n with
                     | O => 0
                     | S O => 10
                     | S (S m) => 10 + 20 + 30 * Z.of_nat m
                     end * second)%Z /\
  (10 * second <= retryBackoff (Z.of_nat (S n)) <= 30 * second)%Z.
Proof.
  split.
  - induction n as [|[|[|n]] IH]; try reflexivity.
    change (total_backoff (S (S (S n)))) with (total_backoff (S (S n)) + retryBackoff (Z.of_nat (S (S (S n)))))%Z.
    rewrite IH, retryBackoff_values. unfold second. lia.
  - destruct n as [|[|n]]; [by vm_compute..|]. rewrite retryBackoff_values. unfold second. lia.
Qed.

(** Property: The active-plan counter drifts. A reconcile that leaves a plan Active
    raises [sei.controller.plan.active] by one, and the one that ends the plan
    leaves it where it was: a plan polled n times before it ends leaves the
    counter n too high, although the counter is described as the number of
    active plans. *)
Theorem executePlan_active_counter {W} {RT : TaskRuntime W} {RF : RuntimeFrame RT} (now : Z)
    (s : exec_state W) r s' :
  pl_Phase (es_plan s) = TaskPlanActive -> executePlan now s = Some (r, s') ->
  let k := (controllerName (es_obj s), obj_namespace (es_obj s)) in
  counter k (es_active s') =
    (counter k (es_active s) +
     match pl_Phase (es_plan s') with TaskPlanActive => 1 | _ => 0 end)%Z.
Proof.
  intros Hact. unfold executePlan. rewrite Hact. intros Hrun.
  apply executeLoop_framed in Hrun as (Hfr & _ & _); [|done]. simpl in Hfr.
  destruct (pl_Phase (es_plan s')); destruct Hfr as [_ ->]; rewrite !counter_add; lia.
Qed.

Lemma executePlan_active_counter_witness :
  let s := Scripted.state [Scripted.StillRunning; Scripted.StillRunning] in
  let s1 := after 0 s in let s2 := after 0 s1 in
  counter ("seinetwork", "ns") (es_active s2) = (counter ("seinetwork", "ns") (es_active s1) + 1)%Z /\
  counter ("seinetwork", "ns") (es_active s2) = 2%Z.
Proof.
  intros s s1 s2. split; [|vm_compute; reflexivity].
  refine (executePlan_active_counter 0 s1 (requeue 0 s1) s2 _ _); vm_compute; reflexivity.
Defined.
