(* ===== verification/Config.v ===== *)
(** * The configValues overlay and the consensus overlay
    (src/internal/planner/config_overlay.go, consensus_overlay.go)

    A Go [map[string]any] is an association list here. Where the Go code ranges
    over a map the model goes through the list in order; the map a successful
    run builds does not depend on that order. *)

From stdpp Require Import base list strings gmap pretty sorting.
From Stdlib Require Import ZArith Lia Ascii.
From S2P Require Import Prelude Api Platform.

(** ** Maps as association lists *)
Definition table := list (string * jval).

Fixpoint tbl_lookup {A} (k : string) (t : list (string * A)) : option A :=
  match t with
  | [] => None
  | (k', v) :: t' => if k =s k' then Some v else tbl_lookup k t'
  end.

(** [m[k] = v] *)
Fixpoint tbl_set {A} (k : string) (v : A) (t : list (string * A)) : list (string * A) :=
  match t with
  | [] => [(k, v)]
  | (k', v') :: t' => if k =s k' then (k, v) :: t' else (k', v') :: tbl_set k v t'
  end.

(** ** Strings: more of Go's [strings] *)

(** [strings.Split] on a one-byte separator. *)
Fixpoint split_on (sep : ascii) (s : string) : list string :=
  match s with
  | EmptyString => [EmptyString]
  | String c s' =>
      if Ascii.eqb c sep then EmptyString :: split_on sep s'
      else match split_on sep s' with
           | [] => [String c EmptyString]
           | w :: ws => String c w :: ws
           end
  end.

(** [strings.Cut] on a one-byte separator: what precedes and what follows. *)
Fixpoint cut (sep : ascii) (s : string) : string * string :=
  match s with
  | EmptyString => (EmptyString, EmptyString)
  | String c s' =>
      if Ascii.eqb c sep then (EmptyString, s')
      else let '(a, b) := cut sep s' in (String c a, b)
  end.

Definition is_digit (c : ascii) : bool :=
  let n := nat_of_ascii c in (48 <=? n) && (n <=? 57).
(** The digits a string starts with, and the rest. *)
Fixpoint span_digits (s : string) : string * string :=
  match s with
  | String c s' => if is_digit c then let '(d, r) := span_digits s' in (String c d, r) else (EmptyString, s)
  | EmptyString => (EmptyString, EmptyString)
  end.
Definition is_upper (c : ascii) : bool :=
  let n := nat_of_ascii c in (65 <=? n) && (n <=? 90).
Definition is_lower (c : ascii) : bool :=
  let n := nat_of_ascii c in (97 <=? n) && (n <=? 122).

(** [strings.ToLower] on ASCII *)
Fixpoint to_lower (s : string) : string :=
  match s with
  | EmptyString => EmptyString
  | String c s' =>
      String (if is_upper c then ascii_of_nat (nat_of_ascii c + 32) else c) (to_lower s')
  end.

(** [strings.TrimLeft(s, "0")] and [strings.TrimRight(s, "0")] *)
Fixpoint trim_left_zeros (s : string) : string :=
  match s with
  | String "0" s' => trim_left_zeros s'
  | _ => s
  end.
Fixpoint trim_right_zeros (s : string) : string :=
  match s with
  | EmptyString => EmptyString
  | String c s' =>
      match trim_right_zeros s' with
      | EmptyString => if Ascii.eqb c "0" then EmptyString else String c EmptyString
      | r => String c r
      end
  end.

(** The value of a string of decimal digits. *)
Fixpoint digits_value (acc : Z) (s : string) : option Z :=
  match s with
  | EmptyString => Some acc
  | String c s' =>
      if is_digit c then digits_value (10 * acc + Z.of_nat (nat_of_ascii c - 48))%Z s' else None
  end.

(** A decimal integer with an optional sign, as [big.Int.SetString(s, 10)] and
    [strconv.ParseInt(s, 10, _)] read it. *)
Definition parse_int (s : string) : option Z :=
  match s with
  | EmptyString => None
  | String "-" EmptyString | String "+" EmptyString => None
  | String "-" s' => Z.opp <$> digits_value 0 s'
  | String "+" s' => digits_value 0 s'
  | _ => digits_value 0 s
  end.

(** The leading integer of a text, as [fmt.Sscanf(s, "%d", &ord)] reads it, and a
    whole text, as [strconv.Atoi] does. A label value holds no space. *)
Definition int64_ok (n : Z) : bool := (- 2 ^ 63 <=? n)%Z && (n <? 2 ^ 63)%Z.
Definition scan_int (s : string) : option Z :=
  let '(neg, body) := match s with
                      | String "-" s' => (true, s')
                      | String "+" s' => (false, s')
                      | _ => (false, s)
                      end in
  let '(d, _) := span_digits body in
  if d =s "" then None
  else n ← digits_value 0 d;
       let n := if neg then (- n)%Z else n in
       if int64_ok n then Some n else None.
Definition Atoi (s : string) : option Z :=
  n ← parse_int s; if int64_ok n then Some n else None.

(** ** [ConfigValue.FileName]: [^[A-Za-z0-9_-]+\.toml$] *)
Definition name_char (c : ascii) : bool :=
  is_digit c || is_upper c || is_lower c || Ascii.eqb c "_" || Ascii.eqb c "-".

Fixpoint matches_from (seen : bool) (s : string) : bool :=
  match s with
  | EmptyString => false
  | String c s' =>
      (seen && (s =s ".toml")) || (name_char c && matches_from true s')
  end.
Definition configValueFileNamePattern (s : string) : bool := matches_from false s.

(** ** Values *)

Fixpoint containsNull (v : jval) : bool :=
  match v with
  | JNull => true
  | JObj l => existsb (fun kv => containsNull kv.2) l
  | JArr l => existsb containsNull l
  | _ => false
  end.

(** The magnitude of a JSON number literal as mantissa and power of ten. *)
Definition number_parts (lit : string) : bool * Z * Z :=
  let '(mant, expo) := cut "e" (to_lower lit) in
  let neg := has_prefix "-" mant in
  let mant := if neg then match mant with String _ m => m | m => m end else mant in
  let '(whole, frac) := cut "." mant in
  let m := default 0%Z (digits_value 0 (whole +:+ frac)) in
  let e := if expo =s "" then 0%Z else default 0%Z (parse_int expo) in
  (neg, m, (e - Z.of_nat (String.length frac))%Z).

(** [json.Number.Int64]: a decimal integer in range. *)
Definition number_Int64_ok (lit : string) : bool :=
  match parse_int lit with
  | Some z => (- 2 ^ 63 <=? z)%Z && (z <? 2 ^ 63)%Z
  | None => false
  end.

(** [json.Number.Float64]: out of range from half an ulp above the largest
    finite double. *)
Definition number_Float64_ok (lit : string) : bool :=
  let '(_, m, e) := number_parts lit in
  let bound := (2 ^ 1024 - 2 ^ 970)%Z in
  if (0 <=? e)%Z then (m * 10 ^ e <? bound)%Z else (m <? bound * 10 ^ (- e))%Z.

Fixpoint validateOverlayNumbers (v : jval) : result unit :=
  let fix go (l : list jval) : result unit :=
    match l with
    | [] => Ok tt
    | x :: l' => match validateOverlayNumbers x with Ok _ => go l' | Err e => Err e end
    end in
  let fix go_obj (l : list (string * jval)) : result unit :=
    match l with
    | [] => Ok tt
    | (_, x) :: l' => match validateOverlayNumbers x with Ok _ => go_obj l' | Err e => Err e end
    end in
  match v with
  | JNum lit =>
      if number_Int64_ok lit || number_Float64_ok lit then Ok tt
      else Err ("number " +:+ quote lit +:+ " cannot be represented as int64 or float64")
  | JObj l => go_obj l
  | JArr l => go l
  | _ => Ok tt
  end.

Set Warnings "-register-all".

(** ** Building the overlay *)

(** The entry that supplied a node of the overlay, and the nodes below it. *)
Inductive overlayOrigin := mkOrigin (key : string) (children : list (string * overlayOrigin)).
Definition oo_key (o : overlayOrigin) : string := let '(mkOrigin k _) := o in k.
Definition oo_children (o : overlayOrigin) := let '(mkOrigin _ c) := o in c.

(** Inserts [src] into [dst]; the string is the key of the entry it collides
    with, [""] for none. A collision stops the walk. *)
Fixpoint insertOverlay (src : jval) (dst : table) (origin : overlayOrigin) (key : string)
    {struct src} : string * table * overlayOrigin :=
  let fix go (l : table) (dst : table) (origin : overlayOrigin) : string * table * overlayOrigin :=
    match l with
    | [] => ("", dst, origin)
    | (name, value) :: l' =>
        let previous := tbl_lookup name dst in
        let isMap := match value with JObj _ => true | _ => false end in
        let current := match previous with Some (JObj t) => Some t | _ => None end in
        let exists_ := match previous with Some _ => true | None => false end in
        if exists_ && (negb isMap || match current with Some _ => false | None => true end)
        then (match tbl_lookup name (oo_children origin) with Some o => oo_key o | None => "" end,
              dst, origin)
        else
          let child := match tbl_lookup name (oo_children origin) with
                       | Some o => if exists_ then o else mkOrigin key []
                       | None => mkOrigin key []
                       end in
          if isMap then
            let '(conflict, cur', child') := insertOverlay value (default [] current) child key in
            let origin' := mkOrigin (oo_key origin) (tbl_set name child' (oo_children origin)) in
            if conflict <>s "" then (conflict, dst, origin')
            else go l' (tbl_set name (JObj cur') dst) origin'
          else
            go l' (tbl_set name value dst)
              (mkOrigin (oo_key origin) (tbl_set name child (oo_children origin)))
    end in
  match src with
  | JObj l => go l dst origin
  | _ => ("", dst, origin)
  end.

(** [value] nested under the dotted path: [for _, key := range slices.Backward(path)]. *)
Definition nest (path : list string) (v : jval) : jval :=
  foldr (fun k acc => JObj [(k, acc)]) v path.

Definition files := list (string * table).

Fixpoint overlay_entries (values : list ConfigValue) (patch : files)
    (origins : list (string * overlayOrigin)) : result files :=
  match values with
  | [] => Ok patch
  | entry :: values' =>
      let where_ := "configValues " +:+ cv_FileName entry +:+ ":" +:+ cv_Key entry +:+ ": " in
      if negb (configValueFileNamePattern (cv_FileName entry)) then
        Err (where_ +:+ "fileName must match ^[A-Za-z0-9_-]+\.toml$")
      else match cv_Value entry with
      | None => Err (where_ +:+ "invalid JSON")
      | Some value =>
          if containsNull value then
            Err (where_ +:+ "null values are not supported, including inside objects or arrays; supply a TOML value")
          else match validateOverlayNumbers value with
          | Err e => Err (where_ +:+ e)
          | Ok _ =>
              let nested := nest (split_on "." (cv_Key entry)) value in
              let dst := default [] (tbl_lookup (cv_FileName entry) patch) in
              let origin := default (mkOrigin "" []) (tbl_lookup (cv_FileName entry) origins) in
              let '(previous, dst', origin') := insertOverlay nested dst origin (cv_Key entry) in
              if previous <>s "" then
                Err ("configValues " +:+ cv_FileName entry +:+ ": overlapping keys " +:+
                     quote previous +:+ " and " +:+ quote (cv_Key entry) +:+
                     "; use non-overlapping dotted paths")
              else overlay_entries values' (tbl_set (cv_FileName entry) dst' patch)
                     (tbl_set (cv_FileName entry) origin' origins)
          end
      end
  end.

Definition configValuesOverlay (values : list ConfigValue) : result files :=
  overlay_entries values [] [].

Definition ValidateConfigValues (values : list ConfigValue) : result unit :=
  (fun _ => tt) <$> configValuesOverlay values.

(** ** The hash of a set of configValues *)

Definition canonicalJSONNumber (number : string) : string :=
  let '(mantissa, exponent) := cut "e" (to_lower number) in
  let negative := has_prefix "-" mantissa in
  let mantissa := if negative then match mantissa with String _ m => m | m => m end else mantissa in
  let '(whole, fraction) := cut "." mantissa in
  let digits := trim_left_zeros (whole +:+ fraction) in
  if digits =s "" then "0"
  else
    let trimmed := trim_right_zeros digits in
    let power := ((if exponent =s "" then 0 else default 0 (parse_int exponent)) +
                  (Z.of_nat (String.length digits) - Z.of_nat (String.length trimmed)
                   - Z.of_nat (String.length fraction)))%Z in
    (if negative then "-" +:+ trimmed else trimmed) +:+
    (if (power =? 0)%Z then "" else "e" +:+ pretty power).

Fixpoint canonicalJSONValue (v : jval) : jval :=
  match v with
  | JNum n => JNum (canonicalJSONNumber n)
  | JObj l => JObj (map (fun kv => (kv.1, canonicalJSONValue kv.2)) l)
  | JArr l => JArr (map canonicalJSONValue l)
  | _ => v
  end.

(** [slices.Sort] on strings: byte order. *)
Definition sort_strings (l : list string) : list string := merge_sort String.le l.

(** [json.Marshal] of a string: quotes, backslashes, control characters and the
    three HTML characters are escaped; other bytes are copied. *)
Definition hex_digit (n : nat) : ascii :=
  if (n <? 10) then ascii_of_nat (48 + n) else ascii_of_nat (87 + n).
Definition json_char (c : ascii) : string :=
  let n := nat_of_ascii c in
  if n =? 34 then String "\" (String c EmptyString)
  else if n =? 92 then String "\" (String c EmptyString)
  else if n =? 8 then "\b" else if n =? 12 then "\f"
  else if n =? 10 then "\n" else if n =? 13 then "\r" else if n =? 9 then "\t"
  else if (n <? 32) || (n =? 60) || (n =? 62) || (n =? 38) then
    "\u00" +:+ String (hex_digit (n / 16)) (String (hex_digit (n mod 16)) EmptyString)
  else String c EmptyString.
Fixpoint json_escape (s : string) : string :=
  match s with
  | EmptyString => EmptyString
  | String c s' => json_char c +:+ json_escape s'
  end.
Definition json_string (s : string) : string := dquote +:+ json_escape s +:+ dquote.

(** The members of an object, in the order of their keys. *)
Fixpoint insert_member (x : string * string) (l : list (string * string)) : list (string * string) :=
  match l with
  | [] => [x]
  | y :: l' => if String.leb x.1 y.1 then x :: l else y :: insert_member x l'
  end.

Fixpoint json_marshal (v : jval) : string :=
  match v with
  | JNull => "null"
  | JBool b => if b then "true" else "false"
  | JNum n => n
  | JStr s => json_string s
  | JArr l => "[" +:+ join "," (map json_marshal l) +:+ "]"
  | JObj l =>
      "{" +:+ join "," (map (fun kv => json_string kv.1 +:+ ":" +:+ kv.2)
                (foldr insert_member [] (map (fun kv => (kv.1, json_marshal kv.2)) l))) +:+ "}"
  end.

(** The [[fileName, key, value]] tuple of one entry. *)
Definition config_tuple (entry : ConfigValue) : result string :=
  match cv_Value entry with
  | None => Err ("configValues " +:+ cv_FileName entry +:+ ":" +:+ cv_Key entry +:+ ": invalid JSON")
  | Some v => Ok (json_marshal (JArr [JStr (cv_FileName entry); JStr (cv_Key entry); canonicalJSONValue v]))
  end.

Fixpoint config_tuples (values : list ConfigValue) : result (list string) :=
  match values with
  | [] => Ok []
  | e :: values' => x ← config_tuple e; xs ← config_tuples values'; Ok (x :: xs)
  end.

Definition configValuesHash {H : Hashes} (values : list ConfigValue) : result string :=
  tuples ← config_tuples values;
  Ok (Sum256 (json_marshal (JArr (map JStr (sort_strings tuples))))).

(** ** The consensus overlay *)
Definition AutobahnConfigPath := "/home/nonroot/.sei/config/autobahn.json".
Definition consensusConfigFile := "config.toml".
Definition consensusAppFile := "app.toml".
Definition keyAutobahnConfigFile := "autobahn-config-file".
Definition keyEnable := "enable".
Definition keyHTTPEnabled := "http_enabled".
Definition keyWSEnabled := "ws_enabled".

(** The seid keys the engine needs; [None] for Tendermint. *)
Definition consensusOverlay (spec : SeiNodeSpec) : option files :=
  if negb (ConsensusSpec_IsAutobahn (sp_Consensus spec)) then None
  else
    let engine := EffectiveExecutionEngine spec in
    let evmOnly := IsEvmOnly engine in
    let evm := (keyWSEnabled, JBool true) ::
               (if evmOnly then [(keyHTTPEnabled, JBool (EvmHTTPEnabled engine))] else []) in
    Some [
      (consensusConfigFile,
        (keyAutobahnConfigFile, JStr AutobahnConfigPath) ::
        (if evmOnly then [("evm-only", JBool true); ("rpc", JObj [("laddr", JStr "")])] else []));
      (consensusAppFile,
        ("evm", JObj evm) ::
        (if evmOnly then [("api", JObj [(keyEnable, JBool false)]);
                          ("grpc", JObj [(keyEnable, JBool false)]);
                          ("grpc-web", JObj [(keyEnable, JBool false)])] else []))].

(** Layers [src], a table of controller-owned keys, over [dst]. *)
Fixpoint mergeTables (src : jval) (dst : table) (file prefix : string) {struct src} : result table :=
  let fix go (l : table) (dst : table) : result table :=
    match l with
    | [] => Ok dst
    | (key, value) :: l' =>
        let path := prefix +:+ key in
        match value, tbl_lookup key dst with
        | JObj _, Some (JObj current) =>
            match mergeTables value current file (path +:+ ".") with
            | Ok current' => go l' (tbl_set key (JObj current') dst)
            | Err e => Err e
            end
        | _, Some _ =>
            Err ("configValues " +:+ file +:+ ":" +:+ path +:+
                 ": this key is set by spec.consensus or spec.executionEngine and cannot be overridden")
        | _, None => go l' (tbl_set key value dst)
        end
    end in
  match src with
  | JObj l => go l dst
  | _ => Ok dst
  end.

Fixpoint merge_files (user controller : files) : result files :=
  match controller with
  | [] => Ok user
  | (file, t) :: controller' =>
      t' ← mergeTables (JObj t) (default [] (tbl_lookup file user)) file "";
      merge_files (tbl_set file t' user) controller'
  end.

Definition mergeOverlayPatches (user : files) (controller : option files) : result files :=
  match controller with
  | None => Ok user
  | Some c => merge_files user c
  end.

(** ** Lemmas *)

Lemma sort_strings_perm l : sort_strings l ≡ₚ l.
Proof. apply merge_sort_Permutation. Qed.

Lemma sort_strings_unique l l' : l ≡ₚ l' -> sort_strings l = sort_strings l'.
Proof.
  intros H. apply (StronglySorted_unique String.le).
  - apply StronglySorted_merge_sort; apply _.
  - apply StronglySorted_merge_sort; apply _.
  - by rewrite !sort_strings_perm.
Qed.

Lemma config_tuples_perm v v' ts :
  v ≡ₚ v' -> config_tuples v = Ok ts -> exists ts', config_tuples v' = Ok ts' /\ ts ≡ₚ ts'.
Proof.
  intros H. revert ts. induction H as [|e v v' H IH|e1 e2 v|v1 v2 v3 H1 IH1 H2 IH2]; intros ts Hts.
  - eauto.
  - simpl in *. destruct (config_tuple e) as [x|]; simpl in *; [|done].
    destruct (config_tuples v) as [xs|]; simpl in *; [|done]. simplify_eq.
    destruct (IH xs eq_refl) as (xs' & -> & Hp). exists (x :: xs'). split; [done|]. by rewrite Hp.
  - simpl in *. destruct (config_tuple e1) as [x1|], (config_tuple e2) as [x2|]; simpl in *; try done.
    destruct (config_tuples v) as [xs|]; simpl in *; [|done]. simplify_eq.
    eexists. split; [done|]. constructor.
  - destruct (IH1 _ Hts) as (t2 & Ht2 & Hp2). destruct (IH2 _ Ht2) as (t3 & Ht3 & Hp3).
    exists t3. split; [done|]. by rewrite Hp2.
Qed.

(** ** Properties *)

(** Property: The order of the entries of spec.configValues does not matter to drift
    detection: every reordering of a set that hashes has the same hash. *)
Theorem configValuesHash_permutation {H : Hashes} v v' h :
  v ≡ₚ v' -> configValuesHash v = Ok h -> configValuesHash v' = Ok h.
Proof.
  intros Hp. unfold configValuesHash. destruct (config_tuples v) as [ts|] eqn:E; simpl; [|done].
  destruct (config_tuples_perm v v' ts Hp E) as (ts' & -> & Hts). simpl.
  by rewrite (sort_strings_unique ts' ts).
Qed.

Definition sample_values : list ConfigValue :=
  [mkConfigValue "app.toml" "a.b" (Some (JNum "1.0E2"));
   mkConfigValue "app.toml" "a.c" (Some (JObj [("y", JNum "2"); ("x", JBool true)]))].

Lemma configValuesHash_permutation_witness :
  exists h, @configValuesHash sample_hashes (rev sample_values) = Ok h.
Proof.
  eexists. refine (@configValuesHash_permutation sample_hashes sample_values _ _ _ _).
  - apply Permutation_rev.
  - vm_compute. reflexivity.
Defined.

(** ** Decimal text *)
Lemma pretty_char_digit (x : N) : (x < 10)%N ->
  is_digit (pretty_N_char x) = true /\ (Z.of_nat (nat_of_ascii (pretty_N_char x) - 48))%Z = Z.of_N x.
Proof.
  intros Hx. assert (x ∈ [0;1;2;3;4;5;6;7;8;9]%N) as Hin by (rewrite !elem_of_cons; lia).
  repeat (apply elem_of_cons in Hin as [->|Hin]; [done|]). by apply not_elem_of_nil in Hin.
Qed.

Lemma digits_pretty_go x : forall s, digits_value 0 (pretty_N_go x s) = digits_value (Z.of_N x) s.
Proof.
  induction (N.lt_wf_0 x) as [x _ IH]. intros s. destruct (decide (x = 0)%N) as [->|Hx]; [by rewrite pretty_N_go_0|].
  rewrite pretty_N_go_step by lia. rewrite IH by (apply N.div_lt; lia).
  assert (Hm : (x mod 10 < 10)%N) by (apply N.mod_lt; lia).
  destruct (pretty_char_digit (x mod 10) Hm) as [Hd Hv]. simpl. rewrite Hd, Hv. f_equal.
  rewrite N2Z.inj_div, N2Z.inj_mod. pose proof (Z.div_mod (Z.of_N x) 10). lia.
Qed.

Lemma span_all s : str_forall is_digit s = true -> span_digits s = (s, "").
Proof. induction s as [|c s IH]; simpl; [done|]. intros [-> Hs]%andb_true_iff. by rewrite IH. Qed.

Lemma digit_pretty_go x : forall s, str_forall is_digit s = true -> str_forall is_digit (pretty_N_go x s) = true.
Proof.
  induction (N.lt_wf_0 x) as [x _ IH]. intros s Hs. destruct (decide (x = 0)%N) as [->|Hx]; [by rewrite pretty_N_go_0|].
  rewrite pretty_N_go_step by lia. apply IH; [apply N.div_lt; lia|]. simpl. rewrite Hs.
  by rewrite (proj1 (pretty_char_digit (x mod 10) ltac:(apply N.mod_lt; lia))).
Qed.
Lemma pretty_nat_digits (i : nat) : str_forall is_digit (pretty i) = true /\ digits_value 0 (pretty i) = Some (Z.of_nat i).
Proof.
  unfold pretty, pretty_nat, pretty, pretty_N. case_decide as Hi.
  - destruct i; [done|lia].
  - split; [by apply digit_pretty_go|]. rewrite digits_pretty_go. simpl. f_equal. lia.
Qed.

Lemma digit_sign c : is_digit c = true -> c <> "-"%char /\ c <> "+"%char.
Proof. intros Hc. split; intros ->; done. Qed.

Lemma scan_int_pretty (i : nat) : (Z.of_nat i < 2 ^ 63)%Z -> scan_int (pretty i) = Some (Z.of_nat i).
Proof.
  intros Hi. destruct (pretty_nat_digits i) as [Hd Hv]. unfold scan_int.
  destruct (pretty i) as [|c s] eqn:Ep; [simpl in Hv; injection Hv as Hv; replace i with 0 in Ep by lia; done|].
  assert (Hc : is_digit c = true) by (simpl in Hd; by apply andb_true_iff in Hd as [? _]).
  destruct (digit_sign c Hc) as [H1 H2].
  assert (Hm : match String c s with String "-" s' => (true, s') | String "+" s' => (false, s') | _ => (false, String c s) end
    = (false, String c s)) by (destruct c as [[] [] [] [] [] [] [] []]; done).
  rewrite Hm, (span_all _ Hd), Hv. cbv iota beta. replace (String c s =s "") with false by done. simpl.
  unfold int64_ok. by rewrite (proj2 (Z.leb_le _ _)), (proj2 (Z.ltb_lt _ _)) by lia.
Qed.

Lemma parse_int_pretty (z : Z) : parse_int (pretty z) = Some z.
Proof.
  assert (Hnat : forall p, exists c s, pretty (N.pos p) = String c s /\ is_digit c = true /\
    digits_value 0 (String c s) = Some (Z.pos p)).
  { intros p. destruct (pretty_nat_digits (Pos.to_nat p)) as [Hd Hv]. revert Hd Hv.
    change (pretty (Pos.to_nat p)) with (pretty (N.of_nat (Pos.to_nat p))).
    rewrite positive_nat_N, positive_nat_Z. destruct (pretty (N.pos p)) as [|c s]; [done|].
    intros [Hc _]%andb_true_iff Hv. by exists c, s. }
  destruct z as [|p|p]; [done|..]; destruct (Hnat p) as (c & s & Ep & Hc & Hv).
  - change (pretty (Z.pos p)) with (pretty (N.pos p)). rewrite Ep. unfold parse_int.
    destruct (digit_sign c Hc) as [H1 H2]. by destruct c as [[] [] [] [] [] [] [] []].
  - change (pretty (Z.neg p)) with ("-" +:+ pretty (N.pos p)). rewrite Ep. simpl in *. by rewrite Hv.
Qed.

(** ** Texts cut at a separator *)
Definition without (c : ascii) (s : string) : bool := str_forall (fun d => negb (Ascii.eqb d c)) s.
Lemma split_on_word c w : without c w = true -> split_on c w = [w].
Proof.
  unfold without. induction w as [|d w IH]; [done|]. simpl. intros [Hd Hw]%andb_true_iff.
  apply negb_true_iff in Hd. by rewrite Hd, IH.
Qed.
Lemma split_on_app c w s : without c w = true -> split_on c (w +:+ String c s) = w :: split_on c s.
Proof.
  unfold without. induction w as [|d w IH].
  - intros _. change ("" +:+ String c s) with (String c s). simpl. by rewrite Ascii.eqb_refl.
  - change (String d w +:+ String c s) with (String d (w +:+ String c s)). simpl. intros [Hd Hw]%andb_true_iff.
    apply negb_true_iff in Hd. by rewrite Hd, IH.
Qed.
Lemma split_on_join c l : l <> [] -> Forall (fun w => without c w = true) l ->
  split_on c (join (String c EmptyString) l) = l.
Proof.
  intros Hl. induction l as [|w [|w' l] IH]; [done|..]; intros [Hw Hf]%Forall_cons; [by apply split_on_word|].
  change (join (String c EmptyString) (w :: w' :: l)) with (w +:+ String c (join (String c EmptyString) (w' :: l))).
  by rewrite split_on_app, IH.
Qed.
