(* ===== verification/Task.v ===== *)
(** * Task executions (src/internal/task) and the start guard

    The [TaskExecution] implementations a node plan runs: sidecar-backed tasks,
    the start-guarded mark-ready, the record tasks, observe-image and
    replace-pod. The sidecar HTTP API and the Kubernetes API are interfaces. *)

From stdpp Require Import base list strings gmap pretty.
From Stdlib Require Import ZArith Lia Ascii.
From S2P Require Import Prelude Api NodeState Platform Executor Config.

(** ** noderesource helpers (src/internal/noderesource) *)

Definition DedicatedNodeKey := "sei.io/dedicated-node".
Definition dedicatedNodeValue := "true".

Definition EffectiveNodeIsolation (node : SeiNode) : NodeIsolation :=
  let fallback :=
    if bool_decide (n_Annotations node !! DedicatedNodeKey = Some dedicatedNodeValue)
    then NodeIsolationDedicated else NodeIsolationShared in
  match sp_Scheduling (n_Spec node) with
  | Some s => match sch_NodeIsolation s with IsolationNone => fallback | i => i end
  | None => fallback
  end.

Definition RequestedNodePool (node : SeiNode) : string :=
  match sp_Scheduling (n_Spec node) with Some s => sch_NodePool s | None => "" end.

Definition servesSeidRPC (node : SeiNode) : bool :=
  match sp_Seed (n_Spec node) with Some _ => false | None => true end &&
  negb (IsEvmOnly (EffectiveExecutionEngine (n_Spec node))).

Definition UpCheckForNode {C : SeiConfig} (node : SeiNode) : UpCheck :=
  let engine := EffectiveExecutionEngine (n_Spec node) in
  if IsEvmOnly engine && EvmHTTPEnabled engine then mkUpCheck UpCheckHTTP PortEVMHTTP "/"
  else if negb (servesSeidRPC node) then mkUpCheck UpCheckTCP PortP2P ""
  else mkUpCheck UpCheckHTTP PortRPC "/status".

(** [EffectiveSidecarImage] (observe_image.go) *)
Definition EffectiveSidecarImage (node : SeiNode) (p : PlatformConfig) : string :=
  match sp_Sidecar (n_Spec node) with
  | Some s => if sc_Image s <>s "" then sc_Image s else pc_SidecarImage p
  | None => pc_SidecarImage p
  end.

(** [DeterministicTaskID] (task.go): a UUID v5 of planID/taskType/planIndex. *)
Definition task_id_seed (planID taskType : string) (planIndex : nat) : string :=
  planID +:+ "/" +:+ taskType +:+ "/" +:+ pretty planIndex.
Definition DeterministicTaskID {H : Hashes} (planID taskType : string) (planIndex : nat) : string :=
  NewSHA1 (task_id_seed planID taskType planIndex).

(** ** The start guard (start_guard.go) *)

Definition DataResetPending (node : SeiNode) : bool :=
  match sp_NodeConfig (n_Spec node) with
  | Some _ => (st_DataResetGeneration (n_Status node) <? sp_DataResetGeneration (n_Spec node))%Z
  | None => false
  end.

Definition resetBlocks (node : SeiNode) : string :=
  if DataResetPending node then
    "data reset pending: spec.dataResetGeneration=" +:+ pretty (sp_DataResetGeneration (n_Spec node)) +:+
    ", status.dataResetGeneration=" +:+ pretty (st_DataResetGeneration (n_Status node))
  else "".

Definition StartBlocked (node : SeiNode) : string :=
  let reason := resetBlocks node in
  if reason <>s "" then reason
  else
    let hold := HoldRequested (n_Spec node) in
    if bool_decide (hold <> HoldNone) && bool_decide (st_Phase (n_Status node) = PhaseRunning)
    then "maintenance hold " +:+ hold_string hold +:+ " is set"
    else "".

Definition startOnceBlocked (node : SeiNode) : string :=
  let reason := resetBlocks node in
  if reason <>s "" then reason
  else
    let hold := HoldRequested (n_Spec node) in
    if bool_decide (hold <> HoldAfterExit)
    then "start once needs maintenance hold AfterExit, requested now: " +:+ quote (hold_string hold)
    else "".

Definition StartGuardRefusal := "mark-ready refused by the start guard".

(** ** The sidecar HTTP API *)
Inductive SidecarTaskStatus := SidecarRunning | SidecarCompleted | SidecarFailed.

(** The outcome of [GetTask]; [GotError] is any error but [ErrNotFound]. *)
Inductive get_outcome :=
| GotNotFound
| GotError
| GotTask (status : SidecarTaskStatus) (error : option string).

Class SidecarAPI (W : Type) := {
  buildSC : W -> option string;
  ParseUUID : string -> bool;
  SubmitTask : W -> string -> string -> TaskParams -> option string * W;
  GetTask : W -> string -> get_outcome;
}.

(** ** [Validate] of the sidecar params (src/sidecarapi/client/tasks.go) *)
Definition UpCheck_Validate (u : UpCheck) : result unit :=
  if (uc_Port u <? 1)%Z || (65535 <? uc_Port u)%Z then
    Err ("upCheck: port " +:+ pretty (uc_Port u) +:+ " is outside 1-65535")
  else match uc_Scheme u with
  | UpCheckTCP =>
      if uc_Path u <>s "" then
        Err ("upCheck: path " +:+ quote (uc_Path u) +:+ " is meaningless for scheme tcp")
      else Ok tt
  | UpCheckHTTP =>
      if negb (has_prefix "/" (uc_Path u)) then
        Err ("upCheck: http path " +:+ quote (uc_Path u) +:+ " must start with /")
      else Ok tt
  end.

(** *** Durations: [time.ParseDuration] *)

(** A unit: everything up to the next digit or point. *)
Fixpoint span_unit (s : string) : string * string :=
  match s with
  | String c s' =>
      if is_digit c || Ascii.eqb c "."%char then (EmptyString, s)
      else let '(u, r) := span_unit s' in (String c u, r)
  | EmptyString => (EmptyString, EmptyString)
  end.

Definition micro (last : Z) : string :=
  String (Ascii.ascii_of_nat (if (last =? 181)%Z then 194 else 206))
    (String (Ascii.ascii_of_nat (if (last =? 181)%Z then 181 else 188)) "s").
Definition duration_unit (u : string) : option Z :=
  (if u =s "ns" then Some 1
  else if (u =s "us") || (u =s micro 181) || (u =s micro 956) then Some 1000
  else if u =s "ms" then Some 1000000
  else if u =s "s" then Some second
  else if u =s "m" then Some (60 * second)
  else if u =s "h" then Some (3600 * second)
  else None)%Z.

Definition max_magnitude : Z := (2 ^ 63)%Z.

(** [leadingFraction] stops adding digits once the next one would overflow. *)
Fixpoint fraction (f scale : Z) (s : string) : Z * Z :=
  match s with
  | String c s' =>
      if (max_magnitude - 1) / 10 <? f then (f, scale)
      else
        let y := f * 10 + Z.of_nat (Ascii.nat_of_ascii c - 48) in
        if max_magnitude <? y then (f, scale) else fraction y (scale * 10) s'
  | EmptyString => (f, scale)
  end%Z.

(** One [number unit] of the text after another; [None] is any error. The float
    product [f * (unit / scale)] is rounded down. *)
Fixpoint duration_parts (fuel : nat) (d : Z) (s : string) : option Z :=
  match fuel, s with
  | _, EmptyString => Some d
  | O, _ => None
  | S fuel', _ =>
      let '(whole, s) := span_digits s in
      let '(frac, s) := match s with
                        | String "." s' => span_digits s'
                        | _ => (EmptyString, s)
                        end in
      if (whole =s "") && (frac =s "") then None
      else
        let '(u, s) := span_unit s in
        match digits_value 0 whole, duration_unit u with
        | Some v, Some unit =>
            if (max_magnitude <? v)%Z || (max_magnitude / unit <? v)%Z then None
            else
              let '(f, scale) := fraction 0 1 frac in
              let v := (v * unit + f * unit / scale)%Z in
              if (max_magnitude <? v)%Z || (max_magnitude <? d + v)%Z then None
              else duration_parts fuel' (d + v) s
        | _, _ => None
        end
  end.

Definition ParseDuration (s : string) : result Z :=
  let '(neg, body) := match s with
                      | String "-" s' => (true, s')
                      | String "+" s' => (false, s')
                      | _ => (false, s)
                      end in
  let invalid := Err ("time: invalid duration " +:+ quote s) in
  if body =s "0" then Ok 0%Z
  else if body =s "" then invalid
  else match duration_parts (String.length body) 0 body with
       | None => invalid
       | Some d => if neg then Ok (- d)%Z else if (max_magnitude - 1 <? d)%Z then invalid else Ok d
       end.

Definition AutobahnMaxTxsPerBlockCeiling : Z := 2000.

Definition AutobahnConfigParams_validate (a : option AutobahnCeremonySpec) : result unit :=
  match a with
  | None => Ok tt
  | Some a =>
      _ ← (if ab_BlockInterval a <>s "" then
                    match ParseDuration (ab_BlockInterval a) with
                    | Err e => Err ("AutobahnConfig.BlockInterval " +:+ quote (ab_BlockInterval a) +:+ ": " +:+ e)
                    | Ok d =>
                        if (d <=? 0)%Z
                        then Err ("AutobahnConfig.BlockInterval " +:+ quote (ab_BlockInterval a) +:+ " must be positive")
                        else Ok tt
                    end
                  else Ok tt);
      match ab_MaxTxsPerBlock a with
      | Some n =>
          if (n <? 1)%Z || (AutobahnMaxTxsPerBlockCeiling <? n)%Z then
            Err ("AutobahnConfig.MaxTxsPerBlock " +:+ pretty n +:+ " must be in [1, " +:+
                 pretty AutobahnMaxTxsPerBlockCeiling +:+ "]")
          else Ok tt
      | None => Ok tt
      end
  end.

(** Library code the [Validate] methods call: the diagnostics of sei-config on an
    intent, [None] when it is valid, and the human-readable part of
    [bech32.Decode]. *)
Record ClientLibs := mkClientLibs {
  intent_diagnostics : option ConfigIntent -> option string;
  bech32_Decode : string -> result string;
}.

Definition sample_libs : ClientLibs := mkClientLibs (fun _ => None) (fun _ => Ok "sei").

Definition seiBech32HRP := "sei".
Definition validateSeiAccountAddress (libs : ClientLibs) (addr : string) : result unit :=
  match bech32_Decode libs addr with
  | Err e => Err ("address " +:+ quote addr +:+ ": " +:+ e)
  | Ok hrp =>
      if hrp <>s seiBech32HRP
      then Err ("address " +:+ quote addr +:+ ": hrp " +:+ quote hrp +:+ ", expected " +:+ quote seiBech32HRP)
      else Ok tt
  end.

Fixpoint validateGenesisAccounts (libs : ClientLibs) (prefix : string) (i : nat) (accounts : list GenesisAccount)
    : result unit :=
  match accounts with
  | [] => Ok tt
  | a :: rest =>
      let at_ := prefix +:+ ": accounts[" +:+ pretty i +:+ "]" in
      _ ← (if ga_Address a =s "" then Err (at_ +:+ " missing required field Address")
           else if ga_Balance a =s "" then Err (at_ +:+ " missing required field Balance")
           else wrap_err (at_ +:+ ": ") (validateSeiAccountAddress libs (ga_Address a)));
      _ ← match ga_Vesting a with
          | None => Ok tt
          | Some v =>
              if gv_Amount v =s "" then Err (at_ +:+ ".vesting missing required field Amount")
              else if (gv_EndTime v <=? 0)%Z
              then Err (at_ +:+ ".vesting: EndTime must be a positive unix timestamp")
              else Ok tt
          end;
      validateGenesisAccounts libs prefix (S i) rest
  end.

(** [AssembleAndUploadGenesisTask.Validate]; decoding null into a map succeeds. *)
Definition assemble_Validate (libs : ClientLibs) (accountBalance namespace : string) (nodes : list string)
    (accounts : list GenesisAccount) (consensusParams : raw_json) (autobahn : bool)
    (autobahnConfig : option AutobahnCeremonySpec) : result unit :=
  let prefix := "assemble-and-upload-genesis" in
  if accountBalance =s "" then Err (prefix +:+ ": missing required field AccountBalance")
  else if namespace =s "" then Err (prefix +:+ ": missing required field Namespace")
  else match nodes with
  | [] => Err (prefix +:+ ": at least one node is required")
  | _ =>
      _ ← match consensusParams with
          | RawNone | RawValue (JObj _) | RawValue JNull => Ok tt
          | _ => Err (prefix +:+ ": ConsensusParams must be a JSON object")
          end;
      if bool_decide (autobahnConfig <> None) && negb autobahn
      then Err (prefix +:+ ": AutobahnConfig requires Autobahn")
      else
        _ ← wrap_err (prefix +:+ ": ") (AutobahnConfigParams_validate autobahnConfig);
        validateGenesisAccounts libs prefix 0 accounts
  end.

(** ** The Kubernetes objects of a rollout and the API calls on them *)
Record StatefulSet := mkStatefulSet {
  sts_UID : string;
  sts_Generation : Z;
  sts_Replicas : option Z;
  sts_Selector : option (gmap string string);
  sts_ObservedGeneration : Z;
  sts_UpdatedReplicas : Z;
  sts_UpdateRevision : string;
}.

(** An owner reference is a kind and a UID. *)
Record Pod := mkPod {
  pod_Name : string;
  pod_UID : string;
  pod_Labels : gmap string string;
  pod_OwnerReferences : list (string * string);
  pod_DeletionTimestamp : option Z;
}.

Inductive get_sts_outcome := StsNotFound | StsError (msg : string) | StsFound (sts : StatefulSet).
Inductive delete_outcome := Deleted | DeleteNotFound | DeleteConflict | DeleteError (msg : string).

(** [DeletePod] carries the UID precondition. *)
Class KubeAPI (W : Type) := {
  GetStatefulSet : W -> string -> string -> get_sts_outcome;
  ListPods : W -> string -> gmap string string -> result (list Pod);
  DeletePod : W -> Pod -> string -> delete_outcome * W;
}.

Section Tasks.
Context (libs : ClientLibs).

Definition params_Validate (p : TaskParams) : result unit :=
  match p with
  | ConfigPatchTask files =>
      match files with [] => Err "config-patch: at least one file is required" | _ => Ok tt end
  | RestartSeidTask None | StopSeidTask None => Ok tt
  | RestartSeidTask (Some u) => wrap_err "restart-seid: " (UpCheck_Validate u)
  | StopSeidTask (Some u) => wrap_err "stop-seid: " (UpCheck_Validate u)
  | ConfigApplyIntent i =>
      match intent_diagnostics libs i with
      | Some d => Err ("config-apply: invalid intent: " +:+ d)
      | None => Ok tt
      end
  | GenerateIdentityTask c m =>
      if c =s "" then Err "generate-identity: missing required field ChainID"
      else if m =s "" then Err "generate-identity: missing required field Moniker" else Ok tt
  | GenerateGentxTask c st b =>
      if c =s "" then Err "generate-gentx: missing required field ChainID"
      else if st =s "" then Err "generate-gentx: missing required field StakingAmount"
      else if b =s "" then Err "generate-gentx: missing required field AccountBalance" else Ok tt
  | UploadGenesisArtifactsTask n ns ab =>
      if n =s "" then Err "upload-genesis-artifacts: missing required field NodeName"
      else if ab && (ns =s "") then
        Err "upload-genesis-artifacts: Namespace is required when Autobahn is set"
      else Ok tt
  | AssembleAndUploadGenesisTask b ns nodes accounts _ cp ab cfg =>
      assemble_Validate libs b ns nodes accounts cp ab cfg
  | _ => Ok tt
  end.

(** ** Sidecar-backed executions (sidecar.go) *)
Record sidecarExecution := mkSidecarExecution {
  se_type : string;
  se_id : string;
  se_params : TaskParams;
  se_fireAndForget : bool;
  se_status : ExecutionStatus;
  se_err : option string;
}.

Definition se_set (e : sidecarExecution) (st : ExecutionStatus) (err : option string) :=
  mkSidecarExecution (se_type e) (se_id e) (se_params e) (se_fireAndForget e) st err.

Context {W : Type} {API : SidecarAPI W}.

Definition sidecar_Execute (e : sidecarExecution) (w : W)
    : option exec_error * sidecarExecution * W :=
  match buildSC w with
  | Some err => (Some (mkExecError false ("building sidecar client: " +:+ err)), e, w)
  | None =>
      if negb (ParseUUID (se_id e)) then
        (Some (mkExecError false ("invalid task UUID " +:+ quote (se_id e))), e, w)
      else match params_Validate (se_params e) with
      | Err err =>
          let msg := "validating " +:+ se_type e +:+ ": " +:+ err in
          (Some (mkExecError false msg), se_set e ExecutionFailed (Some msg), w)
      | Ok _ =>
          match SubmitTask w (se_type e) (se_id e) (se_params e) with
          | (Some err, w') =>
              let msg := "submitting " +:+ se_type e +:+ ": " +:+ err in
              (Some (mkExecError false msg), se_set e ExecutionFailed (Some msg), w')
          | (None, w') =>
              (None, se_set e (if se_fireAndForget e then ExecutionComplete else ExecutionRunning)
                       (se_err e), w')
          end
      end
  end.

Definition sidecar_Status (e : sidecarExecution) (w : W) : ExecutionStatus * sidecarExecution :=
  match se_status e with
  | ExecutionComplete | ExecutionFailed => (se_status e, e)
  | _ =>
      match buildSC w with
      | Some _ => (ExecutionRunning, e)
      | None =>
          if negb (ParseUUID (se_id e)) then
            (ExecutionFailed,
             se_set e ExecutionFailed (Some ("invalid task UUID " +:+ quote (se_id e))))
          else match GetTask w (se_id e) with
          | GotNotFound => (ExecutionRunning, e)
          | GotError => (se_status e, e)
          | GotTask SidecarCompleted _ => (ExecutionComplete, se_set e ExecutionComplete (se_err e))
          | GotTask SidecarFailed err =>
              let msg := match err with
                         | Some m => if m <>s "" then m
                                     else "task " +:+ se_id e +:+ " failed with unknown error"
                         | None => "task " +:+ se_id e +:+ " failed with unknown error"
                         end in
              (ExecutionFailed, se_set e ExecutionFailed (Some msg))
          | GotTask SidecarRunning _ => (se_status e, e)
          end
      end
  end.

(** The params struct of each sidecar task type with its zero value, what
    [deserializeSidecar] yields for empty params. [None]: the type is not one of
    the sidecar tasks a node plan carries. *)
Definition zero_params (ty : string) : option TaskParams :=
  if ty =s TaskSnapshotRestore then Some (SnapshotRestoreTask 0)
  else if ty =s TaskConfigureStateSync then Some (ConfigureStateSyncTask false [] "" 0)
  else if ty =s TaskConfigApply then Some (ConfigApplyIntent None)
  else if ty =s TaskConfigPatch then Some (ConfigPatchTask [])
  else if ty =s TaskConfigValidate then Some ConfigValidateTask
  else if ty =s TaskConfigureGenesis then Some (ConfigureGenesisTask false)
  else if ty =s TaskTypeRestartSeid then Some (RestartSeidTask None)
  else if ty =s TaskMarkReady then Some MarkReadyTask
  else if ty =s taskTypeMarkNotReady then Some MarkNotReadyTask
  else if ty =s taskTypeStopSeid then Some (StopSeidTask None)
  else if ty =s taskTypeResetData then Some ResetDataTask
  else if ty =s TaskTypeAwaitSeidStart then Some AwaitSeidStartTask
  else if ty =s TaskTypeResetDataKeepSignState then Some ResetDataKeepSignStateTask
  else if ty =s TaskGenerateIdentity then Some (GenerateIdentityTask "" "")
  else if ty =s TaskGenerateGentx then Some (GenerateGentxTask "" "" "")
  else if ty =s TaskUploadGenesisArtifacts then Some (UploadGenesisArtifactsTask "" "" false)
  else if ty =s TaskAssembleGenesis then Some (AssembleAndUploadGenesisTask "" "" [] [] ∅ RawNone false None)
  else if ty =s TaskSetGenesisPeers then Some SetGenesisPeersTask
  else None.

(** [deserializeSidecar]: stored params are the JSON of the task's own struct,
    so decoding them gives the struct back; [NilParams] is JSON null, which
    leaves the zero value. *)
Definition deserializeSidecar (ty id : string) (params : option TaskParams) (zero : TaskParams)
    (fireAndForget : bool) : sidecarExecution :=
  mkSidecarExecution ty id
    match params with None | Some NilParams => zero | Some p => p end
    fireAndForget ExecutionRunning None.

(** ** The start-guarded mark-ready (start_guard.go) *)
Record startGuardedExecution := mkStartGuardedExecution {
  ge_inner : sidecarExecution;
  ge_blocked : SeiNode -> string;
  ge_err : option string;
}.

(** [node] is the resource the execution was built for. *)
Definition guarded_Execute (e : startGuardedExecution) (node : SeiNode) (w : W)
    : option exec_error * startGuardedExecution * W :=
  let reason := ge_blocked e node in
  if reason <>s "" then
    let msg := StartGuardRefusal +:+ ": " +:+ reason in
    (Some (mkExecError true msg),
     mkStartGuardedExecution (ge_inner e) (ge_blocked e) (Some msg), w)
  else
    let '(err, inner, w') := sidecar_Execute (ge_inner e) w in
    (err, mkStartGuardedExecution inner (ge_blocked e) (ge_err e), w').

Definition guarded_Status (e : startGuardedExecution) (w : W)
    : ExecutionStatus * startGuardedExecution :=
  match ge_err e with
  | Some _ => (ExecutionFailed, e)
  | None =>
      let '(st, inner) := sidecar_Status (ge_inner e) w in
      (st, mkStartGuardedExecution inner (ge_blocked e) (ge_err e))
  end.

Definition guarded_Err (e : startGuardedExecution) : option string :=
  match ge_err e with Some m => Some m | None => se_err (ge_inner e) end.

(** ** Controller-side tasks that complete inside [Execute]

    [taskBase]: the cached status and error. [DefaultStatus] returns the cached
    status. *)
Record taskBase := mkTaskBase { tb_status : ExecutionStatus; tb_err : option string }.
Definition newBase : taskBase := mkTaskBase ExecutionRunning None.
Definition complete (b : taskBase) : taskBase := mkTaskBase ExecutionComplete (tb_err b).

(** [ResourceAs[*SeiNode]] *)
Definition ResourceAs_SeiNode (o : Object) : result SeiNode :=
  match o with
  | ObjNode n => Ok n
  | _ => Err "expected resource type *v1alpha1.SeiNode"
  end.

(** record-data-reset: the counter rises to the plan's generation, never falls. *)
Definition recordDataReset_Execute (generation : Z) (b : taskBase) (o : Object)
    : option exec_error * taskBase * Object :=
  match ResourceAs_SeiNode o with
  | Err e => (Some (mkExecError true e), b, o)
  | Ok node =>
      let node' := if (st_DataResetGeneration (n_Status node) <? generation)%Z
                   then upd_status (set_DataResetGeneration generation) node else node in
      (None, complete b, ObjNode node')
  end.

(** record-maintenance-hold *)
Definition recordMaintenanceHold_Execute (hold : MaintenanceHold) (b : taskBase) (o : Object)
    : option exec_error * taskBase * Object :=
  match ResourceAs_SeiNode o with
  | Err e => (Some (mkExecError true e), b, o)
  | Ok node => (None, complete b, ObjNode (upd_status (set_MaintenanceHold hold) node))
  end.

Context {K : KubeAPI W}.

(** observe-image *)
Definition observeImage_Execute (platform : PlatformConfig) (b : taskBase) (o : Object) (w : W)
    : option exec_error * taskBase * Object :=
  match ResourceAs_SeiNode o with
  | Err e => (Some (mkExecError true e), b, o)
  | Ok node =>
      match GetStatefulSet w (n_Namespace node) (n_Name node) with
      | StsNotFound => (None, b, o)
      | StsError e => (Some (mkExecError false ("getting statefulset: " +:+ e)), b, o)
      | StsFound sts =>
          if (sts_ObservedGeneration sts <? sts_Generation sts)%Z then (None, b, o)
          else match sts_Replicas sts with
          | None => (None, b, o)
          | Some r =>
              if (sts_UpdatedReplicas sts <? r)%Z then (None, b, o)
              else (None, complete b,
                    ObjNode (upd_status (set_Observed (sp_Image (n_Spec node))
                      (EffectiveSidecarImage node platform) (EffectiveNodeIsolation node)
                      (RequestedNodePool node)) node))
          end
      end
  end.

(** replace-pod *)
Definition ControllerRevisionHashLabelKey := "controller-revision-hash".

Definition ownedByStatefulSet (pod : Pod) (sts : StatefulSet) : bool :=
  existsb (fun ref => (ref.1 =s "StatefulSet") && (ref.2 =s sts_UID sts)) (pod_OwnerReferences pod).

Definition guardSelectorAndReplicas (node : SeiNode) (sts : StatefulSet) : option exec_error :=
  let noSelector := Some (mkExecError true ("statefulset " +:+ quote (n_Name node) +:+
                      " has no selector; cannot identify owned pods")) in
  match sts_Selector sts with
  | None => noSelector
  | Some m =>
      if bool_decide (m = ∅) then noSelector
      else match sts_Replicas sts with
      | Some r =>
          if (1 <? r)%Z then
            Some (mkExecError true (TaskTypeReplacePod +:+
              " does not support multi-replica StatefulSets (got replicas=" +:+ pretty r +:+
              "); add ordinal-aware deletion before scaling up"))
          else None
      | None => None
      end
  end.

Definition ownedPods (node : SeiNode) (sts : StatefulSet) (w : W) : result (list Pod) :=
  match ListPods w (n_Namespace node) (default ∅ (sts_Selector sts)) with
  | Err e => Err ("listing pods for statefulset " +:+ quote (n_Name node) +:+ ": " +:+ e)
  | Ok pods => Ok (List.filter (fun p => ownedByStatefulSet p sts) pods)
  end.

Definition deletePod (pod : Pod) (w : W) : option exec_error * W :=
  match DeletePod w pod (pod_UID pod) with
  | (DeleteError e, w') =>
      (Some (mkExecError false ("deleting pod " +:+ quote (pod_Name pod) +:+ ": " +:+ e)), w')
  | (_, w') => (None, w')
  end.

(** The loop's three [continue] guards. *)
Definition skipsPod (updateRev : string) (pod : Pod) : bool :=
  match pod_Labels pod !! ControllerRevisionHashLabelKey with
  | None => true
  | Some hash =>
      (hash =s updateRev) || match pod_DeletionTimestamp pod with Some _ => true | None => false end
  end.

Fixpoint deleteOldPods (updateRev : string) (pods : list Pod) (w : W) : option exec_error * W :=
  match pods with
  | [] => (None, w)
  | pod :: pods' =>
      if skipsPod updateRev pod then deleteOldPods updateRev pods' w
      else match deletePod pod w with
      | (Some e, w') => (Some e, w')
      | (None, w') => deleteOldPods updateRev pods' w'
      end
  end.

Definition replacePod_Execute (b : taskBase) (o : Object) (w : W)
    : option exec_error * taskBase * W :=
  match ResourceAs_SeiNode o with
  | Err e => (Some (mkExecError true e), b, w)
  | Ok node =>
      match GetStatefulSet w (n_Namespace node) (n_Name node) with
      | StsNotFound => (None, b, w)
      | StsError e => (Some (mkExecError false ("getting statefulset: " +:+ e)), b, w)
      | StsFound sts =>
          if (sts_ObservedGeneration sts <? sts_Generation sts)%Z then (None, b, w)
          else if sts_UpdateRevision sts =s "" then (None, b, w)
          else match guardSelectorAndReplicas node sts with
          | Some e => (Some e, b, w)
          | None =>
              match ownedPods node sts w with
              | Err e => (Some (mkExecError false e), b, w)
              | Ok pods =>
                  match deleteOldPods (sts_UpdateRevision sts) pods w with
                  | (Some e, w') => (Some e, b, w')
                  | (None, w') => (None, complete b, w')
                  end
              end
          end
      end
  end.

(** ** The registry (task.go) as a [TaskRuntime]

    [Other] runs the task types with no definition of their own here (the
    ensure/apply/validate tasks, the network tasks and the one-shot tasks). *)
Context (platform : PlatformConfig) (Other : TaskRuntime W).

Inductive execution :=
| ExSidecar (e : sidecarExecution)
| ExGuarded (e : startGuardedExecution)
| ExRecordDataReset (generation : Z) (b : taskBase)
| ExRecordHold (hold : MaintenanceHold) (b : taskBase)
| ExObserveImage (b : taskBase)
| ExReplacePod (b : taskBase)
| ExOther (e : @TaskExecution W Other).

Definition deserializeGuardedMarkReady (id : string) (params : option TaskParams) (o : Object)
    (blocked : SeiNode -> string) : execution :=
  let inner := deserializeSidecar TaskMarkReady id params MarkReadyTask true in
  match o with
  | ObjNode _ => ExGuarded (mkStartGuardedExecution inner blocked None)
  | _ => ExSidecar inner
  end.

Definition task_Deserialize (ty id : string) (params : option TaskParams) (o : Object)
    : result execution :=
  if ty =s TaskMarkReady then Ok (deserializeGuardedMarkReady id params o StartBlocked)
  else if ty =s TaskTypeStartSeidOnce then
    Ok (deserializeGuardedMarkReady id params o startOnceBlocked)
  else if ty =s TaskTypeRecordDataReset then
    Ok (ExRecordDataReset match params with Some (RecordDataResetParams g) => g | _ => 0%Z end newBase)
  else if ty =s TaskTypeRecordMaintenanceHold then
    Ok (ExRecordHold match params with Some (RecordMaintenanceHoldParams h) => h | _ => HoldNone end newBase)
  else if ty =s TaskTypeObserveImage then Ok (ExObserveImage newBase)
  else if ty =s TaskTypeReplacePod then Ok (ExReplacePod newBase)
  else match zero_params ty with
  | Some zero =>
      Ok (ExSidecar (deserializeSidecar ty id params zero (ty =s TaskConfigValidate)))
  | None => ExOther <$> Deserialize ty id params o
  end.

Definition task_Execute (ex : execution) (o : Object) (w : W)
    : option exec_error * execution * Object * W :=
  match ex with
  | ExSidecar e => let '(err, e', w') := sidecar_Execute e w in (err, ExSidecar e', o, w')
  | ExGuarded e =>
      match o with
      | ObjNode node => let '(err, e', w') := guarded_Execute e node w in (err, ExGuarded e', o, w')
      | _ => (None, ex, o, w)
      end
  | ExRecordDataReset g b =>
      let '(err, b', o') := recordDataReset_Execute g b o in (err, ExRecordDataReset g b', o', w)
  | ExRecordHold h b =>
      let '(err, b', o') := recordMaintenanceHold_Execute h b o in (err, ExRecordHold h b', o', w)
  | ExObserveImage b =>
      let '(err, b', o') := observeImage_Execute platform b o w in (err, ExObserveImage b', o', w)
  | ExReplacePod b =>
      let '(err, b', w') := replacePod_Execute b o w in (err, ExReplacePod b', o, w')
  | ExOther e => let '(err, e', o', w') := Execute e o w in (err, ExOther e', o', w')
  end.

Definition task_Status (ex : execution) (o : Object) (w : W)
    : ExecutionStatus * execution * Object * W :=
  match ex with
  | ExSidecar e => let '(st, e') := sidecar_Status e w in (st, ExSidecar e', o, w)
  | ExGuarded e => let '(st, e') := guarded_Status e w in (st, ExGuarded e', o, w)
  | ExRecordDataReset _ b | ExRecordHold _ b | ExObserveImage b | ExReplacePod b =>
      (tb_status b, ex, o, w)
  | ExOther e => let '(st, e', o', w') := Status e o w in (st, ExOther e', o', w')
  end.

Definition task_Err (ex : execution) : option string :=
  match ex with
  | ExSidecar e => se_err e
  | ExGuarded e => guarded_Err e
  | ExRecordDataReset _ b | ExRecordHold _ b | ExObserveImage b | ExReplacePod b => tb_err b
  | ExOther e => ExecErr e
  end.

Definition task_runtime : TaskRuntime W := {|
  TaskExecution := execution;
  Deserialize := task_Deserialize;
  Execute := task_Execute;
  Status := task_Status;
  ExecErr := task_Err;
|}.

End Tasks.

(** ** The calls a run makes

    [logged_sidecar] and [logged_kube] are the two APIs with a log of the calls
    that act: submissions to the sidecar and pod deletions. *)
Inductive call :=
| CallSubmit (taskType id : string)
| CallDelete (pod : Pod) (uid : string).

Section Logged.
Context {W : Type} (API : SidecarAPI W) (K : KubeAPI W).

#[export] Instance logged_sidecar : SidecarAPI (W * list call) := {|
  buildSC := fun w => buildSC w.1;
  ParseUUID := @ParseUUID W API;
  SubmitTask := fun w ty id p =>
    let '(r, w') := SubmitTask w.1 ty id p in (r, (w', w.2 ++ [CallSubmit ty id]));
  GetTask := fun w id => GetTask w.1 id;
|}.

#[export] Instance logged_kube : KubeAPI (W * list call) := {|
  GetStatefulSet := fun w => GetStatefulSet w.1;
  ListPods := fun w => ListPods w.1;
  DeletePod := fun w pod uid =>
    let '(r, w') := DeletePod w.1 pod uid in (r, (w', w.2 ++ [CallDelete pod uid]));
|}.

End Logged.

(** The mark-ready submissions of a log: the calls that open the start gate. *)
Definition opens_gate (c : call) : bool :=
  match c with CallSubmit ty _ => ty =s TaskMarkReady | _ => false end.
Definition gate_openings (l : list call) : list call := List.filter opens_gate l.

Lemma gate_openings_snoc l c :
  opens_gate c = false -> gate_openings (l ++ [c]) = gate_openings l.
Proof.
  intros H. unfold gate_openings. rewrite List.filter_app. simpl. rewrite H. apply app_nil_r.
Qed.

Definition reset_generation (o : Object) : Z :=
  match o with ObjNode n => st_DataResetGeneration (n_Status n) | _ => 0 end.

(** What is asked of the task types without a definition here: they leave the
    owner's identity, spec, phase, plan and reset counter alone, and none of
    them submits a mark-ready. *)
Class QuietRuntime {W : Type} (RT : TaskRuntime (W * list call)) : Prop := {
  execute_quiet : forall ex o w err ex' o' w',
    Execute ex o w = (err, ex', o', w') ->
    same_object o o' /\ reset_generation o' = reset_generation o /\
    gate_openings w'.2 = gate_openings w.2;
  status_quiet : forall ex o w st ex' o' w',
    Status ex o w = (st, ex', o', w') ->
    same_object o o' /\ reset_generation o' = reset_generation o /\
    gate_openings w'.2 = gate_openings w.2;
}.

(** The guards read the spec, the phase and the reset counter only. *)
Lemma StartBlocked_ext n n' :
  same_object (ObjNode n) (ObjNode n') -> reset_generation (ObjNode n') = reset_generation (ObjNode n) ->
  StartBlocked n' = StartBlocked n /\ startOnceBlocked n' = startOnceBlocked n.
Proof.
  simpl. intros (_ & _ & Hs & Hp & _) Hg.
  unfold StartBlocked, startOnceBlocked, resetBlocks, DataResetPending. by rewrite Hs, Hp, Hg.
Qed.

Section Guard.
Context {W : Type} (API : SidecarAPI W) (K : KubeAPI W).
Context (libs : ClientLibs) (platform : PlatformConfig).
Context (Other : TaskRuntime (W * list call)) {OQ : QuietRuntime Other}.

Abbreviation LS := (logged_sidecar API).
Abbreviation LK := (logged_kube K).
Abbreviation RT := (@task_runtime libs _ LS LK platform Other).

Lemma sidecar_Execute_calls (e : sidecarExecution) w err e' w' :
  @sidecar_Execute libs _ LS e w = (err, e', w') ->
  w' = w \/ w'.2 = w.2 ++ [CallSubmit (se_type e) (se_id e)].
Proof.
  unfold sidecar_Execute. simpl.
  destruct (buildSC w.1); [intros [= <- <- <-]; by left|].
  destruct (negb _); [intros [= <- <- <-]; by left|].
  destruct (params_Validate _ _); [|intros [= <- <- <-]; by left].
  destruct (SubmitTask w.1 _ _ _) as [[m|] w1]; intros [= <- <- <-]; by right.
Qed.

Lemma sidecar_Execute_quiet (e : sidecarExecution) w err e' w' :
  (se_type e =s TaskMarkReady) = false ->
  @sidecar_Execute libs _ LS e w = (err, e', w') ->
  gate_openings w'.2 = gate_openings w.2.
Proof.
  intros Hty H. apply sidecar_Execute_calls in H as [->| ->]; [done|].
  by apply gate_openings_snoc.
Qed.

Lemma deleteOldPods_quiet rev pods w err w' :
  @deleteOldPods _ LK rev pods w = (err, w') -> gate_openings w'.2 = gate_openings w.2.
Proof.
  revert w. induction pods as [|pod pods IH]; intros w; simpl; [by intros [= <- <-]|].
  destruct (skipsPod rev pod); [apply IH|].
  unfold deletePod; simpl. destruct (DeletePod w.1 pod (pod_UID pod)) as [[] w1];
    first [intros H; rewrite (IH _ H) | intros [= <- <-]]; by apply gate_openings_snoc.
Qed.

Lemma replacePod_Execute_quiet b o w err b' w' :
  @replacePod_Execute _ LK b o w = (err, b', w') -> gate_openings w'.2 = gate_openings w.2.
Proof.
  unfold replacePod_Execute.
  repeat (case_match; try (intros [= <- <- <-]; done));
    intros [= <- <- <-]; by eapply deleteOldPods_quiet.
Qed.

Lemma observeImage_frame b o w err b' o' :
  @observeImage_Execute _ LK platform b o w = (err, b', o') ->
  same_object o o' /\ reset_generation o' = reset_generation o.
Proof.
  unfold observeImage_Execute. destruct o as [n| |]; simpl;
    repeat case_match; intros [= <- <- <-]; by simpl.
Qed.


(** The state in which the gate stays shut: the node [n0], unchanged in all the
    guard reads, and no gate opening since [l0]. *)
Definition shut (n0 : SeiNode) (l0 : list call) (o : Object) (w : W * list call) : Prop :=
  same_object (ObjNode n0) o /\ reset_generation o = reset_generation (ObjNode n0) /\
  gate_openings w.2 = gate_openings l0.

Lemma shut_step n0 l0 o w o' w' :
  shut n0 l0 o w -> same_object o o' -> reset_generation o' = reset_generation o ->
  gate_openings w'.2 = gate_openings w.2 -> shut n0 l0 o' w'.
Proof.
  intros (H1 & H2 & H3) Ho Hg Hl. split_and!; [by eapply same_object_trans | congruence..].
Qed.

(** [task_Status] only reads: the owner and the log stay, except in [Other]. *)
Lemma task_Status_shut n0 l0 ex o w st ex' o' w' :
  shut n0 l0 o w -> @task_Status _ LS Other ex o w = (st, ex', o', w') -> shut n0 l0 o' w'.
Proof.
  intros Hs. unfold task_Status. destruct ex as [e|e|g b|h b|b|b|e].
  - destruct (sidecar_Status e w). by intros [= <- <- <- <-].
  - destruct (guarded_Status e w). by intros [= <- <- <- <-].
  - by intros [= <- <- <- <-].
  - by intros [= <- <- <- <-].
  - by intros [= <- <- <- <-].
  - by intros [= <- <- <- <-].
  - destruct (Status e o w) as [[[st1 e1] o1] w1] eqn:E. intros [= <- <- <- <-].
    destruct (status_quiet _ _ _ _ _ _ _ E) as (? & ? & ?). by eapply shut_step.
Qed.

(** The executions that may run while the gate has to stay shut on [n0]. *)
Definition harmless (n0 : SeiNode) (ex : execution Other) : Prop :=
  match ex with
  | ExSidecar _ e => (se_type e =s TaskMarkReady) = false
  | ExGuarded _ e => forall n, same_object (ObjNode n0) (ObjNode n) ->
      reset_generation (ObjNode n) = reset_generation (ObjNode n0) ->
      (ge_blocked e n <>s "") = true
  | ExRecordDataReset _ _ _ => False
  | _ => True
  end.

Lemma task_Execute_shut n0 l0 ex o w err ex' o' w' :
  harmless n0 ex -> shut n0 l0 o w ->
  @task_Execute libs _ LS LK platform Other ex o w = (err, ex', o', w') ->
  shut n0 l0 o' w'.
Proof.
  intros Hh Hs. unfold task_Execute. destruct ex as [e|e|g b|h b|b|b|e]; simpl in Hh; [..|done| | | |].
  - destruct (sidecar_Execute _ e w) as [[er e1] w1] eqn:E. intros [= <- <- <- <-].
    eapply shut_step; [done|apply same_object_refl|done|]. by eapply sidecar_Execute_quiet.
  - destruct o as [n| |]; [|by intros [= <- <- <- <-]..].
    unfold guarded_Execute. rewrite (Hh n) by apply Hs. by intros [= <- <- <- <-].
  - unfold recordMaintenanceHold_Execute. destruct o as [n| |]; simpl;
      intros [= <- <- <- <-]; (eapply shut_step; [done|..]; by simpl).
  - destruct (observeImage_Execute platform b o w) as [[er b1] o1] eqn:E. intros [= <- <- <- <-].
    apply observeImage_frame in E as [? ?]. by eapply shut_step.
  - destruct (replacePod_Execute b o w) as [[er b1] w1] eqn:E. intros [= <- <- <- <-].
    eapply shut_step; [done|apply same_object_refl|done|]. by eapply replacePod_Execute_quiet.
  - destruct (Execute e o w) as [[[er e1] o1] w1] eqn:E. intros [= <- <- <- <-].
    destruct (execute_quiet _ _ _ _ _ _ _ E) as (? & ? & ?). by eapply shut_step.
Qed.

Lemma respects_shut n0 l0 ty :
  (StartBlocked n0 <>s "") = true -> ty <> TaskTypeRecordDataReset ->
  (ty = TaskTypeStartSeidOnce -> (startOnceBlocked n0 <>s "") = true) ->
  @respects _ RT (shut n0 l0) ty.
Proof.
  intros Hb Hrec Honce id ps o w ex Hs Hd.
  assert (Hh : harmless n0 ex).
  { revert Hd. simpl. unfold task_Deserialize, deserializeGuardedMarkReady.
    destruct Hs as (Ho & _). destruct o as [n| |]; try done. clear Ho.
    repeat case_match; intros Hd; try (injection Hd as <-); simpl; try done.
    1: intros n1 H1 H2; by rewrite (proj1 (StartBlocked_ext _ _ H1 H2)).
    1: intros n1 H1 H2; rewrite (proj2 (StartBlocked_ext _ _ H1 H2)); apply Honce;
         by apply String.eqb_eq.
    all: try (apply Hrec; by apply String.eqb_eq).
    destruct (Deserialize ty id ps (ObjNode n)); [injection Hd as <-|]; done. }
  split; [intros st ex' o' w' H; exact (task_Status_shut _ _ _ _ _ _ _ _ _ Hs H)|].
  intros err ex' o' w' He. pose proof (task_Execute_shut _ _ _ _ _ _ _ _ _ Hh Hs He) as Hs'.
  split; [done|]. intros st ex'' o'' w'' H. exact (task_Status_shut _ _ _ _ _ _ _ _ _ Hs' H).
Qed.

(** Whatever plan runs on a node the start guard blocks, the gate stays shut. *)
Lemma executePlan_shut now s r s' n0 :
  es_obj s = ObjNode n0 -> (StartBlocked n0 <>s "") = true ->
  Forall (fun t => pt_Type t <> TaskTypeRecordDataReset /\
            (pt_Type t = TaskTypeStartSeidOnce -> (startOnceBlocked n0 <>s "") = true))
    (pl_Tasks (es_plan s)) ->
  @executePlan _ RT now s = Some (r, s') ->
  gate_openings (es_world s').2 = gate_openings (es_world s).2.
Proof.
  intros Ho Hb Ht Hrun.
  assert (Hk : @kept _ (shut n0 (es_world s).2) s').
  { eapply (@executePlan_kept _ RT now (shut n0 (es_world s).2) s r); [| |exact Hrun].
    - apply Forall_fmap. eapply Forall_impl; [exact Ht|].
      intros t [? ?]. simpl. by apply respects_shut.
    - rewrite Ho. split_and!; [apply same_object_refl|done..]. }
  unfold kept in Hk. destruct (pl_Phase (es_plan s')); [apply Hk|destruct Hk as (? & Hk & _); apply Hk..].
Qed.

End Guard.

(** The two guards, as conditions on the node. *)
Lemma StartBlocked_iff node :
  (StartBlocked node <>s "") = true <->
  DataResetPending node = true \/
    (HoldRequested (n_Spec node) <> HoldNone /\ st_Phase (n_Status node) = PhaseRunning).
Proof.
  unfold StartBlocked, resetBlocks. destruct (DataResetPending node); simpl; [intuition congruence|].
  destruct (HoldRequested _), (st_Phase _); simpl; intuition congruence.
Qed.

Lemma startOnceBlocked_iff node :
  (startOnceBlocked node <>s "") = true <->
  DataResetPending node = true \/ HoldRequested (n_Spec node) <> HoldAfterExit.
Proof.
  unfold startOnceBlocked, resetBlocks. destruct (DataResetPending node); simpl; [intuition congruence|].
  destruct (HoldRequested _); simpl; intuition congruence.
Qed.

(** ** Concrete worlds for the witnesses *)
Module Sample.

(** A sidecar that accepts everything and reports every task completed, and a
    cluster with one StatefulSet mid-rollout and three pods. *)
Definition api : SidecarAPI unit := {|
  buildSC := fun _ => None;
  ParseUUID := fun _ => true;
  SubmitTask := fun w _ _ _ => (None, w);
  GetTask := fun _ _ => GotTask SidecarCompleted None;
|}.

Definition sts : StatefulSet :=
  mkStatefulSet "sts-uid" 2 (Some 1%Z) (Some {["app" := "node"]}) 2 1 "rev-2".

Definition pod (name uid rev owner : string) : Pod :=
  mkPod name uid {[ControllerRevisionHashLabelKey := rev]} [("StatefulSet", owner)] None.

Definition old_pod := pod "node-0" "u0" "rev-1" "sts-uid".
Definition new_pod := pod "node-1" "u1" "rev-2" "sts-uid".
Definition foreign_pod := pod "other-0" "u2" "rev-1" "someone-else".

Definition kube : KubeAPI unit := {|
  GetStatefulSet := fun _ _ _ => StsFound sts;
  ListPods := fun _ _ _ => Ok [old_pod; new_pod; foreign_pod];
  DeletePod := fun w _ _ => (Deleted, w);
|}.

(** The task types with no definition here, as no-ops. *)
Definition other : TaskRuntime (unit * list call) := {|
  TaskExecution := unit;
  Deserialize := fun ty _ _ _ => if has_prefix "no-such" ty then Err "unknown task type" else Ok tt;
  Execute := fun ex o w => (None, ex, o, w);
  Status := fun ex o w => (ExecutionComplete, ex, o, w);
  ExecErr := fun _ => None;
|}.

#[export] Instance other_quiet : QuietRuntime other.
Proof.
  split; intros ex o w x ex' o' w' [= <- <- <- <-]; (split_and!; [apply same_object_refl|done..]).
Qed.

Definition spec_with_hold (h : MaintenanceHold) (reset : Z) : SeiNodeSpec :=
  mkSeiNodeSpec "sei-test" "img" [] ∅ None None [] (Some (mkNodeConfig "cfg" "app")) None None
    (Some (mkFullNodeSpec None None None)) None None None None "" false reset
    (Some (mkMaintenanceSpec h)).

Definition running_status : SeiNodeStatus :=
  mkSeiNodeStatus PhaseRunning "img" "" "side" NodeIsolationShared "" [] None None [] [] 0 HoldNone.

Definition node (h : MaintenanceHold) (reset : Z) : SeiNode :=
  mkSeiNode "n" "ns" 1 0 ∅ (spec_with_hold h reset) running_status.

Definition runtime : TaskRuntime (unit * list call) :=
  @task_runtime sample_libs _ (logged_sidecar api) (logged_kube kube)
    (mkPlatformConfig "side" 100) other.

Definition plan (types : list string) : TaskPlan :=
  mkTaskPlan "p" TaskPlanActive
    ((fun ty => mkPlannedTask ty ty TaskPending None None "" 0 0) <$> types)
    PhaseNone "" PhaseNone None None.

End Sample.

(** ** Claims *)

(** C1: no plan starts seid past the start guard. While a data reset is pending,
    or while a maintenance hold is set on a Running node, executing any plan on
    the node, however it was built, opens the sidecar start gate not once: no
    mark-ready reaches the sidecar. Excepted are plans that record a finished
    reset, and the start-once step of a hold that its own guard admits. *)
Theorem start_guard_safety {W} (API : SidecarAPI W) (K : KubeAPI W) libs platform
    (Other : TaskRuntime (W * list call)) {OQ : QuietRuntime Other}
    now (s s' : exec_state (W * list call)) r node :
  es_obj s = ObjNode node ->
  DataResetPending node = true \/
    (HoldRequested (n_Spec node) <> HoldNone /\ st_Phase (n_Status node) = PhaseRunning) ->
  Forall (fun t => pt_Type t <> TaskTypeRecordDataReset /\
            (pt_Type t = TaskTypeStartSeidOnce ->
             DataResetPending node = true \/ HoldRequested (n_Spec node) <> HoldAfterExit))
    (pl_Tasks (es_plan s)) ->
  @executePlan _ (@task_runtime libs _ (logged_sidecar API) (logged_kube K) platform Other)
    now s = Some (r, s') ->
  gate_openings (es_world s').2 = gate_openings (es_world s).2.
Proof.
  intros Ho Hb Ht. apply executePlan_shut with (n0 := node); [done|done| |].
  - by apply StartBlocked_iff.
  - eapply Forall_impl; [exact Ht|]. intros t [? H]. split; [done|].
    intros Hty. by apply startOnceBlocked_iff, H.
Qed.

Definition guarded_state : exec_state (unit * list call) :=
  mkState (ObjNode (Sample.node HoldImmediate 1))
    (Sample.plan [TaskTypeApplyStatefulSet; TaskConfigApply; TaskMarkReady; TaskTypeStartSeidOnce])
    (tt, []) ∅.

Lemma start_guard_safety_witness :
  match @executePlan _ Sample.runtime 0 guarded_state with
  | Some (_, s') => gate_openings (es_world s').2 = []
  | None => False
  end.
Proof.
  destruct (@executePlan _ Sample.runtime 0 guarded_state) as [[r s']|] eqn:E.
  - apply (start_guard_safety (OQ := Sample.other_quiet) Sample.api Sample.kube sample_libs
             (mkPlatformConfig "side" 100) Sample.other 0 guarded_state s' r
             (Sample.node HoldImmediate 1)); [reflexivity| | |exact E].
    + left. reflexivity.
    + repeat (apply Forall_cons_2; [split; [discriminate | intros; by left]|]). apply Forall_nil_2.
  - vm_compute in E. discriminate E.
Defined.

(** The last task of the sample plan is refused; were the guard not there, it
    would be submitted. *)
Example guard_admits_released :
  (fun x => (gate_openings (es_world x.2).2, pl_Phase (es_plan x.2))) <$>
    @executePlan _ Sample.runtime 0
      (mkState (ObjNode (Sample.node HoldNone 0)) (Sample.plan [TaskMarkReady]) (tt, []) ∅)
  = Some ([CallSubmit TaskMarkReady TaskMarkReady], TaskPlanComplete).
Proof. vm_compute. reflexivity. Qed.

(** Property: A refused start fails the plan at once. A plan whose current task is the
    mark-ready of a node the guard blocks ends Failed in this very reconcile:
    nothing is submitted, the recorded error starts with the refusal text the
    planner looks for, and the owner's spec and reset counter stay. *)
Theorem start_guard_refusal {W} (API : SidecarAPI W) (K : KubeAPI W) libs platform
    (Other : TaskRuntime W) now (s : exec_state W) node finished t todo :
  es_obj s = ObjNode node ->
  pl_Phase (es_plan s) = TaskPlanActive ->
  pl_Tasks (es_plan s) = finished ++ t :: todo ->
  Forall is_complete finished -> is_pending t -> pt_Type t = TaskMarkReady ->
  StartBlocked node <> "" ->
  exists s', @executePlan _ (@task_runtime libs _ API K platform Other) now s
               = Some (ResultNone, s') /\
    es_world s' = es_world s /\ pl_Phase (es_plan s') = TaskPlanFailed /\
    (fi_Error <$> pl_FailedTaskDetail (es_plan s')) =
      Some (StartGuardRefusal +:+ ": " +:+ StartBlocked node) /\
    reset_generation (es_obj s') = reset_generation (es_obj s).
Proof.
  intros Ho Hph Hp Hf Ht Hty Hb. destruct s as [o p w g]; simpl in *. subst o.
  unfold executePlan. simpl. rewrite Hph. simpl.
  assert (Hc : CurrentTask p = Some (length finished)).
  { apply CurrentTask_middle with t todo; [done..|]. by apply pending_not_complete. }
  rewrite Hc, Hp, lookup_middle.
  unfold advanceTask. simpl. rewrite Hty. simpl.
  unfold needsSubmission. rewrite bool_decide_eq_true_2 by done.
  unfold guarded_Execute. simpl.
  assert (Hb' : (StartBlocked node <>s "") = true) by (apply negb_true_iff; by apply String.eqb_neq).
  rewrite Hb'. simpl. rewrite Hp, insert_middle, lookup_middle. simpl.
  eexists. split_and!; [reflexivity|done..|].
  simpl. by destruct (pl_FailedPhase p).
Qed.

Lemma start_guard_refusal_witness :
  StartBlocked (Sample.node HoldAfterExit 0) = "maintenance hold AfterExit is set" /\
  exists s', @executePlan _ Sample.runtime 0
    (mkState (ObjNode (Sample.node HoldAfterExit 0)) (Sample.plan [TaskMarkReady; TaskTypeObserveImage])
       (tt, []) ∅) = Some (ResultNone, s') /\
    es_world s' = (tt, []) /\ pl_Phase (es_plan s') = TaskPlanFailed /\
    (fi_Error <$> pl_FailedTaskDetail (es_plan s')) =
      Some (StartGuardRefusal +:+ ": " +:+ StartBlocked (Sample.node HoldAfterExit 0)) /\
    reset_generation (es_obj s') = 0%Z.
Proof.
  split; [reflexivity|].
  eapply (start_guard_refusal (logged_sidecar Sample.api) (logged_kube Sample.kube)
            sample_libs (mkPlatformConfig "side" 100) Sample.other 0
            (mkState (ObjNode (Sample.node HoldAfterExit 0))
               (Sample.plan [TaskMarkReady; TaskTypeObserveImage]) (tt, []) ∅)
            (Sample.node HoldAfterExit 0) []);
    [reflexivity|reflexivity|reflexivity|apply Forall_nil_2|reflexivity|reflexivity|discriminate].
Defined.

(** ** replace-pod *)

(** The pods a run of replace-pod may delete: owned by the StatefulSet, labelled
    with a revision that is not the update revision, and not terminating. *)
Definition stale (sts : StatefulSet) (pod : Pod) : bool :=
  ownedByStatefulSet pod sts && negb (skipsPod (sts_UpdateRevision sts) pod).

Definition delete_call (pod : Pod) : call := CallDelete pod (pod_UID pod).

(** The loop issues the deletions of a prefix of the pods it does not skip, in
    order, each under the UID it saw; of all of them when it ends without error. *)
Lemma deleteOldPods_calls {W} (K : KubeAPI W) rev pods w err w' :
  @deleteOldPods _ (logged_kube K) rev pods w = (err, w') ->
  let todo := List.filter (fun p => negb (skipsPod rev p)) pods in
  exists n, w'.2 = w.2 ++ (delete_call <$> take n todo) /\ (err = None -> n = length todo).
Proof.
  revert w. induction pods as [|pod pods IH]; intros w; simpl.
  - intros [= <- <-]. exists 0. simpl. by rewrite app_nil_r.
  - destruct (skipsPod rev pod); simpl; [apply IH|].
    unfold deletePod; simpl. destruct (DeletePod w.1 pod (pod_UID pod)) as [out w1].
    destruct out; try (intros H; destruct (IH _ H) as (n & Hw & Hn); exists (S n); simpl;
      rewrite Hw; simpl; rewrite <- app_assoc; split; [done|]; intros ->; by rewrite Hn).
    intros [= <- <-]. by exists 1.
Qed.

Lemma filter_filter {A} (f g : A -> bool) l :
  List.filter g (List.filter f l) = List.filter (fun x => f x && g x) l.
Proof.
  induction l as [|x l IH]; simpl; [done|].
  destruct (f x); simpl; [destruct (g x); by rewrite IH|done].
Qed.

(** Property: Replace-pod deletes stale pods and nothing else. Whatever the cluster
    answers, the deletions one run issues are, in order, the first few of the
    listed pods that the StatefulSet owns, that carry a revision other than the
    update revision and that are not terminating, each under the UID that was
    listed; and the run reports the task complete only when it has issued all of
    them, on a StatefulSet whose status is current, with a selector and at most
    one replica. *)
Theorem replace_pod_deletes_stale {W} (K : KubeAPI W) b o (w : W * list call) err b' w' :
  tb_status b = ExecutionRunning ->
  @replacePod_Execute _ (logged_kube K) b o w = (err, b', w') ->
  w' = w /\ tb_status b' = ExecutionRunning \/
  exists node sts pods n, o = ObjNode node /\
    GetStatefulSet w.1 (n_Namespace node) (n_Name node) = StsFound sts /\
    ListPods w.1 (n_Namespace node) (default ∅ (sts_Selector sts)) = Ok pods /\
    (sts_Generation sts <= sts_ObservedGeneration sts)%Z /\ sts_UpdateRevision sts <> "" /\
    default ∅ (sts_Selector sts) <> ∅ /\ (default 1 (sts_Replicas sts) <= 1)%Z /\
    w'.2 = w.2 ++ (delete_call <$> take n (List.filter (stale sts) pods)) /\
    (tb_status b' = ExecutionComplete -> n = length (List.filter (stale sts) pods)).
Proof.
  intros Hb. unfold replacePod_Execute, ownedPods. destruct o as [node| |]; simpl;
    [|intros [= <- <- <-]; by left..].
  destruct (GetStatefulSet w.1 _ _) as [| |sts] eqn:Eg; [intros [= <- <- <-]; by left..|].
  destruct (Z.ltb_spec (sts_ObservedGeneration sts) (sts_Generation sts));
    [intros [= <- <- <-]; by left|].
  destruct (sts_UpdateRevision sts =s "") eqn:Er; [intros [= <- <- <-]; by left|].
  destruct (guardSelectorAndReplicas node sts) eqn:Eguard; [intros [= <- <- <-]; by left|].
  destruct (ListPods w.1 _ _) as [pods|] eqn:El; [|intros [= <- <- <-]; by left].
  destruct (deleteOldPods _ _ w) as [e w1] eqn:Ed.
  destruct (deleteOldPods_calls _ _ _ _ _ _ Ed) as (n & Hw & Hn). rewrite filter_filter in *.
  intros Hres. right. exists node, sts, pods, n. split_and!; try done.
  - by apply String.eqb_neq.
  - unfold guardSelectorAndReplicas in Eguard. destruct (sts_Selector sts); [|done].
    simpl. by case_bool_decide.
  - unfold guardSelectorAndReplicas in Eguard. destruct (sts_Selector sts); [|done].
    case_bool_decide; [done|]. destruct (sts_Replicas sts) as [r|]; simpl; [|done].
    destruct (Z.ltb_spec 1 r); [done|lia].
  - destruct e; simplify_eq; exact Hw.
  - destruct e; simplify_eq; [congruence|]. intros _. by apply Hn.
Qed.

Lemma replace_pod_deletes_stale_witness :
  exists w', @replacePod_Execute _ (logged_kube Sample.kube) newBase
      (ObjNode (Sample.node HoldNone 0)) (tt, []) = (None, complete newBase, w') /\
    w'.2 = [delete_call Sample.old_pod] /\
    (w' = (tt, []) /\ tb_status (complete newBase) = ExecutionRunning \/
     exists node sts pods n, ObjNode (Sample.node HoldNone 0) = ObjNode node /\
       @GetStatefulSet _ Sample.kube tt (n_Namespace node) (n_Name node) = StsFound sts /\
       @ListPods _ Sample.kube tt (n_Namespace node) (default ∅ (sts_Selector sts)) = Ok pods /\
       (sts_Generation sts <= sts_ObservedGeneration sts)%Z /\ sts_UpdateRevision sts <> "" /\
       default ∅ (sts_Selector sts) <> ∅ /\ (default 1 (sts_Replicas sts) <= 1)%Z /\
       w'.2 = [] ++ (delete_call <$> take n (List.filter (stale sts) pods)) /\
       (tb_status (complete newBase) = ExecutionComplete ->
        n = length (List.filter (stale sts) pods))).
Proof.
  eexists. split; [vm_compute; reflexivity|]. split; [reflexivity|].
  apply (replace_pod_deletes_stale Sample.kube newBase (ObjNode (Sample.node HoldNone 0)) (tt, [])
           None); [reflexivity|vm_compute; reflexivity].
Defined.

(** ** The reset counter *)
Section Counter.
Context {W : Type} (API : SidecarAPI W) (K : KubeAPI W).
Context (libs : ClientLibs) (platform : PlatformConfig).
Context (Other : TaskRuntime (W * list call)) {OQ : QuietRuntime Other}.
Abbreviation RT := (@task_runtime libs _ (logged_sidecar API) (logged_kube K) platform Other).

(** What every execution, record-data-reset included, does to the owner: it is
    the same object and its counter has not fallen; it has not moved at all
    unless the task is a record-data-reset. *)
Lemma task_Execute_counter ex o w err ex' o' w' :
  @task_Execute libs _ (logged_sidecar API) (logged_kube K) platform Other ex o w
    = (err, ex', o', w') ->
  same_object o o' /\ (reset_generation o <= reset_generation o')%Z /\
  (match ex with ExRecordDataReset _ _ _ => True | _ => reset_generation o' = reset_generation o end).
Proof.
  unfold task_Execute. destruct ex as [e|e|g b|h b|b|b|e].
  - destruct (sidecar_Execute _ e w) as [[? ?] ?]. intros [= <- <- <- <-].
    split; [apply same_object_refl|lia].
  - destruct o as [n| |]; [destruct (guarded_Execute _ e n w) as [[? ?] ?]|..];
      intros [= <- <- <- <-]; (split; [apply same_object_refl|lia]).
  - unfold recordDataReset_Execute. destruct o as [n| |]; simpl;
      [destruct (Z.ltb_spec (st_DataResetGeneration (n_Status n)) g)|..];
      intros [= <- <- <- <-]; simpl; (split; [done|lia]).
  - unfold recordMaintenanceHold_Execute. destruct o as [n| |]; simpl;
      intros [= <- <- <- <-]; simpl; (split; [done|lia]).
  - destruct (observeImage_Execute platform b o w) as [[? ?] o1] eqn:E. intros [= <- <- <- <-].
    apply observeImage_frame in E as [? ?]. split; [done|lia].
  - destruct (replacePod_Execute b o w) as [[? ?] ?]. intros [= <- <- <- <-].
    split; [apply same_object_refl|lia].
  - destruct (Execute e o w) as [[[? ?] ?] ?] eqn:E. intros [= <- <- <- <-].
    apply execute_quiet in E as (? & ? & _). split; [done|lia].
Qed.

Lemma task_Status_counter ex o w st ex' o' w' :
  @task_Status _ (logged_sidecar API) Other ex o w = (st, ex', o', w') ->
  same_object o o' /\ reset_generation o' = reset_generation o.
Proof.
  unfold task_Status. destruct ex as [e|e|g b|h b|b|b|e];
    [destruct (sidecar_Status e w)|destruct (guarded_Status e w)|..|
     destruct (Status e o w) as [[[? ?] ?] ?] eqn:E]; intros [= <- <- <- <-];
    try (split; [apply same_object_refl|done]).
  apply status_quiet in E as (? & ? & _). by split.
Qed.

(** The runtime is a frame: no task moves the owner's spec, phase or plan. *)
#[export] Instance task_runtime_frame : RuntimeFrame RT.
Proof.
  split; intros ex o w x ex' o' w' H.
  - by apply task_Execute_counter in H as [? _].
  - by apply task_Status_counter in H as [? _].
Qed.

(** The counter after a run, related to the counter before by [R]. *)
Lemma respects_counter (R : relation Z) g0 ty :
  (forall a b c, R a b -> R b c -> R a c) -> reflexive Z R ->
  (ty = TaskTypeRecordDataReset -> forall a b, (a <= b)%Z -> R a b) ->
  @respects _ RT (fun o _ => R g0 (reset_generation o)) ty.
Proof.
  intros Htr Hrefl Hrec id ps o w ex HI Hd.
  assert (Hst : forall ex o w st ex' o' w', R g0 (reset_generation o) ->
            @Status _ RT ex o w = (st, ex', o', w') -> R g0 (reset_generation o')).
  { intros ? ? ? ? ? ? ? HI' H. apply task_Status_counter in H as [_ ->]. exact HI'. }
  split; [intros; by eapply Hst|]. intros err ex' o' w' He.
  assert (R g0 (reset_generation o')); [|split; [done|intros; by eapply Hst]].
  eapply Htr; [exact HI|]. apply task_Execute_counter in He as (_ & Hle & Heq).
  destruct (decide (ty = TaskTypeRecordDataReset)) as [->|Hne]; [by apply Hrec|].
  assert (match ex with ExRecordDataReset _ _ _ => False | _ => True end) as Hex.
  { revert Hd. simpl. unfold task_Deserialize, deserializeGuardedMarkReady.
    destruct (ty =s TaskTypeRecordDataReset) eqn:E; [by apply String.eqb_eq in E|].
    repeat case_match; intros Hd; try done; by destruct (Deserialize ty id ps o). }
  destruct ex; try done; rewrite Heq; apply Hrefl.
Qed.

Lemma executePlan_counter (R : relation Z) now s r s' :
  (forall a b c, R a b -> R b c -> R a c) -> reflexive Z R ->
  (Exists (fun t => pt_Type t = TaskTypeRecordDataReset) (pl_Tasks (es_plan s)) ->
     forall a b, (a <= b)%Z -> R a b) ->
  @executePlan _ RT now s = Some (r, s') ->
  R (reset_generation (es_obj s)) (reset_generation (es_obj s')).
Proof.
  intros Htr Hrefl Hrec Hrun. set (g0 := reset_generation (es_obj s)).
  assert (Hk : @kept _ (fun o _ => R g0 (reset_generation o)) s').
  { eapply (@executePlan_kept _ RT now (fun o _ => R g0 (reset_generation o)) s r); [| |exact Hrun].
    - apply Forall_fmap, Forall_forall. intros t Hin. simpl.
      apply respects_counter; [done..|]. intros Hty. apply Hrec.
      apply Exists_exists. by exists t.
    - apply Hrefl. }
  unfold kept in Hk. destruct (pl_Phase (es_plan s')); [done|..];
    destruct Hk as (o & HR & He); destruct o, (es_obj s'); simpl in *; try done;
    try (by simplify_eq); by destruct He as (_ & _ & _ & _ & _ & _ & _ & _ & _ & _ & -> & _).
Qed.

End Counter.

(** Property: The handled reset counter never goes back. Executing any plan leaves
    status.dataResetGeneration at least where it was, and exactly where it was
    when the plan has no record-data-reset task: no other task can make a
    pending reset look finished. *)
Theorem reset_counter_monotone {W} (API : SidecarAPI W) (K : KubeAPI W) libs platform
    (Other : TaskRuntime (W * list call)) {OQ : QuietRuntime Other}
    now (s s' : exec_state (W * list call)) r :
  @executePlan _ (@task_runtime libs _ (logged_sidecar API) (logged_kube K) platform Other)
    now s = Some (r, s') ->
  (reset_generation (es_obj s) <= reset_generation (es_obj s'))%Z /\
  (Forall (fun t => pt_Type t <> TaskTypeRecordDataReset) (pl_Tasks (es_plan s)) ->
   reset_generation (es_obj s') = reset_generation (es_obj s)).
Proof.
  intros Hrun. split.
  - eapply (executePlan_counter API K libs platform Other Z.le); [..|exact Hrun];
      [lia|intros ?; lia|done].
  - intros Hno. symmetry.
    eapply (executePlan_counter API K libs platform Other (@eq Z)); [..|exact Hrun];
      [congruence|done|].
    intros Hex. exfalso. rewrite Exists_exists in Hex. destruct Hex as (t & Hin & Ht).
    rewrite Forall_forall in Hno. by apply (Hno t).
Qed.

Definition counter_state : exec_state (unit * list call) :=
  mkState (ObjNode (Sample.node HoldNone 3)) (Sample.plan [taskTypeResetData; TaskMarkReady])
    (tt, []) ∅.

Lemma reset_counter_monotone_witness :
  match @executePlan _ Sample.runtime 0 counter_state with
  | Some (_, s') => (0 <= reset_generation (es_obj s'))%Z
  | None => False
  end.
Proof.
  destruct (@executePlan _ Sample.runtime 0 counter_state) as [[r s']|] eqn:E.
  - exact (proj1 (reset_counter_monotone (OQ := Sample.other_quiet) Sample.api Sample.kube
             sample_libs (mkPlatformConfig "side" 100) Sample.other 0 counter_state s' r E)).
  - vm_compute in E. discriminate E.
Defined.

(** ** Params that do not validate *)

(** The task types [deserializeSidecar] serves without the start guard. *)
Definition plain_sidecar (ty : string) : bool :=
  match zero_params ty with Some _ => ty <>s TaskMarkReady | None => false end.

Lemma plain_sidecar_Deserialize {W} (API : SidecarAPI W) (Other : TaskRuntime W) ty id p o :
  plain_sidecar ty = true -> p <> NilParams ->
  exists ff, task_Deserialize Other ty id (Some p) o =
    Ok (ExSidecar Other (mkSidecarExecution ty id p ff ExecutionRunning None)).
Proof.
  unfold plain_sidecar, task_Deserialize, deserializeSidecar. intros H Hp.
  destruct (zero_params ty) as [z|] eqn:Ez; [|done].
  destruct (ty =s TaskMarkReady); [done|].
  assert (Hn : forall k, zero_params k = None -> (ty =s k) = false).
  { intros k Hk. destruct (ty =s k) eqn:E; [|done]. apply String.eqb_eq in E. congruence. }
  rewrite !Hn by reflexivity. exists (ty =s TaskConfigValidate). by destruct p.
Qed.

(** Property: A sidecar task whose params do not validate never fails its
    plan. [Execute] records the failure but returns it as a plain error, which
    the executor takes for transient: however many reconciles run, the plan, the
    owner and the sidecar are as they were, and the executor asks for another
    poll. The comment above the check promises a terminal task failure. *)
Theorem invalid_params_poll_forever {W} (API : SidecarAPI W) (K : KubeAPI W) libs platform
    (Other : TaskRuntime W) now (s : exec_state W) finished t todo p e n :
  pl_Phase (es_plan s) = TaskPlanActive ->
  pl_Tasks (es_plan s) = finished ++ t :: todo ->
  Forall is_complete finished -> is_pending t ->
  plain_sidecar (pt_Type t) = true -> pt_Params t = Some p ->
  buildSC (es_world s) = None -> @ParseUUID W API (pt_ID t) = true ->
  params_Validate libs p = Err e ->
  let RT := @task_runtime libs _ API K platform Other in
  exists g, let s' := mkState (es_obj s) (es_plan s) (es_world s) g in
    @reconciles _ RT now n s = Some s' /\
    exists g', @executePlan _ RT now s' =
      Some (ResultPoll, mkState (es_obj s) (es_plan s) (es_world s) g').
Proof.
  intros Hph Hp Hf Ht Hty Hps Hb Hu Hv RT.
  assert (Hstep : forall g, exists g', @executePlan _ RT now (mkState (es_obj s) (es_plan s) (es_world s) g) =
            Some (ResultPoll, mkState (es_obj s) (es_plan s) (es_world s) g')).
  { intros g. unfold executePlan. simpl. rewrite Hph. simpl.
    rewrite (CurrentTask_middle _ _ _ _ Hp Hf (pending_not_complete _ Ht)), Hp, lookup_middle.
    unfold advanceTask. simpl. rewrite Hps.
    destruct (plain_sidecar_Deserialize API Other (pt_Type t) (pt_ID t) p (es_obj s) Hty) as [ff ->];
      [by intros ->|].
    unfold needsSubmission. rewrite bool_decide_eq_true_2 by done. simpl.
    unfold sidecar_Execute. rewrite Hb. simpl. rewrite Hu. simpl. rewrite Hv. simpl.
    rewrite Hp, lookup_middle. rewrite decide_False by by rewrite Ht. eexists. reflexivity. }
  destruct s as [o pl w g]; simpl in *.
  assert (Hrec : exists g', @reconciles _ RT now n (mkState o pl w g) = Some (mkState o pl w g')).
  { revert g. induction n as [|n IH]; intros g; [by exists g|].
    destruct (Hstep g) as [g' Hg']. destruct (IH g') as [g'' Hg'']. exists g''.
    cbn [reconciles]. rewrite Hg'. exact Hg''. }
  destruct Hrec as [g' Hg']. exists g'. split; [exact Hg'|]. apply Hstep.
Qed.

Lemma invalid_params_poll_forever_witness :
  let t := mkPlannedTask TaskConfigPatch "id" TaskPending (Some (ConfigPatchTask [])) None "" 0 0 in
  let p := mkTaskPlan "p" TaskPlanActive [t] PhaseNone "" PhaseFailed None None in
  exists g, let s' := mkState (ObjNode (Sample.node HoldNone 0)) p tt g in
    @reconciles _ (@task_runtime sample_libs _ Sample.api Sample.kube
                     (mkPlatformConfig "side" 100) failing_runtime) 0 1000
      (mkState (ObjNode (Sample.node HoldNone 0)) p tt ∅) = Some s' /\
    exists g', @executePlan _ (@task_runtime sample_libs _ Sample.api Sample.kube
                     (mkPlatformConfig "side" 100) failing_runtime) 0 s' =
      Some (ResultPoll, mkState (ObjNode (Sample.node HoldNone 0)) p tt g').
Proof.
  intros t p.
  apply (invalid_params_poll_forever Sample.api Sample.kube sample_libs
           (mkPlatformConfig "side" 100) failing_runtime 0
           (mkState (ObjNode (Sample.node HoldNone 0)) p tt ∅) [] t []
           (ConfigPatchTask []) "config-patch: at least one file is required");
    first [apply Forall_nil_2 | reflexivity].
Defined.
