(* ===== verification/Planner.v ===== *)
(** * Plan construction (src/internal/planner: planner.go and the mode planners)

    From a SeiNode to the task plan its state asks for. Every builder takes the
    plan ID ([uuid.New] in the code). A builder that stamps a condition returns
    the node along with its result. *)

From stdpp Require Import base list strings gmap pretty.
From Stdlib Require Import ZArith Lia Ascii.
From S2P Require Import Prelude Api NodeState Platform Executor Config Task.

(** ** Progressions *)

(** [baseProgression], by bootstrap mode. *)
Definition baseProgression (mode : string) : list string :=
  if mode =s "snapshot" then [TaskSnapshotRestore; TaskConfigApply; TaskConfigValidate; TaskMarkReady]
  else if mode =s "state-sync" then [TaskConfigApply; TaskConfigValidate; TaskMarkReady]
  else if mode =s "genesis" then [TaskConfigApply; TaskConfigValidate; TaskMarkReady]
  else [].

Fixpoint insert_at_first (prog : list string) (target taskType : string) : option (list string) :=
  match prog with
  | [] => None
  | t :: prog' =>
      if t =s target then Some (taskType :: t :: prog')
      else cons t <$> insert_at_first prog' target taskType
  end.

Definition insertBefore (prog : list string) (target taskType : string) : result (list string) :=
  if mem taskType prog then Ok prog
  else match insert_at_first prog target taskType with
  | Some prog' => Ok prog'
  | None => Err ("insertBefore: target " +:+ quote target +:+ " not found in progression [" +:+
                 join " " prog +:+ "]")
  end.

Definition hasS3Snapshot (snap : option SnapshotSource) : bool :=
  match snap with Some s => match ss_S3 s with Some _ => true | None => false end | None => false end.

Definition hasStateSync (snap : option SnapshotSource) : bool :=
  match snap with
  | Some s => match ss_StateSync s with Some _ => true | None => false end
  | None => false
  end.

Definition needsStateSyncWitnesses (snap : option SnapshotSource) : bool :=
  match snap with Some _ => true | None => false end.

Definition bootstrapMode (snap : option SnapshotSource) : string :=
  if hasS3Snapshot snap then "snapshot"
  else if hasStateSync snap then "state-sync"
  else "genesis".

Definition buildSidecarProgression (snap : option SnapshotSource) : result (list string) :=
  let prog := baseProgression (bootstrapMode snap) in
  prog ← insertBefore prog TaskConfigApply TaskConfigureGenesis;
  if needsStateSyncWitnesses snap
  then insertBefore prog TaskConfigValidate TaskConfigureStateSync
  else Ok prog.

(** ** Key-validation gates *)
Definition is_set (s : option string) : bool :=
  match s with Some x => x <>s "" | None => false end.

Definition needsValidateSigningKey (node : SeiNode) : bool :=
  match sp_Validator (n_Spec node) ≫= v_SigningKey with
  | Some sk => is_set (sk_Secret sk)
  | None => false
  end.

Definition validateSigningKeyParams (node : SeiNode) : TaskParams :=
  if negb (needsValidateSigningKey node) then NilParams
  else ValidateSigningKeyParams
         (default "" ((sp_Validator (n_Spec node) ≫= v_SigningKey) ≫= sk_Secret)) (n_Namespace node).

Definition needsValidateNodeKey (node : SeiNode) : bool := is_set (NodeKeySecret (n_Spec node)).

Definition validateNodeKeyParams (node : SeiNode) : TaskParams :=
  if negb (needsValidateNodeKey node) then NilParams
  else ValidateNodeKeyParams (default "" (NodeKeySecret (n_Spec node))) (n_Namespace node).

Definition operatorKeyringSecret (node : SeiNode) : option SecretOperatorKeyringSource :=
  (sp_Validator (n_Spec node) ≫= v_OperatorKeyring) ≫= okr_Secret.

Definition needsValidateOperatorKeyring (node : SeiNode) : bool :=
  match operatorKeyringSecret node with Some s => ok_SecretName s <>s "" | None => false end.

Definition validateOperatorKeyringParams (node : SeiNode) : TaskParams :=
  match operatorKeyringSecret node with
  | Some s =>
      if negb (needsValidateOperatorKeyring node) then NilParams
      else ValidateOperatorKeyringParams (ok_SecretName s)
             (if ok_KeyName s =s "" then DefaultOperatorKeyName else ok_KeyName s)
             (pp_SecretName (ok_PassphraseSecretRef s)) (pp_Key (ok_PassphraseSecretRef s))
             (n_Namespace node)
  | None => NilParams
  end.

(** The gates of a progression, in order, each behind its predicate. *)
Definition key_gates (node : SeiNode) : list string :=
  (if needsValidateSigningKey node then [TaskTypeValidateSigningKey] else []) ++
  (if needsValidateNodeKey node then [TaskTypeValidateNodeKey] else []) ++
  (if needsValidateOperatorKeyring node then [TaskTypeValidateOperatorKeyring] else []).

Definition isGenesisCeremonyNode (node : SeiNode) : bool :=
  match sp_Validator (n_Spec node) ≫= v_GenesisCeremony with Some _ => true | None => false end.

Definition validateSnapshotGeneration (sg : option SnapshotGenerationConfig) : result unit :=
  match sg with
  | None => Ok tt
  | Some sg =>
      match sg_Tendermint sg with
      | None => Err "snapshotGeneration is set but has no sub-struct (e.g., tendermint); omit it to disable snapshot generation"
      | Some t =>
          match tsg_Publish t with
          | Some _ =>
              if (tsg_KeepRecent t <? 2)%Z
              then Err "snapshotGeneration.tendermint.keepRecent must be >= 2 when publish is set (upload algorithm requires the second-to-latest snapshot)"
              else Ok tt
          | None => Ok tt
          end
      end
  end.

(** ** Mounted config files (static_config.go) *)
Definition mountedConfigWriters : list string :=
  [TaskConfigApply; TaskConfigPatch; TaskConfigureStateSync; TaskSetGenesisPeers; TaskGenerateIdentity].

Definition MountsNodeConfig (node : SeiNode) : bool :=
  match sp_NodeConfig (n_Spec node) with Some _ => true | None => false end.

Definition withoutManagedConfigTasks (node : SeiNode) (prog : list string) : list string :=
  if negb (MountsNodeConfig node) then prog
  else List.filter (fun ty => negb ((ty =s TaskConfigValidate) || mem ty mountedConfigWriters)) prog.

Definition mountedConfigWriterInPlan (node : SeiNode) (plan : option TaskPlan) : string :=
  match plan with
  | None => ""
  | Some p =>
      if negb (MountsNodeConfig node) then ""
      else match list_find (fun t => mem (pt_Type t) mountedConfigWriters = true) (pl_Tasks p) with
      | Some (_, t) => pt_Type t
      | None => ""
      end
  end.

(** ** Planned tasks *)
Definition genesisConfigureMaxRetries : Z := 180.
Definition groupAssemblyMaxRetries : Z := 180.

Definition taskMaxRetries (taskType : string) : Z :=
  if taskType =s TaskConfigureGenesis then genesisConfigureMaxRetries
  else if taskType =s TaskAssembleGenesis then groupAssemblyMaxRetries
  else if taskType =s TaskTypeReplacePod then 3
  else 0.

Section Planner.
Context {C : SeiConfig} {H : Hashes}.

(** [marshalParams] cannot fail on the params structs, so neither can this. *)
Definition buildPlannedTask (planID taskType : string) (planIndex : nat) (params : TaskParams)
    : PlannedTask :=
  mkPlannedTask taskType (DeterministicTaskID planID taskType planIndex) TaskPending (Some params)
    None "" (taskMaxRetries taskType) 0.

(** [for i, taskType := range prog { tasks[i] = buildPlannedTask(...) }] *)
Definition buildTasks (planID : string) (params : string -> TaskParams) (prog : list string)
    : list PlannedTask :=
  imap (fun i ty => buildPlannedTask planID ty i (params ty)) prog.

(** ** Overrides *)
Definition overrideKeyLoggingLevel := "logging.level".
Definition defaultLoggingLevel := "error".
Definition keyP2PPersistentPeers := "network.p2p.persistent_peers".
Definition keyFreezeHeight := "chain.freeze_height".
Definition keySCAsyncCommitBuffer := "storage.state_commit.async_commit_buffer".
Definition keySCSnapshotKeepRecent := "storage.state_commit.memiavl.snapshot_keep_recent".
Definition keySCSnapshotMinTimeInterval := "storage.state_commit.memiavl.snapshot_min_time_interval".

Definition freezeOverrides (freeze : option FreezeSpec) : gmap string string :=
  match freeze with None => ∅ | Some f => {[keyFreezeHeight := pretty (fz_Height f)]} end.

Definition commonOverrides (node : SeiNode) : gmap string string :=
  let out := <[overrideKeyLoggingLevel := defaultLoggingLevel]>
             (<[keyP2PPersistentPeers := join "," (st_ResolvedPeers (n_Status node))]> ∅) in
  if sp_ExternalAddress (n_Spec node) <>s ""
  then <[KeyP2PExternalAddress := sp_ExternalAddress (n_Spec node)]> out else out.

(** User overrides win. *)
Definition mergeOverrides (controllerOverrides userOverrides : gmap string string)
    : gmap string string := userOverrides ∪ controllerOverrides.

Definition fullNode_controllerOverrides (node : SeiNode) : gmap string string :=
  match sp_FullNode (n_Spec node) with
  | None => ∅
  | Some fn =>
      match fn_Freeze fn with
      | Some f => freezeOverrides (Some f)
      | None =>
          match fn_SnapshotGeneration fn ≫= sg_Tendermint with
          | None => ∅
          | Some t => SnapshotGenerationOverrides (tsg_KeepRecent t)
          end
      end
  end.

Definition archive_controllerOverrides (node : SeiNode) : gmap string string :=
  match sp_Archive (n_Spec node) with
  | None => ∅
  | Some ar =>
      match ar_Freeze ar with
      | Some f => freezeOverrides (Some f)
      | None =>
          match ar_SnapshotGeneration ar ≫= sg_Tendermint with
          | None => ∅
          | Some t => <[KeySnapshotInterval := pretty DefaultSnapshotInterval]>
                      (<[KeySnapshotKeepRecent := pretty (tsg_KeepRecent t)]> ∅)
          end
      end
  end.

Definition replayer_controllerOverrides : gmap string string :=
  <[keySCAsyncCommitBuffer := "100"]> (<[keySCSnapshotKeepRecent := "2"]>
  (<[keySCSnapshotMinTimeInterval := "3600"]> ∅)).

(** ** Params *)
Definition snapshotRestoreTask (snap : option SnapshotSource) : TaskParams :=
  SnapshotRestoreTask (default 0%Z (snap ≫= ss_S3)).

Definition configureStateSyncTask (node : SeiNode) : TaskParams :=
  let snap := SnapshotSourceOf (n_Spec node) in
  ConfigureStateSyncTask (hasS3Snapshot snap) (st_ResolvedStateSyncers (n_Status node))
    match snap with Some s => ss_TrustPeriod s | None => "" end
    match snap with Some s => ss_BackfillBlocks s | None => 0%Z end.

Definition genesisCeremonyTaskParams (node : SeiNode) (taskType : string) : TaskParams :=
  match sp_Validator (n_Spec node) ≫= v_GenesisCeremony with
  | None => NilParams
  | Some gc =>
      if taskType =s TaskGenerateIdentity then GenerateIdentityTask (gc_ChainID gc) (n_Name node)
      else if taskType =s TaskGenerateGentx then
        GenerateGentxTask (gc_ChainID gc) (gc_StakingAmount gc) (gc_AccountBalance gc)
      else if taskType =s TaskUploadGenesisArtifacts then
        UploadGenesisArtifactsTask (n_Name node) (n_Namespace node)
          (ConsensusSpec_IsAutobahn (sp_Consensus (n_Spec node)))
      else if taskType =s TaskSetGenesisPeers then SetGenesisPeersTask
      else NilParams
  end.

Definition paramsForTaskType (node : SeiNode) (taskType : string) (snap : option SnapshotSource)
    (configIntent : option ConfigIntent) : TaskParams :=
  let nm := n_Name node in let ns := n_Namespace node in
  if taskType =s TaskTypeEnsureDataPVC then EnsureDataPVCParams nm ns
  else if taskType =s TaskTypeApplyStatefulSet then ApplyStatefulSetParams nm ns
  else if taskType =s TaskTypeApplyService then ApplyServiceParams nm ns
  else if taskType =s TaskTypeApplyRBACProxyConfig then ApplyRBACProxyConfigParams nm ns
  else if taskType =s TaskTypeReplacePod then ReplacePodParams nm ns
  else if taskType =s TaskTypeObserveImage then ObserveImageParams nm ns
  else if taskType =s TaskTypeValidateSigningKey then validateSigningKeyParams node
  else if taskType =s TaskTypeValidateNodeKey then validateNodeKeyParams node
  else if taskType =s TaskTypeValidateOperatorKeyring then validateOperatorKeyringParams node
  else if taskType =s TaskSnapshotRestore then snapshotRestoreTask snap
  else if taskType =s TaskConfigureGenesis then
    ConfigureGenesisTask (ConsensusSpec_IsAutobahn (sp_Consensus (n_Spec node)))
  else if taskType =s TaskConfigApply then ConfigApplyIntent configIntent
  else if taskType =s TaskConfigureStateSync then configureStateSyncTask node
  else if taskType =s TaskConfigValidate then ConfigValidateTask
  else if taskType =s TaskMarkReady then MarkReadyTask
  else if taskType =s TaskTypeRestartSeid then RestartSeidTask (Some (UpCheckForNode node))
  else if mem taskType [TaskGenerateIdentity; TaskGenerateGentx; TaskUploadGenesisArtifacts; TaskSetGenesisPeers]
  then genesisCeremonyTaskParams node taskType
  else NilParams.

(** ** The configValues overlay splice (config_overlay.go) *)
Fixpoint splice (planID : string) (patch : files) (todo tasks : list PlannedTask) : list PlannedTask :=
  match todo with
  | [] => tasks
  | planned :: todo' =>
      let tasks :=
        if pt_Type planned =s TaskConfigValidate
        then tasks ++ [buildPlannedTask planID TaskConfigPatch (length tasks) (ConfigPatchTask patch)]
        else tasks in
      let planned' :=
        mkPlannedTask (pt_Type planned)
          (DeterministicTaskID planID (pt_Type planned) (length tasks))
          (pt_Status planned) (pt_Params planned) (pt_SubmittedAt planned) (pt_Error planned)
          (pt_MaxRetries planned) (pt_RetryCount planned) in
      splice planID patch todo' (tasks ++ [planned'])
  end.

Definition plan_with_hash (p : TaskPlan) (h : string) : TaskPlan :=
  mkTaskPlan (pl_ID p) (pl_Phase p) (pl_Tasks p) (pl_TargetPhase p) h
    (pl_FailedPhase p) (pl_FailedTaskIndex p) (pl_FailedTaskDetail p).

Definition withConfigValues (plan : TaskPlan) (node : SeiNode) : result TaskPlan :=
  let values := sp_ConfigValues (n_Spec node) in
  hash ← configValuesHash values;
  let plan := plan_with_hash plan hash in
  let engine := consensusOverlay (n_Spec node) in
  match values, engine with
  | [], None => Ok plan
  | _, _ =>
      user ← configValuesOverlay values;
      patch ← mergeOverlayPatches user engine;
      let tasks := splice (pl_ID plan) patch (pl_Tasks plan) [] in
      if bool_decide (length tasks = length (pl_Tasks plan))
      then Err "configValues: cannot splice overlay: plan has no config-validate task"
      else Ok (plan_with_tasks plan tasks)
  end.

(** ** Init plans *)
Definition basePrefix (node : SeiNode) : list string :=
  [TaskTypeEnsureDataPVC] ++ key_gates node ++
  [TaskTypeApplyRBACProxyConfig; TaskTypeApplyStatefulSet; TaskTypeApplyService].

Definition buildBasePlan (planID : string) (node : SeiNode) (snap : option SnapshotSource)
    (configIntent : option ConfigIntent) : result TaskPlan :=
  sidecarProg ← buildSidecarProgression snap;
  let sidecarProg := withoutManagedConfigTasks node sidecarProg in
  let prog := basePrefix node ++ sidecarProg in
  withConfigValues
    (mkTaskPlan planID TaskPlanActive
       (buildTasks planID (fun ty => paramsForTaskType node ty snap configIntent) prog)
       PhaseRunning "" PhaseFailed None None) node.

Definition genesisProgression : list string :=
  [TaskTypeEnsureDataPVC; TaskTypeApplyRBACProxyConfig; TaskTypeApplyStatefulSet; TaskTypeApplyService;
   TaskGenerateIdentity; TaskGenerateGentx; TaskUploadGenesisArtifacts; TaskConfigureGenesis;
   TaskConfigApply; TaskSetGenesisPeers; TaskConfigValidate; TaskMarkReady].

Definition buildGenesisPlan (planID : string) (node : SeiNode) : result TaskPlan :=
  let configIntent := mkConfigIntent ModeValidator
    (mergeOverrides (commonOverrides node) (sp_Overrides (n_Spec node))) in
  withConfigValues
    (mkTaskPlan planID TaskPlanActive
       (buildTasks planID (fun ty => paramsForTaskType node ty None (Some configIntent)) genesisProgression)
       PhaseRunning "" PhaseFailed None None) node.

(** ** Running plans: drift *)
Definition imageDrifted (node : SeiNode) : bool :=
  sp_Image (n_Spec node) <>s st_CurrentImage (n_Status node).

Definition configValuesDrifted (node : SeiNode) : bool :=
  if st_CurrentConfigValuesHash (n_Status node) =s "" then false
  else match configValuesHash (sp_ConfigValues (n_Spec node)) with
  | Err _ => true
  | Ok hash => hash <>s st_CurrentConfigValuesHash (n_Status node)
  end.

Definition sidecarImageDrifted (node : SeiNode) (p : PlatformConfig) : bool :=
  if st_CurrentSidecarImage (n_Status node) =s "" then false
  else EffectiveSidecarImage node p <>s st_CurrentSidecarImage (n_Status node).

Definition nodeIsolationDrifted (node : SeiNode) : bool :=
  match st_CurrentNodeIsolation (n_Status node) with
  | IsolationNone => false
  | iso => bool_decide (EffectiveNodeIsolation node <> iso)
  end.

Definition nodePoolDrifted (node : SeiNode) : bool :=
  if st_CurrentImage (n_Status node) =s "" then false
  else RequestedNodePool node <>s st_CurrentNodePool (n_Status node).

Definition podTemplateDrifted (node : SeiNode) (p : PlatformConfig) : bool :=
  imageDrifted node || sidecarImageDrifted node p || nodeIsolationDrifted node || nodePoolDrifted node.

Definition podTemplateDriftMessage (node : SeiNode) (p : PlatformConfig) : string :=
  let seid := imageDrifted node in
  let sc := sidecarImageDrifted node p in
  let iso := nodeIsolationDrifted node || nodePoolDrifted node in
  let parts :=
    (if seid then ["seid spec=" +:+ sp_Image (n_Spec node) +:+ " current=" +:+
                   st_CurrentImage (n_Status node)] else []) ++
    (if sc then ["sidecar spec=" +:+ EffectiveSidecarImage node p +:+ " current=" +:+
                 st_CurrentSidecarImage (n_Status node)] else []) ++
    (if nodeIsolationDrifted node
     then ["nodeIsolation spec=" +:+ isolation_string (EffectiveNodeIsolation node) +:+ " current=" +:+
           isolation_string (st_CurrentNodeIsolation (n_Status node))] else []) ++
    (if nodePoolDrifted node
     then ["nodePool spec=" +:+ quote (RequestedNodePool node) +:+ " current=" +:+
           quote (st_CurrentNodePool (n_Status node))] else []) in
  let detail := join "; " parts in
  let placement :=
    if nodeIsolationDrifted node && nodePoolDrifted node then "node isolation and node pool"
    else if nodePoolDrifted node then "node pool"
    else "node isolation" in
  if iso && negb seid && negb sc then placement +:+ " drift detected: " +:+ detail
  else if iso then "image and " +:+ placement +:+ " drift detected: " +:+ detail
  else if sc && negb seid then "sidecar image drift detected: " +:+ detail
  else "image drift detected: " +:+ detail.

Definition p2pConfigPatch (node : SeiNode) : files :=
  [("config.toml",
    [("p2p", JObj [("external-address", JStr (sp_ExternalAddress (n_Spec node)));
                   ("persistent-peers", JStr (join "," (st_ResolvedPeers (n_Status node))))])])].

Definition runningConfigIntent (node : SeiNode) : ConfigIntent :=
  let '(mode, overrides) :=
    match sp_FullNode (n_Spec node), sp_Archive (n_Spec node), sp_Validator (n_Spec node),
          sp_Seed (n_Spec node), sp_Replayer (n_Spec node) with
    | Some _, _, _, _, _ => (ModeFull, fullNode_controllerOverrides node)
    | None, Some _, _, _, _ => (ModeArchive, archive_controllerOverrides node)
    | None, None, Some _, _, _ => (ModeValidator, ∅)
    | None, None, None, Some _, _ => (ModeSeed, ∅)
    | None, None, None, None, Some _ => (ModeFull, replayer_controllerOverrides)
    | None, None, None, None, None => (ModeFull, ∅)
    end in
  mkConfigIntent mode
    (mergeOverrides (mergeOverrides (commonOverrides node) overrides) (sp_Overrides (n_Spec node))).

Definition paramsForUpdateTask (node : SeiNode) (taskType : string) (patch : files) : TaskParams :=
  if taskType =s TaskConfigApply then ConfigApplyIntent (Some (runningConfigIntent node))
  else if taskType =s TaskConfigPatch then ConfigPatchTask patch
  else paramsForTaskType node taskType None None.

Context {SC : StatusConditions}.

Definition reasonUpdateFailed := "UpdateFailed".
Definition reasonUpdatePlanBuildFailed := "UpdatePlanBuildFailed".

Definition setNodeUpdateCondition (status : ConditionStatus) (reason message : string)
    (node : SeiNode) : SeiNode :=
  set_node_cond ConditionNodeUpdateInProgress status reason message node.

(** What a [BuildPlan] returns, and the node it leaves in memory. *)
Definition build := (result (option TaskPlan) * SeiNode)%type.

(** The deferred function of the two assemblers: an error is recorded. *)
Definition record_build_error (r : result TaskPlan) (node : SeiNode) : result TaskPlan * SeiNode :=
  match r with
  | Err e => (r, setNodeUpdateCondition ConditionFalse reasonUpdatePlanBuildFailed e node)
  | Ok _ => (r, node)
  end.

Definition updateProgression (node : SeiNode) (prog : list string) : result (list string) :=
  if (st_CurrentConfigValuesHash (n_Status node) =s "") || configValuesDrifted node
  then insertBefore prog TaskConfigPatch TaskConfigApply
  else Ok prog.

Definition assembleUpdatePlan (planID : string) (node : SeiNode) (prog : list string) (patch : files)
    : result TaskPlan * SeiNode :=
  record_build_error
    (prog ← updateProgression node prog;
     withConfigValues
       (mkTaskPlan planID TaskPlanActive
          (buildTasks planID (fun ty => paramsForUpdateTask node ty patch) prog)
          PhaseRunning "" PhaseNone None None) node)
    node.

(** A successful update plan is announced on the condition. *)
Definition announce (reason message : string) (r : result TaskPlan * SeiNode) : build :=
  match r with
  | (Err e, node) => (Err e, node)
  | (Ok plan, node) => (Ok (Some plan), setNodeUpdateCondition ConditionTrue reason message node)
  end.

Definition buildConfigUpdatePlan (planID : string) (node : SeiNode) : build :=
  announce "ConfigUpdateStarted"
    "configValues drift detected: regenerating configuration and restarting seid"
    (assembleUpdatePlan planID node
       [TaskConfigPatch; TaskConfigValidate; TaskMarkReady; TaskTypeRestartSeid]
       (p2pConfigPatch node)).

Definition sidecarNeedsReapproval (node : SeiNode) : bool :=
  match node_cond node ConditionSidecarReady with
  | Some c => bool_decide (c_Status c = ConditionFalse) && (c_Reason c =s "NotReady")
  | None => false
  end.

Definition buildMarkReadyPlan (planID : string) (node : SeiNode) : TaskPlan :=
  mkTaskPlan planID TaskPlanActive
    [buildPlannedTask planID TaskMarkReady 0 (paramsForTaskType node TaskMarkReady None None)]
    PhaseRunning "" PhaseNone None None.

(** ** The mode planners (full.go, archive.go, replay.go, validator.go, seed.go)

    [NodePlanner]: the interface, as a record of operations. *)
Record NodePlanner := mkNodePlanner {
  np_Mode : ConfigMode;
  np_Validate : SeiNode -> result unit;
  np_BuildPlan : string -> SeiNode -> build;
}.

(** The body every mode's [buildRunningPlan] shares, with its own progression. *)
Definition modeRunningPlan (platform : PlatformConfig) (prog : list string) (planID : string)
    (node : SeiNode) : build :=
  if podTemplateDrifted node platform then
    announce "UpdateStarted" (podTemplateDriftMessage node platform)
      (assembleUpdatePlan planID node prog (p2pConfigPatch node))
  else if configValuesDrifted node then buildConfigUpdatePlan planID node
  else if sidecarNeedsReapproval node then (Ok (Some (buildMarkReadyPlan planID node)), node)
  else (Ok None, node).

Definition imageUpdateProgression : list string :=
  [TaskTypeApplyStatefulSet; TaskTypeApplyService; TaskConfigPatch; TaskConfigValidate;
   TaskTypeReplacePod; TaskTypeObserveImage; TaskMarkReady].

Definition lift_plan (r : result TaskPlan) (node : SeiNode) : build := (Some <$> r, node).

Definition is_Running (node : SeiNode) : bool := bool_decide (st_Phase (n_Status node) = PhaseRunning).

Definition fullNode_Validate (node : SeiNode) : result unit :=
  match sp_FullNode (n_Spec node) with
  | None => Err "fullNode sub-spec is nil"
  | Some fn => wrap_err "fullNode: " (validateSnapshotGeneration (fn_SnapshotGeneration fn))
  end.

Definition fullNode_buildRunningPlan (platform : PlatformConfig) := modeRunningPlan platform imageUpdateProgression.

Definition fullNode_BuildPlan (platform : PlatformConfig) (planID : string) (node : SeiNode) : build :=
  if is_Running node then fullNode_buildRunningPlan platform planID node
  else
    let intent := mkConfigIntent ModeFull
      (mergeOverrides (mergeOverrides (commonOverrides node) (fullNode_controllerOverrides node))
         (sp_Overrides (n_Spec node))) in
    lift_plan (buildBasePlan planID node (sp_FullNode (n_Spec node) ≫= fn_Snapshot) (Some intent)) node.

Definition archive_Validate (node : SeiNode) : result unit :=
  match sp_Archive (n_Spec node) with
  | None => Err "archive sub-spec is nil"
  | Some ar => wrap_err "archive: " (validateSnapshotGeneration (ar_SnapshotGeneration ar))
  end.

Definition archive_buildRunningPlan (platform : PlatformConfig) := modeRunningPlan platform imageUpdateProgression.

Definition archive_BuildPlan (platform : PlatformConfig) (planID : string) (node : SeiNode) : build :=
  if is_Running node then archive_buildRunningPlan platform planID node
  else
    let intent := mkConfigIntent ModeArchive
      (mergeOverrides (mergeOverrides (commonOverrides node) (archive_controllerOverrides node))
         (sp_Overrides (n_Spec node))) in
    lift_plan (buildBasePlan planID node None (Some intent)) node.

Definition replayer_Validate (node : SeiNode) : result unit :=
  match sp_Replayer (n_Spec node) with
  | None => Err "replayer sub-spec is nil"
  | Some rp =>
      match ss_S3 (rp_Snapshot rp) with
      | None => Err "replayer requires an S3 snapshot source"
      | Some h =>
          if (h <=? 0)%Z then Err "replayer: s3.targetHeight must be > 0"
          else match sp_Peers (n_Spec node) with
          | [] => Err "replayer requires at least one peer source for block sync"
          | _ => Ok tt
          end
      end
  end.

Definition replayer_buildRunningPlan (platform : PlatformConfig) := modeRunningPlan platform imageUpdateProgression.

Definition replayer_BuildPlan (platform : PlatformConfig) (planID : string) (node : SeiNode) : build :=
  if is_Running node then replayer_buildRunningPlan platform planID node
  else
    let intent := mkConfigIntent ModeFull
      (mergeOverrides (mergeOverrides (commonOverrides node) replayer_controllerOverrides)
         (sp_Overrides (n_Spec node))) in
    lift_plan (buildBasePlan planID node (rp_Snapshot <$> sp_Replayer (n_Spec node)) (Some intent)) node.

(** The Secret name of a key source, when it is set. *)
Definition same_secret (a : string) (b : option string) : bool :=
  match b with Some x => (x <>s "") && (a =s x) | None => false end.

Definition validateOperatorKeyringDistinctness (v : ValidatorSpec) : result unit :=
  match v_OperatorKeyring v ≫= okr_Secret with
  | None => Ok tt
  | Some opk =>
      let pass := pp_SecretName (ok_PassphraseSecretRef opk) in
      let sk := v_SigningKey v ≫= sk_Secret in
      let nk := v_NodeKey v ≫= nk_Secret in
      if (ok_SecretName opk <>s "") && (ok_SecretName opk =s pass) then
        Err ("validator: operatorKeyring data Secret " +:+ quote (ok_SecretName opk) +:+
             " must differ from its passphrase Secret")
      else if same_secret (ok_SecretName opk) sk then
        Err ("validator: operatorKeyring Secret " +:+ quote (ok_SecretName opk) +:+
             " must differ from signingKey Secret")
      else if (pass <>s "") && same_secret pass sk then
        Err ("validator: operatorKeyring passphrase Secret " +:+ quote pass +:+
             " must differ from signingKey Secret")
      else if same_secret (ok_SecretName opk) nk then
        Err ("validator: operatorKeyring Secret " +:+ quote (ok_SecretName opk) +:+
             " must differ from nodeKey Secret")
      else if (pass <>s "") && same_secret pass nk then
        Err ("validator: operatorKeyring passphrase Secret " +:+ quote pass +:+
             " must differ from nodeKey Secret")
      else Ok tt
  end.

(** The signing-key block of [validatorPlanner.Validate]. *)
Definition validateSigningKeyPair (v : ValidatorSpec) : result unit :=
  match v_SigningKey v with
  | None => Ok tt
  | Some sk =>
      if bool_decide (is_Some (v_GenesisCeremony v)) then
        Err "validator: signingKey is mutually exclusive with genesisCeremony"
      else if negb (is_set (sk_Secret sk)) then
        Err "validator: signingKey.secret.secretName is required"
      else match v_NodeKey v with
      | None => Err "validator: nodeKey is required when signingKey is set"
      | Some nk =>
          if negb (is_set (nk_Secret nk)) then
            Err "validator: nodeKey.secret.secretName is required"
          else if bool_decide (nk_Secret nk = sk_Secret sk) then
            Err "validator: signingKey and nodeKey must reference distinct Secrets"
          else Ok tt
      end
  end.

Definition validator_Validate (node : SeiNode) : result unit :=
  match sp_Validator (n_Spec node) with
  | None => Err "validator sub-spec is nil"
  | Some v =>
      _ ← validateSigningKeyPair v;
      if bool_decide (is_Some (v_NodeKey v)) && bool_decide (v_SigningKey v = None) then
        Err "validator: nodeKey requires signingKey to be set"
      else
        _ ← validateOperatorKeyringDistinctness v;
        match v_GenesisCeremony v with
        | Some gc =>
            if gc_ChainID gc =s "" then Err "validator: genesisCeremony.chainId is required"
            else if gc_StakingAmount gc =s "" then
              Err "validator: genesisCeremony.stakingAmount is required"
            else Ok tt
        | None => Ok tt
        end
  end.

Definition validator_buildRunningPlan (platform : PlatformConfig) (planID : string) (node : SeiNode) : build :=
  modeRunningPlan platform (key_gates node ++ imageUpdateProgression) planID node.

Definition validator_BuildPlan (platform : PlatformConfig) (planID : string) (node : SeiNode) : build :=
  if is_Running node then validator_buildRunningPlan platform planID node
  else if isGenesisCeremonyNode node then lift_plan (buildGenesisPlan planID node) node
  else
    let intent := mkConfigIntent ModeValidator
      (mergeOverrides (commonOverrides node) (sp_Overrides (n_Spec node))) in
    lift_plan (buildBasePlan planID node (sp_Validator (n_Spec node) ≫= v_Snapshot) (Some intent)) node.

Definition seed_Validate (node : SeiNode) : result unit :=
  match sp_Seed (n_Spec node) with
  | None => Err "seed sub-spec is nil"
  | Some _ =>
      if is_set (NodeKeySecret (n_Spec node)) then Ok tt
      else Err "seed: nodeKey.secret.secretName is required — a seed's NodeID is published and must not be regenerated"
  end.

Definition seed_buildRunningPlan (platform : PlatformConfig) (planID : string) (node : SeiNode) : build :=
  modeRunningPlan platform
    ((if needsValidateNodeKey node then [TaskTypeValidateNodeKey] else []) ++ imageUpdateProgression)
    planID node.

Definition seed_BuildPlan (platform : PlatformConfig) (planID : string) (node : SeiNode) : build :=
  if is_Running node then seed_buildRunningPlan platform planID node
  else
    let intent := mkConfigIntent ModeSeed
      (mergeOverrides (commonOverrides node) (sp_Overrides (n_Spec node))) in
    lift_plan (buildBasePlan planID node None (Some intent)) node.

Definition fullNodePlanner p := mkNodePlanner ModeFull fullNode_Validate (fullNode_BuildPlan p).
Definition archiveNodePlanner p := mkNodePlanner ModeArchive archive_Validate (archive_BuildPlan p).
Definition replayerPlanner p := mkNodePlanner ModeFull replayer_Validate (replayer_BuildPlan p).
Definition validatorPlanner p := mkNodePlanner ModeValidator validator_Validate (validator_BuildPlan p).
Definition seedPlanner p := mkNodePlanner ModeSeed seed_Validate (seed_BuildPlan p).

Definition plannerForMode (platform : PlatformConfig) (node : SeiNode) : result NodePlanner :=
  let s := n_Spec node in
  if bool_decide (is_Some (sp_FullNode s)) then Ok (fullNodePlanner platform)
  else if bool_decide (is_Some (sp_Archive s)) then Ok (archiveNodePlanner platform)
  else if bool_decide (is_Some (sp_Replayer s)) then Ok (replayerPlanner platform)
  else if bool_decide (is_Some (sp_Validator s)) then Ok (validatorPlanner platform)
  else if bool_decide (is_Some (sp_Seed s)) then Ok (seedPlanner platform)
  else Err ("no mode sub-spec set on SeiNode " +:+ n_Namespace node +:+ "/" +:+ n_Name node).

End Planner.

(** ** Task IDs of a plan are distinct *)
Fixpoint no_slash (s : string) : bool :=
  match s with
  | EmptyString => true
  | String c s' => negb (Ascii.eqb c "/"%char) && no_slash s'
  end.

(** A string ends in one way only in a slash and a part without slashes. *)
Lemma slash_suffix_inj a b x y :
  no_slash x = true -> no_slash y = true -> a +:+ "/" +:+ x = b +:+ "/" +:+ y -> x = y.
Proof.
  intros Hx Hy. revert b.
  assert (Hno : forall u v, no_slash u = true -> u = v +:+ "/" +:+ y -> False).
  { intros u v. revert u. induction v as [|c v IH]; intros u Hu ->; simpl in *.
    - by rewrite ?Ascii.eqb_refl in Hu.
    - apply andb_true_iff in Hu as [_ Hu]. by eapply IH. }
  assert (Hno' : forall u v, no_slash u = true -> u = v +:+ "/" +:+ x -> False).
  { intros u v. revert u. induction v as [|c v IH]; intros u Hu ->; simpl in *.
    - by rewrite ?Ascii.eqb_refl in Hu.
    - apply andb_true_iff in Hu as [_ Hu]. by eapply IH. }
  induction a as [|c a IH]; intros [|d b] Heq; simpl in Heq; injection Heq; clear Heq.
  - done.
  - intros Heq _. exfalso. by eapply (Hno x).
  - intros Heq _. exfalso. by eapply (Hno' y).
  - intros Heq _. by eapply IH.
Qed.

Lemma pretty_N_char_no_slash x : Ascii.eqb (pretty_N_char x) "/"%char = false.
Proof.
  unfold pretty_N_char. repeat case_match; reflexivity.
Qed.

Lemma pretty_N_go_no_slash x s : no_slash s = true -> no_slash (pretty_N_go x s) = true.
Proof.
  revert s. induction (N.lt_wf_0 x) as [x _ IH]. intros s Hs.
  destruct (decide (0 < x)%N) as [Hlt|Hle].
  - rewrite pretty_N_go_step by done. apply IH; [by apply N.div_lt|].
    simpl. by rewrite pretty_N_char_no_slash, Hs.
  - assert (x = 0%N) as -> by lia. by rewrite pretty_N_go_0.
Qed.

Lemma pretty_nat_no_slash (i : nat) : no_slash (pretty i) = true.
Proof.
  unfold pretty, pretty_nat, pretty, pretty_N. case_decide; [done|].
  by apply pretty_N_go_no_slash.
Qed.

Lemma string_app_assoc (a b c : string) : (a +:+ b) +:+ c = a +:+ (b +:+ c).
Proof. induction a as [|x a IH]; [done|]. exact (f_equal (String x) IH). Qed.

Lemma DeterministicTaskID_index {H : Hashes} {HL : HashesLaws H} planID ty ty' i j :
  DeterministicTaskID planID ty i = DeterministicTaskID planID ty' j -> i = j.
Proof.
  unfold DeterministicTaskID, task_id_seed. intros E. apply NewSHA1_inj in E.
  apply (inj pretty).
  apply (slash_suffix_inj (planID +:+ "/" +:+ ty) (planID +:+ "/" +:+ ty'));
    [apply pretty_nat_no_slash..|].
  by rewrite !string_app_assoc.
Qed.

(** ** What every builder hands over *)
Section Built.
Context {C : SeiConfig} {H : Hashes}.

(** Each task carries the ID of its type and position, and has not started. *)
Definition indexed (planID : string) (ts : list PlannedTask) : Prop :=
  forall i t, ts !! i = Some t ->
    pt_ID t = DeterministicTaskID planID (pt_Type t) i /\ fresh_task t.

(** A plan just built: Active, nothing started, task IDs distinct. *)
Definition built (planID : string) (p : TaskPlan) : Prop :=
  pl_ID p = planID /\ fresh_plan p /\ ids_distinct p.

Lemma indexed_fresh planID ts : indexed planID ts -> Forall fresh_task ts.
Proof. intros Hi. apply Forall_lookup. intros i t Ht. by apply Hi in Ht as [_ ?]. Qed.

Lemma indexed_distinct {HL : HashesLaws H} planID ts : indexed planID ts -> NoDup (pt_ID <$> ts).
Proof.
  intros Hi. apply NoDup_alt. intros i j x Hx Hy.
  rewrite list_lookup_fmap in Hx, Hy.
  destruct (ts !! i) as [t|] eqn:Et; simplify_eq/=. destruct (ts !! j) as [u|] eqn:Eu; simplify_eq/=.
  destruct (Hi _ _ Et) as [Ht _]. destruct (Hi _ _ Eu) as [Hu _].
  eapply DeterministicTaskID_index. by rewrite <- Ht, <- Hu.
Qed.

Lemma indexed_built {HL : HashesLaws H} planID p :
  pl_ID p = planID -> pl_Phase p = TaskPlanActive -> indexed planID (pl_Tasks p) -> built planID p.
Proof.
  intros ? ? Hi. split; [done|]. split; [split; [done|by eapply indexed_fresh]|].
  by eapply indexed_distinct.
Qed.

Lemma built_wf planID p : built planID p -> plan_wf p.
Proof. intros (_ & Hf & _). by apply fresh_plan_wf. Qed.

Lemma buildPlannedTask_fresh planID ty i ps : fresh_task (buildPlannedTask planID ty i ps).
Proof. done. Qed.

(** A progression turned into tasks, whatever the params. *)
Lemma imap_indexed {A} planID (ty : A -> string) (ps : A -> TaskParams) (l : list A) :
  indexed planID (imap (fun i a => buildPlannedTask planID (ty a) i (ps a)) l).
Proof.
  intros i t. rewrite list_lookup_imap. destruct (l !! i); intros [= <-]. done.
Qed.

Lemma imap_types {A} planID (ty : A -> string) (ps : A -> TaskParams) (l : list A) :
  pt_Type <$> imap (fun i a => buildPlannedTask planID (ty a) i (ps a)) l = ty <$> l.
Proof.
  apply list_eq. intros i. rewrite !list_lookup_fmap, list_lookup_imap. by destruct (l !! i).
Qed.

Lemma buildTasks_indexed planID ps prog : indexed planID (buildTasks planID ps prog).
Proof. apply (imap_indexed planID id ps). Qed.

Lemma buildTasks_types planID ps prog : pt_Type <$> buildTasks planID ps prog = prog.
Proof. unfold buildTasks. rewrite (imap_types planID id ps). by rewrite list_fmap_id. Qed.

Lemma indexed_snoc planID ts t :
  indexed planID ts -> pt_ID t = DeterministicTaskID planID (pt_Type t) (length ts) -> fresh_task t ->
  indexed planID (ts ++ [t]).
Proof.
  intros Hi Hid Hf i u Hu. apply lookup_app_Some in Hu as [Hu|[Hlen Hu]]; [by apply Hi|].
  apply list_lookup_singleton_Some in Hu as [Hz <-].
  replace i with (length ts) by lia. done.
Qed.

(** ** The splice: the overlay patch goes right before every config-validate *)
Definition spliced (types : list string) : list string :=
  types ≫= fun ty => if ty =s TaskConfigValidate then [TaskConfigPatch; ty] else [ty].

Lemma spliced_cons ty l :
  spliced (ty :: l) = (if ty =s TaskConfigValidate then [TaskConfigPatch; ty] else [ty]) ++ spliced l.
Proof. done. Qed.

Lemma splice_spec planID patch todo tasks :
  Forall fresh_task todo -> indexed planID tasks ->
  indexed planID (splice planID patch todo tasks) /\
  pt_Type <$> splice planID patch todo tasks = (pt_Type <$> tasks) ++ spliced (pt_Type <$> todo).
Proof.
  revert tasks. induction todo as [|t todo IH]; intros tasks Hf Hi; cbn [splice].
  - unfold spliced. simpl. by rewrite app_nil_r.
  - apply Forall_cons in Hf as [Ht Hf].
    destruct (pt_Type t =s TaskConfigValidate) eqn:E.
    + edestruct IH as [H1 H2]; [exact Hf| |split; [exact H1|]].
      * apply indexed_snoc; [|done|done]. by apply indexed_snoc.
      * rewrite (fmap_cons pt_Type t todo), spliced_cons, E, H2, !fmap_app. by rewrite <- !app_assoc.
    + edestruct IH as [H1 H2]; [exact Hf| |split; [exact H1|]].
      * by apply indexed_snoc.
      * rewrite (fmap_cons pt_Type t todo), spliced_cons, E, H2, !fmap_app. by rewrite <- !app_assoc.
Qed.

(** Whether the node has an overlay to splice. *)
Definition has_overlay (node : SeiNode) : bool :=
  match sp_ConfigValues (n_Spec node), consensusOverlay (n_Spec node) with
  | [], None => false
  | _, _ => true
  end.

Lemma withConfigValues_spec planID p node p' :
  pl_ID p = planID -> pl_Phase p = TaskPlanActive -> indexed planID (pl_Tasks p) ->
  withConfigValues p node = Ok p' ->
  pl_ID p' = planID /\ pl_Phase p' = TaskPlanActive /\ indexed planID (pl_Tasks p') /\
  pl_TargetPhase p' = pl_TargetPhase p /\ pl_FailedPhase p' = pl_FailedPhase p /\
  configValuesHash (sp_ConfigValues (n_Spec node)) = Ok (pl_ConfigValuesHash p') /\
  pt_Type <$> pl_Tasks p' =
    if has_overlay node then spliced (pt_Type <$> pl_Tasks p) else pt_Type <$> pl_Tasks p.
Proof.
  intros Hid Hph Hi. unfold withConfigValues, has_overlay.
  destruct (configValuesHash _) as [h|]; simpl; [|done].
  destruct (splice_spec planID [] (pl_Tasks p) [] (indexed_fresh _ _ Hi)) as [_ _]; [done|].
  assert (Hsp : forall p',
    (user ← configValuesOverlay (sp_ConfigValues (n_Spec node));
     patch ← mergeOverlayPatches user (consensusOverlay (n_Spec node));
     if bool_decide (length (splice (pl_ID p) patch (pl_Tasks p) []) = length (pl_Tasks p))
     then Err "configValues: cannot splice overlay: plan has no config-validate task"
     else Ok (plan_with_tasks (plan_with_hash p h) (splice (pl_ID p) patch (pl_Tasks p) []))) = Ok p' ->
    pl_ID p' = planID /\ pl_Phase p' = TaskPlanActive /\ indexed planID (pl_Tasks p') /\
    pl_TargetPhase p' = pl_TargetPhase p /\ pl_FailedPhase p' = pl_FailedPhase p /\
    Ok h = Ok (pl_ConfigValuesHash p') /\ pt_Type <$> pl_Tasks p' = spliced (pt_Type <$> pl_Tasks p)).
  { clear p'. intros p'. destruct (configValuesOverlay _) as [user|]; simpl; [|done].
    destruct (mergeOverlayPatches _ _) as [patch|]; simpl; [|done].
    case_bool_decide; [done|]. intros [= <-]. simpl. rewrite Hid.
    destruct (splice_spec planID patch (pl_Tasks p) [] (indexed_fresh _ _ Hi)) as [H1 H2]; [done|].
    by rewrite H2. }
  destruct (sp_ConfigValues (n_Spec node)), (consensusOverlay (n_Spec node)); try apply Hsp.
  by intros [= <-].
Qed.

End Built.

(** ** The laws of a mode planner *)
Section Laws.
Context {C : SeiConfig} {H : Hashes} {SC : StatusConditions}.

(** A plan as the mode planners build it, for a node in phase Running or not. *)
Definition mode_plan (planID : string) (running : bool) (p : TaskPlan) : Prop :=
  pl_ID p = planID /\ pl_Phase p = TaskPlanActive /\ indexed planID (pl_Tasks p) /\
  pl_TargetPhase p = PhaseRunning /\
  pl_FailedPhase p = (if running then PhaseNone else PhaseFailed).

(** Building touches nothing of the node but its conditions, and what is built
    is a [mode_plan]. *)
Definition lawful_build (planID : string) (node : SeiNode) (b : build) : Prop :=
  conds_only node b.2 /\
  (forall p, b.1 = Ok (Some p) -> mode_plan planID (is_Running node) p).

Class ModePlannerLaws (np : NodePlanner) : Prop :=
  mode_lawful : forall planID node, lawful_build planID node (np_BuildPlan np planID node).

Lemma withConfigValues_mode_plan planID (running : bool) tasks node p :
  indexed planID tasks ->
  withConfigValues (mkTaskPlan planID TaskPlanActive tasks PhaseRunning ""
                      (if running then PhaseNone else PhaseFailed) None None) node = Ok p ->
  mode_plan planID running p.
Proof.
  intros Hi Hw. apply (withConfigValues_spec planID) in Hw as (? & ? & ? & Ht & Hf & _); [|done..].
  unfold mode_plan. by rewrite Ht, Hf.
Qed.

Lemma buildBasePlan_mode_plan planID node snap intent p :
  buildBasePlan planID node snap intent = Ok p -> mode_plan planID false p.
Proof.
  unfold buildBasePlan. destruct (buildSidecarProgression snap); simpl; [|done].
  apply (withConfigValues_mode_plan planID false). apply buildTasks_indexed.
Qed.

Lemma lift_lawful planID node r :
  is_Running node = false -> (forall p, r = Ok p -> mode_plan planID false p) ->
  lawful_build planID node (lift_plan r node).
Proof.
  intros Hr Hp. split; [apply conds_only_refl|]. intros p. unfold lift_plan. simpl.
  destruct r as [q|]; simpl; [|done]. intros [= ->]. rewrite Hr. by apply Hp.
Qed.

Lemma announce_lawful planID node prog patch reason message :
  is_Running node = true ->
  lawful_build planID node (announce reason message (assembleUpdatePlan planID node prog patch)).
Proof.
  intros Hr. unfold assembleUpdatePlan, record_build_error.
  match goal with |- context [announce _ _ (match ?r with _ => _ end)] => destruct r as [q|e] eqn:E end;
    unfold announce.
  - split; simpl; [apply conds_only_set|]. intros p [= <-]. rewrite Hr.
    destruct (updateProgression node prog) as [prog'|]; simpl in E; [|done].
    apply (withConfigValues_mode_plan planID true) in E; [done|]. apply buildTasks_indexed.
  - split; simpl; [apply conds_only_set|done].
Qed.

Lemma modeRunningPlan_lawful platform prog planID node :
  is_Running node = true -> lawful_build planID node (modeRunningPlan platform prog planID node).
Proof.
  intros Hr. unfold modeRunningPlan, buildConfigUpdatePlan.
  destruct (podTemplateDrifted node platform); [by apply announce_lawful|].
  destruct (configValuesDrifted node); [by apply announce_lawful|].
  destruct (sidecarNeedsReapproval node); (split; [apply conds_only_refl|]); [|done].
  intros p [= <-]. unfold mode_plan. rewrite Hr. split_and!; try done.
  apply (buildTasks_indexed planID (fun ty => paramsForTaskType node ty None None) [TaskMarkReady]).
Qed.

Section Modes.
Context (platform : PlatformConfig).

#[export] Instance fullNode_laws : ModePlannerLaws (fullNodePlanner platform).
Proof.
  intros planID node. simpl. unfold fullNode_BuildPlan.
  destruct (is_Running node) eqn:Hr; [by apply modeRunningPlan_lawful|].
  apply lift_lawful; [done|]. intros p. apply buildBasePlan_mode_plan.
Qed.

#[export] Instance archive_laws : ModePlannerLaws (archiveNodePlanner platform).
Proof.
  intros planID node. simpl. unfold archive_BuildPlan.
  destruct (is_Running node) eqn:Hr; [by apply modeRunningPlan_lawful|].
  apply lift_lawful; [done|]. intros p. apply buildBasePlan_mode_plan.
Qed.

#[export] Instance replayer_laws : ModePlannerLaws (replayerPlanner platform).
Proof.
  intros planID node. simpl. unfold replayer_BuildPlan.
  destruct (is_Running node) eqn:Hr; [by apply modeRunningPlan_lawful|].
  apply lift_lawful; [done|]. intros p. apply buildBasePlan_mode_plan.
Qed.

#[export] Instance validator_laws : ModePlannerLaws (validatorPlanner platform).
Proof.
  intros planID node. simpl. unfold validator_BuildPlan.
  destruct (is_Running node) eqn:Hr; [by apply modeRunningPlan_lawful|].
  destruct (isGenesisCeremonyNode node); (apply lift_lawful; [done|]); intros p.
  - apply (withConfigValues_mode_plan planID false), buildTasks_indexed.
  - apply buildBasePlan_mode_plan.
Qed.

#[export] Instance seed_laws : ModePlannerLaws (seedPlanner platform).
Proof.
  intros planID node. simpl. unfold seed_BuildPlan.
  destruct (is_Running node) eqn:Hr; [by apply modeRunningPlan_lawful|].
  apply lift_lawful; [done|]. intros p. apply buildBasePlan_mode_plan.
Qed.

Lemma plannerForMode_laws node np : plannerForMode platform node = Ok np -> ModePlannerLaws np.
Proof.
  unfold plannerForMode. repeat case_bool_decide; intros [= <-]; apply _.
Qed.

End Modes.
End Laws.

(** ** Init progressions *)

(** The sidecar tasks of an init plan, written out by bootstrap source. *)
Definition init_sidecar (snap : option SnapshotSource) : list string :=
  match snap with
  | None => [TaskConfigureGenesis; TaskConfigApply; TaskConfigValidate; TaskMarkReady]
  | Some s =>
      (if hasS3Snapshot snap then [TaskSnapshotRestore] else []) ++
      [TaskConfigureGenesis; TaskConfigApply; TaskConfigureStateSync; TaskConfigValidate; TaskMarkReady]
  end.

Lemma buildSidecarProgression_eq snap : buildSidecarProgression snap = Ok (init_sidecar snap).
Proof.
  destruct snap as [[[h|] [[]|] tp rs bb]|]; reflexivity.
Qed.

Section PlannerClaims.
Context {C : SeiConfig} {H : Hashes} {SC : StatusConditions}.

Lemma buildBasePlan_types planID node snap intent p :
  buildBasePlan planID node snap intent = Ok p ->
  pt_Type <$> pl_Tasks p =
    (if has_overlay node then spliced else id)
      (basePrefix node ++ withoutManagedConfigTasks node (init_sidecar snap)).
Proof.
  unfold buildBasePlan. rewrite buildSidecarProgression_eq. simpl. intros Hw.
  apply (withConfigValues_spec planID) in Hw as (_ & _ & _ & _ & _ & _ & ->);
    [|done|done|apply buildTasks_indexed].
  cbn [pl_Tasks]. rewrite buildTasks_types. by destruct (has_overlay node).
Qed.

(** A spliced task is the overlay patch or one of the tasks spliced into. *)
Lemma splice_params planID patch todo tasks t :
  t ∈ splice planID patch todo tasks -> pt_Type t <> TaskConfigPatch ->
  (exists u, (u ∈ tasks \/ u ∈ todo) /\ pt_Type u = pt_Type t /\ pt_Params u = pt_Params t).
Proof.
  revert tasks. induction todo as [|v todo IH]; intros tasks; cbn [splice].
  - intros Hin _. exists t. naive_solver.
  - intros Hin Hty. destruct (IH _ Hin Hty) as (u & Hu & Ht & Hp).
    destruct Hu as [Hu|Hu]; [|exists u; set_solver].
    apply elem_of_app in Hu as [Hu|Hu].
    + destruct (pt_Type v =s TaskConfigValidate); [|exists u; set_solver].
      apply elem_of_app in Hu as [Hu|Hu]; [exists u; set_solver|].
      apply list_elem_of_singleton in Hu as ->. simpl in Ht. congruence.
    + apply list_elem_of_singleton in Hu as ->. exists v. set_solver.
Qed.

Lemma withConfigValues_params p node p' t :
  withConfigValues p node = Ok p' -> t ∈ pl_Tasks p' -> pt_Type t <> TaskConfigPatch ->
  exists u, u ∈ pl_Tasks p /\ pt_Type u = pt_Type t /\ pt_Params u = pt_Params t.
Proof.
  unfold withConfigValues. destruct (configValuesHash _) as [h|]; simpl; [|done].
  assert (Hsp : (user ← configValuesOverlay (sp_ConfigValues (n_Spec node));
     patch ← mergeOverlayPatches user (consensusOverlay (n_Spec node));
     if bool_decide (length (splice (pl_ID p) patch (pl_Tasks p) []) = length (pl_Tasks p))
     then Err "configValues: cannot splice overlay: plan has no config-validate task"
     else Ok (plan_with_tasks (plan_with_hash p h) (splice (pl_ID p) patch (pl_Tasks p) []))) = Ok p' ->
     t ∈ pl_Tasks p' -> pt_Type t <> TaskConfigPatch ->
     exists u, u ∈ pl_Tasks p /\ pt_Type u = pt_Type t /\ pt_Params u = pt_Params t).
  { destruct (configValuesOverlay _) as [user|]; simpl; [|done].
    destruct (mergeOverlayPatches _ _) as [patch|]; simpl; [|done].
    case_bool_decide; [done|]. intros [= <-] Hin Hty. simpl in Hin.
    destruct (splice_params _ _ _ _ _ Hin Hty) as (u & [Hu|Hu] & ?); [set_solver|by exists u]. }
  destruct (sp_ConfigValues (n_Spec node)), (consensusOverlay (n_Spec node)); try apply Hsp.
  intros [= <-] Hin _. by exists t.
Qed.

Lemma buildTasks_params planID ps prog t :
  t ∈ buildTasks planID ps prog -> pt_Params t = Some (ps (pt_Type t)).
Proof.
  intros Hin. apply list_elem_of_lookup in Hin as [i Hi]. unfold buildTasks in Hi.
  rewrite list_lookup_imap in Hi. destruct (prog !! i); simplify_eq/=. done.
Qed.

(** The config-apply of an init plan carries the intent it was built from. *)
Lemma buildBasePlan_intent planID node snap intent p t :
  buildBasePlan planID node snap intent = Ok p -> t ∈ pl_Tasks p -> pt_Type t = TaskConfigApply ->
  pt_Params t = Some (ConfigApplyIntent intent).
Proof.
  unfold buildBasePlan. rewrite buildSidecarProgression_eq. simpl. intros Hw Hin Hty.
  destruct (withConfigValues_params _ _ _ _ Hw Hin) as (u & Hu & Hut & <-); [by rewrite Hty|].
  simpl in Hu. rewrite (buildTasks_params _ _ _ _ Hu), Hut, Hty. done.
Qed.

Lemma mergeOverrides_empty o : mergeOverrides o ∅ = o.
Proof. unfold mergeOverrides. by rewrite (left_id_L ∅ (∪)). Qed.

(** The init intent of each mode. *)
Lemma init_intent_eq platform planID node np p t :
  plannerForMode platform node = Ok np -> is_Running node = false -> isGenesisCeremonyNode node = false ->
  sp_Replayer (n_Spec node) = None \/ (sp_Validator (n_Spec node) = None /\ sp_Seed (n_Spec node) = None) ->
  (np_BuildPlan np planID node).1 = Ok (Some p) -> t ∈ pl_Tasks p -> pt_Type t = TaskConfigApply ->
  pt_Params t = Some (ConfigApplyIntent (Some (runningConfigIntent node))).
Proof.
  intros Hnp Hr Hg Hone. revert Hnp. unfold plannerForMode, runningConfigIntent.
  assert (Hlift : forall snap intent,
    (lift_plan (buildBasePlan planID node snap (Some intent)) node).1 = Ok (Some p) ->
    t ∈ pl_Tasks p -> pt_Type t = TaskConfigApply -> pt_Params t = Some (ConfigApplyIntent (Some intent))).
  { intros snap intent. unfold lift_plan. simpl.
    destruct (buildBasePlan _ _ _ _) as [q|] eqn:E; [|done]. intros [= ->]. by apply (buildBasePlan_intent _ _ _ _ _ _ E). }
  destruct (sp_FullNode (n_Spec node)) as [fn|] eqn:Ef; simpl.
  { intros [= <-]. simpl. unfold fullNode_BuildPlan. rewrite Hr. apply Hlift. }
  destruct (sp_Archive (n_Spec node)) eqn:Ea; simpl.
  { intros [= <-]. simpl. unfold archive_BuildPlan. rewrite Hr. apply Hlift. }
  destruct (sp_Replayer (n_Spec node)) eqn:Er; simpl.
  { intros [= <-]. simpl. unfold replayer_BuildPlan. rewrite Hr.
    destruct Hone as [|[-> ->]]; [done|]. apply Hlift. }
  destruct (sp_Validator (n_Spec node)) eqn:Ev; simpl.
  { intros [= <-]. simpl. unfold validator_BuildPlan. rewrite Hr, Hg, mergeOverrides_empty. apply Hlift. }
  destruct (sp_Seed (n_Spec node)) eqn:Es; simpl; [|done].
  intros [= <-]. simpl. unfold seed_BuildPlan. rewrite Hr, mergeOverrides_empty. apply Hlift.
Qed.

End PlannerClaims.

(** ** Claims *)

(** Property: The task order of an init plan. A plan built for a node that is not yet
    Running provisions first (data PVC, the key gates the spec asks for, RBAC
    proxy, StatefulSet, Service), then restores the snapshot when there is an S3
    one, fetches genesis, writes the config, sets up state sync when the node
    bootstraps from a snapshot, validates and marks ready; on a node with mounted
    config files without the tasks that write or judge them. With an overlay the
    overlay patch comes right before each config-validate. *)
Theorem init_plan_order {C : SeiConfig} {H : Hashes} planID node snap intent p :
  buildBasePlan planID node snap intent = Ok p ->
  pt_Type <$> pl_Tasks p =
    (if has_overlay node then spliced else id)
      ([TaskTypeEnsureDataPVC] ++ key_gates node ++
       [TaskTypeApplyRBACProxyConfig; TaskTypeApplyStatefulSet; TaskTypeApplyService] ++
       (if hasS3Snapshot snap then [TaskSnapshotRestore] else []) ++ [TaskConfigureGenesis] ++
       (if MountsNodeConfig node then []
        else [TaskConfigApply] ++
             (if needsStateSyncWitnesses snap then [TaskConfigureStateSync] else []) ++
             [TaskConfigValidate]) ++
       [TaskMarkReady]).
Proof.
  intros Hp. rewrite (buildBasePlan_types _ _ _ _ _ Hp). f_equal.
  unfold basePrefix, withoutManagedConfigTasks. rewrite <- !app_assoc. f_equal. f_equal. simpl.
  destruct (MountsNodeConfig node), snap as [[[h|] [[]|] tp rs bb]|]; reflexivity.
Qed.

Lemma init_plan_order_witness :
  match @buildBasePlan sample_config sample_hashes "p" (Sample.node HoldNone 0)
          (Some (mkSnapshotSource (Some 7%Z) None "" [] 0)) None with
  | Ok p => pt_Type <$> pl_Tasks p =
      [TaskTypeEnsureDataPVC; TaskTypeApplyRBACProxyConfig; TaskTypeApplyStatefulSet;
       TaskTypeApplyService; TaskSnapshotRestore; TaskConfigureGenesis; TaskMarkReady]
  | Err _ => False
  end.
Proof.
  destruct (@buildBasePlan sample_config sample_hashes "p" (Sample.node HoldNone 0)
          (Some (mkSnapshotSource (Some 7%Z) None "" [] 0)) None) as [p|e] eqn:E.
  - rewrite (@init_plan_order sample_config sample_hashes _ _ _ _ _ E). reflexivity.
  - vm_compute in E. discriminate E.
Defined.

(** Property: A regenerated configuration is the one the node was born with. The
    intent an update plan regenerates the base config from equals the intent the
    config-apply of the node's init plan carries, in every mode, provided the
    node is not a replayer with a second mode set (the CRD admits one mode). *)
Theorem running_intent_mirrors_init {C : SeiConfig} {H : Hashes} {SC : StatusConditions}
    platform planID node np p t :
  plannerForMode platform node = Ok np -> is_Running node = false ->
  isGenesisCeremonyNode node = false ->
  sp_Replayer (n_Spec node) = None \/ (sp_Validator (n_Spec node) = None /\ sp_Seed (n_Spec node) = None) ->
  (np_BuildPlan np planID node).1 = Ok (Some p) -> t ∈ pl_Tasks p -> pt_Type t = TaskConfigApply ->
  pt_Params t = Some (paramsForUpdateTask node TaskConfigApply []).
Proof. exact (init_intent_eq platform planID node np p t). Qed.

(** A full node that mounts nothing, before its first plan. *)
Definition new_full_node : SeiNode :=
  mkSeiNode "n" "ns" 1 0 ∅
    (mkSeiNodeSpec "sei-test" "img" [] {["logging.level" := "info"]} None None [] None None None
       (Some (mkFullNodeSpec None None (Some (mkFreezeSpec 42)))) None None None None "" false 0 None)
    (mkSeiNodeStatus PhaseNone "" "" "" IsolationNone "" [] None None [] [] 0 HoldNone).

Lemma running_intent_mirrors_init_witness :
  exists t, pt_Type t = TaskConfigApply /\
    pt_Params t = Some (@paramsForUpdateTask sample_config new_full_node TaskConfigApply []).
Proof.
  assert (Hp : match @buildBasePlan sample_config sample_hashes "p" new_full_node None
      (Some (@runningConfigIntent sample_config new_full_node)) with
      | Ok p => exists t, pl_Tasks p !! 5 = Some t /\ pt_Type t = TaskConfigApply
      | Err _ => False end) by (vm_compute; eexists; split; reflexivity).
  destruct (@buildBasePlan sample_config sample_hashes "p" new_full_node None _) as [p|] eqn:E; [|done].
  destruct Hp as (t & Ht & Hty). exists t. split; [exact Hty|].
  apply (@running_intent_mirrors_init sample_config sample_hashes list_conditions
           (mkPlatformConfig "side" 0) "p" new_full_node
           (@fullNodePlanner sample_config sample_hashes list_conditions (mkPlatformConfig "side" 0)) p t);
    [reflexivity|reflexivity|reflexivity|left; reflexivity| |by eapply list_elem_of_lookup_2|exact Hty].
  transitivity (Some <$> @buildBasePlan sample_config sample_hashes "p" new_full_node None
      (Some (@runningConfigIntent sample_config new_full_node))); [reflexivity|].
  by rewrite E.
Defined.

(** The Secret names a validator mounts, with their roles. *)
Definition named (o : option string) : list string :=
  match o with Some x => if x =s "" then [] else [x] | None => [] end.
Definition validator_secrets (v : ValidatorSpec) : list string :=
  named (v_SigningKey v ≫= sk_Secret) ++ named (v_NodeKey v ≫= nk_Secret) ++
  match v_OperatorKeyring v ≫= okr_Secret with
  | Some o => named (Some (ok_SecretName o)) ++ named (Some (pp_SecretName (ok_PassphraseSecretRef o)))
  | None => []
  end.

Lemma named_spec o x : x ∈ named o <-> o = Some x /\ x <> "".
Proof.
  unfold named. destruct o as [y|]; [|set_solver].
  destruct (y =s "") eqn:E.
  - apply String.eqb_eq in E as ->. set_solver.
  - apply String.eqb_neq in E. set_solver.
Qed.

Lemma named_NoDup o : NoDup (named o).
Proof. unfold named. destruct o as [y|]; [destruct (y =s "")|]; repeat constructor; set_solver. Qed.

(** The two keys of an accepted spec: both or neither, and distinct. *)
Lemma key_pair_ok v :
  validateSigningKeyPair v = Ok tt ->
  bool_decide (is_Some (v_NodeKey v)) && bool_decide (v_SigningKey v = None) = false ->
  (v_SigningKey v = None /\ v_NodeKey v = None) \/
  (exists a b, v_SigningKey v ≫= sk_Secret = Some a /\ v_NodeKey v ≫= nk_Secret = Some b /\ a <> b /\
     v_GenesisCeremony v = None /\ is_Some (v_NodeKey v)).
Proof.
  unfold validateSigningKeyPair. destruct (v_SigningKey v) as [sk|].
  - intros Hp _. right. case_bool_decide as Hgc; [done|].
    destruct (sk_Secret sk) as [a|] eqn:Ea; simpl in Hp; [|done].
    destruct (negb _); [done|]. destruct (v_NodeKey v) as [nk|]; [|done].
    destruct (nk_Secret nk) as [b|] eqn:Eb; simpl in Hp; [|done].
    destruct (negb _); [done|]. case_bool_decide as Hab; [done|].
    exists a, b. simpl. split_and!; try done; [congruence|by apply eq_None_not_Some].
  - intros _ Hn. left. split; [done|]. destruct (v_NodeKey v); [done|done].
Qed.

Lemma same_secret_spec a b : same_secret a b = false -> a ∈ named b -> False.
Proof.
  unfold same_secret. intros Hs [-> Ha]%named_spec. apply String.eqb_neq in Ha.
  by rewrite Ha, String.eqb_refl in Hs.
Qed.

(** The keyring's two Secrets differ from each other and from both keys. *)
Lemma keyring_ok v o :
  validateOperatorKeyringDistinctness v = Ok tt -> v_OperatorKeyring v ≫= okr_Secret = Some o ->
  let os := named (Some (ok_SecretName o)) in
  let ps := named (Some (pp_SecretName (ok_PassphraseSecretRef o))) in
  let keys := named (v_SigningKey v ≫= sk_Secret) ++ named (v_NodeKey v ≫= nk_Secret) in
  (forall x, x ∈ os -> x ∉ ps) /\ (forall x, x ∈ os ++ ps -> x ∉ keys).
Proof.
  unfold validateOperatorKeyringDistinctness. intros Hv Ho. rewrite Ho in Hv.
  set (os := ok_SecretName o) in *. set (ps := pp_SecretName (ok_PassphraseSecretRef o)) in *.
  destruct (negb (os =s "") && (os =s ps)) eqn:E1; [done|].
  destruct (same_secret os (v_SigningKey v ≫= sk_Secret)) eqn:E2; [done|].
  destruct (negb (ps =s "") && same_secret ps (v_SigningKey v ≫= sk_Secret)) eqn:E3; [done|].
  destruct (same_secret os (v_NodeKey v ≫= nk_Secret)) eqn:E4; [done|].
  destruct (negb (ps =s "") && same_secret ps (v_NodeKey v ≫= nk_Secret)) eqn:E5; [done|].
  cbv zeta. split.
  - intros x [[= <-] Hx]%named_spec [[= Hps] _]%named_spec.
    apply String.eqb_neq in Hx. rewrite Hx, Hps, String.eqb_refl in E1. done.
  - intros x [Hx|Hx]%elem_of_app; apply named_spec in Hx as [[= <-] Hx];
      intros [Hk|Hk]%elem_of_app; apply String.eqb_neq in Hx.
    + exact (same_secret_spec _ _ E2 Hk).
    + exact (same_secret_spec _ _ E4 Hk).
    + rewrite Hx in E3. exact (same_secret_spec _ _ E3 Hk).
    + rewrite Hx in E5. exact (same_secret_spec _ _ E5 Hk).
Qed.

(** Property: An admitted validator keeps its secrets apart. When the planner accepts a
    validator spec, the Secrets it names for the signing key, the node key, the
    operator keyring and the keyring passphrase are pairwise distinct, and a
    signing key comes with a node key and no genesis ceremony. *)
Theorem validator_secrets_distinct node v :
  sp_Validator (n_Spec node) = Some v -> validator_Validate node = Ok tt ->
  NoDup (validator_secrets v) /\
  (is_Some (v_SigningKey v) -> is_Some (v_NodeKey v) /\ v_GenesisCeremony v = None).
Proof.
  intros Hv. unfold validator_Validate. rewrite Hv. clear Hv.
  destruct (validateSigningKeyPair v) as [[]|] eqn:Esk; simpl; [|done].
  destruct (bool_decide (is_Some (v_NodeKey v)) && _) eqn:Enk; [done|].
  destruct (validateOperatorKeyringDistinctness v) as [[]|] eqn:Eop; simpl; [|done]. intros _.
  pose proof (key_pair_ok v Esk Enk) as Hkeys. split.
  - assert (Hk : NoDup (named (v_SigningKey v ≫= sk_Secret) ++ named (v_NodeKey v ≫= nk_Secret))).
    { destruct Hkeys as [[-> ->]|(a & b & -> & -> & Hab & _)]; [apply NoDup_nil_2|].
      apply NoDup_app. split_and!; [apply named_NoDup| |apply named_NoDup].
      intros x [[= <-] _]%named_spec [[= <-] _]%named_spec. done. }
    unfold validator_secrets. rewrite (app_assoc (named _) (named _)). apply NoDup_app. split; [exact Hk|].
    destruct (v_OperatorKeyring v ≫= okr_Secret) as [o|] eqn:Eo; [|split; [set_solver|apply NoDup_nil_2]].
    destruct (keyring_ok v o Eop Eo) as [H1 H2]. split; [intros x Hx Hx'; by apply (H2 x)|].
    apply NoDup_app. split_and!; [apply named_NoDup|exact H1|apply named_NoDup].
  - intros [sk Hsk]. destruct Hkeys as [[? _]|(a & b & _ & _ & _ & ? & ?)]; [congruence|done].
Qed.

Lemma validator_secrets_distinct_witness :
  NoDup ["sign"; "node"; "ring"; "pass"].
Proof.
  set (v := mkValidatorSpec None None (Some (mkSigningKeySource (Some "sign")))
    (Some (mkNodeKeySource (Some "node")))
    (Some (mkOperatorKeyringSource (Some (mkSecretOperatorKeyringSource "ring" ""
       (mkPassphraseSecretRef "pass" "k") false))))).
  exact (proj1 (validator_secrets_distinct
    (mkSeiNode "n" "ns" 1 0 ∅ (mkSeiNodeSpec "c" "i" [] ∅ None None [] None None None None None None
       (Some v) None "" false 0 None)
       (mkSeiNodeStatus PhaseNone "" "" "" IsolationNone "" [] None None [] [] 0 HoldNone))
    v eq_refl eq_refl)).
Defined.
