(* ===== verification/StaticConfig.v ===== *)
(** * Nodes configured from ConfigMaps: resets and maintenance holds

    src/internal/planner/static_config.go (the planner of a node with
    spec.nodeConfig), data_reset.go (the declarative data reset) and
    maintenance.go (the maintenance hold). *)

From stdpp Require Import base list strings gmap pretty.
From Stdlib Require Import ZArith Lia.
From S2P Require Import Prelude Api NodeState Platform Executor Config Task Planner.

Definition has_task (ty : string) (p : TaskPlan) : bool :=
  existsb (fun t => pt_Type t =s ty) (pl_Tasks p).

Definition isMaintenancePlan (p : option TaskPlan) : bool :=
  match p with Some p => has_task TaskTypeRecordMaintenanceHold p | None => false end.

Definition isDataResetPlan (p : option TaskPlan) : bool :=
  match p with Some p => has_task TaskTypeRecordDataReset p | None => false end.

(** [planStep] *)
Abbreviation planStep := (string * TaskParams)%type.

Definition recordHoldStep (hold : MaintenanceHold) : planStep :=
  (TaskTypeRecordMaintenanceHold, RecordMaintenanceHoldParams hold).

Definition holdOrNone (h : MaintenanceHold) : string :=
  match h with HoldNone => "none" | _ => hold_string h end.

Definition dataResetMaxRetries : Z := 5.

(** [startDeferred]: the loop over the tasks, up to the first mark-ready. *)
Fixpoint all_complete_before_mark_ready (ts : list PlannedTask) : bool :=
  match ts with
  | [] => false
  | t :: ts' =>
      if pt_Type t =s TaskMarkReady then true
      else if negb (bool_decide (pt_Status t = TaskComplete)) then false
      else all_complete_before_mark_ready ts'
  end.

Definition startDeferred (plan : TaskPlan) : bool :=
  match pl_FailedTaskDetail plan with
  | None => false
  | Some d =>
      if (fi_Type d <>s TaskMarkReady) || negb (contains (fi_Error d) StartGuardRefusal) then false
      else all_complete_before_mark_ready (pl_Tasks plan)
  end.

Definition unknownValue := "unknown".
Definition planFailureMessage (plan : TaskPlan) : string :=
  match pl_FailedTaskDetail plan with
  | Some d => "task " +:+ fi_Type d +:+ ": " +:+ fi_Error d
  | None => unknownValue
  end.

Section StaticConfig.
Context {C : SeiConfig} {H : Hashes} {SC : StatusConditions}.

(** ** The maintenance hold *)
Definition sidecarGateOpen (node : SeiNode) : bool := cond_is node ConditionSidecarReady ConditionTrue.

(** [assembleSteps] *)
Definition assembleSteps (planID : string) (steps : list planStep) : TaskPlan :=
  mkTaskPlan planID TaskPlanActive
    (imap (fun i s => buildPlannedTask planID s.1 i s.2) steps)
    PhaseRunning "" PhaseNone None None.

Definition observeStep (node : SeiNode) : planStep :=
  (TaskTypeObserveImage, ObserveImageParams (n_Name node) (n_Namespace node)).

(** The steps that move the hold in effect from [have] to [want]. *)
Definition holdSteps (node : SeiNode) (want have : MaintenanceHold) : list planStep :=
  match want, have with
  | HoldImmediate, _ =>
      [(taskTypeMarkNotReady, MarkNotReadyTask);
       (taskTypeStopSeid, StopSeidTask (Some (UpCheckForNode node)))]
  | HoldAfterExit, HoldImmediate =>
      [observeStep node; (TaskTypeStartSeidOnce, MarkReadyTask);
       (TaskTypeAwaitSeidStart, AwaitSeidStartTask); (taskTypeMarkNotReady, MarkNotReadyTask)]
  | HoldAfterExit, _ => [(taskTypeMarkNotReady, MarkNotReadyTask)]
  | HoldNone, _ => [observeStep node; (TaskMarkReady, MarkReadyTask)]
  end.

Definition buildHoldPlan (planID : string) (node : SeiNode) (want have : MaintenanceHold)
    : option TaskPlan :=
  let go want have := Some (assembleSteps planID (holdSteps node want have ++ [recordHoldStep want])) in
  if bool_decide (want <> HoldNone) && bool_decide (have <> HoldNone) && sidecarGateOpen node
  then go have HoldNone
  else if bool_decide (want = have) then None
  else go want have.

Definition parkInsteadOfRelease (plan : TaskPlan) : result TaskPlan :=
  let bad := Err ("plan " +:+ pl_ID plan +:+ " does not end in " +:+ TaskMarkReady +:+ "; cannot park it") in
  match last (pl_Tasks plan) with
  | None => bad
  | Some t =>
      if pt_Type t <>s TaskMarkReady then bad
      else
        let i := pred (length (pl_Tasks plan)) in
        let step := recordHoldStep HoldImmediate in
        Ok (plan_set_task plan i (buildPlannedTask (pl_ID plan) step.1 i step.2))
  end.

Definition clearHoldAfterRelease (plan : TaskPlan) : result TaskPlan :=
  let bad := Err ("plan " +:+ pl_ID plan +:+ " does not end in " +:+ TaskMarkReady +:+ "; cannot release from it") in
  match last (pl_Tasks plan) with
  | None => bad
  | Some t =>
      if pt_Type t <>s TaskMarkReady then bad
      else
        let step := recordHoldStep HoldNone in
        Ok (plan_with_tasks plan
              (pl_Tasks plan ++ [buildPlannedTask (pl_ID plan) step.1 (length (pl_Tasks plan)) step.2]))
  end.

Definition withoutMarkReady (plan : TaskPlan) : TaskPlan :=
  plan_with_tasks plan (List.filter (fun t => pt_Type t <>s TaskMarkReady) (pl_Tasks plan)).

Definition setMaintenanceCondition (status : ConditionStatus) (reason message : string)
    (node : SeiNode) : SeiNode :=
  set_node_cond ConditionMaintenanceInProgress status reason message node.

Definition ResolveMaintenance (node : SeiNode) : SeiNode :=
  match sp_NodeConfig (n_Spec node) with
  | None =>
      setMaintenanceCondition ConditionFalse ReasonMaintenanceNotApplicable
        "spec.nodeConfig is not set; the maintenance hold applies only to ConfigMap-configured nodes" node
  | Some _ =>
      let want := HoldRequested (n_Spec node) in
      let have := st_MaintenanceHold (n_Status node) in
      let plan := st_Plan (n_Status node) in
      let active := match plan with Some p => bool_decide (pl_Phase p = TaskPlanActive) | None => false end in
      if isMaintenancePlan plan && active then
        setMaintenanceCondition ConditionTrue ReasonHoldPending
          ("hold plan running; requested: " +:+ holdOrNone want +:+ ", in effect: " +:+ holdOrNone have) node
      else if bool_decide (want = HoldNone) && bool_decide (have = HoldNone) then
        setMaintenanceCondition ConditionFalse ReasonNotHeld "no maintenance hold" node
      else if bool_decide (want <> have) then
        setMaintenanceCondition ConditionTrue ReasonHoldPending
          (if bool_decide (want = HoldNone)
           then "hold " +:+ hold_string have +:+ " in effect; release pending"
           else "hold " +:+ holdOrNone want +:+ " requested; in effect: " +:+ holdOrNone have) node
      else if sidecarGateOpen node then
        setMaintenanceCondition ConditionTrue ReasonHoldPending
          ("hold " +:+ hold_string want +:+ " in effect but the start gate is open; closing it") node
      else
        setMaintenanceCondition ConditionTrue
          (if bool_decide (have = HoldAfterExit) then ReasonArmed else ReasonHeld)
          ("hold " +:+ hold_string have +:+ " in effect") node
  end.

(** ** The declarative data reset *)
Definition dataResetSteps (node : SeiNode) : list planStep :=
  [observeStep node; (taskTypeMarkNotReady, MarkNotReadyTask);
   (taskTypeStopSeid, StopSeidTask (Some (UpCheckForNode node)));
   (TaskTypeResetDataKeepSignState, ResetDataKeepSignStateTask);
   (TaskTypeRecordDataReset, RecordDataResetParams (sp_DataResetGeneration (n_Spec node)));
   (TaskMarkReady, MarkReadyTask)].

Definition set_MaxRetries (m : Z) (t : PlannedTask) : PlannedTask :=
  mkPlannedTask (pt_Type t) (pt_ID t) (pt_Status t) (pt_Params t) (pt_SubmittedAt t) (pt_Error t)
    m (pt_RetryCount t).

Definition buildDataResetPlan (planID : string) (node : SeiNode) : TaskPlan :=
  mkTaskPlan planID TaskPlanActive
    (imap (fun i s =>
             let t := buildPlannedTask planID s.1 i s.2 in
             if s.1 =s TaskTypeResetDataKeepSignState then set_MaxRetries dataResetMaxRetries t else t)
          (dataResetSteps node))
    PhaseRunning "" PhaseNone None None.

Definition setDataResetCondition (status : ConditionStatus) (reason message : string)
    (node : SeiNode) : SeiNode :=
  set_node_cond ConditionDataResetInProgress status reason message node.

Definition dataResetReason (node : SeiNode) : string := cond_reason node ConditionDataResetInProgress.

Definition dataResetRunningMessage (node : SeiNode) : string :=
  "resetting data for dataResetGeneration=" +:+ pretty (sp_DataResetGeneration (n_Spec node)).

Definition markDataResetStarted (node : SeiNode) : SeiNode :=
  if dataResetReason node =s ReasonResetFailed then node
  else setDataResetCondition ConditionTrue ReasonResetRunning (dataResetRunningMessage node) node.

Definition ResolveDataReset (node : SeiNode) : SeiNode :=
  match sp_NodeConfig (n_Spec node) with
  | None =>
      setDataResetCondition ConditionFalse ReasonDataResetNotApplicable
        "spec.nodeConfig is not set; the declarative data reset applies only to ConfigMap-configured nodes" node
  | Some _ =>
      let node :=
        if bool_decide (st_Phase (n_Status node) <> PhaseRunning) &&
           (st_DataResetGeneration (n_Status node) <? sp_DataResetGeneration (n_Spec node))%Z
        then upd_status (set_DataResetGeneration (sp_DataResetGeneration (n_Spec node))) node
        else node in
      let reason := dataResetReason node in
      if isDataResetPlan (st_Plan (n_Status node)) then node
      else if negb (DataResetPending node) then
        if reason <>s ReasonResetComplete then
          setDataResetCondition ConditionFalse ReasonNoResetRequested
            ("no data reset requested (dataResetGeneration=" +:+
             pretty (st_DataResetGeneration (n_Status node)) +:+ ")") node
        else node
      else if reason =s ReasonResetFailed then node
      else
        setDataResetCondition ConditionTrue ReasonResetPending
          ("data reset pending for dataResetGeneration=" +:+ pretty (sp_DataResetGeneration (n_Spec node)) +:+
           " (handled " +:+ pretty (st_DataResetGeneration (n_Status node)) +:+ ")") node
  end.

Definition observeTerminalDataResetPlan (plan : TaskPlan) (node : SeiNode) : SeiNode :=
  if negb (isDataResetPlan (Some plan)) then node
  else match pl_Phase plan with
  | TaskPlanActive => node
  | TaskPlanComplete =>
      setDataResetCondition ConditionFalse ReasonResetComplete
        ("data reset complete for dataResetGeneration=" +:+
         pretty (st_DataResetGeneration (n_Status node))) node
  | TaskPlanFailed =>
      if startDeferred plan then
        if DataResetPending node then
          setDataResetCondition ConditionTrue ReasonResetPending
            ("data reset recorded for dataResetGeneration=" +:+
             pretty (st_DataResetGeneration (n_Status node)) +:+ "; reset for " +:+
             pretty (sp_DataResetGeneration (n_Spec node)) +:+ " pending") node
        else
          setDataResetCondition ConditionFalse ReasonResetComplete
            ("data reset complete for dataResetGeneration=" +:+
             pretty (st_DataResetGeneration (n_Status node)) +:+ "; start deferred: " +:+
             match pl_FailedTaskDetail plan with Some d => fi_Error d | None => "" end) node
      else
        setDataResetCondition ConditionTrue ReasonResetFailed
          ("data reset for dataResetGeneration=" +:+ pretty (sp_DataResetGeneration (n_Spec node)) +:+
           " failed, seid stays held and the controller retries: " +:+ planFailureMessage plan) node
  end.

(** ** The static-config planner *)
Definition assembleStaticUpdatePlan (planID : string) (node : SeiNode) (prog : list string)
    : result TaskPlan * SeiNode :=
  record_build_error
    (Ok (mkTaskPlan planID TaskPlanActive
           (buildTasks planID (fun ty => paramsForUpdateTask node ty []) prog)
           PhaseRunning "" PhaseNone None None)) node.

Definition static_buildUpdatePlan (planID : string) (node : SeiNode) : result TaskPlan * SeiNode :=
  assembleStaticUpdatePlan planID node
    (key_gates node ++ [TaskTypeApplyStatefulSet; TaskTypeApplyService; TaskTypeObserveImage; TaskMarkReady]).

Definition static_buildRunningPlan (platform : PlatformConfig) (planID : string) (node : SeiNode) : build :=
  let held := bool_decide (HoldRequested (n_Spec node) <> HoldNone) in
  if DataResetPending node then
    let plan := buildDataResetPlan planID node in
    let r := if held then parkInsteadOfRelease plan
             else if bool_decide (st_MaintenanceHold (n_Status node) <> HoldNone)
                  then clearHoldAfterRelease plan
             else Ok plan in
    match r with
    | Err e => (Err e, node)
    | Ok plan => (Ok (Some plan), markDataResetStarted node)
    end
  else match buildHoldPlan planID node (HoldRequested (n_Spec node)) (st_MaintenanceHold (n_Status node)) with
  | Some plan => (Ok (Some plan), node)
  | None =>
      if podTemplateDrifted node platform then
        match static_buildUpdatePlan planID node with
        | (Err e, node) => (Err e, node)
        | (Ok plan, node) =>
            (Ok (Some (if held then withoutMarkReady plan else plan)),
             setNodeUpdateCondition ConditionTrue "UpdateStarted" (podTemplateDriftMessage node platform) node)
        end
      else if sidecarNeedsReapproval node && negb held
      then (Ok (Some (buildMarkReadyPlan planID node)), node)
      else (Ok None, node)
  end.

Definition static_BuildPlan (base : NodePlanner) (platform : PlatformConfig) (planID : string)
    (node : SeiNode) : build :=
  if is_Running node then static_buildRunningPlan platform planID node
  else match np_BuildPlan base planID node with
  | (Ok (Some plan), node') =>
      if bool_decide (HoldRequested (n_Spec node') = HoldNone) then (Ok (Some plan), node')
      else (Some <$> parkInsteadOfRelease plan, node')
  | r => r
  end.

Definition staticConfigPlanner (base : NodePlanner) (platform : PlatformConfig) : NodePlanner :=
  mkNodePlanner (np_Mode base) (np_Validate base) (static_BuildPlan base platform).

Definition plannerFor (platform : PlatformConfig) (node : SeiNode) : result NodePlanner :=
  mode ← plannerForMode platform node;
  if negb (MountsNodeConfig node) then Ok mode else Ok (staticConfigPlanner mode platform).

End StaticConfig.

(** ** What the static-config planner builds *)
Section StaticFacts.
Context {C : SeiConfig} {H : Hashes} {SC : StatusConditions}.

Lemma assembleSteps_types planID steps :
  pt_Type <$> pl_Tasks (assembleSteps planID steps) = fst <$> steps.
Proof. apply (imap_types planID fst snd). Qed.

Lemma assembleSteps_mode_plan planID steps : mode_plan planID true (assembleSteps planID steps).
Proof. split_and!; try done. apply (imap_indexed planID fst snd). Qed.

Lemma buildDataResetPlan_types planID node :
  pt_Type <$> pl_Tasks (buildDataResetPlan planID node) = fst <$> dataResetSteps node.
Proof. done. Qed.

Lemma buildDataResetPlan_mode_plan planID node : mode_plan planID true (buildDataResetPlan planID node).
Proof.
  split_and!; try done. intros i t. simpl.
  do 6 (destruct i as [|i]; [intros [= <-]; done|]). by destruct i.
Qed.

Lemma last_snoc_split (ts : list PlannedTask) t :
  last ts = Some t -> exists front, ts = front ++ [t].
Proof. intros Hl. by apply last_Some in Hl. Qed.

(** Parking replaces the trailing mark-ready by the record of the hold. *)
Lemma parkInsteadOfRelease_spec planID running p p' :
  mode_plan planID running p -> parkInsteadOfRelease p = Ok p' ->
  mode_plan planID running p' /\
  exists front, pt_Type <$> pl_Tasks p = front ++ [TaskMarkReady] /\
    pt_Type <$> pl_Tasks p' = front ++ [TaskTypeRecordMaintenanceHold].
Proof.
  intros (Hid & Hph & Hi & Ht & Hf). unfold parkInsteadOfRelease.
  destruct (last (pl_Tasks p)) as [t|] eqn:El; [|done].
  destruct (last_snoc_split _ _ El) as [front Hp].
  destruct (pt_Type t =s TaskMarkReady) eqn:Ety; simpl; [|done].
  apply String.eqb_eq in Ety. intros [= <-].
  assert (Hset : pl_Tasks (plan_set_task p (pred (length (pl_Tasks p)))
      (buildPlannedTask (pl_ID p) TaskTypeRecordMaintenanceHold (pred (length (pl_Tasks p)))
         (RecordMaintenanceHoldParams HoldImmediate))) =
    front ++ [buildPlannedTask planID TaskTypeRecordMaintenanceHold (length front)
                (RecordMaintenanceHoldParams HoldImmediate)]).
  { simpl. rewrite Hp, length_app, Hid. simpl.
    replace (pred (length front + 1)) with (length front) by lia.
    by rewrite insert_middle. }
  split.
  - split_and!; [done|done| |done|done]. rewrite Hset. apply indexed_snoc; [|done|done].
    intros i u Hu. apply Hi. rewrite Hp. by apply lookup_app_l_Some.
  - exists (pt_Type <$> front). rewrite Hset, Hp, !fmap_app. simpl. by rewrite Ety.
Qed.

Lemma clearHoldAfterRelease_spec planID running p p' :
  mode_plan planID running p -> clearHoldAfterRelease p = Ok p' ->
  mode_plan planID running p' /\
  pt_Type <$> pl_Tasks p' = (pt_Type <$> pl_Tasks p) ++ [TaskTypeRecordMaintenanceHold].
Proof.
  intros (Hid & Hph & Hi & Ht & Hf). unfold clearHoldAfterRelease.
  destruct (last (pl_Tasks p)) as [t|]; [|done].
  destruct (negb _); [done|]. intros [= <-]. simpl. rewrite fmap_app. split; [|done].
  split_and!; [done|done| |done|done]. simpl. rewrite Hid. by apply indexed_snoc.
Qed.

(** ** The sequence of a Running static-config node, by what it asks for *)

(** The tasks that move the hold in effect. *)
Definition move_hold (want have : MaintenanceHold) : list string :=
  match want, have with
  | HoldImmediate, _ => [taskTypeMarkNotReady; taskTypeStopSeid]
  | HoldAfterExit, HoldImmediate =>
      [TaskTypeObserveImage; TaskTypeStartSeidOnce; TaskTypeAwaitSeidStart; taskTypeMarkNotReady]
  | HoldAfterExit, _ => [taskTypeMarkNotReady]
  | HoldNone, _ => [TaskTypeObserveImage; TaskMarkReady]
  end ++ [TaskTypeRecordMaintenanceHold].

Definition hold_sequence (node : SeiNode) (want have : MaintenanceHold) : option (list string) :=
  if bool_decide (want <> HoldNone) && bool_decide (have <> HoldNone) && sidecarGateOpen node
  then Some (move_hold have HoldNone)
  else if bool_decide (want = have) then None
  else Some (move_hold want have).

Definition running_sequence (platform : PlatformConfig) (node : SeiNode) : option (list string) :=
  let want := HoldRequested (n_Spec node) in
  let have := st_MaintenanceHold (n_Status node) in
  let held := bool_decide (want <> HoldNone) in
  if DataResetPending node then
    Some ([TaskTypeObserveImage; taskTypeMarkNotReady; taskTypeStopSeid; TaskTypeResetDataKeepSignState;
           TaskTypeRecordDataReset] ++
          if held then [TaskTypeRecordMaintenanceHold]
          else [TaskMarkReady] ++
               if bool_decide (have <> HoldNone) then [TaskTypeRecordMaintenanceHold] else [])
  else match hold_sequence node want have with
  | Some seq => Some seq
  | None =>
      if podTemplateDrifted node platform then
        Some (key_gates node ++ [TaskTypeApplyStatefulSet; TaskTypeApplyService; TaskTypeObserveImage] ++
              if held then [] else [TaskMarkReady])
      else if sidecarNeedsReapproval node && negb held then Some [TaskMarkReady]
      else None
  end.

Lemma buildHoldPlan_types planID node want have :
  (fun p => pt_Type <$> pl_Tasks p) <$> buildHoldPlan planID node want have =
  hold_sequence node want have.
Proof.
  unfold buildHoldPlan, hold_sequence. repeat case_match; try done; apply (f_equal Some);
    rewrite assembleSteps_types; by destruct want, have.
Qed.

Lemma buildHoldPlan_mode_plan planID node want have p :
  buildHoldPlan planID node want have = Some p -> mode_plan planID true p.
Proof.
  unfold buildHoldPlan. repeat case_match; intros [= <-]; apply assembleSteps_mode_plan.
Qed.

Lemma key_gates_no_mark_ready node : TaskMarkReady ∉ key_gates node.
Proof. unfold key_gates. repeat case_match; set_solver. Qed.

Lemma filter_types (f : string -> bool) (ts : list PlannedTask) :
  pt_Type <$> List.filter (fun t => f (pt_Type t)) ts = List.filter f (pt_Type <$> ts).
Proof.
  induction ts as [|t ts IH]; [done|]. rewrite fmap_cons. cbn [List.filter].
  destruct (f (pt_Type t)); [rewrite fmap_cons|]; by rewrite IH.
Qed.

Lemma filter_no_mark_ready l :
  TaskMarkReady ∉ l -> List.filter (fun ty => ty <>s TaskMarkReady) l = l.
Proof.
  induction l as [|x l IH]; intros Hn; simpl; [done|].
  destruct (x =s TaskMarkReady) eqn:E; simpl.
  - apply String.eqb_eq in E as ->. set_solver.
  - by rewrite IH by set_solver.
Qed.

(** The types of the plan [static_buildRunningPlan] returns; it never fails. *)
Lemma static_running_types platform planID node :
  exists node', conds_only node node' /\
  match running_sequence platform node with
  | Some seq => exists p, static_buildRunningPlan platform planID node = (Ok (Some p), node') /\
      pt_Type <$> pl_Tasks p = seq
  | None => static_buildRunningPlan platform planID node = (Ok None, node')
  end.
Proof.
  unfold running_sequence, static_buildRunningPlan.
  destruct (DataResetPending node).
  { exists (markDataResetStarted node). split.
    - unfold markDataResetStarted, setDataResetCondition. case_match; auto with sei.
    - case_bool_decide; [eexists; split; reflexivity|].
      case_bool_decide; eexists; split; reflexivity. }
  rewrite <- (buildHoldPlan_types planID).
  destruct (buildHoldPlan planID node _ _) as [p|]; simpl.
  { exists node. split; [apply conds_only_refl|]. by exists p. }
  destruct (podTemplateDrifted node platform).
  - eexists. split; [apply conds_only_set|]. simpl. eexists. split; [reflexivity|].
    case_bool_decide; simpl.
    + rewrite (filter_types (fun ty => ty <>s TaskMarkReady)), buildTasks_types, List.filter_app.
      rewrite filter_no_mark_ready by apply key_gates_no_mark_ready. simpl. by rewrite ?app_nil_r.
    + by rewrite buildTasks_types.
  - exists node. split; [apply conds_only_refl|].
    destruct (sidecarNeedsReapproval node); simpl; [|done].
    case_bool_decide; simpl; [done|]. eexists. split; reflexivity.
Qed.

End StaticFacts.

(** ** Laws: what [plannerFor] returns builds *)
Section StaticLaws.
Context {C : SeiConfig} {H : Hashes} {HL : HashesLaws H} {SC : StatusConditions}.

Definition good_plan (planID : string) (running : bool) (p : TaskPlan) : Prop :=
  built planID p /\ pl_TargetPhase p = PhaseRunning /\
  pl_FailedPhase p = (if running then PhaseNone else PhaseFailed).

Class PlannerLaws (np : NodePlanner) : Prop :=
  planner_lawful : forall planID node,
    conds_only node (np_BuildPlan np planID node).2 /\
    (forall p, (np_BuildPlan np planID node).1 = Ok (Some p) -> good_plan planID (is_Running node) p).

Lemma mode_plan_good planID running p : mode_plan planID running p -> good_plan planID running p.
Proof. intros (? & ? & ? & ? & ?). split; [by apply indexed_built|done]. Qed.

#[export] Instance mode_planner_laws np : ModePlannerLaws np -> PlannerLaws np.
Proof.
  intros L planID node. destruct (L planID node) as [Hc Hp]. split; [done|].
  intros p Hq. by apply mode_plan_good, Hp.
Qed.

Lemma withoutMarkReady_good planID running p :
  good_plan planID running p -> good_plan planID running (withoutMarkReady p).
Proof.
  intros ((Hid & [Hph Hf] & Hd) & Ht & Hfp).
  assert (Hsub : sublist (pl_Tasks (withoutMarkReady p)) (pl_Tasks p)).
  { simpl. clear. induction (pl_Tasks p) as [|t ts IH]; simpl; [constructor|].
    destruct (negb _); by constructor. }
  split; [|done]. split; [done|]. split; [split; [done|]|].
  - rewrite Forall_forall in *. intros t Hin. apply Hf.
    by eapply elem_of_sublist in Hin.
  - unfold ids_distinct in *. eapply sublist_NoDup; [exact Hd|]. by apply fmap_sublist.
Qed.

Lemma static_running_good platform planID node p node' :
  static_buildRunningPlan platform planID node = (Ok (Some p), node') -> good_plan planID true p.
Proof.
  unfold static_buildRunningPlan. destruct (DataResetPending node).
  { pose proof (buildDataResetPlan_mode_plan planID node) as Hm.
    case_bool_decide; [|case_bool_decide].
    - destruct (parkInsteadOfRelease _) eqn:E; intros [= <- _].
      by eapply mode_plan_good, parkInsteadOfRelease_spec.
    - destruct (clearHoldAfterRelease _) eqn:E; intros [= <- _].
      by eapply mode_plan_good, clearHoldAfterRelease_spec.
    - intros [= <- _]. by apply mode_plan_good. }
  destruct (buildHoldPlan planID node _ _) as [q|] eqn:Eh.
  { intros [= <- _]. by eapply mode_plan_good, buildHoldPlan_mode_plan. }
  destruct (podTemplateDrifted node platform).
  - simpl. intros [= <- _].
    assert (Hg : good_plan planID true
      (mkTaskPlan planID TaskPlanActive
         (buildTasks planID (fun ty => paramsForUpdateTask node ty [])
            (key_gates node ++ [TaskTypeApplyStatefulSet; TaskTypeApplyService; TaskTypeObserveImage; TaskMarkReady]))
         PhaseRunning "" PhaseNone None None)).
    { apply mode_plan_good. split_and!; try done. apply buildTasks_indexed. }
    case_bool_decide; [by apply withoutMarkReady_good|done].
  - destruct (_ && _); [|done]. intros [= <- _].
    apply mode_plan_good. split_and!; try done.
    apply (buildTasks_indexed planID (fun ty => paramsForTaskType node ty None None) [TaskMarkReady]).
Qed.

#[export] Instance static_planner_laws base platform :
  ModePlannerLaws base -> PlannerLaws (staticConfigPlanner base platform).
Proof.
  intros L planID node. simpl. unfold static_BuildPlan. destruct (is_Running node) eqn:Hr.
  - split.
    + destruct (static_running_types platform planID node) as (node' & Hc & Hm).
      destruct (running_sequence platform node); [destruct Hm as (p & -> & _)|rewrite Hm]; done.
    + intros p Hp. destruct (static_buildRunningPlan platform planID node) as [r node'] eqn:E.
      simpl in Hp. subst r. by eapply static_running_good.
  - destruct (L planID node) as [Hc Hp].
    destruct (np_BuildPlan base planID node) as [[[q|]|] node'] eqn:E; simpl in *; try done.
    specialize (Hp q eq_refl). rewrite Hr in Hp.
    case_bool_decide; simpl; (split; [done|]).
    + intros p [= <-]. by apply mode_plan_good.
    + destruct (parkInsteadOfRelease q) eqn:Eq; simpl; [|done]. intros p [= <-].
      by eapply mode_plan_good, parkInsteadOfRelease_spec.
Qed.

Lemma plannerFor_laws platform node np : plannerFor platform node = Ok np -> PlannerLaws np.
Proof.
  unfold plannerFor. destruct (plannerForMode platform node) as [m|] eqn:E; simpl; [|done].
  apply plannerForMode_laws in E. destruct (negb _); intros [= <-]; apply _.
Qed.

End StaticLaws.

(** ** Running these plans *)
Section Effects.
Context {W : Type} (API : SidecarAPI W) (K : KubeAPI W).
Context (libs : ClientLibs) (platform : PlatformConfig).
Context (Other : TaskRuntime W).
Abbreviation RT := (@task_runtime libs _ API K platform Other).
Implicit Types P : Object -> Prop.

(** A sidecar-backed task does not touch the owner. *)
Lemma sidecar_respects P ty zero :
  zero_params ty = Some zero -> ty <> TaskMarkReady ->
  @respects _ RT (fun o _ => P o) ty.
Proof.
  intros Hz Hne id ps o w ex HP Hd.
  assert (Hex : exists e, ex = ExSidecar Other e).
  { revert Hd. simpl. unfold task_Deserialize.
    assert (Hn : forall x, zero_params x = None -> (ty =s x) = false).
    { intros x Hx. apply String.eqb_neq. intros ->. congruence. }
    apply String.eqb_neq in Hne. rewrite Hne, !Hn, Hz by reflexivity.
    intros [= <-]. by eexists. }
  destruct Hex as [e ->]. simpl.
  split; [|intros err ex' o' w' He; destruct (sidecar_Execute _ e w) as [[? ?] ?]; simplify_eq; split; [done|]];
    intros st ex'' o'' w'' Hs; simpl in Hs; destruct (sidecar_Status _ _); by simplify_eq.
Qed.

(** Nor does a start-guarded one. *)
Lemma guarded_respects P ty :
  ty = TaskMarkReady \/ ty = TaskTypeStartSeidOnce -> @respects _ RT (fun o _ => P o) ty.
Proof.
  intros Hty id ps o w ex HP Hd.
  assert (Hex : (exists e, ex = ExSidecar Other e) \/ (exists e, ex = ExGuarded Other e)).
  { destruct Hty as [-> | ->]; destruct o; injection Hd as <-; eauto. }
  destruct Hex as [[e ->]|[e ->]]; simpl;
    (split; [|intros err ex' o' w' He]).
  - intros st ex'' o'' w'' Hs; destruct (sidecar_Status _ _); by simplify_eq.
  - destruct (sidecar_Execute _ e w) as [[? ?] ?]; simplify_eq; split; [done|].
    intros st ex'' o'' w'' Hs; simpl in Hs; destruct (sidecar_Status _ _); by simplify_eq.
  - intros st ex'' o'' w'' Hs; destruct (guarded_Status _ _); by simplify_eq.
  - assert (o' = o /\ exists e', ex' = ExGuarded Other e') as [-> [e' ->]].
    { destruct o as [n| |]; [destruct (guarded_Execute _ e n w) as [[? ?] ?]|..]; simplify_eq; eauto. }
    split; [done|]. intros st ex'' o'' w'' Hs; simpl in Hs; destruct (guarded_Status _ _); by simplify_eq.
Qed.

Lemma observe_respects P :
  (forall n img sc iso pool, P (ObjNode n) ->
     P (ObjNode (upd_status (set_Observed img sc iso pool) n))) ->
  @respects _ RT (fun o _ => P o) TaskTypeObserveImage.
Proof.
  intros Hobs id ps o w ex HP Hd. simpl in Hd. injection Hd as <-. simpl.
  split; [intros st ex' o' w' Hs; by simplify_eq|].
  intros err ex' o' w' He. unfold observeImage_Execute in He.
  assert (P o' /\ exists b, ex' = ExObserveImage Other b) as [HP' [b ->]].
  { destruct o as [n| |]; simpl in He; repeat case_match; simplify_eq; eauto. }
  split; [done|]. intros st ex'' o'' w'' Hs. by simplify_eq/=.
Qed.

Lemma record_hold_respects P :
  (forall n h, P (ObjNode n) -> P (ObjNode (upd_status (set_MaintenanceHold h) n))) ->
  @respects _ RT (fun o _ => P o) TaskTypeRecordMaintenanceHold.
Proof.
  intros Hrec id ps o w ex HP Hd. simpl in Hd. injection Hd as <-. simpl.
  split; [intros st ex' o' w' Hs; by simplify_eq|].
  intros err ex' o' w' He. unfold recordMaintenanceHold_Execute in He.
  destruct o as [n| |]; simpl in He; simplify_eq; (split; [by auto|]);
    intros st ex'' o'' w'' Hs; simplify_eq/=; by auto.
Qed.

(** The property a record-maintenance-hold establishes. *)
Definition hold_is (h : MaintenanceHold) (o : Object) : Prop :=
  match o with ObjNode n => st_MaintenanceHold (n_Status n) = h | _ => False end.

Lemma hold_is_ended h o o' : hold_is h o -> ended o o' -> hold_is h o'.
Proof. destruct o, o'; simpl; try done. intros <- He. apply He. Qed.

Lemma record_hold_establishes h id o w ex ex' o' w' ex'' o'' w'' :
  @Deserialize _ RT TaskTypeRecordMaintenanceHold id (Some (RecordMaintenanceHoldParams h)) o = Ok ex ->
  Execute ex o w = (None, ex', o', w') -> Status ex' o' w' = (ExecutionComplete, ex'', o'', w'') ->
  hold_is h o''.
Proof.
  simpl. intros [= <-]. simpl. unfold recordMaintenanceHold_Execute.
  destruct o as [n| |]; simpl; intros [= <- <- <-]; intros Hs; by simplify_eq/=.
Qed.

(** The property a record-data-reset establishes. *)
Definition reset_done (g : Z) (o : Object) : Prop :=
  match o with ObjNode n => (g <= st_DataResetGeneration (n_Status n))%Z | _ => False end.

Lemma reset_done_ended g o o' : reset_done g o -> ended o o' -> reset_done g o'.
Proof.
  destruct o, o'; simpl; try done. intros ? (_ & _ & _ & _ & _ & _ & _ & _ & _ & _ & -> & _). done.
Qed.

Lemma record_reset_establishes g id o w ex ex' o' w' ex'' o'' w'' :
  @Deserialize _ RT TaskTypeRecordDataReset id (Some (RecordDataResetParams g)) o = Ok ex ->
  Execute ex o w = (None, ex', o', w') -> Status ex' o' w' = (ExecutionComplete, ex'', o'', w'') ->
  reset_done g o''.
Proof.
  simpl. intros [= <-]. simpl. unfold recordDataReset_Execute.
  destruct o as [n| |]; simpl; intros [= <- <- <-]; intros Hs; simplify_eq/=.
  destruct (Z.ltb_spec (st_DataResetGeneration (n_Status n)) g); simpl; lia.
Qed.

End Effects.

(** ** An abstract view of the start gate

    What the task types do to the pod, as far as a wipe is concerned: the gate
    (may seid start), seid (is it up) and whether data was ever wiped while seid
    was up or free to start. While the gate is open seid may come up at any
    time. *)
Record pod_view := mkPodView { gate_open : bool; seid_up : bool; wiped_live : bool }.

Definition wipes (ty : string) : bool :=
  (ty =s TaskTypeResetDataKeepSignState) || (ty =s taskTypeResetData).

Definition task_effect (ty : string) (v : pod_view) : pod_view :=
  if (ty =s TaskMarkReady) || (ty =s TaskTypeStartSeidOnce) then mkPodView true true (wiped_live v)
  else if ty =s taskTypeMarkNotReady then mkPodView false (seid_up v) (wiped_live v)
  else if ty =s taskTypeStopSeid then mkPodView (gate_open v) (gate_open v) (wiped_live v)
  else if wipes ty then
    mkPodView (gate_open v) (seid_up v) (wiped_live v || gate_open v || seid_up v)
  else mkPodView (gate_open v) (seid_up v || gate_open v) (wiped_live v).

Definition run_view (types : list string) (v : pod_view) : pod_view :=
  fold_left (fun v ty => task_effect ty v) types v.

(** The task types of a plan. *)
Definition types_of (p : TaskPlan) : list string := pt_Type <$> pl_Tasks p.

Lemma key_gates_types node :
  Forall (fun ty => mem ty [TaskTypeValidateSigningKey; TaskTypeValidateNodeKey; TaskTypeValidateOperatorKeyring] = true)
    (key_gates node).
Proof. unfold key_gates. repeat case_match; repeat constructor. Qed.

Lemma run_view_gates node v :
  run_view (key_gates node) v = mkPodView (gate_open v) (seid_up v || (bool_decide (key_gates node <> []) && gate_open v)) (wiped_live v).
Proof.
  unfold key_gates. destruct v as [g u w]. repeat case_match; simpl; by destruct g, u.
Qed.

Lemma run_view_app a b v : run_view (a ++ b) v = run_view b (run_view a v).
Proof. apply fold_left_app. Qed.

(** ** Claims *)
Section StaticClaims.
Context {C : SeiConfig} {H : Hashes} {SC : StatusConditions}.

(** Every sequence of a Running node, on the abstract pod. *)
Lemma running_sequence_view platform node seq v :
  running_sequence platform node = Some seq -> wiped_live v = false ->
  wiped_live (run_view seq v) = false /\
  (HoldRequested (n_Spec node) <> HoldNone ->
     (TaskMarkReady ∉ seq) /\
     (gate_open v = false \/ (TaskTypeRecordMaintenanceHold ∈ seq) -> gate_open (run_view seq v) = false)).
Proof.
  unfold running_sequence, hold_sequence. intros Hseq Hv. destruct v as [g u wl]. simpl in Hv. subst wl.
  destruct (DataResetPending node).
  { case_bool_decide as Hh; injection Hseq as <-.
    - split; [done|]. intros _. split; [by_decide|done].
    - split; [by destruct (bool_decide _)|done]. }
  revert Hseq. destruct (HoldRequested (n_Spec node)) eqn:Ew, (st_MaintenanceHold (n_Status node)) eqn:Eh;
    simpl; try (destruct (sidecarGateOpen node)); simpl;
    try (intros [= <-]; split; [done|intros ?; split; [first [done|by_decide]|by destruct g]]).
  all: destruct (podTemplateDrifted node platform);
    [|destruct (sidecarNeedsReapproval node); simpl; intros [= <-]; by split].
  all: intros [= <-]; rewrite run_view_app, run_view_gates; simpl; split; [done|]; intros ?; try done.
  all: split; [rewrite elem_of_app; intros [Hin|Hin]; [by apply key_gates_no_mark_ready in Hin|];
               revert Hin; by_decide|].
  all: intros [-> |Hin]; [done|]; exfalso; apply elem_of_app in Hin as [Hin|Hin]; [|revert Hin; by_decide].
  all: pose proof (key_gates_types node) as Hk; rewrite Forall_forall in Hk; by specialize (Hk _ Hin).
Qed.

(** The hold a plan of [buildHoldPlan] puts in effect: the requested one, or,
    when the gate is found open under a hold, the one already in effect. *)
Definition hold_target (node : SeiNode) (want have : MaintenanceHold) : MaintenanceHold :=
  if bool_decide (want <> HoldNone) && bool_decide (have <> HoldNone) && sidecarGateOpen node
  then have else want.

Lemma assembleSteps_lookup planID (steps : list planStep) i (s : planStep) :
  steps !! i = Some s ->
  pl_Tasks (assembleSteps planID steps) !! i = Some (buildPlannedTask planID s.1 i s.2).
Proof.
  intros Hi.
  pose proof (list_lookup_imap (fun i (s : planStep) => buildPlannedTask planID s.1 i s.2) steps i) as E.
  rewrite Hi in E. exact E.
Qed.

(** The types of the steps before the record, each of which leaves the owner's
    hold alone. *)
Lemma holdSteps_stable {W} (API : SidecarAPI W) (K : KubeAPI W) VI platform (Other : TaskRuntime W)
    h node want have i ty :
  (fst <$> holdSteps node want have) !! i = Some ty ->
  @respects _ (@task_runtime VI _ API K platform Other) (fun o _ => hold_is h o) ty.
Proof.
  intros Hi. apply list_elem_of_lookup_2 in Hi.
  assert (Hty : ty ∈ [TaskTypeObserveImage; TaskMarkReady; TaskTypeStartSeidOnce; taskTypeMarkNotReady;
                      taskTypeStopSeid; TaskTypeAwaitSeidStart]) by (destruct want, have; set_solver).
  repeat (apply elem_of_cons in Hty as [->|Hty]); [..|by apply elem_of_nil in Hty].
  - apply observe_respects. done.
  - apply guarded_respects. by left.
  - apply guarded_respects. by right.
  - by eapply sidecar_respects.
  - by eapply sidecar_respects.
  - by eapply sidecar_respects.
Qed.

Lemma buildHoldPlan_shape planID node want have p :
  buildHoldPlan planID node want have = Some p ->
  exists steps, p = assembleSteps planID (steps ++ [recordHoldStep (hold_target node want have)]) /\
    exists a b, steps = holdSteps node a b.
Proof.
  unfold buildHoldPlan, hold_target. intros Hp.
  destruct (bool_decide (want <> HoldNone) && bool_decide (have <> HoldNone) && sidecarGateOpen node).
  - injection Hp as <-. eauto.
  - case_bool_decide; [done|]. injection Hp as <-. eauto.
Qed.

(** Property: A completed hold plan puts the hold in effect. Run by the executor with
    the real tasks, over any number of reconciles and whatever the sidecar and
    the cluster do, a hold plan that ends Complete leaves status.maintenanceHold
    at its target; and once the target is the requested hold and the gate is not
    found open under a hold, no further hold plan is built. *)
Theorem hold_plan_takes_effect {W} (API : SidecarAPI W) (K : KubeAPI W) libs platform
    (Other : TaskRuntime W) planID now m node o want have p w g s' :
  buildHoldPlan planID node want have = Some p ->
  @reconciles _ (@task_runtime libs _ API K platform Other) now m (mkState o p w g) = Some s' ->
  pl_Phase (es_plan s') = TaskPlanComplete ->
  exists node', es_obj s' = ObjNode node' /\
    st_MaintenanceHold (n_Status node') = hold_target node want have /\
    (hold_target node want have = want -> want = HoldNone \/ sidecarGateOpen node' = false ->
     buildHoldPlan planID node' want (st_MaintenanceHold (n_Status node')) = None).
Proof.
  intros Hp Hrun Hc. destruct (buildHoldPlan_shape _ _ _ _ _ Hp) as (steps & -> & a & b & ->).
  set (h := hold_target node want have) in *.
  assert (Hh : hold_is h (es_obj s')).
  { eapply (@reconciles_established _ (@task_runtime libs _ API K platform Other) now (hold_is h)
      (length (holdSteps node a b)) TaskTypeRecordMaintenanceHold (Some (RecordMaintenanceHoldParams h)));
      [apply hold_is_ended|intros *; by eapply record_hold_establishes| | | |exact Hrun|exact Hc].
    - intros i ty. cbn [es_plan]. rewrite assembleSteps_types, fmap_app. intros Hty Hne.
      apply lookup_app_Some in Hty as [Hty|[Hle Hty]]; [by eapply holdSteps_stable|].
      apply list_lookup_singleton_Some in Hty as [Hz _]. rewrite length_fmap in *. lia.
    - eexists. cbn [es_plan]. rewrite (assembleSteps_lookup _ _ _ (recordHoldStep h)) by apply lookup_middle.
      split_and!; [done..|]. by left.
    - apply fresh_plan_wf. cbn [es_plan]. split; [done|].
      eapply indexed_fresh, (assembleSteps_mode_plan planID). }
  destruct (es_obj s') as [n'| |]; simpl in Hh; try done. exists n'. split_and!; [done..|].
  intros Ht Hg. rewrite Hh. unfold buildHoldPlan. rewrite Ht.
  destruct Hg as [->| ->]; [done|]. rewrite andb_false_r. by rewrite bool_decide_eq_true_2.
Qed.

(** Property: A completed reset plan has done the reset. Run by the executor with the
    real tasks over any number of reconciles, a reset plan that ends Complete,
    parked or releasing, leaves status.dataResetGeneration at least at the
    spec.dataResetGeneration it was built for: that reset is no longer pending. *)
Theorem reset_plan_takes_effect {W} (API : SidecarAPI W) (K : KubeAPI W) libs platform
    (Other : TaskRuntime W) planID now m node o p w g s' :
  DataResetPending node = true ->
  (static_buildRunningPlan platform planID node).1 = Ok (Some p) ->
  @reconciles _ (@task_runtime libs _ API K platform Other) now m (mkState o p w g) = Some s' ->
  pl_Phase (es_plan s') = TaskPlanComplete ->
  exists node', es_obj s' = ObjNode node' /\
    (sp_DataResetGeneration (n_Spec node) <= st_DataResetGeneration (n_Status node'))%Z.
Proof.
  intros Hpend Hp Hrun Hc. set (gen := sp_DataResetGeneration (n_Spec node)).
  assert (Hshape : exists t tail, pl_Tasks p !! 4 = Some t /\ pt_Type t = TaskTypeRecordDataReset /\
      pt_Params t = Some (RecordDataResetParams gen) /\ Forall fresh_task (pl_Tasks p) /\
      pl_Phase p = TaskPlanActive /\
      types_of p = [TaskTypeObserveImage; taskTypeMarkNotReady; taskTypeStopSeid;
        TaskTypeResetDataKeepSignState; TaskTypeRecordDataReset] ++ tail /\
      tail ∈ [[TaskTypeRecordMaintenanceHold]; [TaskMarkReady];
              [TaskMarkReady; TaskTypeRecordMaintenanceHold]]).
  { revert Hp. unfold static_buildRunningPlan. rewrite Hpend.
    case_bool_decide; [|case_bool_decide]; intros [= <-]; simpl;
      eexists _, _; (split_and!; [reflexivity|done|done|by repeat constructor|done|reflexivity|set_solver]). }
  destruct Hshape as (t & tail & H4 & Hty & Hps & Hf & Hph & Htypes & Htail).
  assert (Hr : reset_done gen (es_obj s')).
  { eapply (@reconciles_established _ (@task_runtime libs _ API K platform Other) now (reset_done gen)
      4 TaskTypeRecordDataReset (Some (RecordDataResetParams gen)));
      [apply reset_done_ended|intros *; by eapply record_reset_establishes| | | |exact Hrun|exact Hc].
    - intros i ty Hi Hne. change (types_of p !! i = Some ty) in Hi. rewrite Htypes in Hi.
      assert (Hin : ty ∈ [TaskTypeObserveImage; taskTypeMarkNotReady; taskTypeStopSeid;
          TaskTypeResetDataKeepSignState; TaskMarkReady; TaskTypeRecordMaintenanceHold]).
      { do 4 (destruct i as [|i]; [injection Hi as <-; by_decide|]). destruct i as [|i]; [done|].
        change (tail !! i = Some ty) in Hi. apply list_elem_of_lookup_2 in Hi.
        repeat (apply elem_of_cons in Htail as [->|Htail];
          [repeat (apply elem_of_cons in Hi as [->|Hi]; [by_decide|]); by apply elem_of_nil in Hi|]).
        by apply elem_of_nil in Htail. }
      repeat (apply elem_of_cons in Hin as [->|Hin]); [..|by apply elem_of_nil in Hin].
      + by apply observe_respects.
      + by eapply sidecar_respects.
      + by eapply sidecar_respects.
      + by eapply sidecar_respects.
      + apply guarded_respects. by left.
      + by apply record_hold_respects.
    - exists t. split_and!; [done..|]. left. rewrite Forall_lookup in Hf. by apply (Hf 4).
    - by apply fresh_plan_wf. }
  destruct (es_obj s') as [n'| |]; simpl in Hr; try done. by exists n'.
Qed.

End StaticClaims.

(** The run of a hold plan and of a reset plan on the sample cluster. *)
Abbreviation sample_run node p :=
  (@reconciles (unit * list call)
     (@task_runtime sample_libs (unit * list call) (logged_sidecar Sample.api)
        (logged_kube Sample.kube) (mkPlatformConfig "side" 100) Sample.other)
     0 1 (mkState (ObjNode node) p (tt, []) ∅)).

Definition sample_hold_plan : TaskPlan :=
  match @buildHoldPlan sample_config sample_hashes list_conditions "p" (Sample.node HoldImmediate 0)
          HoldImmediate HoldNone with
  | Some p => p
  | None => Sample.plan []
  end.

Lemma hold_plan_takes_effect_witness :
  match sample_run (Sample.node HoldImmediate 0) sample_hold_plan with
  | Some s' => exists node', es_obj s' = ObjNode node' /\
      st_MaintenanceHold (n_Status node') = HoldImmediate
  | None => False
  end.
Proof.
  assert (Hb : @buildHoldPlan sample_config sample_hashes list_conditions "p" (Sample.node HoldImmediate 0)
            HoldImmediate HoldNone = Some sample_hold_plan) by (vm_compute; reflexivity).
  assert (Hc : (fun s => pl_Phase (es_plan s)) <$>
      sample_run (Sample.node HoldImmediate 0) sample_hold_plan = Some TaskPlanComplete)
      by (vm_compute; reflexivity).
  destruct (sample_run (Sample.node HoldImmediate 0) sample_hold_plan) as [s'|] eqn:E; [|discriminate Hc].
  injection Hc as Hc.
  destruct (@hold_plan_takes_effect sample_config sample_hashes list_conditions (unit * list call)
      (logged_sidecar Sample.api) (logged_kube Sample.kube) sample_libs (mkPlatformConfig "side" 100)
      Sample.other "p" 0 1 (Sample.node HoldImmediate 0) (ObjNode (Sample.node HoldImmediate 0))
      HoldImmediate HoldNone sample_hold_plan (tt, []) ∅ s' Hb E Hc) as (n' & Hn & Hh & _).
  exists n'. split; [exact Hn|]. rewrite Hh. reflexivity.
Defined.

Definition sample_reset_plan : TaskPlan :=
  match (@static_buildRunningPlan sample_config sample_hashes list_conditions (mkPlatformConfig "side" 100)
          "p" (Sample.node HoldNone 3)).1 with
  | Ok (Some p) => p
  | _ => Sample.plan []
  end.

Lemma reset_plan_takes_effect_witness :
  match sample_run (Sample.node HoldNone 3) sample_reset_plan with
  | Some s' => exists node', es_obj s' = ObjNode node' /\ (3 <= st_DataResetGeneration (n_Status node'))%Z
  | None => False
  end.
Proof.
  assert (Hb : (@static_buildRunningPlan sample_config sample_hashes list_conditions
            (mkPlatformConfig "side" 100) "p" (Sample.node HoldNone 3)).1 = Ok (Some sample_reset_plan))
    by (vm_compute; reflexivity).
  assert (Hc : (fun s => pl_Phase (es_plan s)) <$>
      sample_run (Sample.node HoldNone 3) sample_reset_plan = Some TaskPlanComplete)
      by (vm_compute; reflexivity).
  destruct (sample_run (Sample.node HoldNone 3) sample_reset_plan) as [s'|] eqn:E; [|discriminate Hc].
  injection Hc as Hc.
  exact (@reset_plan_takes_effect sample_config sample_hashes list_conditions (unit * list call)
      (logged_sidecar Sample.api) (logged_kube Sample.kube) sample_libs (mkPlatformConfig "side" 100)
      Sample.other "p" 0 1 (Sample.node HoldNone 3) (ObjNode (Sample.node HoldNone 3))
      sample_reset_plan (tt, []) ∅ s' eq_refl Hb E Hc).
Defined.

(** ** The two always-present conditions *)
Definition hold_plan_active (node : SeiNode) : bool :=
  isMaintenancePlan (st_Plan (n_Status node)) &&
  match st_Plan (n_Status node) with
  | Some p => bool_decide (pl_Phase p = TaskPlanActive)
  | None => false
  end.

(** Property: MaintenanceInProgress tells an operator the truth. After every
    ResolveMaintenance the condition is there, for the current generation; it
    reads Held or Armed, the signal that exec work is safe, exactly when the node
    mounts its config, the requested hold is the one in effect, no hold plan is
    running and the sidecar's gate was not found open; Armed exactly for
    AfterExit; and it is False exactly without nodeConfig or without any hold
    requested, in effect or being moved. *)
Theorem maintenance_condition_truthful {SC : StatusConditions} {SCL : StatusConditionsLaws SC} node :
  let want := HoldRequested (n_Spec node) in
  let have := st_MaintenanceHold (n_Status node) in
  let settled := MountsNodeConfig node = true /\ want = have /\ want <> HoldNone /\
                 hold_plan_active node = false /\ sidecarGateOpen node = false in
  conds_only node (ResolveMaintenance node) /\
  exists c, node_cond (ResolveMaintenance node) ConditionMaintenanceInProgress = Some c /\
    c_ObservedGeneration c = n_Generation node /\
    ((c_Reason c = ReasonHeld \/ c_Reason c = ReasonArmed) <-> settled) /\
    (c_Reason c = ReasonArmed <-> settled /\ have = HoldAfterExit) /\
    (c_Status c = ConditionFalse <->
       MountsNodeConfig node = false \/
       (want = HoldNone /\ have = HoldNone /\ hold_plan_active node = false)).
Proof.
  intros want have settled. subst settled.
  unfold ResolveMaintenance, MountsNodeConfig, hold_plan_active, setMaintenanceCondition. fold want have.
  destruct (sp_NodeConfig (n_Spec node)).
  2: { split; [apply conds_only_set|]. eexists. split; [apply node_cond_set|]. simpl.
       split_and!; [done|naive_solver..]. }
  match goal with |- context [isMaintenancePlan ?p && ?b] => destruct (isMaintenancePlan p && b) end.
  { split; [apply conds_only_set|]. eexists. split; [apply node_cond_set|]. simpl.
    split_and!; [done|naive_solver..]. }
  destruct want eqn:Ew, have eqn:Eh; simpl; try (destruct (sidecarGateOpen node)); simpl;
    (split; [apply conds_only_set|]); (eexists; split; [apply node_cond_set|]); simpl;
    (split_and!; [done|naive_solver..]).
Qed.

(** The first step of [ResolveDataReset]: catch up while not Running. *)
Definition catch_up (node : SeiNode) : SeiNode :=
  if bool_decide (st_Phase (n_Status node) <> PhaseRunning) &&
     (st_DataResetGeneration (n_Status node) <? sp_DataResetGeneration (n_Spec node))%Z
  then upd_status (set_DataResetGeneration (sp_DataResetGeneration (n_Spec node))) node
  else node.

Lemma catch_up_spec {SC : StatusConditions} node :
  let n := catch_up node in
  n_Spec n = n_Spec node /\ st_Plan (n_Status n) = st_Plan (n_Status node) /\
  st_Phase (n_Status n) = st_Phase (n_Status node) /\
  (st_DataResetGeneration (n_Status node) <= st_DataResetGeneration (n_Status n))%Z /\
  (st_Phase (n_Status node) <> PhaseRunning -> DataResetPending n = false) /\
  (forall t, node_cond n t = node_cond node t).
Proof.
  unfold catch_up, DataResetPending. case_bool_decide as Hp; simpl.
  - destruct (Z.ltb_spec (st_DataResetGeneration (n_Status node)) (sp_DataResetGeneration (n_Spec node)));
      simpl; split_and!; try done; try lia; intros _; (destruct (sp_NodeConfig _); [apply Z.ltb_ge; lia|done]).
  - split_and!; try done; lia.
Qed.

(** Property: The reset counter of a node that is not Running is never behind. After
    ResolveDataReset no reset is pending on such a node, so creating a node with
    a non-zero counter never wipes it; the handled counter is never lowered and
    nothing but it and the conditions moves. The condition is there on every path
    without a reset plan, reads ResetPending while a reset waits for its plan,
    and a ResetFailed stays readable while that reset is still pending. *)
Theorem data_reset_resolved {SC : StatusConditions} {SCL : StatusConditionsLaws SC} node :
  let node' := ResolveDataReset node in
  n_Spec node' = n_Spec node /\ st_Plan (n_Status node') = st_Plan (n_Status node) /\
  st_Phase (n_Status node') = st_Phase (n_Status node) /\
  (st_DataResetGeneration (n_Status node) <= st_DataResetGeneration (n_Status node'))%Z /\
  (st_Phase (n_Status node) <> PhaseRunning -> DataResetPending node' = false) /\
  (isDataResetPlan (st_Plan (n_Status node)) = false ->
     is_Some (node_cond node' ConditionDataResetInProgress) /\
     (DataResetPending node' = true ->
        dataResetReason node' =
          if dataResetReason node =s ReasonResetFailed then ReasonResetFailed else ReasonResetPending)).
Proof.
  intros node'. subst node'. unfold ResolveDataReset.
  destruct (sp_NodeConfig (n_Spec node)) as [nc|] eqn:Enc.
  2: { unfold setDataResetCondition, DataResetPending. simpl. rewrite Enc.
       split_and!; [done..|lia|done|]. intros _. split; [|done]. by rewrite node_cond_set. }
  fold (catch_up node).
  destruct (catch_up_spec node) as (Hs & Hpl & Hph & Hle & Hnr & Hcond).
  set (n := catch_up node) in *. unfold setDataResetCondition.
  assert (Hreason : dataResetReason n = dataResetReason node)
    by (unfold dataResetReason, cond_reason; by rewrite Hcond).
  assert (Hpres : forall r, dataResetReason n = r -> r <> "" ->
            is_Some (node_cond n ConditionDataResetInProgress)).
  { unfold dataResetReason, cond_reason. intros r. by destruct (node_cond n _). }
  assert (Hset : forall st r m, let n' := set_node_cond ConditionDataResetInProgress st r m n in
    n_Spec n' = n_Spec n /\ st_Plan (n_Status n') = st_Plan (n_Status n) /\
    st_Phase (n_Status n') = st_Phase (n_Status n) /\
    st_DataResetGeneration (n_Status n') = st_DataResetGeneration (n_Status n) /\
    DataResetPending n' = DataResetPending n /\ is_Some (node_cond n' ConditionDataResetInProgress) /\
    dataResetReason n' = r).
  { intros st r m. cbv zeta. unfold dataResetReason, cond_reason. rewrite node_cond_set.
    split_and!; done. }
  rewrite Hpl.
  destruct (isDataResetPlan (st_Plan (n_Status node))) eqn:Eplan;
    [split_and!; try done; congruence|].
  destruct (DataResetPending n) eqn:Epend; cbn [negb].
  - destruct (dataResetReason n =s ReasonResetFailed) eqn:Er.
    + apply String.eqb_eq in Er. split_and!; [done..|intros Hp; by specialize (Hnr Hp)|]. intros _.
      split; [by eapply Hpres|]. intros _. by rewrite <- Hreason, Er.
    + destruct (Hset ConditionTrue ReasonResetPending
        ("data reset pending for dataResetGeneration=" +:+ pretty (sp_DataResetGeneration (n_Spec n)) +:+
           " (handled " +:+ pretty (st_DataResetGeneration (n_Status n)) +:+ ")"))
        as (-> & -> & -> & -> & -> & ? & ->).
      split_and!; [done..|intros Hp; by specialize (Hnr Hp)|]. intros _. split; [done|].
      by rewrite <- Hreason, Er.
  - destruct (dataResetReason n =s ReasonResetComplete) eqn:Er; cbn [negb].
    + apply String.eqb_eq in Er. split_and!; try done. intros _. split; [by eapply Hpres|congruence].
    + destruct (Hset ConditionFalse ReasonNoResetRequested
        ("no data reset requested (dataResetGeneration=" +:+
             pretty (st_DataResetGeneration (n_Status n)) +:+ ")")) as (-> & -> & -> & -> & -> & ? & ->).
      by split_and!.
Qed.

Lemma maintenance_condition_truthful_witness :
  exists c, @node_cond list_conditions
      (@ResolveMaintenance list_conditions (upd_status (set_MaintenanceHold HoldAfterExit)
         (Sample.node HoldAfterExit 0))) ConditionMaintenanceInProgress = Some c /\
    c_Reason c = ReasonArmed.
Proof.
  destruct (@maintenance_condition_truthful list_conditions list_conditions_laws
    (upd_status (set_MaintenanceHold HoldAfterExit) (Sample.node HoldAfterExit 0)))
    as (_ & c & Hc & _ & _ & Ha & _).
  exists c. split; [exact Hc|]. apply Ha. split; [|reflexivity].
  split_and!; [reflexivity|reflexivity|discriminate|reflexivity|reflexivity].
Defined.

Definition unborn_node : SeiNode := upd_status (set_Phase PhasePending 0) (Sample.node HoldNone 7).

Lemma data_reset_resolved_witness :
  DataResetPending unborn_node = true /\
  DataResetPending (@ResolveDataReset list_conditions unborn_node) = false.
Proof.
  split; [reflexivity|].
  destruct (@data_reset_resolved list_conditions list_conditions_laws unborn_node)
    as (_ & _ & _ & _ & Hn & _).
  apply Hn. discriminate.
Defined.
