(* ===== verification/Resolve.v ===== *)
(** * The plan resolver (planner.go: NodeResolver) and the drift-roll budget
      (drift_budget.go), with the sidecar probe (sidecar_probe.go)

    [ResolvePlan] is what a reconcile of a SeiNode does between reading it and
    executing its plan: probe the sidecar, retire a finished plan, and build and
    persist the next one unless a gate holds it. *)

From stdpp Require Import base list strings gmap pretty.
From Stdlib Require Import ZArith Lia.
From S2P Require Import Prelude Api NodeState Platform Executor Config Task Planner StaticConfig.

Definition planClassNodeUpdate := "node-update".
Definition ReasonUpdateDeferred := "UpdateDeferred".

Definition isUpdateFailureReason (reason : string) : bool :=
  (reason =s reasonUpdateFailed) || (reason =s reasonUpdatePlanBuildFailed).

(** The loop of [classifyPlan]: the first task that names a class. *)
Fixpoint classifyTasks (ts : list PlannedTask) : option string :=
  match ts with
  | [] => None
  | t :: ts' =>
      if pt_Type t =s TaskTypeObserveImage then Some planClassNodeUpdate
      else if pt_Type t =s TaskTypeEnsureDataPVC then Some "init"
      else if pt_Type t =s TaskTypeRestartSeid then Some "config-update"
      else classifyTasks ts'
  end.

Definition classifyPlan (plan : TaskPlan) : string :=
  if isDataResetPlan (Some plan) then "data-reset"
  else if isMaintenancePlan (Some plan) && negb (has_task TaskTypeEnsureDataPVC plan)
  then "maintenance-hold"
  else match classifyTasks (pl_Tasks plan) with
  | Some c => c
  | None =>
      match pl_Tasks plan with
      | [t] => if pt_Type t =s TaskMarkReady then "mark-ready-reapply" else unknownValue
      | _ => unknownValue
      end
  end.

Definition PeerResolutionWait : Z := 600 * second.

(** The live StatefulSet's template images, as [pinnedToRunning] reads them. *)
Inductive live_template :=
| LiveNotFound
| LiveError (msg : string)
| LiveImages (seid sidecar : string).

Section Resolve.
Context {C : SeiConfig} {H : Hashes} {SC : StatusConditions}.

Definition hasNodeUpdateCondition (node : SeiNode) : bool :=
  cond_is node ConditionNodeUpdateInProgress ConditionTrue.
Definition updateInProgress (node : SeiNode) : bool :=
  cond_is node ConditionNodeUpdateInProgress ConditionTrue.

(** [emitPlanDuration] only records a metric. *)
Definition handleTerminalPlan (node : SeiNode) : SeiNode :=
  match st_Plan (n_Status node) with
  | None => node
  | Some plan =>
      let node := observeTerminalDataResetPlan plan node in
      match pl_Phase plan with
      | TaskPlanActive => node
      | TaskPlanComplete =>
          let node :=
            if hasNodeUpdateCondition node
            then setNodeUpdateCondition ConditionFalse "UpdateComplete"
                   ("plan " +:+ pl_ID plan +:+ " completed") node
            else node in
          upd_status (set_Plan None) node
      | TaskPlanFailed =>
          let node :=
            if negb (hasNodeUpdateCondition node) then node
            else if startDeferred plan then
              setNodeUpdateCondition ConditionFalse "UpdateComplete"
                ("plan " +:+ pl_ID plan +:+ " completed; start deferred: " +:+
                 match pl_FailedTaskDetail plan with Some d => fi_Error d | None => "" end) node
            else
              setNodeUpdateCondition ConditionFalse reasonUpdateFailed
                ("plan " +:+ pl_ID plan +:+ " failed: " +:+ planFailureMessage plan) node in
          upd_status (set_Plan None) node
      end
  end.

Definition StateSyncBlocksPlan (node : SeiNode) : bool :=
  if is_Running node then false
  else if negb (needsStateSyncWitnesses (SnapshotSourceOf (n_Spec node))) then false
  else match node_cond node ConditionStateSyncReady with
  | Some c => bool_decide (c_Status c <> ConditionTrue)
  | None => false
  end.

Definition PeersBlockPlan (node : SeiNode) (now : Z) : bool :=
  if is_Running node || bool_decide (st_ResolvedPeers (n_Status node) <> []) then false
  else if negb (existsb (fun p => match ps_Label p with Some _ => true | None => false end)
                  (sp_Peers (n_Spec node))) then false
  else (now <? n_CreationTimestamp node + PeerResolutionWait)%Z.

Definition shouldExplainUnobservedConfig (node : SeiNode) : bool :=
  let failureReason :=
    match node_cond node ConditionNodeUpdateInProgress with
    | Some c => isUpdateFailureReason (c_Reason c)
    | None => false
    end in
  is_Running node && (st_CurrentConfigValuesHash (n_Status node) =s "") &&
  bool_decide (sp_ConfigValues (n_Spec node) <> []) && negb failureReason.

(** ** The sidecar probe: the outcome of [Healthz] *)
Definition setSidecarReadyCondition (status : ConditionStatus) (reason message : string)
    (node : SeiNode) : SeiNode :=
  set_node_cond ConditionSidecarReady status reason message node.

Definition probeSidecarHealth (healthz : result bool) (node : SeiNode) : SeiNode :=
  match healthz with
  | Err e => setSidecarReadyCondition ConditionUnknown "Unreachable" ("sidecar Healthz error: " +:+ e) node
  | Ok true => setSidecarReadyCondition ConditionTrue "Ready" "sidecar returned 200" node
  | Ok false =>
      setSidecarReadyCondition ConditionFalse "NotReady" "sidecar returned 503, re-issuing mark-ready" node
  end.

(** ** The drift-roll budget

    [lister] is the uncached List of a namespace's SeiNodes, [None] when the
    resolver has no reader. *)
Definition counted (n : SeiNode) : bool := is_Running n && negb (sp_Paused (n_Spec n)).

Definition driftUpdating (items : list SeiNode) : list string :=
  sort_strings (n_Name <$> List.filter (fun n => counted n && updateInProgress n) items).
Definition driftWaiting (platform : PlatformConfig) (items : list SeiNode) : list string :=
  sort_strings (n_Name <$> List.filter (fun n =>
    counted n && negb (updateInProgress n) && podTemplateDrifted n platform) items).
Definition driftSlots (platform : PlatformConfig) (items : list SeiNode) : Z :=
  Z.max 1 (Z.of_nat (length (List.filter counted items)) * pc_DriftUpdateBudgetPercent platform / 100).

Definition index_of (x : string) (l : list string) : option nat :=
  fst <$> list_find (fun y => y = x) l.

Definition DriftSlot (platform : PlatformConfig) (lister : option (string -> result (list SeiNode)))
    (node : SeiNode) : result (bool * string) :=
  match lister with
  | None => Ok (true, "")
  | Some nodes =>
      if (pc_DriftUpdateBudgetPercent platform <=? 0)%Z then Ok (true, "")
      else
        items ← wrap_err "listing SeiNodes for the drift-roll budget: " (nodes (n_Namespace node));
        let slots := driftSlots platform items in
        let order := driftUpdating items ++ driftWaiting platform items in
        let free := match index_of (n_Name node) order with
                    | Some i => (Z.of_nat i <? slots)%Z
                    | None => (Z.of_nat (length order) <? slots)%Z
                    end in
        if free then Ok (true, "")
        else Ok (false, "drift update waits for a roll slot in namespace " +:+ n_Namespace node +:+ ": " +:+
                   pretty slots +:+ " slot(s), held by " +:+
                   join ", " (take (Z.to_nat slots) order))
  end.

Definition isDriftUpdatePlan (platform : PlatformConfig) (node : SeiNode) (plan : TaskPlan) : bool :=
  podTemplateDrifted node platform && (classifyPlan plan =s planClassNodeUpdate).

Definition with_Image (img : string) (s : SeiNodeSpec) : SeiNodeSpec :=
  mkSeiNodeSpec (sp_ChainID s) img (sp_Peers s) (sp_Overrides s) (sp_Consensus s)
    (sp_ExecutionEngine s) (sp_ConfigValues s) (sp_NodeConfig s) (sp_Scheduling s) (sp_Sidecar s)
    (sp_FullNode s) (sp_Archive s) (sp_Replayer s) (sp_Validator s) (sp_Seed s)
    (sp_ExternalAddress s) (sp_Paused s) (sp_DataResetGeneration s) (sp_Maintenance s).
Definition with_Scheduling (sch : option SchedulingConfig) (s : SeiNodeSpec) : SeiNodeSpec :=
  mkSeiNodeSpec (sp_ChainID s) (sp_Image s) (sp_Peers s) (sp_Overrides s) (sp_Consensus s)
    (sp_ExecutionEngine s) (sp_ConfigValues s) (sp_NodeConfig s) sch (sp_Sidecar s)
    (sp_FullNode s) (sp_Archive s) (sp_Replayer s) (sp_Validator s) (sp_Seed s)
    (sp_ExternalAddress s) (sp_Paused s) (sp_DataResetGeneration s) (sp_Maintenance s).
Definition with_Sidecar (sc : option SidecarConfig) (s : SeiNodeSpec) : SeiNodeSpec :=
  mkSeiNodeSpec (sp_ChainID s) (sp_Image s) (sp_Peers s) (sp_Overrides s) (sp_Consensus s)
    (sp_ExecutionEngine s) (sp_ConfigValues s) (sp_NodeConfig s) (sp_Scheduling s) sc
    (sp_FullNode s) (sp_Archive s) (sp_Replayer s) (sp_Validator s) (sp_Seed s)
    (sp_ExternalAddress s) (sp_Paused s) (sp_DataResetGeneration s) (sp_Maintenance s).

Definition pinnedToRunning (live : live_template) (node : SeiNode) : result (option SeiNode) :=
  let st := n_Status node in
  let current := (st_CurrentImage st, st_CurrentSidecarImage st) in
  let images :=
    if (st_CurrentImage st =s "") || (st_CurrentSidecarImage st =s "") then
      match live with
      | LiveImages seid sidecar =>
          Ok ((if st_CurrentImage st =s "" then seid else st_CurrentImage st),
              (if st_CurrentSidecarImage st =s "" then sidecar else st_CurrentSidecarImage st))
      | LiveNotFound => Ok current
      | LiveError e => Err ("reading the live StatefulSet to pin a waiting drift: " +:+ e)
      end
    else Ok current in
  match images with
  | Err e => Err e
  | Ok (seidImage, sidecarImage) =>
      if seidImage =s "" then Ok None
      else
        let s := with_Image seidImage (n_Spec node) in
        let s := if sidecarImage <>s ""
                 then with_Sidecar
                        (Some (mkSidecarConfig sidecarImage
                                 match sp_Sidecar s with Some sc => sc_Port sc | None => 0%Z end
                                 (sp_Sidecar s ≫= sc_Resources))) s
                 else s in
        let s := match st_CurrentNodeIsolation st with
                 | IsolationNone => s
                 | iso => with_Scheduling
                            (Some (mkSchedulingConfig iso
                                     match sp_Scheduling s with Some c => sch_NodePool c | None => "" end)) s
                 end in
        let s := if (st_CurrentImage st <>s "") &&
                    (RequestedNodePool node <>s st_CurrentNodePool st)
                 then with_Scheduling
                        (Some (mkSchedulingConfig
                                 match sp_Scheduling s with Some c => sch_NodeIsolation c | None => IsolationNone end
                                 (st_CurrentNodePool st))) s
                 else s in
        Ok (Some (with_Spec node s))
  end.

(** The SeiNode to render the StatefulSet from, the node left in memory, and the
    error. *)
Definition DriftRenderNode (platform : PlatformConfig)
    (lister : option (string -> result (list SeiNode))) (live : live_template) (node : SeiNode)
    : SeiNode * SeiNode * option string :=
  let active := match st_Plan (n_Status node) with
                | Some p => bool_decide (pl_Phase p = TaskPlanActive)
                | None => false
                end in
  if negb (MountsNodeConfig node) || sp_Paused (n_Spec node) || negb (is_Running node) then (node, node, None)
  else if active then (node, node, None)
  else if updateInProgress node || negb (podTemplateDrifted node platform) || DataResetPending node ||
          bool_decide (HoldRequested (n_Spec node) <> st_MaintenanceHold (n_Status node))
  then (node, node, None)
  else match DriftSlot platform lister node with
  | Err e => (node, node, Some e)
  | Ok (true, _) => (node, node, None)
  | Ok (false, msg) =>
      let node := setNodeUpdateCondition ConditionFalse ReasonUpdateDeferred msg node in
      match pinnedToRunning live node with
      | Err e => (node, node, Some e)
      | Ok None => (node, node, None)
      | Ok (Some pinned) => (pinned, node, None)
      end
  end.

(** ** ResolvePlan *)
Definition mountedWriterError (writer : string) : string :=
  "plan carries " +:+ writer +:+ " on a node that mounts config.toml and app.toml from ConfigMaps: the task renames over the mount, which detaches it and leaves seid reading the task's file".

Definition has_active_plan (node : SeiNode) : bool :=
  match st_Plan (n_Status node) with
  | Some p => bool_decide (pl_Phase p = TaskPlanActive)
  | None => false
  end.

(** The plan is persisted; a first plan moves the node to Initializing. *)
Definition persistPlan (plan : TaskPlan) (now : Z) (node : SeiNode) : SeiNode :=
  let node := upd_status (set_Plan (Some plan)) node in
  if bool_decide (st_Phase (n_Status node) = PhaseNone) || bool_decide (st_Phase (n_Status node) = PhasePending)
  then upd_status (set_Phase PhaseInitializing now) node
  else node.

(** From the built plan on: the mount guard, the roll slot, the baseline notice. *)
Definition admitPlan (platform : PlatformConfig) (lister : option (string -> result (list SeiNode)))
    (now : Z) (plan : option TaskPlan) (node : SeiNode) : option string * SeiNode :=
  let writer := mountedConfigWriterInPlan node plan in
  if writer <>s "" then
    let err := mountedWriterError writer in
    (Some err, setNodeUpdateCondition ConditionFalse reasonUpdatePlanBuildFailed err node)
  else match plan with
  | None =>
      if shouldExplainUnobservedConfig node then
        (None, setNodeUpdateCondition ConditionFalse "ConfigBaselineUnobserved"
           "configValues changes are deferred until an image update regenerates configuration and establishes an observed baseline" node)
      else (None, node)
  | Some p =>
      if isDriftUpdatePlan platform node p then
        match DriftSlot platform lister node with
        | Err e => (Some e, setNodeUpdateCondition ConditionFalse ReasonUpdateDeferred e node)
        | Ok (false, msg) => (None, setNodeUpdateCondition ConditionFalse ReasonUpdateDeferred msg node)
        | Ok (true, _) => (None, persistPlan p now node)
        end
      else (None, persistPlan p now node)
  end.

(** [probe]: [None] when there is no client factory or it failed. *)
Definition ResolvePlan (platform : PlatformConfig) (lister : option (string -> result (list SeiNode)))
    (probe : option (result bool)) (planID : string) (now : Z) (node : SeiNode)
    : option string * SeiNode :=
  let node := match probe with
              | Some h => if is_Running node then probeSidecarHealth h node else node
              | None => node
              end in
  if has_active_plan node then (None, node)
  else
    let node := handleTerminalPlan node in
    if StateSyncBlocksPlan node then (None, node)
    else if PeersBlockPlan node now then (None, node)
    else match plannerFor platform node with
    | Err e => (Some e, node)
    | Ok mode =>
        match np_Validate mode node with
        | Err e => (Some e, node)
        | Ok _ =>
            match np_BuildPlan mode planID node with
            | (Err e, node) => (Some e, node)
            | (Ok plan, node) => admitPlan platform lister now plan node
            end
        end
    end.

End Resolve.

(** ** What [ResolvePlan] does to the node *)
Section ResolveFacts.
Context {C : SeiConfig} {H : Hashes} {SC : StatusConditions}.

(** Only the conditions and the plan moved. *)
Definition ctrl_frame (n n' : SeiNode) : Prop :=
  exists cs pl, n' = upd_status (fun s => set_Plan pl (set_Conditions cs s)) n.

Lemma ctrl_frame_conds n n' : conds_only n n' -> ctrl_frame n n'.
Proof.
  intros [cs ->]. exists cs, (st_Plan (n_Status n)). by destruct n as [? ? ? ? ? ? []].
Qed.

Lemma ctrl_frame_trans n1 n2 n3 : ctrl_frame n1 n2 -> ctrl_frame n2 n3 -> ctrl_frame n1 n3.
Proof. intros (cs & pl & ->) (cs' & pl' & ->). by exists cs', pl'. Qed.

Lemma ctrl_frame_setplan n pl : ctrl_frame n (upd_status (set_Plan pl) n).
Proof. exists (st_Conditions (n_Status n)), pl. by destruct n as [? ? ? ? ? ? []]. Qed.

Lemma observeTerminal_conds plan n : conds_only n (observeTerminalDataResetPlan plan n).
Proof.
  unfold observeTerminalDataResetPlan, setDataResetCondition. repeat case_match; auto with sei.
Qed.

Lemma conds_only_plan n n' : conds_only n n' -> st_Plan (n_Status n') = st_Plan (n_Status n).
Proof. by intros [cs ->]. Qed.

Lemma has_active_conds n n' : conds_only n n' -> has_active_plan n' = has_active_plan n.
Proof. intros Hc. unfold has_active_plan. by rewrite (conds_only_plan _ _ Hc). Qed.

Lemma handleTerminalPlan_spec n :
  has_active_plan n = false ->
  ctrl_frame n (handleTerminalPlan n) /\ st_Plan (n_Status (handleTerminalPlan n)) = None.
Proof.
  unfold has_active_plan, handleTerminalPlan, setNodeUpdateCondition.
  destruct (st_Plan (n_Status n)) as [p|] eqn:Ep.
  - pose proof (observeTerminal_conds p n) as Hobs. set (n1 := observeTerminalDataResetPlan p n) in *.
    assert (Hdone : forall n2, conds_only n1 n2 -> ctrl_frame n (upd_status (set_Plan None) n2) /\
              st_Plan (n_Status (upd_status (set_Plan None) n2)) = None).
    { intros n2 H2. split; [|done]. eapply ctrl_frame_trans; [|apply ctrl_frame_setplan].
      apply ctrl_frame_conds. by etrans. }
    destruct (pl_Phase p); [done|..]; intros _; apply Hdone; repeat case_match; auto with sei.
  - intros _. split; [apply ctrl_frame_conds, conds_only_refl|done].
Qed.

(** [handleTerminalPlan] writes two condition types only. *)
Lemma handleTerminalPlan_cond {SCL : StatusConditionsLaws SC} n t :
  t <> ConditionNodeUpdateInProgress -> t <> ConditionDataResetInProgress ->
  node_cond (handleTerminalPlan n) t = node_cond n t.
Proof.
  intros H1 H2. unfold handleTerminalPlan, setNodeUpdateCondition.
  destruct (st_Plan (n_Status n)) as [p|]; [|done].
  assert (Hobs : node_cond (observeTerminalDataResetPlan p n) t = node_cond n t).
  { unfold observeTerminalDataResetPlan, setDataResetCondition.
    repeat case_match; rewrite ?node_cond_set_other; done. }
  rewrite <- Hobs. set (n1 := observeTerminalDataResetPlan p n).
  assert (Hpl : forall n2 pl, node_cond (upd_status (set_Plan pl) n2) t = node_cond n2 t) by done.
  destruct (pl_Phase p); [done|..]; rewrite Hpl; repeat case_match;
    rewrite ?node_cond_set_other; done.
Qed.

Lemma probe_conds h n : conds_only n (probeSidecarHealth h n).
Proof. unfold probeSidecarHealth, setSidecarReadyCondition. repeat case_match; auto with sei. Qed.

Context {HL : HashesLaws H}.

(** The plan [p] persisted by a call: the node [n0] it was built from, what the
    planner [np] made of it, and the gates that let it through. *)
Definition persisted (platform : PlatformConfig) (lister : option (string -> result (list SeiNode)))
    (planID : string) (now : Z) (node node' : SeiNode) (p : TaskPlan) : Prop :=
  exists np n0 n1,
    ctrl_frame node n0 /\ st_Plan (n_Status n0) = None /\
    StateSyncBlocksPlan n0 = false /\ PeersBlockPlan n0 now = false /\
    plannerFor platform n0 = Ok np /\ np_Validate np n0 = Ok tt /\
    np_BuildPlan np planID n0 = (Ok (Some p), n1) /\ conds_only n0 n1 /\
    good_plan planID (is_Running n0) p /\
    mountedConfigWriterInPlan n1 (Some p) = "" /\
    (isDriftUpdatePlan platform n1 p = true -> exists m, DriftSlot platform lister n1 = Ok (true, m)) /\
    node' = persistPlan p now n1.

Lemma admitPlan_cases platform lister now plan n1 err node' :
  st_Plan (n_Status n1) = None -> admitPlan platform lister now plan n1 = (err, node') ->
  (ctrl_frame n1 node' /\ st_Plan (n_Status node') = None) \/
  (err = None /\ exists p, plan = Some p /\ mountedConfigWriterInPlan n1 plan = "" /\
     (isDriftUpdatePlan platform n1 p = true -> exists m, DriftSlot platform lister n1 = Ok (true, m)) /\
     node' = persistPlan p now n1).
Proof.
  intros Hpl. unfold admitPlan, setNodeUpdateCondition.
  destruct (mountedConfigWriterInPlan n1 plan =s "") eqn:Ew; cbn [negb].
  2: { intros [= <- <-]. left. split; [apply ctrl_frame_conds, conds_only_set|done]. }
  apply String.eqb_eq in Ew. destruct plan as [p|].
  - destruct (isDriftUpdatePlan platform n1 p) eqn:Ed.
    + destruct (DriftSlot platform lister n1) as [[[] m]|e] eqn:Es; intros [= <- <-].
      * right. split; [done|]. exists p. split_and!; eauto.
      * left. split; [apply ctrl_frame_conds, conds_only_set|done].
      * left. split; [apply ctrl_frame_conds, conds_only_set|done].
    + intros [= <- <-]. right. split; [done|]. exists p. by rewrite Ed.
  - destruct (shouldExplainUnobservedConfig n1); intros [= <- <-]; left;
      (split; [apply ctrl_frame_conds; auto with sei|done]).
Qed.

Lemma ResolvePlan_cases platform lister probe planID now node err node' :
  ResolvePlan platform lister probe planID now node = (err, node') ->
  (has_active_plan node = true /\ conds_only node node' /\ err = None) \/
  (has_active_plan node = false /\
     ((ctrl_frame node node' /\ st_Plan (n_Status node') = None) \/
      (err = None /\ exists p, persisted platform lister planID now node node' p))).
Proof.
  unfold ResolvePlan.
  set (n := match probe with Some h => if is_Running node then probeSidecarHealth h node else node
            | None => node end).
  assert (Hn : conds_only node n).
  { subst n. repeat case_match; auto using probe_conds with sei. }
  rewrite (has_active_conds _ _ Hn).
  destruct (has_active_plan node) eqn:Ea; [intros [= <- <-]; by left|].
  intros Hrun. right. split; [done|].
  destruct (handleTerminalPlan_spec n) as [Hf Hp0]; [by rewrite (has_active_conds _ _ Hn)|].
  set (n0 := handleTerminalPlan n) in *.
  assert (Hf0 : ctrl_frame node n0) by (eapply ctrl_frame_trans; [by apply ctrl_frame_conds|done]).
  destruct (StateSyncBlocksPlan n0) eqn:Ess; [injection Hrun as <- <-; by left|].
  destruct (PeersBlockPlan n0 now) eqn:Epe; [injection Hrun as <- <-; by left|].
  destruct (plannerFor platform n0) as [np|] eqn:Enp; [|injection Hrun as <- <-; by left].
  destruct (np_Validate np n0) as [[]|] eqn:Ev; [|injection Hrun as <- <-; by left].
  destruct (plannerFor_laws _ _ _ Enp planID n0) as [Hc Hgood].
  destruct (np_BuildPlan np planID n0) as [[plan|e] n1] eqn:Eb; simpl in Hc, Hgood.
  - apply admitPlan_cases in Hrun as [[Hfr Hnone]|(-> & p & -> & Hw & Hd & ->)].
    + left. split; [|done]. eapply ctrl_frame_trans; [exact Hf0|].
      eapply ctrl_frame_trans; [by apply ctrl_frame_conds|done].
    + right. split; [done|]. exists p, np, n0, n1. split_and!; try done. by apply Hgood.
    + by rewrite (conds_only_plan _ _ Hc).
  - injection Hrun as <- <-. left. split.
    + eapply ctrl_frame_trans; [exact Hf0|by apply ctrl_frame_conds].
    + by rewrite (conds_only_plan _ _ Hc).
Qed.

Lemma persistPlan_plan p now n : st_Plan (n_Status (persistPlan p now n)) = Some p.
Proof. unfold persistPlan. by destruct (_ || _). Qed.

Lemma ctrl_frame_fields n n' :
  ctrl_frame n n' ->
  n_Spec n' = n_Spec n /\ n_Name n' = n_Name n /\ n_Namespace n' = n_Namespace n /\
  st_Phase (n_Status n') = st_Phase (n_Status n) /\
  st_DataResetGeneration (n_Status n') = st_DataResetGeneration (n_Status n) /\
  st_MaintenanceHold (n_Status n') = st_MaintenanceHold (n_Status n).
Proof. by intros (cs & pl & ->). Qed.

End ResolveFacts.

(** ** Claims *)
Section ResolveClaims.
Context {C : SeiConfig} {H : Hashes} {HL : HashesLaws H} {SC : StatusConditions}.

(** With no Active plan to begin with, a plan in the result was persisted by this
    call. *)
Lemma resolved_persisted platform lister probe planID now node err node' p :
  has_active_plan node = false -> ResolvePlan platform lister probe planID now node = (err, node') ->
  st_Plan (n_Status node') = Some p -> persisted platform lister planID now node node' p.
Proof.
  intros Ha Hrun Hp.
  apply ResolvePlan_cases in Hrun as [(Ha' & _)|[_ [[_ Hn]|(_ & q & Hper)]]]; [congruence..|].
  replace p with q; [done|].
  destruct Hper as (np & n0 & n1 & _ & _ & _ & _ & _ & _ & _ & _ & _ & _ & _ & ->).
  rewrite persistPlan_plan in Hp. by injection Hp.
Qed.

(** C28: what ResolvePlan leaves in status.plan. A reconcile never leaves a
    finished plan behind: the plan is absent or Active. An Active plan is left as
    it was; otherwise a plan that is there carries the new plan ID, distinct task
    IDs and tasks that have all yet to run. In both cases it is well formed, the
    state the executor's theorems start from. *)
Theorem resolve_plan_wellformed platform lister probe planID now node err node' p :
  ResolvePlan platform lister probe planID now node = (err, node') ->
  (forall q, st_Plan (n_Status node) = Some q -> plan_wf q) ->
  st_Plan (n_Status node') = Some p ->
  pl_Phase p = TaskPlanActive /\ plan_wf p /\
  if has_active_plan node then st_Plan (n_Status node) = Some p
  else pl_ID p = planID /\ fresh_plan p /\ ids_distinct p.
Proof.
  intros Hrun Hwf Hp.
  apply ResolvePlan_cases in Hrun as [(Ha & Hc & _)|[Ha [[_ Hn]|(_ & q & Hper)]]]; [|congruence|].
  - rewrite Ha. rewrite (conds_only_plan _ _ Hc) in Hp. split_and!; [|by apply Hwf|done].
    unfold has_active_plan in Ha. rewrite Hp in Ha. by apply bool_decide_eq_true in Ha.
  - rewrite Ha. destruct Hper as (np & n0 & n1 & _ & _ & _ & _ & _ & _ & _ & _ & [Hg _] & _ & _ & ->).
    rewrite persistPlan_plan in Hp. injection Hp as ->.
    split_and!; [apply Hg|by eapply built_wf|apply Hg..].
Qed.

(** The phase a persisted plan's node has. *)
Lemma persisted_running platform lister planID now node node' p :
  persisted platform lister planID now node node' p -> is_Running node = true ->
  st_Phase (n_Status node') = PhaseRunning /\ pl_TargetPhase p = PhaseRunning /\
  pl_FailedPhase p = PhaseNone.
Proof.
  intros (np & n0 & n1 & Hf & _ & _ & _ & _ & _ & _ & Hc & (_ & Ht & Hfp) & _ & _ & ->) Hr.
  apply ctrl_frame_fields in Hf as (_ & _ & _ & Hph & _).
  unfold is_Running in *. rewrite Hph in Hfp. rewrite Hr in Hfp. apply bool_decide_eq_true in Hr.
  split_and!; [|done..]. destruct Hc as [cs ->]. unfold persistPlan. simpl.
  rewrite Hph, Hr. simpl. congruence.
Qed.

(** Property: A Running node stays Running. Whatever plan a reconcile of a Running node
    builds (an update, a config change, a reset, a hold, a re-approval), executing
    it over any number of reconciles, failures included, leaves the node's phase
    Running: only an init plan can fail a node. *)
Theorem running_node_stays_running {W} (RT : TaskRuntime W) {RF : RuntimeFrame RT}
    platform lister probe planID now node err node' p w g m (s' : exec_state W) :
  is_Running node = true -> has_active_plan node = false ->
  ResolvePlan platform lister probe planID now node = (err, node') ->
  st_Plan (n_Status node') = Some p ->
  reconciles now m (mkState (ObjNode node') p w g) = Some s' ->
  obj_phase (es_obj s') = Some PhaseRunning.
Proof.
  intros Hr Ha Hrun Hp Hrec.
  pose proof (resolved_persisted _ _ _ _ _ _ _ _ _ Ha Hrun Hp) as Hper.
  destruct (persisted_running _ _ _ _ _ _ _ Hper Hr) as (Hph & Ht & Hfp).
  eapply reconciles_running; [| | |exact Hrec]; [done|done|]. simpl. by rewrite Hph.
Qed.

(** ** Nodes that mount their config files *)
Lemma static_planner n0 np platform :
  plannerFor platform n0 = Ok np -> MountsNodeConfig n0 = true ->
  exists base, np = staticConfigPlanner base platform.
Proof.
  unfold plannerFor. destruct (plannerForMode platform n0) as [m|]; simpl; [|done].
  intros Hm Hc. rewrite Hc in Hm. simpl in Hm. injection Hm as <-. by exists m.
Qed.

Lemma MountsNodeConfig_spec n n' : n_Spec n' = n_Spec n -> MountsNodeConfig n' = MountsNodeConfig n.
Proof. unfold MountsNodeConfig. by intros ->. Qed.

(** A plan persisted for a Running static-config node has the sequence the node
    asks for. *)
Lemma persisted_sequence platform lister planID now node node' p :
  persisted platform lister planID now node node' p ->
  is_Running node = true -> MountsNodeConfig node = true ->
  exists n0, ctrl_frame node n0 /\ running_sequence platform n0 = Some (types_of p).
Proof.
  intros (np & n0 & n1 & Hf & _ & _ & _ & Hnp & _ & Hb & _) Hr Hm.
  pose proof (ctrl_frame_fields _ _ Hf) as (Hs & _ & _ & Hph & _).
  destruct (static_planner _ _ _ Hnp) as [base ->]; [by rewrite (MountsNodeConfig_spec _ _ Hs)|].
  simpl in Hb. unfold static_BuildPlan in Hb.
  assert (Hr0 : is_Running n0 = true) by (unfold is_Running; by rewrite Hph).
  rewrite Hr0 in Hb. exists n0. split; [done|].
  destruct (static_running_types platform planID n0) as (n' & _ & Hseq).
  destruct (running_sequence platform n0) as [seq|].
  - destruct Hseq as (q & Hq & <-). rewrite Hb in Hq. by simplify_eq.
  - congruence.
Qed.

(** C2: a held node is not released. While a maintenance hold is requested on a
    Running node with mounted config, no plan a reconcile persists carries a
    mark-ready, and a plan that starts with the gate closed, or that moves the
    hold or resets the data, ends with the gate closed on the abstract pod. *)
Theorem held_node_not_released platform lister probe planID now node err node' p v :
  is_Running node = true -> MountsNodeConfig node = true ->
  HoldRequested (n_Spec node) <> HoldNone -> has_active_plan node = false ->
  ResolvePlan platform lister probe planID now node = (err, node') ->
  st_Plan (n_Status node') = Some p -> wiped_live v = false ->
  (TaskMarkReady ∉ types_of p) /\
  (gate_open v = false \/ isMaintenancePlan (Some p) = true ->
   gate_open (run_view (types_of p) v) = false).
Proof.
  intros Hr Hm Hh Ha Hrun Hp Hv.
  pose proof (resolved_persisted _ _ _ _ _ _ _ _ _ Ha Hrun Hp) as Hper.
  destruct (persisted_sequence _ _ _ _ _ _ _ Hper Hr Hm) as (n0 & Hf & Hseq).
  destruct (running_sequence_view _ _ _ v Hseq Hv) as [_ Hheld].
  apply ctrl_frame_fields in Hf as (Hs & _). rewrite Hs in Hheld. destruct (Hheld Hh) as [H1 H2].
  split; [done|]. intros [Hg|Hmp]; apply H2; [by left|right].
  unfold isMaintenancePlan, has_task in Hmp. apply existsb_exists in Hmp as (t & Hin & Hty).
  apply String.eqb_eq in Hty. unfold types_of. rewrite <- Hty.
  apply list_elem_of_fmap. exists t. split; [done|]. by apply list_elem_of_In.
Qed.

(** C3: no plan wipes data under a running seid. On the abstract pod, from any
    state of the gate and of seid, the tasks of a plan persisted for a Running
    node with mounted config wipe the data only with the gate closed and seid
    stopped. *)
Theorem persisted_plan_never_wipes_live platform lister probe planID now node err node' p v :
  is_Running node = true -> MountsNodeConfig node = true -> has_active_plan node = false ->
  ResolvePlan platform lister probe planID now node = (err, node') ->
  st_Plan (n_Status node') = Some p -> wiped_live v = false ->
  wiped_live (run_view (types_of p) v) = false.
Proof.
  intros Hr Hm Ha Hrun Hp Hv.
  pose proof (resolved_persisted _ _ _ _ _ _ _ _ _ Ha Hrun Hp) as Hper.
  destruct (persisted_sequence _ _ _ _ _ _ _ Hper Hr Hm) as (n0 & Hf & Hseq).
  by apply (running_sequence_view _ _ _ v Hseq Hv).
Qed.

(** A reset plan is stored with its condition: the planner reports the start of the
    reset in the same status. *)
Lemma markDataResetStarted_reported {SCL : StatusConditionsLaws SC} node :
  is_Some (node_cond (markDataResetStarted node) ConditionDataResetInProgress).
Proof.
  unfold markDataResetStarted, setDataResetCondition, dataResetReason, cond_reason.
  destruct (node_cond node ConditionDataResetInProgress) as [c|] eqn:E.
  - destruct (_ =s _); [rewrite E; by eexists|]. rewrite node_cond_set. by eexists.
  - simpl. rewrite node_cond_set. by eexists.
Qed.
Lemma running_sequence_reset platform n seq :
  running_sequence platform n = Some seq -> TaskTypeRecordDataReset ∈ seq -> DataResetPending n = true.
Proof.
  unfold running_sequence, hold_sequence. destruct (DataResetPending n); [done|]. intros Hseq Hin. exfalso. revert Hseq Hin.
  assert (Hg : TaskTypeRecordDataReset ∉ key_gates n) by (unfold key_gates; repeat case_match; set_solver).
  destruct (HoldRequested (n_Spec n)), (st_MaintenanceHold (n_Status n)); simpl;
    try (destruct (sidecarGateOpen n)); simpl; try (intros [= <-]; set_solver).
  all: destruct (podTemplateDrifted n platform); [intros [= <-]; rewrite elem_of_app; intros [?|?]; [done|set_solver]|].
  all: destruct (sidecarNeedsReapproval n); simpl; intros [= <-]; set_solver.
Qed.
Lemma reset_plan_reported {SCL : StatusConditionsLaws SC} platform lister probe planID now node err node' p :
  is_Running node = true -> MountsNodeConfig node = true -> has_active_plan node = false ->
  ResolvePlan platform lister probe planID now node = (err, node') ->
  st_Plan (n_Status node') = Some p -> isDataResetPlan (Some p) = true ->
  is_Some (node_cond node' ConditionDataResetInProgress).
Proof.
  intros Hr Hm Ha Hrun Hp Hreset.
  pose proof (resolved_persisted _ _ _ _ _ _ _ _ _ Ha Hrun Hp) as (np & n0 & n1 & Hf & _ & _ & _ & Hnp & _ & Hb & _ & _ & _ & _ & ->).
  pose proof (ctrl_frame_fields _ _ Hf) as (Hs & _ & _ & Hph & _).
  destruct (static_planner _ _ _ Hnp) as [base ->]; [by rewrite (MountsNodeConfig_spec _ _ Hs)|].
  simpl in Hb. unfold static_BuildPlan in Hb.
  assert (Hr0 : is_Running n0 = true) by (unfold is_Running; by rewrite Hph).
  rewrite Hr0 in Hb. destruct (static_running_types platform planID n0) as (n' & _ & Hseq).
  assert (Hin : TaskTypeRecordDataReset ∈ types_of p).
  { simpl in Hreset. unfold has_task in Hreset. apply existsb_exists in Hreset as (t & Hin & Hty).
    apply String.eqb_eq in Hty. unfold types_of. rewrite <- Hty. apply list_elem_of_fmap. exists t.
    split; [done|]. by apply list_elem_of_In. }
  assert (Hpend : DataResetPending n0 = true).
  { destruct (running_sequence platform n0) as [seq|] eqn:Es; [|congruence].
    destruct Hseq as (q & Hq & <-). rewrite Hb in Hq. simplify_eq. by eapply running_sequence_reset. }
  assert (Hc : node_cond (persistPlan p now n1) ConditionDataResetInProgress = node_cond n1 ConditionDataResetInProgress)
    by (unfold persistPlan; by destruct (_ || _)).
  rewrite Hc. unfold static_buildRunningPlan in Hb. rewrite Hpend in Hb.
  repeat case_match; simplify_eq; apply markDataResetStarted_reported.
Qed.

Lemma mountedConfigWriterInPlan_spec n p :
  MountsNodeConfig n = true -> mountedConfigWriterInPlan n (Some p) = "" ->
  Forall (fun ty => mem ty mountedConfigWriters = false) (types_of p).
Proof.
  unfold mountedConfigWriterInPlan. intros ->. simpl.
  destruct (list_find _ (pl_Tasks p)) as [[i t]|] eqn:E.
  - apply list_find_Some in E as (_ & Hm & _). intros Ht. by rewrite Ht in Hm.
  - intros _. apply list_find_None in E. unfold types_of. apply Forall_fmap.
    eapply Forall_impl; [exact E|]. intros t Ht. simpl in *. by apply not_true_is_false.
Qed.

(** The sequences of a Running node hold none of the writers. *)
Lemma running_sequence_no_writer platform n seq :
  running_sequence platform n = Some seq ->
  Forall (fun ty => mem ty (TaskConfigValidate :: mountedConfigWriters) = false) seq.
Proof.
  unfold running_sequence, hold_sequence.
  assert (Hg : Forall (fun ty => mem ty (TaskConfigValidate :: mountedConfigWriters) = false) (key_gates n)).
  { unfold key_gates. repeat case_match; repeat constructor. }
  destruct (DataResetPending n); [repeat case_bool_decide; intros [= <-]; repeat constructor|].
  destruct (HoldRequested (n_Spec n)), (st_MaintenanceHold (n_Status n)); simpl;
    try (destruct (sidecarGateOpen n)); simpl; try (intros [= <-]; repeat constructor).
  all: destruct (podTemplateDrifted n platform);
    [intros [= <-]; apply Forall_app; split; [exact Hg|repeat constructor]|].
  all: destruct (sidecarNeedsReapproval n); simpl; intros [= <-]; repeat constructor.
Qed.

(** Property: The operator's config files are never written over. No plan a reconcile
    persists for a node with mounted config carries a task that writes config.toml
    or app.toml, whichever builder made it; and for a Running node the refusal that
    guards this never strikes, since its planner builds no such task to begin
    with, nor a config-validate. *)
Theorem mounted_config_never_written platform lister probe planID now node err node' p :
  MountsNodeConfig node = true -> has_active_plan node = false ->
  ResolvePlan platform lister probe planID now node = (err, node') ->
  st_Plan (n_Status node') = Some p ->
  Forall (fun ty => mem ty mountedConfigWriters = false) (types_of p) /\
  (is_Running node = true ->
   Forall (fun ty => mem ty (TaskConfigValidate :: mountedConfigWriters) = false) (types_of p)).
Proof.
  intros Hm Ha Hrun Hp.
  pose proof (resolved_persisted _ _ _ _ _ _ _ _ _ Ha Hrun Hp) as Hper. split.
  - destruct Hper as (np & n0 & n1 & Hf & _ & _ & _ & _ & _ & _ & [cs Hc] & _ & Hw & _).
    apply (mountedConfigWriterInPlan_spec n1); [|done].
    apply ctrl_frame_fields in Hf as (Hs & _). rewrite <- Hm. apply MountsNodeConfig_spec.
    by rewrite Hc.
  - intros Hr. destruct (persisted_sequence _ _ _ _ _ _ _ Hper Hr Hm) as (n0 & _ & Hseq).
    by eapply running_sequence_no_writer.
Qed.

(** Property: The state-sync gate fails closed. A node that is not Running and whose
    bootstrap source needs witnesses gets no plan at all while its StateSyncReady
    condition says anything but True. *)
Theorem statesync_gate_closed platform lister probe planID now node err node' c :
  is_Running node = false -> needsStateSyncWitnesses (SnapshotSourceOf (n_Spec node)) = true ->
  has_active_plan node = false -> StatusConditionsLaws SC ->
  node_cond node ConditionStateSyncReady = Some c -> c_Status c <> ConditionTrue ->
  ResolvePlan platform lister probe planID now node = (err, node') ->
  err = None /\ st_Plan (n_Status node') = None /\ st_Phase (n_Status node') = st_Phase (n_Status node).
Proof.
  intros Hr Hw Ha SCL Hc Hst. unfold ResolvePlan. rewrite Hr.
  assert (Hn : forall (o : option (result bool)), match o with Some h => node | None => node end = node)
    by (by intros []).
  rewrite Hn, Ha. destruct (handleTerminalPlan_spec node Ha) as [Hf Hp0].
  pose proof (ctrl_frame_fields _ _ Hf) as (Hs & _ & _ & Hph & _).
  assert (Hcond : node_cond (handleTerminalPlan node) ConditionStateSyncReady = Some c).
  { rewrite <- Hc. apply handleTerminalPlan_cond; done. }
  assert (Hblk : StateSyncBlocksPlan (handleTerminalPlan node) = true).
  { unfold StateSyncBlocksPlan, is_Running. rewrite Hph, Hs, Hw, Hcond.
    unfold is_Running in Hr. rewrite Hr. simpl. by apply bool_decide_eq_true. }
  rewrite Hblk. intros [= <- <-]. done.
Qed.

End ResolveClaims.

(** ** Where an update starts *)
Section Starts.
Context {C : SeiConfig} {H : Hashes} {HL : HashesLaws H} {SC : StatusConditions} {SCL : StatusConditionsLaws SC}.

(** The task types that make a plan of the class node-update. *)
Fixpoint observes_first (types : list string) : bool :=
  match types with
  | [] => false
  | ty :: types' =>
      if ty =s TaskTypeObserveImage then true
      else if (ty =s TaskTypeEnsureDataPVC) || (ty =s TaskTypeRestartSeid) then false else observes_first types'
  end.
Definition node_update_types (types : list string) : bool :=
  negb (mem TaskTypeRecordDataReset types) && negb (mem TaskTypeRecordMaintenanceHold types) && observes_first types.

Lemma has_task_types ty p : has_task ty p = mem ty (types_of p).
Proof.
  unfold has_task, types_of, mem. induction (pl_Tasks p) as [|t ts IH]; [done|]. simpl. rewrite IH. f_equal.
  apply String.eqb_sym.
Qed.
Lemma node_update_class p : node_update_types (types_of p) = true -> classifyPlan p = planClassNodeUpdate.
Proof.
  unfold node_update_types. intros [[Hr%negb_true_iff Hm%negb_true_iff]%andb_true_iff Ho]%andb_true_iff.
  unfold classifyPlan. simpl. rewrite !has_task_types, Hr, Hm. simpl. unfold types_of in Ho.
  assert (Hc : classifyTasks (pl_Tasks p) = Some planClassNodeUpdate); [|by rewrite Hc].
  induction (pl_Tasks p) as [|t ts IH]; [done|]. revert Ho. simpl.
  destruct (pt_Type t =s TaskTypeObserveImage); [done|]. destruct (pt_Type t =s TaskTypeEnsureDataPVC); [done|].
  destruct (pt_Type t =s TaskTypeRestartSeid); [done|]. apply IH.
Qed.

(** A build that announces an update is one of a Running node, and when the pod
    template drifted its plan has the class the budget paces. *)
Definition announces (platform : PlatformConfig) (n : SeiNode) (r : build) : Prop :=
  updateInProgress r.2 = true -> updateInProgress n = true \/
  is_Running n = true /\
  (podTemplateDrifted n platform = true -> exists p, r.1 = Ok (Some p) /\ node_update_types (types_of p) = true).

Lemma announces_quiet platform n r : updateInProgress r.2 = updateInProgress n -> announces platform n r.
Proof. unfold announces. intros ->. by left. Qed.
Lemma update_set status reason message n :
  updateInProgress (setNodeUpdateCondition status reason message n) = bool_decide (status = ConditionTrue).
Proof. apply cond_is_set. Qed.

Definition gated_update (prog : list string) : Prop :=
  exists gates, prog = gates ++ imageUpdateProgression /\
    gates ⊆ [TaskTypeValidateSigningKey; TaskTypeValidateNodeKey; TaskTypeValidateOperatorKeyring].
Lemma gates_update gates rest :
  gates ⊆ [TaskTypeValidateSigningKey; TaskTypeValidateNodeKey; TaskTypeValidateOperatorKeyring] ->
  node_update_types rest = true -> node_update_types (gates ++ rest) = true.
Proof.
  intros Hg Hr. induction gates as [|ty gates IH]; [done|].
  assert (Hty : ty ∈ [TaskTypeValidateSigningKey; TaskTypeValidateNodeKey; TaskTypeValidateOperatorKeyring]) by set_solver.
  specialize (IH ltac:(set_solver)). unfold node_update_types, mem in *. simpl.
  repeat (apply elem_of_cons in Hty as [->|Hty]; [exact IH|]). by apply elem_of_nil in Hty.
Qed.
Lemma spliced_gates gates rest :
  gates ⊆ [TaskTypeValidateSigningKey; TaskTypeValidateNodeKey; TaskTypeValidateOperatorKeyring] ->
  spliced (gates ++ rest) = gates ++ spliced rest.
Proof.
  intros Hg. induction gates as [|ty gates IH]; [done|]. rewrite <- !app_comm_cons, spliced_cons, IH by set_solver.
  assert (Hty : ty ∈ [TaskTypeValidateSigningKey; TaskTypeValidateNodeKey; TaskTypeValidateOperatorKeyring]) by set_solver.
  repeat (apply elem_of_cons in Hty as [->|Hty]; [done|]). by apply elem_of_nil in Hty.
Qed.
Definition imageUpdate_regenerating : list string :=
  [TaskTypeApplyStatefulSet; TaskTypeApplyService; TaskConfigApply; TaskConfigPatch; TaskConfigValidate;
   TaskTypeReplacePod; TaskTypeObserveImage; TaskMarkReady].
Lemma gated_progression node gates prog :
  gates ⊆ [TaskTypeValidateSigningKey; TaskTypeValidateNodeKey; TaskTypeValidateOperatorKeyring] ->
  updateProgression node (gates ++ imageUpdateProgression) = Ok prog ->
  prog = gates ++ imageUpdateProgression \/ prog = gates ++ imageUpdate_regenerating.
Proof.
  intros Hg. unfold updateProgression. destruct (_ || _); [|intros [= <-]; by left].
  unfold insertBefore. destruct (mem _ _); [intros [= <-]; by left|]. right.
  assert (Hi : insert_at_first (gates ++ imageUpdateProgression) TaskConfigPatch TaskConfigApply =
    Some (gates ++ imageUpdate_regenerating)); [|rewrite Hi in *; congruence].
  clear -Hg. induction gates as [|ty gates IH]; [done|].
  assert (Hty : ty ∈ [TaskTypeValidateSigningKey; TaskTypeValidateNodeKey; TaskTypeValidateOperatorKeyring]) by set_solver.
  specialize (IH ltac:(set_solver)).
  repeat (apply elem_of_cons in Hty as [->|Hty]; [simpl; by rewrite IH|]). by apply elem_of_nil in Hty.
Qed.
Lemma mode_update_types planID node prog patch p node' : gated_update prog ->
  assembleUpdatePlan planID node prog patch = (Ok p, node') -> node_update_types (types_of p) = true.
Proof.
  intros (gates & -> & Hg). unfold assembleUpdatePlan.
  destruct (updateProgression node _) as [prog|] eqn:Ep; [|done].
  assert (Ht : node_update_types prog = true /\ node_update_types (spliced prog) = true).
  { destruct (gated_progression _ _ _ Hg Ep) as [->| ->]; rewrite spliced_gates by done; by split; apply gates_update. }
  clear Ep. simpl. destruct (withConfigValues _ node) as [q|] eqn:Ew; simpl; [|done]. intros [= <- _].
  apply (withConfigValues_spec planID) in Ew as (_ & _ & _ & _ & _ & _ & Hq); [|done|done|apply buildTasks_indexed].
  unfold types_of. rewrite Hq. cbn [pl_Tasks]. rewrite buildTasks_types. by destruct (has_overlay node); apply Ht.
Qed.
Lemma mode_announces platform prog planID node : is_Running node = true -> gated_update prog ->
  announces platform node (modeRunningPlan platform prog planID node).
Proof.
  intros Hr Hp Hu. right. split; [done|]. intros Hd. revert Hu. unfold modeRunningPlan. rewrite Hd. unfold announce.
  destruct (assembleUpdatePlan _ _ _ _) as [[p|e] n'] eqn:E; simpl.
  - intros _. exists p. split; [done|]. by eapply mode_update_types.
  - assert (En : n' = setNodeUpdateCondition ConditionFalse reasonUpdatePlanBuildFailed e node).
    { revert E. unfold assembleUpdatePlan, record_build_error. case_match; by intros [= <- <-]. }
    rewrite En, update_set. done.
Qed.
Lemma plannerForMode_announces platform n0 np planID node : plannerForMode platform n0 = Ok np ->
  announces platform node (np_BuildPlan np planID node).
Proof.
  intros Hm. unfold plannerForMode in Hm. repeat case_match; simplify_eq; simpl;
    unfold fullNode_BuildPlan, archive_BuildPlan, replayer_BuildPlan, validator_BuildPlan, seed_BuildPlan;
    (destruct (is_Running node) eqn:Hr; [apply mode_announces; [done|]|try (destruct (isGenesisCeremonyNode node)); by apply announces_quiet]);
    try (exists []; split; [done|set_solver]).
  - exists (key_gates node). split; [done|]. unfold key_gates. repeat case_match; set_solver.
  - eexists. split; [done|]. case_match; set_solver.
Qed.
Lemma static_announces platform planID node : is_Running node = true ->
  announces platform node (static_buildRunningPlan platform planID node).
Proof.
  intros Hr. unfold static_buildRunningPlan. destruct (DataResetPending node).
  { apply announces_quiet.
    assert (Hm : updateInProgress (markDataResetStarted node) = updateInProgress node).
    { unfold markDataResetStarted, setDataResetCondition. case_match; [done|]. unfold updateInProgress. by apply cond_is_set_other. }
    by repeat case_match. }
  destruct (buildHoldPlan planID node _ _); [by apply announces_quiet|].
  destruct (podTemplateDrifted node platform) eqn:Hd.
  - intros _. right. split; [done|]. intros _. simpl. eexists. split; [reflexivity|].
    assert (Hg : key_gates node ⊆ [TaskTypeValidateSigningKey; TaskTypeValidateNodeKey; TaskTypeValidateOperatorKeyring])
      by (unfold key_gates; repeat case_match; set_solver).
    unfold types_of. case_bool_decide; simpl.
    + rewrite (filter_types (fun ty => ty <>s TaskMarkReady)), buildTasks_types, List.filter_app.
      rewrite filter_no_mark_ready by apply key_gates_no_mark_ready. by apply gates_update.
    + rewrite buildTasks_types. by apply gates_update.
  - destruct (_ && _); by apply announces_quiet.
Qed.
Lemma planner_announces platform n0 np planID node : plannerFor platform n0 = Ok np ->
  announces platform node (np_BuildPlan np planID node).
Proof.
  unfold plannerFor. destruct (plannerForMode platform n0) as [m|] eqn:Em; simpl; [|done]. intros Hnp.
  pose proof (plannerForMode_announces _ _ _ planID node Em) as Hm. destruct (negb _); injection Hnp as <-; [done|].
  simpl. unfold static_BuildPlan. destruct (is_Running node) eqn:Hr; [by apply static_announces|].
  intros Hu. left. destruct (np_BuildPlan m planID node) as [[[p|]|e] n1]; unfold announces in Hm; simpl in *;
    [case_bool_decide; simpl in Hu|..]; destruct (Hm Hu) as [?|[? _]]; congruence.
Qed.

(** An update that a [ResolvePlan] starts is one of a Running node, and of a drifted
    pod template only with a slot. *)
Lemma handleTerminal_update n : updateInProgress (handleTerminalPlan n) = true -> updateInProgress n = true.
Proof.
  unfold handleTerminalPlan. destruct (st_Plan (n_Status n)) as [p|]; [|done].
  assert (Ho : updateInProgress (observeTerminalDataResetPlan p n) = updateInProgress n).
  { unfold observeTerminalDataResetPlan, setDataResetCondition, updateInProgress.
    repeat case_match; rewrite ?cond_is_set_other; done. }
  rewrite <- Ho. set (n1 := observeTerminalDataResetPlan p n).
  assert (Hpl : forall n2 pl, updateInProgress (upd_status (set_Plan pl) n2) = updateInProgress n2) by done.
  destruct (pl_Phase p); [done|..]; rewrite Hpl; repeat case_match; rewrite ?update_set; done.
Qed.
Lemma probe_update (probe : option (result bool)) n :
  updateInProgress match probe with Some h => if is_Running n then probeSidecarHealth h n else n | None => n end =
  updateInProgress n.
Proof.
  destruct probe as [h|]; [|done]. destruct (is_Running n); [|done].
  unfold probeSidecarHealth, setSidecarReadyCondition, updateInProgress. repeat case_match; by apply cond_is_set_other.
Qed.
Lemma drifted_frame platform n n' : ctrl_frame n n' -> podTemplateDrifted n' platform = podTemplateDrifted n platform.
Proof. by intros (cs & pl & ->). Qed.
Lemma update_starts platform lister probe planID now m err m' :
  ResolvePlan platform lister probe planID now m = (err, m') ->
  updateInProgress m = false -> updateInProgress m' = true ->
  is_Running m = true /\
  (podTemplateDrifted m platform = true -> exists n1 msg, ctrl_frame m n1 /\ DriftSlot platform lister n1 = Ok (true, msg)).
Proof.
  unfold ResolvePlan. pose proof (probe_update probe m) as Hpu.
  set (n := match probe with Some h => if is_Running m then probeSidecarHealth h m else m | None => m end) in *.
  assert (Hn : conds_only m n) by (subst n; repeat case_match; auto using probe_conds with sei).
  rewrite (has_active_conds _ _ Hn). intros Hrun Hm Hu. rewrite Hm in Hpu.
  destruct (has_active_plan m) eqn:Ea; [injection Hrun as _ <-; congruence|].
  destruct (handleTerminalPlan_spec n) as [Hf _]; [by rewrite (has_active_conds _ _ Hn)|].
  pose proof (handleTerminal_update n) as Ht. set (n0 := handleTerminalPlan n) in *.
  assert (Hf0 : ctrl_frame m n0) by (eapply ctrl_frame_trans; [by apply ctrl_frame_conds|done]).
  assert (Hq : updateInProgress n0 = false) by (destruct (updateInProgress n0); [by rewrite (Ht eq_refl) in Hpu|done]).
  destruct (StateSyncBlocksPlan n0); [injection Hrun as _ <-; congruence|].
  destruct (PeersBlockPlan n0 now); [injection Hrun as _ <-; congruence|].
  destruct (plannerFor platform n0) as [np|] eqn:Enp; [|injection Hrun as _ <-; congruence].
  destruct (np_Validate np n0); [|injection Hrun as _ <-; congruence].
  pose proof (planner_announces _ _ _ planID n0 Enp) as Hann.
  destruct (plannerFor_laws _ _ _ Enp planID n0) as [Hc _].
  destruct (np_BuildPlan np planID n0) as [[plan|e] n1]; unfold announces in Hann; simpl in Hc, Hann.
  2:{ injection Hrun as _ <-. destruct (Hann Hu) as [?|[Hr Hd]]; [congruence|]. split.
      - apply ctrl_frame_fields in Hf0 as (_ & _ & _ & Hph & _). revert Hr. unfold is_Running. by rewrite Hph.
      - intros Hdr. rewrite (drifted_frame _ _ _ Hf0) in Hd. by destruct (Hd Hdr) as (? & ? & _). }
  assert (Hf1 : ctrl_frame m n1) by (eapply ctrl_frame_trans; [exact Hf0|by apply ctrl_frame_conds]).
  assert (Hu1 : updateInProgress n1 = true /\
    forall p, plan = Some p -> isDriftUpdatePlan platform n1 p = true -> exists msg, DriftSlot platform lister n1 = Ok (true, msg)).
  { revert Hrun. unfold admitPlan. cbv zeta. destruct (negb (mountedConfigWriterInPlan n1 plan =s "")).
    { intros [= _ <-]. by rewrite update_set in Hu. }
    assert (Hkeep : forall p, updateInProgress (persistPlan p now n1) = updateInProgress n1)
      by (intros p; unfold persistPlan; by destruct (_ || _)).
    destruct plan as [p|].
    - destruct (isDriftUpdatePlan platform n1 p) eqn:Edp.
      + destruct (DriftSlot platform lister n1) as [[[] msg]|e]; intros [= _ <-]; try (by rewrite update_set in Hu).
        rewrite Hkeep in Hu. split; [done|]. intros q [= <-] _. by exists msg.
      + intros [= _ <-]. rewrite Hkeep in Hu. split; [done|]. intros q [= <-] Hx. congruence.
    - destruct (shouldExplainUnobservedConfig n1); intros [= _ <-]; [by rewrite update_set in Hu|]. by split. }
  destruct Hu1 as [Hu1 Hslot]. destruct (Hann Hu1) as [?|[Hr Hd]]; [congruence|]. split.
  - apply ctrl_frame_fields in Hf0 as (_ & _ & _ & Hph & _). revert Hr. unfold is_Running. by rewrite Hph.
  - intros Hdr. rewrite (drifted_frame _ _ _ Hf0) in Hd. destruct (Hd Hdr) as (p & [= ->] & Hty).
    destruct (Hslot p eq_refl) as [msg Hs]; [|by exists n1, msg].
    unfold isDriftUpdatePlan. rewrite (drifted_frame _ _ _ Hf1), Hdr, node_update_class by done. done.
Qed.
End Starts.

(** ** The drift-roll budget over time *)
Section Budget.
Context {C : SeiConfig} {H : Hashes} {HL : HashesLaws H} {SC : StatusConditions} {SCL : StatusConditionsLaws SC}.
Variable platform : PlatformConfig.

Definition rolling (n : SeiNode) : bool := counted n && updateInProgress n.
Definition rolling_count (items : list SeiNode) : nat := length (List.filter rolling items).

Lemma driftUpdating_length items : length (driftUpdating items) = rolling_count items.
Proof. unfold driftUpdating. by rewrite sort_strings_perm, length_fmap. Qed.

Lemma filter_insert_count {A} (f : A -> bool) (l : list A) i x y :
  l !! i = Some x ->
  length (List.filter f (<[i := y]> l)) + (if f x then 1 else 0) =
  length (List.filter f l) + (if f y then 1 else 0).
Proof.
  intros Hi. apply list_elem_of_split_length in Hi as (l1 & l2 & -> & ->).
  rewrite insert_middle, !List.filter_app, !length_app. simpl.
  destruct (f x), (f y); simpl; lia.
Qed.

Lemma slots_insert items i n n' :
  items !! i = Some n -> counted n' = counted n ->
  driftSlots platform (<[i := n']> items) = driftSlots platform items.
Proof.
  intros Hi Hc. unfold driftSlots. do 3 f_equal.
  pose proof (filter_insert_count counted _ _ _ n' Hi) as Hl. rewrite Hc in Hl. f_equal. lia.
Qed.

Lemma names_insert (items : list SeiNode) i n n' :
  items !! i = Some n -> n_Name n' = n_Name n -> n_Name <$> <[i := n']> items = n_Name <$> items.
Proof.
  intros Hi Hn. rewrite list_fmap_insert, Hn. apply list_insert_id. by rewrite list_lookup_fmap, Hi.
Qed.

(** A granted slot: the node is rolling already, or there is room for one more. *)
Lemma DriftSlot_granted items i n msg :
  (0 < pc_DriftUpdateBudgetPercent platform)%Z -> NoDup (n_Name <$> items) ->
  items !! i = Some n -> DriftSlot platform (Some (fun _ => Ok items)) n = Ok (true, msg) ->
  rolling n = true \/ (Z.of_nat (rolling_count items) < driftSlots platform items)%Z.
Proof.
  intros Hpc Hnd Hi. unfold DriftSlot.
  destruct (Z.leb_spec (pc_DriftUpdateBudgetPercent platform) 0); [lia|]. simpl.
  rewrite <- driftUpdating_length.
  destruct (index_of (n_Name n) _) as [j|] eqn:Ej.
  - destruct (Z.ltb_spec (Z.of_nat j) (driftSlots platform items)) as [Hlt|]; [|done]. intros _.
    unfold index_of in Ej. destruct (list_find _ _) as [[j' x]|] eqn:Ef; [|done].
    injection Ej as ->. apply list_find_Some in Ef as (Hx & -> & _).
    apply lookup_app_Some in Hx as [Hx|[Hle _]]; [|right; lia]. left.
    apply list_elem_of_lookup_2 in Hx. unfold driftUpdating in Hx.
    rewrite sort_strings_perm in Hx. apply list_elem_of_fmap in Hx as (m & Hname & Hm).
    apply list_elem_of_In, filter_In in Hm as [Hin Hroll].
    apply list_elem_of_In, list_elem_of_lookup in Hin as [k Hk].
    assert (k = i) as ->.
    { eapply NoDup_lookup; [exact Hnd| |]; rewrite list_lookup_fmap; [by rewrite Hk|rewrite Hi; simpl; by f_equal]. }
    by simplify_eq.
  - destruct (Z.ltb_spec (Z.of_nat (length (driftUpdating items ++ driftWaiting platform items)))
      (driftSlots platform items)) as [Hlt|]; [|done]. intros _. right.
    rewrite length_app in Hlt. lia.
Qed.

(** The namespace over time: its SeiNodes as stored, the largest number of slots a
    decision has had, and how many nodes came to be updating without a slot. *)
Record fleet := mkFleet { fl_items : list SeiNode; fl_peak : Z; fl_extra : nat }.
Definition entered (n n' : SeiNode) : nat := if negb (rolling n) && rolling n' then 1 else 0.

(** The node a reconcile has in memory when it resolves its plan: it stores its
    status only when it read the stored node, and up to there it changes
    neither the phase nor whether an update is in progress. *)
Definition read_as (n m : SeiNode) : Prop :=
  n_Name m = n_Name n /\ n_Namespace m = n_Namespace n /\ n_Spec m = n_Spec n /\ st_Phase (n_Status m) = st_Phase (n_Status n) /\
  updateInProgress m = updateInProgress n.
(** The List of the budget bypasses the cache: it answers what is stored, or fails. *)
Definition lists (answer : result (list SeiNode)) (items : list SeiNode) : Prop :=
  answer = Ok items \/ exists e, answer = Err e.

(** A step: a reconcile resolves the plan of a node and stores it (one reconcile
    runs at a time); anything else happens to a node, by its plan, its spec or
    another actor, except that only a reconcile puts its update in progress; a
    node is created or goes away. A node that comes to be updating is counted as
    extra unless a reconcile began to update its drifted pod template. *)
Inductive fleet_step : fleet -> fleet -> Prop :=
| fleet_resolve i n m answer probe planID now items peak extra :
    items !! i = Some n -> read_as n m -> lists answer items ->
    let m' := (ResolvePlan platform (Some (fun _ => answer)) probe planID now m).2 in
    fleet_step (mkFleet items peak extra)
      (mkFleet (<[i := m']> items) (Z.max peak (driftSlots platform items))
         (extra + if podTemplateDrifted m platform then 0 else entered n m'))
| fleet_other i n n' items peak extra :
    items !! i = Some n -> n_Name n' = n_Name n -> (updateInProgress n' = true -> updateInProgress n = true) ->
    fleet_step (mkFleet items peak extra) (mkFleet (<[i := n']> items) peak (extra + entered n n'))
| fleet_create n items peak extra :
    n_Name n ∉ n_Name <$> items -> updateInProgress n = false ->
    fleet_step (mkFleet items peak extra) (mkFleet (items ++ [n]) peak extra)
| fleet_delete i items peak extra :
    fleet_step (mkFleet items peak extra) (mkFleet (delete i items) peak extra).

Lemma rolling_app l1 l2 : rolling_count (l1 ++ l2) = rolling_count l1 + rolling_count l2.
Proof. unfold rolling_count. by rewrite List.filter_app, length_app. Qed.
Lemma rolling_insert (items : list SeiNode) i n n' : items !! i = Some n ->
  rolling_count (<[i := n']> items) <= rolling_count items + entered n n'.
Proof.
  intros Hi. pose proof (filter_insert_count rolling items i n n' Hi) as Hl. unfold rolling_count, entered.
  destruct (rolling n), (rolling n'); simpl; lia.
Qed.
Lemma rolling_delete (items : list SeiNode) i : rolling_count (delete i items) <= rolling_count items.
Proof.
  unfold rolling_count. induction (sublist_delete items i) as [|n l1 l2 _ IH|n l1 l2 _ IH]; simpl; [done|..];
    destruct (rolling n); simpl; lia.
Qed.

(** What a reconcile leaves of what the budget counts. *)
Lemma resolve_counts lister probe planID now m :
  let m' := (ResolvePlan platform lister probe planID now m).2 in
  n_Name m' = n_Name m /\ counted m' = counted m.
Proof.
  cbv zeta. destruct (ResolvePlan platform lister probe planID now m) as [err m'] eqn:E. simpl.
  assert (Hf : n_Name m' = n_Name m /\ n_Spec m' = n_Spec m /\ is_Running m' = is_Running m).
  { destruct (ResolvePlan_cases _ _ _ _ _ _ _ _ E) as [(_ & [cs ->] & _)|[_ [[Hf _]|(_ & p & Hp)]]]; [done|..].
    - apply ctrl_frame_fields in Hf as (Hs & Hn & _ & Hph & _). unfold is_Running. by rewrite Hph.
    - destruct Hp as (np & n0 & n1 & Hf & _ & _ & _ & _ & _ & _ & [cs ->] & _ & _ & _ & ->).
      apply ctrl_frame_fields in Hf as (Hs & Hn & _ & Hph & _). unfold persistPlan, is_Running. simpl.
      destruct (bool_decide (st_Phase (n_Status n0) = PhaseNone)) eqn:E1;
        [|destruct (bool_decide (st_Phase (n_Status n0) = PhasePending)) eqn:E2]; simpl; rewrite <- ?Hph.
      + split_and!; [done..|]. apply bool_decide_eq_true in E1. by rewrite E1.
      + split_and!; [done..|]. apply bool_decide_eq_true in E2. by rewrite E2.
      + done. }
  destruct Hf as (Hn & Hs & Hr). split; [done|]. unfold counted. by rewrite Hs, Hr.
Qed.
Lemma DriftSlot_name lister n n1 :
  n_Name n1 = n_Name n -> n_Namespace n1 = n_Namespace n -> DriftSlot platform lister n1 = DriftSlot platform lister n.
Proof. unfold DriftSlot. by intros -> ->. Qed.
Lemma DriftSlot_listed answer items n msg : (0 < pc_DriftUpdateBudgetPercent platform)%Z -> lists answer items ->
  DriftSlot platform (Some (fun _ => answer)) n = Ok (true, msg) ->
  DriftSlot platform (Some (fun _ => Ok items)) n = Ok (true, msg).
Proof.
  intros Hpc [->|[e ->]]; [done|]. unfold DriftSlot. destruct (Z.leb_spec (pc_DriftUpdateBudgetPercent platform) 0); [lia|].
  done.
Qed.
(** A reconcile that starts a pod-template update had room for it. *)
Lemma resolve_within i n m answer probe planID now items :
  (0 < pc_DriftUpdateBudgetPercent platform)%Z -> NoDup (n_Name <$> items) ->
  items !! i = Some n -> read_as n m -> lists answer items ->
  let m' := (ResolvePlan platform (Some (fun _ => answer)) probe planID now m).2 in
  podTemplateDrifted m platform = true -> rolling n = false -> rolling m' = true ->
  (Z.of_nat (rolling_count items) < driftSlots platform items)%Z.
Proof.
  intros Hpc Hnd Hi (Hn & Hns & Hs & Hph & Hu) Hans m' Hd Hr Hr'.
  destruct (resolve_counts (Some (fun _ => answer)) probe planID now m) as [_ Hc].
  change (counted m' = counted m) in Hc. unfold rolling in Hr, Hr'. apply andb_true_iff in Hr' as [Hc' Hu'].
  assert (Hcn : counted n = counted m) by (unfold counted, is_Running; by rewrite Hs, Hph).
  rewrite Hcn, <- Hc, Hc' in Hr. simpl in Hr. rewrite <- Hu in Hr.
  destruct (ResolvePlan platform (Some (fun _ => answer)) probe planID now m) as [err x] eqn:E. simpl in m'. subst m'.
  destruct (update_starts _ _ _ _ _ _ _ _ E Hr Hu') as [_ Hslot]. destruct (Hslot Hd) as (n1 & msg & Hf & Hg).
  apply ctrl_frame_fields in Hf as (_ & Hn1 & Hns1 & _).
  apply (DriftSlot_listed _ items) in Hg; [|done|done]. rewrite (DriftSlot_name _ n n1) in Hg by congruence.
  pose proof (DriftSlot_granted items i n msg Hpc Hnd Hi Hg) as Hroll.
  destruct Hroll as [Hx|]; [|done]. unfold rolling in Hx. rewrite Hcn, <- Hc, Hc', <- Hu, Hr in Hx. done.
Qed.

Definition fleet_ok (s : fleet) : Prop :=
  NoDup (n_Name <$> fl_items s) /\ (Z.of_nat (rolling_count (fl_items s)) <= fl_peak s + Z.of_nat (fl_extra s))%Z.
Lemma fleet_step_ok s s' : (0 < pc_DriftUpdateBudgetPercent platform)%Z -> fleet_step s s' -> fleet_ok s -> fleet_ok s'.
Proof.
  intros Hpc Hs. unfold fleet_ok.
  destruct Hs as [i n m answer probe planID now items peak extra Hi Hm Hans m'|i n n' items peak extra Hi Hn Hu
    |n items peak extra Hn Hu|i items peak extra]; simpl; intros [Hnd Hle].
  - destruct (resolve_counts (Some (fun _ => answer)) probe planID now m) as [Hnm _]. change (n_Name m' = n_Name m) in Hnm.
    split; [rewrite (names_insert items i n m' Hi); [done|]; rewrite Hnm; apply Hm|].
    pose proof (rolling_insert items i n m' Hi) as Hr. destruct (podTemplateDrifted m platform) eqn:Ed; [|lia].
    unfold entered in Hr. destruct (rolling n) eqn:Ern; simpl in Hr; [lia|]. destruct (rolling m') eqn:Erm; [|lia].
    pose proof (resolve_within i n m answer probe planID now items Hpc Hnd Hi Hm Hans Ed Ern Erm). lia.
  - split; [by rewrite (names_insert items i n n' Hi Hn)|]. pose proof (rolling_insert items i n n' Hi). lia.
  - split; [rewrite fmap_app; apply NoDup_app; split_and!; [done|intros x Hx Hx'; by apply list_elem_of_singleton in Hx' as ->|apply NoDup_singleton]|].
    rewrite rolling_app. unfold rolling_count at 2. simpl. unfold rolling. rewrite Hu, andb_false_r. simpl. lia.
  - pose proof (rolling_delete items i). split; [|lia].
    eapply sublist_NoDup; [exact Hnd|]. apply fmap_sublist, sublist_delete.
Qed.

(** C32: The roll slots of a namespace. Take any history of its SeiNodes from the empty
    namespace on: reconciles that resolve a plan against what is stored, and in
    between anything that pauses, resumes, edits, runs, creates or deletes
    nodes. With a budget set, a reconcile starts to update a drifted pod
    template only when with it at most max(1, N*percent/100) of the namespace's
    N Running and unpaused nodes are updating then, whatever happened before;
    and at any time no more are updating than the most slots a decision ever
    had, plus the nodes that came to be updating without a slot: those whose
    update is of their config alone, and those that were paused or not Running
    in the middle of an update and came back. *)
Theorem drift_slots_never_overfilled s :
  (0 < pc_DriftUpdateBudgetPercent platform)%Z -> rtc fleet_step (mkFleet [] 0 0) s ->
  (forall i n m answer probe planID now,
     fl_items s !! i = Some n -> read_as n m -> lists answer (fl_items s) ->
     let m' := (ResolvePlan platform (Some (fun _ => answer)) probe planID now m).2 in
     let items' := <[i := m']> (fl_items s) in
     podTemplateDrifted m platform = true -> rolling n = false -> rolling m' = true ->
     driftSlots platform items' = driftSlots platform (fl_items s) /\
     (Z.of_nat (rolling_count items') <= driftSlots platform items')%Z) /\
  (Z.of_nat (rolling_count (fl_items s)) <= fl_peak s + Z.of_nat (fl_extra s))%Z.
Proof.
  intros Hpc Hrtc. assert (Hok : fleet_ok s).
  { assert (Hrun : forall a b, rtc fleet_step a b -> fleet_ok a -> fleet_ok b) by (induction 1; eauto using fleet_step_ok).
    apply (Hrun _ _ Hrtc). split; [constructor|done]. }
  destruct Hok as [Hnd Hle]. split; [|done].
  intros i n m answer probe planID now Hi Hm Hans m' items' Hd Hr Hr'.
  pose proof (resolve_within i n m answer probe planID now _ Hpc Hnd Hi Hm Hans Hd Hr Hr') as Hlt.
  destruct (resolve_counts (Some (fun _ => answer)) probe planID now m) as [_ Hc]. change (counted m' = counted m) in Hc.
  assert (Hcn : counted m' = counted n).
  { destruct Hm as (_ & _ & Hs & Hph & _). rewrite Hc. unfold counted, is_Running. by rewrite Hs, Hph. }
  pose proof (slots_insert (fl_items s) i n m' Hi Hcn) as Es. unfold items'. split; [done|]. rewrite Es.
  pose proof (rolling_insert (fl_items s) i n m' Hi) as Hroll. unfold entered in Hroll. rewrite Hr, Hr' in Hroll. simpl in Hroll. lia.
Qed.

(** ** Pinning *)
Lemma EffectiveSidecarImage_pinned (node : SeiNode) img port res p s :
  (img <>s "") = true ->
  EffectiveSidecarImage (with_Spec node (with_Sidecar (Some (mkSidecarConfig img port res)) s)) p = img.
Proof. intros Hi. unfold EffectiveSidecarImage. simpl. by rewrite Hi. Qed.

(** Property: A node that waits for a roll slot renders the template it runs. The copy
    [pinnedToRunning] returns for a node whose running image is recorded shows no
    pod-template drift, so applying its StatefulSet rolls nothing; and apart from
    the image, the sidecar and the scheduling it is the node. *)
Theorem pinned_copy_not_drifted live node pinned :
  pinnedToRunning live node = Ok (Some pinned) -> st_CurrentImage (n_Status node) <> "" ->
  podTemplateDrifted pinned platform = false /\ n_Status pinned = n_Status node /\
  n_Name pinned = n_Name node /\ n_Annotations pinned = n_Annotations node /\
  sp_Paused (n_Spec pinned) = sp_Paused (n_Spec node) /\
  sp_NodeConfig (n_Spec pinned) = sp_NodeConfig (n_Spec node) /\
  sp_Maintenance (n_Spec pinned) = sp_Maintenance (n_Spec node).
Proof.
  unfold pinnedToRunning. intros Hpin Hcur. apply String.eqb_neq in Hcur. rewrite Hcur in Hpin. simpl in Hpin.
  assert (Hsplit : exists sidecar,
    (st_CurrentSidecarImage (n_Status node) = "" \/ sidecar = st_CurrentSidecarImage (n_Status node)) /\
    (let s := with_Image (st_CurrentImage (n_Status node)) (n_Spec node) in
     let s := if sidecar <>s ""
              then with_Sidecar (Some (mkSidecarConfig sidecar
                     match sp_Sidecar s with Some sc => sc_Port sc | None => 0%Z end
                                 (sp_Sidecar s ≫= sc_Resources))) s else s in
     let s := match st_CurrentNodeIsolation (n_Status node) with
              | IsolationNone => s
              | iso => with_Scheduling (Some (mkSchedulingConfig iso
                         match sp_Scheduling s with Some c => sch_NodePool c | None => "" end)) s
              end in
     let s := if RequestedNodePool node <>s st_CurrentNodePool (n_Status node)
              then with_Scheduling (Some (mkSchedulingConfig
                     match sp_Scheduling s with Some c => sch_NodeIsolation c | None => IsolationNone end
                     (st_CurrentNodePool (n_Status node)))) s else s in
     with_Spec node s) = pinned).
  { destruct (st_CurrentSidecarImage (n_Status node) =s "") eqn:Es.
    - apply String.eqb_eq in Es. destruct live; simpl in Hpin; try done;
        rewrite Hcur in Hpin; injection Hpin as Hpin; eexists; (split; [by left|exact Hpin]).
    - rewrite Hcur in Hpin. injection Hpin as Hpin. eexists; (split; [by right|exact Hpin]). }
  destruct Hsplit as (sidecar & Hsc & <-). clear Hpin.
  split; [|by repeat case_match].
  unfold podTemplateDrifted, imageDrifted, nodePoolDrifted, sidecarImageDrifted. cbv zeta.
  assert (Hstat : forall s, n_Status (with_Spec node s) = n_Status node) by done. rewrite !Hstat, Hcur.
  rewrite !orb_false_iff. split_and!.
  - destruct (RequestedNodePool node =s _), (st_CurrentNodeIsolation (n_Status node)), (sidecar =s "");
      simpl; by rewrite String.eqb_refl.
  - destruct (st_CurrentSidecarImage (n_Status node) =s "") eqn:Es; [done|].
    destruct Hsc as [Hsc|Hsc]; [by rewrite Hsc in Es|]. rewrite Hsc, Es. cbn [negb].
    unfold EffectiveSidecarImage.
    destruct (RequestedNodePool node =s _), (st_CurrentNodeIsolation (n_Status node));
      simpl; rewrite Es; simpl; by rewrite String.eqb_refl.
  - unfold nodeIsolationDrifted, EffectiveNodeIsolation. rewrite Hstat.
    destruct (st_CurrentNodeIsolation (n_Status node)); [done|..]; apply bool_decide_eq_false;
      destruct (RequestedNodePool node =s _), (sidecar =s ""); simpl; auto.
  - unfold RequestedNodePool at 1. destruct (RequestedNodePool node =s _) eqn:Ep; cbn [negb].
    + unfold RequestedNodePool in Ep.
      destruct (st_CurrentNodeIsolation (n_Status node)), (sidecar =s ""); simpl;
        revert Ep; destruct (sp_Scheduling (n_Spec node)); simpl; by intros ->.
    + destruct (st_CurrentNodeIsolation (n_Status node)), (sidecar =s ""); simpl;
        by rewrite String.eqb_refl.
Qed.
End Budget.

(** ** Witnesses *)
Abbreviation sample_resolve node :=
  (@ResolvePlan sample_config sample_hashes list_conditions (mkPlatformConfig "side" 100)
     None (Some (Ok false)) "p" 0 node).
Abbreviation resolved_plan node := (st_Plan (n_Status (sample_resolve node).2)).

(** A held node mid-drift, a node with a reset to do and a node that lost its
    readiness. *)
Definition drifted_held : SeiNode :=
  upd_status (fun s => set_MaintenanceHold HoldImmediate
                         (set_Observed "old" "side" NodeIsolationShared "" s)) (Sample.node HoldImmediate 0).
Definition reset_node : SeiNode := Sample.node HoldNone 3.

Lemma sample_resolved node p :
  resolved_plan node = Some p -> exists err node', sample_resolve node = (err, node') /\
    st_Plan (n_Status node') = Some p.
Proof. destruct (sample_resolve node) as [err node'] eqn:E. simpl. eauto. Qed.

Definition drifted_held_plan : TaskPlan := default (Sample.plan []) (resolved_plan drifted_held).
Definition reset_node_plan : TaskPlan := default (Sample.plan []) (resolved_plan reset_node).

Lemma drifted_held_plan_eq : resolved_plan drifted_held = Some drifted_held_plan.
Proof. vm_compute. reflexivity. Qed.
Lemma reset_node_plan_eq : resolved_plan reset_node = Some reset_node_plan.
Proof. vm_compute. reflexivity. Qed.

Lemma resolve_plan_wellformed_witness : plan_wf reset_node_plan /\ ids_distinct reset_node_plan.
Proof.
  destruct (sample_resolved _ _ reset_node_plan_eq) as (err & node' & Hrun & Hp).
  destruct (@resolve_plan_wellformed sample_config sample_hashes sample_hashes_laws list_conditions
    (mkPlatformConfig "side" 100) None (Some (Ok false)) "p" 0 reset_node err node' reset_node_plan Hrun)
    as (_ & Hwf & _ & _ & Hd).
  - intros q Hq. vm_compute in Hq. discriminate Hq.
  - exact Hp.
  - split; [exact Hwf|exact Hd].
Defined.

Lemma running_node_stays_running_witness :
  exists node' s', st_Plan (n_Status node') = Some reset_node_plan /\
    @reconciles unit sync_runtime 0 1 (mkState (ObjNode node') reset_node_plan tt ∅) = Some s' /\
    obj_phase (es_obj s') = Some PhaseRunning.
Proof.
  destruct (sample_resolved _ _ reset_node_plan_eq) as (err & node' & Hrun & Hp).
  destruct (@executePlan_total unit sync_runtime 0 (mkState (ObjNode node') reset_node_plan tt ∅))
    as (r & s' & He).
  exists node', s'. split; [exact Hp|].
  assert (Hrec : @reconciles unit sync_runtime 0 1 (mkState (ObjNode node') reset_node_plan tt ∅) = Some s')
    by (cbn [reconciles]; by rewrite He).
  split; [exact Hrec|].
  apply (@running_node_stays_running sample_config sample_hashes sample_hashes_laws list_conditions
    unit sync_runtime sync_runtime_frame (mkPlatformConfig "side" 100) None (Some (Ok false)) "p" 0 reset_node
    err node' reset_node_plan tt ∅ 1 s');
    [reflexivity|reflexivity|exact Hrun|exact Hp|exact Hrec].
Defined.

Lemma held_node_not_released_witness :
  types_of drifted_held_plan = [TaskTypeApplyStatefulSet; TaskTypeApplyService; TaskTypeObserveImage] /\
  (TaskMarkReady ∉ types_of drifted_held_plan).
Proof.
  split; [vm_compute; reflexivity|].
  destruct (sample_resolved _ _ drifted_held_plan_eq) as (err & node' & Hrun & Hp).
  exact (proj1 (@held_node_not_released sample_config sample_hashes sample_hashes_laws list_conditions
    (mkPlatformConfig "side" 100) None (Some (Ok false)) "p" 0 drifted_held err node' drifted_held_plan
    (mkPodView false false false) eq_refl eq_refl ltac:(discriminate) eq_refl Hrun Hp eq_refl)).
Defined.

Lemma persisted_plan_never_wipes_live_witness :
  TaskTypeResetDataKeepSignState ∈ types_of reset_node_plan /\
  wiped_live (run_view (types_of reset_node_plan) (mkPodView true true false)) = false.
Proof.
  split; [by_decide|].
  destruct (sample_resolved _ _ reset_node_plan_eq) as (err & node' & Hrun & Hp).
  exact (@persisted_plan_never_wipes_live sample_config sample_hashes sample_hashes_laws list_conditions
    (mkPlatformConfig "side" 100) None (Some (Ok false)) "p" 0 reset_node err node' reset_node_plan
    (mkPodView true true false) eq_refl eq_refl eq_refl Hrun Hp eq_refl).
Defined.

Lemma mounted_config_never_written_witness :
  Forall (fun ty => mem ty mountedConfigWriters = false) (types_of drifted_held_plan).
Proof.
  destruct (sample_resolved _ _ drifted_held_plan_eq) as (err & node' & Hrun & Hp).
  exact (proj1 (@mounted_config_never_written sample_config sample_hashes sample_hashes_laws list_conditions
    (mkPlatformConfig "side" 100) None (Some (Ok false)) "p" 0 drifted_held err node' drifted_held_plan
    eq_refl eq_refl Hrun Hp)).
Defined.

(** A node that bootstraps by state sync and has no witnesses. *)
Definition syncing_node : SeiNode :=
  mkSeiNode "n" "ns" 1 0 ∅
    (mkSeiNodeSpec "sei-test" "img" [] ∅ None None [] None None None
       (Some (mkFullNodeSpec (Some (mkSnapshotSource None (Some tt) "" [] 0)) None None))
       None None None None "" false 0 None)
    (mkSeiNodeStatus PhasePending "" "" "" IsolationNone ""
       [mkCondition ConditionStateSyncReady ConditionFalse "NoSyncersConfigured" "" 1]
       None None [] [] 0 HoldNone).

Lemma statesync_gate_closed_witness :
  (sample_resolve syncing_node).1 = None /\ resolved_plan syncing_node = None.
Proof.
  destruct (sample_resolve syncing_node) as [err node'] eqn:E.
  destruct (@statesync_gate_closed sample_config sample_hashes list_conditions
    (mkPlatformConfig "side" 100) None (Some (Ok false)) "p" 0 syncing_node err node'
    (mkCondition ConditionStateSyncReady ConditionFalse "NoSyncersConfigured" "" 1)
    eq_refl eq_refl eq_refl list_conditions_laws eq_refl ltac:(discriminate) E) as (H1 & H2 & _).
  split; [exact H1|exact H2].
Defined.

(** *** Two drifted nodes and one slot *)
Module FleetExamples.
#[local] Existing Instances sample_config sample_hashes sample_hashes_laws list_conditions list_conditions_laws.
Definition half := mkPlatformConfig "side" 50.
Definition drifted_node (name : string) : SeiNode :=
  mkSeiNode name "ns" 1 0 ∅ (Sample.spec_with_hold HoldNone 0)
    (set_Observed "old" "side" NodeIsolationShared "" Sample.running_status).
Definition resolve (items : list SeiNode) (m : SeiNode) : SeiNode :=
  (ResolvePlan half (Some (fun _ => Ok items)) (Some (Ok true)) "p" 0 m).2.
Definition paused (b : bool) (n : SeiNode) : SeiNode :=
  let s := n_Spec n in
  with_Spec n (mkSeiNodeSpec (sp_ChainID s) (sp_Image s) (sp_Peers s) (sp_Overrides s) (sp_Consensus s)
    (sp_ExecutionEngine s) (sp_ConfigValues s) (sp_NodeConfig s) (sp_Scheduling s) (sp_Sidecar s)
    (sp_FullNode s) (sp_Archive s) (sp_Replayer s) (sp_Validator s) (sp_Seed s)
    (sp_ExternalAddress s) b (sp_DataResetGeneration s) (sp_Maintenance s)).
Definition a0 := drifted_node "a".
Definition b0 := drifted_node "b".
Definition a1 := resolve [a0; b0] a0.
Definition a2 := paused true a1.
Definition b1 := resolve [a2; b0] b0.

Lemma reach_two : rtc (fleet_step half) (mkFleet [] 0 0) (mkFleet [a0; b0] 0 0).
Proof.
  apply (rtc_l _ _ (mkFleet [a0] 0 0)); [apply (fleet_create half a0 []); [by_decide|reflexivity]|].
  apply rtc_once, (fleet_create half b0 [a0]); [by_decide|reflexivity].
Qed.
Lemma drift_slots_never_overfilled_witness :
  rolling_count [a1; b0] = 1 /\ (Z.of_nat (rolling_count [a1; b0]) <= driftSlots half [a1; b0])%Z /\
  rolling_count (<[1 := resolve [a1; b0] b0]> [a1; b0]) = 1.
Proof.
  split; [vm_compute; reflexivity|]. split; [|vm_compute; reflexivity].
  refine (proj2 (proj1 (drift_slots_never_overfilled half (mkFleet [a0; b0] 0 0) _ reach_two)
    0 a0 a0 (Ok [a0; b0]) (Some (Ok true)) "p" 0%Z _ _ _ _ _ _)); try reflexivity.
  - by split_and!.
  - by left.
Defined.

Lemma step_to s s1 s2 : fleet_step half s s1 -> s1 = s2 -> fleet_step half s s2.
Proof. by intros ? <-. Qed.
(** Property: The slots do overfill, though no decision overfills them: a node that is
    paused in the middle of its update gives its slot away, and when it is
    resumed more nodes are updating than the namespace has slots. *)
Theorem resumed_update_overfills :
  exists s, rtc (fleet_step half) (mkFleet [] 0 0) s /\
    (driftSlots half (fl_items s) < Z.of_nat (rolling_count (fl_items s)))%Z.
Proof.
  exists (mkFleet [a1; b1] 1 1). split; [|vm_compute; reflexivity].
  etrans; [exact reach_two|].
  apply (rtc_l _ _ (mkFleet [a1; b0] 1 0)).
  { eapply step_to; [apply (fleet_resolve half 0 a0 a0 (Ok [a0; b0]) (Some (Ok true)) "p" 0%Z);
      [done|by split_and!|by left]|vm_compute; reflexivity]. }
  apply (rtc_l _ _ (mkFleet [a2; b0] 1 0)).
  { eapply step_to; [apply (fleet_other half 0 a1 a2); [done..|by vm_compute]|vm_compute; reflexivity]. }
  apply (rtc_l _ _ (mkFleet [a2; b1] 1 0)).
  { eapply step_to; [apply (fleet_resolve half 1 b0 b0 (Ok [a2; b0]) (Some (Ok true)) "p" 0%Z);
      [done|by split_and!|by left]|vm_compute; reflexivity]. }
  apply rtc_once.
  eapply step_to; [apply (fleet_other half 0 a2 a1); [done..|by vm_compute]|vm_compute; reflexivity].
Qed.
End FleetExamples.

Lemma pinned_copy_not_drifted_witness :
  podTemplateDrifted drifted_held (mkPlatformConfig "side" 0) = true /\
  exists pinned, pinnedToRunning LiveNotFound drifted_held = Ok (Some pinned) /\
    podTemplateDrifted pinned (mkPlatformConfig "side" 0) = false.
Proof.
  split; [reflexivity|]. eexists. split; [reflexivity|].
  eapply (pinned_copy_not_drifted (mkPlatformConfig "side" 0) LiveNotFound drifted_held);
    [reflexivity|discriminate].
Defined.
