(* ===== verification/EngineStore.v ===== *)
(** * The sidecar's result store (src/sidecar/engine)

    The [ResultStore] interface of store.go as a class of operations with the
    laws its comments promise, and the SQLite implementation of
    sqlite_store.go as an instance. The interface's promise that
    [LatestByType] is the most recently submitted row is kept apart
    ([LatestIsNewest]): the SQL text order of [submitted_at] does not keep
    it. A row's params are JSON values: the number literals of a request
    become the float64 values nearest to them when the row is read back. *)

From stdpp Require Import base list strings gmap.
From Stdlib Require Import Ascii String ZArith Lia.
From stdpp Require Import strings.
From S2P Require Import Prelude.
From S2P Require Config.

Set Warnings "-register-all".

(** ** Instants

    A [time.Time] is its Unix second and the nanoseconds inside it. *)
Record Time := mkTime { t_sec : Z; t_nsec : Z }.
#[export] Instance Time_eq_dec : EqDecision Time.
Proof. solve_decision. Defined.

(** [Time.Before] *)
Definition Before (a b : Time) : bool :=
  (t_sec a <? t_sec b)%Z || ((t_sec a =? t_sec b)%Z && (t_nsec a <? t_nsec b)%Z).

Definition time_wf (t : Time) : Prop := (0 <= t_nsec t < 1000000000)%Z.

(** ** [time.RFC3339Nano]

    The layout prints the date and the second at a fixed width, then the
    nanoseconds with the trailing zeros removed (nothing at all for zero), then
    [Z] for UTC. Two such texts of the years 0 to 9999 compare first by second,
    then by the text that follows it, which is [fraction_text]. *)
Definition digit (n : Z) : ascii := Ascii.ascii_of_nat (48 + Z.to_nat (n mod 10)).

Fixpoint fixed_digits (w : nat) (n : Z) : string :=
  match w with
  | O => ""
  | S w' => fixed_digits w' (n / 10) +:+ String (digit n) ""
  end.

Fixpoint trim_zeros (s : string) : string :=
  match s with
  | "" => ""
  | String c s' =>
      match trim_zeros s' with
      | "" => if Ascii.eqb c (Ascii.ascii_of_nat 48) then "" else String c ""
      | rest => String c rest
      end
  end.

Definition fraction_text (t : Time) : string :=
  if (t_nsec t =? 0)%Z then "Z"
  else "." +:+ trim_zeros (fixed_digits 9 (t_nsec t)) +:+ "Z".

(** The order of two [submitted_at] columns (SQLite's binary collation). *)
Definition text_ltb (a b : Time) : bool :=
  (t_sec a <? t_sec b)%Z ||
  ((t_sec a =? t_sec b)%Z && String.ltb (fraction_text a) (fraction_text b)).

(** ** Rows *)
Inductive RowStatus := TaskStatusRunning | TaskStatusCompleted | TaskStatusFailed.
#[export] Instance RowStatus_eq_dec : EqDecision RowStatus.
Proof. solve_decision. Defined.

(** ** Params

    The values of a [map[string]any]. The decoder of a request ([UseNumber],
    server.go) leaves a number as its literal; the plain [json.Unmarshal] of
    [scanTaskResult] makes it a float64, here its sign, its significand and its
    exponent: [PFloat neg m q] is [m * 2^q], with [m < 2^53] and [q >= -1074],
    and [m >= 2^52] unless [q] is that least exponent. A map lists each key
    once. *)
Inductive param :=
| PNull
| PBool (b : bool)
| PNumber (lit : string)
| PFloat (neg : bool) (m q : Z)
| PStr (s : string)
| PArr (l : list param)
| PObj (l : list (string * param)).

(** [None] is the nil map: no params. *)
Definition Params : Type := option (list (string * param)).

(** The quotient [n / d] to the nearest integer, a tie to the even one. *)
Definition div_half_even (n d : Z) : Z :=
  let q := (n / d)%Z in
  match (2 * (n mod d) ?= d)%Z with
  | Lt => q
  | Gt => (q + 1)%Z
  | Eq => if Z.even q then q else (q + 1)%Z
  end.

(** [n / d / 2^k] as a fraction. *)
Definition scale (n d k : Z) : Z * Z :=
  if (0 <=? k)%Z then (n, d * 2 ^ k)%Z else (n * 2 ^ (- k), d)%Z.

(** [strconv.ParseFloat]: the float64 nearest to [n / d]; [None] is out of range. *)
Definition round_float64 (n d : Z) : option (Z * Z) :=
  if (n =? 0)%Z then Some (0, - 1074)%Z
  else
    let k0 := (Z.log2 n - Z.log2 d)%Z in
    let '(a, b) := scale n d k0 in
    let k := if (a <? b)%Z then (k0 - 1)%Z else k0 in
    let q := Z.max (k - 52) (- 1074) in
    let '(a, b) := scale n d q in
    let m := div_half_even a b in
    let '(m, q) := if (m =? 2 ^ 53)%Z then (2 ^ 52, q + 1)%Z else (m, q) in
    if (971 <? q)%Z then None else Some (m, q).

(** What is found is nearest: at most half a unit of its last place away. *)
Lemma div_half_even_nearest n d : (0 < d)%Z -> (2 * Z.abs (n - d * div_half_even n d) <= d)%Z.
Proof.
  intros Hd. unfold div_half_even. pose proof (Z.div_mod n d ltac:(lia)) as E.
  pose proof (Z.mod_pos_bound n d Hd) as Hb.
  destruct (Z.compare_spec (2 * (n mod d)) d); [destruct (Z.even _)|..]; nia.
Qed.

(** The numbers compared are [n / d] and [m * 2^q], times [d * 2^1074]. *)
Definition nearest (n d m q : Z) : Prop :=
  (2 * Z.abs (n * 2 ^ 1074 - d * (m * 2 ^ (q + 1074))) <= d * 2 ^ (q + 1074))%Z.

Lemma scaled_nearest n d q :
  (0 < d)%Z -> (- 1074 <= q)%Z ->
  let '(a, b) := scale n d q in nearest n d (div_half_even a b) q.
Proof.
  intros Hd Hq. unfold scale, nearest. destruct (Z.leb_spec 0 q) as [H0|H0].
  - rewrite Z.pow_add_r by lia. pose proof (Z.pow_pos_nonneg 2 q ltac:(lia) H0) as Hp.
    pose proof (div_half_even_nearest n (d * 2 ^ q) ltac:(lia)) as Hn.
    set (m := div_half_even _ _) in *. set (P := (2 ^ q)%Z) in *.
    assert (HT : (0 < 2 ^ 1074)%Z) by (apply Z.pow_pos_nonneg; lia).
    set (T := (2 ^ 1074)%Z) in *. clearbody m P T.
    replace (n * T - d * (m * (P * T)))%Z with ((n - d * P * m) * T)%Z by ring.
    rewrite Z.abs_mul, (Z.abs_eq T) by lia. nia.
  - replace 1074%Z with (- q + (q + 1074))%Z at 1 by lia. rewrite (Z.pow_add_r 2 (- q)) by lia.
    pose proof (div_half_even_nearest (n * 2 ^ (- q)) d Hd) as Hn.
    set (m := div_half_even _ _) in *.
    assert (HT : (0 < 2 ^ (q + 1074))%Z) by (apply Z.pow_pos_nonneg; lia).
    set (P := (2 ^ (- q))%Z) in *. set (T := (2 ^ (q + 1074))%Z) in *. clearbody m P T.
    replace (n * (P * T) - d * (m * T))%Z with ((n * P - d * m) * T)%Z by ring.
    rewrite Z.abs_mul, (Z.abs_eq T) by lia. nia.
Qed.

Lemma round_float64_nearest n d m q :
  (0 < d)%Z -> round_float64 n d = Some (m, q) -> nearest n d m q.
Proof.
  intros Hd. unfold round_float64. destruct (Z.eqb_spec n 0) as [->|Hn].
  { intros [= <- <-]. unfold nearest. simpl. lia. }
  destruct (scale n d (Z.log2 n - Z.log2 d)) as [a0 b0].
  set (k := if (a0 <? b0)%Z then _ else _). set (q0 := Z.max (k - 52) (- 1074)).
  assert (Hq : (- 1074 <= q0)%Z) by apply Z.le_max_r.
  pose proof (scaled_nearest n d q0 Hd Hq) as H. clearbody q0.
  destruct (scale n d q0) as [a b]. set (m0 := div_half_even a b) in *. clearbody m0.
  destruct (Z.eqb_spec m0 (2 ^ 53)) as [Em|Em]; (destruct (971 <? _)%Z; [done|]); intros [= <- <-].
  2: exact H.
  unfold nearest in *. rewrite Em in H.
  replace (q0 + 1 + 1074)%Z with (1 + (q0 + 1074))%Z by lia.
  replace (2 ^ 53)%Z with (2 ^ 52 * 2)%Z in H by reflexivity.
  assert (Hp : (2 ^ (1 + (q0 + 1074)) = 2 * 2 ^ (q0 + 1074))%Z) by (apply Z.pow_add_r; lia).
  rewrite Hp. set (P := (2 ^ (q0 + 1074))%Z) in *. set (T := (2 ^ 52)%Z) in *.
  set (X := (n * 2 ^ 1074)%Z) in *. clearbody P T X.
  replace (d * (T * (2 * P)))%Z with (d * (T * 2 * P))%Z by ring. lia.
Qed.

(** A literal that is out of range stays as it is: the scan of its row fails
    (see the faults of [SQLiteStore]). *)
Definition number_read (lit : string) : param :=
  let '(neg, m, e) := Config.number_parts lit in
  let '(n, d) := if (0 <=? e)%Z then (m * 10 ^ e, 1)%Z else (m, 10 ^ (- e))%Z in
  match round_float64 n d with
  | Some (m', q) => PFloat neg m' q
  | None => PNumber lit
  end.

Example numbers_read :
  map number_read ["42"; "-0.5"; "0.1"; "9007199254740993"; "5e-324"; "1e-400"; "1e999"] =
  [PFloat false (42 * 2 ^ 47) (- 47); PFloat true (2 ^ 52) (- 53); PFloat false 7205759403792794 (- 56);
   PFloat false (2 ^ 52) 1; PFloat false 1 (- 1074); PFloat false 0 (- 1074); PNumber "1e999"]%Z.
Proof. vm_compute. reflexivity. Qed.

(** [json.Marshal] of [Save] and [json.Unmarshal] of the scan. A float64 is
    written with the digits that read back as it. *)
Fixpoint value_read (v : param) : param :=
  match v with
  | PNumber lit => number_read lit
  | PArr l => PArr (map value_read l)
  | PObj l => PObj (map (fun kv => (kv.1, value_read kv.2)) l)
  | _ => v
  end.
Definition read_back (p : Params) : Params :=
  map (fun kv => (kv.1, value_read kv.2)) <$> p.

(** [Result] is carried as its JSON text. *)
Record TaskResult := mkTaskResult {
  tr_ID : string;
  tr_Type : string;
  tr_Status : RowStatus;
  tr_Run : Z;
  tr_Params : Params;
  tr_Result : option string;
  tr_Error : string;
  tr_SubmittedAt : Time;
  tr_CompletedAt : option Time;
}.

(** [nullableRawJSON] on the way in, the [Valid && != ""] test on the way out:
    an empty result is stored and read back as no result. A row reads back with
    its params' numbers as float64. *)
Definition nullableRawJSON (r : option string) : option string :=
  match r with Some "" => None | _ => r end.

Definition scanned (r : TaskResult) : TaskResult :=
  mkTaskResult (tr_ID r) (tr_Type r) (tr_Status r) (tr_Run r) (read_back (tr_Params r))
    (nullableRawJSON (tr_Result r)) (tr_Error r) (tr_SubmittedAt r) (tr_CompletedAt r).

(** ** The interface *)
Class ResultStore (S : Type) := {
  Save : TaskResult -> S -> result unit * S;
  Get : string -> S -> result (option TaskResult) * S;
  List_ : nat -> S -> result (list TaskResult) * S;
  ListStaleTasks : S -> result (list TaskResult) * S;
  Delete : string -> S -> result bool * S;
  DeleteByType : string -> S -> result nat * S;
  LatestByType : string -> S -> result (option TaskResult) * S;
  Ping : S -> result unit * S;
}.

(** What a client of the store may rely on: the rows, as they read back, as a map by ID, the effect
    of each operation that succeeds, and that one that fails changes nothing. *)
Class ResultStoreLaws (S : Type) {RS : ResultStore S} := {
  view : S -> gmap string TaskResult;
  view_id s id r : view s !! id = Some r -> tr_ID r = id;
  view_read s id r : view s !! id = Some r -> scanned r = r;
  Save_ok r s s' : Save r s = (Ok tt, s') -> view s' = <[tr_ID r := scanned r]> (view s);
  Save_err r s e s' : Save r s = (Err e, s') -> view s' = view s;
  Get_ok id s o s' : Get id s = (Ok o, s') -> o = view s !! id;
  Get_view id s : view (Get id s).2 = view s;
  Stale_ok s l s' : ListStaleTasks s = (Ok l, s') ->
    forall r, In r l <-> view s !! tr_ID r = Some r /\ tr_Status r = TaskStatusRunning;
  Stale_view s : view (ListStaleTasks s).2 = view s;
  Delete_ok id s b s' : Delete id s = (Ok b, s') ->
    view s' = delete id (view s) /\ b = bool_decide (is_Some (view s !! id));
  Delete_err id s e s' : Delete id s = (Err e, s') -> view s' = view s;
  DeleteByType_ok ty s n s' : DeleteByType ty s = (Ok n, s') ->
    view s' = filter (fun kv => tr_Type kv.2 <> ty) (view s) /\
    n = size (filter (fun kv => tr_Type kv.2 = ty) (view s));
  DeleteByType_err ty s e s' : DeleteByType ty s = (Err e, s') -> view s' = view s;
  Latest_some ty s r s' : LatestByType ty s = (Ok (Some r), s') ->
    view s !! tr_ID r = Some r /\ tr_Type r = ty;
  Latest_none ty s s' : LatestByType ty s = (Ok None, s') ->
    forall id r, view s !! id = Some r -> tr_Type r <> ty;
  Latest_view ty s : view (LatestByType ty s).2 = view s;
}.

(** No row of the type is of a later second than the one found. *)
Class LatestSecond (S : Type) {RS : ResultStore S} {RSL : ResultStoreLaws S} : Prop :=
  latest_second (s s' : S) ty r : LatestByType ty s = (Ok (Some r), s') ->
    forall id r', view s !! id = Some r' -> tr_Type r' = ty ->
    (t_sec (tr_SubmittedAt r') <= t_sec (tr_SubmittedAt r))%Z.

(** A store that is up answers every statement, and stays up. *)
Class StoreUp (S : Type) {RS : ResultStore S} := {
  up : S -> Prop;
  up_Save r s : up s -> exists s', Save r s = (Ok tt, s') /\ up s';
  up_Get id s : up s -> exists o s', Get id s = (Ok o, s') /\ up s';
  up_Stale s : up s -> exists l s', ListStaleTasks s = (Ok l, s') /\ up s';
  up_Delete id s : up s -> exists b s', Delete id s = (Ok b, s') /\ up s';
  up_DeleteByType ty s : up s -> exists n s', DeleteByType ty s = (Ok n, s') /\ up s';
  up_Latest ty s : up s -> exists o s', LatestByType ty s = (Ok o, s') /\ up s';
}.

(** The comment on [LatestByType]: no row of the type was submitted after it. *)
Definition LatestIsNewest {S} {RS : ResultStore S} {RSL : ResultStoreLaws S} (s : S) : Prop :=
  forall ty r s', LatestByType ty s = (Ok (Some r), s') ->
  forall id r', view s !! id = Some r' -> tr_Type r' = ty ->
  Before (tr_SubmittedAt r) (tr_SubmittedAt r') = false.

(** ** The SQLite store

    The table in rowid order with its primary key, each row as it reads back, and
    the faults to come: the n-th statement fails with the n-th entry when that
    is an error, the database's or that of the scan of the rows it selects (a
    stored number outside the range of a float64 fails every scan of its
    row). *)
Definition ids (rows : list TaskResult) : list string := map tr_ID rows.

Definition table_ok (rows : list TaskResult) : Prop :=
  NoDup (ids rows) /\ Forall (fun r => scanned r = r) rows.

Record SQLiteStore := mkSQLiteStore {
  db_rows : list TaskResult;
  db_faults : list (option string);
  db_ok : table_ok db_rows;
}.
Definition db_key (s : SQLiteStore) : NoDup (ids (db_rows s)) := proj1 (db_ok s).

(** Reading back twice is reading back once. *)
Lemma number_read_idem lit : value_read (number_read lit) = number_read lit.
Proof.
  unfold number_read. destruct (Config.number_parts lit) as [[neg m] e] eqn:E.
  destruct (0 <=? e)%Z eqn:Ee; destruct (round_float64 _ _) as [[m' q]|] eqn:Er; try done;
    simpl; unfold number_read; by rewrite E, Ee, Er.
Qed.

Lemma value_read_idem : forall v, value_read (value_read v) = value_read v.
Proof.
  fix IHv 1. intros v. destruct v as [|b|lit|neg m q|s|l|l]; simpl; [done|done|apply number_read_idem|done|done|..]; f_equal.
  - induction l as [|x l IH]; simpl; [done|]. by rewrite IHv, IH.
  - induction l as [|[k x] l IH]; simpl; [done|]. by rewrite IHv, IH.
Qed.

Lemma read_back_idem p : read_back (read_back p) = read_back p.
Proof.
  destruct p as [l|]; simpl; [|done]. f_equal. rewrite map_map. apply map_ext.
  intros [k x]. simpl. by rewrite value_read_idem.
Qed.

Lemma scanned_idem r : scanned (scanned r) = scanned r.
Proof.
  unfold scanned. simpl. rewrite read_back_idem. by destruct (tr_Result r) as [[|]|].
Qed.

Lemma table_ok_filter (P : TaskResult -> Prop) `{!forall x, Decision (P x)} rows :
  table_ok rows -> table_ok (filter P rows).
Proof.
  intros [Hk Hr]. split.
  2: { apply list.Forall_forall. intros x [_ Hx]%list_elem_of_filter.
       by apply (proj1 (list.Forall_forall _ _) Hr). }
  apply (sublist_NoDup _ _ Hk). clear Hk Hr. unfold ids.
  induction rows as [|x rows IH]; [constructor|].
  rewrite filter_cons. case_decide; simpl; by constructor.
Qed.

Lemma table_ok_replace r rows :
  table_ok rows -> table_ok (filter (fun x => tr_ID x <> tr_ID r) rows ++ [scanned r]).
Proof.
  intros H. destruct (table_ok_filter (fun x => tr_ID x <> tr_ID r) rows H) as [Hk Hr]. split.
  - unfold ids. rewrite map_app. apply NoDup_app. split_and!; [exact Hk| |apply NoDup_singleton].
    intros x. rewrite list_elem_of_In, in_map_iff. intros (y & <- & Hy).
    apply list_elem_of_In, list_elem_of_filter in Hy as [Hne _].
    simpl. rewrite list_elem_of_singleton. done.
  - apply Forall_app. split; [done|]. apply Forall_singleton, scanned_idem.
Qed.

(** A query reads the table; a change replaces it under its primary key. *)
Definition query {A} (f : list TaskResult -> A) (s : SQLiteStore) : result A * SQLiteStore :=
  match db_faults s with
  | Some e :: rest => (Err e, mkSQLiteStore (db_rows s) rest (db_ok s))
  | None :: rest => (Ok (f (db_rows s)), mkSQLiteStore (db_rows s) rest (db_ok s))
  | [] => (Ok (f (db_rows s)), s)
  end.

Definition exec {A} (f : list TaskResult -> A) (g : list TaskResult -> list TaskResult)
    (Hg : forall rows, table_ok rows -> table_ok (g rows)) (s : SQLiteStore)
  : result A * SQLiteStore :=
  match db_faults s with
  | Some e :: rest => (Err e, mkSQLiteStore (db_rows s) rest (db_ok s))
  | rest => (Ok (f (db_rows s)),
             mkSQLiteStore (g (db_rows s)) (tail rest) (Hg _ (db_ok s)))
  end.

(** [INSERT OR REPLACE]: the row of the same key goes, the new one gets a fresh
    rowid. *)
Definition sqlite_Save (r : TaskResult) : SQLiteStore -> result unit * SQLiteStore :=
  exec (fun _ => tt) (fun rows => filter (fun x => tr_ID x <> tr_ID r) rows ++ [scanned r])
    (table_ok_replace r).

Definition sqlite_Get (id : string) : SQLiteStore -> result (option TaskResult) * SQLiteStore :=
  query (fun rows => head (filter (fun x => tr_ID x = id) rows)).

(** [ORDER BY submitted_at DESC]: the scan of the index on that column, equal
    keys in rowid order. *)
Fixpoint insert_desc (r : TaskResult) (l : list TaskResult) : list TaskResult :=
  match l with
  | [] => [r]
  | x :: l' => if text_ltb (tr_SubmittedAt x) (tr_SubmittedAt r)
               then r :: l else x :: insert_desc r l'
  end.
Definition order_desc (rows : list TaskResult) : list TaskResult :=
  fold_left (fun acc r => insert_desc r acc) rows [].

Definition sqlite_List (limit : nat) : SQLiteStore -> result (list TaskResult) * SQLiteStore :=
  query (fun rows => take limit (order_desc rows)).

Definition sqlite_ListStaleTasks : SQLiteStore -> result (list TaskResult) * SQLiteStore :=
  query (fun rows => filter (fun x => tr_Status x = TaskStatusRunning) rows).

Definition sqlite_Delete (id : string) : SQLiteStore -> result bool * SQLiteStore :=
  exec (fun rows => negb (Nat.eqb (length (filter (fun x => tr_ID x = id) rows)) 0))
    (fun rows => filter (fun x => tr_ID x <> id) rows) (table_ok_filter _).

Definition sqlite_DeleteByType (ty : string) : SQLiteStore -> result nat * SQLiteStore :=
  exec (fun rows => length (filter (fun x => tr_Type x = ty) rows))
    (fun rows => filter (fun x => tr_Type x <> ty) rows) (table_ok_filter _).

Definition sqlite_LatestByType (ty : string)
  : SQLiteStore -> result (option TaskResult) * SQLiteStore :=
  query (fun rows => head (order_desc (filter (fun x => tr_Type x = ty) rows))).

Definition sqlite_Ping : SQLiteStore -> result unit * SQLiteStore := query (fun _ => tt).

#[export] Instance SQLiteResultStore : ResultStore SQLiteStore := {
  Save := sqlite_Save;
  Get := sqlite_Get;
  List_ := sqlite_List;
  ListStaleTasks := sqlite_ListStaleTasks;
  Delete := sqlite_Delete;
  DeleteByType := sqlite_DeleteByType;
  LatestByType := sqlite_LatestByType;
  Ping := sqlite_Ping;
}.

(** ** The store meets the interface *)
Fixpoint table (rows : list TaskResult) : gmap string TaskResult :=
  match rows with
  | [] => ∅
  | r :: rows' => <[tr_ID r := r]> (table rows')
  end.

Lemma table_lookup rows id r :
  NoDup (ids rows) -> table rows !! id = Some r <-> In r rows /\ tr_ID r = id.
Proof.
  induction rows as [|x rows IH]; simpl; intros Hnd.
  - rewrite lookup_empty. naive_solver.
  - apply NoDup_cons in Hnd as [Hx Hnd]. specialize (IH Hnd).
    rewrite lookup_insert_Some, IH. unfold ids in Hx. rewrite list_elem_of_In, in_map_iff in Hx.
    naive_solver.
Qed.

Lemma table_none rows id :
  NoDup (ids rows) -> table rows !! id = None <-> forall r, In r rows -> tr_ID r <> id.
Proof.
  intros Hnd. rewrite eq_None_not_Some. unfold is_Some.
  setoid_rewrite (table_lookup rows id); [|done]. naive_solver.
Qed.

(** Two tables with the same rows are the same map. *)
Lemma table_eq rows (m : gmap string TaskResult) :
  NoDup (ids rows) ->
  (forall id r, m !! id = Some r <-> In r rows /\ tr_ID r = id) -> table rows = m.
Proof.
  intros Hnd H. apply map_eq. intros id. apply option_eq. intros r.
  by rewrite H, table_lookup.
Qed.

Lemma insert_desc_In r l x : In x (insert_desc r l) <-> x = r \/ In x l.
Proof.
  induction l as [|y l IH]; simpl; [naive_solver|].
  destruct (text_ltb _ _); simpl; [naive_solver|]. rewrite IH. naive_solver.
Qed.

Lemma order_desc_In rows x : In x (order_desc rows) <-> In x rows.
Proof.
  unfold order_desc.
  enough (forall acc, In x (fold_left (fun acc r => insert_desc r acc) rows acc)
                      <-> In x rows \/ In x acc) as H by (rewrite H; simpl; tauto).
  induction rows as [|r rows IH]; intros acc; simpl; [tauto|].
  rewrite IH, insert_desc_In. intuition congruence.
Qed.

Lemma In_filter (P : TaskResult -> Prop) `{!forall x, Decision (P x)} rows x :
  In x (filter P rows) <-> P x /\ In x rows.
Proof. rewrite <- !list_elem_of_In. apply list_elem_of_filter. Qed.

(** Rows of a kind are counted in the table as in the map. *)
Lemma table_size_filter (P : TaskResult -> Prop) `{!forall x, Decision (P x)} rows :
  NoDup (ids rows) -> size (filter (fun kv => P kv.2) (table rows)) = length (filter P rows).
Proof.
  induction rows as [|r rows IH]; simpl; intros Hnd; [by rewrite map_filter_empty, map_size_empty|].
  apply NoDup_cons in Hnd as [Hx Hnd].
  assert (Hn : table rows !! tr_ID r = None).
  { apply table_none; [done|]. intros x Hin Hid. apply Hx. rewrite <- Hid.
    apply list_elem_of_In. by apply in_map. }
  rewrite filter_cons. case_decide as HP.
  - rewrite map_filter_insert_True by done. rewrite map_size_insert_None; [simpl; by rewrite IH|].
    apply map_lookup_filter_None. by left.
  - rewrite map_filter_insert_False by done. rewrite delete_id by done. by apply IH.
Qed.

Lemma query_inv {A} (f : list TaskResult -> A) s r s' :
  query f s = (r, s') ->
  db_rows s' = db_rows s /\ (forall a, r = Ok a -> a = f (db_rows s)).
Proof.
  unfold query. destruct (db_faults s) as [|[e|] rest]; intros [= <- <-]; naive_solver.
Qed.

Lemma exec_inv {A} (f : list TaskResult -> A) g Hg s r s' :
  exec f g Hg s = (r, s') ->
  match r with
  | Ok a => a = f (db_rows s) /\ db_rows s' = g (db_rows s)
  | Err _ => db_rows s' = db_rows s
  end.
Proof.
  unfold exec. destruct (db_faults s) as [|[e|] rest]; intros [= <- <-]; done.
Qed.

Ltac use_query H := let E := fresh in let F := fresh in
  pose proof (query_inv _ _ _ _ H) as [E F].

#[export] Program Instance SQLiteStoreLaws : ResultStoreLaws SQLiteStore :=
  {| view s := table (db_rows s) |}.
Next Obligation. intros s id r H. apply table_lookup in H; [tauto | apply db_key]. Qed.
Next Obligation.
  intros s id r H. apply table_lookup in H as [H _]; [|apply db_key].
  pose proof (proj2 (db_ok s)) as F. rewrite Forall_forall in F.
  apply F. by apply list_elem_of_In.
Qed.
Next Obligation.
  intros r s s' H. apply exec_inv in H as [_ E].
  apply table_eq; [apply db_key|]. intros id x. rewrite E, in_app_iff, (In_filter _).
  rewrite lookup_insert_Some, (table_lookup _ _ _ (db_key s)). simpl. naive_solver.
Qed.
Next Obligation. intros r s e s' H. apply exec_inv in H. simpl. by rewrite H. Qed.
Next Obligation.
  intros id s o s' H. apply query_inv in H as [_ E]. rewrite (E o eq_refl). clear E.
  destruct (head _) as [r|] eqn:Hh; symmetry.
  - apply table_lookup; [apply db_key|].
    enough (Hin : In r (filter (fun x => tr_ID x = id) (db_rows s)))
      by (apply (In_filter _) in Hin; tauto).
    destruct (filter _ _); simplify_eq/=. by left.
  - apply table_none; [apply db_key|]. intros r Hin Hid.
    assert (Hr : In r (filter (fun x => tr_ID x = id) (db_rows s))) by by apply (In_filter _).
    by destruct (filter _ _).
Qed.
Next Obligation.
  intros id s. simpl. destruct (sqlite_Get id s) as [o s'] eqn:E.
  apply query_inv in E as [E _]. simpl. by rewrite E.
Qed.
Next Obligation.
  intros s l s' H r. apply query_inv in H as [_ E]. rewrite (E l eq_refl), (In_filter _).
  rewrite table_lookup; [tauto | apply db_key].
Qed.
Next Obligation.
  intros s. simpl. destruct (sqlite_ListStaleTasks s) as [o s'] eqn:E.
  apply query_inv in E as [E _]. simpl. by rewrite E.
Qed.
Next Obligation.
  intros id s b s' H. apply exec_inv in H as [-> E]. split.
  - apply table_eq; [apply db_key|]. intros i x.
    rewrite E, (In_filter _), lookup_delete_Some, (table_lookup _ _ _ (db_key s)). naive_solver.
  - destruct (filter (fun x => tr_ID x = id) (db_rows s)) as [|r l] eqn:Ef; simpl; symmetry.
    + apply bool_decide_eq_false. intros [r Hr].
      apply table_lookup in Hr; [|apply db_key].
      assert (Hin : In r (filter (fun x => tr_ID x = id) (db_rows s)))
        by (apply (In_filter _); tauto).
      by rewrite Ef in Hin.
    + apply bool_decide_eq_true. exists r. apply table_lookup; [apply db_key|].
      assert (Hin : In r (filter (fun x => tr_ID x = id) (db_rows s)))
        by (rewrite Ef; by left).
      apply (In_filter _) in Hin. tauto.
Qed.
Next Obligation. intros id s e s' H. apply exec_inv in H. simpl. by rewrite H. Qed.
Next Obligation.
  intros ty s n s' H. apply exec_inv in H as [-> E]. split.
  2: { symmetry. exact (table_size_filter (fun x => tr_Type x = ty) (db_rows s) (db_key s)). }
  apply table_eq; [apply db_key|]. intros i x.
  rewrite E, (In_filter _), map_lookup_filter_Some, (table_lookup _ _ _ (db_key s)).
  simpl. naive_solver.
Qed.
Next Obligation. intros ty s e s' H. apply exec_inv in H. simpl. by rewrite H. Qed.
Next Obligation.
  intros ty s r s' H. apply query_inv in H as [_ E]. specialize (E _ eq_refl).
  assert (Hin : In r (order_desc (filter (fun x => tr_Type x = ty) (db_rows s))))
    by (destruct (order_desc _); simplify_eq/=; by left).
  apply order_desc_In, (In_filter _) in Hin as [Hty Hin].
  split; [|done]. apply table_lookup; [apply db_key | done].
Qed.
Next Obligation.
  intros ty s s' H id r Hr Hty. apply query_inv in H as [_ E]. specialize (E _ eq_refl).
  apply table_lookup in Hr; [|apply db_key].
  assert (Hin : In r (order_desc (filter (fun x => tr_Type x = ty) (db_rows s))))
    by (apply order_desc_In, (In_filter _); tauto).
  by destruct (order_desc _).
Qed.
Next Obligation.
  intros ty s. simpl. destruct (sqlite_LatestByType ty s) as [o s'] eqn:E.
  apply query_inv in E as [E _]. simpl. by rewrite E.
Qed.

(** ** The order of the text and the order of time *)
Lemma text_ltb_sec a b : text_ltb a b = true -> (t_sec a <= t_sec b)%Z.
Proof. unfold text_ltb. rewrite orb_true_iff, andb_true_iff. lia. Qed.

Lemma text_ltb_sec_false a b : text_ltb a b = false -> (t_sec b <= t_sec a)%Z.
Proof. unfold text_ltb. rewrite orb_false_iff. lia. Qed.

Definition head_latest (l : list TaskResult) : Prop :=
  forall x y, head l = Some x -> In y l ->
  (t_sec (tr_SubmittedAt y) <= t_sec (tr_SubmittedAt x))%Z.

Lemma insert_desc_latest r l : head_latest l -> head_latest (insert_desc r l).
Proof.
  intros Hl. destruct l as [|z l]; intros x y; simpl; [intros [= <-] [<-|[]]; lia|].
  specialize (fun y => Hl z y eq_refl).
  destruct (text_ltb _ _) eqn:E; simpl; intros [= <-].
  - apply text_ltb_sec in E. intros [<-|Hy]; [lia|]. specialize (Hl y Hy). lia.
  - apply text_ltb_sec_false in E. rewrite insert_desc_In.
    intros [<-|[->|Hy]]; [lia|lia|]. apply Hl. by right.
Qed.

Lemma order_desc_latest rows : head_latest (order_desc rows).
Proof.
  unfold order_desc.
  enough (forall acc, head_latest acc ->
            head_latest (fold_left (fun acc r => insert_desc r acc) rows acc)) as H
    by (apply H; by intros x y).
  induction rows as [|r rows IH]; intros acc Hacc; simpl; [done|].
  apply IH. by apply insert_desc_latest.
Qed.

(** No row of the type is of a later second than the one [LatestByType] finds. *)
Lemma sqlite_latest_second s s' ty r :
  LatestByType ty s = (Ok (Some r), s') ->
  forall id r', view s !! id = Some r' -> tr_Type r' = ty ->
  (t_sec (tr_SubmittedAt r') <= t_sec (tr_SubmittedAt r))%Z.
Proof.
  intros H id r' Hr Hty. apply query_inv in H as [_ E]. specialize (E _ eq_refl).
  apply table_lookup in Hr; [|apply db_key].
  apply (order_desc_latest (filter (fun x => tr_Type x = ty) (db_rows s))); [done|].
  apply order_desc_In, (In_filter _). tauto.
Qed.

#[export] Instance sqlite_LatestSecond : LatestSecond SQLiteStore.
Proof. intros s s' ty r H. by apply sqlite_latest_second with s'. Qed.

Lemma query_up {A} (f : list TaskResult -> A) s :
  db_faults s = [] -> exists a s', query f s = (Ok a, s') /\ db_faults s' = [].
Proof. unfold query. intros H. rewrite H. eauto. Qed.

Lemma exec_up {A} (f : list TaskResult -> A) g Hg s :
  db_faults s = [] -> exists a s', exec f g Hg s = (Ok a, s') /\ db_faults s' = [].
Proof. unfold exec. intros H. rewrite H. eauto. Qed.

#[export] Program Instance sqlite_StoreUp : StoreUp SQLiteStore :=
  {| up s := db_faults s = [] |}.
Next Obligation.
  intros r s H. destruct (exec_up (fun _ => tt) _ (table_ok_replace r) s H) as ([] & s' & E & ?).
  by exists s'.
Qed.
Next Obligation. intros id s H. by apply query_up. Qed.
Next Obligation. intros s H. by apply query_up. Qed.
Next Obligation. intros id s H. by apply exec_up. Qed.
Next Obligation. intros ty s H. by apply exec_up. Qed.
Next Obligation. intros ty s H. by apply query_up. Qed.

(** ** Histories: the table against a map

    A history of statements is replayed on the abstract map: the statements
    that failed are skipped, the others answer and change it as a map would. *)
Inductive store_op :=
| OpSave (r : TaskResult)
| OpGet (id : string)
| OpDelete (id : string)
| OpDeleteByType (ty : string).

Inductive store_answer := Saved | Found (o : option TaskResult) | WasThere (b : bool) | Purged (n : nat).

Definition run_op {S} `{ResultStore S} (op : store_op) (s : S) : result store_answer * S :=
  match op with
  | OpSave r => let '(o, s') := Save r s in ((fun _ => Saved) <$> o, s')
  | OpGet id => let '(o, s') := Get id s in (Found <$> o, s')
  | OpDelete id => let '(o, s') := Delete id s in (WasThere <$> o, s')
  | OpDeleteByType ty => let '(o, s') := DeleteByType ty s in (Purged <$> o, s')
  end.

Definition map_op (op : store_op) (m : gmap string TaskResult)
  : store_answer * gmap string TaskResult :=
  match op with
  | OpSave r => (Saved, <[tr_ID r := scanned r]> m)
  | OpGet id => (Found (m !! id), m)
  | OpDelete id => (WasThere (bool_decide (is_Some (m !! id))), delete id m)
  | OpDeleteByType ty => (Purged (size (filter (fun kv => tr_Type kv.2 = ty) m)), filter (fun kv => tr_Type kv.2 <> ty) m)
  end.

Fixpoint run_ops {S} `{ResultStore S} (ops : list store_op) (s : S)
  : list (result store_answer) * S :=
  match ops with
  | [] => ([], s)
  | op :: ops' => let '(a, s1) := run_op op s in
                  let '(l, s2) := run_ops ops' s1 in (a :: l, s2)
  end.

(** The abstract run, told which statements failed. *)
Fixpoint map_ops (ops : list store_op) (outs : list (result store_answer))
    (m : gmap string TaskResult) : list (result store_answer) * gmap string TaskResult :=
  match ops, outs with
  | op :: ops', o :: outs' =>
      let '(a, m1) := match o with
                      | Err e => (Err e, m)
                      | Ok _ => let '(a, m1) := map_op op m in (Ok a, m1)
                      end in
      let '(l, m2) := map_ops ops' outs' m1 in (a :: l, m2)
  | _, _ => ([], m)
  end.

Section StoreRefinement.
Context {S : Type} {RS : ResultStore S} {RSL : ResultStoreLaws S}.

Lemma run_op_refines op (s : S) a s' :
  run_op op s = (a, s') ->
  match a with
  | Ok x => map_op op (view s) = (x, view s')
  | Err _ => view s' = view s
  end.
Proof.
  destruct op as [r|id|id|ty]; simpl.
  - destruct (Save r s) as [[[]|e] s1] eqn:E; intros [= <- <-]; simpl.
    + by rewrite (Save_ok _ _ _ E). + exact (Save_err _ _ _ _ E).
  - destruct (Get id s) as [[o|e] s1] eqn:E; intros [= <- <-]; simpl.
    + rewrite (Get_ok _ _ _ _ E). pose proof (Get_view id s) as Hv. rewrite E in Hv.
      simpl in Hv. by rewrite Hv.
    + pose proof (Get_view id s) as Hv. by rewrite E in Hv.
  - destruct (Delete id s) as [[b|e] s1] eqn:E; intros [= <- <-]; simpl.
    + destruct (Delete_ok _ _ _ _ E) as [-> ->]. done. + exact (Delete_err _ _ _ _ E).
  - destruct (DeleteByType ty s) as [[b|e] s1] eqn:E; intros [= <- <-]; simpl.
    + destruct (DeleteByType_ok _ _ _ _ E) as [-> ->]. done. + exact (DeleteByType_err _ _ _ _ E).
Qed.

Lemma run_ops_refines ops (s : S) outs s' :
  run_ops ops s = (outs, s') -> map_ops ops outs (view s) = (outs, view s').
Proof.
  revert s outs. induction ops as [|op ops IH]; intros s outs; simpl; [by intros [= <- <-]|].
  destruct (run_op op s) as [a s1] eqn:E1. destruct (run_ops ops s1) as [l s2] eqn:E2.
  intros [= <- <-]. apply run_op_refines in E1. specialize (IH _ _ E2).
  destruct a as [x|e].
  - rewrite E1. by rewrite IH.
  - rewrite E1 in IH. by rewrite IH.
Qed.
End StoreRefinement.

(** C40: The SQLite task table is a map by task ID: over any history of Save,
    Get, Delete and DeleteByType statements, with any statement failing at any
    point, every answer (the row found, whether one was deleted, how many were)
    and the final contents are those of a map on which the failed statements
    had no effect, and into which a save puts the row as it reads back: each
    number of its params as the nearest float64, an empty result as no
    result. *)
Theorem sqlite_refines_map (ops : list store_op) (s : SQLiteStore) :
  map_ops ops (run_ops ops s).1 (view s) = ((run_ops ops s).1, view (run_ops ops s).2).
Proof. apply run_ops_refines. by destruct (run_ops ops s). Qed.

(** Property: LatestByType finds the latest second: when the SQLite query answers
    with a row, that row is stored, is of the asked type, and no stored row of
    the type was submitted in a later second. *)
Theorem sqlite_latest_by_second (s s' : SQLiteStore) (ty : string) (r : TaskResult)
    (H : LatestByType ty s = (Ok (Some r), s')) :
  view s !! tr_ID r = Some r /\ tr_Type r = ty /\
  forall id r', view s !! id = Some r' -> tr_Type r' = ty ->
    (t_sec (tr_SubmittedAt r') <= t_sec (tr_SubmittedAt r))%Z.
Proof.
  destruct (Latest_some _ _ _ _ H) as [Hr Hty]. split_and!; [done..|].
  by apply sqlite_latest_second with s'.
Qed.

(** A mark-not-ready row submitted at the given nanosecond of one second. *)
Definition row_at (id : string) (ty : string) (st : RowStatus) (t : Time) : TaskResult :=
  mkTaskResult id ty st 1 None None "" t None.
Definition two_rows (a b : TaskResult) (H : table_ok [a; b]) : SQLiteStore :=
  mkSQLiteStore [a; b] [] H.

Definition hold_early := row_at "hold-1" "mark-not-ready" TaskStatusFailed (mkTime 1700000000 120000000).
Definition hold_late := row_at "hold-2" "mark-not-ready" TaskStatusFailed (mkTime 1700000000 123000000).
Lemma two_holds_key : table_ok [hold_early; hold_late].
Proof. split; [by_decide | repeat constructor]. Qed.
Definition two_holds : SQLiteStore := two_rows hold_early hold_late two_holds_key.

Definition hold_next := row_at "hold-3" "mark-not-ready" TaskStatusFailed (mkTime 1700000001 0).
Lemma later_holds_key : table_ok [hold_early; hold_next].
Proof. split; [by_decide | repeat constructor]. Qed.
Definition later_holds : SQLiteStore := two_rows hold_early hold_next later_holds_key.

Lemma sqlite_latest_by_second_witness :
  LatestByType "mark-not-ready" later_holds = (Ok (Some hold_next), later_holds) /\
  (t_sec (tr_SubmittedAt hold_early) <= t_sec (tr_SubmittedAt hold_next))%Z.
Proof.
  assert (H : LatestByType "mark-not-ready" later_holds = (Ok (Some hold_next), later_holds))
    by reflexivity.
  split; [exact H|].
  destruct (sqlite_latest_by_second later_holds later_holds "mark-not-ready" hold_next H)
    as (_ & _ & Hall).
  apply (Hall "hold-1"); reflexivity.
Defined.

(** [LatestByType] is not the most recently submitted row. The text of
    RFC3339Nano drops trailing zeros, so within one second a row
    submitted at .120 sorts after one submitted at .123 (the Z that ends the
    text is above every digit) and the query returns the older of the two. *)
Lemma sqlite_latest_not_newest : ~ LatestIsNewest two_holds.
Proof.
  intros H.
  assert (E : LatestByType "mark-not-ready" two_holds = (Ok (Some hold_early), two_holds))
    by reflexivity.
  specialize (H _ _ _ E "hold-2" hold_late eq_refl eq_refl). discriminate H.
Qed.
