(* ===== verification/Engine.v ===== *)
(** * The sidecar task engine (src/sidecar/engine/engine.go)

    The engine over any result store: submission, the run of one task, the
    cancel registry with its generations, deletion and crash recovery, first as
    the functions of engine.go, then (file EngineSteps) as the steps its
    goroutines interleave in. *)

From stdpp Require Import base list strings gmap sets.
From Stdlib Require Import ZArith Lia.
From S2P Require Import Prelude Api EngineStore.

(** ** Handlers

    The context a handler sees: its task's ID and whether it is cancelled. A
    handler returns its result and error, or panics; an error says whether it
    wraps [context.Canceled]. Handlers may use the store (mark-not-ready
    does). *)
Record Ctx := mkCtx { ctx_task : string; ctx_cancelled : bool }.
Record HandlerError := mkHandlerError { he_text : string; he_canceled : bool }.
Inductive HandlerOut :=
| HReturn (res : option string) (err : option HandlerError)
| HPanic (p : string).

Definition TaskHandler (S : Type) : Type := Ctx -> Params -> S -> HandlerOut * S.

(** [MarkReadyHandler] (src/sidecar/tasks/ready.go) *)
Definition MarkReadyHandler {S} : TaskHandler S := fun _ _ s => (HReturn None None, s).

(** [MarkNotReadier.Handler] (src/sidecar/tasks/mark_not_ready.go) *)
Definition MarkNotReadyHandler {S} `{ResultStore S} : TaskHandler S := fun _ _ s =>
  match DeleteByType TaskMarkReady s with
  | (Err e, s') =>
      (HReturn None (Some (mkHandlerError
         ("mark-not-ready: purging mark-ready records: " +:+ e) false)), s')
  | (Ok _, s') => (HReturn None None, s')
  end.

(** ** State *)

(** What [runTaskSync] is called with. *)
Record Run := mkRun {
  run_ID : string;
  run_Type : string;
  run_Params : Params;
  run_SubmittedAt : Time;
  run_Run : Z;
  run_Gen : Z;
}.

(** Where a run's goroutine is: before the handler, before the readiness hook,
    before the cancellation check, before [store.Save], before the deferred
    [clearCancel]. *)
Inductive run_pc :=
| PHandler
| PFlip (res : option string) (err : option HandlerError)
| PGuard (res : option string) (err : option HandlerError)
| PSave (row : TaskResult)
| PClear.

(** [e_cancels] maps a task ID to the generation of its registered cancel
    func; calling that func puts the generation in [e_cancelled].
    [e_shutdown] is the cancellation of the root context. [e_clock] is what
    the next calls of [time.Now] return. *)
Record Engine (S : Type) := mkEngine {
  e_store : S;
  e_ready : bool;
  e_cancels : gmap string Z;
  e_gen : Z;
  e_cancelled : gset Z;
  e_shutdown : bool;
  e_threads : list (Run * run_pc);
  e_clock : list Time;
}.
Arguments mkEngine {S}.
Arguments e_store {S}.
Arguments e_ready {S}.
Arguments e_cancels {S}.
Arguments e_gen {S}.
Arguments e_cancelled {S}.
Arguments e_shutdown {S}.
Arguments e_threads {S}.
Arguments e_clock {S}.

(** A submitted [Task]. *)
Record EngineTask := mkEngineTask { et_ID : string; et_Type : string; et_Params : Params }.

Section Engine.
Context {S : Type} {RS : ResultStore S}.

Definition set_store (s : S) (e : Engine S) : Engine S :=
  mkEngine s (e_ready e) (e_cancels e) (e_gen e) (e_cancelled e) (e_shutdown e) (e_threads e) (e_clock e).
Definition set_ready (b : bool) (e : Engine S) : Engine S :=
  mkEngine (e_store e) b (e_cancels e) (e_gen e) (e_cancelled e) (e_shutdown e) (e_threads e) (e_clock e).
Definition set_registry (c : gmap string Z) (x : gset Z) (e : Engine S) : Engine S :=
  mkEngine (e_store e) (e_ready e) c (e_gen e) x (e_shutdown e) (e_threads e) (e_clock e).
Definition set_threads (l : list (Run * run_pc)) (e : Engine S) : Engine S :=
  mkEngine (e_store e) (e_ready e) (e_cancels e) (e_gen e) (e_cancelled e) (e_shutdown e) l (e_clock e).

(** [time.Now().UTC()] *)
Definition epoch : Time := mkTime 0 0.
Definition Now (e : Engine S) : Time * Engine S :=
  (hd epoch (e_clock e),
   mkEngine (e_store e) (e_ready e) (e_cancels e) (e_gen e) (e_cancelled e) (e_shutdown e)
     (e_threads e) (tl (e_clock e))).

(** [NewEngine] *)
Definition NewEngine (s : S) (clock : list Time) : Engine S :=
  mkEngine s false ∅ 0 ∅ false [] clock.

(** [newTaskContext]: the fresh generation overwrites the ID's entry. *)
Definition newTaskContext (id : string) (e : Engine S) : Z * Engine S :=
  let gen := (e_gen e + 1)%Z in
  (gen, mkEngine (e_store e) (e_ready e) (<[id := gen]> (e_cancels e)) gen (e_cancelled e)
          (e_shutdown e) (e_threads e) (e_clock e)).

(** [ctx.Err()] of the context of a generation *)
Definition ctxCancelled (e : Engine S) (gen : Z) : bool :=
  e_shutdown e || bool_decide (gen ∈ e_cancelled e).
Definition ctxOf (e : Engine S) (r : Run) : Ctx := mkCtx (run_ID r) (ctxCancelled e (run_Gen r)).

(** [clearCancel]: compare-and-delete on the generation *)
Definition clearCancel (id : string) (gen : Z) (e : Engine S) : Engine S :=
  if bool_decide (e_cancels e !! id = Some gen)
  then set_registry (delete id (e_cancels e)) ({[gen]} ∪ e_cancelled e) e
  else e.

(** ** One run *)

(** The readiness hook at the end of [execute]. *)
Definition readyHook (taskType : string) (err : option HandlerError) (e : Engine S) : Engine S :=
  match err with
  | Some _ => e
  | None => if taskType =s TaskMarkReady then set_ready true e
            else if taskType =s taskTypeMarkNotReady then set_ready false e
            else e
  end.

(** The handler call under [executeRecovered]'s recover. *)
Definition callRecovered (handler : TaskHandler S) (r : Run) (e : Engine S)
  : option string * option HandlerError * Engine S :=
  match handler (ctxOf e r) (run_Params r) (e_store e) with
  | (HReturn res err, s') => (res, err, set_store s' e)
  | (HPanic p, s') => (None, Some (mkHandlerError ("task handler panicked: " +:+ p) false), set_store s' e)
  end.

(** [executeRecovered] around [execute] *)
Definition executeRecovered (handler : TaskHandler S) (r : Run) (e : Engine S)
  : option string * option HandlerError * Engine S :=
  let '(res, err, e1) := callRecovered handler r e in
  (res, err, readyHook (run_Type r) err e1).

(** The guard of [runTaskSync]: the run was cancelled and did not succeed. *)
Definition leaveStoreUntouched (err : option HandlerError) (cancelled : bool) : bool :=
  match err with
  | Some h => he_canceled h || cancelled
  | None => false
  end.

(** The row [runTaskSync] persists. *)
Definition outcomeRow (r : Run) (res : option string) (err : option HandlerError) (t : Time)
  : TaskResult :=
  mkTaskResult (run_ID r) (run_Type r)
    (match err with Some _ => TaskStatusFailed | None => TaskStatusCompleted end)
    (run_Run r) (run_Params r) res
    (match err with Some h => he_text h | None => "" end)
    (run_SubmittedAt r) (Some t).

(** [runTaskSync], its deferred [clearCancel] last *)
Definition runTaskSync (handler : TaskHandler S) (r : Run) (e : Engine S) : Engine S :=
  let '(res, err, e1) := executeRecovered handler r e in
  let e2 :=
    if leaveStoreUntouched err (ctxCancelled e1 (run_Gen r)) then e1
    else let '(t, e1') := Now e1 in
         set_store (Save (outcomeRow r res err t) (e_store e1')).2 e1' in
  clearCancel (run_ID r) (run_Gen r) e2.

(** [runTask]: the goroutine is started, its handler not yet called *)
Definition runTask (r : Run) (e : Engine S) : Engine S :=
  set_threads (e_threads e ++ [(r, PHandler)]) e.

(** ** Submission *)
Section Submit.
Variable handlers : string -> option (TaskHandler S).
(** [uuid.Parse] (github.com/google/uuid) succeeds. *)
Variable uuidParses : string -> bool.

Definition ErrInvalidTaskID := "task ID must be a valid UUID".

Definition validateTaskID (id : string) : result unit :=
  if id =s "" then Ok tt
  else if uuidParses id then Ok tt
  else Err (ErrInvalidTaskID +:+ ": " +:+ quote id).

(** The checks before the lock; [newID] is what [uuid.New] would return. *)
Definition submitID (task : EngineTask) (newID : string) : result string :=
  match handlers (et_Type task) with
  | None => Err ("unknown task type: " +:+ et_Type task)
  | Some _ =>
      match validateTaskID (et_ID task) with
      | Err e => Err e
      | Ok _ => Ok (if et_ID task =s "" then newID else et_ID task)
      end
  end.

(** The decision on the stored row: [None] is the idempotent no-op, [Some run]
    the run to start. A failed [Get] reads as no row. *)
Definition submitRun (got : result (option TaskResult)) : option Z :=
  match got with
  | Ok (Some existing) =>
      match tr_Status existing with
      | TaskStatusRunning | TaskStatusCompleted => None
      | TaskStatusFailed => Some (tr_Run existing + 1)%Z
      end
  | _ => Some 1%Z
  end.

Definition submittedRow (task : EngineTask) (id : string) (run : Z) (now : Time) : TaskResult :=
  mkTaskResult id (et_Type task) TaskStatusRunning run (et_Params task) None "" now None.

(** The registration and start after a successful [Save]. *)
Definition startRun (ty : string) (params : Params) (id : string) (submittedAt : Time) (run : Z) (e : Engine S) : Engine S :=
  let '(gen, e1) := newTaskContext id e in
  runTask (mkRun id ty params submittedAt run gen) e1.

Definition Submit (task : EngineTask) (newID : string) (e : Engine S) : result string * Engine S :=
  match submitID task newID with
  | Err msg => (Err msg, e)
  | Ok id =>
      let '(got, s1) := Get id (e_store e) in
      let e1 := set_store s1 e in
      match submitRun got with
      | None => (Ok id, e1)
      | Some run =>
          let '(now, e2) := Now e1 in
          match Save (submittedRow task id run now) (e_store e2) with
          | (Err msg, s3) => (Err ("persist task: " +:+ msg), set_store s3 e2)
          | (Ok _, s3) =>
              (Ok id, startRun (et_Type task) (et_Params task) id now run (set_store s3 e2))
          end
      end
  end.

(** ** Deletion *)

(** The first locked part: cancel the registered context, keep its
    generation. *)
Definition removeCancel (id : string) (e : Engine S) : option Z * Engine S :=
  match e_cancels e !! id with
  | Some gen => (Some gen, set_registry (e_cancels e) ({[gen]} ∪ e_cancelled e) e)
  | None => (None, e)
  end.

(** The second locked part: compare-and-delete of that generation. *)
Definition removeEntry (id : string) (had : option Z) (e : Engine S) : Engine S :=
  match had with
  | Some gen =>
      if bool_decide (e_cancels e !! id = Some gen)
      then set_registry (delete id (e_cancels e)) (e_cancelled e) e else e
  | None => e
  end.

Definition RemoveResult (id : string) (e : Engine S) : result bool * Engine S :=
  let '(had, e1) := removeCancel id e in
  match Delete id (e_store e1) with
  | (Err msg, s') => (Err msg, set_store s' e1)
  | (Ok deleted, s') => (Ok deleted, removeEntry id had (set_store s' e1))
  end.

(** ** Crash recovery *)

(** A stored row closed as failed, as rehydration does it. *)
Definition failStale (tr : TaskResult) (msg : string) (e : Engine S) : Engine S :=
  let '(t, e1) := Now e in
  set_store (Save (mkTaskResult (tr_ID tr) (tr_Type tr) TaskStatusFailed (tr_Run tr)
                     (tr_Params tr) (tr_Result tr) msg (tr_SubmittedAt tr) (Some t))
               (e_store e1)).2 e1.

Definition resolveStaleHandler (tr : TaskResult) (e : Engine S)
  : option (TaskHandler S) * Engine S :=
  match handlers (tr_Type tr) with
  | Some h => (Some h, e)
  | None => (None, failStale tr "no handler registered for task type" e)
  end.

Definition markReadySuperseded (mr : TaskResult) (e : Engine S) : bool * Engine S :=
  let '(hold, s1) := LatestByType taskTypeMarkNotReady (e_store e) in
  let e1 := set_store s1 e in
  match hold with
  | Err _ => (true, e1)
  | Ok None => (false, e1)
  | Ok (Some h) =>
      if Before (tr_SubmittedAt h) (tr_SubmittedAt mr) then (false, e1)
      else (true, failStale mr "superseded by hold" e1)
  end.

Definition staleRun (tr : TaskResult) (gen : Z) : Run :=
  mkRun (tr_ID tr) (tr_Type tr) (tr_Params tr) (tr_SubmittedAt tr) (tr_Run tr) gen.

(** The body of the first loop: a stale hold runs to its end. *)
Definition rehydrateHold (tr : TaskResult) (e : Engine S) : Engine S :=
  match resolveStaleHandler tr e with
  | (Some h, e1) => let '(gen, e2) := newTaskContext (tr_ID tr) e1 in
                    runTaskSync h (staleRun tr gen) e2
  | (None, e1) => e1
  end.

(** The body of the second loop: any other stale task is started. *)
Definition rehydrateTask (tr : TaskResult) (e : Engine S) : Engine S :=
  let start e := match resolveStaleHandler tr e with
                 | (Some _, e1) => startRun (tr_Type tr) (tr_Params tr) (tr_ID tr)
                                     (tr_SubmittedAt tr) (tr_Run tr) e1
                 | (None, e1) => e1
                 end in
  if tr_Type tr =s taskTypeMarkNotReady then e
  else if tr_Type tr =s TaskMarkReady then
    match markReadySuperseded tr e with
    | (true, e1) => e1
    | (false, e1) => start e1
    end
  else start e.

Definition isHold (tr : TaskResult) : bool := tr_Type tr =s taskTypeMarkNotReady.

Definition rehydrateHolds (stale : list TaskResult) (e : Engine S) : Engine S :=
  fold_left (fun e tr => if isHold tr then rehydrateHold tr e else e) stale e.

Definition rehydrateTasks (stale : list TaskResult) (e : Engine S) : Engine S :=
  fold_left (fun e tr => rehydrateTask tr e) stale e.

Definition RehydrateStaleTasks (e : Engine S) : Engine S :=
  match ListStaleTasks (e_store e) with
  | (Err _, s1) => set_store s1 e
  | (Ok stale, s1) =>
      let e1 := rehydrateHolds stale (set_store s1 e) in
      if existsb isHold stale then
        match ListStaleTasks (e_store e1) with
        | (Err _, s2) => set_store s2 e1
        | (Ok stale', s2) => rehydrateTasks stale' (set_store s2 e1)
        end
      else rehydrateTasks stale e1
  end.

(** ** Reads *)
Definition Healthz (e : Engine S) : bool := e_ready e.
Definition Livez (e : Engine S) : result unit * S := Ping (e_store e).
Definition Status (e : Engine S) : string := if e_ready e then "Ready" else "Initializing".
Definition RecentResults (e : Engine S) : list TaskResult :=
  match List_ 100 (e_store e) with (Ok l, _) => l | (Err _, _) => [] end.
Definition GetResult (id : string) (e : Engine S) : option TaskResult :=
  match Get id (e_store e) with (Ok r, _) => r | (Err _, _) => None end.

End Submit.
End Engine.

(** ** Lemmas on the store effects of the operations *)
Section EngineLemmas.
Context {S : Type} {RS : ResultStore S} {RSL : ResultStoreLaws S}.
Implicit Types e : Engine S.

Definition rows e : gmap string TaskResult := view (e_store e).

Lemma Save_cases r (s : S) :
  (exists s', Save r s = (Ok tt, s') /\ view s' = <[tr_ID r := scanned r]> (view s)) \/
  (exists msg s', Save r s = (Err msg, s') /\ view s' = view s).
Proof.
  destruct (Save r s) as [[[]|msg] s'] eqn:E; [left|right].
  - exists s'. split; [done|]. by apply Save_ok.
  - exists msg, s'. split; [done|]. by apply (Save_err _ _ _ _ E).
Qed.

Lemma Get_cases id (s : S) :
  exists got s', Get id s = (got, s') /\ view s' = view s /\
    (forall o, got = Ok o -> o = view s !! id).
Proof.
  destruct (Get id s) as [got s'] eqn:E. exists got, s'. split_and!; [done| |].
  - pose proof (Get_view id s) as H. by rewrite E in H.
  - intros o ->. by apply (Get_ok _ _ _ _ E).
Qed.

Lemma failStale_rows tr msg e :
  e_threads (failStale tr msg e) = e_threads e /\
  e_ready (failStale tr msg e) = e_ready e /\
  e_shutdown (failStale tr msg e) = e_shutdown e /\
  e_cancelled (failStale tr msg e) = e_cancelled e /\
  e_cancels (failStale tr msg e) = e_cancels e /\
  e_gen (failStale tr msg e) = e_gen e /\
  (rows (failStale tr msg e) = rows e \/
   exists x, rows (failStale tr msg e) = <[tr_ID tr := x]> (rows e) /\
     tr_ID x = tr_ID tr /\ tr_Type x = tr_Type tr /\ tr_Run x = tr_Run tr /\
     tr_Params x = read_back (tr_Params tr) /\ tr_SubmittedAt x = tr_SubmittedAt tr /\
     tr_Status x = TaskStatusFailed).
Proof.
  unfold failStale, rows. simpl. split_and!; [done..|].
  edestruct (Save_cases) as [(s' & -> & Hv)|(m & s' & -> & Hv)]; simpl;
    [right|left; exact Hv].
  rewrite Hv. eexists. split; [done|]. done.
Qed.

Lemma clearCancel_store id gen e : e_store (clearCancel id gen e) = e_store e.
Proof. unfold clearCancel. by case_bool_decide. Qed.
Lemma clearCancel_threads id gen e : e_threads (clearCancel id gen e) = e_threads e.
Proof. unfold clearCancel. by case_bool_decide. Qed.
Lemma clearCancel_ready id gen e : e_ready (clearCancel id gen e) = e_ready e.
Proof. unfold clearCancel. by case_bool_decide. Qed.
Lemma clearCancel_gen id gen e : e_gen (clearCancel id gen e) = e_gen e.
Proof. unfold clearCancel. by case_bool_decide. Qed.

(** The readiness hook touches nothing else. *)
Lemma readyHook_frame ty err e :
  e_store (readyHook ty err e) = e_store e /\
  e_threads (readyHook ty err e) = e_threads e /\
  e_cancels (readyHook ty err e) = e_cancels e /\
  e_gen (readyHook ty err e) = e_gen e /\
  e_cancelled (readyHook ty err e) = e_cancelled e /\
  e_shutdown (readyHook ty err e) = e_shutdown e /\
  e_clock (readyHook ty err e) = e_clock e.
Proof.
  unfold readyHook. destruct err; [done|]. by repeat case_match.
Qed.
End EngineLemmas.

#[export] Hint Rewrite @clearCancel_store @clearCancel_threads @clearCancel_ready
  @clearCancel_gen : sei_rw.

(** ** Submission and runs *)
Section EngineClaims.
Context {S : Type} {RS : ResultStore S} {RSL : ResultStoreLaws S}.
Variable handlers : string -> option (TaskHandler S).
Variable uuidParses : string -> bool.
Implicit Types e : Engine S.

(** What a submission did to the engine: nothing, or one new run of the next
    generation, registered and started. *)
Definition submit_noop e e' : Prop :=
  rows e' = rows e /\ e_threads e' = e_threads e /\ e_cancels e' = e_cancels e /\
  e_gen e' = e_gen e /\ e_ready e' = e_ready e.

Definition submit_started (task : EngineTask) (id : string) (run : Z) e e' : Prop :=
  exists now,
    rows e' = <[id := scanned (submittedRow task id run now)]> (rows e) /\
    e_threads e' = e_threads e ++
      [(mkRun id (et_Type task) (et_Params task) now run (e_gen e + 1)%Z, PHandler)] /\
    e_cancels e' = <[id := (e_gen e + 1)%Z]> (e_cancels e) /\
    e_gen e' = (e_gen e + 1)%Z /\ e_ready e' = e_ready e.

Lemma startRun_started task id run now s e :
  view s = <[id := scanned (submittedRow task id run now)]> (rows e) ->
  submit_started task id run e
    (startRun (et_Type task) (et_Params task) id now run (set_store s e)).
Proof. intros H. exists now. split_and!; done. Qed.

(** Property: Submit follows the documented lifecycle on every branch: an error
    leaves rows, runs and registry as they were; a running or completed row
    makes the submission a no-op that returns the ID; a failed row starts its
    next run number; an absent row (or one the store could not read) starts run
    1. A started run is recorded running before its goroutine exists, under
    exactly one fresh generation. *)
Theorem submit_lifecycle (task : EngineTask) (newID : string) e r e'
    (H : Submit handlers uuidParses task newID e = (r, e')) :
  match r with
  | Err _ => submit_noop e e'
  | Ok id =>
      submitID handlers uuidParses task newID = Ok id /\
      match (Get id (e_store e)).1, rows e !! id with
      | Ok _, Some row =>
          match tr_Status row with
          | TaskStatusFailed => submit_started task id (tr_Run row + 1) e e'
          | _ => submit_noop e e'
          end
      | _, _ => submit_started task id 1 e e'
      end
  end.
Proof.
  unfold Submit in H. destruct (submitID _ _ _ _) as [id|msg]; [|by simplify_eq].
  destruct (Get_cases id (e_store e)) as (got & s1 & Hg & Hv & Hgo). rewrite Hg in *.
  assert (Hsv : forall run,
    match Save (submittedRow task id run (hd epoch (e_clock e))) s1 with
    | (Err msg, s3) => (Err ("persist task: " +:+ msg), set_store s3 (Now (set_store s1 e)).2)
    | (Ok _, s3) => (Ok id, startRun (et_Type task) (et_Params task) id
                       (hd epoch (e_clock e)) run (set_store s3 (Now (set_store s1 e)).2))
    end = (r, e') ->
    match r with Err _ => submit_noop e e' | Ok i => i = id /\ submit_started task id run e e' end).
  { intros run. edestruct Save_cases as [(s3 & -> & Hs)|(m & s3 & -> & Hs)];
      intros [= <- <-]; rewrite Hv in Hs.
    - split; [done|]. exists (hd epoch (e_clock e)). split_and!; done.
    - split_and!; done. }
  assert (Hnoop : submit_noop e (set_store s1 e)) by (split_and!; done).
  assert (Hcase : match submitRun got with
                  | None => (r, e') = (Ok id, set_store s1 e)
                  | Some run => match r with
                                | Err _ => submit_noop e e'
                                | Ok i => i = id /\ submit_started task id run e e'
                                end
                  end).
  { destruct (submitRun got) as [run|]; [by apply Hsv | by symmetry]. }
  clear H Hsv. destruct got as [o|msg]; simpl in Hcase.
  - specialize (Hgo o eq_refl). subst o. fold (rows e) in Hcase.
    destruct (rows e !! id) as [row|] eqn:Er; simpl in Hcase.
    + destruct (tr_Status row) eqn:Es; try (simplify_eq; rewrite Hg, Er, Es; done).
      destruct r; [|done]. destruct Hcase as [-> ?]. rewrite Hg, Er, Es. done.
    + destruct r; [|done]. destruct Hcase as [-> ?]. rewrite Hg, Er. done.
  - destruct r; [|done]. destruct Hcase as [-> ?]. rewrite Hg. done.
Qed.

(** The store after a run: as the handler left it, or as the save of the run's row
    left it, with the row or, when it failed, with the rows of before. *)
Definition run_saved (r : Run) (res : option string) (err : option HandlerError) (s s' : S) : Prop :=
  exists t saved, Save (outcomeRow r res err t) s = (saved, s') /\
    view s' = match saved with
              | Ok _ => <[run_ID r := scanned (outcomeRow r res err t)]> (view s)
              | Err _ => view s
              end.
Lemma runTaskSync_rows (handler : TaskHandler S) (r : Run) e :
  let '(res, err, e1) := callRecovered handler r e in
  if leaveStoreUntouched err (ctxCancelled e1 (run_Gen r))
  then e_store (runTaskSync handler r e) = e_store e1
  else run_saved r res err (e_store e1) (e_store (runTaskSync handler r e)).
Proof.
  unfold runTaskSync, executeRecovered.
  destruct (callRecovered handler r e) as [[res err] e1].
  destruct (readyHook_frame (run_Type r) err e1) as (Hs & _ & _ & _ & Hx & Hsh & _).
  assert (Hcan : ctxCancelled (readyHook (run_Type r) err e1) (run_Gen r)
                 = ctxCancelled e1 (run_Gen r)) by (unfold ctxCancelled; by rewrite Hx, Hsh).
  rewrite Hcan, clearCancel_store.
  destruct (leaveStoreUntouched _ _); [done|]. simpl. rewrite Hs.
  match goal with |- run_saved _ _ _ _ (snd (Save ?x ?s)) =>
    eexists _, (Save x s).1; (split; [apply surjective_pairing|]);
    destruct (Save_cases x s) as [(s3 & Es & Hv)|(m & s3 & Es & Hv)]; rewrite Es; exact Hv end.
Qed.

(** The registry after a run: only the run's own entry goes. *)
Lemma runTaskSync_cancels (handler : TaskHandler S) (r : Run) e :
  e_cancels (runTaskSync handler r e)
  = if bool_decide (e_cancels e !! run_ID r = Some (run_Gen r))
    then delete (run_ID r) (e_cancels e) else e_cancels e.
Proof.
  unfold runTaskSync, executeRecovered.
  destruct (callRecovered handler r e) as [[res err] e1] eqn:Ec.
  destruct (readyHook_frame (run_Type r) err e1) as (_ & _ & Hc & _).
  assert (Hc1 : e_cancels e1 = e_cancels e).
  { unfold callRecovered in Ec. repeat case_match; by simplify_eq. }
  rewrite Hc1 in Hc. unfold clearCancel.
  destruct (leaveStoreUntouched _ _); simpl; rewrite Hc; by case_bool_decide.
Qed.

End EngineClaims.

(** ** Crash recovery *)
Section Rehydration.
Context {S : Type} {RS : ResultStore S} {RSL : ResultStoreLaws S}.
Variable handlers : string -> option (TaskHandler S).
Hypothesis hold_handler : handlers taskTypeMarkNotReady = Some MarkNotReadyHandler.
Implicit Types e : Engine S.

(** Two rows of one submission: recovery never changes these fields. *)
Definition same_task (a b : TaskResult) : Prop :=
  tr_ID a = tr_ID b /\ tr_Type a = tr_Type b /\ tr_Run a = tr_Run b /\
  tr_Params a = tr_Params b /\ tr_SubmittedAt a = tr_SubmittedAt b.

(** Every row comes from a row of before, and no hold is lost. *)
Definition derived (m0 m : gmap string TaskResult) : Prop :=
  (forall id r, m !! id = Some r -> exists r0, m0 !! id = Some r0 /\ same_task r0 r /\
     (tr_Status r = TaskStatusRunning -> tr_Status r0 = TaskStatusRunning)) /\
  (forall id r0, m0 !! id = Some r0 -> isHold r0 = true ->
     exists r, m !! id = Some r /\ same_task r0 r).

Lemma derived_refl m : derived m m.
Proof. split; intros id r H; [|intros _]; exists r; by repeat split. Qed.

Lemma derived_insert m0 m r0 x :
  derived m0 m -> m0 !! tr_ID x = Some r0 -> same_task r0 x ->
  tr_Status x <> TaskStatusRunning -> derived m0 (<[tr_ID x := x]> m).
Proof.
  intros [H1 H2] H0 Hs Hnr. split.
  - intros id r. rewrite lookup_insert_Some. intros [[<- <-]|[? Hr]]; [by exists r0|by apply H1].
  - intros id r Hr Hh. destruct (decide (id = tr_ID x)) as [->|Hne].
    + rewrite lookup_insert_eq. exists x. split; [done|]. by simplify_eq.
    + rewrite lookup_insert_ne by done. by apply H2.
Qed.

Lemma derived_purge m0 m :
  derived m0 m -> derived m0 (filter (fun kv => tr_Type kv.2 <> TaskMarkReady) m).
Proof.
  intros [H1 H2]. split.
  - intros id r Hr. apply map_lookup_filter_Some in Hr as [Hr _]. by apply H1.
  - intros id r0 H0 Hh. destruct (H2 id r0 H0 Hh) as (r & Hr & Hs). exists r. split; [|done].
    apply map_lookup_filter_Some. split; [done|]. simpl. destruct Hs as (_ & <- & _).
    unfold isHold in Hh. apply String.eqb_eq in Hh. by rewrite Hh.
Qed.

(** A stale row, as the loops hold it. *)
Definition stale_of (m0 : gmap string TaskResult) (tr : TaskResult) : Prop :=
  read_back (tr_Params tr) = tr_Params tr /\
  exists r0, m0 !! tr_ID tr = Some r0 /\ same_task r0 tr /\ tr_Status r0 = TaskStatusRunning.

Lemma failStale_derived m0 tr msg e :
  derived m0 (rows e) -> stale_of m0 tr -> derived m0 (rows (failStale tr msg e)).
Proof.
  intros Hd (Hrb & r0 & H0 & Hs & _).
  destruct (failStale_rows tr msg e) as (_ & _ & _ & _ & _ & _ & [->|(x & -> & Hx)]); [done|].
  unfold same_task in Hs. destruct Hx as (Hid & Hty & Hru & Hpa & Hsu & Hst).
  rewrite <- Hid. apply derived_insert with r0; [done|by rewrite Hid| |by rewrite Hst].
  unfold same_task. rewrite Hid, Hty, Hru, Hpa, Hsu, Hrb. naive_solver.
Qed.

(** The purge of the hold's handler. *)
Lemma MarkNotReady_derived m0 ctx p (s : S) :
  derived m0 (view s) -> derived m0 (view (MarkNotReadyHandler ctx p s).2).
Proof.
  intros Hd. unfold MarkNotReadyHandler.
  destruct (DeleteByType TaskMarkReady s) as [[n|msg] s'] eqn:E; simpl.
  - destruct (DeleteByType_ok _ _ _ _ E) as [-> _]. by apply derived_purge.
  - by rewrite (DeleteByType_err _ _ _ _ E).
Qed.

Lemma callRecovered_frame h r e res err e1 :
  callRecovered h r e = (res, err, e1) ->
  e_store e1 = (h (ctxOf e r) (run_Params r) (e_store e)).2 /\
  e_threads e1 = e_threads e /\ e_ready e1 = e_ready e /\ e_cancels e1 = e_cancels e /\
  e_gen e1 = e_gen e /\ e_cancelled e1 = e_cancelled e /\ e_shutdown e1 = e_shutdown e.
Proof. unfold callRecovered. intros. repeat case_match; by simplify_eq. Qed.

Lemma runTaskSync_threads h r e : e_threads (runTaskSync h r e) = e_threads e.
Proof.
  unfold runTaskSync, executeRecovered. destruct (callRecovered h r e) as [[res err] e1] eqn:E.
  apply callRecovered_frame in E as (_ & Ht & _). rewrite clearCancel_threads.
  destruct (readyHook_frame (run_Type r) err e1) as (_ & Ht' & _).
  destruct (leaveStoreUntouched _ _); simpl; congruence.
Qed.

Lemma runTaskSync_derived m0 tr gen e :
  derived m0 (rows e) -> stale_of m0 tr ->
  derived m0 (rows (runTaskSync MarkNotReadyHandler (staleRun tr gen) e)).
Proof.
  intros Hd (Hrb & r0 & H0 & Hs & _).
  pose proof (runTaskSync_rows MarkNotReadyHandler (staleRun tr gen) e) as H.
  destruct (callRecovered _ _ e) as [[res err] e1] eqn:Ec.
  apply callRecovered_frame in Ec as (Hst & _).
  assert (Hd1 : derived m0 (rows e1)).
  { unfold rows. rewrite Hst. by apply MarkNotReady_derived. }
  unfold rows in *. destruct (leaveStoreUntouched _ _); [by rewrite H|].
  destruct H as (t & saved & _ & ->). destruct saved; [|done].
  apply (derived_insert m0 _ r0 (scanned (outcomeRow (staleRun tr gen) res err t)));
    [done|done| |by destruct err]. unfold same_task in *. simpl. rewrite Hrb. naive_solver.
Qed.

Lemma rehydrateHold_derived m0 tr e :
  derived m0 (rows e) -> stale_of m0 tr -> isHold tr = true ->
  derived m0 (rows (rehydrateHold handlers tr e)) /\
  e_threads (rehydrateHold handlers tr e) = e_threads e.
Proof.
  intros Hd Hst Hh. unfold rehydrateHold, resolveStaleHandler.
  unfold isHold in Hh. apply String.eqb_eq in Hh. rewrite Hh, hold_handler. simpl.
  rewrite runTaskSync_threads. split; [|done]. by apply runTaskSync_derived.
Qed.

Lemma rehydrateHolds_derived m0 stale e :
  derived m0 (rows e) -> Forall (stale_of m0) stale ->
  derived m0 (rows (rehydrateHolds handlers stale e)) /\
  e_threads (rehydrateHolds handlers stale e) = e_threads e.
Proof.
  unfold rehydrateHolds. revert e. induction stale as [|tr stale IH]; intros e Hd HF; [done|].
  inversion_clear HF as [|? ? Htr HF']. simpl. destruct (isHold tr) eqn:Hh; [|by apply IH].
  destruct (rehydrateHold_derived m0 tr e Hd Htr Hh) as [Hd' Ht'].
  destruct (IH _ Hd' HF') as [? ->]. done.
Qed.

Context {LS : LatestSecond S}.

(** A run recovery may have started: the stored run of a task that was running,
    its params as they read back, and, for a release, no hold of a later second
    in the store. *)
Definition recovered (m0 : gmap string TaskResult) (t : Run * run_pc) : Prop :=
  t.2 = PHandler /\
  (exists r0, m0 !! run_ID t.1 = Some r0 /\ t.1 = staleRun r0 (run_Gen t.1) /\
     read_back (tr_Params r0) = tr_Params r0 /\ tr_Status r0 = TaskStatusRunning) /\
  (run_Type t.1 = TaskMarkReady ->
   forall id h, m0 !! id = Some h -> isHold h = true ->
     (t_sec (tr_SubmittedAt h) <= t_sec (run_SubmittedAt t.1))%Z).

Lemma Before_sec a b : Before a b = true -> (t_sec a <= t_sec b)%Z.
Proof. unfold Before. rewrite orb_true_iff, andb_true_iff. lia. Qed.

Lemma markReadySuperseded_spec m0 mr e b e1 :
  derived m0 (rows e) -> stale_of m0 mr -> markReadySuperseded mr e = (b, e1) ->
  derived m0 (rows e1) /\ e_threads e1 = e_threads e /\
  (b = false -> forall id h, m0 !! id = Some h -> isHold h = true ->
     (t_sec (tr_SubmittedAt h) <= t_sec (tr_SubmittedAt mr))%Z).
Proof.
  intros Hd Hst. unfold markReadySuperseded.
  destruct (LatestByType taskTypeMarkNotReady (e_store e)) as [o s1] eqn:E.
  assert (Hv : rows (set_store s1 e) = rows e).
  { unfold rows. simpl. pose proof (Latest_view taskTypeMarkNotReady (e_store e)) as H.
    by rewrite E in H. }
  assert (Hd1 : derived m0 (rows (set_store s1 e))) by by rewrite Hv.
  destruct o as [[h|]|msg]; [destruct (Before _ _) eqn:Eb|..]; intros [= <- <-].
  - split_and!; [done..|]. intros _ id h' Hh' Hhold. apply Before_sec in Eb.
    destruct (proj2 Hd id h' Hh' Hhold) as (r & Hr & Hs).
    destruct Hs as (_ & Hty & _ & _ & Hsub). rewrite Hsub.
    etransitivity; [|exact Eb].
    apply (latest_second _ _ _ _ E id r Hr). rewrite <- Hty.
    unfold isHold in Hhold. by apply String.eqb_eq in Hhold.
  - split_and!; [by apply failStale_derived|by destruct (failStale_rows mr "superseded by hold" (set_store s1 e)) as [-> _]|done].
  - split_and!; [done..|]. intros _ id h' Hh' Hhold.
    destruct (proj2 Hd id h' Hh' Hhold) as (r & Hr & Hs). exfalso.
    apply (Latest_none _ _ _ E id r Hr). destruct Hs as (_ & <- & _).
    unfold isHold in Hhold. by apply String.eqb_eq in Hhold.
  - done.
Qed.

Lemma start_recovered m0 tr e :
  derived m0 (rows e) -> stale_of m0 tr ->
  (tr_Type tr = TaskMarkReady -> forall id h, m0 !! id = Some h -> isHold h = true ->
     (t_sec (tr_SubmittedAt h) <= t_sec (tr_SubmittedAt tr))%Z) ->
  Forall (recovered m0) (e_threads e) ->
  let e' := match resolveStaleHandler handlers tr e with
            | (Some _, e1) => startRun (tr_Type tr) (tr_Params tr) (tr_ID tr)
                                (tr_SubmittedAt tr) (tr_Run tr) e1
            | (None, e1) => e1
            end in
  derived m0 (rows e') /\ Forall (recovered m0) (e_threads e').
Proof.
  intros Hd Hst Hrel HF. unfold resolveStaleHandler.
  destruct (handlers (tr_Type tr)); lazy beta iota zeta.
  - split; [done|]. simpl. apply Forall_app. split; [done|]. apply Forall_singleton.
    destruct Hst as (Hrb & r0 & H0 & Hs & Hrun). split; [done|]. split; [|done].
    exists r0. destruct Hs as (Hid & Hty & Hru & Hpa & Hsu).
    split_and!; [done| |by rewrite Hpa|done].
    unfold staleRun. simpl. by rewrite Hid, Hty, Hru, Hpa, Hsu.
  - split; [by apply failStale_derived|].
    by destruct (failStale_rows tr "no handler registered for task type" e) as [-> _].
Qed.

Lemma rehydrateTask_recovered m0 tr e :
  derived m0 (rows e) -> stale_of m0 tr -> Forall (recovered m0) (e_threads e) ->
  derived m0 (rows (rehydrateTask handlers tr e)) /\
  Forall (recovered m0) (e_threads (rehydrateTask handlers tr e)).
Proof.
  intros Hd Hst HF. unfold rehydrateTask.
  destruct (tr_Type tr =s taskTypeMarkNotReady) eqn:E1; [done|].
  destruct (tr_Type tr =s TaskMarkReady) eqn:E2.
  - destruct (markReadySuperseded tr e) as [b e1] eqn:Em.
    destruct (markReadySuperseded_spec _ _ _ _ _ Hd Hst Em) as (Hd1 & Ht & Hb).
    destruct b; [by rewrite Ht|]. apply start_recovered; [done..| |by rewrite Ht].
    intros _. by apply Hb.
  - apply start_recovered; [done..| |done]. intros Hty. by rewrite Hty in E2.
Qed.

Lemma rehydrateTasks_recovered m0 stale e :
  derived m0 (rows e) -> Forall (stale_of m0) stale -> Forall (recovered m0) (e_threads e) ->
  derived m0 (rows (rehydrateTasks handlers stale e)) /\
  Forall (recovered m0) (e_threads (rehydrateTasks handlers stale e)).
Proof.
  unfold rehydrateTasks. revert e. induction stale as [|tr stale IH]; intros e Hd HF Ht; [done|].
  inversion_clear HF as [|? ? Htr HF']. simpl.
  destruct (rehydrateTask_recovered m0 tr e Hd Htr Ht) as [Hd' Ht']. by apply IH.
Qed.

Lemma stale_listed m0 (s : S) l s' :
  derived m0 (view s) -> ListStaleTasks s = (Ok l, s') -> Forall (stale_of m0) l.
Proof.
  intros [H1 _] E. apply Forall_forall. intros tr Htr%list_elem_of_In.
  apply (Stale_ok _ _ _ E) in Htr as [Hr Hrun].
  destruct (H1 _ _ Hr) as (r0 & H0 & Hs & Hst). split.
  - pose proof (f_equal tr_Params (view_read _ _ _ Hr)) as Hp. exact Hp.
  - exists r0. by split_and!; [|..|apply Hst].
Qed.

Lemma rehydrate_recovered s clock :
  derived (view s) (rows (RehydrateStaleTasks handlers (NewEngine s clock))) /\
  Forall (recovered (view s)) (e_threads (RehydrateStaleTasks handlers (NewEngine s clock))).
Proof.
  unfold RehydrateStaleTasks. simpl. pose proof (Stale_view s) as Hv.
  destruct (ListStaleTasks s) as [[stale|msg] s1] eqn:E; simpl in *.
  2: { unfold rows. simpl. rewrite Hv. split; [apply derived_refl | constructor]. }
  pose proof (stale_listed _ _ _ _ (derived_refl _) E) as HF.
  assert (Hd0 : derived (view s) (rows (set_store s1 (NewEngine s clock))))
    by (unfold rows; simpl; rewrite Hv; apply derived_refl).
  destruct (rehydrateHolds_derived _ _ _ Hd0 HF) as [Hd1 Ht1].
  set (e1 := rehydrateHolds handlers stale _) in *. clearbody e1.
  destruct (existsb isHold stale);
    [|apply rehydrateTasks_recovered; [done..|rewrite Ht1; constructor]].
  pose proof (Stale_view (e_store e1)) as Hv2.
  destruct (ListStaleTasks (e_store e1)) as [[stale'|msg] s2] eqn:E2; simpl in *.
  - apply rehydrateTasks_recovered.
    + unfold rows. simpl. by rewrite Hv2.
    + exact (stale_listed _ _ _ _ Hd1 E2).
    + simpl. rewrite Ht1. constructor.
  - unfold rows. simpl. rewrite Hv2, Ht1. split; [exact Hd1 | constructor].
Qed.

(** Recovery itself never opens the gate: what runs synchronously is a hold. *)
Lemma runHold_ready tr gen e :
  isHold tr = true -> e_ready e = false ->
  e_ready (runTaskSync MarkNotReadyHandler (staleRun tr gen) e) = false.
Proof.
  intros Hh%String.eqb_eq Hr. unfold runTaskSync, executeRecovered.
  destruct (callRecovered _ _ e) as [[res err] e1] eqn:E.
  apply callRecovered_frame in E as (_ & _ & Hr1 & _). rewrite clearCancel_ready.
  assert (H : e_ready (readyHook (run_Type (staleRun tr gen)) err e1) = false).
  { simpl. rewrite Hh. unfold readyHook. destruct err; simpl; congruence. }
  destruct (leaveStoreUntouched _ _); simpl; exact H.
Qed.

Lemma rehydrateHolds_ready stale e :
  e_ready e = false -> e_ready (rehydrateHolds handlers stale e) = false.
Proof.
  unfold rehydrateHolds. revert e. induction stale as [|tr stale IH]; intros e Hr; simpl; [done|].
  apply IH. destruct (isHold tr) eqn:Hh; [|done].
  unfold rehydrateHold, resolveStaleHandler. pose proof Hh as Hty%String.eqb_eq.
  rewrite Hty, hold_handler. simpl. by apply runHold_ready.
Qed.

Lemma failStale_ready tr msg e : e_ready (failStale tr msg e) = e_ready e.
Proof. by destruct (failStale_rows tr msg e) as (_ & -> & _). Qed.

Lemma markReadySuperseded_ready mr e : e_ready (markReadySuperseded mr e).2 = e_ready e.
Proof.
  unfold markReadySuperseded. destruct (LatestByType _ _) as [[[h|]|msg] s1]; [|done..].
  destruct (Before _ _); [done|]. exact (failStale_ready mr _ (set_store s1 e)).
Qed.

Lemma start_ready tr e :
  e_ready match resolveStaleHandler handlers tr e with
          | (Some _, e1) => startRun (tr_Type tr) (tr_Params tr) (tr_ID tr)
                              (tr_SubmittedAt tr) (tr_Run tr) e1
          | (None, e1) => e1
          end = e_ready e.
Proof.
  unfold resolveStaleHandler. destruct (handlers (tr_Type tr)); [reflexivity|]. exact (failStale_ready tr _ e).
Qed.

Lemma rehydrateTasks_ready stale e :
  e_ready (rehydrateTasks handlers stale e) = e_ready e.
Proof.
  unfold rehydrateTasks. revert e. induction stale as [|tr stale IH]; intros e; simpl; [done|].
  rewrite IH. unfold rehydrateTask. destruct (_ =s _); [done|].
  destruct (_ =s _); [|apply start_ready].
  pose proof (markReadySuperseded_ready tr e) as H.
  destruct (markReadySuperseded tr e) as [[] e1]; [exact H|]. by rewrite start_ready.
Qed.

Lemma rehydrate_ready s clock :
  Healthz (RehydrateStaleTasks handlers (NewEngine s clock)) = false.
Proof.
  unfold RehydrateStaleTasks, Healthz. simpl.
  destruct (ListStaleTasks s) as [[stale|msg] s1]; [|done].
  pose proof (rehydrateHolds_ready stale (set_store s1 (NewEngine s clock)) eq_refl) as H.
  destruct (existsb _ _); [|by rewrite rehydrateTasks_ready].
  destruct (ListStaleTasks _) as [[stale'|msg] s2]; [|exact H].
  by rewrite rehydrateTasks_ready.
Qed.

(** ** The purge *)
Context {SU : StoreUp S}.

Definition no_release (m : gmap string TaskResult) : Prop :=
  forall id r, m !! id = Some r -> tr_Type r <> TaskMarkReady.

Lemma no_release_insert m x :
  no_release m -> tr_Type x <> TaskMarkReady -> no_release (<[tr_ID x := x]> m).
Proof.
  intros H Hx id r. rewrite lookup_insert_Some. intros [[_ <-]|[_ Hr]]; [done|by apply (H id)].
Qed.

Lemma failStale_up tr msg e : up (e_store e) -> up (e_store (failStale tr msg e)).
Proof.
  intros Hu. unfold failStale. simpl.
  match goal with |- up (Save ?r ?s).2 => destruct (up_Save r s Hu) as (s' & -> & ?) end. done.
Qed.

(** A hold that runs on a store that is up leaves no release behind. *)
Lemma rehydrateHold_purges tr e :
  isHold tr = true -> up (e_store e) ->
  up (e_store (rehydrateHold handlers tr e)) /\ no_release (rows (rehydrateHold handlers tr e)).
Proof.
  intros Hh Hu. pose proof Hh as Hty%String.eqb_eq.
  unfold rehydrateHold, resolveStaleHandler. rewrite Hty, hold_handler. simpl.
  unfold runTaskSync, executeRecovered, callRecovered, MarkNotReadyHandler. simpl.
  destruct (up_DeleteByType TaskMarkReady (e_store e) Hu) as (n & s1 & E & Hu1). rewrite E.
  apply DeleteByType_ok in E as [E _]. simpl. rewrite Hty. simpl.
  match goal with |- context [Save ?r s1] =>
    destruct (up_Save r s1 Hu1) as (s2 & Es & Hu2); set (row := r) in * end.
  unfold rows. rewrite clearCancel_store. simpl. rewrite Es. simpl.
  split; [done|]. rewrite (Save_ok _ _ _ Es). apply (no_release_insert _ (scanned row)); [|unfold row; simpl; by rewrite ?Hty].
  rewrite E. intros id r Hr%map_lookup_filter_Some. by destruct Hr.
Qed.

Lemma rehydrateHolds_up stale e :
  up (e_store e) -> up (e_store (rehydrateHolds handlers stale e)) /\
  (no_release (rows e) \/ existsb isHold stale = true ->
   no_release (rows (rehydrateHolds handlers stale e))).
Proof.
  unfold rehydrateHolds. revert e.
  induction stale as [|tr stale IH]; intros e Hu; simpl; [naive_solver|].
  destruct (isHold tr) eqn:Hh; simpl.
  - destruct (rehydrateHold_purges tr e Hh Hu) as [Hu' Hn].
    destruct (IH _ Hu') as [? H]. auto.
  - apply IH. done.
Qed.

(** Without a stored release, the second loop starts none. *)
Definition not_release (t : Run * run_pc) : Prop := run_Type t.1 <> TaskMarkReady.

Lemma failStale_no_release tr msg e :
  no_release (rows e) -> tr_Type tr <> TaskMarkReady -> no_release (rows (failStale tr msg e)).
Proof.
  intros Hn Hne.
  destruct (failStale_rows tr msg e) as (_ & _ & _ & _ & _ & _ & [->|(x & -> & Hid & Hty & _)]); [done|].
  rewrite <- Hid. apply no_release_insert; [done|]. by rewrite Hty.
Qed.

Lemma rehydrateTasks_no_release stale e :
  no_release (rows e) -> Forall not_release (e_threads e) ->
  Forall (fun tr => tr_Type tr <> TaskMarkReady) stale ->
  no_release (rows (rehydrateTasks handlers stale e)) /\
  Forall not_release (e_threads (rehydrateTasks handlers stale e)).
Proof.
  unfold rehydrateTasks. revert e. induction stale as [|tr stale IH]; intros e Hn Ht HF; [done|].
  inversion_clear HF as [|? ? Htr HF']. simpl.
  enough (no_release (rows (rehydrateTask handlers tr e)) /\
          Forall not_release (e_threads (rehydrateTask handlers tr e))) as [? ?] by (by apply IH).
  unfold rehydrateTask. apply String.eqb_neq in Htr as Hne. rewrite Hne.
  destruct (tr_Type tr =s taskTypeMarkNotReady); [done|]. unfold resolveStaleHandler.
  destruct (handlers (tr_Type tr)); lazy beta iota zeta.
  - split; [exact Hn|]. simpl. apply Forall_app. split; [done|]. by apply Forall_singleton.
  - split; [by apply failStale_no_release|].
    by destruct (failStale_rows tr "no handler registered for task type" e) as [-> _].
Qed.

Lemma rehydrate_purges s clock id h :
  up s -> view s !! id = Some h -> isHold h = true -> tr_Status h = TaskStatusRunning ->
  no_release (rows (RehydrateStaleTasks handlers (NewEngine s clock))) /\
  Forall not_release (e_threads (RehydrateStaleTasks handlers (NewEngine s clock))).
Proof.
  intros Hu Hh Hhold Hrun. unfold RehydrateStaleTasks. simpl.
  destruct (up_Stale s Hu) as (stale & s1 & E & Hu1). rewrite E.
  assert (Hin : existsb isHold stale = true).
  { apply existsb_exists. exists h. split; [|done]. apply (Stale_ok _ _ _ E).
    by rewrite (view_id _ _ _ Hh). }
  rewrite Hin. pose proof (rehydrateHolds_up stale (set_store s1 (NewEngine s clock)) Hu1) as [Hu2 Hn].
  specialize (Hn (or_intror Hin)).
  assert (Ht : e_threads (rehydrateHolds handlers stale (set_store s1 (NewEngine s clock))) = []).
  { apply (rehydrateHolds_derived (view s)).
    - unfold rows. simpl. pose proof (Stale_view s) as Hv. rewrite E in Hv. simpl in Hv.
      rewrite Hv. apply derived_refl.
    - exact (stale_listed _ _ _ _ (derived_refl _) E). }
  set (e1 := rehydrateHolds _ _ _) in *. clearbody e1.
  destruct (up_Stale _ Hu2) as (stale' & s2 & E2 & _). rewrite E2.
  pose proof (Stale_view (e_store e1)) as Hv2. rewrite E2 in Hv2. simpl in Hv2.
  apply rehydrateTasks_no_release.
  - unfold rows. simpl. by rewrite Hv2.
  - simpl. rewrite Ht. constructor.
  - apply Forall_forall. intros tr Htr%list_elem_of_In.
    apply (Stale_ok _ _ _ E2) in Htr as [Hr _]. exact (Hn _ _ Hr).
Qed.
End Rehydration.

(** C30: What crash recovery starts: whatever the stored rows and whichever
    statements fail, each run that RehydrateStaleTasks starts in the background
    is the stored run of a task that was running, with its run number, its
    submission time and its params as the row reads back (every number as the
    nearest float64). It is a mark-ready only when no stored hold, of any
    status, was submitted in a later second than it; within one second the
    order of the stored texts decides, and rehydrate_misses_newer_hold is a case
    where it releases a held node. Every hold row survives, and recovery never
    sets the readiness flag. *)
Theorem rehydrate_hold_supersedes {S} {RS : ResultStore S} {RSL : ResultStoreLaws S}
    {LS : LatestSecond S} (handlers : string -> option (TaskHandler S)) (s : S) (clock : list Time)
    (Hh : handlers taskTypeMarkNotReady = Some MarkNotReadyHandler) :
  let e := RehydrateStaleTasks handlers (NewEngine s clock) in
  Forall (recovered (view s)) (e_threads e) /\
  (forall id h, view s !! id = Some h -> isHold h = true ->
     exists h', rows e !! id = Some h' /\ same_task h h') /\
  Healthz e = false.
Proof.
  intros e. destruct (rehydrate_recovered handlers Hh s clock) as [[_ Hd] HF].
  split_and!; [exact HF | exact Hd | by apply rehydrate_ready].
Qed.

(** Property: A hold that was in flight at the crash wins recovery: on a store that
    answers, if any mark-not-ready row is still running, then after
    RehydrateStaleTasks no mark-ready row is stored, no mark-ready run is
    started, and the node is not ready. *)
Theorem rehydrate_hold_purges {S} {RS : ResultStore S} {RSL : ResultStoreLaws S}
    {SU : StoreUp S} (handlers : string -> option (TaskHandler S)) (s : S) (clock : list Time)
    (id : string) (h : TaskResult)
    (Hh : handlers taskTypeMarkNotReady = Some MarkNotReadyHandler)
    (Hup : up s) (Hrow : view s !! id = Some h) (Hhold : isHold h = true)
    (Hrun : tr_Status h = TaskStatusRunning) :
  let e := RehydrateStaleTasks handlers (NewEngine s clock) in
  (forall i r, rows e !! i = Some r -> tr_Type r <> TaskMarkReady) /\
  (forall r pc, In (r, pc) (e_threads e) -> run_Type r <> TaskMarkReady) /\
  Healthz e = false.
Proof.
  intros e. destruct (rehydrate_purges handlers Hh s clock id h Hup Hrow Hhold Hrun) as [Hn HF].
  split_and!; [exact Hn | | by apply rehydrate_ready].
  intros r pc Hin. apply list_elem_of_In in Hin. by apply (proj1 (Forall_forall _ _) HF (r, pc)).
Qed.

(** ** Concrete engines *)
Module EngineExamples.

(** The handlers of a sidecar: the two gate tasks, and one that succeeds. *)
Definition sidecar_handlers : string -> option (TaskHandler SQLiteStore) := fun ty =>
  if ty =s TaskMarkReady then Some MarkReadyHandler
  else if ty =s taskTypeMarkNotReady then Some MarkNotReadyHandler
  else if ty =s TaskConfigValidate then Some (fun _ _ s => (HReturn (Some "{}") None, s))
  else None.

Definition at_ns (n : Z) : Time := mkTime 1700000000 n.

(** A release stranded at the crash with the hold that followed it. *)
Definition stranded : list TaskResult :=
  [row_at "release" TaskMarkReady TaskStatusRunning (at_ns 100);
   row_at "hold" taskTypeMarkNotReady TaskStatusRunning (mkTime 1700000005 0)].
Lemma stranded_key : table_ok stranded.
Proof. split; [by_decide | repeat constructor]. Qed.
Definition stranded_store : SQLiteStore := mkSQLiteStore stranded [] stranded_key.

(** Two failed holds and a release submitted between them. *)
Definition between : list TaskResult :=
  [row_at "hold-1" taskTypeMarkNotReady TaskStatusFailed (at_ns 120000000);
   row_at "release" TaskMarkReady TaskStatusRunning (at_ns 121500000);
   row_at "hold-2" taskTypeMarkNotReady TaskStatusFailed (at_ns 123000000)].
Lemma between_key : table_ok between.
Proof. split; [by_decide | repeat constructor]. Qed.
Definition between_store : SQLiteStore := mkSQLiteStore between [] between_key.

(** A completed task on a store whose next statement fails. *)
Definition done_task : list TaskResult :=
  [row_at "b" TaskConfigValidate TaskStatusCompleted (at_ns 5)].
Lemma done_task_key : table_ok done_task.
Proof. split; [by_decide | repeat constructor]. Qed.
Definition busy_store : SQLiteStore := mkSQLiteStore done_task [Some "database is locked"] done_task_key.
Definition quiet_store : SQLiteStore := mkSQLiteStore done_task [] done_task_key.

End EngineExamples.
Import EngineExamples.

Lemma submit_lifecycle_witness :
  Submit sidecar_handlers (fun _ => true) (mkEngineTask "b" TaskConfigValidate (Some [])) "n"
    (NewEngine quiet_store []) = (Ok "b", NewEngine quiet_store []) /\
  submit_noop (NewEngine quiet_store []) (NewEngine quiet_store []).
Proof.
  assert (H : Submit sidecar_handlers (fun _ => true) (mkEngineTask "b" TaskConfigValidate (Some [])) "n"
    (NewEngine quiet_store []) = (Ok "b", NewEngine quiet_store [])) by reflexivity.
  split; [exact H|].
  exact (proj2 (submit_lifecycle sidecar_handlers (fun _ => true) _ _ _ _ _ H)).
Defined.

Lemma rehydrate_hold_supersedes_witness :
  Healthz (RehydrateStaleTasks sidecar_handlers (NewEngine stranded_store [])) = false /\
  Forall (recovered (view stranded_store))
    (e_threads (RehydrateStaleTasks sidecar_handlers (NewEngine stranded_store []))).
Proof.
  destruct (rehydrate_hold_supersedes sidecar_handlers stranded_store [] eq_refl) as (H1 & _ & H2).
  split; [exact H2 | exact H1].
Defined.

Lemma rehydrate_hold_purges_witness :
  view stranded_store !! "hold" =
    Some (row_at "hold" taskTypeMarkNotReady TaskStatusRunning (mkTime 1700000005 0)) /\
  Healthz (RehydrateStaleTasks sidecar_handlers (NewEngine stranded_store [])) = false.
Proof.
  split; [reflexivity|].
  refine (proj2 (proj2 (rehydrate_hold_purges sidecar_handlers stranded_store [] "hold"
    (row_at "hold" taskTypeMarkNotReady TaskStatusRunning (mkTime 1700000005 0)) _ _ _ _ _)));
    reflexivity.
Defined.

(** Property: Durable hold supersession misses a newer hold: with holds
    submitted at .120 and .123 of one second and a mark-ready at .1215 left
    running by a crash, recovery starts the mark-ready although the hold at .123
    is newer than it, because the store's text order puts the .120 hold last.
    Run to its end, it opens the start gate. *)
Theorem rehydrate_misses_newer_hold :
  let e := RehydrateStaleTasks sidecar_handlers (NewEngine between_store []) in
  let release := staleRun (row_at "release" TaskMarkReady TaskStatusRunning (at_ns 121500000)) 1 in
  Before (run_SubmittedAt release) (at_ns 123000000) = true /\
  view between_store !! "hold-2" =
    Some (row_at "hold-2" taskTypeMarkNotReady TaskStatusFailed (at_ns 123000000)) /\
  e_threads e = [(release, PHandler)] /\
  Healthz (runTaskSync MarkReadyHandler release e) = true.
Proof. split_and!; reflexivity. Qed.

(** Property: A read error makes Submit re-run a completed task: the error
    of store.Get is dropped, so when that one statement fails the completed row
    is overwritten by a running run 1 and the handler is started again, although
    the comment on Submit promises a no-op. *)
Theorem submit_reruns_on_read_error :
  let task := mkEngineTask "b" TaskConfigValidate (Some []) in
  let out := Submit sidecar_handlers (fun _ => true) task "n" (NewEngine busy_store []) in
  view busy_store !! "b" = Some (row_at "b" TaskConfigValidate TaskStatusCompleted (at_ns 5)) /\
  out.1 = Ok "b" /\
  rows out.2 !! "b" = Some (submittedRow task "b" 1 epoch) /\
  e_threads out.2 = [(mkRun "b" TaskConfigValidate (Some []) epoch 1 1, PHandler)].
Proof. split_and!; reflexivity. Qed.

(** A task with an integer above 2^53. *)
Definition big_task : EngineTask :=
  mkEngineTask "b" TaskConfigValidate (Some [("limit", PNumber "9007199254740993")]).
Lemma empty_key : table_ok [].
Proof. split; constructor. Qed.

(** Property: A run started by crash recovery need not have the params of the
    submission: an integer above 2^53 in the request, which the first run gets
    digit by digit, is rounded to a float64 in the run after a crash. *)
Theorem rehydrated_params_rounded :
  let out := Submit sidecar_handlers (fun _ => true) big_task "n"
               (NewEngine (mkSQLiteStore [] [] empty_key) []) in
  out.1 = Ok "b" /\
  run_Params <$> (fst <$> e_threads out.2) = [Some [("limit", PNumber "9007199254740993")]] /\
  run_Params <$> (fst <$> e_threads (RehydrateStaleTasks sidecar_handlers (NewEngine (e_store out.2) [])))
    = [Some [("limit", PFloat false (2 ^ 52)%Z 1%Z)]].
Proof. split_and!; vm_compute; reflexivity. Qed.
