(* ===== verification/EngineSteps.v ===== *)
(** * The engine's goroutines interleaved (src/sidecar/engine/engine.go)

    Every submitted task runs in its own goroutine beside the HTTP handlers.
    Here the functions of file Engine are cut at the points where another
    goroutine can run: between the store's statements, around the readiness
    flag, and outside the engine's mutex. A system is the engine with the
    submission that holds the mutex and the deletions in progress; an event
    lets one of them take its next step. The theorems hold for every
    interleaving. *)

From stdpp Require Import base list strings gmap sets.
From Stdlib Require Import ZArith Lia.
From S2P Require Import Prelude Api EngineStore Engine.

(** A submission holds the mutex from [Get] to the start of its run. *)
Inductive submit_frame :=
| SGet (task : EngineTask) (id : string)
| SSave (task : EngineTask) (id : string) (run : Z)
| SStart (task : EngineTask) (id : string) (run : Z) (now : Time).

(** A deletion between its two locked parts: before and after the store's
    [Delete]. *)
Inductive remover :=
| RDelete (id : string) (had : option Z)
| RClear (id : string) (gen : Z).

Record Sys (S : Type) := mkSys {
  sy_engine : Engine S;
  sy_mu : option submit_frame;
  sy_removers : list remover;
}.
Arguments mkSys {S}.
Arguments sy_engine {S}.
Arguments sy_mu {S}.
Arguments sy_removers {S}.

Inductive event :=
| EvSubmit (task : EngineTask) (newID : string)
| EvSubmitStep
| EvRun (i : nat)
| EvRemove (id : string)
| EvRemoveStep (j : nat)
| EvShutdown.

Section Steps.
Context {S : Type} {RS : ResultStore S}.
Variable handlers : string -> option (TaskHandler S).
Variable uuidParses : string -> bool.

Definition with_engine (e : Engine S) (y : Sys S) : Sys S := mkSys e (sy_mu y) (sy_removers y).
Definition unlocked (y : Sys S) : bool := match sy_mu y with None => true | Some _ => false end.

(** [Submit]: the statement or the registration the frame is at *)
Definition submit_step (f : submit_frame) (e : Engine S) : option submit_frame * Engine S :=
  match f with
  | SGet task id =>
      let '(got, s1) := Get id (e_store e) in
      (match submitRun got with None => None | Some run => Some (SSave task id run) end, set_store s1 e)
  | SSave task id run =>
      let '(now, e1) := Now e in
      match Save (submittedRow task id run now) (e_store e1) with
      | (Err _, s2) => (None, set_store s2 e1)
      | (Ok _, s2) => (Some (SStart task id run now), set_store s2 e1)
      end
  | SStart task id run now =>
      (None, startRun (et_Type task) (et_Params task) id now run e)
  end.

(** [runTaskSync] up to its deferred [clearCancel] *)
Definition run_step (r : Run) (pc : run_pc) (e : Engine S) : option (run_pc * Engine S) :=
  match pc with
  | PHandler =>
      match handlers (run_Type r) with
      | Some h => let '(res, err, e1) := callRecovered h r e in Some (PFlip res err, e1)
      | None => None
      end
  | PFlip res err => Some (PGuard res err, readyHook (run_Type r) err e)
  | PGuard res err =>
      if leaveStoreUntouched err (ctxCancelled e (run_Gen r)) then Some (PClear, e)
      else let '(t, e1) := Now e in Some (PSave (outcomeRow r res err t), e1)
  | PSave row => Some (PClear, set_store (Save row (e_store e)).2 e)
  | PClear => None
  end.

Definition set_shutdown (e : Engine S) : Engine S :=
  mkEngine (e_store e) (e_ready e) (e_cancels e) (e_gen e) (e_cancelled e) true (e_threads e) (e_clock e).

Definition step (y : Sys S) (ev : event) : option (Sys S) :=
  let e := sy_engine y in
  match ev with
  | EvSubmit task newID =>
      if unlocked y then
        match submitID handlers uuidParses task newID with
        | Err _ => Some y
        | Ok id => Some (mkSys e (Some (SGet task id)) (sy_removers y))
        end
      else None
  | EvSubmitStep =>
      match sy_mu y with
      | None => None
      | Some f => let '(mu, e') := submit_step f e in Some (mkSys e' mu (sy_removers y))
      end
  | EvRun i =>
      match e_threads e !! i with
      | None => None
      | Some (r, PClear) =>
          if unlocked y
          then Some (with_engine (set_threads (delete i (e_threads e))
                                    (clearCancel (run_ID r) (run_Gen r) e)) y)
          else None
      | Some (r, pc) =>
          match run_step r pc e with
          | None => None
          | Some (pc', e') => Some (with_engine (set_threads (<[i := (r, pc')]> (e_threads e')) e') y)
          end
      end
  | EvRemove id =>
      if unlocked y then
        let '(had, e') := removeCancel id e in
        Some (mkSys e' (sy_mu y) (sy_removers y ++ [RDelete id had]))
      else None
  | EvRemoveStep j =>
      match sy_removers y !! j with
      | None => None
      | Some (RDelete id had) =>
          let '(deleted, s') := Delete id (e_store e) in
          let e' := set_store s' e in
          Some (mkSys e' (sy_mu y)
                  match deleted, had with
                  | Ok _, Some gen => <[j := RClear id gen]> (sy_removers y)
                  | _, _ => delete j (sy_removers y)
                  end)
      | Some (RClear id gen) =>
          if unlocked y
          then Some (mkSys (removeEntry id (Some gen) e) (sy_mu y) (delete j (sy_removers y)))
          else None
      end
  | EvShutdown => Some (with_engine (set_shutdown e) y)
  end.

Fixpoint run_events (y : Sys S) (evs : list event) : option (Sys S) :=
  match evs with
  | [] => Some y
  | ev :: evs' => match step y ev with Some y' => run_events y' evs' | None => None end
  end.

(** The system as the HTTP server starts: recovery has run, nothing else. *)
Definition serving (e : Engine S) : Sys S := mkSys e None [].

(** ** The functions of Engine are sequences of these steps *)

(** An uncontended submission. *)
Definition submit_events (task : EngineTask) (newID : string) (e : Engine S) : list event :=
  EvSubmit task newID ::
  match submitID handlers uuidParses task newID with
  | Err _ => []
  | Ok id => EvSubmitStep ::
      match submitRun (Get id (e_store e)).1 with
      | None => []
      | Some run => EvSubmitStep ::
          match (Save (submittedRow task id run (hd epoch (e_clock e))) (Get id (e_store e)).2).1 with
          | Err _ => []
          | Ok _ => [EvSubmitStep]
          end
      end
  end.

Lemma submit_is_steps task newID e :
  run_events (serving e) (submit_events task newID e)
  = Some (serving (Submit handlers uuidParses task newID e).2).
Proof.
  unfold submit_events, Submit. simpl.
  destruct (submitID _ _ _ _) as [id|]; simpl; [|done].
  destruct (Get id (e_store e)) as [got s1]. simpl.
  destruct (submitRun got) as [run|]; simpl; [|done].
  destruct (Save _ _) as [[[]|msg] s3]; simpl; done.
Qed.

(** An uncontended run of the last goroutine started. *)
Definition run_event_list (r : Run) (h : TaskHandler S) (i : nat) (e : Engine S) : list event :=
  let '(res, err, e1) := callRecovered h r e in
  [EvRun i; EvRun i; EvRun i] ++
  (if leaveStoreUntouched err (ctxCancelled e1 (run_Gen r)) then [] else [EvRun i]) ++ [EvRun i].

Lemma run_events_cons y ev evs y' :
  step y ev = Some y' -> run_events y (ev :: evs) = run_events y' evs.
Proof. simpl. by intros ->. Qed.

(** A run does not look at the list of goroutines. *)
Lemma run_step_threads r pc l (e : Engine S) :
  run_step r pc (set_threads l e)
  = match run_step r pc e with Some (pc', e') => Some (pc', set_threads l e') | None => None end.
Proof.
  destruct pc; simpl; try done.
  - destruct (handlers (run_Type r)) as [h|]; [|done]. unfold callRecovered. simpl.
    by destruct (h _ _ _) as [[]].
  - unfold readyHook. by repeat case_match.
  - unfold ctxCancelled. simpl. by repeat case_match.
Qed.

Lemma step_last r pc pc' ths (e e' : Engine S) :
  run_step r pc e = Some (pc', e') ->
  step (serving (set_threads (ths ++ [(r, pc)]) e)) (EvRun (length ths))
  = Some (serving (set_threads (ths ++ [(r, pc')]) e')).
Proof.
  intros H. unfold step, serving. simpl. rewrite list_lookup_middle by done.
  rewrite run_step_threads, H. simpl.
  rewrite insert_app_r_alt by lia. rewrite Nat.sub_diag. by destruct pc.
Qed.

Lemma step_last_clear r ths (e : Engine S) :
  e_threads e = ths ->
  step (serving (set_threads (ths ++ [(r, PClear)]) e)) (EvRun (length ths))
  = Some (serving (clearCancel (run_ID r) (run_Gen r) e)).
Proof.
  intros H. unfold step, serving. simpl. rewrite list_lookup_middle by done. simpl.
  unfold with_engine. simpl. f_equal. f_equal.
  rewrite delete_middle, app_nil_r. unfold clearCancel. simpl.
  case_bool_decide; destruct e; simpl in *; by subst.
Qed.

Lemma run_is_steps r h e :
  handlers (run_Type r) = Some h ->
  run_events (serving (runTask r e)) (run_event_list r h (length (e_threads e)) e)
  = Some (serving (runTaskSync h r e)).
Proof.
  intros Hh. unfold run_event_list, runTaskSync, executeRecovered, runTask.
  destruct (callRecovered h r e) as [[res err] e1] eqn:Ec.
  assert (Ht : e_threads (readyHook (run_Type r) err e1) = e_threads e).
  { destruct (readyHook_frame (run_Type r) err e1) as (_ & -> & _).
    by destruct (callRecovered_frame _ _ _ _ _ _ Ec) as (_ & -> & _). }
  assert (Hc : ctxCancelled (readyHook (run_Type r) err e1) (run_Gen r)
               = ctxCancelled e1 (run_Gen r)).
  { unfold ctxCancelled. by destruct (readyHook_frame (run_Type r) err e1) as (_ & _ & _ & _ & -> & -> & _). }
  cbn [app].
  rewrite (run_events_cons _ _ _ _ (step_last r PHandler (PFlip res err) (e_threads e) e e1
             ltac:(simpl; by rewrite Hh, Ec))).
  rewrite (run_events_cons _ _ _ _ (step_last r (PFlip res err) (PGuard res err) (e_threads e) e1
             (readyHook (run_Type r) err e1) eq_refl)).
  set (e2 := readyHook _ _ _) in *. rewrite Hc.
  destruct (leaveStoreUntouched err (ctxCancelled e1 (run_Gen r))) eqn:El; cbn [app].
  - rewrite (run_events_cons _ _ _ _ (step_last r (PGuard res err) PClear (e_threads e) e2 e2
               ltac:(simpl; by rewrite Hc, El))).
    by rewrite (run_events_cons _ _ _ _ (step_last_clear r _ _ Ht)).
  - rewrite (run_events_cons _ _ _ _ (step_last r (PGuard res err)
               (PSave (outcomeRow r res err (Now e2).1)) (e_threads e) e2 (Now e2).2
               ltac:(simpl; by rewrite Hc, El))).
    rewrite (run_events_cons _ _ _ _ (step_last r (PSave _) PClear (e_threads e) _ _ eq_refl)).
    rewrite (run_events_cons _ _ _ _ (step_last_clear r (e_threads e)
               (set_store (Save (outcomeRow r res err (Now e2).1) (e_store (Now e2).2)).2 (Now e2).2) Ht)).
    done.
Qed.

(** An uncontended deletion. *)
Definition remove_events (id : string) (e : Engine S) : list event :=
  [EvRemove id; EvRemoveStep 0] ++
  match e_cancels e !! id, (Delete id (e_store e)).1 with
  | Some _, Ok _ => [EvRemoveStep 0]
  | _, _ => []
  end.

Lemma remove_is_steps id e :
  run_events (serving e) (remove_events id e) = Some (serving (RemoveResult id e).2).
Proof.
  unfold remove_events, RemoveResult, removeCancel. simpl. unfold removeCancel.
  destruct (e_cancels e !! id) as [g|]; simpl;
    destruct (Delete id (e_store e)) as [[b|msg] s1]; simpl; done.
Qed.
End Steps.

(** ** The cancel registry *)
Section Registry.
Context {S : Type} {RS : ResultStore S} {RSL : ResultStoreLaws S}.
Variable handlers : string -> option (TaskHandler S).
Variable uuidParses : string -> bool.
Implicit Types e : Engine S.
Implicit Types y : Sys S.

Definition gens (l : list (Run * run_pc)) : list Z := map (fun t => run_Gen t.1) l.

(** Generations are unique and counted; every registered cancel func belongs to
    a run that has not cleaned up yet. *)
Record registry_ok e : Prop := {
  ro_unique : NoDup (gens (e_threads e));
  ro_counted : forall r pc, In (r, pc) (e_threads e) -> (run_Gen r <= e_gen e)%Z;
  ro_owner : forall id g, e_cancels e !! id = Some g ->
    exists r pc, In (r, pc) (e_threads e) /\ run_ID r = id /\ run_Gen r = g;
  ro_cancelled : forall g, g ∈ e_cancelled e -> (g <= e_gen e)%Z;
}.

(** The parts of the engine the registry invariant speaks of. *)
Definition same_registry e e' : Prop :=
  gens (e_threads e') = gens (e_threads e) /\
  (forall r, (exists pc, In (r, pc) (e_threads e')) <-> (exists pc, In (r, pc) (e_threads e))) /\
  e_cancels e' = e_cancels e /\ e_gen e' = e_gen e /\ e_cancelled e' = e_cancelled e.

Lemma same_registry_ok e e' : same_registry e e' -> registry_ok e -> registry_ok e'.
Proof.
  intros (Hg & Hin & Hc & Hn & Hx) [H1 H2 H3 H4]. split.
  - by rewrite Hg.
  - intros r pc Hr. rewrite Hn. destruct (proj1 (Hin r) (ex_intro _ pc Hr)) as [pc' ?]. eauto.
  - intros id g. rewrite Hc. intros (r & pc & Hr & <- & <-)%H3.
    destruct (proj2 (Hin r) (ex_intro _ pc Hr)) as [pc' ?]. eauto.
  - intros g. rewrite Hx, Hn. apply H4.
Qed.

Lemma same_registry_frame e e' :
  e_threads e' = e_threads e -> e_cancels e' = e_cancels e -> e_gen e' = e_gen e ->
  e_cancelled e' = e_cancelled e -> same_registry e e'.
Proof. intros Ht Hc Hg Hx. unfold same_registry. by rewrite Ht, Hc, Hg, Hx. Qed.

Lemma NewEngine_registry s clock : registry_ok (NewEngine s clock).
Proof. split; simpl; [constructor | done | intros ? ?; by rewrite lookup_empty | set_solver]. Qed.

Lemma startRun_registry ty params id t run e :
  registry_ok e -> registry_ok (startRun ty params id t run e).
Proof.
  intros [H1 H2 H3 H4]. split; simpl.
  - unfold gens. rewrite map_app. apply NoDup_app. split_and!; [done| |apply NoDup_singleton].
    intros g Hg%list_elem_of_In Hin. apply in_map_iff in Hg as ([r pc] & <- & Hr). apply H2 in Hr.
    apply list_elem_of_singleton in Hin. simpl in *. lia.
  - intros r pc Hr. apply in_app_iff in Hr as [Hr|[[= <- _]|[]]]; [|simpl; lia].
    apply H2 in Hr. lia.
  - intros i g. rewrite lookup_insert_Some. intros [[<- <-]|[_ (r & pc & ? & ? & ?)%H3]].
    + eexists _, _. rewrite in_app_iff. split; [right; by left | done].
    + exists r, pc. rewrite in_app_iff. eauto.
  - intros g Hg%H4. lia.
Qed.

Lemma failStale_registry tr msg e : registry_ok e -> registry_ok (failStale tr msg e).
Proof.
  destruct (failStale_rows tr msg e) as (Ht & _ & _ & Hx & Hc & Hg & _).
  apply same_registry_ok. by apply same_registry_frame.
Qed.

(** A hold run to its end inside recovery leaves no entry of its own. *)
Lemma runSync_registry h r e :
  registry_ok e -> run_Gen r = (e_gen e + 1)%Z ->
  registry_ok (runTaskSync h r (newTaskContext (run_ID r) e).2).
Proof.
  intros [H1 H2 H3 H4] Hgen.
  assert (Hn : e_threads (newTaskContext (run_ID r) e).2 = e_threads e /\
    e_cancels (newTaskContext (run_ID r) e).2 = <[run_ID r := run_Gen r]> (e_cancels e) /\
    e_gen (newTaskContext (run_ID r) e).2 = run_Gen r /\
    e_cancelled (newTaskContext (run_ID r) e).2 = e_cancelled e) by (rewrite Hgen; done).
  set (en := (newTaskContext (run_ID r) e).2) in *. clearbody en.
  destruct Hn as (Hnt & Hnc & Hng & Hnx).
  pose proof (runTaskSync_threads h r en) as Ht. pose proof (runTaskSync_cancels h r en) as Hc.
  rewrite Hnt in Ht. rewrite Hnc, lookup_insert_eq, bool_decide_true in Hc by done.
  assert (Hg : e_gen (runTaskSync h r en) = run_Gen r /\
    forall g, g ∈ e_cancelled (runTaskSync h r en) -> g = run_Gen r \/ g ∈ e_cancelled e).
  { clear Hc Ht. unfold runTaskSync, executeRecovered.
    destruct (callRecovered h r _) as [[res err] e1] eqn:E.
    apply callRecovered_frame in E as (_ & _ & _ & _ & Hg1 & Hx1 & _).
    destruct (readyHook_frame (run_Type r) err e1) as (_ & _ & _ & Hg2 & Hx2 & _).
    rewrite clearCancel_gen. unfold clearCancel.
    destruct (leaveStoreUntouched _ _); simpl; (split; [congruence|]);
      intros g; case_bool_decide; simpl; rewrite ?elem_of_union, ?elem_of_singleton, Hx2, Hx1, Hnx;
      intuition congruence. }
  destruct Hg as [Hg Hx]. split.
  - by rewrite Ht.
  - intros r' pc Hr. rewrite Ht in Hr. rewrite Hg. apply H2 in Hr. lia.
  - intros id g. rewrite Hc, Ht, lookup_delete_Some, lookup_insert_Some.
    intros [Hne [[? _]|[_ Hi]]]; [done|]. by apply H3.
  - intros g [->|Hin%H4]%Hx; lia.
Qed.

Lemma rehydrate_registry s clock :
  registry_ok (RehydrateStaleTasks handlers (NewEngine s clock)).
Proof.
  assert (Hset : forall s e, registry_ok e -> registry_ok (set_store s e)).
  { intros s1 e. apply same_registry_ok. by apply same_registry_frame. }
  assert (Hstart : forall tr e, registry_ok e ->
    registry_ok match resolveStaleHandler handlers tr e with
                | (Some _, e1) => startRun (tr_Type tr) (tr_Params tr) (tr_ID tr)
                                    (tr_SubmittedAt tr) (tr_Run tr) e1
                | (None, e1) => e1
                end).
  { intros tr e He. unfold resolveStaleHandler. destruct (handlers (tr_Type tr)).
    - by apply startRun_registry. - by apply failStale_registry. }
  assert (Hholds : forall stale e, registry_ok e -> registry_ok (rehydrateHolds handlers stale e)).
  { unfold rehydrateHolds. induction stale as [|tr stale IH]; intros e He; simpl; [done|].
    apply IH. destruct (isHold tr); [|done]. unfold rehydrateHold, resolveStaleHandler.
    destruct (handlers (tr_Type tr)); [|by apply failStale_registry].
    by apply (runSync_registry _ (staleRun tr (e_gen e + 1)%Z)). }
  assert (Htasks : forall stale e, registry_ok e -> registry_ok (rehydrateTasks handlers stale e)).
  { unfold rehydrateTasks. induction stale as [|tr stale IH]; intros e He; simpl; [done|].
    apply IH. unfold rehydrateTask. destruct (_ =s _); [done|]. destruct (_ =s _); [|by apply Hstart].
    unfold markReadySuperseded. destruct (LatestByType _ _) as [[[h|]|msg] s1]; [|by auto..].
    destruct (Before _ _); [by auto|]. by apply failStale_registry, Hset. }
  unfold RehydrateStaleTasks. simpl. pose proof (NewEngine_registry s clock) as H0.
  destruct (ListStaleTasks s) as [[stale|msg] s1]; [|by auto].
  destruct (existsb _ _); [|by auto]. destruct (ListStaleTasks _) as [[stale'|msg] s2]; auto.
Qed.

(** One step of a run leaves the registry and the list of runs alone. *)
Lemma run_step_frame r pc e pc' e' :
  run_step handlers r pc e = Some (pc', e') ->
  e_threads e' = e_threads e /\ e_cancels e' = e_cancels e /\ e_gen e' = e_gen e /\
  e_cancelled e' = e_cancelled e /\ e_shutdown e' = e_shutdown e.
Proof.
  destruct pc; simpl; intros H.
  - destruct (handlers (run_Type r)) as [h|]; [|done].
    destruct (callRecovered h r e) as [[res err] e1] eqn:E. simplify_eq.
    apply callRecovered_frame in E. naive_solver.
  - simplify_eq. destruct (readyHook_frame (run_Type r) err e). naive_solver.
  - destruct (leaveStoreUntouched _ _); by simplify_eq.
  - by simplify_eq.
  - done.
Qed.

Lemma in_insert {A} (l : list A) (i : nat) (x y z : A) :
  l !! i = Some x -> In z (<[i := y]> l) <-> z = y \/ exists j, j <> i /\ l !! j = Some z.
Proof.
  intros Hi. rewrite <- list_elem_of_In, list_elem_of_lookup.
  assert (i < length l) by (by eapply lookup_lt_Some). split.
  - intros [j Hj]. destruct (decide (j = i)) as [->|Hne].
    + rewrite list_lookup_insert_eq in Hj by done. left. congruence.
    + rewrite list_lookup_insert_ne in Hj by done. eauto.
  - intros [->|(j & Hne & Hj)].
    + exists i. by apply list_lookup_insert_eq.
    + exists j. by rewrite list_lookup_insert_ne.
Qed.

Lemma in_delete {A} (l : list A) (i : nat) (x z : A) :
  l !! i = Some x -> In z (delete i l) <-> exists j, j <> i /\ l !! j = Some z.
Proof.
  intros Hi. rewrite <- list_elem_of_In, list_elem_of_lookup. split.
  - intros [j Hj]. destruct (decide (j < i)).
    + rewrite list_lookup_delete_lt in Hj by done. exists j. split; [lia|done].
    + rewrite list_lookup_delete_ge in Hj by lia. exists (1 + j). split; [lia|done].
  - intros (j & Hne & Hj). destruct (decide (j < i)).
    + exists j. by rewrite list_lookup_delete_lt.
    + exists (j - 1). rewrite list_lookup_delete_ge by lia.
      by replace (Datatypes.S (j - 1)) with j by lia.
Qed.

Lemma set_thread_same i r pc pc' e e' :
  e_threads e !! i = Some (r, pc) -> e_threads e' = e_threads e -> e_cancels e' = e_cancels e ->
  e_gen e' = e_gen e -> e_cancelled e' = e_cancelled e ->
  same_registry e (set_threads (<[i := (r, pc')]> (e_threads e')) e').
Proof.
  intros Hi Ht Hc Hg Hx. unfold same_registry. simpl. rewrite Ht. split_and!; [| |done..].
  - unfold gens. rewrite list_fmap_insert. apply list_insert_id.
    rewrite list_lookup_fmap, Hi. done.
  - intros r'. split.
    + intros [pc0 H0]. rewrite (in_insert _ _ _ _ _ Hi) in H0.
      destruct H0 as [[= -> ->]|(j & _ & Hj)].
      * exists pc. apply list_elem_of_In. by eapply list_elem_of_lookup_2.
      * exists pc0. apply list_elem_of_In. by eapply list_elem_of_lookup_2.
    + intros [pc0 H0]. apply list_elem_of_In, list_elem_of_lookup in H0 as [j Hj].
      destruct (decide (j = i)) as [->|Hne].
      * exists pc'. apply (in_insert _ _ _ _ _ Hi). left. congruence.
      * exists pc0. apply (in_insert _ _ _ _ _ Hi). right. eauto.
Qed.

Lemma clear_registry i r pc e :
  registry_ok e -> e_threads e !! i = Some (r, pc) ->
  registry_ok (set_threads (delete i (e_threads e)) (clearCancel (run_ID r) (run_Gen r) e)).
Proof.
  intros [H1 H2 H3 H4] Hi. split; simpl.
  - unfold gens. rewrite list_fmap_delete. eapply sublist_NoDup; [exact H1|].
    apply sublist_delete.
  - intros r' pc' Hr%(in_delete _ _ _ _ Hi). destruct Hr as (j & _ & Hj).
    rewrite clearCancel_gen. apply (H2 r' pc'). apply list_elem_of_In. by eapply list_elem_of_lookup_2.
  - intros id g Hg. assert (Hne : e_cancels e !! id = Some g /\ (id, g) <> (run_ID r, run_Gen r)).
    { unfold clearCancel in Hg. case_bool_decide as Hb; simpl in Hg.
      - apply lookup_delete_Some in Hg as [Hn Hg]. split; [done|]. intros [= -> _]. done.
      - split; [done|]. intros [= -> ->]. done. }
    destruct Hne as [Hin Hne]. destruct (H3 _ _ Hin) as (r' & pc' & Hr & Hid & Hgen).
    exists r', pc'. split; [|done]. apply (in_delete _ _ _ _ Hi).
    apply list_elem_of_In, list_elem_of_lookup in Hr as [j Hj]. exists j. split; [|done].
    intros ->. rewrite Hi in Hj. injection Hj as -> ->. by subst.
  - intros g. rewrite clearCancel_gen. unfold clearCancel.
    case_bool_decide; simpl; [|by apply H4].
    rewrite elem_of_union, elem_of_singleton. intros [->|Hg%H4]; [|done].
    apply (H2 r pc). apply list_elem_of_In. by eapply list_elem_of_lookup_2.
Qed.

(** A step of a run is its clean-up or one of the steps before it. *)
Lemma step_run_inv y i y' :
  step handlers uuidParses y (EvRun i) = Some y' ->
  exists r pc, e_threads (sy_engine y) !! i = Some (r, pc) /\
    ((pc = PClear /\ unlocked y = true /\
      y' = with_engine (set_threads (delete i (e_threads (sy_engine y)))
                          (clearCancel (run_ID r) (run_Gen r) (sy_engine y))) y) \/
     (exists pc' e', run_step handlers r pc (sy_engine y) = Some (pc', e') /\
        y' = with_engine (set_threads (<[i := (r, pc')]> (e_threads (sy_engine y))) e') y)).
Proof.
  simpl. destruct (e_threads (sy_engine y) !! i) as [[r pc]|]; [|done]. intros H.
  exists r, pc. split; [done|].
  destruct (run_step handlers r pc (sy_engine y)) as [[pc' e']|] eqn:Er.
  - right. exists pc', e'. split; [done|]. pose proof (run_step_frame _ _ _ _ _ Er) as [<- _].
    by destruct pc; simplify_eq/=.
  - left. destruct pc; simplify_eq/=. destruct (unlocked y); by simplify_eq.
Qed.

Lemma step_registry y ev y' :
  registry_ok (sy_engine y) -> step handlers uuidParses y ev = Some y' ->
  registry_ok (sy_engine y').
Proof.
  intros Hok H. destruct ev as [task newID| |i|id|j|]; [simpl in H..| |simpl in H|simpl in H|simpl in H].
  - by repeat case_match; simplify_eq.
  - destruct (sy_mu y) as [[task id|task id run|task id run now]|]; [..|done]; simpl in H.
    + destruct (Get id _) as [got s1]. simplify_eq. simpl.
      by refine (same_registry_ok _ _ (same_registry_frame _ _ _ _ _ _) Hok).
    + destruct (Save _ _) as [[[]|msg] s1]; simplify_eq; simpl;
        by refine (same_registry_ok _ _ (same_registry_frame _ _ _ _ _ _) Hok).
    + simplify_eq. simpl. by apply startRun_registry.
  - apply step_run_inv in H as (r & pc & Ei & [(-> & _ & ->)|(pc' & e' & Er & ->)]).
    + simpl. by eapply clear_registry.
    + apply run_step_frame in Er as (Ht & Hc & Hg & Hx & _). simpl. rewrite <- Ht.
      by refine (same_registry_ok _ _ (set_thread_same _ _ _ _ _ _ Ei Ht Hc Hg Hx) Hok).
  - destruct (unlocked y); [|done]. unfold removeCancel in H.
    destruct (e_cancels (sy_engine y) !! id) as [g|] eqn:Eg; simplify_eq; simpl; [|done].
    destruct Hok as [H1 H2 H3 H4]. split; simpl; [done..|].
    intros g'. rewrite elem_of_union, elem_of_singleton. intros [->|?]; [|by apply H4].
    destruct (H3 _ _ Eg) as (r & pc & Hr & _ & <-). by eapply H2.
  - destruct (sy_removers y !! j) as [[id had|id g]|]; [..|done].
    + destruct (Delete id _) as [d s1]. simplify_eq. simpl.
      by refine (same_registry_ok _ _ (same_registry_frame _ _ _ _ _ _) Hok).
    + destruct (unlocked y); simplify_eq. simpl. unfold removeEntry.
      case_bool_decide; [|done]. destruct Hok as [H1 H2 H3 H4]. split; simpl; [done|done| |done].
      intros i g' [_ Hg]%lookup_delete_Some. by apply H3.
  - simplify_eq. simpl.
    by refine (same_registry_ok _ _ (same_registry_frame _ _ _ _ _ _) Hok).
Qed.

Lemma events_registry evs y y' :
  registry_ok (sy_engine y) -> run_events handlers uuidParses y evs = Some y' ->
  registry_ok (sy_engine y').
Proof.
  revert y. induction evs as [|ev evs IH]; intros y Hok; simpl; [by intros [= <-]|].
  destruct (step _ _ y ev) as [y1|] eqn:E; [|done]. apply IH. by eapply step_registry.
Qed.
End Registry.

(** ** No task is stranded *)
Section Owned.
Context {S : Type} {RS : ResultStore S} {RSL : ResultStoreLaws S} {SU : StoreUp S}.
Variable handlers : string -> option (TaskHandler S).
Variable uuidParses : string -> bool.
Implicit Types e : Engine S.
Implicit Types y : Sys S.

(** What the handlers owe the engine: they keep the store up, at most delete
    rows of it (mark-not-ready does), and report [context.Canceled] only when
    their context is cancelled. *)
Definition tame_handlers : Prop := forall ty h ctx p s,
  handlers ty = Some h -> up s ->
  up (h ctx p s).2 /\ view (h ctx p s).2 ⊆ view s /\
  (forall res err, (h ctx p s).1 = HReturn res (Some err) -> he_canceled err = true ->
     ctx_cancelled ctx = true).
Hypothesis tame : tame_handlers.

(** Before its row is saved, and not told to stop. *)
Definition live e (r : Run) (pc : run_pc) : Prop :=
  match pc with
  | PHandler | PFlip _ _ | PGuard _ _ => run_Gen r ∉ e_cancelled e
  | PSave _ => True
  | PClear => False
  end.

(** Somebody will still decide the row of this ID: a live run, a deletion, or
    the submission that is about to start it. *)
Definition owned y (id : string) : Prop :=
  (exists r pc, In (r, pc) (e_threads (sy_engine y)) /\ run_ID r = id /\ live (sy_engine y) r pc) \/
  (exists had, In (RDelete id had) (sy_removers y)) \/
  (exists task run now, sy_mu y = Some (SStart task id run now)).

(** What a run carries between its steps. *)
Definition carried e (r : Run) (pc : run_pc) : Prop :=
  match pc with
  | PFlip _ (Some err) | PGuard _ (Some err) =>
      he_canceled err = true -> run_Gen r ∈ e_cancelled e
  | PSave row => tr_ID row = run_ID r /\ tr_Status row <> TaskStatusRunning
  | _ => True
  end.

Record owned_ok y : Prop := {
  oo_registry : registry_ok (sy_engine y);
  oo_up : up (e_store (sy_engine y));
  oo_shutdown : e_shutdown (sy_engine y) = false;
  oo_carried : forall r pc, In (r, pc) (e_threads (sy_engine y)) -> carried (sy_engine y) r pc;
  oo_owned : forall id row, rows (sy_engine y) !! id = Some row ->
    tr_Status row = TaskStatusRunning -> owned y id;
}.

Lemma carried_mono e e' r pc :
  e_cancelled e ⊆ e_cancelled e' -> carried e r pc -> carried e' r pc.
Proof. intros Hx. destruct pc as [|? []|? []| |]; simpl; set_solver. Qed.

(** Rows may go; the running ones that stay keep their owner. *)
Lemma owned_shrink y y' :
  rows (sy_engine y') ⊆ rows (sy_engine y) ->
  (forall id, owned y id -> owned y' id) ->
  (forall id row, rows (sy_engine y) !! id = Some row -> tr_Status row = TaskStatusRunning -> owned y id) ->
  forall id row, rows (sy_engine y') !! id = Some row -> tr_Status row = TaskStatusRunning -> owned y' id.
Proof. intros Hsub Ho H id row Hr Hs. apply Ho, (H id row); [|done]. by eapply lookup_weaken. Qed.

Lemma submit_step_owned y f mu e' :
  owned_ok y -> sy_mu y = Some f -> submit_step f (sy_engine y) = (mu, e') ->
  owned_ok (mkSys e' mu (sy_removers y)).
Proof.
  intros Hok Hmu H.
  assert (Hreg : registry_ok e').
  { refine (step_registry handlers uuidParses y EvSubmitStep (mkSys e' mu (sy_removers y)) (oo_registry _ Hok) _).
    simpl. by rewrite Hmu, H. }
  destruct Hok as [Hro Hup Hsh Hca Ho]. destruct f as [task id|task id run|task id run now]; simpl in H.
  - destruct (up_Get id _ Hup) as (o & s1 & E & Hup1). rewrite E in H. simplify_eq.
    pose proof (Get_view id (e_store (sy_engine y))) as Hv. rewrite E in Hv. simpl in Hv.
    split; simpl; [done..|]. intros i row. unfold rows. simpl. rewrite Hv. intros Hr Hs.
    destruct (Ho i row Hr Hs) as [?|[?|(? & ? & ? & ?)]]; [by left|right; by left|by rewrite Hmu in *].
  - match type of H with context [Save ?r ?s] => destruct (up_Save r s Hup) as (s1 & E & Hup1) end.
    rewrite E in H. simplify_eq. apply Save_ok in E. split; simpl; [done..|].
    intros i row. unfold rows. simpl. rewrite E, lookup_insert_Some. simpl.
    intros [[<- _]|[_ Hr]] Hs; [right; right; by eauto|].
    destruct (Ho i row Hr Hs) as [?|[?|(? & ? & ? & ?)]]; [by left|right; by left|by rewrite Hmu in *].
  - simplify_eq. split; simpl; [done..| |].
    + intros r pc Hr%in_app_iff. destruct Hr as [Hr|[[= <- <-]|[]]]; [by apply Hca|done].
    + intros i row Hr Hs. destruct (Ho i row Hr Hs) as [(r & pc & Hin & Hid & Hl)|[?|(t' & r' & n' & He)]].
      * left. exists r, pc. simpl. rewrite in_app_iff. by destruct pc; eauto.
      * right. by left.
      * left. rewrite Hmu in He. simplify_eq. eexists _, PHandler. simpl. rewrite in_app_iff.
        split; [right; by left|]. split; [done|]. simpl.
        intros Hc%(ro_cancelled _ Hro). lia.
Qed.

(** The effect of a run's step on the store: rows go, or the run's own row is
    decided. *)
Lemma run_step_rows r pc e pc' e' :
  up (e_store e) -> e_shutdown e = false -> carried e r pc ->
  run_step handlers r pc e = Some (pc', e') ->
  up (e_store e') /\ e_shutdown e' = false /\ carried e' r pc' /\
  (live e r pc -> live e' r pc' \/
     (pc' = PClear /\ (forall row, rows e' !! run_ID r = Some row -> tr_Status row <> TaskStatusRunning) /\
      forall id, id <> run_ID r -> rows e' !! id = rows e !! id)) /\
  (forall id row, rows e' !! id = Some row -> tr_Status row = TaskStatusRunning ->
     rows e !! id = Some row).
Proof.
  intros Hup Hsh Hca H. pose proof (run_step_frame _ _ _ _ _ _ H) as (_ & _ & _ & Hx & Hsh').
  rewrite Hsh in Hsh'. destruct pc as [|res err|res err|row|]; simpl in H; [..|done].
  - destruct (handlers (run_Type r)) as [h|] eqn:Eh; [|done].
    destruct (tame _ _ (ctxOf e r) (run_Params r) _ Eh Hup) as (Hu & Hv & Hcan).
    destruct (callRecovered h r e) as [[res err] e1] eqn:Ec. simplify_eq.
    pose proof (callRecovered_frame _ _ _ _ _ _ Ec) as (Hst & _).
    unfold rows. rewrite Hst. split_and!; [done..| | |].
    + unfold callRecovered in Ec. destruct (h _ _ _) as [[res' err'|p] s'] eqn:Eo; simplify_eq; simpl; [|done].
      destruct err as [err|]; [|done]. simpl in Hcan.
      intros Hc. specialize (Hcan _ _ eq_refl Hc). unfold ctxCancelled in Hcan. rewrite Hsh in Hcan.
      by apply bool_decide_eq_true in Hcan.
    + left. simpl. by rewrite Hx.
    + intros id row Hr _. by eapply lookup_weaken.
  - simplify_eq. destruct (readyHook_frame (run_Type r) err e) as (Hst & _). unfold rows. rewrite Hst.
    split_and!; [done..| | |done].
    + simpl. destruct err; [|done]. by rewrite Hx.
    + left. simpl. by rewrite Hx.
  - destruct (leaveStoreUntouched err _) eqn:El; simplify_eq.
    + split_and!; [done..| |done]. intros Hl. exfalso. apply Hl. destruct err as [er|]; [|done].
      simpl in El. apply orb_true_iff in El as [El|El]; [by apply Hca|].
      unfold ctxCancelled in El. rewrite Hsh in El. by apply bool_decide_eq_true in El.
    + split_and!; [done..| | |done]; [|by left]. simpl. by destruct err.
  - simplify_eq. destruct (up_Save row _ Hup) as (s1 & E & Hu). rewrite E. simpl.
    apply Save_ok in E. destruct Hca as [Hid Hns]. unfold rows. simpl. rewrite E. split_and!; [done..| |].
    + intros _. right. split_and!; [done| |].
      * intros row'. rewrite Hid, lookup_insert_eq. intros [= <-]. done.
      * intros id Hne. rewrite Hid. by apply lookup_insert_ne.
    + intros id row' [[_ <-]|[_ ?]]%lookup_insert_Some; [|done]. done.
Qed.

Lemma run_owned y i r pc pc' e' :
  owned_ok y -> e_threads (sy_engine y) !! i = Some (r, pc) ->
  run_step handlers r pc (sy_engine y) = Some (pc', e') ->
  owned_ok (with_engine (set_threads (<[i := (r, pc')]> (e_threads (sy_engine y))) e') y).
Proof.
  intros Hok Hi Hs. destruct Hok as [Hro Hup Hsh Hca Ho].
  assert (Hin : In (r, pc) (e_threads (sy_engine y)))
    by (apply list_elem_of_In; by eapply list_elem_of_lookup_2).
  destruct (run_step_rows r pc _ pc' e' Hup Hsh (Hca _ _ Hin) Hs) as (Hu & Hsh' & Hc' & Hl & Hr).
  pose proof (run_step_frame _ _ _ _ _ _ Hs) as (Ht & Hc & Hg & Hx & _).
  split; simpl.
  - rewrite <- Ht. by refine (same_registry_ok _ _ (set_thread_same _ _ _ _ _ _ Hi Ht Hc Hg Hx) Hro).
  - done.
  - done.
  - intros r0 pc0 H0%(in_insert _ _ _ _ _ Hi). destruct H0 as [[= -> ->]|(j & _ & Hj)].
    + exact Hc'.
    + apply (carried_mono (sy_engine y)); [by simpl; rewrite Hx|].
      apply Hca, list_elem_of_In. by eapply list_elem_of_lookup_2.
  - intros id row Hrow Hrun. pose proof (Hr _ _ Hrow Hrun) as Hold.
    destruct (Ho id row Hold Hrun) as [(r0 & pc0 & H0 & Hid & Hlive)|[?|?]]; [|right; by left|right; by right].
    left. apply list_elem_of_In, list_elem_of_lookup in H0 as [j Hj].
    destruct (decide (j = i)) as [->|Hne].
    + rewrite Hi in Hj. injection Hj as <- <-. destruct (Hl Hlive) as [Hl'|(_ & Hno & _)].
      * exists r, pc'. split; [|done]. apply (in_insert _ _ _ _ _ Hi). by left.
      * exfalso. subst id. exact (Hno _ Hrow Hrun).
    + exists r0, pc0. split; [apply (in_insert _ _ _ _ _ Hi); eauto|]. split; [done|].
      destruct pc0; simpl in *; by rewrite ?Hx.
Qed.

(** Two runs in flight never share a generation. *)
Lemma gen_unique e i j r pc r' pc' :
  registry_ok e -> e_threads e !! i = Some (r, pc) -> e_threads e !! j = Some (r', pc') ->
  run_Gen r = run_Gen r' -> i = j.
Proof.
  intros Hok Hi Hj Hg. apply (NoDup_lookup _ i j (run_Gen r) (ro_unique _ Hok));
    unfold gens; rewrite list_lookup_fmap, ?Hi, ?Hj; simpl; congruence.
Qed.

Lemma clear_owned y i r :
  owned_ok y -> e_threads (sy_engine y) !! i = Some (r, PClear) ->
  owned_ok (with_engine (set_threads (delete i (e_threads (sy_engine y)))
                           (clearCancel (run_ID r) (run_Gen r) (sy_engine y))) y).
Proof.
  intros [Hro Hup Hsh Hca Ho] Hi.
  assert (Hx : forall g, g ∈ e_cancelled (clearCancel (run_ID r) (run_Gen r) (sy_engine y)) ->
                         g = run_Gen r \/ g ∈ e_cancelled (sy_engine y)).
  { intros g. unfold clearCancel. case_bool_decide; simpl; set_solver. }
  split; simpl.
  - by eapply clear_registry.
  - by rewrite clearCancel_store.
  - unfold clearCancel. by case_bool_decide.
  - intros r0 pc0 H0%(in_delete _ _ _ _ Hi). destruct H0 as (j & _ & Hj).
    apply (carried_mono (sy_engine y)).
    + unfold clearCancel. case_bool_decide; simpl; set_solver.
    + apply Hca, list_elem_of_In. by eapply list_elem_of_lookup_2.
  - intros id row. unfold rows. simpl. rewrite clearCancel_store. intros Hrow Hrun.
    destruct (Ho id row Hrow Hrun) as [(r0 & pc0 & H0 & Hid & Hl)|[?|?]]; [|right; by left|right; by right].
    left. apply list_elem_of_In, list_elem_of_lookup in H0 as [j Hj].
    assert (Hne : j <> i) by (intros ->; rewrite Hi in Hj; injection Hj as <- <-; done).
    exists r0, pc0. split; [apply (in_delete _ _ _ _ Hi); eauto|]. split; [done|].
    assert (Hng : run_Gen r0 <> run_Gen r) by (intros Hg; by apply Hne, (gen_unique _ _ _ _ _ _ _ Hro Hj Hi)).
    destruct pc0; simpl in *; try done; intros Hc%Hx; tauto.
Qed.

(** Marking a generation cancelled hands the rows of its ID to the deletion. *)
Lemma remove_owned y id had e' :
  owned_ok y -> removeCancel id (sy_engine y) = (had, e') ->
  owned_ok (mkSys e' (sy_mu y) (sy_removers y ++ [RDelete id had])).
Proof.
  intros [Hro Hup Hsh Hca Ho] H. unfold removeCancel in H.
  assert (Hadd : forall i, owned y i -> i = id \/ forall g, e_cancels (sy_engine y) !! id = Some g ->
            owned (mkSys (set_registry (e_cancels (sy_engine y)) ({[g]} ∪ e_cancelled (sy_engine y))
                            (sy_engine y)) (sy_mu y) (sy_removers y ++ [RDelete id had])) i).
  { intros i [(r & pc & Hin & Hid & Hl)|[[had' Hr]|Hmu]].
    - destruct (decide (i = id)) as [->|Hne]; [by left|]. right. intros g Hg. left.
      exists r, pc. split_and!; [done..|].
      destruct (ro_owner _ Hro _ _ Hg) as (r' & pc' & Hin' & Hid' & Hg').
      assert (Hng : run_Gen r <> g).
      { intros Heq. apply list_elem_of_In, list_elem_of_lookup in Hin as [a Ha].
        apply list_elem_of_In, list_elem_of_lookup in Hin' as [b Hb].
        assert (a = b) by (eapply gen_unique; [done|done|done|congruence]). congruence. }
      destruct pc; simpl in *; try done; set_solver.
    - right. intros g Hg. right. left. exists had'. apply in_app_iff. by left.
    - right. intros g Hg. right. by right. }
  assert (Hnew : forall e0, owned (mkSys e0 (sy_mu y) (sy_removers y ++ [RDelete id had])) id).
  { intros e0. right. left. exists had. apply in_app_iff. right. by left. }
  destruct (e_cancels (sy_engine y) !! id) as [g|] eqn:Eg; simplify_eq.
  - split; simpl; [|done|done| |].
    + refine (step_registry handlers uuidParses (mkSys (sy_engine y) None []) (EvRemove id)
                (mkSys _ None [RDelete id (Some g)]) Hro _).
      simpl. unfold removeCancel. by rewrite Eg.
    + intros r pc Hr. apply (carried_mono (sy_engine y)); [simpl; set_solver|by apply Hca].
    + intros i row Hr Hs. destruct (Hadd i (Ho i row Hr Hs)) as [->|Hi]; [apply Hnew|by apply Hi].
  - split; simpl; [done..|].
    intros i row Hr Hs. destruct (Ho i row Hr Hs) as [Ht|[[had' Hin]|Hmu]]; [by left| |right; by right].
    right. left. exists had'. apply in_app_iff. by left.
Qed.

(** The end of a deletion: the row is gone, nobody needs the deleter. *)
Lemma delete_owned y j id had s' l :
  owned_ok y -> sy_removers y !! j = Some (RDelete id had) ->
  up s' -> view s' = delete id (rows (sy_engine y)) ->
  (forall i h, i <> id -> In (RDelete i h) (sy_removers y) -> In (RDelete i h) l) ->
  owned_ok (mkSys (set_store s' (sy_engine y)) (sy_mu y) l).
Proof.
  intros [Hro Hup Hsh Hca Ho] Hj Hup' Hv Hl. split; simpl; [|done..|].
  - by refine (same_registry_ok _ _ (same_registry_frame _ _ _ _ _ _) Hro).
  - intros i row. unfold rows. simpl. rewrite Hv. intros [Hne Hr]%lookup_delete_Some Hs.
    destruct (Ho i row Hr Hs) as [Ht|[[h Hin]|Hmu]]; [by left| |right; by right].
    right. left. exists h. by apply Hl.
Qed.

Lemma in_removers_other (l l' : list remover) j id had i h :
  l !! j = Some (RDelete id had) -> i <> id -> In (RDelete i h) l ->
  l' = delete j l \/ (exists x, l' = <[j := x]> l) -> In (RDelete i h) l'.
Proof.
  intros Hj Hne Hin Hl. apply list_elem_of_In, list_elem_of_lookup in Hin as [k Hk].
  assert (k <> j) by (intros ->; congruence).
  destruct Hl as [->|[x ->]].
  - apply (in_delete _ _ _ _ Hj). eauto.
  - apply (in_insert _ _ _ _ _ Hj). eauto.
Qed.

Lemma step_owned y ev y' :
  owned_ok y -> ev <> EvShutdown -> step handlers uuidParses y ev = Some y' -> owned_ok y'.
Proof.
  intros Hok Hns H. destruct ev as [task newID| |i|id|j|]; [| | | | |done].
  - simpl in H. destruct (unlocked y) eqn:Eu; [|done].
    destruct (submitID _ _ _ _) as [id|]; simplify_eq; [|done].
    destruct Hok as [Hro Hup Hsh Hca Ho]. split; [done..|].
    intros i row Hr Hs. destruct (Ho i row Hr Hs) as [?|[?|(? & ? & ? & Hmu)]];
      [by left|right; by left|]. unfold unlocked in Eu. by rewrite Hmu in Eu.
  - simpl in H. destruct (sy_mu y) as [f|] eqn:Emu; [|done].
    destruct (submit_step f (sy_engine y)) as [mu e'] eqn:E. simplify_eq.
    by eapply submit_step_owned.
  - apply step_run_inv in H as (r & pc & Ei & [(-> & _ & ->)|(pc' & e' & Er & ->)]).
    + by apply clear_owned.
    + by eapply run_owned.
  - simpl in H. destruct (unlocked y); [|done].
    destruct (removeCancel id (sy_engine y)) as [had e'] eqn:E. simplify_eq. by eapply remove_owned.
  - simpl in H. destruct (sy_removers y !! j) as [[id had|id g]|] eqn:Ej; [..|done].
    + destruct (up_Delete id _ (oo_up _ Hok)) as (b & s' & E & Hup'). rewrite E in H.
      apply Delete_ok in E as [Hv _]. simplify_eq.
      apply (delete_owned y j id had); [done..|]. intros i h Hne Hin.
      apply (in_removers_other _ _ _ _ _ _ _ Ej Hne Hin). destruct had; eauto.
    + destruct (unlocked y) eqn:Eu; simplify_eq.
      assert (Hreg : registry_ok (removeEntry id (Some g) (sy_engine y))).
      { refine (step_registry handlers uuidParses y (EvRemoveStep j) (mkSys _ (sy_mu y) (delete j (sy_removers y)))
                  (oo_registry _ Hok) _). simpl. by rewrite Ej, Eu. }
      destruct Hok as [Hro Hup Hsh Hca Ho].
      split; simpl; [done|..]; unfold removeEntry in *; case_bool_decide; simpl; try done;
        intros i row Hr Hs; destruct (Ho i row Hr Hs) as [Ht|[[h Hin]|Hmu]];
        (by left) || (right; by right) || (right; left; exists h;
          apply list_elem_of_In, list_elem_of_lookup in Hin as [k Hk];
          apply (in_delete _ _ _ _ Ej); exists k; split; [congruence|done]).
Qed.

Lemma events_owned evs y y' :
  owned_ok y -> Forall (fun ev => ev <> EvShutdown) evs ->
  run_events handlers uuidParses y evs = Some y' -> owned_ok y'.
Proof.
  revert y. induction evs as [|ev evs IH]; intros y Hok HF; simpl; [by intros [= <-]|].
  inversion_clear HF as [|? ? Hev HF']. destruct (step _ _ y ev) as [y1|] eqn:E; [|done].
  apply IH; [|done]. by eapply step_owned.
Qed.
End Owned.

(** ** Recovery hands every running row to a run *)
Section RecoveryOwns.
Context {S : Type} {RS : ResultStore S} {RSL : ResultStoreLaws S} {SU : StoreUp S}.
Variable handlers : string -> option (TaskHandler S).
Hypothesis hold_handler : handlers taskTypeMarkNotReady = Some MarkNotReadyHandler.
Implicit Types e : Engine S.

Definition running_hold e (id : string) (row : TaskResult) : Prop :=
  rows e !! id = Some row /\ tr_Status row = TaskStatusRunning /\ isHold row = true.

(** Between two rows of the first loop: the running holds are still to come. *)
Record holds_inv (rest : list TaskResult) e : Prop := {
  hi_up : up (e_store e);
  hi_shutdown : e_shutdown e = false;
  hi_threads : e_threads e = [];
  hi_registry : registry_ok e;
  hi_rest : forall id row, running_hold e id row -> In row rest;
}.

(** Between two rows of the second: every running row is started or to come. *)
Record tasks_inv (rest : list TaskResult) e : Prop := {
  ti_up : up (e_store e);
  ti_shutdown : e_shutdown e = false;
  ti_registry : registry_ok e;
  ti_threads : forall r pc, In (r, pc) (e_threads e) -> pc = PHandler /\ run_Gen r ∉ e_cancelled e;
  ti_holds : forall id row, ~ running_hold e id row;
  ti_rest : forall id row, rows e !! id = Some row -> tr_Status row = TaskStatusRunning ->
    (exists r, In (r, PHandler) (e_threads e) /\ run_ID r = id) \/ In row rest;
}.

Lemma rehydrateHold_rows tr e :
  isHold tr = true -> up (e_store e) -> e_shutdown e = false ->
  exists x, tr_Status x = TaskStatusCompleted /\
    rows (rehydrateHold handlers tr e)
    = <[tr_ID tr := x]> (filter (fun kv => tr_Type kv.2 <> TaskMarkReady) (rows e)) /\
    e_shutdown (rehydrateHold handlers tr e) = false.
Proof.
  intros Hh Hup Hsh. pose proof Hh as Hty%String.eqb_eq.
  unfold rehydrateHold, resolveStaleHandler. rewrite Hty, hold_handler. simpl.
  unfold runTaskSync, executeRecovered, callRecovered, MarkNotReadyHandler. simpl.
  destruct (up_DeleteByType TaskMarkReady (e_store e) Hup) as (n & s1 & E & Hu1). rewrite E.
  apply DeleteByType_ok in E as [E _]. simpl. rewrite Hty. simpl.
  match goal with |- context [Save ?r s1] =>
    destruct (up_Save r s1 Hu1) as (s2 & Es & Hu2); exists (scanned r) end.
  unfold rows. rewrite clearCancel_store. simpl. rewrite Es. simpl.
  rewrite (Save_ok _ _ _ Es), E. split_and!; [done..|].
  unfold clearCancel. by case_bool_decide.
Qed.

Lemma rehydrateHold_inv tr rest e :
  isHold tr = true -> holds_inv (tr :: rest) e -> holds_inv rest (rehydrateHold handlers tr e).
Proof.
  intros Hh [Hup Hsh Ht Hro Hrest].
  destruct (rehydrateHold_rows tr e Hh Hup Hsh) as (x & Hx & Hrows & Hsh').
  destruct (rehydrateHold_purges handlers hold_handler tr e Hh Hup) as [Hup' _].
  pose proof Hh as Hty%String.eqb_eq.
  assert (Heq : rehydrateHold handlers tr e
    = runTaskSync MarkNotReadyHandler (staleRun tr (e_gen e + 1)) (newTaskContext (tr_ID tr) e).2)
    by (unfold rehydrateHold, resolveStaleHandler; by rewrite Hty, hold_handler).
  split; [done|done| | |].
  - by rewrite Heq, runTaskSync_threads.
  - rewrite Heq. by apply (runSync_registry _ (staleRun tr (e_gen e + 1)%Z)).
  - intros id row (Hr & Hs & Hho). rewrite Hrows in Hr.
    apply lookup_insert_Some in Hr as [[<- <-]|[Hne Hr]]; [congruence|].
    apply map_lookup_filter_Some in Hr as [Hr _].
    destruct (Hrest id row (conj Hr (conj Hs Hho))) as [<-|Hin]; [|done].
    exfalso. apply Hne. by apply view_id in Hr.
Qed.

Lemma rehydrateHolds_inv stale e :
  holds_inv stale e -> holds_inv [] (rehydrateHolds handlers stale e).
Proof.
  unfold rehydrateHolds. revert e. induction stale as [|tr stale IH]; intros e He; simpl; [done|].
  apply IH. destruct (isHold tr) eqn:Hh; [by apply rehydrateHold_inv|].
  destruct He as [Hup Hsh Ht Hro Hrest]. split; [done..|].
  intros id row Hr. destruct (Hrest id row Hr) as [<-|Hin]; [|done]. destruct Hr as (_ & _ & ?). congruence.
Qed.

Lemma failStale_up_rows tr msg e :
  up (e_store e) -> exists x, tr_Status x = TaskStatusFailed /\ tr_Type x = tr_Type tr /\
    rows (failStale tr msg e) = <[tr_ID tr := x]> (rows e).
Proof.
  intros Hup. unfold failStale, rows. simpl.
  match goal with |- context [Save ?r ?s] =>
    destruct (up_Save r s Hup) as (s1 & E & _); exists (scanned r) end.
  apply Save_ok in E as Hv. rewrite E. simpl. by rewrite Hv.
Qed.

Lemma failStale_inv tr msg rest e :
  tasks_inv (tr :: rest) e -> tasks_inv rest (failStale tr msg e).
Proof.
  intros [Hup Hsh Hro Hth Hho Hrest].
  destruct (failStale_up_rows tr msg e Hup) as (x & Hx & _ & Hrows).
  destruct (failStale_rows tr msg e) as (Ht & _ & Hsh' & Hc & _).
  assert (Hold : forall id row, rows (failStale tr msg e) !! id = Some row ->
            tr_Status row = TaskStatusRunning -> rows e !! id = Some row /\ id <> tr_ID tr).
  { intros id row. rewrite Hrows, lookup_insert_Some. intros [[_ <-]|[? ?]] Hs; [congruence|done]. }
  split; [by apply failStale_up|congruence|by apply failStale_registry|by rewrite Ht, Hc| |].
  - intros id row (Hr & Hs & Hh). destruct (Hold _ _ Hr Hs) as [Hr' _]. by apply (Hho id row).
  - intros id row Hr Hs. destruct (Hold _ _ Hr Hs) as [Hr' Hne]. rewrite Ht.
    destruct (Hrest id row Hr' Hs) as [?|[<-|?]]; [by left| |by right].
    exfalso. apply Hne. by apply view_id in Hr'.
Qed.

Lemma start_inv tr rest e :
  tasks_inv (tr :: rest) e ->
  tasks_inv rest match resolveStaleHandler handlers tr e with
                 | (Some _, e1) => startRun (tr_Type tr) (tr_Params tr) (tr_ID tr)
                                     (tr_SubmittedAt tr) (tr_Run tr) e1
                 | (None, e1) => e1
                 end.
Proof.
  intros He. unfold resolveStaleHandler. destruct (handlers (tr_Type tr)); [|by apply failStale_inv].
  destruct He as [Hup Hsh Hro Hth Hho Hrest].
  split; [done|done|by apply startRun_registry| |done|]; simpl.
  - intros r pc [Hin|[[= <- <-]|[]]]%in_app_iff; [by apply Hth|]. split; [done|]. simpl.
    intros Hc%(ro_cancelled _ Hro). lia.
  - intros id row Hr Hs. destruct (Hrest id row Hr Hs) as [(r & Hin & Hid)|[<-|?]]; [| |by right].
    + left. exists r. rewrite in_app_iff. eauto.
    + left. eexists. rewrite in_app_iff. split; [right; by left|]. by apply view_id in Hr.
Qed.

Lemma set_store_inv s rest e :
  view s = rows e -> up s -> tasks_inv rest e -> tasks_inv rest (set_store s e).
Proof.
  intros Hv Hup [_ Hsh Hro Hth Hho Hrest]. split; [done|done| |done| |].
  - by refine (same_registry_ok _ _ (same_registry_frame _ _ _ _ _ _) Hro).
  - intros id row (Hr & Hs & Hh). unfold rows in Hr. simpl in Hr. rewrite Hv in Hr. by apply (Hho id row).
  - intros id row Hr. unfold rows in Hr. simpl in Hr. rewrite Hv in Hr. by apply Hrest.
Qed.

Lemma rehydrateTask_inv tr rest e :
  tasks_inv (tr :: rest) e -> tasks_inv rest (rehydrateTask handlers tr e).
Proof.
  intros He. unfold rehydrateTask. destruct (tr_Type tr =s taskTypeMarkNotReady) eqn:E1.
  - destruct He as [Hup Hsh Hro Hth Hho Hrest]. split; [done..|].
    intros id row Hr Hs. destruct (Hrest id row Hr Hs) as [?|[<-|?]]; [by left| |by right].
    exfalso. by apply (Hho id tr).
  - destruct (tr_Type tr =s TaskMarkReady); [|by apply start_inv]. unfold markReadySuperseded.
    destruct (up_Latest taskTypeMarkNotReady _ (ti_up _ _ He)) as (o & s1 & E & Hup1).
    pose proof (Latest_view taskTypeMarkNotReady (e_store e)) as Hv. rewrite E in Hv |- *. simpl in Hv.
    pose proof (set_store_inv s1 _ _ Hv Hup1 He) as He1.
    destruct o as [h|]; [|by apply start_inv].
    destruct (Before _ _); [by apply start_inv | by apply failStale_inv].
Qed.

Lemma rehydrateTasks_inv stale e :
  tasks_inv stale e -> tasks_inv [] (rehydrateTasks handlers stale e).
Proof.
  unfold rehydrateTasks. revert e. induction stale as [|tr stale IH]; intros e He; simpl; [done|].
  by apply IH, rehydrateTask_inv.
Qed.

Lemma relist_inv e l s :
  holds_inv [] e -> ListStaleTasks (e_store e) = (Ok l, s) -> up s ->
  tasks_inv l (set_store s e).
Proof.
  intros [_ Hsh Ht Hro Hrest] E Hup. pose proof (Stale_view (e_store e)) as Hv.
  rewrite E in Hv. simpl in Hv. split; [done|done| |simpl; by rewrite Ht| |].
  - by refine (same_registry_ok _ _ (same_registry_frame _ _ _ _ _ _) Hro).
  - intros id row (Hr & Hs & Hh). unfold rows in Hr. simpl in Hr. rewrite Hv in Hr.
    by apply (Hrest id row).
  - intros id row Hr Hs. right. unfold rows in Hr. simpl in Hr. rewrite Hv in Hr.
    apply (Stale_ok _ _ _ E). split; [|done]. by rewrite (view_id _ _ _ Hr).
Qed.

Lemma rehydrate_owned s clock :
  up s -> owned_ok (serving (RehydrateStaleTasks handlers (NewEngine s clock))).
Proof.
  intros Hup. enough (tasks_inv [] (RehydrateStaleTasks handlers (NewEngine s clock))) as [? ? ? Hth _ Hrest].
  { split; simpl; [done|done|done| |].
    - intros r pc Hin. by destruct (Hth r pc Hin) as [-> _].
    - intros id row Hr Hs. destruct (Hrest id row Hr Hs) as [(r & Hin & Hid)|[]].
      left. exists r, PHandler. split_and!; [done..|]. by destruct (Hth _ _ Hin). }
  unfold RehydrateStaleTasks. simpl. destruct (up_Stale s Hup) as (stale & s1 & E & Hup1). rewrite E.
  assert (H0 : forall l, (forall id row, running_hold (set_store s1 (NewEngine s clock)) id row -> In row l) ->
                         holds_inv l (set_store s1 (NewEngine s clock))).
  { intros l Hl. split; [done|done|done| |done].
    refine (same_registry_ok _ _ (same_registry_frame _ _ _ _ _ _) (NewEngine_registry s clock)); done. }
  assert (Hrun : forall id row, rows (set_store s1 (NewEngine s clock)) !! id = Some row ->
                   tr_Status row = TaskStatusRunning -> In row stale).
  { intros id row Hr Hs. unfold rows in Hr. simpl in Hr. pose proof (Stale_view s) as Hv.
    rewrite E in Hv. simpl in Hv. rewrite Hv in Hr. apply (Stale_ok _ _ _ E).
    split; [|done]. by rewrite (view_id _ _ _ Hr). }
  pose proof (rehydrateHolds_inv stale _ (H0 stale (fun id row H => Hrun id row (proj1 H) (proj1 (proj2 H))))) as H1.
  set (e1 := rehydrateHolds _ _ _) in *.
  destruct (existsb isHold stale) eqn:Eh.
  - destruct (up_Stale _ (hi_up _ _ H1)) as (l & s2 & E2 & Hup2). rewrite E2.
    by apply rehydrateTasks_inv, relist_inv.
  - assert (He1 : e1 = set_store s1 (NewEngine s clock)).
    { unfold e1, rehydrateHolds. clear -Eh. generalize (set_store s1 (NewEngine s clock)).
      induction stale as [|tr l IH]; intros e; simpl in *; [done|].
      apply orb_false_iff in Eh as [-> Eh]. by apply IH. }
    apply rehydrateTasks_inv. rewrite He1 in *. destruct H1 as [? ? ? ? Hr]. split; [done|done|done|done| |].
    + intros id row Hh. exact (Hr id row Hh).
    + intros id row Hrow Hs. right. by eapply Hrun.
Qed.
End RecoveryOwns.

(** ** Readiness *)
Section Readiness.
Context {S : Type} {RS : ResultStore S}.
Variable handlers : string -> option (TaskHandler S).
Variable uuidParses : string -> bool.
Implicit Types y : Sys S.

(** The write of the readiness flag a step performs: the hook of a gate task
    whose handler succeeded. *)
Definition gate_write y (ev : event) : option bool :=
  match ev with
  | EvRun i =>
      match e_threads (sy_engine y) !! i with
      | Some (r, PFlip _ None) =>
          if run_Type r =s TaskMarkReady then Some true
          else if run_Type r =s taskTypeMarkNotReady then Some false else None
      | _ => None
      end
  | _ => None
  end.

Fixpoint gate_writes y (evs : list event) : list bool :=
  match evs with
  | [] => []
  | ev :: evs' =>
      match step handlers uuidParses y ev with
      | Some y' => match gate_write y ev with Some b => [b] | None => [] end ++ gate_writes y' evs'
      | None => []
      end
  end.

Lemma step_ready y ev y' :
  step handlers uuidParses y ev = Some y' ->
  e_ready (sy_engine y') = default (e_ready (sy_engine y)) (gate_write y ev).
Proof.
  intros H. destruct ev as [task newID| |i|id|j|]; [| |cbn [gate_write]|..].
  - simpl in *. by repeat case_match; simplify_eq.
  - simpl in *. destruct (sy_mu y) as [[]|]; [..|done]; simpl in H.
    + destruct (Get id _); by simplify_eq.
    + destruct (Save _ _) as [[]]; by simplify_eq.
    + by simplify_eq.
  - apply step_run_inv in H as (r & pc & -> & [(-> & _ & ->)|(pc' & e' & Er & ->)]).
    + simpl. by rewrite clearCancel_ready.
    + simpl. destruct pc as [|res err|res err|row|]; simpl in Er.
      * destruct (handlers _) as [h|]; [|done].
        destruct (callRecovered h r _) as [[res err] e1] eqn:E. simplify_eq.
        by apply callRecovered_frame in E as (_ & _ & -> & _).
      * simplify_eq. unfold readyHook. destruct err; [done|]. by repeat case_match.
      * destruct (leaveStoreUntouched _ _); by simplify_eq.
      * by simplify_eq.
      * done.
  - simpl in *. unfold removeCancel in H. by repeat case_match; simplify_eq.
  - simpl in *. destruct (sy_removers y !! j) as [[]|]; [..|done].
    + destruct (Delete _ _); by simplify_eq.
    + destruct (unlocked y); simplify_eq. simpl. unfold removeEntry. by case_bool_decide.
  - simpl in *. by simplify_eq.
Qed.

Lemma events_ready evs y y' :
  run_events handlers uuidParses y evs = Some y' ->
  e_ready (sy_engine y') = default (e_ready (sy_engine y)) (last (gate_writes y evs)).
Proof.
  revert y. induction evs as [|ev evs IH]; intros y; simpl; [by intros [= <-]|].
  destruct (step _ _ y ev) as [y1|] eqn:E; [|done]. intros H.
  rewrite (IH _ H), (step_ready _ _ _ E).
  destruct (gate_write y ev) as [b|]; simpl; [|done].
  destruct (gate_writes y1 evs) as [|c l]; simpl; [done|].
  by destruct (last_is_Some (c :: l)) as [_ [x ->]].
Qed.
End Readiness.

(** Property: The interleaving model is the engine's code cut into steps: run alone,
    the steps of a submission, of a started run and of a deletion produce
    exactly the engine that Submit, runTaskSync and RemoveResult produce. *)
Theorem steps_are_functions {S} {RS : ResultStore S} (RSL : ResultStoreLaws S)
    (handlers : string -> option (TaskHandler S)) (uuidParses : string -> bool) (e : Engine S) :
  (forall task newID,
     run_events handlers uuidParses (serving e) (submit_events handlers uuidParses task newID e)
     = Some (serving (Submit handlers uuidParses task newID e).2)) /\
  (forall r h, handlers (run_Type r) = Some h ->
     run_events handlers uuidParses (serving (runTask r e)) (run_event_list r h (length (e_threads e)) e)
     = Some (serving (runTaskSync h r e))) /\
  (forall id, run_events handlers uuidParses (serving e) (remove_events id e)
              = Some (serving (RemoveResult id e).2)).
Proof.
  split_and!; intros; [apply submit_is_steps | by apply run_is_steps | apply remove_is_steps].
Qed.

(** Property: The cancel registry is sound under every interleaving: starting from
    crash recovery on any store, whatever statements fail and however
    submissions, runs, deletions and shutdown interleave, no two runs in flight
    share a generation, every registered cancel func belongs to a run of that
    very ID and generation still in flight, and when no run is in flight the
    registry is empty (no leak). *)
Theorem registry_sound {S} {RS : ResultStore S} {RSL : ResultStoreLaws S}
    (handlers : string -> option (TaskHandler S)) (uuidParses : string -> bool)
    (s : S) (clock : list Time) (evs : list event) (y : Sys S)
    (H : run_events handlers uuidParses
           (serving (RehydrateStaleTasks handlers (NewEngine s clock))) evs = Some y) :
  NoDup (gens (e_threads (sy_engine y))) /\
  (forall id g, e_cancels (sy_engine y) !! id = Some g ->
     exists r pc, In (r, pc) (e_threads (sy_engine y)) /\ run_ID r = id /\ run_Gen r = g) /\
  (e_threads (sy_engine y) = [] -> e_cancels (sy_engine y) = ∅).
Proof.
  destruct (events_registry _ _ _ (serving _) _ (rehydrate_registry handlers s clock) H) as [H1 _ H3 _].
  split_and!; [done..|]. intros Ht. apply map_empty. intros id.
  destruct (e_cancels (sy_engine y) !! id) as [g|] eqn:E; [|done].
  destruct (H3 _ _ E) as (r & pc & Hin & _). by rewrite Ht in Hin.
Qed.

(** Property: A finished run never disturbs another: in every reachable state, a step
    of one run leaves every other run in flight, with its context cancelled or
    not exactly as before, and with its registered cancel func still in
    place. *)
Theorem cleanup_spares_others {S} {RS : ResultStore S} {RSL : ResultStoreLaws S}
    (handlers : string -> option (TaskHandler S)) (uuidParses : string -> bool)
    (s : S) (clock : list Time) (evs : list event) (y y' : Sys S) (i j : nat) (r : Run) (pc : run_pc)
    (H : run_events handlers uuidParses
           (serving (RehydrateStaleTasks handlers (NewEngine s clock))) evs = Some y)
    (Hs : step handlers uuidParses y (EvRun i) = Some y')
    (Hj : e_threads (sy_engine y) !! j = Some (r, pc)) (Hne : j <> i) :
  In (r, pc) (e_threads (sy_engine y')) /\
  ctxCancelled (sy_engine y') (run_Gen r) = ctxCancelled (sy_engine y) (run_Gen r) /\
  (e_cancels (sy_engine y) !! run_ID r = Some (run_Gen r) ->
   e_cancels (sy_engine y') !! run_ID r = Some (run_Gen r)).
Proof.
  pose proof (events_registry _ _ _ (serving _) _ (rehydrate_registry handlers s clock) H) as Hok.
  apply step_run_inv in Hs as (r0 & pc0 & Hi & [(-> & _ & ->)|(pc' & e' & Er & ->)]); simpl.
  - assert (Hng : run_Gen r <> run_Gen r0) by (intros Hg; by apply Hne, (gen_unique _ _ _ _ _ _ _ Hok Hj Hi)).
    split; [apply (in_delete _ _ _ _ Hi); by eauto|]. unfold clearCancel, ctxCancelled.
    case_bool_decide as Hb; simpl; [|done]. split.
    + f_equal. apply bool_decide_ext. set_solver.
    + intros Hr. rewrite lookup_delete_ne; [done|]. intros Heq. rewrite Heq in Hb. congruence.
  - apply run_step_frame in Er as (_ & Hc & _ & Hx & Hsh).
    split; [apply (in_insert _ _ _ _ _ Hi); by eauto|]. unfold ctxCancelled. simpl. by rewrite Hc, Hx, Hsh.
Qed.

(** C4: No task is stranded: from crash recovery on, over a store that answers
    and with handlers that keep their contract, as long as the process is not
    shut down every row recorded running is being decided by a live run, a
    deletion in progress or the submission about to start it; so when nothing is
    in flight no row is running. *)
Theorem running_row_owned {S} {RS : ResultStore S} {RSL : ResultStoreLaws S} {SU : StoreUp S}
    (handlers : string -> option (TaskHandler S)) (uuidParses : string -> bool)
    (s : S) (clock : list Time) (evs : list event) (y : Sys S)
    (Hhold : handlers taskTypeMarkNotReady = Some MarkNotReadyHandler)
    (Htame : tame_handlers handlers) (Hup : up s)
    (Hev : Forall (fun ev => ev <> EvShutdown) evs)
    (H : run_events handlers uuidParses
           (serving (RehydrateStaleTasks handlers (NewEngine s clock))) evs = Some y) :
  (forall id row, rows (sy_engine y) !! id = Some row -> tr_Status row = TaskStatusRunning -> owned y id) /\
  (e_threads (sy_engine y) = [] -> sy_removers y = [] -> sy_mu y = None ->
   forall id row, rows (sy_engine y) !! id = Some row -> tr_Status row <> TaskStatusRunning).
Proof.
  pose proof (events_owned handlers uuidParses Htame evs _ _
                (rehydrate_owned handlers Hhold s clock Hup) Hev H) as [_ _ _ _ Ho].
  split; [exact Ho|]. intros Ht Hr Hm id row Hrow Hs.
  destruct (Ho id row Hrow Hs) as [(r & pc & Hin & _)|[(had & Hin)|(t & n & w & Hmu)]].
  - by rewrite Ht in Hin. - by rewrite Hr in Hin. - by rewrite Hm in Hmu.
Qed.

(** Property: The gate follows the last gate task: from crash recovery on and under
    every interleaving, the node reads ready exactly when the last mark-ready or
    mark-not-ready whose handler succeeded was a mark-ready; it never becomes
    ready without one. *)
Theorem ready_follows_last_gate {S} {RS : ResultStore S} {RSL : ResultStoreLaws S}
    (handlers : string -> option (TaskHandler S)) (uuidParses : string -> bool)
    (s : S) (clock : list Time) (evs : list event) (y : Sys S)
    (Hhold : handlers taskTypeMarkNotReady = Some MarkNotReadyHandler)
    (H : run_events handlers uuidParses
           (serving (RehydrateStaleTasks handlers (NewEngine s clock))) evs = Some y) :
  Healthz (sy_engine y) = true <->
  last (gate_writes handlers uuidParses
          (serving (RehydrateStaleTasks handlers (NewEngine s clock))) evs) = Some true.
Proof.
  unfold Healthz. rewrite (events_ready _ _ _ _ _ H).
  pose proof (rehydrate_ready handlers Hhold s clock) as Hr. unfold Healthz in Hr. simpl. rewrite Hr.
  destruct (last _) as [[]|]; simpl; naive_solver.
Qed.

(** ** A concrete interleaving *)
Module StepExamples.
Import EngineExamples.

Definition all_uuid : string -> bool := fun _ => true.
Definition boot : Sys SQLiteStore :=
  serving (RehydrateStaleTasks sidecar_handlers (NewEngine stranded_store [])).

(** Two tasks are submitted; the first one's handler has run when the second
    is deleted, and the first finishes while that deletion is half way. *)
Definition sample : list event :=
  [EvSubmit (mkEngineTask "a" TaskMarkReady (Some [])) "n"; EvSubmitStep; EvSubmitStep; EvSubmitStep;
   EvSubmit (mkEngineTask "b" TaskConfigValidate (Some [])) "n"; EvSubmitStep; EvSubmitStep; EvSubmitStep;
   EvRun 0; EvRun 0; EvRemove "b"; EvRun 0; EvRun 0].

Definition sample_end : Sys SQLiteStore :=
  default boot (run_events sidecar_handlers all_uuid boot sample).
Definition sample_done : Sys SQLiteStore :=
  default boot (step sidecar_handlers all_uuid sample_end (EvRun 0)).

Definition run_b : Run := mkRun "b" TaskConfigValidate (Some []) epoch 1 3.

Lemma some_default {A} (d : A) (o : option A) : (if o is Some _ then true else false) = true -> o = Some (default d o).
Proof. by destruct o. Qed.

Lemma sample_runs : run_events sidecar_handlers all_uuid boot sample = Some sample_end.
Proof. apply some_default. vm_compute. reflexivity. Qed.

Lemma sample_clears : step sidecar_handlers all_uuid sample_end (EvRun 0) = Some sample_done.
Proof. apply some_default. vm_compute. reflexivity. Qed.

Lemma sidecar_tame : tame_handlers sidecar_handlers.
Proof.
  intros ty h ctx p s Hh Hup. unfold sidecar_handlers in Hh.
  destruct (ty =s TaskMarkReady); [simplify_eq; simpl; by split_and!; [|done|]|].
  destruct (ty =s taskTypeMarkNotReady).
  - injection Hh as <-. unfold MarkNotReadyHandler.
    destruct (up_DeleteByType TaskMarkReady s Hup) as (n & s1 & E & Hup1). rewrite E.
    split_and!; [done| |done]. simpl fst. simpl snd. rewrite (proj1 (DeleteByType_ok _ _ _ _ E)).
    apply map_filter_subseteq.
  - destruct (ty =s TaskConfigValidate); simplify_eq. simpl. by split_and!; [|done|].
Qed.
End StepExamples.
Import EngineExamples StepExamples.

Lemma registry_sound_witness :
  run_events sidecar_handlers all_uuid boot sample = Some sample_end /\
  NoDup (gens (e_threads (sy_engine sample_end))).
Proof.
  split; [exact sample_runs|].
  exact (proj1 (registry_sound sidecar_handlers all_uuid stranded_store [] sample sample_end sample_runs)).
Defined.

Lemma cleanup_spares_others_witness :
  e_threads (sy_engine sample_end) !! 1 = Some (run_b, PHandler) /\
  In (run_b, PHandler) (e_threads (sy_engine sample_done)).
Proof.
  assert (H : e_threads (sy_engine sample_end) !! 1 = Some (run_b, PHandler))
    by (vm_compute; reflexivity).
  split; [exact H|].
  refine (proj1 (cleanup_spares_others sidecar_handlers all_uuid stranded_store [] sample sample_end
    sample_done 0 1 run_b PHandler sample_runs sample_clears H _)). discriminate.
Defined.

Lemma running_row_owned_witness :
  rows (sy_engine sample_end) !! "b"
    = Some (submittedRow (mkEngineTask "b" TaskConfigValidate (Some [])) "b" 1 epoch) /\
  owned sample_end "b".
Proof.
  assert (H : rows (sy_engine sample_end) !! "b"
    = Some (submittedRow (mkEngineTask "b" TaskConfigValidate (Some [])) "b" 1 epoch))
    by (vm_compute; reflexivity).
  split; [exact H|].
  refine (proj1 (running_row_owned sidecar_handlers all_uuid stranded_store [] sample sample_end
    eq_refl sidecar_tame eq_refl _ sample_runs) "b" _ H eq_refl).
  repeat constructor; discriminate.
Defined.

Lemma ready_follows_last_gate_witness :
  gate_writes sidecar_handlers all_uuid boot sample = [true] /\ Healthz (sy_engine sample_end) = true.
Proof.
  assert (H : gate_writes sidecar_handlers all_uuid boot sample = [true]) by (vm_compute; reflexivity).
  split; [exact H|].
  apply (ready_follows_last_gate sidecar_handlers all_uuid stranded_store [] sample sample_end
           eq_refl sample_runs).
  exact (f_equal last H).
Defined.
