(* ===== verification/SignTx.v ===== *)
(** * Signed transactions (src/sidecar/tasks/sign_and_broadcast.go, gov_result.go)

    The cycle every sign-tx task runs: validate, guard the chain, adopt the
    transaction of a crashed run or sign a new one, make its marker durable,
    broadcast and poll. The chain SDK and the node are interfaces; the process
    may die before any call, and the markers outlive it. *)

From stdpp Require Import base list strings gmap pretty.
From Stdlib Require Import ZArith Lia.
From S2P Require Import Prelude Config.

(** ** The chain SDK and the node *)

(** [sdk.TxResponse] *)
Record TxResponse := mkTxResponse {
  rs_TxHash : string;
  rs_Height : Z;
  rs_Code : Z;
  rs_Codespace : string;
  rs_RawLog : string;
  rs_GasWanted : Z;
  rs_GasUsed : Z;
  rs_Data : string;
}.

(** [SignAndBroadcastInput]; [M] is the type of messages. *)
Record SignAndBroadcastInput (M : Type) := mkInput {
  in_ChainID : string;
  in_KeyName : string;
  in_Msg : option M;
  in_Fees : string;
  in_Gas : Z;
  in_Memo : string;
  in_TaskID : string;
}.
Arguments mkInput {M}.
Arguments in_ChainID {M}.
Arguments in_KeyName {M}.
Arguments in_Msg {M}.
Arguments in_Fees {M}.
Arguments in_Gas {M}.
Arguments in_Memo {M}.
Arguments in_TaskID {M}.

(** What the code takes from the chain SDK and from [unicode]: messages, coin
    parsing, building, signing and encoding a transaction, its hash, the decoded
    result data of a committed one, and the printable runes beyond ASCII. *)
Class ChainSDK := {
  Msg : Type;
  ValidateBasic : Msg -> option string;
  ParseCoinsNormalized : string -> result (list (string * Z));
  BuildUnsignedTx : SignAndBroadcastInput Msg -> Z -> Z -> result string;
  SignTx : string -> string -> result string;
  EncodeTx : string -> result string;
  TxHashHex : string -> string;
  TxMsgData : string -> option (list (string * string));
  SubmitProposalResponse : string -> option Z;
  UnicodeIsPrint : Z -> bool;
}.

(** The answers of the local node and of the marker table. A [NotFound] account
    is told apart by its gRPC code. A transaction query fails with an RPC error,
    whose data text tells what is wrong, or with any other one; [QueryTx] sorts
    them. An insert that reports an error may or may not have stored the row,
    and one whose checkpoint fails has. *)
Inductive acct_answer := AcctOk (num seq : Z) | AcctNotFound (e : string) | AcctErr (e : string).
Inductive tx_reply := TxFound (r : TxResponse) | TxRPCError (data : string) | TxOtherError.
Inductive query_answer := QFound (r : TxResponse) | QNotFound | QIndexingDisabled | QErr.
Inductive status_answer := StNetwork (network : string) | StUndecodable (e : string) | StErr (e : string).
Inductive save_answer := SavedOk | InsertErr (stored : bool) (e : string) | CheckpointErr (e : string).

(** The world of one process: its clock, its context, the node. [w_wait] is the
    [select] on [ctx.Done] and [time.After]: [true] when the context ended. *)
Class TxWorld (W : Type) := {
  w_now : W -> Z;
  w_cancelled : W -> bool;
  w_wait : Z -> W -> bool * W;
  w_account : string -> W -> acct_answer * W;
  w_broadcast : string -> W -> result TxResponse * W;
  w_query : string -> W -> tx_reply * W;
  w_status : W -> status_answer * W;
  w_readMarker : W -> option string * W;
  w_saveMarker : W -> save_answer * W;
}.

(** The clock never goes back, and a wait that is not cut short lasts. *)
Class TxWorldLaws (W : Type) {TW : TxWorld W} : Prop := {
  wait_lasts d w w' : w_wait d w = (false, w') -> (w_now w + d <= w_now w')%Z;
  query_clock h w : (w_now w <= w_now (w_query h w).2)%Z;
  account_clock a w : (w_now w <= w_now (w_account a w).2)%Z;
}.

(** ** Markers, results, errors *)
Record TxMarker := mkTxMarker {
  tm_TaskID : string;
  tm_TxHash : string;
  tm_TxBytes : string;
  tm_AccountNumber : Z;
  tm_Sequence : Z;
  tm_ChainID : string;
}.

Record SignAndBroadcastResult := mkResult {
  sr_TxHash : string;
  sr_Height : Z;
  sr_Code : Z;
  sr_Codespace : string;
  sr_RawLog : string;
  sr_GasWanted : Z;
  sr_GasUsed : Z;
  sr_Sequence : Z;
  sr_AccountNumber : Z;
  sr_ChainID : string;
  sr_BroadcastedAt : Z;
  sr_ProposalID : Z;
  sr_IncludedAt : option Z;
  sr_Unverifiable : bool;
}.

(** An error: its text, whether a [TerminalError] or the indexing sentinel is
    in its chain, and whether it is the context's. *)
Record tx_error := mkTxError { te_text : string; te_terminal : bool; te_indexing : bool; te_canceled : bool }.
Definition plainErr (s : string) : tx_error := mkTxError s false false false.
Definition Terminal (s : string) : tx_error := mkTxError s true false false.
Definition ctxErr : tx_error := mkTxError "context canceled" false false true.
Definition IsTerminal (e : tx_error) : bool := te_terminal e.

(** [Hang] is a loop that ran out of fuel; it is shown not to happen. *)
Inductive outcome (A : Type) := Done (a : A) | Fail (e : tx_error) | Hang.
Arguments Done {A}.
Arguments Fail {A}.
Arguments Hang {A}.

(** ** The process and what outlives it

    [y_life] is how many more calls the process makes before it dies ([None]
    for no crash). The markers are durable; [y_signed] and [y_sent] record
    what was signed and what reached the node, by task, and [y_log] what was
    read from it, the latest read first. *)

(** A recorded vote, by option and weight in units of 10^-18, and the state a
    validator's release depends on (unjail.go); times are in seconds. *)
Record jailState := mkJailState {
  js_CatchingUp : bool;
  js_BlockTime : Z;
  js_HasSelfDelegation : bool;
  js_SelfBond : Z;
  js_MinSelfBond : Z;
  js_Jailed : bool;
  js_Tombstoned : bool;
  js_JailedUntil : Z;
}.
Inductive event :=
| EvQuery (hash : string) (a : query_answer)
| EvVote (proposal : Z) (voter : string) (options : list (Z * Z))
| EvJail (validator : string) (st : jailState).
Definition is_query (e : event) : bool := match e with EvQuery _ _ => true | _ => false end.

Record Sys (W M : Type) := mkSys {
  y_world : W;
  y_life : option nat;
  y_markers : gmap string TxMarker;
  y_signed : list (SignAndBroadcastInput M * string);
  y_sent : list (string * string);
  y_log : list event;
}.
Arguments mkSys {W M}.
Arguments y_world {W M}.
Arguments y_life {W M}.
Arguments y_markers {W M}.
Arguments y_signed {W M}.
Arguments y_sent {W M}.
Arguments y_log {W M}.
Definition y_queries {W M} (y : Sys W M) : nat := length (List.filter is_query (y_log y)).

(** A computation of the process: [None] when it died on the way. *)
Definition proc (W M A : Type) : Type := Sys W M -> option A * Sys W M.
#[export] Instance proc_ret W M : MRet (proc W M) := fun _ a y => (Some a, y).
#[export] Instance proc_bind W M : MBind (proc W M) := fun _ _ f m y =>
  match m y with
  | (Some a, y') => f a y'
  | (None, y') => (None, y')
  end.

(** Sequencing on success, as the [if err != nil { return }] of the code. *)
Definition try {W M A B} (m : proc W M (outcome A)) (k : A -> proc W M (outcome B))
  : proc W M (outcome B) :=
  r ← m; match r with Done a => k a | Fail e => mret (Fail e) | Hang => mret Hang end.

(** The execution config. [cfg_EnvChainID] is [SEI_CHAIN_ID]. *)
Record ExecutionConfig := mkConfig {
  cfg_Keyring : option (string -> result string);
  cfg_RPC : bool;
  cfg_Checkpointer : bool;
  cfg_EnvChainID : string;
}.

Definition errTxIndexingDisabled :=
  "node transaction indexing is disabled (no kvEventSink): the tx may already be on chain — "
  +:+ "verify via an indexed RPC before re-running, or enable tx_index on the target node".
Definition feeDenom := "usei".
Definition seconds : Z := 1000000000.
Definition inclusionPollTimeout : Z := 60 * seconds.
Definition inclusionPollInterval : Z := 500000000.
Definition accountNotFoundTimeout : Z := 60 * seconds.
Definition accountNotFoundPollInterval : Z := seconds.
Definition adoptReQueryTimeout : Z := 5 * seconds.
Definition taskIDMemoPrefix := "taskID=".
Definition maxMemoBytes : nat := 256.

(** ** Runes of a Go string: [for _, r := range memo] *)
Definition byte_at (c : Ascii.ascii) : Z := Z.of_nat (Ascii.nat_of_ascii c).
Definition cont (b lo hi : Z) : bool := (lo <=? b)%Z && (b <=? hi)%Z.

(** The rune at the head of the bytes and its width; an invalid encoding is
    U+FFFD of width one. *)
Definition decode_rune (bs : list Z) : Z * nat :=
  match bs with
  | [] => (65533%Z, 1)
  | b0 :: r =>
      if (b0 <? 128)%Z then (b0, 1)
      else match r with
      | b1 :: r1 =>
          if cont b0 194 223 && cont b1 128 191
          then (Z.lor (Z.shiftl (Z.land b0 31) 6) (Z.land b1 63), 2)
          else match r1 with
          | b2 :: r2 =>
              if cont b0 224 239 &&
                 cont b1 (if (b0 =? 224)%Z then 160 else 128) (if (b0 =? 237)%Z then 159 else 191) &&
                 cont b2 128 191
              then (Z.lor (Z.shiftl (Z.land b0 15) 12) (Z.lor (Z.shiftl (Z.land b1 63) 6) (Z.land b2 63)), 3)
              else match r2 with
              | b3 :: _ =>
                  if cont b0 240 244 &&
                     cont b1 (if (b0 =? 240)%Z then 144 else 128) (if (b0 =? 244)%Z then 143 else 191) &&
                     cont b2 128 191 && cont b3 128 191
                  then (Z.lor (Z.shiftl (Z.land b0 7) 18)
                          (Z.lor (Z.shiftl (Z.land b1 63) 12)
                             (Z.lor (Z.shiftl (Z.land b2 63) 6) (Z.land b3 63))), 4)
                  else (65533%Z, 1)
              | [] => (65533%Z, 1)
              end
          | [] => (65533%Z, 1)
          end
      | [] => (65533%Z, 1)
      end
  end.

(** At most one rune per byte. *)
Fixpoint runes_from (fuel : nat) (bs : list Z) : list Z :=
  match fuel, bs with
  | S fuel', _ :: _ => let '(r, n) := decode_rune bs in r :: runes_from fuel' (drop n bs)
  | _, _ => []
  end.
Definition runes (s : string) : list Z :=
  let bs := map byte_at (String.list_ascii_of_string s) in runes_from (length bs) bs.

(** [%U]: at least four upper-case hexadecimal digits *)
Definition hex_upper (d : Z) : Ascii.ascii :=
  Ascii.ascii_of_nat (Z.to_nat (if (d <? 10)%Z then 48 + d else 55 + d)).
Fixpoint hex_text (width : nat) (n : Z) : string :=
  match width with
  | O => ""
  | S w => hex_text w (n / 16) +:+ String (hex_upper (n mod 16)) ""
  end.
Definition unicode_point (r : Z) : string :=
  "U+" +:+ hex_text (if (r <? 65536)%Z then 4 else if (r <? 1048576)%Z then 5 else 6) r.

(** [strings.ToLower]: beyond ASCII, only U+0130 and U+212A lower to an ASCII
    letter; the other runes stay outside ASCII and are left as they are. *)
Definition is_byte (n : nat) (c : Ascii.ascii) : bool := Nat.eqb (Ascii.nat_of_ascii c) n.
Definition lower_byte (c : Ascii.ascii) : Ascii.ascii :=
  if is_upper c then Ascii.ascii_of_nat (Ascii.nat_of_ascii c + 32) else c.
Fixpoint ToLower (s : string) : string :=
  match s with
  | EmptyString => EmptyString
  | String c s1 =>
      match s1 with
      | String d s2 =>
          if is_byte 196 c && is_byte 176 d then String (Ascii.ascii_of_nat 105) (ToLower s2)
          else match s2 with
          | String e s3 =>
              if is_byte 226 c && is_byte 132 d && is_byte 170 e then String (Ascii.ascii_of_nat 107) (ToLower s3)
              else String (lower_byte c) (ToLower s1)
          | EmptyString => String (lower_byte c) (ToLower s1)
          end
      | EmptyString => String (lower_byte c) EmptyString
      end
  end.

Section SignTx.
Context {SDK : ChainSDK} {W : Type} {TW : TxWorld W}.
Abbreviation input := (SignAndBroadcastInput Msg).
Abbreviation sys := (Sys W Msg).
Abbreviation P := (proc W Msg).

(** One call to the outside: the process may die before it. *)
Definition call {A} (f : W -> A * W) : P A := fun y =>
  match y_life y with
  | Some O => (None, y)
  | l => let '(a, w') := f (y_world y) in
         (Some a, mkSys w' (option_map pred l) (y_markers y) (y_signed y) (y_sent y) (y_log y))
  end.

(** Bookkeeping of the model: no call, no crash. *)
Definition modify (f : sys -> sys) : P unit := fun y => (Some tt, f y).
Definition gets {A} (f : sys -> A) : P A := fun y => (Some (f y), y).

Definition observe (e : event) : P unit :=
  modify (fun y => mkSys (y_world y) (y_life y) (y_markers y) (y_signed y) (y_sent y) (e :: y_log y)).

Definition now : P Z := gets (fun y => w_now (y_world y)).
Definition cancelled : P bool := gets (fun y => w_cancelled (y_world y)).

(** [hex.DecodeString] accepts the text. *)
Definition is_hex (c : Ascii.ascii) : bool :=
  let n := Ascii.nat_of_ascii c in
  is_digit c || ((65 <=? n) && (n <=? 70)) || ((97 <=? n) && (n <=? 102)).
Definition isHex (s : string) : bool :=
  Nat.even (String.length s) && forallb is_hex (String.list_ascii_of_string s).

Definition isTxNotFound (r : tx_reply) : bool :=
  match r with TxRPCError data => contains data "not found" | _ => false end.
Definition isTxIndexingDisabled (r : tx_reply) : bool :=
  match r with
  | TxRPCError data =>
      let d := ToLower data in contains d "kveventsink" || contains d "kv event sink"
  | _ => false
  end.

(** The response carries the hash that was asked for. *)
Definition with_hash (h : string) (r : TxResponse) : TxResponse :=
  mkTxResponse h (rs_Height r) (rs_Code r) (rs_Codespace r) (rs_RawLog r) (rs_GasWanted r)
    (rs_GasUsed r) (rs_Data r).
Definition txAnswer (h : string) (r : tx_reply) : query_answer :=
  match r with
  | TxFound resp => QFound (with_hash h resp)
  | _ => if isTxIndexingDisabled r then QIndexingDisabled
         else if isTxNotFound r then QNotFound else QErr
  end.

(** The texts of the other errors only reach the log. *)
Definition QueryTx (hash : string) : P query_answer :=
  if negb (isHex hash) then mret QErr
  else
    r ← call (w_query hash);
    observe (EvQuery hash (txAnswer hash r));;
    mret (txAnswer hash r).

(** The bytes reach the node, whatever it answers. *)
Definition BroadcastSync (task bytes : string) : P (result TxResponse) := fun y =>
  match y_life y with
  | Some O => (None, y)
  | l => let '(a, w') := w_broadcast bytes (y_world y) in
         (Some a, mkSys w' (option_map pred l) (y_markers y) (y_signed y)
                    (y_sent y ++ [(task, bytes)]) (y_log y))
  end.

Definition GetTxMarker (task : string) : P (result (option TxMarker)) :=
  e ← call w_readMarker;
  match e with
  | Some msg => mret (Err msg)
  | None => gets (fun y => Ok (y_markers y !! task))
  end.

Definition SaveTxMarker (m : TxMarker) : P (result unit) :=
  a ← call w_saveMarker;
  let store := modify (fun y => mkSys (y_world y) (y_life y) (<[tm_TaskID m := m]> (y_markers y))
                                  (y_signed y) (y_sent y) (y_log y)) in
  match a with
  | SavedOk => store;; mret (Ok tt)
  | InsertErr true msg => store;; mret (Err msg)
  | InsertErr false msg => mret (Err msg)
  | CheckpointErr msg => store;; mret (Err ("checkpoint tx marker: " +:+ msg))
  end.

(** [tx.Sign] leaves its trace in [y_signed]. *)
Definition recordSigned (i : input) (bytes : string) : P unit :=
  modify (fun y => mkSys (y_world y) (y_life y) (y_markers y) (y_signed y ++ [(i, bytes)])
                     (y_sent y) (y_log y)).

(** ** Results *)
Definition submitProposalMsgType := "/cosmos.gov.v1beta1.MsgSubmitProposal".

Definition parseProposalID (r : TxResponse) : Z :=
  match TxMsgData (rs_Data r) with
  | None | Some [] => 0
  | Some ((ty, data) :: _) =>
      if ty <>s submitProposalMsgType then 0
      else default 0%Z (SubmitProposalResponse data)
  end.

Definition unverifiableResult (txHash : string) (accNum seq : Z) (chainID : string) (t : Z)
  : SignAndBroadcastResult :=
  mkResult txHash 0 0 "" "" 0 0 seq accNum chainID t 0 None true.

Definition undeterminedResult (txHash : string) (accNum seq : Z) (chainID : string) (t : Z)
  : SignAndBroadcastResult :=
  mkResult txHash 0 0 "" "" 0 0 seq accNum chainID t 0 None false.

Definition resultFromTxResponse (r : TxResponse) (accNum seq : Z) (chainID : string)
    (broadcastedAt : Z) (includedAt : option Z) : SignAndBroadcastResult :=
  mkResult (rs_TxHash r) (rs_Height r) (rs_Code r) (rs_Codespace r) (rs_RawLog r) (rs_GasWanted r)
    (rs_GasUsed r) seq accNum chainID broadcastedAt (parseProposalID r) includedAt false.

(** ** Validation *)
Definition appendTaskIDToMemo (base taskID : string) : string :=
  if taskID =s "" then base
  else let tag := taskIDMemoPrefix +:+ taskID in
       if base =s "" then tag else base +:+ " " +:+ tag.

Definition IsPrint (r : Z) : bool :=
  if (r <? 128)%Z then (32 <=? r)%Z && (r <=? 126)%Z else UnicodeIsPrint r.

Definition validateMemo (memo : string) : option string :=
  if (maxMemoBytes <? String.length memo)%nat then
    Some ("memo length " +:+ pretty (String.length memo) +:+ " exceeds " +:+ pretty maxMemoBytes +:+ " bytes")
  else match List.find (fun r => negb (IsPrint r)) (runes memo) with
  | Some r => Some ("memo contains non-printable character " +:+ unicode_point r)
  | None => None
  end.

Definition validateInput (i : input) : option string :=
  if in_ChainID i =s "" then Some "chainId required"
  else if in_KeyName i =s "" then Some "keyName required"
  else match in_Msg i with
  | None => Some "msg required"
  | Some m =>
      if in_TaskID i =s "" then Some "taskId required (engine should always populate this)"
      else if (in_Gas i =? 0)%Z then Some "gas required (must be > 0)"
      else if in_Fees i =s "" then Some "fees required"
      else match validateMemo (in_Memo i) with
      | Some e => Some e
      | None => match ValidateBasic m with
                | Some e => Some ("msg.ValidateBasic: " +:+ e)
                | None => None
                end
      end
  end.

Definition checkCoinsDenom (what text : string) (coins : list (string * Z)) : option string :=
  if negb (forallb (fun c => (0 <? c.2)%Z) coins) then
    Some (what +:+ " " +:+ quote text +:+ " contains non-positive amounts")
  else match List.find (fun c => c.1 <>s feeDenom) coins with
  | Some c => Some (what +:+ " " +:+ quote text +:+ ": denom " +:+ quote c.1 +:+ " not permitted (only "
                    +:+ quote feeDenom +:+ ")")
  | None => None
  end.

Definition checkFeesDenom (fees : string) : option string :=
  match ParseCoinsNormalized fees with
  | Err e => Some ("parse fees " +:+ quote fees +:+ ": " +:+ e)
  | Ok [] => Some ("fees " +:+ quote fees +:+ " resolves to zero or empty coins")
  | Ok coins => checkCoinsDenom "fees" fees coins
  end.

Definition guardChainID (cfg : ExecutionConfig) (chainID : string) : P (outcome unit) :=
  if cfg_EnvChainID cfg =s "" then
    mret (Fail (Terminal "SEI_CHAIN_ID not set on sidecar; refusing to sign"))
  else if chainID <>s cfg_EnvChainID cfg then
    mret (Fail (Terminal ("chain mismatch: params.chainId=" +:+ quote chainID
                          +:+ " sidecar.SEI_CHAIN_ID=" +:+ quote (cfg_EnvChainID cfg))))
  else if negb (cfg_RPC cfg) then
    mret (Fail (Terminal "RPC client not configured; cannot verify chain identity via /status"))
  else
    s ← call w_status;
    match s with
    | StErr e => mret (Fail (plainErr ("query local seid /status: " +:+ e)))
    | StUndecodable e => mret (Fail (plainErr ("decode /status: " +:+ e)))
    | StNetwork net =>
        if net =s "" then mret (Fail (Terminal "/status.node_info.network is empty; refusing to sign"))
        else if net <>s chainID then
          mret (Fail (Terminal ("chain mismatch: params.chainId=" +:+ quote chainID
                                +:+ " node.network=" +:+ quote net)))
        else mret (Done tt)
    end.

(** ** The polling loops

    The fuel is one iteration per interval of the timeout and two more. *)
Definition poll_fuel (timeout interval : Z) : nat := S (S (Z.to_nat (timeout / interval))).

Fixpoint pollLoop (fuel : nat) (txHash : string) (deadline interval : Z)
  : P (outcome (option TxResponse)) :=
  match fuel with
  | O => mret Hang
  | S fuel' =>
      c ← cancelled;
      if c : bool then mret (Fail ctxErr)
      else
        t ← now;
        if (deadline <? t)%Z then mret (Done None)
        else
          q ← QueryTx txHash;
          match q with
          | QFound r => mret (Done (Some r))
          | QIndexingDisabled =>
              mret (Fail (mkTxError ("query /tx?hash=" +:+ txHash +:+ ": " +:+ errTxIndexingDisabled)
                            false true false))
          | QNotFound | QErr =>
              ended ← call (w_wait interval);
              if ended : bool then mret (Fail ctxErr)
              else pollLoop fuel' txHash deadline interval
          end
  end.

Definition pollForInclusion (txHash : string) (timeout interval : Z) : P (outcome (option TxResponse)) :=
  t ← now; pollLoop (poll_fuel timeout interval) txHash (t + timeout)%Z interval.

Fixpoint accountLoop (fuel : nat) (addr : string) (deadline : Z) : P (outcome (Z * Z)) :=
  match fuel with
  | O => mret Hang
  | S fuel' =>
      a ← call (w_account addr);
      match a with
      | AcctOk n s => mret (Done (n, s))
      | AcctErr e => mret (Fail (plainErr e))
      | AcctNotFound e =>
          t ← now;
          if negb (t <? deadline)%Z then mret (Fail (plainErr e))
          else
            ended ← call (w_wait accountNotFoundPollInterval);
            if ended : bool then mret (Fail ctxErr) else accountLoop fuel' addr deadline
      end
  end.

Definition retrieveAccount (addr : string) : P (outcome (Z * Z)) :=
  t ← now;
  accountLoop (poll_fuel accountNotFoundTimeout accountNotFoundPollInterval) addr
    (t + accountNotFoundTimeout)%Z.

(** ** Broadcast, adoption, signing *)
Definition checkTxRejected (r : TxResponse) : string :=
  "checkTx rejected: code=" +:+ pretty (rs_Code r) +:+ " codespace=" +:+ quote (rs_Codespace r)
  +:+ " log=" +:+ rs_RawLog r.

Definition broadcastAndPoll (task txBytes txHash : string) (accNum seq : Z) (chainID : string)
  : P (outcome SignAndBroadcastResult) :=
  broadcastedAt ← now;
  resp ← BroadcastSync task txBytes;
  match resp with
  | Err _ => mret (Done (undeterminedResult txHash accNum seq chainID broadcastedAt))
  | Ok r =>
      if negb (rs_Code r =? 0)%Z then mret (Fail (Terminal (checkTxRejected r)))
      else
        p ← pollForInclusion (rs_TxHash r) inclusionPollTimeout inclusionPollInterval;
        match p with
        | Hang => mret Hang
        | Fail e =>
            if te_indexing e
            then t ← now; mret (Done (unverifiableResult (rs_TxHash r) accNum seq chainID t))
            else mret (Fail e)
        | Done (Some inc) =>
            t ← now;
            mret (Done (resultFromTxResponse inc accNum seq chainID broadcastedAt (Some t)))
        | Done None => mret (Done (resultFromTxResponse r accNum seq chainID broadcastedAt None))
        end
  end.

Definition adoptMarker (m : TxMarker) : P (outcome SignAndBroadcastResult) :=
  q ← QueryTx (tm_TxHash m);
  match q with
  | QIndexingDisabled =>
      t ← now;
      mret (Done (unverifiableResult (tm_TxHash m) (tm_AccountNumber m) (tm_Sequence m) (tm_ChainID m) t))
  | QErr =>
      t ← now;
      mret (Done (undeterminedResult (tm_TxHash m) (tm_AccountNumber m) (tm_Sequence m) (tm_ChainID m) t))
  | QFound r =>
      t ← now;
      mret (Done (resultFromTxResponse r (tm_AccountNumber m) (tm_Sequence m) (tm_ChainID m) t (Some t)))
  | QNotFound =>
      out ← broadcastAndPoll (tm_TaskID m) (tm_TxBytes m) (tm_TxHash m) (tm_AccountNumber m)
              (tm_Sequence m) (tm_ChainID m);
      match out with
      | Fail e =>
          if IsTerminal e then
            p ← pollForInclusion (tm_TxHash m) adoptReQueryTimeout inclusionPollInterval;
            match p with
            | Done (Some r) =>
                t ← now;
                mret (Done (resultFromTxResponse r (tm_AccountNumber m) (tm_Sequence m) (tm_ChainID m) t (Some t)))
            | Hang => mret Hang
            | _ => mret out
            end
          else mret out
      | _ => mret out
      end
  end.

(** The fresh path: sign, make the marker durable, broadcast. *)
Definition signFresh (cfg : ExecutionConfig) (i : input) (addr : string)
  : P (outcome SignAndBroadcastResult) :=
  acct ← retrieveAccount addr;
  match acct with
  | Hang => mret Hang
  | Fail e => mret (Fail (mkTxError ("account retrieve " +:+ addr +:+ ": " +:+ te_text e)
                            (te_terminal e) (te_indexing e) (te_canceled e)))
  | Done (accNum, seq) =>
      match BuildUnsignedTx i accNum seq with
      | Err e => mret (Fail (Terminal ("build unsigned tx: " +:+ e)))
      | Ok unsigned =>
          match SignTx (in_KeyName i) unsigned with
          | Err e => mret (Fail (plainErr ("sign tx: " +:+ e)))
          | Ok signed =>
              match EncodeTx signed with
              | Err e => mret (Fail (plainErr ("encode tx: " +:+ e)))
              | Ok txBytes =>
                  recordSigned i txBytes;;
                  let txHash := TxHashHex txBytes in
                  let send := broadcastAndPoll (in_TaskID i) txBytes txHash accNum seq (in_ChainID i) in
                  if cfg_Checkpointer cfg && (in_TaskID i <>s "") then
                    saved ← SaveTxMarker (mkTxMarker (in_TaskID i) txHash txBytes accNum seq (in_ChainID i));
                    match saved with
                    | Err e => mret (Fail (plainErr ("persist tx marker: " +:+ e)))
                    | Ok _ => send
                    end
                  else send
              end
          end
      end
  end.

Definition with_memo (i : input) (memo : string) : input :=
  mkInput (in_ChainID i) (in_KeyName i) (in_Msg i) (in_Fees i) (in_Gas i) memo (in_TaskID i).

Definition signAndBroadcast (cfg : ExecutionConfig) (i0 : input) (addr : string)
  : P (outcome SignAndBroadcastResult) :=
  if contains (in_Memo i0) taskIDMemoPrefix then
    mret (Fail (Terminal ("memo must not contain " +:+ quote taskIDMemoPrefix
                          +:+ " (reserved for engine-supplied task tag)")))
  else
    let i := with_memo i0 (appendTaskIDToMemo (in_Memo i0) (in_TaskID i0)) in
    match validateInput i with
    | Some e => mret (Fail (Terminal e))
    | None =>
        match checkFeesDenom (in_Fees i) with
        | Some e => mret (Fail (Terminal e))
        | None =>
            try (guardChainID cfg (in_ChainID i)) (fun _ =>
              if cfg_Checkpointer cfg && (in_TaskID i <>s "") then
                got ← GetTxMarker (in_TaskID i);
                match got with
                | Err e => mret (Fail (plainErr ("read tx marker: " +:+ e)))
                | Ok (Some m) => adoptMarker m
                | Ok None => signFresh cfg i addr
                end
              else signFresh cfg i addr)
        end
    end.

(** [newSDKTxClient] only fails on a malformed endpoint URL; it is taken to
    succeed. *)
Definition SignAndBroadcast (cfg : ExecutionConfig) (i : input) : P (outcome SignAndBroadcastResult) :=
  match cfg_Keyring cfg with
  | None => mret (Fail (Terminal "keyring not configured: set SEI_KEYRING_BACKEND/SEI_KEYRING_PASSPHRASE on the sidecar"))
  | Some key =>
      match key (in_KeyName i) with
      | Err e => mret (Fail (Terminal ("keyring entry " +:+ quote (in_KeyName i) +:+ ": " +:+ e)))
      | Ok addr => signAndBroadcast cfg i addr
      end
  end.

(** ** A crash and the next process

    The world and the number of calls left are new; what was durable stays. *)
Definition restart (w : W) (life : option nat) (y : sys) : sys :=
  mkSys w life (y_markers y) (y_signed y) (y_sent y) (y_log y).

(** One process that runs the task, with the point where it dies. *)
Record attempt := mkAttempt {
  at_cfg : ExecutionConfig;
  at_input : input;
  at_world : W;
  at_life : option nat;
}.

Definition run_attempt (a : attempt) (y : sys) : sys :=
  (SignAndBroadcast (at_cfg a) (at_input a) (restart (at_world a) (at_life a) y)).2.
Definition run_attempts (l : list attempt) (y : sys) : sys :=
  fold_left (fun y a => run_attempt a y) l y.

(** ** Reasoning about the process *)

(** A computation that signs nothing, sends nothing and stores no marker. *)
Definition durable (y : sys) := (y_markers y, y_signed y, y_sent y).
Definition silent {A} (m : P A) : Prop := forall y, durable (m y).2 = durable y.

Lemma silent_ret {A} (a : A) : silent (mret a).
Proof. by intros y. Qed.
Lemma silent_bind {A B} (m : P A) (f : A -> P B) :
  silent m -> (forall a, silent (f a)) -> silent (m ≫= f).
Proof.
  intros Hm Hf y. unfold mbind, proc_bind. specialize (Hm y).
  destruct (m y) as [[a|] y'] eqn:E; simpl in *; [|done]. by rewrite (Hf a y').
Qed.
Lemma silent_call {A} (f : W -> A * W) : silent (call f).
Proof. intros y. unfold call. destruct (y_life y) as [[|n]|]; [done|..]; by destruct (f (y_world y)). Qed.
Lemma silent_gets {A} (f : sys -> A) : silent (gets f).
Proof. by intros y. Qed.
Lemma silent_now : silent now.
Proof. apply silent_gets. Qed.
Lemma silent_cancelled : silent cancelled.
Proof. apply silent_gets. Qed.
Lemma silent_QueryTx h : silent (QueryTx h).
Proof.
  unfold QueryTx. destruct (negb (isHex h)); [apply silent_ret|].
  apply silent_bind; [apply silent_call|]. intros q. apply silent_bind; [by intros y|].
  intros []. apply silent_ret.
Qed.

End SignTx.

Ltac silent_step :=
  match goal with
  | |- silent (mret _) => apply silent_ret
  | |- silent (call _) => apply silent_call
  | |- silent (gets _) => apply silent_gets
  | |- silent now => apply silent_now
  | |- silent cancelled => apply silent_cancelled
  | |- silent (QueryTx _) => apply silent_QueryTx
  | |- silent (_ ≫= _) => apply silent_bind; [|intros ?]
  | |- silent (match ?x with _ => _ end) => destruct x
  end.

Section SignTxProofs.
Context {SDK : ChainSDK} {W : Type} {TW : TxWorld W}.
Abbreviation input := (SignAndBroadcastInput Msg).
Abbreviation sys := (Sys W Msg).
Abbreviation P := (proc W Msg).

Lemma silent_pollLoop fuel h d i : silent (pollLoop fuel h d i).
Proof. induction fuel as [|fuel IH]; simpl; repeat (silent_step || apply IH). Qed.
Lemma silent_pollForInclusion h t i : silent (pollForInclusion h t i).
Proof. unfold pollForInclusion. repeat (silent_step || apply silent_pollLoop). Qed.
Lemma silent_retrieveAccount a : silent (retrieveAccount a).
Proof.
  unfold retrieveAccount. silent_step; [silent_step|]. generalize (poll_fuel accountNotFoundTimeout accountNotFoundPollInterval).
  intros n. generalize (a0 + accountNotFoundTimeout)%Z. intros d.
  induction n as [|n IH]; simpl; repeat (silent_step || apply IH).
Qed.
Lemma silent_guardChainID cfg c : silent (guardChainID cfg c).
Proof. unfold guardChainID. repeat silent_step. Qed.
Lemma silent_GetTxMarker t : silent (GetTxMarker t).
Proof. unfold GetTxMarker. repeat silent_step. Qed.

(** A bind that ends made both of its parts end. *)
Lemma bind_inv {A B} (m : P A) (f : A -> P B) y b y' :
  (m ≫= f) y = (Some b, y') -> exists a y1, m y = (Some a, y1) /\ f a y1 = (Some b, y').
Proof. unfold mbind, proc_bind. destruct (m y) as [[a|] y1]; [eauto|done]. Qed.

(** What a bind leaves: the first part died, or the second ran after it. *)
Lemma bind_cases {A B} (m : P A) (f : A -> P B) y :
  (exists y1, m y = (None, y1) /\ (m ≫= f) y = (None, y1)) \/
  (exists a y1, m y = (Some a, y1) /\ (m ≫= f) y = f a y1).
Proof.
  unfold mbind, proc_bind. destruct (m y) as [[a|] y1]; [right|left]; eauto.
Qed.

Lemma silent_then {A B} (m : P A) (f : A -> P B) y (Q : sys -> Prop) :
  silent m ->
  (forall y1, durable y1 = durable y -> Q y1) ->
  (forall a y1, m y = (Some a, y1) -> durable y1 = durable y -> Q (f a y1).2) ->
  Q ((m ≫= f) y).2.
Proof.
  intros Hs Hdie Hgo. specialize (Hs y).
  destruct (bind_cases m f y) as [(y1 & E & ->)|(a & y1 & E & ->)]; rewrite E in Hs; simpl in *.
  - by apply Hdie.
  - by apply (Hgo a).
Qed.

(** ** Sending *)

(** Nothing but at most one more copy of the bytes went out. *)
Definition sends (task bytes : string) (y y' : sys) : Prop :=
  durable y' = durable y \/
  durable y' = (y_markers y, y_signed y, y_sent y ++ [(task, bytes)]).

Lemma sends_silent task bytes y y1 y2 :
  durable y1 = durable y -> sends task bytes y1 y2 -> sends task bytes y y2.
Proof.
  unfold sends, durable. intros H. injection H as H1 H2 H3. by rewrite H1, H2, H3.
Qed.

Lemma silent_sends task bytes y y1 : durable y1 = durable y -> sends task bytes y y1.
Proof. by left. Qed.

Lemma sends_then_silent task bytes y y1 y2 :
  sends task bytes y y1 -> durable y2 = durable y1 -> sends task bytes y y2.
Proof. unfold sends. intros [H|H] E; [left|right]; congruence. Qed.

Lemma broadcastAndPoll_sends task bytes h n q c y :
  sends task bytes y (broadcastAndPoll task bytes h n q c y).2.
Proof.
  unfold broadcastAndPoll. apply silent_then; [apply silent_now|by left|].
  intros t y1 _ Hd1. apply (sends_silent _ _ _ _ _ Hd1). clear Hd1.
  destruct (bind_cases (BroadcastSync task bytes)
    (fun resp => match resp with
     | Err _ => mret (Done (undeterminedResult h n q c t))
     | Ok r => if negb (rs_Code r =? 0)%Z then mret (Fail (Terminal (checkTxRejected r)))
       else p ← pollForInclusion (rs_TxHash r) inclusionPollTimeout inclusionPollInterval;
        match p with
        | Hang => mret Hang
        | Fail e => if te_indexing e
            then t ← now; mret (Done (unverifiableResult (rs_TxHash r) n q c t))
            else mret (Fail e)
        | Done (Some inc) => t' ← now; mret (Done (resultFromTxResponse inc n q c t (Some t')))
        | Done None => mret (Done (resultFromTxResponse r n q c t None))
        end
     end) y1) as [(y2 & E & Er)|(resp & y2 & E & Er)]; rewrite Er.
  - unfold BroadcastSync in E. left. destruct (y_life y1) as [[|k]|]; [by simplify_eq|..];
      destruct (w_broadcast bytes (y_world y1)); simplify_eq.
  - apply sends_then_silent with y2.
    + right. unfold BroadcastSync in E.
      destruct (y_life y1) as [[|k]|]; [done|..]; destruct (w_broadcast bytes (y_world y1)); by simplify_eq.
    + match goal with |- durable (?f y2).2 = _ => enough (silent f) as Hs by apply Hs end.
      destruct resp as [r|]; repeat (silent_step || apply silent_pollForInclusion).
Qed.

Lemma adoptMarker_sends m y : sends (tm_TaskID m) (tm_TxBytes m) y (adoptMarker m y).2.
Proof.
  unfold adoptMarker. apply silent_then; [apply silent_QueryTx|by left|].
  intros q y1 _ Hd. apply (sends_silent _ _ _ _ _ Hd).
  destruct q as [r| | |];
    [apply silent_sends, silent_bind; intros; apply silent_now || apply silent_ret | |
     apply silent_sends, silent_bind; intros; apply silent_now || apply silent_ret ..].
  match goal with |- sends _ _ _ ((?m ≫= ?f) y1).2 =>
    pose proof (bind_cases m f y1) as Hb; set (k := f) in * end.
  pose proof (broadcastAndPoll_sends (tm_TaskID m) (tm_TxBytes m) (tm_TxHash m) (tm_AccountNumber m)
    (tm_Sequence m) (tm_ChainID m) y1) as Hsend.
  destruct Hb as [(y2 & E & ->)|(a & y2 & E & ->)]; rewrite E in Hsend; [done|].
  apply (sends_then_silent _ _ _ _ _ Hsend). unfold k.
  match goal with |- durable (?f y2).2 = _ => enough (silent f) as Hs by apply Hs end.
  repeat (silent_step || apply silent_pollForInclusion).
Qed.

(** ** One signature per task *)

(** Whatever was sent for a task is what its marker holds. *)
Record consistent (y : sys) : Prop := {
  co_sent : forall t b, In (t, b) (y_sent y) -> exists m, y_markers y !! t = Some m /\ tm_TxBytes m = b;
  co_key : forall t m, y_markers y !! t = Some m -> tm_TaskID m = t;
}.

Lemma consistent_durable y y' : durable y' = durable y -> consistent y -> consistent y'.
Proof. unfold durable. intros [= Hm _ Hs] [H1 H2]. split; rewrite Hm, ?Hs; done. Qed.

Lemma consistent_sends task bytes m y y' :
  consistent y -> y_markers y !! task = Some m -> tm_TxBytes m = bytes ->
  sends task bytes y y' -> consistent y'.
Proof.
  intros Hc Hm Hb [H|H]; [by eapply consistent_durable|]. unfold durable in H. injection H as H1 H2 H3.
  destruct Hc as [Hc1 Hc2]. split; rewrite H1, ?H3; [|done].
  intros t b [Hin|[[= <- <-]|[]]]%in_app_iff; eauto.
Qed.

Lemma SaveTxMarker_cases m y :
  (durable (SaveTxMarker m y).2 = durable y /\ (SaveTxMarker m y).1 <> Some (Ok tt)) \/
  durable (SaveTxMarker m y).2 = (<[tm_TaskID m := m]> (y_markers y), y_signed y, y_sent y).
Proof.
  unfold SaveTxMarker, mbind, proc_bind, call.
  destruct (y_life y) as [[|n]|]; [by left|..];
    destruct (w_saveMarker (y_world y)) as [[|[] e|e] w']; simpl; auto; left; by split.
Qed.

Lemma durable_eq (y y' : sys) : durable y' = durable y ->
  y_markers y' = y_markers y /\ y_signed y' = y_signed y /\ y_sent y' = y_sent y.
Proof. unfold durable. by intros [= -> -> ->]. Qed.

(** A marker for a task of which nothing was sent keeps the record straight. *)
Lemma consistent_marker mk (y y' : sys) :
  consistent y -> y_markers y !! tm_TaskID mk = None ->
  durable y' = (<[tm_TaskID mk := mk]> (y_markers y), y_signed y, y_sent y) -> consistent y'.
Proof.
  intros [Hc1 Hc2] Hnone Hd. unfold durable in Hd. injection Hd as Hm _ Hse. split; rewrite Hm, ?Hse.
  - intros t b Hb. destruct (Hc1 _ _ Hb) as (m & Hmt & Hbm). exists m.
    rewrite lookup_insert_ne; [done|congruence].
  - intros t m [[<- <-]|[_ Ht]]%lookup_insert_Some; [done|by apply Hc2].
Qed.

(** A fresh run on a task without a marker keeps the record straight. *)
Lemma signFresh_consistent cfg i addr y :
  cfg_Checkpointer cfg = true -> in_TaskID i <> "" -> consistent y ->
  y_markers y !! in_TaskID i = None -> consistent (signFresh cfg i addr y).2.
Proof.
  intros Hck Hid Hc Hnone. unfold signFresh.
  apply silent_then; [apply silent_retrieveAccount|intros y1 Hd; by eapply consistent_durable|].
  intros acct y1 _ Hd. pose proof (consistent_durable _ _ Hd Hc) as Hc1.
  apply durable_eq in Hd as (Hm & _ & _). rewrite <- Hm in Hnone. clear Hc Hm.
  destruct acct as [[accNum seq]|e|]; [|done..].
  destruct (BuildUnsignedTx i accNum seq) as [u|]; [|done].
  destruct (SignTx (in_KeyName i) u) as [sg|]; [|done].
  destruct (EncodeTx sg) as [bytes|]; [|done].
  unfold mbind at 1, proc_bind at 1, recordSigned, modify. simpl.
  apply String.eqb_neq in Hid as Hid'. rewrite Hck, Hid'. simpl.
  set (mk := mkTxMarker _ _ _ _ _ _). set (y2 := mkSys _ _ _ _ _ _).
  assert (Hc2 : consistent y2) by (destruct Hc1; by split).
  assert (Hn2 : y_markers y2 !! tm_TaskID mk = None) by done.
  match goal with |- consistent ((?m ≫= ?f) y2).2 => destruct (bind_cases m f y2) as
    [(y3 & E & ->)|(a & y3 & E & ->)] end;
    pose proof (SaveTxMarker_cases mk y2) as Hs; rewrite E in Hs; simpl in Hs; cbn [snd].
  - destruct Hs as [[Hd _]|Hd]; [by eapply consistent_durable|by eapply consistent_marker].
  - assert (Hc3 : consistent y3).
    { destruct Hs as [[Hd _]|Hd]; [by eapply consistent_durable|by eapply consistent_marker]. }
    destruct a as [[]|e]; [|done].
    destruct Hs as [[_ Hne]|Hd]; [done|]. unfold durable in Hd. injection Hd as Hm _ _.
    eapply (consistent_sends (in_TaskID i) bytes mk); [done| |done|apply broadcastAndPoll_sends].
    rewrite Hm. apply lookup_insert_eq.
Qed.

Lemma validateInput_task (i : input) : validateInput i = None -> in_TaskID i <> "".
Proof.
  unfold validateInput. repeat (case_match; try done). intros _. by apply String.eqb_neq.
Qed.

Lemma GetTxMarker_read t o y y' :
  GetTxMarker t y = (Some (Ok o), y') -> y_markers y' !! t = o.
Proof.
  unfold GetTxMarker, mbind, proc_bind.
  destruct (call w_readMarker y) as [[[?|]|] ?]; unfold mret, proc_ret, gets; intros H; by simplify_eq/=.
Qed.

Lemma signAndBroadcast_consistent cfg i0 addr y :
  cfg_Checkpointer cfg = true -> consistent y -> consistent (signAndBroadcast cfg i0 addr y).2.
Proof.
  intros Hck Hc. unfold signAndBroadcast. destruct (contains _ _); [done|].
  set (i := with_memo _ _). destruct (validateInput i) eqn:Ev; [done|].
  destruct (checkFeesDenom _); [done|]. apply validateInput_task in Ev.
  unfold try. apply silent_then; [apply silent_guardChainID|intros; by eapply consistent_durable|].
  intros g y1 _ Hd. apply (consistent_durable _ _ Hd) in Hc. clear Hd.
  destruct g as [[]|e|]; [|done..].
  apply String.eqb_neq in Ev as Ev'. rewrite Hck, Ev'. cbn [andb negb].
  apply silent_then; [apply silent_GetTxMarker|intros; by eapply consistent_durable|].
  intros got y2 E Hd. pose proof (consistent_durable _ _ Hd Hc) as Hc2.
  destruct got as [o|e]; [|done]. apply GetTxMarker_read in E. destruct o as [m|].
  - pose proof (co_key _ Hc2 _ _ E) as Hk.
    eapply consistent_sends; [done| |done|apply adoptMarker_sends]. by rewrite Hk.
  - by apply signFresh_consistent.
Qed.

Lemma run_attempts_consistent l y :
  Forall (fun a => cfg_Checkpointer (at_cfg a) = true) l -> consistent y -> consistent (run_attempts l y).
Proof.
  unfold run_attempts. revert y. induction l as [|a l IH]; intros y HF Hc; simpl; [done|].
  inversion_clear HF as [|? ? Ha HF']. apply IH; [done|]. unfold run_attempt, SignAndBroadcast.
  assert (Hr : consistent (restart (at_world a) (at_life a) y)) by (by apply (consistent_durable y)).
  destruct (cfg_Keyring _) as [key|]; [|done]. destruct (key _) as [addr|]; [|done].
  by apply signAndBroadcast_consistent.
Qed.

(** ** What is signed *)

Record verified (cfg : ExecutionConfig) (w : W) (i : input) : Prop := {
  vf_env : cfg_EnvChainID cfg <> "" /\ in_ChainID i = cfg_EnvChainID cfg;
  vf_node : exists w', w_status w = (StNetwork (in_ChainID i), w');
  vf_fees : exists coins, ParseCoinsNormalized (in_Fees i) = Ok coins /\ coins <> [] /\
    Forall (fun c => c.1 = feeDenom /\ (0 < c.2)%Z) coins;
  vf_memo : String.length (in_Memo i) <= maxMemoBytes /\
    Forall (fun r => IsPrint r = true) (runes (in_Memo i));
  vf_msg : exists m, in_Msg i = Some m /\ ValidateBasic m = None;
  vf_gas : in_Gas i <> 0%Z;
}.

Lemma find_none_Forall {A} (f : A -> bool) l : List.find f l = None -> Forall (fun x => f x = false) l.
Proof. induction l as [|x l IH]; simpl; [done|]. case_match; [done|]. auto. Qed.

Lemma validateMemo_ok memo : validateMemo memo = None ->
  String.length memo <= maxMemoBytes /\ Forall (fun r => IsPrint r = true) (runes memo).
Proof.
  unfold validateMemo. case_match eqn:Hl; [done|]. case_match eqn:Hf; [done|]. intros _.
  apply Nat.ltb_ge in Hl. split; [done|]. apply find_none_Forall in Hf.
  eapply Forall_impl; [exact Hf|]. intros r Hr. by apply negb_false_iff in Hr.
Qed.

Lemma checkCoinsDenom_ok what text coins : checkCoinsDenom what text coins = None ->
  Forall (fun c => c.1 = feeDenom /\ (0 < c.2)%Z) coins.
Proof.
  unfold checkCoinsDenom. case_match eqn:Hp; [done|]. case_match eqn:Hf; [done|]. intros _.
  apply negb_false_iff in Hp. rewrite forallb_forall, <- List.Forall_forall in Hp.
  apply find_none_Forall in Hf.
  eapply Forall_impl; [exact (proj2 (Forall_and _ _) (conj Hp Hf))|].
  intros c [H1 H2]. bool_to_prop. split; [done|]. by apply Z.ltb_lt.
Qed.

Lemma checkFeesDenom_ok fees : checkFeesDenom fees = None ->
  exists coins, ParseCoinsNormalized fees = Ok coins /\ coins <> [] /\
    Forall (fun c => c.1 = feeDenom /\ (0 < c.2)%Z) coins.
Proof.
  unfold checkFeesDenom. destruct (ParseCoinsNormalized fees) as [[|c l]|]; try done.
  intros H%checkCoinsDenom_ok. by exists (c :: l).
Qed.

Lemma guardChainID_ok cfg c y y1 : guardChainID cfg c y = (Some (Done tt), y1) ->
  (cfg_EnvChainID cfg <> "" /\ c = cfg_EnvChainID cfg) /\
  exists w', w_status (y_world y) = (StNetwork c, w').
Proof.
  unfold guardChainID. case_match eqn:He; [done|]. case_match eqn:Hc; [done|]. case_match; [done|].
  bool_to_prop. unfold mbind, proc_bind, call.
  destruct (w_status (y_world y)) as [[net|e|e] w'], (y_life y) as [[|n]|]; try done;
    (case_match eqn:Hn; [done|]; case_match eqn:Hnc; [done|]; intros _; bool_to_prop; subst; eauto).
Qed.

Lemma verified_intro cfg i y y1 :
  validateInput i = None -> checkFeesDenom (in_Fees i) = None ->
  guardChainID cfg (in_ChainID i) y = (Some (Done tt), y1) -> verified cfg (y_world y) i.
Proof.
  intros Hv Hf [Henv Hnode]%guardChainID_ok. apply checkFeesDenom_ok in Hf.
  unfold validateInput in Hv. repeat (case_match; try done).
  split; try done; [by apply validateMemo_ok|eauto|by apply Z.eqb_neq].
Qed.

Lemma sends_signed task bytes y y' : sends task bytes y y' -> y_signed y' = y_signed y.
Proof. unfold sends, durable. intros [H|H]; by injection H. Qed.

Lemma signFresh_signed cfg i addr y :
  y_signed (signFresh cfg i addr y).2 = y_signed y \/
  exists bytes, y_signed (signFresh cfg i addr y).2 = y_signed y ++ [(i, bytes)].
Proof.
  unfold signFresh.
  apply (silent_then (retrieveAccount addr) _ y
    (fun y' => y_signed y' = y_signed y \/ exists bytes, y_signed y' = y_signed y ++ [(i, bytes)]));
    [apply silent_retrieveAccount|by intros y1 (_ & ? & _)%durable_eq; left|].
  intros acct y1 _ (_ & Hs & _)%durable_eq. rewrite <- Hs. clear Hs.
  destruct acct as [[accNum seq]|e|]; [|by left..].
  destruct (BuildUnsignedTx i accNum seq) as [u|]; [|by left].
  destruct (SignTx (in_KeyName i) u) as [sg|]; [|by left].
  destruct (EncodeTx sg) as [bytes|]; [|by left]. right. exists bytes.
  unfold mbind at 1, proc_bind at 1, recordSigned, modify. simpl. set (y2 := mkSys _ _ _ _ _ _).
  change (y_signed y1 ++ [(i, bytes)]) with (y_signed y2). clearbody y2.
  assert (Hb : forall y t h a q c, y_signed (broadcastAndPoll t bytes h a q c y).2 = y_signed y)
    by (intros; eapply sends_signed, broadcastAndPoll_sends).
  case_match; [|apply Hb].
  match goal with |- y_signed ((?m ≫= ?f) y2).2 = _ => destruct (bind_cases m f y2) as
    [(y3 & E & ->)|(a & y3 & E & ->)] end;
    pose proof (SaveTxMarker_cases (mkTxMarker (in_TaskID i) (TxHashHex bytes) bytes accNum seq (in_ChainID i)) y2) as Hc;
    rewrite E in Hc; unfold durable in Hc; simpl in Hc;
    assert (Hs : y_signed y3 = y_signed y2) by (destruct Hc as [[Hx _]|Hx]; by injection Hx).
  - done.
  - destruct a; [by rewrite Hb|done].
Qed.

Lemma SignAndBroadcast_signed cfg (i0 : input) y :
  let y' := (SignAndBroadcast cfg i0 y).2 in
  let i := with_memo i0 (appendTaskIDToMemo (in_Memo i0) (in_TaskID i0)) in
  y_signed y' = y_signed y \/
  exists bytes, y_signed y' = y_signed y ++ [(i, bytes)] /\ verified cfg (y_world y) i /\
    contains (in_Memo i0) taskIDMemoPrefix = false /\
    (cfg_Checkpointer cfg = true -> y_markers y !! in_TaskID i0 = None).
Proof.
  intros y' i. subst y'. unfold SignAndBroadcast.
  destruct (cfg_Keyring cfg) as [key|]; [|by left]. destruct (key (in_KeyName i0)) as [addr|]; [|by left].
  unfold signAndBroadcast. destruct (contains _ _); [by left|]. fold i.
  destruct (validateInput i) eqn:Hv; [by left|]. destruct (checkFeesDenom (in_Fees i)) eqn:Hf; [by left|].
  unfold try. match goal with |- context [guardChainID cfg (in_ChainID i) ≫= ?f] =>
    apply (silent_then (guardChainID cfg (in_ChainID i)) f y (fun y' => y_signed y' = y_signed y \/
      exists bytes, y_signed y' = y_signed y ++ [(i, bytes)] /\ verified cfg (y_world y) i /\
        false = false /\ (cfg_Checkpointer cfg = true -> y_markers y !! in_TaskID i0 = None))) end;
    [apply silent_guardChainID|by intros y1 (_ & ? & _)%durable_eq; left|].
  intros g y1 Eg (Hm & Hs & _)%durable_eq. destruct g as [[]|e|]; [|by left..].
  pose proof (verified_intro _ _ _ _ Hv Hf Eg) as Hver. clear Eg Hf. rewrite <- Hs, <- Hm. clear Hs Hm.
  apply validateInput_task in Hv. apply String.eqb_neq in Hv. rewrite Hv.
  destruct (cfg_Checkpointer cfg); cbn [andb negb].
  - match goal with |- context [GetTxMarker (in_TaskID i) ≫= ?f] =>
      apply (silent_then (GetTxMarker (in_TaskID i)) f y1 (fun y' => y_signed y' = y_signed y1 \/
      exists bytes, y_signed y' = y_signed y1 ++ [(i, bytes)] /\ verified cfg (y_world y) i /\
        false = false /\ (true = true -> y_markers y1 !! in_TaskID i0 = None))) end;
      [apply silent_GetTxMarker|by intros y2 (_ & ? & _)%durable_eq; left|].
    intros got y2 E (Hm & Hs & _)%durable_eq. rewrite <- Hs, <- Hm. destruct got as [o|e]; [|by left].
    apply GetTxMarker_read in E. destruct o as [m|]; [left; eapply sends_signed, adoptMarker_sends|].
    destruct (signFresh_signed cfg i addr y2) as [?|[bytes ?]]; [by left|right; by exists bytes].
  - destruct (signFresh_signed cfg i addr y1) as [?|[bytes ?]]; [by left|right; by exists bytes].
Qed.

(** C6: what is signed was checked. A run signs at most once, and only with the
    chain id of the request equal to SEI_CHAIN_ID and to the network the node
    reported, fees that are positive amounts of usei, a message that passes
    its own check, a printable memo of at most 256 bytes that carries the
    task's tag and no other one, and, when markers are kept, no marker of the task. *)
Theorem signed_only_verified cfg (i0 : input) y :
  let y' := (SignAndBroadcast cfg i0 y).2 in
  let i := with_memo i0 (appendTaskIDToMemo (in_Memo i0) (in_TaskID i0)) in
  y_signed y' = y_signed y \/
  exists bytes, y_signed y' = y_signed y ++ [(i, bytes)] /\ verified cfg (y_world y) i /\
    contains (in_Memo i0) taskIDMemoPrefix = false /\
    (cfg_Checkpointer cfg = true -> y_markers y !! in_TaskID i0 = None).
Proof. apply SignAndBroadcast_signed. Qed.

(** C5: no transaction is signed twice onto the chain. Over any number of
    processes that run the task with markers kept, each of which may die before
    any call, everything that ever reached the node for a task is the one
    transaction its durable marker holds. *)
Theorem no_double_sign (l : list attempt) w life t b1 b2 :
  Forall (fun a => cfg_Checkpointer (at_cfg a) = true) l ->
  let y := run_attempts l (mkSys w life ∅ [] [] []) in
  In (t, b1) (y_sent y) -> In (t, b2) (y_sent y) ->
  b1 = b2 /\ exists m, y_markers y !! t = Some m /\ tm_TxBytes m = b1.
Proof.
  intros HF y H1 H2.
  assert (Hc : consistent y) by (apply run_attempts_consistent; [done|]; by split).
  destruct (co_sent _ Hc _ _ H1) as (m1 & Hm1 & <-), (co_sent _ Hc _ _ H2) as (m2 & Hm2 & <-).
  simplify_eq. eauto.
Qed.

(** ** Termination and the number of queries *)

(** At most [n] queries. *)
Definition queries_le {A} (n : nat) (m : P A) : Prop := forall y, y_queries (m y).2 <= n + y_queries y.

Lemma queries_ret {A} n (a : A) : queries_le n (mret a).
Proof. intros y. simpl. lia. Qed.
Lemma queries_gets {A} (f : sys -> A) : queries_le 0 (gets f).
Proof. intros y. simpl. lia. Qed.
Lemma queries_call {A} (f : W -> A * W) : queries_le 0 (call f).
Proof. intros y. unfold call. destruct (y_life y) as [[|k]|]; [done|..]; by destruct (f (y_world y)). Qed.
Lemma queries_bind {A B} n k t (m : P A) (f : A -> P B) :
  queries_le n m -> (forall a, queries_le k (f a)) -> n + k <= t -> queries_le t (m ≫= f).
Proof.
  intros Hm Hf Ht y. specialize (Hm y).
  destruct (bind_cases m f y) as [(y1 & E & ->)|(a & y1 & E & ->)]; rewrite E in Hm; simpl in *; [lia|].
  specialize (Hf a y1). lia.
Qed.
Lemma queries_BroadcastSync t b : queries_le 0 (BroadcastSync t b).
Proof. intros y. unfold BroadcastSync. destruct (y_life y) as [[|k]|]; [done|..]; by destruct (w_broadcast b (y_world y)). Qed.
Lemma queries_GetTxMarker t : queries_le 0 (GetTxMarker t).
Proof.
  eapply (queries_bind 0 0); [apply queries_call| |lia]. intros [e|]; [apply queries_ret|apply queries_gets].
Qed.
Lemma queries_SaveTxMarker m : queries_le 0 (SaveTxMarker m).
Proof.
  eapply (queries_bind 0 0); [apply queries_call| |lia].
  intros [|[] e|e]; [| |apply queries_ret|]; (eapply (queries_bind 0 0); [by intros y| |lia]; intros []; apply queries_ret).
Qed.

Context {TWL : TxWorldLaws W}.

(** At most [n] queries of one run, and an answer at the end of it. *)
Definition bound {A} (n : nat) (m : P (outcome A)) (y : sys) : Prop :=
  (m y).1 <> Some Hang /\ y_queries (m y).2 <= n + y_queries y.

Lemma bound_ret {A} n (a : outcome A) y : a <> Hang -> bound n (mret a) y.
Proof. intros Ha. split; simpl; [congruence|lia]. Qed.
Lemma bound_gets {A B} n (g : sys -> A) (f : A -> P (outcome B)) y :
  bound n (f (g y)) y -> bound n (gets g ≫= f) y.
Proof. done. Qed.
Lemma bound_call {A B} n (c : W -> A * W) (f : A -> P (outcome B)) y :
  (forall y', y_world y' = (c (y_world y)).2 -> y_queries y' = y_queries y ->
              bound n (f (c (y_world y)).1) y') ->
  bound n (call c ≫= f) y.
Proof.
  intros H. unfold bound, y_queries, mbind, proc_bind, call in *. destruct (y_life y) as [[|k]|];
    [split; simpl; [done|lia]|..]; destruct (c (y_world y)) as [a w'];
    match goal with |- (f a ?y1).1 <> _ /\ _ => exact (H y1 eq_refl eq_refl) end.
Qed.
Lemma bound_QueryTx {B} n h (f : query_answer -> P (outcome B)) y :
  (forall q y', (w_now (y_world y) <= w_now (y_world y'))%Z -> bound n (f q) y') ->
  bound (S n) (QueryTx h ≫= f) y.
Proof.
  intros H. unfold bound, y_queries, QueryTx, observe, mbind, proc_bind, call in *.
  destruct (negb (isHex h)); [destruct (H QErr y) as [H1 H2]; [lia|split; [exact H1|simpl in *; lia]]|].
  pose proof (query_clock h (y_world y)) as Hq. destruct (y_life y) as [[|k]|];
    [split; simpl; [done|lia]|..]; destruct (w_query h (y_world y)) as [a w'];
    unfold modify, mret, proc_ret; simpl;
    match goal with |- (f ?q ?y1).1 <> _ /\ _ => destruct (H q y1 Hq) as [H1 H2] end;
    (split; [exact H1|etransitivity; [exact H2|simpl; destruct (txAnswer h a); simpl; lia]]).
Qed.
Lemma bound_weaken {A} n k (m : P (outcome A)) y : bound n m y -> n <= k -> bound k m y.
Proof. intros [H1 H2] Hle. split; [done|lia]. Qed.
Lemma bound_then {A B} n k t (m : P (outcome A)) (f : outcome A -> P (outcome B)) y :
  bound n m y -> (forall a y', a <> Hang -> bound k (f a) y') -> n + k <= t -> bound t (m ≫= f) y.
Proof.
  intros [Hm1 Hm2] Hf Ht. unfold bound.
  destruct (bind_cases m f y) as [(y1 & E & ->)|(a & y1 & E & ->)]; rewrite E in Hm1, Hm2; simpl in *;
    [split; [done|lia]|].
  destruct (Hf a y1) as [H1 H2]; [congruence|]. split; [done|lia].
Qed.
Lemma bound_seq {A B} n (m : P A) (f : A -> P (outcome B)) y :
  queries_le 0 m -> (forall a y', bound n (f a) y') -> bound n (m ≫= f) y.
Proof.
  intros Hm Hf. specialize (Hm y). unfold bound.
  destruct (bind_cases m f y) as [(y1 & E & ->)|(a & y1 & E & ->)]; rewrite E in Hm; simpl in *;
    [split; [done|lia]|].
  destruct (Hf a y1) as [H1 H2]. split; [done|lia].
Qed.

(** A loop that has [fuel + 1] rounds and starts less than [fuel] intervals
    before its deadline answers within [fuel] queries. *)
Lemma pollLoop_bound fuel h deadline interval y :
  (0 < interval)%Z -> (deadline - w_now (y_world y) < Z.of_nat fuel * interval)%Z ->
  bound fuel (pollLoop (S fuel) h deadline interval) y.
Proof.
  intros Hi. revert y. induction fuel as [|fuel IH]; intros y Hrem;
    cbn [pollLoop]; apply bound_gets; (case_match; [by apply bound_ret|]); apply bound_gets.
  { case_match eqn:Hd; [by apply bound_ret|]. apply Z.ltb_ge in Hd. lia. }
  case_match; [by apply bound_ret|]. apply bound_QueryTx. intros q y1 Hq. destruct q; try by apply bound_ret.
  all: apply bound_call; intros y2 Hw2 _; destruct (w_wait interval (y_world y1)) as [ended w2] eqn:Ew;
    simpl in Hw2 |- *; destruct ended; [by apply bound_ret|].
  all: apply wait_lasts in Ew; subst w2; apply IH; lia.
Qed.

Lemma accountLoop_bound fuel addr deadline y :
  (deadline - w_now (y_world y) <= Z.of_nat fuel * accountNotFoundPollInterval)%Z ->
  bound 0 (accountLoop (S fuel) addr deadline) y.
Proof.
  revert y. induction fuel as [|fuel IH]; intros y Hrem; cbn [accountLoop]; apply bound_call; intros y1 Hw1 _;
    pose proof (account_clock addr (y_world y)) as Hq; rewrite <- Hw1 in Hq;
    (destruct (w_account addr (y_world y)).1; [by apply bound_ret| |by apply bound_ret]);
    apply bound_gets; (case_match eqn:Hd; [by apply bound_ret|]); apply negb_false_iff, Z.ltb_lt in Hd; [lia|].
  apply bound_call. intros y2 Hw2 _.
  destruct (w_wait accountNotFoundPollInterval (y_world y1)) as [ended w2] eqn:Ew; simpl in Hw2 |- *.
  destruct ended; [by apply bound_ret|]. apply wait_lasts in Ew. subst w2. apply IH. lia.
Qed.

(** [pollForInclusion] answers, with one query per interval and one more. *)
Lemma pollForInclusion_bound h timeout interval y :
  (0 < interval)%Z -> (0 <= timeout)%Z ->
  bound (S (Z.to_nat (timeout / interval))) (pollForInclusion h timeout interval) y.
Proof.
  intros Hi Ht. apply bound_gets, pollLoop_bound; [done|].
  pose proof (Z.div_mod timeout interval) as Hd. pose proof (Z.mod_pos_bound timeout interval Hi) as Hm.
  pose proof (Z.div_pos timeout interval Ht Hi). rewrite Nat2Z.inj_succ, Z2Nat.id by done. nia.
Qed.

Lemma retrieveAccount_bound addr y : bound 0 (retrieveAccount addr) y.
Proof.
  apply bound_gets, accountLoop_bound. apply Z.le_trans with accountNotFoundTimeout; [lia|by vm_compute].
Qed.

Lemma inclusion_poll_bound h y :
  bound 121 (pollForInclusion h inclusionPollTimeout inclusionPollInterval) y.
Proof. eapply bound_weaken; [by apply pollForInclusion_bound|]. apply Nat.leb_le. by vm_compute. Qed.
Lemma adopt_poll_bound h y :
  bound 11 (pollForInclusion h adoptReQueryTimeout inclusionPollInterval) y.
Proof. eapply bound_weaken; [by apply pollForInclusion_bound|]. apply Nat.leb_le. by vm_compute. Qed.

Lemma broadcastAndPoll_bound task bytes h n q c y : bound 121 (broadcastAndPoll task bytes h n q c) y.
Proof.
  unfold broadcastAndPoll. apply bound_gets, bound_seq; [apply queries_BroadcastSync|].
  intros [r|e] y1; [|by apply bound_ret]. case_match; [by apply bound_ret|].
  eapply (bound_then 121 0); [apply inclusion_poll_bound| |lia].
  intros [[inc|]|e|] y2 Ha; [by apply bound_gets, bound_ret|by apply bound_ret| |done].
  case_match; [by apply bound_gets, bound_ret|by apply bound_ret].
Qed.

Lemma adoptMarker_bound m y : bound 133 (adoptMarker m) y.
Proof.
  unfold adoptMarker. apply bound_QueryTx. intros q y1 _.
  destruct q; try by apply bound_gets, bound_ret.
  eapply (bound_then 121 11); [apply broadcastAndPoll_bound| |lia].
  intros out y2 Hout. destruct out as [a|e|]; [by apply bound_ret| |done].
  case_match; [|by apply bound_ret].
  eapply (bound_then 11 0); [apply adopt_poll_bound| |lia].
  intros [[r|]|e'|] y3 Ha; [by apply bound_gets, bound_ret|by apply bound_ret..|done].
Qed.

Lemma signFresh_bound cfg i addr y : bound 121 (signFresh cfg i addr) y.
Proof.
  unfold signFresh. eapply (bound_then 0 121); [apply retrieveAccount_bound| |lia].
  intros acct y1 Ha. destruct acct as [[accNum seq]|e|]; [|by apply bound_ret|done].
  repeat (case_match; [|by apply bound_ret]).
  apply bound_seq; [by intros y'|]. intros [] y2. case_match; [|apply broadcastAndPoll_bound].
  apply bound_seq; [apply queries_SaveTxMarker|].
  intros [[]|e] y3; [apply broadcastAndPoll_bound|by apply bound_ret].
Qed.

Lemma guardChainID_bound cfg c y : bound 0 (guardChainID cfg c) y.
Proof.
  unfold guardChainID. repeat (case_match; [by apply bound_ret|]). apply bound_call. intros y1 _ _.
  repeat (case_match; try by apply bound_ret).
Qed.

Lemma SignAndBroadcast_bound cfg (i : input) y : bound 133 (SignAndBroadcast cfg i) y.
Proof.
  unfold SignAndBroadcast, signAndBroadcast, try.
  destruct (cfg_Keyring cfg) as [key|]; [|by apply bound_ret].
  destruct (key (in_KeyName i)) as [addr|]; [|by apply bound_ret].
  destruct (contains _ _); [by apply bound_ret|]. destruct (validateInput _); [by apply bound_ret|].
  destruct (checkFeesDenom _); [by apply bound_ret|].
  eapply (bound_then 0 133); [apply guardChainID_bound| |lia].
  intros [[]|e|] y1 Hg; [|by apply bound_ret|done].
  case_match; [|eapply bound_weaken; [apply signFresh_bound|lia]].
  apply bound_seq; [apply queries_GetTxMarker|]. intros [[m|]|e] y2;
    [apply adoptMarker_bound|eapply bound_weaken; [apply signFresh_bound|lia]|by apply bound_ret].
Qed.
(** C31: a run always answers. On a clock that does not go back, a run that is
    not killed ends with a result or an error, whatever the node answers and
    however long it fails to, and looks the transaction up at most 133 times. *)
Theorem signing_terminates cfg (i : input) y :
  (SignAndBroadcast cfg i y).1 <> Some Hang /\
  y_queries (SignAndBroadcast cfg i y).2 <= 133 + y_queries y.
Proof. apply SignAndBroadcast_bound. Qed.
End SignTxProofs.

(** ** A concrete chain

    One account whose sequence the node reports, a node that includes what it
    is sent, and a clock that waits advance. *)
Record DemoNode := mkDemo { dn_clock : Z; dn_seq : Z; dn_included : option string }.

Definition demo_response (bytes : string) : TxResponse :=
  mkTxResponse "AB" 7 0 "" "" 10 9 "".

#[local] Instance demo_sdk : ChainSDK := {
  Msg := bool;
  ValidateBasic b := if b then None else Some "invalid";
  ParseCoinsNormalized s := if s =s "2000usei" then Ok [("usei", 2000%Z)] else Err "bad coins";
  BuildUnsignedTx i n s := Ok (in_ChainID i +:+ "/" +:+ pretty n +:+ "/" +:+ pretty s +:+ "/" +:+ in_Memo i);
  SignTx k u := Ok (k +:+ ":" +:+ u);
  EncodeTx s := Ok s;
  TxHashHex s := if s =s "" then "00" else "AB";
  TxMsgData _ := None;
  SubmitProposalResponse _ := None;
  UnicodeIsPrint _ := true;
}.

#[local] Instance demo_world : TxWorld DemoNode := {
  w_now := dn_clock;
  w_cancelled _ := false;
  w_wait d w := (false, mkDemo (dn_clock w + Z.max 0 d) (dn_seq w) (dn_included w));
  w_account _ w := (AcctOk 4 (dn_seq w), w);
  w_broadcast b w := (Ok (demo_response b), mkDemo (dn_clock w) (dn_seq w) (Some b));
  w_query h w := (match dn_included w with
                  | Some b => TxFound (demo_response b)
                  | None => TxRPCError ("tx (" +:+ h +:+ ") not found")
                  end, w);
  w_status w := (StNetwork "pacific-1", w);
  w_readMarker w := (None, w);
  w_saveMarker w := (SavedOk, w);
}.

#[local] Instance demo_world_laws : TxWorldLaws DemoNode.
Proof.
  split.
  - intros d w w' [= <-]. simpl. lia.
  - intros h w. simpl. lia.
  - intros a w. simpl. lia.
Qed.

Definition demo_cfg : ExecutionConfig :=
  mkConfig (Some (fun _ => Ok "sei1operator")) true true "pacific-1".
Definition demo_input : SignAndBroadcastInput Msg :=
  mkInput "pacific-1" "operator" (Some true) "2000usei" 200000 "vote" "t1".

(** The first process dies after its broadcast; when the second one runs, the
    account's sequence has moved on and the node knows nothing of the hash. *)
Definition demo_attempts : list (attempt (SDK := demo_sdk) (W := DemoNode)) :=
  [mkAttempt demo_cfg demo_input (mkDemo 0 11 None) (Some 5);
   mkAttempt demo_cfg demo_input (mkDemo 0 12 None) None].
Definition demo_y : Sys DemoNode Msg := run_attempts demo_attempts (mkSys (mkDemo 0 0 None) None ∅ [] [] []).
Definition demo_tx : string := "operator:pacific-1/4/11/vote taskID=t1".

Lemma no_double_sign_witness :
  y_sent demo_y = [("t1", demo_tx); ("t1", demo_tx)] /\
  demo_tx = demo_tx /\ exists m, y_markers demo_y !! "t1" = Some m /\ tm_TxBytes m = demo_tx.
Proof.
  assert (Hs : y_sent demo_y = [("t1", demo_tx); ("t1", demo_tx)]) by (vm_compute; reflexivity).
  split; [exact Hs|].
  apply (no_double_sign demo_attempts (mkDemo 0 0 None) None "t1" demo_tx demo_tx).
  - repeat constructor.
  - fold demo_y. rewrite Hs. by left.
  - fold demo_y. rewrite Hs. by left.
Defined.

(** A node that never includes the transaction: the run gives up after the
    queries the bound allows a fresh run. *)
Definition demo_silent : TxWorld DemoNode := {|
  w_now := dn_clock;
  w_cancelled _ := false;
  w_wait d w := (false, mkDemo (dn_clock w + Z.max 0 d) (dn_seq w) (dn_included w));
  w_account _ w := (AcctOk 4 (dn_seq w), w);
  w_broadcast b w := (Ok (demo_response b), w);
  w_query h w := (TxRPCError ("tx (" +:+ h +:+ ") not found"), w);
  w_status w := (StNetwork "pacific-1", w);
  w_readMarker w := (None, w);
  w_saveMarker w := (SavedOk, w);
|}.
Definition demo_silent_laws : TxWorldLaws DemoNode (TW := demo_silent).
Proof.
  split.
  - intros d w w' [= <-]. simpl. lia.
  - intros h w. simpl. lia.
  - intros a w. simpl. lia.
Qed.

Definition demo_start : Sys DemoNode Msg := mkSys (mkDemo 0 11 None) None ∅ [] [] [].
Lemma signing_terminates_witness :
  y_queries (SignAndBroadcast (TW := demo_silent) demo_cfg demo_input demo_start).2 = 121 /\
  (SignAndBroadcast (TW := demo_silent) demo_cfg demo_input demo_start).1 <> Some Hang.
Proof.
  split; [vm_compute; reflexivity|].
  apply (signing_terminates (TW := demo_silent) (TWL := demo_silent_laws) demo_cfg demo_input demo_start).
Defined.
