(* ===== verification/GovTasks.v ===== *)
(** * The sign-tx tasks (src/sidecar/tasks/gov_vote.go, gov_software_upgrade.go,
      gov_param_change.go, gov_update_instantiate_config.go, unjail.go,
      gov_result.go)

    Each handler builds its message, runs the shared signing cycle of SignTx
    and maps the result to the completion contract. A vote and an unjail whose
    inclusion cannot be looked up are settled from chain state; an unjail is
    refused unless the chain would accept it. *)

From stdpp Require Import base list strings gmap pretty.
From Stdlib Require Import ZArith Lia.
From S2P Require Import Prelude Config SignTx.

(** ** Texts *)

(** [Time.UTC().Format(time.RFC3339)] of a time in seconds since 1970. *)
Fixpoint padded (w : nat) (n : Z) : string :=
  match w with
  | O => ""
  | S w' => padded w' (n / 10) +:+ String (Ascii.ascii_of_nat (48 + Z.to_nat (n mod 10))) ""
  end.
Definition civil (days : Z) : Z * Z * Z :=
  let z := (days + 719468)%Z in
  let era := (z / 146097)%Z in
  let doe := (z - era * 146097)%Z in
  let yoe := ((doe - doe / 1460 + doe / 36524 - doe / 146096) / 365)%Z in
  let doy := (doe - (365 * yoe + yoe / 4 - yoe / 100))%Z in
  let mp := ((5 * doy + 2) / 153)%Z in
  let m := (if mp <? 10 then mp + 3 else mp - 9)%Z in
  (yoe + era * 400 + (if m <=? 2 then 1 else 0), m, doy - (153 * mp + 2) / 5 + 1)%Z.
Definition RFC3339 (t : Z) : string :=
  let '(y, m, d) := civil (t / 86400) in
  let s := (t mod 86400)%Z in
  padded 4 y +:+ "-" +:+ padded 2 m +:+ "-" +:+ padded 2 d +:+ "T" +:+
  padded 2 (s / 3600) +:+ ":" +:+ padded 2 (s / 60 mod 60) +:+ ":" +:+ padded 2 (s mod 60) +:+ "Z".

(** ** The wire contract (src/sidecarapi/wire/wire.go) *)
Definition OptionYes : Z := 1.
Definition OptionAbstain : Z := 2.
Definition OptionNo : Z := 3.
Definition OptionNoWithVeto : Z := 4.

Definition ParseVoteOption (s : string) : result Z :=
  let l := ToLower s in
  if l =s "yes" then Ok OptionYes
  else if l =s "no" then Ok OptionNo
  else if l =s "abstain" then Ok OptionAbstain
  else if (l =s "no_with_veto") || (l =s "no-with-veto") then Ok OptionNoWithVeto
  else Err ("invalid vote option " +:+ quote s +:+ " (allowed: yes | no | abstain | no_with_veto)").

Definition InclusionCommittedOK := "committed_ok".
Definition InclusionCommittedFailed := "committed_failed".
Definition InclusionPending := "pending".
Definition InclusionUnverifiable := "unverifiable".

Record GovTxResult := mkGovTxResult {
  gr_TxHash : string;
  gr_Height : Z;
  gr_ProposalID : Z;
  gr_Code : Z;
  gr_Codespace : string;
  gr_RawLog : string;
  gr_InclusionStatus : string;
}.

(** ** The completion contract *)

(** The result and the error that goes with it; no error completes the task. *)
Definition classifyGovResult (r : SignAndBroadcastResult) : GovTxResult * option tx_error :=
  let out := mkGovTxResult (sr_TxHash r) (sr_Height r) (sr_ProposalID r) (sr_Code r)
               (sr_Codespace r) (sr_RawLog r) in
  if sr_Unverifiable r then
    (out InclusionUnverifiable,
     Some (mkTxError ("tx " +:+ sr_TxHash r +:+ " inclusion unverifiable: " +:+ errTxIndexingDisabled)
             true true false))
  else match sr_IncludedAt r with
  | None =>
      (out InclusionPending,
       Some (plainErr ("tx " +:+ sr_TxHash r +:+ " inclusion undetermined; re-check pending")))
  | Some _ =>
      if negb (sr_Code r =? 0)%Z then
        (out InclusionCommittedFailed,
         Some (Terminal ("tx " +:+ sr_TxHash r +:+ " committed but failed: code=" +:+ pretty (sr_Code r)
                         +:+ " codespace=" +:+ quote (sr_Codespace r) +:+ " log=" +:+ sr_RawLog r)))
      else (out InclusionCommittedOK, None)
  end.

Definition requireProposalID (out : GovTxResult) (cerr : option tx_error) : option tx_error :=
  match cerr with
  | None =>
      if (gr_InclusionStatus out =s InclusionCommittedOK) && (gr_ProposalID out =? 0)%Z
      then Some (Terminal ("tx " +:+ gr_TxHash out +:+ " committed but minted no proposal ID (parse failure)"))
      else None
  | Some e => Some e
  end.

(** ** Proposals and messages of the chain SDK *)
Inductive AccessConfig := AllowNobody | AllowEverybody | OnlyAddress (addr : string).
Inductive Content :=
| SoftwareUpgradeProposal (title description name : string) (height : Z) (info : string)
| ParameterChangeProposal (title description : string) (changes : list (string * string * string))
    (isExpedited : bool)
| UpdateInstantiateConfigProposal (title description : string) (updates : list (Z * AccessConfig)).

(** A staking validator as the unjail check reads it; [va_ConsAddr] is the
    consensus address, once its key is unpacked. Shares and [Dec]s are in units
    of 10^-18. *)
Record Validator := mkValidator {
  va_Jailed : bool;
  va_MinSelfDelegation : Z;
  va_DelegatorShares : Z;
  va_Unpack : option string;
  va_ConsAddr : result string;
}.

Class GovSDK {SDK : ChainSDK} := {
  NewMsgVote : string -> Z -> Z -> Msg;
  NewMsgUnjail : string -> Msg;
  NewMsgSubmitProposal : Content -> list (string * Z) -> string -> result Msg;
  Content_ValidateBasic : Content -> option string;
  AccAddressFromBech32 : string -> result string;
  TokensFromShares : Validator -> Z -> Z;
}.

(** A failed query: whether its gRPC code is [NotFound], and its text. *)
Record query_error := mkQueryError { qe_notFound : bool; qe_text : string }.
Definition isQueryNotFound (e : query_error) (msgFragment : string) : bool :=
  qe_notFound e || contains (qe_text e) msgFragment.

(** The reads that settle a task from state. [w_interrupted] is the [select] of
    a read with the context; [w_waitUntil] a wait under a context that ends at
    its deadline, [true] when it ended. *)
Class GovWorld (W : Type) := {
  w_syncInfo : W -> result (bool * Z) * W;
  w_vote : Z -> string -> W -> result (list (Z * Z)) * W;
  w_validator : string -> W -> (Validator + query_error) * W;
  w_delegation : string -> W -> (option Z + query_error) * W;
  w_signingInfo : string -> W -> ((bool * Z) + query_error) * W;
  w_interrupted : W -> option string * W;
  w_waitUntil : Z -> Z -> W -> bool * W;
}.

(** The clock never goes back; a wait that is not cut short lasts, and a
    context past its deadline cuts any wait short. *)
Class GovWorldLaws (W : Type) {TW : TxWorld W} {GW : GovWorld W} : Prop := {
  syncInfo_clock w : (w_now w <= w_now (w_syncInfo w).2)%Z;
  vote_clock p a w : (w_now w <= w_now (w_vote p a w).2)%Z;
  validator_clock a w : (w_now w <= w_now (w_validator a w).2)%Z;
  delegation_clock a w : (w_now w <= w_now (w_delegation a w).2)%Z;
  signingInfo_clock a w : (w_now w <= w_now (w_signingInfo a w).2)%Z;
  interrupted_clock w : (w_now w <= w_now (w_interrupted w).2)%Z;
  waitUntil_lasts t d w w' : w_waitUntil t d w = (false, w') -> (w_now w + d <= w_now w')%Z;
  waitUntil_ended t d w : (0 < d)%Z -> (t <= w_now w)%Z -> (w_waitUntil t d w).1 = true;
}.

(** ** The handlers *)
Section GovTasks.
Context {SDK : ChainSDK} {GS : GovSDK} {W : Type} {TW : TxWorld W} {GW : GovWorld W}.
Abbreviation P := (proc W Msg).
Abbreviation sys := (Sys W Msg).

(** What a handler returns: the result with the error of the contract, or only
    an error. *)
Abbreviation handled := (outcome (GovTxResult * option tx_error)).

Definition keyringErr := "keyring not configured: set SEI_KEYRING_BACKEND/SEI_KEYRING_PASSPHRASE on the sidecar".

(** The signer's address, or the terminal error the handlers return. *)
Definition keyAddress (cfg : ExecutionConfig) (keyName : string) : string + tx_error :=
  match cfg_Keyring cfg with
  | None => inr (Terminal keyringErr)
  | Some key =>
      if keyName =s "" then inr (Terminal "keyName required")
      else match key keyName with
      | Err e => inr (Terminal ("keyring entry " +:+ quote keyName +:+ ": " +:+ e))
      | Ok addr => inl addr
      end
  end.

(** *** Votes *)
Record GovVoteRequest := mkGovVoteRequest {
  gv_ChainID : string;
  gv_KeyName : string;
  gv_ProposalID : Z;
  gv_Option : string;
  gv_Memo : string;
  gv_Fees : string;
  gv_Gas : Z;
}.

(** [MsgVote] *)
Record MsgVote := mkMsgVote { mv_ProposalId : Z; mv_Voter : string; mv_Option : Z }.

Definition buildVoteMsg (cfg : ExecutionConfig) (p : GovVoteRequest) : MsgVote + tx_error :=
  if (gv_ProposalID p =? 0)%Z then inr (Terminal "proposalId required (must be > 0)")
  else match ParseVoteOption (gv_Option p) with
  | Err e => inr (Terminal e)
  | Ok option =>
      match keyAddress cfg (gv_KeyName p) with
      | inr e => inr e
      | inl addr => inl (mkMsgVote (gv_ProposalID p) addr option)
      end
  end.

Definition confirmWait : Z := 30 * seconds.
Definition confirmEvery : Z := seconds.
Definition OneDec : Z := 10 ^ 18.

Definition voteHasOption (v : list (Z * Z)) (option : Z) : bool :=
  match v with
  | [(o, weight)] => (o =? option)%Z && (weight =? OneDec)%Z
  | _ => false
  end.

Definition readVoteState (proposalID : Z) (voter : string) : P (result (list (Z * Z))) :=
  s ← call w_syncInfo;
  match s with
  | Err e => mret (Err ("query local seid /status: " +:+ e))
  | Ok (catchingUp, _) =>
      if catchingUp : bool then mret (Err "local seid is catching up, so its vote record may be stale")
      else
        r ← call (w_vote proposalID voter);
        match r with
        | Err e => mret (Err e)
        | Ok v => observe (EvVote proposalID voter v);; mret (Ok v)
        end
  end.

(** A read runs in a goroutine; the context's end returns at once. *)
Definition interruptible {A} (m : P (result A)) : P (result A) :=
  ended ← call w_interrupted;
  match ended with Some e => mret (Err e) | None => m end.

Definition chainVote (proposalID : Z) (voter : string) : P (result (list (Z * Z))) :=
  interruptible (readVoteState proposalID voter).

(** The confirmation loop of [votedAfter] and [releasedAfter]: read until the
    test passes or the context, which ends at [deadline], does. *)
Fixpoint confirmLoop {A} (fuel : nat) (read : P (result A)) (test : A -> bool) (deadline : Z)
  : P (outcome bool) :=
  match fuel with
  | O => mret Hang
  | S fuel' =>
      r ← read;
      if match r with Ok a => test a | Err _ => false end then mret (Done true)
      else
        ended ← call (w_waitUntil deadline confirmEvery);
        if ended : bool then mret (Done false) else confirmLoop fuel' read test deadline
  end.

Definition confirm_fuel : nat := S (Z.to_nat (confirmWait / confirmEvery)).
Definition confirm {A} (read : P (result A)) (test : A -> bool) : P (outcome bool) :=
  t ← now; confirmLoop confirm_fuel read test (t + confirmWait)%Z.

Definition votedAfter (msg : MsgVote) : P (outcome bool) :=
  match AccAddressFromBech32 (mv_Voter msg) with
  | Err _ => mret (Done false)
  | Ok voter => confirm (chainVote (mv_ProposalId msg) voter) (fun v => voteHasOption v (mv_Option msg))
  end.

(** The end of the vote and unjail handlers: an unverifiable result is settled
    by [byState]. *)
Definition settle (r : SignAndBroadcastResult) (byState : P (outcome bool)) : P handled :=
  let '(out, cerr) := classifyGovResult r in
  if sr_Unverifiable r then
    b ← byState;
    match b with
    | Done true => mret (Done (out, None))
    | Done false => mret (Done (out, cerr))
    | Fail e => mret (Fail e)
    | Hang => mret Hang
    end
  else mret (Done (out, cerr)).

Definition GovVoter_Handler (cfg : ExecutionConfig) (taskID : string) (p : GovVoteRequest) : P handled :=
  match buildVoteMsg cfg p with
  | inr e => mret (Fail e)
  | inl msg =>
      try (SignAndBroadcast cfg (mkInput (gv_ChainID p) (gv_KeyName p)
             (Some (NewMsgVote (mv_Voter msg) (mv_ProposalId msg) (mv_Option msg)))
             (gv_Fees p) (gv_Gas p) (gv_Memo p) taskID))
        (fun r => settle r (votedAfter msg))
  end.

(** *** Proposals *)

(** The deposit the three proposal handlers parse. *)
Definition parseDeposit (text : string) : list (string * Z) + tx_error :=
  match ParseCoinsNormalized text with
  | Err e => inr (Terminal ("parse initialDeposit " +:+ quote text +:+ ": " +:+ e))
  | Ok [] => inr (Terminal ("initialDeposit " +:+ quote text +:+ " resolves to zero coins"))
  | Ok deposit =>
      match checkCoinsDenom "initialDeposit" text deposit with
      | Some e => inr (Terminal e)
      | None => inl deposit
      end
  end.

(** The signer, the deposit and the message, in the order of the handlers. *)
Definition buildProposal (key : string -> result string) (keyName depositText : string)
    (mk : Content + tx_error) : Msg + tx_error :=
  match key keyName with
  | Err e => inr (Terminal ("keyring entry " +:+ quote keyName +:+ ": " +:+ e))
  | Ok addr =>
      match parseDeposit depositText with
      | inr e => inr e
      | inl deposit =>
          match mk with
          | inr e => inr e
          | inl content =>
              match NewMsgSubmitProposal content deposit addr with
              | Err e => inr (Terminal ("build MsgSubmitProposal: " +:+ e))
              | Ok m => inl m
              end
          end
      end
  end.

Record GovSoftwareUpgradeRequest := mkGovSoftwareUpgradeRequest {
  su_ChainID : string;
  su_KeyName : string;
  su_Title : string;
  su_Description : string;
  su_UpgradeName : string;
  su_UpgradeHeight : Z;
  su_UpgradeInfo : string;
  su_InitialDeposit : string;
  su_Memo : string;
  su_Fees : string;
  su_Gas : Z;
}.

Definition buildSoftwareUpgradeMsg (cfg : ExecutionConfig) (p : GovSoftwareUpgradeRequest) : Msg + tx_error :=
  match cfg_Keyring cfg with
  | None => inr (Terminal keyringErr)
  | Some key =>
      if su_KeyName p =s "" then inr (Terminal "keyName required")
      else if su_Title p =s "" then inr (Terminal "title required")
      else if su_Description p =s "" then inr (Terminal "description required")
      else if su_UpgradeName p =s "" then inr (Terminal "upgradeName required")
      else if (su_UpgradeHeight p <=? 0)%Z then inr (Terminal "upgradeHeight required (must be > 0)")
      else buildProposal key (su_KeyName p) (su_InitialDeposit p)
             (inl (SoftwareUpgradeProposal (su_Title p) (su_Description p) (su_UpgradeName p)
                     (su_UpgradeHeight p) (su_UpgradeInfo p)))
  end.

Record paramChange := mkParamChange { pc_Subspace : string; pc_Key : string; pc_Value : string }.
Record GovParamChangeRequest := mkGovParamChangeRequest {
  pr_ChainID : string;
  pr_KeyName : string;
  pr_Title : string;
  pr_Description : string;
  pr_Changes : list paramChange;
  pr_InitialDeposit : string;
  pr_Memo : string;
  pr_Fees : string;
  pr_Gas : Z;
}.

(** The checks of the loop over [changes], from index [i]. *)
Fixpoint checkChanges (i : nat) (l : list paramChange) : option string :=
  match l with
  | [] => None
  | c :: l' =>
      let at_ f := Some ("changes[" +:+ pretty i +:+ "]." +:+ f +:+ " required") in
      if pc_Subspace c =s "" then at_ "subspace"
      else if pc_Key c =s "" then at_ "key"
      else if pc_Value c =s "" then at_ "value"
      else checkChanges (S i) l'
  end.

Definition buildParamChangeMsg (cfg : ExecutionConfig) (p : GovParamChangeRequest) : Msg + tx_error :=
  match cfg_Keyring cfg with
  | None => inr (Terminal keyringErr)
  | Some key =>
      if pr_KeyName p =s "" then inr (Terminal "keyName required")
      else if pr_Title p =s "" then inr (Terminal "title required")
      else if pr_Description p =s "" then inr (Terminal "description required")
      else match pr_Changes p with
      | [] => inr (Terminal "at least one change required")
      | _ =>
          match checkChanges 0 (pr_Changes p) with
          | Some e => inr (Terminal e)
          | None => buildProposal key (pr_KeyName p) (pr_InitialDeposit p)
              (inl (ParameterChangeProposal (pr_Title p) (pr_Description p)
                      (map (fun c => (pc_Subspace c, pc_Key c, pc_Value c)) (pr_Changes p)) false))
          end
      end
  end.

Record GovUpdateInstantiateConfigRequest := mkGovUpdateInstantiateConfigRequest {
  ui_ChainID : string;
  ui_KeyName : string;
  ui_Title : string;
  ui_Description : string;
  ui_Updates : list (Z * string);
  ui_InitialDeposit : string;
  ui_Memo : string;
  ui_Fees : string;
  ui_Gas : Z;
}.

Definition parseInstantiatePermission (raw : string) : result AccessConfig :=
  if raw =s "nobody" then Ok AllowNobody
  else if raw =s "everybody" then Ok AllowEverybody
  else if raw =s "" then Err "permission required"
  else match AccAddressFromBech32 raw with
  | Err e => Err ("must be nobody, everybody, or a sei account address: " +:+ e)
  | Ok addr => Ok (OnlyAddress addr)
  end.

(** The loop over [updates] from index [i], with the code ids seen so far. *)
Fixpoint parseUpdates (i : nat) (seen : gset Z) (l : list (Z * string)) : result (list (Z * AccessConfig)) :=
  match l with
  | [] => Ok []
  | (codeID, raw) :: l' =>
      if (codeID =? 0)%Z then Err ("updates[" +:+ pretty i +:+ "].codeId required (must be > 0)")
      else if bool_decide (codeID ∈ seen) then Err ("duplicate codeId " +:+ pretty codeID)
      else match parseInstantiatePermission raw with
      | Err e => Err ("updates[" +:+ pretty i +:+ "].permission: " +:+ e)
      | Ok perm => rest ← parseUpdates (S i) ({[codeID]} ∪ seen) l'; Ok ((codeID, perm) :: rest)
      end
  end.

Definition buildGovUpdateInstantiateConfigMsg (cfg : ExecutionConfig) (p : GovUpdateInstantiateConfigRequest)
  : Msg + tx_error :=
  match cfg_Keyring cfg with
  | None => inr (Terminal keyringErr)
  | Some key =>
      if ui_KeyName p =s "" then inr (Terminal "keyName required")
      else if ui_Title p =s "" then inr (Terminal "title required")
      else if ui_Description p =s "" then inr (Terminal "description required")
      else match ui_Updates p with
      | [] => inr (Terminal "at least one update required")
      | _ =>
          match parseUpdates 0 ∅ (ui_Updates p) with
          | Err e => inr (Terminal e)
          | Ok updates =>
              let content := UpdateInstantiateConfigProposal (ui_Title p) (ui_Description p) updates in
              buildProposal key (ui_KeyName p) (ui_InitialDeposit p)
                (match Content_ValidateBasic content with
                 | Some e => inr (Terminal ("validate UpdateInstantiateConfigProposal: " +:+ e))
                 | None => inl content
                 end)
          end
      end
  end.

(** The body the proposal handlers share. *)
Definition proposalHandler (cfg : ExecutionConfig) (taskID chainID keyName fees : string) (gas : Z)
    (memo : string) (msg : Msg + tx_error) : P handled :=
  match msg with
  | inr e => mret (Fail e)
  | inl m =>
      try (SignAndBroadcast cfg (mkInput chainID keyName (Some m) fees gas memo taskID))
        (fun r => let '(out, cerr) := classifyGovResult r in
                  mret (Done (out, requireProposalID out cerr)))
  end.

Definition GovSoftwareUpgrader_Handler cfg taskID (p : GovSoftwareUpgradeRequest) : P handled :=
  proposalHandler cfg taskID (su_ChainID p) (su_KeyName p) (su_Fees p) (su_Gas p) (su_Memo p)
    (buildSoftwareUpgradeMsg cfg p).
Definition GovParamChanger_Handler cfg taskID (p : GovParamChangeRequest) : P handled :=
  proposalHandler cfg taskID (pr_ChainID p) (pr_KeyName p) (pr_Fees p) (pr_Gas p) (pr_Memo p)
    (buildParamChangeMsg cfg p).
Definition GovInstantiateConfigUpdater_Handler cfg taskID (p : GovUpdateInstantiateConfigRequest) : P handled :=
  proposalHandler cfg taskID (ui_ChainID p) (ui_KeyName p) (ui_Fees p) (ui_Gas p) (ui_Memo p)
    (buildGovUpdateInstantiateConfigMsg cfg p).

(** *** Unjail *)
Record UnjailRequest := mkUnjailRequest {
  uj_ChainID : string;
  uj_KeyName : string;
  uj_Memo : string;
  uj_Fees : string;
  uj_Gas : Z;
}.

(** [selfBondTokens]: shares converted by the SDK and truncated. *)
Definition selfBondTokens (v : Validator) (shares : Z) : Z :=
  if (va_DelegatorShares v =? 0)%Z then 0%Z else Z.quot (TokensFromShares v shares) OneDec.

(** The Go zero time, 1 January of the year 1. *)
Definition zeroTime : Z := -62135596800.

(** The error of a read: [errNoValidator] or another one. *)
Inductive jail_error := NoValidator | JailErr (e : string).

Definition readJailState (valAddr : string) : P (jailState + jail_error) :=
  s ← call w_syncInfo;
  match s with
  | Err e => mret (inr (JailErr ("query local seid /status: " +:+ e)))
  | Ok (catchingUp, blockTime) =>
      if catchingUp : bool then mret (inl (mkJailState true blockTime false 0 0 false false zeroTime))
      else
        vres ← call (w_validator valAddr);
        match vres with
        | inr e =>
            if isQueryNotFound e (valAddr +:+ " not found") then mret (inr NoValidator)
            else mret (inr (JailErr ("query validator: " +:+ qe_text e)))
        | inl v =>
            dres ← call (w_delegation valAddr);
            let rest (has : bool) (bond : Z) : P (jailState + jail_error) :=
              let st := mkJailState false blockTime has bond (va_MinSelfDelegation v) (va_Jailed v) in
              if negb (va_Jailed v) then mret (inl (st false zeroTime))
              else match va_Unpack v with
              | Some e => mret (inr (JailErr ("unpack validator consensus key: " +:+ e)))
              | None =>
                  match va_ConsAddr v with
                  | Err e => mret (inr (JailErr ("validator consensus address: " +:+ e)))
                  | Ok consAddr =>
                      sres ← call (w_signingInfo consAddr);
                      match sres with
                      | inl (tombstoned, until) => mret (inl (st tombstoned until))
                      | inr e =>
                          if isQueryNotFound e "SigningInfo not found" then mret (inl (st false zeroTime))
                          else mret (inr (JailErr ("query signing info: " +:+ qe_text e)))
                      end
                  end
              end in
            match dres with
            | inl (Some shares) => rest true (selfBondTokens v shares)
            | inl None => rest false 0%Z
            | inr e =>
                if isQueryNotFound e ("not found for validator " +:+ valAddr) then rest false 0%Z
                else mret (inr (JailErr ("query self-delegation: " +:+ qe_text e)))
            end
        end
  end.

(** [chainJailState], with what it read on record. *)
Definition chainJailState (valAddr : string) : P (jailState + jail_error) :=
  ended ← call w_interrupted;
  match ended with
  | Some e => mret (inr (JailErr e))
  | None =>
      r ← readJailState valAddr;
      match r with
      | inl st => observe (EvJail valAddr st);; mret (inl st)
      | inr e => mret (inr e)
      end
  end.

(** The cases of [checkJailed] once the state was read, in the keeper's order. *)
Definition jailVerdict (valAddr : string) (st : jailState) : option tx_error :=
  let v := "validator " +:+ valAddr in
  if js_CatchingUp st then
    Some (plainErr ("local seid is catching up, so its jail state for " +:+ valAddr
                    +:+ " may be stale; retry when it is caught up"))
  else if negb (js_HasSelfDelegation st) then
    Some (Terminal (v +:+ " has no self-delegation; the chain rejects its unjail (ErrMissingSelfDelegation)"))
  else if (js_SelfBond st <? js_MinSelfBond st)%Z then
    Some (Terminal (v +:+ " self-delegation " +:+ pretty (js_SelfBond st) +:+ " is below its min self-delegation "
                    +:+ pretty (js_MinSelfBond st)
                    +:+ "; the chain rejects its unjail (ErrSelfDelegationTooLowToUnjail)"))
  else if negb (js_Jailed st) then
    Some (Terminal (v +:+ " is not jailed; refusing to spend a fee on an unjail"))
  else if js_Tombstoned st then
    Some (Terminal (v +:+ " is tombstoned; an unjail cannot release it"))
  else if (js_BlockTime st <? js_JailedUntil st)%Z then
    Some (Terminal (v +:+ " stays jailed until " +:+ RFC3339 (js_JailedUntil st)
                    +:+ "; the latest block time is " +:+ RFC3339 (js_BlockTime st)))
  else None.

Definition checkJailed (valAddr : string) : P (option tx_error) :=
  r ← chainJailState valAddr;
  match r with
  | inr NoValidator =>
      mret (Some (Terminal ("operator account has no validator " +:+ valAddr
                            +:+ ": unjail applies only to a validator")))
  | inr (JailErr e) => mret (Some (plainErr ("read jail state of " +:+ valAddr +:+ ": " +:+ e)))
  | inl st => mret (jailVerdict valAddr st)
  end.

(** The operator's validator address has the bytes of its account address. *)
Definition operatorValAddr (cfg : ExecutionConfig) (keyName : string) : string + tx_error :=
  keyAddress cfg keyName.

Definition hasTxMarker (cfg : ExecutionConfig) (taskID : string) : P (result bool) :=
  if negb (cfg_Checkpointer cfg) || (taskID =s "") then mret (Ok false)
  else
    got ← GetTxMarker taskID;
    match got with
    | Err e => mret (Err ("read tx marker: " +:+ e))
    | Ok (Some _) => mret (Ok true)
    | Ok None => mret (Ok false)
    end.

Definition jail_result (r : jailState + jail_error) : result jailState :=
  match r with
  | inl st => Ok st
  | inr NoValidator => Err "no validator for this operator account"
  | inr (JailErr e) => Err e
  end.
Definition released (st : jailState) : bool := negb (js_CatchingUp st) && negb (js_Jailed st).
Definition releasedAfter (valAddr : string) : P (outcome bool) :=
  confirm (r ← chainJailState valAddr;
           mret (jail_result r)) released.

Definition unjailInput (taskID : string) (p : UnjailRequest) (valAddr : string) : SignAndBroadcastInput Msg :=
  mkInput (uj_ChainID p) (uj_KeyName p) (Some (NewMsgUnjail valAddr)) (uj_Fees p) (uj_Gas p) (uj_Memo p) taskID.

Definition Unjailer_Handler (cfg : ExecutionConfig) (taskID : string) (p : UnjailRequest) : P handled :=
  match operatorValAddr cfg (uj_KeyName p) with
  | inr e => mret (Fail e)
  | inl valAddr =>
      m ← hasTxMarker cfg taskID;
      match m with
      | Err e => mret (Fail (plainErr e))
      | Ok adopting =>
          refused ← (if adopting : bool then (mret None : P (option tx_error)) else checkJailed valAddr);
          match refused with
          | Some e => mret (Fail e)
          | None =>
              try (SignAndBroadcast cfg (unjailInput taskID p valAddr))
                (fun r => settle r (releasedAfter valAddr))
          end
      end
  end.

(** ** Evidence: what a run read *)

Definition grows (y y' : sys) : Prop := exists new, y_log y' = new ++ y_log y.
Definition growing {A} (m : P A) : Prop := forall y, grows y (m y).2.
(** The event was read between the two states. *)
Definition since (y y' : sys) (ev : event) : Prop := exists new, y_log y' = new ++ y_log y /\ In ev new.

Lemma grows_refl y : grows y y.
Proof. by exists []. Qed.
Lemma grows_trans y1 y2 y3 : grows y1 y2 -> grows y2 y3 -> grows y1 y3.
Proof. intros [n1 H1] [n2 H2]. exists (n2 ++ n1). by rewrite H2, H1, app_assoc. Qed.
Lemma since_after y1 y2 y3 ev : since y1 y2 ev -> grows y2 y3 -> since y1 y3 ev.
Proof.
  intros (n1 & H1 & Hi) [n2 H2]. exists (n2 ++ n1). rewrite H2, H1, app_assoc. split; [done|].
  apply in_app_iff. by right.
Qed.
Lemma since_before y1 y2 y3 ev : grows y1 y2 -> since y2 y3 ev -> since y1 y3 ev.
Proof.
  intros [n1 H1] (n2 & H2 & Hi). exists (n2 ++ n1). rewrite H2, H1, app_assoc. split; [done|].
  apply in_app_iff. by left.
Qed.

Lemma growing_ret {A} (a : A) : growing (mret a).
Proof. intros y. apply grows_refl. Qed.
Lemma growing_gets {A} (f : sys -> A) : growing (gets f).
Proof. intros y. apply grows_refl. Qed.
Lemma growing_call {A} (f : W -> A * W) : growing (call f).
Proof.
  intros y. unfold call. destruct (y_life y) as [[|k]|]; [apply grows_refl|..];
    destruct (f (y_world y)); by exists [].
Qed.
Lemma growing_observe e : growing (observe e).
Proof. intros y. by exists [e]. Qed.
Lemma growing_bind {A B} (m : P A) (f : A -> P B) :
  growing m -> (forall a, growing (f a)) -> growing (m ≫= f).
Proof.
  intros Hm Hf y. specialize (Hm y).
  destruct (bind_cases m f y) as [(y1 & E & ->)|(a & y1 & E & ->)]; rewrite E in Hm; simpl in *; [done|].
  eapply grows_trans; [exact Hm|apply Hf].
Qed.
Lemma growing_run {A} (m : P A) y a y' : growing m -> m y = (Some a, y') -> grows y y'.
Proof. intros Hm E. specialize (Hm y). by rewrite E in Hm. Qed.
Lemma growing_BroadcastSync t b : growing (BroadcastSync t b).
Proof.
  intros y. unfold BroadcastSync. destruct (y_life y) as [[|k]|]; [apply grows_refl|..];
    destruct (w_broadcast b (y_world y)); by exists [].
Qed.
Lemma growing_modify_markers (f : sys -> sys) : (forall y, y_log (f y) = y_log y) -> growing (modify f).
Proof. intros Hf y. exists []. apply Hf. Qed.

Ltac growing_step :=
  match goal with
  | |- growing (mret _) => apply growing_ret
  | |- growing (call _) => apply growing_call
  | |- growing (gets _) => apply growing_gets
  | |- growing now => apply growing_gets
  | |- growing cancelled => apply growing_gets
  | |- growing (observe _) => apply growing_observe
  | |- growing (BroadcastSync _ _) => apply growing_BroadcastSync
  | |- growing (modify _) => apply growing_modify_markers; done
  | |- growing (recordSigned _ _) => apply growing_modify_markers; done
  | |- growing (QueryTx _) => unfold QueryTx
  | |- growing (GetTxMarker _) => unfold GetTxMarker
  | |- growing (SaveTxMarker _) => unfold SaveTxMarker
  | |- growing (guardChainID _ _) => unfold guardChainID
  | |- growing (let _ := _ in _) => cbv zeta
  | |- growing (_ ≫= _) => apply growing_bind; [|intros ?]
  | |- growing (match ?x with _ => _ end) => destruct x
  end.

Lemma growing_pollLoop fuel h d i : growing (pollLoop fuel h d i).
Proof. induction fuel as [|fuel IH]; simpl; repeat (growing_step || apply IH). Qed.
Lemma growing_pollForInclusion h t i : growing (pollForInclusion h t i).
Proof. unfold pollForInclusion. repeat (growing_step || apply growing_pollLoop). Qed.
Lemma growing_accountLoop fuel a d : growing (accountLoop fuel a d).
Proof. induction fuel as [|fuel IH]; simpl; repeat (growing_step || apply IH). Qed.
Lemma growing_broadcastAndPoll t b h n q c : growing (broadcastAndPoll t b h n q c).
Proof. unfold broadcastAndPoll. repeat (growing_step || apply growing_pollForInclusion). Qed.
Lemma growing_adoptMarker m : growing (adoptMarker m).
Proof.
  unfold adoptMarker. repeat (growing_step || apply growing_pollForInclusion || apply growing_broadcastAndPoll).
Qed.
Lemma growing_signFresh cfg i a : growing (signFresh cfg i a).
Proof.
  unfold signFresh, retrieveAccount.
  repeat (growing_step || apply growing_accountLoop || apply growing_broadcastAndPoll).
Qed.
Lemma growing_SignAndBroadcast cfg i : growing (SignAndBroadcast cfg i).
Proof.
  unfold SignAndBroadcast, signAndBroadcast, try.
  repeat (growing_step || apply growing_adoptMarker || apply growing_signFresh).
Qed.

(** Take the first step of a run apart. *)
Ltac step H a y1 E := apply bind_inv in H as (a & y1 & E & H).

(** A result that reports an inclusion repeats what a query of the run found. *)
Definition backed (r : SignAndBroadcastResult) (y y' : sys) : Prop :=
  sr_IncludedAt r <> None -> exists h resp, since y y' (EvQuery h (QFound resp)) /\
    sr_TxHash r = rs_TxHash resp /\ sr_Code r = rs_Code resp /\ sr_ProposalID r = parseProposalID resp.

Lemma growing_QueryTx h : growing (QueryTx h).
Proof. repeat growing_step. Qed.
Lemma QueryTx_since h y r y' : QueryTx h y = (Some (QFound r), y') -> since y y' (EvQuery h (QFound r)).
Proof.
  unfold QueryTx. destruct (negb (isHex h)); [done|]. intros (a & y1 & E & H)%bind_inv. step H u y2 E2.
  apply growing_run in E; [|apply growing_call]. injection E2 as _ <-. injection H as -> <-.
  eapply since_before; [exact E|]. eexists [_]. split; [reflexivity|by left].
Qed.

Lemma pollLoop_found fuel h d i y r y' :
  pollLoop fuel h d i y = (Some (Done (Some r)), y') -> since y y' (EvQuery h (QFound r)).
Proof.
  revert y. induction fuel as [|fuel IH]; intros y; [done|]. cbn [pollLoop].
  intros (c & y1 & E1 & H)%bind_inv. injection E1 as <- <-. case_match; [done|].
  apply bind_inv in H as (t & y1 & E1 & H). injection E1 as <- <-. case_match; [done|].
  apply bind_inv in H as (q & y1 & E1 & H). pose proof (growing_run _ _ _ _ (growing_QueryTx h) E1) as Hg.
  destruct q as [r'| | |]; [injection H as -> ->; by apply QueryTx_since| |done|].
  all: apply bind_inv in H as (ended & y2 & E2 & H); destruct ended; [done|];
    apply IH in H; eapply since_before; [exact Hg|];
    (eapply since_before; [eapply growing_run; [apply growing_call|exact E2]|exact H]).
Qed.
Lemma pollForInclusion_found h t i y r y' :
  pollForInclusion h t i y = (Some (Done (Some r)), y') -> since y y' (EvQuery h (QFound r)).
Proof. intros (d & y1 & E1 & H)%bind_inv. injection E1 as <- <-. by eapply pollLoop_found. Qed.

Lemma backed_intro h resp n q c t i y y' :
  since y y' (EvQuery h (QFound resp)) -> backed (resultFromTxResponse resp n q c t i) y y'.
Proof. intros H _. by exists h, resp. Qed.
Lemma backed_none r y y' : sr_IncludedAt r = None -> backed r y y'.
Proof. by intros Hr Hi. Qed.
Lemma backed_before r y1 y2 y3 : grows y1 y2 -> backed r y2 y3 -> backed r y1 y3.
Proof. intros Hg Hb Hi. destruct (Hb Hi) as (h & resp & Hs & He). exists h, resp. split; [by eapply since_before|done]. Qed.


Lemma broadcastAndPoll_backed t b h n q c y r y' :
  broadcastAndPoll t b h n q c y = (Some (Done r), y') -> backed r y y'.
Proof.
  unfold broadcastAndPoll. intros H. step H at_ y1 E1. injection E1 as <- <-. step H resp y1 E1.
  apply growing_run in E1; [|apply growing_BroadcastSync]. eapply backed_before; [exact E1|]. clear E1.
  destruct resp as [resp|e]; [|injection H as <- _; by apply backed_none]. case_match; [done|].
  step H p y2 E2. destruct p as [[inc|]|e|]; [|injection H as <- _; by apply backed_none| |done].
  - apply pollForInclusion_found in E2. step H t' y3 E3. injection E3 as <- <-. injection H as <- <-.
    by eapply backed_intro.
  - case_match; [|done]. step H t' y3 E3. injection H as <- _. by apply backed_none.
Qed.

Lemma adoptMarker_backed m y r y' : adoptMarker m y = (Some (Done r), y') -> backed r y y'.
Proof.
  unfold adoptMarker. intros H. step H q y1 E1.
  assert (Hg : grows y y1) by (eapply growing_run; [|exact E1]; repeat growing_step).
  destruct q as [resp| | |].
  - apply QueryTx_since in E1. step H t y2 E2. injection E2 as <- <-. injection H as <- <-. by eapply backed_intro.
  - step H out y2 E2. destruct out as [r'|e|]; [| |done].
    + injection H as -> ->. apply broadcastAndPoll_backed in E2. by eapply backed_before.
    + case_match; [|done]. step H p y3 E3. destruct p as [[inc|]|e'|]; try done.
      apply pollForInclusion_found in E3. step H t y4 E4. injection E4 as <- <-. injection H as <- <-.
      eapply backed_before; [eapply grows_trans; [exact Hg|]|by eapply backed_intro].
      eapply growing_run; [|exact E2]. apply growing_broadcastAndPoll.
  - step H t y2 E2. injection H as <- _. by apply backed_none.
  - step H t y2 E2. injection H as <- _. by apply backed_none.
Qed.

Lemma signFresh_backed cfg i addr y r y' : signFresh cfg i addr y = (Some (Done r), y') -> backed r y y'.
Proof.
  unfold signFresh. intros H. step H acct y1 E1.
  apply growing_run in E1; [|unfold retrieveAccount; repeat (growing_step || apply growing_accountLoop)].
  destruct acct as [[accNum seq]|e|]; [|done..].
  destruct (BuildUnsignedTx i accNum seq) as [u|]; [|done].
  destruct (SignTx (in_KeyName i) u) as [sg|]; [|done].
  destruct (EncodeTx sg) as [bytes|]; [|done].
  step H u0 y2 E2. apply growing_run in E2; [|repeat growing_step].
  pose proof (grows_trans _ _ _ E1 E2) as Hg. clear E1 E2.
  case_match; [|by eapply backed_before; [exact Hg|eapply broadcastAndPoll_backed]].
  step H saved y3 E3. apply growing_run in E3; [|repeat growing_step]. destruct saved; [|done].
  eapply backed_before; [by eapply grows_trans|by eapply broadcastAndPoll_backed].
Qed.

Lemma SignAndBroadcast_backed cfg i y r y' :
  SignAndBroadcast cfg i y = (Some (Done r), y') -> backed r y y'.
Proof.
  unfold SignAndBroadcast, signAndBroadcast, try. repeat (case_match; try done). all: intros H'; step H' g y1 E1.
  all: apply growing_run in E1; [|repeat growing_step]; destruct g as [[]|e'|]; try done.
  all: eapply backed_before; [exact E1|]; try by eapply signFresh_backed.
  step H' got y2 E2. apply growing_run in E2; [|repeat growing_step]. eapply backed_before; [exact E2|].
  destruct got as [[m|]|]; [by eapply adoptMarker_backed|by eapply signFresh_backed|done].
Qed.

(** The transaction a completed task stands for: one that a query of the run
    found on chain with code 0. *)
Definition on_chain (out : GovTxResult) (y y' : sys) (resp : TxResponse) : Prop :=
  exists h, since y y' (EvQuery h (QFound resp)) /\ rs_Code resp = 0%Z /\
    gr_TxHash out = rs_TxHash resp /\ gr_ProposalID out = parseProposalID resp /\
    gr_InclusionStatus out = InclusionCommittedOK.

Lemma classify_completed r out y y' :
  backed r y y' -> classifyGovResult r = (out, None) -> exists resp, on_chain out y y' resp.
Proof.
  unfold classifyGovResult. intros Hb. case_match eqn:Hu; [done|]. destruct (sr_IncludedAt r) eqn:Hi; [|done].
  case_match eqn:Hc; [done|]. intros [= <-]. apply negb_false_iff, Z.eqb_eq in Hc.
  destruct Hb as (h & resp & Hs & Hh & Hcode & Hp); [congruence|]. exists resp, h. simpl.
  split_and!; [done|congruence|done..].
Qed.

Lemma on_chain_after out y y1 y2 resp : on_chain out y y1 resp -> grows y1 y2 -> on_chain out y y2 resp.
Proof. intros (h & Hs & H) Hg. exists h. split; [by eapply since_after|done]. Qed.

(** C11: a proposal task completes on evidence. When the handler of a
    software-upgrade, parameter-change or instantiate-config proposal ends without an error,
    a query of that very run found its transaction on chain with code 0, and
    the reported proposal id is the nonzero one in the transaction's data. *)
Theorem proposal_completes_on_chain cfg taskID chainID keyName fees gas memo msg y out y' :
  proposalHandler cfg taskID chainID keyName fees gas memo msg y = (Some (Done (out, None)), y') ->
  exists resp, on_chain out y y' resp /\ gr_ProposalID out <> 0%Z.
Proof.
  unfold proposalHandler, try. destruct msg as [m|e]; [|done]. intros H. step H r y1 E1.
  destruct r as [r|e|]; [|done..]. apply SignAndBroadcast_backed in E1.
  destruct (classifyGovResult r) as [o cerr] eqn:Ec. unfold requireProposalID in H.
  destruct cerr as [e|]; [done|]. destruct (classify_completed _ _ _ _ E1 Ec) as [resp Hr].
  case_match eqn:Hp; [done|]. injection H as <- <-. exists resp. split; [done|].
  destruct Hr as (h & _ & _ & _ & _ & Hst). rewrite Hst in Hp. by apply Z.eqb_neq.
Qed.

(** ** Settling from state *)

(** A confirmation that succeeds read what its test accepts. *)
Lemma confirm_true {A} (read : P (result A)) (test : A -> bool) (ev : A -> event) y y' :
  growing read ->
  (forall y a y1, read y = (Some (Ok a), y1) -> since y y1 (ev a)) ->
  confirm read test y = (Some (Done true), y') -> exists a, test a = true /\ since y y' (ev a).
Proof.
  intros Hg Hev (t & y1 & E1 & H)%bind_inv. injection E1 as <- <-. revert H. generalize (w_now (y_world y) + confirmWait)%Z.
  intros d. generalize confirm_fuel. intros fuel. revert y. induction fuel as [|fuel IH]; intros y H; [done|].
  cbn [confirmLoop] in H. step H r y1 E1. case_match eqn:Ht.
  - injection H as <-. destruct r as [a|]; [|done]. exists a. split; [done|]. by apply Hev.
  - step H ended y2 E2. destruct ended; [done|]. apply IH in H as (a & Ha & Hs). exists a. split; [done|].
    eapply since_before; [by eapply growing_run|]. eapply since_before; [|exact Hs].
    eapply growing_run; [|exact E2]. apply growing_call.
Qed.

Lemma growing_chainVote p v : growing (chainVote p v).
Proof. unfold chainVote, interruptible, readVoteState. repeat growing_step. Qed.
Lemma growing_chainJailState v : growing (chainJailState v).
Proof. unfold chainJailState, readJailState. repeat growing_step. Qed.
Lemma growing_confirm {A} (read : P (result A)) test : growing read -> growing (confirm read test).
Proof.
  intros Hr. apply growing_bind; [apply growing_gets|]. intros t. generalize confirm_fuel. intros n.
  induction n as [|n IH]; simpl; repeat (growing_step || apply IH || apply Hr).
Qed.

Lemma chainVote_since p v y o y' : chainVote p v y = (Some (Ok o), y') -> since y y' (EvVote p v o).
Proof.
  unfold chainVote, interruptible, readVoteState. intros H. step H i y1 E1. destruct i; [done|].
  step H s y2 E2. destruct s as [[[] ?]|]; [done| |done]. step H r y3 E3. destruct r as [r|]; [|done].
  step H u y4 E4. injection E4 as _ <-. injection H as <- <-.
  apply growing_run in E1, E2, E3; [|apply growing_call..].
  eapply since_before; [eapply grows_trans; [exact E1|by eapply grows_trans]|]. eexists [_]. split; [reflexivity|by left].
Qed.

Lemma chainJailState_since v y st y' : chainJailState v y = (Some (inl st), y') -> since y y' (EvJail v st).
Proof.
  unfold chainJailState. intros H. step H i y1 E1. destruct i; [done|]. step H r y2 E2.
  destruct r as [s|]; [|done]. step H u y3 E3. injection E3 as _ <-. injection H as <- <-.
  apply growing_run in E1; [|apply growing_call]. apply growing_run in E2; [|unfold readJailState; repeat growing_step].
  eapply since_before; [by eapply grows_trans|]. eexists [_]. split; [reflexivity|by left].
Qed.

(** A settled task either has its transaction on chain or passed the test. *)
Lemma settle_completed r (byState : P (outcome bool)) out y y1 y' :
  growing byState -> backed r y y1 -> settle r byState y1 = (Some (Done (out, None)), y') ->
  (exists resp, on_chain out y y' resp) \/
  (sr_Unverifiable r = true /\ byState y1 = (Some (Done true), y')).
Proof.
  intros Hg Hb H. unfold settle in H. destruct (classifyGovResult r) as [o cerr] eqn:Ec.
  destruct (sr_Unverifiable r) eqn:Hu.
  - right. split; [done|]. step H b y2 E2. destruct b as [[]|e|]; try done; [by injection H as _ <-|].
    injection H as <- -> <-. unfold classifyGovResult in Ec. by rewrite Hu in Ec.
  - left. injection H as <- -> <-. by eapply classify_completed.
Qed.

Lemma voteHasOption_one v o : voteHasOption v o = true -> v = [(o, OneDec)].
Proof.
  unfold voteHasOption. destruct v as [|[o' w] [|]]; [done| |done].
  intros [->%Z.eqb_eq ->%Z.eqb_eq]%andb_true_iff. done.
Qed.

Lemma buildVoteMsg_ok cfg p msg : buildVoteMsg cfg p = inl msg ->
  ParseVoteOption (gv_Option p) = Ok (mv_Option msg) /\ keyAddress cfg (gv_KeyName p) = inl (mv_Voter msg) /\
  mv_ProposalId msg = gv_ProposalID p.
Proof.
  unfold buildVoteMsg. case_match; [done|]. destruct (ParseVoteOption _); [|done].
  destruct (keyAddress cfg _); [|done]. by intros [= <-].
Qed.

(** Property: A vote task completes on evidence: a query of the run found the
    transaction on chain with code 0, or, on a node without a transaction index, a read of
    the run found the vote recorded for the proposal as one choice of full weight with the
    requested option. *)
Theorem vote_completes_on_evidence cfg taskID p y out y' :
  GovVoter_Handler cfg taskID p y = (Some (Done (out, None)), y') ->
  (exists resp, on_chain out y y' resp) \/
  (exists addr voter o, keyAddress cfg (gv_KeyName p) = inl addr /\ AccAddressFromBech32 addr = Ok voter /\
     ParseVoteOption (gv_Option p) = Ok o /\ since y y' (EvVote (gv_ProposalID p) voter [(o, OneDec)])).
Proof.
  unfold GovVoter_Handler, try. destruct (buildVoteMsg cfg p) as [msg|e] eqn:Em; [|done]. intros H.
  step H r y1 E1. destruct r as [r|e|]; [|done..].
  pose proof (growing_run _ _ _ _ (growing_SignAndBroadcast _ _) E1) as Hg1.
  apply SignAndBroadcast_backed in E1. apply (settle_completed _ _ _ y) in H as [H|[_ H]];
    [by left| |unfold votedAfter; case_match; [apply growing_confirm, growing_chainVote|apply growing_ret]|done].
  right. unfold votedAfter in H. destruct (AccAddressFromBech32 (mv_Voter msg)) as [voter|] eqn:Ea; [|done].
  apply (confirm_true _ _ (EvVote (mv_ProposalId msg) voter)) in H as (v & Hv & Hs);
    [|apply growing_chainVote|intros; by apply chainVote_since].
  apply voteHasOption_one in Hv as ->. apply buildVoteMsg_ok in Em as (Ho & Hk & Hp). rewrite Hp in Hs.
  exists (mv_Voter msg), voter, (mv_Option msg). split_and!; [done..|]. by eapply since_before.
Qed.

(** The reads of the unjail handler before it broadcasts neither sign nor send. *)
Lemma silent_observe e : silent (observe (W := W) (SDK := SDK) e).
Proof. by intros y. Qed.
Lemma silent_chainJailState v : silent (chainJailState v).
Proof. unfold chainJailState, readJailState. repeat (silent_step || apply silent_observe). Qed.
Lemma silent_confirm {A} (read : P (result A)) test : silent read -> silent (confirm read test).
Proof.
  intros Hr. apply silent_bind; [apply silent_now|]. intros t. generalize confirm_fuel. intros n.
  induction n as [|n IH]; simpl; repeat (silent_step || apply IH || apply Hr).
Qed.
Lemma silent_settle r b : silent b -> silent (settle r b).
Proof. intros Hb. unfold settle. destruct (classifyGovResult r). repeat (silent_step || apply Hb). Qed.

(** What the chain accepts an unjail of. *)
Definition releasable (st : jailState) : Prop :=
  js_CatchingUp st = false /\ js_HasSelfDelegation st = true /\ (js_MinSelfBond st <= js_SelfBond st)%Z /\
  js_Jailed st = true /\ js_Tombstoned st = false /\ (js_JailedUntil st <= js_BlockTime st)%Z.

Lemma jailVerdict_None v st : jailVerdict v st = None <-> releasable st.
Proof.
  unfold jailVerdict, releasable. destruct st as [c bt h sb mb j t ju]; simpl.
  destruct c; [naive_solver|]. destruct h; [|naive_solver]. destruct (Z.ltb_spec sb mb); [naive_solver lia|].
  destruct j; [|naive_solver]. destruct t; [naive_solver|]. destruct (Z.ltb_spec bt ju); naive_solver lia.
Qed.

Lemma hasTxMarker_cases cfg t y b y1 :
  hasTxMarker cfg t y = (Some (Ok b), y1) ->
  durable y1 = durable y /\ grows y y1 /\
  (b = true -> cfg_Checkpointer cfg = true /\ is_Some (y_markers y1 !! t)).
Proof.
  unfold hasTxMarker. case_match eqn:Hc.
  - intros [= <- <-]. by split_and!; [done|apply grows_refl|].
  - apply orb_false_iff in Hc as [Hc _]. apply negb_false_iff in Hc. intros (got & y2 & E & H)%bind_inv.
    pose proof (silent_GetTxMarker t y) as Hd. rewrite E in Hd.
    pose proof (growing_run _ _ _ _ (ltac:(repeat growing_step) : growing (GetTxMarker t)) E) as Hg.
    destruct got as [o|]; [|done]. apply GetTxMarker_read in E. destruct o as [m|]; injection H as <- <-; split_and!; done.
Qed.

Lemma checkJailed_None v y y' :
  checkJailed v y = (Some None, y') -> exists st, chainJailState v y = (Some (inl st), y') /\ releasable st.
Proof.
  intros (r & y1 & E & H)%bind_inv. destruct r as [st|[]]; [|done..]. injection H as H <-.
  exists st. split; [done|by apply (jailVerdict_None v)].
Qed.

Lemma silent_checkJailed v : silent (checkJailed v).
Proof. unfold checkJailed. repeat (silent_step || apply silent_chainJailState). Qed.

(** The handler's run up to the broadcast: it stops there without a trace, or
    goes on with a marker on record or a releasable validator. *)
Lemma unjail_prelude cfg t v (k : P handled) y (Q : sys -> Prop) :
  (forall y1, durable y1 = durable y -> Q y1) ->
  (forall y1, durable y1 = durable y -> grows y y1 ->
     (cfg_Checkpointer cfg = true /\ is_Some (y_markers y !! t)) \/
     (exists y0 st, hasTxMarker cfg t y = (Some (Ok false), y0) /\ chainJailState v y0 = (Some (inl st), y1) /\
        since y y1 (EvJail v st) /\ releasable st) -> Q (k y1).2) ->
  Q ((m ← hasTxMarker cfg t;
      match m with
      | Err e => mret (Fail (plainErr e))
      | Ok adopting =>
          refused ← (if adopting : bool then (mret None : P (option tx_error)) else checkJailed v);
          match refused with Some e => mret (Fail e) | None => k end
      end) y).2.
Proof.
  intros Hstop Hgo. apply silent_then; [unfold hasTxMarker; repeat (silent_step || apply silent_GetTxMarker)|done|].
  intros [adopting|e] y1 E Hd; [|by apply Hstop]. pose proof E as (_ & Hg & Hm)%hasTxMarker_cases.
  apply silent_then; [destruct adopting; [apply silent_ret|apply silent_checkJailed]|intros; apply Hstop; congruence|].
  intros [e|] y2 E2 Hd2; [apply Hstop; exact (eq_trans Hd2 Hd)|]. apply Hgo; [congruence|..].
  - eapply grows_trans; [exact Hg|]. eapply growing_run; [|exact E2].
    destruct adopting; unfold checkJailed; repeat (growing_step || apply growing_chainJailState).
  - destruct adopting; [left|right].
    + destruct Hm as [Hc Hs]; [done|]. split; [done|]. apply durable_eq in Hd as (<- & _). done.
    + apply checkJailed_None in E2 as (st & Hs & Hr). exists y1, st.
      refine (conj E (conj Hs (conj _ Hr))). eapply since_before; [done|by apply chainJailState_since].
Qed.

(** C10: an unjail is signed only when the chain would accept it. When a run of
    the unjail handler signs, then in that run, in this order: its look for a
    marker answered that there is none; its read of the chain's jail state,
    from where that look ended, found the node caught up and the validator
    jailed, not tombstoned, past its jail period and with enough
    self-delegation; nothing was signed up to there; and what was signed was
    signed by the broadcast that started where that read ended. With a marker
    of the task on record nothing is signed. *)
Theorem unjail_signs_only_releasable cfg t p v y :
  operatorValAddr cfg (uj_KeyName p) = inl v ->
  let y' := (Unjailer_Handler cfg t p y).2 in
  y_signed y' = y_signed y \/
  ((exists y0 st y1, hasTxMarker cfg t y = (Some (Ok false), y0) /\
      chainJailState v y0 = (Some (inl st), y1) /\ since y y1 (EvJail v st) /\ releasable st /\
      durable y1 = durable y /\ y_signed y' = y_signed (SignAndBroadcast cfg (unjailInput t p v) y1).2) /\
   (cfg_Checkpointer cfg = true -> y_markers y !! t = None)).
Proof.
  intros Hv y'. subst y'. unfold Unjailer_Handler. rewrite Hv.
  match goal with |- y_signed ?e = _ \/ _ => pattern e end.
  apply (unjail_prelude cfg t v _ y);
    [intros y1 (_ & ? & _)%durable_eq; by left|].
  intros y1 Hd Hg Hor. unfold try.
  set (i := unjailInput t p v). pose proof (SignAndBroadcast_signed cfg i y1) as Hs. cbv zeta in Hs.
  assert (Hset : forall r, silent (settle r (releasedAfter v))).
  { intros r. apply silent_settle, silent_confirm. repeat (silent_step || apply silent_chainJailState). }
  match goal with |- y_signed ((?m ≫= ?f) y1).2 = _ \/ _ =>
    assert (Hend : y_signed ((m ≫= f) y1).2 = y_signed (m y1).2) end.
  { match goal with |- y_signed ((?m ≫= ?f) y1).2 = _ => destruct (bind_cases m f y1) as
      [(y2 & E & ->)|(r & y2 & E & ->)] end; rewrite E; [done|].
    destruct r as [r|e|]; [|done..]. apply durable_eq, Hset. }
  rewrite Hend. apply durable_eq in Hd as (Hm & Hsg & Hse). destruct Hs as [Hs|(bytes & Hs & _ & _ & Hmk)];
    [left; congruence|].
  right. assert (Hnone : cfg_Checkpointer cfg = true -> y_markers y !! t = None)
    by (rewrite <- Hm; exact Hmk). split; [|done].
  destruct Hor as [[Hc [m Hx]]|(y0 & st & Hm0 & Hst & Hsi & Hr)]; [rewrite (Hnone Hc) in Hx; done|].
  exists y0, st, y1. assert (Hd1 : durable y1 = durable y) by (unfold durable; congruence).
  exact (conj Hm0 (conj Hst (conj Hsi (conj Hr (conj Hd1 eq_refl))))).
Qed.

(** Property: An unjail task completes on evidence: a query of the run found the
    transaction on chain with code 0, or, on a node without a transaction index, a read of
    the run found the node caught up and the validator not jailed. *)
Theorem unjail_completes_on_evidence cfg t p v y out y' :
  operatorValAddr cfg (uj_KeyName p) = inl v ->
  Unjailer_Handler cfg t p y = (Some (Done (out, None)), y') ->
  (exists resp y1, grows y y1 /\ on_chain out y1 y' resp) \/
  (exists st, since y y' (EvJail v st) /\ js_CatchingUp st = false /\ js_Jailed st = false).
Proof.
  intros Hv. unfold Unjailer_Handler. rewrite Hv. intros H. step H m y1 E1. destruct m as [adopting|]; [|done].
  apply hasTxMarker_cases in E1 as (_ & Hg1 & _). step H refused y2 E2. destruct refused; [done|].
  apply growing_run in E2; [|destruct adopting; unfold checkJailed; repeat (growing_step || apply growing_chainJailState)].
  pose proof (grows_trans _ _ _ Hg1 E2) as Hg2. unfold try in H. step H r y3 E3. destruct r as [r|e|]; [|done..].
  pose proof (growing_run _ _ _ _ (growing_SignAndBroadcast _ _) E3) as Hg3. apply SignAndBroadcast_backed in E3.
  assert (Hgr : growing (r ← chainJailState v; mret (jail_result r)))
    by (apply growing_bind; [apply growing_chainJailState|intros; apply growing_ret]).
  apply (settle_completed _ _ _ y2) in H as [[resp H]|[_ H]]; [left; by exists resp, y2| |by apply growing_confirm|done].
  right. unfold releasedAfter in H.
  eapply (confirm_true _ released (EvJail v)) in H as (st & Hst & Hs); [|exact Hgr|].
  - unfold released in Hst. apply andb_true_iff in Hst as [H1 H2]. apply negb_true_iff in H1, H2.
    exists st. split_and!; [|done..]. eapply since_before; [exact (grows_trans _ _ _ Hg2 Hg3)|exact Hs].
  - intros y4 st y5 (r' & y6 & E & Hr)%bind_inv. injection Hr as Hr <-. destruct r' as [st'|[]]; [|done..].
    injection Hr as ->. by apply chainJailState_since.
Qed.

(** ** Every handler answers *)
Context {TWL : TxWorldLaws W} {GWL : GovWorldLaws W}.

(** A computation whose clock does not go back. *)
Definition forward {A} (m : P A) : Prop := forall y, (w_now (y_world y) <= w_now (y_world (m y).2))%Z.

Lemma forward_call {A} (f : W -> A * W) : (forall w, (w_now w <= w_now (f w).2)%Z) -> forward (call f).
Proof.
  intros Hf y. unfold call. specialize (Hf (y_world y)). destruct (y_life y) as [[|k]|]; [simpl; lia|..];
    destruct (f (y_world y)); simpl in *; lia.
Qed.
Lemma forward_ret {A} (a : A) : forward (mret a).
Proof. intros y. simpl. lia. Qed.
Lemma forward_bind {A B} (m : P A) (f : A -> P B) : forward m -> (forall a, forward (f a)) -> forward (m ≫= f).
Proof.
  intros Hm Hf y. specialize (Hm y).
  destruct (bind_cases m f y) as [(y1 & E & ->)|(a & y1 & E & ->)]; rewrite E in Hm; simpl in *; [done|].
  specialize (Hf a y1). lia.
Qed.
Lemma forward_observe e : forward (observe e).
Proof. intros y. simpl. lia. Qed.

Ltac forward_step :=
  match goal with
  | |- forward (mret _) => apply forward_ret
  | |- forward (call _) => apply forward_call; intros ?;
      (apply syncInfo_clock || apply vote_clock || apply validator_clock || apply delegation_clock ||
       apply signingInfo_clock || apply interrupted_clock)
  | |- forward (observe _) => apply forward_observe
  | |- forward (let _ := _ in _) => cbv zeta
  | |- forward (_ ≫= _) => apply forward_bind; [|intros ?]
  | |- forward (match ?x with _ => _ end) => destruct x
  end.

Lemma forward_chainVote p v : forward (chainVote p v).
Proof. unfold chainVote, interruptible, readVoteState. repeat forward_step. Qed.
Lemma forward_chainJailState v : forward (chainJailState v).
Proof. unfold chainJailState, readJailState. repeat forward_step. Qed.

(** It ends with an answer. *)
Definition answers {A} (m : P (outcome A)) : Prop := forall y, (m y).1 <> Some Hang.
Lemma answers_ret {A} (a : outcome A) : a <> Hang -> answers (mret a).
Proof. intros Ha y. simpl. congruence. Qed.
Lemma answers_step {A B} (m : P A) (f : A -> P (outcome B)) y :
  (forall a y1, m y = (Some a, y1) -> (f a y1).1 <> Some Hang) -> ((m ≫= f) y).1 <> Some Hang.
Proof.
  intros Hf. destruct (bind_cases m f y) as [(y1 & E & ->)|(a & y1 & E & ->)]; [done|by apply Hf].
Qed.
Lemma answers_bind {A B} (m : P A) (f : A -> P (outcome B)) : (forall a, answers (f a)) -> answers (m ≫= f).
Proof. intros Hf y. apply answers_step. intros a y1 _. apply Hf. Qed.
Lemma answers_after {A B} (m : P (outcome A)) (f : outcome A -> P (outcome B)) :
  answers m -> (forall a, a <> Hang -> answers (f a)) -> answers (m ≫= f).
Proof.
  intros Hm Hf y. apply answers_step. intros a y1 E. apply Hf. specialize (Hm y). rewrite E in Hm.
  simpl in Hm. congruence.
Qed.
Lemma answers_try {A B} (m : P (outcome A)) (f : A -> P (outcome B)) :
  answers m -> (forall a, answers (f a)) -> answers (try m f).
Proof. intros Hm Hf. apply answers_after; [done|]. by intros [a|e|] Ha; [|apply answers_ret|]. Qed.

Lemma confirmLoop_answers {A} fuel (read : P (result A)) test d y :
  forward read -> (d - w_now (y_world y) <= Z.of_nat fuel * confirmEvery)%Z ->
  (confirmLoop (S fuel) read test d y).1 <> Some Hang.
Proof.
  intros Hr. revert y. induction fuel as [|fuel IH]; intros y Hd; cbn [confirmLoop]; apply answers_step;
    intros a y1 E; specialize (Hr y) as Hc; rewrite E in Hc; simpl in Hc;
    (destruct (match a with Ok a => test a | Err _ => false end); [done|]);
    apply answers_step; intros ended y2 E2; (destruct ended; [done|]); unfold call in E2;
    destruct (w_waitUntil d confirmEvery (y_world y1)) as [b w] eqn:Ew;
    (destruct (y_life y1) as [[|k]|]; [done|..]); injection E2 as -> <-.
  1, 2: exfalso; pose proof (waitUntil_ended d confirmEvery (y_world y1)) as Hw; rewrite Ew in Hw;
    (enough (false = true) by done); apply Hw; [done|lia].
  all: apply waitUntil_lasts in Ew; apply IH; simpl; lia.
Qed.

Lemma confirm_answers {A} (read : P (result A)) test : forward read -> answers (confirm read test).
Proof.
  intros Hr y. apply answers_step. intros t y1 E. injection E as <- <-.
  apply confirmLoop_answers; [done|]. apply Z.le_trans with confirmWait; [lia|by vm_compute].
Qed.

Lemma settle_answers r (b : P (outcome bool)) : answers b -> answers (settle r b).
Proof.
  intros Hb. unfold settle. destruct (classifyGovResult r) as [o c]. destruct (sr_Unverifiable r);
    [|by apply answers_ret]. apply answers_after; [done|]. by intros [[]|e|] Ha; try apply answers_ret.
Qed.

Lemma SignAndBroadcast_answers cfg i : answers (SignAndBroadcast cfg i).
Proof. intros y. apply SignAndBroadcast_bound. Qed.

(** Property: Every sign-tx handler answers. On a clock that does not go back, a
    vote, an unjail or a proposal that is not killed ends with a result or an error,
    also when inclusion has to be confirmed from state and never shows. *)
Theorem handlers_answer cfg t pv pu ps pp pi y :
  (GovVoter_Handler cfg t pv y).1 <> Some Hang /\ (Unjailer_Handler cfg t pu y).1 <> Some Hang /\
  (GovSoftwareUpgrader_Handler cfg t ps y).1 <> Some Hang /\
  (GovParamChanger_Handler cfg t pp y).1 <> Some Hang /\
  (GovInstantiateConfigUpdater_Handler cfg t pi y).1 <> Some Hang.
Proof.
  assert (Hp : forall c k f g m msg, answers (proposalHandler cfg t c k f g m msg)).
  { intros. unfold proposalHandler. case_match; [|by apply answers_ret].
    apply answers_try; [apply SignAndBroadcast_answers|]. intros r. case_match. by apply answers_ret. }
  split_and!; try apply Hp; match goal with |- (?m y).1 <> _ => enough (answers m) by auto end.
  - unfold GovVoter_Handler. case_match; [|by apply answers_ret].
    apply answers_try; [apply SignAndBroadcast_answers|]. intros r. apply settle_answers. unfold votedAfter.
    case_match; [apply confirm_answers, forward_chainVote|by apply answers_ret].
  - unfold Unjailer_Handler. case_match; [|by apply answers_ret]. apply answers_bind. intros m.
    case_match; [|by apply answers_ret]. apply answers_bind. intros e. case_match; [by apply answers_ret|].
    apply answers_try; [apply SignAndBroadcast_answers|]. intros r. apply settle_answers, confirm_answers.
    apply forward_bind; [apply forward_chainJailState|intros; apply forward_ret].
Qed.
End GovTasks.

(** ** A concrete chain

    The node of SignTx's example with, or without, a transaction index; what it
    is sent takes effect at once. *)
Record GovNode := mkGovNode { gn_clock : Z; gn_indexed : bool; gn_sent : option string }.

#[local] Instance gov_sdk : ChainSDK := {
  Msg := string;
  ValidateBasic _ := None;
  ParseCoinsNormalized s := if s =s "2000usei" then Ok [("usei", 2000%Z)] else Err "bad coins";
  BuildUnsignedTx i n s := Ok (default "" (in_Msg i) +:+ "/" +:+ pretty s);
  SignTx k u := Ok (k +:+ ":" +:+ u);
  EncodeTx s := Ok s;
  TxHashHex s := if s =s "" then "00" else "AB";
  TxMsgData s := Some [(submitProposalMsgType, s)];
  SubmitProposalResponse s := if s =s "minted" then Some 42%Z else None;
  UnicodeIsPrint _ := true;
}.
#[local] Instance gov_gsdk : GovSDK := {
  NewMsgVote voter p o := "vote " +:+ pretty p;
  NewMsgUnjail v := "unjail " +:+ v;
  NewMsgSubmitProposal c d a := Ok "propose";
  Content_ValidateBasic _ := None;
  AccAddressFromBech32 s := Ok s;
  TokensFromShares _ s := s;
}.

Definition gov_response (b : string) : TxResponse := mkTxResponse "AB" 7 0 "" "" 10 9 "minted".
#[local] Instance gov_world : TxWorld GovNode := {
  w_now := gn_clock;
  w_cancelled _ := false;
  w_wait d w := (false, mkGovNode (gn_clock w + Z.max 0 d) (gn_indexed w) (gn_sent w));
  w_account _ w := (AcctOk 4 11, w);
  w_broadcast b w := (Ok (gov_response b), mkGovNode (gn_clock w) (gn_indexed w) (Some b));
  w_query h w := (if gn_indexed w then
                    match gn_sent w with Some b => TxFound (gov_response b) | None => TxRPCError "tx not found" end
                  else TxRPCError "transaction querying is disabled due to no kvEventSink", w);
  w_status w := (StNetwork "pacific-1", w);
  w_readMarker w := (None, w);
  w_saveMarker w := (SavedOk, w);
}.
Definition gov_validator (jailed : bool) : Validator := mkValidator jailed 1 OneDec None (Ok "cons").
#[local] Instance gov_gworld : GovWorld GovNode := {
  w_syncInfo w := (Ok (false, 1000%Z), w);
  w_vote _ _ w := (match gn_sent w with Some _ => Ok [(OptionYes, OneDec)] | None => Err "not found" end, w);
  w_validator _ w := (inl (gov_validator (match gn_sent w with Some _ => false | None => true end)), w);
  w_delegation _ w := (inl (Some (5 * OneDec)%Z), w);
  w_signingInfo _ w := (inl (false, 900%Z), w);
  w_interrupted w := (None, w);
  w_waitUntil t d w := if (t <=? gn_clock w)%Z then (true, w)
                       else (false, mkGovNode (gn_clock w + Z.max 0 d) (gn_indexed w) (gn_sent w));
}.
#[local] Instance gov_world_laws : TxWorldLaws GovNode.
Proof.
  split; [intros d w w' [= <-]|intros h w|intros a w]; simpl; lia.
Qed.
#[local] Instance gov_gworld_laws : GovWorldLaws GovNode.
Proof.
  split; intros; simpl in *; try lia.
  - destruct (Z.leb_spec t (gn_clock w)); simplify_eq/=; lia.
  - by destruct (Z.leb_spec t (gn_clock w)); [|lia].
Qed.

Definition gov_cfg : ExecutionConfig := mkConfig (Some (fun _ => Ok "seival")) true true "pacific-1".
Definition gov_start (indexed : bool) : Sys GovNode Msg := mkSys (mkGovNode 0 indexed None) None ∅ [] [] [].
Definition gov_upgrade : GovSoftwareUpgradeRequest :=
  mkGovSoftwareUpgradeRequest "pacific-1" "operator" "v6" "to v6" "v6" 100 "" "2000usei" "" "2000usei" 1.
Definition gov_vote : GovVoteRequest := mkGovVoteRequest "pacific-1" "operator" 42 "YES" "" "2000usei" 1.
Definition gov_unjail : UnjailRequest := mkUnjailRequest "pacific-1" "operator" "" "2000usei" 1.

(** The result of a run that ended, and the state it left. *)
Definition ended_with {A} (m : proc GovNode Msg (outcome (A * option tx_error))) (a0 : A)
    (y : Sys GovNode Msg) : A * Sys GovNode Msg :=
  match m y with (Some (Done (a, None)), y') => (a, y') | (_, y') => (a0, y') end.
Definition no_result : GovTxResult := mkGovTxResult "" 0 0 0 "" "" "".

Lemma proposal_completes_on_chain_witness :
  exists out y', GovSoftwareUpgrader_Handler gov_cfg "t1" gov_upgrade (gov_start true) = (Some (Done (out, None)), y') /\
    exists resp, on_chain out (gov_start true) y' resp /\ gr_ProposalID out <> 0%Z.
Proof.
  set (m := GovSoftwareUpgrader_Handler gov_cfg "t1" gov_upgrade).
  assert (E : m (gov_start true) = (Some (Done ((ended_with m no_result (gov_start true)).1, None)),
                                    (ended_with m no_result (gov_start true)).2))
    by (vm_compute; reflexivity).
  eexists _, _. split; [exact E|]. exact (proposal_completes_on_chain _ _ _ _ _ _ _ _ _ _ _ E).
Defined.

Lemma vote_completes_on_evidence_witness :
  exists out y', GovVoter_Handler gov_cfg "t2" gov_vote (gov_start false) = (Some (Done (out, None)), y') /\
    ((exists resp, on_chain out (gov_start false) y' resp) \/
     (exists addr voter o, keyAddress gov_cfg (gv_KeyName gov_vote) = inl addr /\ AccAddressFromBech32 addr = Ok voter /\
        ParseVoteOption (gv_Option gov_vote) = Ok o /\ since (gov_start false) y' (EvVote 42 voter [(o, OneDec)]))).
Proof.
  set (m := GovVoter_Handler gov_cfg "t2" gov_vote).
  assert (E : m (gov_start false) = (Some (Done ((ended_with m no_result (gov_start false)).1, None)),
                                     (ended_with m no_result (gov_start false)).2))
    by (vm_compute; reflexivity).
  eexists _, _. split; [exact E|]. exact (vote_completes_on_evidence _ _ _ _ _ _ E).
Defined.

Lemma unjail_signs_only_releasable_witness :
  length (y_signed (Unjailer_Handler gov_cfg "t3" gov_unjail (gov_start true)).2) = 1 /\
  exists y0 st y1, hasTxMarker gov_cfg "t3" (gov_start true) = (Some (Ok false), y0) /\
    chainJailState "seival" y0 = (Some (inl st), y1) /\ releasable st.
Proof.
  assert (Hl : length (y_signed (Unjailer_Handler gov_cfg "t3" gov_unjail (gov_start true)).2) = 1)
    by (vm_compute; reflexivity).
  split; [exact Hl|].
  assert (Hv : operatorValAddr gov_cfg (uj_KeyName gov_unjail) = inl "seival") by (vm_compute; reflexivity).
  pose proof (unjail_signs_only_releasable gov_cfg "t3" gov_unjail "seival" (gov_start true) Hv) as H.
  cbv zeta in H. destruct H as [H|[(y0 & st & y1 & H1 & H2 & _ & H3 & _) _]].
  - rewrite H in Hl. discriminate Hl.
  - exists y0, st, y1. exact (conj H1 (conj H2 H3)).
Defined.

Lemma unjail_completes_on_evidence_witness :
  exists out y', Unjailer_Handler gov_cfg "t3" gov_unjail (gov_start false) = (Some (Done (out, None)), y') /\
    ((exists resp y1, grows (gov_start false) y1 /\ on_chain out y1 y' resp) \/
     (exists st, since (gov_start false) y' (EvJail "seival" st) /\
        js_CatchingUp st = false /\ js_Jailed st = false)).
Proof.
  set (m := Unjailer_Handler gov_cfg "t3" gov_unjail).
  assert (E : m (gov_start false) = (Some (Done ((ended_with m no_result (gov_start false)).1, None)),
                                     (ended_with m no_result (gov_start false)).2))
    by (vm_compute; reflexivity).
  eexists _, _. split; [exact E|].
  assert (Hv : operatorValAddr gov_cfg (uj_KeyName gov_unjail) = inl "seival") by (vm_compute; reflexivity).
  exact (unjail_completes_on_evidence _ _ _ "seival" _ _ _ Hv E).
Defined.

Definition gov_params : GovParamChangeRequest :=
  mkGovParamChangeRequest "pacific-1" "operator" "t" "d" [mkParamChange "gov" "k" "1"] "2000usei" "" "2000usei" 1.
Definition gov_access : GovUpdateInstantiateConfigRequest :=
  mkGovUpdateInstantiateConfigRequest "pacific-1" "operator" "t" "d" [(7%Z, "nobody")] "2000usei" "" "2000usei" 1.

Lemma handlers_answer_witness :
  (Unjailer_Handler gov_cfg "t3" gov_unjail (gov_start false)).1 <> Some Hang.
Proof.
  exact (proj1 (proj2 (handlers_answer gov_cfg "t3" gov_vote gov_unjail gov_upgrade gov_params gov_access
    (gov_start false)))).
Defined.
