(* ===== verification/NodeTask.v ===== *)
(** * The SeiNodeTask controller (src/internal/controller/nodetask,
      src/internal/task/seinodetask_params.go, src/api/v1alpha1/seinodetask_types.go)

    One SeiNodeTask is one task on one node: a reconcile waits for the target,
    persists the task it synthesized, submits it, polls it and latches the
    outcome. The task runtime and the API server are interfaces; the status is
    written once, at the end of a reconcile. *)

From stdpp Require Import base list strings gmap pretty.
From Stdlib Require Import ZArith Lia.
From S2P Require Import Prelude Api NodeState Platform Executor Config Task EngineStore SignTx GovTasks.

(** ** The resource *)
Inductive SeiNodeTaskKind :=
| KindGovSoftwareUpgrade | KindGovVote | KindGovParamChange | KindGovUpdateInstantiateConfig
| KindAwaitCondition | KindUpdateNodeImage | KindAwaitNodesAtHeight | KindRestartSeid | KindMarkReady
| KindUnjail | KindOther (name : string).
#[export] Instance SeiNodeTaskKind_eq_dec : EqDecision SeiNodeTaskKind.
Proof. solve_decision. Defined.

Definition kind_string (k : SeiNodeTaskKind) : string :=
  match k with
  | KindGovSoftwareUpgrade => "GovSoftwareUpgrade"
  | KindGovVote => "GovVote"
  | KindGovParamChange => "GovParamChange"
  | KindGovUpdateInstantiateConfig => "GovUpdateInstantiateConfig"
  | KindAwaitCondition => "AwaitCondition"
  | KindUpdateNodeImage => "UpdateNodeImage"
  | KindAwaitNodesAtHeight => "AwaitNodesAtHeight"
  | KindRestartSeid => "RestartSeid"
  | KindMarkReady => "MarkReady"
  | KindUnjail => "Unjail"
  | KindOther name => name
  end.

Inductive SeiNodeTaskPhase :=
  TaskPhaseNone | TaskPhasePending | TaskPhaseRunning | TaskPhaseComplete | TaskPhaseFailed.
#[export] Instance SeiNodeTaskPhase_eq_dec : EqDecision SeiNodeTaskPhase.
Proof. solve_decision. Defined.

(** The sign-tx payloads have the fields of the sidecar's requests. *)
Record SeiNodeTaskSpec := mkTaskSpec {
  ks_Kind : SeiNodeTaskKind;
  ks_NodeRef : string;
  ks_RequirePhase : SeiNodePhase;
  ks_RequirePhaseTimeout : option Z;
  ks_TimeoutSeconds : Z;
  ks_GovSoftwareUpgrade : option GovSoftwareUpgradeRequest;
  ks_GovVote : option GovVoteRequest;
  ks_GovParamChange : option GovParamChangeRequest;
  ks_GovUpdateInstantiateConfig : option GovUpdateInstantiateConfigRequest;
  ks_AwaitCondition : option (option Z * string);
  ks_UpdateNodeImage : option string;
  ks_AwaitNodesAtHeight : option Z;
  ks_RestartSeid : option unit;
  ks_MarkReady : option unit;
  ks_Unjail : option UnjailRequest;
}.

Record SeiNodeTaskExecution := mkTaskExecution {
  te_ID : string;
  te_Status : TaskStatus;
  te_Err : string;
  te_SubmittedAt : option Z;
  te_ExecutionStartedAt : option Z;
}.
#[export] Instance SeiNodeTaskExecution_eq_dec : EqDecision SeiNodeTaskExecution.
Proof. solve_decision. Defined.

(** A transaction's hash, height and proposal id (0 where the kind has none).
    The outputs of the await kinds are never written. *)
Record TxOutputs := mkTxOutputs { to_TxHash : string; to_Height : Z; to_ProposalID : Z }.
#[export] Instance TxOutputs_eq_dec : EqDecision TxOutputs.
Proof. solve_decision. Defined.
Record SeiNodeTaskOutputs := mkOutputs {
  so_GovSoftwareUpgrade : option TxOutputs;
  so_GovVote : option TxOutputs;
  so_GovParamChange : option TxOutputs;
  so_GovUpdateInstantiateConfig : option TxOutputs;
  so_UpdateNodeImage : option string;
  so_Unjail : option TxOutputs;
}.
#[export] Instance SeiNodeTaskOutputs_eq_dec : EqDecision SeiNodeTaskOutputs.
Proof. solve_decision. Defined.

Record SeiNodeTaskStatus := mkTaskStatus {
  ts_ObservedGeneration : Z;
  ts_Phase : SeiNodeTaskPhase;
  ts_Task : option SeiNodeTaskExecution;
  ts_Outputs : option SeiNodeTaskOutputs;
  ts_PhaseTransitionTime : option Z;
  ts_StartedAt : option Z;
  ts_TargetFirstObservedAt : option Z;
  ts_Conditions : list Condition;
}.
#[export] Instance SeiNodeTaskStatus_eq_dec : EqDecision SeiNodeTaskStatus.
Proof. solve_decision. Defined.

Record SeiNodeTask := mkNodeTask {
  nt_Namespace : string;
  nt_Name : string;
  nt_UID : string;
  nt_Generation : Z;
  nt_Spec : SeiNodeTaskSpec;
  nt_Status : SeiNodeTaskStatus;
}.

(** Field updates of the status in memory. *)
Definition upd (f : SeiNodeTaskStatus -> SeiNodeTaskStatus) (cr : SeiNodeTask) : SeiNodeTask :=
  mkNodeTask (nt_Namespace cr) (nt_Name cr) (nt_UID cr) (nt_Generation cr) (nt_Spec cr) (f (nt_Status cr)).
Definition set_observed (g : Z) (s : SeiNodeTaskStatus) :=
  mkTaskStatus g (ts_Phase s) (ts_Task s) (ts_Outputs s) (ts_PhaseTransitionTime s) (ts_StartedAt s)
    (ts_TargetFirstObservedAt s) (ts_Conditions s).
Definition set_phase (p : SeiNodeTaskPhase) (now : Z) (s : SeiNodeTaskStatus) :=
  mkTaskStatus (ts_ObservedGeneration s) p (ts_Task s) (ts_Outputs s) (Some now) (ts_StartedAt s)
    (ts_TargetFirstObservedAt s) (ts_Conditions s).
Definition set_task (t : option SeiNodeTaskExecution) (s : SeiNodeTaskStatus) :=
  mkTaskStatus (ts_ObservedGeneration s) (ts_Phase s) t (ts_Outputs s) (ts_PhaseTransitionTime s)
    (ts_StartedAt s) (ts_TargetFirstObservedAt s) (ts_Conditions s).
Definition set_outputs (o : option SeiNodeTaskOutputs) (s : SeiNodeTaskStatus) :=
  mkTaskStatus (ts_ObservedGeneration s) (ts_Phase s) (ts_Task s) o (ts_PhaseTransitionTime s)
    (ts_StartedAt s) (ts_TargetFirstObservedAt s) (ts_Conditions s).
Definition set_started (t : option Z) (s : SeiNodeTaskStatus) :=
  mkTaskStatus (ts_ObservedGeneration s) (ts_Phase s) (ts_Task s) (ts_Outputs s) (ts_PhaseTransitionTime s)
    t (ts_TargetFirstObservedAt s) (ts_Conditions s).
Definition set_first_observed (t : option Z) (s : SeiNodeTaskStatus) :=
  mkTaskStatus (ts_ObservedGeneration s) (ts_Phase s) (ts_Task s) (ts_Outputs s) (ts_PhaseTransitionTime s)
    (ts_StartedAt s) t (ts_Conditions s).
Definition set_conds (c : list Condition) (s : SeiNodeTaskStatus) :=
  mkTaskStatus (ts_ObservedGeneration s) (ts_Phase s) (ts_Task s) (ts_Outputs s) (ts_PhaseTransitionTime s)
    (ts_StartedAt s) (ts_TargetFirstObservedAt s) c.

Definition phase_of (cr : SeiNodeTask) : SeiNodeTaskPhase := ts_Phase (nt_Status cr).
Definition task_of (cr : SeiNodeTask) : option SeiNodeTaskExecution := ts_Task (nt_Status cr).

(** [metav1.Time] is stored to the second. *)
Definition stored_time (t : option Z) : option Z := (fun n => n / second * second)%Z <$> t.
Definition stored_task (t : SeiNodeTaskExecution) : SeiNodeTaskExecution :=
  mkTaskExecution (te_ID t) (te_Status t) (te_Err t) (stored_time (te_SubmittedAt t))
    (stored_time (te_ExecutionStartedAt t)).
Definition stored_status (s : SeiNodeTaskStatus) : SeiNodeTaskStatus :=
  mkTaskStatus (ts_ObservedGeneration s) (ts_Phase s) (stored_task <$> ts_Task s) (ts_Outputs s)
    (stored_time (ts_PhaseTransitionTime s)) (stored_time (ts_StartedAt s))
    (stored_time (ts_TargetFirstObservedAt s)) (ts_Conditions s).

(** ** Parameters (seinodetask_params.go) *)
Inductive NodeTaskPayload :=
| UpdateNodeImageParams (nodeName namespace image : string)
| GovVoteTask (r : GovVoteRequest)
| GovSoftwareUpgradeTask (r : GovSoftwareUpgradeRequest)
| GovParamChangeTask (r : GovParamChangeRequest)
| GovUpdateInstantiateConfigTask (r : GovUpdateInstantiateConfigRequest)
| AwaitConditionTask (targetHeight : Z) (action : string)
| RestartSeidPayload (upCheck : option UpCheck)
| MarkReadyPayload
| UnjailTask (r : UnjailRequest).

Definition TaskTypeGovVote := "gov-vote".
Definition TaskTypeGovSoftwareUpgrade := "gov-software-upgrade".
Definition TaskTypeGovParamChange := "gov-param-change".
Definition TaskTypeGovUpdateInstantiateConfig := "gov-update-instantiate-config".
Definition ReasonParamsBuildFailed := "ParamsBuildFailed".
Definition ReasonUnsupportedKind := "UnsupportedKind".
Definition GentxOperatorKeyName := "validator".

(** A param-build error: its reason and its text. *)
Record params_error := mkParamsError { pe_Reason : string; pe_Text : string }.
Definition paramsErr (msg : string) : params_error := mkParamsError ReasonParamsBuildFailed msg.
Definition FailureReason (e : params_error) : string := pe_Reason e.

Definition ResolveOperatorKeyringUID (node : SeiNode) : string :=
  match sp_Validator (n_Spec node) with
  | Some v =>
      match v_OperatorKeyring v with
      | Some k =>
          match okr_Secret k with
          | Some s => if ok_KeyName s =s "" then DefaultOperatorKeyName else ok_KeyName s
          | None => GentxOperatorKeyName
          end
      | None => GentxOperatorKeyName
      end
  | None => GentxOperatorKeyName
  end.

Definition resolveSigningUID (explicit : string) (target : option SeiNode) : string :=
  if explicit <>s "" then explicit
  else match target with None => "" | Some n => ResolveOperatorKeyringUID n end.

Definition require {A B} (o : option A) (field kind : string) (f : A -> B + params_error) : B + params_error :=
  match o with
  | None => inr (paramsErr ("spec." +:+ field +:+ " is required for kind=" +:+ kind))
  | Some a => f a
  end.

Section Params.
Context {C : SeiConfig}.

Definition updateNodeImageParams (cr : SeiNodeTask) : (string * NodeTaskPayload) + params_error :=
  require (ks_UpdateNodeImage (nt_Spec cr)) "updateNodeImage" "UpdateNodeImage" (fun image =>
    inl (TaskTypeUpdateNodeImage,
         UpdateNodeImageParams (ks_NodeRef (nt_Spec cr)) (nt_Namespace cr) image)).

Definition govVoteParams (cr : SeiNodeTask) (target : option SeiNode) : (string * NodeTaskPayload) + params_error :=
  require (ks_GovVote (nt_Spec cr)) "govVote" "GovVote" (fun p =>
    inl (TaskTypeGovVote,
         GovVoteTask (mkGovVoteRequest (gv_ChainID p) (resolveSigningUID (gv_KeyName p) target)
           (gv_ProposalID p) (gv_Option p) (gv_Memo p) (gv_Fees p) (gv_Gas p)))).

Definition govSoftwareUpgradeParams (cr : SeiNodeTask) (target : option SeiNode)
  : (string * NodeTaskPayload) + params_error :=
  require (ks_GovSoftwareUpgrade (nt_Spec cr)) "govSoftwareUpgrade" "GovSoftwareUpgrade" (fun p =>
    inl (TaskTypeGovSoftwareUpgrade,
         GovSoftwareUpgradeTask (mkGovSoftwareUpgradeRequest (su_ChainID p)
           (resolveSigningUID (su_KeyName p) target) (su_Title p) (su_Description p) (su_UpgradeName p)
           (su_UpgradeHeight p) (su_UpgradeInfo p) (su_InitialDeposit p) (su_Memo p) (su_Fees p) (su_Gas p)))).

Definition govParamChangeParams (cr : SeiNodeTask) (target : option SeiNode)
  : (string * NodeTaskPayload) + params_error :=
  require (ks_GovParamChange (nt_Spec cr)) "govParamChange" "GovParamChange" (fun p =>
    inl (TaskTypeGovParamChange,
         GovParamChangeTask (mkGovParamChangeRequest (pr_ChainID p)
           (resolveSigningUID (pr_KeyName p) target) (pr_Title p) (pr_Description p) (pr_Changes p)
           (pr_InitialDeposit p) (pr_Memo p) (pr_Fees p) (pr_Gas p)))).

Definition govUpdateInstantiateConfigParams (cr : SeiNodeTask) (target : option SeiNode)
  : (string * NodeTaskPayload) + params_error :=
  require (ks_GovUpdateInstantiateConfig (nt_Spec cr)) "govUpdateInstantiateConfig"
    "GovUpdateInstantiateConfig" (fun p =>
    inl (TaskTypeGovUpdateInstantiateConfig,
         GovUpdateInstantiateConfigTask (mkGovUpdateInstantiateConfigRequest (ui_ChainID p)
           (resolveSigningUID (ui_KeyName p) target) (ui_Title p) (ui_Description p) (ui_Updates p)
           (ui_InitialDeposit p) (ui_Memo p) (ui_Fees p) (ui_Gas p)))).

Definition awaitConditionParams (cr : SeiNodeTask) : (string * NodeTaskPayload) + params_error :=
  require (ks_AwaitCondition (nt_Spec cr)) "awaitCondition" "AwaitCondition" (fun p =>
    match p.1 with
    | None => inr (paramsErr
        "spec.awaitCondition.height is required (height is the only condition wired in MVP)")
    | Some h => inl (TaskAwaitCondition, AwaitConditionTask h p.2)
    end).

Definition awaitNodesAtHeightParams (cr : SeiNodeTask) : (string * NodeTaskPayload) + params_error :=
  require (ks_AwaitNodesAtHeight (nt_Spec cr)) "awaitNodesAtHeight" "AwaitNodesAtHeight" (fun h =>
    inl (TaskAwaitCondition, AwaitConditionTask h "")).

Definition restartSeidParams (cr : SeiNodeTask) (target : option SeiNode) : (string * NodeTaskPayload) + params_error :=
  require (ks_RestartSeid (nt_Spec cr)) "restartSeid" "RestartSeid" (fun _ =>
    inl (TaskTypeRestartSeid, RestartSeidPayload (UpCheckForNode <$> target))).

Definition markReadyParams (cr : SeiNodeTask) : (string * NodeTaskPayload) + params_error :=
  require (ks_MarkReady (nt_Spec cr)) "markReady" "MarkReady" (fun _ => inl (TaskMarkReady, MarkReadyPayload)).

Definition unjailParams (cr : SeiNodeTask) (target : option SeiNode) : (string * NodeTaskPayload) + params_error :=
  require (ks_Unjail (nt_Spec cr)) "unjail" "Unjail" (fun p =>
    let ok := inl (TaskTypeUnjail, UnjailTask (mkUnjailRequest (uj_ChainID p)
                     (resolveSigningUID (uj_KeyName p) target) (uj_Memo p) (uj_Fees p) (uj_Gas p))) in
    match target with
    | None => ok
    | Some n =>
        match sp_Validator (n_Spec n) with
        | None => inr (paramsErr ("kind=Unjail requires a validator target: SeiNode " +:+ n_Name n
                                  +:+ " has no spec.validator"))
        | Some _ => ok
        end
    end).

Definition SeiNodeTaskParamsFor (cr : SeiNodeTask) (target : option SeiNode)
  : (string * NodeTaskPayload) + params_error :=
  match ks_Kind (nt_Spec cr) with
  | KindUpdateNodeImage => updateNodeImageParams cr
  | KindGovVote => govVoteParams cr target
  | KindGovSoftwareUpgrade => govSoftwareUpgradeParams cr target
  | KindGovParamChange => govParamChangeParams cr target
  | KindGovUpdateInstantiateConfig => govUpdateInstantiateConfigParams cr target
  | KindAwaitCondition => awaitConditionParams cr
  | KindAwaitNodesAtHeight => awaitNodesAtHeightParams cr
  | KindRestartSeid => restartSeidParams cr target
  | KindMarkReady => markReadyParams cr
  | KindUnjail => unjailParams cr target
  | KindOther k => inr (mkParamsError ReasonUnsupportedKind
                          ("unsupported kind " +:+ quote k +:+ " is not wired in this build"))
  end.

(** The payload is kept as a value; its JSON encoding does not fail. *)
Definition taskParamsForKind (cr : SeiNodeTask) (target : option SeiNode)
  : (string * NodeTaskPayload) + params_error := SeiNodeTaskParamsFor cr target.
End Params.

(** ** Texts of the messages *)
Definition phase_string (p : SeiNodePhase) : string :=
  match p with
  | PhaseNone => ""
  | PhasePending => "Pending"
  | PhaseInitializing => "Initializing"
  | PhaseRunning => "Running"
  | PhaseFailed => "Failed"
  | PhaseTerminating => "Terminating"
  end.

(** [Duration.String]: a fraction of [prec] digits without its trailing zeros. *)
Definition frac_text (prec : nat) (n : Z) : string :=
  let f := trim_zeros (padded prec (n mod 10 ^ Z.of_nat prec)) in
  if f =s "" then "" else "." +:+ f.
Definition unsigned_text (u : Z) : string :=
  if (u =? 0)%Z then "0s"
  else if (u <? 1000)%Z then pretty u +:+ "ns"
  else if (u <? 1000000)%Z then pretty (u / 1000)%Z +:+ frac_text 3 u +:+ "µs"
  else if (u <? second)%Z then pretty (u / 1000000)%Z +:+ frac_text 6 u +:+ "ms"
  else
    let s := (u / second)%Z in
    let m := (s / 60)%Z in
    let h := (m / 60)%Z in
    (if (0 <? h)%Z then pretty h +:+ "h" else "") +:+
    (if (0 <? m)%Z then pretty (m mod 60)%Z +:+ "m" else "") +:+
    pretty (s mod 60)%Z +:+ frac_text 9 u +:+ "s".
Definition duration_string (d : Z) : string :=
  if (d <? 0)%Z then "-" +:+ unsigned_text (- d) else unsigned_text d.

(** ** The interfaces *)

(** A task execution; [NTResult] is the decoded structured result, [None] when
    the execution carries none or it does not parse. *)
Class NodeTaskRuntime (W : Type) := {
  NTExec : Type;
  NTDeserialize : string -> string -> NodeTaskPayload -> SeiNode -> result NTExec;
  NTExecute : NTExec -> W -> option exec_error * NTExec * W;
  NTStatus : NTExec -> W -> ExecutionStatus * NTExec * W;
  NTErr : NTExec -> option string;
  NTResult : NTExec -> option GovTxResult;
}.

Inductive get_answer := GotNode (n : SeiNode) | NodeNotFound | GetError (e : string).
Class NodeTaskAPI (W : Type) := {
  GetNode : string -> string -> W -> get_answer * W;
  PatchStatus : W -> option string * W;
}.

Definition statusPollInterval : Z := 15 * second.
Definition targetWaitInterval : Z := 5 * second.
Definition defaultRequirePhaseTimeout : Z := 300 * second.
Definition defaultRestartSeidTimeout : Z := 600 * second.
Definition defaultMarkReadyTimeout : Z := 120 * second.

Definition ConditionSeiNodeTaskReady := "Ready".
Definition ConditionSeiNodeTaskFailed := "Failed".
Definition ConditionSeiNodeTaskTargetReady := "TargetReady".

Section NodeTask.
Context {C : SeiConfig} {H : Hashes} {SC : StatusConditions}.
Context {W : Type} {RT : NodeTaskRuntime W} {API : NodeTaskAPI W}.

(** ** The status helpers *)
Definition nt_setCondition (ty : string) (st : ConditionStatus) (reason msg : string) (cr : SeiNodeTask)
  : SeiNodeTask :=
  upd (fun s => set_conds (SetStatusCondition (ts_Conditions s)
                  (mkCondition ty st reason msg (nt_Generation cr))) s) cr.

Definition setPhase (p : SeiNodeTaskPhase) (now : Z) (cr : SeiNodeTask) : SeiNodeTask :=
  if bool_decide (phase_of cr = p) then cr else upd (set_phase p now) cr.

Definition markFailed (now : Z) (reason msg : string) (cr : SeiNodeTask) : SeiNodeTask :=
  nt_setCondition ConditionSeiNodeTaskFailed ConditionTrue reason msg (setPhase TaskPhaseFailed now cr).

(** The in-memory task, as the pointer [cr.Status.Task] updates it. *)
Definition upd_task (f : SeiNodeTaskExecution -> SeiNodeTaskExecution) (cr : SeiNodeTask) : SeiNodeTask :=
  upd (fun s => set_task (f <$> ts_Task s) s) cr.
Definition task_status (st : TaskStatus) (t : SeiNodeTaskExecution) :=
  mkTaskExecution (te_ID t) st (te_Err t) (te_SubmittedAt t) (te_ExecutionStartedAt t).
Definition task_error (msg : string) (t : SeiNodeTaskExecution) :=
  mkTaskExecution (te_ID t) TaskFailed msg (te_SubmittedAt t) (te_ExecutionStartedAt t).
Definition task_anchor (now : Z) (t : SeiNodeTaskExecution) :=
  match te_ExecutionStartedAt t with
  | Some _ => t
  | None => mkTaskExecution (te_ID t) (te_Status t) (te_Err t) (te_SubmittedAt t) (Some now)
  end.
Definition nt_task_submitted (now : Z) (t : SeiNodeTaskExecution) :=
  mkTaskExecution (te_ID t) TaskRunning (te_Err t)
    (match te_SubmittedAt t with Some s => Some s | None => Some now end) (te_ExecutionStartedAt t).

Definition effectiveTimeout (cr : SeiNodeTask) : Z :=
  if (0 <? ks_TimeoutSeconds (nt_Spec cr))%Z then (ks_TimeoutSeconds (nt_Spec cr) * second)%Z
  else match ks_Kind (nt_Spec cr) with
  | KindRestartSeid => defaultRestartSeidTimeout
  | KindMarkReady => defaultMarkReadyTimeout
  | _ => 0
  end.

Definition execTimedOut (cr : SeiNodeTask) (now : Z) : bool :=
  let timeout := effectiveTimeout cr in
  match task_of cr with
  | None => false
  | Some t =>
      match te_ExecutionStartedAt t with
      | None => false
      | Some start => negb (timeout <=? 0)%Z && (start + timeout <? now)%Z
      end
  end.

(** ** Outputs (govoutputs.go) *)
Definition isSignTxKind (k : SeiNodeTaskKind) : bool :=
  match k with
  | KindGovVote | KindGovSoftwareUpgrade | KindGovParamChange | KindGovUpdateInstantiateConfig
  | KindUnjail => true
  | _ => false
  end.

Definition no_outputs : SeiNodeTaskOutputs := mkOutputs None None None None None None.

Definition populateTxOutputs (gr : option GovTxResult) (cr : SeiNodeTask) : SeiNodeTask :=
  match gr with
  | None => cr
  | Some g =>
      let o := default no_outputs (ts_Outputs (nt_Status cr)) in
      let full := Some (mkTxOutputs (gr_TxHash g) (gr_Height g) (gr_ProposalID g)) in
      let plain := Some (mkTxOutputs (gr_TxHash g) (gr_Height g) 0) in
      let o' :=
        match ks_Kind (nt_Spec cr) with
        | KindGovSoftwareUpgrade => mkOutputs full (so_GovVote o) (so_GovParamChange o)
            (so_GovUpdateInstantiateConfig o) (so_UpdateNodeImage o) (so_Unjail o)
        | KindGovParamChange => mkOutputs (so_GovSoftwareUpgrade o) (so_GovVote o) full
            (so_GovUpdateInstantiateConfig o) (so_UpdateNodeImage o) (so_Unjail o)
        | KindGovUpdateInstantiateConfig => mkOutputs (so_GovSoftwareUpgrade o) (so_GovVote o)
            (so_GovParamChange o) full (so_UpdateNodeImage o) (so_Unjail o)
        | KindGovVote => mkOutputs (so_GovSoftwareUpgrade o) plain (so_GovParamChange o)
            (so_GovUpdateInstantiateConfig o) (so_UpdateNodeImage o) (so_Unjail o)
        | KindUnjail => mkOutputs (so_GovSoftwareUpgrade o) (so_GovVote o) (so_GovParamChange o)
            (so_GovUpdateInstantiateConfig o) (so_UpdateNodeImage o) plain
        | _ => o
        end in
      upd (set_outputs (Some o')) cr
  end.

Definition populateOutputs (target : SeiNode) (gr : option GovTxResult) (cr : SeiNodeTask) : SeiNodeTask :=
  match ks_Kind (nt_Spec cr) with
  | KindUpdateNodeImage =>
      let o := default no_outputs (ts_Outputs (nt_Status cr)) in
      upd (set_outputs (Some (mkOutputs (so_GovSoftwareUpgrade o) (so_GovVote o) (so_GovParamChange o)
             (so_GovUpdateInstantiateConfig o) (Some (st_CurrentImage (n_Status target))) (so_Unjail o)))) cr
  | k => if isSignTxKind k then populateTxOutputs gr cr else cr
  end.

(** ** Driving the task *)
Definition markComplete (exec : NTExec) (target : SeiNode) (now : Z) (cr : SeiNodeTask) : SeiNodeTask :=
  let cr := upd_task (task_status TaskComplete) cr in
  let cr := populateOutputs target (NTResult exec) cr in
  let cr := setPhase TaskPhaseComplete now cr in
  nt_setCondition ConditionSeiNodeTaskReady ConditionTrue
    (if isSignTxKind (ks_Kind (nt_Spec cr)) then "Confirmed" else "TaskComplete") "" cr.

Definition handleFailure (exec : NTExec) (now : Z) (cr : SeiNodeTask) : SeiNodeTask :=
  let msg := default "" (NTErr exec) in
  let fail reason cr := markFailed now reason msg (upd_task (task_error msg) cr) in
  match NTResult exec with
  | Some gr =>
      let cr := populateTxOutputs (Some gr) cr in
      if gr_InclusionStatus gr =s InclusionPending then
        if execTimedOut cr now then fail "InclusionUndetermined" cr
        else upd_task (task_status TaskPending) cr
      else if gr_InclusionStatus gr =s InclusionCommittedFailed then fail "TxFailed" cr
      else fail "TaskFailed" cr
  | None => fail "TaskFailed" cr
  end.

(** The [switch] on the polled status. *)
Definition pollOutcome (st : ExecutionStatus) (exec : NTExec) (target : SeiNode) (now : Z) (cr : SeiNodeTask)
  : SeiNodeTask :=
  match st with
  | ExecutionComplete => markComplete exec target now cr
  | ExecutionFailed => handleFailure exec now cr
  | _ =>
      if execTimedOut cr now then
        markFailed now "Timeout" ("task did not complete within " +:+ duration_string (effectiveTimeout cr))
          (upd_task (task_error "timeout") cr)
      else cr
  end.

Definition driveTask (target : SeiNode) (now : Z) (cr : SeiNodeTask) (w : W)
  : option exec_error * SeiNodeTask * W :=
  match taskParamsForKind cr (Some target), task_of cr with
  | inr e, _ => (None, markFailed now (FailureReason e) (pe_Text e) cr, w)
  | inl _, None => (None, cr, w)
  | inl (ty, payload), Some t =>
      match NTDeserialize ty (te_ID t) payload target with
      | Err e => (None, markFailed now "DeserializeFailed" e cr, w)
      | Ok exec =>
          let cr := upd_task (task_anchor now) cr in
          let poll exec cr w :=
            let '(st, exec, w) := NTStatus exec w in (None, pollOutcome st exec target now cr, w) in
          if bool_decide (te_Status t = TaskPending) then
            match NTExecute exec w with
            | (Some e, exec, w) =>
                if ee_terminal e then
                  (None, markFailed now "TaskTerminalError" (ee_msg e) (upd_task (task_error (ee_msg e)) cr), w)
                else (Some e, cr, w)
            | (None, exec, w) => poll exec (upd_task (nt_task_submitted now) cr) w
            end
          else poll exec cr w
      end
  end.

(** ** Reconcile *)
Inductive resolved := Dispatch (target : SeiNode) | Waiting | Fatal (msg : string).

Definition resolveTarget (now : Z) (cr : SeiNodeTask) (w : W) : resolved * SeiNodeTask * W :=
  let name := ks_NodeRef (nt_Spec cr) in
  match GetNode (nt_Namespace cr) name w with
  | (NodeNotFound, w) =>
      (Fatal ("target SeiNode " +:+ quote name +:+ " not found in namespace " +:+ quote (nt_Namespace cr)), cr, w)
  | (GetError e, w) => (Fatal e, cr, w)
  | (GotNode target, w) =>
      let requirePhase := match ks_RequirePhase (nt_Spec cr) with PhaseNone => PhaseRunning | p => p end in
      let phase := st_Phase (n_Status target) in
      if bool_decide (phase = requirePhase) then
        (Dispatch target,
         nt_setCondition ConditionSeiNodeTaskTargetReady ConditionTrue "PhaseMet"
           ("target " +:+ name +:+ " is " +:+ phase_string requirePhase) (upd (set_first_observed None) cr), w)
      else
        let first := default now (ts_TargetFirstObservedAt (nt_Status cr)) in
        let cr := upd (set_first_observed (Some first)) cr in
        let timeout := default defaultRequirePhaseTimeout (ks_RequirePhaseTimeout (nt_Spec cr)) in
        if (timeout <? now - first)%Z then
          (Fatal ("target " +:+ quote name +:+ " did not reach phase " +:+ quote (phase_string requirePhase)
                  +:+ " within " +:+ duration_string timeout +:+ " (current: " +:+ quote (phase_string phase) +:+ ")"),
           cr, w)
        else
          (Waiting,
           nt_setCondition ConditionSeiNodeTaskTargetReady ConditionFalse "PhaseNotMet"
             ("waiting for target " +:+ name +:+ " to reach " +:+ phase_string requirePhase +:+ " (current: "
              +:+ phase_string phase +:+ ")") cr, w)
  end.

(** What a reconcile returns, the stored resource after it, and the world. *)
Record reconciled := mkReconciled {
  rc_Result : Executor.Result;
  rc_Err : option string;
  rc_Stored : SeiNodeTask;
  rc_World : W;
}.

(** [flush]: the in-memory status is stored when it changed and the patch
    succeeds. *)
Definition flush (before cr : SeiNodeTask) (result : Executor.Result) (execErr : option exec_error) (w : W)
  : reconciled :=
  let finish stored w := mkReconciled result (ee_msg <$> execErr) stored w in
  if bool_decide (nt_Status before = nt_Status cr) then finish before w
  else match PatchStatus w with
  | (Some e, w) => mkReconciled ResultNone (Some ("flushing status: " +:+ e)) before w
  | (None, w) => finish (upd stored_status cr) w
  end.

Definition synthesize (now : Z) (cr : SeiNodeTask) : SeiNodeTask :=
  setPhase TaskPhaseRunning now
    (upd (set_task (Some (mkTaskExecution
       (DeterministicTaskID (nt_UID cr) (kind_string (ks_Kind (nt_Spec cr))) 0) TaskPending "" None (Some now)))) cr).

Definition Reconcile (now : Z) (before : SeiNodeTask) (w : W) : reconciled :=
  match phase_of before with
  | TaskPhaseComplete | TaskPhaseFailed => mkReconciled ResultNone None before w
  | _ =>
      let cr := upd (set_observed (nt_Generation before)) before in
      let cr := upd (fun s => set_started (match ts_StartedAt s with Some t => Some t | None => Some now end) s) cr in
      let '(r, cr, w) := resolveTarget now cr w in
      let poll cr := if bool_decide (phase_of cr = TaskPhaseRunning) then Executor.mkResult statusPollInterval
                     else ResultNone in
      match r with
      | Fatal msg =>
          let cr := markFailed now "TargetResolveFailed" msg cr in flush before cr (poll cr) None w
      | Waiting => flush before cr (Executor.mkResult targetWaitInterval) None w
      | Dispatch target =>
          match task_of cr with
          | None =>
              match taskParamsForKind cr None with
              | inr e => let cr := markFailed now (FailureReason e) (pe_Text e) cr in flush before cr (poll cr) None w
              | inl _ => flush before (synthesize now cr) ResultRequeueImmediate None w
              end
          | Some _ =>
              let '(e, cr, w) := driveTask target now cr w in flush before cr (poll cr) e w
          end
      end
  end.

(** ** The invariant of a stored task *)
Definition task_id (cr : SeiNodeTask) : string :=
  DeterministicTaskID (nt_UID cr) (kind_string (ks_Kind (nt_Spec cr))) 0.
Definition cond_true (ty : string) (cr : SeiNodeTask) : Prop :=
  exists c, FindStatusCondition (ts_Conditions (nt_Status cr)) ty = Some c /\ c_Status c = ConditionTrue.
(** The phase and the task agree; a task has the one id of the resource. *)
Record nt_wf (cr : SeiNodeTask) : Prop := {
  wf_id : forall t, task_of cr = Some t -> te_ID t = task_id cr;
  wf_new : phase_of cr = TaskPhaseNone \/ phase_of cr = TaskPhasePending -> task_of cr = None;
  wf_running : phase_of cr = TaskPhaseRunning ->
    exists t, task_of cr = Some t /\ (te_Status t = TaskPending \/ te_Status t = TaskRunning);
  wf_complete : phase_of cr = TaskPhaseComplete ->
    (exists t, task_of cr = Some t /\ te_Status t = TaskComplete) /\ cond_true ConditionSeiNodeTaskReady cr;
  wf_failed : phase_of cr = TaskPhaseFailed -> cond_true ConditionSeiNodeTaskFailed cr;
}.

(** What a reconcile leaves alone. *)
Definition same_resource (a b : SeiNodeTask) : Prop :=
  nt_Namespace a = nt_Namespace b /\ nt_Name a = nt_Name b /\ nt_UID a = nt_UID b /\
  nt_Generation a = nt_Generation b /\ nt_Spec a = nt_Spec b.
Lemma same_resource_refl a : same_resource a a.
Proof. by repeat split. Qed.
Lemma same_resource_trans a b c : same_resource a b -> same_resource b c -> same_resource a c.
Proof. unfold same_resource. intuition congruence. Qed.
Lemma same_resource_upd f a : same_resource (upd f a) a.
Proof. by repeat split. Qed.
Lemma same_resource_id a b : same_resource a b -> task_id a = task_id b.
Proof. unfold task_id. intros (_ & _ & -> & _ & ->). done. Qed.

(** Phase and task after each helper. *)
Lemma setPhase_phase p now cr : phase_of (setPhase p now cr) = p.
Proof. unfold setPhase. case_bool_decide; done. Qed.
Lemma setPhase_task p now cr : task_of (setPhase p now cr) = task_of cr.
Proof. unfold setPhase. by case_bool_decide. Qed.
Lemma setPhase_object p now cr : same_resource (setPhase p now cr) cr.
Proof. unfold setPhase. case_bool_decide; [apply same_resource_refl|apply same_resource_upd]. Qed.
Lemma markFailed_phase now r m cr : phase_of (markFailed now r m cr) = TaskPhaseFailed.
Proof. apply (setPhase_phase TaskPhaseFailed now cr). Qed.
Lemma markFailed_task now r m cr : task_of (markFailed now r m cr) = task_of cr.
Proof. apply (setPhase_task TaskPhaseFailed now cr). Qed.
Lemma markFailed_object now r m cr : same_resource (markFailed now r m cr) cr.
Proof. eapply same_resource_trans; [apply same_resource_upd|apply setPhase_object]. Qed.
Lemma populateTxOutputs_frame g cr :
  phase_of (populateTxOutputs g cr) = phase_of cr /\ task_of (populateTxOutputs g cr) = task_of cr /\
  ts_Conditions (nt_Status (populateTxOutputs g cr)) = ts_Conditions (nt_Status cr) /\
  same_resource (populateTxOutputs g cr) cr.
Proof. destruct g; by repeat split. Qed.
Lemma populateOutputs_frame n g cr :
  phase_of (populateOutputs n g cr) = phase_of cr /\ task_of (populateOutputs n g cr) = task_of cr /\
  same_resource (populateOutputs n g cr) cr.
Proof.
  unfold populateOutputs. destruct (populateTxOutputs_frame g cr) as (? & ? & _ & ?).
  destruct (ks_Kind (nt_Spec cr)); simpl; first [by split_and! | by repeat split].
Qed.

Section Laws.
Context {SCL : StatusConditionsLaws SC}.

Lemma markFailed_cond now r m cr : cond_true ConditionSeiNodeTaskFailed (markFailed now r m cr).
Proof. eexists. split; [apply (find_set_same _ (mkCondition ConditionSeiNodeTaskFailed _ _ _ _))|done]. Qed.

(** A failure keeps the invariant whatever it is applied to. *)
Lemma markFailed_wf now r m cr :
  (forall t, task_of cr = Some t -> te_ID t = task_id cr) -> nt_wf (markFailed now r m cr).
Proof.
  intros Hid. pose proof (markFailed_phase now r m cr) as Hp. split.
  - rewrite markFailed_task, (same_resource_id _ _ (markFailed_object now r m cr)). exact Hid.
  - rewrite Hp. by intros [|].
  - by rewrite Hp.
  - by rewrite Hp.
  - intros _. apply markFailed_cond.
Qed.

(** A task in flight: the phase is Running and the task is its own. *)
Definition in_flight (cr : SeiNodeTask) : Prop :=
  phase_of cr = TaskPhaseRunning /\
  exists t, task_of cr = Some t /\ te_ID t = task_id cr /\ (te_Status t = TaskPending \/ te_Status t = TaskRunning).
Lemma in_flight_wf cr : in_flight cr -> nt_wf cr.
Proof.
  intros (Hp & t & Ht & Hid & Hst). split; rewrite ?Hp; try done; [congruence|by intros [|]|eauto].
Qed.
Lemma in_flight_id cr : in_flight cr -> forall t, task_of cr = Some t -> te_ID t = task_id cr.
Proof. intros (_ & t' & Ht & Hid & _) t. congruence. Qed.
Lemma in_flight_upd_task f cr :
  (forall t, te_ID (f t) = te_ID t) ->
  (forall t, te_Status t = TaskPending \/ te_Status t = TaskRunning ->
             te_Status (f t) = TaskPending \/ te_Status (f t) = TaskRunning) ->
  in_flight cr -> in_flight (upd_task f cr).
Proof.
  intros Hf1 Hf2 (Hp & t & Ht & Hid & Hst). split; [done|]. exists (f t).
  unfold upd_task, task_of in *. simpl. rewrite Ht. split; [done|]. rewrite Hf1. auto.
Qed.
Lemma upd_task_id f cr : (forall t, te_ID (f t) = te_ID t) ->
  (forall t, task_of cr = Some t -> te_ID t = task_id cr) ->
  forall t, task_of (upd_task f cr) = Some t -> te_ID t = task_id cr.
Proof.
  intros Hf Hid t. unfold upd_task, task_of in *. simpl. destruct (ts_Task (nt_Status cr)) as [t0|]; [|done].
  intros [= <-]. rewrite Hf. by apply Hid.
Qed.

Lemma markComplete_wf exec n now cr : in_flight cr -> nt_wf (markComplete exec n now cr).
Proof.
  intros Hf. pose proof (in_flight_id _ Hf) as Hid. destruct Hf as (Hp & t & Ht & Hidt & Hst).
  unfold markComplete. set (c1 := upd_task (task_status TaskComplete) cr).
  destruct (populateOutputs_frame n (NTResult exec) c1) as (Hp2 & Ht2 & Ho2). set (c2 := populateOutputs _ _ c1) in *.
  set (c3 := setPhase TaskPhaseComplete now c2).
  assert (Ht1 : task_of c1 = Some (task_status TaskComplete t))
    by (unfold c1, upd_task, task_of in *; simpl; by rewrite Ht).
  assert (Hp3 : phase_of c3 = TaskPhaseComplete) by apply setPhase_phase.
  assert (Ht3 : task_of c3 = Some (task_status TaskComplete t)) by (unfold c3; by rewrite setPhase_task, Ht2).
  assert (Hi3 : task_id c3 = task_id cr).
  { apply same_resource_id. eapply same_resource_trans; [apply setPhase_object|].
    eapply same_resource_trans; [exact Ho2|apply same_resource_upd]. }
  match goal with |- nt_wf (nt_setCondition _ _ ?r _ _) => generalize r end. intros reason. split.
  - intros t'. change (task_of c3 = Some t' -> te_ID t' = task_id c3). rewrite Ht3, Hi3. by intros [= <-].
  - change (phase_of c3 = TaskPhaseNone \/ phase_of c3 = TaskPhasePending -> task_of c3 = None). rewrite Hp3. by intros [|].
  - change (phase_of c3 = TaskPhaseRunning -> exists t, task_of c3 = Some t /\ (te_Status t = TaskPending \/ te_Status t = TaskRunning)).
    by rewrite Hp3.
  - intros _. split.
    + exists (task_status TaskComplete t). split; [exact Ht3|done].
    + eexists. split; [apply (find_set_same _ (mkCondition ConditionSeiNodeTaskReady _ _ _ _))|done].
  - change (phase_of c3 = TaskPhaseFailed -> cond_true ConditionSeiNodeTaskFailed
      (nt_setCondition ConditionSeiNodeTaskReady ConditionTrue reason "" c3)). by rewrite Hp3.
Qed.

Lemma fail_task_wf now r m msg cr : (forall t, task_of cr = Some t -> te_ID t = task_id cr) ->
  nt_wf (markFailed now r m (upd_task (task_error msg) cr)).
Proof. intros Hid. apply markFailed_wf. change (task_id (upd_task (task_error msg) cr)) with (task_id cr). by apply upd_task_id. Qed.

Lemma in_flight_outputs g cr : in_flight cr -> in_flight (populateTxOutputs g cr).
Proof.
  destruct (populateTxOutputs_frame g cr) as (Hp & Ht & _ & Ho). unfold in_flight.
  by rewrite Hp, Ht, (same_resource_id _ _ Ho).
Qed.

Lemma handleFailure_wf exec now cr : in_flight cr -> nt_wf (handleFailure exec now cr).
Proof.
  intros Hf. unfold handleFailure.
  destruct (NTResult exec) as [g|]; [|apply fail_task_wf, in_flight_id, Hf].
  apply (in_flight_outputs (Some g)) in Hf. repeat case_match; try (apply fail_task_wf, in_flight_id, Hf).
  apply in_flight_wf, in_flight_upd_task; auto.
Qed.

Lemma pollOutcome_wf st exec n now cr : in_flight cr -> nt_wf (pollOutcome st exec n now cr).
Proof.
  intros Hf. destruct st; [|by apply markComplete_wf|by apply handleFailure_wf|].
  all: simpl; case_match; [apply fail_task_wf, in_flight_id, Hf|by apply in_flight_wf].
Qed.

Lemma driveTask_wf n now cr w : in_flight cr -> nt_wf (driveTask n now cr w).1.2.
Proof.
  intros Hf. unfold driveTask. destruct (taskParamsForKind cr (Some n)) as [[ty p]|e];
    [|apply markFailed_wf, in_flight_id, Hf].
  destruct (task_of cr) as [t|] eqn:Ht; [|destruct Hf as (_ & ? & ? & _); congruence].
  destruct (NTDeserialize ty (te_ID t) p n) as [exec|e]; [|apply markFailed_wf, in_flight_id, Hf].
  assert (Ha : in_flight (upd_task (task_anchor now) cr)).
  { apply in_flight_upd_task; [..|done]; intros t0; unfold task_anchor; by case_match. }
  case_bool_decide.
  - destruct (NTExecute exec w) as [[[e|] exec'] w'].
    + case_match; [apply fail_task_wf, in_flight_id, Ha|by apply in_flight_wf].
    + destruct (NTStatus exec' w') as [[st exec''] w'']. simpl. apply pollOutcome_wf, in_flight_upd_task; auto.
  - destruct (NTStatus exec w) as [[st exec''] w'']. simpl. by apply pollOutcome_wf.
Qed.

(** What [resolveTarget] leaves alone. *)
Lemma resolveTarget_frame now cr w :
  phase_of (resolveTarget now cr w).1.2 = phase_of cr /\ task_of (resolveTarget now cr w).1.2 = task_of cr /\
  same_resource (resolveTarget now cr w).1.2 cr.
Proof.
  unfold resolveTarget. destruct (GetNode _ _ w) as [[n| |e] w']; [|by repeat split..].
  cbv zeta. case_bool_decide; [by repeat split|]. destruct (Z.ltb _ _); by repeat split.
Qed.
(** Only the conditions of the target are touched. *)
Lemma resolveTarget_wf now cr w : nt_wf cr -> phase_of cr <> TaskPhaseComplete -> phase_of cr <> TaskPhaseFailed ->
  nt_wf (resolveTarget now cr w).1.2.
Proof.
  intros [H1 H2 H3 H4 H5] Hc Hf. destruct (resolveTarget_frame now cr w) as (Hp & Ht & Ho).
  split; rewrite ?Hp, ?Ht, ?(same_resource_id _ _ Ho); done.
Qed.

Lemma stored_task_of cr : task_of (upd stored_status cr) = stored_task <$> task_of cr.
Proof. done. Qed.
Lemma stored_wf cr : nt_wf cr -> nt_wf (upd stored_status cr).
Proof.
  intros [H1 H2 H3 H4 H5]. split; rewrite ?stored_task_of; change (phase_of (upd stored_status cr)) with (phase_of cr).
  - intros t. destruct (task_of cr) as [t0|]; [|done]. intros [= <-]. exact (H1 t0 eq_refl).
  - intros Hp. by rewrite H2.
  - intros Hp. destruct (H3 Hp) as (t & -> & Ht). exists (stored_task t). split; [done|exact Ht].
  - intros Hp. destruct (H4 Hp) as [(t & -> & Ht) Hc]. split; [exists (stored_task t); split; [done|exact Ht]|exact Hc].
  - intros Hp. by apply H5.
Qed.

Lemma flush_stored before cr res e w :
  rc_Stored (flush before cr res e w) = before \/ rc_Stored (flush before cr res e w) = upd stored_status cr.
Proof.
  unfold flush. case_bool_decide; [by left|]. destruct (PatchStatus w) as [[?|] w']; [by left|by right].
Qed.
Lemma flush_wf before cr res e w : nt_wf before -> nt_wf cr -> nt_wf (rc_Stored (flush before cr res e w)).
Proof. intros Hb Hc. destruct (flush_stored before cr res e w) as [->| ->]; [done|by apply stored_wf]. Qed.

(** The start of a reconcile: generation observed, start time stamped. *)
Definition begun (now : Z) (before : SeiNodeTask) : SeiNodeTask :=
  upd (fun s => set_started (match ts_StartedAt s with Some t => Some t | None => Some now end) s)
    (upd (set_observed (nt_Generation before)) before).
Lemma begun_wf now cr : nt_wf cr -> nt_wf (begun now cr).
Proof. by intros [H1 H2 H3 H4 H5]; split. Qed.

Lemma wf_in_flight cr t : nt_wf cr -> phase_of cr <> TaskPhaseComplete -> phase_of cr <> TaskPhaseFailed ->
  task_of cr = Some t -> in_flight cr.
Proof.
  intros [H1 H2 H3 H4 H5] Hc Hf Ht. destruct (phase_of cr) eqn:Hp; try done.
  1, 2: rewrite H2 in Ht; [done|auto].
  destruct (H3 eq_refl) as (t' & Ht' & Hst). split; [done|]. exists t'. auto.
Qed.

Lemma synthesize_wf now cr : nt_wf (synthesize now cr).
Proof.
  apply in_flight_wf. unfold synthesize. split; [apply setPhase_phase|].
  eexists. split; [rewrite setPhase_task; done|]. split; [|by left].
  symmetry. apply same_resource_id. eapply same_resource_trans; [apply setPhase_object|apply same_resource_upd].
Qed.

Lemma Reconcile_wf now cr w : nt_wf cr -> nt_wf (rc_Stored (Reconcile now cr w)).
Proof.
  intros Hw. unfold Reconcile. fold (begun now cr).
  destruct (decide (phase_of cr = TaskPhaseComplete)) as [Hc|Hc]; [by rewrite Hc|].
  destruct (decide (phase_of cr = TaskPhaseFailed)) as [Hf|Hf]; [by rewrite Hf|].
  assert (Hr : nt_wf (resolveTarget now (begun now cr) w).1.2) by (apply resolveTarget_wf; [by apply begun_wf|done..]).
  destruct (resolveTarget_frame now (begun now cr) w) as (Hp & _ & _).
  destruct (resolveTarget now (begun now cr) w) as [[r cr1] w1]. simpl in Hr, Hp.
  change (phase_of (begun now cr)) with (phase_of cr) in Hp.
  destruct (phase_of cr) eqn:Hpc; try done.
  all: destruct r as [n| |msg]; [|by apply flush_wf|by apply flush_wf, markFailed_wf, Hr].
  all: destruct (task_of cr1) as [t|] eqn:Ht;
    [|destruct (taskParamsForKind cr1 None); [apply flush_wf, synthesize_wf|apply flush_wf, markFailed_wf, Hr]; done].
  all: pose proof (driveTask_wf n now cr1 w1) as Hd; destruct (driveTask n now cr1 w1) as [[e cr2] w2];
    apply flush_wf; [done|]; apply Hd; eapply wf_in_flight; [done|congruence..|exact Ht].
Qed.

(** ** Phases only move forward *)
Definition terminal (p : SeiNodeTaskPhase) : bool :=
  bool_decide (p = TaskPhaseComplete) || bool_decide (p = TaskPhaseFailed).
Definition moved (p q : SeiNodeTaskPhase) : Prop := q = p \/ q = TaskPhaseComplete \/ q = TaskPhaseFailed.

Lemma pollOutcome_phase st exec n now cr : moved (phase_of cr) (phase_of (pollOutcome st exec n now cr)).
Proof.
  destruct st; simpl.
  1, 4: case_match; [right; right; apply markFailed_phase|by left].
  - right. left. apply setPhase_phase.
  - unfold handleFailure. destruct (NTResult exec) as [g|]; [|right; right; apply markFailed_phase].
    cbv zeta. repeat case_match; try (right; right; apply markFailed_phase). by left.
Qed.

Lemma driveTask_phase n now cr w : moved (phase_of cr) (phase_of (driveTask n now cr w).1.2).
Proof.
  unfold driveTask. destruct (taskParamsForKind cr (Some n)) as [[ty p]|e]; [|right; right; apply markFailed_phase].
  destruct (task_of cr) as [t|]; [|by left].
  destruct (NTDeserialize ty (te_ID t) p n) as [exec|e]; [|right; right; apply markFailed_phase].
  cbv zeta. case_bool_decide.
  - destruct (NTExecute exec w) as [[[e|] exec'] w']; [case_match; [right; right; apply markFailed_phase|by left]|].
    destruct (NTStatus exec' w') as [[st exec''] w'']. match goal with |- moved _ (phase_of (_, pollOutcome _ _ _ _ ?c, _).1.2) => exact (pollOutcome_phase st exec'' n now c) end.
  - destruct (NTStatus exec w) as [[st exec''] w'']. match goal with |- moved _ (phase_of (_, pollOutcome _ _ _ _ ?c, _).1.2) => exact (pollOutcome_phase st exec'' n now c) end.
Qed.

Lemma flush_phase before cr res e w (Q : SeiNodeTaskPhase -> Prop) :
  Q (phase_of before) -> Q (phase_of cr) -> Q (phase_of (rc_Stored (flush before cr res e w))).
Proof. destruct (flush_stored before cr res e w) as [->| ->]; auto. Qed.
Lemma flush_object before cr res e w : same_resource cr before -> same_resource (rc_Stored (flush before cr res e w)) before.
Proof.
  destruct (flush_stored before cr res e w) as [->| ->]; [intros; apply same_resource_refl|].
  intros Ho. eapply same_resource_trans; [apply same_resource_upd|done].
Qed.

Lemma Reconcile_terminal now cr w : terminal (phase_of cr) = true ->
  Reconcile now cr w = mkReconciled ResultNone None cr w.
Proof. unfold Reconcile. by destruct (phase_of cr). Qed.

(** A reconcile taken apart: it stops at a terminal phase, or resolves the
    target and ends in one of the flushes. *)
Lemma Reconcile_cases now cr w (Q : reconciled -> Prop) :
  (terminal (phase_of cr) = true -> Q (mkReconciled ResultNone None cr w)) ->
  (terminal (phase_of cr) = false -> forall r cr1 w1, resolveTarget now (begun now cr) w = (r, cr1, w1) ->
    (forall reason msg res, r = Fatal msg \/ task_of cr1 = None -> Q (flush cr (markFailed now reason msg cr1) res None w1)) /\
    (r = Waiting -> forall res, Q (flush cr cr1 res None w1)) /\
    (task_of cr1 = None -> forall n, r = Dispatch n -> Q (flush cr (synthesize now cr1) ResultRequeueImmediate None w1)) /\
    (forall n t, r = Dispatch n -> task_of cr1 = Some t ->
       forall res, Q (flush cr (driveTask n now cr1 w1).1.2 res (driveTask n now cr1 w1).1.1 (driveTask n now cr1 w1).2))) ->
  Q (Reconcile now cr w).
Proof.
  intros Hterm Hgo. destruct (terminal (phase_of cr)) eqn:Et; [rewrite Reconcile_terminal by done; auto|].
  unfold Reconcile. fold (begun now cr).
  destruct (resolveTarget now (begun now cr) w) as [[r cr1] w1] eqn:Er.
  destruct (Hgo eq_refl _ _ _ eq_refl) as (H1 & H2 & H3 & H4).
  destruct (phase_of cr) eqn:Hpc; try done.
  all: destruct r as [n| |msg]; [|by apply H2|by apply H1; left].
  all: destruct (task_of cr1) as [t|] eqn:Ht;
    [|destruct (taskParamsForKind cr1 None); [by eapply H3|by apply H1; right]].
  all: pose proof (H4 n t eq_refl eq_refl) as Hd; destruct (driveTask n now cr1 w1) as [[e cr2] w2]; apply Hd.
Qed.

Lemma driveTask_object n now cr w : same_resource (driveTask n now cr w).1.2 cr.
Proof.
  assert (Hp : forall st exec cr, same_resource (pollOutcome st exec n now cr) cr).
  { intros st exec c. destruct st; simpl.
    1, 4: case_match; [eapply same_resource_trans; [apply markFailed_object|apply same_resource_upd]|apply same_resource_refl].
    - eapply same_resource_trans; [apply same_resource_upd|]. eapply same_resource_trans; [apply setPhase_object|].
      destruct (populateOutputs_frame n (NTResult exec) (upd_task (task_status TaskComplete) c)) as (_ & _ & Ho).
      eapply same_resource_trans; [exact Ho|apply same_resource_upd].
    - unfold handleFailure. destruct (NTResult exec) as [g|];
        [|eapply same_resource_trans; [apply markFailed_object|apply same_resource_upd]].
      cbv zeta. repeat case_match; try (eapply same_resource_trans; [apply markFailed_object|by repeat split]). by repeat split. }
  unfold driveTask. destruct (taskParamsForKind cr (Some n)) as [[ty p]|e]; [|apply markFailed_object].
  destruct (task_of cr) as [t|]; [|apply same_resource_refl].
  destruct (NTDeserialize ty (te_ID t) p n) as [exec|e]; [|apply markFailed_object]. cbv zeta. case_bool_decide.
  - destruct (NTExecute exec w) as [[[e|] exec'] w'];
      [case_match; [eapply same_resource_trans; [apply markFailed_object|by repeat split]|by repeat split]|].
    destruct (NTStatus exec' w') as [[st exec''] w'']. eapply same_resource_trans; [exact (Hp st exec'' _)|by repeat split].
  - destruct (NTStatus exec w) as [[st exec''] w'']. eapply same_resource_trans; [exact (Hp st exec'' _)|by repeat split].
Qed.

Lemma resolveTarget_object now cr w r cr1 w1 : resolveTarget now (begun now cr) w = (r, cr1, w1) -> same_resource cr1 cr.
Proof.
  intros E. destruct (resolveTarget_frame now (begun now cr) w) as (_ & _ & Ho). rewrite E in Ho.
  eapply same_resource_trans; [exact Ho|by repeat split].
Qed.

Lemma Reconcile_object now cr w : same_resource (rc_Stored (Reconcile now cr w)) cr.
Proof.
  apply Reconcile_cases; [intros; apply same_resource_refl|]. intros _ r cr1 w1 E%resolveTarget_object. split_and!; intros.
  all: apply flush_object; (eapply same_resource_trans; [|exact E]).
  - apply markFailed_object.
  - apply same_resource_refl.
  - eapply same_resource_trans; [apply setPhase_object|apply same_resource_upd].
  - apply driveTask_object.
Qed.

Definition rank (p : SeiNodeTaskPhase) : nat :=
  match p with TaskPhaseNone => 0 | TaskPhasePending => 1 | TaskPhaseRunning => 2 | _ => 3 end.
Lemma Reconcile_rank now cr w : rank (phase_of cr) <= rank (phase_of (rc_Stored (Reconcile now cr w))).
Proof.
  apply (Reconcile_cases now cr w (fun r => rank (phase_of cr) <= rank (phase_of (rc_Stored r)))); [done|].
  intros Ht r cr1 w1 E. assert (Hp : phase_of cr1 = phase_of cr).
  { destruct (resolveTarget_frame now (begun now cr) w) as (Hp & _ & _). by rewrite E in Hp. }
  assert (H3 : forall p, rank p <= 3) by (by intros []; simpl; lia).
  split_and!; intros; apply (flush_phase _ _ _ _ _ (fun p => rank (phase_of cr) <= rank p)); try done.
  - rewrite markFailed_phase. apply H3.
  - by rewrite Hp.
  - unfold synthesize. rewrite setPhase_phase. by destruct (phase_of cr); simpl; try lia.
  - destruct (driveTask_phase n now cr1 w1) as [-> |[-> | ->]]; [by rewrite Hp|apply H3..].
Qed.

(** ** The life of a resource

    Reconciles, changes of the world between them, and edits of the spec, which
    keep the kind. *)
Inductive nt_step : SeiNodeTask * W -> SeiNodeTask * W -> Prop :=
| step_reconcile now cr w :
    nt_step (cr, w) (rc_Stored (Reconcile now cr w), rc_World (Reconcile now cr w))
| step_world cr w w' : nt_step (cr, w) (cr, w')
| step_edit cr spec w : ks_Kind spec = ks_Kind (nt_Spec cr) ->
    nt_step (cr, w) (mkNodeTask (nt_Namespace cr) (nt_Name cr) (nt_UID cr) (nt_Generation cr + 1) spec (nt_Status cr), w).

Lemma nt_step_keeps a b : nt_step a b -> nt_wf a.1 ->
  nt_wf b.1 /\ task_id b.1 = task_id a.1 /\ rank (phase_of a.1) <= rank (phase_of b.1) /\
  (terminal (phase_of a.1) = true -> nt_Status b.1 = nt_Status a.1).
Proof.
  intros [now cr w|cr w w'|cr spec w Hk]; simpl; intros Hw.
  - split_and!; [by apply Reconcile_wf|apply same_resource_id, Reconcile_object|apply Reconcile_rank|].
    intros Ht. by rewrite Reconcile_terminal.
  - done.
  - assert (Hid : forall c, nt_UID c = nt_UID cr -> nt_Spec c = spec -> task_id c = task_id cr)
      by (unfold task_id; intros c -> ->; by rewrite Hk).
    split_and!; [|by apply Hid|done|done].
    destruct Hw as [H1 H2 H3 H4 H5]. split; [|done..]. intros t Ht. rewrite Hid by done. by apply H1.
Qed.

(** C27: the status of a SeiNodeTask is well formed for life. From a new
    resource, through any reconciles, changes of the world and edits of the spec: a
    Running resource has a task that is pending or running, a Complete one a
    completed task and a true Ready condition, a Failed one a true Failed condition; its task
    has one id, derived from the resource; the phase never moves back and a
    terminal status never changes. *)
Theorem nodetask_wellformed_for_life cr w cr1 w1 cr2 w2 :
  nt_Status cr = mkTaskStatus 0 TaskPhaseNone None None None None None [] ->
  rtc nt_step (cr, w) (cr1, w1) -> rtc nt_step (cr1, w1) (cr2, w2) ->
  nt_wf cr2 /\ task_id cr2 = task_id cr /\ rank (phase_of cr1) <= rank (phase_of cr2) /\
  (terminal (phase_of cr1) = true -> nt_Status cr2 = nt_Status cr1).
Proof.
  intros Hnew.
  assert (Hsteps : forall a b, rtc nt_step a b -> nt_wf a.1 ->
    nt_wf b.1 /\ task_id b.1 = task_id a.1 /\ rank (phase_of a.1) <= rank (phase_of b.1) /\
    (terminal (phase_of a.1) = true -> nt_Status b.1 = nt_Status a.1)).
  { induction 1 as [a|a b c Hab _ IH]; [done|]. intros Hw.
    destruct (nt_step_keeps _ _ Hab Hw) as (Hw' & Hid & Hr & Ht). destruct (IH Hw') as (Hc & Hid' & Hr' & Ht').
    split_and!; [done|congruence|lia|]. intros Hterm. rewrite Ht' by (unfold phase_of; rewrite Ht; done). by apply Ht. }
  intros H1 H2. assert (Hw : nt_wf cr).
  { destruct cr; simpl in Hnew; subst. by split. }
  destruct (Hsteps _ _ H1 Hw) as (Hw1 & Hid1 & _). destruct (Hsteps _ _ H2 Hw1) as (Hw2 & Hid2 & Hr & Ht).
  simpl in *. split_and!; [done|congruence|done..].
Qed.

(** Property: No side effect before the task is on record. A reconcile of a resource
    without a stored task calls nothing but a read of the target and the patch
    of the status: it does not submit or poll. *)
Theorem nodetask_recorded_before_run now cr w :
  task_of cr = None ->
  let w1 := (GetNode (nt_Namespace cr) (ks_NodeRef (nt_Spec cr)) w).2 in
  rc_World (Reconcile now cr w) = w \/ rc_World (Reconcile now cr w) = w1 \/
  rc_World (Reconcile now cr w) = (PatchStatus w1).2.
Proof.
  intros Hnone w1.
  apply (Reconcile_cases now cr w (fun r => rc_World r = w \/ rc_World r = w1 \/ rc_World r = (PatchStatus w1).2));
    [by left|].
  intros _ r cr1 w' E.
  assert (w' = w1 /\ task_of cr1 = None) as [-> Ht].
  { destruct (resolveTarget_frame now (begun now cr) w) as (_ & Ht & _). rewrite E in Ht.
    split; [|simpl in Ht; by rewrite Ht].
    unfold resolveTarget in E. change (nt_Namespace (begun now cr)) with (nt_Namespace cr) in E.
    change (nt_Spec (begun now cr)) with (nt_Spec cr) in E. subst w1.
    destruct (GetNode _ _ w) as [[n| |e] w2]; repeat case_match; by simplify_eq. }
  assert (Hf : forall c res e, rc_World (flush cr c res e w1) = w1 \/ rc_World (flush cr c res e w1) = (PatchStatus w1).2).
  { intros c res e. unfold flush. case_bool_decide; [by left|]. destruct (PatchStatus w1) as [[?|] ?]; by right. }
  split_and!; intros; try (right; apply Hf). congruence.
Qed.

(** ** Completion *)

(** The poll of a reconcile: the task under its stored id, submitted first when
    it is pending. *)
Definition polled (n : SeiNode) (cr : SeiNodeTask) (w : W) (st : ExecutionStatus) (exec' : NTExec) (w' : W) : Prop :=
  exists ty payload t exec, taskParamsForKind cr (Some n) = inl (ty, payload) /\ task_of cr = Some t /\
    NTDeserialize ty (te_ID t) payload n = Ok exec /\
    ((te_Status t <> TaskPending /\ NTStatus exec w = (st, exec', w')) \/
     (te_Status t = TaskPending /\ exists exec1 w1, NTExecute exec w = (None, exec1, w1) /\
        NTStatus exec1 w1 = (st, exec', w'))).

Lemma markFailed_not_complete now r m cr : phase_of (markFailed now r m cr) = TaskPhaseComplete -> False.
Proof. by rewrite markFailed_phase. Qed.

Lemma pollOutcome_complete st exec n now cr :
  phase_of cr <> TaskPhaseComplete -> phase_of (pollOutcome st exec n now cr) = TaskPhaseComplete ->
  st = ExecutionComplete /\
  ts_Outputs (nt_Status (pollOutcome st exec n now cr)) =
    ts_Outputs (nt_Status (populateOutputs n (NTResult exec) (upd_task (task_status TaskComplete) cr))).
Proof.
  intros Hp. destruct st; simpl.
  1, 4: case_match; [rewrite markFailed_phase; done|done].
  - intros _. split; [done|]. unfold markComplete, setPhase. simpl. by case_bool_decide.
  - unfold handleFailure. destruct (NTResult exec) as [g|]; [|by rewrite markFailed_phase].
    cbv zeta. repeat case_match; rewrite ?markFailed_phase; done.
Qed.

Lemma populateOutputs_outputs n g a b :
  nt_Spec a = nt_Spec b -> ts_Outputs (nt_Status a) = ts_Outputs (nt_Status b) ->
  ts_Outputs (nt_Status (populateOutputs n g a)) = ts_Outputs (nt_Status (populateOutputs n g b)).
Proof.
  intros Hs Ho. unfold populateOutputs, populateTxOutputs. rewrite Hs.
  destruct (ks_Kind (nt_Spec b)), g; simpl; rewrite ?Hs, ?Ho; done.
Qed.

Lemma driveTask_complete n now cr w :
  phase_of cr <> TaskPhaseComplete -> phase_of (driveTask n now cr w).1.2 = TaskPhaseComplete ->
  exists exec' w', polled n cr w ExecutionComplete exec' w' /\
    ts_Outputs (nt_Status (driveTask n now cr w).1.2) = ts_Outputs (nt_Status (populateOutputs n (NTResult exec') cr)).
Proof.
  intros Hp. unfold driveTask, polled. destruct (taskParamsForKind cr (Some n)) as [[ty p]|e];
    [|intros Hc; by apply markFailed_not_complete in Hc].
  destruct (task_of cr) as [t|]; [|done].
  destruct (NTDeserialize ty (te_ID t) p n) as [exec|e] eqn:Ed; [|intros Hc; by apply markFailed_not_complete in Hc].
  cbv zeta. case_bool_decide as Hst.
  - destruct (NTExecute exec w) as [[[e|] exec1] w1] eqn:Ee;
      [case_match; [intros Hc; by apply markFailed_not_complete in Hc|done]|].
    destruct (NTStatus exec1 w1) as [[st exec2] w2] eqn:Es. cbn [fst snd]. intros Hc.
    apply pollOutcome_complete in Hc as [-> Ho]; [|done]. exists exec2, w2. split.
    + exists ty, p, t, exec. split_and!; [done..|]. right. split; [done|]. by exists exec1, w1.
    + rewrite Ho. by apply populateOutputs_outputs.
  - destruct (NTStatus exec w) as [[st exec2] w2] eqn:Es. cbn [fst snd]. intros Hc.
    apply pollOutcome_complete in Hc as [-> Ho]; [|done]. exists exec2, w2. split.
    + exists ty, p, t, exec. split_and!; [done..|]. by left.
    + rewrite Ho. by apply populateOutputs_outputs.
Qed.

Lemma taskParams_object a b target : same_resource a b -> taskParamsForKind a target = taskParamsForKind b target.
Proof.
  intros (Hns & _ & _ & _ & Hs). unfold taskParamsForKind, SeiNodeTaskParamsFor, updateNodeImageParams, govVoteParams,
    govSoftwareUpgradeParams, govParamChangeParams, govUpdateInstantiateConfigParams, awaitConditionParams,
    awaitNodesAtHeightParams, restartSeidParams, markReadyParams, unjailParams. by rewrite Hs, Hns.
Qed.

Lemma resolveTarget_dispatch now cr w n cr1 w1 :
  resolveTarget now cr w = (Dispatch n, cr1, w1) ->
  GetNode (nt_Namespace cr) (ks_NodeRef (nt_Spec cr)) w = (GotNode n, w1) /\
  st_Phase (n_Status n) = (match ks_RequirePhase (nt_Spec cr) with PhaseNone => PhaseRunning | p => p end) /\
  ts_Outputs (nt_Status cr1) = ts_Outputs (nt_Status cr).
Proof.
  unfold resolveTarget. destruct (GetNode _ _ w) as [[m| |e] w']; [|done..]. cbv zeta.
  case_bool_decide as Hp; [by intros [= <- <- <-]|]. by destruct (Z.ltb _ _).
Qed.

Lemma flush_complete before cr res e w :
  phase_of (rc_Stored (flush before cr res e w)) = TaskPhaseComplete -> phase_of before <> TaskPhaseComplete ->
  rc_Stored (flush before cr res e w) = upd stored_status cr /\ phase_of cr = TaskPhaseComplete.
Proof. destruct (flush_stored before cr res e w) as [->| ->]; [done|]. intros Hc _. by split. Qed.

(** Property: A task completes on report. When a reconcile takes a resource to
    Complete, the target was in the required phase, the task was polled in that
    very reconcile under its stored id and reported completion, and the outputs
    are those of the reported result. *)
Theorem nodetask_completes_on_report now cr w :
  phase_of cr <> TaskPhaseComplete -> phase_of (rc_Stored (Reconcile now cr w)) = TaskPhaseComplete ->
  exists n w1 exec' w', GetNode (nt_Namespace cr) (ks_NodeRef (nt_Spec cr)) w = (GotNode n, w1) /\
    st_Phase (n_Status n) = (match ks_RequirePhase (nt_Spec cr) with PhaseNone => PhaseRunning | p => p end) /\
    polled n cr w1 ExecutionComplete exec' w' /\
    ts_Outputs (nt_Status (rc_Stored (Reconcile now cr w))) =
      ts_Outputs (nt_Status (populateOutputs n (NTResult exec') cr)).
Proof.
  intros Hb. pattern (Reconcile now cr w). apply Reconcile_cases; [done|].
  intros _ r cr1 w1 E. pose proof (resolveTarget_object _ _ _ _ _ _ E) as Ho.
  destruct (resolveTarget_frame now (begun now cr) w) as (Hp & Ht & _). rewrite E in Hp, Ht.
  change (phase_of cr1 = phase_of cr) in Hp. change (task_of cr1 = task_of cr) in Ht.
  split_and!.
  - intros reason msg res _ [_ Hc]%flush_complete; [|done]. by rewrite markFailed_phase in Hc.
  - intros _ res [_ Hc]%flush_complete; [congruence|done].
  - intros _ n _ [_ Hc]%flush_complete; [|done]. unfold synthesize in Hc. by rewrite setPhase_phase in Hc.
  - intros n t -> _ res [-> Hc]%flush_complete; [|done]. apply resolveTarget_dispatch in E as (Hg & Hph & Hout).
    apply driveTask_complete in Hc as (exec' & w' & Hpoll & Hos); [|congruence].
    exists n, w1, exec', w'. split_and!; [done..| |].
    + destruct Hpoll as (ty & p & t' & exec & H1 & H2 & H3). exists ty, p, t', exec.
      rewrite <- (taskParams_object _ _ (Some n) Ho), <- Ht. done.
    + change (ts_Outputs (nt_Status (driveTask n now cr1 w1).1.2) = ts_Outputs (nt_Status (populateOutputs n (NTResult exec') cr))).
      rewrite Hos. apply populateOutputs_outputs; [apply Ho|done].
Qed.

(** A driven task whose submission fails stays where it is. *)
Lemma driveTask_submit_error n now cr w t ty payload exec e exec' w' :
  phase_of cr = TaskPhaseRunning -> task_of cr = Some t -> te_Status t = TaskPending ->
  taskParamsForKind cr (Some n) = inl (ty, payload) -> NTDeserialize ty (te_ID t) payload n = Ok exec ->
  NTExecute exec w = (Some e, exec', w') -> ee_terminal e = false ->
  phase_of (driveTask n now cr w).1.2 = TaskPhaseRunning /\
  exists t', task_of (driveTask n now cr w).1.2 = Some t' /\ te_Status t' = TaskPending /\ te_ID t' = te_ID t.
Proof.
  intros Hp Ht Hst Hpar Hd He Hne. unfold driveTask. rewrite Hpar, Ht, Hd. cbv zeta.
  rewrite bool_decide_eq_true_2 by done. rewrite He, Hne. split; [done|]. exists (task_anchor now t).
  unfold upd_task, task_of in *. simpl. rewrite Ht. unfold task_anchor. split; [done|]. by case_match.
Qed.

Lemma resolveTarget_met now cr w n w1 :
  GetNode (nt_Namespace cr) (ks_NodeRef (nt_Spec cr)) w = (GotNode n, w1) ->
  st_Phase (n_Status n) = (match ks_RequirePhase (nt_Spec cr) with PhaseNone => PhaseRunning | p => p end) ->
  (resolveTarget now cr w).1.1 = Dispatch n.
Proof. intros Hg Hp. unfold resolveTarget. rewrite Hg. cbv zeta. by rewrite bool_decide_eq_true_2. Qed.

(** Reconciles at the given times. *)
Definition reconciles (ts : list Z) (s : SeiNodeTask * W) : SeiNodeTask * W :=
  fold_left (fun s now => (rc_Stored (Reconcile now s.1 s.2), rc_World (Reconcile now s.1 s.2))) ts s.

(** The target is there in the required phase, the parameters build and the
    task deserializes. *)
Definition submittable (n : SeiNode) (cr : SeiNodeTask) : Prop :=
  st_Phase (n_Status n) = (match ks_RequirePhase (nt_Spec cr) with PhaseNone => PhaseRunning | p => p end) /\
  exists ty payload exec, taskParamsForKind cr (Some n) = inl (ty, payload) /\
    NTDeserialize ty (task_id cr) payload n = Ok exec.
(** Running, and not submitted. *)
Definition unsubmitted (cr : SeiNodeTask) : Prop :=
  phase_of cr = TaskPhaseRunning /\
  exists t, task_of cr = Some t /\ te_Status t = TaskPending /\ te_ID t = task_id cr.

Lemma submittable_object n a b : same_resource a b -> submittable n b -> submittable n a.
Proof.
  intros Ho (Hph & ty & payload & exec & Hpar & Hd). split; [by destruct Ho as (_ & _ & _ & _ & ->)|].
  exists ty, payload, exec. by rewrite (taskParams_object _ _ _ Ho), (same_resource_id _ _ Ho).
Qed.

Lemma Reconcile_unsubmitted n e now cr w :
  (forall ns name w, exists w', GetNode ns name w = (GotNode n, w')) ->
  (forall exec w, exists exec' w', NTExecute exec w = (Some e, exec', w')) -> ee_terminal e = false ->
  submittable n cr -> unsubmitted cr -> unsubmitted (rc_Stored (Reconcile now cr w)).
Proof.
  intros Hget Hexec Hplain Hsub Hun. pose proof Hun as (Hp & t & Ht & Hst & Hid).
  apply Reconcile_cases; [by rewrite Hp|]. intros _ r cr1 w1 E.
  pose proof (resolveTarget_object _ _ _ _ _ _ E) as Ho.
  destruct (resolveTarget_frame now (begun now cr) w) as (Hp1 & Ht1 & _). rewrite E in Hp1, Ht1.
  change (phase_of cr1 = phase_of cr) in Hp1. change (task_of cr1 = task_of cr) in Ht1.
  assert (r = Dispatch n) as ->.
  { destruct (Hget (nt_Namespace cr) (ks_NodeRef (nt_Spec cr)) w) as [w2 Hg]. destruct Hsub as [Hph _].
    pose proof (resolveTarget_met now (begun now cr) w n w2 Hg Hph) as Hr. by rewrite E in Hr. }
  split_and!; [intros ? ? ? [?|?]; congruence|done|congruence|].
  intros n' t' [= <-] _ res. destruct (flush_stored cr (driveTask n now cr1 w1).1.2 res
    (driveTask n now cr1 w1).1.1 (driveTask n now cr1 w1).2) as [->| ->]; [done|].
  destruct (submittable_object n _ _ Ho Hsub) as (_ & ty & payload & exec & Hpar & Hd).
  destruct (Hexec exec w1) as (exec' & w' & He).
  rewrite <- (same_resource_id _ _ Ho) in Hid. rewrite <- Ht1 in Ht. rewrite <- Hid in Hd.
  destruct (driveTask_submit_error n now cr1 w1 t ty payload exec e exec' w') as (Hp2 & t2 & Ht2 & Hst2 & Hid2);
    [congruence|done..|].
  split; [exact Hp2|]. exists (stored_task t2). rewrite stored_task_of, Ht2. split_and!; [done..|].
  change (te_ID t2 = task_id (driveTask n now cr1 w1).1.2). rewrite (same_resource_id _ _ (driveTask_object n now cr1 w1)).
  congruence.
Qed.

(** Property: Submission errors never time out. While the submission of a
    pending task fails with an error that is not terminal, the resource stays Running and
    unsubmitted through any reconciles, whatever spec.timeoutSeconds is and however long
    ago the execution started. *)
Theorem nodetask_submit_never_times_out n e ts cr w :
  (forall ns name w, exists w', GetNode ns name w = (GotNode n, w')) ->
  (forall exec w, exists exec' w', NTExecute exec w = (Some e, exec', w')) -> ee_terminal e = false ->
  submittable n cr -> unsubmitted cr -> unsubmitted (reconciles ts (cr, w)).1.
Proof.
  intros Hget Hexec Hplain. unfold reconciles. revert cr w.
  induction ts as [|now ts IH]; intros cr w Hsub Hun; [done|]. simpl. apply IH.
  - eapply submittable_object; [apply Reconcile_object|done].
  - by eapply Reconcile_unsubmitted.
Qed.

(** Property: A timeout is enforced at the next poll. A submitted task whose execution
    started more than its timeout ago is polled once more, and unless that
    poll reports completion the resource fails, also when the inclusion of its
    transaction is still undetermined. *)
Theorem nodetask_timeout_enforced n now cr w t start ty payload exec :
  task_of cr = Some t -> te_Status t <> TaskPending -> te_ExecutionStartedAt t = Some start ->
  (0 < effectiveTimeout cr)%Z -> (start + effectiveTimeout cr < now)%Z ->
  taskParamsForKind cr (Some n) = inl (ty, payload) -> NTDeserialize ty (te_ID t) payload n = Ok exec ->
  (NTStatus exec w).1.1 <> ExecutionComplete ->
  phase_of (driveTask n now cr w).1.2 = TaskPhaseFailed /\
  exists t', task_of (driveTask n now cr w).1.2 = Some t' /\ te_Status t' = TaskFailed.
Proof.
  intros Ht Hst Hs Hto Hlate Hpar Hd Hpoll. unfold driveTask. rewrite Hpar, Ht, Hd. cbv zeta.
  rewrite bool_decide_eq_false_2 by done. destruct (NTStatus exec w) as [[st exec'] w']. simpl in Hpoll. cbn [fst snd].
  set (c := upd_task (task_anchor now) cr).
  assert (Hc : task_of c = Some t).
  { unfold c, upd_task, task_of in *. simpl. rewrite Ht. simpl. unfold task_anchor. by rewrite Hs. }
  assert (Hout : forall g, execTimedOut (populateTxOutputs g c) now = true).
  { intros g. destruct (populateTxOutputs_frame g c) as (_ & Htg & _ & Ho). unfold execTimedOut. rewrite Htg, Hc, Hs.
    assert (He : effectiveTimeout (populateTxOutputs g c) = effectiveTimeout cr)
      by (unfold effectiveTimeout; by destruct Ho as (_ & _ & _ & _ & ->)).
    rewrite He. apply andb_true_iff. split; [apply negb_true_iff, Z.leb_gt; lia|apply Z.ltb_lt; lia]. }
  assert (Hfail : forall r m msg g, phase_of (markFailed now r m (upd_task (task_error msg) (populateTxOutputs g c))) = TaskPhaseFailed /\
    exists t', task_of (markFailed now r m (upd_task (task_error msg) (populateTxOutputs g c))) = Some t' /\ te_Status t' = TaskFailed).
  { intros r m msg g. split; [apply markFailed_phase|]. rewrite markFailed_task. exists (task_error msg t).
    destruct (populateTxOutputs_frame g c) as (_ & Htg & _). unfold upd_task, task_of in *. simpl. by rewrite Htg, Hc. }
  pose proof (Hout None) as Hnone. simpl in Hnone.
  destruct st; [|done| |]; simpl; rewrite ?Hnone; try apply (Hfail _ _ _ None).
  unfold handleFailure. destruct (NTResult exec') as [g|]; [|apply (Hfail _ _ _ None)]. cbv zeta. rewrite Hout.
  repeat case_match; apply (Hfail _ _ _ (Some g)).
Qed.

(** Property (finding): a read error is final. When the API server fails to
    answer the read of the target, with any error, and the status is stored, the
    resource is Failed for good. *)
Theorem nodetask_read_error_is_final now cr w e w1 :
  terminal (phase_of cr) = false ->
  GetNode (nt_Namespace cr) (ks_NodeRef (nt_Spec cr)) w = (GetError e, w1) -> (PatchStatus w1).1 = None ->
  phase_of (rc_Stored (Reconcile now cr w)) = TaskPhaseFailed.
Proof.
  intros Hterm Hg Hpatch. unfold Reconcile. fold (begun now cr).
  assert (Hr : resolveTarget now (begun now cr) w = (Fatal e, begun now cr, w1)).
  { unfold resolveTarget. change (nt_Namespace (begun now cr)) with (nt_Namespace cr).
    change (nt_Spec (begun now cr)) with (nt_Spec cr). by rewrite Hg. }
  rewrite Hr. assert (Hfl : forall res, phase_of (rc_Stored (flush cr
    (markFailed now "TargetResolveFailed" e (begun now cr)) res None w1)) = TaskPhaseFailed).
  { intros res. unfold flush. case_bool_decide as Heq.
    - exfalso. assert (Hp : phase_of cr = TaskPhaseFailed) 
        by (unfold phase_of; rewrite Heq; exact (markFailed_phase now "TargetResolveFailed" e (begun now cr))).
      by rewrite Hp in Hterm.
    - destruct (PatchStatus w1) as [o w2]; simpl in Hpatch. subst o. apply (markFailed_phase now "TargetResolveFailed" e (begun now cr)). }
  destruct (phase_of cr); try done; apply Hfl.
Qed.
End Laws.
End NodeTask.

(** ** A concrete controller

    A Running node, an API server that answers, and a sidecar that accepts the
    task or refuses every submission; the world is what a poll reports. *)
Definition demo_node : SeiNode := upd_status (set_Phase PhaseRunning 0) witness_node.
Definition demo_result : GovTxResult := mkGovTxResult "AB" 7 0 0 "" "" InclusionCommittedOK.
Definition demo_rt (accepts : bool) : NodeTaskRuntime ExecutionStatus := {|
  NTExec := string;
  NTDeserialize _ id _ _ := Ok id;
  NTExecute x w := (if accepts then None else Some (mkExecError false "connection refused"), x, w);
  NTStatus x w := (w, x, w);
  NTErr _ := None;
  NTResult _ := Some demo_result;
|}.
#[local] Instance demo_api : NodeTaskAPI ExecutionStatus := {
  GetNode _ _ w := (GotNode demo_node, w);
  PatchStatus w := (None, w);
}.
Definition broken_api : NodeTaskAPI ExecutionStatus := {|
  GetNode _ _ w := (GetError "etcdserver: request timed out", w);
  PatchStatus w := (None, w);
|}.
#[local] Existing Instances sample_config sample_hashes list_conditions list_conditions_laws.

Definition demo_new : SeiNodeTask :=
  mkNodeTask "default" "vote" "uid-1" 1
    (mkTaskSpec KindGovVote "node-0" PhaseNone None 60 None
       (Some (mkGovVoteRequest "pacific-1" "" 42 "yes" "" "2000usei" 1)) None None None None None None None None)
    (mkTaskStatus 0 TaskPhaseNone None None None None None []).
Definition demo_at (now : Z) (cr : SeiNodeTask) (w : ExecutionStatus) : SeiNodeTask :=
  rc_Stored (Reconcile (RT := demo_rt true) now cr w).
(** Synthesized at second 10, submitted and polled at 11, complete at 12. *)
Definition demo_synthesized : SeiNodeTask := demo_at (10 * second) demo_new ExecutionRunning.
Definition demo_submitted : SeiNodeTask := demo_at (11 * second) demo_synthesized ExecutionRunning.
Definition demo_done : SeiNodeTask := demo_at (12 * second) demo_submitted ExecutionComplete.

Lemma nodetask_wellformed_for_life_witness :
  phase_of demo_done = TaskPhaseComplete /\ nt_wf demo_done /\ task_id demo_done = task_id demo_new.
Proof.
  split; [vm_compute; reflexivity|].
  assert (H1 : rtc (nt_step (RT := demo_rt true)) (demo_new, ExecutionRunning) (demo_submitted, ExecutionComplete)).
  { apply rtc_l with (demo_synthesized, ExecutionRunning);
      [exact (step_reconcile (RT := demo_rt true) (10 * second) demo_new ExecutionRunning)|].
    apply rtc_l with (demo_submitted, ExecutionRunning);
      [exact (step_reconcile (RT := demo_rt true) (11 * second) demo_synthesized ExecutionRunning)|].
    apply rtc_once. apply step_world. }
  assert (H2 : rtc (nt_step (RT := demo_rt true)) (demo_submitted, ExecutionComplete) (demo_done, ExecutionComplete)).
  { apply rtc_once. exact (step_reconcile (RT := demo_rt true) (12 * second) demo_submitted ExecutionComplete). }
  destruct (nodetask_wellformed_for_life (RT := demo_rt true) demo_new ExecutionRunning demo_submitted ExecutionComplete
    demo_done ExecutionComplete eq_refl H1 H2) as (Hwf & Hid & _).
  exact (conj Hwf Hid).
Defined.

Lemma nodetask_recorded_before_run_witness :
  rc_World (Reconcile (RT := demo_rt true) (10 * second) demo_new ExecutionRunning) = ExecutionRunning.
Proof.
  pose proof (nodetask_recorded_before_run (RT := demo_rt true) (10 * second) demo_new ExecutionRunning eq_refl) as H.
  cbv zeta in H. destruct H as [H|[H|H]]; exact H.
Defined.

Lemma nodetask_completes_on_report_witness :
  exists n w1 exec' w',
    GetNode (nt_Namespace demo_submitted) (ks_NodeRef (nt_Spec demo_submitted)) ExecutionComplete = (GotNode n, w1) /\
    polled (RT := demo_rt true) n demo_submitted w1 ExecutionComplete exec' w'.
Proof.
  assert (Hb : phase_of demo_submitted <> TaskPhaseComplete) by (vm_compute; discriminate).
  assert (Ha : phase_of (rc_Stored (Reconcile (RT := demo_rt true) (12 * second) demo_submitted ExecutionComplete))
               = TaskPhaseComplete) by (vm_compute; reflexivity).
  destruct (nodetask_completes_on_report (RT := demo_rt true) (12 * second) demo_submitted ExecutionComplete Hb Ha)
    as (n & w1 & exec' & w' & Hg & _ & Hp & _).
  exists n, w1, exec', w'. exact (conj Hg Hp).
Defined.

Lemma nodetask_submit_never_times_out_witness :
  unsubmitted (reconciles (RT := demo_rt false) [100 * second; 100000 * second; 100000000 * second]%Z
    (demo_synthesized, ExecutionRunning)).1.
Proof.
  apply (nodetask_submit_never_times_out (RT := demo_rt false) demo_node (mkExecError false "connection refused")).
  - intros ns name w. by exists w.
  - intros exec w. by exists exec, w.
  - reflexivity.
  - split; [vm_compute; reflexivity|]. eexists _, _, _. split; [vm_compute; reflexivity|reflexivity].
  - split; [vm_compute; reflexivity|]. eexists. split; [vm_compute; reflexivity|]. split; vm_compute; reflexivity.
Defined.

Lemma nodetask_timeout_enforced_witness :
  phase_of (driveTask (RT := demo_rt true) demo_node (100 * second) demo_submitted ExecutionRunning).1.2 = TaskPhaseFailed.
Proof.
  assert (Ht : exists t, task_of demo_submitted = Some t /\ te_Status t <> TaskPending /\
    te_ExecutionStartedAt t = Some (10 * second)%Z).
  { eexists. split; [vm_compute; reflexivity|]. split; [vm_compute; discriminate|vm_compute; reflexivity]. }
  destruct Ht as (t & Ht & Hst & Hs).
  assert (Hp : exists ty payload, taskParamsForKind demo_submitted (Some demo_node) = inl (ty, payload)).
  { eexists _, _. vm_compute. reflexivity. }
  destruct Hp as (ty & payload & Hp).
  exact (proj1 (nodetask_timeout_enforced (RT := demo_rt true) demo_node (100 * second) demo_submitted ExecutionRunning t
    (10 * second) ty payload (te_ID t) Ht Hst Hs eq_refl eq_refl Hp eq_refl (fun H => match H with eq_refl => I end))).
Defined.

Lemma nodetask_read_error_is_final_witness :
  phase_of (rc_Stored (Reconcile (RT := demo_rt true) (API := broken_api) (12 * second) demo_submitted ExecutionRunning))
    = TaskPhaseFailed.
Proof.
  assert (Ht : terminal (phase_of demo_submitted) = false) by (vm_compute; reflexivity).
  exact (nodetask_read_error_is_final (RT := demo_rt true) (API := broken_api) (12 * second) demo_submitted ExecutionRunning
    "etcdserver: request timed out" ExecutionRunning Ht eq_refl eq_refl).
Defined.
