(* ===== verification/NetApi.v ===== *)
(** * The SeiNetwork API and the group planner
    (src/api/v1alpha1/seinetwork_types.go, src/internal/planner/group.go)

    A SeiNetwork mints a chain: its replicas are the founding validators, child
    SeiNodes that a genesis ceremony gives an identity and a common genesis. The
    ceremony is the one plan a network runs. *)

From stdpp Require Import base list strings gmap pretty.
From Stdlib Require Import ZArith Lia.
From S2P Require Import Prelude Api NodeState Platform Executor Config Task Planner.

(** ** Spec *)
Record NetworkConsensusSpec := mkNetworkConsensus {
  nk_Spec : ConsensusSpec;
  nk_Autobahn : option AutobahnCeremonySpec;
}.

Definition NetworkConsensus_Node (n : option NetworkConsensusSpec) : option ConsensusSpec := nk_Spec <$> n.
Definition NetworkConsensus_IsAutobahn (n : option NetworkConsensusSpec) : bool :=
  match n with None => false | Some n => ConsensusSpec_IsAutobahn (Some (nk_Spec n)) end.
Definition AutobahnSettings (n : option NetworkConsensusSpec) : option AutobahnCeremonySpec := n ≫= nk_Autobahn.
Definition CommitsOnDemand (n : option NetworkConsensusSpec) : bool :=
  if negb (NetworkConsensus_IsAutobahn n) then false
  else match AutobahnSettings n with
       | Some a => match ab_AllowEmptyBlocks a with Some b => negb b | None => true end
       | None => true
       end.

Record GenesisCeremonyConfig := mkGenesisCeremony {
  gn_ChainID : string;
  gn_StakingAmount : string;
  gn_AccountBalance : string;
  gn_Accounts : list GenesisAccount;
  gn_Overrides : gmap string raw_json;
  gn_ConsensusParams : raw_json;
}.

(** [PolicyUnset] is the empty string; [PolicyOther] any value the CRD does not
    admit today. *)
Inductive DeletionPolicy := PolicyUnset | DeletionPolicyDelete | DeletionPolicyRetain | PolicyOther.
#[export] Instance DeletionPolicy_eq_dec : EqDecision DeletionPolicy.
Proof. solve_decision. Defined.

(** Structures that are only copied to the children are kept as JSON. *)
Record SeiNetworkSpec := mkNetworkSpec {
  sn_Image : string;
  sn_Genesis : GenesisCeremonyConfig;
  sn_Consensus : option NetworkConsensusSpec;
  sn_ExecutionEngine : option ExecutionEngineSpec;
  sn_Replicas : Z;
  sn_ConfigOverrides : gmap string string;
  sn_ConfigValues : list ConfigValue;
  sn_DataVolume : option jval;
  sn_Resources : option jval;
  sn_Scheduling : option SchedulingConfig;
  sn_Sidecar : option SidecarConfig;
  sn_PodLabels : gmap string string;
  sn_Paused : bool;
  sn_DeletionPolicy : DeletionPolicy;
}.

Definition Network_EffectiveExecutionEngine (s : SeiNetworkSpec) : ExecutionEngineSpec :=
  ResolveExecutionEngine (sn_ExecutionEngine s) (NetworkConsensus_Node (sn_Consensus s)).

(** *** Updates of a child's spec *)
Definition with_Peers (ps : list PeerSource) (s : SeiNodeSpec) : SeiNodeSpec :=
  mkSeiNodeSpec (sp_ChainID s) (sp_Image s) ps (sp_Overrides s) (sp_Consensus s)
    (sp_ExecutionEngine s) (sp_ConfigValues s) (sp_NodeConfig s) (sp_Scheduling s) (sp_Sidecar s)
    (sp_FullNode s) (sp_Archive s) (sp_Replayer s) (sp_Validator s) (sp_Seed s)
    (sp_ExternalAddress s) (sp_Paused s) (sp_DataResetGeneration s) (sp_Maintenance s).
Definition with_Overrides (o : gmap string string) (s : SeiNodeSpec) : SeiNodeSpec :=
  mkSeiNodeSpec (sp_ChainID s) (sp_Image s) (sp_Peers s) o (sp_Consensus s)
    (sp_ExecutionEngine s) (sp_ConfigValues s) (sp_NodeConfig s) (sp_Scheduling s) (sp_Sidecar s)
    (sp_FullNode s) (sp_Archive s) (sp_Replayer s) (sp_Validator s) (sp_Seed s)
    (sp_ExternalAddress s) (sp_Paused s) (sp_DataResetGeneration s) (sp_Maintenance s).
Definition with_ConfigValues (v : list ConfigValue) (s : SeiNodeSpec) : SeiNodeSpec :=
  mkSeiNodeSpec (sp_ChainID s) (sp_Image s) (sp_Peers s) (sp_Overrides s) (sp_Consensus s)
    (sp_ExecutionEngine s) v (sp_NodeConfig s) (sp_Scheduling s) (sp_Sidecar s)
    (sp_FullNode s) (sp_Archive s) (sp_Replayer s) (sp_Validator s) (sp_Seed s)
    (sp_ExternalAddress s) (sp_Paused s) (sp_DataResetGeneration s) (sp_Maintenance s).
Definition with_Paused (b : bool) (s : SeiNodeSpec) : SeiNodeSpec :=
  mkSeiNodeSpec (sp_ChainID s) (sp_Image s) (sp_Peers s) (sp_Overrides s) (sp_Consensus s)
    (sp_ExecutionEngine s) (sp_ConfigValues s) (sp_NodeConfig s) (sp_Scheduling s) (sp_Sidecar s)
    (sp_FullNode s) (sp_Archive s) (sp_Replayer s) (sp_Validator s) (sp_Seed s)
    (sp_ExternalAddress s) b (sp_DataResetGeneration s) (sp_Maintenance s).

(** ** Status *)
Inductive SeiNetworkPhase := GroupPhaseNone | GroupPhasePending | GroupPhaseInitializing | GroupPhaseReady
  | GroupPhasePaused | GroupPhaseDegraded | GroupPhaseFailed | GroupPhaseTerminating.
#[export] Instance SeiNetworkPhase_eq_dec : EqDecision SeiNetworkPhase.
Proof. solve_decision. Defined.

Inductive Placement := PlacementPending | PlacementScheduled.
Record GroupNodeStatus := mkGroupNode {
  gns_Name : string;
  gns_Phase : SeiNodePhase;
  gns_Ready : bool;
  gns_CurrentImage : string;
  gns_WorkerNode : string;
  gns_Placement : Placement;
}.

(** Times are nanoseconds. *)
Record ObservedHeight := mkObserved { oh_Height : Z; oh_Time : Z }.

Record InternalServicePorts := mkInternalPorts { ip_Rpc : Z; ip_EvmHttp : Z; ip_Rest : Z }.
Record InternalServiceStatus := mkInternalService {
  is_Name : string;
  is_Namespace : string;
  is_Ports : InternalServicePorts;
}.
Record PerPodServicePorts := mkPerPodPorts { pp_EvmHttp : Z; pp_EvmWs : Z }.
Record PerPodServiceStatus := mkPerPod { pps_Name : string; pps_Namespace : string; pps_Ports : PerPodServicePorts }.

(** A child's published URLs; the empty string is absent. *)
Record NodeEndpointStatus := mkNodeEndpointStatus {
  ne_EvmJsonRpc : string;
  ne_EvmWs : string;
  ne_TendermintRpc : string;
  ne_TendermintRest : string;
}.
#[export] Instance NodeEndpointStatus_eq_dec : EqDecision NodeEndpointStatus.
Proof. solve_decision. Defined.
Record NodeEndpoint := mkNodeEndpoint { nep_Name : string; nep_URLs : NodeEndpointStatus }.
Record Endpoints := mkEndpoints {
  ep_TendermintRpc : string;
  ep_TendermintRest : string;
  ep_Nodes : list NodeEndpoint;
}.

Record SeiNetworkStatus := mkNetworkStatus {
  sns_ObservedGeneration : Z;
  sns_Phase : SeiNetworkPhase;
  sns_Replicas : Z;
  sns_ReadyReplicas : Z;
  sns_UpToDateReplicas : Z;
  sns_Nodes : list GroupNodeStatus;
  sns_Plan : option TaskPlan;
  sns_ObservedHeight : option ObservedHeight;
  sns_IncumbentNodes : list string;
  sns_InternalService : option InternalServiceStatus;
  sns_PerPodServices : list PerPodServiceStatus;
  sns_Endpoints : option Endpoints;
  sns_Conditions : list Condition;
}.

(** The object; [sw_Deleting] is a set deletion timestamp, [sw_Finalizer] the
    network finalizer. The creation timestamp has the API's second granularity. *)
Record SeiNetwork := mkNetwork {
  sw_Name : string;
  sw_Namespace : string;
  sw_UID : string;
  sw_Generation : Z;
  sw_CreationTimestamp : Z;
  sw_Deleting : bool;
  sw_Finalizer : bool;
  sw_Spec : SeiNetworkSpec;
  sw_Status : SeiNetworkStatus;
}.

(** *** Updates *)
Definition nw_status (f : SeiNetworkStatus -> SeiNetworkStatus) (n : SeiNetwork) : SeiNetwork :=
  mkNetwork (sw_Name n) (sw_Namespace n) (sw_UID n) (sw_Generation n) (sw_CreationTimestamp n)
    (sw_Deleting n) (sw_Finalizer n) (sw_Spec n) (f (sw_Status n)).
Definition nw_finalizer (b : bool) (n : SeiNetwork) : SeiNetwork :=
  mkNetwork (sw_Name n) (sw_Namespace n) (sw_UID n) (sw_Generation n) (sw_CreationTimestamp n)
    (sw_Deleting n) b (sw_Spec n) (sw_Status n).

Definition ns_plan (p : option TaskPlan) (s : SeiNetworkStatus) : SeiNetworkStatus :=
  mkNetworkStatus (sns_ObservedGeneration s) (sns_Phase s) (sns_Replicas s) (sns_ReadyReplicas s)
    (sns_UpToDateReplicas s) (sns_Nodes s) p (sns_ObservedHeight s) (sns_IncumbentNodes s)
    (sns_InternalService s) (sns_PerPodServices s) (sns_Endpoints s) (sns_Conditions s).
Definition ns_conds (cs : list Condition) (s : SeiNetworkStatus) : SeiNetworkStatus :=
  mkNetworkStatus (sns_ObservedGeneration s) (sns_Phase s) (sns_Replicas s) (sns_ReadyReplicas s)
    (sns_UpToDateReplicas s) (sns_Nodes s) (sns_Plan s) (sns_ObservedHeight s) (sns_IncumbentNodes s)
    (sns_InternalService s) (sns_PerPodServices s) (sns_Endpoints s) cs.
Definition ns_incumbents (l : list string) (s : SeiNetworkStatus) : SeiNetworkStatus :=
  mkNetworkStatus (sns_ObservedGeneration s) (sns_Phase s) (sns_Replicas s) (sns_ReadyReplicas s)
    (sns_UpToDateReplicas s) (sns_Nodes s) (sns_Plan s) (sns_ObservedHeight s) l
    (sns_InternalService s) (sns_PerPodServices s) (sns_Endpoints s) (sns_Conditions s).
Definition ns_internal (i : InternalServiceStatus) (s : SeiNetworkStatus) : SeiNetworkStatus :=
  mkNetworkStatus (sns_ObservedGeneration s) (sns_Phase s) (sns_Replicas s) (sns_ReadyReplicas s)
    (sns_UpToDateReplicas s) (sns_Nodes s) (sns_Plan s) (sns_ObservedHeight s) (sns_IncumbentNodes s)
    (Some i) (sns_PerPodServices s) (sns_Endpoints s) (sns_Conditions s).
Definition ns_height (h : option ObservedHeight) (s : SeiNetworkStatus) : SeiNetworkStatus :=
  mkNetworkStatus (sns_ObservedGeneration s) (sns_Phase s) (sns_Replicas s) (sns_ReadyReplicas s)
    (sns_UpToDateReplicas s) (sns_Nodes s) (sns_Plan s) h (sns_IncumbentNodes s)
    (sns_InternalService s) (sns_PerPodServices s) (sns_Endpoints s) (sns_Conditions s).
Definition ns_phase (p : SeiNetworkPhase) (s : SeiNetworkStatus) : SeiNetworkStatus :=
  mkNetworkStatus (sns_ObservedGeneration s) p (sns_Replicas s) (sns_ReadyReplicas s)
    (sns_UpToDateReplicas s) (sns_Nodes s) (sns_Plan s) (sns_ObservedHeight s) (sns_IncumbentNodes s)
    (sns_InternalService s) (sns_PerPodServices s) (sns_Endpoints s) (sns_Conditions s).
(** The counts and reports [updateStatus] writes together. *)
Definition ns_report (gen replicas ready upToDate : Z) (nodes : list GroupNodeStatus)
    (services : list PerPodServiceStatus) (eps : option Endpoints) (s : SeiNetworkStatus) : SeiNetworkStatus :=
  mkNetworkStatus gen (sns_Phase s) replicas ready upToDate nodes (sns_Plan s) (sns_ObservedHeight s)
    (sns_IncumbentNodes s) (sns_InternalService s) services eps (sns_Conditions s).

(** ** Condition types and reasons *)
Definition ConditionNodesReady := "NodesReady".
Definition ConditionProducing := "Producing".
Definition ConditionGenesisCeremonyComplete := "GenesisCeremonyComplete".
Definition ConditionPlanInProgress := "PlanInProgress".
Definition ConditionRolloutInProgress := "RolloutInProgress".
Definition ConditionPaused := "Paused".
Definition ConditionConfigValuesValid := "ConfigValuesValid".
Definition ConditionEvmServing := "EvmServing".
Definition ReasonHeightAdvancing := "HeightAdvancing".
Definition ReasonAwaitingFirstBlock := "AwaitingFirstBlock".
Definition ReasonHeightStalled := "HeightStalled".
Definition ReasonIdle := "Idle".
Definition ReasonSignalUnreadable := "SignalUnreadable".
Definition ReasonNoNodes := "NoNodes".
Definition ReasonNotStarted := "NotStarted".
Definition ReasonValidatorLost := "ValidatorLost".
Definition ReasonAdoptedSet := "AdoptedSet".

Section Conditions.
Context {SC : StatusConditions}.

Definition net_cond (n : SeiNetwork) (t : string) : option Condition :=
  FindStatusCondition (sns_Conditions (sw_Status n)) t.

Definition setCondition (t : string) (status : ConditionStatus) (reason message : string)
    (n : SeiNetwork) : SeiNetwork :=
  nw_status (fun s =>
    ns_conds (SetStatusCondition (sns_Conditions s) (mkCondition t status reason message (sw_Generation n))) s) n.

Definition hasConditionTrue (n : SeiNetwork) (t : string) : bool :=
  match net_cond n t with Some c => bool_decide (c_Status c = ConditionTrue) | None => false end.
Definition hasConditionReason (n : SeiNetwork) (t reason : string) : bool :=
  match net_cond n t with Some c => c_Reason c =s reason | None => false end.
Definition seedConditionIfAbsent (t reason message : string) (n : SeiNetwork) : SeiNetwork :=
  match net_cond n t with Some _ => n | None => setCondition t ConditionFalse reason message n end.

(** ** The group planner *)
Context {H : Hashes}.

(** [isConditionTrue] (planner.go) looks for an entry of the type that is True
    among all of them. *)
Definition isConditionTrue (n : SeiNetwork) (t : string) : bool :=
  existsb (fun c => (c_Type c =s t) && bool_decide (c_Status c = ConditionTrue)) (sns_Conditions (sw_Status n)).

Definition allReplicasCreated (n : SeiNetwork) : bool :=
  (sn_Replicas (sw_Spec n) <=? Z.of_nat (length (sns_IncumbentNodes (sw_Status n))))%Z.

(** [ForGroup] returns the genesis planner exactly when this holds. *)
Definition needsGenesisPlan (n : SeiNetwork) : bool :=
  match sns_Plan (sw_Status n) with
  | Some _ => false
  | None =>
      if isConditionTrue n ConditionGenesisCeremonyComplete then false else allReplicasCreated n
  end.

Inductive GroupPlanner := genesisGroupPlanner.
Definition ForGroup (n : SeiNetwork) : option GroupPlanner :=
  if needsGenesisPlan n then Some genesisGroupPlanner else None.

Definition assembleParams (n : SeiNetwork) : TaskParams :=
  let g := sn_Genesis (sw_Spec n) in
  AssembleAndUploadGenesisTask (gn_AccountBalance g) (sw_Namespace n)
    (sns_IncumbentNodes (sw_Status n)) (gn_Accounts g) (gn_Overrides g) (gn_ConsensusParams g)
    (NetworkConsensus_IsAutobahn (sn_Consensus (sw_Spec n))) (AutobahnSettings (sn_Consensus (sw_Spec n))).

(** [planID] is the fresh UUID. *)
Definition genesis_BuildPlan (libs : ClientLibs) (planID : string) (n : SeiNetwork) : result TaskPlan :=
  let incumbents := sns_IncumbentNodes (sw_Status n) in
  _ ← params_Validate libs (assembleParams n);
  Ok (mkTaskPlan planID TaskPlanActive
        [ buildPlannedTask planID TaskAssembleGenesis 0 (assembleParams n);
          buildPlannedTask planID TaskTypeCollectAndSetPeers 1
            (CollectAndSetPeersParams (sw_Name n) (sw_Namespace n) incumbents);
          buildPlannedTask planID TaskTypeAwaitNodesRunning 2
            (AwaitNodesRunningParams (sw_Name n) (sw_Namespace n) (Z.of_nat (length incumbents)) incumbents) ]
        PhaseNone "" PhaseNone None None).

Definition BuildPlan (libs : ClientLibs) (p : GroupPlanner) (planID : string) (n : SeiNetwork) : result TaskPlan :=
  match p with genesisGroupPlanner => genesis_BuildPlan libs planID n end.

End Conditions.

(** ** Lemmas on conditions *)
Section Laws.
Context {SC : StatusConditions} {SCL : StatusConditionsLaws SC}.

Lemma net_cond_set t st r m n :
  net_cond (setCondition t st r m n) t = Some (mkCondition t st r m (sw_Generation n)).
Proof. apply (find_set_same _ (mkCondition t st r m (sw_Generation n))). Qed.

Lemma net_cond_set_other t t' st r m n : t' <> t -> net_cond (setCondition t st r m n) t' = net_cond n t'.
Proof. intros Ht. apply find_set_other. exact Ht. Qed.

Lemma hasTrue_set t st r m n : hasConditionTrue (setCondition t st r m n) t = bool_decide (st = ConditionTrue).
Proof. unfold hasConditionTrue. by rewrite net_cond_set. Qed.

Lemma hasTrue_set_other t t' st r m n :
  t' <> t -> hasConditionTrue (setCondition t st r m n) t' = hasConditionTrue n t'.
Proof. intros Ht. unfold hasConditionTrue. by rewrite net_cond_set_other. Qed.

Lemma hasReason_set t st r m n r' : hasConditionReason (setCondition t st r m n) t r' = (r =s r').
Proof. unfold hasConditionReason. by rewrite net_cond_set. Qed.

Lemma hasReason_set_other t t' st r m n r' :
  t' <> t -> hasConditionReason (setCondition t st r m n) t' r' = hasConditionReason n t' r'.
Proof. intros Ht. unfold hasConditionReason. by rewrite net_cond_set_other. Qed.

End Laws.

#[export] Hint Rewrite @net_cond_set @hasTrue_set @hasReason_set using typeclasses eauto : sei_rw.
