(* ===== verification/Network.v ===== *)
(** * The SeiNetwork controller (src/internal/controller/seinetwork)

    [Reconcile] keeps the children of a network and runs its genesis ceremony. The
    model is explicit about the API server: the objects of the network's
    namespace, what becomes of every call, and a log of the writes that took
    effect. A computation is a state monad over that cluster whose error, as in
    the code, ends the reconcile. Events, metrics and logs are left out. *)

From stdpp Require Import base list strings gmap pretty sorting.
From Stdlib Require Import ZArith Lia Ascii.
From S2P Require Import Prelude Api NodeState Platform Executor Config Task Planner NodeTask Resolve NetApi.

(** ** Owner references (apimachinery, controller-runtime) *)
Record OwnerReference := mkOwner {
  or_Kind : string;
  or_Name : string;
  or_UID : string;
  or_Controller : bool;
}.
#[export] Instance OwnerReference_eq_dec : EqDecision OwnerReference.
Proof. solve_decision. Defined.

Class OwnerRefs := {
  GetControllerOf : list OwnerReference -> option OwnerReference;
  SetControllerReference : OwnerReference -> list OwnerReference -> result (list OwnerReference);
}.

(** The controller of an object is its reference with the controller flag; a
    controller reference set on an object without a controller is its controller. *)
Class OwnerRefsLaws (OR : OwnerRefs) : Prop := {
  controller_in : forall refs r, GetControllerOf refs = Some r -> In r refs /\ or_Controller r = true;
  controller_none : forall refs r, GetControllerOf refs = None -> In r refs -> or_Controller r = false;
  controller_set : forall refs me, GetControllerOf refs = None -> or_Controller me = true ->
    exists refs', SetControllerReference me refs = Ok refs' /\ GetControllerOf refs' = Some me;
}.

Definition network_ref (net : SeiNetwork) : OwnerReference :=
  mkOwner "SeiNetwork" (sw_Name net) (sw_UID net) true.

(** ** Objects of the namespace *)

(** A child SeiNode: the node with the rest of its metadata, the spec fields
    [Api.SeiNodeSpec] leaves out, and the status fields the network reads.
    [ch_Deleting] is a set deletion timestamp, [ch_Finalizer] that a finalizer is
    left; times are nanoseconds. *)
Record Child := mkChild {
  ch_Node : SeiNode;
  ch_Labels : gmap string string;
  ch_Owners : list OwnerReference;
  ch_Deleting : bool;
  ch_Finalizer : bool;
  ch_PodLabels : gmap string string;
  ch_DataVolume : option jval;
  ch_Resources : option jval;
  ch_CommittedHeight : option Z;
  ch_CommittedHeightTime : option Z;
  ch_Endpoint : option NodeEndpointStatus;
}.
Definition ch_Name (c : Child) : string := n_Name (ch_Node c).
Definition ch_Spec (c : Child) : SeiNodeSpec := n_Spec (ch_Node c).
Definition ch_Status (c : Child) : SeiNodeStatus := n_Status (ch_Node c).
Definition ch_Annotations (c : Child) : gmap string string := n_Annotations (ch_Node c).

Definition ch_node (f : SeiNode -> SeiNode) (c : Child) : Child :=
  mkChild (f (ch_Node c)) (ch_Labels c) (ch_Owners c) (ch_Deleting c) (ch_Finalizer c) (ch_PodLabels c)
    (ch_DataVolume c) (ch_Resources c) (ch_CommittedHeight c) (ch_CommittedHeightTime c) (ch_Endpoint c).
Definition ch_spec (f : SeiNodeSpec -> SeiNodeSpec) (c : Child) : Child :=
  ch_node (fun n => with_Spec n (f (n_Spec n))) c.
Definition ch_owners (refs : list OwnerReference) (c : Child) : Child :=
  mkChild (ch_Node c) (ch_Labels c) refs (ch_Deleting c) (ch_Finalizer c) (ch_PodLabels c)
    (ch_DataVolume c) (ch_Resources c) (ch_CommittedHeight c) (ch_CommittedHeightTime c) (ch_Endpoint c).
Definition ch_labels (l : gmap string string) (c : Child) : Child :=
  mkChild (ch_Node c) l (ch_Owners c) (ch_Deleting c) (ch_Finalizer c) (ch_PodLabels c)
    (ch_DataVolume c) (ch_Resources c) (ch_CommittedHeight c) (ch_CommittedHeightTime c) (ch_Endpoint c).
Definition ch_podlabels (l : gmap string string) (c : Child) : Child :=
  mkChild (ch_Node c) (ch_Labels c) (ch_Owners c) (ch_Deleting c) (ch_Finalizer c) l
    (ch_DataVolume c) (ch_Resources c) (ch_CommittedHeight c) (ch_CommittedHeightTime c) (ch_Endpoint c).
Definition ch_annotations (a : gmap string string) (c : Child) : Child :=
  ch_node (fun n => mkSeiNode (n_Name n) (n_Namespace n) (n_Generation n) (n_CreationTimestamp n) a
                      (n_Spec n) (n_Status n)) c.
Definition ch_deleted (c : Child) : Child :=
  mkChild (ch_Node c) (ch_Labels c) (ch_Owners c) true (ch_Finalizer c) (ch_PodLabels c)
    (ch_DataVolume c) (ch_Resources c) (ch_CommittedHeight c) (ch_CommittedHeightTime c) (ch_Endpoint c).

(** The internal Service; [svc_Ports] are the named ports. *)
Record Service := mkService {
  svc_Name : string;
  svc_Namespace : string;
  svc_Labels : gmap string string;
  svc_Annotations : gmap string string;
  svc_Owners : list OwnerReference;
  svc_Selector : gmap string string;
  svc_PublishNotReady : bool;
  svc_Ports : list (string * Z);
}.
Definition svc_meta (annotations : gmap string string) (owners : list OwnerReference) (s : Service) : Service :=
  mkService (svc_Name s) (svc_Namespace s) (svc_Labels s) annotations owners (svc_Selector s)
    (svc_PublishNotReady s) (svc_Ports s).

(** A pod as the placement report reads it. *)
Inductive PodPhase := PodSucceeded | PodFailed | PodPhaseOther.
#[export] Instance PodPhase_eq_dec : EqDecision PodPhase.
Proof. solve_decision. Defined.
Record NetPod := mkNetPod {
  np_Labels : gmap string string;
  np_NodeName : string;
  np_Deleting : bool;
  np_Phase : PodPhase;
}.

(** ** The cluster *)

(** The writes on children, with the object they found and the one they left. *)
Inductive effect :=
| ECreate (new : Child)
| EUpdate (old new : Child)
| EDelete (old : Child)
| EPeers (old new : Child)
| ERelease (old new : Child).

(** The objects of the network's namespace, what becomes of the next calls, the
    log of writes, the sidecars, and the executor's counter. *)
Record cluster (W : Type) := mkCluster {
  cl_net : option SeiNetwork;
  cl_nodes : gmap string Child;
  cl_svc : option Service;
  cl_pods : list NetPod;
  cl_faults : list fault;
  cl_log : list effect;
  cl_sidecars : W;
  cl_active : gmap (string * string) Z;
}.
Arguments mkCluster {W} _ _ _ _ _ _ _ _.
Arguments cl_net {W} _.
Arguments cl_nodes {W} _.
Arguments cl_svc {W} _.
Arguments cl_pods {W} _.
Arguments cl_faults {W} _.
Arguments cl_log {W} _.
Arguments cl_sidecars {W} _.
Arguments cl_active {W} _.

Section Cluster.
Context {W : Type}.

Definition cl_set_net (n : option SeiNetwork) (c : cluster W) : cluster W :=
  mkCluster n (cl_nodes c) (cl_svc c) (cl_pods c) (cl_faults c) (cl_log c) (cl_sidecars c) (cl_active c).
Definition cl_set_svc (s : option Service) (c : cluster W) : cluster W :=
  mkCluster (cl_net c) (cl_nodes c) s (cl_pods c) (cl_faults c) (cl_log c) (cl_sidecars c) (cl_active c).
Definition cl_set_faults (f : list fault) (c : cluster W) : cluster W :=
  mkCluster (cl_net c) (cl_nodes c) (cl_svc c) (cl_pods c) f (cl_log c) (cl_sidecars c) (cl_active c).
Definition cl_set_sidecars (x : W) (c : cluster W) : cluster W :=
  mkCluster (cl_net c) (cl_nodes c) (cl_svc c) (cl_pods c) (cl_faults c) (cl_log c) x (cl_active c).
Definition cl_set_active (g : gmap (string * string) Z) (c : cluster W) : cluster W :=
  mkCluster (cl_net c) (cl_nodes c) (cl_svc c) (cl_pods c) (cl_faults c) (cl_log c) (cl_sidecars c) g.
(** The children after a write, with its entry in the log. *)
Definition cl_write (m : gmap string Child) (e : effect) (c : cluster W) : cluster W :=
  mkCluster (cl_net c) m (cl_svc c) (cl_pods c) (cl_faults c) (cl_log c ++ [e]) (cl_sidecars c) (cl_active c).

(** *** Computations *)
Definition K (A : Type) : Type := cluster W -> result A * cluster W.
#[global] Instance K_ret : MRet K := fun _ a c => (Ok a, c).
#[global] Instance K_bind : MBind K := fun _ _ f m c =>
  match m c with
  | (Ok a, c') => f a c'
  | (Err e, c') => (Err e, c')
  end.
Definition fail {A} (e : string) : K A := fun c => (Err e, c).
Definition wrap {A} (prefix : string) (m : K A) : K A := fun c =>
  let '(r, c') := m c in (wrap_err prefix r, c').
(** [for ... { if err := f(x); err != nil { return err } }] *)
Fixpoint forK {A} (l : list A) (f : A -> K unit) : K unit :=
  match l with
  | [] => mret tt
  | x :: l' => _ ← f x; forK l' f
  end.

(** *** Calls *)
Definition api_text (e : api_error) : string :=
  match e with ENotFound => "not found" | EConflict => "conflict" | EOther => "api error" end.
Definition pop_fault (c : cluster W) : fault * cluster W :=
  match cl_faults c with [] => (Done, c) | f :: fs => (f, cl_set_faults fs c) end.
Definition refusal (conflict : bool) : api_error := if conflict then EConflict else EOther.

(** A read answers what is stored, or fails. *)
Definition reading {A} (f : cluster W -> api_error + A) (c : cluster W) : (api_error + A) * cluster W :=
  let '(x, c) := pop_fault c in
  match x with Done => (f c, c) | _ => (inl EOther, c) end.
(** A write: what it does to the cluster, or why the server rejects it. A [Lost]
    write takes effect and reports an error. *)
Definition writing (f : cluster W -> api_error + cluster W) (c : cluster W) : option api_error * cluster W :=
  let '(x, c) := pop_fault c in
  match x with
  | Refused b => (Some (refusal b), c)
  | _ =>
      match f c with
      | inl e => (Some e, c)
      | inr c' => (match x with Lost => Some EOther | _ => None end, c')
      end
  end.

Definition GetChild (name : string) : cluster W -> (api_error + Child) * cluster W :=
  reading (fun c => match cl_nodes c !! name with Some ch => inr ch | None => inl ENotFound end).

(** [client.MatchingLabels]: the labels contain the selector. *)
Definition ListSeiNodes (selector : gmap string string) : cluster W -> (api_error + list Child) * cluster W :=
  reading (fun c => inr (filter (fun ch => selector ⊆ ch_Labels ch) (snd <$> map_to_list (cl_nodes c)))).
Definition ListPods (selector : gmap string string) : cluster W -> (api_error + list NetPod) * cluster W :=
  reading (fun c => inr (filter (fun p => selector ⊆ np_Labels p) (cl_pods c))).

(** The stored form of a created child: its status starts empty and the server
    stamps its creation, in seconds. *)
Definition empty_status : SeiNodeStatus :=
  mkSeiNodeStatus PhaseNone "" "" "" IsolationNone "" [] None None [] [] 0 HoldNone.
Definition as_created (now : Z) (ch : Child) : Child :=
  ch_node (fun n => mkSeiNode (n_Name n) (n_Namespace n) 1 (now / second)%Z (n_Annotations n) (n_Spec n)
                      empty_status) ch.
Definition CreateChild (now : Z) (ch : Child) : cluster W -> option api_error * cluster W :=
  writing (fun c =>
    match cl_nodes c !! ch_Name ch with
    | Some _ => inl EOther
    | None => inr (cl_write (<[ch_Name ch := as_created now ch]> (cl_nodes c)) (ECreate (as_created now ch)) c)
    end).

(** The fields an Update of the main resource writes, put on the stored object. *)
Definition as_updated (stored ch : Child) : Child :=
  mkChild
    (mkSeiNode (ch_Name stored) (n_Namespace (ch_Node stored)) (n_Generation (ch_Node stored))
       (n_CreationTimestamp (ch_Node stored)) (ch_Annotations ch) (ch_Spec ch) (ch_Status stored))
    (ch_Labels ch) (ch_Owners ch) (ch_Deleting stored) (ch_Finalizer stored) (ch_PodLabels ch)
    (ch_DataVolume ch) (ch_Resources ch) (ch_CommittedHeight stored) (ch_CommittedHeightTime stored)
    (ch_Endpoint stored).
Definition store_child (name : string) (f : Child -> Child) (e : Child -> Child -> effect)
    : cluster W -> option api_error * cluster W :=
  writing (fun c =>
    match cl_nodes c !! name with
    | None => inl ENotFound
    | Some old => inr (cl_write (<[name := f old]> (cl_nodes c)) (e old (f old)) c)
    end).
Definition UpdateChild (ch : Child) := store_child (ch_Name ch) (fun old => as_updated old ch) EUpdate.
(** The patches: of [spec.peers], and of owner references and annotations. *)
Definition PatchPeers (name : string) (peers : list PeerSource) :=
  store_child name (ch_spec (with_Peers peers)) EPeers.
Definition PatchRelease (name : string) (refs : list OwnerReference) (annotations : gmap string string) :=
  store_child name (fun old => ch_annotations annotations (ch_owners refs old)) ERelease.

(** A delete marks the object while a finalizer holds it. *)
Definition DeleteChild (name : string) : cluster W -> option api_error * cluster W :=
  writing (fun c =>
    match cl_nodes c !! name with
    | None => inl ENotFound
    | Some old =>
        inr (cl_write (if ch_Finalizer old then <[name := ch_deleted old]> (cl_nodes c)
                       else delete name (cl_nodes c)) (EDelete old) c)
    end).

(** Calls as computations: any error ends the reconcile, or all but NotFound. *)
Definition call {A} (op : cluster W -> (api_error + A) * cluster W) : K A := fun c =>
  match op c with (inl e, c') => (Err (api_text e), c') | (inr a, c') => (Ok a, c') end.
Definition callW (op : cluster W -> option api_error * cluster W) : K unit := fun c =>
  match op c with (Some e, c') => (Err (api_text e), c') | (None, c') => (Ok tt, c') end.
Definition ignoreNotFound (op : cluster W -> option api_error * cluster W) : K unit := fun c =>
  match op c with
  | (Some ENotFound, c') => (Ok tt, c')
  | (Some e, c') => (Err (api_text e), c')
  | (None, c') => (Ok tt, c')
  end.
End Cluster.

Abbreviation comp := (@K _).

(** ** Names and labels (labels.go) *)
Definition groupLabel := "sei.io/nodedeployment".
Definition groupOrdinalLabel := "sei.io/nodedeployment-ordinal".
Definition seinetworkLabel := "sei.io/seinetwork".
Definition seinetworkOrdinalLabel := "sei.io/seinetwork-ordinal".
Definition chainLabel := "sei.io/chain".
Definition roleLabel := "sei.io/role".
Definition roleValidator := "validator".
Definition managedByAnnotation := "sei.io/managed-by".
Definition NodeLabel := "sei.io/node".
Definition RetainedFromAnnotation := "sei.io/retained-from-seinetwork".
Definition RetainReasonAnnotation := "sei.io/retain-reason".
Definition retainReason :=
  "SeiNetwork deleted with deletionPolicy=Retain; the data volume holds the ceremony-generated consensus identity, which cannot be regenerated".
Definition networkControllerName := "seinetwork".
Definition networkPollInterval : Z := 30 * second.

Definition seiNodeName (net : SeiNetwork) (ordinal : nat) : string := sw_Name net +:+ "-" +:+ pretty ordinal.
Definition groupSelector (net : SeiNetwork) : gmap string string := {[groupLabel := sw_Name net]}.
Definition seinetworkSelector (net : SeiNetwork) : gmap string string := {[seinetworkLabel := sw_Name net]}.
Definition seiNodeLabels (net : SeiNetwork) (ordinal : nat) : gmap string string :=
  <[groupLabel := sw_Name net]> (<[groupOrdinalLabel := pretty ordinal]>
  (<[seinetworkLabel := sw_Name net]> (<[seinetworkOrdinalLabel := pretty ordinal]>
  (<[chainLabel := gn_ChainID (sn_Genesis (sw_Spec net))]> {[roleLabel := roleValidator]})))).
Definition seiNodeAnnotations (net : SeiNetwork) : gmap string string := ∅.
Definition resourceLabels (net : SeiNetwork) : gmap string string := {[groupLabel := sw_Name net]}.
Definition managedByAnnotations : gmap string string := {[managedByAnnotation := networkControllerName]}.
Definition internalServiceName (net : SeiNetwork) : string := sw_Name net +:+ "-internal".

(** ** The desired child (nodes.go) *)
Definition cloneConfigValues (values : list ConfigValue) : list ConfigValue := values.

Definition generateSeiNode (net : SeiNetwork) (ordinal : nat) : Child :=
  let s := sw_Spec net in
  let g := sn_Genesis s in
  let podLabels := <[seinetworkLabel := sw_Name net]> (<[groupLabel := sw_Name net]> (sn_PodLabels s)) in
  let spec := mkSeiNodeSpec (gn_ChainID g) (sn_Image s) [] (sn_ConfigOverrides s)
    (NetworkConsensus_Node (sn_Consensus s)) (sn_ExecutionEngine s) (cloneConfigValues (sn_ConfigValues s)) None
    (sn_Scheduling s) (sn_Sidecar s) None None None
    (Some (mkValidatorSpec None
             (Some (mkGenesisCeremonyNodeConfig (gn_ChainID g) (gn_StakingAmount g) (gn_AccountBalance g)
                      (Z.of_nat ordinal)))
             None None None))
    None "" (sn_Paused s) 0 None in
  mkChild
    (mkSeiNode (seiNodeName net ordinal) (sw_Namespace net) 0 0 (seiNodeAnnotations net) spec empty_status)
    (seiNodeLabels net ordinal) [] false false podLabels (sn_DataVolume s) (sn_Resources s) None None None.

#[export] Instance SidecarConfig_eq_dec : EqDecision SidecarConfig.
Proof. solve_decision. Defined.
#[export] Instance SchedulingConfig_eq_dec : EqDecision SchedulingConfig.
Proof. solve_decision. Defined.
#[export] Instance ConfigValue_eq_dec : EqDecision ConfigValue.
Proof. solve_decision. Defined.

(** One field of an existing child brought in line with the desired one. *)
Definition sync {A} `{EqDecision A} (get : Child -> A) (set : A -> Child -> Child) (want : A)
    (p : Child * bool) : Child * bool :=
  if decide (get p.1 = want) then p else (set want p.1, true).

Section Controller.
Context {W : Type} {SC : StatusConditions} {OR : OwnerRefs} {C : SeiConfig} {H : Hashes}.

Definition IsControlledBy (refs : list OwnerReference) (net : SeiNetwork) : bool :=
  match GetControllerOf refs with Some r => or_UID r =s sw_UID net | None => false end.

Definition configValuesRejected (net : SeiNetwork) : bool :=
  match net_cond net ConditionConfigValuesValid with
  | Some c => bool_decide (c_Status c = ConditionFalse)
  | None => false
  end.

(** The fields [ensureSeiNode] keeps in line on an existing child; [updated] is
    whether its owner reference was just set. *)
Definition syncChild (net : SeiNetwork) (desired existing : Child) (updated : bool) : Child * bool :=
  let p := sync ch_Labels ch_labels (ch_Labels desired) (existing, updated) in
  let p := sync ch_Annotations ch_annotations (ch_Annotations desired) p in
  let p := sync (fun ch => sp_Image (ch_Spec ch)) (fun x => ch_spec (with_Image x)) (sp_Image (ch_Spec desired)) p in
  let p := sync (fun ch => sp_Sidecar (ch_Spec ch)) (fun x => ch_spec (with_Sidecar x)) (sp_Sidecar (ch_Spec desired)) p in
  let p := sync (fun ch => sp_Scheduling (ch_Spec ch)) (fun x => ch_spec (with_Scheduling x))
             (sp_Scheduling (ch_Spec desired)) p in
  let p := sync ch_PodLabels ch_podlabels (ch_PodLabels desired) p in
  let p := sync (fun ch => sp_Overrides (ch_Spec ch)) (fun x => ch_spec (with_Overrides x))
             (sp_Overrides (ch_Spec desired)) p in
  if configValuesRejected net then p
  else sync (fun ch => sp_ConfigValues (ch_Spec ch)) (fun x => ch_spec (with_ConfigValues x))
         (sp_ConfigValues (ch_Spec desired)) p.

(** The desired child with the network's controller reference. *)
Definition desiredChild (net : SeiNetwork) (ordinal : nat) : result Child :=
  let desired := generateSeiNode net ordinal in
  let desired := if configValuesRejected net then ch_spec (with_ConfigValues []) desired else desired in
  match SetControllerReference (network_ref net) (ch_Owners desired) with
  | Err e => Err ("setting owner reference: " +:+ e)
  | Ok refs => Ok (ch_owners refs desired)
  end.

(** The existing child with the network's controller reference, and whether it
    was set now. A child of another controller is refused. *)
Definition adoptChild (net : SeiNetwork) (existing : Child) : result (Child * bool) :=
  match GetControllerOf (ch_Owners existing) with
  | None =>
      match SetControllerReference (network_ref net) (ch_Owners existing) with
      | Err e => Err ("adopting SeiNode " +:+ ch_Name existing +:+ ": " +:+ e)
      | Ok refs => Ok (ch_owners refs existing, true)
      end
  | Some r =>
      if or_UID r <>s sw_UID net then
        Err ("SeiNode " +:+ ch_Name existing +:+ " is controlled by " +:+ or_Kind r +:+ " " +:+ or_Name r +:+
             " (uid " +:+ or_UID r +:+ "), so this SeiNetwork (uid " +:+ sw_UID net +:+ ") will not adopt it")
      else Ok (existing, false)
  end.

Definition liftR {A} (r : result A) : K (W:=W) A := fun c => (r, c).
Definition TryGetChild (name : string) : K (W:=W) (option Child) := fun c =>
  match GetChild name c with
  | (inr ch, c') => (Ok (Some ch), c')
  | (inl ENotFound, c') => (Ok None, c')
  | (inl e, c') => (Err (api_text e), c')
  end.

Definition ensureSeiNode (now : Z) (net : SeiNetwork) (ordinal : nat) : K (W:=W) unit :=
  desired ← liftR (desiredChild net ordinal);
  found ← TryGetChild (ch_Name desired);
  match found with
  | None => callW (CreateChild now desired)
  | Some existing =>
      if ch_Deleting existing then mret tt
      else
        '(child, adopted) ← liftR (adoptChild net existing);
        let '(child, updated) := syncChild net desired child adopted in
        if updated then callW (UpdateChild child) else mret tt
  end.

Definition listChildSeiNodes (net : SeiNetwork) : K (W:=W) (list Child) :=
  nodes ← wrap "listing child SeiNodes: " (call (ListSeiNodes (seinetworkSelector net)));
  mret (List.filter (fun ch => IsControlledBy (ch_Owners ch) net) nodes).

Definition scaleDown (net : SeiNetwork) : K (W:=W) unit :=
  if (sn_Replicas (sw_Spec net) <=? 0)%Z then mret tt
  else
    nodes ← wrap "listing child SeiNodes: " (call (ListSeiNodes (seinetworkSelector net)));
    forK nodes (fun ch =>
      if negb (IsControlledBy (ch_Owners ch) net) then mret tt
      else match scan_int (default "" (ch_Labels ch !! seinetworkOrdinalLabel)) with
           | Some ord =>
               if (sn_Replicas (sw_Spec net) <=? ord)%Z
               then wrap ("deleting excess SeiNode " +:+ ch_Name ch +:+ ": ") (ignoreNotFound (DeleteChild (ch_Name ch)))
               else mret tt
           | None => mret tt
           end).

Definition populateIncumbentNodes (net : SeiNetwork) : K (W:=W) SeiNetwork :=
  nodes ← wrap "listing child SeiNodes: " (listChildSeiNodes net);
  mret (nw_status (ns_incumbents (ch_Name <$> List.filter (fun ch => negb (ch_Deleting ch)) nodes)) net).

Definition ensureAll (now : Z) (net : SeiNetwork) : K (W:=W) unit :=
  forK (seq 0 (Z.to_nat (sn_Replicas (sw_Spec net)))) (fun i =>
    wrap ("ensuring SeiNode " +:+ pretty i +:+ ": ") (ensureSeiNode now net i)).

Definition reconcileSeiNodes (now : Z) (net : SeiNetwork) : K (W:=W) SeiNetwork :=
  if sw_Deleting net then populateIncumbentNodes net
  else if sn_Paused (sw_Spec net) then populateIncumbentNodes net
  else if negb (hasConditionTrue net ConditionPlanInProgress) then
    _ ← ensureAll now net;
    _ ← scaleDown net;
    populateIncumbentNodes net
  else populateIncumbentNodes net.

Definition bool_text (b : bool) : string := if b then "true" else "false".
Definition syncPausedToChildren (net : SeiNetwork) (desired : bool) : K (W:=W) unit :=
  children ← wrap "listing child SeiNodes: " (listChildSeiNodes net);
  forK children (fun ch =>
    if Bool.eqb (sp_Paused (ch_Spec ch)) desired then mret tt
    else wrap ("syncing paused=" +:+ bool_text desired +:+ " to " +:+ ch_Name ch +:+ ": ")
           (callW (UpdateChild (ch_spec (with_Paused desired) ch)))).

(** *** Retain *)
Definition released_refs (net : SeiNetwork) (refs : list OwnerReference) : list OwnerReference :=
  List.filter (fun r => or_UID r <>s sw_UID net) refs.
Definition retain_record (net : SeiNetwork) (annotations : gmap string string) : gmap string string :=
  <[RetainReasonAnnotation := retainReason]> (<[RetainedFromAnnotation := sw_Name net]> annotations).
Definition retainChild (net : SeiNetwork) (ch : Child) : K (W:=W) unit :=
  callW (PatchRelease (ch_Name ch) (released_refs net (ch_Owners ch)) (retain_record net (ch_Annotations ch))).
Definition orphanChildSeiNodes (net : SeiNetwork) : K (W:=W) unit :=
  nodes ← listChildSeiNodes net;
  forK nodes (fun ch => wrap ("orphaning SeiNode " +:+ ch_Name ch +:+ ": ") (retainChild net ch)).

(** *** The internal Service (internal_service.go) *)
Definition generateInternalService (net : SeiNetwork) : Service :=
  mkService (internalServiceName net) (sw_Namespace net) (resourceLabels net) managedByAnnotations []
    (groupSelector net) false
    [("rpc", PortRPC); ("evm-http", PortEVMHTTP); ("rest", PortREST)].

(** A server-side apply with forced ownership: maps are merged, owner references
    are keyed by UID, and a second controller is rejected. *)
Fixpoint merge_owner (r : OwnerReference) (refs : list OwnerReference) : list OwnerReference :=
  match refs with
  | [] => [r]
  | x :: refs' => if or_UID x =s or_UID r then r :: refs' else x :: merge_owner r refs'
  end.
Definition applied_service (desired : Service) (live : option Service) : api_error + Service :=
  match live with
  | None => inr desired
  | Some live =>
      let owners := fold_left (fun refs r => merge_owner r refs) (svc_Owners desired) (svc_Owners live) in
      if (1 <? Z.of_nat (length (List.filter or_Controller owners)))%Z then inl EOther
      else inr (mkService (svc_Name desired) (svc_Namespace desired) (svc_Labels desired ∪ svc_Labels live)
                  (svc_Annotations desired ∪ svc_Annotations live) owners (svc_Selector desired)
                  (svc_PublishNotReady desired) (svc_Ports desired))
  end.
Definition PatchService (f : option Service -> api_error + Service)
    : cluster W -> option api_error * cluster W :=
  writing (fun c => match f (cl_svc c) with inl e => inl e | inr s => inr (cl_set_svc (Some s) c) end).

(** The apply answers the live object. *)
Definition stored_service : K (W:=W) Service := fun c =>
  match cl_svc c with Some s => (Ok s, c) | None => (Err (api_text ENotFound), c) end.
Definition ApplyService (desired : Service) : K (W:=W) Service :=
  _ ← callW (PatchService (applied_service desired)); stored_service.
Definition GetService : K (W:=W) (option Service) :=
  call (reading (fun c => inr (cl_svc c))).
(** A patch of annotations and owner references. *)
Definition PatchServiceMeta (annotations : gmap string string) (owners : list OwnerReference)
    : cluster W -> option api_error * cluster W :=
  PatchService (fun live => match live with Some s => inr (svc_meta annotations owners s) | None => inl ENotFound end).

Definition clearRetainRecord (s : Service) : K (W:=W) unit :=
  let a := svc_Annotations s in
  if bool_decide (a !! RetainedFromAnnotation = None) && bool_decide (a !! RetainReasonAnnotation = None)
  then mret tt
  else callW (PatchServiceMeta (delete RetainReasonAnnotation (delete RetainedFromAnnotation a)) (svc_Owners s)).

Definition reconcileInternalService (net : SeiNetwork) : K (W:=W) SeiNetwork :=
  let desired := generateInternalService net in
  match SetControllerReference (network_ref net) (svc_Owners desired) with
  | Err e => fail ("setting owner reference on internal Service: " +:+ e)
  | Ok refs =>
      live ← wrap "applying internal Service: " (ApplyService (svc_meta (svc_Annotations desired) refs desired));
      _ ← wrap "clearing retain record on internal Service: " (clearRetainRecord live);
      mret (nw_status (ns_internal (mkInternalService (svc_Name live) (svc_Namespace live)
                                      (mkInternalPorts PortRPC PortEVMHTTP PortREST))) net)
  end.

Definition orphanInternalService (net : SeiNetwork) : K (W:=W) unit :=
  found ← wrap "fetching internal Service for orphan: " GetService;
  match found with
  | None => mret tt
  | Some s =>
      wrap "orphaning internal Service: "
        (callW (PatchServiceMeta (retain_record net (svc_Annotations s)) (released_refs net (svc_Owners s))))
  end.

(** ** Conditions (status.go, nodes.go) *)
Definition setGenesisCeremonyCondition (net : SeiNetwork) : SeiNetwork :=
  if hasConditionTrue net ConditionGenesisCeremonyComplete then net
  else if hasConditionTrue net ConditionPlanInProgress then
    setCondition ConditionGenesisCeremonyComplete ConditionFalse "InProgress"
      "genesis ceremony is executing under an active plan" net
  else if hasConditionReason net ConditionGenesisCeremonyComplete "CeremonyFailed" ||
          hasConditionReason net ConditionGenesisCeremonyComplete ReasonValidatorLost then net
  else setCondition ConditionGenesisCeremonyComplete ConditionFalse ReasonNotStarted
         "genesis ceremony has not yet started" net.

Definition setPausedCondition (net : SeiNetwork) : SeiNetwork :=
  if sn_Paused (sw_Spec net)
  then setCondition ConditionPaused ConditionTrue "Paused"
         "spec.paused is true; plan-driven orchestration is frozen" net
  else setCondition ConditionPaused ConditionFalse "NotPaused" "spec.paused is unset or false" net.

Definition setConfigValuesValidCondition (net : SeiNetwork) : SeiNetwork :=
  match ValidateConfigValues (sn_ConfigValues (sw_Spec net)) with
  | Ok _ =>
      setCondition ConditionConfigValuesValid ConditionTrue "Valid"
        (pretty (length (sn_ConfigValues (sw_Spec net))) +:+ " config values build a TOML overlay") net
  | Err e => setCondition ConditionConfigValuesValid ConditionFalse "InvalidConfigValues" e net
  end.

Definition seedAlwaysPresentConditions (net : SeiNetwork) : SeiNetwork :=
  let net := setConfigValuesValidCondition (setPausedCondition (setGenesisCeremonyCondition net)) in
  let net := seedConditionIfAbsent ConditionPlanInProgress ReasonNotStarted "no plan has run yet" net in
  let net := seedConditionIfAbsent ConditionNodesReady "Pending" "no child nodes observed yet" net in
  let net := seedConditionIfAbsent ConditionRolloutInProgress "AllUpToDate" "no child nodes observed yet" net in
  seedConditionIfAbsent ConditionProducing ReasonNoNodes "no child nodes observed yet" net.

(** ** Producing (producing.go) *)
Definition heightReadingMaxAge : Z := 90 * second.
Definition producingWindow : Z := 120 * second.

Record heightReadings := mkReadings { hr_highestFresh : Z; hr_highestAny : Z; hr_fresh : Z; hr_stale : Z }.

Definition readHeight (now : Z) (r : heightReadings) (ch : Child) : heightReadings :=
  match ch_CommittedHeight ch, ch_CommittedHeightTime ch with
  | Some h, Some t =>
      let any := Z.max (hr_highestAny r) h in
      if (heightReadingMaxAge <? now - t)%Z
      then mkReadings (hr_highestFresh r) any (hr_fresh r) (hr_stale r + 1)
      else mkReadings (Z.max (hr_highestFresh r) h) any (hr_fresh r + 1) (hr_stale r)
  | _, _ => r
  end.
Definition readHeights (nodes : list Child) (now : Z) : heightReadings :=
  fold_left (readHeight now) nodes (mkReadings 0 0 0 0).

Definition producing (status : ConditionStatus) (reason msg : string) : SeiNetwork -> SeiNetwork :=
  setCondition ConditionProducing status reason msg.

(** The high-water mark after the readings, and whether the height advanced. *)
Definition newMark (prev : option ObservedHeight) (r : heightReadings) (now : Z) : ObservedHeight :=
  match prev with
  | None => mkObserved (hr_highestFresh r) now
  | Some p =>
      if (oh_Height p <? hr_highestFresh r)%Z || (hr_highestAny r <? oh_Height p)%Z
      then mkObserved (hr_highestFresh r) now else p
  end.
Definition heightAdvanced (prev : option ObservedHeight) (r : heightReadings) : bool :=
  match prev with
  | Some p => (oh_Height p <? hr_highestFresh r)%Z
  | None => (0 <? hr_highestFresh r)%Z
  end.
(** [d.Truncate(time.Second)] *)
Definition truncate_second (d : Z) : Z := (Z.quot d second * second)%Z.

Definition setProducingCondition (net : SeiNetwork) (nodes : list Child) (now : Z) : SeiNetwork :=
  match nodes with
  | [] => producing ConditionFalse ReasonNoNodes "no child SeiNodes exist" net
  | _ =>
      let n := pretty (length nodes) in
      let r := readHeights nodes now in
      if (hr_fresh r =? 0)%Z then
        if (hr_stale r =? 0)%Z then
          producing ConditionFalse ReasonAwaitingFirstBlock
            ("no committed-height reading yet from any of " +:+ n +:+
             " child nodes (none Running long enough to report)") net
        else
          producing ConditionFalse ReasonSignalUnreadable
            ("no committed-height reading newer than " +:+ duration_string heightReadingMaxAge +:+
             " from any of " +:+ n +:+ " child nodes (" +:+ pretty (hr_stale r) +:+ " stale, " +:+
             pretty (Z.of_nat (length nodes) - hr_stale r)%Z +:+ " never read)") net
      else
        let prev := sns_ObservedHeight (sw_Status net) in
        let mark := newMark prev r now in
        let net := nw_status (ns_height (Some mark)) net in
        let h := pretty (oh_Height mark) in
        if heightAdvanced prev r then
          producing ConditionTrue ReasonHeightAdvancing
            ("observed height advanced to " +:+ h +:+ " (" +:+ pretty (hr_fresh r) +:+ "/" +:+ n +:+
             " child readings fresh)") net
        else
          let since := truncate_second (now - oh_Time mark) in
          if (since <=? producingWindow)%Z then
            if (oh_Height mark =? 0)%Z then
              producing ConditionFalse ReasonAwaitingFirstBlock
                ("no block committed yet; " +:+ duration_string since +:+ " of " +:+
                 duration_string producingWindow +:+ " grace window elapsed") net
            else
              producing ConditionTrue ReasonHeightAdvancing
                ("observed height " +:+ h +:+ " unchanged for " +:+ duration_string since +:+ " (window " +:+
                 duration_string producingWindow +:+ "; highest fresh reading " +:+ pretty (hr_highestFresh r) +:+
                 ")") net
          else if CommitsOnDemand (sn_Consensus (sw_Spec net)) then
            producing ConditionFalse ReasonIdle
              ("engine commits only when transactions arrive (allowEmptyBlocks off); height " +:+ h +:+
               " unchanged for " +:+ duration_string since) net
          else
            producing ConditionFalse ReasonHeightStalled
              ("observed height " +:+ h +:+ " has not advanced for " +:+ duration_string since +:+ " (window " +:+
               duration_string producingWindow +:+ "; highest fresh reading " +:+ pretty (hr_highestFresh r) +:+
               ")") net
  end.

(** ** The status report (status.go, endpoints.go, per_pod_services.go) *)
Definition IsStatusConditionTrue (cs : list Condition) (t : string) : bool :=
  match FindStatusCondition cs t with
  | Some c => bool_decide (c_Status c = ConditionTrue)
  | None => false
  end.

Definition childReady (ch : Child) : bool :=
  if negb (bool_decide (st_Phase (ch_Status ch) = PhaseRunning)) then false
  else
    let engine := EffectiveExecutionEngine (ch_Spec ch) in
    if negb (IsEvmOnly engine) || negb (EvmHTTPEnabled engine) then true
    else IsStatusConditionTrue (st_Conditions (ch_Status ch)) ConditionEvmServing.
Definition childNotServing (ch : Child) : bool :=
  bool_decide (st_Phase (ch_Status ch) = PhaseRunning) && negb (childReady ch).

Definition count (f : Child -> bool) (nodes : list Child) : Z := Z.of_nat (length (List.filter f nodes)).
Definition is_failed (ch : Child) : bool := bool_decide (st_Phase (ch_Status ch) = PhaseFailed).
Definition is_starting (ch : Child) : bool :=
  bool_decide (st_Phase (ch_Status ch) = PhasePending) || bool_decide (st_Phase (ch_Status ch) = PhaseInitializing).

Definition setRolloutInProgressCondition (net : SeiNetwork) (upToDate desired : Z) (childCount : nat) : SeiNetwork :=
  let msg := pretty upToDate +:+ "/" +:+ pretty desired +:+ " replicas on spec.image" in
  if (0 <? childCount) && (upToDate <? desired)%Z
  then setCondition ConditionRolloutInProgress ConditionTrue "ImageRolling" msg net
  else setCondition ConditionRolloutInProgress ConditionFalse "AllUpToDate" msg net.

Definition computeGroupPhase (net : SeiNetwork) (ready desired : Z) (nodes : list Child) : SeiNetworkPhase :=
  if sn_Paused (sw_Spec net) then GroupPhasePaused
  else if hasConditionTrue net ConditionPlanInProgress then GroupPhaseInitializing
  else if hasConditionReason net ConditionGenesisCeremonyComplete "CeremonyFailed" then GroupPhaseFailed
  else match nodes with
  | [] => GroupPhasePending
  | _ =>
      if (ready =? desired)%Z then GroupPhaseReady
      else
        let failed := count is_failed nodes in
        let notServing := count (fun ch => negb (is_failed ch) && childNotServing ch) nodes in
        if (failed =? Z.of_nat (length nodes))%Z then GroupPhaseFailed
        else if ((0 <? failed)%Z || (0 <? notServing)%Z) && (0 <? ready)%Z then GroupPhaseDegraded
        else GroupPhaseInitializing
  end.

Definition setNodesReadyCondition (net : SeiNetwork) (ready desired : Z) (nodes : list Child) : SeiNetwork :=
  let ratio := pretty ready +:+ "/" +:+ pretty desired +:+ " nodes ready" in
  if (ready <? desired)%Z then
    let initializing := count is_starting nodes in
    let failed := count is_failed nodes in
    let notServing := count childNotServing nodes in
    let '(reason, msg) :=
      if (0 <? failed)%Z then
        ("NodesFailed", ratio +:+ " (" +:+ pretty failed +:+ " failed, " +:+ pretty initializing +:+ " initializing)")
      else if (0 <? notServing)%Z then
        ("NodesNotServing", ratio +:+ " (" +:+ pretty notServing +:+ " running but not serving, " +:+
                            pretty initializing +:+ " initializing)")
      else ("NodesInitializing", ratio +:+ " (" +:+ pretty initializing +:+ " initializing)") in
    setCondition ConditionNodesReady ConditionFalse reason msg net
  else setCondition ConditionNodesReady ConditionTrue "AllNodesReady" ratio net.

Definition httpURL (service namespace : string) (port : Z) : string :=
  "http://" +:+ service +:+ "." +:+ namespace +:+ ".svc:" +:+ pretty port.
Definition no_urls : NodeEndpointStatus := mkNodeEndpointStatus "" "" "" "".
Definition childEndpoints (nodes : list Child) : list NodeEndpoint :=
  omap (fun ch =>
    match ch_Endpoint ch with
    | Some e => if decide (e = no_urls) then None else Some (mkNodeEndpoint (ch_Name ch) e)
    | None => None
    end) nodes.
Definition composeEndpoints (net : SeiNetwork) (nodes : list Child) : option Endpoints :=
  let '(rpc, rest) :=
    match sns_InternalService (sw_Status net) with
    | Some i =>
        if IsEvmOnly (Network_EffectiveExecutionEngine (sw_Spec net)) then ("", "")
        else (httpURL (is_Name i) (is_Namespace i) (ip_Rpc (is_Ports i)),
              httpURL (is_Name i) (is_Namespace i) (ip_Rest (is_Ports i)))
    | None => ("", "")
    end in
  let eps := childEndpoints nodes in
  if (rpc =s "") && bool_decide (eps = []) then None else Some (mkEndpoints rpc rest eps).

(** Sorted by ordinal. The sort of the code leaves the order of equal ordinals
    open; here they keep their order. *)
Definition by_ordinal (a b : Z * PerPodServiceStatus) : Prop := (a.1 <= b.1)%Z.
#[local] Instance by_ordinal_dec a b : Decision (by_ordinal a b).
Proof. unfold by_ordinal. apply _. Defined.
Definition populatePerPodServices (nodes : list Child) : list PerPodServiceStatus :=
  let entries := omap (fun ch =>
    ord ← (ch_Labels ch !! seinetworkOrdinalLabel) ≫= Atoi;
    Some (ord, mkPerPod (ch_Name ch) (n_Namespace (ch_Node ch)) (mkPerPodPorts PortEVMHTTP PortEVMWS))) nodes in
  snd <$> merge_sort by_ordinal entries.

Definition childWorkerNodes (net : SeiNetwork) : K (W:=W) (gmap string string) :=
  pods ← wrap "listing child pods: " (call (ListPods (seinetworkSelector net)));
  mret (fold_left (fun m p =>
    let child := default "" (np_Labels p !! NodeLabel) in
    if (child =s "") || (np_NodeName p =s "") || np_Deleting p ||
       bool_decide (np_Phase p = PodSucceeded) || bool_decide (np_Phase p = PodFailed)
    then m else <[child := np_NodeName p]> m) pods ∅).

Definition nodeStatus (workers : gmap string string) (ch : Child) : GroupNodeStatus :=
  let worker := default "" (workers !! ch_Name ch) in
  mkGroupNode (ch_Name ch) (st_Phase (ch_Status ch)) (childReady ch) (st_CurrentImage (ch_Status ch)) worker
    (if worker <>s "" then PlacementScheduled else PlacementPending).

(** The status [updateStatus] computes from the children and their worker nodes. *)
Definition reportStatus (now : Z) (net : SeiNetwork) (nodes : list Child) (workers : gmap string string)
    : SeiNetwork :=
  let desired := sn_Replicas (sw_Spec net) in
  let ready := count childReady nodes in
  let upToDate := count (fun ch => st_CurrentImage (ch_Status ch) =s sn_Image (sw_Spec net)) nodes in
  let gen := if hasConditionTrue net ConditionPlanInProgress
             then sns_ObservedGeneration (sw_Status net) else sw_Generation net in
  let net := nw_status (ns_report gen desired ready upToDate (nodeStatus workers <$> nodes)
                          (populatePerPodServices nodes) (composeEndpoints net nodes)) net in
  let net := nw_status (ns_phase (computeGroupPhase net ready desired nodes)) net in
  let net := setNodesReadyCondition net ready desired nodes in
  let net := setRolloutInProgressCondition net upToDate desired (length nodes) in
  setProducingCondition net nodes now.

(** Writes of the network. Stored times have the API's second granularity. *)
Definition wire_status (s : SeiNetworkStatus) : SeiNetworkStatus :=
  ns_height ((fun o => mkObserved (oh_Height o) (oh_Time o / second * second)%Z) <$> sns_ObservedHeight s) s.
Definition PatchNetworkStatus (net : SeiNetwork) : cluster W -> option api_error * cluster W :=
  writing (fun c =>
    match cl_net c with
    | None => inl ENotFound
    | Some stored => inr (cl_set_net (Some (nw_status (fun _ => wire_status (sw_Status net)) stored)) c)
    end).
(** A network that is being deleted goes with its finalizer and takes no new one. *)
Definition PatchNetworkFinalizer (add : bool) : cluster W -> option api_error * cluster W :=
  writing (fun c =>
    match cl_net c with
    | None => inl ENotFound
    | Some stored =>
        if add && sw_Deleting stored then inl EOther
        else inr (cl_set_net (if negb add && sw_Deleting stored then None
                              else Some (nw_finalizer add stored)) c)
    end).

Definition orElse {A} (d : A) (m : K (W:=W) A) : K (W:=W) A := fun c =>
  match m c with (Ok a, c') => (Ok a, c') | (Err _, c') => (Ok d, c') end.
Definition updateStatus (now : Z) (net : SeiNetwork) : K (W:=W) unit :=
  nodes ← listChildSeiNodes net;
  workers ← orElse ∅ (childWorkerNodes net);
  callW (PatchNetworkStatus (reportStatus now net nodes workers)).
End Controller.

(** ** The tasks of the ceremony (src/internal/task) *)

(** A sidecar per node, named by the node: why no client can be built for it, the
    task calls, and the node ID it reports. *)
Class NodeSidecars (W : Type) := {
  clientError : string -> W -> option string;
  ValidUUID : string -> bool;
  SubmitTo : string -> W -> string -> string -> TaskParams -> option string * W;
  GetFrom : string -> W -> string -> get_outcome;
  GetNodeID : string -> W -> result string;
}.

Section NetTasks.
Context {W : Type} {SC : StatusConditions} {OR : OwnerRefs} {C : SeiConfig} {H : Hashes} {NS : NodeSidecars W}.
Context (libs : ClientLibs).

(** The sidecar client of a network's plan (src/cmd/main.go): that of the first
    child by name, [None] when there is none. *)
Definition name_le (a b : Child) : Prop := String.le (ch_Name a) (ch_Name b).
#[local] Instance name_le_dec a b : Decision (name_le a b).
Proof. unfold name_le. apply _. Defined.
Definition assemblerNode (net : SeiNetwork) : K (W:=W) (option string) := fun c =>
  match ListSeiNodes (seinetworkSelector net) c with
  | (inr nodes, c') => (Ok (ch_Name <$> head (merge_sort name_le nodes)), c')
  | (inl _, c') => (Ok None, c')
  end.

Definition assembler_api (network : string) (assembler : option string) : SidecarAPI (cluster W) := {|
  buildSC := fun c =>
    match assembler with
    | None => Some ("no assembler node found for network " +:+ network)
    | Some n => clientError n (cl_sidecars c)
    end;
  ParseUUID := ValidUUID;
  SubmitTask := fun c ty id ps =>
    match assembler with
    | None => (Some "no assembler node", c)
    | Some n => let '(e, x) := SubmitTo n (cl_sidecars c) ty id ps in (e, cl_set_sidecars x c)
    end;
  GetTask := fun c id =>
    match assembler with None => GotError | Some n => GetFrom n (cl_sidecars c) id end;
|}.

(** *** collect-and-set-peers (genesis_peers.go) *)
Definition defaultP2PPort : Z := 26656.
Definition peerAddress (nodeID name namespace : string) : string :=
  nodeID +:+ "@" +:+ name +:+ "-0." +:+ name +:+ "." +:+ namespace +:+ ".svc.cluster.local:" +:+
  pretty defaultP2PPort.
Fixpoint collectPeers (namespace : string) (names : list string) : K (W:=W) (list string) :=
  match names with
  | [] => mret []
  | name :: rest =>
      _ ← wrap ("getting node " +:+ name +:+ ": ") (call (GetChild name));
      peer ← (fun c =>
        (match clientError name (cl_sidecars c) with
         | Some e => Err ("building sidecar client for " +:+ name +:+ ": " +:+ e)
         | None =>
             match GetNodeID name (cl_sidecars c) with
             | Err e => Err ("getting node ID for " +:+ name +:+ ": " +:+ e)
             | Ok id => Ok (peerAddress id name namespace)
             end
         end, c)) : K (W:=W) string;
      peers ← collectPeers namespace rest;
      mret (peer :: peers)
  end.
Definition staticPeers (peers : list string) : list PeerSource := [mkPeerSource None (Some peers) None].
Definition setPeersOnNodes (names peers : list string) : K (W:=W) unit :=
  forK names (fun name =>
    _ ← wrap ("getting node " +:+ name +:+ ": ") (call (GetChild name));
    wrap ("setting peers on " +:+ name +:+ ": ") (callW (PatchPeers name (staticPeers peers)))).
Definition collectAndSetPeers_Execute (namespace : string) (names : list string) : K (W:=W) unit :=
  peers ← wrap "collecting peers: " (collectPeers namespace names);
  wrap "setting peers: " (setPeersOnNodes names peers).

(** *** await-nodes-running (await_nodes_running.go) *)
Fixpoint getNodes (names : list string) : K (W:=W) (list Child) :=
  match names with
  | [] => mret []
  | name :: rest => ch ← call (GetChild name); l ← getNodes rest; mret (ch :: l)
  end.
Definition listTargetNodes (group : string) (names : list string) : K (W:=W) (list Child) :=
  match names with
  | [] => call (ListSeiNodes {[seinetworkLabel := group]})
  | _ => getNodes names
  end.
Definition awaitVerdict (expected : Z) (nodes : list Child) : ExecutionStatus * option string :=
  match List.find is_failed nodes with
  | Some ch => (ExecutionFailed, Some ("node " +:+ ch_Name ch +:+ " is in Failed phase"))
  | None =>
      if (expected <=? count (fun ch => bool_decide (st_Phase (ch_Status ch) = PhaseRunning)) nodes)%Z
      then (ExecutionComplete, None) else (ExecutionRunning, None)
  end.
Definition awaitNodesRunning_Status (group : string) (expected : Z) (names : list string) (b : taskBase)
    (c : cluster W) : ExecutionStatus * taskBase * cluster W :=
  match tb_status b with
  | ExecutionComplete | ExecutionFailed => (tb_status b, b, c)
  | _ =>
      match listTargetNodes group names c with
      | (Err _, c') => (ExecutionRunning, b, c')
      | (Ok nodes, c') =>
          let '(st, err) := awaitVerdict expected nodes in
          match st with
          | ExecutionRunning => (st, b, c')
          | _ => (st, mkTaskBase st (match err with Some e => Some e | None => tb_err b end), c')
          end
      end
  end.

(** *** The registry, for the task types a network plan holds; [Rest] runs the
    others. *)
Context (Rest : TaskRuntime (cluster W)).

Inductive net_execution :=
| NxAssemble (api : SidecarAPI (cluster W)) (e : sidecarExecution)
| NxCollect (namespace : string) (names : list string) (b : taskBase)
| NxAwait (group : string) (expected : Z) (names : list string) (b : taskBase)
| NxRest (e : @TaskExecution _ Rest).

Definition net_Deserialize (assembler : option string) (ty id : string) (params : option TaskParams)
    (o : Object) : result net_execution :=
  if ty =s TaskAssembleGenesis then
    Ok (NxAssemble (assembler_api (obj_name o) assembler)
          (deserializeSidecar ty id params (AssembleAndUploadGenesisTask "" "" [] [] ∅ RawNone false None) false))
  else if ty =s TaskTypeCollectAndSetPeers then
    Ok match params with
       | Some (CollectAndSetPeersParams _ ns names) => NxCollect ns names newBase
       | _ => NxCollect "" [] newBase
       end
  else if ty =s TaskTypeAwaitNodesRunning then
    Ok match params with
       | Some (AwaitNodesRunningParams g _ n names) => NxAwait g n names newBase
       | _ => NxAwait "" 0 [] newBase
       end
  else NxRest <$> Deserialize ty id params o.

Definition net_Execute (ex : net_execution) (o : Object) (c : cluster W)
    : option exec_error * net_execution * Object * cluster W :=
  match ex with
  | NxAssemble api e =>
      let '(err, e', c') := @sidecar_Execute libs _ api e c in (err, NxAssemble api e', o, c')
  | NxCollect ns names b =>
      match collectAndSetPeers_Execute ns names c with
      | (Ok _, c') => (None, NxCollect ns names (complete b), o, c')
      | (Err e, c') => (Some (mkExecError false e), ex, o, c')
      end
  | NxAwait _ _ _ _ => (None, ex, o, c)
  | NxRest e => let '(err, e', o', c') := Execute e o c in (err, NxRest e', o', c')
  end.

Definition net_Status (ex : net_execution) (o : Object) (c : cluster W)
    : ExecutionStatus * net_execution * Object * cluster W :=
  match ex with
  | NxAssemble api e => let '(st, e') := @sidecar_Status _ api e c in (st, NxAssemble api e', o, c)
  | NxCollect _ _ b => (tb_status b, ex, o, c)
  | NxAwait g n names b => let '(st, b', c') := awaitNodesRunning_Status g n names b c in (st, NxAwait g n names b', o, c')
  | NxRest e => let '(st, e', o', c') := Status e o c in (st, NxRest e', o', c')
  end.

Definition net_Err (ex : net_execution) : option string :=
  match ex with
  | NxAssemble _ e => se_err e
  | NxCollect _ _ b | NxAwait _ _ _ b => tb_err b
  | NxRest e => ExecErr e
  end.

Definition network_runtime (assembler : option string) : TaskRuntime (cluster W) := {|
  TaskExecution := net_execution;
  Deserialize := net_Deserialize assembler;
  Execute := net_Execute;
  Status := net_Status;
  ExecErr := net_Err;
|}.

(** ** The plan of the network (plan.go) *)
Definition setPlanInProgress (reason msg : string) : SeiNetwork -> SeiNetwork :=
  setCondition ConditionPlanInProgress ConditionTrue reason msg.
Definition clearPlanInProgress (reason msg : string) : SeiNetwork -> SeiNetwork :=
  setCondition ConditionPlanInProgress ConditionFalse reason msg.

Definition startPlan (plan : TaskPlan) (net : SeiNetwork) : SeiNetwork :=
  setPlanInProgress "PlanStarted" "Plan execution started" (nw_status (ns_plan (Some plan)) net).
Definition net_completePlan (net : SeiNetwork) : SeiNetwork :=
  clearPlanInProgress "PlanComplete" "Plan completed successfully"
    (nw_status (ns_plan None)
       (setCondition ConditionGenesisCeremonyComplete ConditionTrue "Complete" "genesis ceremony completed" net)).
Definition failPlan (net : SeiNetwork) : SeiNetwork :=
  clearPlanInProgress "PlanFailed" "Plan failed"
    (nw_status (ns_plan None)
       (setCondition ConditionGenesisCeremonyComplete ConditionFalse "CeremonyFailed"
          "genesis ceremony plan failed" net)).

Definition validatorLost (net : SeiNetwork) : bool :=
  (Z.of_nat (length (sns_IncumbentNodes (sw_Status net))) <? sn_Replicas (sw_Spec net))%Z.

(** A survivor that is strictly older than the network was adopted. *)
Definition predates (net : SeiNetwork) (ch : Child) : bool :=
  (n_CreationTimestamp (ch_Node ch) <? sw_CreationTimestamp net)%Z.

Definition abandonPlanForLostValidator (net : SeiNetwork) : K (W:=W) SeiNetwork :=
  survivors ← listChildSeiNodes net;
  let minted := negb (existsb (predates net) survivors) in
  let planID := match sns_Plan (sw_Status net) with Some p => pl_ID p | None => "" end in
  let present := pretty (length (sns_IncumbentNodes (sw_Status net))) +:+ " of " +:+
                 pretty (sn_Replicas (sw_Spec net)) in
  net' ← (if minted then
            let doomed := List.filter (fun ch => negb (ch_Deleting ch)) survivors in
            _ ← forK doomed (fun ch =>
              wrap ("deleting founding SeiNode " +:+ ch_Name ch +:+ " after validator loss: ")
                (ignoreNotFound (DeleteChild (ch_Name ch))));
            mret (setCondition ConditionGenesisCeremonyComplete ConditionFalse ReasonValidatorLost
                    (present +:+ " founding validators present; plan " +:+ planID +:+ " abandoned, " +:+
                     pretty (length doomed) +:+ " surviving founding SeiNodes deleted, the genesis ceremony restarts once the set is recreated") net)
          else
            mret (setCondition ConditionGenesisCeremonyComplete ConditionTrue ReasonAdoptedSet
                    (present +:+ " validators present; plan " +:+ planID +:+
                     " abandoned, adopted validators are kept, the ceremony is not rebuilt and the missing node is recreated with a fresh identity that the existing genesis does not name (its validator slot is not restored)") net));
  mret (clearPlanInProgress ReasonValidatorLost
          "Plan abandoned: a founding validator was deleted during the genesis ceremony"
          (nw_status (ns_plan None) net')).

(** [ExecutePlan] over the cluster; the network's own object only names it. *)
Definition net_execute (now : Z) (assembler : option string) (net : SeiNetwork)
    : K (W:=W) (option TaskPlan * Result) := fun c =>
  match @ExecutePlan _ (network_runtime assembler) now (ObjNetwork (sw_Name net) (sw_Namespace net))
          (sns_Plan (sw_Status net)) c (cl_active c) with
  | Ok (Some (res, s)) => (Ok (Some (es_plan s), res), cl_set_active (es_active s) (es_world s))
  | Ok None => (Ok (sns_Plan (sw_Status net), ResultNone), c)
  | Err e => (Err e, c)
  end.

Definition drivePlan (now : Z) (net : SeiNetwork) : K (W:=W) (SeiNetwork * Result) :=
  assembler ← assemblerNode net;
  '(plan, res) ← net_execute now assembler net;
  let net := nw_status (ns_plan plan) net in
  mret match pl_Phase <$> plan with
       | Some TaskPlanComplete => (net_completePlan net, res)
       | Some TaskPlanFailed => (failPlan net, res)
       | _ => (net, res)
       end.

(** [planID] is the fresh UUID of a plan that is built. *)
Definition reconcilePlan (now : Z) (planID : string) (net : SeiNetwork) : K (W:=W) (SeiNetwork * Result) :=
  if sn_Paused (sw_Spec net) then mret (net, ResultNone)
  else
    let active := match sns_Plan (sw_Status net) with
                  | Some p => bool_decide (pl_Phase p = TaskPlanActive)
                  | None => false
                  end in
    if active then
      if validatorLost net then
        net ← abandonPlanForLostValidator net; mret (net, ResultRequeueImmediate)
      else drivePlan now net
    else match ForGroup net with
    | None => mret (net, ResultNone)
    | Some p =>
        plan ← liftR (wrap_err "building plan: " (BuildPlan libs p planID net));
        mret (startPlan plan net, ResultRequeueImmediate)
    end.

(** ** Reconcile (controller.go) *)
Definition handleDeletion (net : SeiNetwork) : K (W:=W) Result :=
  if negb (sw_Finalizer net) then mret ResultNone
  else
    _ ← wrap "setting terminating status: "
          (callW (PatchNetworkStatus (nw_status (ns_phase GroupPhaseTerminating) net)));
    _ ← (if decide (sn_DeletionPolicy (sw_Spec net) = PolicyUnset \/
                    sn_DeletionPolicy (sw_Spec net) = DeletionPolicyDelete) then mret tt
         else
           _ ← wrap "orphaning child SeiNodes: " (orphanChildSeiNodes net);
           wrap "orphaning internal Service: " (orphanInternalService net));
    _ ← callW (PatchNetworkFinalizer false);
    mret ResultNone.

(** The patch answers the stored object. *)
Definition ensureFinalizer (net : SeiNetwork) : K (W:=W) SeiNetwork :=
  if sw_Finalizer net then mret net
  else
    _ ← callW (PatchNetworkFinalizer true);
    mret (nw_finalizer true net).

Definition shouldRequeue (r : Result) : bool := (0 <? RequeueAfter r)%Z.

Definition reconcileLive (now : Z) (planID : string) (net : SeiNetwork) : K (W:=W) Result :=
  net ← ensureFinalizer net;
  let net := seedAlwaysPresentConditions net in
  _ ← wrap "propagating paused state: " (syncPausedToChildren net (sn_Paused (sw_Spec net)));
  net ← wrap "reconciling internal RPC service: " (reconcileInternalService net);
  net ← wrap "reconciling SeiNodes: " (reconcileSeiNodes now net);
  '(net, res) ← wrap "reconciling plan: " (reconcilePlan now planID net);
  _ ← wrap "updating status: " (updateStatus now net);
  mret (if shouldRequeue res then res else mkResult networkPollInterval).

Definition GetNetwork : K (W:=W) (option SeiNetwork) := call (reading (fun c => inr (cl_net c))).
Definition ReconcileNetwork (now : Z) (planID : string) : K (W:=W) Result :=
  found ← GetNetwork;
  match found with
  | None => mret ResultNone
  | Some net => if sw_Deleting net then handleDeletion net else reconcileLive now planID net
  end.

(** ** Watch predicates (predicates.go) and the pod mapping *)
Definition childUpdatePasses (o n : Child) : bool :=
  negb (n_Generation (ch_Node o) =? n_Generation (ch_Node n))%Z ||
  bool_decide (st_Phase (ch_Status o) <> st_Phase (ch_Status n)) ||
  negb (Bool.eqb (IsStatusConditionTrue (st_Conditions (ch_Status o)) ConditionEvmServing)
                 (IsStatusConditionTrue (st_Conditions (ch_Status n)) ConditionEvmServing)) ||
  bool_decide (ch_Endpoint o <> ch_Endpoint n).
Definition podUpdatePasses (o n : NetPod) : bool :=
  (np_NodeName o <>s np_NodeName n) || bool_decide (np_Phase o <> np_Phase n) ||
  negb (Bool.eqb (np_Deleting o) (np_Deleting n)).
Definition podToSeiNetwork (p : NetPod) : option string :=
  let name := default "" (np_Labels p !! seinetworkLabel) in
  if name =s "" then None else Some name.

End NetTasks.
