(* ===== verification/NetworkSample.v ===== *)
(** * A concrete SeiNetwork

    Owner references as a list, sidecars that answer, and a network of two
    validators, on which the statements about the controller are tried. *)

From stdpp Require Import base list strings gmap pretty sorting.
From Stdlib Require Import ZArith Lia.
From S2P Require Import Prelude Api NodeState Platform Executor Config Task Planner NodeTask Resolve NetApi Network.

(** ** Owner references *)
Definition list_owners : OwnerRefs := {|
  GetControllerOf := List.find or_Controller;
  SetControllerReference := fun me refs =>
    match List.find or_Controller refs with
    | Some r => if or_UID r =s or_UID me then Ok (merge_owner me refs) else Err "already owned by another controller"
    | None => Ok (merge_owner me refs)
    end;
|}.

Lemma merge_owner_controller me refs :
  List.find or_Controller refs = None -> or_Controller me = true -> List.find or_Controller (merge_owner me refs) = Some me.
Proof.
  intros Hn Hm. induction refs as [|r refs IH]; simpl in *; [by rewrite Hm|].
  destruct (or_Controller r) eqn:Er; [done|]. destruct (or_UID r =s or_UID me); simpl; [by rewrite Hm|]. rewrite Er. by apply IH.
Qed.
#[export] Instance list_owners_laws : OwnerRefsLaws list_owners.
Proof.
  split; simpl.
  - intros refs r Hf. by apply List.find_some.
  - intros refs r Hf Hin. by apply (List.find_none _ _ Hf).
  - intros refs me Hf Hm. rewrite Hf. eexists. split; [done|]. by apply merge_owner_controller.
Qed.

(** ** Sidecars that accept every task and complete it *)
Definition sample_sidecars : NodeSidecars unit := {|
  clientError := fun _ _ => None;
  ValidUUID := fun _ => true;
  SubmitTo := fun _ w _ _ _ => (None, w);
  GetFrom := fun _ _ _ => GotTask SidecarCompleted None;
  GetNodeID := fun name _ => Ok ("id-" +:+ name);
|}.
Definition sample_rest : TaskRuntime (cluster unit) := {|
  TaskExecution := unit;
  Deserialize := fun _ _ _ _ => Ok tt;
  Execute := fun ex o w => (None, ex, o, w);
  Status := fun ex o w => (ExecutionComplete, ex, o, w);
  ExecErr := fun _ => None;
|}.

Module NetSample.
#[export] Existing Instances sample_config sample_hashes list_conditions list_conditions_laws list_owners sample_sidecars.

Definition genesis : GenesisCeremonyConfig := mkGenesisCeremony "chain-1" "1usei" "2usei" [] ∅ RawNone.
Definition spec (replicas : Z) (image : string) (policy : DeletionPolicy) : SeiNetworkSpec :=
  mkNetworkSpec image genesis None None replicas ∅ [] None None None None ∅ false policy.
Definition no_status : SeiNetworkStatus := mkNetworkStatus 0 GroupPhaseNone 0 0 0 [] None None [] None [] None [].
(** Created at second 100 of its clock. *)
Definition net (uid : string) (s : SeiNetworkSpec) (status : SeiNetworkStatus) : SeiNetwork :=
  mkNetwork "net" "ns" uid 1 100 false true s status.

Definition world (n : option SeiNetwork) (nodes : gmap string Child) : cluster unit :=
  mkCluster n nodes None [] [] [] tt ∅.
Definition empty_world : cluster unit := world None ∅.

(** The children a reconcile makes, and those of a set as old as [age] seconds. *)
Definition child (n : SeiNetwork) (i : nat) (age : Z) : Child :=
  match desiredChild n i with
  | Ok ch => as_created (age * second) ch
  | Err _ => generateSeiNode n i
  end.
Definition nodes (n : SeiNetwork) (age : Z) (l : list nat) : gmap string Child :=
  list_to_map ((fun i => (seiNodeName n i, child n i age)) <$> l).

Definition two : SeiNetwork := net "uid-1" (spec 2 "img" DeletionPolicyRetain) no_status.
Definition reconcile (c : cluster unit) : cluster unit := (ReconcileNetwork sample_libs sample_rest 0 "plan" c).2.

(** The life of [two]: created, its children made and then Running, its ceremony run. *)
Definition run_all (c : cluster unit) : cluster unit :=
  mkCluster (cl_net c)
    ((fun ch => ch_node (fun n => with_Status n (set_Phase PhaseRunning 0 (n_Status n))) ch) <$> cl_nodes c)
    (cl_svc c) (cl_pods c) (cl_faults c) (cl_log c) (cl_sidecars c) (cl_active c).
Definition created : cluster unit := world (Some two) ∅.
Definition planned : cluster unit := reconcile created.
Definition running : cluster unit := run_all planned.
Definition finished : cluster unit := reconcile running.

(** A network over an older set of children without an owner: it adopts them and
    plans a ceremony, then a validator is lost. *)
Definition adopting : cluster unit := world (Some two) (ch_owners [] <$> nodes two 50 [0; 1]).
Definition lose (name : string) (c : cluster unit) : cluster unit := world (cl_net c) (delete name (cl_nodes c)).
Definition losing : cluster unit := lose "net-1" (reconcile adopting).
End NetSample.
