(* ===== verification/NetworkSpec.v ===== *)
(** * Properties of the SeiNetwork controller

    Every write a reconcile makes is justified by the network it read, whatever
    calls fail; over the life of a network the status stays well formed and a
    finished ceremony stays finished. *)

From stdpp Require Import base list strings gmap pretty sorting.
From Stdlib Require Import ZArith Lia Ascii.
From S2P Require Import Prelude Api NodeState Platform Executor Config Task Planner NodeTask Resolve NetApi Network.

(** ** A program logic for reconciles *)
Section Logic.
Context {W : Type}.
Implicit Types (c : cluster W).

(** From a cluster in [P] the computation ends in [Q] of its value, or fails in [E]. *)
Definition triple {A} (P : cluster W -> Prop) (m : K (W:=W) A) (Q : A -> cluster W -> Prop)
    (E : cluster W -> Prop) : Prop :=
  forall c, P c -> match m c with (Ok a, c') => Q a c' | (Err _, c') => E c' end.

Lemma triple_ret {A} (a : A) (P : cluster W -> Prop) E : triple P (mret a) (fun x c => x = a /\ P c) E.
Proof. by intros c Hc. Qed.

Lemma triple_bind {A B} P (m : K (W:=W) A) R (f : A -> K (W:=W) B) Q E :
  triple P m R E -> (forall a, triple (R a) (f a) Q E) -> triple P (m ≫= f) Q E.
Proof.
  intros Hm Hf c Hc. specialize (Hm c Hc). unfold mbind, K_bind.
  destruct (m c) as [[a|e] c']; [by apply Hf|done].
Qed.

Lemma triple_conseq {A} (P P' : cluster W -> Prop) (m : K (W:=W) A) (Q Q' : A -> cluster W -> Prop) (E E' : cluster W -> Prop) :
  triple P' m Q' E' -> (forall c, P c -> P' c) -> (forall a c, Q' a c -> Q a c) -> (forall c, E' c -> E c) ->
  triple P m Q E.
Proof. intros Hm HP HQ HE c Hc. specialize (Hm c (HP c Hc)). destruct (m c) as [[a|e] c']; auto. Qed.

Lemma triple_wrap {A} pre P (m : K (W:=W) A) Q E : triple P m Q E -> triple P (wrap pre m) Q E.
Proof. intros Hm c Hc. specialize (Hm c Hc). unfold wrap. by destruct (m c) as [[a|e] c']. Qed.

Lemma triple_liftR {A} (r : result A) (P : cluster W -> Prop) :
  triple P (liftR r) (fun a c => r = Ok a /\ P c) P.
Proof. intros c Hc. unfold liftR. by destruct r. Qed.

Lemma triple_false {A} (m : K (W:=W) A) Q E (P : cluster W -> Prop) : (forall c, ~ P c) -> triple P m Q E.
Proof. intros HP c Hc. by destruct (HP c). Qed.

Lemma triple_pure {A} (X : Prop) P (m : K (W:=W) A) Q E :
  (X -> triple P m Q E) -> triple (fun c => X /\ P c) m Q E.
Proof. intros Hm c [HX Hc]. by apply (Hm HX). Qed.

(** A loop keeps what its body keeps; [I l] speaks of the elements still to do. *)
Lemma triple_forK {A} (I : list A -> cluster W -> Prop) (f : A -> K (W:=W) unit) E l :
  (forall x rest, triple (I (x :: rest)) (f x) (fun _ => I rest) E) ->
  triple (I l) (forK l f) (fun _ => I []) E.
Proof.
  intros Hf. induction l as [|x rest IH]; simpl; [by intros c Hc|].
  eapply triple_bind; [apply Hf|]. intros []. exact IH.
Qed.

Lemma triple_orElse {A} (d : A) P (m : K (W:=W) A) (Q : A -> cluster W -> Prop) E E' :
  triple P m Q E -> (forall c, E c -> Q d c) -> triple P (orElse d m) Q E'.
Proof. intros Hm HE c Hc. specialize (Hm c Hc). unfold orElse. destruct (m c) as [[a|e] c']; auto. Qed.

(** Calls: a predicate that does not read the fault list survives a read. *)
Definition no_faults (P : cluster W -> Prop) : Prop := forall c fs, P c -> P (cl_set_faults fs c).

Lemma pop_keeps (P : cluster W -> Prop) c x c' : no_faults P -> pop_fault c = (x, c') -> P c -> P c'.
Proof. intros HP. unfold pop_fault. destruct (cl_faults c); intros [= <- <-]; auto. Qed.

Lemma triple_read {A} (P : cluster W -> Prop) (f : cluster W -> api_error + A) :
  no_faults P -> triple P (call (reading f)) (fun a c => f c = inr a /\ P c) P.
Proof.
  intros HP c Hc. unfold call, reading. destruct (pop_fault c) as [x c1] eqn:Ex.
  pose proof (pop_keeps P c x c1 HP Ex Hc) as Hc1. destruct x; simpl; [|done..]. by destruct (f c1) eqn:Ef.
Qed.

Lemma triple_write (P Q : cluster W -> Prop) f :
  no_faults P -> (forall c c', P c -> f c = inr c' -> Q c') ->
  triple P (callW (writing f)) (fun _ c => Q c) (fun c => P c \/ Q c).
Proof.
  intros HP HQ c Hc. unfold callW, writing. destruct (pop_fault c) as [x c1] eqn:Ex.
  pose proof (pop_keeps P c x c1 HP Ex Hc) as Hc1.
  destruct x; simpl; [| |by left].
  - destruct (f c1) as [e|c'] eqn:Ef; simpl; [by left|by eapply HQ].
  - destruct (f c1) as [e|c'] eqn:Ef; simpl; [by left|right; by eapply HQ].
Qed.

Lemma triple_ignore (P Q : cluster W -> Prop) f :
  no_faults P -> (forall c c', P c -> f c = inr c' -> Q c') ->
  triple P (ignoreNotFound (writing f)) (fun _ c => P c \/ Q c) (fun c => P c \/ Q c).
Proof.
  intros HP HQ c Hc. unfold ignoreNotFound, writing. destruct (pop_fault c) as [x c1] eqn:Ex.
  pose proof (pop_keeps P c x c1 HP Ex Hc) as Hc1.
  destruct x; simpl; [| |by destruct (refusal _); left].
  - destruct (f c1) as [[]|c'] eqn:Ef; simpl; try (by left); right; by eapply HQ.
  - destruct (f c1) as [[]|c'] eqn:Ef; simpl; try (by left); right; by eapply HQ.
Qed.
End Logic.

Ltac kbind := eapply triple_bind; [|intros ?].

(** ** The children as a store *)
Section Store.
Context {W : Type} {SC : StatusConditions} {OR : OwnerRefs} {C : SeiConfig} {H : Hashes}.
Implicit Types (c : cluster W) (ch : Child) (m : gmap string Child).

(** Every child is stored under its name. *)
Definition keyed m : Prop := forall k ch, m !! k = Some ch -> ch_Name ch = k.

Lemma keyed_insert m k ch : keyed m -> ch_Name ch = k -> keyed (<[k := ch]> m).
Proof. intros Hm Hn k' ch' [[<- <-]|[_ Hl]]%lookup_insert_Some; [done|by apply Hm]. Qed.
Lemma keyed_delete m k : keyed m -> keyed (delete k m).
Proof. intros Hm k' ch' [_ Hl]%lookup_delete_Some. by apply Hm. Qed.

(** The listed children with property [S] that a loop has still to visit: they
    are as they were listed. *)
Definition pending (S : Child -> Prop) (rest : list Child) c : Prop :=
  NoDup (ch_Name <$> rest) /\ Forall (fun ch => S ch /\ cl_nodes c !! ch_Name ch = Some ch) rest.

Lemma pending_cons S x rest c :
  pending S (x :: rest) c -> S x /\ cl_nodes c !! ch_Name x = Some x /\ pending S rest c.
Proof.
  intros [Hnd Hf]. rewrite fmap_cons, NoDup_cons in Hnd. rewrite Forall_cons in Hf.
  destruct Hnd as [_ Hnd], Hf as [[? ?] Hf]. by split_and!.
Qed.

Lemma pending_write S x rest c c' :
  pending S (x :: rest) c ->
  (forall k, k <> ch_Name x -> cl_nodes c' !! k = cl_nodes c !! k) -> pending S rest c'.
Proof.
  intros [Hnd Hf] Hk. rewrite fmap_cons, NoDup_cons in Hnd. rewrite Forall_cons in Hf.
  destruct Hnd as [Hx Hnd], Hf as [_ Hf]. split; [done|].
  rewrite Forall_forall in Hf |- *. intros ch Hin. destruct (Hf ch Hin) as [HS Hl]. split; [done|].
  rewrite Hk; [done|]. intros Heq. apply Hx. rewrite <- Heq. by apply list_elem_of_fmap_2.
Qed.

Lemma pending_same S rest c c' : cl_nodes c' = cl_nodes c -> pending S rest c -> pending S rest c'.
Proof. unfold pending. by intros ->. Qed.

Lemma pending_filter (S S' : Child -> Prop) (f : Child -> bool) l c :
  pending S l c -> (forall ch, S ch -> f ch = true -> S' ch) -> pending S' (List.filter f l) c.
Proof.
  intros [Hnd Hf] HS. induction l as [|x l IH]; simpl; [by split; constructor|].
  rewrite fmap_cons, NoDup_cons in Hnd. rewrite Forall_cons in Hf. destruct Hnd as [Hx Hnd], Hf as [[HSx Hl] Hf].
  specialize (IH Hnd Hf). destruct (f x) eqn:Ef; [|done]. destruct IH as [IH1 IH2].
  split; [|by constructor; [split; [by apply HS|]|]].
  rewrite fmap_cons, NoDup_cons. split; [|done]. intros Hin. apply Hx.
  apply list_elem_of_fmap in Hin as (y & -> & Hy). apply list_elem_of_fmap_2.
  apply list_elem_of_In in Hy. apply List.filter_In in Hy as [Hy _]. by apply list_elem_of_In.
Qed.

Lemma listed_pending sel c :
  keyed (cl_nodes c) ->
  pending (fun ch => sel ⊆ ch_Labels ch)
    (filter (fun ch => sel ⊆ ch_Labels ch) (snd <$> map_to_list (cl_nodes c))) c.
Proof.
  intros Hk.
  assert (Hfst : Forall (fun p => ch_Name p.2 = p.1) (map_to_list (cl_nodes c))).
  { apply Forall_forall. intros [k ch] Hin. apply elem_of_map_to_list in Hin. by apply Hk. }
  split.
  - assert (Heq : ch_Name <$> (snd <$> map_to_list (cl_nodes c)) = fst <$> map_to_list (cl_nodes c)).
    { rewrite <- list_fmap_compose. apply list_fmap_ext. intros i p Hp.
      rewrite Forall_forall in Hfst. apply (Hfst p). by apply list_elem_of_lookup_2 in Hp. }
    pose proof (NoDup_fst_map_to_list (cl_nodes c)) as Hnd. rewrite <- Heq in Hnd.
    eapply sublist_NoDup; [exact Hnd|]. apply fmap_sublist, sublist_filter.
  - apply Forall_forall. intros ch [Hs Hin]%list_elem_of_filter. split; [done|].
    apply list_elem_of_fmap in Hin as ([k ch'] & -> & Hin). apply elem_of_map_to_list in Hin. simpl.
    by rewrite (Hk _ _ Hin).
Qed.

Lemma listed_complete sel c k ch :
  cl_nodes c !! k = Some ch -> sel ⊆ ch_Labels ch ->
  In ch (filter (fun ch => sel ⊆ ch_Labels ch) (snd <$> map_to_list (cl_nodes c))).
Proof.
  intros Hl Hs. apply list_elem_of_In, list_elem_of_filter. split; [done|].
  apply list_elem_of_fmap. exists (k, ch). split; [done|]. by apply elem_of_map_to_list.
Qed.

(** The children of a network: those it selects and controls. *)
Definition owned (net : SeiNetwork) ch : Prop :=
  seinetworkSelector net ⊆ ch_Labels ch /\ IsControlledBy (ch_Owners ch) net = true.

Lemma triple_list net (P : cluster W -> Prop) :
  no_faults P -> (forall c, P c -> keyed (cl_nodes c)) ->
  triple P (listChildSeiNodes net)
    (fun l c => P c /\ pending (owned net) l c /\
       forall k ch, cl_nodes c !! k = Some ch -> owned net ch -> In ch l) P.
Proof.
  intros HP Hk. unfold listChildSeiNodes. kbind.
  - apply triple_wrap. unfold ListSeiNodes. by apply triple_read.
  - intros c [[= <-] Hc]. simpl. split_and!; [done| |].
    + eapply pending_filter; [by apply listed_pending, Hk|]. by intros ch.
    + intros k ch Hl [Hs Hctl]. apply List.filter_In. split; [by eapply listed_complete|done].
Qed.

(** A write on one child, with what it logs. *)
Lemma store_child_result name f e c c' :
  match cl_nodes c !! name with
  | None => inl ENotFound
  | Some old => inr (cl_write (<[name := f old]> (cl_nodes c)) (e old (f old)) c)
  end = inr c' ->
  exists old, cl_nodes c !! name = Some old /\
    c' = cl_write (<[name := f old]> (cl_nodes c)) (e old (f old)) c.
Proof. destruct (cl_nodes c !! name) as [old|]; [|done]. intros [= <-]. by exists old. Qed.

(** ** The log *)

(** A write turns the children [m] into the children of the result: it finds the
    object it names and leaves the one it logs. *)
Inductive acts m : effect -> gmap string Child -> Prop :=
| acts_create new : m !! ch_Name new = None -> acts m (ECreate new) (<[ch_Name new := new]> m)
| acts_update old new e :
    m !! ch_Name old = Some old -> ch_Name new = ch_Name old -> In e [EUpdate old new; EPeers old new; ERelease old new] ->
    acts m e (<[ch_Name old := new]> m)
| acts_delete old :
    m !! ch_Name old = Some old ->
    acts m (EDelete old) (if ch_Finalizer old then <[ch_Name old := ch_deleted old]> m else delete (ch_Name old) m).

(** The children after a list of writes. *)
Inductive history m : list effect -> gmap string Child -> Prop :=
| history_nil : history m [] m
| history_snoc l m1 e m2 : history m l m1 -> acts m1 e m2 -> history m (l ++ [e]) m2.

Lemma acts_keyed m e m' : acts m e m' -> keyed m -> keyed m'.
Proof.
  intros Ha Hm. destruct Ha as [new|old new e ? Hn|old]; [by apply keyed_insert..|].
  destruct (ch_Finalizer old); [by apply keyed_insert|by apply keyed_delete].
Qed.

(** Since [c0] only writes with property [J] were made, and they are all that
    became of the children. *)
Definition logged (J : effect -> Prop) (c0 c : cluster W) : Prop :=
  keyed (cl_nodes c) /\ exists l, cl_log c = cl_log c0 ++ l /\ Forall J l /\ history (cl_nodes c0) l (cl_nodes c).

Lemma logged_refl J c : keyed (cl_nodes c) -> logged J c c.
Proof. intros Hk. split; [done|]. exists []. rewrite app_nil_r. repeat constructor. Qed.

Lemma logged_write J c0 c m e :
  logged J c0 c -> acts (cl_nodes c) e m -> J e -> logged J c0 (cl_write m e c).
Proof.
  intros (Hk & l & Hl & HJ & Hh) Ha He. split; [by eapply acts_keyed|]. exists (l ++ [e]). simpl. rewrite Hl, app_assoc.
  split; [done|]. split; [apply Forall_app; by repeat constructor|by econstructor].
Qed.

Lemma logged_weaken (J J' : effect -> Prop) c0 c : (forall e, J e -> J' e) -> logged J c0 c -> logged J' c0 c.
Proof.
  intros HJ (Hk & l & Hl & Hf & Hh). split; [done|]. exists l. split_and!; [done|by eapply Forall_impl|done].
Qed.

End Store.

(** ** What justifies a write *)
Section Justified.
Context {W : Type} {SC : StatusConditions} {OR : OwnerRefs} {C : SeiConfig} {H : Hashes}.

(** Children may be created, synced and scaled down. *)
Definition gate (net : SeiNetwork) : Prop :=
  sw_Deleting net = false /\ sn_Paused (sw_Spec net) = false /\
  hasConditionTrue net ConditionPlanInProgress = false.

Definition plan_active (net : SeiNetwork) : Prop :=
  exists p, sns_Plan (sw_Status net) = Some p /\ pl_Phase p = TaskPlanActive.

(** What a sync leaves of a child: everything but its labels, annotations, owner
    references and the synced spec fields. *)
Definition keeps_identity (old new : Child) : Prop :=
  exists labels annotations owners image sidecar scheduling podLabels overrides values,
    new = ch_labels labels (ch_annotations annotations (ch_owners owners (ch_podlabels podLabels
            (ch_spec (fun s => with_Image image (with_Sidecar sidecar (with_Scheduling scheduling
               (with_Overrides overrides (with_ConfigValues values s))))) old)))).

(** The writes of a reconcile of [net] over the children [m0]. *)
Inductive justified (now : Z) (net : SeiNetwork) (m0 : gmap string Child) : effect -> Prop :=
| just_pause old :
    owned net old -> sp_Paused (ch_Spec old) <> sn_Paused (sw_Spec net) ->
    justified now net m0 (EUpdate old (ch_spec (with_Paused (sn_Paused (sw_Spec net))) old))
| just_create i ch :
    gate net -> i < Z.to_nat (sn_Replicas (sw_Spec net)) -> desiredChild net i = Ok ch ->
    justified now net m0 (ECreate (as_created now ch))
| just_sync i desired old ch adopted new :
    gate net -> i < Z.to_nat (sn_Replicas (sw_Spec net)) -> desiredChild net i = Ok desired ->
    ch_Name old = seiNodeName net i -> ch_Deleting old = false ->
    adoptChild net old = Ok (ch, adopted) -> syncChild net desired ch adopted = (new, true) ->
    justified now net m0 (EUpdate old new)
| just_scale old ord :
    gate net -> owned net old -> (0 < sn_Replicas (sw_Spec net) <= ord)%Z ->
    scan_int (default "" (ch_Labels old !! seinetworkOrdinalLabel)) = Some ord ->
    justified now net m0 (EDelete old)
| just_teardown old :
    plan_active net -> sn_Paused (sw_Spec net) = false -> owned net old -> ch_Deleting old = false ->
    predates net old = false ->
    (forall k ch, m0 !! k = Some ch -> owned net ch -> predates net ch = false) ->
    justified now net m0 (EDelete old)
| just_peers old peers :
    plan_active net -> sn_Paused (sw_Spec net) = false ->
    justified now net m0 (EPeers old (ch_spec (with_Peers peers) old))
| just_release old :
    sw_Deleting net = true -> sn_DeletionPolicy (sw_Spec net) <> PolicyUnset ->
    sn_DeletionPolicy (sw_Spec net) <> DeletionPolicyDelete -> owned net old ->
    justified now net m0
      (ERelease old (ch_annotations (retain_record net (ch_Annotations old))
                       (ch_owners (released_refs net (ch_Owners old)) old))).

(** *** Predicates that read the children and the log only *)
Definition inert (P : cluster W -> Prop) : Prop :=
  forall c c', cl_nodes c' = cl_nodes c -> cl_log c' = cl_log c -> P c -> P c'.

Lemma inert_no_faults P : inert P -> no_faults P.
Proof. intros HP c fs. by apply HP. Qed.
Lemma inert_logged J c0 : inert (logged J c0).
Proof. intros c c' Hn Hl (Hk & Hx). unfold logged. by rewrite Hn, Hl. Qed.
Lemma inert_and P Q : inert P -> inert Q -> inert (fun c => P c /\ Q c).
Proof. intros HP HQ c c' Hn Hl [? ?]. split; [by eapply HP|by eapply HQ]. Qed.
Lemma inert_nodes (R : gmap string Child -> Prop) : inert (fun c => R (cl_nodes c)).
Proof. intros c c' Hn _. by rewrite Hn. Qed.
Lemma inert_pending S l : inert (pending S l).
Proof. intros c c' Hn _. by apply pending_same. Qed.

(** Service and status writes do not touch the children. *)
Lemma triple_service P f :
  inert P -> triple P (callW (PatchService f)) (fun _ => P) P.
Proof.
  intros HP. eapply triple_conseq; [apply (triple_write P P)|done|done|by intros c [?|?]].
  - by apply inert_no_faults.
  - intros c c' Hc. destruct (f (cl_svc c)) as [e|s]; [done|]. intros [= <-]. by refine (HP c _ _ _ Hc).
Qed.
Lemma triple_status P net : inert P -> triple P (callW (PatchNetworkStatus net)) (fun _ => P) P.
Proof.
  intros HP. eapply triple_conseq; [apply (triple_write P P)|done|done|by intros c [?|?]].
  - by apply inert_no_faults.
  - intros c c' Hc. destruct (cl_net c) as [n|]; [|done]. intros [= <-]. by refine (HP c _ _ _ Hc).
Qed.
Lemma triple_finalizer P add : inert P -> triple P (callW (PatchNetworkFinalizer add)) (fun _ => P) P.
Proof.
  intros HP. eapply triple_conseq; [apply (triple_write P P)|done|done|by intros c [?|?]].
  - by apply inert_no_faults.
  - intros c c' Hc. destruct (cl_net c) as [n|]; [|done]. destruct (_ && _); [done|].
    intros [= <-]. by refine (HP c _ _ _ Hc).
Qed.

Lemma triple_internalService P net :
  inert P ->
  triple P (reconcileInternalService net) (fun net' c => (exists i, net' = nw_status (ns_internal i) net) /\ P c) P.
Proof.
  intros HP. unfold reconcileInternalService. destruct (SetControllerReference _ _) as [refs|e]; [|by intros c Hc].
  kbind; [apply triple_wrap; unfold ApplyService; kbind; [by apply triple_service|]|].
  - intros c Hc. unfold stored_service. destruct (cl_svc c); [|exact Hc]. instantiate (1 := fun _ => P). exact Hc.
  - kbind.
    + apply triple_wrap. unfold clearRetainRecord.
      destruct (_ && _); [intros c Hc; instantiate (1 := fun _ => P); exact Hc|by apply triple_service].
    + intros c Hc. split; [by eexists|exact Hc].
Qed.

Lemma triple_orphanService P net : inert P -> triple P (orphanInternalService net) (fun _ => P) P.
Proof.
  intros HP. unfold orphanInternalService. kbind.
  - apply triple_wrap. unfold GetService. by apply triple_read, inert_no_faults.
  - destruct a as [s|]; [|by intros c [_ Hc]].
    apply triple_wrap. eapply triple_conseq; [by apply (triple_service P)|by intros c [_ Hc]|done..].
Qed.

Lemma triple_workers P net : inert P -> triple P (childWorkerNodes net) (fun _ => P) P.
Proof.
  intros HP. unfold childWorkerNodes. kbind.
  - apply triple_wrap. unfold ListPods. by apply triple_read, inert_no_faults.
  - by intros c [_ Hc].
Qed.

Lemma triple_listed net P :
  inert P -> (forall c, P c -> keyed (cl_nodes c)) ->
  triple P (listChildSeiNodes net)
    (fun l c => P c /\ pending (owned net) l c /\
       forall k ch, cl_nodes c !! k = Some ch -> owned net ch -> In ch l) P.
Proof. intros HP. by apply triple_list, inert_no_faults. Qed.

Lemma triple_updateStatus P now net :
  inert P -> (forall c, P c -> keyed (cl_nodes c)) -> triple P (updateStatus now net) (fun _ => P) P.
Proof.
  intros HP Hk. unfold updateStatus. kbind; [by apply triple_listed|].
  kbind; [apply (triple_orElse _ _ _ (fun _ => P) P)|].
  - eapply triple_conseq; [by apply (triple_workers P)|by intros c (? & _)|done..].
  - done.
  - by apply triple_status.
Qed.
End Justified.

Ltac inert :=
  try apply inert_no_faults;
  first [ apply inert_logged | apply inert_pending
        | let Hn := fresh in intros ? ? Hn ?; cbv beta; rewrite Hn; tauto
        | apply inert_and; inert ].

(** ** The stages of a reconcile *)
Section Stages.
Context {W : Type} {SC : StatusConditions} {OR : OwnerRefs} {C : SeiConfig} {H : Hashes} {NS : NodeSidecars W}.
Variables (now : Z) (net : SeiNetwork) (m0 : gmap string Child) (c0 : cluster W).
Implicit Types (c : cluster W) (ch : Child) (m : gmap string Child).

Abbreviation J := (justified now net m0).
Abbreviation so_far := (logged J c0).

(** The children are those of [m0] but for their pause. *)
Definition paused_only m : Prop :=
  forall k, match m0 !! k, m !! k with
            | Some a, Some b => exists p, b = ch_spec (with_Paused p) a
            | None, None => True
            | _, _ => False
            end.
Lemma paused_only_refl : paused_only m0.
Proof.
  intros k. destruct (m0 !! k) as [a|]; [|done]. exists (sp_Paused (ch_Spec a)).
  by destruct a as [[? ? ? ? ? [] ?]].
Qed.
Lemma paused_only_write m k ch p :
  paused_only m -> m !! k = Some ch -> paused_only (<[k := ch_spec (with_Paused p) ch]> m).
Proof.
  intros Hm Hk k'. destruct (decide (k' = k)) as [->|Hne]; [|by rewrite lookup_insert_ne; [apply Hm|]].
  rewrite lookup_insert_eq. specialize (Hm k). rewrite Hk in Hm. destruct (m0 !! k) as [a|]; [|done].
  destruct Hm as [q ->]. by exists p.
Qed.

Lemma keyed_so_far c : so_far c -> keyed (cl_nodes c).
Proof. by intros [? _]. Qed.

Lemma as_updated_paused p ch : as_updated ch (ch_spec (with_Paused p) ch) = ch_spec (with_Paused p) ch.
Proof. by destruct ch as [[]]. Qed.

(** A write on the child [x] a loop is at. *)
Lemma loop_write S x rest c m' e (P : cluster W -> Prop) :
  so_far c -> pending S (x :: rest) c -> J e -> acts (cl_nodes c) e m' ->
  (forall k, k <> ch_Name x -> m' !! k = cl_nodes c !! k) ->
  (P (cl_write m' e c)) ->
  (so_far (cl_write m' e c) /\ P (cl_write m' e c)) /\ pending S rest (cl_write m' e c).
Proof.
  intros Hc Hp He Hm Hk HP. split; [split; [by apply logged_write|done]|]. by eapply pending_write.
Qed.

Lemma triple_pause :
  triple (fun c => so_far c /\ paused_only (cl_nodes c))
    (syncPausedToChildren net (sn_Paused (sw_Spec net)))
    (fun _ c => so_far c /\ paused_only (cl_nodes c)) (fun c => so_far c /\ paused_only (cl_nodes c)).
Proof.
  assert (Hin : inert (fun c => so_far c /\ paused_only (cl_nodes c)))
    by (apply inert_and; [apply inert_logged|apply inert_nodes]).
  unfold syncPausedToChildren. kbind.
  { apply triple_wrap, triple_listed; [exact Hin|]. intros c [Hc _]. by apply keyed_so_far. }
  eapply triple_conseq.
  - apply (triple_forK (fun rest c => (so_far c /\ paused_only (cl_nodes c)) /\ pending (owned net) rest c) _
             (fun c => so_far c /\ paused_only (cl_nodes c))).
    intros x rest. destruct (Bool.eqb _ _) eqn:Eb.
    { intros c [Hc Hp]. split; [done|]. by apply pending_cons in Hp as (_ & _ & Hp). }
    apply triple_wrap. eapply triple_conseq; [apply (triple_write
       (fun c => (so_far c /\ paused_only (cl_nodes c)) /\ pending (owned net) (x :: rest) c)
       (fun c => (so_far c /\ paused_only (cl_nodes c)) /\ pending (owned net) rest c))| | |].
    + apply inert_no_faults, inert_and; [exact Hin|apply inert_pending].
    + intros c c' [[Hc Hpo] Hp] Hw. apply store_child_result in Hw as (old & Hold & ->).
      pose proof Hp as Hp'. apply pending_cons in Hp' as (Hown & Hx & _).
      change (ch_Name (ch_spec (with_Paused (sn_Paused (sw_Spec net))) x)) with (ch_Name x) in *.
      rewrite Hx in Hold. injection Hold as <-. rewrite as_updated_paused.
      eapply (loop_write _ _ _ _ _ _ (fun c => paused_only (cl_nodes c))); [done|exact Hp|..].
      * constructor; [done|]. intros Heq. apply eqb_false_iff in Eb. by apply Eb.
      * by eapply (acts_update _ _ _ _ Hx); [|left].
      * intros k Hk. by rewrite lookup_insert_ne.
      * simpl. by apply paused_only_write.
    + done.
    + done.
    + by intros c [[? _]|[? _]].
  - intros c (? & ? & _). done.
  - by intros _ c [? _].
  - done.
Qed.

(** *** Creating and syncing the children *)
Context {SCL : StatusConditionsLaws SC} {ORL : OwnerRefsLaws OR}.

Lemma desiredChild_name i ch : desiredChild net i = Ok ch -> ch_Name ch = seiNodeName net i.
Proof.
  unfold desiredChild. destruct (SetControllerReference _ _); [|done]. intros [= <-].
  by destruct (configValuesRejected net).
Qed.

Lemma sync_identity {A} `{EqDecision A} (get : Child -> A) set want (old : Child) p :
  (forall ch, keeps_identity old ch -> keeps_identity old (set want ch)) ->
  keeps_identity old p.1 -> keeps_identity old (sync get set want p).1.
Proof. intros Hs Hp. unfold sync. destruct (decide _); [done|]. by apply Hs. Qed.

Lemma keeps_identity_refl ch : keeps_identity ch ch.
Proof.
  exists (ch_Labels ch), (ch_Annotations ch), (ch_Owners ch), (sp_Image (ch_Spec ch)), (sp_Sidecar (ch_Spec ch)),
    (sp_Scheduling (ch_Spec ch)), (ch_PodLabels ch), (sp_Overrides (ch_Spec ch)), (sp_ConfigValues (ch_Spec ch)).
  by destruct ch as [[? ? ? ? ? [] ?]].
Qed.
Ltac keeps old :=
  destruct old as [[? ? ? ? ? [] ?]]; let ch := fresh in intros ch; unfold keeps_identity;
  intros (? & ? & ? & ? & ? & ? & ? & ? & ? & ->); do 9 eexists;
  cbv [ch_labels ch_annotations ch_owners ch_podlabels ch_spec ch_node with_Spec with_Image with_Sidecar
    with_Scheduling with_Overrides with_ConfigValues ch_Node ch_Labels ch_Owners ch_Deleting ch_Finalizer
    ch_PodLabels ch_DataVolume ch_Resources ch_CommittedHeight ch_CommittedHeightTime ch_Endpoint n_Name
    n_Namespace n_Generation n_CreationTimestamp n_Annotations n_Spec n_Status sp_ChainID sp_Image sp_Peers
    sp_Overrides sp_Consensus sp_ExecutionEngine sp_ConfigValues sp_NodeConfig sp_Scheduling sp_Sidecar
    sp_FullNode sp_Archive sp_Replayer sp_Validator sp_Seed sp_ExternalAddress sp_Paused
    sp_DataResetGeneration sp_Maintenance]; reflexivity.
Lemma keeps_labels l old : forall ch, keeps_identity old ch -> keeps_identity old (ch_labels l ch).
Proof. keeps old. Qed.
Lemma keeps_annotations a old : forall ch, keeps_identity old ch -> keeps_identity old (ch_annotations a ch).
Proof. keeps old. Qed.
Lemma keeps_owners o old : forall ch, keeps_identity old ch -> keeps_identity old (ch_owners o ch).
Proof. keeps old. Qed.
Lemma keeps_podlabels l old : forall ch, keeps_identity old ch -> keeps_identity old (ch_podlabels l ch).
Proof. keeps old. Qed.
Lemma keeps_image x old : forall ch, keeps_identity old ch -> keeps_identity old (ch_spec (with_Image x) ch).
Proof. keeps old. Qed.
Lemma keeps_sidecar x old : forall ch, keeps_identity old ch -> keeps_identity old (ch_spec (with_Sidecar x) ch).
Proof. keeps old. Qed.
Lemma keeps_scheduling x old : forall ch, keeps_identity old ch -> keeps_identity old (ch_spec (with_Scheduling x) ch).
Proof. keeps old. Qed.
Lemma keeps_overrides x old : forall ch, keeps_identity old ch -> keeps_identity old (ch_spec (with_Overrides x) ch).
Proof. keeps old. Qed.
Lemma keeps_values x old : forall ch, keeps_identity old ch -> keeps_identity old (ch_spec (with_ConfigValues x) ch).
Proof. keeps old. Qed.
Create HintDb keeps.
#[local] Hint Resolve keeps_labels keeps_annotations keeps_owners keeps_podlabels keeps_image keeps_sidecar
  keeps_scheduling keeps_overrides keeps_values : keeps.

Lemma syncChild_identity d old ch b : keeps_identity old ch -> keeps_identity old (syncChild net d ch b).1.
Proof.
  intros Hk. unfold syncChild. destruct (configValuesRejected net);
    repeat (apply sync_identity; [by auto with keeps|]); exact Hk.
Qed.

(** The synced labels are the desired ones. *)
Lemma sync_get {A} `{EqDecision A} (get : Child -> A) set want p :
  (forall ch, get (set want ch) = want) -> get (sync get set want p).1 = want.
Proof. intros Hs. unfold sync. destruct (decide _); [done|]. apply Hs. Qed.
Lemma sync_other {A B} `{EqDecision A} (get : Child -> A) set want p (f : Child -> B) x :
  (forall ch, f (set want ch) = f ch) -> f p.1 = x -> f (sync get set want p).1 = x.
Proof. intros Hs Hp. unfold sync. destruct (decide _); [done|]. simpl. by rewrite Hs. Qed.
Lemma syncChild_labels d ch b : ch_Labels (syncChild net d ch b).1 = ch_Labels d.
Proof.
  unfold syncChild. destruct (configValuesRejected net); repeat (apply sync_other; [done|]); by apply sync_get.
Qed.

Lemma desiredChild_labels i ch : desiredChild net i = Ok ch -> ch_Labels ch = seiNodeLabels net i.
Proof.
  unfold desiredChild. destruct (SetControllerReference _ _); [|done]. intros [= <-].
  by destruct (configValuesRejected net).
Qed.

Lemma as_updated_identity old new : keeps_identity old new -> as_updated old new = new.
Proof. intros (? & ? & ? & ? & ? & ? & ? & ? & ? & ->). by destruct old as [[]]. Qed.

Lemma adoptChild_ok old ch b :
  adoptChild net old = Ok (ch, b) ->
  keeps_identity old ch /\ (GetControllerOf (ch_Owners old) = None \/ IsControlledBy (ch_Owners old) net = true).
Proof.
  unfold adoptChild, IsControlledBy. destruct (GetControllerOf (ch_Owners old)) as [r|] eqn:Er.
  - destruct (or_UID r =s sw_UID net) eqn:Eu; [|done]. intros [= <- <-]. split; [apply keeps_identity_refl|by right].
  - destruct (SetControllerReference _ _); [|done]. intros [= <- <-].
    split; [apply keeps_owners, keeps_identity_refl|by left].
Qed.

Lemma triple_try P name :
  no_faults P -> triple P (TryGetChild name) (fun o c => P c /\ cl_nodes c !! name = o) P.
Proof.
  intros HP c Hc. unfold TryGetChild, GetChild, reading. destruct (pop_fault c) as [x c1] eqn:Ex.
  pose proof (pop_keeps P c x c1 HP Ex Hc) as Hc1. destruct x; simpl; [|done..].
  by destruct (cl_nodes c1 !! name) eqn:Ez; rewrite ?Ez.
Qed.

Lemma triple_ensure i :
  gate net -> i < Z.to_nat (sn_Replicas (sw_Spec net)) ->
  triple so_far (ensureSeiNode now net i) (fun _ => so_far) so_far.
Proof.
  intros Hg Hi. unfold ensureSeiNode. kbind; [apply triple_liftR|]. apply triple_pure. intros Hd.
  pose proof (desiredChild_name _ _ Hd) as Hn.
  kbind; [apply triple_try, inert_no_faults, inert_logged|].
  destruct a0 as [old|].
  - destruct (ch_Deleting old) eqn:Edel; [by intros c [Hc _]|].
    eapply (triple_bind _ _ (fun x c => adoptChild net old = Ok x /\ so_far c /\ cl_nodes c !! ch_Name a = Some old)).
    { eapply triple_conseq; [apply (triple_liftR _ (fun c => so_far c /\ cl_nodes c !! ch_Name a = Some old))|done|done|].
      by intros c [? _]. }
    intros a0.
    destruct a0 as [ch b]. apply triple_pure. intros Had. pose proof (adoptChild_ok _ _ _ Had) as [Hk _].
    pose proof (syncChild_identity a old ch b Hk) as Hks.
    destruct (syncChild net a ch b) as [new updated] eqn:Esync. simpl in Hks. destruct updated; [|by intros c [Hc _]].
    assert (Hnn : ch_Name new = ch_Name old) by (destruct Hks as (? & ? & ? & ? & ? & ? & ? & ? & ? & ->); done).
    unfold UpdateChild. eapply triple_conseq; [apply (triple_write
      (fun c => so_far c /\ cl_nodes c !! ch_Name a = Some old) so_far)|done|done|by intros c [[? _]|?]].
    + inert.
    + intros c c' [Hc Hl] Hw. apply store_child_result in Hw as (old' & Ho & ->).
      pose proof (keyed_so_far _ Hc _ _ Hl) as Hkn. rewrite Hnn, Hkn, Hl in Ho. injection Ho as <-.
      rewrite as_updated_identity by done. apply logged_write; [done| |].
      * rewrite Hnn. eapply (acts_update _ old); [by rewrite Hkn|done|by left].
      * eapply just_sync; try done. by rewrite Hkn.
  - eapply triple_conseq; [apply (triple_write so_far so_far)|by intros c [? _]|done|by intros c [?|?]].
    + apply inert_no_faults, inert_logged.
    + intros c c' Hc. destruct (cl_nodes c !! ch_Name a) as [|] eqn:El; [done|]. intros [= <-].
      apply logged_write; [done|by apply (acts_create _ (as_created now a))|by eapply just_create].
Qed.

Lemma triple_ensureAll : gate net -> triple so_far (ensureAll now net) (fun _ => so_far) so_far.
Proof.
  intros Hg. unfold ensureAll.
  assert (Hall : Forall (fun i => i < Z.to_nat (sn_Replicas (sw_Spec net))) (seq 0 (Z.to_nat (sn_Replicas (sw_Spec net))))).
  { apply Forall_forall. intros i Hi%elem_of_seq. lia. }
  eapply triple_conseq; [apply (triple_forK (fun l c => Forall (fun i => i < Z.to_nat (sn_Replicas (sw_Spec net))) l /\ so_far c)
      _ so_far)|by intros c Hc|by intros _ c [_ ?]|done].
  intros i rest. apply triple_pure. intros [Hi Hr]%Forall_cons. apply triple_wrap.
  eapply triple_conseq; [by apply (triple_ensure i)|done|by intros u c Hc|done].
Qed.

Lemma triple_scaleDown : gate net -> triple so_far (scaleDown net) (fun _ => so_far) so_far.
Proof.
  intros Hg. unfold scaleDown. destruct (Z.leb_spec (sn_Replicas (sw_Spec net)) 0) as [|Hpos]; [by intros c Hc|].
  kbind; [apply triple_wrap; apply triple_read, inert_no_faults, inert_logged|].
  eapply triple_conseq; [apply (triple_forK (fun rest c => so_far c /\
     pending (fun ch => seinetworkSelector net ⊆ ch_Labels ch) rest c) _ so_far)| |by intros _ c [? _]|done].
  - intros x rest.
    assert (Hskip : triple (fun c => so_far c /\ pending (fun ch => seinetworkSelector net ⊆ ch_Labels ch) (x :: rest) c)
      (mret tt) (fun _ c => so_far c /\ pending (fun ch => seinetworkSelector net ⊆ ch_Labels ch) rest c) so_far).
    { intros c [Hc Hp]. split; [done|]. by apply pending_cons in Hp as (_ & _ & ?). }
    destruct (IsControlledBy (ch_Owners x) net) eqn:Ectl; [|exact Hskip].
    destruct (scan_int _) as [ord|] eqn:Eo; [|exact Hskip].
    destruct (Z.leb_spec (sn_Replicas (sw_Spec net)) ord) as [Hle|]; [|exact Hskip].
    apply triple_wrap. eapply triple_conseq; [apply (triple_ignore
      (fun c => so_far c /\ pending (fun ch => seinetworkSelector net ⊆ ch_Labels ch) (x :: rest) c)
      (fun c => so_far c /\ pending (fun ch => seinetworkSelector net ⊆ ch_Labels ch) rest c))|done| |by intros c [[? _]|[? _]]].
    + inert.
    + intros c c' [Hc Hp] Hw. pose proof Hp as Hp'. apply pending_cons in Hp' as (Hsel & Hx & _).
      rewrite Hx in Hw. injection Hw as <-.
      destruct (loop_write (fun ch => seinetworkSelector net ⊆ ch_Labels ch) x rest c
        (if ch_Finalizer x then <[ch_Name x := ch_deleted x]> (cl_nodes c) else delete (ch_Name x) (cl_nodes c))
        (EDelete x) (fun _ => True)) as [[? _] ?]; try done.
      * eapply just_scale; by try done.
      * by apply acts_delete.
      * intros k Hk. destruct (ch_Finalizer x); [by rewrite lookup_insert_ne|by rewrite lookup_delete_ne].
    + intros _ c [[Hc Hp]|?]; [|done]. split; [done|]. by apply pending_cons in Hp as (_ & _ & ?).
  - intros c [[= <-] Hc]. split; [done|]. by apply listed_pending, keyed_so_far.
Qed.

Lemma triple_populate P :
  inert P -> (forall c, P c -> keyed (cl_nodes c)) ->
  triple P (populateIncumbentNodes net)
    (fun net' c => (exists l, net' = nw_status (ns_incumbents l) net) /\ P c) P.
Proof.
  intros HP Hk. unfold populateIncumbentNodes. kbind; [by apply triple_wrap, triple_listed|].
  intros c (Hc & _). split; [by eexists|done].
Qed.

(** *** The plan *)
Context (libs : ClientLibs) (Rest : TaskRuntime (cluster W)).

Lemma owned_paused p ch : owned net (ch_spec (with_Paused p) ch) <-> owned net ch.
Proof. done. Qed.

Lemma teardown_justified x c :
  plan_active net -> sn_Paused (sw_Spec net) = false -> paused_only (cl_nodes c) ->
  owned net x -> ch_Deleting x = false -> cl_nodes c !! ch_Name x = Some x ->
  (forall k ch, cl_nodes c !! k = Some ch -> owned net ch -> predates net ch = false) -> J (EDelete x).
Proof.
  intros Hp Hpa Hpo Ho Hd Hx Hall. apply just_teardown; try done; [by eapply Hall|]. intros k ch Hk Hown.
  specialize (Hpo k). rewrite Hk in Hpo. destruct (cl_nodes c !! k) as [b|] eqn:Eb; [|done].
  destruct Hpo as [q ->]. change (predates net ch) with (predates net (ch_spec (with_Paused q) ch)).
  by apply (Hall k).
Qed.

Lemma triple_abandon :
  plan_active net -> sn_Paused (sw_Spec net) = false ->
  triple (fun c => so_far c /\ paused_only (cl_nodes c)) (abandonPlanForLostValidator net)
    (fun _ => so_far) so_far.
Proof.
  intros Hpl Hpa. unfold abandonPlanForLostValidator.
  eapply triple_bind.
  { eapply triple_conseq; [apply (triple_listed net (fun c => so_far c /\ paused_only (cl_nodes c)))|done|
      intros a c Hc; exact Hc|by intros c [? _]]; [inert|]. intros c [Hc _]. by apply keyed_so_far. }
  intros l. eapply (triple_bind _ _ (fun _ => so_far)); [|intros net' c Hc; exact Hc].
  destruct (existsb (predates net) l) eqn:Eex; simpl; [by intros c ((Hc & _) & _)|].
  eapply (triple_bind _ _ (fun _ => so_far)); [|intros u c Hc; exact Hc].
  eapply triple_conseq; [apply (triple_forK (fun rest c => Forall (fun ch => J (EDelete ch)) rest /\
      so_far c /\ pending (fun _ => True) rest c) _ so_far)| |by intros u c (_ & ? & _)|done].
  - intros x rest. apply triple_pure. intros [HJ Hrest]%Forall_cons. apply triple_wrap.
    eapply triple_conseq; [apply (triple_ignore
      (fun c => so_far c /\ pending (fun _ => True) (x :: rest) c)
      (fun c => so_far c /\ pending (fun _ => True) rest c))|done| |by intros c [[? _]|[? _]]].
    + inert.
    + intros c c' [Hc Hp] Hw. pose proof Hp as Hp'. apply pending_cons in Hp' as (_ & Hx & _).
      rewrite Hx in Hw. injection Hw as <-.
      destruct (loop_write (fun _ => True) x rest c
        (if ch_Finalizer x then <[ch_Name x := ch_deleted x]> (cl_nodes c) else delete (ch_Name x) (cl_nodes c))
        (EDelete x) (fun _ => True)) as [[? _] ?]; try done.
      * by apply acts_delete.
      * intros k Hk. destruct (ch_Finalizer x); [by rewrite lookup_insert_ne|by rewrite lookup_delete_ne].
    + intros u c [[Hc Hp]|[Hc Hp]]; split_and!; try done. by apply pending_cons in Hp as (_ & _ & ?).
  - intros c ((Hc & Hpo) & Hp & Hall).
    assert (Hyoung : forall k ch, cl_nodes c !! k = Some ch -> owned net ch -> predates net ch = false).
    { intros k ch Hk Ho. destruct (predates net ch) eqn:Epd; [|done].
      assert (existsb (predates net) l = true) by (apply existsb_exists; exists ch; split; [by eapply Hall|done]).
      congruence. }
    assert (Hp2 : pending (fun ch => owned net ch /\ ch_Deleting ch = false) (List.filter (fun ch => negb (ch_Deleting ch)) l) c).
    { eapply pending_filter; [exact Hp|]. intros ch Ho Hd. split; [done|]. by apply negb_true_iff. }
    split_and!; [|done|].
    + destruct Hp2 as [_ Hf]. eapply Forall_impl; [exact Hf|]. intros ch [[Ho Hd] Hin].
      by eapply teardown_justified.
    + destruct Hp2 as [Hnd Hf]. split; [done|]. eapply Forall_impl; [exact Hf|]. by intros ch [_ ?].
Qed.

Lemma triple_getChild P name :
  no_faults P -> triple P (call (GetChild name)) (fun ch c => P c /\ cl_nodes c !! name = Some ch) P.
Proof.
  intros HP. unfold GetChild. eapply triple_conseq; [by apply triple_read|done| |done].
  intros ch c [Hl Hc]. destruct (cl_nodes c !! name) as [x|] eqn:Ex; [|done].
  by injection Hl as <-.
Qed.

Lemma triple_collect ns names : triple so_far (collectPeers ns names) (fun _ => so_far) so_far.
Proof.
  induction names as [|name rest IH]; simpl; [by intros c Hc|].
  kbind; [apply triple_wrap, triple_getChild; inert|].
  eapply (triple_bind _ _ (fun _ => so_far)); [|intros peer; eapply triple_bind; [exact IH|by intros l c Hc]].
  intros c [Hc _]. destruct (clientError name (cl_sidecars c)); [done|]. by destruct (GetNodeID name (cl_sidecars c)).
Qed.

Lemma triple_setPeers names peers :
  plan_active net -> sn_Paused (sw_Spec net) = false ->
  triple so_far (collectAndSetPeers_Execute names peers) (fun _ => so_far) so_far.
Proof.
  intros Hpl Hpa. unfold collectAndSetPeers_Execute. kbind; [apply triple_wrap, triple_collect|].
  apply triple_wrap. unfold setPeersOnNodes. apply (triple_forK (fun _ => so_far)). intros x rest.
  kbind; [apply triple_wrap, triple_getChild; inert|]. apply triple_wrap. unfold PatchPeers.
  eapply triple_conseq; [apply (triple_write so_far so_far)|by intros c [? _]|done|by intros c [?|?]].
  - inert.
  - intros c c' Hc Hw. apply store_child_result in Hw as (old & Ho & ->).
    apply logged_write; [done| |by apply just_peers].
    pose proof (keyed_so_far c Hc _ _ Ho) as <-. eapply acts_update; [exact Ho|done|by right; left].
Qed.

(** No task of the ceremony runs another kind of task, or writes a child but for
    its peers. *)
Definition own_task (ex : net_execution Rest) : Prop := match ex with NxRest _ _ => False | _ => True end.
Definition api_inert (ex : net_execution Rest) : Prop :=
  match ex with
  | NxAssemble _ api _ => exists nm asm, api = assembler_api nm asm
  | _ => True
  end.

Lemma sidecar_Execute_inert nm asm e c err e' c' :
  @sidecar_Execute libs _ (assembler_api nm asm) e c = (err, e', c') ->
  exists x, c' = cl_set_sidecars x c.
Proof.
  assert (Hid : c = cl_set_sidecars (cl_sidecars c) c) by (by destruct c).
  unfold sidecar_Execute. destruct (buildSC c); [intros [= _ _ <-]; by eexists|].
  destruct (negb _); [intros [= _ _ <-]; by eexists|].
  destruct (params_Validate libs (se_params e)); [|intros [= _ _ <-]; by eexists].
  unfold SubmitTask. simpl. destruct asm as [n|]; [|intros [= _ _ <-]; by eexists].
  destruct (SubmitTo _ _ _ _ _) as [[]]; intros [= _ _ <-]; by eexists.
Qed.

Lemma net_Status_keeps (ex : net_execution Rest) o c st ex' o' c' :
  own_task ex -> so_far c -> net_Status Rest ex o c = (st, ex', o', c') -> o' = o /\ so_far c'.
Proof.
  intros Hown Hc. destruct ex as [api e|ns names b|g n names b|e]; simpl; [..|done].
  - destruct (@sidecar_Status _ api e c). by intros [= _ _ <- <-].
  - by intros [= _ _ <- <-].
  - destruct (awaitNodesRunning_Status g n names b c) as [[st1 b1] c1] eqn:Ea. intros [= _ _ <- <-]. split; [done|].
    assert (Hread : triple so_far (listTargetNodes g names) (fun _ => so_far) so_far).
    { assert (Hget : forall l, triple so_far (getNodes l) (fun _ => so_far) so_far).
      { induction l as [|x l IH]; simpl; [by intros ? ?|]. kbind; [apply triple_getChild; inert|].
        kbind; [eapply triple_conseq; [exact IH|by intros ? [? _]|intros ? ? H0; exact H0|done]|].
        by intros ? ?. }
      destruct names; [|apply (Hget (s :: names))]. unfold listTargetNodes, ListSeiNodes.
      eapply triple_conseq; [apply triple_read; inert|intros ? H0; exact H0|by intros ? ? [_ ?]|done]. }
    specialize (Hread c Hc). unfold awaitNodesRunning_Status in Ea.
    destruct (tb_status b); try (by injection Ea as _ _ <-);
      (destruct (listTargetNodes g names c) as [[nodes|e] c2]; [|by injection Ea as _ _ <-]);
      destruct (awaitVerdict n nodes) as [[] ?]; by injection Ea as _ _ <-.
Qed.

Lemma net_Execute_keeps (ex : net_execution Rest) o c err ex' o' c' :
  plan_active net -> sn_Paused (sw_Spec net) = false ->
  own_task ex -> api_inert ex -> so_far c -> net_Execute libs Rest ex o c = (err, ex', o', c') ->
  o' = o /\ so_far c' /\ own_task ex'.
Proof.
  intros Hpl Hpa Hown Hapi Hc. destruct ex as [api e|ns names b|g n names b|e]; simpl; [..|done].
  - destruct Hapi as (nm & asm & ->). destruct (@sidecar_Execute _ _ _ e c) as [[? ?] c1] eqn:Ee.
    intros [= _ <- <- <-]. apply sidecar_Execute_inert in Ee as [x ->]. split_and!; [done| |done].
    by apply (inert_logged J c0 c).
  - pose proof (triple_setPeers ns names Hpl Hpa c Hc) as Ht.
    destruct (collectAndSetPeers_Execute ns names c) as [[?|?] c1]; by intros [= _ <- <- <-].
  - by intros [= _ <- <- <-].
Qed.

Definition ceremony_types : list string := [TaskAssembleGenesis; TaskTypeCollectAndSetPeers; TaskTypeAwaitNodesRunning].

Lemma ceremony_task asm ty id ps o ex :
  ty ∈ ceremony_types -> net_Deserialize Rest asm ty id ps o = Ok ex -> own_task ex /\ api_inert ex.
Proof.
  intros Hty. unfold ceremony_types in Hty. rewrite !elem_of_cons, elem_of_nil in Hty.
  unfold net_Deserialize. destruct Hty as [->|[->|[->|[]]]]; simpl.
  - intros [= <-]. split; [done|]. by do 2 eexists.
  - intros [= <-]. by destruct ps as [[]|].
  - intros [= <-]. by destruct ps as [[]|].
Qed.

Lemma triple_execute asm p :
  sns_Plan (sw_Status net) = Some p -> pt_Type <$> pl_Tasks p = ceremony_types ->
  plan_active net -> sn_Paused (sw_Spec net) = false ->
  triple so_far (net_execute libs Rest now asm net) (fun _ => so_far) so_far.
Proof.
  intros Hp Hty Hpl Hpa c Hc. unfold net_execute, ExecutePlan. rewrite Hp.
  destruct (executePlan now _) as [[r s]|] eqn:Ex; [|done].
  apply (executePlan_kept (RT := network_runtime libs Rest asm) now
           (fun o c => o = ObjNetwork (sw_Name net) (sw_Namespace net) /\ so_far c)) in Ex; [| |by split].
  - assert (Hs : so_far (es_world s)).
    { unfold kept in Ex. destruct (pl_Phase (es_plan s)); [by destruct Ex|by destruct Ex as (? & [_ ?] & _)..]. }
    by apply (inert_logged J c0 (es_world s)).
  - simpl. rewrite Hty. apply Forall_forall. intros ty Hin id ps o w ex [-> Hw] Hd.
    destruct (ceremony_task _ _ _ _ _ _ Hin Hd) as [Hown Hapi]. split.
    + intros st ex' o' w' Hs. by eapply net_Status_keeps.
    + intros err ex' o' w' He. apply (net_Execute_keeps _ _ _ _ _ _ _ Hpl Hpa Hown Hapi Hw) in He as (-> & Hw' & Hown').
      split; [done|]. intros st ex'' o'' w'' Hs. by eapply net_Status_keeps.
Qed.

Lemma triple_plan planID :
  (forall p, sns_Plan (sw_Status net) = Some p -> pt_Type <$> pl_Tasks p = ceremony_types) ->
  (plan_active net -> hasConditionTrue net ConditionPlanInProgress = true) ->
  triple (fun c => so_far c /\ (hasConditionTrue net ConditionPlanInProgress = true -> paused_only (cl_nodes c)))
    (reconcilePlan libs Rest now planID net) (fun _ => so_far) so_far.
Proof.
  intros Hty Hact. unfold reconcilePlan. destruct (sn_Paused (sw_Spec net)) eqn:Hpa; [by intros c [? _]|].
  assert (Hno : triple (fun c => so_far c /\ (hasConditionTrue net ConditionPlanInProgress = true -> paused_only (cl_nodes c)))
     (match ForGroup net with
      | None => mret (net, ResultNone)
      | Some p => plan ← liftR (wrap_err "building plan: " (BuildPlan libs p planID net));
                  mret (startPlan plan net, ResultRequeueImmediate)
      end) (fun _ => so_far) so_far).
  { destruct (ForGroup net) as [p|]; [|by intros c [? _]]. eapply (triple_bind _ _ (fun _ => so_far)); [|intros plan c Hc; exact Hc].
    eapply triple_conseq; [apply (triple_liftR _ so_far)|by intros c [? _]|by intros ? c [_ ?]|done]. }
  destruct (sns_Plan (sw_Status net)) as [p|] eqn:Hp; [|exact Hno].
  destruct (bool_decide (pl_Phase p = TaskPlanActive)) eqn:Hph; [|exact Hno]. bool_to_prop.
  assert (Hpl : plan_active net) by (by exists p).
  destruct (validatorLost net).
  - eapply (triple_bind _ _ (fun _ => so_far)); [|intros n c Hc; exact Hc].
    eapply triple_conseq; [by apply triple_abandon|intros c [? Hx]; split; [done|by apply Hx, Hact]|done|done].
  - unfold drivePlan. eapply (triple_bind _ _ (fun _ => so_far)).
    + intros c [Hc _]. unfold assemblerNode, ListSeiNodes, reading. destruct (pop_fault c) as [x c1] eqn:Ex.
      assert (so_far c1) by (eapply pop_keeps; [|exact Ex|exact Hc]; inert). by destruct x.
    + intros asm. eapply (triple_bind _ _ (fun _ => so_far)); [eapply triple_execute; [done|by apply Hty|done|done]|].
      intros [plan res] c Hc. exact Hc.
Qed.

End Stages.

(** ** The network in memory *)
Section Memory.
Context {W : Type} {SC : StatusConditions} {OR : OwnerRefs} {C : SeiConfig} {H : Hashes} {NS : NodeSidecars W}
  {SCL : StatusConditionsLaws SC}.
Implicit Types (net : SeiNetwork).

(** The plan and its condition agree, a plan is the ceremony and runs, and a
    network that holds one has not finished its ceremony. *)
Definition status_ok net : Prop :=
  match sns_Plan (sw_Status net) with
  | Some p =>
      pl_Phase p = TaskPlanActive /\ pt_Type <$> pl_Tasks p = ceremony_types /\ plan_wf p /\
      hasConditionTrue net ConditionPlanInProgress = true /\
      hasConditionTrue net ConditionGenesisCeremonyComplete = false
  | None => hasConditionTrue net ConditionPlanInProgress = false
  end.

(** [b] is [a] with other conditions, which agree on the plan and the ceremony. *)
Definition same_course (a b : SeiNetwork) : Prop :=
  sns_Plan (sw_Status b) = sns_Plan (sw_Status a) /\ sw_Spec b = sw_Spec a /\
  sw_Name b = sw_Name a /\ sw_Namespace b = sw_Namespace a /\ sw_UID b = sw_UID a /\
  sw_Deleting b = sw_Deleting a /\ sw_CreationTimestamp b = sw_CreationTimestamp a /\
  hasConditionTrue b ConditionPlanInProgress = hasConditionTrue a ConditionPlanInProgress /\
  hasConditionTrue b ConditionGenesisCeremonyComplete = hasConditionTrue a ConditionGenesisCeremonyComplete.

Lemma same_course_refl net : same_course net net.
Proof. by split_and!. Qed.
Lemma same_course_trans a b c : same_course a b -> same_course b c -> same_course a c.
Proof. unfold same_course. intros (? & ? & ? & ? & ? & ? & ? & ? & ?) (? & ? & ? & ? & ? & ? & ? & ? & ?). split_and!; congruence. Qed.
#[export] Instance same_course_preorder : PreOrder same_course.
Proof. split; [exact same_course_refl|exact same_course_trans]. Qed.

Lemma same_course_set net t st r m :
  t <> ConditionPlanInProgress -> t <> ConditionGenesisCeremonyComplete ->
  same_course net (setCondition t st r m net).
Proof. intros H1 H2. unfold same_course. by rewrite !hasTrue_set_other by congruence. Qed.

Lemma hasTrue_seed net t r m t' :
  hasConditionTrue (seedConditionIfAbsent t r m net) t' = hasConditionTrue net t'.
Proof.
  unfold seedConditionIfAbsent. destruct (net_cond net t) as [c|] eqn:Ec; [done|].
  destruct (decide (t' = t)) as [->|Hne]; [|by apply hasTrue_set_other].
  rewrite hasTrue_set. unfold hasConditionTrue. by rewrite Ec.
Qed.
Lemma same_course_seed net t r m : same_course net (seedConditionIfAbsent t r m net).
Proof.
  unfold same_course. rewrite !hasTrue_seed. unfold seedConditionIfAbsent. by destruct (net_cond net t).
Qed.

Lemma same_course_genesis net : same_course net (setGenesisCeremonyCondition net).
Proof.
  unfold setGenesisCeremonyCondition.
  destruct (hasConditionTrue net ConditionGenesisCeremonyComplete) eqn:Eg; [done|].
  assert (Hset : forall r m, same_course net (setCondition ConditionGenesisCeremonyComplete ConditionFalse r m net)).
  { intros r m. unfold same_course. rewrite hasTrue_set, Eg, hasTrue_set_other by done. by split_and!. }
  destruct (hasConditionTrue net ConditionPlanInProgress); [apply Hset|].
  destruct (_ || _); [done|apply Hset].
Qed.

Lemma same_course_seeded net : same_course net (seedAlwaysPresentConditions net).
Proof.
  unfold seedAlwaysPresentConditions.
  do 4 (etrans; [|apply same_course_seed]).
  etrans; [apply same_course_genesis|]. etrans; [|unfold setConfigValuesValidCondition; destruct (ValidateConfigValues _); by apply same_course_set].
  unfold setPausedCondition. destruct (sn_Paused _); by apply same_course_set.
Qed.

Lemma same_course_report now net nodes workers : same_course net (reportStatus now net nodes workers).
Proof.
  unfold reportStatus. set (ready := count childReady nodes). set (up := count _ nodes).
  match goal with |- same_course _ (setProducingCondition ?n _ _) => set (net1 := n) end.
  assert (H1 : same_course net net1).
  { unfold net1. etrans; [|unfold setRolloutInProgressCondition; destruct (_ && _); by apply same_course_set].
    etrans; [|unfold setNodesReadyCondition; destruct (_ <? _)%Z; [case_match; by apply same_course_set|by apply same_course_set]].
    done. }
  etrans; [exact H1|]. unfold setProducingCondition. destruct nodes as [|x l]; [by apply same_course_set|].
  destruct (_ =? 0)%Z; [destruct (_ =? 0)%Z; by apply same_course_set|].
  etrans; [|destruct (heightAdvanced _ _); [by apply same_course_set|]; destruct (_ <=? _)%Z;
    [destruct (_ =? 0)%Z; by apply same_course_set|destruct (CommitsOnDemand _); by apply same_course_set]].
  done.
Qed.

Lemma status_ok_course a b : same_course a b -> status_ok a -> status_ok b.
Proof.
  unfold status_ok. intros (-> & _ & _ & _ & _ & _ & _ & -> & ->). done.
Qed.

Lemma isConditionTrue_found net t : isConditionTrue net t = false -> hasConditionTrue net t = false.
Proof.
  unfold isConditionTrue, hasConditionTrue, net_cond. intros Hn.
  destruct (FindStatusCondition _ t) as [c|] eqn:Ef; [|done].
  pose proof (find_type _ _ _ Ef) as Ht. pose proof (find_in _ _ _ Ef) as Hin.
  destruct (bool_decide (c_Status c = ConditionTrue)) eqn:Eb; [|done].
  rewrite <- Hn. symmetry. apply existsb_exists. exists c. by rewrite Ht, String.eqb_refl, Eb.
Qed.

(** No condition goes missing, and only the plan's two change. *)
Definition conds_kept a b : Prop :=
  (forall t, is_Some (net_cond a t) -> is_Some (net_cond b t)) /\
  (forall t, t <> ConditionPlanInProgress -> t <> ConditionGenesisCeremonyComplete -> net_cond b t = net_cond a t).
Lemma conds_kept_refl net : conds_kept net net.
Proof. done. Qed.
Lemma conds_kept_set a b t st r m :
  t = ConditionPlanInProgress \/ t = ConditionGenesisCeremonyComplete ->
  conds_kept a b -> conds_kept a (setCondition t st r m b).
Proof.
  intros Ht [H1 H2]. split.
  - intros t' Hs%H1. destruct (decide (t' = t)) as [->|Hne]; [rewrite net_cond_set; by eexists|by rewrite net_cond_set_other].
  - intros t' Hp Hg. rewrite net_cond_set_other by (by destruct Ht; subst). by apply H2.
Qed.
Lemma conds_kept_plan a b p : conds_kept a b -> conds_kept a (nw_status (ns_plan p) b).
Proof. done. Qed.

(** *** What becomes of the plan *)
Context (libs : ClientLibs) (Rest : TaskRuntime (cluster W)).

(** The plan half changes nothing of a network whose ceremony is done; otherwise
    it leaves a network whose plan and conditions agree. *)
Definition plan_outcome (net net' : SeiNetwork) : Prop :=
  status_ok net' /\
  (hasConditionTrue net ConditionGenesisCeremonyComplete = true -> net' = net) /\
  sw_Spec net' = sw_Spec net /\ sw_Deleting net' = sw_Deleting net /\ sw_Generation net' = sw_Generation net /\
  sns_ObservedHeight (sw_Status net') = sns_ObservedHeight (sw_Status net) /\ conds_kept net net'.

Lemma started_ok net planID plan :
  needsGenesisPlan net = true -> genesis_BuildPlan libs planID net = Ok plan -> plan_outcome net (startPlan plan net).
Proof.
  unfold needsGenesisPlan. destruct (sns_Plan (sw_Status net)) eqn:Hp; [done|].
  destruct (isConditionTrue net _) eqn:Ei; [done|]. apply isConditionTrue_found in Ei. intros _ Hb.
  unfold genesis_BuildPlan in Hb. destruct (params_Validate _ _) as [[]|e]; simpl in Hb; [|done]. injection Hb as <-.
  split; [|split; [by rewrite Ei|split_and!; try done; apply conds_kept_set; [by left|done]]].
  unfold status_ok, startPlan, setPlanInProgress. simpl. split_and!; try done.
  - apply fresh_plan_wf. by repeat constructor.
  - exact (hasTrue_set ConditionPlanInProgress ConditionTrue _ _ _).
  - match goal with |- hasConditionTrue (setCondition ?t ?s ?r ?m ?n) _ = _ =>
      rewrite (hasTrue_set_other t ConditionGenesisCeremonyComplete s r m n) by done end.
    exact Ei.
Qed.

Lemma cleared_ok net net' r m :
  sns_Plan (sw_Status net') = None -> status_ok (setCondition ConditionPlanInProgress ConditionFalse r m net').
Proof.
  intros Hp. unfold status_ok. change (sns_Plan (sw_Status (setCondition ConditionPlanInProgress ConditionFalse r m net')))
    with (sns_Plan (sw_Status net')). by rewrite Hp, hasTrue_set.
Qed.

Lemma plan_outcome_refl net : status_ok net -> plan_outcome net net.
Proof. by intros ?. Qed.

Lemma executed_ok now asm net c p r s :
  sns_Plan (sw_Status net) = Some p -> status_ok net ->
  @executePlan _ (network_runtime libs Rest asm) now
    (mkState (ObjNetwork (sw_Name net) (sw_Namespace net)) p c (cl_active c)) = Some (r, s) ->
  pl_Phase (es_plan s) = TaskPlanActive -> status_ok (nw_status (ns_plan (Some (es_plan s))) net).
Proof.
  intros Hp Hok Hx Hph. unfold status_ok in *. rewrite Hp in Hok. destruct Hok as (_ & Hty & Hwf & Hpip & Hg).
  apply executePlan_keeps in Hx as [Hwf' Hkey]; [|done]. simpl in *. split_and!; try done.
  rewrite <- Hty. change pt_Type with (fst ∘ task_key). by rewrite !list_fmap_compose, Hkey.
Qed.

Lemma triple_plan_outcome now planID net :
  status_ok net ->
  triple (fun _ => True) (reconcilePlan libs Rest now planID net) (fun r _ => plan_outcome net r.1) (fun _ => True).
Proof.
  intros Hok c _. unfold reconcilePlan. destruct (sn_Paused (sw_Spec net)); [by apply plan_outcome_refl|].
  destruct (sns_Plan (sw_Status net)) as [p|] eqn:Hp.
  - pose proof Hok as Hok'. unfold status_ok in Hok'. rewrite Hp in Hok'. destruct Hok' as (Hph & _ & _ & _ & Hg).
    rewrite bool_decide_eq_true_2 by done.
    assert (Hend : forall p st r m r' m', plan_outcome net (setCondition ConditionPlanInProgress ConditionFalse r m
      (nw_status (ns_plan None) (setCondition ConditionGenesisCeremonyComplete st r' m' (nw_status (ns_plan p) net))))).
    { intros p' st r m r' m'. split; [by apply cleared_ok|]. rewrite Hg. split_and!; try done.
      apply conds_kept_set; [by left|]. apply conds_kept_plan, conds_kept_set; [by right|]. apply conds_kept_plan, conds_kept_refl. }
    assert (Hend' : forall st r m r' m', plan_outcome net (setCondition ConditionPlanInProgress ConditionFalse r m
      (nw_status (ns_plan None) (setCondition ConditionGenesisCeremonyComplete st r' m' net)))).
    { intros st r m r' m'. specialize (Hend (sns_Plan (sw_Status net)) st r m r' m').
      by replace (nw_status (ns_plan (sns_Plan (sw_Status net))) net) with net in Hend by (by destruct net as [? ? ? ? ? ? ? ? []]). }
    destruct (validatorLost net).
    + unfold abandonPlanForLostValidator, mbind, K_bind.
      destruct (listChildSeiNodes net c) as [[l|e] c1]; [|done].
      destruct (existsb (predates net) l); simpl; [apply Hend'|].
      destruct (forK _ _ c1) as [[u|e] c2]; [apply Hend'|done].
    + unfold drivePlan, mbind, K_bind, net_execute, ExecutePlan. destruct (assemblerNode net c) as [[asm|e] c1]; [|done].
      rewrite Hp. destruct (executePlan now _) as [[r s]|] eqn:Ex.
      * simpl. destruct (pl_Phase (es_plan s)) eqn:Hps; [|apply Hend..].
        split; [by eapply executed_ok|]. rewrite Hg. by split_and!.
      * destruct (executePlan_total (RT := network_runtime libs Rest asm) now
          (mkState (ObjNetwork (sw_Name net) (sw_Namespace net)) p c1 (cl_active c1))) as (r & s & Hs). congruence.
  - unfold ForGroup. destruct (needsGenesisPlan net) eqn:Hn; [|by apply plan_outcome_refl].
    unfold mbind, K_bind, liftR. destruct (BuildPlan libs genesisGroupPlanner planID net) as [plan|e] eqn:Hb; [|done].
    by eapply started_ok.
Qed.

End Memory.

(** ** A whole reconcile *)
Section Whole.
Context {W : Type} {SC : StatusConditions} {OR : OwnerRefs} {C : SeiConfig} {H : Hashes} {NS : NodeSidecars W}
  {SCL : StatusConditionsLaws SC} {ORL : OwnerRefsLaws OR}.
Context (libs : ClientLibs) (Rest : TaskRuntime (cluster W)).
Implicit Types (net : SeiNetwork) (c : cluster W).

(** The network a reconcile works with: as stored, and while it is not being
    deleted with its finalizer and its conditions seeded. *)
Definition in_memory (stored : SeiNetwork) : SeiNetwork :=
  if sw_Deleting stored then stored else seedAlwaysPresentConditions (nw_finalizer true stored).

(** The status fields a reconcile fills in play no part. *)
Lemma justified_status now net f m0 e :
  sns_Conditions (f (sw_Status net)) = sns_Conditions (sw_Status net) ->
  sns_Plan (f (sw_Status net)) = sns_Plan (sw_Status net) ->
  justified now (nw_status f net) m0 e -> justified now net m0 e.
Proof.
  intros Hc Hp.
  assert (Hcond : forall t, net_cond (nw_status f net) t = net_cond net t) by (intros t; unfold net_cond; simpl; by rewrite Hc).
  assert (Hgate : gate (nw_status f net) -> gate net) by (unfold gate, hasConditionTrue; by rewrite Hcond).
  assert (Hact : plan_active (nw_status f net) -> plan_active net) by (unfold plan_active; simpl; by rewrite Hp).
  assert (Hdes : forall i, desiredChild (nw_status f net) i = desiredChild net i)
    by (intros i; unfold desiredChild, configValuesRejected; by rewrite Hcond).
  destruct 1 as [old a b|j ch a b d|j de old ch ad new a b d x y z w|old ord a b d x|old a b d x y z|old ps a b|old a b d x].
  - exact (just_pause now net m0 old a b).
  - rewrite Hdes in d. exact (just_create now net m0 j ch (Hgate a) b d).
  - assert (Hw : syncChild net de ch ad = (new, true)).
    { rewrite <- w. unfold syncChild, configValuesRejected. by rewrite Hcond. }
    rewrite Hdes in d. exact (just_sync now net m0 j de old ch ad new (Hgate a) b d x y z Hw).
  - exact (just_scale now net m0 old ord (Hgate a) b d x).
  - exact (just_teardown now net m0 old (Hact a) b d x y z).
  - exact (just_peers now net m0 old ps (Hact a) b).
  - exact (just_release now net m0 old a b d x).
Qed.
Lemma logged_status now net f m0 c0 c :
  sns_Conditions (f (sw_Status net)) = sns_Conditions (sw_Status net) ->
  sns_Plan (f (sw_Status net)) = sns_Plan (sw_Status net) ->
  logged (justified now (nw_status f net) m0) c0 c <-> logged (justified now net m0) c0 c.
Proof.
  intros Hc Hp. split; apply logged_weaken; intros e He; [by eapply justified_status|].
  apply (justified_status now (nw_status f net) (fun _ => sw_Status net)); simpl; [done..|].
  by destruct net.
Qed.

Lemma triple_orphan now net m0 (c0 : cluster W) :
  sw_Deleting net = true -> sn_DeletionPolicy (sw_Spec net) <> PolicyUnset ->
  sn_DeletionPolicy (sw_Spec net) <> DeletionPolicyDelete ->
  triple (logged (justified now net m0) c0) (orphanChildSeiNodes net)
    (fun _ => logged (justified now net m0) c0) (logged (justified now net m0) c0).
Proof.
  intros Hd H1 H2. unfold orphanChildSeiNodes.
  kbind; [apply triple_listed; [inert|intros c; apply keyed_so_far]|].
  eapply triple_conseq; [apply (triple_forK (fun rest c => logged (justified now net m0) c0 c /\ pending (owned net) rest c)
    _ (logged (justified now net m0) c0))|by intros c (? & ? & _)|by intros u c [? _]|done].
  intros x rest. apply triple_wrap. unfold retainChild, PatchRelease.
  eapply triple_conseq; [apply (triple_write
    (fun c => logged (justified now net m0) c0 c /\ pending (owned net) (x :: rest) c)
    (fun c => logged (justified now net m0) c0 c /\ pending (owned net) rest c))|done|done|by intros c [[? _]|[? _]]].
  - inert.
  - intros c c' [Hc Hp] Hw. apply store_child_result in Hw as (old & Ho & ->).
    pose proof Hp as Hp'. apply pending_cons in Hp' as (Hown & Hx & _). rewrite Hx in Ho. injection Ho as <-.
    assert (Hcn : ch_Name (ch_annotations (retain_record net (ch_Annotations x))
      (ch_owners (released_refs net (ch_Owners x)) x)) = ch_Name x) by done.
    split.
    + apply logged_write; [done| |by apply just_release]. eapply acts_update; [exact Hx|done|by right; right; left].
    + eapply pending_write; [exact Hp|]. intros k Hk. simpl. by rewrite lookup_insert_ne.
Qed.

Lemma triple_deletion now net m0 (c0 : cluster W) :
  sw_Deleting net = true ->
  triple (logged (justified now net m0) c0) (handleDeletion net)
    (fun _ => logged (justified now net m0) c0) (logged (justified now net m0) c0).
Proof.
  intros Hd. unfold handleDeletion. destruct (sw_Finalizer net); simpl; [|by intros c Hc].
  eapply (triple_bind _ _ (fun _ => logged (justified now net m0) c0)); [apply triple_wrap, triple_status; inert|].
  intros _. eapply (triple_bind _ _ (fun _ => logged (justified now net m0) c0)).
  - destruct (decide _) as [|Hn]; [by intros c Hc|].
    eapply (triple_bind _ _ (fun _ => logged (justified now net m0) c0)).
    + apply triple_wrap, triple_orphan; [done|naive_solver..].
    + intros _. apply triple_wrap, triple_orphanService; inert.
  - intros _. eapply (triple_bind _ _ (fun _ => logged (justified now net m0) c0)); [apply triple_finalizer; inert|].
    by intros u c Hc.
Qed.

(** The children stage: under the gate they are created, synced and scaled down;
    else they stay as they are. *)
Lemma triple_seiNodes now net m0 (c0 : cluster W) :
  sw_Deleting net = false ->
  triple (fun c => logged (justified now net m0) c0 c /\ paused_only m0 (cl_nodes c)) (reconcileSeiNodes now net)
    (fun net' c => (exists l, net' = nw_status (ns_incumbents l) net) /\ logged (justified now net m0) c0 c /\
       (hasConditionTrue net ConditionPlanInProgress = true -> paused_only m0 (cl_nodes c)))
    (logged (justified now net m0) c0).
Proof.
  intros Hd. unfold reconcileSeiNodes. rewrite Hd.
  assert (Hpop : triple (fun c => logged (justified now net m0) c0 c /\ paused_only m0 (cl_nodes c))
    (populateIncumbentNodes net) (fun net' c => (exists l, net' = nw_status (ns_incumbents l) net) /\
       logged (justified now net m0) c0 c /\
       (hasConditionTrue net ConditionPlanInProgress = true -> paused_only m0 (cl_nodes c)))
    (logged (justified now net m0) c0)).
  { eapply triple_conseq; [apply (triple_populate net (fun c => logged (justified now net m0) c0 c /\ paused_only m0 (cl_nodes c)))
      |done|by intros n c (? & ? & ?)|by intros c [? _]].
    - inert.
    - intros c [Hc _]. by eapply keyed_so_far. }
  destruct (sn_Paused (sw_Spec net)) eqn:Hp; [exact Hpop|].
  destruct (hasConditionTrue net ConditionPlanInProgress) eqn:Hc; simpl; [exact Hpop|].
  assert (Hg : gate net) by done.
  eapply (triple_bind _ _ (fun _ => logged (justified now net m0) c0)).
  { eapply triple_conseq; [by apply (triple_ensureAll now net m0 c0)|by intros c [? _]|done|done]. }
  intros _. eapply (triple_bind _ _ (fun _ => logged (justified now net m0) c0)); [by apply triple_scaleDown|].
  intros _. eapply triple_conseq; [apply (triple_populate net (logged (justified now net m0) c0))|done| |done].
  - inert.
  - intros c. by apply keyed_so_far.
  - intros n c [? ?]. by split_and!.
Qed.

Lemma triple_always {A} (P Q : cluster W -> Prop) (m : K (W:=W) A) c :
  triple P m (fun _ => Q) Q -> P c -> Q (m c).2.
Proof. intros Hm Hc. specialize (Hm c Hc). by destruct (m c) as [[]]. Qed.

Lemma triple_live now planID net c0 :
  sw_Deleting net = false -> status_ok net ->
  triple (fun c => logged (justified now (in_memory net) (cl_nodes c0)) c0 c /\ paused_only (cl_nodes c0) (cl_nodes c))
    (reconcileLive libs Rest now planID net)
    (fun _ => logged (justified now (in_memory net) (cl_nodes c0)) c0)
    (logged (justified now (in_memory net) (cl_nodes c0)) c0).
Proof.
  intros Hd Hok. unfold in_memory. rewrite Hd. unfold reconcileLive.
  set (P := fun c => logged (justified now (seedAlwaysPresentConditions (nw_finalizer true net)) (cl_nodes c0)) c0 c /\
                     paused_only (cl_nodes c0) (cl_nodes c)).
  assert (HP : inert P) by (unfold P; inert).
  assert (HPk : forall c, P c -> keyed (cl_nodes c)) by (intros c [Hc _]; by eapply keyed_so_far).
  assert (HPE : forall c, P c -> logged (justified now (seedAlwaysPresentConditions (nw_finalizer true net)) (cl_nodes c0)) c0 c)
    by (by intros c [? _]).
  eapply (triple_bind _ _ (fun n c => n = nw_finalizer true net /\ P c)).
  { unfold ensureFinalizer. destruct (sw_Finalizer net) eqn:Ef.
    - intros c Hc. split; [|exact Hc]. by destruct net; simpl in *; subst.
    - eapply triple_bind; [eapply triple_conseq; [by apply (triple_finalizer P true)|done|intros u c Hc; exact Hc|done]|].
      intros u c Hc. by split. }
  intros n. apply triple_pure. intros ->.
  set (mem := seedAlwaysPresentConditions (nw_finalizer true net)) in *.
  assert (Hmem : same_course net mem) by (etrans; [|apply same_course_seeded]; done).
  assert (Hmok : status_ok mem) by by eapply status_ok_course.
  assert (Hmd : sw_Deleting mem = false) by (destruct Hmem as (_ & _ & _ & _ & _ & -> & _); done).
  eapply (triple_bind _ _ (fun _ => P)).
  { apply triple_wrap. eapply triple_conseq; [apply (triple_pause now mem (cl_nodes c0) c0)|done|done|done]. }
  intros _. eapply (triple_bind _ _ (fun n c => (exists i, n = nw_status (ns_internal i) mem) /\ P c)).
  { apply triple_wrap. eapply triple_conseq; [by apply triple_internalService|done|done|done]. }
  intros n1. apply triple_pure. intros [i ->]. set (net1 := nw_status (ns_internal i) mem).
  assert (Hw1 : forall c, logged (justified now net1 (cl_nodes c0)) c0 c <-> logged (justified now mem (cl_nodes c0)) c0 c)
    by (intros c; by apply logged_status).
  eapply (triple_bind _ _ (fun n c => (exists l, n = nw_status (ns_incumbents l) net1) /\
    logged (justified now net1 (cl_nodes c0)) c0 c /\
    (hasConditionTrue net1 ConditionPlanInProgress = true -> paused_only (cl_nodes c0) (cl_nodes c)))).
  { apply triple_wrap. eapply triple_conseq; [by apply (triple_seiNodes now net1 (cl_nodes c0) c0)| |done|].
    - intros c [? ?]. by rewrite Hw1.
    - intros c ?. by apply Hw1. }
  intros n2. apply triple_pure. intros [l ->]. set (net2 := nw_status (ns_incumbents l) net1).
  assert (Hw2 : forall c, logged (justified now net2 (cl_nodes c0)) c0 c <-> logged (justified now mem (cl_nodes c0)) c0 c)
    by (intros c; rewrite <- Hw1; by apply logged_status).
  eapply (triple_bind _ _ (fun _ => logged (justified now mem (cl_nodes c0)) c0)).
  { apply triple_wrap. eapply triple_conseq; [apply (triple_plan now net2 (cl_nodes c0) c0 libs Rest planID)| | |].
    - intros p Hp. change (sns_Plan (sw_Status mem) = Some p) in Hp. unfold status_ok in Hmok. rewrite Hp in Hmok. naive_solver.
    - intros (p & Hp & _). change (sns_Plan (sw_Status mem) = Some p) in Hp. unfold status_ok in Hmok.
      rewrite Hp in Hmok. by destruct Hmok as (_ & _ & _ & ? & _).
    - intros c [Hc Hpo]. rewrite Hw2, <- Hw1. by split.
    - intros r c ?. by apply Hw2.
    - intros c ?. by apply Hw2. }
  intros [n3 res]. eapply (triple_bind _ _ (fun _ => logged (justified now mem (cl_nodes c0)) c0)); [|by intros u c Hc].
  apply triple_wrap, triple_updateStatus; [inert|]. intros c Hc. by eapply keyed_so_far.
Qed.

(** All writes of a reconcile are justified, whatever calls fail. *)
Lemma reconcile_logged now planID net c :
  cl_net c = Some net -> keyed (cl_nodes c) -> status_ok net ->
  logged (justified now (in_memory net) (cl_nodes c)) c (ReconcileNetwork libs Rest now planID c).2.
Proof.
  intros Hn Hk Hok. unfold ReconcileNetwork, GetNetwork, mbind, K_bind, call, reading.
  destruct (pop_fault c) as [x c1] eqn:Ex.
  assert (Hc1 : cl_net c1 = cl_net c /\ cl_nodes c1 = cl_nodes c /\ cl_log c1 = cl_log c)
    by (unfold pop_fault in Ex; destruct (cl_faults c); by injection Ex as <- <-).
  destruct Hc1 as (Hn1 & Hm1 & Hl1).
  assert (Hlog : logged (justified now (in_memory net) (cl_nodes c)) c c1)
    by (eapply inert_logged; [done|done|by apply logged_refl]).
  destruct x; simpl; [|done..]. rewrite Hn1, Hn. destruct (sw_Deleting net) eqn:Hd.
  - assert (Hmem : in_memory net = net) by (unfold in_memory; by rewrite Hd). rewrite Hmem in *.
    exact (triple_always _ _ _ _ (triple_deletion now net (cl_nodes c) c Hd) Hlog).
  - refine (triple_always _ _ _ _ (triple_live now planID net c Hd Hok) (conj Hlog _)).
    rewrite Hm1. apply paused_only_refl.
Qed.

End Whole.

(** ** The stored network *)
Section Stored.
Context {W : Type} {SC : StatusConditions} {OR : OwnerRefs} {C : SeiConfig} {H : Hashes} {NS : NodeSidecars W}
  {SCL : StatusConditionsLaws SC}.
Context (libs : ClientLibs) (Rest : TaskRuntime (cluster W)).
Implicit Types (net : SeiNetwork) (c : cluster W).

(** Computations that leave the network object alone. *)
Definition keeps_net {A} (m : K (W:=W) A) : Prop := forall c, cl_net (m c).2 = cl_net c.

Lemma keeps_ret {A} (a : A) : keeps_net (mret a).
Proof. done. Qed.
Lemma keeps_bind {A B} (m : K (W:=W) A) (f : A -> K (W:=W) B) :
  keeps_net m -> (forall a, keeps_net (f a)) -> keeps_net (m ≫= f).
Proof.
  intros Hm Hf c. unfold mbind, K_bind. specialize (Hm c). destruct (m c) as [[a|e] c1]; simpl in *; [|done].
  by rewrite Hf.
Qed.
Lemma keeps_wrap {A} pre (m : K (W:=W) A) : keeps_net m -> keeps_net (wrap pre m).
Proof. intros Hm c. unfold wrap. specialize (Hm c). by destruct (m c). Qed.
Lemma keeps_liftR {A} (r : result A) : keeps_net (liftR r).
Proof. done. Qed.
Lemma keeps_orElse {A} (d : A) (m : K (W:=W) A) : keeps_net m -> keeps_net (orElse d m).
Proof. intros Hm c. unfold orElse. specialize (Hm c). by destruct (m c) as [[]]. Qed.
Lemma keeps_forK {A} (l : list A) (f : A -> K (W:=W) unit) : (forall x, keeps_net (f x)) -> keeps_net (forK l f).
Proof. intros Hf. induction l as [|x l IH]; simpl; [done|]. by apply keeps_bind. Qed.

Lemma pop_net c x c1 : pop_fault c = (x, c1) -> cl_net c1 = cl_net c.
Proof. unfold pop_fault. by destruct (cl_faults c); intros [= <- <-]. Qed.
Lemma reading_net {A} (f : cluster W -> api_error + A) c : cl_net (reading f c).2 = cl_net c.
Proof. unfold reading. destruct (pop_fault c) as [x c1] eqn:E. rewrite <- (pop_net _ _ _ E). by destruct x. Qed.
Lemma writing_net f c :
  (forall c c', f c = inr c' -> cl_net c' = cl_net c) -> cl_net (writing f c).2 = cl_net c.
Proof.
  intros Hf. unfold writing. destruct (pop_fault c) as [x c1] eqn:E. rewrite <- (pop_net _ _ _ E).
  destruct x; simpl; [..|done]; destruct (f c1) eqn:Ef; simpl; try done; by apply Hf.
Qed.
Lemma keeps_call {A} (op : cluster W -> (api_error + A) * cluster W) :
  (forall c, cl_net (op c).2 = cl_net c) -> keeps_net (call op).
Proof. intros Ho c. unfold call. specialize (Ho c). by destruct (op c) as [[]]. Qed.
Lemma keeps_callW op : (forall c, cl_net (op c).2 = cl_net c) -> keeps_net (callW (W:=W) op).
Proof. intros Ho c. unfold callW. specialize (Ho c). by destruct (op c) as [[]]. Qed.
Lemma keeps_ignore op : (forall c, cl_net (op c).2 = cl_net c) -> keeps_net (ignoreNotFound (W:=W) op).
Proof. intros Ho c. unfold ignoreNotFound. specialize (Ho c). by destruct (op c) as [[[]|]]. Qed.
Lemma store_net name f e c : cl_net (store_child (W:=W) name f e c).2 = cl_net c.
Proof. apply writing_net. intros c1 c2 (old & _ & ->)%store_child_result. done. Qed.
Lemma create_net now ch c : cl_net (CreateChild (W:=W) now ch c).2 = cl_net c.
Proof. apply writing_net. intros c1 c2. by destruct (cl_nodes c1 !! _); [|intros [= <-]]. Qed.
Lemma delete_net name c : cl_net (DeleteChild (W:=W) name c).2 = cl_net c.
Proof. apply writing_net. intros c1 c2. by destruct (cl_nodes c1 !! _); [intros [= <-]|]. Qed.
Lemma service_net f c : cl_net (PatchService (W:=W) f c).2 = cl_net c.
Proof. apply writing_net. intros c1 c2. by destruct (f (cl_svc c1)); [|intros [= <-]]. Qed.
Lemma keeps_try name : keeps_net (TryGetChild name).
Proof.
  intros c. unfold TryGetChild. pose proof (reading_net (fun c => match cl_nodes c !! name with Some ch => inr ch | None => inl ENotFound end) c) as Hr.
  unfold GetChild. by destruct (reading _ c) as [[[]|]].
Qed.
Lemma keeps_stored_service : keeps_net stored_service.
Proof. intros c. unfold stored_service. by destruct (cl_svc c). Qed.

Ltac knet :=
  repeat first
    [ apply keeps_ret | apply keeps_liftR | apply keeps_try | apply keeps_stored_service
    | apply keeps_wrap | apply keeps_forK; intros ? | apply keeps_orElse
    | apply keeps_callW; intros ?; first [apply store_net | apply create_net | apply service_net]
    | apply keeps_ignore; intros ?; apply delete_net
    | apply keeps_call; intros ?; apply reading_net
    | apply keeps_bind; [|intros ?]
    | case_match ].

Lemma list_keeps net : keeps_net (listChildSeiNodes net).
Proof. unfold listChildSeiNodes, ListSeiNodes. knet. Qed.
Lemma pause_keeps net b : keeps_net (syncPausedToChildren net b).
Proof. unfold syncPausedToChildren. apply keeps_bind; [apply keeps_wrap, list_keeps|]. intros l. unfold UpdateChild. knet. Qed.
Lemma ensure_keeps now net i : keeps_net (ensureSeiNode now net i).
Proof. unfold ensureSeiNode, UpdateChild. knet. Qed.
Lemma seiNodes_keeps now net : keeps_net (reconcileSeiNodes now net).
Proof.
  assert (Hp : keeps_net (populateIncumbentNodes net)) by (unfold populateIncumbentNodes; apply keeps_bind; [apply keeps_wrap, list_keeps|by knet]).
  unfold reconcileSeiNodes, ensureAll, scaleDown, ListSeiNodes. repeat (case_match; [exact Hp|]). case_match; [|exact Hp].
  apply keeps_bind; [apply keeps_forK; intros i; apply keeps_wrap, ensure_keeps|]. intros _.
  apply keeps_bind; [|by intros _]. knet.
Qed.
Lemma internalService_keeps net : keeps_net (reconcileInternalService net).
Proof. unfold reconcileInternalService, ApplyService, clearRetainRecord, PatchServiceMeta, fail. case_match; [knet|done]. Qed.
Lemma workers_keeps net : keeps_net (childWorkerNodes net).
Proof. unfold childWorkerNodes, ListPods. knet. Qed.
Lemma orphan_keeps net : keeps_net (orphanChildSeiNodes net).
Proof. unfold orphanChildSeiNodes, retainChild, PatchRelease. apply keeps_bind; [apply list_keeps|]. intros l. knet. Qed.
Lemma orphanService_keeps net : keeps_net (orphanInternalService net).
Proof. unfold orphanInternalService, GetService, PatchServiceMeta. knet. Qed.
Lemma abandon_keeps net : keeps_net (abandonPlanForLostValidator net).
Proof. unfold abandonPlanForLostValidator. apply keeps_bind; [apply list_keeps|]. intros l. knet. Qed.
Lemma collect_keeps ns names : keeps_net (collectAndSetPeers_Execute ns names).
Proof.
  unfold collectAndSetPeers_Execute, setPeersOnNodes, PatchPeers, GetChild. apply keeps_bind; [apply keeps_wrap|intros; knet].
  induction names as [|x l IH]; simpl; [knet|]. apply keeps_bind; [unfold GetChild; knet|intros _]. apply keeps_bind.
  - intros c. by destruct (clientError x (cl_sidecars c)), (GetNodeID x (cl_sidecars c)).
  - intros p. apply keeps_bind; [exact IH|intros; knet].
Qed.
Lemma getNodes_keeps l : keeps_net (getNodes l).
Proof. induction l as [|x l IH]; simpl; [knet|]. unfold GetChild. apply keeps_bind; [knet|intros]. apply keeps_bind; [exact IH|intros; knet]. Qed.
Lemma await_net g n names b c st b' c' :
  awaitNodesRunning_Status g n names b c = (st, b', c') -> cl_net c' = cl_net c.
Proof.
  assert (Hl : cl_net (listTargetNodes g names c).2 = cl_net c)
    by (destruct names; [apply keeps_call; intros ?; apply reading_net|apply getNodes_keeps]).
  unfold awaitNodesRunning_Status. destruct (tb_status b); try (by intros [= _ _ <-]);
    (destruct (listTargetNodes g names c) as [[nodes|e] c2]; simpl in Hl; [|by intros [= _ _ <-]]);
    destruct (awaitVerdict n nodes) as [[] ?]; by intros [= _ _ <-].
Qed.

(** Tasks of the ceremony leave the network object alone. *)
Lemma ceremony_respects_net asm (n0 : option SeiNetwork) nm ns :
  Forall (@respects _ (network_runtime libs Rest asm) (fun o c => o = ObjNetwork nm ns /\ cl_net c = n0)) ceremony_types.
Proof.
  assert (Hst : forall (ex : net_execution Rest) o c st ex' o' c', own_task Rest ex ->
    net_Status Rest ex o c = (st, ex', o', c') -> o' = o /\ cl_net c' = cl_net c).
  { intros ex o c st ex' o' c' Hown. destruct ex as [api e|ns' names b|g n names b|e]; simpl; [..|done].
    - destruct (@sidecar_Status _ api e c). by intros [= _ _ <- <-].
    - by intros [= _ _ <- <-].
    - destruct (awaitNodesRunning_Status g n names b c) as [[st1 b1] c1] eqn:Ea. intros [= _ _ <- <-].
      split; [done|]. by eapply await_net. }
  apply Forall_forall. intros ty Hin id ps o w ex [-> Hw] Hd.
  destruct (ceremony_task Rest _ _ _ _ _ _ Hin Hd) as [Hown Hapi]. split.
  - intros st ex' o' w' Hs. apply (Hst ex) in Hs as [-> ->]; done.
  - intros err ex' o' w' He.
    assert (Hk : o' = ObjNetwork nm ns /\ cl_net w' = n0 /\ own_task Rest ex').
    { destruct ex as [api e|ns' names b|g n names b|e]; simpl in He; [..|done].
      - destruct Hapi as (? & ? & ->). destruct (@sidecar_Execute _ _ _ e w) as [[? ?] c1] eqn:Ee.
        injection He as _ <- <- <-. apply sidecar_Execute_inert in Ee as [sc0 ->]. done.
      - pose proof (collect_keeps ns' names w) as Hc.
        destruct (collectAndSetPeers_Execute ns' names w) as [[?|?] c1]; injection He as _ <- <- <-; simpl in Hc; by rewrite Hc.
      - by injection He as _ <- <- <-. }
    destruct Hk as (-> & Hw' & Hown'). split; [done|]. intros st ex'' o'' w'' Hs.
    apply (Hst ex') in Hs as [-> ->]; done.
Qed.

Lemma plan_keeps now planID net : status_ok net -> keeps_net (reconcilePlan libs Rest now planID net).
Proof.
  intros Hok. unfold reconcilePlan. destruct (sn_Paused _); [knet|].
  assert (Hno : keeps_net (match ForGroup net with
      | None => mret (net, ResultNone)
      | Some p => plan ← liftR (wrap_err "building plan: " (BuildPlan libs p planID net));
                  mret (startPlan plan net, ResultRequeueImmediate)
      end)) by knet.
  destruct (sns_Plan (sw_Status net)) as [p|] eqn:Hp; [|exact Hno].
  unfold status_ok in Hok. rewrite Hp in Hok. destruct Hok as (Hph & Hty & _).
  rewrite bool_decide_eq_true_2 by done. destruct (validatorLost net).
  - apply keeps_bind; [apply abandon_keeps|intros; knet].
  - unfold drivePlan. apply keeps_bind.
    + intros c. unfold assemblerNode, ListSeiNodes.
      match goal with |- context [reading ?f c] => pose proof (reading_net f c) as Hr; by destruct (reading f c) as [[]] end.
    + intros asm. apply keeps_bind; [|intros [plan res]; knet].
      intros c. unfold net_execute, ExecutePlan. rewrite Hp. destruct (executePlan now _) as [[r s]|] eqn:Ex; [|done].
      apply (executePlan_kept (RT := network_runtime libs Rest asm) now
        (fun o c' => o = ObjNetwork (sw_Name net) (sw_Namespace net) /\ cl_net c' = cl_net c)) in Ex; [| |done].
      * simpl. unfold kept in Ex. destruct (pl_Phase (es_plan s)); [by destruct Ex|by destruct Ex as (? & [_ ?] & _)..].
      * simpl. rewrite Hty. apply ceremony_respects_net.
Qed.

(** *** What a reconcile stores *)

(** The network after a reconcile: as it was, with its finalizer, marked
    Terminating while it is being deleted, or with the status reported for a
    network that came out of the plan half. *)
Inductive stores (now : Z) (net : SeiNetwork) : SeiNetwork -> Prop :=
| stores_same : stores now net net
| stores_finalizer : stores now net (nw_finalizer true net)
| stores_terminating :
    sw_Deleting net = true ->
    stores now net (nw_status (fun s => wire_status (ns_phase GroupPhaseTerminating s)) net)
| stores_status mem mem' nodes workers :
    sw_Deleting net = false ->
    (exists f, mem = nw_status f (in_memory net)) -> same_course (in_memory net) mem ->
    sns_ObservedHeight (sw_Status mem) = sns_ObservedHeight (sw_Status (in_memory net)) ->
    sns_Conditions (sw_Status mem) = sns_Conditions (sw_Status (in_memory net)) ->
    plan_outcome mem mem' ->
    stores now net
      (nw_status (fun _ => wire_status (sw_Status (reportStatus now mem' nodes workers))) (nw_finalizer true net)).

Lemma step_net {A} (m : K (W:=W) A) c r c' : keeps_net m -> m c = (r, c') -> cl_net c' = cl_net c.
Proof. intros Hm Hx. specialize (Hm c). by rewrite Hx in Hm. Qed.

Lemma ensureFinalizer_net net c r c' :
  cl_net c = Some net -> sw_Deleting net = false -> ensureFinalizer net c = (r, c') ->
  (cl_net c' = Some net \/ cl_net c' = Some (nw_finalizer true net)) /\
  (forall n, r = Ok n -> n = nw_finalizer true net /\ cl_net c' = Some n).
Proof.
  intros Hn Hd. unfold ensureFinalizer. destruct (sw_Finalizer net) eqn:Ef.
  - intros [= <- <-]. assert (Heq : nw_finalizer true net = net) by (destruct net; simpl in *; by subst).
    split; [by left|]. intros n [= <-]. by rewrite Heq.
  - unfold mbind, K_bind, callW, PatchNetworkFinalizer, writing. destruct (pop_fault c) as [x c1] eqn:Ex.
    pose proof (pop_net _ _ _ Ex) as Hp. rewrite Hn in Hp.
    destruct x; simpl; rewrite ?Hp, ?Hd; simpl; intros [= <- <-]; simpl; (split; [auto|]); try done.
    by intros n [= <-].
Qed.

Lemma populate_mem net c n c' :
  populateIncumbentNodes net c = (Ok n, c') -> exists l, n = nw_status (ns_incumbents l) net.
Proof.
  unfold populateIncumbentNodes, mbind, K_bind, wrap. destruct (listChildSeiNodes net c) as [[l|e] c1]; simpl; [|done].
  intros [= <- _]. by eexists.
Qed.
Lemma seiNodes_mem now net c n c' :
  reconcileSeiNodes now net c = (Ok n, c') -> exists l, n = nw_status (ns_incumbents l) net.
Proof.
  unfold reconcileSeiNodes. destruct (sw_Deleting net); [apply populate_mem|].
  destruct (sn_Paused _); [apply populate_mem|]. destruct (negb _); [|apply populate_mem].
  unfold mbind, K_bind. destruct (ensureAll now net c) as [[u|e] c1]; [|done].
  destruct (scaleDown net c1) as [[v|e] c2]; [apply populate_mem|done].
Qed.
Lemma internalService_mem net c n c' :
  reconcileInternalService net c = (Ok n, c') -> exists i, n = nw_status (ns_internal i) net.
Proof.
  unfold reconcileInternalService. destruct (SetControllerReference _ _); [|done].
  unfold mbind, K_bind. destruct (wrap _ _ c) as [[s|e] c1]; [|done].
  destruct (wrap _ _ c1) as [[u|e] c2]; [|done]. intros [= <- _]. by eexists.
Qed.

Lemma wrap_ok {A} pre (m : K (W:=W) A) c a c' : wrap pre m c = (Ok a, c') -> m c = (Ok a, c').
Proof. unfold wrap. destruct (m c) as [[b|e] c1]; simpl; [by intros [= <- <-]|done]. Qed.

Lemma updateStatus_net now net c r c' st :
  cl_net c = Some st -> updateStatus now net c = (r, c') ->
  cl_net c' = Some st \/ exists nodes workers, cl_net c' =
    Some (nw_status (fun _ => wire_status (sw_Status (reportStatus now net nodes workers))) st).
Proof.
  intros Hn. unfold updateStatus, mbind, K_bind. destruct (listChildSeiNodes net c) as [[l|e] c1] eqn:E1;
    pose proof (step_net _ _ _ _ (list_keeps net) E1) as H1; [|intros [= _ <-]; left; congruence].
  destruct (orElse ∅ (childWorkerNodes net) c1) as [[ws|e] c2] eqn:E2;
    pose proof (step_net _ _ _ _ (keeps_orElse _ _ (workers_keeps net)) E2) as H2; [|intros [= _ <-]; left; congruence].
  unfold callW, PatchNetworkStatus, writing. destruct (pop_fault c2) as [x c3] eqn:E3.
  pose proof (pop_net _ _ _ E3) as H3. assert (Hc3 : cl_net c3 = Some st) by congruence.
  destruct x; simpl; rewrite ?Hc3; intros [= _ <-]; simpl; [right; by do 2 eexists|right; by do 2 eexists|by left].
Qed.

Lemma reconcileLive_stores now planID net c :
  cl_net c = Some net -> status_ok net -> sw_Deleting net = false ->
  exists net', cl_net (reconcileLive libs Rest now planID net c).2 = Some net' /\ stores now net net'.
Proof.
  intros Hn Hok Hd. unfold reconcileLive. cbv delta [mbind K_bind] beta. cbv beta.
  destruct (ensureFinalizer net c) as [r c1] eqn:E1.
  destruct (ensureFinalizer_net _ _ _ _ Hn Hd E1) as [H1 Hr].
  assert (Hearly : forall c', cl_net c' = cl_net c1 -> exists net', cl_net c' = Some net' /\ stores now net net').
  { intros c' ->. destruct H1 as [->| ->]; eexists; (split; [done|constructor]). }
  destruct r as [n|e]; [|by apply Hearly]. destruct (Hr n eq_refl) as [-> Hc1]. clear Hr H1.
  set (mem := seedAlwaysPresentConditions (nw_finalizer true net)).
  assert (Hin : in_memory net = mem) by (unfold in_memory; by rewrite Hd).
  destruct (wrap _ (syncPausedToChildren mem _) c1) as [[u|e] c2] eqn:E2;
    pose proof (step_net _ _ _ _ (keeps_wrap _ _ (pause_keeps _ _)) E2) as H2; [|by apply Hearly].
  destruct (wrap _ (reconcileInternalService mem) c2) as [[n2|e] c3] eqn:E3;
    pose proof (step_net _ _ _ _ (keeps_wrap _ _ (internalService_keeps _)) E3) as H3; [|apply Hearly; simpl; congruence].
  apply wrap_ok, internalService_mem in E3 as [i ->].
  destruct (wrap _ (reconcileSeiNodes now _) c3) as [[n3|e] c4] eqn:E4;
    pose proof (step_net _ _ _ _ (keeps_wrap _ _ (seiNodes_keeps _ _)) E4) as H4; [|apply Hearly; simpl; congruence].
  apply wrap_ok, seiNodes_mem in E4 as [l ->].
  set (mem3 := nw_status (ns_incumbents l) (nw_status (ns_internal i) mem)) in *.
  assert (Hcourse : same_course (in_memory net) mem3) by (rewrite Hin; done).
  assert (Hok3 : status_ok mem3).
  { eapply status_ok_course; [exact Hcourse|]. eapply status_ok_course; [|exact Hok].
    rewrite Hin. unfold mem. etrans; [|apply same_course_seeded]. done. }
  destruct (wrap _ (reconcilePlan libs Rest now planID mem3) c4) as [[[n5 res]|e] c5] eqn:E5;
    pose proof (step_net _ _ _ _ (keeps_wrap _ _ (plan_keeps now planID _ Hok3)) E5) as H5; [|apply Hearly; simpl; congruence].
  apply wrap_ok in E5. pose proof (triple_plan_outcome libs Rest now planID mem3 Hok3 c4 I) as Hout. rewrite E5 in Hout.
  simpl in Hout. assert (Hc5 : cl_net c5 = Some (nw_finalizer true net)) by congruence.
  destruct (wrap _ (updateStatus now n5) c5) as [r6 c6] eqn:E6.
  assert (H6 : exists r', updateStatus now n5 c5 = (r', c6)).
  { unfold wrap in E6. destruct (updateStatus now n5 c5) as [r' c']. injection E6 as _ ->. by eexists. }
  destruct H6 as [r' H6]. pose proof (updateStatus_net _ _ _ _ _ _ Hc5 H6) as Hup.
  assert (Hfin : exists net', cl_net c6 = Some net' /\ stores now net net').
  { destruct Hup as [Hup|(nodes & workers & Hup)]; rewrite Hup; eexists; (split; [done|]).
    - apply stores_finalizer.
    - eapply (stores_status now net mem3); [done| |exact Hcourse|by rewrite Hin..|exact Hout].
      exists (fun s => ns_incumbents l (ns_internal i s)). by rewrite Hin. }
  by destruct r6 as [u'|e].
Qed.

Lemma deletion_stores now net c :
  cl_net c = Some net -> sw_Deleting net = true ->
  cl_net (handleDeletion net c).2 = None \/
  exists net', cl_net (handleDeletion net c).2 = Some net' /\ stores now net net'.
Proof.
  intros Hn Hd. unfold handleDeletion. destruct (sw_Finalizer net); simpl; [|right; eexists; split; [done|constructor]].
  cbv delta [mbind K_bind] beta. cbv beta.
  destruct (wrap _ (callW (PatchNetworkStatus _)) c) as [r1 c1] eqn:E1.
  assert (H1 : exists net1, cl_net c1 = Some net1 /\ sw_Deleting net1 = true /\ stores now net net1).
  { unfold wrap, callW, PatchNetworkStatus, writing in E1. destruct (pop_fault c) as [x c0] eqn:Ex.
    pose proof (pop_net _ _ _ Ex) as Hp. rewrite Hn in Hp. rewrite Hp in E1.
    destruct x; injection E1 as _ <-; eexists; (split; [done|]); (split; [done|]); by constructor. }
  destruct H1 as (net1 & Hc1 & Hd1 & Hst).
  assert (Hend : forall c', cl_net c' = cl_net c1 ->
    cl_net c' = None \/ exists net', cl_net c' = Some net' /\ stores now net net') by (intros c' ->; right; by eexists).
  destruct r1 as [u|e]; [|by apply Hend].
  set (orphan := if decide _ then _ else _).
  assert (Ho : keeps_net orphan).
  { unfold orphan. destruct (decide _); [done|]. apply keeps_bind; [apply keeps_wrap, orphan_keeps|]. intros _.
    apply keeps_wrap, orphanService_keeps. }
  destruct (orphan c1) as [[v|e] c2] eqn:E2; pose proof (step_net _ _ _ _ Ho E2) as H2; [|by apply Hend].
  assert (Hfin : forall c3 e3, callW (PatchNetworkFinalizer false) c2 = (e3, c3) -> cl_net c3 = None \/ cl_net c3 = cl_net c1).
  { intros c3 e3. unfold callW, PatchNetworkFinalizer, writing. destruct (pop_fault c2) as [x c0] eqn:Ex.
    pose proof (pop_net _ _ _ Ex) as Hp. assert (Hc0 : cl_net c0 = Some net1) by congruence.
    destruct x; simpl; rewrite ?Hc0; simpl; rewrite ?Hd1; intros [= _ <-]; simpl; [by left..|right; congruence]. }
  destruct (callW (PatchNetworkFinalizer false) c2) as [[w|e] c3] eqn:E3; destruct (Hfin _ _ eq_refl) as [Hx|Hx];
    simpl; first [by left|by apply Hend].
Qed.

Lemma reconcile_stores now planID net c :
  cl_net c = Some net -> status_ok net ->
  cl_net (ReconcileNetwork libs Rest now planID c).2 = None \/
  exists net', cl_net (ReconcileNetwork libs Rest now planID c).2 = Some net' /\ stores now net net'.
Proof.
  intros Hn Hok. unfold ReconcileNetwork, GetNetwork, mbind, K_bind, call, reading.
  destruct (pop_fault c) as [x c1] eqn:Ex. pose proof (pop_net _ _ _ Ex) as Hp. rewrite Hn in Hp.
  destruct x; simpl; [|right; rewrite Hp; eexists; (split; [done|constructor])..].
  rewrite Hp. destruct (sw_Deleting net) eqn:Hd; [by apply deletion_stores|right; by apply reconcileLive_stores].
Qed.

(** Without the object a reconcile only looks. *)
Lemma reconcile_absent now planID c :
  cl_net c = None ->
  cl_net (ReconcileNetwork libs Rest now planID c).2 = None /\
  cl_nodes (ReconcileNetwork libs Rest now planID c).2 = cl_nodes c /\
  cl_log (ReconcileNetwork libs Rest now planID c).2 = cl_log c.
Proof.
  intros Hn. unfold ReconcileNetwork, GetNetwork, mbind, K_bind, call, reading, pop_fault.
  destruct (cl_faults c) as [|[] fs]; simpl; by rewrite ?Hn.
Qed.

End Stored.
