(* ===== verification/NetworkRun.v ===== *)
(** * A SeiNetwork over its life

    Runs of the controller: reconciles, with any calls failing, interleaved with
    whatever users and other controllers do to the namespace. What holds of the
    stored network and of every write in such a run, and the concrete network the
    statements are tried on. *)

From stdpp Require Import base list strings gmap pretty sorting.
From Stdlib Require Import ZArith Lia.
From S2P Require Import Prelude Api NodeState Platform Executor Config Task Planner NodeTask Resolve NetApi Network NetworkSample NetworkSpec.

(** ** Runs *)
Section Run.
Context {W : Type} {SC : StatusConditions} {OR : OwnerRefs} {C : SeiConfig} {H : Hashes} {NS : NodeSidecars W}.
Context (libs : ClientLibs) (Rest : TaskRuntime (cluster W)).
Implicit Types (net : SeiNetwork) (c : cluster W).

(** The status of a new network. *)
Definition new_network_status : SeiNetworkStatus :=
  mkNetworkStatus 0 GroupPhaseNone 0 0 0 [] None None [] None [] None [].

(** What others do to the object: they edit all but its identity and its status,
    which the controller owns; a deletion is never taken back; an object that is
    gone can be created anew. *)
Inductive moves : option SeiNetwork -> option SeiNetwork -> Prop :=
| moves_edit net net' :
    sw_Name net' = sw_Name net -> sw_Namespace net' = sw_Namespace net -> sw_UID net' = sw_UID net ->
    sw_CreationTimestamp net' = sw_CreationTimestamp net -> sw_Status net' = sw_Status net ->
    (sw_Deleting net = true -> sw_Deleting net' = true) -> moves (Some net) (Some net')
| moves_gone o : moves o None
| moves_new net' : sw_Status net' = new_network_status -> moves None (Some net').

(** Anything may happen to the rest of the namespace: children, Service, pods,
    sidecars and the fate of the next calls. *)
Definition world_moves c c' : Prop := keyed (cl_nodes c') /\ moves (cl_net c) (cl_net c').

Inductive net_step : cluster W -> cluster W -> Prop :=
| step_reconcile now planID c : net_step c (ReconcileNetwork libs Rest now planID c).2
| step_world c c' : world_moves c c' -> net_step c c'.

Definition net_run : cluster W -> cluster W -> Prop := rtc net_step.
(** A run in which the object is never gone. *)
Definition lives : cluster W -> cluster W -> Prop := rtc (fun c c' => net_step c c' /\ is_Some (cl_net c')).

Definition network_ok c : Prop :=
  keyed (cl_nodes c) /\ forall net, cl_net c = Some net -> status_ok net.

Context {SCL : StatusConditionsLaws SC} {ORL : OwnerRefsLaws OR}.

Lemma new_status_ok net : sw_Status net = new_network_status -> status_ok net.
Proof.
  intros Hs. unfold status_ok. rewrite Hs. simpl. apply isConditionTrue_found. unfold isConditionTrue. by rewrite Hs.
Qed.

(** Only the plan and the conditions matter to [status_ok]. *)
Lemma status_ok_ext a b :
  sns_Plan (sw_Status b) = sns_Plan (sw_Status a) -> sns_Conditions (sw_Status b) = sns_Conditions (sw_Status a) ->
  status_ok a -> status_ok b.
Proof. unfold status_ok, hasConditionTrue, net_cond. by intros -> ->. Qed.

Lemma stores_ok now net net' : stores now net net' -> status_ok net -> status_ok net'.
Proof.
  intros Hst Hok. destruct Hst as [| |Hd|mem mem' nodes workers _ _ _ _ _ (Ho & _)]; [done|by eapply status_ok_ext..|].
  by eapply status_ok_ext; [..|exact (status_ok_course _ _ (same_course_report now mem' nodes workers) Ho)].
Qed.

Lemma moves_ok o o' : moves o o' ->
  (forall net, o = Some net -> status_ok net) -> forall net, o' = Some net -> status_ok net.
Proof.
  intros Hm Hok net ->. inversion Hm as [n n' Hnm Hns Hu Hc Hs Hd| |n' Hs]; subst; [|by apply new_status_ok].
  eapply status_ok_ext; [..|by apply (Hok n)]; by rewrite Hs.
Qed.

Lemma step_ok c c' : net_step c c' -> network_ok c -> network_ok c'.
Proof.
  intros Hstep [Hk Hok]. destruct Hstep as [now planID c|c c' [Hk' Hm]]; [|by split; [|eapply moves_ok]].
  destruct (cl_net c) as [net|] eqn:Hn.
  - destruct (reconcile_logged libs Rest now planID net c Hn Hk (Hok _ eq_refl)) as [Hk' _]. split; [done|].
    intros n' Hn'. destruct (reconcile_stores libs Rest now planID net c Hn (Hok _ eq_refl)) as [Hx|(n2 & Hx & Hst)];
      rewrite Hx in Hn'; [done|]. injection Hn' as ->. eapply stores_ok; [done|by apply Hok].
  - destruct (reconcile_absent libs Rest now planID c Hn) as (H1 & H2 & _). split; [by rewrite H2|]. by rewrite H1.
Qed.
Lemma run_ok c c' : net_run c c' -> network_ok c -> network_ok c'.
Proof. induction 1; [done|]. intros Ho. by apply IHrtc, (step_ok x). Qed.

(** Nothing has been created yet: a namespace without the network. *)
Definition fresh c : Prop := keyed (cl_nodes c) /\ cl_net c = None.
Lemma fresh_ok c : fresh c -> network_ok c.
Proof. intros [Hk Hn]. split; [done|]. by rewrite Hn. Qed.

(** C21: Every write of a reconcile is justified, and the writes are all that
    becomes of the children. In any run of the controller from a namespace without
    the network, with calls failing or losing their answer and others editing at
    will: a reconcile only pauses or resumes a child it owns to match the spec,
    creates or syncs the desired child of an ordinal below the replica count (an
    unowned one is adopted, another controller's never touched), deletes an owned
    child whose ordinal is beyond the replica count, sets the peers of children
    under an active ceremony plan, releases the children under Retain, or tears
    down the founding set of a ceremony that lost a validator, which has no child
    that predates the network. Nothing is created, synced or scaled down while the
    network is paused, deleted or holds a plan. *)
Theorem network_writes_justified now planID c0 c net :
  fresh c0 -> net_run c0 c -> cl_net c = Some net ->
  exists l : list effect, cl_log (ReconcileNetwork libs Rest now planID c).2 = cl_log c ++ l /\
    Forall (justified now (in_memory net) (cl_nodes c)) l /\
    history (cl_nodes c) l (cl_nodes (ReconcileNetwork libs Rest now planID c).2).
Proof.
  intros Hf Hrun Hn. destruct (run_ok c0 c Hrun (fresh_ok c0 Hf)) as [Hk Hok].
  by destruct (reconcile_logged libs Rest now planID net c Hn Hk (Hok _ Hn)) as [_ ?].
Qed.

(** *** The finished ceremony *)
Definition ceremony_done net : Prop := hasConditionTrue net ConditionGenesisCeremonyComplete = true.

Lemma ceremony_done_course a b : same_course a b -> ceremony_done a -> ceremony_done b.
Proof. unfold ceremony_done. by intros (_ & _ & _ & _ & _ & _ & _ & _ & ->). Qed.
Lemma ceremony_done_ext a b :
  sns_Conditions (sw_Status b) = sns_Conditions (sw_Status a) -> ceremony_done a -> ceremony_done b.
Proof. unfold ceremony_done, hasConditionTrue, net_cond. by intros ->. Qed.
Lemma ceremony_done_memory net : ceremony_done net -> ceremony_done (in_memory net).
Proof.
  intros Hd. unfold in_memory. destruct (sw_Deleting net); [done|].
  eapply ceremony_done_course; [apply same_course_seeded|]. by eapply ceremony_done_ext.
Qed.

Lemma stores_done now net net' : stores now net net' -> ceremony_done net -> ceremony_done net'.
Proof.
  intros Hst Hd. destruct Hst as [| |_|mem mem' nodes workers _ _ Hc _ _ (_ & Hsame & _)]; [done|by eapply ceremony_done_ext..|].
  assert (Hm : ceremony_done mem) by (eapply ceremony_done_course; [exact Hc|by apply ceremony_done_memory]).
  rewrite (Hsame Hm). eapply ceremony_done_ext; [|exact (ceremony_done_course _ _ (same_course_report now mem nodes workers) Hm)].
  done.
Qed.

Lemma ceremony_done_no_plan net : status_ok net -> ceremony_done net -> sns_Plan (sw_Status net) = None.
Proof. unfold status_ok, ceremony_done. destruct (sns_Plan _); [|done]. intros (_ & _ & _ & _ & Hf). by rewrite Hf. Qed.

Lemma lives_done c c' net :
  lives c c' -> network_ok c -> cl_net c = Some net -> ceremony_done net ->
  exists net', cl_net c' = Some net' /\ ceremony_done net'.
Proof.
  intros Hl. revert net. induction Hl as [c|c c1 c2 [Hstep [n1 Hs]] _ IH]; intros net Hok Hn Hd; [by eexists|].
  apply (IH n1); [by eapply step_ok|done|]. destruct Hstep as [now planID c|c c' [_ Hm]].
  - destruct (reconcile_stores libs Rest now planID net c Hn (proj2 Hok _ Hn)) as [Hx|(n & Hx & Hst)];
      rewrite Hs in Hx; [done|]. injection Hx as ->. by eapply stores_done.
  - rewrite Hn, Hs in Hm. inversion Hm as [? ? ? ? ? ? Hst| |]; subst. by eapply ceremony_done_ext; [rewrite Hst|].
Qed.

Lemma justified_done now net m0 e :
  status_ok net -> ceremony_done net -> justified now (in_memory net) m0 e ->
  match e with EPeers _ _ => False | EDelete old => (sn_Replicas (sw_Spec net) <= default 0%Z (scan_int (default "" (ch_Labels old !! seinetworkOrdinalLabel))))%Z | _ => True end.
Proof.
  intros Hok Hd Hj.
  assert (Hsp : sw_Spec (in_memory net) = sw_Spec net /\ sns_Plan (sw_Status (in_memory net)) = sns_Plan (sw_Status net)).
  { unfold in_memory. destruct (sw_Deleting net); [done|].
    by destruct (same_course_seeded (nw_finalizer true net)) as (-> & -> & _). }
  destruct Hsp as [Hsp Hpl]. rewrite (ceremony_done_no_plan net Hok Hd) in Hpl.
  assert (Hact : ~ plan_active (in_memory net)) by (unfold plan_active; rewrite Hpl; by intros (? & ? & _)).
  destruct Hj as [| | |old ord _ _ Ho Hs|old Ha|old ps Ha|]; try done. rewrite Hs, <- Hsp. simpl. lia.
Qed.

(** C23: The genesis ceremony is run once. Once a reconcile has stored
    GenesisCeremonyComplete=True, then for as long as the object lives, whatever
    calls fail and whatever others do, the condition stays True and no plan is
    stored; no later reconcile touches a child's peers or tears the set down: the
    only children it deletes are those whose ordinal is beyond the replica count. *)
Theorem ceremony_done_for_life now planID c0 c c' net net' :
  fresh c0 -> net_run c0 c -> cl_net c = Some net -> ceremony_done net ->
  lives c c' -> cl_net c' = Some net' ->
  ceremony_done net' /\ sns_Plan (sw_Status net') = None /\
  exists l : list effect, cl_log (ReconcileNetwork libs Rest now planID c').2 = cl_log c' ++ l /\
    Forall (fun e => match e with
      | EPeers _ _ => False
      | EDelete old => (sn_Replicas (sw_Spec net') <=
          default 0%Z (scan_int (default "" (ch_Labels old !! seinetworkOrdinalLabel))))%Z
      | _ => True end) l.
Proof.
  intros Hf Hrun Hn Hd Hl Hn'. pose proof (run_ok c0 c Hrun (fresh_ok c0 Hf)) as Hok.
  assert (Hok' : network_ok c').
  { eapply run_ok; [|exact Hok]. eapply rtc_subrel; [|exact Hl]. by intros ? ? [? _]. }
  destruct (lives_done c c' net Hl Hok Hn Hd) as (n & Hx & Hd'). rewrite Hn' in Hx. injection Hx as <-.
  pose proof (proj2 Hok' _ Hn') as Hst. split; [done|]. split; [by apply ceremony_done_no_plan|].
  destruct (reconcile_logged libs Rest now planID net' c' Hn' (proj1 Hok') Hst) as (_ & l & Hlog & Hj & _).
  exists l. split; [done|]. eapply Forall_impl; [exact Hj|]. intros e He.
  exact (justified_done now net' (cl_nodes c') e Hst Hd' He).
Qed.

(** *** Adopted children *)

(** A property of the child at a name that no write breaks holds after a history. *)
Lemma history_inv (I : Child -> Prop) m l m' k ch :
  history m l m' -> keyed m -> m !! k = Some ch -> I ch ->
  Forall (fun e => match e with
    | ECreate _ => True
    | EUpdate old new | EPeers old new | ERelease old new => I old -> I new
    | EDelete old => I old -> False
    end) l ->
  exists ch', m' !! k = Some ch' /\ I ch' /\ keyed m'.
Proof.
  intros Hh Hk Hc HI. induction Hh as [|l m1 e m2 Hh IH Ha]; intros Hall; [by exists ch|].
  apply Forall_app in Hall as [Hall He]. destruct (IH Hall) as (ch1 & Hc1 & HI1 & Hk1).
  rewrite Forall_singleton in He. pose proof (acts_keyed _ _ _ Ha Hk1) as Hk2.
  destruct Ha as [new Hnone|old new e Hold Hname Hin|old Hold].
  - exists ch1. rewrite lookup_insert_ne; [done|]. intros Heq. congruence.
  - destruct (decide (ch_Name old = k)) as [<-|Hne]; [|exists ch1; by rewrite lookup_insert_ne].
    exists new. rewrite lookup_insert_eq. split; [done|]. rewrite Hc1 in Hold. injection Hold as ->. split; [|done].
    by destruct Hin as [<-|[<-|[<-|[]]]]; apply He.
  - destruct (decide (ch_Name old = k)) as [<-|Hne]; [rewrite Hc1 in Hold; injection Hold as ->; by destruct He|].
    exists ch1. split; [|done]. destruct (ch_Finalizer old); [by rewrite lookup_insert_ne|by rewrite lookup_delete_ne].
Qed.

Lemma seiNodeLabels_ordinal net i : seiNodeLabels net i !! seinetworkOrdinalLabel = Some (pretty i).
Proof. unfold seiNodeLabels. do 3 (rewrite lookup_insert_ne by done). by rewrite lookup_insert_eq. Qed.

(** What makes a child the object it is: no update changes it. *)
Definition same_object (a b : Child) : Prop :=
  n_CreationTimestamp (ch_Node b) = n_CreationTimestamp (ch_Node a) /\ ch_Status b = ch_Status a /\
  ch_Deleting b = ch_Deleting a /\ ch_DataVolume b = ch_DataVolume a /\ sp_Validator (ch_Spec b) = sp_Validator (ch_Spec a).

Definition adopted net (ch0 ch : Child) : Prop :=
  same_object ch0 ch /\ predates net ch = true /\
  exists i, i < Z.to_nat (sn_Replicas (sw_Spec net)) /\ ch_Labels ch !! seinetworkOrdinalLabel = Some (pretty i).

Lemma keeps_same_object old new : keeps_identity old new -> same_object old new /\ (forall net, predates net new = predates net old).
Proof. intros (? & ? & ? & ? & ? & ? & ? & ? & ? & ->). done. Qed.

Lemma justified_adopted now net m0 ch0 e :
  (sn_Replicas (sw_Spec net) <= 2 ^ 31)%Z -> justified now net m0 e ->
  match e with
  | ECreate _ => True
  | EUpdate old new | EPeers old new | ERelease old new => adopted net ch0 old -> adopted net ch0 new
  | EDelete old => adopted net ch0 old -> False
  end.
Proof.
  intros Hr Hj. destruct Hj as [old|i ch|i de old ch ad new _ Hi Hde Hn Hdel Had Hs|old ord _ _ Hord Hs|old _ _ _ _ Hpre|old ps|old]; try done.
  - intros ((H1 & H2 & H3 & H4 & H5) & Hp & _). pose proof (adoptChild_ok net _ _ _ Had) as [Hk _].
    pose proof (syncChild_identity net de old ch ad Hk) as Hks. pose proof (syncChild_labels net de ch ad) as Hlb.
    rewrite Hs in Hks, Hlb. simpl in Hks, Hlb. apply keeps_same_object in Hks as [(G1 & G2 & G3 & G4 & G5) Hpre].
    split; [split_and!; congruence|]. split; [by rewrite Hpre|]. exists i. split; [done|].
    by rewrite Hlb, (desiredChild_labels net _ _ Hde), seiNodeLabels_ordinal.
  - intros (_ & _ & i & Hi & Hl). rewrite Hl in Hs. simpl in Hs. rewrite scan_int_pretty in Hs by lia.
    injection Hs as <-. lia.
  - intros (_ & Hp & _). congruence.
Qed.

(** C22: A validator that was adopted is never deleted. Whatever the state of the
    ceremony, however many validators are lost, and whatever calls fail, a
    reconcile leaves a child that is older than the network and whose ordinal is
    below the replica count in place, with its creation, deletion mark, status, data
    volume and validator settings as they were. *)
Theorem adopted_child_survives now planID c0 c net k ch i :
  fresh c0 -> net_run c0 c -> cl_net c = Some net -> (sn_Replicas (sw_Spec net) <= 2 ^ 31)%Z ->
  cl_nodes c !! k = Some ch -> predates net ch = true ->
  ch_Labels ch !! seinetworkOrdinalLabel = Some (pretty i) -> i < Z.to_nat (sn_Replicas (sw_Spec net)) ->
  exists ch', cl_nodes (ReconcileNetwork libs Rest now planID c).2 !! k = Some ch' /\ same_object ch ch'.
Proof.
  intros Hf Hrun Hn Hr Hk Hp Hl Hi. destruct (run_ok c0 c Hrun (fresh_ok c0 Hf)) as [Hkey Hok].
  destruct (reconcile_logged libs Rest now planID net c Hn Hkey (Hok _ Hn)) as (_ & l & _ & Hj & Hh).
  assert (Hmem : sw_Spec (in_memory net) = sw_Spec net /\ sw_CreationTimestamp (in_memory net) = sw_CreationTimestamp net).
  { unfold in_memory. destruct (sw_Deleting net); [done|].
    by destruct (same_course_seeded (nw_finalizer true net)) as (_ & -> & _ & _ & _ & _ & -> & _). }
  destruct Hmem as [Hsp Hct].
  destruct (history_inv (adopted (in_memory net) ch) _ _ _ k ch Hh Hkey Hk) as (ch' & Hc' & (Hs & _) & _).
  - split; [by split_and!|]. split; [unfold predates; by rewrite Hct|]. exists i. by rewrite Hsp.
  - eapply Forall_impl; [exact Hj|]. intros e He. apply (justified_adopted now (in_memory net) (cl_nodes c) ch e); [|done].
    by rewrite Hsp.
  - by exists ch'.
Qed.

(** *** The status as a reader sees it *)
Definition always_present : list string :=
  [ConditionGenesisCeremonyComplete; ConditionPaused; ConditionConfigValuesValid; ConditionPlanInProgress;
   ConditionNodesReady; ConditionRolloutInProgress; ConditionProducing].

(** Statuses a reconcile has reported: those of other phases than none yet and
    Terminating. *)
Definition reported (s : SeiNetworkStatus) : Prop := ~ In (sns_Phase s) [GroupPhaseNone; GroupPhaseTerminating].

(** The fields of a reported status agree with each other. *)
Record status_typed net : Prop := {
  typed_course : status_ok net;
  typed_height : forall o, sns_ObservedHeight (sw_Status net) = Some o -> (0 <= oh_Height o)%Z;
  typed_seven : reported (sw_Status net) -> forall t, In t always_present -> is_Some (net_cond net t);
  typed_ready : reported (sw_Status net) ->
    sns_ReadyReplicas (sw_Status net) = Z.of_nat (length (List.filter gns_Ready (sns_Nodes (sw_Status net))));
  typed_uptodate : reported (sw_Status net) ->
    (0 <= sns_UpToDateReplicas (sw_Status net) <= Z.of_nat (length (sns_Nodes (sw_Status net))))%Z;
  typed_nodes_ready : reported (sw_Status net) ->
    (hasConditionTrue net ConditionNodesReady = true <->
     (sns_Replicas (sw_Status net) <= sns_ReadyReplicas (sw_Status net))%Z);
  typed_rollout : reported (sw_Status net) ->
    (hasConditionTrue net ConditionRolloutInProgress = true <->
     sns_Nodes (sw_Status net) <> [] /\ (sns_UpToDateReplicas (sw_Status net) < sns_Replicas (sw_Status net))%Z);
  typed_producing : reported (sw_Status net) -> hasConditionTrue net ConditionProducing = true ->
    exists o, sns_ObservedHeight (sw_Status net) = Some o /\ (0 < oh_Height o)%Z;
  typed_paused : reported (sw_Status net) ->
    (sns_Phase (sw_Status net) = GroupPhasePaused <-> hasConditionTrue net ConditionPaused = true);
  typed_phase_ready : sns_Phase (sw_Status net) = GroupPhaseReady ->
    sns_Plan (sw_Status net) = None /\ sns_Nodes (sw_Status net) <> [] /\
    sns_ReadyReplicas (sw_Status net) = sns_Replicas (sw_Status net);
}.

Lemma typed_unreported net :
  status_ok net -> (forall o, sns_ObservedHeight (sw_Status net) = Some o -> (0 <= oh_Height o)%Z) ->
  In (sns_Phase (sw_Status net)) [GroupPhaseNone; GroupPhaseTerminating] -> status_typed net.
Proof.
  intros Hok Hh Hp. constructor; [done|done|by intros []..|]. intros Hr. rewrite Hr in Hp. by destruct Hp as [|[|[]]].
Qed.

(** A condition that is there stays there. *)
Lemma cond_set_some t st r m net t' : is_Some (net_cond net t') -> is_Some (net_cond (setCondition t st r m net) t').
Proof.
  intros Hs. destruct (decide (t' = t)) as [->|Hne]; [rewrite net_cond_set; by eexists|by rewrite net_cond_set_other].
Qed.
Lemma cond_set_now t st r m net : is_Some (net_cond (setCondition t st r m net) t).
Proof. rewrite net_cond_set. by eexists. Qed.
Lemma cond_seed_some t r m net t' : is_Some (net_cond net t') -> is_Some (net_cond (seedConditionIfAbsent t r m net) t').
Proof. unfold seedConditionIfAbsent. destruct (net_cond net t); [done|apply cond_set_some]. Qed.
Lemma cond_seed_now t r m net : is_Some (net_cond (seedConditionIfAbsent t r m net) t).
Proof. unfold seedConditionIfAbsent. destruct (net_cond net t) eqn:E; [by rewrite E|apply cond_set_now]. Qed.

Lemma hasTrue_some net t : hasConditionTrue net t = true -> is_Some (net_cond net t).
Proof. unfold hasConditionTrue. by destruct (net_cond net t). Qed.
Lemma hasReason_some net t r : hasConditionReason net t r = true -> is_Some (net_cond net t).
Proof. unfold hasConditionReason. by destruct (net_cond net t). Qed.

Lemma seeded_present net t : In t always_present -> is_Some (net_cond (seedAlwaysPresentConditions net) t).
Proof.
  assert (Hg : is_Some (net_cond (setGenesisCeremonyCondition net) ConditionGenesisCeremonyComplete)).
  { unfold setGenesisCeremonyCondition. destruct (hasConditionTrue net ConditionGenesisCeremonyComplete) eqn:E1; [by apply hasTrue_some|].
    destruct (hasConditionTrue net ConditionPlanInProgress); [apply cond_set_now|].
    destruct (_ || _) eqn:E2; [|apply cond_set_now]. by apply orb_true_iff in E2 as [E2|E2]; eapply hasReason_some. }
  unfold seedAlwaysPresentConditions, setConfigValuesValidCondition, setPausedCondition. simpl.
  intros [<-|[<-|[<-|[<-|[<-|[<-|[<-|[]]]]]]]];
    repeat first [apply cond_seed_now | apply cond_seed_some]; case_match;
    repeat first [apply cond_set_now | apply cond_set_some | exact Hg | case_match].
Qed.

Lemma seeded_paused net :
  hasConditionTrue (seedAlwaysPresentConditions net) ConditionPaused = sn_Paused (sw_Spec net).
Proof.
  unfold seedAlwaysPresentConditions. rewrite !hasTrue_seed. unfold setConfigValuesValidCondition, setPausedCondition.
  destruct (same_course_genesis net) as (_ & -> & _). destruct (sn_Paused (sw_Spec net)); case_match; rewrite hasTrue_set_other by done; apply hasTrue_set.
Qed.

(** [b] is [a] with another entry for condition [t]. *)
Definition only_cond (t : string) (a b : SeiNetwork) : Prop :=
  (forall t', t' <> t -> net_cond b t' = net_cond a t') /\ is_Some (net_cond b t) /\
  exists cs, b = nw_status (ns_conds cs) a.

Lemma only_cond_set t st r m net : only_cond t net (setCondition t st r m net).
Proof. split; [by intros t' Ht; apply net_cond_set_other|]. split; [apply cond_set_now|by eexists]. Qed.

Lemma only_cond_true t t' a b : only_cond t a b -> t' <> t -> hasConditionTrue b t' = hasConditionTrue a t'.
Proof. intros (Hc & _) Ht. unfold hasConditionTrue. by rewrite Hc. Qed.
Lemma only_cond_some t a b t' : only_cond t a b -> is_Some (net_cond a t') -> is_Some (net_cond b t').
Proof. intros (Hc & Hs & _) Ht. destruct (decide (t' = t)) as [->|Hne]; [done|by rewrite Hc]. Qed.

Lemma nodesReady_only net ready desired nodes :
  only_cond ConditionNodesReady net (setNodesReadyCondition net ready desired nodes) /\
  hasConditionTrue (setNodesReadyCondition net ready desired nodes) ConditionNodesReady = (desired <=? ready)%Z.
Proof.
  unfold setNodesReadyCondition. destruct (Z.ltb_spec ready desired).
  - rewrite (proj2 (Z.leb_gt _ _)) by lia. case_match. split; [apply only_cond_set|apply hasTrue_set].
  - rewrite (proj2 (Z.leb_le _ _)) by lia. split; [apply only_cond_set|apply hasTrue_set].
Qed.

Lemma rollout_only net up desired n :
  only_cond ConditionRolloutInProgress net (setRolloutInProgressCondition net up desired n) /\
  hasConditionTrue (setRolloutInProgressCondition net up desired n) ConditionRolloutInProgress =
    (0 <? n) && (up <? desired)%Z.
Proof.
  unfold setRolloutInProgressCondition. destruct (_ && _); (split; [apply only_cond_set|apply hasTrue_set]).
Qed.

(** *** The height readings *)
Lemma readHeights_nonneg now nodes :
  (0 <= hr_highestFresh (readHeights nodes now) <= hr_highestAny (readHeights nodes now))%Z /\
  (0 <= hr_fresh (readHeights nodes now))%Z /\ (0 <= hr_stale (readHeights nodes now))%Z.
Proof.
  unfold readHeights. assert (Hinit : (0 <= hr_highestFresh (mkReadings 0 0 0 0) <= hr_highestAny (mkReadings 0 0 0 0))%Z /\
    (0 <= hr_fresh (mkReadings 0 0 0 0))%Z /\ (0 <= hr_stale (mkReadings 0 0 0 0))%Z) by (simpl; lia).
  revert Hinit. generalize (mkReadings 0 0 0 0). induction nodes as [|ch nodes IH]; intros r Hr; simpl; [done|].
  apply IH. unfold readHeight. destruct (ch_CommittedHeight ch), (ch_CommittedHeightTime ch); try done.
  destruct (_ <? _)%Z; simpl; lia.
Qed.

Lemma newMark_nonneg prev r now :
  (forall o, prev = Some o -> (0 <= oh_Height o)%Z) -> (0 <= hr_highestFresh r)%Z -> (0 <= oh_Height (newMark prev r now))%Z.
Proof. intros Hp Hr. unfold newMark. destruct prev as [o|]; [|done]. destruct (_ || _); [done|by apply Hp]. Qed.

Lemma advanced_positive prev r now :
  (forall o, prev = Some o -> (0 <= oh_Height o)%Z) ->
  heightAdvanced prev r = true -> (0 < oh_Height (newMark prev r now))%Z.
Proof.
  unfold heightAdvanced, newMark. destruct prev as [o|]; intros Hp; [|by intros ?%Z.ltb_lt].
  specialize (Hp o eq_refl). intros Ha. rewrite Ha. simpl. apply Z.ltb_lt in Ha. lia.
Qed.

(** Producing changes its condition and the mark; True needs a mark above zero. *)
Definition produces a b : Prop :=
  (forall t', t' <> ConditionProducing -> net_cond b t' = net_cond a t') /\
  is_Some (net_cond b ConditionProducing) /\
  (exists cs h, b = nw_status (fun s => ns_height h (ns_conds cs s)) a) /\
  ((forall o, sns_ObservedHeight (sw_Status a) = Some o -> (0 <= oh_Height o)%Z) ->
   (forall o, sns_ObservedHeight (sw_Status b) = Some o -> (0 <= oh_Height o)%Z) /\
   (hasConditionTrue b ConditionProducing = true ->
    exists o, sns_ObservedHeight (sw_Status b) = Some o /\ (0 < oh_Height o)%Z)).

Lemma produces_false net re m : produces net (producing ConditionFalse re m net).
Proof.
  split; [intros t' Ht; by apply net_cond_set_other|]. split; [apply cond_set_now|]. split.
  - exists (sns_Conditions (sw_Status (producing ConditionFalse re m net))), (sns_ObservedHeight (sw_Status net)).
    unfold producing, setCondition. by destruct net as [? ? ? ? ? ? ? ? []].
  - intros Hp. split; [exact Hp|]. unfold producing. by rewrite hasTrue_set.
Qed.
Lemma produces_mark net mark st re m :
  ((forall o, sns_ObservedHeight (sw_Status net) = Some o -> (0 <= oh_Height o)%Z) ->
   (0 <= oh_Height mark)%Z /\ (st = ConditionTrue -> (0 < oh_Height mark)%Z)) ->
  produces net (producing st re m (nw_status (ns_height (Some mark)) net)).
Proof.
  intros Hm. split; [intros t' Ht; by apply (net_cond_set_other _ _ _ _ _ (nw_status (ns_height (Some mark)) net))|].
  split; [apply cond_set_now|]. split; [by do 2 eexists|]. intros Hp. destruct (Hm Hp) as [H0 H1].
  split; [by intros o [= <-]|]. unfold producing. rewrite hasTrue_set. intros Hb%bool_decide_eq_true.
  exists mark. split; [done|by apply H1].
Qed.

Lemma setProducing_produces net nodes now : produces net (setProducingCondition net nodes now).
Proof.
  unfold setProducingCondition. destruct nodes as [|x l]; [apply produces_false|].
  pose proof (readHeights_nonneg now (x :: l)) as (Hr & _ & _). set (r := readHeights (x :: l) now) in *.
  destruct (hr_fresh r =? 0)%Z; [destruct (hr_stale r =? 0)%Z; apply produces_false|].
  set (prev := sns_ObservedHeight (sw_Status net)).
  assert (Hnn : (forall o, prev = Some o -> (0 <= oh_Height o)%Z) -> (0 <= oh_Height (newMark prev r now))%Z)
    by (intros Hp; apply newMark_nonneg; [done|lia]).
  destruct (heightAdvanced prev r) eqn:Ea.
  { apply produces_mark. intros Hp. split; [by apply Hnn|]. intros _. by apply advanced_positive. }
  destruct (_ <=? _)%Z; [|destruct (CommitsOnDemand _); apply produces_mark; intros Hp; (split; [by apply Hnn|done])].
  destruct (oh_Height (newMark prev r now) =? 0)%Z eqn:Ez; apply produces_mark; intros Hp; (split; [by apply Hnn|]); [done|].
  intros _. apply Z.eqb_neq in Ez. specialize (Hnn Hp). lia.
Qed.

(** *** What a report leaves *)
Lemma count_filter_length f nodes : (0 <= count f nodes <= Z.of_nat (length nodes))%Z.
Proof. unfold count. pose proof (List.filter_length_le f nodes). lia. Qed.
Lemma count_ready_nodes workers nodes :
  count childReady nodes = Z.of_nat (length (List.filter gns_Ready (nodeStatus workers <$> nodes))).
Proof.
  unfold count. f_equal. induction nodes as [|ch nodes IH]; simpl; [done|]. destruct (childReady ch); simpl; by rewrite IH.
Qed.

Lemma computeGroupPhase_facts net ready desired nodes :
  let ph := computeGroupPhase net ready desired nodes in
  ~ In ph [GroupPhaseNone; GroupPhaseTerminating] /\
  (ph = GroupPhasePaused <-> sn_Paused (sw_Spec net) = true) /\
  (ph = GroupPhaseReady -> hasConditionTrue net ConditionPlanInProgress = false /\ nodes <> [] /\ ready = desired).
Proof.
  simpl. unfold computeGroupPhase. destruct (sn_Paused (sw_Spec net)); [naive_solver|].
  destruct (hasConditionTrue net ConditionPlanInProgress); [naive_solver|].
  destruct (hasConditionReason _ _ _); [naive_solver|]. destruct nodes as [|x l]; [naive_solver|].
  destruct (Z.eqb_spec ready desired); [naive_solver|]. destruct (_ =? _)%Z; [naive_solver|].
  destruct (_ && _); naive_solver.
Qed.

Lemma report_typed now net nodes workers :
  status_ok net -> (forall o, sns_ObservedHeight (sw_Status net) = Some o -> (0 <= oh_Height o)%Z) ->
  (forall t, In t always_present -> is_Some (net_cond net t)) ->
  hasConditionTrue net ConditionPaused = sn_Paused (sw_Spec net) ->
  status_typed (reportStatus now net nodes workers).
Proof.
  intros Hok Hh Hseven Hpaused. pose proof (same_course_report now net nodes workers) as Hcourse.
  unfold reportStatus in *. set (desired := sn_Replicas (sw_Spec net)) in *. set (ready := count childReady nodes) in *.
  set (up := count (fun ch => st_CurrentImage (ch_Status ch) =s sn_Image (sw_Spec net)) nodes) in *. set (gen := if hasConditionTrue net ConditionPlanInProgress then _ else _) in *.
  set (n1 := nw_status (ns_report _ _ _ _ _ _ _) net) in *. set (n2 := nw_status (ns_phase _) n1) in *.
  destruct (nodesReady_only n2 ready desired nodes) as [O3 T3]. set (n3 := setNodesReadyCondition n2 ready desired nodes) in *.
  destruct (rollout_only n3 up desired (length nodes)) as [O4 T4].
  set (n4 := setRolloutInProgressCondition n3 up desired (length nodes)) in *.
  destruct (setProducing_produces n4 nodes now) as (P1 & P2 & (cs & h & P3) & P4).
  set (n5 := setProducingCondition n4 nodes now) in *.
  pose proof (computeGroupPhase_facts n1 ready desired nodes) as (Fr & Fp & Fready). set (ph := computeGroupPhase _ _ _ _) in *.
  assert (Hstat : exists cs' h', sw_Status n5 = ns_height h' (ns_conds cs' (sw_Status n2))).
  { destruct O3 as (_ & _ & cs3 & E3), O4 as (_ & _ & cs4 & E4). rewrite P3, E4, E3. by exists cs, h. }
  assert (Hcond : forall t, t <> ConditionNodesReady -> t <> ConditionRolloutInProgress -> t <> ConditionProducing ->
    hasConditionTrue n5 t = hasConditionTrue net t).
  { intros t H1 H2 H3. unfold hasConditionTrue. rewrite P1 by done. destruct O3 as (E3 & _), O4 as (E4 & _). by rewrite E4, E3. }
  assert (Hh4 : sns_ObservedHeight (sw_Status n4) = sns_ObservedHeight (sw_Status net)).
  { destruct O3 as (_ & _ & cs3 & E3), O4 as (_ & _ & cs4 & E4). by rewrite E4, E3. }
  rewrite Hh4 in P4. destruct (P4 Hh) as [P5 P6]. destruct Hstat as (cs' & h' & Hstat).
  assert (Htrue : forall t, t <> ConditionProducing -> hasConditionTrue n5 t = hasConditionTrue n4 t)
    by (intros t Ht; unfold hasConditionTrue; by rewrite P1).
  constructor; [by eapply status_ok_course|exact P5|..]; unfold reported; rewrite ?Hstat; simpl.
  - intros _ t Ht. destruct (decide (t = ConditionProducing)) as [->|Hne]; [done|]. rewrite P1 by done.
    eapply only_cond_some; [exact O4|]. eapply only_cond_some; [exact O3|]. by apply (Hseven t).
  - intros _. apply count_ready_nodes.
  - intros _. rewrite length_fmap. apply count_filter_length.
  - intros _. rewrite Htrue, (only_cond_true _ ConditionNodesReady _ _ O4), T3 by done. apply Z.leb_le.
  - intros _. rewrite Htrue, T4 by done. rewrite andb_true_iff, Nat.ltb_lt, Z.ltb_lt.
    destruct nodes; simpl; [naive_solver lia|]. split; intros [? ?]; (split; [first [done|lia]|assumption]).
  - intros _. rewrite Hstat in P6. exact P6.
  - intros _. rewrite Hcond, Hpaused by done. exact Fp.
  - intros Hr. destruct (Fready Hr) as (Hpip & Hn & Hrd). split_and!; [|by destruct nodes|done].
    change (hasConditionTrue net ConditionPlanInProgress = false) in Hpip. unfold status_ok in Hok.
    destruct (sns_Plan (sw_Status net)); [|done]. destruct Hok as (_ & _ & _ & Hok & _). congruence.
Qed.

(** The status that is stored differs in the granularity of a time. *)
Lemma typed_wire net st :
  status_typed net -> status_typed (nw_status (fun _ => wire_status (sw_Status net)) st).
Proof.
  intros [T1 T2 T3 T4 T5 T6 T7 T8 T9 T10]. constructor; unfold reported, hasConditionTrue, net_cond in *; simpl; try done.
  - intros o. destruct (sns_ObservedHeight (sw_Status net)) as [o'|] eqn:E; [|done]. intros [= <-]. by apply (T2 o').
  - intros Hr Ht. destruct (T8 Hr Ht) as (o & -> & Ho). by eexists.
Qed.

Lemma typed_ext a b : sw_Status b = sw_Status a -> status_typed a -> status_typed b.
Proof.
  intros Hs [T1 T2 T3 T4 T5 T6 T7 T8 T9 T10].
  constructor; unfold status_ok, hasConditionTrue, net_cond in *; rewrite ?Hs; try done.
Qed.

Lemma seed_height t r m net :
  sns_ObservedHeight (sw_Status (seedConditionIfAbsent t r m net)) = sns_ObservedHeight (sw_Status net).
Proof. unfold seedConditionIfAbsent. by destruct (net_cond net t). Qed.
Lemma seeded_height net :
  sns_ObservedHeight (sw_Status (seedAlwaysPresentConditions net)) = sns_ObservedHeight (sw_Status net).
Proof.
  unfold seedAlwaysPresentConditions. rewrite !seed_height.
  unfold setConfigValuesValidCondition, setPausedCondition, setGenesisCeremonyCondition.
  repeat case_match; done.
Qed.

Lemma stores_typed now net net' : stores now net net' -> status_typed net -> status_typed net'.
Proof.
  intros Hst Ht. pose proof (typed_height net Ht) as Hh0. pose proof (typed_course net Ht) as Hok.
  pose proof (stores_ok _ _ _ Hst Hok) as Hok'.
  destruct Hst as [| |Hd|mem mem' nodes workers Hd [f Hf] Hc Hh Hcs (Ho & _ & Hsp & _ & _ & Hh' & Hk1 & Hk2)].
  - done.
  - by apply (typed_ext net).
  - apply typed_unreported; [done| |by right; left]. simpl. intros o.
    destruct (sns_ObservedHeight (sw_Status net)) as [o'|] eqn:E; [|done]. intros [= <-]. by apply (Hh0 o').
  - assert (Hm : in_memory net = seedAlwaysPresentConditions (nw_finalizer true net)) by (unfold in_memory; by rewrite Hd).
    assert (Hcond : forall t, net_cond mem t = net_cond (seedAlwaysPresentConditions (nw_finalizer true net)) t)
      by (intros t; unfold net_cond; by rewrite Hcs, Hm).
    apply typed_wire, report_typed; [done|..].
    + intros o. rewrite Hh', Hh, Hm, seeded_height. apply Hh0.
    + intros t Hin. apply Hk1. rewrite Hcond. by apply seeded_present.
    + unfold hasConditionTrue. rewrite Hk2, Hcond by done.
      pose proof (seeded_paused (nw_finalizer true net)) as Hp. unfold hasConditionTrue in Hp. rewrite Hp.
      rewrite Hsp. destruct Hc as (_ & -> & _). rewrite Hm.
      by destruct (same_course_seeded (nw_finalizer true net)) as (_ & -> & _).
Qed.

Lemma new_status_typed net : sw_Status net = new_network_status -> status_typed net.
Proof.
  intros Hs. apply typed_unreported; [by apply new_status_ok|by rewrite Hs|]. rewrite Hs. by left.
Qed.

(** C24: A stored status is well typed for life. Through any run of the
    controller (reconciles with failing calls, edits, restarts, deletions and
    recreations) the fields of the stored status agree: a plan is the ceremony,
    well formed and active, with PlanInProgress=True and
    GenesisCeremonyComplete not True, and without a plan PlanInProgress is not
    True; a status some reconcile has reported has all seven conditions;
    readyReplicas counts the ready entries of nodes; NodesReady is True exactly
    when readyReplicas covers replicas, and RolloutInProgress exactly when a
    replica is not on the image; Producing=True comes with an observed height above
    zero; the phase is Paused exactly when the Paused condition is True; and phase
    Ready means no plan runs and all replicas, at least one, are ready. *)
Theorem network_status_typed c0 c net :
  fresh c0 -> net_run c0 c -> cl_net c = Some net -> status_typed net.
Proof.
  intros Hf Hrun. revert net. assert (Hinit : forall net, cl_net c0 = Some net -> status_typed net)
    by (destruct Hf as [_ ->]; done).
  pose proof (fresh_ok c0 Hf) as Hok. clear Hf.
  induction Hrun as [c|c c1 c2 Hstep _ IH]; [done|]. apply IH; [|by eapply step_ok]. clear IH.
  intros n1 Hn1. destruct Hstep as [now planID c|c c' [_ Hm]].
  - destruct (cl_net c) as [net|] eqn:Hn.
    + destruct (reconcile_stores libs Rest now planID net c Hn (proj2 Hok _ Hn)) as [Hx|(n & Hx & Hst)];
        rewrite Hn1 in Hx; [done|]. injection Hx as ->. eapply stores_typed; [exact Hst|by apply Hinit].
    + destruct (reconcile_absent libs Rest now planID c Hn) as (Hx & _). congruence.
  - rewrite Hn1 in Hm. inversion Hm as [net ? _ _ _ _ Hs| |? Hs]; subst; [|by apply new_status_typed].
    apply (typed_ext net); [done|]. by apply Hinit.
Qed.

End Run.

(** ** The statements on a concrete network *)
Section Witnesses.
Import NetSample.

Lemma moves_refl o : moves o o.
Proof. destruct o; by constructor. Qed.
Lemma keyed_fmap (f : Child -> Child) m : (forall ch, ch_Name (f ch) = ch_Name ch) -> keyed m -> keyed (f <$> m).
Proof. intros Hf Hm k ch Hl. apply lookup_fmap_Some in Hl as (x & <- & Hx). rewrite Hf. by apply Hm. Qed.

Abbreviation run := (net_run sample_libs sample_rest).
Abbreviation one_step := (net_step sample_libs sample_rest).

Lemma fresh_empty : fresh empty_world.
Proof. split; [|done]. intros k ch. simpl. by rewrite lookup_empty. Qed.
Lemma sample_move c c' : keyed (cl_nodes c') -> moves (cl_net c) (cl_net c') -> run c c'.
Proof. intros Hk Hm. apply rtc_once. by apply step_world. Qed.
Lemma sample_reconcile c : run c (reconcile c).
Proof. apply rtc_once. exact (step_reconcile sample_libs sample_rest 0 "plan" c). Qed.
Lemma sample_keyed c : run empty_world c -> keyed (cl_nodes c).
Proof. intros Hr. exact (proj1 (run_ok _ _ _ _ Hr (fresh_ok _ fresh_empty))). Qed.
Lemma sample_run_all c : run empty_world c -> run empty_world (run_all c).
Proof.
  intros Hr. etrans; [exact Hr|]. apply sample_move; [|apply moves_refl]. apply keyed_fmap; [done|by apply sample_keyed].
Qed.
Lemma sample_lose name c : run empty_world c -> run empty_world (lose name c).
Proof. intros Hr. etrans; [exact Hr|]. apply sample_move; [by apply keyed_delete, sample_keyed|apply moves_refl]. Qed.
Lemma sample_next c : run empty_world c -> run empty_world (reconcile c).
Proof. intros Hr. etrans; [exact Hr|apply sample_reconcile]. Qed.

Lemma run_created : run empty_world created.
Proof. apply sample_move; [intros k ch; simpl; by rewrite lookup_empty|by apply moves_new]. Qed.
Lemma run_finished : run empty_world finished.
Proof. exact (sample_next _ (sample_run_all _ (sample_next _ run_created))). Qed.
Lemma run_losing : run empty_world losing.
Proof.
  assert (Ha : run empty_world adopting).
  { apply sample_move; [|by apply moves_new]. apply (keyed_fmap (ch_owners [])); [done|].
    change (map_Forall (fun k ch => ch_Name ch = k) (nodes two 50 [0; 1])). by_decide. }
  exact (sample_lose "net-1" _ (sample_next _ Ha)).
Qed.

Lemma network_writes_justified_witness :
  length (cl_log (reconcile created)) = 2 /\
  exists l : list effect, cl_log (reconcile created) = [] ++ l /\
    Forall (justified 0 (in_memory two) (cl_nodes created)) l /\ history (cl_nodes created) l (cl_nodes (reconcile created)).
Proof.
  split; [vm_compute; reflexivity|].
  exact (network_writes_justified sample_libs sample_rest 0 "plan" empty_world created two fresh_empty run_created eq_refl).
Defined.

Definition the_net (c : cluster unit) : SeiNetwork := default two (cl_net c).

Lemma ceremony_done_for_life_witness :
  ceremony_done (the_net finished) /\ ceremony_done (the_net (reconcile finished)) /\
  sns_Plan (sw_Status (the_net (reconcile finished))) = None.
Proof.
  assert (H1 : cl_net finished = Some (the_net finished)) by (vm_compute; reflexivity).
  assert (H2 : cl_net (reconcile finished) = Some (the_net (reconcile finished))) by (vm_compute; reflexivity).
  assert (Hd : ceremony_done (the_net finished)) by (vm_compute; reflexivity).
  assert (Hl : lives sample_libs sample_rest finished (reconcile finished)).
  { apply rtc_once. split; [exact (step_reconcile sample_libs sample_rest 0 "plan" finished)|]. exact (mk_is_Some _ _ H2). }
  split; [exact Hd|].
  destruct (ceremony_done_for_life sample_libs sample_rest 0 "plan" empty_world finished (reconcile finished) _ _
    fresh_empty run_finished H1 Hd Hl H2) as (Ha & Hb & _).
  split; [exact Ha|exact Hb].
Defined.

Lemma adopted_child_survives_witness :
  length (cl_log (reconcile losing)) = 0 /\ hasConditionReason (the_net (reconcile losing)) ConditionGenesisCeremonyComplete ReasonAdoptedSet = true /\
  exists ch', cl_nodes (reconcile losing) !! "net-0" = Some ch' /\ same_object (default (child two 0 50) (cl_nodes losing !! "net-0")) ch'.
Proof.
  split; [vm_compute; reflexivity|]. split; [vm_compute; reflexivity|].
  apply (adopted_child_survives sample_libs sample_rest 0 "plan" empty_world losing (the_net losing) "net-0" _ 0
    fresh_empty run_losing); vm_compute; try reflexivity; try done; lia.
Defined.

Lemma network_status_typed_witness : status_typed (the_net finished).
Proof.
  refine (network_status_typed sample_libs sample_rest empty_world finished (the_net finished) fresh_empty run_finished _).
  vm_compute. reflexivity.
Defined.
End Witnesses.

(** ** What the status does not show *)
Section Findings.
Import NetSample.

(** A genesis account the bech32 decoder refuses. *)
Definition refusing_libs : ClientLibs := mkClientLibs (fun _ => None) (fun _ => Err "invalid checksum").
Definition bad_genesis : GenesisCeremonyConfig :=
  mkGenesisCeremony "chain-1" "1usei" "2usei" [mkGenesisAccount "sei1x" "1usei" None] ∅ RawNone.
Definition bad : SeiNetwork :=
  net "uid-1" (mkNetworkSpec "img" bad_genesis None None 2 ∅ [] None None None None ∅ false DeletionPolicyRetain) no_status.
Definition reconcile_bad (c : cluster unit) : cluster unit :=
  (ReconcileNetwork refusing_libs sample_rest 0 "plan" c).2.

Lemma iter_fixed {A} (f : A -> A) x : f (f x) = f x -> forall n, Nat.iter (S n) f x = f x.
Proof. intros Hf n. induction n as [|n IH]; [done|]. simpl in *. by rewrite IH. Qed.

(** Property: A genesis that does not validate never shows: the validation error ends
    the reconcile before the status is written, so however often a network with a
    refused account address is reconciled, its stored status stays empty, without
    phase or condition, although its children exist. *)
Theorem invalid_genesis_never_reported n :
  cl_net (Nat.iter n reconcile_bad (world (Some bad) ∅)) = Some bad /\
  size (cl_nodes (Nat.iter (S n) reconcile_bad (world (Some bad) ∅))) = 2.
Proof.
  assert (Hfix : reconcile_bad (reconcile_bad (world (Some bad) ∅)) = reconcile_bad (world (Some bad) ∅))
    by (vm_compute; reflexivity).
  rewrite (iter_fixed _ _ Hfix). split; [|vm_compute; reflexivity].
  destruct n as [|n]; [done|]. rewrite (iter_fixed _ _ Hfix). vm_compute. reflexivity.
Qed.

Definition failed : SeiNetwork := nw_status (ns_phase GroupPhaseFailed) (failPlan two).
(** Property: A failed ceremony is not terminal: the next reconcile of a network
    whose ceremony failed, with its children in place, plans the ceremony anew and
    takes the phase from Failed back to Initializing. *)
Theorem failed_ceremony_restarts :
  let after := the_net (reconcile (world (Some failed) (nodes two 100 [0; 1]))) in
  sns_Plan (sw_Status failed) = None /\ sns_Phase (sw_Status after) = GroupPhaseInitializing /\
  hasConditionTrue after ConditionPlanInProgress = true.
Proof. vm_compute. by split_and!. Qed.
End Findings.
