(* ===== verification/NetworkHealth.v ===== *)
(** * The Producing condition (src/internal/controller/seinetwork/producing.go)

    The condition the controller computes by one pass over the children is the
    table of its comment, and over time it is True only while new heights are
    read. *)

From stdpp Require Import base list strings gmap pretty.
From Stdlib Require Import ZArith Lia.
From S2P Require Import Prelude Api NodeState Platform Executor Config Task Planner NodeTask Resolve NetApi Network NetworkSample NetworkSpec NetworkRun.

(** ** Readings *)

(** The reading of a child: both fields of its status are set. *)
Definition reading_of (ch : Child) : option (Z * Z) :=
  h ← ch_CommittedHeight ch; t ← ch_CommittedHeightTime ch; Some (h, t).
Definition some_reading (nodes : list Child) (P : Z -> Z -> Prop) : Prop :=
  exists ch h t, In ch nodes /\ reading_of ch = Some (h, t) /\ P h t.
Definition is_fresh (now t : Z) : Prop := (now - t <= heightReadingMaxAge)%Z.
#[export] Instance is_fresh_dec now t : Decision (is_fresh now t).
Proof. unfold is_fresh. apply _. Defined.

Lemma reading_none ch now r : reading_of ch = None -> readHeight now r ch = r.
Proof. unfold reading_of, readHeight. by destruct (ch_CommittedHeight ch), (ch_CommittedHeightTime ch). Qed.
Lemma reading_some ch now r h t : reading_of ch = Some (h, t) ->
  readHeight now r ch =
    if decide (is_fresh now t)
    then mkReadings (Z.max (hr_highestFresh r) h) (Z.max (hr_highestAny r) h) (hr_fresh r + 1) (hr_stale r)
    else mkReadings (hr_highestFresh r) (Z.max (hr_highestAny r) h) (hr_fresh r) (hr_stale r + 1).
Proof.
  unfold reading_of, readHeight, is_fresh. destruct (ch_CommittedHeight ch), (ch_CommittedHeightTime ch); try done.
  intros [= -> ->]. destruct (Z.ltb_spec heightReadingMaxAge (now - t)), (decide _); done || lia.
Qed.

(** What the pass over the children finds. *)
Record summary (now : Z) (nodes : list Child) (r : heightReadings) : Prop := {
  sum_fresh : (0 <= hr_fresh r)%Z /\ (hr_fresh r <> 0%Z <-> some_reading nodes (fun _ t => is_fresh now t));
  sum_stale : (0 <= hr_stale r)%Z /\ (hr_stale r <> 0%Z <-> some_reading nodes (fun _ t => ~ is_fresh now t));
  sum_highest : (0 <= hr_highestFresh r)%Z /\ forall m, (0 <= m)%Z ->
    ((m < hr_highestFresh r)%Z <-> some_reading nodes (fun h t => is_fresh now t /\ (m < h)%Z));
  sum_any : forall m, (0 < m)%Z -> ((hr_highestAny r < m)%Z <-> ~ some_reading nodes (fun h _ => (m <= h)%Z));
}.

Lemma some_reading_app nodes ch P :
  some_reading (nodes ++ [ch]) P <-> some_reading nodes P \/ exists h t, reading_of ch = Some (h, t) /\ P h t.
Proof.
  unfold some_reading. split.
  - intros (x & h & t & [Hin|[<-|[]]]%in_app_iff & Hr & HP); [left|right]; naive_solver.
  - intros [(x & h & t & Hin & Hr & HP)|(h & t & Hr & HP)]; [exists x, h, t|exists ch, h, t];
      rewrite in_app_iff; naive_solver.
Qed.

Lemma readHeights_summary now nodes : summary now nodes (readHeights nodes now).
Proof.
  unfold readHeights. induction nodes as [|ch nodes IH] using rev_ind.
  { assert (Hno : forall P, ~ some_reading [] P) by (intros P (? & ? & ? & [] & _)).
    split; simpl; [naive_solver lia..| |]; [split; [lia|]|]; intros m Hm; split; naive_solver lia. }
  rewrite fold_left_app. simpl. set (r := fold_left _ nodes _) in *.
  destruct IH as [[F0 F] [S0 S] [H0 Hh] A].
  destruct (reading_of ch) as [[h t]|] eqn:Er.
  - rewrite (reading_some ch now r h t Er).
    assert (Hiff : forall P, some_reading (nodes ++ [ch]) P <-> some_reading nodes P \/ P h t).
    { intros P. rewrite some_reading_app, Er. naive_solver. }
    destruct (decide (is_fresh now t)) as [Hf|Hf]; split; simpl.
    + rewrite Hiff. split; [lia|]. split; [by right|lia].
    + rewrite Hiff, <- S. naive_solver.
    + split; [lia|]. intros m Hm. rewrite Hiff, <- Hh by done. split; [intros ?|intros [?|[_ ?]]]; [|lia..].
      destruct (Z.le_gt_cases h m); [left; lia|right; by split].
    + intros m Hm. rewrite Hiff. specialize (A m Hm). split.
      * intros Hlt [Hs|Hle]; [|lia]. apply (proj1 A); [lia|done].
      * intros Hn. assert (hr_highestAny r < m)%Z by (apply A; tauto). lia.
    + rewrite Hiff, <- F. naive_solver.
    + rewrite Hiff. split; [lia|]. split; [by right|lia].
    + split; [done|]. intros m Hm. rewrite Hiff, <- Hh by done. naive_solver.
    + intros m Hm. rewrite Hiff. specialize (A m Hm). split.
      * intros Hlt [Hs|Hle]; [|lia]. apply (proj1 A); [lia|done].
      * intros Hn. assert (hr_highestAny r < m)%Z by (apply A; tauto). lia.
  - rewrite (reading_none ch now r Er).
    assert (Hiff : forall P, some_reading (nodes ++ [ch]) P <-> some_reading nodes P).
    { intros P. rewrite some_reading_app, Er. naive_solver. }
    split; [by rewrite Hiff..| |].
    + split; [done|]. intros m Hm. rewrite Hiff. by apply Hh.
    + intros m Hm. rewrite Hiff. by apply A.
Qed.

(** ** The table *)
Section Table.
Context {W : Type} {SC : StatusConditions} {SCL : StatusConditionsLaws SC} {OR : OwnerRefs} {C : SeiConfig} {H : Hashes}.
Implicit Types (net : SeiNetwork) (nodes : list Child).

Definition mark_of net : option ObservedHeight := sns_ObservedHeight (sw_Status net).
Definition mark_height (o : option ObservedHeight) : Z := match o with Some p => oh_Height p | None => 0 end.

(** [h] is the highest fresh height, no less than zero. *)
Definition highest_fresh now nodes (h : Z) : Prop :=
  (0 <= h)%Z /\ ~ some_reading nodes (fun h' t => is_fresh now t /\ (h < h')%Z) /\
  (h = 0%Z \/ some_reading nodes (fun h' t => is_fresh now t /\ h' = h)).
(** A fresh height above the mark. *)
Definition rose now net nodes : Prop :=
  some_reading nodes (fun h t => is_fresh now t /\ (mark_height (mark_of net) < h)%Z).
(** All who ever reported, stale readings included, sit below a mark above zero. *)
Definition rebuilt nodes (p : ObservedHeight) : Prop :=
  (0 < oh_Height p)%Z /\ ~ some_reading nodes (fun h _ => (oh_Height p <= h)%Z).
(** The mark when no height rose: the old one, unless there is none or the chain
    was rebuilt. *)
Definition settles now net nodes (o : ObservedHeight) : Prop :=
  match mark_of net with
  | Some p => o = p /\ ~ rebuilt nodes p \/ rebuilt nodes p /\ oh_Time o = now /\ highest_fresh now nodes (oh_Height o)
  | None => oh_Time o = now /\ highest_fresh now nodes (oh_Height o)
  end.
(** Whole seconds since the mark, against the window. *)
Definition inside_window now (o : ObservedHeight) : Prop := (truncate_second (now - oh_Time o) <= producingWindow)%Z.

Inductive verdict now net nodes : ConditionStatus -> string -> option ObservedHeight -> Prop :=
| v_no_children :
    nodes = [] -> verdict now net nodes ConditionFalse ReasonNoNodes (mark_of net)
| v_never_read :
    nodes <> [] -> ~ some_reading nodes (fun _ _ => True) ->
    verdict now net nodes ConditionFalse ReasonAwaitingFirstBlock (mark_of net)
| v_unreadable :
    some_reading nodes (fun _ _ => True) -> ~ some_reading nodes (fun _ t => is_fresh now t) ->
    verdict now net nodes ConditionFalse ReasonSignalUnreadable (mark_of net)
| v_rose h :
    rose now net nodes -> highest_fresh now nodes h ->
    verdict now net nodes ConditionTrue ReasonHeightAdvancing (Some (mkObserved h now))
| v_no_block o :
    some_reading nodes (fun _ t => is_fresh now t) -> ~ rose now net nodes -> settles now net nodes o ->
    inside_window now o -> oh_Height o = 0%Z ->
    verdict now net nodes ConditionFalse ReasonAwaitingFirstBlock (Some o)
| v_inside o :
    some_reading nodes (fun _ t => is_fresh now t) -> ~ rose now net nodes -> settles now net nodes o ->
    inside_window now o -> oh_Height o <> 0%Z ->
    verdict now net nodes ConditionTrue ReasonHeightAdvancing (Some o)
| v_idle o :
    some_reading nodes (fun _ t => is_fresh now t) -> ~ rose now net nodes -> settles now net nodes o ->
    ~ inside_window now o -> CommitsOnDemand (sn_Consensus (sw_Spec net)) = true ->
    verdict now net nodes ConditionFalse ReasonIdle (Some o)
| v_stalled o :
    some_reading nodes (fun _ t => is_fresh now t) -> ~ rose now net nodes -> settles now net nodes o ->
    ~ inside_window now o -> CommitsOnDemand (sn_Consensus (sw_Spec net)) = false ->
    verdict now net nodes ConditionFalse ReasonHeightStalled (Some o).

(** What the controller reports: status, reason and mark. *)
Definition reports net (st : ConditionStatus) (reason : string) (mark : option ObservedHeight) : Prop :=
  (exists c, net_cond net ConditionProducing = Some c /\ c_Status c = st /\ c_Reason c = reason) /\ mark_of net = mark.

Lemma reports_producing st re m net : reports (producing st re m net) st re (mark_of net).
Proof. split; [|done]. eexists. split; [apply net_cond_set|done]. Qed.
Lemma reports_functional net st re m st' re' m' :
  reports net st re m -> reports net st' re' m' -> st = st' /\ re = re' /\ m = m'.
Proof. intros [(c & Hc & <- & <-) <-] [(c' & Hc' & <- & <-) <-]. rewrite Hc in Hc'. by injection Hc' as <-. Qed.

Lemma highest_fresh_iff now nodes h : highest_fresh now nodes h <-> h = hr_highestFresh (readHeights nodes now).
Proof.
  pose proof (sum_highest _ _ _ (readHeights_summary now nodes)) as [H0 Hh].
  set (x := hr_highestFresh (readHeights nodes now)) in *. unfold highest_fresh. split.
  - intros (Hpos & Hno & Hor). rewrite <- (Hh h Hpos) in Hno. destruct Hor as [->|(ch & h' & t & Hin & Hr & Hf & ->)]; [lia|].
    destruct (Z.eq_dec h 0) as [->|]; [lia|]. assert (h - 1 < x)%Z; [|lia]. apply Hh; [lia|]. exists ch, h, t. split_and!; [done..|lia].
  - intros ->. split; [done|]. split; [rewrite <- Hh by done; lia|]. destruct (Z.eq_dec x 0) as [|Hne]; [by left|right].
    assert (Hs : (x - 1 < x)%Z) by lia. rewrite Hh in Hs by lia. destruct Hs as (ch & h' & t & Hin & Hr & Hf & Hlt).
    exists ch, h', t. split_and!; [done..|]. assert (~ (x < h')%Z); [|lia]. intros Hgt.
    assert (x < x)%Z; [|lia]. apply Hh; [done|]. by exists ch, h', t.
Qed.

Lemma settles_iff now net nodes o :
  (0 <= mark_height (mark_of net))%Z -> ~ rose now net nodes ->
  settles now net nodes o <-> o = newMark (mark_of net) (readHeights nodes now) now.
Proof.
  intros Hpos Hr. pose proof (readHeights_summary now nodes) as [_ _ [H0 Hh] A].
  unfold rose in Hr. rewrite <- (Hh _ Hpos) in Hr. unfold settles, newMark.
  assert (Hnew : oh_Time o = now /\ highest_fresh now nodes (oh_Height o) <-> o = mkObserved (hr_highestFresh (readHeights nodes now)) now).
  { rewrite highest_fresh_iff. destruct o as [a b]. simpl. naive_solver. }
  destruct (mark_of net) as [p|]; [|exact Hnew]. simpl in *.
  rewrite (proj2 (Z.ltb_ge _ _)) by lia. simpl. unfold rebuilt.
  destruct (Z.ltb_spec (hr_highestAny (readHeights nodes now)) (oh_Height p)) as [Hlt|Hge].
  - pose proof (readHeights_nonneg now nodes) as (Hn & _). assert (Hp : (0 < oh_Height p)%Z) by lia.
    rewrite (A _ Hp) in Hlt. rewrite <- Hnew. naive_solver.
  - split; [|intros ->; left; split; [done|]; intros [Hp Hno]; rewrite <- (A _ Hp) in Hno; lia].
    intros [[-> _]|((Hp & Hno) & _)]; [done|]. rewrite <- (A _ Hp) in Hno. lia.
Qed.

Lemma rose_iff now net nodes :
  (0 <= mark_height (mark_of net))%Z -> rose now net nodes <-> heightAdvanced (mark_of net) (readHeights nodes now) = true.
Proof.
  intros Hpos. pose proof (readHeights_summary now nodes) as [_ _ [H0 Hh] A]. unfold rose. rewrite <- Hh by done.
  unfold heightAdvanced, mark_height. destruct (mark_of net); by rewrite Z.ltb_lt.
Qed.

(** The children have reported, and what of it is fresh. *)
Lemma fresh_iff now nodes : hr_fresh (readHeights nodes now) <> 0%Z <-> some_reading nodes (fun _ t => is_fresh now t).
Proof. by destruct (readHeights_summary now nodes) as [[_ F] _ _ _]. Qed.
Lemma stale_iff now nodes : ~ some_reading nodes (fun _ t => is_fresh now t) ->
  hr_stale (readHeights nodes now) <> 0%Z <-> some_reading nodes (fun _ _ => True).
Proof.
  intros Hf. destruct (readHeights_summary now nodes) as [_ [_ S] _ _]. rewrite S.
  split; intros (ch & h & t & Hin & Hr & _); exists ch, h, t; (split_and!; [done..|]); [done|].
  intros Hfr. apply Hf. by exists ch, h, t.
Qed.
Lemma reading_nodes nodes P : some_reading nodes P -> nodes <> [].
Proof. by intros (? & ? & ? & Hin & _) ->. Qed.
Lemma advanced_mark prev r now : heightAdvanced prev r = true -> newMark prev r now = mkObserved (hr_highestFresh r) now.
Proof. unfold heightAdvanced, newMark. destruct prev; [by intros ->|done]. Qed.

#[local] Instance inside_window_dec now o : Decision (inside_window now o).
Proof. unfold inside_window. apply _. Defined.

(** The code's case analysis on the summary of the readings. *)
Definition decided now net (r : heightReadings) : ConditionStatus * string * option ObservedHeight :=
  let mark := newMark (mark_of net) r now in
  if (hr_fresh r =? 0)%Z then
    if (hr_stale r =? 0)%Z then (ConditionFalse, ReasonAwaitingFirstBlock, mark_of net)
    else (ConditionFalse, ReasonSignalUnreadable, mark_of net)
  else if heightAdvanced (mark_of net) r then (ConditionTrue, ReasonHeightAdvancing, Some mark)
  else if decide (inside_window now mark) then
    if (oh_Height mark =? 0)%Z then (ConditionFalse, ReasonAwaitingFirstBlock, Some mark)
    else (ConditionTrue, ReasonHeightAdvancing, Some mark)
  else if CommitsOnDemand (sn_Consensus (sw_Spec net)) then (ConditionFalse, ReasonIdle, Some mark)
  else (ConditionFalse, ReasonHeightStalled, Some mark).

Lemma setProducing_decided now net nodes : nodes <> [] ->
  let '(st, re, m) := decided now net (readHeights nodes now) in reports (setProducingCondition net nodes now) st re m.
Proof.
  intros Hn. unfold setProducingCondition, decided. destruct nodes as [|x l]; [done|].
  set (r := readHeights (x :: l) now). fold (mark_of net).
  destruct (hr_fresh r =? 0)%Z; [destruct (hr_stale r =? 0)%Z; apply reports_producing|].
  set (mark := newMark (mark_of net) r now).
  assert (Hrep : forall st re msg, reports (producing st re msg (nw_status (ns_height (Some mark)) net)) st re (Some mark))
    by (intros; apply (reports_producing _ _ _ (nw_status (ns_height (Some mark)) net))).
  destruct (heightAdvanced _ r); [apply Hrep|]. destruct (decide _) as [Hw|Hw]; unfold inside_window in Hw.
  - rewrite (proj2 (Z.leb_le _ _) Hw). destruct (oh_Height mark =? 0)%Z; apply Hrep.
  - rewrite (proj2 (Z.leb_gt _ _)) by lia. destruct (CommitsOnDemand _); apply Hrep.
Qed.

Lemma verdict_decided now net nodes st re m :
  (0 <= mark_height (mark_of net))%Z -> nodes <> [] ->
  verdict now net nodes st re m <-> decided now net (readHeights nodes now) = (st, re, m).
Proof.
  intros Hpos Hn. unfold decided.
  assert (Hany : forall P, some_reading nodes P -> some_reading nodes (fun _ _ => True))
    by (intros P (ch & h & t & Hin & Hr & _); by exists ch, h, t).
  pose proof (fresh_iff now nodes) as F. pose proof (stale_iff now nodes) as S.
  destruct (Z.eqb_spec (hr_fresh (readHeights nodes now)) 0) as [Ef|Ef].
  - assert (Hf : ~ some_reading nodes (fun _ t => is_fresh now t)) by (rewrite <- F; lia).
    assert (Hrose : ~ rose now net nodes) by (intros (ch & h & t & ? & ? & ? & _); apply Hf; by exists ch, h, t).
    destruct (Z.eqb_spec (hr_stale (readHeights nodes now)) 0) as [Es|Es].
    + assert (Hs : ~ some_reading nodes (fun _ _ => True)) by (rewrite <- (S Hf); lia).
      split; [by inversion 1; subst|]. intros [= <- <- <-]. by constructor.
    + apply (S Hf) in Es. split; [by inversion 1; subst|]. intros [= <- <- <-]. by constructor.
  - apply F in Ef. pose proof (Hany _ Ef) as Hs. destruct (heightAdvanced _ _) eqn:Ea.
    + rewrite advanced_mark by done. apply (rose_iff now net nodes Hpos) in Ea. split.
      * inversion 1 as [| | |h ? Hh| | | |]; subst; try done. by apply highest_fresh_iff in Hh as ->.
      * intros [= <- <- <-]. constructor; [done|]. by apply highest_fresh_iff.
    + assert (Hrose : ~ rose now net nodes) by (rewrite (rose_iff now net nodes Hpos); congruence).
      pose proof (fun o => settles_iff now net nodes o Hpos Hrose) as Hset.
      pose proof (proj2 (Hset _) eq_refl) as Hmark. set (mark := newMark _ _ _) in *.
      destruct (decide _) as [Hw|Hw]; [destruct (Z.eqb_spec (oh_Height mark) 0) as [Hz|Hz]|
        destruct (CommitsOnDemand _) eqn:Ec];
      (split; [inversion 1; subst; try done;
               repeat match goal with Ho : settles _ _ _ _ |- _ => apply Hset in Ho; subst end; try done; congruence
              |intros [= <- <- <-]; by constructor]).
Qed.

(** Property: The Producing condition is the table that documents it. On a network whose
    mark is not negative, one pass over the children sets status, reason and mark
    to exactly one row: no children, no child ever read, none read within 90s, a
    fresh height above the mark (which becomes the highest fresh height, now), and
    otherwise the mark stays, unless there was none or every child that ever
    reported sits below it, and the verdict depends on whether the mark is at most
    two minutes old (whole seconds), is zero, and the engine commits on demand. *)
Theorem producing_is_the_table now net nodes st re m :
  (0 <= mark_height (mark_of net))%Z ->
  verdict now net nodes st re m <-> reports (setProducingCondition net nodes now) st re m.
Proof.
  intros Hpos. destruct (decide (nodes = [])) as [->|Hn].
  - assert (Hrep : reports (setProducingCondition net [] now) ConditionFalse ReasonNoNodes (mark_of net)) by apply reports_producing.
    assert (Hno : forall P, ~ some_reading [] P) by (intros P (? & ? & ? & [] & _)).
    split; [inversion 1; subst; try done; try (by destruct (Hno (fun _ _ => True)));
            by match goal with Hr : some_reading [] _ |- _ => destruct (Hno _ Hr) | Hr : rose _ _ _ |- _ => destruct (Hno _ Hr) end|].
    intros Hr. destruct (reports_functional _ _ _ _ _ _ _ Hr Hrep) as (-> & -> & ->). by constructor.
  - rewrite verdict_decided by done. pose proof (setProducing_decided now net nodes Hn) as Hrep.
    destruct (decided now net (readHeights nodes now)) as [[st0 re0] m0]. split; [by intros [= <- <- <-]|].
    intros Hr. by destruct (reports_functional _ _ _ _ _ _ _ Hr Hrep) as (-> & -> & ->).
Qed.

(** ** Over time *)

(** A reconcile at a time finds the children and stores the mark. *)
Definition observe net (o : Z * list Child) : SeiNetwork :=
  nw_status (fun _ => wire_status (sw_Status (setProducingCondition net o.2 o.1))) net.
Definition observed net (obs : list (Z * list Child)) : SeiNetwork := fold_left observe obs net.

(** The mark was set to [h] by an observation at [t], where it had another height. *)
Definition set_at net (obs : list (Z * list Child)) (t h : Z) : Prop :=
  exists before after nodes, obs = before ++ (t, nodes) :: after /\ highest_fresh t nodes h /\
    mark_height (mark_of (observed net before)) <> h.

Lemma set_at_snoc net obs x t h : set_at net obs t h -> set_at net (obs ++ [x]) t h.
Proof. intros (b & a & ns & -> & Hh & Hn). exists b, (a ++ [x]), ns. by rewrite <- app_assoc. Qed.

(** The mark after a pass: the old one, or the highest fresh height, now. *)
Lemma mark_step net nodes now :
  (0 <= mark_height (mark_of net))%Z ->
  let net' := setProducingCondition net nodes now in
  (mark_of net' = mark_of net \/
   exists h, mark_of net' = Some (mkObserved h now) /\ highest_fresh now nodes h /\ (mark_of net <> None -> mark_height (mark_of net) <> h)) /\
  (hasConditionTrue net' ConditionProducing = true ->
   exists o, mark_of net' = Some o /\ (0 < oh_Height o)%Z /\ inside_window now o).
Proof.
  intros Hpos. simpl. destruct (decide (nodes = [])) as [->|Hn].
  { split; [by left|]. simpl. unfold producing. by rewrite hasTrue_set. }
  pose proof (setProducing_decided now net nodes Hn) as Hrep. set (net' := setProducingCondition net nodes now) in *.
  pose proof (readHeights_nonneg now nodes) as (Hhn & _). unfold decided in Hrep. set (r := readHeights nodes now) in *.
  assert (Hnew : newMark (mark_of net) r now = mkObserved (hr_highestFresh r) now /\ (mark_of net <> None -> mark_height (mark_of net) <> hr_highestFresh r)
     \/ mark_of net = Some (newMark (mark_of net) r now)).
  { unfold newMark. destruct (mark_of net) as [p|]; [|by left]. simpl in *. destruct (_ || _) eqn:Eb; [left|by right].
    split; [done|]. intros _. apply orb_true_iff in Eb as [Eb%Z.ltb_lt|Eb%Z.ltb_lt]; lia. }
  assert (Hm : mark_of net' = mark_of net \/ mark_of net' = Some (newMark (mark_of net) r now)).
  { repeat case_match; simplify_eq; destruct Hrep as [_ ->]; auto. }
  split.
  - destruct Hm as [|Hm]; [by left|]. destruct Hnew as [[Hnew Hne]|Hnew]; [|left; congruence]. right.
    exists (hr_highestFresh r). rewrite Hm, Hnew. split; [done|]. split; [by apply highest_fresh_iff|done].
  - intros Ht. assert (Hst : forall st re m, reports net' st re m -> st = ConditionTrue).
    { intros st re m [(c & Hc & <- & _) _]. unfold hasConditionTrue in Ht. rewrite Hc in Ht. by apply bool_decide_eq_true in Ht. }
    assert (Hnn : (0 <= oh_Height (newMark (mark_of net) r now))%Z).
    { apply newMark_nonneg; [|lia]. intros o Ho. by rewrite Ho in Hpos. }
    destruct (hr_fresh r =? 0)%Z; [by destruct (hr_stale r =? 0)%Z; apply Hst in Hrep|].
    destruct (heightAdvanced _ r) eqn:Ea.
    { exists (newMark (mark_of net) r now). split; [by destruct Hrep|]. split.
      - apply advanced_positive; [|done]. intros o Ho. by rewrite Ho in Hpos.
      - rewrite advanced_mark by done. unfold inside_window. simpl. by rewrite Z.sub_diag. }
    destruct (decide _) as [Hw|]; [|by destruct (CommitsOnDemand _); apply Hst in Hrep].
    destruct (Z.eqb_spec (oh_Height (newMark (mark_of net) r now)) 0); [by apply Hst in Hrep|].
    exists (newMark (mark_of net) r now). split; [by destruct Hrep|]. split; [lia|done].
Qed.

Lemma wire_mark net now nodes :
  mark_of (observe net (now, nodes)) =
  (fun o => mkObserved (oh_Height o) (oh_Time o / second * second)%Z) <$> mark_of (setProducingCondition net nodes now).
Proof. done. Qed.
Lemma wire_time t : (t / second * second <= t)%Z.
Proof. pose proof (Z.mul_div_le t second). unfold second in *. lia. Qed.

(** The stored mark has its history. *)
Lemma mark_history net obs :
  mark_of net = None ->
  (0 <= mark_height (mark_of (observed net obs)))%Z /\
  forall o, mark_of (observed net obs) = Some o -> (0 < oh_Height o)%Z ->
  exists t, (oh_Time o <= t)%Z /\ set_at net obs t (oh_Height o).
Proof.
  intros Hnone. induction obs as [|[now nodes] obs [IH1 IH2]] using rev_ind.
  { unfold observed. simpl. rewrite Hnone. split; [simpl; lia|done]. }
  unfold observed. rewrite fold_left_app. simpl fold_left. fold (observed net obs). rewrite wire_mark.
  destruct (mark_step (observed net obs) nodes now IH1) as [[Hm|(h & Hm & Hh & Hne)] _]; rewrite Hm.
  - destruct (mark_of (observed net obs)) as [p|] eqn:Ep; [|by split]. simpl in *. split; [done|].
    intros o [= <-] Hpos. destruct (IH2 p eq_refl Hpos) as (t & Ht & Hs). exists t. simpl. split; [|by apply set_at_snoc].
    pose proof (wire_time (oh_Time p)). lia.
  - simpl. split; [by destruct Hh|]. intros o [= <-] Hpos. exists now. split; [apply wire_time|].
    exists obs, [], nodes. split; [done|]. split; [done|]. simpl in *.
    destruct (mark_of (observed net obs)) as [p|]; [by apply Hne|simpl; lia].
Qed.

Lemma window_bound now o : inside_window now o -> (now - oh_Time o < producingWindow + second)%Z.
Proof.
  unfold inside_window, truncate_second, producingWindow, second. intros Hw.
  destruct (Z.le_gt_cases 0 (now - oh_Time o)); [|lia]. rewrite Z.quot_div_nonneg in Hw by lia.
  pose proof (Z.mod_pos_bound (now - oh_Time o) 1000000000). pose proof (Z.div_mod (now - oh_Time o) 1000000000). lia.
Qed.

(** Property: Producing is True only while blocks are seen. Over any sequence of passes
    on a network that had no mark, with any children, readings and clock: when a
    pass reports Producing=True, then less than two minutes and a second ago, by the
    controller's clock, there was a pass that read a height above zero as the
    highest fresh one and moved the mark to it. *)
Theorem producing_is_recent net obs now nodes :
  mark_of net = None ->
  hasConditionTrue (setProducingCondition (observed net obs) nodes now) ConditionProducing = true ->
  exists t h, (now - t < producingWindow + second)%Z /\ (0 < h)%Z /\ set_at net (obs ++ [(now, nodes)]) t h.
Proof.
  intros Hnone Ht. destruct (mark_history net obs Hnone) as [Hpos Hhist].
  destruct (mark_step (observed net obs) nodes now Hpos) as [Hm Htrue].
  destruct (Htrue Ht) as (o & Ho & Hh & Hw). destruct Hm as [Hm|(h & Hm & Hhf & Hne)].
  - rewrite Hm in Ho. destruct (Hhist o Ho Hh) as (t & Hle & Hs). exists t, (oh_Height o).
    apply window_bound in Hw. split; [lia|]. split; [done|by apply set_at_snoc].
  - rewrite Hm in Ho. injection Ho as <-. simpl in Hh. exists now, h. split; [unfold producingWindow, second; lia|]. split; [done|].
    exists obs, [], nodes. split; [done|]. split; [done|].
    destruct (mark_of (observed net obs)) as [p|]; [by apply Hne|simpl; lia].
Qed.
End Table.

(** ** The statements on concrete readings *)
Section Witnesses.
Import NetSample.

(** The first child of [two], with a reading of a height at a time. *)
Definition reader (h t : Z) : Child :=
  let c := child two 0 50 in
  mkChild (ch_Node c) (ch_Labels c) (ch_Owners c) (ch_Deleting c) (ch_Finalizer c) (ch_PodLabels c)
    (ch_DataVolume c) (ch_Resources c) (Some h) (Some t) (ch_Endpoint c).

Lemma producing_is_the_table_witness :
  verdict (200 * second) (observed two [(second, [reader 7 second])]) [reader 7 (199 * second)] ConditionFalse ReasonHeightStalled
    (Some (mkObserved 7 second)).
Proof.
  apply producing_is_the_table; [vm_compute; discriminate|].
  split; [|vm_compute; reflexivity]. eexists. split; [vm_compute; reflexivity|by split].
Defined.

Lemma producing_is_recent_witness :
  exists t h, (100 * second - t < producingWindow + second)%Z /\ (0 < h)%Z /\
    set_at two ([(second, [reader 7 second])] ++ [((100 * second)%Z, [reader 7 (99 * second)])]) t h.
Proof. apply producing_is_recent; vm_compute; reflexivity. Defined.
End Witnesses.
