(* ===== verification/NetworkConverge.v ===== *)
(** * Convergence of the children, and Retain

    When the API server answers: a reconcile brings the children of a network to
    the desired ones and a second changes nothing, and a set released under Retain
    is taken up unchanged by a network of the same name. *)

From stdpp Require Import base list strings gmap pretty.
From Stdlib Require Import ZArith Lia.
From S2P Require Import Prelude Api NodeState Platform Executor Config Task Planner NodeTask Resolve NetApi Network NetworkSample NetworkSpec NetworkRun.

(** ** Total correctness without faults *)
Section Total.
Context {W : Type}.
Implicit Types (c : cluster W).

(** From a cluster in [P] whose server answers every call the computation ends
    with a value and a cluster in [Q]. *)
Definition total {A} (P : cluster W -> Prop) (m : K (W:=W) A) (Q : A -> cluster W -> Prop) : Prop :=
  forall c, cl_faults c = [] -> P c -> exists a c', m c = (Ok a, c') /\ cl_faults c' = [] /\ Q a c'.

Lemma total_ret {A} (a : A) (P : cluster W -> Prop) : total P (mret a) (fun x c => x = a /\ P c).
Proof. intros c Hf Hc. by exists a, c. Qed.
Lemma total_bind {A B} P (m : K (W:=W) A) R (f : A -> K (W:=W) B) Q :
  total P m R -> (forall a, total (R a) (f a) Q) -> total P (m ≫= f) Q.
Proof.
  intros Hm Hk c Hf Hc. destruct (Hm c Hf Hc) as (a & c1 & E1 & Hf1 & H1). unfold mbind, K_bind. rewrite E1. by apply Hk.
Qed.
Lemma total_conseq {A} (P P' : cluster W -> Prop) (m : K (W:=W) A) (Q Q' : A -> cluster W -> Prop) :
  total P' m Q' -> (forall c, P c -> P' c) -> (forall a c, Q' a c -> Q a c) -> total P m Q.
Proof. intros Hm HP HQ c Hf Hc. destruct (Hm c Hf (HP c Hc)) as (a & c1 & ? & ? & ?). exists a, c1. auto. Qed.
Lemma total_wrap {A} pre P (m : K (W:=W) A) Q : total P m Q -> total P (wrap pre m) Q.
Proof. intros Hm c Hf Hc. destruct (Hm c Hf Hc) as (a & c1 & E & ? & ?). exists a, c1. unfold wrap. by rewrite E. Qed.
Lemma total_pure {A} (X : Prop) P (m : K (W:=W) A) Q : (X -> total P m Q) -> total (fun c => X /\ P c) m Q.
Proof. intros Hm c Hf [HX Hc]. by apply (Hm HX). Qed.
Lemma total_forK {A} (I : list A -> cluster W -> Prop) (f : A -> K (W:=W) unit) l :
  (forall x rest, total (I (x :: rest)) (f x) (fun _ => I rest)) -> total (I l) (forK l f) (fun _ => I []).
Proof.
  intros Hf. induction l as [|x rest IH]; simpl; [intros c Hc Hi; by exists tt, c|].
  eapply total_bind; [apply Hf|]. intros []. exact IH.
Qed.

Lemma reading_answers {A} (f : cluster W -> api_error + A) c : cl_faults c = [] -> reading f c = (f c, c).
Proof. intros Hf. unfold reading, pop_fault. by rewrite Hf. Qed.
Lemma writing_answers f c : cl_faults c = [] ->
  writing f c = match f c with inl e => (Some e, c) | inr c' => (None, c') end.
Proof. intros Hf. unfold writing, pop_fault. by rewrite Hf. Qed.

Lemma total_read {A} (P : cluster W -> Prop) (f : cluster W -> api_error + A) :
  (forall c, P c -> exists a, f c = inr a) -> total P (call (reading f)) (fun a c => f c = inr a /\ P c).
Proof.
  intros Hr c Hf Hc. destruct (Hr c Hc) as [a Ha]. exists a, c. unfold call. by rewrite reading_answers, Ha.
Qed.
Lemma total_write (P Q : cluster W -> Prop) f :
  (forall c, P c -> exists c', f c = inr c' /\ cl_faults c' = cl_faults c /\ Q c') ->
  total P (callW (writing f)) (fun _ => Q).
Proof.
  intros Hw c Hf Hc. destruct (Hw c Hc) as (c' & Hc' & Hf' & HQ). exists tt, c'. unfold callW.
  rewrite writing_answers, Hc' by done. by rewrite Hf', Hf.
Qed.
Lemma total_ignore (P Q : cluster W -> Prop) f :
  (forall c, P c -> exists c', f c = inr c' /\ cl_faults c' = cl_faults c /\ Q c') ->
  total P (ignoreNotFound (writing f)) (fun _ => Q).
Proof.
  intros Hw c Hf Hc. destruct (Hw c Hc) as (c' & Hc' & Hf' & HQ). exists tt, c'. unfold ignoreNotFound.
  rewrite writing_answers, Hc' by done. by rewrite Hf', Hf.
Qed.
End Total.

Ltac tbind := eapply total_bind; [|intros ?].

(** ** The children of a network *)
Section Children.
Context {W : Type} {SC : StatusConditions} {OR : OwnerRefs} {C : SeiConfig} {H : Hashes}
  {SCL : StatusConditionsLaws SC} {ORL : OwnerRefsLaws OR}.
Variables (now : Z) (net : SeiNetwork).
Implicit Types (c : cluster W) (ch : Child) (m : gmap string Child).

Definition names_replica (i : nat) : Prop := i < Z.to_nat (sn_Replicas (sw_Spec net)).
Definition adoptable ch : Prop :=
  GetControllerOf (ch_Owners ch) = None \/ IsControlledBy (ch_Owners ch) net = true.

(** A child that needs no sync. *)
Definition in_line (i : nat) ch : Prop :=
  exists d, desiredChild net i = Ok d /\ IsControlledBy (ch_Owners ch) net = true /\ syncChild net d ch false = (ch, false).

Lemma get_controller_nil : GetControllerOf [] = None.
Proof. destruct (GetControllerOf []) as [r|] eqn:E; [|done]. by apply controller_in in E as [[] _]. Qed.
Lemma desiredChild_total i : exists d, desiredChild net i = Ok d /\ IsControlledBy (ch_Owners d) net = true.
Proof.
  unfold desiredChild, IsControlledBy. set (d := if configValuesRejected net then _ else _).
  assert (Hd : ch_Owners d = []) by (unfold d; by destruct (configValuesRejected net)).
  destruct (controller_set (ch_Owners d) (network_ref net)) as (refs & Hs & Hg); [by rewrite Hd, get_controller_nil|done|].
  rewrite Hs. eexists. split; [done|]. simpl. rewrite Hg. simpl. apply String.eqb_refl.
Qed.
Lemma adoptChild_total ch : adoptable ch ->
  exists ch' b, adoptChild net ch = Ok (ch', b) /\ keeps_identity ch ch' /\ IsControlledBy (ch_Owners ch') net = true /\
    (b = false -> ch' = ch).
Proof.
  unfold adoptable, adoptChild, IsControlledBy. destruct (GetControllerOf (ch_Owners ch)) as [r|] eqn:Er.
  - intros [|Hu]; [done|]. rewrite Hu. simpl. exists ch, false. rewrite Er. split_and!; [done|apply keeps_identity_refl|done|done].
  - intros _. destruct (controller_set _ (network_ref net) Er eq_refl) as (refs & Hs & Hg). rewrite Hs.
    do 2 eexists. split; [done|]. simpl. rewrite Hg. simpl. split_and!; [apply keeps_owners, keeps_identity_refl|apply String.eqb_refl|done].
Qed.

(** Every field is in line after a sync, so a second finds nothing to do. *)
Lemma sync_id {A} `{EqDecision A} (get : Child -> A) set want ch b :
  get ch = want -> sync get set want (ch, b) = (ch, b).
Proof. intros Hg. unfold sync. by rewrite decide_True. Qed.

Ltac sync_field f :=
  repeat first [by apply (sync_get f) | apply (sync_other _ _ _ _ f); [done|]]; reflexivity.
Lemma syncChild_line d ch b :
  let x := (syncChild net d ch b).1 in
  ch_Labels x = ch_Labels d /\ ch_Annotations x = ch_Annotations d /\ sp_Image (ch_Spec x) = sp_Image (ch_Spec d) /\
  sp_Sidecar (ch_Spec x) = sp_Sidecar (ch_Spec d) /\ sp_Scheduling (ch_Spec x) = sp_Scheduling (ch_Spec d) /\
  ch_PodLabels x = ch_PodLabels d /\ sp_Overrides (ch_Spec x) = sp_Overrides (ch_Spec d) /\
  (configValuesRejected net = false -> sp_ConfigValues (ch_Spec x) = sp_ConfigValues (ch_Spec d)) /\ ch_Owners x = ch_Owners ch.
Proof.
  simpl. unfold syncChild. destruct (configValuesRejected net); split_and!; try done.
  all: first [intros _; sync_field (fun x => sp_ConfigValues (ch_Spec x)) | sync_field ch_Labels | sync_field ch_Annotations
    | sync_field (fun x => sp_Image (ch_Spec x)) | sync_field (fun x => sp_Sidecar (ch_Spec x))
    | sync_field (fun x => sp_Scheduling (ch_Spec x)) | sync_field ch_PodLabels
    | sync_field (fun x => sp_Overrides (ch_Spec x)) | sync_field ch_Owners].
Qed.

Lemma syncChild_id d x :
  ch_Labels x = ch_Labels d -> ch_Annotations x = ch_Annotations d -> sp_Image (ch_Spec x) = sp_Image (ch_Spec d) ->
  sp_Sidecar (ch_Spec x) = sp_Sidecar (ch_Spec d) -> sp_Scheduling (ch_Spec x) = sp_Scheduling (ch_Spec d) ->
  ch_PodLabels x = ch_PodLabels d -> sp_Overrides (ch_Spec x) = sp_Overrides (ch_Spec d) ->
  (configValuesRejected net = false -> sp_ConfigValues (ch_Spec x) = sp_ConfigValues (ch_Spec d)) ->
  syncChild net d x false = (x, false).
Proof.
  intros H1 H2 H3 H4 H5 H6 H7 H8. unfold syncChild. rewrite !sync_id by done.
  destruct (configValuesRejected net); [done|]. by rewrite sync_id by (by apply H8).
Qed.

Lemma syncChild_in_line i d ch b :
  desiredChild net i = Ok d -> IsControlledBy (ch_Owners ch) net = true -> in_line i (syncChild net d ch b).1.
Proof.
  intros Hd Hc. exists d. split; [done|]. destruct (syncChild_line d ch b) as (H1 & H2 & H3 & H4 & H5 & H6 & H7 & H8 & H9).
  split; [by rewrite H9|]. by apply syncChild_id.
Qed.
Lemma created_in_line i d : desiredChild net i = Ok d -> in_line i (as_created now d).
Proof.
  intros Hd. destruct (desiredChild_total i) as (d' & Hd' & Hc). rewrite Hd in Hd'. injection Hd' as <-.
  exists d. split; [done|]. split; [exact Hc|]. by apply syncChild_id.
Qed.

(** A sync that updates nothing leaves the child. *)
Lemma sync_kept {A} `{EqDecision A} (get : Child -> A) set want p ch b :
  (p.2 = false -> p = (ch, b)) -> (sync get set want p).2 = false -> sync get set want p = (ch, b).
Proof. unfold sync. intros Hp. destruct (decide _); [exact Hp|done]. Qed.
Lemma syncChild_kept d ch b : (syncChild net d ch b).2 = false -> syncChild net d ch b = (ch, b).
Proof. unfold syncChild. destruct (configValuesRejected net); repeat (apply sync_kept); done. Qed.
Lemma sync_true {A} `{EqDecision A} (get : Child -> A) set want p : p.2 = true -> (sync get set want p).2 = true.
Proof. unfold sync. by destruct (decide _). Qed.

(** What becomes of the child at the name of ordinal [i]: made, brought in line,
    or left to its deletion. *)
Definition ensured (m : gmap string Child) (i : nat) (o : option Child) : Prop :=
  match m !! seiNodeName net i with
  | None => exists ch, o = Some ch /\ in_line i ch /\ ch_Deleting ch = false /\ ch_Name ch = seiNodeName net i
  | Some old =>
      if ch_Deleting old then o = Some old
      else exists ch, o = Some ch /\ in_line i ch /\ ch_Deleting ch = false /\ keeps_identity old ch
  end.

Lemma total_liftR {A} (r : result A) a (P : cluster W -> Prop) : r = Ok a -> total P (liftR r) (fun x c => x = a /\ P c).
Proof. intros -> c Hf Hc. by exists a, c. Qed.
Lemma total_try P name : total P (TryGetChild (W:=W) name) (fun o c => P c /\ cl_nodes c !! name = o).
Proof.
  intros c Hf Hc. unfold TryGetChild, GetChild. rewrite reading_answers by done.
  destruct (cl_nodes c !! name) as [ch|] eqn:El; [by exists (Some ch), c|by exists None, c].
Qed.

Lemma total_ensure m i :
  keyed m -> (forall ch, m !! seiNodeName net i = Some ch -> ch_Deleting ch = false -> adoptable ch) ->
  total (fun c => cl_nodes c = m) (ensureSeiNode now net i)
    (fun _ c => exists o, ensured m i o /\ cl_nodes c = partial_alter (fun _ => o) (seiNodeName net i) m).
Proof.
  intros Hk Had. unfold ensureSeiNode. destruct (desiredChild_total i) as (d & Hd & Hctl).
  pose proof (desiredChild_name net i d Hd) as Hn.
  tbind; [by eapply total_liftR|]. apply total_pure. intros ->. rewrite Hn.
  tbind; [apply total_try|]. destruct a as [old|].
  - destruct (ch_Deleting old) eqn:Edel.
    { intros c Hf [Hc Ho]. exists tt, c. split_and!; [done..|]. exists (Some old). subst m. unfold ensured. rewrite Ho, Edel.
      split; [done|]. apply map_eq. intros k. destruct (decide (k = seiNodeName net i)) as [->|Hne];
        [by rewrite lookup_partial_alter_eq|by rewrite lookup_partial_alter_ne]. }
    intros c Hf [Hc Ho]. subst m. destruct (adoptChild_total old (Had _ Ho Edel)) as (ch & b & Ea & Hki & Hc1 & Hb).
    pose proof (syncChild_identity net d old ch b Hki) as Hks. pose proof (syncChild_in_line i d ch b Hd Hc1) as Hline.
    unfold mbind, K_bind, liftR. rewrite Ea. destruct (syncChild net d ch b) as [new u] eqn:Es. simpl in Hks, Hline.
    assert (Hnew : ch_Name new = seiNodeName net i /\ ch_Deleting new = false).
    { destruct Hks as (? & ? & ? & ? & ? & ? & ? & ? & ? & ->). split; [exact (Hk _ _ Ho)|done]. }
    destruct Hnew as [Hnn Hnd]. destruct u.
    + unfold UpdateChild, store_child, callW. rewrite writing_answers by done. rewrite Hnn, Ho, (as_updated_identity _ _ Hks).
      exists tt, (cl_write (<[seiNodeName net i:=new]> (cl_nodes c)) (EUpdate old new) c). split_and!; [done..|].
      exists (Some new). unfold ensured. rewrite Ho, Edel. split; [|done]. by exists new.
    + exists tt, c. split_and!; [done..|]. exists (Some old). unfold ensured. rewrite Ho, Edel.
      pose proof (syncChild_kept d ch b) as Hkept. rewrite Es in Hkept. specialize (Hkept eq_refl). injection Hkept as -> <-.
      rewrite (Hb eq_refl) in *. split; [by exists old|]. apply map_eq. intros k.
      destruct (decide (k = seiNodeName net i)) as [->|Hne]; [by rewrite lookup_partial_alter_eq|by rewrite lookup_partial_alter_ne].
  - intros c Hf [Hc Ho]. subst m. unfold CreateChild, callW. rewrite writing_answers, Hn, Ho by done.
    eexists tt, _. split; [reflexivity|]. split; [done|]. exists (Some (as_created now d)). unfold ensured. rewrite Ho.
    split; [|done]. exists (as_created now d). split; [done|]. split; [by apply created_in_line|].
    split; [|exact Hn]. unfold desiredChild in Hd. destruct (SetControllerReference _ _); [|done]. injection Hd as <-.
    by destruct (configValuesRejected net).
Qed.

Lemma seiNodeName_inj i j : seiNodeName net i = seiNodeName net j -> i = j.
Proof. unfold seiNodeName. intros Heq. by do 2 apply (inj (String.append _)) in Heq; apply (inj pretty) in Heq. Qed.

Lemma ensured_name m i ch : keyed m -> ensured m i (Some ch) -> ch_Name ch = seiNodeName net i.
Proof.
  intros Hk. unfold ensured. destruct (m !! seiNodeName net i) as [old|] eqn:Eo.
  - pose proof (Hk _ _ Eo) as Hn. destruct (ch_Deleting old); [by intros [= ->]|].
    intros (x & [= <-] & _ & _ & (? & ? & ? & ? & ? & ? & ? & ? & ? & ->)). exact Hn.
  - by intros (x & [= <-] & _ & _ & ?).
Qed.
Lemma ensured_some m i o : ensured m i o -> is_Some o.
Proof.
  unfold ensured. destruct (m !! _) as [old|]; [destruct (ch_Deleting old); [intros ->; by eexists|]|]; intros (x & -> & _); by eexists.
Qed.

(** The children after some of the ordinals; [rest] are still to do. *)
Definition ensuring m (rest : list nat) m' : Prop :=
  keyed m' /\ NoDup rest /\ Forall names_replica rest /\
  (forall i, names_replica i -> if decide (i ∈ rest) then m' !! seiNodeName net i = m !! seiNodeName net i
                                else ensured m i (m' !! seiNodeName net i)) /\
  (forall k, (forall i, names_replica i -> k <> seiNodeName net i) -> m' !! k = m !! k).

Lemma total_ensureAll m :
  keyed m -> (forall i ch, names_replica i -> m !! seiNodeName net i = Some ch -> ch_Deleting ch = false -> adoptable ch) ->
  total (fun c => cl_nodes c = m) (ensureAll now net) (fun _ c => ensuring m [] (cl_nodes c)).
Proof.
  intros Hk Had. unfold ensureAll. set (n := Z.to_nat (sn_Replicas (sw_Spec net))).
  eapply total_conseq; [apply (total_forK (fun rest c => ensuring m rest (cl_nodes c)))| |done].
  - intros i rest. apply total_wrap. intros c Hf (Hk' & Hnd & Hall & Hin & Hout).
    apply NoDup_cons in Hnd as [Hi Hnd]. apply Forall_cons in Hall as [Hri Hall].
    assert (Hsame : cl_nodes c !! seiNodeName net i = m !! seiNodeName net i).
    { specialize (Hin i Hri). rewrite decide_True in Hin by (by left). exact Hin. }
    destruct (total_ensure (cl_nodes c) i Hk') with (c := c) as ([] & c' & E & Hf' & o & Ho & Hc'); [|done..|].
    { intros ch Hl Hd. rewrite Hsame in Hl. by eapply Had. }
    exists tt, c'. split; [done|]. split; [done|].
    assert (Heq : cl_nodes c' !! seiNodeName net i = o) by (rewrite Hc'; apply lookup_partial_alter_eq).
    assert (Hne : forall k, k <> seiNodeName net i -> cl_nodes c' !! k = cl_nodes c !! k)
      by (intros k Hkk; rewrite Hc'; by apply lookup_partial_alter_ne).
    split_and!; [|done|done|..].
    + intros k ch Hl. destruct (decide (k = seiNodeName net i)) as [->|Hkk]; [|rewrite Hne in Hl by done; by apply Hk'].
      rewrite Heq in Hl. rewrite Hl in Ho. exact (ensured_name _ _ _ Hk' Ho).
    + intros j Hj. destruct (decide (j = i)) as [->|Hji].
      * rewrite decide_False by done. rewrite Heq. unfold ensured in *. by rewrite Hsame in Ho.
      * rewrite Hne by (intros Hx; by apply Hji, seiNodeName_inj). specialize (Hin j Hj).
        destruct (decide (j ∈ rest)); [by rewrite decide_True in Hin by (by right)|].
        rewrite decide_False in Hin; [done|]. by intros [|]%elem_of_cons.
    + intros k Hkk. rewrite Hne by (by apply Hkk). by apply Hout.
  - intros c Hc. cbv beta. rewrite Hc. split_and!; [done|apply NoDup_seq| | |done].
    + apply Forall_forall. intros i Hi%elem_of_seq. unfold names_replica. lia.
    + intros i Hi. rewrite decide_True; [done|]. apply elem_of_seq. unfold names_replica in Hi. lia.
Qed.

(** *** A second pass *)
Definition settled m : Prop :=
  forall i, names_replica i -> exists ch, m !! seiNodeName net i = Some ch /\ (ch_Deleting ch = true \/ in_line i ch).

Lemma ensure_idle c i : cl_faults c = [] -> settled (cl_nodes c) -> names_replica i -> ensureSeiNode now net i c = (Ok tt, c).
Proof.
  intros Hf Hs Hi. destruct (Hs i Hi) as (ch & Hl & Hch). unfold ensureSeiNode, mbind, K_bind, liftR.
  destruct (desiredChild_total i) as (d & Hd & _). rewrite Hd. pose proof (desiredChild_name net i d Hd) as Hn.
  destruct (total_try (fun c' => c' = c) (ch_Name d) c Hf eq_refl) as (o & c' & E & _ & -> & Ho). rewrite E, <- Ho, Hn, Hl.
  destruct (ch_Deleting ch); [done|]. destruct Hch as [|(d' & Hd' & Hctl & Hsync)]; [done|].
  rewrite Hd in Hd'. injection Hd' as <-. unfold adoptChild. unfold IsControlledBy in Hctl.
  destruct (GetControllerOf (ch_Owners ch)); [|done]. rewrite Hctl. simpl. by rewrite Hsync.
Qed.
Lemma ensureAll_idle c : cl_faults c = [] -> settled (cl_nodes c) -> ensureAll now net c = (Ok tt, c).
Proof.
  intros Hf Hs. unfold ensureAll.
  assert (Hall : Forall names_replica (seq 0 (Z.to_nat (sn_Replicas (sw_Spec net))))).
  { apply Forall_forall. intros i Hi%elem_of_seq. unfold names_replica. lia. }
  induction Hall as [|i l Hi _ IH]; simpl; [done|]. unfold mbind, K_bind, wrap. by rewrite ensure_idle.
Qed.

Lemma ensuring_settled m m' : ensuring m [] m' -> settled m'.
Proof.
  intros (_ & _ & _ & Hin & _) i Hi. specialize (Hin i Hi). rewrite decide_False in Hin by apply not_elem_of_nil.
  pose proof (ensured_some _ _ _ Hin) as [ch Hch]. exists ch. split; [done|]. rewrite Hch in Hin. unfold ensured in Hin.
  destruct (m !! seiNodeName net i) as [old|]; [destruct (ch_Deleting old) eqn:Ed|]; [injection Hin as ->; by left| |];
    destruct Hin as (x & [= <-] & Hl & _); by right.
Qed.

(** *** Scaling down *)

(** An owned child whose ordinal is beyond the replicas. *)
Definition excess ch : Prop :=
  owned net ch /\ exists ord, scan_int (default "" (ch_Labels ch !! seinetworkOrdinalLabel)) = Some ord /\
    (sn_Replicas (sw_Spec net) <= ord)%Z.
#[local] Instance excess_dec ch : Decision (excess ch).
Proof.
  unfold excess, owned. destruct (scan_int _) as [ord|].
  - destruct (decide (sn_Replicas (sw_Spec net) <= ord)%Z); destruct (decide (seinetworkSelector net ⊆ ch_Labels ch));
      destruct (decide (IsControlledBy (ch_Owners ch) net = true)); first [left; naive_solver|right; naive_solver].
  - right. naive_solver.
Defined.
Definition scaled ch : option Child :=
  if decide (excess ch) then if ch_Finalizer ch then Some (ch_deleted ch) else None else Some ch.

Lemma total_scaleDown m :
  keyed m -> (0 < sn_Replicas (sw_Spec net))%Z ->
  total (fun c => cl_nodes c = m) (scaleDown net) (fun _ c => cl_nodes c = omap scaled m).
Proof.
  intros Hk Hpos. unfold scaleDown. rewrite (proj2 (Z.leb_gt _ _)) by done.
  set (sel := fun ch => seinetworkSelector net ⊆ ch_Labels ch).
  tbind; [apply total_wrap, total_read; intros c _; by eexists|].
  set (I := fun rest c => pending sel rest c /\
    forall k, cl_nodes c !! k = if decide (k ∈ ch_Name <$> rest) then m !! k else m !! k ≫= scaled).
  assert (Hscale : forall ch, ~ excess ch -> scaled ch = Some ch) by (intros ch Hx; unfold scaled; by rewrite decide_False).
  eapply total_conseq; [apply (total_forK I)| |].
  - intros x rest c Hf [Hp Hl]. pose proof (pending_cons _ _ _ _ Hp) as (Hsel & Hx & Hrest). simpl in Hx.
    pose proof Hp as [Hnd _]. rewrite fmap_cons, NoDup_cons in Hnd. destruct Hnd as [Hxr Hnd].
    assert (Hmx : m !! ch_Name x = Some x).
    { specialize (Hl (ch_Name x)). rewrite decide_True in Hl by (rewrite fmap_cons; by left). congruence. }
    assert (Hend : forall c', cl_faults c' = [] -> (forall k, k <> ch_Name x -> cl_nodes c' !! k = cl_nodes c !! k) ->
      cl_nodes c' !! ch_Name x = scaled x -> cl_faults c' = [] /\ I rest c').
    { intros c' Hf' Hne Hxx. split; [done|]. split; [by eapply pending_write|]. intros k.
      destruct (decide (k = ch_Name x)) as [->|Hkx]; [rewrite decide_False by done; by rewrite Hxx, Hmx|].
      rewrite Hne, Hl by done. destruct (decide (k ∈ ch_Name <$> rest)) as [Hin|Hin].
      - rewrite decide_True; [done|]. rewrite fmap_cons. by right.
      - rewrite decide_False; [done|]. rewrite fmap_cons. set_solver. }
    assert (Hskip : ~ excess x -> cl_faults c = [] /\ I rest c) by (intros Hx'; apply Hend; [done..|]; by rewrite Hscale).
    destruct (IsControlledBy (ch_Owners x) net) eqn:Ec; simpl.
    2: { exists tt, c. split; [done|]. apply Hskip. intros [[_ Ho] _]. congruence. }
    destruct (scan_int _) as [ord|] eqn:Eo.
    2: { exists tt, c. split; [done|]. apply Hskip. intros [_ (ord & Hx' & _)]. congruence. }
    destruct (Z.leb_spec (sn_Replicas (sw_Spec net)) ord) as [Hle|Hlt].
    2: { exists tt, c. split; [done|]. apply Hskip. intros [_ (ord' & Hx' & Hle)]. rewrite Eo in Hx'. injection Hx' as <-. lia. }
    assert (Hex : excess x) by (split; [done|]; by exists ord).
    unfold wrap, ignoreNotFound, DeleteChild. rewrite writing_answers, Hx by done. eexists tt, _. split; [reflexivity|].
    apply Hend; [done| |]; simpl.
    + intros k Hne. destruct (ch_Finalizer x); [by rewrite lookup_insert_ne|by rewrite lookup_delete_ne].
    + unfold scaled. rewrite decide_True by done. destruct (ch_Finalizer x); [by rewrite lookup_insert_eq|by rewrite lookup_delete_eq].
  - intros c [[= <-] <-]. split; [exact (listed_pending _ c Hk)|]. intros k.
    destruct (decide (k ∈ _)) as [|Hno]; [done|]. destruct (cl_nodes c !! k) as [ch|] eqn:Ek; [|done]. simpl.
    symmetry. apply Hscale. intros [[Hs _] _]. apply Hno. rewrite <- (Hk _ _ Ek). apply list_elem_of_fmap_2.
    apply list_elem_of_In. eapply listed_complete; [exact Ek|exact Hs].
  - intros [] c [_ Hl]. apply map_eq. intros k. by rewrite Hl, lookup_omap.
Qed.

Lemma scaled_twice ch ch' : scaled ch = Some ch' -> scaled ch' = Some ch'.
Proof.
  unfold scaled. destruct (decide (excess ch)) as [Hx|Hx].
  - destruct (ch_Finalizer ch) eqn:Ef; [|done]. intros [= <-]. simpl. rewrite Ef.
    destruct (decide _); [by destruct ch; simpl in *; subst|done].
  - intros [= <-]. by rewrite decide_False.
Qed.
Lemma scaled_map_twice m : omap scaled (omap scaled m) = omap scaled m.
Proof.
  apply map_eq. intros k. rewrite !lookup_omap. destruct (m !! k) as [ch|]; [|done]. simpl.
  destruct (scaled ch) as [ch'|] eqn:Es; [|done]. simpl. by eapply scaled_twice.
Qed.

Lemma in_line_labels i ch : in_line i ch -> ch_Labels ch = seiNodeLabels net i.
Proof.
  intros (d & Hd & _ & Hs). pose proof (syncChild_labels net d ch false) as Hl. rewrite Hs in Hl. simpl in Hl.
  by rewrite Hl, (desiredChild_labels net _ _ Hd).
Qed.
Lemma in_line_kept i ch : (sn_Replicas (sw_Spec net) <= 2 ^ 31)%Z -> names_replica i -> in_line i ch -> scaled ch = Some ch.
Proof.
  intros Hr Hi Hl. unfold scaled. rewrite decide_False; [done|]. intros [_ (ord & Ho & Hle)]. unfold names_replica in Hi.
  rewrite (in_line_labels i ch Hl), seiNodeLabels_ordinal in Ho. simpl in Ho. rewrite scan_int_pretty in Ho by lia.
  injection Ho as <-. lia.
Qed.

Lemma total_populate P : total P (populateIncumbentNodes net)
  (fun n c => (exists l, n = nw_status (ns_incumbents l) net) /\ P c).
Proof.
  intros c Hf Hc. unfold populateIncumbentNodes, listChildSeiNodes, mbind, K_bind, wrap, call, ListSeiNodes.
  rewrite reading_answers by done. simpl. eexists _, c. split; [reflexivity|]. split; [done|]. split; [by eexists|done].
Qed.

(** What a pass over the children leaves of those at the replicas' names and of the others. *)
Definition converged m m' : Prop :=
  (forall i, names_replica i ->
     match m !! seiNodeName net i with
     | Some old => ch_Deleting old = true \/
         exists ch, m' !! seiNodeName net i = Some ch /\ in_line i ch /\ ch_Deleting ch = false /\ keeps_identity old ch
     | None => exists ch, m' !! seiNodeName net i = Some ch /\ in_line i ch /\ ch_Deleting ch = false
     end) /\
  (forall k, (forall i, names_replica i -> k <> seiNodeName net i) -> m' !! k = m !! k ≫= scaled) /\
  (forall k ch, m' !! k = Some ch -> excess ch -> ch_Deleting ch = true).

Lemma scaled_converged m m1 :
  (sn_Replicas (sw_Spec net) <= 2 ^ 31)%Z -> ensuring m [] m1 -> converged m (omap scaled m1).
Proof.
  intros Hr (_ & _ & _ & Hin & Hout). split_and!.
  - intros i Hi. specialize (Hin i Hi). rewrite decide_False in Hin by apply not_elem_of_nil. unfold ensured in Hin.
    destruct (m !! seiNodeName net i) as [old|]; [destruct (ch_Deleting old); [by left|right]|];
      destruct Hin as (ch & Hc & Hl & Hrest); exists ch; rewrite lookup_omap, Hc; simpl;
      (split; [by eapply in_line_kept|]); naive_solver.
  - intros k Hk. by rewrite lookup_omap, Hout.
  - intros k ch. rewrite lookup_omap. destruct (m1 !! k) as [x|]; [|done]. simpl. unfold scaled.
    destruct (decide (excess x)) as [|Hn]; [|by intros [= <-]]. destruct (ch_Finalizer x); [by intros [= <-]|done].
Qed.

Lemma seiNodes_pass c :
  gate net -> (0 < sn_Replicas (sw_Spec net) <= 2 ^ 31)%Z -> cl_faults c = [] -> keyed (cl_nodes c) ->
  (forall i ch, names_replica i -> cl_nodes c !! seiNodeName net i = Some ch -> ch_Deleting ch = false -> adoptable ch) ->
  exists l c' m1, reconcileSeiNodes now net c = (Ok (nw_status (ns_incumbents l) net), c') /\ cl_faults c' = [] /\
    ensuring (cl_nodes c) [] m1 /\ cl_nodes c' = omap scaled m1 /\
    (settled (cl_nodes c) -> m1 = cl_nodes c).
Proof.
  intros (Hd & Hp & Hg) [Hpos Hr] Hf Hk Had. unfold reconcileSeiNodes. rewrite Hd, Hp, Hg. simpl.
  unfold mbind, K_bind.
  destruct (total_ensureAll (cl_nodes c) Hk Had c Hf eq_refl) as ([] & c1 & E1 & Hf1 & Hens). rewrite E1.
  destruct (total_scaleDown (cl_nodes c1) (proj1 Hens) Hpos c1 Hf1 eq_refl) as ([] & c2 & E2 & Hf2 & Hsc). rewrite E2.
  destruct (total_populate (fun c => c = c2) c2 Hf2 eq_refl) as (n & c3 & E3 & Hf3 & [l ->] & ->). rewrite E3.
  exists l, c2, (cl_nodes c1). split_and!; [done..|]. intros Hset. rewrite (ensureAll_idle c Hf Hset) in E1. by injection E1 as <-.
Qed.

(** C26: The children converge and stay. When the API server answers and no child
    at a replica's name belongs to another controller, a pass over the children of
    a network that is not paused, deleted or under a plan succeeds and leaves at
    every replica's name a child in line with the spec and owned by the network
    (the one that was there, its identity untouched, or a new one; one that is
    being deleted is left to go), leaves every other child as it was but for owned
    ones whose ordinal is beyond the replicas, which are all deleted or marked so;
    and, when none of the replicas is being deleted, a second pass succeeds and
    changes nothing. *)
Theorem children_converge c :
  gate net -> (0 < sn_Replicas (sw_Spec net) <= 2 ^ 31)%Z -> cl_faults c = [] -> keyed (cl_nodes c) ->
  (forall i ch, names_replica i -> cl_nodes c !! seiNodeName net i = Some ch -> ch_Deleting ch = false -> adoptable ch) ->
  exists l c', reconcileSeiNodes now net c = (Ok (nw_status (ns_incumbents l) net), c') /\
    converged (cl_nodes c) (cl_nodes c') /\
    ((forall i ch, names_replica i -> cl_nodes c !! seiNodeName net i = Some ch -> ch_Deleting ch = false) ->
     exists l' c'', reconcileSeiNodes now net c' = (Ok (nw_status (ns_incumbents l') net), c'') /\ cl_nodes c'' = cl_nodes c').
Proof.
  intros Hg Hr Hf Hk Had. destruct (seiNodes_pass c Hg Hr Hf Hk Had) as (l & c1 & m1 & E & Hf1 & Hens & Hn & _).
  exists l, c1. split; [done|]. destruct Hr as [Hpos Hr]. pose proof (scaled_converged _ _ Hr Hens) as Hconv. rewrite <- Hn in Hconv.
  split; [done|]. intros Hno.
  assert (Hline : forall i, names_replica i -> exists ch, cl_nodes c1 !! seiNodeName net i = Some ch /\ in_line i ch).
  { intros i Hi. destruct Hconv as [Hc _]. specialize (Hc i Hi). specialize (Hno i).
    destruct (cl_nodes c !! seiNodeName net i) as [old|]; [|naive_solver].
    rewrite (Hno old Hi eq_refl) in Hc. naive_solver. }
  assert (Hk1 : keyed (cl_nodes c1)).
  { rewrite Hn. intros k ch. rewrite lookup_omap. destruct (m1 !! k) as [x|] eqn:Ex; [|done]. simpl. unfold scaled.
    pose proof (proj1 Hens _ _ Ex) as Hx. destruct (decide _); [|by intros [= <-]]. destruct (ch_Finalizer x); [|done].
    by intros [= <-]. }
  assert (Had1 : forall i ch, names_replica i -> cl_nodes c1 !! seiNodeName net i = Some ch -> ch_Deleting ch = false -> adoptable ch).
  { intros i ch Hi Hc _. destruct (Hline i Hi) as (x & Hx & _ & _ & Hctl & _). rewrite Hx in Hc. injection Hc as <-. by right. }
  destruct (seiNodes_pass c1 Hg (conj Hpos Hr) Hf1 Hk1 Had1) as (l' & c2 & m2 & E2 & _ & _ & Hn2 & Hset).
  exists l', c2. split; [done|]. rewrite Hn2, Hset, Hn; [apply scaled_map_twice|].
  intros i Hi. destruct (Hline i Hi) as (x & Hx & Hl). exists x. split; [done|by right].
Qed.
End Children.

(** ** Retain *)
Section Retain.
Context {W : Type} {SC : StatusConditions} {OR : OwnerRefs} {C : SeiConfig} {H : Hashes} {NS : NodeSidecars W}
  {SCL : StatusConditionsLaws SC} {ORL : OwnerRefsLaws OR}.
Context (libs : ClientLibs) (Rest : TaskRuntime (cluster W)).
Implicit Types (net : SeiNetwork) (c : cluster W) (ch : Child) (m : gmap string Child).

Definition release net ch : Child :=
  ch_annotations (retain_record net (ch_Annotations ch)) (ch_owners (released_refs net (ch_Owners ch)) ch).
#[local] Instance owned_dec net ch : Decision (owned net ch).
Proof. unfold owned. apply _. Defined.
Definition released net ch : Child := if decide (owned net ch) then release net ch else ch.

Lemma total_orphan net m :
  keyed m -> total (fun c => cl_nodes c = m) (orphanChildSeiNodes net) (fun _ c => cl_nodes c = released net <$> m).
Proof.
  intros Hk. unfold orphanChildSeiNodes, listChildSeiNodes, ListSeiNodes.
  set (I := fun rest c => pending (owned net) rest c /\
    forall k, cl_nodes c !! k = if decide (k ∈ ch_Name <$> rest) then m !! k else released net <$> m !! k).
  eapply (total_bind _ _ (fun rest c => I rest c)).
  - intros c Hf Hc. unfold mbind, K_bind, wrap, call. rewrite reading_answers by done. simpl. do 2 eexists. split; [reflexivity|].
    split; [done|]. cbv beta in Hc. subst m. split.
    + eapply pending_filter; [by apply listed_pending|]. by intros ch.
    + intros k. destruct (decide _) as [|Hno]; [done|]. destruct (cl_nodes c !! k) as [ch|] eqn:Ek; [|done]. simpl. f_equal.
      unfold released. rewrite decide_False; [done|]. intros [Hs Ho]. apply Hno. rewrite <- (Hk _ _ Ek). apply list_elem_of_fmap_2.
      apply list_elem_of_In, List.filter_In. split; [by eapply listed_complete|done].
  - intros l. eapply total_conseq; [apply (total_forK I)|done|].
    + intros x rest. apply total_wrap. intros c Hf [Hp Hl]. pose proof (pending_cons _ _ _ _ Hp) as (Ho & Hx & Hrest).
      pose proof Hp as [Hnd _]. rewrite fmap_cons, NoDup_cons in Hnd. destruct Hnd as [Hxr Hnd].
      assert (Hmx : m !! ch_Name x = Some x).
      { specialize (Hl (ch_Name x)). rewrite decide_True in Hl by (rewrite fmap_cons; by left). congruence. }
      unfold retainChild, PatchRelease, store_child, callW. rewrite writing_answers, Hx by done.
      eexists tt, _. split; [reflexivity|]. split; [done|]. split.
      * eapply pending_write; [exact Hp|]. intros k Hne. simpl. by rewrite lookup_insert_ne.
      * intros k. simpl. destruct (decide (k = ch_Name x)) as [->|Hkx].
        { rewrite lookup_insert_eq, decide_False, Hmx by done. simpl. unfold released. by rewrite decide_True. }
        rewrite lookup_insert_ne, Hl by done. destruct (decide (k ∈ ch_Name <$> rest)) as [Hin|Hin].
        { rewrite decide_True; [done|]. rewrite fmap_cons. by right. }
        rewrite decide_False; [done|]. rewrite fmap_cons. set_solver.
    + intros [] c [_ Hl]. apply map_eq. intros k. by rewrite Hl, lookup_fmap.
Qed.

(** The deletion of a network under Retain, on a server that answers. *)
Lemma deletion_releases now planID net c :
  cl_net c = Some net -> sw_Deleting net = true -> sw_Finalizer net = true -> sn_DeletionPolicy (sw_Spec net) = DeletionPolicyRetain ->
  cl_faults c = [] -> keyed (cl_nodes c) ->
  exists c', ReconcileNetwork libs Rest now planID c = (Ok ResultNone, c') /\ cl_net c' = None /\ cl_faults c' = [] /\
    cl_nodes c' = released net <$> cl_nodes c.
Proof.
  intros Hn Hd Hfin Hpol Hf Hk. unfold ReconcileNetwork, GetNetwork, mbind, K_bind, call. rewrite reading_answers, Hn, Hd by done.
  unfold handleDeletion. rewrite Hfin. simpl. unfold mbind, K_bind, wrap, callW, PatchNetworkStatus.
  rewrite writing_answers, Hn by done. rewrite decide_False by (rewrite Hpol; by intros [|]).
  set (c1 := cl_set_net _ c). destruct (total_orphan net (cl_nodes c) Hk c1 Hf eq_refl) as ([] & c2 & E2 & Hf2 & Hn2).
  pose proof (orphan_keeps net c1) as Hnet2. rewrite E2 in Hnet2. simpl in Hnet2. rewrite E2.
  assert (Hsvc : exists c3, orphanInternalService net c2 = (Ok tt, c3) /\ cl_faults c3 = [] /\ cl_nodes c3 = cl_nodes c2 /\ cl_net c3 = cl_net c2).
  { unfold orphanInternalService, GetService, mbind, K_bind, wrap, call. rewrite reading_answers by done. simpl.
    destruct (cl_svc c2) as [s|] eqn:Es; [|by exists c2]. unfold callW, PatchServiceMeta, PatchService. rewrite writing_answers, Es by done.
    eexists. split; [reflexivity|]. by rewrite <- Hf2. }
  destruct Hsvc as (c3 & E3 & Hf3 & Hn3 & Hnet3). rewrite E3. unfold PatchNetworkFinalizer. cbn [wrap_err]. rewrite writing_answers by done.
  rewrite Hnet3, Hnet2. simpl. rewrite Hd. eexists. split; [reflexivity|]. simpl. by rewrite Hn3, Hn2.
Qed.

Lemma keeps_identity_trans x y z : keeps_identity x y -> keeps_identity y z -> keeps_identity x z.
Proof.
  intros Hab (? & ? & ? & ? & ? & ? & ? & ? & ? & ->). apply keeps_labels, keeps_annotations, keeps_owners, keeps_podlabels.
  by apply (keeps_image _ _ _ (keeps_sidecar _ _ _ (keeps_scheduling _ _ _ (keeps_overrides _ _ _ (keeps_values _ _ _ Hab))))).
Qed.
Lemma release_identity net ch : keeps_identity ch (release net ch).
Proof. apply keeps_annotations, keeps_owners, keeps_identity_refl. Qed.

(** No other object controls the child: the API server admits one controller. *)
Definition sole_controller net ch : Prop := forall r, In r (ch_Owners ch) -> or_Controller r = true -> or_UID r = sw_UID net.

Lemma release_uncontrolled net ch : sole_controller net ch -> GetControllerOf (ch_Owners (release net ch)) = None.
Proof.
  intros Hs. destruct (GetControllerOf _) as [r|] eqn:E; [|done]. apply controller_in in E as [Hin Hc].
  apply List.filter_In in Hin as [Hin Hu]. rewrite (Hs r Hin Hc), String.eqb_refl in Hu. done.
Qed.

Lemma in_line_annotations net i ch : in_line net i ch -> ch_Annotations ch = ∅.
Proof.
  intros (d & Hd & _ & Hs). destruct (syncChild_line net d ch false) as (_ & Ha & _). rewrite Hs in Ha. simpl in Ha. rewrite Ha.
  unfold desiredChild in Hd. destruct (SetControllerReference _ _); [|done]. injection Hd as <-. by destruct (configValuesRejected net).
Qed.

(** C25: Retain loses nothing. Deleting a network under Retain, on a server that
    answers, ends with the network gone and every child it owned in place, without
    a controller, and carrying the name of the network and the reason it was kept.
    When a network of the same name, with another UID and any spec, then makes its
    pass, every replica whose child was retained is the same child again: adopted,
    in line with the new spec, with its identity (creation, status, data volume,
    validator settings, all a sync does not own) as it was before the deletion, and
    the retain record is gone. *)
Theorem retain_then_recreate now now' planID net net' c :
  cl_net c = Some net -> sw_Deleting net = true -> sw_Finalizer net = true ->
  sn_DeletionPolicy (sw_Spec net) = DeletionPolicyRetain -> cl_faults c = [] -> keyed (cl_nodes c) ->
  (forall k ch, cl_nodes c !! k = Some ch -> owned net ch -> sole_controller net ch) ->
  sw_Name net' = sw_Name net -> gate net' -> (0 < sn_Replicas (sw_Spec net') <= 2 ^ 31)%Z ->
  (forall i, names_replica net' i ->
     exists ch, cl_nodes c !! seiNodeName net i = Some ch /\ owned net ch /\ ch_Deleting ch = false) ->
  exists c1, ReconcileNetwork libs Rest now planID c = (Ok ResultNone, c1) /\ cl_net c1 = None /\
    (forall k ch, cl_nodes c !! k = Some ch -> owned net ch ->
       exists ch1, cl_nodes c1 !! k = Some ch1 /\ GetControllerOf (ch_Owners ch1) = None /\
         ch_Annotations ch1 !! RetainedFromAnnotation = Some (sw_Name net) /\
         ch_Annotations ch1 !! RetainReasonAnnotation = Some retainReason) /\
    exists l c2, reconcileSeiNodes now' net' (cl_set_net (Some net') c1) = (Ok (nw_status (ns_incumbents l) net'), c2) /\
      forall i ch, names_replica net' i -> cl_nodes c !! seiNodeName net i = Some ch ->
        exists ch2, cl_nodes c2 !! seiNodeName net i = Some ch2 /\ in_line net' i ch2 /\ keeps_identity ch ch2 /\
          ch_Annotations ch2 !! RetainReasonAnnotation = None.
Proof.
  intros Hn Hd Hfin Hpol Hf Hk Hsole Hname Hg Hr Hset.
  destruct (deletion_releases now planID net c Hn Hd Hfin Hpol Hf Hk) as (c1 & E1 & Hn1 & Hf1 & Hm1).
  exists c1. split; [done|]. split; [done|].
  assert (Hrel : forall k ch, cl_nodes c !! k = Some ch -> owned net ch -> cl_nodes c1 !! k = Some (release net ch)).
  { intros k ch Hc Ho. rewrite Hm1, lookup_fmap, Hc. simpl. unfold released. by rewrite decide_True. }
  split.
  { intros k ch Hc Ho. exists (release net ch). split; [by apply Hrel|]. split; [by eapply release_uncontrolled, Hsole|].
    unfold ch_Annotations. simpl. unfold retain_record. split; [|by rewrite lookup_insert_eq].
    rewrite lookup_insert_ne by done. by rewrite lookup_insert_eq. }
  assert (Hnames : forall i, seiNodeName net' i = seiNodeName net i) by (intros i; unfold seiNodeName; by rewrite Hname).
  set (c1' := cl_set_net (Some net') c1).
  assert (Hk1 : keyed (cl_nodes c1')).
  { simpl. rewrite Hm1. apply keyed_fmap; [|done]. intros ch. unfold released. by destruct (decide _). }
  destruct (seiNodes_pass now' net' c1' Hg Hr Hf1 Hk1) as (l & c2 & m1 & E2 & _ & Hens & Hn2 & _).
  { intros i ch Hi Hc _. rewrite Hnames in Hc. destruct (Hset i Hi) as (x & Hx & Ho & _). simpl in Hc.
    rewrite (Hrel _ _ Hx Ho) in Hc. injection Hc as <-. left. by eapply release_uncontrolled, Hsole. }
  exists l, c2. split; [done|]. intros i ch Hi Hc. destruct (Hset i Hi) as (x & Hx & Ho & Hdel). rewrite Hc in Hx. injection Hx as <-.
  destruct (scaled_converged net' _ _ (proj2 Hr) Hens) as [Hconv _]. specialize (Hconv i Hi). rewrite <- Hn2, Hnames in Hconv. simpl in Hconv.
  rewrite (Hrel _ _ Hc Ho) in Hconv. destruct Hconv as [Hx|(ch2 & Hc2 & Hl & _ & Hki)].
  { change (ch_Deleting ch = true) in Hx. congruence. }
  exists ch2. split; [done|]. split; [done|]. split; [exact (keeps_identity_trans _ _ _ (release_identity net ch) Hki)|].
  by rewrite (in_line_annotations _ _ _ Hl), lookup_empty.
Qed.
End Retain.

(** ** The statements on a concrete network *)
Section Witnesses.
Import NetSample.

Lemma two_gate : gate two.
Proof. by split_and!; vm_compute. Qed.
Lemma two_keyed age l : bool_decide (map_Forall (fun k ch => ch_Name ch = k) (nodes two age l)) = true -> keyed (nodes two age l).
Proof. intros Hb%bool_decide_eq_true. exact Hb. Qed.

(** Two replicas of which one is there, and a third child to scale away. *)
Definition partial : cluster unit := world (Some two) (nodes two 50 [0; 2]).

Lemma children_converge_witness :
  exists l c', reconcileSeiNodes 0 two partial = (Ok (nw_status (ns_incumbents l) two), c') /\
    converged two (cl_nodes partial) (cl_nodes c') /\
    ((forall i ch, names_replica two i -> cl_nodes partial !! seiNodeName two i = Some ch -> ch_Deleting ch = false) ->
     exists l' c'', reconcileSeiNodes 0 two c' = (Ok (nw_status (ns_incumbents l') two), c'') /\ cl_nodes c'' = cl_nodes c').
Proof.
  apply (children_converge 0 two partial two_gate); [vm_compute; by split|reflexivity|by apply two_keyed|].
  intros i ch Hi Hc _. right. revert ch Hc. destruct i as [|[|i]]; [| |exfalso; revert Hi; unfold names_replica; simpl; lia].
  - intros ch Hc. vm_compute in Hc. injection Hc as <-. vm_compute. reflexivity.
  - intros ch Hc. vm_compute in Hc. discriminate.
Defined.

(** [two] is deleted under Retain and made again as [two'], with another image. *)
Definition two_deleted : SeiNetwork := mkNetwork "net" "ns" "uid-1" 1 100 true true (sw_Spec two) no_status.
Definition two' : SeiNetwork := net "uid-2" (spec 2 "img-2" DeletionPolicyDelete) no_status.
Definition retaining : cluster unit := world (Some two_deleted) (nodes two 50 [0; 1]).

Lemma owned_sole (m : gmap string Child) :
  bool_decide (map_Forall (fun _ ch => Forall (fun r => or_Controller r = true -> or_UID r = sw_UID two_deleted) (ch_Owners ch)) m) = true ->
  forall k ch, m !! k = Some ch -> sole_controller two_deleted ch.
Proof. intros Hb%bool_decide_eq_true k ch Hc r Hin. specialize (Hb k ch Hc). rewrite List.Forall_forall in Hb. by apply Hb. Qed.

Lemma retain_then_recreate_witness :
  exists c1, ReconcileNetwork sample_libs sample_rest 0 "plan" retaining = (Ok ResultNone, c1) /\
    exists l c2, reconcileSeiNodes 9 two' (cl_set_net (Some two') c1) = (Ok (nw_status (ns_incumbents l) two'), c2) /\
      forall i ch, names_replica two' i -> cl_nodes retaining !! seiNodeName two_deleted i = Some ch ->
        exists ch2, cl_nodes c2 !! seiNodeName two_deleted i = Some ch2 /\ in_line two' i ch2 /\ keeps_identity ch ch2 /\
          ch_Annotations ch2 !! RetainReasonAnnotation = None.
Proof.
  destruct (retain_then_recreate sample_libs sample_rest 0 9 "plan" two_deleted two' retaining) as (c1 & E & _ & _ & Hrest); try reflexivity.
  - by apply two_keyed.
  - intros k ch Hc _. revert k ch Hc. by apply owned_sole.
  - by split_and!; vm_compute.
  - vm_compute. by split.
  - intros i Hi. destruct i as [|[|i]]; [| |exfalso; revert Hi; unfold names_replica; simpl; lia];
      (eexists; split; [vm_compute; reflexivity|]; split; [split; [by_decide|vm_compute; reflexivity]|reflexivity]).
  - exists c1. split; [exact E|exact Hrest].
Defined.
End Witnesses.
