(* ===== verification/Workflow.v ===== *)
(** * Node workflows (src/internal/planner/workflow.go, src/internal/controller/node/workflow.go)

    A SeiNodeTaskWorkflow is a recipe for one node: the node adopts it, drives its
    plan, and is held while it does. The node and the workflow are two objects of
    the API server, written by separate calls, each of which may fail, or take
    effect and still report an error; a reconcile may end after any of them. Reads
    see the objects as they are stored. *)

From stdpp Require Import base list strings gmap pretty sorting.
From Stdlib Require Import ZArith Lia.
From S2P Require Import Prelude Api NodeState Platform Executor Config Task Planner StaticConfig NodeTask.

(** ** The resource (src/api/v1alpha1/seinodetaskworkflow_types.go) *)
Inductive SeiNodeTaskWorkflowKind := WorkflowKindStateSync | WorkflowKindOther (name : string).
Inductive SeiNodeTaskWorkflowPhase := WfNone | WfPending | WfRunning | WfComplete | WfFailed.
#[export] Instance SeiNodeTaskWorkflowPhase_eq_dec : EqDecision SeiNodeTaskWorkflowPhase.
Proof. solve_decision. Defined.

Inductive ConfigMigrationKind := ConfigMigrationGigaStore | ConfigMigrationOther (name : string).
Record ConfigMigration := mkMigration { cm_Kind : ConfigMigrationKind; cm_GigaStore : option string }.
Record StateSyncWorkflow := mkStateSync { sw_Migration : option ConfigMigration; sw_RpcServers : list string }.
Record SeiNodeTaskWorkflowSpec := mkWorkflowSpec {
  fs_Kind : SeiNodeTaskWorkflowKind;
  fs_NodeRef : string;
  fs_RequirePhase : SeiNodePhase;
  fs_RequirePhaseTimeout : option Z;
  fs_StateSync : option StateSyncWorkflow;
}.
Record SeiNodeTaskWorkflowStatus := mkWorkflowStatus {
  ft_ObservedGeneration : Z;
  ft_Phase : SeiNodeTaskWorkflowPhase;
  ft_TargetFirstObservedAt : option Z;
  ft_Plan : option TaskPlan;
  ft_Conditions : list Condition;
}.
#[export] Instance SeiNodeTaskWorkflowStatus_eq_dec : EqDecision SeiNodeTaskWorkflowStatus.
Proof. solve_decision. Defined.

(** The object; [fw_Finalizer] is the workflow finalizer, [fw_OtherFinalizers]
    whether there is any other, [fw_ForceDelete] the force annotation. *)
Record SeiNodeTaskWorkflow := mkWorkflow {
  fw_Name : string;
  fw_UID : string;
  fw_ResourceVersion : Z;
  fw_Generation : Z;
  fw_CreationTimestamp : Z;
  fw_Deleting : bool;
  fw_Finalizer : bool;
  fw_OtherFinalizers : bool;
  fw_ForceDelete : string;
  fw_Spec : SeiNodeTaskWorkflowSpec;
  fw_Status : SeiNodeTaskWorkflowStatus;
}.
Record AdoptedWorkflowRef := mkRef { ar_Name : string; ar_UID : string; ar_AdoptedAt : Z }.
#[export] Instance AdoptedWorkflowRef_eq_dec : EqDecision AdoptedWorkflowRef.
Proof. solve_decision. Defined.

(** The node with the pointer of its status. *)
Record wnode := mkWnode { wn_Node : SeiNode; wn_Adopted : option AdoptedWorkflowRef }.

(** Field updates. *)
Definition wf_status (f : SeiNodeTaskWorkflowStatus -> SeiNodeTaskWorkflowStatus) (wf : SeiNodeTaskWorkflow) :=
  mkWorkflow (fw_Name wf) (fw_UID wf) (fw_ResourceVersion wf) (fw_Generation wf) (fw_CreationTimestamp wf)
    (fw_Deleting wf) (fw_Finalizer wf) (fw_OtherFinalizers wf) (fw_ForceDelete wf) (fw_Spec wf) (f (fw_Status wf)).
Definition wf_meta (rv : Z) (deleting fin : bool) (force : string) (wf : SeiNodeTaskWorkflow) :=
  mkWorkflow (fw_Name wf) (fw_UID wf) rv (fw_Generation wf) (fw_CreationTimestamp wf)
    deleting fin (fw_OtherFinalizers wf) force (fw_Spec wf) (fw_Status wf).
Definition wf_bump (wf : SeiNodeTaskWorkflow) :=
  wf_meta (fw_ResourceVersion wf + 1) (fw_Deleting wf) (fw_Finalizer wf) (fw_ForceDelete wf) wf.
Definition st_observed g s := mkWorkflowStatus g (ft_Phase s) (ft_TargetFirstObservedAt s) (ft_Plan s) (ft_Conditions s).
Definition st_phase p s := mkWorkflowStatus (ft_ObservedGeneration s) p (ft_TargetFirstObservedAt s) (ft_Plan s) (ft_Conditions s).
Definition st_first t s := mkWorkflowStatus (ft_ObservedGeneration s) (ft_Phase s) t (ft_Plan s) (ft_Conditions s).
Definition st_plan p s := mkWorkflowStatus (ft_ObservedGeneration s) (ft_Phase s) (ft_TargetFirstObservedAt s) p (ft_Conditions s).
Definition st_conds c s := mkWorkflowStatus (ft_ObservedGeneration s) (ft_Phase s) (ft_TargetFirstObservedAt s) (ft_Plan s) c.

Definition ConditionSeiNodeTaskWorkflowReady := "Ready".
Definition ConditionSeiNodeTaskWorkflowFailed := "Failed".
Definition ConditionSeiNodeTaskWorkflowAdopted := "Adopted".
Definition ReasonWorkflowAdopted := "Adopted".
Definition ReasonWorkflowQueued := "QueuedBehindActive".
Definition ReasonWorkflowTargetNotReady := "TargetNotReady".
Definition ReasonWorkflowTargetRejected := "TargetRejected".
Definition ReasonWorkflowTargetPhaseTimeout := "TargetPhaseTimeout".
Definition ReasonWorkflowPlanBuildFailed := "PlanBuildFailed".
Definition ConditionWorkflowInProgress := "WorkflowInProgress".
Definition ReasonNoWorkflow := "NoWorkflow".
Definition ReasonWorkflowRunning := "WorkflowRunning".
Definition ReasonWorkflowFailedHeld := "WorkflowFailedHeld".

(** ** The recipe (planner/workflow.go) *)
Definition minStateSyncWitnesses : nat := 2.

Definition gigaStoreConfigPatch (g : option string) : list (string * list (string * jval)) :=
  let backend := match g with Some b => if b <>s "" then b else "pebbledb" | None => "pebbledb" end in
  [("app.toml",
     [("state-store", JObj [("ss-enable", JBool true); ("evm-ss-split", JBool true); ("ss-backend", JStr backend)]);
      ("state-commit", JObj [("sc-enable", JBool true)])])].

Definition migrationConfigPatch (m : option ConfigMigration) : result (list (string * list (string * jval))) :=
  match m with
  | None => Ok []
  | Some m =>
      match cm_Kind m with
      | ConfigMigrationGigaStore =>
          match gigaStoreConfigPatch (cm_GigaStore m) with
          | [] => Err ("config migration kind " +:+ quote "GigaStore" +:+ " produced an empty patch")
          | files => Ok files
          end
      | ConfigMigrationOther k => Err ("unknown config migration kind " +:+ quote k)
      end
  end.

Section Recipe.
Context {C : SeiConfig} {H : Hashes}.

Definition stateSync_Validate (node : SeiNode) (wf : SeiNodeTaskWorkflow) : result unit :=
  match fs_StateSync (fw_Spec wf) with
  | None => Err "stateSync recipe params are nil"
  | Some _ =>
      match sp_FullNode (n_Spec node) with
      | None => Err ("stateSync workflow refuses non-full/RPC target " +:+ n_Namespace node +:+ "/" +:+ n_Name node)
      | Some _ =>
          if MountsNodeConfig node
          then Err ("stateSync workflow refuses static-config target " +:+ n_Namespace node +:+ "/" +:+ n_Name node)
          else Ok tt
      end
  end.

(** [configureStateSyncTask] with the witnesses of the recipe and no local snapshot. *)
Definition resyncTask (witnesses : list string) (node : SeiNode) : TaskParams :=
  match configureStateSyncTask node with
  | ConfigureStateSyncTask _ _ trust backfill => ConfigureStateSyncTask false witnesses trust backfill
  | p => p
  end.

Definition stateSyncSteps (node : SeiNode) (witnesses : list string)
    (patch : list (string * list (string * jval))) : list (string * TaskParams) :=
  [(taskTypeMarkNotReady, MarkNotReadyTask);
   (taskTypeStopSeid, StopSeidTask (Some (UpCheckForNode node)));
   (taskTypeResetData, ResetDataTask)] ++
  match patch with [] => [] | _ => [(TaskConfigPatch, ConfigPatchTask patch)] end ++
  [(TaskConfigureStateSync, resyncTask witnesses node); (TaskMarkReady, MarkReadyTask)].

Definition stateSync_BuildPlan (planID : string) (node : SeiNode) (ss : StateSyncWorkflow) : result TaskPlan :=
  let witnesses := match sw_RpcServers ss with [] => st_ResolvedStateSyncers (n_Status node) | l => l end in
  if (length witnesses <? minStateSyncWitnesses)%nat then
    Err ("stateSync workflow fail-closed: need >=" +:+ pretty minStateSyncWitnesses
         +:+ " resolved witnesses (recipe rpcServers or node.status.resolvedStateSyncers), have "
         +:+ pretty (length witnesses))
  else match migrationConfigPatch (sw_Migration ss) with
  | Err e => Err ("stateSync workflow config migration: " +:+ e)
  | Ok patch =>
      Ok (mkTaskPlan planID TaskPlanActive
            (imap (fun i s => buildPlannedTask planID s.1 i s.2) (stateSyncSteps node witnesses patch))
            PhaseNone "" PhaseNone None None)
  end.

(** [buildWorkflowPlan]: the planner of the kind, its validation, its plan. *)
Definition buildWorkflowPlan (planID : string) (node : SeiNode) (wf : SeiNodeTaskWorkflow) : result TaskPlan :=
  match fs_Kind (fw_Spec wf) with
  | WorkflowKindOther k => Err ("unknown workflow kind " +:+ quote k)
  | WorkflowKindStateSync =>
      match stateSync_Validate node wf with
      | Err e => Err e
      | Ok _ => match fs_StateSync (fw_Spec wf) with
                | Some ss => stateSync_BuildPlan planID node ss
                | None => Err "stateSync recipe params are nil"
                end
      end
  end.
End Recipe.

(** ** The API server *)

(** The stored node and workflows (those of its namespace), what becomes of the
    next calls, the world the tasks act on, and the executor's counter. *)
Record world (W : Type) := mkWorld {
  wd_node : wnode;
  wd_wfs : gmap string SeiNodeTaskWorkflow;
  wd_faults : list fault;
  wd_tasks : W;
  wd_active : gmap (string * string) Z;
}.
Arguments mkWorld {W} _ _ _ _ _.
Arguments wd_node {W} _.
Arguments wd_wfs {W} _.
Arguments wd_faults {W} _.
Arguments wd_tasks {W} _.
Arguments wd_active {W} _.

Definition set_wfs {W} (m : gmap string SeiNodeTaskWorkflow) (w : world W) : world W :=
  mkWorld (wd_node w) m (wd_faults w) (wd_tasks w) (wd_active w).
Definition set_wnode {W} (n : wnode) (w : world W) : world W :=
  mkWorld n (wd_wfs w) (wd_faults w) (wd_tasks w) (wd_active w).
Definition set_faults {W} (fs : list fault) (w : world W) : world W :=
  mkWorld (wd_node w) (wd_wfs w) fs (wd_tasks w) (wd_active w).
Definition set_tasks {W} (t : W) (a : gmap (string * string) Z) (w : world W) : world W :=
  mkWorld (wd_node w) (wd_wfs w) (wd_faults w) t a.

Definition next_fault {W} (w : world W) : fault * world W :=
  match wd_faults w with [] => (Done, w) | f :: fs => (f, set_faults fs w) end.

(** Reads: a call that fails answers no object. *)
Definition GetWorkflow {W} (name : string) (w : world W) : (api_error + SeiNodeTaskWorkflow) * world W :=
  let '(f, w) := next_fault w in
  match f with
  | Done => (match wd_wfs w !! name with Some wf => inr wf | None => inl ENotFound end, w)
  | _ => (inl EOther, w)
  end.
(** [client.MatchingFields{workflowTargetNodeIndex: node.Name}] *)
Definition ListWorkflows {W} (node : SeiNode) (w : world W) : (api_error + list SeiNodeTaskWorkflow) * world W :=
  let '(f, w) := next_fault w in
  match f with
  | Done => (inr (filter (fun wf => fs_NodeRef (fw_Spec wf) = n_Name node) (snd <$> map_to_list (wd_wfs w))), w)
  | _ => (inl EOther, w)
  end.

(** A merge patch of the status: the fields that differ from the base. *)
Definition merge_status (base new stored : SeiNodeTaskWorkflowStatus) : SeiNodeTaskWorkflowStatus :=
  let pick {A} `{EqDecision A} (f : SeiNodeTaskWorkflowStatus -> A) :=
    if decide (f base = f new) then f stored else f new in
  mkWorkflowStatus (pick ft_ObservedGeneration) (pick ft_Phase) (pick ft_TargetFirstObservedAt) (pick ft_Plan)
    (pick ft_Conditions).

(** [r.Status().Patch] with the optimistic lock; the object in memory is what the server answers. *)
Definition PatchWorkflowStatus {W} (base wf : SeiNodeTaskWorkflow) (w : world W)
    : option api_error * SeiNodeTaskWorkflow * world W :=
  let '(f, w) := next_fault w in
  match wd_wfs w !! fw_Name wf with
  | None => (Some ENotFound, wf, w)
  | Some stored =>
      if negb (fw_ResourceVersion stored =? fw_ResourceVersion base)%Z then (Some EConflict, wf, w)
      else
        let stored' := wf_bump (wf_status (merge_status (fw_Status base) (fw_Status wf)) stored) in
        let w' := set_wfs (<[fw_Name wf := stored']> (wd_wfs w)) w in
        match f with
        | Done => (None, stored', w')
        | Lost => (Some EOther, wf, w')
        | Refused c => (Some (if c then EConflict else EOther), wf, w)
        end
  end.

(** [r.Patch] of the finalizers, without a lock. An object that is being deleted
    takes no new finalizer, and goes with its last one. *)
Definition PatchFinalizer {W} (add : bool) (wf : SeiNodeTaskWorkflow) (w : world W)
    : option api_error * SeiNodeTaskWorkflow * world W :=
  let '(f, w) := next_fault w in
  let wf' := wf_meta (fw_ResourceVersion wf) (fw_Deleting wf) add (fw_ForceDelete wf) wf in
  match wd_wfs w !! fw_Name wf with
  | None => (Some ENotFound, wf', w)
  | Some stored =>
      if add && fw_Deleting stored then (Some EOther, wf', w)
      else
        let stored' := wf_meta (fw_ResourceVersion stored + 1) (fw_Deleting stored) add (fw_ForceDelete stored) stored in
        let w' := if fw_Deleting stored' && negb (fw_Finalizer stored') && negb (fw_OtherFinalizers stored')
                  then set_wfs (delete (fw_Name wf) (wd_wfs w)) w
                  else set_wfs (<[fw_Name wf := stored']> (wd_wfs w)) w in
        match f with
        | Done => (None, stored', w')
        | Lost => (Some EOther, wf', w')
        | Refused c => (Some (if c then EConflict else EOther), wf', w)
        end
  end.

Definition patchWorkflowFinalizer {W} (add : bool) (wf : SeiNodeTaskWorkflow) (w : world W)
    : option api_error * SeiNodeTaskWorkflow * world W :=
  if Bool.eqb (fw_Finalizer wf) add then (None, wf, w)
  else match PatchFinalizer add wf w with
       | (Some ENotFound, wf', w') => (None, wf', w')
       | r => r
       end.
Definition ensureWorkflowFinalizer {W} (wf : SeiNodeTaskWorkflow) (w : world W) := patchWorkflowFinalizer true wf w.

(** [flushStatus]: the status since the last patch, and whether a patch failed. *)
Record flusher := mkFlusher { fl_before : wnode; fl_failed : bool }.
Definition same_status (a b : wnode) : bool :=
  bool_decide (n_Status (wn_Node a) = n_Status (wn_Node b)) && bool_decide (wn_Adopted a = wn_Adopted b).
Definition with_status_of (stored node : wnode) : wnode :=
  mkWnode (with_Status (wn_Node stored) (n_Status (wn_Node node))) (wn_Adopted node).
Definition flushStatus {W} (fl : flusher) (node : wnode) (w : world W) : option api_error * flusher * world W :=
  if same_status (fl_before fl) node then (None, fl, w)
  else
    let '(f, w) := next_fault w in
    match f with
    | Done => (None, mkFlusher node (fl_failed fl), set_wnode (with_status_of (wd_node w) node) w)
    | Lost => (Some EOther, mkFlusher (fl_before fl) true, set_wnode (with_status_of (wd_node w) node) w)
    | Refused c => (Some (if c then EConflict else EOther), mkFlusher (fl_before fl) true, w)
    end.

(** ** The workflow half of a node's reconcile (node/workflow.go) *)
Definition defaultWorkflowRequirePhaseTimeout : Z := 300 * second.
Definition workflowTargetWaitInterval : Z := 5 * second.

(** [suppress], [result], [handled] and [err] of the handlers. *)
Record workflow_result := mkWres {
  wr_suppress : bool;
  wr_result : Executor.Result;
  wr_handled : bool;
  wr_err : option api_error;
}.

Definition ineligibleWorkflowRole (node : SeiNode) : string :=
  let s := n_Spec node in
  match sp_FullNode s with
  | Some _ => ""
  | None =>
      match sp_Validator s, sp_Archive s, sp_Replayer s, sp_Seed s with
      | Some _, _, _, _ => "validator"
      | None, Some _, _, _ => "archive"
      | None, None, Some _, _ => "replayer"
      | None, None, None, Some _ => "seed"
      | None, None, None, None => "non-full"
      end
  end.

Definition planFailureDetail (plan : option TaskPlan) : string :=
  match plan ≫= pl_FailedTaskDetail with
  | Some d => "task " +:+ fi_Type d +:+ ": " +:+ fi_Error d
  | None => "workflow plan failed"
  end.

(** [pendingWorkflowsForNode]'s order: by creation, then by name. *)
Definition older (a b : SeiNodeTaskWorkflow) : Prop :=
  (fw_CreationTimestamp a < fw_CreationTimestamp b)%Z \/
  (fw_CreationTimestamp a = fw_CreationTimestamp b /\ String.le (fw_Name a) (fw_Name b)).
#[global] Instance older_dec a b : Decision (older a b).
Proof. unfold older. apply _. Defined.

Section Handlers.
Context {C : SeiConfig} {H : Hashes} {SC : StatusConditions} {W : Type} {RT : TaskRuntime W}.
Abbreviation world := (world W).

Definition setWorkflowCondition (ct : string) (status : ConditionStatus) (reason msg : string)
    (wf : SeiNodeTaskWorkflow) : SeiNodeTaskWorkflow :=
  wf_status (fun s => st_conds (SetStatusCondition (ft_Conditions s)
                                  (mkCondition ct status reason msg (fw_Generation wf))) s) wf.
Definition seed_condition (ct reason msg : string) (wf : SeiNodeTaskWorkflow) : SeiNodeTaskWorkflow :=
  match FindStatusCondition (ft_Conditions (fw_Status wf)) ct with
  | None => setWorkflowCondition ct ConditionFalse reason msg wf
  | Some _ => wf
  end.
Definition seedWorkflowTerminalConditions (wf : SeiNodeTaskWorkflow) : SeiNodeTaskWorkflow :=
  seed_condition ConditionSeiNodeTaskWorkflowFailed "NotFailed" "workflow has not failed"
    (seed_condition ConditionSeiNodeTaskWorkflowReady "NotComplete" "workflow has not completed" wf).

Definition setWorkflowInProgress (status : ConditionStatus) (reason msg : string) (node : wnode) : wnode :=
  mkWnode (set_node_cond ConditionWorkflowInProgress status reason msg (wn_Node node)) (wn_Adopted node).
Definition seedWorkflowInProgress (node : wnode) : wnode :=
  match node_cond (wn_Node node) ConditionWorkflowInProgress with
  | None => setWorkflowInProgress ConditionFalse ReasonNoWorkflow "no workflow adopted" node
  | Some _ => node
  end.
Definition adoptedWorkflowParkedFailed (node : wnode) : bool :=
  cond_is (wn_Node node) ConditionWorkflowInProgress ConditionTrue &&
  (cond_reason (wn_Node node) ConditionWorkflowInProgress =s ReasonWorkflowFailedHeld).
Definition clear_pointer (msg : string) (node : wnode) : wnode :=
  setWorkflowInProgress ConditionFalse ReasonNoWorkflow msg (mkWnode (wn_Node node) None).

Definition patchWorkflowStatus (mutate : SeiNodeTaskWorkflow -> SeiNodeTaskWorkflow) (wf : SeiNodeTaskWorkflow)
    (w : world) : option api_error * SeiNodeTaskWorkflow * world :=
  let wf' := mutate (wf_status (st_observed (fw_Generation wf)) wf) in
  if decide (fw_Status wf = fw_Status wf') then (None, wf', w) else PatchWorkflowStatus wf wf' w.

(** A failed patch is logged. *)
Definition failWorkflow (reason msg : string) (wf : SeiNodeTaskWorkflow) (w : world) : SeiNodeTaskWorkflow * world :=
  if decide (ft_Phase (fw_Status wf) = WfFailed) then (wf, w)
  else
    let '(_, wf', w') :=
      patchWorkflowStatus (fun x =>
        seedWorkflowTerminalConditions
          (setWorkflowCondition ConditionSeiNodeTaskWorkflowFailed ConditionTrue reason msg
             (wf_status (st_phase WfFailed) x))) wf w in
    (wf', w').

Definition pending_phase (wf : SeiNodeTaskWorkflow) : SeiNodeTaskWorkflow :=
  if decide (ft_Phase (fw_Status wf) = WfNone) then wf_status (st_phase WfPending) wf else wf.
Definition seedWorkflowAdoption (status : ConditionStatus) (reason msg : string) (wf : SeiNodeTaskWorkflow)
    (w : world) : SeiNodeTaskWorkflow * world :=
  let '(_, wf', w') :=
    patchWorkflowStatus (fun x =>
      seedWorkflowTerminalConditions
        (setWorkflowCondition ConditionSeiNodeTaskWorkflowAdopted status reason msg (pending_phase x))) wf w in
  (wf', w').

Definition persistWorkflowPlan (plan : TaskPlan) (wf : SeiNodeTaskWorkflow) (w : world)
    : option api_error * SeiNodeTaskWorkflow * world :=
  patchWorkflowStatus (fun x =>
    seedWorkflowTerminalConditions
      (setWorkflowCondition ConditionSeiNodeTaskWorkflowAdopted ConditionTrue ReasonWorkflowAdopted
         "plan compiled and persisted"
         (wf_status (fun s => st_first None (st_phase WfRunning (st_plan (Some plan) s))) x))) wf w.

Definition buildAndPersistWorkflowPlan (planID : string) (node : wnode) (wf : SeiNodeTaskWorkflow) (w : world)
    : option api_error * world :=
  match buildWorkflowPlan planID (wn_Node node) wf with
  | Err e => (None, (failWorkflow ReasonWorkflowPlanBuildFailed e wf w).2)
  | Ok plan => let '(err, _, w') := persistWorkflowPlan plan wf w in (err, w')
  end.

Definition releaseCompletedWorkflow (node : wnode) (wf : SeiNodeTaskWorkflow) (w : world)
    : option api_error * wnode * world :=
  match patchWorkflowFinalizer false wf w with
  | (Some e, _, w') => (Some e, node, w')
  | (None, _, w') => (None, clear_pointer "workflow completed" node, w')
  end.

Definition verifyWorkflowDataSafe (node : wnode) : bool * string := (false, "data-state verification unavailable").

Definition park (msg : string) (node : wnode) : wnode :=
  setWorkflowInProgress ConditionTrue ReasonWorkflowFailedHeld msg node.
Definition held : workflow_result := mkWres true (Executor.mkResult statusPollInterval) false None.
Definition free : workflow_result := mkWres false ResultNone false None.
Definition stuck (e : api_error) : workflow_result := mkWres true ResultNone false (Some e).

Definition finalizeWorkflow (node : wnode) (wf : SeiNodeTaskWorkflow) (w : world) : workflow_result * wnode * world :=
  if negb (fw_Finalizer wf) then (free, clear_pointer "adopted workflow deleted" node, w)
  else
    let forced := fw_ForceDelete wf <>s "" in
    let '(safe, reason) := verifyWorkflowDataSafe node in
    if negb forced && negb safe then (held, park ("deletion held: " +:+ reason) node, w)
    else match patchWorkflowFinalizer false wf w with
         | (Some e, _, w') => (stuck e, node, w')
         | (None, _, w') => (free, clear_pointer "workflow deleted; hold released" node, w')
         end.

(** One step of the plan, and the terminal state it leaves. *)
Definition executed (now : Z) (ns : string) (wf : SeiNodeTaskWorkflow) (w : world)
    : Executor.Result * SeiNodeTaskWorkflow * world :=
  match ExecutePlan now (ObjOther (fw_Name wf) ns) (ft_Plan (fw_Status wf)) (wd_tasks w) (wd_active w) with
  | Ok (Some (res, s)) =>
      (res, wf_status (st_plan (Some (es_plan s))) wf, set_tasks (es_world s) (es_active s) w)
  | _ => (ResultNone, wf, w)
  end.
Definition terminal_status (wf : SeiNodeTaskWorkflow) : SeiNodeTaskWorkflow :=
  match pl_Phase <$> ft_Plan (fw_Status wf) with
  | Some TaskPlanComplete =>
      setWorkflowCondition ConditionSeiNodeTaskWorkflowReady ConditionTrue "WorkflowComplete" "recipe completed"
        (wf_status (st_phase WfComplete) wf)
  | Some TaskPlanFailed =>
      setWorkflowCondition ConditionSeiNodeTaskWorkflowFailed ConditionTrue "WorkflowFailed"
        (planFailureDetail (ft_Plan (fw_Status wf))) (wf_status (st_phase WfFailed) wf)
  | _ => wf
  end.

Definition executeWorkflow (now : Z) (node : wnode) (wf : SeiNodeTaskWorkflow) (w : world)
    : workflow_result * wnode * world :=
  let wf1 := wf_status (st_observed (fw_Generation wf)) wf in
  let wf1 := match ft_Phase (fw_Status wf1) with
             | WfNone | WfPending => wf_status (st_phase WfRunning) wf1
             | _ => wf1
             end in
  let '(result, wf2, w) := executed now (n_Namespace (wn_Node node)) wf1 w in
  let wf3 := terminal_status wf2 in
  let '(err, wf4, w) := if decide (fw_Status wf = fw_Status wf3) then (None, wf3, w) else PatchWorkflowStatus wf wf3 w in
  match err with
  | Some e => (stuck e, node, w)
  | None =>
      match pl_Phase <$> ft_Plan (fw_Status wf2) with
      | Some TaskPlanComplete =>
          match releaseCompletedWorkflow node wf4 w with
          | (Some e, node', w') => (stuck e, node', w')
          | (None, node', w') => (free, node', w')
          end
      | Some TaskPlanFailed => (held, park "workflow failed; node held pending re-run or deletion" node, w)
      | _ => (mkWres true result false None, node, w)
      end
  end.

(** The last steps of [driveAdoptedWorkflow]: the finalizer, and then the plan is
    rebuilt if there is none, or else executed. *)
Definition driveStep (now : Z) (planID : string) (node : wnode) (wf : SeiNodeTaskWorkflow) (w : world)
    : workflow_result * wnode * world :=
  match ensureWorkflowFinalizer wf w with
  | (Some e, _, w) => (stuck e, node, w)
  | (None, wf, w) =>
      match ft_Plan (fw_Status wf) with
      | None =>
          match buildAndPersistWorkflowPlan planID node wf w with
          | (Some e, w) => (stuck e, node, w)
          | (None, w) => (mkWres true ResultRequeueImmediate false None, node, w)
          end
      | Some _ => executeWorkflow now node wf w
      end
  end.

Definition driveAdoptedWorkflow (now : Z) (planID : string) (ptr : AdoptedWorkflowRef) (node : wnode) (w : world)
    : workflow_result * wnode * world :=
  let '(got, w) := GetWorkflow (ar_Name ptr) w in
  let gone := (free, clear_pointer "adopted workflow no longer present" node, w) in
  match got with
  | inl ENotFound => gone
  | inl e => (stuck e, node, w)
  | inr wf =>
      if fw_UID wf <>s ar_UID ptr then gone
      else if fw_Deleting wf then finalizeWorkflow node wf w
      else
        match pl_Phase <$> ft_Plan (fw_Status wf) with
        | Some TaskPlanComplete =>
            match releaseCompletedWorkflow node wf w with
            | (Some e, node', w') => (stuck e, node', w')
            | (None, node', w') => (free, node', w')
            end
        | Some TaskPlanFailed => (held, park "workflow failed; node held pending re-run or deletion" node, w)
        | _ =>
            driveStep now planID (setWorkflowInProgress ConditionTrue ReasonWorkflowRunning
                                    ("driving workflow " +:+ fw_Name wf) node) wf w
        end
  end.

(** *** Adoption *)

(** Finalizers off, of the workflows [keep] selects; a conflict is left for the next reconcile. *)
Fixpoint stripFinalizers (keep : SeiNodeTaskWorkflow -> bool) (wfs : list SeiNodeTaskWorkflow) (w : world)
    : option api_error * world :=
  match wfs with
  | [] => (None, w)
  | wf :: wfs' =>
      if keep wf then
        match patchWorkflowFinalizer false wf w with
        | (Some EConflict, _, w') | (None, _, w') => stripFinalizers keep wfs' w'
        | (Some e, _, w') => (Some e, w')
        end
      else stripFinalizers keep wfs' w
  end.
Definition reapCompletedWorkflowFinalizers (node : SeiNode) (w : world) : option api_error * world :=
  match ListWorkflows node w with
  | (inl e, w) => (Some e, w)
  | (inr wfs, w) => stripFinalizers (fun wf => bool_decide (ft_Phase (fw_Status wf) = WfComplete)) wfs w
  end.
Definition releaseWorkflowFinalizersForNode (node : SeiNode) (w : world) : option api_error * world :=
  match ListWorkflows node w with
  | (inl e, w) => (Some e, w)
  | (inr wfs, w) => stripFinalizers (fun _ => true) wfs w
  end.

Definition is_candidate (wf : SeiNodeTaskWorkflow) : bool :=
  negb (fw_Deleting wf) &&
  match ft_Phase (fw_Status wf) with WfComplete | WfFailed => false | _ => true end.
Definition pendingWorkflowsForNode (node : SeiNode) (w : world)
    : (api_error + list SeiNodeTaskWorkflow) * world :=
  match ListWorkflows node w with
  | (inl e, w) => (inl e, w)
  | (inr wfs, w) => (inr (merge_sort older (List.filter is_candidate wfs)), w)
  end.

(** A handler applied to each workflow of a list, with the world passed along. *)
Fixpoint each (f : SeiNodeTaskWorkflow -> world -> SeiNodeTaskWorkflow * world) (wfs : list SeiNodeTaskWorkflow)
    (w : world) : world :=
  match wfs with
  | [] => w
  | wf :: wfs' => each f wfs' (f wf w).2
  end.

(** [gateOnRequirePhase]: the requeue when the node must wait, and the workflow in memory. *)
Definition gateOnRequirePhase (now : Z) (wf : SeiNodeTaskWorkflow) (node : SeiNode) (w : world)
    : option Executor.Result * SeiNodeTaskWorkflow * world :=
  let requirePhase := match fs_RequirePhase (fw_Spec wf) with PhaseNone => PhaseRunning | p => p end in
  let phase := st_Phase (n_Status node) in
  if decide (phase = requirePhase) then
    match ft_TargetFirstObservedAt (fw_Status wf) with
    | None => (None, wf, w)
    | Some _ =>
        let '(_, wf', w') := patchWorkflowStatus (wf_status (st_first None)) wf w in (None, wf', w')
    end
  else
    let timeout := default defaultWorkflowRequirePhaseTimeout (fs_RequirePhaseTimeout (fw_Spec wf)) in
    let late := match ft_TargetFirstObservedAt (fw_Status wf) with Some t => (timeout <? now - t)%Z | None => false end in
    if late then
      let '(wf', w') :=
        failWorkflow ReasonWorkflowTargetPhaseTimeout
          ("target " +:+ n_Name node +:+ " did not reach phase " +:+ phase_string requirePhase +:+ " within "
           +:+ duration_string timeout +:+ " (current: " +:+ phase_string phase +:+ ")") wf w in
      (Some ResultNone, wf', w')
    else
      let '(_, wf', w') :=
        patchWorkflowStatus (fun x =>
          seedWorkflowTerminalConditions
            (setWorkflowCondition ConditionSeiNodeTaskWorkflowAdopted ConditionFalse ReasonWorkflowTargetNotReady
               ("waiting for target " +:+ n_Name node +:+ " to reach " +:+ phase_string requirePhase +:+ " (current: "
                +:+ phase_string phase +:+ ")")
               (pending_phase
                  (wf_status (fun s => match ft_TargetFirstObservedAt s with
                                       | None => st_first (Some now) s
                                       | Some _ => s
                                       end) x)))) wf w in
      (Some (Executor.mkResult workflowTargetWaitInterval), wf', w').

(** The commit of an adoption: the pointer, the finalizer, then the plan. *)
Definition adopt (now : Z) (plan : TaskPlan) (winner : SeiNodeTaskWorkflow) (node : wnode) (fl : flusher) (w : world)
    : workflow_result * wnode * flusher * world :=
  let node := setWorkflowInProgress ConditionTrue ReasonWorkflowRunning ("adopted workflow " +:+ fw_Name winner)
                (mkWnode (wn_Node node) (Some (mkRef (fw_Name winner) (fw_UID winner) now))) in
  match flushStatus fl node w with
  | (Some e, fl, w) => (mkWres false ResultNone false (Some e), node, fl, w)
  | (None, fl, w) =>
      match ensureWorkflowFinalizer winner w with
      | (Some e, _, w) => (stuck e, node, fl, w)
      | (None, winner, w) =>
          match persistWorkflowPlan plan winner w with
          | (Some e, _, w) => (stuck e, node, fl, w)
          | (None, _, w) => (mkWres true ResultRequeueImmediate true None, node, fl, w)
          end
      end
  end.

Definition maybeAdoptWorkflow (now : Z) (planID : string) (node : wnode) (fl : flusher) (w : world)
    : workflow_result * wnode * flusher * world :=
  let n := wn_Node node in
  let fail e w := (mkWres false ResultNone false (Some e), node, fl, w) in
  let none w := (free, node, fl, w) in
  match reapCompletedWorkflowFinalizers n w with
  | (Some e, w) => fail e w
  | (None, w) =>
      match pendingWorkflowsForNode n w with
      | (inl e, w) => fail e w
      | (inr [], w) => none w
      | (inr (winner :: losers), w) =>
          let role := ineligibleWorkflowRole n in
          if role <>s "" then
            none (each (failWorkflow ReasonWorkflowTargetRejected
                          (role +:+ " target is ineligible; workflows target full/RPC nodes only")) (winner :: losers) w)
          else if MountsNodeConfig n then
            none (each (failWorkflow ReasonWorkflowTargetRejected
                          "target sets spec.nodeConfig; workflows rewrite config.toml, which the node mounts read-only")
                    (winner :: losers) w)
          else
            let w := each (seedWorkflowAdoption ConditionFalse ReasonWorkflowQueued
                             "another workflow is queued ahead on this node") losers w in
            if sp_Paused (n_Spec n) then
              none (seedWorkflowAdoption ConditionFalse ReasonWorkflowTargetNotReady "target is paused" winner w).2
            else match st_Plan (n_Status n) with
            | Some _ =>
                none (seedWorkflowAdoption ConditionFalse ReasonWorkflowTargetNotReady "target has an active plan" winner w).2
            | None =>
                match gateOnRequirePhase now winner n w with
                | (Some res, _, w) => (mkWres false res false None, node, fl, w)
                | (None, winner, w) =>
                    match buildWorkflowPlan planID n winner with
                    | Err e => none (failWorkflow ReasonWorkflowPlanBuildFailed e winner w).2
                    | Ok plan => adopt now plan winner node fl w
                    end
                end
            end
      end
  end.

Definition reconcileWorkflow (now : Z) (planID : string) (node : wnode) (fl : flusher) (w : world)
    : workflow_result * wnode * flusher * world :=
  match wn_Adopted node with
  | Some ptr => let '(r, node', w') := driveAdoptedWorkflow now planID ptr node w in (r, node', fl, w')
  | None =>
      if decide (st_Phase (n_Status (wn_Node node)) = PhaseRunning)
      then maybeAdoptWorkflow now planID (seedWorkflowInProgress node) fl w
      else (free, node, fl, w)
  end.

(** ** The reconcile around it (node/controller.go) *)

(** The StatefulSet is not applied while a workflow executes; a parked one lets it through. *)
Definition holdForWorkflow (node : wnode) : bool :=
  match wn_Adopted node with Some _ => negb (adoptedWorkflowParkedFailed node) | None => false end.

(** The deferred flush of every return after the status is resolved. *)
Definition backstop (fl : flusher) (node : wnode) (w : world) : world :=
  if fl_failed fl then w else (flushStatus fl node w).2.

(** What a reconcile did, besides its writes. *)
Record reconcile_trace := mkTrace {
  rt_world : world;
  rt_applied : bool;  (** the StatefulSet was applied *)
  rt_drift : option (gmap string SeiNodeTaskWorkflow);  (** the workflows when the drift half ran *)
}.

(** [resolve] stands for the conditions resolved first, [drift] for planning and
    executing the node's own plan, [sts] for whether the first StatefulSet is held
    back; each sees the node only. [halt] is whether a call on the way to the
    workflow half fails, of the StatefulSet or of the peers. *)
Definition ReconcileNode (resolve : SeiNode -> SeiNode) (drift : SeiNode -> SeiNode) (sts : SeiNode -> bool)
    (halt : bool) (now : Z) (planID : string) (w : world) : reconcile_trace :=
  let before := wd_node w in
  let fl := mkFlusher before false in
  let node := mkWnode (resolve (wn_Node before)) (wn_Adopted before) in
  if decide (st_Phase (n_Status (wn_Node node)) = PhaseFailed) then
    let '(_, fl, w) := flushStatus fl node w in mkTrace (backstop fl node w) false None
  else
    let applied := negb (sts (wn_Node node)) && negb (holdForWorkflow node) in
    if sp_Paused (n_Spec (wn_Node node)) then
      let '(_, fl, w) := flushStatus fl node w in mkTrace (backstop fl node w) applied None
    else if halt then mkTrace (backstop fl node w) applied None
    else
      let '(r, node, fl, w) := reconcileWorkflow now planID node fl w in
      match wr_err r with
      | Some _ => mkTrace (backstop fl node w) applied None
      | None =>
          if wr_handled r then mkTrace (backstop fl node w) applied None
          else
            let '(node, ran) :=
              if wr_suppress r then (node, None)
              else (mkWnode (drift (wn_Node node)) (wn_Adopted node), Some (wd_wfs w)) in
            let '(_, fl, w) := flushStatus fl node w in mkTrace (backstop fl node w) applied ran
      end.
End Handlers.

(** ** The hold *)

(** A workflow whose plan is stored and has not completed; one the operator
    deletes by force. *)
Definition in_progress (wf : SeiNodeTaskWorkflow) : Prop :=
  exists p, ft_Plan (fw_Status wf) = Some p /\ pl_Phase p <> TaskPlanComplete.
Definition forced_out (wf : SeiNodeTaskWorkflow) : Prop := fw_Deleting wf = true /\ fw_ForceDelete wf <> "".
#[global] Instance forced_out_dec wf : Decision (forced_out wf).
Proof. unfold forced_out. apply _. Defined.
Definition points (ptr : option AdoptedWorkflowRef) (wf : SeiNodeTaskWorkflow) : Prop :=
  exists r, ptr = Some r /\ ar_Name r = fw_Name wf /\ ar_UID r = fw_UID wf.

Record wf_ok (ptr : option AdoptedWorkflowRef) (wf : SeiNodeTaskWorkflow) : Prop := {
  wo_held : in_progress wf -> ~ forced_out wf -> fw_Finalizer wf = true /\ points ptr wf;
  wo_complete : ft_Phase (fw_Status wf) = WfComplete -> pl_Phase <$> ft_Plan (fw_Status wf) = Some TaskPlanComplete;
}.
Definition store_ok (ptr : option AdoptedWorkflowRef) (m : gmap string SeiNodeTaskWorkflow) : Prop :=
  forall name wf, m !! name = Some wf -> fw_Name wf = name /\ wf_ok ptr wf.

Lemma store_ok_insert ptr m name wf :
  store_ok ptr m -> fw_Name wf = name -> wf_ok ptr wf -> store_ok ptr (<[name := wf]> m).
Proof. intros Hm Hn Hw name' wf' [[<- <-]|[_ Hl]]%lookup_insert_Some; [done|by apply Hm]. Qed.
Lemma store_ok_delete ptr m name : store_ok ptr m -> store_ok ptr (delete name m).
Proof. intros Hm name' wf' [_ Hl]%lookup_delete_Some. by apply Hm. Qed.

Lemma complete_not_in_progress ptr wf : wf_ok ptr wf -> ft_Phase (fw_Status wf) = WfComplete -> ~ in_progress wf.
Proof. intros [_ Hc] Hph (p & Hp & Hne). specialize (Hc Hph). rewrite Hp in Hc. by injection Hc. Qed.

(** A node that holds nothing may adopt anything. *)
Lemma store_ok_none ptr m : store_ok None m -> store_ok ptr m.
Proof.
  intros Hm name wf Hl. destruct (Hm name wf Hl) as [Hn [Hh Hc]]. split; [done|]. split; [|done].
  intros Hp Hf. by destruct (Hh Hp Hf) as [_ (r & ? & _)].
Qed.
(** A node may let go when its workflow is gone, done or forced out. *)
Lemma store_ok_clear ptr m :
  store_ok (Some ptr) m ->
  (forall wf, m !! ar_Name ptr = Some wf -> fw_UID wf = ar_UID ptr -> in_progress wf -> forced_out wf) ->
  store_ok None m.
Proof.
  intros Hm Hc name wf Hl. destruct (Hm name wf Hl) as [Hn [Hh Hcp]]. split; [done|]. split; [|done].
  intros Hp Hf. exfalso. destruct (Hh Hp Hf) as [_ (r & Hr & Hrn & Hu)]. injection Hr as <-.
  apply Hf, Hc; [by rewrite Hrn, Hn|done|done].
Qed.

(** A stored object after a patch that leaves the plan alone and does not complete it. *)
Record tame (st st' : SeiNodeTaskWorkflow) : Prop := {
  ta_name : fw_Name st' = fw_Name st;
  ta_uid : fw_UID st' = fw_UID st;
  ta_fin : fw_Finalizer st' = fw_Finalizer st;
  ta_del : fw_Deleting st' = fw_Deleting st;
  ta_force : fw_ForceDelete st' = fw_ForceDelete st;
  ta_plan : ft_Plan (fw_Status st') = ft_Plan (fw_Status st);
  ta_phase : ft_Phase (fw_Status st') = WfComplete -> ft_Phase (fw_Status st) = WfComplete;
}.
Lemma tame_ok ptr st st' : tame st st' -> wf_ok ptr st -> wf_ok ptr st'.
Proof.
  intros [Hn Hu Hf Hd Hfd Hp Hph] [Hh Hc]. unfold in_progress, forced_out, points in *.
  split; unfold in_progress, forced_out, points; rewrite ?Hn, ?Hu, ?Hf, ?Hd, ?Hfd, ?Hp; auto.
Qed.

(** The store after a call: as it was, or with one object replaced by a tame one. *)
Definition tamed (m m' : gmap string SeiNodeTaskWorkflow) : Prop :=
  m' = m \/ exists name st st', m !! name = Some st /\ tame st st' /\ m' = <[name := st']> m.
Lemma tamed_ok ptr m m' : tamed m m' -> store_ok ptr m -> store_ok ptr m'.
Proof.
  intros [->|(name & st & st' & Hl & Ht & ->)] Hm; [done|]. destruct (Hm name st Hl) as [Hn Hw].
  apply store_ok_insert; [done|by rewrite (ta_name _ _ Ht)|by eapply tame_ok].
Qed.

(** What the object in memory tells of the stored one. *)
Definition known (m : gmap string SeiNodeTaskWorkflow) (wf : SeiNodeTaskWorkflow) : Prop :=
  forall st, m !! fw_Name wf = Some st ->
    fw_UID st = fw_UID wf /\ fw_Finalizer st = fw_Finalizer wf /\ ft_Phase (fw_Status st) <> WfComplete.
Lemma known_tamed m m' wf : tamed m m' -> known m wf -> known m' wf.
Proof.
  intros [->|(name & st & st' & Hl & Ht & ->)] Hk; [done|]. intros st1 [[-> <-]|[_ H1]]%lookup_insert_Some; [|by apply Hk].
  destruct (Hk st Hl) as (Hu & Hf & Hp). rewrite (ta_uid _ _ Ht), (ta_fin _ _ Ht). split_and!; [done|done|].
  intros Hc. apply Hp, (ta_phase _ _ Ht), Hc.
Qed.

Lemma next_fault_same {W} (w : world W) f w' : next_fault w = (f, w') ->
  wd_node w' = wd_node w /\ wd_wfs w' = wd_wfs w.
Proof. unfold next_fault. destruct (wd_faults w); intros E; by injection E as <- <-. Qed.

(** The fields of a status that count here, after a merge. *)
Lemma merge_plan base new stored :
  ft_Plan (merge_status base new stored) = if decide (ft_Plan base = ft_Plan new) then ft_Plan stored else ft_Plan new.
Proof. done. Qed.
Lemma merge_phase base new stored :
  ft_Phase (merge_status base new stored) = if decide (ft_Phase base = ft_Phase new) then ft_Phase stored else ft_Phase new.
Proof. done. Qed.

(** What a patch of the status stores. *)
Definition patched (base wf st : SeiNodeTaskWorkflow) : SeiNodeTaskWorkflow :=
  wf_bump (wf_status (merge_status (fw_Status base) (fw_Status wf)) st).
Lemma PatchWorkflowStatus_spec {W} base wf (w : world W) e wf' w' :
  PatchWorkflowStatus base wf w = (e, wf', w') ->
  wd_node w' = wd_node w /\
  ((wd_wfs w' = wd_wfs w /\ e <> None /\ wf' = wf) \/
   exists st, wd_wfs w !! fw_Name wf = Some st /\ wd_wfs w' = <[fw_Name wf := patched base wf st]> (wd_wfs w) /\
     (wf' = patched base wf st \/ wf' = wf /\ e <> None)).
Proof.
  unfold PatchWorkflowStatus. destruct (next_fault w) as [f w1] eqn:Ef.
  destruct (next_fault_same w f w1 Ef) as [Hn Hm]. rewrite Hm. destruct (wd_wfs w !! fw_Name wf) as [st|] eqn:El.
  2:{ intros E. injection E as <- <- <-. split; [done|]. left. by rewrite Hm. }
  destruct (negb _); [intros E; injection E as <- <- <-; split; [done|]; left; by rewrite Hm|].
  destruct f as [| |c]; intros E; injection E as <- <- <-; (split; [done|]).
  - right. exists st. simpl. split_and!; [done|done|by left].
  - right. exists st. simpl. split_and!; [done|done|by right].
  - left. by rewrite Hm.
Qed.

(** A change of the status that leaves the plan alone and completes nothing. *)
Definition quiet (f : SeiNodeTaskWorkflow -> SeiNodeTaskWorkflow) : Prop :=
  forall wf, fw_Name (f wf) = fw_Name wf /\ fw_UID (f wf) = fw_UID wf /\ fw_Finalizer (f wf) = fw_Finalizer wf /\
    ft_Plan (fw_Status (f wf)) = ft_Plan (fw_Status wf) /\
    (ft_Phase (fw_Status (f wf)) = WfComplete -> ft_Phase (fw_Status wf) = WfComplete).

Lemma patched_tame base wf st :
  ft_Plan (fw_Status wf) = ft_Plan (fw_Status base) ->
  (ft_Phase (fw_Status wf) = WfComplete -> ft_Phase (fw_Status base) = WfComplete) ->
  tame st (patched base wf st).
Proof.
  intros Hp Hph. split; try done; unfold patched; simpl.
  - by rewrite decide_True.
  - destruct (decide (ft_Phase (fw_Status base) = ft_Phase (fw_Status wf))) as [E|E]; [done|]. intros Hc.
    exfalso. apply E. rewrite Hc. by apply Hph.
Qed.

Section HoldProofs.
Context {C : SeiConfig} {H : Hashes} {SC : StatusConditions} {W : Type} {RT : TaskRuntime W}.

Lemma patchWorkflowStatus_tamed mutate wf (w : world W) e wf' w' :
  quiet mutate -> patchWorkflowStatus mutate wf w = (e, wf', w') ->
  wd_node w' = wd_node w /\ tamed (wd_wfs w) (wd_wfs w') /\
  (forall ptr, store_ok ptr (wd_wfs w) -> known (wd_wfs w) wf -> known (wd_wfs w') wf').
Proof.
  intros Hq E. unfold patchWorkflowStatus in E. set (wf1 := mutate _) in E.
  destruct (Hq (wf_status (st_observed (fw_Generation wf)) wf)) as (Hn & Hu & Hf & Hp & Hph). fold wf1 in Hn, Hu, Hf, Hp, Hph.
  simpl in Hn, Hu, Hf, Hp, Hph.
  assert (Hk : forall m, known m wf -> known m wf1) by (unfold known; by rewrite Hn, Hu, Hf).
  destruct (decide _) as [Heq|_]; [injection E as <- <- <-; split_and!; [done|by left|intros _ _; apply Hk]|].
  destruct (PatchWorkflowStatus_spec wf wf1 w e wf' w' E) as (Hnode & [(Hm & _ & ->)|(st & Hl & Hm & Hwf)]).
  { rewrite Hm. split_and!; [done|by left|intros _ _; apply Hk]. }
  assert (Ht : tame st (patched wf wf1 st)) by (by apply patched_tame).
  assert (Htd : tamed (wd_wfs w) (wd_wfs w')) by (right; eauto 10).
  split_and!; [done|done|]. intros ptr Hok Hkn. destruct Hwf as [->|[-> _]]; [|by apply Hk, (known_tamed _ _ _ Htd)].
  intros st1 Hl1. destruct (Hok _ _ Hl) as [Hname _]. rewrite Hn in Hl, Hm, Hname.
  change (fw_Name (patched wf wf1 st)) with (fw_Name st) in Hl1. rewrite Hm, Hname, lookup_insert_eq in Hl1. injection Hl1 as <-.
  destruct (Hkn st Hl) as (_ & _ & Hp1). split_and!; [done|done|]. intros Hc. by apply Hp1, (ta_phase _ _ Ht).
Qed.

(** A call that keeps the node, the hold and what is known of any object. *)
Record calm (w w' : world W) : Prop := {
  cl_node : wd_node w' = wd_node w;
  cl_ok : forall ptr, store_ok ptr (wd_wfs w) -> store_ok ptr (wd_wfs w');
  cl_known : forall wf, known (wd_wfs w) wf -> known (wd_wfs w') wf;
}.
Lemma calm_refl w : calm w w.
Proof. by split. Qed.
Lemma calm_trans w1 w2 w3 : calm w1 w2 -> calm w2 w3 -> calm w1 w3.
Proof. intros [Hn1 Ho1 Hk1] [Hn2 Ho2 Hk2]. split; [congruence|eauto|eauto]. Qed.
Lemma calm_same w w' : wd_node w' = wd_node w -> wd_wfs w' = wd_wfs w -> calm w w'.
Proof. intros Hn Hm. split; [done|by rewrite Hm|by rewrite Hm]. Qed.
Lemma calm_tamed w w' : wd_node w' = wd_node w -> tamed (wd_wfs w) (wd_wfs w') -> calm w w'.
Proof. intros Hn Ht. split; [done|intros ptr; by apply tamed_ok|intros wf; by apply known_tamed]. Qed.
Hint Resolve calm_refl : core.

Lemma quiet_cond ct st r m f : quiet f -> quiet (fun x => setWorkflowCondition ct st r m (f x)).
Proof. intros Hq wf. exact (Hq wf). Qed.
Lemma quiet_seed f : quiet f -> quiet (fun x => seedWorkflowTerminalConditions (f x)).
Proof.
  intros Hq wf. destruct (Hq wf) as (Hn & Hu & Hf & Hp & Hph). unfold seedWorkflowTerminalConditions, seed_condition.
  by repeat case_match.
Qed.
Lemma quiet_phase ph : ph <> WfComplete -> quiet (wf_status (st_phase ph)).
Proof. intros Hph wf. by split_and!. Qed.
Lemma quiet_pending f : quiet f -> quiet (fun x => pending_phase (f x)).
Proof. intros Hq wf. unfold pending_phase. destruct (decide _); [|apply Hq]. destruct (Hq wf) as (? & ? & ? & ? & ?). by split_and!. Qed.
Lemma quiet_id : quiet id.
Proof. by intros wf. Qed.

Lemma patchWorkflowStatus_calm mutate wf (w : world W) :
  quiet mutate -> calm w (patchWorkflowStatus mutate wf w).2.
Proof.
  intros Hq. destruct (patchWorkflowStatus mutate wf w) as [[e wf'] w'] eqn:E. simpl.
  destruct (patchWorkflowStatus_tamed mutate wf w e wf' w' Hq E) as (Hn & Ht & _). by apply calm_tamed.
Qed.
Lemma failWorkflow_calm reason msg wf (w : world W) : calm w (failWorkflow reason msg wf w).2.
Proof.
  unfold failWorkflow. destruct (decide _); [done|].
  match goal with |- context [patchWorkflowStatus ?f wf w] => pose proof (patchWorkflowStatus_calm f wf w) as Hc end.
  destruct (patchWorkflowStatus _ wf w) as [[e wf'] w']. apply Hc, quiet_seed, quiet_cond. by apply quiet_phase.
Qed.
Lemma seedWorkflowAdoption_calm status reason msg wf (w : world W) : calm w (seedWorkflowAdoption status reason msg wf w).2.
Proof.
  unfold seedWorkflowAdoption.
  match goal with |- context [patchWorkflowStatus ?f wf w] => pose proof (patchWorkflowStatus_calm f wf w) as Hc end.
  destruct (patchWorkflowStatus _ wf w) as [[e wf'] w']. apply Hc, quiet_seed, quiet_cond, (quiet_pending id), quiet_id.
Qed.
Lemma each_calm f wfs (w : world W) : (forall wf w, calm w (f wf w).2) -> calm w (each f wfs w).
Proof. intros Hf. revert w. induction wfs as [|wf wfs IH]; intros w; [done|]. simpl. eapply calm_trans; [apply Hf|apply IH]. Qed.

Lemma quiet_first t : quiet (wf_status (st_first t)).
Proof. by intros wf. Qed.
Lemma gateOnRequirePhase_calm now wf node (w : world W) : calm w (gateOnRequirePhase now wf node w).2.
Proof.
  unfold gateOnRequirePhase. destruct (decide _) as [_|_].
  { destruct (ft_TargetFirstObservedAt (fw_Status wf)); [|done].
    pose proof (patchWorkflowStatus_calm (wf_status (st_first None)) wf w (quiet_first None)) as Hc.
    by destruct (patchWorkflowStatus (wf_status (st_first None)) wf w) as [[e wf'] w']. }
  destruct (match ft_TargetFirstObservedAt (fw_Status wf) with Some t => _ | None => _ end).
  { match goal with |- context [failWorkflow ?r ?m wf w] => pose proof (failWorkflow_calm r m wf w) as Hc end.
    by destruct (failWorkflow _ _ wf w). }
  match goal with |- context [patchWorkflowStatus ?f wf w] => pose proof (patchWorkflowStatus_calm f wf w) as Hc end.
  destruct (patchWorkflowStatus _ wf w) as [[e wf'] w']. apply Hc, quiet_seed, quiet_cond.
  intros x. apply (quiet_pending (fun x => wf_status _ x)). intros y. simpl. by destruct (ft_TargetFirstObservedAt _).
Qed.
(** The phase is met: the workflow in memory is still the stored one. *)
Lemma gateOnRequirePhase_known ptr now wf node (w : world W) wf' w' :
  gateOnRequirePhase now wf node w = (None, wf', w') -> store_ok ptr (wd_wfs w) -> known (wd_wfs w) wf -> known (wd_wfs w') wf'.
Proof.
  unfold gateOnRequirePhase. intros E Hok Hk. destruct (decide _) as [_|_].
  - destruct (ft_TargetFirstObservedAt (fw_Status wf)); [|by injection E as <- <-].
    destruct (patchWorkflowStatus (wf_status (st_first None)) wf w) as [[e wf1] w1] eqn:Ep. injection E as <- <-.
    destruct (patchWorkflowStatus_tamed _ _ _ _ _ _ (quiet_first None) Ep) as (_ & _ & Hkn). by eapply Hkn.
  - exfalso. destruct (match ft_TargetFirstObservedAt (fw_Status wf) with Some t => _ | None => _ end).
    + by destruct (failWorkflow _ _ wf w).
    + by destruct (patchWorkflowStatus _ wf w) as [[? ?] ?].
Qed.

(** *** Finalizers *)
Definition with_fin (fin : bool) (st : SeiNodeTaskWorkflow) : SeiNodeTaskWorkflow :=
  wf_meta (fw_ResourceVersion st + 1) (fw_Deleting st) fin (fw_ForceDelete st) st.
Lemma patchWorkflowFinalizer_spec add wf (w : world W) e wf' w' :
  patchWorkflowFinalizer add wf w = (e, wf', w') ->
  wd_node w' = wd_node w /\
  ((wd_wfs w' = wd_wfs w /\ fw_Name wf' = fw_Name wf /\
    (e = None -> fw_Finalizer wf = add /\ wf' = wf \/ wd_wfs w !! fw_Name wf = None)) \/
   exists st, wd_wfs w !! fw_Name wf = Some st /\
     (wd_wfs w' = <[fw_Name wf := with_fin add st]> (wd_wfs w) \/ add = false /\ wd_wfs w' = delete (fw_Name wf) (wd_wfs w)) /\
     (e = None -> wf' = with_fin add st)).
Proof.
  unfold patchWorkflowFinalizer. destruct (Bool.eqb (fw_Finalizer wf) add) eqn:Eb.
  { apply Bool.eqb_prop in Eb. intros E. injection E as <- <- <-. split; [done|]. left. by auto. }
  unfold PatchFinalizer. destruct (next_fault w) as [f w1] eqn:Ef. destruct (next_fault_same w f w1 Ef) as [Hn Hm].
  rewrite Hm. destruct (wd_wfs w !! fw_Name wf) as [st|] eqn:El.
  2:{ intros E. injection E as <- <- <-. split; [done|]. left. rewrite Hm. by auto. }
  destruct (add && fw_Deleting st) eqn:Ead; [intros E; injection E as <- <- <-; split; [done|]; left; by rewrite Hm|].
  fold (with_fin add st).
  set (w2 := if fw_Deleting (with_fin add st) && negb (fw_Finalizer (with_fin add st)) && negb (fw_OtherFinalizers (with_fin add st))
             then set_wfs (delete (fw_Name wf) (wd_wfs w)) w1
             else set_wfs (<[fw_Name wf := with_fin add st]> (wd_wfs w)) w1).
  assert (Hw2 : wd_node w2 = wd_node w /\
    (wd_wfs w2 = <[fw_Name wf := with_fin add st]> (wd_wfs w) \/ add = false /\ wd_wfs w2 = delete (fw_Name wf) (wd_wfs w))).
  { unfold w2. destruct (_ && _ && _) eqn:Er; simpl; (split; [done|]); [right|by left].
    apply andb_true_iff in Er as [Er _]. apply andb_true_iff in Er as [_ Er]. by destruct add. }
  destruct Hw2 as [Hn2 Hm2]. destruct f as [| |c]; intros E.
  - injection E as <- <- <-. split; [done|]. right. eauto.
  - injection E as <- <- <-. split; [done|]. right. exists st. by split_and!.
  - destruct c; injection E as <- <- <-; (split; [done|]); left; by rewrite Hm.
Qed.

Lemma with_fin_true_ok ptr st : wf_ok ptr st -> wf_ok ptr (with_fin true st).
Proof. intros [Hh Hc]. split; [|exact Hc]. intros Hp Hf. destruct (Hh Hp Hf) as [_ Hpt]. by split. Qed.
Lemma with_fin_false_ok ptr st : wf_ok ptr st -> (in_progress st -> forced_out st) -> wf_ok ptr (with_fin false st).
Proof. intros [Hh Hc] Hx. split; [|exact Hc]. intros Hp Hf. destruct Hf. by apply Hx. Qed.

(** Adding the finalizer keeps the hold, and then the stored object has it. *)
Lemma ensure_ok ptr wf (w : world W) e wf' w' :
  ensureWorkflowFinalizer wf w = (e, wf', w') -> store_ok ptr (wd_wfs w) ->
  wd_node w' = wd_node w /\ store_ok ptr (wd_wfs w').
Proof.
  intros E Hok. destruct (patchWorkflowFinalizer_spec _ _ _ _ _ _ E) as (Hn & Hc). split; [done|].
  destruct Hc as [(Hm & _)|(st & Hl & [Hm|[? _]] & _)]; [by rewrite Hm| |done].
  rewrite Hm. destruct (Hok _ _ Hl) as [Hnm Hw]. by apply store_ok_insert; [|exact Hnm|apply with_fin_true_ok].
Qed.
Lemma ensure_known ptr wf (w : world W) wf' w' :
  ensureWorkflowFinalizer wf w = (None, wf', w') -> store_ok ptr (wd_wfs w) -> known (wd_wfs w) wf ->
  fw_Name wf' = fw_Name wf /\ forall st, wd_wfs w' !! fw_Name wf = Some st ->
    fw_UID st = fw_UID wf /\ fw_Finalizer st = true /\ ft_Phase (fw_Status st) <> WfComplete.
Proof.
  intros E Hok Hk. destruct (patchWorkflowFinalizer_spec _ _ _ _ _ _ E) as (Hn & Hc).
  destruct Hc as [(Hm & Hnm & He)|(st & Hl & [Hm|[? _]] & He)]; [| |done].
  - split; [done|]. rewrite Hm. intros st Hl. destruct (He eq_refl) as [[Hf _]|Hx]; [|congruence].
    destruct (Hk st Hl) as (Hu & Hf' & Hp). by rewrite Hf', Hf.
  - destruct (Hok _ _ Hl) as [Hnm _]. rewrite (He eq_refl). split; [exact Hnm|]. rewrite Hm, lookup_insert_eq.
    intros st1 E1. injection E1 as <-. destruct (Hk st Hl) as (Hu & _ & Hp). by split_and!.
Qed.

(** Taking it off keeps the hold if the workflow is done with, or forced out. *)
Definition let_go (m : gmap string SeiNodeTaskWorkflow) (name : string) : Prop :=
  forall st, m !! name = Some st -> in_progress st -> forced_out st.
Lemma strip_ok ptr wf (w : world W) e wf' w' :
  patchWorkflowFinalizer false wf w = (e, wf', w') -> store_ok ptr (wd_wfs w) -> let_go (wd_wfs w) (fw_Name wf) ->
  wd_node w' = wd_node w /\ store_ok ptr (wd_wfs w') /\
  (forall name, let_go (wd_wfs w) name -> let_go (wd_wfs w') name).
Proof.
  intros E Hok Hg. destruct (patchWorkflowFinalizer_spec _ _ _ _ _ _ E) as (Hn & Hc). split; [done|].
  destruct Hc as [(Hm & _)|(st & Hl & [Hm|[_ Hm]] & _)]; rewrite Hm; [done| |].
  - destruct (Hok _ _ Hl) as [Hnm Hw]. split.
    + apply store_ok_insert; [done|exact Hnm|]. apply with_fin_false_ok; [done|]. by apply Hg.
    + intros name Hx st1 [[<- <-]|[_ H1]]%lookup_insert_Some; [|by apply Hx]. exact (Hx st Hl).
  - split; [by apply store_ok_delete|]. intros name Hx st1 [_ H1]%lookup_delete_Some. by apply Hx.
Qed.
Lemma stripFinalizers_ok ptr keep wfs (w : world W) :
  store_ok ptr (wd_wfs w) -> (forall wf, wf ∈ wfs -> keep wf = true -> let_go (wd_wfs w) (fw_Name wf)) ->
  wd_node (stripFinalizers keep wfs w).2 = wd_node w /\ store_ok ptr (wd_wfs (stripFinalizers keep wfs w).2).
Proof.
  revert w. induction wfs as [|wf wfs IH]; intros w Hok Hg; [done|]. cbn [stripFinalizers].
  destruct (keep wf) eqn:Ek; [|apply IH; [done|]; intros x Hx; apply Hg; by right].
  destruct (patchWorkflowFinalizer false wf w) as [[e wf'] w'] eqn:E.
  destruct (strip_ok ptr _ _ _ _ _ E Hok) as (Hn & Hok' & Hg'); [apply Hg; [by left|done]|].
  assert (Hrec : wd_node (stripFinalizers keep wfs w').2 = wd_node w /\ store_ok ptr (wd_wfs (stripFinalizers keep wfs w').2)).
  { rewrite <- Hn. apply IH; [done|]. intros x Hx Hkx. apply Hg', Hg; [by right|done]. }
  by destruct e as [[]|].
Qed.

(** *** Listing, persisting, adopting *)
Lemma ListWorkflows_spec node (w : world W) r w' :
  ListWorkflows node w = (r, w') ->
  calm w w' /\ wd_wfs w' = wd_wfs w /\
  forall wfs wf, r = inr wfs -> wf ∈ wfs -> exists name, wd_wfs w !! name = Some wf.
Proof.
  unfold ListWorkflows. destruct (next_fault w) as [f w1] eqn:Ef. destruct (next_fault_same w f w1 Ef) as [Hn Hm].
  intros E. assert (Hw : w1 = w') by (by destruct f; injection E as <- <-). subst w1. split_and!; [by apply calm_same|done|].
  intros wfs wf -> Hin. destruct f; [|done..]. injection E as <-. rewrite Hm in Hin.
  apply list_elem_of_filter in Hin as [_ Hin]. apply list_elem_of_fmap in Hin as ([name wf1] & -> & Hin).
  apply elem_of_map_to_list in Hin. eauto.
Qed.
Lemma complete_let_go ptr (w : world W) name wf :
  store_ok ptr (wd_wfs w) -> wd_wfs w !! name = Some wf -> ft_Phase (fw_Status wf) = WfComplete ->
  let_go (wd_wfs w) (fw_Name wf).
Proof.
  intros Hok Hl Hc st Hst Hp. destruct (Hok _ _ Hl) as [<- Hw]. rewrite Hl in Hst. injection Hst as <-.
  by destruct (complete_not_in_progress _ _ Hw Hc).
Qed.
Lemma reap_ok ptr node (w : world W) :
  store_ok ptr (wd_wfs w) ->
  wd_node (reapCompletedWorkflowFinalizers node w).2 = wd_node w /\
  store_ok ptr (wd_wfs (reapCompletedWorkflowFinalizers node w).2).
Proof.
  intros Hok. unfold reapCompletedWorkflowFinalizers. destruct (ListWorkflows node w) as [[e|wfs] w1] eqn:E;
    destruct (ListWorkflows_spec _ _ _ _ E) as ([Hn Hok1 _] & Hm & Hin); [by split; [|apply Hok1]|].
  rewrite <- Hn. apply stripFinalizers_ok; [by apply Hok1|]. intros wf Hwf Hk. rewrite Hm.
  destruct (Hin wfs wf eq_refl Hwf) as [name Hl]. apply bool_decide_eq_true in Hk. by eapply complete_let_go.
Qed.
Lemma pending_known ptr node (w : world W) wfs w' wf :
  pendingWorkflowsForNode node w = (inr wfs, w') -> store_ok ptr (wd_wfs w) -> wf ∈ wfs -> known (wd_wfs w') wf.
Proof.
  unfold pendingWorkflowsForNode. destruct (ListWorkflows node w) as [[e|l] w1] eqn:E; [done|]. intros E' Hok Hin.
  destruct (ListWorkflows_spec _ _ _ _ E) as (_ & Hm & Hl). injection E' as <- <-. rewrite merge_sort_Permutation in Hin.
  apply list_elem_of_In, filter_In in Hin as [Hin Hc]. destruct (Hl l wf eq_refl (proj2 (list_elem_of_In _ _) Hin)) as [name Hname].
  destruct (Hok _ _ Hname) as [<- _]. intros st Hst. rewrite Hm, Hname in Hst. injection Hst as <-. split_and!; [done|done|].
  intros Hp. unfold is_candidate in Hc. rewrite Hp, andb_false_r in Hc. done.
Qed.
Lemma pending_calm node (w : world W) : calm w (pendingWorkflowsForNode node w).2.
Proof.
  unfold pendingWorkflowsForNode. destruct (ListWorkflows node w) as [[e|l] w1] eqn:E; by destruct (ListWorkflows_spec _ _ _ _ E).
Qed.

(** A plan is stored only on an object that has the finalizer, and that the node points at. *)
Lemma persist_ok ptr plan wf (w : world W) e wf' w' :
  persistWorkflowPlan plan wf w = (e, wf', w') -> store_ok (Some ptr) (wd_wfs w) ->
  ar_Name ptr = fw_Name wf ->
  (forall st, wd_wfs w !! fw_Name wf = Some st ->
     fw_UID st = ar_UID ptr /\ fw_Finalizer st = true /\ ft_Phase (fw_Status st) <> WfComplete) ->
  wd_node w' = wd_node w /\ store_ok (Some ptr) (wd_wfs w').
Proof.
  unfold persistWorkflowPlan, patchWorkflowStatus. set (wf1 := seedWorkflowTerminalConditions _).
  assert (H1 : fw_Name wf1 = fw_Name wf /\ ft_Phase (fw_Status wf1) = WfRunning)
    by (unfold wf1, seedWorkflowTerminalConditions, seed_condition; by repeat case_match).
  destruct H1 as [Hnm Hph]. intros E Hok Hr Hst. destruct (decide _) as [_|_]; [by injection E as <- <- <-|].
  destruct (PatchWorkflowStatus_spec _ _ _ _ _ _ E) as (Hn & [(Hm & _)|(st & Hl & Hm & _)]); (split; [done|]); rewrite Hm; [done|].
  rewrite Hnm in Hl |- *. destruct (Hok _ _ Hl) as [Hsn _]. destruct (Hst st Hl) as (Hu & Hf & Hc).
  apply store_ok_insert; [done|exact Hsn|]. split.
  - intros _ _. split; [exact Hf|]. exists ptr. split_and!; [done|by rewrite Hr|by rewrite <- Hu].
  - unfold patched. simpl. rewrite Hph. intros Hcp. exfalso. destruct (decide _); [by apply Hc|done].
Qed.

(** *** The handlers keep the hold *)
Definition ptr_of (w : world W) : option AdoptedWorkflowRef := wn_Adopted (wd_node w).
Definition world_ok (w : world W) : Prop := store_ok (ptr_of w) (wd_wfs w).

(** What the workflow half leaves: the stored objects agree, the node in memory may
    be flushed, and a node that is not held points at nothing. *)
Record settled (r : workflow_result) (node : wnode) (fl : flusher) (w : world W) : Prop := {
  se_stored : world_ok w;
  se_memory : fl_failed fl = false -> store_ok (wn_Adopted node) (wd_wfs w);
  se_flushed : wr_err r = None -> fl_failed fl = false;
  se_free : wr_err r = None -> wr_suppress r = false -> wn_Adopted node = None;
  se_handled : wr_handled r = true -> wr_suppress r = true;
}.

Lemma flush_ok fl node (w : world W) :
  world_ok w -> store_ok (wn_Adopted node) (wd_wfs w) ->
  world_ok (flushStatus fl node w).2 /\ wd_wfs (flushStatus fl node w).2 = wd_wfs w.
Proof.
  intros Hw Hn. unfold flushStatus. destruct (same_status _ _); [done|]. destruct (next_fault w) as [f w1] eqn:Ef.
  destruct (next_fault_same w f w1 Ef) as [Hn1 Hm]. unfold world_ok, ptr_of in *.
  destruct f; simpl; rewrite ?Hm; (split; [|done]); [done|done|by rewrite Hn1].
Qed.

Lemma flush_pointer fl node (w : world W) fl' w' :
  flushStatus fl node w = (None, fl', w') -> wn_Adopted (fl_before fl) <> wn_Adopted node ->
  ptr_of w' = wn_Adopted node /\ wd_wfs w' = wd_wfs w /\ fl_failed fl' = fl_failed fl.
Proof.
  unfold flushStatus, same_status. intros E Hne. rewrite (bool_decide_eq_false_2 (wn_Adopted _ = _)), andb_false_r in E by done.
  destruct (next_fault w) as [f w1] eqn:Ef. destruct (next_fault_same w f w1 Ef) as [_ Hm].
  destruct f; [|done..]. by injection E as <- <-.
Qed.
Lemma flush_error fl node (w : world W) e fl' w' :
  flushStatus fl node w = (Some e, fl', w') -> fl_failed fl' = true.
Proof.
  unfold flushStatus. destruct (same_status _ _); [done|]. destruct (next_fault w) as [f w1]. destruct f; [done|..]; intros E; by injection E as <- <- <-.
Qed.

Lemma adopt_settled now plan winner node fl (w : world W) :
  ptr_of w = None -> world_ok w -> known (wd_wfs w) winner ->
  wn_Adopted (fl_before fl) = None -> fl_failed fl = false ->
  let '(r, node', fl', w') := adopt now plan winner node fl w in settled r node' fl' w'.
Proof.
  intros Hp Hok Hk Hb Hf. unfold adopt. set (ref := mkRef _ _ _). set (node1 := setWorkflowInProgress _ _ _ _).
  assert (Hn1 : wn_Adopted node1 = Some ref) by done. unfold world_ok in Hok. rewrite Hp in Hok.
  pose proof (store_ok_none (Some ref) _ Hok) as Hok1.
  assert (Hfl : world_ok (flushStatus fl node1 w).2 /\ wd_wfs (flushStatus fl node1 w).2 = wd_wfs w)
    by (apply flush_ok; unfold world_ok; by rewrite ?Hp).
  destruct (flushStatus fl node1 w) as [[e fl1] w1] eqn:Ef. destruct Hfl as [Hw1 Hm1]. cbn [snd] in *.
  destruct e as [e|]; [split; try done; intros Hx; by rewrite (flush_error _ _ _ _ _ _ Ef) in Hx|].
  destruct (flush_pointer _ _ _ _ _ Ef) as (Hp1 & _ & Hf1); [by rewrite Hb, Hn1|]. rewrite Hf in Hf1.
  rewrite <- Hm1 in Hok1, Hk.
  destruct (ensureWorkflowFinalizer winner w1) as [[e2 winner2] w2] eqn:Ee.
  destruct (ensure_ok (Some ref) _ _ _ _ _ Ee Hok1) as [Hn2 Hok2].
  assert (Hp2 : ptr_of w2 = Some ref) by (unfold ptr_of in *; by rewrite Hn2).
  destruct e2 as [e2|]; [by split; try done; unfold world_ok; rewrite Hp2|].
  destruct (ensure_known (Some ref) _ _ _ _ Ee Hok1 Hk) as [Hnm Hst].
  destruct (persistWorkflowPlan plan winner2 w2) as [[e3 winner3] w3] eqn:E3.
  destruct (persist_ok ref _ _ _ _ _ _ E3 Hok2) as [Hn3 Hok3]; [by rewrite Hnm|by rewrite Hnm|].
  assert (Hp3 : ptr_of w3 = Some ref) by (unfold ptr_of in *; by rewrite Hn3).
  destruct e3; split; try done; unfold world_ok; by rewrite Hp3.
Qed.

(** A node without a pointer, after calls that keep the hold. *)
Lemma settled_calm r node fl w w' :
  calm w w' -> ptr_of w = None -> world_ok w -> wn_Adopted node = None -> fl_failed fl = false ->
  wr_handled r = false -> settled r node fl w'.
Proof.
  intros [Hn Hok _] Hp Hw Hna Hf Hh. assert (Hp' : ptr_of w' = None) by (unfold ptr_of in *; by rewrite Hn).
  unfold world_ok in *. rewrite Hp in Hw. split; try done; [by unfold world_ok; rewrite Hp'; apply Hok| |by rewrite Hh].
  intros _. rewrite Hna. by apply Hok.
Qed.

Lemma maybeAdopt_settled now planID node fl (w : world W) :
  ptr_of w = None -> world_ok w -> wn_Adopted node = None -> wn_Adopted (fl_before fl) = None -> fl_failed fl = false ->
  let '(r, node', fl', w') := maybeAdoptWorkflow now planID node fl w in settled r node' fl' w'.
Proof.
  intros Hp Hok Hna Hb Hf. unfold maybeAdoptWorkflow.
  destruct (reap_ok (ptr_of w) (wn_Node node) w Hok) as [Hn1 Hok1].
  destruct (reapCompletedWorkflowFinalizers (wn_Node node) w) as [e w1]. cbn [snd] in *.
  assert (Hp1 : ptr_of w1 = None) by (unfold ptr_of in *; by rewrite Hn1).
  assert (Hw1 : world_ok w1) by (unfold world_ok; by rewrite Hp1, <- Hp).
  destruct e as [e|]; [by eapply settled_calm; [apply calm_refl|..]|].
  pose proof (pending_calm (wn_Node node) w1) as Hc.
  destruct (pendingWorkflowsForNode (wn_Node node) w1) as [[e|[|winner losers]] w2] eqn:Epend; cbn [snd] in Hc;
    [by eapply settled_calm|by eapply settled_calm|].
  assert (Hk : known (wd_wfs w2) winner) by (eapply pending_known; [exact Epend|exact Hw1|by left]).
  destruct (_ <>s ""); [eapply settled_calm; [|done..]; eapply calm_trans; [exact Hc|]; apply each_calm; intros; apply failWorkflow_calm|].
  destruct (MountsNodeConfig _); [eapply settled_calm; [|done..]; eapply calm_trans; [exact Hc|]; apply each_calm; intros; apply failWorkflow_calm|].
  set (w3 := each _ losers w2).
  assert (Hc3 : calm w1 w3) by (eapply calm_trans; [exact Hc|]; apply each_calm; intros; apply seedWorkflowAdoption_calm).
  assert (Hk3 : known (wd_wfs w3) winner).
  { eapply cl_known; [|exact Hk]. apply each_calm. intros. apply seedWorkflowAdoption_calm. }
  destruct (sp_Paused _); [eapply settled_calm; [|done..]; eapply calm_trans; [exact Hc3|]; apply seedWorkflowAdoption_calm|].
  destruct (st_Plan _); [eapply settled_calm; [|done..]; eapply calm_trans; [exact Hc3|]; apply seedWorkflowAdoption_calm|].
  assert (Hw3 : world_ok w3 /\ ptr_of w3 = None).
  { destruct Hc3 as [Hn3 Hok3 _]. unfold world_ok, ptr_of in *. rewrite Hn3. auto. }
  destruct Hw3 as [Hw3 Hp3]. pose proof (gateOnRequirePhase_calm now winner (wn_Node node) w3) as Hc4.
  destruct (gateOnRequirePhase now winner (wn_Node node) w3) as [[[res|] winner'] w4] eqn:Eg; cbn [snd] in Hc4; [by eapply settled_calm|].
  pose proof (gateOnRequirePhase_known (ptr_of w3) _ _ _ _ _ _ Eg Hw3 Hk3) as Hk4.
  destruct (buildWorkflowPlan planID (wn_Node node) winner') as [plan|e].
  - destruct Hc4 as [Hn4 Hok4 _]. apply adopt_settled; [unfold ptr_of in *; by rewrite Hn4| |done..].
    unfold world_ok, ptr_of in *. rewrite Hn4. auto.
  - eapply settled_calm; [|done..]. eapply calm_trans; [exact Hc4|apply failWorkflow_calm].
Qed.

(** *** Driving the adopted workflow *)

(** What driving leaves: the node untouched in the store, and its pointer kept or
    cleared with nothing left to hold. *)
Record driven (ptr : AdoptedWorkflowRef) (r : workflow_result) (node : wnode) (w w' : world W) : Prop := {
  dr_node : wd_node w' = wd_node w;
  dr_ok : store_ok (Some ptr) (wd_wfs w');
  dr_ptr : wn_Adopted node = Some ptr \/ wn_Adopted node = None /\ store_ok None (wd_wfs w');
  dr_free : wr_err r = None -> wr_suppress r = false -> wn_Adopted node = None;
  dr_handled : wr_handled r = false;
}.

(** The node lets go of a workflow that is complete, or deleted by force. *)
Lemma release_driven ptr wf (w : world W) r_ok msg node :
  store_ok (Some ptr) (wd_wfs w) -> wn_Adopted node = Some ptr -> fw_Name wf = ar_Name ptr ->
  let_go (wd_wfs w) (fw_Name wf) -> r_ok = free ->
  let '(e, _, w') := patchWorkflowFinalizer false wf w in
  match e with
  | Some e => driven ptr (stuck e) node w w'
  | None => driven ptr r_ok (clear_pointer msg node) w w'
  end.
Proof.
  intros Hok Hna Hnm Hg ->. destruct (patchWorkflowFinalizer false wf w) as [[e wf'] w'] eqn:E.
  destruct (strip_ok (Some ptr) _ _ _ _ _ E Hok Hg) as (Hn & Hok' & Hg'). destruct e as [e|]; split; try done; [by left|].
  right. split; [done|]. apply (store_ok_clear ptr); [done|]. intros st Hst _ Hp.
  apply (Hg' (fw_Name wf) Hg st); [by rewrite Hnm|done].
Qed.
Lemma releaseCompleted_driven ptr wf (w : world W) node :
  store_ok (Some ptr) (wd_wfs w) -> wn_Adopted node = Some ptr -> fw_Name wf = ar_Name ptr -> let_go (wd_wfs w) (fw_Name wf) ->
  let '(r, node', w') := match releaseCompletedWorkflow node wf w with
                         | (Some e, node', w') => (stuck e, node', w')
                         | (None, node', w') => (free, node', w')
                         end in driven ptr r node' w w'.
Proof.
  intros Hok Hna Hnm Hg. pose proof (release_driven ptr wf w free "workflow completed" node Hok Hna Hnm Hg eq_refl) as Hr.
  unfold releaseCompletedWorkflow. destruct (patchWorkflowFinalizer false wf w) as [[[e|] wf'] w']; exact Hr.
Qed.
Lemma finalize_driven ptr wf (w : world W) node :
  store_ok (Some ptr) (wd_wfs w) -> wn_Adopted node = Some ptr -> fw_Name wf = ar_Name ptr ->
  wd_wfs w !! fw_Name wf = Some wf -> fw_Deleting wf = true ->
  let '(r, node', w') := finalizeWorkflow node wf w in driven ptr r node' w w'.
Proof.
  intros Hok Hna Hnm Hl Hd. unfold finalizeWorkflow. destruct (Hok _ _ Hl) as [_ Hw]. destruct (fw_Finalizer wf) eqn:Ef; simpl.
  - destruct (String.eqb_spec (fw_ForceDelete wf) "") as [|Hforce]; simpl; [split; try done; by left|].
    pose proof (release_driven ptr wf w free "workflow deleted; hold released" node Hok Hna Hnm) as Hr.
    assert (Hg : let_go (wd_wfs w) (fw_Name wf)) by (intros st Hst _; rewrite Hl in Hst; by injection Hst as <-).
    specialize (Hr Hg eq_refl). destruct (patchWorkflowFinalizer false wf w) as [[[e|] wf'] w']; exact Hr.
  - split; try done. right. split; [done|]. apply (store_ok_clear ptr); [done|]. intros st Hst _ Hp.
    rewrite <- Hnm, Hl in Hst. injection Hst as <-. destruct (decide (fw_ForceDelete wf = "")) as [E|E]; [|done].
    destruct (wo_held _ _ Hw Hp) as [Hx _]; [by intros [_ ?]|congruence].
Qed.

(** The object in memory is the stored one. *)
Lemma ensure_exact wf (w : world W) wf' w' :
  ensureWorkflowFinalizer wf w = (None, wf', w') -> wd_wfs w !! fw_Name wf = Some wf ->
  wd_wfs w' !! fw_Name wf' = Some wf' /\ fw_Finalizer wf' = true /\ fw_Status wf' = fw_Status wf /\
  fw_Name wf' = fw_Name wf /\ fw_UID wf' = fw_UID wf.
Proof.
  intros E Hl. destruct (patchWorkflowFinalizer_spec _ _ _ _ _ _ E) as (_ & [(Hm & _ & He)|(st & Hst & [Hm|[? _]] & He)]); [..|done].
  - destruct (He eq_refl) as [[Hf ->]|Hx]; [by rewrite Hm|congruence].
  - rewrite (He eq_refl), Hm. rewrite Hl in Hst. injection Hst as <-. by rewrite lookup_insert_eq.
Qed.

Lemma merge_same base new : merge_status base new base = new.
Proof. destruct base, new. unfold merge_status. simpl. by repeat (case_decide; subst). Qed.

Lemma executed_frame now ns wf (w : world W) res wf' w' :
  executed now ns wf w = (res, wf', w') ->
  wd_node w' = wd_node w /\ wd_wfs w' = wd_wfs w /\ fw_Name wf' = fw_Name wf /\
  ft_Phase (fw_Status wf') = ft_Phase (fw_Status wf).
Proof.
  unfold executed. destruct (ExecutePlan _ _ _ _ _) as [[[r s]|]|]; intros E; by injection E as <- <- <-.
Qed.
Lemma terminal_complete wf :
  ft_Plan (fw_Status (terminal_status wf)) = ft_Plan (fw_Status wf) /\ fw_Name (terminal_status wf) = fw_Name wf /\
  (ft_Phase (fw_Status wf) <> WfComplete -> ft_Phase (fw_Status (terminal_status wf)) = WfComplete ->
   pl_Phase <$> ft_Plan (fw_Status wf) = Some TaskPlanComplete).
Proof. unfold terminal_status. destruct (pl_Phase <$> ft_Plan (fw_Status wf)) as [[]|]; by split_and!. Qed.

(** The status patch of a driven workflow: the stored one carries the new status. *)
Lemma execute_stored ptr wf wf3 (w : world W) e wf4 w4 :
  store_ok (Some ptr) (wd_wfs w) -> fw_Name wf = ar_Name ptr -> fw_UID wf = ar_UID ptr ->
  wd_wfs w !! fw_Name wf = Some wf -> fw_Finalizer wf = true -> fw_Name wf3 = fw_Name wf ->
  (ft_Phase (fw_Status wf3) = WfComplete -> pl_Phase <$> ft_Plan (fw_Status wf3) = Some TaskPlanComplete) ->
  (if decide (fw_Status wf = fw_Status wf3) then (None, wf3, w) else PatchWorkflowStatus wf wf3 w) = (e, wf4, w4) ->
  wd_node w4 = wd_node w /\ store_ok (Some ptr) (wd_wfs w4) /\
  (e = None -> fw_Name wf4 = fw_Name wf /\
     forall st, wd_wfs w4 !! fw_Name wf = Some st -> ft_Plan (fw_Status st) = ft_Plan (fw_Status wf3)).
Proof.
  intros Hok Hnm Hu Hl Hf Hn3 Hc Ep. destruct (decide (fw_Status wf = fw_Status wf3)) as [Heq|_].
  - injection Ep as <- <- <-. split_and!; [done|done|]. intros _. split; [done|]. intros st Hst.
    rewrite Hl in Hst. injection Hst as <-. by rewrite Heq.
  - destruct (PatchWorkflowStatus_spec _ _ _ _ _ _ Ep) as (Hn4 & [(Hm4 & He & _)|(st & Hst & Hm4 & Hwf4)]).
    + rewrite Hm4, Hn4. by split_and!.
    + rewrite Hn3, Hl in Hst. injection Hst as <-. rewrite Hn3 in Hm4. rewrite Hm4, Hn4.
      assert (Hs : fw_Status (patched wf wf3 wf) = fw_Status wf3) by (unfold patched; simpl; apply merge_same).
      split_and!; [done| |].
      * apply store_ok_insert; [done|done|]. split.
        -- intros _ _. split; [exact Hf|]. exists ptr. by split_and!.
        -- rewrite Hs. exact Hc.
      * intros ->. split; [by destruct Hwf4 as [->|[_ ?]]|]. intros st Hst. rewrite lookup_insert_eq in Hst.
        injection Hst as <-. by rewrite Hs.
Qed.

Lemma executeWorkflow_driven ptr now node wf (w : world W) :
  store_ok (Some ptr) (wd_wfs w) -> wn_Adopted node = Some ptr -> fw_Name wf = ar_Name ptr -> fw_UID wf = ar_UID ptr ->
  wd_wfs w !! fw_Name wf = Some wf -> fw_Finalizer wf = true -> in_progress wf ->
  let '(r, node', w') := executeWorkflow now node wf w in driven ptr r node' w w'.
Proof.
  intros Hok Hna Hnm Hu Hl Hf Hip. destruct (Hok _ _ Hl) as [_ Hw].
  assert (Hpc : ft_Phase (fw_Status wf) <> WfComplete) by (intros Hc; by destruct (complete_not_in_progress _ _ Hw Hc)).
  unfold executeWorkflow. set (wf1 := match ft_Phase _ with WfNone | WfPending => _ | _ => _ end).
  assert (H1 : fw_Name wf1 = fw_Name wf /\ ft_Phase (fw_Status wf1) <> WfComplete)
    by (unfold wf1; simpl; destruct (ft_Phase (fw_Status wf)) eqn:Ep; simpl; rewrite ?Ep; done).
  destruct H1 as [Hn1 Hp1]. destruct (executed now _ wf1 w) as [[res wf2] w2] eqn:Ee.
  destruct (executed_frame _ _ _ _ _ _ _ Ee) as (Hnode2 & Hm2 & Hn2 & Hp2). rewrite Hn1 in Hn2. rewrite <- Hp2 in Hp1.
  destruct (terminal_complete wf2) as (Hplan3 & Hn3 & Hph3). rewrite Hn2 in Hn3. set (wf3 := terminal_status wf2) in *.
  destruct (if decide (fw_Status wf = fw_Status wf3) then (None, wf3, w2) else PatchWorkflowStatus wf wf3 w2)
    as [[e wf4] w4] eqn:Ep.
  destruct (execute_stored ptr wf wf3 w2 e wf4 w4) as (Hnode4 & Hok4 & He); try done; [by rewrite Hm2..| |].
  { intros Hc. rewrite Hplan3. by apply Hph3. }
  rewrite Hnode2 in Hnode4. destruct e as [e|]; [split; try done; by left|]. destruct (He eq_refl) as [Hn4 Hst4].
  destruct (pl_Phase <$> ft_Plan (fw_Status wf2)) as [[]|] eqn:Epl; [by split; try done; left| |by split; try done; left|by split; try done; left].
  assert (Hg : let_go (wd_wfs w4) (fw_Name wf4)).
  { rewrite Hn4. intros st Hst (p & Hp & Hne). rewrite (Hst4 st Hst), Hplan3 in Hp. rewrite Hp in Epl. by injection Epl. }
  pose proof (releaseCompleted_driven ptr wf4 w4 node Hok4 Hna) as Hr. rewrite Hn4 in Hr. specialize (Hr Hnm). rewrite <- Hn4 in Hr.
  specialize (Hr Hg). destruct (releaseCompletedWorkflow node wf4 w4) as [[[e|] node'] w5]; destruct Hr; split; try done; by rewrite <- Hnode4.
Qed.

Lemma GetWorkflow_spec name (w : world W) r w' :
  GetWorkflow name w = (r, w') ->
  wd_node w' = wd_node w /\ wd_wfs w' = wd_wfs w /\
  match r with
  | inr wf => wd_wfs w !! name = Some wf
  | inl ENotFound => wd_wfs w !! name = None
  | inl _ => True
  end.
Proof.
  unfold GetWorkflow. destruct (next_fault w) as [f w1] eqn:Ef. destruct (next_fault_same w f w1 Ef) as [Hn Hm].
  destruct f; intros E; injection E as <- <-; (split_and!; [done|done|]); [|done|done].
  rewrite Hm. by destruct (wd_wfs w !! name).
Qed.

Lemma buildAndPersist_ok ptr planID node wf (w : world W) :
  store_ok (Some ptr) (wd_wfs w) -> fw_Name wf = ar_Name ptr -> fw_UID wf = ar_UID ptr ->
  wd_wfs w !! fw_Name wf = Some wf -> fw_Finalizer wf = true -> ft_Phase (fw_Status wf) <> WfComplete ->
  wd_node (buildAndPersistWorkflowPlan planID node wf w).2 = wd_node w /\
  store_ok (Some ptr) (wd_wfs (buildAndPersistWorkflowPlan planID node wf w).2).
Proof.
  intros Hok Hnm Hu Hl Hf Hp. unfold buildAndPersistWorkflowPlan. destruct (buildWorkflowPlan _ _ _) as [plan|e]; simpl.
  - destruct (persistWorkflowPlan plan wf w) as [[e wf'] w'] eqn:E. simpl.
    eapply persist_ok; [exact E|done|done|]. intros st Hst. rewrite Hl in Hst. injection Hst as <-. by rewrite Hu.
  - destruct (failWorkflow_calm ReasonWorkflowPlanBuildFailed e wf w) as [Hn Hok' _]. auto.
Qed.

Lemma driveStep_driven ptr now planID node wf (w : world W) :
  store_ok (Some ptr) (wd_wfs w) -> wn_Adopted node = Some ptr -> fw_Name wf = ar_Name ptr -> fw_UID wf = ar_UID ptr ->
  wd_wfs w !! fw_Name wf = Some wf -> pl_Phase <$> ft_Plan (fw_Status wf) <> Some TaskPlanComplete ->
  let '(r, node', w') := driveStep now planID node wf w in driven ptr r node' w w'.
Proof.
  intros Hok Hna Hnm Hu Hl Hph. unfold driveStep. destruct (ensureWorkflowFinalizer wf w) as [[[e|] wf'] w2] eqn:Ee;
    destruct (ensure_ok (Some ptr) _ _ _ _ _ Ee Hok) as [Hn2 Hok2]; [split; try done; by left|].
  destruct (ensure_exact _ _ _ _ Ee Hl) as (Hl2 & Hf2 & Hs2 & Hnm2 & Hu2). rewrite <- Hs2 in Hph.
  rewrite <- Hnm2 in Hnm. rewrite <- Hu2 in Hu. destruct (ft_Plan (fw_Status wf')) as [p|] eqn:Epl.
  - pose proof (executeWorkflow_driven ptr now node wf' w2 Hok2 Hna Hnm Hu Hl2 Hf2) as Hx.
    destruct (executeWorkflow now node wf' w2) as [[r node'] w'].
    destruct Hx as [Hxn]; [exists p; split; [done|]; intros Hc; apply Hph; simpl; by rewrite Hc|]. split; try done. by rewrite Hxn.
  - destruct (buildAndPersist_ok ptr planID node wf' w2 Hok2 Hnm Hu Hl2 Hf2) as [Hn3 Hok3].
    { destruct (Hok2 _ _ Hl2) as [_ Hw2]. intros Hc. pose proof (wo_complete _ _ Hw2 Hc) as Hx. by rewrite Epl in Hx. }
    destruct (buildAndPersistWorkflowPlan planID node wf' w2) as [[e|] w3]; simpl in *; (split; try done; [congruence|by left]).
Qed.

Lemma drive_driven ptr now planID node (w : world W) :
  store_ok (Some ptr) (wd_wfs w) -> wn_Adopted node = Some ptr ->
  let '(r, node', w') := driveAdoptedWorkflow now planID ptr node w in driven ptr r node' w w'.
Proof.
  intros Hok Hna. unfold driveAdoptedWorkflow. destruct (GetWorkflow (ar_Name ptr) w) as [got w1] eqn:Eg.
  destruct (GetWorkflow_spec _ _ _ _ Eg) as (Hn1 & Hm1 & Hgot). rewrite <- Hm1 in Hok, Hgot.
  assert (Hgone : (forall wf, wd_wfs w1 !! ar_Name ptr = Some wf -> fw_UID wf = ar_UID ptr -> False) ->
    driven ptr free (clear_pointer "adopted workflow no longer present" node) w w1).
  { intros Hx. split; try done. right. split; [done|]. apply (store_ok_clear ptr); [done|]. intros wf Hl Hu. by destruct (Hx wf Hl Hu). }
  destruct got as [[]|wf]; [apply Hgone; intros; congruence|split; try done; by left|split; try done; by left|].
  destruct (String.eqb_spec (fw_UID wf) (ar_UID ptr)) as [Hu|Hu]; simpl; [|apply Hgone; intros; congruence].
  destruct (Hok _ _ Hgot) as [Hnm Hw]. assert (Hl : wd_wfs w1 !! fw_Name wf = Some wf) by (by rewrite Hnm).
  assert (Hback : forall r node' w', driven ptr r node' w1 w' -> driven ptr r node' w w') by (intros r node' w' []; split; try done; congruence).
  destruct (fw_Deleting wf) eqn:Ed.
  { pose proof (finalize_driven ptr wf w1 node Hok Hna Hnm Hl Ed) as Hfin. destruct (finalizeWorkflow node wf w1) as [[r node'] w']. auto. }
  set (node1 := setWorkflowInProgress ConditionTrue ReasonWorkflowRunning _ node).
  pose proof (driveStep_driven ptr now planID node1 wf w1 Hok Hna Hnm Hu Hl) as Hstep.
  destruct (driveStep now planID node1 wf w1) as [[r node'] w'].
  destruct (pl_Phase <$> ft_Plan (fw_Status wf)) as [[]|] eqn:Ep; [apply Hback; by apply Hstep| |split; try done; by left|apply Hback; by apply Hstep].
  assert (Hg : let_go (wd_wfs w1) (fw_Name wf)).
  { intros st Hst (p & Hpl & Hne). rewrite Hl in Hst. injection Hst as <-. rewrite Hpl in Ep. by injection Ep. }
  pose proof (releaseCompleted_driven ptr wf w1 node Hok Hna Hnm Hg) as Hr.
  destruct (releaseCompletedWorkflow node wf w1) as [[[e|] node2] w2]; auto.
Qed.

Lemma reconcileWorkflow_settled now planID node fl (w : world W) :
  world_ok w -> wn_Adopted node = ptr_of w -> wn_Adopted (fl_before fl) = ptr_of w -> fl_failed fl = false ->
  let '(r, node', fl', w') := reconcileWorkflow now planID node fl w in settled r node' fl' w'.
Proof.
  intros Hok Hna Hb Hf. unfold reconcileWorkflow. destruct (wn_Adopted node) as [ptr|] eqn:Ea.
  - assert (Hok1 : store_ok (Some ptr) (wd_wfs w)) by (unfold world_ok in Hok; by rewrite <- Hna in Hok).
    pose proof (drive_driven ptr now planID node w Hok1 Ea) as Hd.
    destruct (driveAdoptedWorkflow now planID ptr node w) as [[r node'] w']. destruct Hd as [Hn Hok' Hp Hfree Hh].
    assert (Hp' : ptr_of w' = Some ptr) by (unfold ptr_of in *; by rewrite Hn).
    split; try done; [by unfold world_ok; rewrite Hp'| |by rewrite Hh].
    intros _. destruct Hp as [->|[-> ?]]; done.
  - destruct (decide _); [|by eapply settled_calm; [apply calm_refl|..]].
    apply maybeAdopt_settled; try done; [|by rewrite Hb].
    unfold seedWorkflowInProgress. by destruct (node_cond _ _).
Qed.

Lemma backstop_ok fl node (w : world W) :
  world_ok w -> (fl_failed fl = false -> store_ok (wn_Adopted node) (wd_wfs w)) -> world_ok (backstop fl node w).
Proof. intros Hw Hn. unfold backstop. destruct (fl_failed fl); [done|]. by apply flush_ok; [|apply Hn]. Qed.
(** A flush, and then the deferred one. *)
Lemma flush_out_ok fl node (w : world W) :
  world_ok w -> store_ok (wn_Adopted node) (wd_wfs w) ->
  let '(_, fl', w') := flushStatus fl node w in world_ok (backstop fl' node w').
Proof.
  intros Hw Hn. destruct (flush_ok fl node w Hw Hn) as [Hw1 Hm]. destruct (flushStatus fl node w) as [[e fl'] w'].
  cbn [snd] in *. apply backstop_ok; [done|]. intros _. by rewrite Hm.
Qed.

Lemma ReconcileNode_ok resolve drift sts halt now planID (w : world W) :
  world_ok w ->
  world_ok (rt_world (ReconcileNode resolve drift sts halt now planID w)) /\
  forall m, rt_drift (ReconcileNode resolve drift sts halt now planID w) = Some m -> store_ok None m.
Proof.
  intros Hw. unfold ReconcileNode. set (node := mkWnode _ (wn_Adopted (wd_node w))). set (fl := mkFlusher _ _).
  pose proof (flush_out_ok fl node w Hw Hw) as Hfl.
  destruct (decide _); [destruct (flushStatus fl node w) as [[? ?] ?]; by split|].
  destruct (sp_Paused _); [destruct (flushStatus fl node w) as [[? ?] ?]; by split|].
  destruct halt; [split; [by apply backstop_ok|done]|].
  pose proof (reconcileWorkflow_settled now planID node fl w Hw eq_refl eq_refl eq_refl) as Hs.
  destruct (reconcileWorkflow now planID node fl w) as [[[r node1] fl1] w1]. destruct Hs as [Hw1 Hmem Hnf Hfree Hh].
  destruct (wr_err r) as [e|] eqn:Er; [by split; [apply backstop_ok|]|].
  destruct (wr_handled r); [by split; [apply backstop_ok|]|]. specialize (Hmem (Hnf eq_refl)).
  destruct (wr_suppress r) eqn:Es.
  - pose proof (flush_out_ok fl1 node1 w1 Hw1 Hmem) as Hx. destruct (flushStatus fl1 node1 w1) as [[? ?] ?]. by split.
  - rewrite (Hfree eq_refl eq_refl) in *. set (node2 := mkWnode _ None).
    pose proof (flush_out_ok fl1 node2 w1 Hw1 Hmem) as Hx. destruct (flushStatus fl1 node2 w1) as [[? ?] ?]. split; [done|].
    intros m Hm. by injection Hm as <-.
Qed.

(** *** The system: reconciles, what operators do, and the node's deletion *)
Definition fresh_workflow (wf : SeiNodeTaskWorkflow) : Prop :=
  ft_Plan (fw_Status wf) = None /\ ft_Phase (fw_Status wf) = WfNone.
Inductive wstep : world W -> world W -> Prop :=
| step_reconcile resolve drift sts halt now planID faults w :
    wstep w (rt_world (ReconcileNode resolve drift sts halt now planID (set_faults faults w)))
| step_create name wf w :
    wd_wfs w !! name = None -> fw_Name wf = name -> fresh_workflow wf -> wstep w (set_wfs (<[name := wf]> (wd_wfs w)) w)
| step_delete name wf w :
    wd_wfs w !! name = Some wf ->
    wstep w (set_wfs (if fw_Finalizer wf || fw_OtherFinalizers wf
                      then <[name := wf_bump (wf_meta (fw_ResourceVersion wf) true (fw_Finalizer wf) (fw_ForceDelete wf) wf)]> (wd_wfs w)
                      else delete name (wd_wfs w)) w)
| step_force name wf v w :
    wd_wfs w !! name = Some wf -> v <> "" ->
    wstep w (set_wfs (<[name := wf_bump (wf_meta (fw_ResourceVersion wf) (fw_Deleting wf) (fw_Finalizer wf) v wf)]> (wd_wfs w)) w)
| step_spec spec w : wstep w (set_wnode (mkWnode (with_Spec (wn_Node (wd_node w)) spec) (ptr_of w)) w).

(** With the node's deletion: from the time an operator deletes the node, the
    deletion half of its reconcile ([handleNodeDeletion]) takes the gate off
    every workflow that targets it, forced or not. The flag says that the node
    is being deleted; it never goes back. *)
Inductive sys_step : bool * world W -> bool * world W -> Prop :=
| sys_world d w w' : wstep w w' -> sys_step (d, w) (d, w')
| sys_delete_node d w : sys_step (d, w) (true, w)
| sys_release faults w :
    sys_step (true, w) (true, (releaseWorkflowFinalizersForNode (wn_Node (wd_node w)) (set_faults faults w)).2).

(** A node as it is created: it points at no workflow, and the workflows that
    are there already have not begun or have completed. *)
Definition initial (w : world W) : Prop :=
  ptr_of w = None /\
  forall name wf, wd_wfs w !! name = Some wf -> fw_Name wf = name /\
    (fresh_workflow wf \/ pl_Phase <$> ft_Plan (fw_Status wf) = Some TaskPlanComplete).

Lemma wf_ok_meta ptr wf d v rv :
  wf_ok ptr wf -> (forced_out wf -> d = true /\ v <> "") -> wf_ok ptr (wf_bump (wf_meta rv d (fw_Finalizer wf) v wf)).
Proof.
  intros [Hh Hc] Hf. split; [|exact Hc]. intros Hp Hnf. apply Hh; [exact Hp|]. intros Ho. apply Hnf. exact (Hf Ho).
Qed.
Lemma wstep_ok w w' : wstep w w' -> world_ok w -> world_ok w'.
Proof.
  intros Hs Hw. destruct Hs as [resolve drift sts halt now planID faults w|name wf w Hl Hn [Hp Hph]|name wf w Hl|name wf v w Hl Hv|spec w].
  - by apply ReconcileNode_ok.
  - apply store_ok_insert; [done|done|]. split; [by intros (p & Hx & _); rewrite Hp in Hx|by rewrite Hph].
  - destruct (Hw _ _ Hl) as [Hn Ho]. destruct (_ || _); simpl; [|by apply store_ok_delete].
    apply store_ok_insert; [done|done|]. apply wf_ok_meta; [done|]. by intros [_ ?].
  - destruct (Hw _ _ Hl) as [Hn Ho]. apply store_ok_insert; [done|done|]. apply wf_ok_meta; [done|]. by intros [? _].
  - done.
Qed.
Lemma initial_ok w : initial w -> world_ok w.
Proof.
  intros [_ Hm] name wf Hl. destruct (Hm _ _ Hl) as [Hn Hc]. split; [done|].
  split; [intros (p & Hp & Hnc) _; exfalso|]; destruct Hc as [[Hf Hph]|Hc]; try congruence.
  rewrite Hp in Hc. by injection Hc.
Qed.
Lemma sys_live d w s' : sys_step (d, w) s' -> s'.1 = false -> d = false /\ wstep w s'.2.
Proof. inversion 1; subst; simpl; intros Hf; [by subst|done..]. Qed.
Lemma reachable_ok w0 w : initial w0 -> rtc sys_step (false, w0) (false, w) -> world_ok w.
Proof.
  intros Hi%initial_ok Hr.
  apply (rtc_ind_r (fun s' => s'.1 = false -> world_ok s'.2) (false, w0)) in Hr; [by apply Hr|done| |done].
  intros [d w1] s' _ Hs IH Hf. destruct (sys_live _ _ _ Hs Hf) as [-> Hw]. by eapply wstep_ok; [|apply IH].
Qed.

(** C12: Whatever calls fail and whenever the controller restarts, as long as the
    node itself has not been deleted, a workflow whose plan is stored and not
    complete has its deletion gate and is the one its node points at, until an
    operator deletes it by force. So a node has at most one workflow in
    progress that is not being deleted by force, and a workflow that began to
    wipe it never leaves it unheld. The node's own deletion ends this: it takes
    the gate off all its workflows. *)
Theorem workflow_holds_node w0 w name wf :
  initial w0 -> rtc sys_step (false, w0) (false, w) ->
  wd_wfs w !! name = Some wf -> in_progress wf -> ~ forced_out wf ->
  fw_Finalizer wf = true /\ points (ptr_of w) wf /\
  forall name' wf', wd_wfs w !! name' = Some wf' -> in_progress wf' -> ~ forced_out wf' -> wf' = wf.
Proof.
  intros Hi Hr Hl Hp Hf. pose proof (reachable_ok w0 w Hi Hr) as Hw. destruct (Hw _ _ Hl) as [Hn Ho].
  destruct (wo_held _ _ Ho Hp Hf) as [Hfin Hpt]. split_and!; [done|done|]. intros name' wf' Hl' Hp' Hf'.
  destruct (Hw _ _ Hl') as [Hn' Ho']. destruct (wo_held _ _ Ho' Hp' Hf') as [_ (r' & Hr' & Hrn' & _)].
  destruct Hpt as (r & Hr1 & Hrn & _). rewrite Hr1 in Hr'. injection Hr' as <-.
  assert (name = name') as <- by congruence. rewrite Hl in Hl'. by injection Hl'.
Qed.

(** Property: The node's own plans never run beside a workflow: as long as the node
    has not been deleted, when a reconcile gets to
    plan and execute them, no stored workflow is in progress, other than one being
    deleted by force. *)
Theorem no_drift_during_workflow w0 w resolve drift sts halt now planID faults m :
  initial w0 -> rtc sys_step (false, w0) (false, w) ->
  rt_drift (ReconcileNode resolve drift sts halt now planID (set_faults faults w)) = Some m ->
  forall name wf, m !! name = Some wf -> in_progress wf -> forced_out wf.
Proof.
  intros Hi Hr Hd name wf Hl Hp. pose proof (reachable_ok w0 w Hi Hr) as Hw.
  destruct (decide (forced_out wf)) as [|Hf]; [done|exfalso].
  destruct (proj2 (ReconcileNode_ok resolve drift sts halt now planID (set_faults faults w) Hw) m Hd name wf Hl) as [_ Ho].
  by destruct (wo_held _ _ Ho Hp Hf) as [_ (r & ? & _)].
Qed.
End HoldProofs.

(** ** The recipe *)
Section RecipeProofs.
Context {C : SeiConfig} {H : Hashes}.

Definition recipe_types (migrates : bool) : list string :=
  [taskTypeMarkNotReady; taskTypeStopSeid; taskTypeResetData] ++ (if migrates then [TaskConfigPatch] else []) ++
  [TaskConfigureStateSync; TaskMarkReady].

Lemma BuildPlan_types planID node ss plan :
  stateSync_BuildPlan planID node ss = Ok plan ->
  types_of plan = recipe_types (bool_decide (is_Some (sw_Migration ss))).
Proof.
  unfold stateSync_BuildPlan. destruct (_ <? _)%nat; [done|]. destruct (sw_Migration ss) as [m|]; simpl.
  - destruct (cm_Kind m); [|done]. intros E. by injection E as <-.
  - intros E. by injection E as <-.
Qed.

(** On any pod, however far the recipe got: no data is wiped under a live seid, and
    the start gate is shut from the first task to the last but one. *)
Lemma recipe_view migrates k v :
  wiped_live v = false ->
  wiped_live (run_view (take k (recipe_types migrates)) v) = false /\
  (0 < k < length (recipe_types migrates) -> gate_open (run_view (take k (recipe_types migrates)) v) = false).
Proof.
  destruct v as [g u wl]. simpl. intros ->.
  destruct migrates; simpl; do 7 (destruct k as [|k]; [split; [done|]; simpl; first [lia|done]|]);
    split; try done; simpl; lia.
Qed.

(** Property: The recipe a node runs wipes it only when it may: the target is a full node
    that does not mount its config, at least two witnesses are configured, the
    tasks come in their order, with the config patch exactly when a migration is
    asked for, and wherever the plan stops no data was wiped under a live seid and
    the node stays gated until the last task releases it. *)
Theorem workflow_recipe_safe planID node wf plan :
  buildWorkflowPlan planID node wf = Ok plan ->
  exists ss witnesses trust backfill,
    fs_StateSync (fw_Spec wf) = Some ss /\
    is_Some (sp_FullNode (n_Spec node)) /\ MountsNodeConfig node = false /\
    types_of plan = recipe_types (bool_decide (is_Some (sw_Migration ss))) /\
    2 <= length witnesses /\
    (exists t, t ∈ pl_Tasks plan /\ pt_Params t = Some (ConfigureStateSyncTask false witnesses trust backfill)) /\
    forall k v, wiped_live v = false ->
      wiped_live (run_view (take k (types_of plan)) v) = false /\
      (0 < k < length (types_of plan) -> gate_open (run_view (take k (types_of plan)) v) = false).
Proof.
  unfold buildWorkflowPlan, stateSync_Validate. destruct (fs_Kind (fw_Spec wf)); [|done].
  destruct (fs_StateSync (fw_Spec wf)) as [ss|]; [|done]. destruct (sp_FullNode (n_Spec node)) as [fn|]; [|done].
  destruct (MountsNodeConfig node); [done|]. intros E. pose proof (BuildPlan_types _ _ _ _ E) as Ht.
  unfold stateSync_BuildPlan in E. set (ws := match sw_RpcServers ss with [] => _ | _ => _ end) in E.
  destruct (Nat.ltb_spec (length ws) minStateSyncWitnesses) as [|Hw]; [done|].
  destruct (migrationConfigPatch (sw_Migration ss)) as [patch|]; [|done]. injection E as <-.
  eexists ss, ws, _, _. split_and!; [done|by eexists|done|exact Ht|exact Hw| |].
  - destruct patch as [|x patch];
      [exists (buildPlannedTask planID TaskConfigureStateSync 3 (resyncTask ws node))
      |exists (buildPlannedTask planID TaskConfigureStateSync 4 (resyncTask ws node))];
      (split; [|done]); simpl; repeat (apply elem_of_cons; first [by left|right]).
  - rewrite Ht. apply recipe_view.
Qed.
End RecipeProofs.

(** ** Concrete runs *)
Module WorkflowExamples.
#[local] Existing Instances sample_config sample_hashes list_conditions.

Definition full_spec : SeiNodeSpec :=
  mkSeiNodeSpec "sei-test" "img" [] ∅ None None [] None None None (Some (mkFullNodeSpec None None None)) None None None None
    "" false 0 None.
Definition status_with (syncers : list string) : SeiNodeStatus :=
  mkSeiNodeStatus PhaseRunning "img" "" "side" NodeIsolationShared "" [] None None [] syncers 0 HoldNone.
Definition full_node := mkSeiNode "n" "ns" 1 0 ∅ full_spec (status_with ["a:1"; "b:1"]).
Definition resync := mkWorkflow "wf" "uid-1" 1 1 0 false false false ""
  (mkWorkflowSpec WorkflowKindStateSync "n" PhaseNone None (Some (mkStateSync None [])))
  (mkWorkflowStatus 0 WfNone None None []).

(** The witnesses a reconcile resolves. *)
Definition with_syncers (syncers : list string) (n : SeiNode) : SeiNode :=
  upd_status (fun s => mkSeiNodeStatus (st_Phase s) (st_CurrentImage s) (st_CurrentConfigValuesHash s)
    (st_CurrentSidecarImage s) (st_CurrentNodeIsolation s) (st_CurrentNodePool s) (st_Conditions s)
    (st_PhaseTransitionTime s) (st_Plan s) (st_ResolvedPeers s) syncers (st_DataResetGeneration s) (st_MaintenanceHold s)) n.
(** A sidecar whose tasks never end. *)
Definition slow_runtime : TaskRuntime unit := {|
  TaskExecution := unit;
  Deserialize := fun _ _ _ _ => Ok tt;
  Execute := fun ex o w => (None, ex, o, w);
  Status := fun ex o w => (ExecutionRunning, ex, o, w);
  ExecErr := fun _ => None;
|}.

Definition w_init : world unit := mkWorld (mkWnode full_node None) ∅ [] tt ∅.
Definition w_created : world unit := set_wfs (<["wf" := resync]> (wd_wfs w_init)) w_init.
Definition go (RT : TaskRuntime unit) (syncers : list string) (faults : list fault) (w : world unit) : reconcile_trace :=
  ReconcileNode (with_syncers syncers) id (fun _ => false) false 100 "plan" (set_faults faults w).

Definition both := ["a:1"; "b:1"].
(** Adopted and driven, with tasks that run on. *)
Definition w_driven := rt_world (go slow_runtime both [] (rt_world (go slow_runtime both [] w_created))).

Lemma reach_created RT : rtc (@wstep _ _ _ unit RT) w_init w_created.
Proof. apply rtc_once, (step_create "wf" resync); done. Qed.
Lemma reach_go RT syncers faults w : rtc (@wstep _ _ _ unit RT) w_init w -> rtc (@wstep _ _ _ unit RT) w_init (rt_world (go RT syncers faults w)).
Proof. intros Hr. eapply rtc_r; [exact Hr|]. apply step_reconcile. Qed.

Lemma w_init_initial : @initial unit w_init.
Proof. split; [reflexivity|]. intros name wf Hl. unfold w_init in Hl. simpl in Hl. by apply lookup_empty_Some in Hl. Qed.
Lemma reach_sys RT w : rtc (@wstep _ _ _ unit RT) w_init w -> rtc (@sys_step _ _ _ unit RT) (false, w_init) (false, w).
Proof. apply (rtc_congruence (pair false)). by constructor. Qed.

Lemma workflow_holds_node_witness :
  exists wf, wd_wfs w_driven !! "wf" = Some wf /\ in_progress wf /\ fw_Finalizer wf = true /\ points (ptr_of w_driven) wf.
Proof.
  assert (Hl : exists wf, wd_wfs w_driven !! "wf" = Some wf /\ in_progress wf /\ ~ forced_out wf).
  { eexists. split; [vm_compute; reflexivity|]. split; [eexists; split; [reflexivity|done]|]. by intros [? _]. }
  destruct Hl as (wf & Hl & Hp & Hf). exists wf. split; [exact Hl|]. split; [exact Hp|].
  destruct (@workflow_holds_node _ _ _ unit slow_runtime w_init w_driven "wf" wf) as (Hfin & Hpt & _); [exact w_init_initial| |exact Hl|exact Hp|exact Hf|].
  - apply reach_sys, reach_go, reach_go, reach_created.
  - split; [exact Hfin|exact Hpt].
Defined.

(** The recipe completes, the node is released, and its own half runs again. *)
Definition w_adopted := rt_world (go sync_runtime both [] w_created).
Lemma no_drift_during_workflow_witness :
  exists m, rt_drift (go sync_runtime both [] w_adopted) = Some m /\
    (ft_Phase ∘ fw_Status <$> m !! "wf") = Some WfComplete /\
    forall name wf, m !! name = Some wf -> in_progress wf -> forced_out wf.
Proof.
  eexists. split; [vm_compute; reflexivity|]. split; [reflexivity|].
  apply (@no_drift_during_workflow _ _ _ unit sync_runtime w_init w_adopted (with_syncers both) id (fun _ => false) false 100 "plan" []);
    [exact w_init_initial|apply reach_sys, reach_go, reach_created|vm_compute; reflexivity].
Defined.

Lemma workflow_recipe_safe_witness :
  exists plan, buildWorkflowPlan "plan" full_node resync = Ok plan /\ types_of plan = recipe_types false /\
    gate_open (run_view (take 3 (types_of plan)) (mkPodView true true false)) = false.
Proof.
  eexists. split; [vm_compute; reflexivity|]. split; [reflexivity|].
  destruct (workflow_recipe_safe "plan" full_node resync _ eq_refl) as (ss & ws & tr & bf & _ & _ & _ & _ & _ & _ & Hv).
  apply (Hv 3 (mkPodView true true false)); [reflexivity|vm_compute; lia].
Defined.

(** The plan write fails, the witnesses are gone when it is rebuilt, and then back. *)
Definition w_half := rt_world (go slow_runtime both [Done; Done; Done; Done; Refused false] w_created).
Definition w_failed := rt_world (go slow_runtime [] [] w_half).
Definition w_resumed := rt_world (go slow_runtime both [] w_failed).
Definition wf_phase (w : world unit) := ft_Phase ∘ fw_Status <$> wd_wfs w !! "wf".
Definition wf_failed (w : world unit) :=
  wf ← wd_wfs w !! "wf"; FindStatusCondition (ft_Conditions (fw_Status wf)) ConditionSeiNodeTaskWorkflowFailed.
End WorkflowExamples.

(** Property: Failed is not the end of a workflow: when its plan write is lost and the rebuild
    then fails, the workflow is marked Failed while its node still drives it, and as
    soon as a rebuild succeeds the same workflow runs again, and wipes the node, with
    its Failed condition still true. *)
Theorem failed_workflow_resumes :
  let wf_reach := rtc (@wstep sample_config sample_hashes list_conditions unit WorkflowExamples.slow_runtime) in
  wf_reach WorkflowExamples.w_init WorkflowExamples.w_failed /\
  WorkflowExamples.wf_phase WorkflowExamples.w_failed = Some WfFailed /\
  wf_reach WorkflowExamples.w_failed WorkflowExamples.w_resumed /\
  WorkflowExamples.wf_phase WorkflowExamples.w_resumed = Some WfRunning /\
  c_Status <$> WorkflowExamples.wf_failed WorkflowExamples.w_resumed = Some ConditionTrue.
Proof.
  split_and!; [|vm_compute; reflexivity| |vm_compute; reflexivity|vm_compute; reflexivity].
  - apply WorkflowExamples.reach_go, WorkflowExamples.reach_go, WorkflowExamples.reach_created.
  - apply rtc_once, step_reconcile.
Qed.
