(* ===== verification/HashLog.v ===== *)
(** * The hash-log comparison (src/internal/hashlogcompare/compare.go)

    A pair state buffers the rows of a migrating node and of its reserve, and
    compares them height by height. *)

From stdpp Require Import base list strings gmap sorting pretty.
From Stdlib Require Import ZArith Lia Sorted.
From S2P Require Import Prelude Config.

Abbreviation row := (gmap string string).

(** ** Comparable rows (compare.go) *)
Definition maxBufferedRows : Z := 10000.
Definition evictBatchRows : Z := 1000.
Definition ColumnBlockHash := "blockHash".
Definition ColumnChangeset := "changeset".
Definition ColumnResultHash := "resultHash".
Definition memIAVLModulePrefix := "memIAVL/mod/".
Definition memIAVLEVMColumn := memIAVLModulePrefix +:+ "evm".
Definition baseComparable : list string := [ColumnBlockHash; ColumnChangeset; ColumnResultHash].
Definition errMissingBase := "row is missing blockHash, changeset or resultHash".
Definition errNoModuleHashes := "row has no comparable non-EVM module hashes".

Definition is_module (name : string) : bool := has_prefix memIAVLModulePrefix name && (name <>s memIAVLEVMColumn).
Definition ComparableHashes (hashes : row) : result row :=
  if forallb (fun n => bool_decide (is_Some (hashes !! n))) baseComparable then
    let out := filter (fun kv => mem kv.1 baseComparable || is_module kv.1 = true) hashes in
    if Nat.eqb (size out) (length baseComparable) then Err errNoModuleHashes else Ok out
  else Err errMissingBase.

(** The columns whose values differ, in order. *)
Definition differingColumns (a b : row) : list string :=
  merge_sort String.le (elements (dom (filter (fun kv => b !! kv.1 <> Some kv.2) a) ∪
                                  dom (filter (fun kv => a !! kv.1 = None) b))).

(** ** The pair state *)
Abbreviation buffer := (gmap Z row).
Record pairState := mkPair {
  ps_migrating : buffer;
  ps_reserve : buffer;
  ps_first : Z;
  ps_last : Z;
}.
Definition newPairState : pairState := mkPair ∅ ∅ 0 0.

Inductive role := Migrating | Reserve.
#[global] Instance role_eq_dec : EqDecision role.
Proof. solve_decision. Defined.
Definition buf (r : role) (p : pairState) : buffer :=
  match r with Migrating => ps_migrating p | Reserve => ps_reserve p end.
Definition set_buf (r : role) (b : buffer) (p : pairState) : pairState :=
  match r with
  | Migrating => mkPair b (ps_reserve p) (ps_first p) (ps_last p)
  | Reserve => mkPair (ps_migrating p) b (ps_first p) (ps_last p)
  end.

Definition sorted_heights (s : gset Z) : list Z := merge_sort Z.le (elements s).

Definition evictOldest (b : buffer) (n : nat) : buffer :=
  foldr delete b (take n (sorted_heights (dom b))).

Definition add (r : role) (height : Z) (hashes : row) (p : pairState) : pairState :=
  if (0 <? ps_last p)%Z && (height <=? ps_last p)%Z then p
  else
    let b := <[height := hashes]> (buf r p) in
    let len := Z.of_nat (size b) in
    set_buf r (if (maxBufferedRows <? len)%Z
               then evictOldest b (Z.to_nat (len - maxBufferedRows + evictBatchRows)) else b) p.

Record Mismatch := mkMismatch { mm_Height : Z; mm_Columns : list string }.
Record CompareResult := mkCompareResult {
  cr_Compared : nat;
  cr_Mismatches : list Mismatch;
  cr_MigratingGaps : nat;
  cr_ReserveGaps : nat;
}.

(** One height of the loop of [compare]. *)
Definition compareHeight (h : Z) (s : pairState * list Mismatch) : pairState * list Mismatch :=
  let '(p, mms) := s in
  let cols := differingColumns (default ∅ (ps_migrating p !! h)) (default ∅ (ps_reserve p !! h)) in
  (mkPair (delete h (ps_migrating p)) (delete h (ps_reserve p))
     (if (ps_first p =? 0)%Z then h else ps_first p) h,
   match cols with [] => mms | _ => mms ++ [mkMismatch h cols] end).

(** [prune]: what stays, and how many of the dropped rows are gaps. *)
Definition prune (p : pairState) (b : buffer) : buffer * nat :=
  (filter (fun kv => (ps_last p < kv.1)%Z) b,
   size (filter (fun kv => (kv.1 <= ps_last p /\ ps_first p < kv.1)%Z) b)).

Definition common (p : pairState) : list Z := sorted_heights (dom (ps_migrating p) ∩ dom (ps_reserve p)).

Definition compare (p : pairState) : CompareResult * pairState :=
  let hs := common p in
  let '(p1, mms) := fold_left (fun s h => compareHeight h s) hs (p, []) in
  let '(m, reserveGaps) := prune p1 (ps_migrating p1) in
  let '(r, migratingGaps) := prune p1 (ps_reserve p1) in
  (mkCompareResult (length hs) mms migratingGaps reserveGaps, mkPair m r (ps_first p1) (ps_last p1)).

(** ** What the comparison guarantees *)
Lemma sorted_heights_elem s h : h ∈ sorted_heights s <-> h ∈ s.
Proof. unfold sorted_heights. rewrite merge_sort_Permutation. apply elem_of_elements. Qed.
Lemma sorted_heights_sorted s : StronglySorted Z.lt (sorted_heights s).
Proof.
  assert (Hs : StronglySorted Z.le (sorted_heights s)) by (apply StronglySorted_merge_sort; apply _).
  assert (Hn : NoDup (sorted_heights s))
    by (unfold sorted_heights; rewrite merge_sort_Permutation; apply NoDup_elements).
  induction Hs as [|x l Hl IH Hx]; [constructor|]. apply NoDup_cons in Hn as [Hx' Hn].
  constructor; [by apply IH|]. apply List.Forall_forall. intros y Hy.
  assert (x <= y)%Z by (by eapply List.Forall_forall in Hx). assert (x <> y) by (intros ->; by apply Hx', list_elem_of_In).
  lia.
Qed.

Lemma differingColumns_elem a b c : c ∈ differingColumns a b <-> a !! c <> b !! c.
Proof.
  unfold differingColumns. rewrite merge_sort_Permutation, elem_of_elements, elem_of_union, !elem_of_dom.
  split.
  - intros [[v Hv]|[v Hv]]; apply map_lookup_filter_Some in Hv as [Hv Hn]; simpl in Hn; congruence.
  - intros Hne. destruct (a !! c) as [v|] eqn:Ha.
    + left. exists v. apply map_lookup_filter_Some. split; [done|]. simpl. congruence.
    + right. destruct (b !! c) as [w|] eqn:Hb; [|done]. exists w. by apply map_lookup_filter_Some.
Qed.

(** No differing column is equality of the rows. *)
Lemma differingColumns_nil a b : differingColumns a b = [] <-> a = b.
Proof.
  split.
  - intros Hn. apply map_eq. intros c. destruct (decide (a !! c = b !! c)) as [|Hne]; [done|].
    apply differingColumns_elem in Hne. rewrite Hn in Hne. by apply elem_of_nil in Hne.
  - intros ->. destruct (differingColumns b b) as [|c l] eqn:E; [done|].
    assert (Hc : c ∈ differingColumns b b) by (rewrite E; by left). by apply differingColumns_elem in Hc.
Qed.

(** The verdict on one height of two buffers. *)
Definition verdict (m r : buffer) (h : Z) : list Mismatch :=
  match differingColumns (default ∅ (m !! h)) (default ∅ (r !! h)) with
  | [] => []
  | cols => [mkMismatch h cols]
  end.

Lemma verdict_delete m r h h' : h <> h' -> verdict (delete h m) (delete h r) h' = verdict m r h'.
Proof. intros Hne. unfold verdict. by rewrite !lookup_delete_ne. Qed.

(** The first compared height: zero means none yet, and stays so past a height of zero. *)
Definition first_of (f : Z) (hs : list Z) : Z :=
  fold_left (fun f h => if (f =? 0)%Z then h else f) hs f.

Lemma last_cons {A} (x : A) l d : List.last (x :: l) d = List.last l x.
Proof.
  revert x d. induction l as [|y l IH]; intros x d; [done|].
  change (List.last (y :: l) d = List.last (y :: l) x). by rewrite !IH.
Qed.

(** The loop of [compare] in closed form. *)
Lemma compare_loop hs m r f l mms :
  NoDup hs ->
  fold_left (fun s h => compareHeight h s) hs (mkPair m r f l, mms) =
  (mkPair (foldr delete m (rev hs)) (foldr delete r (rev hs)) (first_of f hs) (List.last hs l),
   mms ++ flat_map (verdict m r) hs).
Proof.
  revert m r f l mms. induction hs as [|h hs IH]; intros m r f l mms Hn; [simpl; by rewrite app_nil_r|].
  apply NoDup_cons in Hn as [Hh Hn]. cbn [fold_left compareHeight ps_migrating ps_reserve ps_first].
  rewrite IH by done. simpl. rewrite !foldr_app. f_equal.
  - f_equal. symmetry. apply (last_cons h hs l).
  - assert (Hv : flat_map (verdict (delete h m) (delete h r)) hs = flat_map (verdict m r) hs).
    { clear -Hh. induction hs as [|h' hs IH]; [done|]. simpl. rewrite verdict_delete, IH; [done|..];
        [intros Hin; apply Hh; by right|intros ->; apply Hh; by left]. }
    rewrite Hv. unfold verdict at 2. destruct (differingColumns _ _); [done|]. by rewrite <- app_assoc.
Qed.

Lemma common_elem p h : h ∈ common p <-> h ∈ dom (ps_migrating p) /\ h ∈ dom (ps_reserve p).
Proof. unfold common. by rewrite sorted_heights_elem, elem_of_intersection. Qed.
Lemma common_sorted p : StronglySorted Z.lt (common p).
Proof. apply sorted_heights_sorted. Qed.
Lemma sorted_NoDup l : StronglySorted Z.lt l -> NoDup l.
Proof.
  induction 1 as [|x l Hl IH Hx]; [constructor|]. constructor; [|done]. intros Hin%list_elem_of_In.
  eapply List.Forall_forall in Hx; [|exact Hin]. lia.
Qed.

Lemma foldr_delete_lookup (m : buffer) l h :
  foldr delete m l !! h = if decide (h ∈ l) then None else m !! h.
Proof.
  induction l as [|x l IH]; simpl; [done|].
  destruct (decide (h = x)) as [->|Hne].
  - rewrite lookup_delete_eq. by rewrite decide_True by left.
  - rewrite lookup_delete_ne, IH by done. destruct (decide (h ∈ l)).
    + by rewrite decide_True by (by right).
    + rewrite decide_False; [done|]. by rewrite not_elem_of_cons.
Qed.
Lemma foldr_delete_subseteq (m : buffer) l : foldr delete m l ⊆ m.
Proof. apply map_subseteq_spec. intros h x. rewrite foldr_delete_lookup. by case_decide. Qed.
Lemma foldr_delete_size (m : buffer) l : NoDup l -> (forall h, h ∈ l -> h ∈ dom m) ->
  size (foldr delete m l) + length l = size m.
Proof.
  revert m. induction l as [|x l IH]; intros m Hn Hd; simpl; [lia|]. apply NoDup_cons in Hn as [Hx Hn].
  assert (Hs : is_Some (foldr delete m l !! x)).
  { rewrite foldr_delete_lookup, decide_False by done. apply elem_of_dom, Hd. by left. }
  rewrite map_size_delete_Some by done.
  assert (size (foldr delete m l) <> 0) by (intros E%map_size_empty_inv; rewrite E in Hs; by destruct Hs).
  rewrite <- (IH m); [lia|done|]. intros h Hh. apply Hd. by right.
Qed.

Lemma evictOldest_size b n : size (evictOldest b n) = size b - n.
Proof.
  unfold evictOldest. set (hs := sorted_heights (dom b)).
  assert (Hn : NoDup hs) by apply sorted_NoDup, sorted_heights_sorted.
  assert (Hl : length hs = size b).
  { unfold hs, sorted_heights. rewrite merge_sort_Permutation. by rewrite <- size_dom. }
  pose proof (foldr_delete_size b (take n hs)) as Hs. rewrite length_take, Hl in Hs.
  cut (size (foldr delete b (take n hs)) + n `min` size b = size b); [lia|]. apply Hs.
  - rewrite <- (take_drop n hs) in Hn. by apply NoDup_app in Hn as [Hn _].
  - intros h Hh. apply sorted_heights_elem. by eapply elem_of_take in Hh as (i & Hi%list_elem_of_lookup_2 & _).
Qed.
Lemma evictOldest_subseteq b n : evictOldest b n ⊆ b.
Proof. apply foldr_delete_subseteq. Qed.

(** [compare] in closed form: the common heights go, then whatever is not above the last. *)
Definition last_of (p : pairState) : Z := List.last (common p) (ps_last p).
Definition pruned (p : pairState) (b : buffer) : buffer :=
  filter (fun kv => (last_of p < kv.1)%Z) (foldr delete b (rev (common p))).
Definition gaps_of (p : pairState) (b : buffer) : nat :=
  size (filter (fun kv => (kv.1 <= last_of p /\ first_of (ps_first p) (common p) < kv.1)%Z)
          (foldr delete b (rev (common p)))).
Lemma compare_eq p :
  compare p =
  (mkCompareResult (length (common p)) (flat_map (verdict (ps_migrating p) (ps_reserve p)) (common p))
     (gaps_of p (ps_reserve p)) (gaps_of p (ps_migrating p)),
   mkPair (pruned p (ps_migrating p)) (pruned p (ps_reserve p)) (first_of (ps_first p) (common p)) (last_of p)).
Proof.
  unfold compare. destruct p as [m r f l].
  by rewrite compare_loop by apply sorted_NoDup, common_sorted.
Qed.

(** The rows delivered to one side, oldest first, and the latest one at a height. *)
Inductive pair_op := OpAdd (r : role) (height : Z) (hashes : row) | OpCompare.
Definition step_op (o : pair_op) (p : pairState) : list CompareResult * pairState :=
  match o with
  | OpAdd r h x => ([], add r h x p)
  | OpCompare => let '(res, p') := compare p in ([res], p')
  end.
Fixpoint run_ops (os : list pair_op) (p : pairState) : list CompareResult * pairState :=
  match os with
  | [] => ([], p)
  | o :: os' => let '(r1, p1) := step_op o p in
                let '(r2, p2) := run_ops os' p1 in (r1 ++ r2, p2)
  end.
Definition positive_op (o : pair_op) : Prop :=
  match o with OpAdd _ h _ => (0 < h)%Z | OpCompare => True end.

(** Every buffered height is a block height above the last compared one, and
    every buffered row was delivered. *)
Record pair_wf (D : role -> Z -> row -> Prop) (p : pairState) : Prop := {
  pw_new : forall r h x, buf r p !! h = Some x -> (ps_last p < h)%Z /\ D r h x;
  pw_last : (0 <= ps_last p)%Z;
  pw_size : forall r, (Z.of_nat (size (buf r p)) <= maxBufferedRows)%Z;
}.

Lemma pair_wf_new D : pair_wf D newPairState.
Proof. split; [|done|]; intros []; simpl; intros *; try (by rewrite lookup_empty); by rewrite map_size_empty. Qed.

Lemma buf_set_buf r r' b p : buf r (set_buf r' b p) = if decide (r = r') then b else buf r p.
Proof. by destruct r, r'. Qed.
Lemma last_set_buf r b p : ps_last (set_buf r b p) = ps_last p.
Proof. by destruct r. Qed.

Definition added (h : Z) (x : row) (b : buffer) : buffer :=
  let b' := <[h := x]> b in
  if (maxBufferedRows <? Z.of_nat (size b'))%Z
  then evictOldest b' (Z.to_nat (Z.of_nat (size b') - maxBufferedRows + evictBatchRows)) else b'.
Lemma added_subseteq h x b : added h x b ⊆ <[h := x]> b.
Proof. unfold added. case_match; [apply evictOldest_subseteq|done]. Qed.
Lemma added_size h x b : (Z.of_nat (size (added h x b)) <= maxBufferedRows)%Z.
Proof.
  unfold added. destruct (Z.ltb_spec maxBufferedRows (Z.of_nat (size (<[h := x]> b)))); [|done].
  rewrite evictOldest_size. unfold maxBufferedRows, evictBatchRows in *. lia.
Qed.

Lemma pair_wf_add (D : role -> Z -> row -> Prop) r h x p :
  (0 < h)%Z -> D r h x -> pair_wf D p -> pair_wf D (add r h x p).
Proof.
  intros Hh HD [Hn Hl Hs]. unfold add. destruct (_ && _) eqn:E; [by split|]. fold (added h x (buf r p)).
  split; [|by rewrite last_set_buf|]; intros r'; rewrite ?last_set_buf, buf_set_buf; case_decide as Hr.
  - subst r'. intros h' x' Hx. eapply lookup_weaken in Hx; [|apply added_subseteq].
    apply lookup_insert_Some in Hx as [[-> ->]|[_ Hx]]; [|by apply Hn].
    split; [|done]. apply andb_false_iff in E as [?%Z.ltb_ge|?%Z.leb_gt]; lia.
  - apply Hn.
  - apply added_size.
  - apply Hs.
Qed.

Lemma sorted_last l d : StronglySorted Z.lt l -> Forall (fun h => d < h)%Z l ->
  (d <= List.last l d)%Z /\ Forall (fun h => h <= List.last l d)%Z l.
Proof.
  revert d. induction l as [|x l IH]; intros d Hs Hd; [simpl; split; [lia|constructor]|].
  apply StronglySorted_inv in Hs as [Hs Hx]. apply Forall_cons in Hd as [Hd _].
  destruct l as [|y l]; [simpl; split; [lia|]; constructor; [lia|constructor]|].
  rewrite last_cons. destruct (IH x Hs) as [Hle Hall]; [by apply Forall_forall; intros; eapply List.Forall_forall in Hx; [|by apply list_elem_of_In]|].
  split; [lia|]. by constructor.
Qed.

Lemma common_new D p : pair_wf D p -> Forall (fun h => ps_last p < h)%Z (common p).
Proof.
  intros Hw. apply Forall_forall. intros h [[x Hx]%elem_of_dom _]%common_elem. by eapply (pw_new D p Hw Migrating).
Qed.

Lemma pair_wf_compare D p : pair_wf D p -> pair_wf D (compare p).2.
Proof.
  intros Hw. rewrite compare_eq. simpl.
  destruct (sorted_last (common p) (ps_last p) (common_sorted p) (common_new D p Hw)) as [Hle _].
  assert (Hsub : forall b, pruned p b ⊆ b).
  { intros b. unfold pruned. etrans; [apply map_filter_subseteq|apply foldr_delete_subseteq]. }
  split.
  - intros r h x Hx.
    assert (Hp : pruned p (buf r p) !! h = Some x) by (by destruct r). split.
    + by apply map_lookup_filter_Some in Hp as [_ Hp].
    + eapply lookup_weaken in Hp; [|apply Hsub]. by eapply (pw_new D p Hw r).
  - pose proof (pw_last D p Hw). simpl. unfold last_of. lia.
  - intros r. pose proof (pw_size D p Hw r) as Hs.
    assert (size (buf r (mkPair (pruned p (ps_migrating p)) (pruned p (ps_reserve p)) (first_of (ps_first p) (common p)) (last_of p)))
            <= size (buf r p)) by (destruct r; simpl; apply map_subseteq_size, Hsub).
    lia.
Qed.

(** The heights the comparisons of a run look at, in the order they do. *)
Fixpoint compared (os : list pair_op) (p : pairState) : list Z :=
  match os with
  | [] => []
  | o :: os' => (match o with OpCompare => common p | OpAdd _ _ _ => [] end) ++ compared os' (step_op o p).2
  end.
Definition delivered (os : list pair_op) (r : role) (h : Z) (x : row) : Prop := OpAdd r h x ∈ os.

Lemma run_ops_cons o os p :
  run_ops (o :: os) p = ((step_op o p).1 ++ (run_ops os (step_op o p).2).1, (run_ops os (step_op o p).2).2).
Proof. cbn [run_ops]. destruct (step_op o p) as [r1 p1]. simpl. by destruct (run_ops os p1). Qed.

Lemma pair_wf_step D o p :
  positive_op o -> (forall r h x, o = OpAdd r h x -> D r h x) -> pair_wf D p -> pair_wf D (step_op o p).2.
Proof.
  destruct o as [r h x|]; intros Hp HD Hw; simpl; [by apply pair_wf_add; [..|apply HD|]|].
  destruct (compare p) as [res p'] eqn:E. simpl. pose proof (pair_wf_compare D p Hw) as Hc. by rewrite E in Hc.
Qed.
Lemma pair_wf_run D os p :
  Forall positive_op os -> (forall r h x, delivered os r h x -> D r h x) -> pair_wf D p -> pair_wf D (run_ops os p).2.
Proof.
  revert p. induction os as [|o os IH]; intros p Hp HD Hw; [done|]. apply Forall_cons in Hp as [Ho Hp].
  rewrite run_ops_cons. simpl. apply IH; [done| |].
  - intros r h x Hd. apply HD. by right.
  - apply pair_wf_step; [done| |done]. intros r h x ->. apply HD. by left.
Qed.

Lemma verdict_spec m r h mm :
  h ∈ dom m -> h ∈ dom r ->
  mm ∈ verdict m r h <-> exists a b, m !! h = Some a /\ r !! h = Some b /\ a <> b /\ mm = mkMismatch h (differingColumns a b).
Proof.
  intros [a Ha]%elem_of_dom [b Hb]%elem_of_dom. unfold verdict. rewrite Ha, Hb. simpl.
  destruct (differingColumns a b) as [|c cs] eqn:E.
  - apply differingColumns_nil in E. rewrite elem_of_nil. split; [done|]. intros (a' & b' & ? & ? & ? & _). simplify_eq.
  - rewrite list_elem_of_singleton. split.
    + intros ->. exists a, b. rewrite E. split_and!; try done. intros H. apply differingColumns_nil in H. congruence.
    + intros (a' & b' & ? & ? & ? & ->). simplify_eq. by rewrite E.
Qed.
Lemma mismatches_spec p mm :
  mm ∈ cr_Mismatches (compare p).1 <->
  exists h a b, ps_migrating p !! h = Some a /\ ps_reserve p !! h = Some b /\ a <> b /\
                mm = mkMismatch h (differingColumns a b).
Proof.
  rewrite compare_eq. simpl. rewrite list_elem_of_In, in_flat_map. split.
  - intros (h & [Hm Hr]%list_elem_of_In%common_elem & Hv). apply list_elem_of_In, verdict_spec in Hv; eauto.
  - intros (h & a & b & Ha & Hb & Hne & ->).
    assert (Hm : h ∈ dom (ps_migrating p)) by (apply elem_of_dom; eauto).
    assert (Hr : h ∈ dom (ps_reserve p)) by (apply elem_of_dom; eauto).
    exists h. split; [by apply list_elem_of_In, common_elem|]. apply list_elem_of_In, verdict_spec; eauto 10.
Qed.

(** C37: A comparison reports exactly the buffered heights where the two nodes
    wrote different rows, each with exactly the columns whose values differ (a
    column only one of them has included), lowest height first, and keeps no
    height it has compared. *)
Theorem compare_reports_exactly p :
  let '(res, p') := compare p in
  (forall h cols, mkMismatch h cols ∈ cr_Mismatches res <->
     exists a b, ps_migrating p !! h = Some a /\ ps_reserve p !! h = Some b /\ a <> b /\ cols = differingColumns a b) /\
  (forall a b c, c ∈ differingColumns a b <-> a !! c <> b !! c) /\
  StronglySorted Z.lt (map mm_Height (cr_Mismatches res)) /\
  cr_Compared res = size (dom (ps_migrating p) ∩ dom (ps_reserve p)) /\
  dom (ps_migrating p') ## dom (ps_reserve p').
Proof.
  pose proof (mismatches_spec p) as Hm. rewrite compare_eq in Hm |- *. cbn [fst] in Hm. split_and!.
  - intros h cols. rewrite Hm. naive_solver.
  - apply differingColumns_elem.
  - simpl. pose proof (common_sorted p) as Hs. clear Hm. induction Hs as [|h hs Hs IH Hh]; simpl; [constructor|].
    rewrite map_app. unfold verdict at 1. case_match; simpl; [done|]. constructor; [done|].
    apply List.Forall_forall. intros y (mm & <- & Hin)%in_map_iff. apply in_flat_map in Hin as (h' & Hh' & Hv).
    eapply List.Forall_forall in Hh; [|exact Hh']. unfold verdict in Hv. case_match; [done|]. by destruct Hv as [<-|[]].
  - simpl. unfold common, sorted_heights. by rewrite merge_sort_Permutation.
  - simpl. intros h [x Hx]%elem_of_dom [y Hy]%elem_of_dom. unfold pruned in *.
    apply map_lookup_filter_Some in Hx as [Hx _]. apply map_lookup_filter_Some in Hy as [Hy _].
    rewrite foldr_delete_lookup in Hx, Hy. case_decide as Hd; [done|]. apply Hd.
    apply list_elem_of_In. rewrite <- in_rev. apply list_elem_of_In, common_elem. split; apply elem_of_dom; eauto.
Qed.

Lemma compared_lower D os p : Forall positive_op os -> (forall r h x, delivered os r h x -> D r h x) -> pair_wf D p ->
  StronglySorted Z.lt (compared os p) /\ Forall (fun h => ps_last p < h)%Z (compared os p).
Proof.
  revert p. induction os as [|o os IH]; intros p Hp HD Hw; [simpl; split; constructor|].
  apply Forall_cons in Hp as [Ho Hp].
  assert (Hw1 : pair_wf D (step_op o p).2).
  { apply pair_wf_step; [done| |done]. intros r h x ->. apply HD. by left. }
  destruct (IH (step_op o p).2 Hp) as [Hs Hf]; [intros r h x Hd; apply HD; by right|done|]. cbn [compared].
  destruct o as [r h x|].
  - assert (Hl : ps_last (step_op (OpAdd r h x) p).2 = ps_last p).
    { simpl. unfold add. case_match; [done|]. by rewrite last_set_buf. }
    by rewrite Hl in Hf.
  - assert (Hl : ps_last (step_op OpCompare p).2 = last_of p).
    { simpl. pose proof (compare_eq p) as E. by rewrite E. }
    rewrite Hl in Hf. pose proof (common_new D p Hw) as Hn.
    destruct (sorted_last (common p) (ps_last p) (common_sorted p) Hn) as [Hle Hall]. fold (last_of p) in Hle, Hall. split.
    + pose proof (common_sorted p) as Hc. clear -Hc Hs Hf Hall. induction Hc as [|x l Hc IH Hx]; [done|].
      apply Forall_cons in Hall as [Hx' Hall]. simpl. constructor; [by apply IH|].
      apply List.Forall_app. split; [done|]. apply List.Forall_forall. intros y Hy%list_elem_of_In.
      eapply Forall_forall in Hf; [|done]. lia.
    + apply Forall_app. split; [done|]. eapply Forall_impl; [exact Hf|]. simpl. lia.
Qed.

(** Property: Whatever rows arrive, in whatever order, and whenever the comparisons run,
    no height is compared twice or after a higher one, and neither side ever
    buffers more than the cap. *)
Theorem heights_compared_once os :
  Forall positive_op os ->
  StronglySorted Z.lt (compared os newPairState) /\
  list_sum (map cr_Compared (run_ops os newPairState).1) = length (compared os newPairState) /\
  forall r, (Z.of_nat (size (buf r (run_ops os newPairState).2)) <= maxBufferedRows)%Z.
Proof.
  intros Hp. split_and!.
  - by eapply (compared_lower (fun _ _ _ => True)); [| |apply pair_wf_new].
  - clear Hp. generalize newPairState. induction os as [|o os IH]; intros p; [done|].
    rewrite run_ops_cons. cbn [compared fst]. rewrite map_app, list_sum_app, length_app, IH. f_equal.
    destruct o; [done|]. cbn [step_op]. rewrite compare_eq. simpl. lia.
  - eapply pw_size, pair_wf_run; [done| |apply (pair_wf_new (fun _ _ _ => True))]. done.
Qed.

(** Every mismatch of a run is between two rows its buffers were given. *)
Lemma run_mismatch_delivered D os p mm :
  Forall positive_op os -> (forall r h x, delivered os r h x -> D r h x) -> pair_wf D p ->
  mm ∈ (run_ops os p).1 ≫= cr_Mismatches ->
  exists a b, D Migrating (mm_Height mm) a /\ D Reserve (mm_Height mm) b /\ a <> b /\
    mm_Columns mm = differingColumns a b.
Proof.
  revert p. induction os as [|o os IH]; intros p Hp HD Hw Hin; [by apply elem_of_nil in Hin|].
  apply Forall_cons in Hp as [Ho Hp]. rewrite run_ops_cons in Hin. simpl in Hin. rewrite bind_app in Hin.
  apply elem_of_app in Hin as [Hin|Hin].
  - destruct o as [r h x|]; simpl in Hin; [by apply elem_of_nil in Hin|].
    destruct (compare p) as [res p'] eqn:E. simpl in Hin. rewrite app_nil_r in Hin.
    pose proof (mismatches_spec p mm) as Hs. rewrite E in Hs. apply Hs in Hin as (h & a & b & Ha & Hb & Hne & ->).
    exists a, b. simpl. split_and!; [..|done|done].
    + by apply (pw_new _ _ Hw Migrating).
    + by apply (pw_new _ _ Hw Reserve).
  - eapply (IH (step_op o p).2); [done| | |done].
    + intros r h x Hd. apply HD. by right.
    + apply pair_wf_step; [done| |done]. intros r h x ->. apply HD. by left.
Qed.

(** The reserve is behind by one height, then repeats an old one. *)
Definition example_ops : list pair_op :=
  [OpAdd Migrating 5 {["a" := "x"]}; OpAdd Migrating 6 {["a" := "y"]}; OpAdd Reserve 5 {["a" := "x"]}; OpCompare;
   OpAdd Reserve 5 {["a" := "z"]}; OpAdd Reserve 6 {["a" := "w"]}; OpCompare].
Lemma heights_compared_once_witness :
  compared example_ops newPairState = [5%Z; 6%Z] /\
  StronglySorted Z.lt (compared example_ops newPairState) /\
  list_sum (map cr_Compared (run_ops example_ops newPairState).1) = length (compared example_ops newPairState) /\
  forall r, (Z.of_nat (size (buf r (run_ops example_ops newPairState).2)) <= maxBufferedRows)%Z.
Proof.
  split; [vm_compute; reflexivity|]. apply (heights_compared_once example_ops).
  repeat constructor.
Defined.
