(* ===== verification/HashReader.v ===== *)
(** * Tailing a node's hash log (src/internal/hashlogcompare/reader.go, run.go, config.go)

    A reader follows the files of one node's hash log by a byte cursor, and the
    comparator polls a pair of readers and feeds the pair state of [HashLog]. The
    sidecar that serves the files is the interface [Source]; every call advances a
    clock, so the files may change between two calls. *)

From stdpp Require Import base list strings gmap pretty.
From Stdlib Require Import ZArith Lia Sorted.
From S2P Require Import Prelude Config HashLog.

Abbreviation bytes := (list Ascii.ascii).

(** ** Bytes and lines *)
Definition NL : Ascii.ascii := Ascii.ascii_of_nat 10.
Definition CR : Ascii.ascii := Ascii.ascii_of_nat 13.
Definition comma : Ascii.ascii := Ascii.ascii_of_nat 44.
Definition dquote_c : Ascii.ascii := Ascii.ascii_of_nat 34.

(** [bytes.IndexByte] *)
Fixpoint IndexByte (c : Ascii.ascii) (l : bytes) : option nat :=
  match l with
  | [] => None
  | d :: l' => if Ascii.eqb d c then Some 0 else S <$> IndexByte c l'
  end.
(** [bytes.LastIndexByte(l, '\n') + 1]: the length of the complete lines. *)
Fixpoint complete_len (l : bytes) : nat :=
  match l with
  | [] => 0
  | c :: l' => match complete_len l' with
               | O => if Ascii.eqb c NL then 1 else 0
               | n => S n
               end
  end.

(** [data[:bytes.LastIndexByte(data, '\n')+1]] *)
Definition complete (l : bytes) : bytes := take (complete_len l) l.

(** [bytes.Lines]: each line with its newline, the last one perhaps without. *)
Fixpoint lines_from (acc : bytes) (l : bytes) : list bytes :=
  match l with
  | [] => match acc with [] => [] | _ => [acc] end
  | c :: l' => if Ascii.eqb c NL then (acc ++ [c]) :: lines_from [] l' else lines_from (acc ++ [c]) l'
  end.
Definition Lines (l : bytes) : list bytes := lines_from [] l.

(** ** [csv.Reader.Read] on one line, with the default settings *)

(** A newline, with the carriage return before it, ends the record; so does the
    end of the input, which drops one carriage return. *)
Definition chomp (l : bytes) : bytes :=
  let drop_cr r := match r with c :: r' => if Ascii.eqb c CR then r' else r | [] => [] end in
  match rev l with
  | c :: r => if Ascii.eqb c NL then rev (drop_cr r) else rev (drop_cr (c :: r))
  | [] => []
  end.

(** One field, quoted or not: its text, and the rest after its comma. *)
Fixpoint quoted_field (acc : bytes) (l : bytes) : option (bytes * option bytes) :=
  match l with
  | [] => None
  | c :: l' =>
      if Ascii.eqb c dquote_c then
        match l' with
        | [] => Some (acc, None)
        | d :: l'' => if Ascii.eqb d dquote_c then quoted_field (acc ++ [d]) l''
                      else if Ascii.eqb d comma then Some (acc, Some l'') else None
        end
      else quoted_field (acc ++ [c]) l'
  end.
Definition plain_field (l : bytes) : option (bytes * option bytes) :=
  let '(field, rest) :=
    match IndexByte comma l with
    | Some i => (take i l, Some (drop (S i) l))
    | None => (l, None)
    end in
  if existsb (Ascii.eqb dquote_c) field then None else Some (field, rest).
Definition csv_field (l : bytes) : option (bytes * option bytes) :=
  match l with
  | c :: l' => if Ascii.eqb c dquote_c then quoted_field [] l' else plain_field l
  | [] => plain_field l
  end.
(** A field and its comma take at least one byte. *)
Fixpoint csv_fields (fuel : nat) (l : bytes) : option (list string) :=
  match fuel with
  | O => None
  | S fuel' =>
      match csv_field l with
      | None => None
      | Some (f, None) => Some [String.string_of_list_ascii f]
      | Some (f, Some rest) => cons (String.string_of_list_ascii f) <$> csv_fields fuel' rest
      end
  end.
(** An empty line is skipped, and then the input ends. *)
Definition csv_read (line : bytes) : option (list string) :=
  match chomp line with
  | [] => None
  | l => csv_fields (S (length l)) l
  end.

(** [strconv.ParseInt(s, 10, 64)] *)
Fixpoint parse_digits (acc : Z) (s : string) : option Z :=
  match s with
  | EmptyString => Some acc
  | String c s' => if is_digit c then parse_digits (acc * 10 + Z.of_nat (Ascii.nat_of_ascii c - 48)) s' else None
  end.
Definition unsigned_int (s : string) : option Z :=
  match s with EmptyString => None | _ => parse_digits 0 s end.
Definition ParseInt (s : string) : option Z :=
  let n := match s with
           | String c s' =>
               if Nat.eqb (Ascii.nat_of_ascii c) 45 then Z.opp <$> unsigned_int s'
               else if Nat.eqb (Ascii.nat_of_ascii c) 43 then unsigned_int s' else unsigned_int s
           | EmptyString => None
           end in
  match n with
  | Some z => if (- 2 ^ 63 <=? z)%Z && (z <? 2 ^ 63)%Z then Some z else None
  | None => None
  end.

(** ** The reader's errors, files and state *)
Inductive read_error :=
  | ErrHashLogNotFound
  | errCoverageGap (index : Z)
  | errTornRow (torn : nat) (name : string)
  | errOther (msg : string).

Record HashLogFile := mkFile { hf_Name : string; hf_Index : Z; hf_Size : Z; hf_Sealed : bool }.

(** The sidecar client, at a time. *)
Class Source := {
  ListHashLog : nat -> read_error + list HashLogFile;
  ReadHashLogFile : nat -> string -> Z -> read_error + bytes;
  ReadHashLogHead : nat -> string -> Z -> read_error + bytes;
}.

Record Row := mkRow { rw_Height : Z; rw_Hashes : row }.

Record Reader := mkReader {
  rd_started : bool;
  rd_index : Z;
  rd_name : string;
  rd_sealed : bool;
  rd_offset : Z;
  rd_header : option (list string);
  rd_skipPartial : bool;
}.
Definition NewReader : Reader := mkReader false 0 "" false 0 None false.

Definition tipBacktrackBytes : Z := Z.shiftl 16 10.
Definition maxReadsPerPoll : nat := 16.
Definition maxHeaderBytes : Z := Z.shiftl 64 10.

(** ** Parsing *)
Definition parseHeader (line : bytes) : read_error + list string :=
  match csv_read line with
  | None => inl (errOther "parse hash log header")
  | Some fields =>
      if (length fields <? 2)%nat || (default "" (head fields) <>s "block_number")
      then inl (errOther "unexpected hash log header") else inr fields
  end.

(** One line of a file with this header. *)
Definition parseRow (header : list string) (line : bytes) : option Row :=
  match csv_read line with
  | None => None
  | Some fields =>
      if negb (Nat.eqb (length fields) (length header)) then None
      else match ParseInt (default "" (head fields)) with
           | None => None
           | Some height =>
               Some (mkRow height (fold_left (fun m kv => <[kv.1 := kv.2]> m)
                                     (zip (tail header) (tail fields)) ∅))
           end
  end.
Definition parseRows (header : list string) (data : bytes) : list Row * nat :=
  fold_left (fun acc line => match parseRow header line with
                             | Some r => (acc.1 ++ [r], acc.2)
                             | None => (acc.1, S acc.2)
                             end) (Lines data) ([], 0).

(** ** Moving between files *)
Definition moveAfter (files : list HashLogFile) (r : Reader) : bool * Reader :=
  match List.find (fun f => (rd_index r <? hf_Index f)%Z) files with
  | Some f => (true, mkReader (rd_started r) (hf_Index f) (hf_Name f) (hf_Sealed f) 0 None false)
  | None => (false, r)
  end.

Section Poll.
Context `{Source}.

(** What a call answers: whether to go on, or an error; with the reader and the clock. *)
Definition nextFile (t : nat) (r : Reader) : (read_error + bool) * Reader * nat :=
  match ListHashLog t with
  | inl e => (inl e, r, S t)
  | inr files => let '(more, r') := moveAfter files r in (inr more, r', S t)
  end.

Definition handleMissing (t : nat) (r : Reader) : (read_error + bool) * Reader * nat :=
  match ListHashLog t with
  | inl e => (inl e, r, S t)
  | inr files =>
      match List.find (fun f => (hf_Index f =? rd_index r)%Z) files with
      | Some f =>
          if hf_Name f =s rd_name r then (inr false, r, S t)
          else (inr true, mkReader (rd_started r) (rd_index r) (hf_Name f) (hf_Sealed f)
                            (rd_offset r) (rd_header r) (rd_skipPartial r), S t)
      | None =>
          if (0 <? rd_offset r)%Z
          then (inl (errCoverageGap (rd_index r)),
                mkReader false (rd_index r) (rd_name r) (rd_sealed r) (rd_offset r) (rd_header r)
                  (rd_skipPartial r), S t)
          else let '(more, r') := moveAfter files r in (inr more, r', S t)
      end
  end.

(** [start]: the cursor near the end of the newest file. *)
Definition start (t : nat) (r : Reader) : (read_error + bool) * Reader * nat :=
  match ListHashLog t with
  | inl e => (inl e, r, S t)
  | inr files =>
      match List.last (map Some files) None with
      | None => (inr false, r, S t)
      | Some latest =>
          match ReadHashLogHead (S t) (hf_Name latest) maxHeaderBytes with
          | inl ErrHashLogNotFound => (inr false, r, S (S t))
          | inl e => (inl e, r, S (S t))
          | inr hd =>
              match IndexByte NL hd with
              | None => (if (maxHeaderBytes <=? Z.of_nat (length hd))%Z
                         then inl (errOther "hash log header exceeds the limit") else inr false, r, S (S t))
              | Some nl =>
                  match parseHeader (take nl hd) with
                  | inl e => (inl e, r, S (S t))
                  | inr header =>
                      let headerEnd := (Z.of_nat nl + 1)%Z in
                      let offset := Z.max headerEnd (Z.max (hf_Size latest) (Z.of_nat (length hd)) - tipBacktrackBytes) in
                      (inr true, mkReader true (hf_Index latest) (hf_Name latest) (hf_Sealed latest) offset
                                   (Some header) (headerEnd <? offset)%Z, S (S t))
                  end
              end
          end
      end
  end.

(** ** One read of the loop of [Poll] *)

(** The cursor moved over [n] bytes. *)
Definition advance (n : nat) (r : Reader) : Reader :=
  mkReader (rd_started r) (rd_index r) (rd_name r) (rd_sealed r) (rd_offset r + Z.of_nat n) (rd_header r) (rd_skipPartial r).

(** The header line of a file read from its start; or [Poll] returns, with an error or not. *)
Definition readHeader (data : bytes) (r : Reader) : option read_error * Reader + bytes * Reader :=
  match rd_header r with
  | Some _ => inr (data, r)
  | None =>
      match IndexByte NL data with
      | None => inl (None, r)
      | Some nl =>
          match parseHeader (take nl data) with
          | inl e => inl (Some e, r)
          | inr header =>
              inr (drop (S nl) data,
                   mkReader (rd_started r) (rd_index r) (rd_name r) (rd_sealed r) (rd_offset r + Z.of_nat (S nl))
                     (Some header) (rd_skipPartial r))
          end
      end
  end.

(** The rest of a line the cursor landed in. *)
Definition skipLine (data : bytes) (r : Reader) : option read_error * Reader + bytes * Reader :=
  if rd_skipPartial r then
    match IndexByte NL data with
    | None => inl (None, advance (length data) r)
    | Some nl =>
        inr (drop (S nl) data,
             mkReader (rd_started r) (rd_index r) (rd_name r) (rd_sealed r) (rd_offset r + Z.of_nat (S nl))
               (rd_header r) false)
    end
  else inr (data, r).

Record poll_result := mkPoll { po_rows : list Row; po_invalid : nat; po_err : option read_error }.
Definition poll_return rows invalid err (r : Reader) (t : nat) := (mkPoll rows invalid err, r, t).

Fixpoint poll_loop (n t : nat) (r : Reader) (rows : list Row) (invalid : nat) : poll_result * Reader * nat :=
  match n with
  | O => poll_return rows invalid None r t
  | S n' =>
      match ReadHashLogFile t (rd_name r) (rd_offset r) with
      | inl ErrHashLogNotFound =>
          match handleMissing (S t) r with
          | (inl e, r', t') => poll_return rows invalid (Some e) r' t'
          | (inr false, r', t') => poll_return rows invalid None r' t'
          | (inr true, r', t') => poll_loop n' t' r' rows invalid
          end
      | inl e => poll_return rows invalid (Some e) r (S t)
      | inr data =>
          match readHeader data r with
          | inl (err, r1) => poll_return rows invalid err r1 (S t)
          | inr (data1, r1) =>
              match skipLine data1 r1 with
              | inl (err, r2) => poll_return rows invalid err r2 (S t)
              | inr (data2, r2) =>
                  let whole_lines := complete data2 in
                  let r3 := advance (length whole_lines) r2 in
                  let '(parsed, bad) := parseRows (default [] (rd_header r2)) whole_lines in
                  let rows' := rows ++ parsed in
                  let invalid' := invalid + bad in
                  let torn := length data2 - length whole_lines in
                  if negb (rd_sealed r3) then poll_return rows' invalid' None r3 (S t)
                  else if (0 <? torn)%nat then
                    poll_return rows' invalid' (Some (errTornRow torn (rd_name r3))) (advance torn r3) (S t)
                  else match nextFile (S t) r3 with
                       | (inl e, r', t') => poll_return rows' invalid' (Some e) r' t'
                       | (inr false, r', t') => poll_return rows' invalid' None r' t'
                       | (inr true, r', t') => poll_loop n' t' r' rows' invalid'
                       end
              end
          end
      end
  end.

Definition Poll (t : nat) (r : Reader) : poll_result * Reader * nat :=
  if rd_started r then poll_loop maxReadsPerPoll t r [] 0
  else match start t r with
       | (inl e, r', t') => poll_return [] 0 (Some e) r' t'
       | (inr false, r', t') => poll_return [] 0 None r' t'
       | (inr true, r', t') => poll_loop maxReadsPerPoll t' r' [] 0
       end.
End Poll.

(** ** Lines and complete lines *)
(** Nothing, or bytes that end in a newline. *)
Definition whole (l : bytes) : Prop := complete_len l = length l.

Lemma complete_len_app a b :
  complete_len (a ++ b) = match complete_len b with O => complete_len a | n => length a + n end.
Proof.
  induction a as [|c a IH]; [simpl; by destruct (complete_len b)|]. simpl. rewrite IH.
  destruct (complete_len b); [done|]. by destruct (length a).
Qed.
Lemma complete_len_le l : complete_len l <= length l.
Proof. induction l as [|c l IH]; simpl; [lia|]. destruct (complete_len l); [case_match|]; lia. Qed.
Lemma length_complete l : length (complete l) = complete_len l.
Proof. unfold complete. rewrite length_take. pose proof (complete_len_le l). lia. Qed.
Lemma complete_len_rest l : complete_len (drop (complete_len l) l) = 0.
Proof.
  induction l as [|c l IH]; [done|]. cbn [complete_len]. destruct (complete_len l) as [|n] eqn:E.
  - case_match; simpl; [done|]. by rewrite E, H.
  - simpl. by rewrite IH.
Qed.
Lemma whole_complete l : whole (complete l).
Proof.
  unfold whole. rewrite length_complete. pose proof (complete_len_app (complete l) (drop (complete_len l) l)) as H.
  unfold complete in H at 1. by rewrite take_drop, complete_len_rest in H.
Qed.
Lemma complete_app a b : whole a -> complete (a ++ b) = a ++ complete b.
Proof.
  intros Ha. unfold complete. rewrite complete_len_app. destruct (complete_len b) as [|n] eqn:E.
  - rewrite Ha, take_app_length. simpl. by rewrite app_nil_r.
  - by rewrite take_app_add.
Qed.

Lemma complete_len_pos a c : complete_len (a ++ [c]) = length (a ++ [c]) -> Ascii.eqb c NL = true.
Proof.
  rewrite complete_len_app, length_app. simpl. destruct (Ascii.eqb c NL); [done|].
  pose proof (complete_len_le a). lia.
Qed.
Lemma lines_from_app acc a b : whole a -> (acc = [] \/ a <> []) ->
  lines_from acc (a ++ b) = lines_from acc a ++ lines_from [] b.
Proof.
  revert acc. induction a as [|c a IH]; intros acc Hw Ha; [by destruct Ha as [->|]|]. cbn [lines_from app].
  destruct (Ascii.eqb c NL) eqn:E.
  - assert (whole a) by (unfold whole in *; simpl in Hw; rewrite E in Hw; destruct (complete_len a); lia).
    by rewrite IH by (auto).
  - unfold whole in Hw. simpl in Hw. rewrite E in Hw. destruct (complete_len a) eqn:El; [lia|].
    apply IH; [unfold whole; lia|]. right. by intros ->.
Qed.
Lemma Lines_app a b : whole a -> Lines (a ++ b) = Lines a ++ Lines b.
Proof. intros Ha. apply lines_from_app; auto. Qed.

(** ** Rows *)
Lemma parseRows_eq h data :
  parseRows h data = (omap (parseRow h) (Lines data),
                      length (filter (fun l => parseRow h l = None) (Lines data))).
Proof.
  unfold parseRows.
  assert (Hg : forall ls rs n, fold_left (fun acc line => match parseRow h line with
                             | Some r => (acc.1 ++ [r], acc.2) | None => (acc.1, S acc.2) end) ls (rs, n) =
    (rs ++ omap (parseRow h) ls, n + length (filter (fun l => parseRow h l = None) ls))).
  { induction ls as [|l ls IH]; intros rs n; simpl; [by rewrite app_nil_r, Nat.add_0_r|].
    rewrite filter_cons. destruct (parseRow h l) as [x|]; simpl; rewrite IH; simpl; f_equal.
    - by rewrite <- app_assoc.
    - lia. }
  apply Hg.
Qed.
Lemma parseRows_app h a b : whole a ->
  parseRows h (a ++ b) = ((parseRows h a).1 ++ (parseRows h b).1, (parseRows h a).2 + (parseRows h b).2).
Proof.
  intros Ha. rewrite !parseRows_eq, Lines_app by done. simpl. by rewrite omap_app, filter_app, length_app.
Qed.
Lemma parseRows_nil h : parseRows h [] = ([], 0).
Proof. done. Qed.

(** ** Tailing a file that grows *)

(** The columns and the bytes a cursor has still to read of a file. *)
Definition unread (r : Reader) (content : bytes) : option (list string * bytes) :=
  let data := drop (Z.to_nat (rd_offset r)) content in
  match rd_header r with
  | Some h => Some (h, data)
  | None => match IndexByte NL data with
            | Some nl => match parseHeader (take nl data) with
                         | inr h => Some (h, drop (S nl) data)
                         | inl _ => None
                         end
            | None => None
            end
  end.
(** The cursor is in the file, at the start of a line. *)
Record at_line (r : Reader) (content : bytes) : Prop := {
  al_started : rd_started r = true;
  al_offset : (0 <= rd_offset r <= Z.of_nat (length content))%Z;
  al_skip : rd_skipPartial r = false;
}.

Lemma IndexByte_app c a b n : IndexByte c a = Some n -> IndexByte c (a ++ b) = Some n /\ n < length a.
Proof.
  revert n. induction a as [|d a IH]; intros n E; [done|]. simpl in *. destruct (Ascii.eqb d c); [injection E as <-; split; [done|lia]|].
  destruct (IndexByte c a) as [k|]; [|done]. injection E as <-. destruct (IH k eq_refl) as [-> Hl]. split; [done|lia].
Qed.

Lemma readHeader_unread r content h data :
  at_line r content -> unread r content = Some (h, data) ->
  exists r1, readHeader (drop (Z.to_nat (rd_offset r)) content) r = inr (data, r1) /\
    rd_header r1 = Some h /\ data = drop (Z.to_nat (rd_offset r1)) content /\ at_line r1 content /\
    rd_index r1 = rd_index r /\ rd_name r1 = rd_name r /\ rd_sealed r1 = rd_sealed r.
Proof.
  intros [Hst Ho Hsk] Hu. unfold unread in Hu. unfold readHeader.
  destruct (rd_header r) as [h'|] eqn:Eh; [injection Hu as -> <-; exists r; by split_and!|].
  destruct (IndexByte NL _) as [nl|] eqn:En; [|done]. destruct (parseHeader _) as [|h'] eqn:Ep; [done|].
  injection Hu as -> <-. eexists. split; [done|]. simpl. split_and!; try done.
  - rewrite drop_drop. f_equal. lia.
  - split; simpl; [done| |done].
    destruct (IndexByte_app _ _ [] _ En) as [_ Hl].
    rewrite length_drop in Hl. lia.
Qed.

(** What follows the cursor only gets longer with the file. *)
Lemma unread_app r content ext h data :
  at_line r content -> unread r content = Some (h, data) -> unread r (content ++ ext) = Some (h, data ++ ext).
Proof.
  intros [_ Ho _] Hu. unfold unread in *. rewrite drop_app_le by lia.
  destruct (rd_header r); [by injection Hu as -> <-|]. destruct (IndexByte NL _) as [nl|] eqn:En; [|done].
  destruct (IndexByte_app _ _ ext _ En) as [-> Hl]. rewrite take_app_le by lia.
  destruct (parseHeader _); [done|]. injection Hu as -> <-. by rewrite drop_app_le by lia.
Qed.

(** The reader is past the complete lines of [data] in [content]. *)
Record past (r r' : Reader) (content : bytes) (h : list string) (data : bytes) : Prop := {
  pa_line : at_line r' content;
  pa_index : rd_index r' = rd_index r;
  pa_name : rd_name r' = rd_name r;
  pa_sealed : rd_sealed r' = rd_sealed r;
  pa_header : rd_header r' = Some h;
  pa_unread : unread r' content = Some (h, drop (complete_len data) data);
}.

(** One read of the loop, of a file the cursor is in. *)
Lemma poll_loop_read `{Source} n t r content h data rows inv :
  at_line r content -> unread r content = Some (h, data) ->
  ReadHashLogFile t (rd_name r) (rd_offset r) = inr (drop (Z.to_nat (rd_offset r)) content) ->
  let rows' := rows ++ (parseRows h (complete data)).1 in
  let inv' := inv + (parseRows h (complete data)).2 in
  exists r', past r r' content h data /\
    poll_loop (S n) t r rows inv =
    if negb (rd_sealed r) then poll_return rows' inv' None r' (S t)
    else if (0 <? length data - complete_len data)%nat then
      poll_return rows' inv' (Some (errTornRow (length data - complete_len data) (rd_name r)))
        (advance (length data - complete_len data) r') (S t)
    else match nextFile (S t) r' with
         | (inl e, r'', t') => poll_return rows' inv' (Some e) r'' t'
         | (inr false, r'', t') => poll_return rows' inv' None r'' t'
         | (inr true, r'', t') => poll_loop n t' r'' rows' inv'
         end.
Proof.
  intros Ha Hu Hread rows' inv'.
  destruct (readHeader_unread _ _ _ _ Ha Hu) as (r1 & Hr & Hh & Hd & [Hst Ho Hsk] & Hi1 & Hn1 & Hs1).
  exists (advance (length (complete data)) r1). split.
  - assert (Hle : complete_len data <= length data) by apply complete_len_le.
    assert (Hld : length data = length content - Z.to_nat (rd_offset r1)) by (by rewrite Hd, length_drop).
    split; [|done..|].
    + split; simpl; [done| |done]. rewrite length_complete. lia.
    + unfold unread. simpl. rewrite Hh. do 2 f_equal. rewrite Hd at 3. rewrite drop_drop. f_equal.
      rewrite length_complete. lia.
  - cbn [poll_loop]. rewrite Hread, Hr. unfold skipLine. rewrite Hsk, Hh. change (default [] (Some h)) with h.
    rewrite (surjective_pairing (parseRows h (complete data))). rewrite length_complete.
    cbn [advance rd_sealed rd_name]. by rewrite Hs1, Hn1.
Qed.

Section Tail.
Context `{Source} (file : nat -> bytes) (name : string).
(** The file under this name only ever gets longer while the reader follows it. *)
Hypothesis served : forall t off, (0 <= off)%Z -> ReadHashLogFile t name off = inr (drop (Z.to_nat off) (file t)).
Hypothesis grows : forall t t', t <= t' -> file t `prefix_of` file t'.

Lemma poll_active t r h data :
  at_line r (file t) -> rd_name r = name -> rd_sealed r = false -> unread r (file t) = Some (h, data) ->
  exists r', past r r' (file t) h data /\
    Poll t r = (mkPoll (parseRows h (complete data)).1 (parseRows h (complete data)).2 None, r', S t).
Proof.
  intros Ha Hnm Hse Hu. unfold Poll. rewrite (al_started _ _ Ha). unfold maxReadsPerPoll.
  destruct (poll_loop_read 15 t r (file t) h data [] 0 Ha Hu) as (r' & Hp & E); [rewrite Hnm; by apply served; apply Ha|].
  exists r'. split; [done|]. rewrite E, Hse. done.
Qed.

(** What a sequence of polls returned, and the reader after them. *)
Fixpoint polls (ts : list nat) (r : Reader) : list poll_result * Reader :=
  match ts with
  | [] => ([], r)
  | t :: ts' => let '(p, r', _) := Poll t r in
                let '(ps, r'') := polls ts' r' in (p :: ps, r'')
  end.

Lemma unread_grows r t t' h data :
  t <= t' -> at_line r (file t) -> unread r (file t) = Some (h, data) ->
  exists ext, unread r (file t') = Some (h, data ++ ext) /\ at_line r (file t').
Proof.
  intros Ht Ha Hu. destruct (grows t t' Ht) as [ext ->]. exists ext. split; [by apply unread_app|].
  destruct Ha as [Hst Ho Hsk]. split; [done|rewrite length_app; lia|done].
Qed.

(** The rows of several polls, and the lines they could not parse. *)
Definition total (ps : list poll_result) : list Row * nat :=
  (ps ≫= po_rows, list_sum (map po_invalid ps)).

Lemma sorted_last_le t ts : Sorted le (t :: ts) -> t <= List.last ts t.
Proof.
  revert t. induction ts as [|y ts IH]; intros t Hs; [done|]. apply Sorted_inv in Hs as [Hs Hty%HdRel_inv].
  rewrite last_cons. specialize (IH y Hs). lia.
Qed.

(** The polls of a file that grows return its complete lines, each once. *)
Lemma polls_tail ts t r h data :
  Sorted le (t :: ts) -> at_line r (file t) -> rd_name r = name -> rd_sealed r = false ->
  unread r (file t) = Some (h, data) ->
  exists data', unread r (file (List.last ts t)) = Some (h, data') /\
    total (polls (t :: ts) r).1 = parseRows h (complete data') /\
    Forall (fun p => po_err p = None) (polls (t :: ts) r).1.
Proof.
  revert t r data. induction ts as [|t' ts IH]; intros t r data Hs Ha Hn Hse Hu;
    destruct (poll_active t r h data Ha Hn Hse Hu) as (r' & Hp & E); pose proof (sorted_last_le _ _ Hs) as Hlast.
  - exists data. split; [done|]. cbn [polls]. rewrite E. unfold total. simpl. rewrite app_nil_r, Nat.add_0_r.
    split; [by destruct (parseRows _ _)|]. by repeat constructor.
  - apply Sorted_inv in Hs as [Hs Ht%HdRel_inv].
    destruct (unread_grows r' t t' h (drop (complete_len data) data) Ht (pa_line _ _ _ _ _ Hp) (pa_unread _ _ _ _ _ Hp)) as (ext & Hu' & Ha').
    destruct (IH t' r' (drop (complete_len data) data ++ ext) Hs Ha') as (d' & Hd' & Ht' & Hf);
      [by rewrite (pa_name _ _ _ _ _ Hp)|by rewrite (pa_sealed _ _ _ _ _ Hp)|exact Hu'|].
    rewrite last_cons in Hlast |- *. destruct (grows _ _ Hlast) as [ext' Hext'].
    exists (data ++ ext'). rewrite Hext' in Hd' |- *.
    rewrite (unread_app _ _ ext' _ _ (pa_line _ _ _ _ _ Hp) (pa_unread _ _ _ _ _ Hp)) in Hd'. injection Hd' as <-.
    split; [by apply unread_app|]. 
    assert (Hsp : data ++ ext' = complete data ++ drop (complete_len data) data ++ ext')
      by (unfold complete; by rewrite app_assoc, take_drop).
    rewrite Hsp, complete_app, parseRows_app, <- Ht' by apply whole_complete.
    change (polls (t :: t' :: ts) r) with (let '(p, r1, _) := Poll t r in let '(ps, r2) := polls (t' :: ts) r1 in (p :: ps, r2)).
    rewrite E. destruct (polls (t' :: ts) r') as [ps r'']. split; [done|by constructor].
Qed.
End Tail.

(** ** A backlog of files *)
Lemma whole_suffix a b : whole (a ++ b) -> whole b.
Proof.
  unfold whole. rewrite complete_len_app, length_app. pose proof (complete_len_le a). pose proof (complete_len_le b).
  destruct (complete_len b); lia.
Qed.
Lemma unread_whole r content h data : whole content -> unread r content = Some (h, data) -> whole data.
Proof.
  assert (Hd : forall n l, whole l -> whole (drop n l)).
  { intros n l Hl. apply (whole_suffix (take n l)). by rewrite take_drop. }
  intros Hw Hu. unfold unread in Hu. repeat case_match; simplify_eq; eauto.
Qed.

(** A reader at the first byte of a file. *)
Definition opened (f : HashLogFile) : Reader := mkReader true (hf_Index f) (hf_Name f) (hf_Sealed f) 0 None false.
Lemma at_line_opened f content : at_line (opened f) content.
Proof. split; simpl; [done|lia|done]. Qed.

Section Backlog.
Context `{Source} (fs : list HashLogFile) (content : string -> bytes).
(** The sidecar lists the files lowest index first, and they do not change. *)
Hypothesis listed : forall t, ListHashLog t = inr fs.
Hypothesis ordered : StronglySorted (fun f g => (hf_Index f < hf_Index g)%Z) fs.
Hypothesis served : forall t f off, f ∈ fs -> (0 <= off)%Z ->
  ReadHashLogFile t (hf_Name f) off = inr (drop (Z.to_nat off) (content (hf_Name f))).
(** A file with a header, and, once sealed, with no torn line. *)
Definition sound_file (f : HashLogFile) : Prop :=
  is_Some (unread (opened f) (content (hf_Name f))) /\ (hf_Sealed f = true -> whole (content (hf_Name f))).

(** The rows and the bad lines of a file. *)
Definition file_rows (r : Reader) (f : HashLogFile) : list Row * nat :=
  match unread r (content (hf_Name f)) with
  | Some (h, data) => parseRows h (complete data)
  | None => ([], 0)
  end.
(** What a cursor in [f] has to read of [f] and the files after it. *)
Definition backlog (r : Reader) (f : HashLogFile) (rest : list HashLogFile) : list (list Row * nat) :=
  file_rows r f :: map (fun g => file_rows (opened g) g) rest.

Definition in_file (r : Reader) (f : HashLogFile) : Prop :=
  rd_index r = hf_Index f /\ rd_name r = hf_Name f /\ rd_sealed r = hf_Sealed f /\ at_line r (content (hf_Name f)).

Lemma sorted_split {A} (R : A -> A -> Prop) pre x l :
  StronglySorted R (pre ++ x :: l) -> Forall (fun y => R y x) pre /\ Forall (R x) l.
Proof.
  induction pre as [|y pre IH]; simpl; intros Hs; apply StronglySorted_inv in Hs as [Hs Hf]; [by split|].
  destruct (IH Hs) as [Hp Hl]. split; [|done]. constructor; [|done].
  eapply List.Forall_forall in Hf; [exact Hf|]. apply in_app_iff. right. by left.
Qed.
Lemma find_skip {A} (P : A -> bool) pre l : Forall (fun y => P y = false) pre -> List.find P (pre ++ l) = List.find P l.
Proof. induction 1 as [|y pre Hy _ IH]; simpl; [done|]. by rewrite Hy. Qed.

Lemma moveAfter_next pre f rest r :
  fs = pre ++ f :: rest -> rd_index r = hf_Index f -> rd_started r = true ->
  moveAfter fs r = match rest with [] => (false, r) | g :: _ => (true, opened g) end.
Proof.
  intros Hfs Hi Hst. unfold moveAfter. pose proof ordered as Ho. rewrite Hfs in Ho |- *.
  destruct (sorted_split _ _ _ _ Ho) as [Hp Hr].
  rewrite (find_skip _ pre) by (eapply Forall_impl; [exact Hp|]; simpl; intros y Hy; apply Z.ltb_ge; lia).
  simpl. rewrite Hi, Z.ltb_irrefl. destruct rest as [|g rest]; [done|]. apply Forall_cons in Hr as [Hg _].
  simpl. apply Z.ltb_lt in Hg. rewrite Hg, Hst. done.
Qed.

Lemma poll_loop_backlog rest pre f n t r rows inv :
  fs = pre ++ f :: rest -> length rest < n -> in_file r f -> is_Some (unread r (content (hf_Name f))) ->
  (hf_Sealed f = true -> whole (content (hf_Name f))) -> Forall sound_file rest ->
  Forall (fun g => hf_Sealed g = true) (removelast (f :: rest)) ->
  exists r' t', poll_loop n t r rows inv =
    (mkPoll (rows ++ (backlog r f rest ≫= fst)) (inv + list_sum (map snd (backlog r f rest))) None, r', t') /\
    in_file r' (List.last rest f).
Proof.
  revert pre f n t r rows inv. induction rest as [|g rest IH]; intros pre f n t r rows inv Hfs Hn (Hi & Hnm & Hse & Ha) [[h data] Hu] Hwh Hsd Hsl;
    (destruct n as [|n]; [simpl in Hn; lia|]);
    destruct (poll_loop_read n t r _ h data rows inv Ha Hu) as (r' & Hp & E);
    try (rewrite Hnm; apply served; [rewrite Hfs; apply elem_of_app; right; by left|apply Ha]);
    assert (Hfr : file_rows r f = parseRows h (complete data)) by (unfold file_rows; by rewrite Hu);
    cbn zeta in E; rewrite <- Hfr in E; rewrite E; clear E; rewrite Hse; destruct Hp as [Hl' Hi' Hn' Hs' Hh' Hu'];
    assert (Htorn : hf_Sealed f = true -> (0 <? length data - complete_len data) = false)
      by (intros Hs1; apply Nat.ltb_ge; rewrite (unread_whole _ _ _ _ (Hwh Hs1) Hu); lia);
    unfold nextFile; rewrite listed, (moveAfter_next _ _ _ r' Hfs) by (congruence || apply Hl').
  - exists r', (if hf_Sealed f then S (S t) else S t). split; [|by unfold in_file; rewrite Hi', Hn', Hs'].
    destruct (hf_Sealed f); simpl; [rewrite Htorn by done|]; unfold poll_return; simpl; by rewrite app_nil_r, Nat.add_0_r.
  - apply Forall_cons in Hsd as [[Hg1 Hg2] Hsd]. cbn [removelast] in Hsl. apply Forall_cons in Hsl as [Hs1 Hsl].
    rewrite Htorn, Hs1 by done. simpl negb. cbn iota.
    edestruct (IH (pre ++ [f]) g n (S (S t)) (opened g)) as (r2 & t2 & E2 & Hin); cycle -1.
    + exists r2, t2. rewrite E2. split; [|by rewrite last_cons].
      change (backlog r f (g :: rest)) with (file_rows r f :: backlog (opened g) g rest).
      cbn [map mbind list_bind list_sum fold_right]. by rewrite <- app_assoc, <- Nat.add_assoc.
    + by rewrite <- app_assoc.
    + simpl in Hn. lia.
    + split_and!; try done. apply at_line_opened.
    + done.
    + done.
    + done.
    + done.
Qed.

(** A poll of a reader that is behind. *)
Lemma poll_backlog rest pre f t r :
  fs = pre ++ f :: rest -> length rest < maxReadsPerPoll -> in_file r f -> is_Some (unread r (content (hf_Name f))) ->
  (hf_Sealed f = true -> whole (content (hf_Name f))) -> Forall sound_file rest ->
  Forall (fun g => hf_Sealed g = true) (removelast (f :: rest)) ->
  exists r' t', Poll t r = (mkPoll (backlog r f rest ≫= fst) (list_sum (map snd (backlog r f rest))) None, r', t') /\
    in_file r' (List.last rest f).
Proof.
  intros Hfs Hn Hin Hu Hw Hs Hse. unfold Poll. rewrite (al_started _ _ (proj2 (proj2 (proj2 Hin)))).
  by apply (poll_loop_backlog rest pre f maxReadsPerPoll t r [] 0).
Qed.
End Backlog.

(** ** The comparator's poll of a pair (run.go) *)
Definition ReasonUnavailable := "unavailable".
Definition ReasonNotFound := "not_found".
Definition ReasonCoverageGap := "coverage_gap".
Definition ReasonTornRow := "torn_row".
Definition ReasonInvalidRow := "invalid_row".

(** The metrics a poll updates, in order. *)
Inductive metric :=
  | SourceErrors (side : role) (reason : string) (n : nat)
  | SourceHeight (side : role) (height : Z)
  | Diverged
  | MismatchMetric (mm : Mismatch)
  | MismatchedColumn (col : string)
  | HeightGaps (side : role) (n : nat)
  | ComparedHeights (n : nat)
  | LastComparedHeight (height : Z)
  | LastComparedTimestamp (unix : Z).

Definition reason (e : read_error) : string :=
  match e with
  | ErrHashLogNotFound => ReasonNotFound
  | errCoverageGap _ => ReasonCoverageGap
  | errTornRow _ _ => ReasonTornRow
  | errOther _ => ReasonUnavailable
  end.

Record pairRunner := mkRunner { pr_migrating : Reader; pr_reserve : Reader; pr_state : pairState }.

(** The rows of one poll, added to their side: the state, the metrics and the unusable rows. *)
Fixpoint addRows (side : role) (rows : list Row) (invalid : nat) (p : pairState) : pairState * list metric * nat :=
  match rows with
  | [] => (p, [], invalid)
  | rw :: rows' =>
      match ComparableHashes (rw_Hashes rw) with
      | Err _ => addRows side rows' (S invalid) p
      | Ok c => let '(p', ms, inv) := addRows side rows' invalid (add side (rw_Height rw) c p) in
                (p', SourceHeight side (rw_Height rw) :: ms, inv)
      end
  end.

Definition read (src : Source) (cancelled : role -> bool) (side : role) (t : nat) (r : Reader) (p : pairState)
    : pairState * Reader * list metric * nat :=
  let '(po, r', t') := @Poll src t r in
  let errs := match po_err po with
              | Some e => if cancelled side then [] else [SourceErrors side (reason e) 1]
              | None => []
              end in
  let '(p', ms, invalid) := addRows side (po_rows po) (po_invalid po) p in
  (p', r', errs ++ ms ++ (if (0 <? invalid)%nat then [SourceErrors side ReasonInvalidRow invalid] else []), t').

Definition record (now : Z) (res : CompareResult) (p : pairState) : list metric :=
  flat_map (fun mm => [Diverged; MismatchMetric mm] ++ map MismatchedColumn (mm_Columns mm)) (cr_Mismatches res) ++
  (if (0 <? cr_MigratingGaps res)%nat then [HeightGaps Migrating (cr_MigratingGaps res)] else []) ++
  (if (0 <? cr_ReserveGaps res)%nat then [HeightGaps Reserve (cr_ReserveGaps res)] else []) ++
  (if (0 <? cr_Compared res)%nat then [ComparedHeights (cr_Compared res); LastComparedHeight (ps_last p); LastComparedTimestamp now] else []).

Definition poll (srcM srcR : Source) (cancelled : role -> bool) (now : Z) (t : nat) (pr : pairRunner) : pairRunner * list metric * nat :=
  let '(p1, m', ms1, t1) := read srcM cancelled Migrating t (pr_migrating pr) (pr_state pr) in
  let '(p2, r', ms2, t2) := read srcR cancelled Reserve t1 (pr_reserve pr) p1 in
  let '(res, p3) := compare p2 in
  (mkRunner m' r' p3, ms1 ++ ms2 ++ record now res p3, t2).

(** *** A poll is a run of the pair state *)
Definition row_ops (side : role) (rows : list Row) : list pair_op :=
  omap (fun rw => match ComparableHashes (rw_Hashes rw) with
                  | Ok c => Some (OpAdd side (rw_Height rw) c)
                  | Err _ => None
                  end) rows.
Lemma row_ops_cons side rw rows :
  row_ops side (rw :: rows) = match ComparableHashes (rw_Hashes rw) with
                              | Ok c => OpAdd side (rw_Height rw) c :: row_ops side rows
                              | Err _ => row_ops side rows
                              end.
Proof. unfold row_ops. cbn [omap list_omap]. by destruct (ComparableHashes _). Qed.
Lemma row_ops_length side rows : length (row_ops side rows) <= length rows.
Proof. induction rows as [|rw rows IH]; [done|]. rewrite row_ops_cons. destruct (ComparableHashes _); simpl; lia. Qed.

(** Adding a poll's rows is adding those of them that are comparable, and counting the others. *)
Lemma addRows_ops side rows inv p :
  run_ops (row_ops side rows) p = ([], (addRows side rows inv p).1.1) /\
  (addRows side rows inv p).2 = inv + (length rows - length (row_ops side rows)).
Proof.
  revert inv p. induction rows as [|rw rows IH]; intros inv p; [split; [done|simpl; lia]|].
  pose proof (row_ops_length side rows) as Hle. rewrite row_ops_cons. cbn [addRows].
  destruct (ComparableHashes (rw_Hashes rw)) as [c|e].
  - rewrite run_ops_cons. cbn [step_op fst snd]. destruct (IH inv (add side (rw_Height rw) c p)) as [E1 E2]. rewrite E1.
    destruct (addRows side rows inv (add side (rw_Height rw) c p)) as [[p' ms] i]. simpl in *. split; [done|]. lia.
  - destruct (IH (S inv) p) as [E1 E2]. split; [done|]. rewrite E2. simpl. lia.
Qed.

Lemma run_ops_app a b p :
  run_ops (a ++ b) p = ((run_ops a p).1 ++ (run_ops b (run_ops a p).2).1, (run_ops b (run_ops a p).2).2).
Proof.
  revert p. induction a as [|o a IH]; intros p; [simpl; by destruct (run_ops b p)|].
  cbn [app]. rewrite !run_ops_cons, IH. simpl. by rewrite app_assoc.
Qed.

(** The rows a poll of the pair got from each node. *)
Definition polled (srcM srcR : Source) (t : nat) (pr : pairRunner) (side : role) : list Row :=
  let '(pm, _, t1) := @Poll srcM t (pr_migrating pr) in
  match side with
  | Migrating => po_rows pm
  | Reserve => po_rows (@Poll srcR t1 (pr_reserve pr)).1.1
  end.
Definition poll_ops srcM srcR t pr : list pair_op :=
  row_ops Migrating (polled srcM srcR t pr Migrating) ++ row_ops Reserve (polled srcM srcR t pr Reserve) ++ [OpCompare].

Definition mismatches_of (ms : list metric) : list Mismatch :=
  omap (fun m => match m with MismatchMetric mm => Some mm | _ => None end) ms.

Lemma mismatches_of_app a b : mismatches_of (a ++ b) = mismatches_of a ++ mismatches_of b.
Proof. apply omap_app. Qed.
Lemma mismatches_of_addRows side rows inv p : mismatches_of (addRows side rows inv p).1.2 = [].
Proof.
  revert inv p. induction rows as [|rw rows IH]; intros inv p; [done|]. simpl. destruct (ComparableHashes _) as [c|e]; [|apply IH].
  specialize (IH inv (add side (rw_Height rw) c p)). by destruct (addRows side rows inv _) as [[p' ms] i].
Qed.
Lemma mismatches_of_record now res p : mismatches_of (record now res p) = cr_Mismatches res.
Proof.
  unfold record. rewrite mismatches_of_app.
  assert (Hr : mismatches_of ((if (0 <? cr_MigratingGaps res)%nat then [HeightGaps Migrating (cr_MigratingGaps res)] else []) ++
    (if (0 <? cr_ReserveGaps res)%nat then [HeightGaps Reserve (cr_ReserveGaps res)] else []) ++
    (if (0 <? cr_Compared res)%nat then [ComparedHeights (cr_Compared res); LastComparedHeight (ps_last p); LastComparedTimestamp now] else [])) = [])
    by (by repeat case_match).
  rewrite Hr, app_nil_r. induction (cr_Mismatches res) as [|mm l IH]; [done|]. cbn [flat_map]. rewrite mismatches_of_app, IH.
  assert (Hc : forall cs, mismatches_of (map MismatchedColumn cs) = []) by (induction cs; done).
  simpl. change (omap _ (map MismatchedColumn (mm_Columns mm))) with (mismatches_of (map MismatchedColumn (mm_Columns mm))).
  by rewrite Hc.
Qed.

Lemma poll_refines srcM srcR cancelled now t pr :
  let '(pr', ms, _) := poll srcM srcR cancelled now t pr in
  pr_state pr' = (run_ops (poll_ops srcM srcR t pr) (pr_state pr)).2 /\
  mismatches_of ms = (run_ops (poll_ops srcM srcR t pr) (pr_state pr)).1 ≫= cr_Mismatches.
Proof.
  unfold poll, read, poll_ops, polled. destruct (@Poll srcM t (pr_migrating pr)) as [[pm m'] t1].
  destruct (addRows_ops Migrating (po_rows pm) (po_invalid pm) (pr_state pr)) as [E1 _].
  pose proof (mismatches_of_addRows Migrating (po_rows pm) (po_invalid pm) (pr_state pr)) as Hm1.
  destruct (addRows Migrating (po_rows pm) (po_invalid pm) (pr_state pr)) as [[p1 ms1] i1]. cbn [fst snd] in *.
  destruct (@Poll srcR t1 (pr_reserve pr)) as [[pn r'] t2]. cbn [fst].
  destruct (addRows_ops Reserve (po_rows pn) (po_invalid pn) p1) as [E2 _].
  pose proof (mismatches_of_addRows Reserve (po_rows pn) (po_invalid pn) p1) as Hm2.
  destruct (addRows Reserve (po_rows pn) (po_invalid pn) p1) as [[p2 ms2] i2]. cbn [fst snd] in *.
  rewrite !run_ops_app, E1. cbn [fst snd]. rewrite E2. cbn [fst snd run_ops step_op].
  destruct (compare p2) as [res p3] eqn:Ec. cbn [fst snd pr_state]. split; [done|].
  rewrite !mismatches_of_app, mismatches_of_record, Hm1, Hm2. simpl. rewrite app_nil_r.
  by repeat case_match.
Qed.

(** *** Polling a pair over time *)
Section Pair.
Context (srcM srcR : Source) (cancelled : nat -> role -> bool).

(** Polls at these times and wall clocks: the metrics, the rows each node gave, and the pair-state operations. *)
Fixpoint run_pair (ts : list (nat * Z)) (pr : pairRunner) : pairRunner * list metric :=
  match ts with
  | [] => (pr, [])
  | (t, now) :: ts' =>
      let '(pr', ms, _) := poll srcM srcR (cancelled t) now t pr in
      let '(pr'', ms') := run_pair ts' pr' in (pr'', ms ++ ms')
  end.
Fixpoint returned (ts : list (nat * Z)) (pr : pairRunner) (side : role) : list Row :=
  match ts with
  | [] => []
  | (t, now) :: ts' => polled srcM srcR t pr side ++ returned ts' (poll srcM srcR (cancelled t) now t pr).1.1 side
  end.
Fixpoint pair_ops (ts : list (nat * Z)) (pr : pairRunner) : list pair_op :=
  match ts with
  | [] => []
  | (t, now) :: ts' => poll_ops srcM srcR t pr ++ pair_ops ts' (poll srcM srcR (cancelled t) now t pr).1.1
  end.

Lemma run_pair_refines ts pr :
  pr_state (run_pair ts pr).1 = (run_ops (pair_ops ts pr) (pr_state pr)).2 /\
  mismatches_of (run_pair ts pr).2 = (run_ops (pair_ops ts pr) (pr_state pr)).1 ≫= cr_Mismatches.
Proof.
  revert pr. induction ts as [|[t now] ts IH]; intros pr; [done|]. cbn [run_pair pair_ops].
  pose proof (poll_refines srcM srcR (cancelled t) now t pr) as Hp.
  destruct (poll srcM srcR (cancelled t) now t pr) as [[pr' ms] t']. destruct Hp as [Hs Hm]. cbn [fst].
  destruct (IH pr') as [IH1 IH2]. destruct (run_pair ts pr') as [pr'' ms']. cbn [fst snd] in *.
  rewrite run_ops_app, <- Hs. cbn [fst snd]. split; [done|]. by rewrite mismatches_of_app, bind_app, Hm, IH2.
Qed.

Lemma row_ops_elem side rows o :
  o ∈ row_ops side rows <->
  exists rw c, rw ∈ rows /\ ComparableHashes (rw_Hashes rw) = Ok c /\ o = OpAdd side (rw_Height rw) c.
Proof.
  unfold row_ops. rewrite list_elem_of_omap. split.
  - intros (rw & Hin & E). destruct (ComparableHashes (rw_Hashes rw)) as [c|] eqn:Ec; [|done]. simplify_eq. eauto.
  - intros (rw & c & Hin & Ec & ->). exists rw. by rewrite Ec.
Qed.
Lemma pair_ops_elem ts pr side h x :
  OpAdd side h x ∈ pair_ops ts pr ->
  exists rw, rw ∈ returned ts pr side /\ ComparableHashes (rw_Hashes rw) = Ok x /\ rw_Height rw = h.
Proof.
  revert pr. induction ts as [|[t now] ts IH]; intros pr Hin; [by apply elem_of_nil in Hin|].
  cbn [pair_ops returned] in *. unfold poll_ops in Hin. setoid_rewrite elem_of_app.
  rewrite !elem_of_app, !row_ops_elem, list_elem_of_singleton in Hin.
  destruct Hin as [[Hin|[Hin|?]]|Hin]; [..|done|destruct (IH _ Hin) as (rw & ? & ? & ?); eauto];
    destruct Hin as (rw & c & Hr & Hc & E); injection E as -> -> ->; eauto 6.
Qed.

(** Property: A divergence the comparator raises is one the two logs hold: each node's
    reader returned a row for that height, and the comparable columns of the two
    rows differ in exactly the columns reported. Nodes whose logs agree never
    raise one, whatever is lost, repeated or late. *)
Theorem divergence_is_real ts mm :
  (forall side rw, rw ∈ returned ts (mkRunner NewReader NewReader newPairState) side -> (0 < rw_Height rw)%Z) ->
  MismatchMetric mm ∈ (run_pair ts (mkRunner NewReader NewReader newPairState)).2 ->
  exists rm rr a b,
    rm ∈ returned ts (mkRunner NewReader NewReader newPairState) Migrating /\
    rr ∈ returned ts (mkRunner NewReader NewReader newPairState) Reserve /\
    rw_Height rm = mm_Height mm /\ rw_Height rr = mm_Height mm /\
    ComparableHashes (rw_Hashes rm) = Ok a /\ ComparableHashes (rw_Hashes rr) = Ok b /\
    a <> b /\ mm_Columns mm = differingColumns a b.
Proof.
  set (pr := mkRunner NewReader NewReader newPairState). intros Hpos Hmm.
  assert (Hin : mm ∈ mismatches_of (run_pair ts pr).2) by (apply list_elem_of_omap; eauto).
  rewrite (proj2 (run_pair_refines ts pr)) in Hin.
  eapply (run_mismatch_delivered (delivered (pair_ops ts pr))) in Hin as (a & b & Ha & Hb & Hne & Hc);
    [|apply Forall_forall; intros [side h x|] Ho; [|done]|done|apply pair_wf_new].
  - apply pair_ops_elem in Ha as (rm & ? & ? & ?). apply pair_ops_elem in Hb as (rr & ? & ? & ?). eauto 12.
  - apply pair_ops_elem in Ho as (rw & Hr & _ & <-). by apply (Hpos side).
Qed.
End Pair.

(** ** The configuration (config.go) *)
Record Endpoint := mkEndpoint { ep_Namespace : string; ep_Name : string; ep_URL : string }.
Record Pair := mkPairConfig { pc_Chain : string; pc_Migrating : Endpoint; pc_Reserve : Endpoint }.

Definition Label (e : Endpoint) : string :=
  if ep_Name e <>s "" then ep_Namespace e +:+ "/" +:+ ep_Name e else ep_URL e.
Definition InCluster (e : Endpoint) : bool := ep_URL e =s "".
Definition endpoint_validate (e : Endpoint) : result unit :=
  if (ep_URL e <>s "") && ((ep_Name e <>s "") || (ep_Namespace e <>s "")) then Err "set either url or namespace and name, not both"
  else if ep_URL e <>s "" then Ok tt
  else if (ep_Name e =s "") || (ep_Namespace e =s "") then Err "namespace and name are required when url is unset"
  else Ok tt.

Definition pair_key (p : Pair) : string :=
  pc_Chain p +:+ "|" +:+ Label (pc_Migrating p) +:+ "|" +:+ Label (pc_Reserve p).
Definition pair_err (i : nat) (what : string) : result unit := Err ("pairs[" +:+ pretty i +:+ "]" +:+ what).
Fixpoint validatePairs (i : nat) (seen : list string) (ps : list Pair) : result unit :=
  match ps with
  | [] => Ok tt
  | p :: ps' =>
      if pc_Chain p =s "" then pair_err i ": chain is required"
      else match endpoint_validate (pc_Migrating p) with
           | Err e => pair_err i (".migrating: " +:+ e)
           | Ok _ =>
               match endpoint_validate (pc_Reserve p) with
               | Err e => pair_err i (".reserve: " +:+ e)
               | Ok _ =>
                   if Label (pc_Migrating p) =s Label (pc_Reserve p) then pair_err i ": migrating and reserve are the same node"
                   else if mem (pair_key p) seen then pair_err i ": duplicate pair"
                   else validatePairs (S i) (pair_key p :: seen) ps'
               end
           end
  end.
Definition Validate (ps : list Pair) : result unit :=
  match ps with
  | [] => Err "config has no pairs"
  | _ => validatePairs 0 [] ps
  end.

(** The labels of a pair's metrics. *)
Definition pair_labels (p : Pair) : list string := [pc_Chain p; Label (pc_Migrating p); Label (pc_Reserve p)].

Lemma validatePairs_ok i seen ps :
  validatePairs i seen ps = Ok tt -> NoDup (map pair_key ps) /\ Forall (fun p => pair_key p ∉ seen) ps /\
  Forall (fun p => pc_Chain p <> "" /\ Label (pc_Migrating p) <> Label (pc_Reserve p)) ps.
Proof.
  revert i seen. induction ps as [|p ps IH]; intros i seen H; [split_and!; constructor|]. simpl in H.
  destruct (String.eqb_spec (pc_Chain p) ""); [done|]. destruct (endpoint_validate (pc_Migrating p)); [|done].
  destruct (endpoint_validate (pc_Reserve p)); [|done].
  destruct (String.eqb_spec (Label (pc_Migrating p)) (Label (pc_Reserve p))); [done|].
  destruct (mem (pair_key p) seen) eqn:Em; [done|]. destruct (IH _ _ H) as (Hn & Hs & Hf).
  split_and!; [|constructor|by constructor].
  - simpl. constructor; [|done]. intros (q & Eq & Hq)%list_elem_of_In%in_map_iff.
    eapply Forall_forall in Hs; [|by apply list_elem_of_In]. rewrite Eq in Hs. apply Hs. by left.
  - intros Hin. apply not_true_iff_false in Em. apply Em. unfold mem. apply existsb_exists.
    exists (pair_key p). split; [by apply list_elem_of_In|]. apply String.eqb_refl.
  - eapply Forall_impl; [exact Hs|]. intros q Hq Hin. apply Hq. by right.
Qed.

(** Property: In a configuration that validates, every pair has metrics of its own: no two
    pairs share their labels, none is without a chain, and no node is compared
    with itself. *)
Theorem validated_pairs_distinct ps :
  Validate ps = Ok tt ->
  ps <> [] /\ NoDup (map pair_labels ps) /\
  Forall (fun p => pc_Chain p <> "" /\ Label (pc_Migrating p) <> Label (pc_Reserve p)) ps.
Proof.
  intros H. destruct ps as [|p ps]; [done|]. apply validatePairs_ok in H as (Hn & _ & Hf). split_and!; [done| |done].
  revert Hn. generalize (p :: ps). clear. induction l as [|q l IH]; intros Hn; [constructor|].
  simpl in *. apply NoDup_cons in Hn as [Hq Hn]. constructor; [|by apply IH]. intros Hin. apply Hq.
  apply list_elem_of_In, in_map_iff in Hin as (q' & E & Hq'). apply list_elem_of_In, in_map_iff.
  exists q'. split; [|done]. unfold pair_key, pair_labels in *. by injection E as -> -> ->.
Qed.

(** ** Concrete runs *)
Module HashLogExamples.
Definition txt (s : string) : bytes := String.list_ascii_of_string s.
Definition nl : string := String NL EmptyString.
Definition header_line := "block_number,blockHash,changeset,resultHash,memIAVL/mod/bank" +:+ nl.
Definition line (h bank : string) := h +:+ ",b,c,r," +:+ bank +:+ nl.
(** A file that gets its second row in two writes. *)
Definition growing (t : nat) : bytes :=
  txt (match t with
       | O => header_line +:+ line "7" "x" +:+ "8,b,"
       | _ => header_line +:+ line "7" "x" +:+ line "8" "y"
       end).
Definition growing_source : Source := {|
  ListHashLog _ := inr [mkFile "1-v1.hlog.u" 1 0 false];
  ReadHashLogFile t _ off := inr (drop (Z.to_nat off) (growing t));
  ReadHashLogHead t _ n := inr (take (Z.to_nat n) (growing t));
|}.
Lemma growing_prefix t t' : t <= t' -> growing t `prefix_of` growing t'.
Proof.
  intros Ht. destruct t as [|t], t' as [|t']; [done| |lia|done]. exists (txt ("c,r,y" +:+ nl)). by vm_compute.
Qed.
Definition active := mkFile "1-v1.hlog.u" 1 0 false.

(** A reserve that wrote another bank root at height 7. *)
Definition reserve_source : Source := {|
  ListHashLog _ := inr [active];
  ReadHashLogFile _ _ off := inr (drop (Z.to_nat off) (txt (header_line +:+ line "7" "z")));
  ReadHashLogHead _ _ n := inr (take (Z.to_nat n) (txt (header_line +:+ line "7" "z")));
|}.
Definition fresh := mkRunner NewReader NewReader newPairState.
Definition bank_diverged := mkMismatch 7 ["memIAVL/mod/bank"].

Lemma divergence_is_real_witness :
  MismatchMetric bank_diverged ∈ (run_pair growing_source reserve_source (fun _ _ => false) [(0, 100%Z)] fresh).2 /\
  exists rm rr a b,
    rm ∈ returned growing_source reserve_source (fun _ _ => false) [(0, 100%Z)] fresh Migrating /\
    rr ∈ returned growing_source reserve_source (fun _ _ => false) [(0, 100%Z)] fresh Reserve /\
    rw_Height rm = 7%Z /\ rw_Height rr = 7%Z /\
    ComparableHashes (rw_Hashes rm) = Ok a /\ ComparableHashes (rw_Hashes rr) = Ok b /\
    a <> b /\ ["memIAVL/mod/bank"] = differingColumns a b.
Proof.
  assert (Hin : MismatchMetric bank_diverged ∈
    (run_pair growing_source reserve_source (fun _ _ => false) [(0, 100%Z)] fresh).2)
    by (apply list_elem_of_In; vm_compute; auto 6).
  split; [exact Hin|].
  apply (divergence_is_real growing_source reserve_source (fun _ _ => false) [(0, 100%Z)] bank_diverged); [|exact Hin].
  intros side rw Hrw. apply list_elem_of_In in Hrw.
  destruct side; vm_compute in Hrw; repeat (destruct Hrw as [<-|Hrw]; [reflexivity|]); destruct Hrw.
Defined.

Definition one_pair :=
  [mkPairConfig "pacific-1" (mkEndpoint "sei" "node-1" "") (mkEndpoint "sei" "node-2" "");
   mkPairConfig "pacific-1" (mkEndpoint "sei" "node-1" "") (mkEndpoint "" "" "http://reserve")].
Lemma validated_pairs_distinct_witness :
  one_pair <> [] /\ NoDup (map pair_labels one_pair) /\
  Forall (fun p => pc_Chain p <> "" /\ Label (pc_Migrating p) <> Label (pc_Reserve p)) one_pair.
Proof. apply (validated_pairs_distinct one_pair). vm_compute. reflexivity. Defined.
End HashLogExamples.
