(* ===== verification/HashServer.v ===== *)
(** * Serving a node's hash log (src/sidecar/server/hashlog.go, src/sidecarapi/client/client.go)

    The sidecar lists the hash-log files of its node and serves their bytes, and
    the client turns its answers into the [Source] the reader of [HashReader]
    relies on. The directory, which the node writes, is a parameter. *)

From stdpp Require Import base list strings gmap sorting pretty.
From Stdlib Require Import ZArith Lia Sorted.
From S2P Require Import Prelude Config HashLog HashReader.

(** ** File names *)
Definition dash_c : Ascii.ascii := Ascii.ascii_of_nat 45.
Definition dot_c : Ascii.ascii := Ascii.ascii_of_nat 46.
Definition slash_c : Ascii.ascii := Ascii.ascii_of_nat 47.
Definition underscore_c : Ascii.ascii := Ascii.ascii_of_nat 95.

(** [\d+], then one character that is not a digit: the digits and the rest. *)
Definition number_dash (s : string) : option (string * string) :=
  match span_digits s with
  | (EmptyString, _) => None
  | (d, String c r) => if Ascii.eqb c dash_c then Some (d, r) else None
  | (_, EmptyString) => None
  end.
(** [A-Za-z0-9._] *)
Definition version_char (c : Ascii.ascii) : bool :=
  let n := Ascii.nat_of_ascii c in
  is_digit c || ((65 <=? n) && (n <=? 90)) || ((97 <=? n) && (n <=? 122)) || Ascii.eqb c dot_c || Ascii.eqb c underscore_c.
(** [[A-Za-z0-9._]+] and then [suffix], to the end of the name: the class has every
    character of the suffix, so what matters is its length. *)
Definition version_suffix (suffix s : string) : bool :=
  str_forall version_char s && (String.length suffix <? String.length s)%nat &&
  (String.substring (String.length s - String.length suffix) (String.length suffix) s =s suffix).

Definition sealedHashLogName (name : string) : option string :=
  match number_dash name with
  | Some (d, r) =>
      match number_dash r with
      | Some (_, r') =>
          match number_dash r' with
          | Some (_, v) => if version_suffix ".hlog" v then Some d else None
          | None => None
          end
      | None => None
      end
  | None => None
  end.
Definition unsealedHashLogName (name : string) : option string :=
  match number_dash name with
  | Some (d, v) => if version_suffix ".hlog.u" v then Some d else None
  | None => None
  end.

(** [strconv.ParseUint(s, 10, 64)] *)
Definition ParseUint (s : string) : option Z :=
  match unsigned_int s with
  | Some n => if (n <? 2 ^ 64)%Z then Some n else None
  | None => None
  end.

(** [parseHashLogName]: the index, and whether the file is sealed. *)
Definition parseHashLogName (name : string) : option (Z * bool) :=
  match sealedHashLogName name with
  | Some d => (fun i => (i, true)) <$> ParseUint d
  | None => match unsealedHashLogName name with
            | Some d => (fun i => (i, false)) <$> ParseUint d
            | None => None
            end
  end.

(** ** The directory and the handlers *)
Inductive file_info := InfoSize (size : Z) | InfoNotExist | InfoErr (e : string).
Record dir_entry := mkEntry { de_Name : string; de_Regular : bool; de_Info : file_info }.
Inductive dir_read := DirEntries (es : list dir_entry) | DirNotExist | DirErr (e : string).
Inductive file_open := FileBytes (content : bytes) | FileNotExist | FileErr (e : string) | FileStatErr (e : string).

(** The node's hash-log directory at a time. *)
Class HashLogDir := {
  ReadDir : nat -> dir_read;
  Open : nat -> string -> file_open;
}.

Inductive list_response := ListOk (files : list HashLogFile) | ListStatus (status : Z) (msg : string).
Inductive file_response := FileOk (status : Z) (body : bytes) | FileStatus (status : Z) (msg : string).

(** Files by index. *)
Definition index_le (a b : HashLogFile) : Prop := (hf_Index a <= hf_Index b)%Z.
#[global] Instance index_le_dec a b : Decision (index_le a b).
Proof. unfold index_le. apply _. Defined.
#[global] Instance index_le_total : Total index_le.
Proof. intros a b. unfold index_le. lia. Qed.
#[global] Instance index_le_trans : Transitive index_le.
Proof. intros a b c. unfold index_le. lia. Qed.

Fixpoint listEntries (es : list dir_entry) : result (list HashLogFile) :=
  match es with
  | [] => Ok []
  | e :: es' =>
      if negb (de_Regular e) then listEntries es'
      else match parseHashLogName (de_Name e) with
           | None => listEntries es'
           | Some (index, sealed) =>
               match de_Info e with
               | InfoNotExist => listEntries es'
               | InfoErr err => Err ("reading hash log file info: " +:+ err)
               | InfoSize size =>
                   match listEntries es' with
                   | Err err => Err err
                   | Ok files => Ok (mkFile (de_Name e) index size sealed :: files)
                   end
               end
           end
  end.

(** A requested byte range: from an offset to the end, or the first bytes. *)
Inductive range := NoRange | RangeFrom (off : Z) | RangeHead (last : Z).
(** [http.ServeContent] on a file of these bytes. *)
Definition ServeContent (rg : range) (content : bytes) : file_response :=
  let size := Z.of_nat (length content) in
  match rg with
  | NoRange => FileOk 200 content
  | RangeFrom off =>
      if (size <=? off)%Z then if (size =? 0)%Z then FileOk 200 [] else FileStatus 416 "invalid range: failed to overlap"
      else FileOk 206 (drop (Z.to_nat off) content)
  | RangeHead last =>
      if (size =? 0)%Z then FileOk 200 [] else FileOk 206 (take (Z.to_nat (last + 1)) content)
  end.

Section Handlers.
Context `{HashLogDir}.
Definition handleListHashLog (t : nat) : list_response :=
  match ReadDir t with
  | DirNotExist => ListStatus 404 "hash log directory not found"
  | DirErr e => ListStatus 500 ("reading hash log directory: " +:+ e)
  | DirEntries es =>
      match listEntries es with
      | Err e => ListStatus 500 e
      | Ok files => ListOk (merge_sort index_le files)
      end
  end.

Definition handleGetHashLogFile (t : nat) (name : string) (rg : range) : file_response :=
  match parseHashLogName name with
  | None => FileStatus 400 "not a hash log file name"
  | Some _ =>
      match Open t name with
      | FileNotExist => FileStatus 404 "hash log file not found"
      | FileErr e => FileStatus 500 ("opening hash log file: " +:+ e)
      | FileStatErr e => FileStatus 500 ("reading hash log file info: " +:+ e)
      | FileBytes content => ServeContent rg content
      end
  end.

(** ** The client *)
Definition client_ListHashLog (t : nat) : read_error + list HashLogFile :=
  match handleListHashLog t with
  | ListOk files => inr files
  | ListStatus status msg =>
      if (status =? 404)%Z then inl ErrHashLogNotFound
      else inl (errOther ("sidecar hash log list returned " +:+ pretty status +:+ ": " +:+ msg))
  end.
Definition readHashLog (t : nat) (name : string) (rg : range) : read_error + bytes :=
  match handleGetHashLogFile t name rg with
  | FileOk _ body => inr body
  | FileStatus status msg =>
      if (status =? 416)%Z then inr []
      else if (status =? 404)%Z then inl ErrHashLogNotFound
      else inl (errOther ("sidecar hash log file " +:+ name +:+ " returned " +:+ pretty status +:+ ": " +:+ msg))
  end.
Definition client_ReadHashLogFile (t : nat) (name : string) (offset : Z) : read_error + bytes :=
  if (offset <? 0)%Z then inl (errOther ("hash log read offset " +:+ pretty offset +:+ " is negative"))
  else readHashLog t name (if (0 <? offset)%Z then RangeFrom offset else NoRange).
Definition client_ReadHashLogHead (t : nat) (name : string) (len : Z) : read_error + bytes :=
  if (len <=? 0)%Z then inl (errOther ("hash log head length " +:+ pretty len +:+ " is not positive"))
  else match readHashLog t name (RangeHead (len - 1)) with
       | inr data => inr (if (len <? Z.of_nat (length data))%Z then take (Z.to_nat len) data else data)
       | inl e => inl e
       end.

(** The client as the reader's source. *)
#[global] Instance sidecar_source : Source := {|
  ListHashLog := client_ListHashLog;
  ReadHashLogFile := client_ReadHashLogFile;
  ReadHashLogHead := client_ReadHashLogHead;
|}.
End Handlers.

(** ** File names stay in the directory *)
Definition name_char (c : Ascii.ascii) : bool := version_char c || Ascii.eqb c dash_c.

Lemma span_digits_spec s : s = (span_digits s).1 +:+ (span_digits s).2 /\ str_forall is_digit (span_digits s).1 = true.
Proof.
  induction s as [|c s [IH1 IH2]]; [done|]. simpl. destruct (is_digit c) eqn:E; [|done].
  destruct (span_digits s) as [d r]. simpl in *. rewrite E, IH2. by rewrite IH1 at 1.
Qed.
Lemma digit_name c : is_digit c = true -> name_char c = true.
Proof. intros H. unfold name_char, version_char. by rewrite H. Qed.
Lemma version_name c : version_char c = true -> name_char c = true.
Proof. intros H. unfold name_char. by rewrite H. Qed.

(** The number is not empty, and the rest follows its dash. *)
Lemma number_dash_spec s d r : number_dash s = Some (d, r) ->
  s = d +:+ String dash_c r /\ d <> "" /\ str_forall is_digit d = true.
Proof.
  unfold number_dash. destruct (span_digits_spec s) as [E Hd]. destruct (span_digits s) as [d' r'].
  simpl in *. destruct d' as [|c d']; [done|]. destruct r' as [|c' r']; [done|].
  destruct (Ascii.eqb_spec c' dash_c) as [->|]; [|done]. intros H. by injection H as <- <-.
Qed.
Lemma number_dash_chars s d r :
  number_dash s = Some (d, r) -> str_forall name_char r = true -> str_forall name_char s = true.
Proof.
  intros (-> & _ & Hd)%number_dash_spec Hr. rewrite str_forall_app. cbn [str_forall]. rewrite Hr.
  by rewrite (str_forall_impl _ _ _ digit_name Hd).
Qed.
Lemma version_suffix_chars suf s : version_suffix suf s = true -> str_forall name_char s = true.
Proof. unfold version_suffix. intros [[H _]%andb_true_iff _]%andb_true_iff. by apply (str_forall_impl _ _ _ version_name). Qed.

Lemma sealed_chars name d : sealedHashLogName name = Some d -> str_forall name_char name = true.
Proof.
  unfold sealedHashLogName. destruct (number_dash name) as [[d1 r1]|] eqn:E1; [|done].
  destruct (number_dash r1) as [[d2 r2]|] eqn:E2; [|done]. destruct (number_dash r2) as [[d3 v]|] eqn:E3; [|done].
  destruct (version_suffix _ v) eqn:Ev; [|done]. intros _. eauto using number_dash_chars, version_suffix_chars.
Qed.
Lemma unsealed_chars name d : unsealedHashLogName name = Some d -> str_forall name_char name = true.
Proof.
  unfold unsealedHashLogName. destruct (number_dash name) as [[d1 v]|] eqn:E1; [|done].
  destruct (version_suffix _ v) eqn:Ev; [|done]. intros _. eauto using number_dash_chars, version_suffix_chars.
Qed.
Lemma parsed_chars name x : parseHashLogName name = Some x -> str_forall name_char name = true.
Proof.
  unfold parseHashLogName. destruct (sealedHashLogName name) eqn:E1; [intros _; by eapply sealed_chars|].
  destruct (unsealedHashLogName name) eqn:E2; [intros _; by eapply unsealed_chars|done].
Qed.
Lemma parsed_first_digit name x : parseHashLogName name = Some x ->
  exists c s, name = String c s /\ is_digit c = true.
Proof.
  assert (Hn : forall d r, number_dash name = Some (d, r) -> exists c s, name = String c s /\ is_digit c = true).
  { intros d r (-> & Hd & Hdig)%number_dash_spec. destruct d as [|c d]; [done|]. simpl in Hdig.
    apply andb_true_iff in Hdig as [Hc _]. simpl. eauto. }
  unfold parseHashLogName, sealedHashLogName, unsealedHashLogName.
  destruct (number_dash name) as [[d r]|] eqn:E; [|done]. intros _. by eapply Hn.
Qed.

Fixpoint has_char (c : Ascii.ascii) (s : string) : bool :=
  match s with EmptyString => false | String d s' => Ascii.eqb d c || has_char c s' end.
Lemma str_forall_no_char f c s : f c = false -> str_forall f s = true -> has_char c s = false.
Proof.
  intros Hc. induction s as [|d s IH]; [done|]. simpl. intros [Hd Hs]%andb_true_iff. rewrite IH by done.
  destruct (Ascii.eqb_spec d c) as [->|]; [congruence|done].
Qed.

(** Property: The sidecar opens a file only under a name that stays in its hash-log
    directory: no path separator, and a digit first, so never the parent; any
    other request is refused before the file system is asked. *)
Theorem hash_log_reads_stay_local `{HashLogDir} t name rg :
  (exists msg, handleGetHashLogFile t name rg = FileStatus 400 msg) \/
  (has_char slash_c name = false /\ exists c s, name = String c s /\ is_digit c = true).
Proof.
  unfold handleGetHashLogFile. destruct (parseHashLogName name) as [x|] eqn:E; [|by left; eexists]. right. split.
  - eapply (str_forall_no_char name_char); [done|by eapply parsed_chars].
  - by eapply parsed_first_digit.
Qed.

(** ** What the client promises its reader *)

(** A read is the bytes of the file from the offset, none past its end. *)
Lemma client_reads `{HashLogDir} t name off content :
  is_Some (parseHashLogName name) -> Open t name = FileBytes content -> (0 <= off)%Z ->
  client_ReadHashLogFile t name off = inr (drop (Z.to_nat off) content).
Proof.
  intros [x Hx] Ho Hoff. unfold client_ReadHashLogFile, readHashLog, handleGetHashLogFile.
  rewrite (proj2 (Z.ltb_ge _ _) Hoff), Hx, Ho. destruct (Z.ltb_spec 0 off); simpl.
  - destruct (Z.leb_spec (Z.of_nat (length content)) off) as [Hle|]; [|done].
    assert (Hd : drop (Z.to_nat off) content = []) by (apply drop_ge; lia). rewrite Hd. by destruct (_ =? 0)%Z.
  - by replace off with 0%Z by lia.
Qed.
Lemma client_reads_head `{HashLogDir} t name len content :
  is_Some (parseHashLogName name) -> Open t name = FileBytes content -> (0 < len)%Z ->
  client_ReadHashLogHead t name len = inr (take (Z.to_nat len) content).
Proof.
  intros [x Hx] Ho Hlen. unfold client_ReadHashLogHead, readHashLog, handleGetHashLogFile.
  rewrite (proj2 (Z.leb_gt _ _) Hlen), Hx, Ho. simpl. replace (len - 1 + 1)%Z with len by lia.
  destruct (Z.eqb_spec (Z.of_nat (length content)) 0) as [E|E].
  - destruct content; [|done]. rewrite take_nil. by destruct (len <? _)%Z.
  - destruct (len <? _)%Z; [|done]. by rewrite take_take, Nat.min_id.
Qed.

Lemma listEntries_parsed es files : listEntries es = Ok files ->
  Forall (fun f => parseHashLogName (hf_Name f) = Some (hf_Index f, hf_Sealed f) /\
                   exists e, e ∈ es /\ de_Name e = hf_Name f /\ de_Regular e = true /\ de_Info e = InfoSize (hf_Size f)) files.
Proof.
  revert files. induction es as [|e es IH]; intros files E; simpl in E; [by injection E as <-|].
  assert (Hw : forall fs, listEntries es = Ok fs -> Forall (fun f => parseHashLogName (hf_Name f) = Some (hf_Index f, hf_Sealed f) /\
    exists e', e' ∈ e :: es /\ de_Name e' = hf_Name f /\ de_Regular e' = true /\ de_Info e' = InfoSize (hf_Size f)) fs).
  { intros fs Hfs. eapply Forall_impl; [by apply IH|]. simpl. intros f (Hp & e' & Hin & ?). split; [done|].
    exists e'. split; [by right|done]. }
  destruct (de_Regular e) eqn:Er; simpl in E; [|by apply Hw].
  destruct (parseHashLogName (de_Name e)) as [[i sd]|] eqn:Ep; [|by apply Hw].
  destruct (de_Info e) as [sz| |err] eqn:Ei; [|by apply Hw|done].
  destruct (listEntries es) as [fs|]; [|done]. injection E as <-. constructor; [|by apply Hw].
  simpl. split; [done|]. exists e. split_and!; [by left|done..].
Qed.

Lemma listEntries_complete es files : listEntries es = Ok files ->
  forall e i sd, e ∈ es -> de_Regular e = true -> parseHashLogName (de_Name e) = Some (i, sd) ->
    (exists f, f ∈ files /\ hf_Name f = de_Name e) \/ de_Info e = InfoNotExist.
Proof.
  revert files. induction es as [|e es IH]; intros files E e' i sd Hin Hr Hp; [by apply elem_of_nil in Hin|].
  simpl in E. apply elem_of_cons in Hin as [->|Hin].
  - rewrite Hr, Hp in E. simpl in E. destruct (de_Info e) as [sz| |]; [|by right|done].
    destruct (listEntries es); [|done]. injection E as <-. left. eexists. split; [by left|done].
  - assert (Hw : forall fs, listEntries es = Ok fs -> (exists f, f ∈ fs /\ hf_Name f = de_Name e') \/ de_Info e' = InfoNotExist)
      by (intros fs Hfs; by eapply IH).
    destruct (negb (de_Regular e)); [by apply Hw|]. destruct (parseHashLogName (de_Name e)) as [[j s']|]; [|by apply Hw].
    destruct (de_Info e); [|by apply Hw|done]. destruct (listEntries es) as [fs|]; [|done]. injection E as <-.
    destruct (Hw fs eq_refl) as [(f & Hf & Hn)|]; [|by right]. left. exists f. split; [by right|done].
Qed.

(** Property: The listing is in file-index order and holds exactly the hash-log files of
    the directory that are still there: every entry is a regular file with the
    index and the sealed flag its name says. *)
Theorem listing_in_index_order `{HashLogDir} t files :
  handleListHashLog t = ListOk files ->
  Sorted index_le files /\
  exists es, ReadDir t = DirEntries es /\
    Forall (fun f => parseHashLogName (hf_Name f) = Some (hf_Index f, hf_Sealed f) /\
      exists e, e ∈ es /\ de_Name e = hf_Name f /\ de_Regular e = true /\ de_Info e = InfoSize (hf_Size f)) files /\
    (forall e i sd, e ∈ es -> de_Regular e = true -> parseHashLogName (de_Name e) = Some (i, sd) ->
       (exists f, f ∈ files /\ hf_Name f = de_Name e) \/ de_Info e = InfoNotExist).
Proof.
  unfold handleListHashLog. destruct (ReadDir t) as [es| |] eqn:Er; [|done|done].
  destruct (listEntries es) as [fs|] eqn:El; [|done]. intros E. injection E as <-.
  split; [apply Sorted_merge_sort; apply _|]. exists es. split; [done|]. split.
  - rewrite merge_sort_Permutation. by apply listEntries_parsed.
  - setoid_rewrite merge_sort_Permutation. by apply listEntries_complete.
Qed.

Lemma sorted_strict files :
  NoDup (map hf_Index files) ->
  StronglySorted (fun f g => (hf_Index f < hf_Index g)%Z) (merge_sort index_le files).
Proof.
  intros Hn. assert (Hs : StronglySorted index_le (merge_sort index_le files)) by (apply StronglySorted_merge_sort; apply _).
  assert (Hn' : NoDup (map hf_Index (merge_sort index_le files))).
  { by rewrite (Permutation_map hf_Index (merge_sort_Permutation index_le files)). }
  induction Hs as [|f l Hl IH Hf]; [constructor|]. simpl in Hn'. apply NoDup_cons in Hn' as [Hx Hn'].
  constructor; [by apply IH|]. apply List.Forall_forall. intros g Hg. eapply List.Forall_forall in Hf; [|exact Hg].
  unfold index_le in Hf. assert (hf_Index f <> hf_Index g); [|lia].
  intros E. apply Hx. rewrite E. by apply list_elem_of_In, in_map.
Qed.

(** C38: However often a reader polls the sidecar while the node appends to its open
    file, it returns exactly the rows of the complete lines the file holds at the
    last poll, from where it started: each row once, in order, and a line that is
    half written when it is read comes whole in a later poll. *)
Theorem tail_equals_batch `{HashLogDir} (file : nat -> bytes) name ts t r h data :
  is_Some (parseHashLogName name) -> (forall t, Open t name = FileBytes (file t)) ->
  (forall t t', t <= t' -> file t `prefix_of` file t') ->
  Sorted le (t :: ts) -> at_line r (file t) -> rd_name r = name -> rd_sealed r = false ->
  unread r (file t) = Some (h, data) ->
  exists data', unread r (file (List.last ts t)) = Some (h, data') /\
    total (polls (t :: ts) r).1 = parseRows h (complete data') /\
    Forall (fun p => po_err p = None) (polls (t :: ts) r).1.
Proof.
  intros Hp Ho Hg. apply polls_tail; [|exact Hg]. intros t' off Hoff. by apply client_reads.
Qed.

(** Property: One poll of a reader that is behind returns the rest of its file and all the
    files after it in file-index order, however the directory lists them, if they
    are at most sixteen; it ends in the newest file, where it waits for more. *)
Theorem node_log_read_in_order `{HashLogDir} es files content pre f rest t r :
  (forall t, ReadDir t = DirEntries es) -> listEntries es = Ok files -> NoDup (map hf_Index files) ->
  (forall t f, f ∈ files -> Open t (hf_Name f) = FileBytes (content (hf_Name f))) ->
  merge_sort index_le files = pre ++ f :: rest -> length rest < maxReadsPerPoll ->
  in_file content r f -> is_Some (unread r (content (hf_Name f))) ->
  (hf_Sealed f = true -> whole (content (hf_Name f))) -> Forall (sound_file content) rest ->
  Forall (fun g => hf_Sealed g = true) (removelast (f :: rest)) ->
  exists r' t', Poll t r = (mkPoll (backlog content r f rest ≫= fst)
                              (list_sum (map snd (backlog content r f rest))) None, r', t') /\
    in_file content r' (List.last rest f).
Proof.
  intros Hdir Hl Hn Ho Hfs. apply (poll_backlog (merge_sort index_le files) content) with (pre := pre); [..|exact Hfs].
  - intros t'. simpl. unfold client_ListHashLog, handleListHashLog. by rewrite Hdir, Hl.
  - by apply sorted_strict.
  - intros t' g off Hg Hoff. rewrite merge_sort_Permutation in Hg. apply client_reads; [|by apply Ho|done].
    pose proof (listEntries_parsed _ _ Hl) as Hp. eapply Forall_forall in Hp; [|exact Hg]. by destruct Hp as [-> _].
Qed.

(** ** Concrete runs *)
Module HashServerExamples.
Import HashLogExamples.
Definition growing_dir : HashLogDir := {|
  ReadDir _ := DirEntries [mkEntry "1-v1.hlog.u" true (InfoSize 0)];
  Open t _ := FileBytes (growing t);
|}.
Lemma tail_equals_batch_witness :
  exists data h, unread (opened active) (growing 1) = Some (h, data) /\
    map rw_Height (total (@polls (@sidecar_source growing_dir) [0; 1] (opened active)).1).1 = [7%Z; 8%Z] /\
    total (@polls (@sidecar_source growing_dir) [0; 1] (opened active)).1 = parseRows h (complete data).
Proof.
  destruct (@tail_equals_batch growing_dir growing "1-v1.hlog.u" [1] 0 (opened active)
    (match unread (opened active) (growing 0) with Some (h, _) => h | None => [] end)
    (match unread (opened active) (growing 0) with Some (_, d) => d | None => [] end)) as (d & Hd & Ht & _).
  - vm_compute. eexists. reflexivity.
  - reflexivity.
  - apply growing_prefix.
  - repeat constructor.
  - apply at_line_opened.
  - reflexivity.
  - reflexivity.
  - vm_compute; reflexivity.
  - eexists d, _. split; [exact Hd|]. split; [vm_compute; reflexivity|exact Ht].
Defined.

Definition two_content (name : string) : bytes :=
  if name =s "1-7-7-v1.hlog" then txt (header_line +:+ line "7" "x") else txt (header_line +:+ line "8" "y" +:+ "9,").
(** A directory with a file that is not a hash log, the open file and a sealed one. *)
Definition two_entries :=
  [mkEntry "notes.txt" true (InfoSize 1); mkEntry "2-v1.hlog.u" true (InfoSize 0); mkEntry "1-7-7-v1.hlog" true (InfoSize 0)].
Definition two_dir : HashLogDir := {|
  ReadDir _ := DirEntries two_entries;
  Open _ name := FileBytes (two_content name);
|}.
Definition first_file := mkFile "1-7-7-v1.hlog" 1 0 true.
Definition open_file := mkFile "2-v1.hlog.u" 2 0 false.

Lemma node_log_read_in_order_witness :
  map rw_Height (po_rows (@Poll (@sidecar_source two_dir) 0 (opened first_file)).1.1) = [7%Z; 8%Z] /\
  exists r' t', @Poll (@sidecar_source two_dir) 0 (opened first_file) =
    (mkPoll (backlog two_content (opened first_file) first_file [open_file] ≫= fst)
       (list_sum (map snd (backlog two_content (opened first_file) first_file [open_file]))) None, r', t').
Proof.
  split; [vm_compute; reflexivity|].
  destruct (@node_log_read_in_order two_dir two_entries [open_file; first_file] two_content [] first_file [open_file]
              0 (opened first_file)) as (r' & t' & E & _).
  - reflexivity.
  - vm_compute. reflexivity.
  - apply (bool_decide_unpack _). vm_compute. exact I.
  - reflexivity.
  - vm_compute. reflexivity.
  - simpl. unfold maxReadsPerPoll. lia.
  - split; [reflexivity|]. split; [reflexivity|]. split; [reflexivity|]. apply at_line_opened.
  - vm_compute. eexists. reflexivity.
  - intros _. vm_compute. reflexivity.
  - constructor; [|constructor]. split; [vm_compute; eexists; reflexivity|discriminate].
  - repeat constructor.
  - exists r', t'. exact E.
Defined.

Lemma listing_in_index_order_witness :
  @handleListHashLog two_dir 0 = ListOk [first_file; open_file] /\ Sorted index_le [first_file; open_file].
Proof.
  split; [vm_compute; reflexivity|].
  refine (proj1 (@listing_in_index_order two_dir 0 [first_file; open_file] _)). vm_compute. reflexivity.
Defined.
End HashServerExamples.
