(* ===== verification/TomlPatch.v ===== *)
(** * Merge patches and genesis overrides
    (src/sidecarapi/tomlpatch/merge.go, file.go, src/sidecar/tasks/genesis_overrides.go)

    The documents are the maps of Config.v: a Go map is an association list
    whose keys are distinct, gone through in list order where the code ranges
    over it. What [Merge] makes of a patch is read off path by path, so the
    order does not matter to it; it does to the genesis overrides, which is a
    finding. *)

From stdpp Require Import base list strings pretty sets.
From Stdlib Require Import ZArith Lia Ascii.
From S2P Require Import Prelude Api Platform Config.

(** ** Maps: deletion and distinct keys *)

(** [delete(m, k)] *)
Definition tbl_delete {A} (k : string) (t : list (string * A)) : list (string * A) :=
  filter (fun e => e.1 <> k) t.
Definition keys {A} (t : list (string * A)) : list string := t.*1.

(** ** The merge (merge.go) *)
Fixpoint Merge (original patch : jval) {struct patch} : jval :=
  match patch with
  | JObj patchMap =>
      let originalMap := match original with JObj m => m | _ => [] end in
      JObj ((fix go (l : table) (result : table) : table :=
        match l with
        | [] => result
        | (key, patchAt) :: l' =>
            go l' (match patchAt with
                   | JNull => tbl_delete key result
                   | _ => match tbl_lookup key result with
                          | Some originalAt => tbl_set key (Merge originalAt patchAt) result
                          | None => tbl_set key patchAt result
                          end
                   end)
        end) patchMap originalMap)
  | _ => patch
  end.

(** What [Merge] does for one key of the patch, and for its map. *)
Definition merge_key (patchAt : jval) (key : string) (result : table) : table :=
  match patchAt with
  | JNull => tbl_delete key result
  | _ => match tbl_lookup key result with
         | Some originalAt => tbl_set key (Merge originalAt patchAt) result
         | None => tbl_set key patchAt result
         end
  end.
Fixpoint merge_map (patchMap result : table) : table :=
  match patchMap with
  | [] => result
  | (key, patchAt) :: l => merge_map l (merge_key patchAt key result)
  end.
Definition members (v : jval) : table := match v with JObj m => m | _ => [] end.

(** ** One value of a section (file.go) *)
Definition SetNestedValue (doc : table) (section key : string) (value : jval) : table :=
  match tbl_lookup section doc with
  | Some (JObj sec) => tbl_set section (JObj (tbl_set key value sec)) doc
  | _ => tbl_set section (JObj [(key, value)]) doc
  end.

(** ** Values by path *)
Fixpoint at_path (path : list string) (v : jval) : option jval :=
  match path with
  | [] => Some v
  | k :: path' => v' ← tbl_lookup k (members v); at_path path' v'
  end.

(** Every map of the value has distinct keys. *)
Fixpoint distinct (v : jval) : bool :=
  match v with
  | JObj l => bool_decide (NoDup (keys l)) &&
      (fix go (l : table) : bool := match l with [] => true | (_, w) :: l' => distinct w && go l' end) l
  | JArr l => forallb distinct l
  | _ => true
  end.

(** What a patch says about a path: it does not mention it, deletes it or one
    of the maps it lies in, gives its value, or only descends to it. *)
Inductive verdict := Keeps | Deletes | Gives (v : jval) | Descends.
Fixpoint says (path : list string) (patch : jval) : verdict :=
  match path, patch with
  | _, JNull => Deletes
  | [], JObj _ => Descends
  | [], _ => Gives patch
  | k :: path', JObj m => match tbl_lookup k m with None => Keeps | Some w => says path' w end
  | _ :: _, _ => Deletes
  end.

(** ** Genesis overrides (genesis_overrides.go)

    A [json.RawMessage] is the value its text parses to. What [json.Unmarshal]
    and [json.Marshal] make of a value is what the code uses of them: an object
    becomes a map where a later member replaces an earlier one, [null] the nil
    map; anything else fails, as does a text that is no JSON. *)
Definition state_map := list (string * raw_json).

Class JsonTexts := {
  unmarshal_text : raw_json -> string;
  marshal_text : string;
}.

Definition members_map (l : table) : state_map :=
  fold_left (fun m '(k, v) => tbl_set k (RawValue v) m) l [].

(** [var m map[string]json.RawMessage; json.Unmarshal(raw, &m)], and the empty
    map for the nil one. *)
Definition Unmarshal `{JsonTexts} (raw : raw_json) : result state_map :=
  match raw with
  | RawValue (JObj l) => Ok (members_map l)
  | RawValue JNull => Ok []
  | _ => Err (unmarshal_text raw)
  end.

(** [json.Marshal] of such a map; a nil message is written as [null]. *)
Fixpoint Marshal_members `{JsonTexts} (m : state_map) : result table :=
  match m with
  | [] => Ok []
  | (k, raw) :: m' =>
      match raw with
      | RawMalformed => Err marshal_text
      | RawNone => l ← Marshal_members m'; Ok ((k, JNull) :: l)
      | RawValue v => l ← Marshal_members m'; Ok ((k, v) :: l)
      end
  end.
Definition Marshal `{JsonTexts} (m : state_map) : result raw_json :=
  l ← Marshal_members m; Ok (RawValue (JObj l)).

(** The object a segment leads to; a missing one is created. *)
Definition childOf `{JsonTexts} (state : state_map) (head originalKey : string) : result state_map :=
  match tbl_lookup head state with
  | None | Some (RawValue JNull) => Ok []
  | Some raw =>
      wrap_err ("genesis-overrides: key " +:+ quote originalKey +:+
                " traverses non-object at segment " +:+ quote head +:+ ": ") (Unmarshal raw)
  end.

Fixpoint setNestedRaw `{JsonTexts} (state : state_map) (path : list string) (value : raw_json)
    (originalKey : string) {struct path} : result state_map :=
  match path with
  | [] => Err ("genesis-overrides: key " +:+ quote originalKey +:+ " has no field path under module")
  | [leaf] => Ok (tbl_set leaf value state)
  | head :: rest =>
      child ← childOf state head originalKey;
      child ← setNestedRaw child rest value originalKey;
      childBz ← wrap_err ("genesis-overrides: re-marshaling intermediate " +:+ quote head +:+
                          " for key " +:+ quote originalKey +:+ ": ") (Marshal child);
      Ok (tbl_set head childBz state)
  end.

(** The index of the first empty segment. *)
Fixpoint empty_segment (i : nat) (parts : list string) : option nat :=
  match parts with
  | [] => None
  | p :: parts' => if p =s "" then Some i else empty_segment (S i) parts'
  end.

(** One round of the loop over the overrides. *)
Definition applyOverride `{JsonTexts} (key : string) (value : raw_json) (appState : state_map) : result state_map :=
  if key =s "" then Err "genesis-overrides: empty key" else
  let parts := split_on "." key in
  match parts with
  | module :: ((_ :: _) as path) =>
      match empty_segment 0 parts with
      | Some i => Err ("genesis-overrides: key " +:+ quote key +:+ " has empty segment at index " +:+ pretty i)
      | None =>
          match value with
          | RawNone => Err ("genesis-overrides: key " +:+ quote key +:+ " has empty value")
          | _ =>
              match tbl_lookup module appState with
              | None => Err ("genesis-overrides: unknown module " +:+ quote module +:+ " (key " +:+ quote key +:+
                             "); app_state has no such top-level key")
              | Some moduleRaw =>
                  moduleState ← wrap_err ("genesis-overrides: module " +:+ quote module +:+
                                          " is not a JSON object: ") (Unmarshal moduleRaw);
                  moduleState ← setNestedRaw moduleState path value key;
                  moduleBz ← wrap_err ("genesis-overrides: re-marshaling module " +:+ quote module +:+ ": ")
                                      (Marshal moduleState);
                  Ok (tbl_set module moduleBz appState)
              end
          end
      end
  | _ => Err ("genesis-overrides: key " +:+ quote key +:+ " must be of the form module.field[.field...]")
  end.

Fixpoint applyGenesisOverrides `{JsonTexts} (appState : state_map) (overrides : state_map) : result state_map :=
  match overrides with
  | [] => Ok appState
  | (key, value) :: rest =>
      appState ← applyOverride key value appState;
      applyGenesisOverrides appState rest
  end.

(** What a path reads in the app state, and what two paths share. *)
Definition read_state (path : list string) (appState : state_map) : option jval :=
  match path with
  | [] => None
  | module :: path' =>
      match tbl_lookup module appState with
      | Some (RawValue v) => at_path path' v
      | _ => None
      end
  end.
Definition apart (p q : list string) : Prop := ~ (p `prefix_of` q) /\ ~ (q `prefix_of` p).

(** ** Lemmas on maps *)
Lemma tbl_lookup_set {A} (k k' : string) (v : A) t :
  tbl_lookup k (tbl_set k' v t) = if k =s k' then Some v else tbl_lookup k t.
Proof.
  induction t as [|[k1 v1] t IH]; simpl; [done|].
  destruct (String.eqb k' k1) eqn:E1; simpl.
  - apply String.eqb_eq in E1 as ->. by destruct (k =s k1).
  - rewrite IH. destruct (String.eqb k k1) eqn:E2; [|done].
    apply String.eqb_eq in E2 as ->. by rewrite String.eqb_sym, E1.
Qed.
Lemma tbl_lookup_delete {A} (k k' : string) (t : list (string * A)) :
  tbl_lookup k (tbl_delete k' t) = if k =s k' then None else tbl_lookup k t.
Proof.
  unfold tbl_delete. induction t as [|[k1 v1] t IH]; [by destruct (k =s k')|].
  rewrite filter_cons. simpl. case_decide as Hd; simpl; rewrite IH.
  - destruct (String.eqb k k1) eqn:E1; [|done]. apply String.eqb_eq in E1 as ->.
    by rewrite (proj2 (String.eqb_neq k1 k') Hd).
  - assert (k1 = k') as -> by (destruct (String.string_dec k1 k'); tauto).
    by destruct (k =s k').
Qed.
Lemma tbl_lookup_keys {A} (k : string) (t : list (string * A)) : tbl_lookup k t = None <-> k ∉ keys t.
Proof.
  induction t as [|[k1 v1] t IH]; simpl; [set_solver|]. rewrite not_elem_of_cons, <- IH.
  destruct (String.eqb k k1) eqn:E; [apply String.eqb_eq in E|apply String.eqb_neq in E]; intuition congruence.
Qed.
Lemma keys_set {A} (k : string) (v : A) t :
  keys (tbl_set k v t) = if bool_decide (k ∈ keys t) then keys t else keys t ++ [k].
Proof.
  induction t as [|[k1 v1] t IH]; simpl; [done|]. destruct (String.eqb k k1) eqn:E; simpl.
  - apply String.eqb_eq in E as ->. by rewrite bool_decide_true by set_solver.
  - apply String.eqb_neq in E. rewrite IH. repeat case_bool_decide; try done; set_solver.
Qed.
Lemma keys_set_NoDup {A} (k : string) (v : A) t : NoDup (keys t) -> NoDup (keys (tbl_set k v t)).
Proof.
  intros H. rewrite keys_set. case_bool_decide; [done|]. apply NoDup_app. split_and!; [done| |apply NoDup_singleton].
  set_solver.
Qed.
Lemma tbl_set_Forall {A} (P : string * A -> Prop) k v t : P (k, v) -> Forall P t -> Forall P (tbl_set k v t).
Proof. intros Hv. induction 1 as [|[k1 v1]]; simpl; [by repeat constructor|]. by destruct (k =s k1); constructor. Qed.
Lemma tbl_lookup_Some_in {A} (k : string) (v : A) t : tbl_lookup k t = Some v -> (k, v) ∈ t.
Proof.
  induction t as [|[k1 v1] t IH]; simpl; [done|]. destruct (String.eqb k k1) eqn:E; [|set_solver].
  apply String.eqb_eq in E. intros [= ->]. subst. left.
Qed.

Lemma distinct_obj l :
  distinct (JObj l) = true <-> NoDup (keys l) /\ Forall (fun e => distinct e.2 = true) l.
Proof.
  simpl. rewrite andb_true_iff, bool_decide_eq_true. apply and_iff_compat_l.
  induction l as [|[k v] l IH]; [by split|]. rewrite andb_true_iff, Forall_cons, IH. done.
Qed.
Lemma distinct_member k w m : distinct (JObj m) = true -> tbl_lookup k m = Some w -> distinct w = true.
Proof.
  intros [_ H]%distinct_obj ?%tbl_lookup_Some_in. rewrite Forall_forall in H. by apply (H (k, w)).
Qed.

(** ** What a merge does *)
Lemma Merge_obj original m : Merge original (JObj m) = JObj (merge_map m (members original)).
Proof.
  simpl. change (match original with JObj m => m | _ => [] end) with (members original).
  generalize (members original) as r.
  induction m as [|[k v] m IH]; intros r; [reflexivity|]. apply IH.
Qed.
Lemma Merge_leaf original patch : (forall m, patch <> JObj m) -> Merge original patch = patch.
Proof. intros H. destruct patch; try reflexivity. by destruct (H l). Qed.

Lemma merge_key_lookup k key w r :
  tbl_lookup k (merge_key w key r) =
  if k =s key then
    match w with JNull => None | _ => Some (match tbl_lookup k r with Some v => Merge v w | None => w end) end
  else tbl_lookup k r.
Proof.
  unfold merge_key. destruct (String.eqb k key) eqn:E.
  - apply String.eqb_eq in E as ->.
    destruct w; [by rewrite tbl_lookup_delete, String.eqb_refl|..];
      destruct (tbl_lookup key r); by rewrite tbl_lookup_set, String.eqb_refl.
  - destruct w; [by rewrite tbl_lookup_delete, E|..];
      destruct (tbl_lookup key r); by rewrite tbl_lookup_set, E.
Qed.
Lemma merge_map_lookup m r k :
  NoDup (keys m) ->
  tbl_lookup k (merge_map m r) =
  match tbl_lookup k m with
  | None => tbl_lookup k r
  | Some JNull => None
  | Some w => Some (match tbl_lookup k r with Some v => Merge v w | None => w end)
  end.
Proof.
  revert r. induction m as [|[key w] m IH]; intros r Hnd; [done|].
  apply NoDup_cons in Hnd as [Hin Hnd]. simpl. rewrite IH, merge_key_lookup by done.
  destruct (String.eqb k key) eqn:E; [|done]. apply String.eqb_eq in E as ->.
  by rewrite (proj2 (tbl_lookup_keys key m) Hin).
Qed.

Lemma says_verbatim path patch :
  match says path patch with
  | Keeps => at_path path patch = None
  | Deletes => default JNull (at_path path patch) = JNull
  | Gives v => at_path path patch = Some v
  | Descends => exists m, at_path path patch = Some (JObj m)
  end.
Proof.
  revert patch. induction path as [|k path IH]; intros patch; [destruct patch; simpl; eauto|].
  destruct patch; simpl; try done. destruct (tbl_lookup k l) as [w|] eqn:E; simpl; [apply IH|done].
Qed.

(** A patch of one section. *)
Lemma says_section name key sec :
  says [name; key] (JObj [(name, JObj sec)]) = match tbl_lookup key sec with None => Keeps | Some w => says [] w end.
Proof. simpl. by rewrite String.eqb_refl. Qed.

(** Property: A merge patch does what it says at every path. For a patch whose maps
    have distinct keys, a path the patch does not mention keeps what the
    document has there, a path it gives a value has that value, a path it
    descends to is a map, and a path it deletes has no value, or a null that was
    copied with a new table. *)
Theorem merge_by_path (original patch : jval) (path : list string) :
  distinct patch = true ->
  match says path patch with
  | Keeps => at_path path (Merge original patch) = at_path path original
  | Deletes => default JNull (at_path path (Merge original patch)) = JNull
  | Gives v => at_path path (Merge original patch) = Some v
  | Descends => exists m, at_path path (Merge original patch) = Some (JObj m)
  end.
Proof.
  revert original patch. induction path as [|k path IH]; intros original patch Hd.
  - destruct patch; [simpl; eauto..|]. rewrite Merge_obj. simpl. eauto.
  - destruct patch as [| | | | |m]; try done.
    pose proof Hd as [Hnd _]%distinct_obj. rewrite Merge_obj. cbn [at_path says members].
    rewrite (merge_map_lookup m (members original) k Hnd).
    destruct (tbl_lookup k m) as [w|] eqn:Ew; [|done].
    pose proof (distinct_member _ _ _ Hd Ew) as Hw.
    destruct (tbl_lookup k (members original)) as [v|] eqn:Ev; cbn [mbind option_bind].
    + specialize (IH v w Hw). destruct w; try apply IH. by destruct path.
    + pose proof (says_verbatim path w) as Hs. destruct w; [by destruct path|apply Hs..].
Qed.

(** Applied again, a patch changes no value: a retried patch is one patch. *)
Lemma merge_again (original patch : jval) (path : list string) :
  distinct patch = true ->
  default JNull (at_path path (Merge (Merge original patch) patch)) = default JNull (at_path path (Merge original patch)) \/
  (exists m m', at_path path (Merge (Merge original patch) patch) = Some (JObj m) /\
                at_path path (Merge original patch) = Some (JObj m')).
Proof.
  intros Hd. pose proof (merge_by_path original patch path Hd) as H1.
  pose proof (merge_by_path (Merge original patch) patch path Hd) as H2.
  destruct (says path patch); [left; by rewrite H2|left; by rewrite H1, H2|left; by rewrite H1, H2|].
  right. destruct H1 as [m' ->], H2 as [m ->]. eauto.
Qed.

(** A null below a table the document does not have is not a deletion: it is
    copied with the table. The comment of [Merge] says a nil deletes its key. *)
Theorem nested_null_copied :
  Merge (JObj []) (JObj [("statesync", JObj [("trust-hash", JNull)])]) = JObj [("statesync", JObj [("trust-hash", JNull)])].
Proof. reflexivity. Qed.

Lemma SetNestedValue_sets doc section key value :
  at_path [section; key] (JObj (SetNestedValue doc section key value)) = Some value.
Proof.
  unfold SetNestedValue. cbn [at_path members].
  assert (Hs : forall sec, tbl_lookup section (tbl_set section (JObj sec) doc) = Some (JObj sec)).
  { intros sec. by rewrite tbl_lookup_set, String.eqb_refl. }
  destruct (tbl_lookup section doc) as [[]|]; rewrite Hs; cbn;
    rewrite ?tbl_lookup_set, String.eqb_refl; done.
Qed.

(** ** Genesis overrides *)

(** A state whose messages are values with distinct keys, once per module. *)
Definition state_ok (m : state_map) : Prop :=
  NoDup (keys m) /\ Forall (fun e => exists v, e.2 = RawValue v /\ distinct v = true) m.

Lemma state_ok_nil : state_ok [].
Proof. split; constructor. Qed.
Lemma state_ok_set k v m : distinct v = true -> state_ok m -> state_ok (tbl_set k (RawValue v) m).
Proof. intros Hv [Hn Hf]. split; [by apply keys_set_NoDup|]. apply tbl_set_Forall; [simpl; eauto|done]. Qed.
Lemma state_ok_lookup k raw m : state_ok m -> tbl_lookup k m = Some raw -> exists v, raw = RawValue v /\ distinct v = true.
Proof. intros [_ Hf] ?%tbl_lookup_Some_in. rewrite Forall_forall in Hf. by apply (Hf (k, raw)). Qed.
#[local] Hint Resolve state_ok_nil state_ok_set : core.

Lemma members_map_go l acc :
  NoDup (keys l) -> (forall k, k ∈ keys l -> k ∉ keys acc) ->
  fold_left (fun m '(k, v) => tbl_set k (RawValue v) m) l acc = acc ++ map (fun e => (e.1, RawValue e.2)) l.
Proof.
  revert acc. induction l as [|[k v] l IH]; intros acc Hnd Hsep; simpl; [by rewrite app_nil_r|].
  apply NoDup_cons in Hnd as [Hk Hnd].
  assert (Hset : tbl_set k (RawValue v) acc = acc ++ [(k, RawValue v)]).
  { assert (Hka : k ∉ keys acc) by (apply Hsep; left). clear -Hka.
    induction acc as [|[k1 v1] acc IH]; simpl; [done|]. apply not_elem_of_cons in Hka as [Hne Hka].
    rewrite (proj2 (String.eqb_neq k k1) Hne), IH by done. done. }
  rewrite Hset, IH; [by rewrite <- app_assoc|done|].
  intros k' Hk'. unfold keys. rewrite fmap_app. simpl. rewrite not_elem_of_app.
  split; [apply Hsep; by right|]. apply not_elem_of_cons. split; [|apply not_elem_of_nil]. set_solver.
Qed.
Lemma members_map_eq l : NoDup (keys l) -> members_map l = map (fun e => (e.1, RawValue e.2)) l.
Proof. intros H. unfold members_map. rewrite members_map_go; [done..|]. set_solver. Qed.
Lemma lookup_raws k (l : table) :
  tbl_lookup k (map (fun e => (e.1, RawValue e.2)) l) = RawValue <$> tbl_lookup k l.
Proof. induction l as [|[k1 v1] l IH]; simpl; [done|]. by destruct (k =s k1). Qed.
Lemma keys_raws (l : table) : keys (map (fun e => (e.1, RawValue e.2)) l) = keys l.
Proof. induction l as [|[k1 v1] l IH]; [done|]. exact (f_equal (cons k1) IH). Qed.
Lemma raws_ok (l : table) :
  state_ok (map (fun e => (e.1, RawValue e.2)) l) <-> distinct (JObj l) = true.
Proof.
  rewrite distinct_obj. unfold state_ok. rewrite keys_raws. apply and_iff_compat_l.
  induction l as [|[k v] l IH]; [by split|]. simpl. rewrite !Forall_cons, IH. apply and_iff_compat_r.
  simpl. split; [by intros (w & [= ->] & ?)|eauto].
Qed.

Section overrides.
Context `{JsonTexts}.

(** Unmarshalled, an object reads as before, and its members are well formed. *)
Lemma Unmarshal_obj l :
  distinct (JObj l) = true ->
  state_ok (members_map l) /\ forall q, q <> [] -> read_state q (members_map l) = at_path q (JObj l).
Proof.
  intros Hl. pose proof Hl as [Hn _]%distinct_obj. rewrite members_map_eq by done. split.
  - by apply raws_ok.
  - intros [|k q] Hq; [done|]. simpl. rewrite lookup_raws. by destruct (tbl_lookup k l).
Qed.

(** Marshalled, a map of values reads as before; a malformed value fails. *)
Lemma Marshal_ok m raw :
  state_ok m -> Marshal m = Ok raw ->
  exists l, raw = RawValue (JObj l) /\ distinct (JObj l) = true /\
    forall q, q <> [] -> read_state q m = at_path q (JObj l).
Proof.
  intros Hok. pose proof Hok as [_ Hf]. unfold Marshal.
  assert (Hm : exists l, Marshal_members m = Ok l /\ m = map (fun e => (e.1, RawValue e.2)) l).
  { clear Hok. induction Hf as [|[k r] m (v & Hr & Hv) Hf (l & IH1 & IH2)]; [by exists []|].
    simpl in Hr. subst r. exists ((k, v) :: l). simpl. rewrite IH1. simpl. by rewrite <- IH2. }
  destruct Hm as (l & -> & ->). simpl. intros [= <-]. exists l. split_and!; [done| |].
  - by apply raws_ok.
  - intros [|k q] Hq; [done|]. simpl. rewrite lookup_raws. by destruct (tbl_lookup k l).
Qed.

Lemma apart_cons k p q : apart (k :: p) (k :: q) -> apart p q.
Proof. intros [H1 H2]. split; intros Hp; [apply H1|apply H2]; by apply prefix_cons. Qed.
Lemma apart_nil p q : apart p q -> q <> [].
Proof. intros [_ H2] ->. apply H2. apply prefix_nil. Qed.

Lemma setNestedRaw_cons st head r1 rest value key :
  setNestedRaw st (head :: r1 :: rest) value key =
  (child ← childOf st head key; child ← setNestedRaw child (r1 :: rest) value key;
   childBz ← wrap_err ("genesis-overrides: re-marshaling intermediate " +:+ quote head +:+
                        " for key " +:+ quote key +:+ ": ") (Marshal child);
   Ok (tbl_set head childBz st)).
Proof. reflexivity. Qed.

Lemma childOf_ok st head key child :
  state_ok st -> childOf st head key = Ok child ->
  state_ok child /\ forall q, q <> [] -> read_state q child = read_state (head :: q) st.
Proof.
  intros Hst. unfold childOf. destruct (tbl_lookup head st) as [raw|] eqn:El; intros Hc.
  - destruct (state_ok_lookup _ _ _ Hst El) as (v & -> & Hv). simpl. rewrite El.
    destruct v; simpl in Hc; simplify_eq; [|by apply Unmarshal_obj].
    split; [done|]. by intros [|k q].
  - simplify_eq. split; [done|]. intros [|k q] Hq; simpl; rewrite El; done.
Qed.

(** The write lands at its path and nowhere else. *)
Lemma setNestedRaw_spec path w key : forall st st',
  state_ok st -> distinct w = true -> setNestedRaw st path (RawValue w) key = Ok st' ->
  state_ok st' /\ read_state path st' = Some w /\
  forall q, apart path q -> read_state q st' = read_state q st.
Proof.
  induction path as [|head [|r1 rest] IH]; intros st st' Hst Hw Hset; [done|..].
  { simpl in Hset. injection Hset as <-. split_and!; [auto|simpl; by rewrite tbl_lookup_set, String.eqb_refl|].
    intros [|k q] Hq; [done|]. simpl. rewrite tbl_lookup_set.
    destruct (String.eqb k head) eqn:E; [|done]. apply String.eqb_eq in E as ->.
    destruct (proj1 Hq). exists q. done. }
  rewrite setNestedRaw_cons in Hset.
  destruct (childOf st head key) as [child|e] eqn:Hc; [|done].
  destruct (childOf_ok _ _ _ _ Hst Hc) as [Hcok Hcr]. cbn [mbind result_bind] in Hset.
  destruct (setNestedRaw child (r1 :: rest) (RawValue w) key) as [child'|e] eqn:Hn; [|done].
  destruct (IH _ _ Hcok Hw Hn) as (Hok' & Hrd' & Hfr'). cbn [mbind result_bind] in Hset.
  destruct (Marshal child') as [raw|e] eqn:Hm; [|done].
  destruct (Marshal_ok _ _ Hok' Hm) as (l & -> & Hl & Hlr). simpl in Hset. injection Hset as <-.
  assert (Hhead : forall q, q <> [] -> read_state (head :: q) (tbl_set head (RawValue (JObj l)) st) = read_state q child').
  { intros q Hq. simpl. rewrite tbl_lookup_set, String.eqb_refl. by rewrite Hlr. }
  split_and!; [auto|by rewrite Hhead|].
  intros [|k q] Hq; [done|]. destruct (String.eqb k head) eqn:E.
  - apply String.eqb_eq in E as ->. apply apart_cons in Hq. pose proof (apart_nil _ _ Hq).
    by rewrite Hhead, Hfr', Hcr.
  - simpl. by rewrite tbl_lookup_set, E.
Qed.

(** A malformed value is never written. *)
Lemma Marshal_malformed m k : tbl_lookup k m = Some RawMalformed -> is_ok (Marshal m) = false.
Proof.
  unfold Marshal. induction m as [|[k1 r1] m IH]; [done|]. simpl.
  destruct (k =s k1); [by intros [= ->]|]. intros Hm. specialize (IH Hm).
  destruct (Marshal_members m); [done|]. by destruct r1.
Qed.
Lemma setNestedRaw_malformed head r1 rest key st : is_ok (setNestedRaw st (head :: r1 :: rest) RawMalformed key) = false.
Proof.
  revert head r1 st. induction rest as [|r2 rest IH]; intros head r1 st; rewrite setNestedRaw_cons;
    (destruct (childOf st head key) as [child|]; [|done]); cbn [mbind result_bind].
  - cbn [setNestedRaw mbind result_bind].
    pose proof (Marshal_malformed (tbl_set r1 RawMalformed child) r1) as Hm.
    rewrite tbl_lookup_set, String.eqb_refl in Hm. specialize (Hm eq_refl).
    by destruct (Marshal (tbl_set r1 RawMalformed child)).
  - specialize (IH r1 r2 child). by destruct (setNestedRaw child (r1 :: r2 :: rest) RawMalformed key).
Qed.

(** One round of the loop is a write of its path, below the module. *)
Lemma applyOverride_nested key raw st st' :
  applyOverride key raw st = Ok st' ->
  setNestedRaw st (split_on "." key) raw key = Ok st' /\ raw <> RawNone.
Proof.
  unfold applyOverride. destruct (key =s ""); [done|].
  destruct (split_on "." key) as [|module [|p1 path]]; [done..|].
  destruct (empty_segment 0 _); [done|].
  intros Ha. split; [|by intros ->]. rewrite setNestedRaw_cons. unfold childOf.
  destruct raw; [done|..];
    (destruct (tbl_lookup module st) as [mr|]; [|done]);
    (destruct mr as [| |u]; [done|done|destruct u; try done]);
    cbn [Unmarshal mbind result_bind wrap_err] in *;
    (destruct (setNestedRaw _ (p1 :: path) _ _) as [ms'|]; [|done]); cbn [mbind result_bind wrap_err] in *;
    by destruct (Marshal ms').
Qed.

(** An override that succeeds reads back, and nothing apart from it changes. *)
Lemma applyOverride_spec key raw st st' :
  state_ok st -> (forall w, raw = RawValue w -> distinct w = true) -> applyOverride key raw st = Ok st' ->
  state_ok st' /\ (exists w, raw = RawValue w /\ read_state (split_on "." key) st' = Some w) /\
  forall q, apart (split_on "." key) q -> read_state q st' = read_state q st.
Proof.
  intros Hst Hw Ha. destruct (applyOverride_nested _ _ _ _ Ha) as [Hn Hraw].
  destruct raw as [| |w]; [done| |].
  - exfalso. unfold applyOverride in Ha. destruct (key =s ""); [done|].
    destruct (split_on "." key) as [|module [|p1 path]]; [done..|].
    pose proof (setNestedRaw_malformed module p1 path key st) as Hf. by rewrite Hn in Hf.
  - destruct (setNestedRaw_spec _ _ _ _ _ Hst (Hw w eq_refl) Hn) as (? & ? & ?). eauto 6.
Qed.

Lemma applyGenesisOverrides_spec overrides : forall st st',
  state_ok st -> (forall k w, (k, RawValue w) ∈ overrides -> distinct w = true) ->
  ForallOrdPairs (fun a b => apart (split_on "." a.1) (split_on "." b.1)) overrides ->
  applyGenesisOverrides st overrides = Ok st' ->
  state_ok st' /\
  (forall k raw, (k, raw) ∈ overrides -> exists w, raw = RawValue w /\ read_state (split_on "." k) st' = Some w) /\
  forall q, (forall k raw, (k, raw) ∈ overrides -> apart (split_on "." k) q) -> read_state q st' = read_state q st.
Proof.
  induction overrides as [|[key raw] rest IH]; intros st st' Hst Hd Hpairs Hrun.
  { injection Hrun as <-. split_and!; [done|by intros ? ? ?%elem_of_nil|done]. }
  simpl in Hrun. destruct (applyOverride key raw st) as [st1|] eqn:Ha; [|done]. simpl in Hrun.
  inversion Hpairs as [|? ? Hkey Hpairs']; subst.
  assert (Hw0 : forall w, raw = RawValue w -> distinct w = true) by (intros w ->; apply (Hd key); left).
  destruct (applyOverride_spec _ _ _ _ Hst Hw0 Ha) as (Hst1 & (w & Hrw & Hrd) & Hfr).
  destruct (IH st1 st' Hst1) as (Hst' & Hall & Hframe); [intros k v Hk; apply (Hd k); by right|done|done|].
  split; [done|]. split.
  - intros k raw' [[= -> ->]|Hk]%elem_of_cons; [|by apply Hall].
    exists w. split; [done|]. rewrite Hframe; [done|]. intros k' raw'' Hk'.
    rewrite Forall_forall in Hkey. destruct (Hkey _ Hk') as [H1 H2]. by split.
  - intros q Hq. rewrite Hframe, Hfr; [done| |]; intros; eapply Hq; [left|right]; done.
Qed.
End overrides.

(** Property: Genesis overrides read back. When the overrides are applied in any
    order Go's map gives, to an app state of well-formed modules, and no key is
    an extension of another, then every override was a JSON value, reading the
    state at its path gives that value, and every path apart from all of them
    reads as before. *)
Theorem overrides_read_back `{JsonTexts} (overrides : state_map) (st st' : state_map) :
  state_ok st -> (forall k w, (k, RawValue w) ∈ overrides -> distinct w = true) ->
  ForallOrdPairs (fun a b => apart (split_on "." a.1) (split_on "." b.1)) overrides ->
  applyGenesisOverrides st overrides = Ok st' ->
  (forall k raw, (k, raw) ∈ overrides -> exists w, raw = RawValue w /\ read_state (split_on "." k) st' = Some w) /\
  (forall q, (forall k raw, (k, raw) ∈ overrides -> apart (split_on "." k) q) -> read_state q st' = read_state q st).
Proof. intros H1 H2 H3 H4. by destruct (applyGenesisOverrides_spec _ _ _ H1 H2 H3 H4) as (_ & ? & ?). Qed.

Definition sample_texts : JsonTexts :=
  {| unmarshal_text _ := "json: cannot unmarshal"; marshal_text := "json: invalid" |}.
Definition sample_state : state_map :=
  [("gov", RawValue (JObj [("params", JObj [("voting_period", JStr "172800s"); ("burn", JBool true)])]));
   ("bank", RawValue (JObj []))].
Definition sample_overrides : state_map :=
  [("gov.params.voting_period", RawValue (JStr "60s")); ("bank.params.send", RawValue (JBool false));
   ("gov.params.extra", RawValue (JObj [("a", JNum "1")]))].

Lemma overrides_read_back_witness :
  exists st', applyGenesisOverrides (H := sample_texts) sample_state sample_overrides = Ok st' /\
    read_state ["gov"; "params"; "voting_period"] st' = Some (JStr "60s") /\
    read_state ["gov"; "params"; "burn"] st' = Some (JBool true).
Proof.
  eexists. split; [vm_compute; reflexivity|].
  assert (Hp : forall p q, bool_decide (p `prefix_of` q) || bool_decide (q `prefix_of` p) = false -> apart p q).
  { intros p q [H1 H2]%orb_false_iff. by apply bool_decide_eq_false in H1, H2. }
  match goal with |- read_state _ ?s = _ /\ _ =>
    destruct (overrides_read_back (H := sample_texts) sample_overrides sample_state s) as [H1 H2] end.
  - split; [apply (bool_decide_unpack _); vm_compute; exact I|].
    repeat (apply Forall_cons; split; [eexists; split; [reflexivity|vm_compute; reflexivity]|]). apply Forall_nil. exact I.
  - intros k w Hk. repeat (apply elem_of_cons in Hk as [[= -> ->]|Hk]; [vm_compute; reflexivity|]).
    by apply elem_of_nil in Hk.
  - repeat constructor; apply Hp; vm_compute; reflexivity.
  - vm_compute. reflexivity.
  - destruct (H1 "gov.params.voting_period" (RawValue (JStr "60s"))) as (w & [= <-] & Hw); [left|].
    split; [exact Hw|]. rewrite H2; [reflexivity|].
    intros k raw Hk. apply Hp.
    repeat (apply elem_of_cons in Hk as [[= -> ->]|Hk]; [vm_compute; reflexivity|]). by apply elem_of_nil in Hk.
Defined.

(** When one key extends another the result depends on the order in which Go
    ranges over the map: the same overrides give two different app states. *)
Theorem overlapping_overrides_ordered :
  let a := ("gov.params", RawValue (JObj [])) in
  let b := ("gov.params.burn", RawValue (JBool false)) in
  read_state ["gov"; "params"; "burn"] <$> applyGenesisOverrides (H := sample_texts) sample_state [a; b]
    = Ok (Some (JBool false)) /\
  read_state ["gov"; "params"; "burn"] <$> applyGenesisOverrides (H := sample_texts) sample_state [b; a] = Ok None.
Proof. split; reflexivity. Qed.
