(* ===== verification/RpcClient.v ===== *)
(** * The sidecar's client of the local node (src/sidecar/rpc)

    What the sidecar reads of CometBFT's [/status] and [/block] and of the EVM's
    [eth_blockNumber]. The HTTP client is a parameter: a request has no answer,
    or one with a code and a body, whose JSON is the value it parses to.
    Decoding into a struct goes through the members in order, as
    [encoding/json] does: names fold as ASCII, a repeated field is set again,
    [null] leaves it, and a value of another type fails. *)

From stdpp Require Import base list strings pretty.
From Stdlib Require Import ZArith Lia Ascii.
From S2P Require Import Prelude Api Platform Config TomlPatch.

(** ** Answers *)
Inductive http_answer :=
| HttpErr (e : string)
| HttpResp (code : Z) (body : raw_json) (text : string).

Class RpcTexts := {
  json_text : raw_json -> string;
  type_text : string -> jval -> string;
}.

(** [strconv]'s error for a number. *)
Definition num_error (fn s : string) (range : bool) : string :=
  "strconv." +:+ fn +:+ ": parsing " +:+ quote s +:+ ": " +:+
  (if range then "value out of range" else "invalid syntax").
Definition ParseInt (s : string) : result Z :=
  match parse_int s with
  | None => Err (num_error "ParseInt" s false)
  | Some n => if int64_ok n then Ok n else Err (num_error "ParseInt" s true)
  end.

Definition hex_value (c : ascii) : option Z :=
  let n := Z.of_nat (nat_of_ascii c) in
  if is_digit c then Some (n - 48)%Z
  else if (97 <=? n)%Z && (n <=? 102)%Z then Some (n - 87)%Z
  else if (65 <=? n)%Z && (n <=? 70)%Z then Some (n - 55)%Z
  else None.
Fixpoint hex_digits (acc : Z) (s : string) : option Z :=
  match s with
  | EmptyString => Some acc
  | String c s' => d ← hex_value c; hex_digits (16 * acc + d)%Z s'
  end.
(** [strconv.ParseInt(s, 16, 64)] *)
Definition ParseHex (s : string) : result Z :=
  let '(neg, body) := match s with
                      | String "-" s' => (true, s')
                      | String "+" s' => (false, s')
                      | _ => (false, s)
                      end in
  match (if body =s "" then None else hex_digits 0 body) with
  | None => Err (num_error "ParseInt" s false)
  | Some n => let n := if neg then (- n)%Z else n in
              if int64_ok n then Ok n else Err (num_error "ParseInt" s true)
  end.

(** ** The wire types (types.go, client.go) *)
Record NodeInfo := mkNodeInfo { ni_ID : string; ni_Network : string }.
Record SyncInfo := mkSyncInfo { sy_LatestBlockHeight : string; sy_CatchingUp : bool }.
Record StatusResult := mkStatusResult { sr_NodeInfo : NodeInfo; sr_SyncInfo : SyncInfo }.
Record BlockResult := mkBlockResult { br_Hash : string }.
Record rpcError := mkRpcError { re_Code : Z; re_Message : string; re_Data : string }.
Record envelope := mkEnvelope { en_JSONRPC : string; en_Result : raw_json; en_Error : option rpcError }.

Section client.
Context `{RpcTexts} (Do : string -> http_answer).

Definition decode_string (v : jval) (old : string) : result string :=
  match v with JStr s => Ok s | JNull => Ok old | _ => Err (type_text "string" v) end.
Definition decode_bool (v : jval) (old : bool) : result bool :=
  match v with JBool b => Ok b | JNull => Ok old | _ => Err (type_text "bool" v) end.
Definition decode_int (v : jval) (old : Z) : result Z :=
  match v with
  | JNum lit => match parse_int lit with
                | Some n => if int64_ok n then Ok n else Err (type_text "int" v)
                | None => Err (type_text "int" v)
                end
  | JNull => Ok old
  | _ => Err (type_text "int" v)
  end.

(** A struct: its members in order, each through [field]. *)
Fixpoint decode_members {A} (field : string -> jval -> A -> result A) (l : table) (old : A) : result A :=
  match l with
  | [] => Ok old
  | (k, v) :: l' => new ← field (to_lower k) v old; decode_members field l' new
  end.
Definition decode_struct {A} (field : string -> jval -> A -> result A) (v : jval) (old : A) : result A :=
  match v with
  | JObj l => decode_members field l old
  | JNull => Ok old
  | _ => Err (type_text "struct" v)
  end.
Definition decode_raw {A} (field : string -> jval -> A -> result A) (raw : raw_json) (zero : A) : result A :=
  match raw with
  | RawValue v => decode_struct field v zero
  | _ => Err (json_text raw)
  end.

Definition node_info_field (k : string) (v : jval) (o : NodeInfo) : result NodeInfo :=
  if k =s "id" then s ← decode_string v (ni_ID o); Ok (mkNodeInfo s (ni_Network o))
  else if k =s "network" then s ← decode_string v (ni_Network o); Ok (mkNodeInfo (ni_ID o) s)
  else Ok o.
Definition sync_info_field (k : string) (v : jval) (o : SyncInfo) : result SyncInfo :=
  if k =s "latest_block_height" then
    s ← decode_string v (sy_LatestBlockHeight o); Ok (mkSyncInfo s (sy_CatchingUp o))
  else if k =s "catching_up" then b ← decode_bool v (sy_CatchingUp o); Ok (mkSyncInfo (sy_LatestBlockHeight o) b)
  else Ok o.
Definition status_field (k : string) (v : jval) (o : StatusResult) : result StatusResult :=
  if k =s "node_info" then
    n ← decode_struct node_info_field v (sr_NodeInfo o); Ok (mkStatusResult n (sr_SyncInfo o))
  else if k =s "sync_info" then
    s ← decode_struct sync_info_field v (sr_SyncInfo o); Ok (mkStatusResult (sr_NodeInfo o) s)
  else Ok o.
Definition block_id_field (k : string) (v : jval) (o : BlockResult) : result BlockResult :=
  if k =s "hash" then s ← decode_string v (br_Hash o); Ok (mkBlockResult s) else Ok o.
Definition block_field (k : string) (v : jval) (o : BlockResult) : result BlockResult :=
  if k =s "block_id" then decode_struct block_id_field v o else Ok o.
Definition error_field (k : string) (v : jval) (o : rpcError) : result rpcError :=
  if k =s "code" then n ← decode_int v (re_Code o); Ok (mkRpcError n (re_Message o) (re_Data o))
  else if k =s "message" then s ← decode_string v (re_Message o); Ok (mkRpcError (re_Code o) s (re_Data o))
  else if k =s "data" then s ← decode_string v (re_Data o); Ok (mkRpcError (re_Code o) (re_Message o) s)
  else Ok o.
(** A pointer: [null] makes it nil. *)
Definition decode_error (v : jval) (o : option rpcError) : result (option rpcError) :=
  match v with
  | JNull => Ok None
  | _ => e ← decode_struct error_field v (default (mkRpcError 0 "" "") o); Ok (Some e)
  end.
Definition envelope_field (k : string) (v : jval) (o : envelope) : result envelope :=
  if k =s "jsonrpc" then s ← decode_string v (en_JSONRPC o); Ok (mkEnvelope s (en_Result o) (en_Error o))
  else if k =s "result" then Ok (mkEnvelope (en_JSONRPC o) (RawValue v) (en_Error o))
  else if k =s "error" then e ← decode_error v (en_Error o); Ok (mkEnvelope (en_JSONRPC o) (en_Result o) e)
  else Ok o.

(** ** [Client.Get] (client.go) *)
Definition doGet (url : string) : result raw_json :=
  match Do url with
  | HttpErr e => Err e
  | HttpResp code body text =>
      if (code =? 200)%Z then Ok body else Err ("HTTP " +:+ pretty code +:+ ": " +:+ text)
  end.
Definition Get (endpoint path : string) : result raw_json :=
  body ← doGet (endpoint +:+ path);
  env ← wrap_err ("decoding JSON response from " +:+ path +:+ ": ")
          (decode_raw envelope_field body (mkEnvelope "" RawNone None));
  if en_JSONRPC env =s "2.0" then
    match en_Error env with
    | Some e => Err ("JSON-RPC error from " +:+ path +:+ ": " +:+ re_Message e +:+ " (code " +:+
                     pretty (re_Code e) +:+ ", data: " +:+ re_Data e +:+ ")")
    | None =>
        match en_Result env with
        | RawNone => Err ("empty result in JSON-RPC response from " +:+ path)
        | raw => Ok raw
        end
    end
  else Ok body.

(** ** [StatusClient] (status.go) *)
Record NodeStatus := mkNodeStatus { LatestBlockHeight : Z; CatchingUp : bool }.
Definition zero_status : StatusResult := mkStatusResult (mkNodeInfo "" "") (mkSyncInfo "" false).

Definition Status (endpoint : string) : result NodeStatus :=
  raw ← Get endpoint "/status";
  r ← wrap_err "decoding /status result: " (decode_raw status_field raw zero_status);
  let text := sy_LatestBlockHeight (sr_SyncInfo r) in
  h ← wrap_err ("parsing latest_block_height " +:+ quote text +:+ ": ") (ParseInt text);
  Ok (mkNodeStatus h (sy_CatchingUp (sr_SyncInfo r))).
Definition LatestHeight (endpoint : string) : result Z :=
  s ← Status endpoint; Ok (LatestBlockHeight s).

(** ** [HeightReader] (height.go) *)
Definition evm_field (k : string) (v : jval) (o : string * option rpcError) : result (string * option rpcError) :=
  if k =s "result" then s ← decode_string v o.1; Ok (s, o.2)
  else if k =s "error" then e ← decode_error v o.2; Ok (o.1, e)
  else Ok o.
Definition evmBlockNumber (answer : http_answer) : result Z :=
  match answer with
  | HttpErr e => Err e
  | HttpResp code body text =>
      if negb (code =? 200)%Z then Err ("HTTP " +:+ pretty code +:+ ": " +:+ text) else
      env ← wrap_err "decoding eth_blockNumber response: " (decode_raw evm_field body ("", None));
      match env.2 with
      | Some e => Err ("JSON-RPC error: " +:+ re_Message e +:+ " (code " +:+ pretty (re_Code e) +:+ ")")
      | None =>
          let hex := default env.1 (drop_prefix "0x" env.1) in
          if hex =s "" then Err ("empty eth_blockNumber result " +:+ quote env.1) else
          wrap_err ("parsing eth_blockNumber " +:+ quote env.1 +:+ ": ") (ParseHex hex)
      end
  end.
Definition CommittedHeight (comet : string) (evm : http_answer) : result Z :=
  match LatestHeight comet with
  | Ok h => Ok h
  | Err cometErr =>
      match evmBlockNumber evm with
      | Ok h => Ok h
      | Err evmErr => Err ("cometbft: " +:+ cometErr +:+ bytes [10] +:+ "evm: " +:+ evmErr)
      end
  end.
End client.
Arguments mkNodeStatus _ _ : assert.

(** ** Lemmas *)

(** A decoded JSON string is what the struct holds. *)
Lemma Status_reads `{RpcTexts} Do endpoint st :
  Status Do endpoint = Ok st ->
  exists code body text, Do (endpoint +:+ "/status") = HttpResp code body text /\ code = 200%Z /\
    int64_ok (LatestBlockHeight st) = true.
Proof.
  unfold Status, Get, doGet. destruct (Do _) as [e|code body text] eqn:E; [done|].
  destruct (code =? 200)%Z eqn:Ec; [|done]. apply Z.eqb_eq in Ec. intros Hs.
  exists code, body, text. split_and!; [done..|].
  assert (Hok : forall raw, (r ← wrap_err "decoding /status result: " (decode_raw status_field raw zero_status);
     let text := sy_LatestBlockHeight (sr_SyncInfo r) in
     h ← wrap_err ("parsing latest_block_height " +:+ quote text +:+ ": ") (ParseInt text);
     Ok (mkNodeStatus h (sy_CatchingUp (sr_SyncInfo r)))) = Ok st -> int64_ok (LatestBlockHeight st) = true).
  { intros raw. destruct (decode_raw status_field raw zero_status) as [r|]; [|done]. simpl. unfold ParseInt.
    destruct (parse_int _) as [n|]; [|done]. destruct (int64_ok n) eqn:En; [|done]. by intros [= <-]. }
  cbn [mbind result_bind] in Hs.
  destruct (decode_raw envelope_field body _) as [env|]; [|done]. cbn [wrap_err mbind result_bind] in Hs.
  destruct (en_JSONRPC env =s "2.0"); [|by apply (Hok body)].
  destruct (en_Error env); [done|]. destruct (en_Result env) as [| |v] eqn:Er; [done|apply (Hok RawMalformed)|apply (Hok (RawValue v))]; exact Hs.
Qed.

(** Property: The committed height is one a node answered: CometBFT's, and only
    when that does not read, the EVM's; an error names both. *)
Lemma CommittedHeight_either `{RpcTexts} Do comet evm :
  match CommittedHeight Do comet evm with
  | Ok h => LatestHeight Do comet = Ok h \/ (~ is_ok (LatestHeight Do comet) /\ evmBlockNumber evm = Ok h)
  | Err e => ~ is_ok (LatestHeight Do comet) /\ ~ is_ok (evmBlockNumber evm)
  end.
Proof.
  unfold CommittedHeight. destruct (LatestHeight Do comet); [by left|].
  destruct (evmBlockNumber evm); [right|]; simpl; auto.
Qed.

(** A flat answer, as seid gives it, and an envelope. *)
Definition sample_rpc : RpcTexts := {| json_text _ := "invalid JSON"; type_text t _ := "not a " +:+ t |}.
Definition status_body (height : string) (catching : bool) : jval :=
  JObj [("sync_info", JObj [("latest_block_height", JStr height); ("catching_up", JBool catching)])].
Example flat_and_enveloped :
  let ask body := Status (H := sample_rpc) (fun _ => HttpResp 200 (RawValue body) "") "http://localhost:26657" in
  ask (status_body "42" true) = Ok (mkNodeStatus 42 true) /\
  ask (JObj [("jsonrpc", JStr "2.0"); ("result", status_body "42" true)]) = Ok (mkNodeStatus 42 true) /\
  evmBlockNumber (H := sample_rpc) (HttpResp 200 (RawValue (JObj [("result", JStr "0x2A")])) "") = Ok 42%Z.
Proof. split_and!; reflexivity. Qed.
