(* ===== verification/JsonWire.v ===== *)
(** * Values as JSON carries them ([encoding/json])

    What becomes of a Go value between two processes: [json.Marshal] of a map of
    mixed values, [Decode] into [any] with [UseNumber], and the decoding into a
    typed struct. A string loses its invalid UTF-8, the members of an object come
    in the order of their keys with the last of equal ones kept, a number token is
    kept as it is. *)

From stdpp Require Import base list strings gmap pretty.
From Stdlib Require Import ZArith Lia Ascii Sorted.
From S2P Require Import Prelude Api Config TomlPatch RpcClient.

Set Warnings "-register-all".

(** ** UTF-8 *)
Definition byte_in (lo hi : nat) (s : string) : bool :=
  match s with
  | EmptyString => false
  | String c _ => (lo <=? nat_of_ascii c) && (nat_of_ascii c <=? hi)
  end.
Definition tail (s : string) : string := match s with EmptyString => EmptyString | String _ s' => s' end.
(** Bytes that continue a rune. *)
Fixpoint continues (n : nat) (s : string) : bool :=
  match n with O => true | S n' => byte_in 128 191 s && continues n' (tail s) end.
(** [utf8.DecodeRuneInString]: how many bytes follow the first one of a valid
    rune, [None] when the first byte starts none. *)
Definition rune_tail (s : string) : option nat :=
  let t := tail s in
  if byte_in 0 127 s then Some 0
  else if byte_in 194 223 s then (if continues 1 t then Some 1 else None)
  else if byte_in 224 224 s then (if byte_in 160 191 t && continues 1 (tail t) then Some 2 else None)
  else if byte_in 237 237 s then (if byte_in 128 159 t && continues 1 (tail t) then Some 2 else None)
  else if byte_in 225 239 s then (if continues 2 t then Some 2 else None)
  else if byte_in 240 240 s then (if byte_in 144 191 t && continues 2 (tail t) then Some 3 else None)
  else if byte_in 241 243 s then (if continues 3 t then Some 3 else None)
  else if byte_in 244 244 s then (if byte_in 128 143 t && continues 2 (tail t) then Some 3 else None)
  else None.
Definition replacement : string := bytes [239; 191; 189].
(** [k] bytes of the current rune are still to be copied. *)
Fixpoint utf8_from (k : nat) (s : string) : string :=
  match s with
  | EmptyString => EmptyString
  | String c s' =>
      match k with
      | S k' => String c (utf8_from k' s')
      | O => match rune_tail s with
             | Some n => String c (utf8_from n s')
             | None => replacement +:+ utf8_from 0 s'
             end
      end
  end.
Definition valid_utf8 (s : string) : string := utf8_from 0 s.

(** ** Marshal and decode *)

(** A Go value of mixed type; a [json.RawMessage] is kept as what it parses to. *)
Inductive goval :=
| GJson (v : jval)
| GRaw (r : raw_json)
| GArr (l : list goval)
| GObj (l : list (string * goval)).

Definition num (n : Z) : jval := JNum (pretty n).
Definition gstr (s : string) : goval := GJson (JStr s).
Definition gnum (n : Z) : goval := GJson (num n).
Definition gbool (b : bool) : goval := GJson (JBool b).

Fixpoint Marshal_value `{RpcTexts} (v : goval) : result jval :=
  match v with
  | GJson v => Ok v
  | GRaw RawNone => Ok JNull
  | GRaw (RawValue v) => Ok v
  | GRaw RawMalformed => Err (json_text RawMalformed)
  | GArr l =>
      JArr <$> (fix go (l : list goval) : result (list jval) :=
        match l with [] => Ok [] | x :: l' => v ← Marshal_value x; vs ← go l'; Ok (v :: vs) end) l
  | GObj l =>
      JObj <$> (fix go (l : list (string * goval)) : result table :=
        match l with
        | [] => Ok []
        | (k, x) :: l' => v ← Marshal_value x; vs ← go l'; Ok ((k, v) :: vs)
        end) l
  end.

(** A map's members in the order of their keys. *)
Fixpoint set_member {A} (k : string) (v : A) (l : list (string * A)) : list (string * A) :=
  match l with
  | [] => [(k, v)]
  | (k', v') :: l' =>
      match String.compare k k' with
      | Lt => (k, v) :: l
      | Eq => (k, v) :: l'
      | Gt => (k', v') :: set_member k v l'
      end
  end.
Definition sorted_members {A} (l : list (string * A)) : list (string * A) :=
  fold_left (fun acc kv => set_member kv.1 kv.2 acc) l [].

(** A value marshaled, and decoded into [any] again. *)
Fixpoint wire (v : jval) : jval :=
  match v with
  | JStr s => JStr (valid_utf8 s)
  | JArr l => JArr (map wire l)
  | JObj l => JObj (sorted_members (map (fun kv => (valid_utf8 kv.1, wire kv.2)) l))
  | _ => v
  end.

(** ** Decoders of the types the task parameters use *)
Section Decoders.
Context `{RpcTexts}.

(** An unsigned number has no sign. *)
Definition int_of (lo hi : Z) (go : string) (v : jval) (old : Z) : result Z :=
  match v with
  | JNum lit => match parse_int lit with
                | Some n => if (lo <=? n)%Z && (n <=? hi)%Z && ((lo <? 0)%Z || negb (has_prefix "-" lit))
                            then Ok n else Err (type_text go v)
                | None => Err (type_text go v)
                end
  | JNull => Ok old
  | _ => Err (type_text go v)
  end.
Definition decode_int64 : jval -> Z -> result Z := int_of (- 2 ^ 63) (2 ^ 63 - 1) "int64".
Definition decode_uint64 : jval -> Z -> result Z := int_of 0 (2 ^ 64 - 1) "uint64".
Definition decode_int32 : jval -> Z -> result Z := int_of (- 2 ^ 31) (2 ^ 31 - 1) "int32".
(** A [json.RawMessage] takes every value, [null] too. *)
Definition decode_message (v : jval) (_ : raw_json) : result raw_json := Ok (RawValue v).
Definition decode_pointer {A} (dec : jval -> A -> result A) (zero : A) (v : jval) (old : option A) : result (option A) :=
  match v with JNull => Ok None | _ => a ← dec v (default zero old); Ok (Some a) end.
Fixpoint decode_elements {A} (dec : jval -> A -> result A) (zero : A) (l : list jval) : result (list A) :=
  match l with [] => Ok [] | v :: l' => a ← dec v zero; rest ← decode_elements dec zero l'; Ok (a :: rest) end.
Definition decode_slice {A} (dec : jval -> A -> result A) (zero : A) (v : jval) (_ : list A) : result (list A) :=
  match v with JNull => Ok [] | JArr l => decode_elements dec zero l | _ => Err (type_text "slice" v) end.
Fixpoint decode_entries {A} (dec : jval -> A -> result A) (zero : A) (l : table) (m : gmap string A) : result (gmap string A) :=
  match l with [] => Ok m | (k, v) :: l' => a ← dec v zero; decode_entries dec zero l' (<[k := a]> m) end.
Definition decode_map {A} (dec : jval -> A -> result A) (zero : A) (v : jval) (old : gmap string A) : result (gmap string A) :=
  match v with JNull => Ok ∅ | JObj l => decode_entries dec zero l old | _ => Err (type_text "map" v) end.

(** [json.Unmarshal] of the parameters of a request; a nil map is [null]. *)
Definition decode_params {T} (field : string -> jval -> T -> result T) (zero : T) (params : option table) : result T :=
  decode_struct field (match params with None => JNull | Some l => wire (JObj l) end) zero.
End Decoders.

(** ** Lemmas *)

(** *** UTF-8 *)
Lemma rune_tail_ext c n s s' :
  rune_tail (String c s) = Some n -> n <= String.length s -> utf8_from n s = s' ->
  rune_tail (String c s') = Some n.
Proof.
  intros Hr Hn <-. destruct n as [|[|[|[|n]]]]; [|destruct s as [|a s]; [simpl in Hn; lia|]..].
  all: try (destruct s as [|b s]; [simpl in Hn; lia|]).
  all: try (destruct s as [|d s]; [simpl in Hn; lia|]).
  all: revert Hr; unfold rune_tail; simpl; clear.
  all: repeat match goal with |- context [if ?b then _ else _] => destruct b end; congruence.
Qed.

Lemma continues_length n : forall s, continues n s = true -> n <= String.length s.
Proof.
  induction n as [|n IH]; intros s; [simpl; lia|]. simpl. intros [Hb Hc]%andb_true_iff.
  destruct s as [|c s]; [done|]. simpl in *. apply IH in Hc. lia.
Qed.
Lemma rune_tail_length c s n : rune_tail (String c s) = Some n -> n <= String.length s.
Proof.
  unfold rune_tail. change (tail (String c s)) with s.
  assert (Hb : forall lo hi t, byte_in lo hi t = true -> 1 <= String.length t) by (intros ?? [|]; simpl; [done|lia]).
  assert (Ht : forall k t, k <= String.length (tail t) -> 1 <= String.length t -> S k <= String.length t)
    by (intros k [|]; simpl; lia).
  repeat match goal with |- context [if ?b then _ else _] => destruct b eqn:? end; intros [= <-].
  all: repeat match goal with
    | H : _ && _ = true |- _ => apply andb_true_iff in H as [? ?]
    | H : continues _ _ = true |- _ => apply continues_length in H
    end; try lia; apply Ht; eauto.
Qed.
Lemma utf8_from_length k : forall s, k <= String.length s -> k <= String.length (utf8_from k s).
Proof.
  induction k as [|k IH]; intros [|c s]; simpl; [lia..|]. intros Hk. apply le_n_S, IH. lia.
Qed.
Lemma utf8_replacement s : utf8_from 0 (replacement +:+ s) = replacement +:+ utf8_from 0 s.
Proof. reflexivity. Qed.
Lemma utf8_from_idem s : forall k, utf8_from k (utf8_from k s) = utf8_from k s.
Proof.
  induction s as [|c s IH]; intros [|k]; [done..| |by simpl; rewrite IH].
  change (utf8_from 0 (String c s)) with
    (match rune_tail (String c s) with
     | Some n => String c (utf8_from n s) | None => replacement +:+ utf8_from 0 s end).
  destruct (rune_tail (String c s)) as [n|] eqn:En.
  - assert (Hc : rune_tail (String c (utf8_from n s)) = Some n)
      by (eapply rune_tail_ext; [done|by eapply rune_tail_length|done]).
    change (utf8_from 0 (String c (utf8_from n s))) with
      (match rune_tail (String c (utf8_from n s)) with
       | Some m => String c (utf8_from m (utf8_from n s))
       | None => replacement +:+ utf8_from 0 (utf8_from n s) end).
    by rewrite Hc, IH.
  - by rewrite utf8_replacement, IH.
Qed.
Lemma valid_utf8_idem s : valid_utf8 (valid_utf8 s) = valid_utf8 s.
Proof. apply utf8_from_idem. Qed.

(** *** Members in order *)
Definition before {A} (x y : string * A) : Prop := String.compare x.1 y.1 = Lt.
Lemma compare_refl s : String.compare s s = Eq.
Proof. induction s as [|c s IH]; [done|]. simpl. unfold Ascii.compare. by rewrite N.compare_refl. Qed.
Lemma compare_lt_trans a b c : String.compare a b = Lt -> String.compare b c = Lt -> String.compare a c = Lt.
Proof.
  intros H1 H2. assert (Hle : forall x y, String.compare x y = Lt -> String.le x y)
    by (intros x y Hxy; unfold String.le, String.leb; by rewrite Hxy).
  assert (Hac : String.le a c) by (etrans; by apply Hle). unfold String.le, String.leb in Hac.
  destruct (String.compare a c) eqn:E; [|done..]. apply String.compare_eq_iff in E as ->.
  rewrite String.compare_antisym, H2 in H1. done.
Qed.
#[export] Instance before_trans {A} : Transitive (@before A).
Proof. intros x y z. apply compare_lt_trans. Qed.

Lemma set_member_Forall {A} (P : string * A -> Prop) k v l :
  P (k, v) -> Forall P l -> Forall P (set_member k v l).
Proof.
  intros Hk. induction 1 as [|[k' v'] l Hx Hl IH]; simpl; [by constructor|].
  destruct (String.compare k k'); by repeat constructor.
Qed.
Lemma set_member_sorted {A} k (v : A) l : StronglySorted before l -> StronglySorted before (set_member k v l).
Proof.
  induction 1 as [|[k' v'] l Hl IH Hx]; simpl; [repeat constructor|].
  destruct (String.compare k k') eqn:E.
  - apply String.compare_eq_iff in E as ->. by constructor.
  - constructor; [by constructor|]. constructor; [done|].
    eapply Forall_impl; [exact Hx|]. intros y. by apply (before_trans (k, v) (k', v') y).
  - constructor; [done|]. apply set_member_Forall; [|done]. unfold before. simpl.
    rewrite String.compare_antisym, E. done.
Qed.
Lemma fold_members_sorted {A} (l acc : list (string * A)) :
  StronglySorted before acc -> StronglySorted before (fold_left (fun acc kv => set_member kv.1 kv.2 acc) l acc).
Proof. revert acc. induction l as [|x l IH]; intros acc Ha; simpl; [done|]. by apply IH, set_member_sorted. Qed.
Lemma sorted_members_sorted {A} (l : list (string * A)) : StronglySorted before (sorted_members l).
Proof. apply fold_members_sorted. constructor. Qed.
Lemma sorted_members_Forall {A} (P : string * A -> Prop) l : Forall P l -> Forall P (sorted_members l).
Proof.
  unfold sorted_members. assert (Hn : Forall P []) by done. revert Hn. generalize (@nil (string * A)) as acc.
  induction l as [|[k v] l IH]; intros acc Ha Hl; simpl; [done|]. apply Forall_cons in Hl as [Hx Hl].
  apply IH; [|done]. by apply set_member_Forall.
Qed.
Lemma set_member_last {A} k (v : A) l : Forall (fun x => String.compare x.1 k = Lt) l -> set_member k v l = l ++ [(k, v)].
Proof.
  induction 1 as [|[k' v'] l Hx Hl IH]; simpl in *; [done|]. rewrite String.compare_antisym, Hx. simpl. by rewrite IH.
Qed.
Lemma fold_members_id {A} (l acc : list (string * A)) :
  StronglySorted before (acc ++ l) -> fold_left (fun acc kv => set_member kv.1 kv.2 acc) l acc = acc ++ l.
Proof.
  revert acc. induction l as [|[k v] l IH]; intros acc Hs; simpl; [by rewrite app_nil_r|].
  rewrite set_member_last.
  - rewrite IH; rewrite <-app_assoc; done.
  - clear IH. induction acc as [|y acc IHa]; [constructor|]. simpl in Hs. inversion Hs as [|? ? Hs' Hy]; subst.
    constructor; [|by apply IHa]. rewrite Forall_app, Forall_cons in Hy. apply Hy.
Qed.
Lemma sorted_members_id {A} (l : list (string * A)) : StronglySorted before l -> sorted_members l = l.
Proof. apply (fold_members_id l []). Qed.

(** What is on the wire is sent as it is: a request may be marshaled and decoded
    any number of times. *)
Fixpoint jval_nested_ind (P : jval -> Prop)
  (Hnull : P JNull) (Hbool : forall b, P (JBool b)) (Hnum : forall n, P (JNum n)) (Hstr : forall s, P (JStr s))
  (Harr : forall l, Forall P l -> P (JArr l)) (Hobj : forall l, Forall (fun kv => P kv.2) l -> P (JObj l)) (v : jval) : P v.
Proof.
  destruct v as [|b|n|s|l|l]; [done..| |].
  - apply Harr. induction l as [|x l IH]; [constructor|]. constructor; [|exact IH].
    by apply jval_nested_ind.
  - apply Hobj. induction l as [|x l IH]; [constructor|]. constructor; [|exact IH].
    by apply jval_nested_ind.
Qed.
Lemma wire_idem v : wire (wire v) = wire v.
Proof.
  induction v as [| | |s|l IH|l IH] using jval_nested_ind; [done..| | |]; simpl.
  - by rewrite valid_utf8_idem.
  - f_equal. rewrite map_map. by apply map_ext_Forall.
  - f_equal. set (L := map _ l).
    assert (HL : Forall (fun kv => valid_utf8 kv.1 = kv.1 /\ wire kv.2 = kv.2) L).
    { apply Forall_map. eapply Forall_impl; [exact IH|]. intros [k v] Hv. simpl in *.
      by rewrite valid_utf8_idem, Hv. }
    apply sorted_members_Forall in HL.
    rewrite (map_ext_Forall _ id) by (eapply Forall_impl; [exact HL|]; intros [k v]; simpl; by intros [-> ->]).
    rewrite map_id. apply sorted_members_id, sorted_members_sorted.
Qed.

(** *** Numbers, lists and maps are read back *)
Definition is_utf8 (s : string) : Prop := valid_utf8 s = s.
Definition int64 (n : Z) : Prop := (- 2 ^ 63 <= n < 2 ^ 63)%Z.
Definition uint64 (n : Z) : Prop := (0 <= n < 2 ^ 64)%Z.
Definition int32 (n : Z) : Prop := (- 2 ^ 31 <= n < 2 ^ 31)%Z.

Section Decoded.
Context `{RpcTexts}.

Lemma pretty_unsigned n : (0 <= n)%Z -> has_prefix "-" (pretty n) = false.
Proof.
  intros Hn. destruct (pretty_nat_digits (Z.to_nat n)) as [Hd _]. revert Hd.
  replace (pretty (Z.to_nat n)) with (pretty n).
  - destruct (pretty n) as [|c s]; [done|]. simpl. intros [Hc _]%andb_true_iff.
    apply digit_sign in Hc as [Hc _]. destruct c as [[] [] [] [] [] [] [] []]; try done; by destruct Hc.
  - destruct n as [|p|p]; [done| |lia]. change (pretty (N.pos p) = pretty (N.of_nat (Pos.to_nat p))).
    by rewrite positive_nat_N.
Qed.
Lemma int_of_num lo hi go n old : (lo <= n <= hi)%Z -> (lo < 0 \/ lo = 0)%Z -> int_of lo hi go (num n) old = Ok n.
Proof.
  intros Hn Hlo. unfold int_of, num. rewrite parse_int_pretty, (proj2 (Z.leb_le _ _)), (proj2 (Z.leb_le _ _)) by lia.
  destruct Hlo as [Hlo|Hlo]; [by rewrite (proj2 (Z.ltb_lt _ _))|].
  rewrite pretty_unsigned by lia. by rewrite orb_true_r.
Qed.
Lemma decode_int64_num n old : int64 n -> decode_int64 (JNum (pretty n)) old = Ok n.
Proof. intros Hn. apply int_of_num; unfold int64 in *; lia. Qed.
Lemma decode_uint64_num n old : uint64 n -> decode_uint64 (JNum (pretty n)) old = Ok n.
Proof. intros Hn. apply int_of_num; unfold uint64 in *; lia. Qed.
Lemma decode_int32_num n old : int32 n -> decode_int32 (JNum (pretty n)) old = Ok n.
Proof. intros Hn. apply int_of_num; unfold int32 in *; lia. Qed.

Lemma decode_elements_map {A B} (dec : jval -> A -> result A) zero (enc : B -> jval) (f : B -> A) (l : list B) :
  Forall (fun x => dec (enc x) zero = Ok (f x)) l -> decode_elements dec zero (map enc l) = Ok (map f l).
Proof. induction 1 as [|x l Hx Hl IH]; simpl; [done|]. by rewrite Hx, IH. Qed.

Lemma decode_entries_app {A} (dec : jval -> A -> result A) zero (f : jval -> A) l m :
  (forall v, dec v zero = Ok (f v)) ->
  decode_entries dec zero l m = Ok (fold_left (fun m kv => <[kv.1 := f kv.2]> m) l m).
Proof. intros Hd. revert m. induction l as [|[k v] l IH]; intros m; simpl; [done|]. rewrite Hd. apply IH. Qed.
End Decoded.

(** Inserting the members of a sorted object is inserting those it was built from. *)
Lemma fold_insert_absent {A B} (f : A -> B) k v (l : list (string * A)) (m : gmap string B) :
  Forall (fun x => x.1 <> k) l ->
  fold_left (fun m kv => <[kv.1 := f kv.2]> m) l (<[k := v]> m) =
  <[k := v]> (fold_left (fun m kv => <[kv.1 := f kv.2]> m) l m).
Proof.
  intros Hl. revert m. induction Hl as [|[k' v'] l Hx Hl IH]; intros m; simpl in *; [done|].
  by rewrite insert_insert_ne, IH by done.
Qed.
Lemma before_absent {A} k (v : A) l : Forall (before (k, v)) l -> Forall (fun x => x.1 <> k) l.
Proof.
  intros Hl. eapply Forall_impl; [exact Hl|]. intros [k' v'] Hb Hk. unfold before in Hb. simpl in *. subst.
  by rewrite compare_refl in Hb.
Qed.
Lemma fold_insert_set_member {A B} (f : A -> B) k v (l : list (string * A)) (m : gmap string B) :
  StronglySorted before l ->
  fold_left (fun m kv => <[kv.1 := f kv.2]> m) (set_member k v l) m =
  <[k := f v]> (fold_left (fun m kv => <[kv.1 := f kv.2]> m) l m).
Proof.
  intros Hs. revert m. induction Hs as [|[k' v'] l Hs IH Hx]; intros m; simpl; [done|].
  pose proof (before_absent k' v' l Hx) as Habs.
  destruct (String.compare k k') eqn:E; simpl.
  - apply String.compare_eq_iff in E as ->. rewrite !fold_insert_absent by done. by rewrite insert_insert_eq.
  - assert (Hne : k <> k') by (intros ->; by rewrite compare_refl in E).
    assert (Hk : Forall (fun x => x.1 <> k) l).
    { apply (before_absent k v). eapply Forall_impl; [exact Hx|]. intros y. by apply (before_trans (k, v) (k', v') y). }
    rewrite (fold_insert_absent f k' _ l (<[k := f v]> m)), (fold_insert_absent f k _ l m),
      (fold_insert_absent f k' _ l m) by done. by rewrite insert_insert_ne.
  - by rewrite IH.
Qed.
Lemma fold_insert_sorted_members {A B} (f : A -> B) (l : list (string * A)) (m : gmap string B) :
  fold_left (fun m kv => <[kv.1 := f kv.2]> m) (sorted_members l) m =
  fold_left (fun m kv => <[kv.1 := f kv.2]> m) l m.
Proof.
  induction l as [|[k v] l IH] using rev_ind; [done|]. unfold sorted_members in *.
  rewrite !fold_left_app. simpl. rewrite fold_insert_set_member by apply (sorted_members_sorted l). by rewrite IH.
Qed.
