(* ===== verification/ProcessTasks.v ===== *)
(** * The sidecar's process tasks
    (src/sidecar/actions/process.go, src/sidecar/tasks/restart_seid.go, stop_seid.go,
    await_seid_start.go, await_condition.go)

    Processes are what /proc shows at one time: a list of entries with the comm
    and the command line that could be read. A task that waits is given what
    each round of its loop meets: the branch its [select] takes, and the answer
    of its probe; a task whose rounds are not used up by an answer is still
    waiting. The signals a task sends are its log. *)

From stdpp Require Import base list strings pretty.
From Stdlib Require Import ZArith Lia Ascii.
From S2P Require Import Prelude Api NodeState Platform Executor Config Task TomlPatch RpcClient.

(** ** /proc *)
Record proc_entry := mkProc {
  pe_Name : string; pe_IsDir : bool; pe_comm : option string; pe_cmdline : option string;
}.
Definition nul : ascii := ascii_of_nat 0.

(** An error of a signal or of the search, and whether it says the process is
    gone ([os.ErrProcessDone] or [ESRCH]). *)
Record proc_error := mkProcError { pr_gone : bool; pr_text : string }.
Definition isProcessGone (err : proc_error) : bool := pr_gone err.

Definition firstArg (cmdline : string) : string := (cut nul cmdline).1.

(** The first entry with a process ID that passes the test. *)
Fixpoint find_proc (test : proc_entry -> bool) (entries : list proc_entry) : option Z :=
  match entries with
  | [] => None
  | e :: entries' =>
      if negb (pe_IsDir e) then find_proc test entries' else
      match Atoi (pe_Name e) with
      | None => find_proc test entries'
      | Some pid => if test e then Some pid else find_proc test entries'
      end
  end.
Definition not_found (processName : string) : proc_error :=
  mkProcError false ("process " +:+ quote processName +:+ " not found in /proc").
Definition search (test : proc_entry -> bool) (processName : string) (proc : result (list proc_entry)) : proc_error + Z :=
  match proc with
  | Err e => inl (mkProcError false ("reading /proc: " +:+ e))
  | Ok entries => match find_proc test entries with Some pid => inr pid | None => inl (not_found processName) end
  end.

(** [actions.FindPID] *)
Definition names_process (processName : string) (e : proc_entry) : bool :=
  match pe_cmdline e with
  | None | Some EmptyString => false
  | Some cmdline =>
      let exe := firstArg cmdline in
      (exe =s processName) || has_suffix ("/" +:+ processName) exe
  end.
Definition FindPID (processName : string) (proc : result (list proc_entry)) : proc_error + Z :=
  search (names_process processName) processName proc.

(** [strings.TrimRight(s, nul)] *)
Fixpoint trim_nul (s : string) : string :=
  match s with
  | EmptyString => EmptyString
  | String c s' => if str_forall (Ascii.eqb nul) s then EmptyString else String c (trim_nul s')
  end.
Definition restartSeidProcess : string := "seid".
Definition isSeidStart (cmdline : string) : bool :=
  match split_on nul (trim_nul cmdline) with
  | exe :: arg :: _ =>
      if (exe <>s restartSeidProcess) && negb (has_suffix ("/" +:+ restartSeidProcess) exe) then false
      else arg =s "start"
  | _ => false
  end.

(** [seidStartFinder.FindPID] *)
Definition runs_seid_start (e : proc_entry) : bool :=
  match pe_comm e with
  | None => false
  | Some comm =>
      if TrimSpace comm <>s restartSeidProcess then false else
      match pe_cmdline e with None => false | Some cmdline => isSeidStart cmdline end
  end.
Definition seidStart_FindPID (proc : result (list proc_entry)) : proc_error + Z :=
  search runs_seid_start restartSeidProcess proc.

(** [findDataUsers] (reset_data.go) *)
Definition dataUserProcesses : list string := ["seid"; "seidb"].
Definition uses_data (e : proc_entry) : option string :=
  if negb (pe_IsDir e) then None else
  pid ← Atoi (pe_Name e); comm ← pe_comm e;
  let name := TrimSpace comm in
  if mem name dataUserProcesses then Some (name +:+ " (pid " +:+ pretty pid +:+ ")") else None.
Definition findDataUsers (proc : result (list proc_entry)) : result (list string) :=
  match proc with
  | Err e => Err ("reading /proc: " +:+ e)
  | Ok entries => Ok (omap uses_data entries)
  end.

(** ** Waiting *)
Inductive signal := SIGTERM | SIGKILL.

(** What a [select] of a loop meets: its context ends, its deadline passes, or
    the ticker fires, at a time, and the process is found alive or not. *)
Inductive wake := Cancelled (err : string) | Deadline | Tick (now : Z) (alive : bool).

(** How far a task got: it ended, or waits for what the world does next. *)
Inductive answer := Ended (r : result unit) | Waiting.
Definition task := (list (Z * signal) * answer)%type.

(** ** [actions.GracefulStop] (process.go) *)
Definition DefaultGracePeriod : string := "30s".
Fixpoint grace_loop (kill : option proc_error) (pid : Z) (wakes : list wake) : task :=
  match wakes with
  | [] => ([], Waiting)
  | Cancelled err :: _ => ([], Ended (Err err))
  | Deadline :: _ =>
      ([(pid, SIGKILL)],
       match kill with
       | Some err => if isProcessGone err then Ended (Ok tt)
                     else Ended (Err ("sending SIGKILL to pid " +:+ pretty pid +:+ ": " +:+ pr_text err))
       | None => Ended (Ok tt)
       end)
  | Tick _ alive :: wakes' => if alive then grace_loop kill pid wakes' else ([], Ended (Ok tt))
  end.
Definition GracefulStop (found : proc_error + Z) (processName : string) (term kill : option proc_error)
    (wakes : list wake) : task :=
  match found with
  | inl err =>
      ([], Ended (if isProcessGone err then Ok tt
                  else Err ("finding " +:+ processName +:+ " process: " +:+ pr_text err)))
  | inr pid =>
      match term with
      | Some err =>
          ([(pid, SIGTERM)],
           Ended (if isProcessGone err then Ok tt
                  else Err ("sending SIGTERM to pid " +:+ pretty pid +:+ ": " +:+ pr_text err)))
      | None => let '(log, r) := grace_loop kill pid wakes in ((pid, SIGTERM) :: log, r)
      end
  end.

(** ** [seidStopper] (stop_seid.go): never SIGKILL *)
Fixpoint stop_loop (grace : string) (pid : Z) (wakes : list wake) : answer :=
  match wakes with
  | [] => Waiting
  | Cancelled err :: _ => Ended (Err err)
  | Deadline :: _ =>
      Ended (Err ("seid pid " +:+ pretty pid +:+ " still alive " +:+ grace +:+
                  " after SIGTERM; leaving it running (not force-killing a validator mid-commit)"))
  | Tick _ alive :: wakes' => if alive then stop_loop grace pid wakes' else Ended (Ok tt)
  end.
Definition stopper_gracefulStop (grace : string) (term : option proc_error) (pid : Z) (wakes : list wake) : task :=
  ([(pid, SIGTERM)],
   match term with
   | Some err => Ended (Err ("sending SIGTERM to seid pid " +:+ pretty pid +:+ ": " +:+ pr_text err))
   | None => stop_loop grace pid wakes
   end).
Definition stopper_stop (op grace : string) (found : proc_error + Z) (probeUp : bool) (term : option proc_error)
    (wakes : list wake) : task :=
  match found with
  | inl err =>
      ([], if probeUp
           then Ended (Err ("seid RPC is serving but its process was not found in /proc: " +:+ pr_text err +:+
                            " — refusing to report a " +:+ op +:+ " that did not happen"))
           else Ended (Ok tt))
  | inr pid => stopper_gracefulStop grace term pid wakes
  end.
Definition restartSeidGracePeriod : string := "1m30s".

(** What the stop phase meets: /proc, the up-check, the answer to SIGTERM and
    the rounds of the wait. *)
Record stop_scene := mkStop {
  ss_proc : result (list proc_entry); ss_up : option UpCheck -> bool;
  ss_term : option proc_error; ss_wakes : list wake;
}.
Definition stop_phase (op : string) (upCheck : option UpCheck) (s : stop_scene) : task :=
  stopper_stop op restartSeidGracePeriod (seidStart_FindPID (ss_proc s)) (ss_up s upCheck) (ss_term s) (ss_wakes s).
Definition checked (op : string) (upCheck : option UpCheck) (run : task) : task :=
  match upCheck with
  | Some u => match UpCheck_Validate u with Err e => ([], Ended (Err (op +:+ ": " +:+ e))) | Ok _ => run end
  | None => run
  end.

Definition StopSeider_Handler (upCheck : option UpCheck) (s : stop_scene) : task :=
  checked "stop-seid" upCheck (stop_phase "stop" upCheck s).

(** ** [RestartSeider] (restart_seid.go) *)
Definition restartSeidUpTimeout : Z := 300.

(** A round of [waitForUp]: the probe's answer, then the branch of the select. *)
Fixpoint waitForUp (deadline : Z) (rounds : list (bool * wake)) : answer :=
  match rounds with
  | [] => Waiting
  | (up, w) :: rounds' =>
      if up then Ended (Ok tt) else
      match w with
      | Cancelled err => Ended (Err err)
      | Tick now _ => if (deadline <? now)%Z then Ended (Err "seid did not come up within 5m0s after restart")
                      else waitForUp deadline rounds'
      | Deadline => waitForUp deadline rounds'
      end
  end.
Definition RestartSeider_Handler (upCheck : option UpCheck) (s : stop_scene) (start : Z)
    (rounds : list (bool * wake)) : task :=
  checked "restart-seid" upCheck
    (let '(log, stopped) := stop_phase "restart" upCheck s in
     match stopped with
     | Ended (Ok _) => (log, waitForUp (start + restartSeidUpTimeout) rounds)
     | _ => (log, stopped)
     end).

(** The up-check a caller names, against what the loopback answers. *)
Definition upCheckProbe (tcp : Z -> bool) (http : string -> option Z) (u : UpCheck) : bool :=
  match uc_Scheme u with
  | UpCheckTCP => tcp (uc_Port u)
  | UpCheckHTTP =>
      match http ("http://127.0.0.1:" +:+ pretty (uc_Port u) +:+ uc_Path u) with
      | Some code => (200 <=? code)%Z && (code <? 300)%Z
      | None => false
      end
  end.
Definition seidRPCUp `{RpcTexts} (Do : string -> http_answer) (endpoint : string) : bool := is_ok (Status Do endpoint).

(** ** [SeidStartAwaiter] (await_seid_start.go) *)
Fixpoint awaitSeidStart (rounds : list (result (list proc_entry) * wake)) : answer :=
  match rounds with
  | [] => Waiting
  | (proc, w) :: rounds' =>
      match seidStart_FindPID proc with
      | inr _ => Ended (Ok tt)
      | inl _ =>
          match w with
          | Cancelled err => Ended (Err ("await-seid-start: seid start not running after 2m0s: " +:+ err))
          | _ => awaitSeidStart rounds'
          end
      end
  end.

(** ** [ConditionWaiter] (await_condition.go) *)
Record AwaitConditionRequest := mkAwaitCondition { ac_Condition : string; ac_Action : string; ac_TargetHeight : Z }.

(** A round of a poll: the branch of the select, then the status that is read. *)
Fixpoint awaitStatus (met : NodeStatus -> bool) (rounds : list (wake * result NodeStatus)) : answer :=
  match rounds with
  | [] => Waiting
  | (Cancelled err, _) :: _ => Ended (Err err)
  | (_, Ok st) :: rounds' => if met st then Ended (Ok tt) else awaitStatus met rounds'
  | (_, Err _) :: rounds' => awaitStatus met rounds'
  end.
Definition awaitHeight (targetHeight : Z) := awaitStatus (fun st => (targetHeight <=? LatestBlockHeight st)%Z).
Definition awaitCaughtUp := awaitStatus (fun st => negb (CatchingUp st) && (1 <? LatestBlockHeight st)%Z).

Definition executeAction (action : string) (proc : result (list proc_entry)) (term kill : option proc_error)
    (wakes : list wake) : task :=
  if action =s "SIGTERM_SEID" then GracefulStop (FindPID "seid" proc) "seid" term kill wakes
  else ([], Ended (Err ("unknown action " +:+ quote action))).

Definition ConditionWaiter_Handler (params : AwaitConditionRequest) (rounds : list (wake * result NodeStatus))
    (proc : result (list proc_entry)) (term kill : option proc_error) (wakes : list wake) : task :=
  if ac_Condition params =s "" then ([], Ended (Err "condition is required")) else
  let met :=
    if ac_Condition params =s "height" then
      if (ac_TargetHeight params <=? 0)%Z
      then Ended (Err ("targetHeight must be > 0, got " +:+ pretty (ac_TargetHeight params)))
      else awaitHeight (ac_TargetHeight params) rounds
    else if ac_Condition params =s "catchingUp" then awaitCaughtUp rounds
    else Ended (Err ("unknown condition " +:+ quote (ac_Condition params))) in
  match met with
  | Ended (Ok _) =>
      if ac_Action params =s "" then ([], Ended (Ok tt))
      else executeAction (ac_Action params) proc term kill wakes
  | _ => ([], met)
  end.

(** ** Lemmas on /proc *)
Lemma find_proc_Some test entries pid :
  find_proc test entries = Some pid ->
  exists e, e ∈ entries /\ pe_IsDir e = true /\ Atoi (pe_Name e) = Some pid /\ test e = true.
Proof.
  induction entries as [|e entries IH]; [done|]. simpl. intros H.
  destruct (pe_IsDir e) eqn:Ed; simpl in H; [|destruct (IH H) as (x & ? & ?); exists x; split; [by right|done]].
  destruct (Atoi (pe_Name e)) eqn:Ea; [|destruct (IH H) as (x & ? & ?); exists x; split; [by right|done]].
  destruct (test e) eqn:Et; [|destruct (IH H) as (x & ? & ?); exists x; split; [by right|done]].
  simplify_eq. exists e. split; [left|done].
Qed.
Lemma find_proc_None test entries e pid :
  find_proc test entries = None -> e ∈ entries -> pe_IsDir e = true -> Atoi (pe_Name e) = Some pid -> test e = false.
Proof.
  induction entries as [|e0 entries IH]; intros Hn He Hd Ha; [by apply elem_of_nil in He|]. simpl in Hn.
  apply elem_of_cons in He as [->|He].
  - rewrite Hd, Ha in Hn. simpl in Hn. by destruct (test e0).
  - destruct (pe_IsDir e0), (Atoi (pe_Name e0)), (test e0); simpl in Hn; try done; by apply IH.
Qed.

(** What a process that runs [seid start] shows: its comm is seid, and its
    command line, which NULs separate, is an executable named seid, alone or at
    the end of a path, then start. *)
Definition seid_start (e : proc_entry) : Prop :=
  exists comm cmdline exe args, pe_comm e = Some comm /\ pe_cmdline e = Some cmdline /\ TrimSpace comm = "seid" /\
    split_on nul (trim_nul cmdline) = exe :: "start" :: args /\ (exe = "seid" \/ exists dir, exe = dir +:+ "/seid").
Definition unreadable (e : proc_entry) : Prop := pe_comm e = None \/ pe_cmdline e = None.

(** The processes of a snapshot that run [seid start]. *)
Definition seid_runs (proc : result (list proc_entry)) (pid : Z) : Prop :=
  exists entries e, proc = Ok entries /\ e ∈ entries /\ pe_IsDir e = true /\
    Atoi (pe_Name e) = Some pid /\ seid_start e.

(** /proc shows none: it cannot be read at all, or each of its processes cannot
    be read or shows something else. *)
Definition no_seid_shown (proc : result (list proc_entry)) : Prop :=
  (exists err, proc = Err err) \/
  exists entries, proc = Ok entries /\
    forall e pid, e ∈ entries -> pe_IsDir e = true -> Atoi (pe_Name e) = Some pid -> unreadable e \/ ~ seid_start e.

Lemma has_suffix_spec suf s : has_suffix suf s = true <-> exists dir, s = dir +:+ suf.
Proof.
  split.
  - induction s as [|c s IH]; cbn [has_suffix]; intros [H|H]%orb_true_iff; try done;
      try (apply String.eqb_eq in H as <-; by exists "").
    destruct (IH H) as [dir ->]. by exists (String c dir).
  - intros [dir ->]. induction dir as [|c dir IH]; cbn [has_suffix String.append].
    + change ("" +:+ suf) with suf. destruct suf; cbn [has_suffix]; by rewrite String.eqb_refl.
    + change (String c dir +:+ suf) with (String c (dir +:+ suf)). cbn [has_suffix]. by rewrite IH, orb_true_r.
Qed.
Lemma runs_seid_start_iff e : runs_seid_start e = true <-> seid_start e.
Proof.
  unfold runs_seid_start, seid_start, isSeidStart, restartSeidProcess. split.
  - destruct (pe_comm e) as [comm|]; [|done]. destruct (TrimSpace comm <>s "seid") eqn:Ec; [done|].
    apply negb_false_iff, String.eqb_eq in Ec.
    destruct (pe_cmdline e) as [cmdline|]; [|done].
    destruct (split_on nul (trim_nul cmdline)) as [|exe [|arg args]] eqn:Es; [done..|].
    destruct (_ && _) eqn:Ex; [done|]. intros Ha%String.eqb_eq. subst arg.
    exists comm, cmdline, exe, args. split_and!; [done..|].
    apply andb_false_iff in Ex as [Ex|Ex]; apply negb_false_iff in Ex.
    + left. by apply String.eqb_eq.
    + right. by apply has_suffix_spec in Ex.
  - intros (comm & cmdline & exe & args & -> & -> & -> & -> & Hexe).
    assert (Hx : (exe <>s "seid") && negb (has_suffix ("/" +:+ "seid") exe) = false).
    { destruct Hexe as [->|[dir ->]]; [done|]. rewrite (proj2 (has_suffix_spec _ _)); [apply andb_false_r|by exists dir]. }
    change (negb ("seid" =s "seid")) with false. cbv iota. by rewrite Hx.
Qed.

Lemma seidStart_found proc pid : seidStart_FindPID proc = inr pid -> seid_runs proc pid.
Proof.
  unfold seidStart_FindPID, search. destruct proc as [entries|]; [|done].
  destruct (find_proc _ entries) as [p|] eqn:E; [|done]. intros [= ->].
  destruct (find_proc_Some _ _ _ E) as (e & ? & ? & ? & Hr%runs_seid_start_iff). by exists entries, e.
Qed.
Lemma seidStart_missed proc err : seidStart_FindPID proc = inl err -> no_seid_shown proc.
Proof.
  unfold seidStart_FindPID, search. intros Hf. destruct proc as [entries|e]; [right|left; by eexists].
  exists entries. split; [done|]. intros e pid He Hd Ha. right. intros Hr%runs_seid_start_iff.
  destruct (find_proc runs_seid_start entries) eqn:E; [done|].
  by rewrite (find_proc_None _ _ _ _ E He Hd Ha) in Hr.
Qed.

(** Whoever stop-seid would signal, reset-data refuses to wipe under. *)
Lemma seid_runs_uses_data proc pid users : seid_runs proc pid -> findDataUsers proc = Ok users -> users <> [].
Proof.
  intros (entries & e & -> & He & Hd & Ha & Hr%runs_seid_start_iff) [= <-].
  assert (Hu : uses_data e <> None).
  { unfold uses_data. rewrite Hd, Ha. simpl. unfold runs_seid_start in Hr.
    destruct (pe_comm e) as [comm|]; [|done]. simpl.
    destruct (TrimSpace comm <>s restartSeidProcess) eqn:E; [done|].
    apply negb_false_iff, String.eqb_eq in E. by rewrite E. }
  intros Hnil. destruct (uses_data e) as [u|] eqn:Eu; [|done].
  assert (Hin : u ∈ omap uses_data entries) by (apply list_elem_of_omap; eauto).
  rewrite Hnil in Hin. by apply elem_of_nil in Hin.
Qed.

(** ** What stopping sends, and what its success means *)

(** The rounds in which the process was seen dead: the first tick that did not
    find it alive, with nothing but live ticks before it. *)
Definition seen_dead (wakes : list wake) : Prop :=
  exists before now after, wakes = before ++ Tick now false :: after /\
    Forall (fun w => exists t, w = Tick t true) before.

Lemma stop_loop_ok grace pid wakes : stop_loop grace pid wakes = Ended (Ok tt) -> seen_dead wakes.
Proof.
  induction wakes as [|[err| |now []] wakes IH]; simpl; try done.
  - intros H. destruct (IH H) as (b & t & a & -> & Hb). exists (Tick now true :: b), t, a.
    split; [done|]. constructor; [eauto|done].
  - intros _. by exists [], now, wakes.
Qed.
Lemma stop_loop_answers grace pid wakes :
  Exists (fun w => forall t, w <> Tick t true) wakes -> stop_loop grace pid wakes <> Waiting.
Proof. induction 1 as [w wakes Hw|w wakes Hw IH]; simpl; destruct w as [| |t []]; try done. by destruct (Hw t). Qed.

Lemma stop_phase_spec op upCheck s log r :
  stop_phase op upCheck s = (log, r) ->
  (log = [] \/ exists pid, log = [(pid, SIGTERM)] /\ seid_runs (ss_proc s) pid) /\
  (r = Ended (Ok tt) ->
     (log <> [] /\ ss_term s = None /\ seen_dead (ss_wakes s)) \/
     (log = [] /\ ss_up s upCheck = false /\ no_seid_shown (ss_proc s))) /\
  (Exists (fun w => forall t, w <> Tick t true) (ss_wakes s) -> r <> Waiting).
Proof.
  unfold stop_phase, stopper_stop. destruct (seidStart_FindPID (ss_proc s)) as [err|pid] eqn:Ef.
  - intros [= <- <-]. split_and!; [by left| |by destruct (ss_up s upCheck)].
    destruct (ss_up s upCheck) eqn:Eu; [done|]. intros _. right. split_and!; [done..|].
    by apply (seidStart_missed _ err).
  - unfold stopper_gracefulStop. intros [= <- <-]. split_and!.
    + right. exists pid. split; [done|]. by apply seidStart_found.
    + destruct (ss_term s); [done|]. intros Hr. left. split_and!; [done..|]. by eapply stop_loop_ok.
    + intros Hex. destruct (ss_term s); [done|]. by apply stop_loop_answers.
Qed.

(** C9: Stop-seid stops gently. Whatever it meets, it sends at most one signal, a
    SIGTERM to a process whose comm is seid and whose command line is that of
    seid start, and never a SIGKILL. It succeeds in two cases only: it saw the
    process it signalled dead before the grace ended; or it sent nothing, the
    up-check was silent, and /proc showed no such process, because every
    process it could read is another one or because /proc or the process's own
    entries could not be read (an unreadable /proc is taken for an empty one,
    [unreadable_proc_is_stopped]). And once the process is seen dead, the grace
    ends or the task is cancelled, it answers. *)
Theorem stop_seid_gentle (upCheck : option UpCheck) (s : stop_scene) :
  let '(log, r) := StopSeider_Handler upCheck s in
  (log = [] \/ exists pid, log = [(pid, SIGTERM)] /\ seid_runs (ss_proc s) pid) /\
  (r = Ended (Ok tt) ->
     (log <> [] /\ ss_term s = None /\ seen_dead (ss_wakes s)) \/
     (log = [] /\ ss_up s upCheck = false /\ no_seid_shown (ss_proc s))) /\
  (Exists (fun w => forall t, w <> Tick t true) (ss_wakes s) -> r <> Waiting).
Proof.
  unfold StopSeider_Handler, checked. destruct (stop_phase "stop" upCheck s) as [log r] eqn:E.
  pose proof (stop_phase_spec _ _ _ _ _ E) as H.
  destruct upCheck as [u|]; [|exact H]. destruct (UpCheck_Validate u); [exact H|].
  split_and!; [by left|done..].
Qed.

(** /proc that cannot be read counts as no process: with the up-check silent, as
    it is while seid loads its state, stop-seid reports a stop it did not make.
    Its comment promises that only when /proc shows no seid. *)
Theorem unreadable_proc_is_stopped (e : string) :
  StopSeider_Handler None (mkStop (Err e) (fun _ => false) None []) = ([], Ended (Ok tt)).
Proof. reflexivity. Qed.

(** Property: A restart is a stop that did happen and then an up-check that answered: it
    sends what the stop sends, and succeeds only after both. *)
Lemma restart_seid_spec (upCheck : option UpCheck) (s : stop_scene) start rounds :
  let '(log, r) := RestartSeider_Handler upCheck s start rounds in
  (log = [] \/ exists pid, log = [(pid, SIGTERM)] /\ seid_runs (ss_proc s) pid) /\
  (r = Ended (Ok tt) ->
     ((log <> [] /\ ss_term s = None /\ seen_dead (ss_wakes s)) \/
      (log = [] /\ ss_up s upCheck = false /\ no_seid_shown (ss_proc s))) /\
     exists w, (true, w) ∈ rounds).
Proof.
  unfold RestartSeider_Handler, checked. destruct (stop_phase "restart" upCheck s) as [log stopped] eqn:E.
  destruct (stop_phase_spec _ _ _ _ _ E) as (Hlog & Hok & _).
  assert (Hup : forall d, waitForUp d rounds = Ended (Ok tt) -> exists w, (true, w) ∈ rounds).
  { intros d. clear. induction rounds as [|[[] w] rounds IH]; simpl; [done|intros _; exists w; left|].
    destruct w as [| |now alive]; [done| |destruct (d <? now)%Z; [done|]];
      intros H; destruct (IH H) as [w' ?]; exists w'; by right. }
  assert (Hrun : let '(log, r) := match stopped with
                   | Ended (Ok _) => (log, waitForUp (start + restartSeidUpTimeout) rounds)
                   | _ => (log, stopped) end in
     (log = [] \/ exists pid, log = [(pid, SIGTERM)] /\ seid_runs (ss_proc s) pid) /\
     (r = Ended (Ok tt) ->
       ((log <> [] /\ ss_term s = None /\ seen_dead (ss_wakes s)) \/
        (log = [] /\ ss_up s upCheck = false /\ no_seid_shown (ss_proc s))) /\
       exists w, (true, w) ∈ rounds)).
  { destruct stopped as [[[]|e]|]; (split; [exact Hlog|]); intros Hr; [|done..].
    split; [by apply Hok|]. by eapply Hup. }
  destruct upCheck as [u|]; [|exact Hrun]. destruct (UpCheck_Validate u); [exact Hrun|].
  split; [by left|done].
Qed.

(** A round that finds seid up, is cancelled, or comes after the deadline ends
    the wait: the wait is bounded by the clock. *)
Lemma waitForUp_answers deadline rounds :
  Exists (fun '(up, w) => up = true \/ (exists e, w = Cancelled e) \/ (exists t a, w = Tick t a /\ (deadline < t)%Z)) rounds ->
  waitForUp deadline rounds <> Waiting.
Proof.
  induction 1 as [[up w] rounds Hw|[up w] rounds Hw IH]; simpl.
  - destruct up; [done|]. destruct Hw as [?|[[e ->]|(t & a & -> & Ht)]]; [done..|].
    by rewrite (proj2 (Z.ltb_lt _ _) Ht).
  - destruct up; [done|]. destruct w as [| |now alive]; [done..|]. by destruct (deadline <? now)%Z.
Qed.

(** ** The condition waiter *)
Lemma awaitStatus_ok met rounds :
  awaitStatus met rounds = Ended (Ok tt) -> exists w st, (w, Ok st) ∈ rounds /\ met st = true.
Proof.
  induction rounds as [|[w [st|e]] rounds IH]; simpl; [done|..].
  - destruct (met st) eqn:Em; [|destruct w]; intros H.
    + destruct w; [done|..]; eexists _, st; (split; [left|done]).
    + done.
    + destruct (IH H) as (w & st' & ? & ?). exists w, st'. split; [by right|done].
    + destruct (IH H) as (w & st' & ? & ?). exists w, st'. split; [by right|done].
  - intros H. assert (H' : awaitStatus met rounds = Ended (Ok tt)) by by destruct w.
    destruct (IH H') as (w' & st' & ? & ?). exists w', st'. split; [by right|done].
Qed.

(** Property: The post-condition action runs only after the condition was read
    from the node, signals one process whose command is seid, and kills it only
    after a SIGTERM and its grace period. *)
Lemma await_condition_spec params rounds proc term kill wakes :
  let '(log, r) := ConditionWaiter_Handler params rounds proc term kill wakes in
  (log <> [] \/ r = Ended (Ok tt) ->
     exists w st, (w, Ok st) ∈ rounds /\
       (ac_Condition params = "height" -> (ac_TargetHeight params <= LatestBlockHeight st)%Z) /\
       (ac_Condition params = "catchingUp" -> CatchingUp st = false /\ (1 < LatestBlockHeight st)%Z)) /\
  (log = [] \/ exists pid, (log = [(pid, SIGTERM)] \/ (log = [(pid, SIGTERM); (pid, SIGKILL)] /\ Deadline ∈ wakes)) /\
     FindPID "seid" proc = inr pid).
Proof.
  assert (Hact : forall a, let '(log, r) := executeAction a proc term kill wakes in
    log = [] \/ exists pid, (log = [(pid, SIGTERM)] \/ (log = [(pid, SIGTERM); (pid, SIGKILL)] /\ Deadline ∈ wakes)) /\
      FindPID "seid" proc = inr pid).
  { intros a. unfold executeAction, GracefulStop. destruct (a =s "SIGTERM_SEID"); [|by left].
    destruct (FindPID "seid" proc) as [err|pid]; [by left|].
    destruct term; [right; exists pid; by split; [left|]|].
    assert (Hg : (grace_loop kill pid wakes).1 = [] \/ ((grace_loop kill pid wakes).1 = [(pid, SIGKILL)] /\ Deadline ∈ wakes)).
    { clear. induction wakes as [|[err| |now []] wakes IH]; simpl; [by left|by left|right; split; [done|left]| |by left].
      destruct IH as [->|[-> ?]]; [by left|right; split; [done|by right]]. }
    destruct (grace_loop kill pid wakes) as [log r]. right. exists pid. split; [|done].
    destruct Hg as [Hg|[Hg ?]]; simpl in Hg; subst log; [by left|by right]. }
  unfold ConditionWaiter_Handler. destruct (ac_Condition params =s "") eqn:E0; [split; [by intros []|by left]|].
  assert (Hdone : forall met, (met = Ended (Ok tt) -> exists w st, (w, Ok st) ∈ rounds /\
       (ac_Condition params = "height" -> (ac_TargetHeight params <= LatestBlockHeight st)%Z) /\
       (ac_Condition params = "catchingUp" -> CatchingUp st = false /\ (1 < LatestBlockHeight st)%Z)) ->
    let '(log, r) := match met with
      | Ended (Ok _) => if ac_Action params =s "" then ([], Ended (Ok tt)) else executeAction (ac_Action params) proc term kill wakes
      | _ => ([], met) end in
    (log <> [] \/ r = Ended (Ok tt) ->
     exists w st, (w, Ok st) ∈ rounds /\
       (ac_Condition params = "height" -> (ac_TargetHeight params <= LatestBlockHeight st)%Z) /\
       (ac_Condition params = "catchingUp" -> CatchingUp st = false /\ (1 < LatestBlockHeight st)%Z)) /\
    (log = [] \/ exists pid, (log = [(pid, SIGTERM)] \/ (log = [(pid, SIGTERM); (pid, SIGKILL)] /\ Deadline ∈ wakes)) /\
      FindPID "seid" proc = inr pid)).
  { intros met Hmet. destruct met as [[[]|e]|]; [|by split; [intros []|left]..].
    specialize (Hact (ac_Action params)). destruct (ac_Action params =s ""); [by split; [intros _; apply Hmet|left]|].
    destruct (executeAction _ _ _ _ _) as [log r]. split; [intros _; by apply Hmet|exact Hact]. }
  apply Hdone. destruct (ac_Condition params =s "height") eqn:Eh.
  - apply String.eqb_eq in Eh. rewrite Eh. destruct (ac_TargetHeight params <=? 0)%Z; [done|].
    intros (w & st & Hin & Hm)%awaitStatus_ok. exists w, st. apply Z.leb_le in Hm. by split_and!.
  - apply String.eqb_neq in Eh. destruct (ac_Condition params =s "catchingUp"); [|done].
    intros (w & st & Hin & [Hc Hm]%andb_true_iff)%awaitStatus_ok. exists w, st.
    apply Z.ltb_lt in Hm. apply negb_true_iff in Hc. by split_and!.
Qed.

(** The task means a seid that has exited to be a success, but the search never
    reports a process as gone: its error is a plain one, and the task fails. *)
Theorem exited_seid_fails_the_action (entries : list proc_entry) term kill wakes :
  find_proc (names_process "seid") entries = None ->
  executeAction "SIGTERM_SEID" (Ok entries) term kill wakes =
  ([], Ended (Err ("finding seid process: process " +:+ quote "seid" +:+ " not found in /proc"))).
Proof. intros H. unfold executeAction, FindPID, search, GracefulStop. simpl. by rewrite H. Qed.

(** ** A pod with a validator, an operator's rollback and the start gate *)
Definition args (l : list string) : string := join (String nul EmptyString) l +:+ String nul EmptyString.
Definition sample_proc : list proc_entry :=
  [mkProc "1" true (Some ("bash" +:+ bytes [10])) (Some (args ["bash"; "-c"; "until healthz; do sleep 5; done; exec seid start"]));
   mkProc "uptime" false None None;
   mkProc "31" true (Some ("seid" +:+ bytes [10])) (Some (args ["/usr/bin/seid"; "rollback"]));
   mkProc "40" true (Some ("seid" +:+ bytes [10])) (Some (args ["/usr/bin/seid"; "start"; "--home"; "/sei"]))].
Example the_started_seid :
  seidStart_FindPID (Ok sample_proc) = inr 40%Z /\ FindPID "seid" (Ok sample_proc) = inr 31%Z /\
  findDataUsers (Ok sample_proc) = Ok ["seid (pid 31)"; "seid (pid 40)"].
Proof. split_and!; reflexivity. Qed.
