(* ===== verification/HomeDir.v ===== *)
(** * The home directory: paths, files and calls that may fail or be cut short
    (src/sidecarapi/tomlpatch/file.go, toml.go and what the file tasks use of [os] and [filepath])

    A file system is a map from cleaned absolute paths to files and directories.
    Links and permissions are left out. A call either does what it says, or it
    fails or the process dies in it, after some part of its effect: some of the
    entries of a tree removed, some bytes written, some parents made. What
    becomes of each call is a list the world holds, so a program is run against
    every way its calls may go. *)

From stdpp Require Import base list strings gmap pretty sorting.
From Stdlib Require Import ZArith Lia Ascii.
From S2P Require Import Prelude Api Platform Config TomlPatch.

(** ** Paths *)
Abbreviation path := (list string).
#[export] Instance path_eq_dec : EqDecision path := list_eq_dec.
#[export] Instance path_countable : Countable path := list_countable.
Definition slash : string := "/".

(** One component of [filepath.Clean]. *)
Definition clean_step (rooted : bool) (acc : path) (c : string) : path :=
  if (c =s "") || (c =s ".") then acc
  else if c =s ".." then
    match last acc with
    | Some d => if d =s ".." then acc ++ [".."] else take (pred (length acc)) acc
    | None => if rooted then [] else [".."]
    end
  else acc ++ [c].
Definition is_abs (s : string) : bool := has_prefix slash s.
Definition clean_comps (rooted : bool) (s : string) : path := fold_left (clean_step rooted) (split_on "/" s) [].
(** [filepath.Clean] *)
Definition Clean (s : string) : string :=
  let c := join slash (clean_comps (is_abs s) s) in
  if is_abs s then slash +:+ c else if c =s "" then "." else c.
(** [filepath.Join(dir, elem)] for a cleaned absolute [dir], and its text. *)
Definition Join (dir : path) (elem : string) : path := fold_left (clean_step true) (split_on "/" elem) dir.
Definition path_text (p : path) : string := slash +:+ join slash p.
Definition Dir_of (p : path) : path := take (pred (length p)) p.
Definition Base (p : path) : string := default slash (last p).
(** Where a configured path leads, taken relative to the home directory. *)
Definition resolve (home : path) (s : string) : path :=
  if is_abs s then clean_comps true s else Join home s.

(** ** Files *)
Inductive entry := File (content : string) | Dir.
Abbreviation tree := (@gmap path path_eq_dec path_countable entry).

#[export] Instance entry_eq_dec : EqDecision entry.
Proof. solve_decision. Defined.

Definition under (p q : path) : bool := bool_decide (p `prefix_of` q).

(** Every entry but the root lies in a directory. *)
Definition closed (t : tree) : Prop := forall p c e, t !! (p ++ [c]) = Some e -> p = [] \/ t !! p = Some Dir.
Definition is_dir (t : tree) (p : path) : bool := match p with [] => true | _ => bool_decide (t !! p = Some Dir) end.

(** The name a path has in a directory, when it lies right in it. *)
Fixpoint name_in (dir q : path) : option string :=
  match dir, q with
  | [], [c] => Some c
  | d :: dir', c :: q' => if d =s c then name_in dir' q' else None
  | _, _ => None
  end.
Definition names_in (t : tree) (dir : path) : list string := omap (fun e => name_in dir e.1) (map_to_list t).

(** ** Calls *)
Record error := mkError { is_not_exist : bool; text : string }.
Inductive outcome (A : Type) := Ret (a : A) | Fail (e : error) | Killed.
Arguments Ret {A} _. Arguments Fail {A} _. Arguments Killed {A}.

(** A call that does not do all it should: the paths it got to, the bytes or
    components, and whether it returns an error or the process dies. *)
Record fault := mkFault { f_paths : list path; f_count : nat; f_error : option string }.

Record disk := mkDisk { d_tree : tree; d_faults : list (option fault); d_names : list string }.
Definition F (A : Type) := disk -> outcome A * disk.

#[export] Instance F_ret : MRet F := fun _ a d => (Ret a, d).
#[export] Instance F_bind : MBind F := fun _ _ f m d =>
  match m d with
  | (Ret a, d') => f a d'
  | (Fail e, d') => (Fail e, d')
  | (Killed, d') => (Killed, d')
  end.
Definition fail {A : Type} (e : error) : F A := fun d => (Fail e, d).
Definition failed {A : Type} (e : string) : F A := fail (mkError false e).
(** The error of a call as a value; death is not one. *)
Definition try {A : Type} (m : F A) : F (error + A) := fun d =>
  match m d with
  | (Ret a, d') => (Ret (inr a), d')
  | (Fail e, d') => (Ret (inl e), d')
  | (Killed, d') => (Killed, d')
  end.
(** [fmt.Errorf("...: %w", err)]; [os.IsNotExist] does not look through it. *)
Definition wrapF {A : Type} (prefix : string) (m : F A) : F A :=
  r ← try m; match r with inl e => failed (prefix +:+ text e) | inr a => mret a end.
Definition lift {A : Type} (r : result A) : F A := match r with Ok a => mret a | Err e => failed e end.

Definition pop_fault (d : disk) : option fault * disk :=
  match d_faults d with
  | [] => (None, d)
  | f :: fs => (f, mkDisk (d_tree d) fs (d_names d))
  end.
(** One call: its whole effect, or the part of it a fault leaves. *)
Definition syscall {A : Type} (op : string) (p : path) (whole : tree -> outcome A * tree) (part : fault -> tree -> tree) : F A :=
  fun d =>
    match pop_fault d with
    | (None, d') => let '(r, t) := whole (d_tree d') in (r, mkDisk t (d_faults d') (d_names d'))
    | (Some f, d') =>
        (match f_error f with
         | Some e => Fail (mkError false (op +:+ " " +:+ path_text p +:+ ": " +:+ e))
         | None => Killed
         end, mkDisk (part f (d_tree d')) (d_faults d') (d_names d'))
    end.
Definition os_error {A : Type} (op : string) (p : path) (e : string) : outcome A :=
  Fail (mkError (e =s "no such file or directory") (op +:+ " " +:+ path_text p +:+ ": " +:+ e)).
Definition ENOENT := "no such file or directory".
Definition ENOTDIR := "not a directory".
Definition EISDIR := "is a directory".
Definition nothing : fault -> tree -> tree := fun _ t => t.

Definition Stat (p : path) : F entry :=
  syscall "stat" p (fun t => (match p, t !! p with
                              | [], _ => Ret Dir
                              | _, Some e => Ret e
                              | _, None => os_error "stat" p ENOENT
                              end, t)) nothing.
Definition ReadDir (p : path) : F (list (string * bool)) :=
  syscall "open" p (fun t => (if is_dir t p then
                                Ret (map (fun n => (n, bool_decide (t !! (p ++ [n]) = Some Dir)))
                                         (merge_sort String.le (names_in t p)))
                              else os_error "open" p (match t !! p with None => ENOENT | Some _ => ENOTDIR end), t))
          nothing.
Definition ReadFile (p : path) : F string :=
  syscall "open" p (fun t => (match t !! p with
                              | Some (File s) => Ret s
                              | Some Dir => os_error "read" p EISDIR
                              | None => os_error "open" p ENOENT
                              end, t)) nothing.

Definition remove_under (p : path) (t : tree) : tree := filter (fun e => under p e.1 = false) t.
Definition remove_some (p : path) (gone : list path) (t : tree) : tree :=
  filter (fun e => (under p e.1 && bool_decide (e.1 ∈ gone)) = false) t.
Definition RemoveAll (p : path) : F unit :=
  syscall "unlinkat" p (fun t => (Ret tt, remove_under p t)) (fun f t => remove_some p (f_paths f) t).
Definition Remove (p : path) : F unit :=
  syscall "remove" p
    (fun t => match t !! p with
              | None => (os_error "remove" p ENOENT, t)
              | Some Dir => if bool_decide (names_in t p = []) then (Ret tt, delete p t)
                            else (os_error "remove" p "directory not empty", t)
              | Some (File _) => (Ret tt, delete p t)
              end)
    (fun f t => match t !! p with Some (File _) => if bool_decide (p ∈ f_paths f) then delete p t else t | _ => t end).

(** Parents are made one after the other. *)
Fixpoint make_dirs (t : tree) (done todo : path) : outcome unit * tree :=
  match todo with
  | [] => (Ret tt, t)
  | c :: todo' =>
      let p := done ++ [c] in
      match t !! p with
      | Some Dir => make_dirs t p todo'
      | Some (File _) => (os_error "mkdir" p ENOTDIR, t)
      | None => make_dirs (<[p := Dir]> t) p todo'
      end
  end.
Definition MkdirAll (p : path) : F unit :=
  syscall "mkdir" p (fun t => make_dirs t [] p) (fun f t => (make_dirs t [] (take (f_count f) p)).2).

(** [os.OpenFile] with [O_WRONLY|O_CREATE|O_TRUNC]: the file is empty from then on. *)
Definition open_trunc (p : path) (t : tree) : outcome unit * tree :=
  if negb (is_dir t (Dir_of p)) then (os_error "open" p ENOENT, t)
  else match t !! p with
       | Some Dir => (os_error "open" p EISDIR, t)
       | _ => (Ret tt, <[p := File ""]> t)
       end.
Definition OpenTrunc (p : path) : F unit :=
  syscall "open" p (open_trunc p) (fun f t => if f_count f =? 0 then t else (open_trunc p t).2).
(** A write of all the content to an open file: what reached it may be a part. *)
Definition Write (p : path) (content : string) : F unit :=
  syscall "write" p (fun t => (Ret tt, <[p := File content]> t))
          (fun f t => <[p := File (String.substring 0 (f_count f) content)]> t).
Definition Sync (p : path) : F unit := syscall "sync" p (fun t => (Ret tt, t)) nothing.
Definition Close (p : path) : F unit := syscall "close" p (fun t => (Ret tt, t)) nothing.
Definition Chmod (p : path) : F unit := syscall "chmod" p (fun t => (Ret tt, t)) nothing.
Definition rename_to (p q : path) (t : tree) : outcome unit * tree :=
  match t !! p, t !! q with
  | Some (File s), Some Dir => (os_error "rename" p "file exists", t)
  | Some (File s), _ => (Ret tt, <[q := File s]> (delete p t))
  | _, _ => (os_error "rename" p ENOENT, t)
  end.
Definition Rename (p q : path) : F unit :=
  syscall "rename" p (rename_to p q) (fun f t => if f_count f =? 0 then t else (rename_to p q t).2).

(** [os.CreateTemp(dir, ".tmp-*")]: random names until one is free. *)
Fixpoint free_name (t : tree) (dir : path) (names : list string) : option (path * list string) :=
  match names with
  | [] => None
  | n :: names' =>
      let p := dir ++ [".tmp-" +:+ n] in
      match t !! p with None => Some (p, names') | Some _ => free_name t dir names' end
  end.
Definition CreateTemp (dir : path) : F path := fun d =>
  match free_name (d_tree d) dir (d_names d) with
  | None => (Fail (mkError false "createtemp: file exists"), mkDisk (d_tree d) (d_faults d) [])
  | Some (p, names) => (_ ← OpenTrunc p; mret p) (mkDisk (d_tree d) (d_faults d) names)
  end.

(** ** [WriteFileAtomic] (file.go): a temporary file, then a rename *)
Definition WriteFileAtomic (p : path) (content : string) : F unit :=
  tmp ← CreateTemp (Dir_of p);
  r ← try (_ ← Write tmp content; _ ← Sync tmp; Close tmp);
  match r with
  | inl err => _ ← try (Close tmp); _ ← try (Remove tmp); fail err
  | inr _ => _ ← Chmod tmp; Rename tmp p
  end.

(** ** TOML files (toml.go) over the library that reads and writes the format *)
Class TomlLib := {
  toml_Unmarshal : string -> result table;
  toml_Encode : table -> result string;
}.

(** A missing file is an empty document. *)
Definition ReadTOML `{TomlLib} (p : path) : F table :=
  r ← try (ReadFile p);
  match r with
  | inl err => if is_not_exist err then mret [] else fail err
  | inr data => lift (toml_Unmarshal data)
  end.
Definition WriteTOML `{TomlLib} (p : path) (doc : table) : F unit :=
  content ← lift (wrap_err "encoding TOML: " (toml_Encode doc));
  WriteFileAtomic p content.

(** [os.WriteFile] *)
Definition WriteFile (p : path) (content : string) : F unit :=
  _ ← OpenTrunc p; _ ← Write p content; Close p.

(** ** Reasoning about programs over the tree

    [triple P m Q E K]: from a tree that satisfies [P], whatever becomes of the
    calls, [m] returns in a tree [Q], fails in a tree [E], or dies in a tree [K]. *)
Definition triple {A : Type} (P : tree -> Prop) (m : F A) (Q : A -> tree -> Prop) (E : error -> tree -> Prop) (K : tree -> Prop) : Prop :=
  forall d, P (d_tree d) ->
  match m d with
  | (Ret a, d') => Q a (d_tree d')
  | (Fail e, d') => E e (d_tree d')
  | (Killed, d') => K (d_tree d')
  end.
(** [m] keeps a property of the tree, however it ends. *)
Definition keeps {A : Type} (I : tree -> Prop) (m : F A) : Prop := triple I m (fun _ => I) (fun _ => I) I.

Lemma disk_ret {A : Type} (P : tree -> Prop) (a : A) Q E K : (forall t, P t -> Q a t) -> triple P (mret a) Q E K.
Proof. intros H d Hd. by apply H. Qed.
Lemma disk_fail {A : Type} (P : tree -> Prop) e Q (E : error -> tree -> Prop) K :
  (forall t, P t -> E e t) -> triple (A := A) P (fail e) Q E K.
Proof. intros H d Hd. by apply H. Qed.
Lemma disk_bind {A B : Type} P (m : F A) (f : A -> F B) Q1 Q E K :
  triple P m Q1 E K -> (forall a, triple (Q1 a) (f a) Q E K) -> triple P (m ≫= f) Q E K.
Proof.
  intros Hm Hf d Hd. specialize (Hm d Hd). unfold mbind, F_bind.
  destruct (m d) as [[a|e|] d']; [by apply Hf|done..].
Qed.
Lemma disk_try {A : Type} P (m : F A) Q E K Q' E' :
  triple P m Q E K -> (forall a t, Q a t -> Q' (inr a) t) -> (forall e t, E e t -> Q' (inl e) t) ->
  triple P (try m) Q' E' K.
Proof.
  intros Hm H1 H2 d Hd. specialize (Hm d Hd). unfold try. destruct (m d) as [[a|e|] d']; auto.
Qed.
Lemma disk_conseq {A : Type} (P P' : tree -> Prop) (m : F A) (Q Q' : A -> tree -> Prop) (E E' : error -> tree -> Prop) (K K' : tree -> Prop) :
  triple P' m Q' E' K' -> (forall t, P t -> P' t) -> (forall a t, Q' a t -> Q a t) ->
  (forall e t, E' e t -> E e t) -> (forall t, K' t -> K t) -> triple P m Q E K.
Proof. intros Hm HP HQ HE HK d Hd. specialize (Hm d (HP _ Hd)). destruct (m d) as [[a|e|] d']; auto. Qed.
Lemma disk_wrap {A : Type} P (m : F A) prefix Q (E : error -> tree -> Prop) K :
  triple P m Q (fun _ t => forall e, E e t) K -> triple P (wrapF prefix m) Q E K.
Proof.
  intros Hm. unfold wrapF. eapply disk_bind.
  - eapply (disk_try _ _ _ _ _ (fun r t => match r with inl _ => forall e, E e t | inr a => Q a t end)); [exact Hm|auto..].
  - intros [e|a]; [apply disk_fail; auto|apply disk_ret; auto].
Qed.
Lemma disk_lift {A : Type} (P : tree -> Prop) (r : result A) Q (E : error -> tree -> Prop) K :
  (forall a t, r = Ok a -> P t -> Q a t) -> (forall e t, P t -> E e t) -> triple P (lift r) Q E K.
Proof. intros H1 H2. destruct r; [apply disk_ret; auto|apply disk_fail; auto]. Qed.

Lemma disk_syscall {A : Type} op p whole part P (Q : A -> tree -> Prop) (E : error -> tree -> Prop) (K : tree -> Prop) :
  (forall t, P t -> match whole t with (Ret a, t') => Q a t' | (Fail e, t') => E e t' | (Killed, t') => K t' end) ->
  (forall f t, P t -> K (part f t) /\ forall e, is_not_exist e = false -> E e (part f t)) ->
  triple P (syscall op p whole part) Q E K.
Proof.
  intros Hw Hp d Hd. unfold syscall.
  assert (Hpop : exists fs, pop_fault d = (None, mkDisk (d_tree d) fs (d_names d)) \/
                 exists f, pop_fault d = (Some f, mkDisk (d_tree d) fs (d_names d))).
  { unfold pop_fault. destruct d as [t [|[f|] fs] names]; simpl; eauto. }
  destruct Hpop as (fs & [->|(f & ->)]); simpl.
  - specialize (Hw _ Hd). by destruct (whole (d_tree d)) as [[a|e|] t'].
  - destruct (Hp f _ Hd) as [HK HE]. destruct (f_error f); simpl; [by apply HE|done].
Qed.
(** A call that only reads. *)
Lemma disk_read {A : Type} op p (get : tree -> outcome A) P (Q : A -> tree -> Prop) (E : error -> tree -> Prop) K :
  (forall t, P t -> match get t with Ret a => Q a t | Fail e => E e t | Killed => K t end) ->
  (forall t, P t -> K t /\ forall e, is_not_exist e = false -> E e t) ->
  triple P (syscall op p (fun t => (get t, t)) nothing) Q E K.
Proof. intros H1 H2. apply disk_syscall; [|intros f t Hp; by apply H2]. intros t Hp. specialize (H1 t Hp). by destruct (get t). Qed.

(** ** What the calls change *)
Lemma under_spec p q : under p q = true <-> exists r, q = p ++ r.
Proof. unfold under. rewrite bool_decide_eq_true. done. Qed.
Lemma not_under p q : under p q = false <-> forall r, q <> p ++ r.
Proof.
  split; [|intros H; apply not_true_is_false; intros [r ->]%under_spec; by apply (H r)].
  intros H r ->. assert (under p (p ++ r) = true) by (apply under_spec; by exists r). congruence.
Qed.
Lemma lookup_remove_under p t q : remove_under p t !! q = if under p q then None else t !! q.
Proof.
  unfold remove_under. destruct (under p q) eqn:Hu.
  - apply map_lookup_filter_None. right. intros e _. simpl. by rewrite Hu.
  - destruct (t !! q) eqn:E; [apply map_lookup_filter_Some; by split|apply map_lookup_filter_None; by left].
Qed.
Lemma lookup_remove_some p gone t q : under p q = false -> remove_some p gone t !! q = t !! q.
Proof.
  intros Hu. unfold remove_some. destruct (t !! q) eqn:E.
  - apply map_lookup_filter_Some. split; [done|]. simpl. by rewrite Hu.
  - apply map_lookup_filter_None. by left.
Qed.
Lemma lookup_remove_some_None p gone t q : t !! q = None -> remove_some p gone t !! q = None.
Proof. intros E. apply map_lookup_filter_None. by left. Qed.

(** Directories are made where nothing was, on the way to the path. *)
Definition dirs_made (p : path) (t t' : tree) : Prop :=
  forall q, t' !! q = t !! q \/ (t !! q = None /\ t' !! q = Some Dir /\ q `prefix_of` p).
Lemma dirs_made_refl p t : dirs_made p t t.
Proof. intros q. by left. Qed.
Lemma make_dirs_made todo : forall t top,
  dirs_made (top ++ todo) t (make_dirs t top todo).2 /\
  ((make_dirs t top todo).1 = Ret tt -> todo <> [] -> (make_dirs t top todo).2 !! (top ++ todo) = Some Dir) /\
  (forall e, (make_dirs t top todo).1 = Fail e -> is_not_exist e = false) /\ (make_dirs t top todo).1 <> Killed.
Proof.
  induction todo as [|c todo IH]; intros t top; simpl; [split_and!; [apply dirs_made_refl|done..]|].
  replace (top ++ c :: todo) with ((top ++ [c]) ++ todo) by by rewrite <- app_assoc.
  assert (Hlast : forall t1, t1 !! (top ++ [c]) = Some Dir ->
    (make_dirs t1 (top ++ [c]) todo).1 = Ret tt -> (make_dirs t1 (top ++ [c]) todo).2 !! ((top ++ [c]) ++ todo) = Some Dir).
  { intros t1 Ht1 Hr. destruct todo as [|c' todo]; [by rewrite app_nil_r|]. by apply IH. }
  destruct (t !! (top ++ [c])) as [[s|]|] eqn:E; simpl.
  - split_and!; [apply dirs_made_refl|done| |done]. intros e [= <-]. done.
  - destruct (IH t (top ++ [c])) as (H1 & _ & H3 & H4). split_and!; auto.
  - destruct (IH (<[top ++ [c] := Dir]> t) (top ++ [c])) as (H1 & _ & H3 & H4). split_and!; [|auto|auto|auto].
    + intros q. destruct (decide (q = top ++ [c])) as [->|Hq].
      * right. split_and!; [done| |by eexists].
        destruct (H1 (top ++ [c])) as [->|(Hn & _)]; [by rewrite lookup_insert_eq|].
        by rewrite lookup_insert_eq in Hn.
      * specialize (H1 q). by rewrite lookup_insert_ne in H1.
    + intros Hr _. apply Hlast; [by rewrite lookup_insert_eq|done].
Qed.
Lemma dirs_made_weaken p p' t t' : dirs_made p t t' -> p `prefix_of` p' -> dirs_made p' t t'.
Proof. intros H Hp q. destruct (H q) as [?|(?&?&?)]; [by left|right]. split_and!; [done..|]. by etrans. Qed.

(** ** The names of a directory *)
Lemma name_in_spec dir q c : name_in dir q = Some c <-> q = dir ++ [c].
Proof.
  revert q. induction dir as [|d dir IH]; intros [|x q]; simpl; [naive_solver| |naive_solver|].
  - destruct q; naive_solver.
  - destruct (String.eqb d x) eqn:E; [apply String.eqb_eq in E as ->; rewrite IH; naive_solver|].
    apply String.eqb_neq in E. naive_solver.
Qed.
Lemma elem_names_in t dir c : c ∈ names_in t dir <-> exists e, t !! (dir ++ [c]) = Some e.
Proof.
  unfold names_in. rewrite list_elem_of_omap. split.
  - intros ([q e] & Hin & Hn). simpl in Hn. apply name_in_spec in Hn as ->. exists e. by apply elem_of_map_to_list.
  - intros [e He]. exists (dir ++ [c], e). split; [by apply elem_of_map_to_list|]. by apply name_in_spec.
Qed.
(** In a closed tree whatever lies below a directory lies below one of its names. *)
Lemma closed_ancestor t p r : closed t -> r <> [] -> p <> [] -> t !! (p ++ r) <> None -> t !! p = Some Dir.
Proof.
  intros Hc. induction r as [|c r IH] using rev_ind; [done|]. intros _ Hp Hr.
  destruct (t !! (p ++ r ++ [c])) as [e|] eqn:E; [|done]. rewrite app_assoc in E.
  apply Hc in E as [E|E]; [by apply app_eq_nil in E as [? _]|].
  destruct r as [|c' r]; [by rewrite app_nil_r in E|]. apply IH; [done..|]. by rewrite E.
Qed.
Lemma closed_first t p c r : closed t -> t !! (p ++ c :: r) <> None -> c ∈ names_in t p.
Proof.
  intros Hc Hr. apply elem_names_in. destruct r as [|c' r]; [by destruct (t !! (p ++ [c])) eqn:E; [eexists|]|].
  exists Dir. apply (closed_ancestor t (p ++ [c]) (c' :: r)); [done|done|by destruct p|]. by rewrite <- app_assoc.
Qed.
Lemma is_dir_snoc t p c : is_dir t (p ++ [c]) = bool_decide (t !! (p ++ [c]) = Some Dir).
Proof. by destruct p. Qed.

(** ** Calls as triples *)
Lemma disk_keeps_bind {A B : Type} I (m : F A) (f : A -> F B) : keeps I m -> (forall a, keeps I (f a)) -> keeps I (m ≫= f).
Proof. intros Hm Hf. eapply disk_bind; [exact Hm|]. intros a. apply Hf. Qed.
Lemma disk_keeps_ret {A : Type} I (a : A) : keeps I (mret a).
Proof. by apply disk_ret. Qed.
Lemma disk_keeps_fail {A : Type} I e : keeps (A := A) I (fail e).
Proof. by apply disk_fail. Qed.
Lemma disk_keeps_try {A : Type} I (m : F A) : keeps I m -> keeps I (try m).
Proof. intros Hm. eapply disk_try; [exact Hm|auto..]. Qed.
Lemma disk_keeps_wrap {A : Type} I prefix (m : F A) : keeps I m -> keeps I (wrapF prefix m).
Proof. intros Hm. apply disk_wrap. eapply disk_conseq; [exact Hm|auto..]. Qed.
Lemma disk_keeps_lift {A : Type} I (r : result A) : keeps I (lift r).
Proof. apply disk_lift; auto. Qed.
Lemma disk_keeps_read {A : Type} I op p (get : tree -> outcome A) : keeps I (syscall op p (fun t => (get t, t)) nothing).
Proof. apply disk_read; [|auto]. intros t Ht. by destruct (get t). Qed.
Lemma disk_keeps_Stat I p : keeps I (Stat p).
Proof. apply disk_keeps_read. Qed.
Lemma disk_keeps_ReadDir I p : keeps I (ReadDir p).
Proof. apply disk_keeps_read. Qed.
Lemma disk_keeps_ReadFile I p : keeps I (ReadFile p).
Proof. apply disk_keeps_read. Qed.
Lemma disk_keeps_Sync I p : keeps I (Sync p).
Proof. apply disk_keeps_read. Qed.
Lemma disk_keeps_Close I p : keeps I (Close p).
Proof. apply disk_keeps_read. Qed.
Lemma disk_keeps_Chmod I p : keeps I (Chmod p).
Proof. apply disk_keeps_read. Qed.
(** A fact that is not about the tree. *)
Lemma disk_also {A : Type} (phi : Prop) (P : tree -> Prop) (m : F A) (Q : A -> tree -> Prop) (E : error -> tree -> Prop) (K : tree -> Prop) :
  triple P m Q E K -> triple (fun t => P t /\ phi) m (fun a t => Q a t /\ phi) E K.
Proof. intros Hm d [Hd Hphi]. specialize (Hm d Hd). by destruct (m d) as [[a|e|] d']. Qed.
(** A fact that need not outlast a failure. *)
Lemma disk_keeps_into {A : Type} (J I : tree -> Prop) (m : F A) :
  keeps J m -> (forall t, J t -> I t) -> triple J m (fun _ => J) (fun _ => I) I.
Proof. intros Hm HJ. eapply disk_conseq; [exact Hm|auto..]. Qed.
Create HintDb keeps.
#[export] Hint Resolve disk_keeps_bind disk_keeps_ret disk_keeps_fail disk_keeps_try disk_keeps_wrap disk_keeps_lift disk_keeps_Stat disk_keeps_ReadDir
  disk_keeps_ReadFile disk_keeps_Sync disk_keeps_Close disk_keeps_Chmod : keeps.

Lemma disk_Stat p c P (Q : entry -> tree -> Prop) (E : error -> tree -> Prop) (K : tree -> Prop) :
  (forall t e, P t -> t !! (p ++ [c]) = Some e -> Q e t) ->
  (forall t er, P t -> (is_not_exist er = true -> t !! (p ++ [c]) = None) -> E er t) ->
  (forall t, P t -> K t) ->
  triple P (Stat (p ++ [c])) Q E K.
Proof.
  intros HQ HE HK. apply disk_read.
  - intros t Ht. destruct (t !! (p ++ [c])) eqn:Et.
    + destruct (p ++ [c]) eqn:Ep; [by destruct p|]. rewrite Et. apply HQ; [done|]. by rewrite Et.
    + destruct (p ++ [c]) eqn:Ep; [by destruct p|]. rewrite Et. apply HE; [done|]. by rewrite Et.
  - intros t Ht. split; [by apply HK|]. intros e He. apply HE; [done|]. congruence.
Qed.
Lemma disk_keeps_OpenTrunc (I : tree -> Prop) p : (forall t, I t -> I (<[p := File ""]> t)) -> keeps I (OpenTrunc p).
Proof.
  intros HI. assert (Hw : forall t, I t -> I (open_trunc p t).2).
  { intros t Ht. unfold open_trunc. destruct (is_dir t (Dir_of p)); [|done]. simpl. destruct (t !! p) as [[]|]; simpl; auto. }
  apply disk_syscall.
  - intros t Ht. specialize (Hw t Ht). by destruct (open_trunc p t) as [[]].
  - intros f t Ht. destruct (f_count f =? 0); auto.
Qed.
Lemma substring_all s : String.substring 0 (String.length s) s = s.
Proof. induction s as [|c s IH]; [done|]. simpl. by rewrite IH. Qed.
Lemma disk_Write (I : tree -> Prop) p content :
  (forall t n, I t -> I (<[p := File (String.substring 0 n content)]> t)) ->
  triple I (Write p content) (fun _ t => I t /\ t !! p = Some (File content)) (fun _ => I) I.
Proof.
  intros HI. apply disk_syscall; [|intros f t Ht; auto].
  intros t Ht. split; [|by rewrite lookup_insert_eq]. rewrite <- (substring_all content) at 1. by apply HI.
Qed.
Lemma disk_MkdirAll p (I Q : tree -> Prop) :
  (forall t t', I t -> dirs_made p t t' -> I t') ->
  (forall t, I t -> p <> [] -> t !! p = Some Dir -> Q t) ->
  (p = [] -> forall t, I t -> Q t) ->
  triple I (MkdirAll p) (fun _ => Q) (fun _ => I) I.
Proof.
  intros HI HQ Hroot. apply disk_syscall.
  - intros t Ht. destruct (make_dirs_made p t []) as (H1 & H2 & H3 & H4). simpl in *.
    destruct (make_dirs t [] p) as [[[]|e|] t'] eqn:E; simpl in *; [|by eapply HI|done].
    specialize (HI t t' Ht H1). destruct p as [|c p]; [by apply Hroot|]. apply HQ; [done..|by apply H2].
  - intros f t Ht. destruct (make_dirs_made (take (f_count f) p) t []) as (H1 & _). simpl in H1.
    assert (I (make_dirs t [] (take (f_count f) p)).2); [|auto].
    eapply HI; [exact Ht|]. eapply dirs_made_weaken; [exact H1|]. apply prefix_take.
Qed.
Lemma disk_RemoveAll p (I : tree -> Prop) (Q : tree -> Prop) :
  (forall t t', I t -> (forall q, under p q = false -> t' !! q = t !! q) -> (forall q, t !! q = None -> t' !! q = None) -> I t') ->
  (forall t, I t -> (forall q, under p q = true -> t !! q = None) -> Q t) ->
  triple I (RemoveAll p) (fun _ => Q) (fun e t => is_not_exist e = false /\ I t) I.
Proof.
  intros HI HQ. apply disk_syscall.
  - intros t Ht. apply HQ.
    + eapply HI; [exact Ht| |]; intros q Hq; rewrite lookup_remove_under; [by rewrite Hq|by destruct (under p q)].
    + intros q Hq. by rewrite lookup_remove_under, Hq.
  - intros f t Ht. assert (I (remove_some p (f_paths f) t)); [|auto].
    eapply HI; [exact Ht| |]; intros q Hq; [by apply lookup_remove_some|by apply lookup_remove_some_None].
Qed.
Lemma disk_Remove p (I : tree -> Prop) :
  (forall t, I t -> I (delete p t)) ->
  triple I (Remove p) (fun _ t => I t /\ t !! p = None) (fun e t => I t /\ (is_not_exist e = true -> t !! p = None)) I.
Proof.
  intros HI. apply disk_syscall.
  - intros t Ht. destruct (t !! p) as [[s|]|] eqn:E; [| |by split].
    + split; [auto|by rewrite lookup_delete_eq].
    + case_bool_decide; [split; [auto|by rewrite lookup_delete_eq]|done].
  - intros f t Ht.
    assert (I (match t !! p with Some (File _) => if bool_decide (p ∈ f_paths f) then delete p t else t | _ => t end)).
    { destruct (t !! p) as [[]|]; [|done..]. case_bool_decide; auto. }
    split; [done|]. intros e He. split; [done|congruence].
Qed.

(** ** Cleaned paths *)
Definition no_slash (c : string) : bool := str_forall (fun a => negb (Ascii.eqb a "/")) c.
(** A component a cleaned absolute path can have. *)
Definition plain (c : string) : Prop := no_slash c = true /\ c <> "" /\ c <> ".." /\ c <> ".".

Lemma split_no_slash s : Forall (fun c => no_slash c = true) (split_on "/" s).
Proof.
  induction s as [|a s IH]; simpl; [by repeat constructor|].
  destruct (Ascii.eqb a "/") eqn:E; [by constructor|].
  destruct (split_on "/" s) as [|w ws]; apply Forall_cons.
  - split; [|constructor]. unfold no_slash. simpl. by rewrite E.
  - apply Forall_cons in IH as [Hw Hws]. split; [|done]. unfold no_slash in *. simpl. by rewrite E, Hw.
Qed.
Lemma split_word w : no_slash w = true -> split_on "/" w = [w].
Proof. apply split_on_word. Qed.
Lemma split_word_app w s : no_slash w = true -> split_on "/" (w +:+ "/" +:+ s) = w :: split_on "/" s.
Proof. apply split_on_app. Qed.
Lemma split_join l : l <> [] -> Forall (fun c => no_slash c = true) l -> split_on "/" (join slash l) = l.
Proof. apply split_on_join. Qed.

Lemma clean_step_plain rooted acc c :
  no_slash c = true -> Forall (fun x => no_slash x = true /\ x <> "") acc ->
  Forall (fun x => no_slash x = true /\ x <> "") (clean_step rooted acc c).
Proof.
  intros Hc Hacc. unfold clean_step.
  destruct (c =s "") eqn:E0; [done|]. destruct (c =s ".") eqn:E1; [done|]. simpl. apply String.eqb_neq in E0.
  destruct (c =s "..") eqn:E2; [|apply Forall_app; split; [done|by repeat constructor]].
  destruct (last acc) as [d|]; [destruct (d =s "..")|destruct rooted].
  - apply Forall_app. split; [done|]. by repeat constructor.
  - by apply Forall_take.
  - constructor.
  - by repeat constructor.
Qed.
Lemma clean_comps_plain rooted s : Forall (fun x => no_slash x = true /\ x <> "") (clean_comps rooted s).
Proof.
  unfold clean_comps. pose proof (split_no_slash s) as Hs. revert Hs. generalize (split_on "/" s) as l. intros l.
  assert (H0 : Forall (fun x => no_slash x = true /\ x <> "") ([] : path)) by constructor.
  revert H0. generalize ([] : path). induction l as [|c l IH]; intros acc Hacc Hs; [done|].
  apply Forall_cons in Hs as [Hc Hs]. simpl. apply IH; [|done]. by apply clean_step_plain.
Qed.

(** Relative to a directory, a path climbs out of it as often as it starts with
    two dots. *)
Lemma relative_fold home l :
  Forall (fun c => c <> "..") home ->
  exists k ns, fold_left (clean_step false) l [] = replicate k ".." ++ ns /\ Forall (fun c => c <> "..") ns /\
    fold_left (clean_step true) l home = take (length home - k) home ++ ns.
Proof.
  intros Hh. induction l as [|c l (k & ns & Hrel & Hns & Habs)] using rev_ind.
  { exists 0, []. split_and!; [done|constructor|]. by rewrite take_ge, app_nil_r by lia. }
  rewrite !fold_left_app. simpl. rewrite Hrel, Habs. unfold clean_step.
  destruct ((c =s "") || (c =s ".")); [by exists k, ns|].
  destruct (c =s "..") eqn:E2.
  - destruct ns as [|d ns _] using rev_ind.
    + exists (S k), []. rewrite !app_nil_r. split_and!; [|constructor|].
      * destruct k; [done|]. assert (El : last (replicate (S k) "..") = Some "..") by by rewrite replicate_S_end, last_snoc.
        rewrite El, (replicate_S_end (S k)). done.
      * destruct (last (take (length home - k) home)) as [d|] eqn:El.
        -- assert (Hd : d <> "..").
           { apply last_Some_elem_of in El. apply elem_of_take in El as (i & Hi & _).
             rewrite Forall_lookup in Hh. by apply (Hh i). }
           rewrite (proj2 (String.eqb_neq d "..") Hd), take_take, length_take. f_equal. lia.
        -- apply last_None in El. apply (f_equal length) in El. rewrite length_take in El. simpl in El.
           replace (length home - S k) with 0 by lia. done.
    + apply Forall_app in Hns as [Hns [Hd _]%Forall_cons]. exists k, ns.
      rewrite !app_assoc, !last_snoc, (proj2 (String.eqb_neq d "..") Hd).
      assert (Htake : forall a : path, take (pred (length (a ++ [d]))) (a ++ [d]) = a).
      { intros a. rewrite length_app. simpl. rewrite Nat.add_1_r. simpl. rewrite take_app_length' by done. done. }
      by rewrite !Htake.
  - apply String.eqb_neq in E2. exists k, (ns ++ [c]). rewrite !app_assoc. split_and!; [done| |done].
    apply Forall_app. split; [done|]. by repeat constructor.
Qed.

Lemma join_inj l l' :
  Forall (fun c => no_slash c = true /\ c <> "") l -> Forall (fun c => no_slash c = true /\ c <> "") l' ->
  join slash l = join slash l' -> l = l'.
Proof.
  intros Hl Hl' E.
  assert (Hns : forall m, Forall (fun c => no_slash c = true /\ c <> "") m -> Forall (fun c => no_slash c = true) m).
  { intros m Hm. eapply Forall_impl; [exact Hm|]. by intros ? [? _]. }
  assert (Hnil : forall m, Forall (fun c => no_slash c = true /\ c <> "") m -> join slash m = "" -> m = []).
  { intros [|w [|w' m]] Hm Hj; [done| |]; apply Forall_cons in Hm as [[_ Hw] _]; destruct w; done. }
  destruct l as [|w l]; [symmetry; by apply Hnil|].
  destruct l' as [|w' l']; [by apply Hnil|].
  rewrite <- (split_join (w :: l)), <- (split_join (w' :: l')), E; auto.
Qed.
Lemma join_no_root l x : Forall (fun c => no_slash c = true /\ c <> "") l -> join slash l <> slash +:+ x.
Proof.
  intros Hl. destruct l as [|w l]; [done|]. apply Forall_cons in Hl as [[Hw Hne] _].
  destruct w as [|a w]; [done|]. unfold no_slash in Hw. simpl in Hw. apply andb_true_iff in Hw as [Ha _].
  destruct l; simpl; intros [= -> _]; done.
Qed.

(** A configured path that cleans to a text relative to the home directory, or
    to that of the absolute path, leads there. *)
Lemma Clean_resolves (home rel : path) s :
  Forall plain home -> rel <> [] -> Forall plain rel ->
  Clean s = join slash rel \/ Clean s = path_text (home ++ rel) -> resolve home s = home ++ rel.
Proof.
  intros Hh Hne Hrel Hs. unfold Clean in Hs. unfold resolve.
  assert (Hplain : forall l, Forall plain l -> Forall (fun c => no_slash c = true /\ c <> "") l).
  { intros l Hl. eapply Forall_impl; [exact Hl|]. by intros ? (? & ? & _). }
  pose proof (clean_comps_plain true s) as Ht. pose proof (clean_comps_plain false s) as Hf.
  destruct (is_abs s).
  - destruct Hs as [Hs|Hs]; [exfalso; by eapply (join_no_root rel); [apply Hplain|symmetry]|].
    unfold path_text in Hs. simpl in Hs. injection Hs as Hs.
    apply join_inj in Hs; [done..|]. apply Hplain, Forall_app. by split.
  - destruct (join slash (clean_comps false s) =s "") eqn:E.
    { apply String.eqb_eq in E. destruct Hs as [Hs|Hs].
      - destruct rel as [|w rel]; [done|]. apply Forall_cons in Hrel as [(Hw & Hw0 & _ & Hdot) _].
        destruct w as [|a w]; [done|]. destruct rel as [|w' rel]; simpl in Hs; injection Hs as <- Hs; [by subst w|].
        by destruct w.
      - by destruct (join_no_root (home ++ rel) ""). }
    destruct Hs as [Hs|Hs]; [|exfalso; by eapply join_no_root; [exact Hf|]].
    apply join_inj in Hs; [|done|by apply Hplain].
    destruct (relative_fold home (split_on "/" s)) as (k & ns & H1 & H2 & H3).
    { eapply Forall_impl; [exact Hh|]. by intros ? (_ & _ & ? & _). }
    unfold clean_comps in Hs. rewrite Hs in H1. unfold Join. rewrite H3.
    destruct k as [|k]; [simpl in H1; subst ns; by rewrite Nat.sub_0_r, firstn_all|].
    destruct rel as [|w rel]; [done|]. simpl in H1. injection H1 as -> _.
    apply Forall_cons in Hrel as [(_ & _ & ? & _) _]. done.
Qed.

(** ** When every call does what it says

    [total P m Q E]: on a disk without faults, from a tree [P], [m] ends, and
    returns in a tree [Q] or fails in a tree [E]. *)
Definition total {A : Type} (P : tree -> Prop) (m : F A) (Q : A -> tree -> Prop) (E : error -> tree -> Prop) : Prop :=
  forall d, d_faults d = [] -> P (d_tree d) ->
  match m d with
  | (Ret a, d') => d_faults d' = [] /\ Q a (d_tree d')
  | (Fail e, d') => d_faults d' = [] /\ E e (d_tree d')
  | (Killed, _) => False
  end.
Definition never : error -> tree -> Prop := fun _ _ => False.

Lemma calm_ret {A : Type} (P : tree -> Prop) (a : A) Q E : (forall t, P t -> Q a t) -> total P (mret a) Q E.
Proof. intros H d Hf Hd. split; [done|]. by apply H. Qed.
Lemma calm_bind {A B : Type} P (m : F A) (f : A -> F B) Q1 Q E :
  total P m Q1 E -> (forall a, total (Q1 a) (f a) Q E) -> total P (m ≫= f) Q E.
Proof.
  intros Hm Hf d Hd HP. specialize (Hm d Hd HP). unfold mbind, F_bind.
  destruct (m d) as [[a|e|] d']; [|done..]. destruct Hm as [Hd' Ha]. by apply Hf.
Qed.
Lemma calm_try {A : Type} P (m : F A) Q E Q' E' :
  total P m Q E -> (forall a t, Q a t -> Q' (inr a) t) -> (forall e t, E e t -> Q' (inl e) t) -> total P (try m) Q' E'.
Proof.
  intros Hm H1 H2 d Hd HP. specialize (Hm d Hd HP). unfold try. destruct (m d) as [[a|e|] d']; naive_solver.
Qed.
Lemma calm_conseq {A : Type} (P P' : tree -> Prop) (m : F A) (Q Q' : A -> tree -> Prop) (E E' : error -> tree -> Prop) :
  total P' m Q' E' -> (forall t, P t -> P' t) -> (forall a t, Q' a t -> Q a t) -> (forall e t, E' e t -> E e t) ->
  total P m Q E.
Proof. intros Hm HP HQ HE d Hd Ht. specialize (Hm d Hd (HP _ Ht)). destruct (m d) as [[a|e|] d']; naive_solver. Qed.
Lemma calm_wrap {A : Type} P (m : F A) prefix Q : total P m Q never -> total P (wrapF prefix m) Q never.
Proof.
  intros Hm. unfold wrapF. eapply calm_bind.
  - eapply (calm_try _ _ _ _ (fun r t => match r with inl _ => False | inr a => Q a t end)); [exact Hm|auto..].
  - intros [e|a]; [by intros d ? ?|apply calm_ret; auto].
Qed.
Lemma calm_syscall {A : Type} op p (whole : tree -> outcome A * tree) part P (Q : A -> tree -> Prop) (E : error -> tree -> Prop) :
  (forall t, P t -> match whole t with (Ret a, t') => Q a t' | (Fail e, t') => E e t' | (Killed, _) => False end) ->
  total P (syscall op p whole part) Q E.
Proof.
  intros Hw d Hd HP. unfold syscall, pop_fault. rewrite Hd. specialize (Hw _ HP).
  destruct (whole (d_tree d)) as [[a|e|] t']; simpl; [by split..|done].
Qed.

(** Nothing on the way to a path is a file. *)
Definition way_clear (p : path) (t : tree) : Prop := forall q s, q `prefix_of` p -> t !! q <> Some (File s).
Lemma make_dirs_clear todo : forall t top, way_clear (top ++ todo) t -> (make_dirs t top todo).1 = Ret tt.
Proof.
  induction todo as [|c todo IH]; intros t top Hc; [done|]. simpl.
  replace (top ++ c :: todo) with ((top ++ [c]) ++ todo) in Hc by by rewrite <- app_assoc.
  destruct (t !! (top ++ [c])) as [[s|]|] eqn:E.
  - destruct (Hc (top ++ [c]) s); [by eexists|done].
  - by apply IH.
  - apply IH. intros q s Hq. destruct (decide (q = top ++ [c])) as [->|Hne]; [by rewrite lookup_insert_eq|].
    rewrite lookup_insert_ne by done. by apply Hc.
Qed.
Lemma calm_MkdirAll p (I : tree -> Prop) :
  p <> [] -> (forall t, I t -> way_clear p t) -> (forall t t', I t -> dirs_made p t t' -> I t') ->
  total I (MkdirAll p) (fun _ t => I t /\ t !! p = Some Dir) never.
Proof.
  intros Hp Hc HI. apply calm_syscall. intros t Ht. pose proof (make_dirs_clear p t [] (Hc t Ht)) as Hr.
  destruct (make_dirs_made p t []) as (H1 & H2 & _). simpl in *.
  destruct (make_dirs t [] p) as [r t']. simpl in *. subst r. split; [by eapply HI|by apply H2].
Qed.
Lemma calm_write_through p (I : tree -> Prop) content :
  (forall t, I t -> is_dir t (Dir_of p) = true /\ t !! p <> Some Dir) ->
  (forall t s, I t -> I (<[p := File s]> t)) ->
  total I (_ ← OpenTrunc p; _ ← Write p content; _ ← Sync p; Close p) (fun _ => I) never.
Proof.
  intros Hopen HI. eapply calm_bind.
  { apply (calm_syscall _ _ _ _ I (fun _ => I) never). intros t Ht. destruct (Hopen t Ht) as [Hd Hn].
    unfold open_trunc. rewrite Hd. simpl. destruct (t !! p) as [[]|]; [by apply HI|done|by apply HI]. }
  intros ?. eapply calm_bind; [apply (calm_syscall _ _ _ _ I (fun _ => I) never); auto|].
  intros ?. eapply calm_bind; [apply (calm_syscall _ _ _ _ I (fun _ => I) never); auto|].
  intros ?. apply (calm_syscall _ _ _ _ I (fun _ => I) never); auto.
Qed.
Lemma calm_Stat p c (P : tree -> Prop) (Q : entry -> tree -> Prop) (E : error -> tree -> Prop) :
  (forall t e, P t -> t !! (p ++ [c]) = Some e -> Q e t) ->
  (forall t er, P t -> is_not_exist er = true -> t !! (p ++ [c]) = None -> E er t) ->
  total P (Stat (p ++ [c])) Q E.
Proof.
  intros HQ HE. apply calm_syscall. intros t Ht.
  destruct (t !! (p ++ [c])) eqn:Et; (destruct (p ++ [c]) eqn:Ep; [by destruct p|]); rewrite Et;
    [apply HQ|apply HE]; by rewrite ?Et.
Qed.

(** ** An atomic write

    While the temporary file is written, the rest of the tree is what it was. *)
Definition temp_name (dir tmp : path) : Prop := exists n, tmp = dir ++ [".tmp-" +:+ n].
Definition beside (t0 : tree) (tmp : path) (t : tree) : Prop :=
  t0 !! tmp = None /\ (t !! tmp = None \/ exists s, t !! tmp = Some (File s)) /\ forall q, q <> tmp -> t !! q = t0 !! q.
Definition left_over (t0 : tree) (dir : path) (t : tree) : Prop :=
  exists tmp, temp_name dir tmp /\ beside t0 tmp t.
(** What a reader may see at the path, whenever it looks. *)
Definition old_or_new (t0 : tree) (p : path) (content : string) (t : tree) : Prop :=
  left_over t0 (Dir_of p) t \/ (t !! p = Some (File content) /\ forall q, q <> p -> t !! q = t0 !! q).

Lemma free_name_spec t dir names tmp rest :
  free_name t dir names = Some (tmp, rest) -> temp_name dir tmp /\ t !! tmp = None.
Proof.
  revert rest. induction names as [|n names IH]; intros rest; [done|]. simpl.
  destruct (t !! (dir ++ [".tmp-" +:+ n])) eqn:E; [apply IH|]. intros [= <- _]. split; [by exists n|done].
Qed.
Lemma beside_insert t0 tmp t s : beside t0 tmp t -> beside t0 tmp (<[tmp := File s]> t).
Proof.
  intros (H1 & _ & H3). split_and!; [done|right; exists s; apply lookup_insert_eq|].
  intros q Hq. rewrite lookup_insert_ne by done. by apply H3.
Qed.
Lemma beside_refl t0 tmp : t0 !! tmp = None -> beside t0 tmp t0.
Proof. intros H. by split_and!; [|left|]. Qed.

Lemma CreateTemp_beside t0 dir :
  triple (fun t => t = t0) (CreateTemp dir) (fun tmp t => temp_name dir tmp /\ beside t0 tmp t)
    (fun _ t => t = t0 \/ left_over t0 dir t) (fun t => t = t0 \/ left_over t0 dir t).
Proof.
  intros d Hd. unfold CreateTemp. destruct (free_name (d_tree d) dir (d_names d)) as [[tmp rest]|] eqn:E; [|by left].
  rewrite Hd in E. apply free_name_spec in E as [Hn Hnone].
  assert (H0 : beside t0 tmp t0) by by apply beside_refl.
  assert (Ho : triple (beside t0 tmp) (_ ← OpenTrunc tmp; mret tmp) (fun tmp t => temp_name dir tmp /\ beside t0 tmp t)
    (fun _ t => t = t0 \/ left_over t0 dir t) (fun t => t = t0 \/ left_over t0 dir t)).
  { eapply disk_bind.
    - apply (disk_keeps_into (beside t0 tmp)); [|intros t Ht; right; by exists tmp].
      apply disk_keeps_OpenTrunc. intros t. apply beside_insert.
    - intros ?. by apply disk_ret. }
  apply (Ho (mkDisk (d_tree d) (d_faults d) rest)). simpl. by rewrite Hd.
Qed.

Lemma WriteFileAtomic_old_or_new t0 dir name content :
  has_prefix ".tmp-" name = false ->
  triple (fun t => t = t0) (WriteFileAtomic (dir ++ [name]) content)
    (fun _ t => t !! (dir ++ [name]) = Some (File content) /\ forall q, q <> dir ++ [name] -> t !! q = t0 !! q)
    (fun _ t => t = t0 \/ old_or_new t0 (dir ++ [name]) content t)
    (fun t => t = t0 \/ old_or_new t0 (dir ++ [name]) content t).
Proof.
  intros Hname. set (p := dir ++ [name]).
  assert (Hdir : Dir_of p = dir).
  { unfold Dir_of, p. rewrite length_app. simpl. rewrite Nat.add_1_r. simpl. by rewrite take_app_length' by done. }
  assert (Hne : forall tmp, temp_name dir tmp -> tmp <> p).
  { intros tmp [n ->] E. apply app_inv_head in E as [= <-]. by rewrite has_prefix_app in Hname. }
  unfold WriteFileAtomic. rewrite Hdir.
  eapply disk_bind.
  { eapply disk_conseq; [apply CreateTemp_beside|intros t Ht; exact Ht|intros a t Ht; exact Ht| |];
      [intros e t [?|?]|intros t [?|?]]; auto; right; left; by rewrite Hdir. }
  intros tmp.
  set (I := fun t => temp_name dir tmp /\ beside t0 tmp t).
  set (J := fun t => I t /\ t !! tmp = Some (File content)).
  assert (HI : forall t, I t -> t = t0 \/ old_or_new t0 p content t).
  { intros t [? ?]. right. left. rewrite Hdir. by exists tmp. }
  assert (HIs : forall t s, I t -> I (<[tmp := File s]> t)) by (intros t s [? ?]; split; [done|by apply beside_insert]).
  eapply (disk_bind _ _ _ (fun r t => match r with inl _ => I t | inr _ => J t end)).
  { eapply (disk_try _ _ (fun _ => J) (fun _ => I)); [|auto..].
    eapply (disk_conseq I I _ (fun _ => J) (fun _ => J) (fun _ => I) (fun _ => I) _ I); [|auto..].
    eapply disk_bind; [apply (disk_Write I); intros t n; apply HIs|]. intros ?.
    eapply disk_bind; [apply (disk_keeps_into J I); [apply disk_keeps_Sync|by intros t []]|]. intros ?.
    apply (disk_keeps_into J I); [apply disk_keeps_Close|by intros t []]. }
  intros [e|u].
  - eapply disk_bind; [apply (disk_keeps_into I); [apply disk_keeps_try, disk_keeps_Close|exact HI]|].
    intros ?. eapply disk_bind.
    + apply (disk_keeps_into I); [|exact HI]. apply disk_keeps_try.
      eapply disk_conseq; [apply (disk_Remove tmp I)|auto|by intros ? t []|by intros ? t []|auto].
      intros t [Hn (H1 & _ & H3)]. split; [done|]. split_and!; [done|left; apply lookup_delete_eq|].
      intros q Hq. rewrite lookup_delete_ne by done. by apply H3.
    + intros ?. apply disk_fail. auto.
  - eapply disk_bind; [apply (disk_keeps_into J _); [apply disk_keeps_Chmod|intros t [Ht _]; by apply HI]|].
    intros ?.
    assert (Hren : forall t, J t -> (rename_to tmp p t).2 = t \/
      ((rename_to tmp p t).1 = Ret tt /\ (rename_to tmp p t).2 !! p = Some (File content) /\
       forall q, q <> p -> (rename_to tmp p t).2 !! q = t0 !! q)).
    { intros t [[Hn (H1 & _ & H3)] Hc]. unfold rename_to. rewrite Hc.
      assert (Hgo : <[p := File content]> (delete tmp t) !! p = Some (File content) /\
        forall q, q <> p -> <[p := File content]> (delete tmp t) !! q = t0 !! q).
      { split; [apply lookup_insert_eq|]. intros q Hq. rewrite lookup_insert_ne by done.
        destruct (decide (q = tmp)) as [->|Hqt]; [by rewrite lookup_delete_eq|].
        rewrite lookup_delete_ne by done. by apply H3. }
      destruct (t !! p) as [[]|]; [right; by split|by left|right; by split]. }
    apply disk_syscall.
    + intros t Ht. specialize (Hren t Ht). destruct Ht as [Ht Hc].
      destruct (rename_to tmp p t) as [[[]|e|] t'] eqn:E; simpl in Hren.
      * destruct Hren as [->|(_ & ? & ?)]; [|done]. exfalso. unfold rename_to in E. rewrite Hc in E.
        assert (Hp : tmp <> p) by (apply Hne; by destruct Ht).
        destruct (t !! p) as [[]|]; simplify_eq; apply (f_equal (lookup tmp)) in E;
          rewrite lookup_insert_ne, lookup_delete_eq in E by done; congruence.
      * destruct Hren as [->|(? & _)]; [by apply HI|done].
      * destruct Hren as [->|(? & _)]; [by apply HI|done].
    + intros f t Ht. assert (Hpart : t = t0 \/ old_or_new t0 p content t) by (apply HI; by destruct Ht).
      destruct (f_count f =? 0); [by auto|]. destruct (Hren t Ht) as [->|(_ & ? & ?)]; [by auto|].
      split; [|intros e _]; right; right; done.
Qed.

(** Closedness, checked entry by entry. *)
Definition closed_check (t : tree) : bool := forallb (fun e => is_dir t (Dir_of e.1)) (map_to_list t).
Lemma closed_check_ok t : closed_check t = true -> closed t.
Proof.
  intros H p c e He. unfold closed_check in H. rewrite forallb_forall in H.
  specialize (H (p ++ [c], e)). simpl in H.
  assert (Hdir : Dir_of (p ++ [c]) = p).
  { unfold Dir_of. rewrite length_app. simpl. rewrite Nat.add_1_r. simpl. by rewrite take_app_length' by done. }
  rewrite Hdir in H. destruct p as [|x p]; [by left|]. right.
  specialize (H (proj1 (list_elem_of_In _ _) (proj2 (elem_of_map_to_list _ _ _) He))). by apply bool_decide_eq_true in H.
Qed.
