(* ===== verification/DataTasks.v ===== *)
(** * The sidecar's file tasks
    (src/sidecar/tasks/config.go, reset_data.go, statesync.go, and the markers of snapshot_restore.go)

    Each task is a program over the home directory of HomeDir.v, which lies at a
    cleaned absolute path [home]. TOML, the HTTP client and the embedded default
    configuration are parameters. The processes are those of ProcessTasks.v. *)

From stdpp Require Import base list strings gmap pretty sorting.
From Stdlib Require Import ZArith Lia Ascii.
From S2P Require Import Prelude Api Platform Config TomlPatch RpcClient ProcessTasks HomeDir.

(** ** config-patch (config.go) *)
Section tasks.
Context `{TomlLib}.

Definition mergeAndWrite (filePath : path) (patchMap : table) : F unit :=
  doc ← wrapF ("reading " +:+ Base filePath +:+ ": ") (ReadTOML filePath);
  match Merge (JObj doc) (JObj patchMap) with
  | JObj merged => WriteTOML filePath merged
  | _ => failed ("merge produced non-map result for " +:+ Base filePath)
  end.

(** The files in the order in which Go ranges over the map. *)
Fixpoint PatchFiles (home : path) (files : list (string * jval)) : F unit :=
  match files with
  | [] => mret tt
  | (filename, rawPatch) :: rest =>
      match rawPatch with
      | JObj patchMap =>
          _ ← wrapF ("config-patch " +:+ filename +:+ ": ")
                (mergeAndWrite (Join (Join home "config") filename) patchMap);
          PatchFiles home rest
      | _ => failed ("config-patch: value for " +:+ quote filename +:+ " must be a map")
      end
  end.
Definition ConfigPatcher_Handler (home : path) (files : list (string * jval)) : F unit :=
  match files with
  | [] => failed "config-patch: at least one file is required"
  | _ => PatchFiles home files
  end.

(** The configuration a home directory starts with; [os.Stat] failing for
    whatever reason counts as absent. *)
Definition EnsureDefaultConfig (default_config : result string) (home : path) : F unit :=
  let configDir := Join home "config" in
  _ ← wrapF "creating config directory: " (MkdirAll configDir);
  _ ← wrapF "creating data directory: " (MkdirAll (Join home "data"));
  let configPath := Join configDir "config.toml" in
  r ← try (Stat configPath);
  match r with
  | inr _ => mret tt
  | inl _ =>
      defaultConfig ← lift (wrap_err "reading embedded default config: " default_config);
      wrapF "writing default config.toml: " (WriteFile configPath defaultConfig)
  end.

(** ** reset-data (reset_data.go) *)
Definition privValidatorStateFile : string := "priv_validator_state.json".
Definition defaultPrivValidatorStatePath : string := "data/" +:+ privValidatorStateFile.
Definition emptyPrivValidatorState : string :=
  "{" +:+ quote "height" +:+ ":" +:+ quote "0" +:+ "," +:+ quote "round" +:+ ":0," +:+ quote "step" +:+ ":0}" +:+ bytes [10].
Definition stateSyncMarkerFile : string := ".sei-sidecar-statesync-done".

Definition refuseDataUsers (proc : result (list proc_entry)) : result unit :=
  match findDataUsers proc with
  | Err e => Err ("reset-data: listing processes that use the data directory: " +:+ e)
  | Ok [] => Ok tt
  | Ok users =>
      Err ("reset-data: " +:+ join ", " users +:+
           " running in the pod — refusing to wipe data it is using; finish or stop it first")
  end.

(** One key of one section: whether it leaves the sign state where the wipe
    keeps it. *)
Definition accepts_state_file (home : path) (sectionName key : string) (value : jval) : result unit :=
  match value with
  | JStr configured =>
      if (configured =s "") || (Clean configured =s defaultPrivValidatorStatePath) ||
         (Clean configured =s path_text (Join home defaultPrivValidatorStatePath))
      then Ok tt
      else Err ("reset-data: config.toml sets [" +:+ sectionName +:+ "] " +:+ key +:+ " = " +:+ quote configured +:+
                "; the reset keeps only " +:+ defaultPrivValidatorStatePath +:+
                ", so it refuses rather than risk deleting the sign state")
  | _ => Err ("reset-data: config.toml [" +:+ sectionName +:+ "] " +:+ key +:+
              " is not a string; refusing rather than guess where the sign state is")
  end.
Fixpoint check_keys (home : path) (sectionName : string) (section : table) (names : list string) : result unit :=
  match names with
  | [] => Ok tt
  | key :: names' =>
      match tbl_lookup key section with
      | None => check_keys home sectionName section names'
      | Some value => _ ← accepts_state_file home sectionName key value; check_keys home sectionName section names'
      end
  end.
Definition state_sections : list string := ["priv-validator"; "priv_validator"].
Definition state_keys : list string := ["state-file"; "state_file"].
Fixpoint check_sections (home : path) (doc : table) (sections : list string) : result unit :=
  match sections with
  | [] => Ok tt
  | sectionName :: sections' =>
      match tbl_lookup sectionName doc with
      | None => check_sections home doc sections'
      | Some (JObj section) =>
          _ ← check_keys home sectionName section state_keys; check_sections home doc sections'
      | Some _ => Err ("reset-data: config.toml [" +:+ sectionName +:+
                       "] is not a table; refusing rather than guess where the sign state is")
      end
  end.
Definition refuseMovedSignState (home : path) : F unit :=
  let configPath := Join (Join home "config") "config.toml" in
  doc ← wrapF ("reset-data: reading " +:+ path_text configPath +:+ " to locate the sign state: ") (ReadTOML configPath);
  lift (check_sections home doc state_sections).

(** The size of the files of a directory, read in one call here; the reset does
    not depend on it. *)
Definition file_size (e : entry) : Z := match e with File s => Z.of_nat (String.length s) | Dir => 0 end.
Definition dirSize (dir : path) : F Z :=
  syscall "lstat" dir
    (fun t => (Ret (map_fold (fun p e n => if under dir p then n + file_size e else n)%Z 0%Z t), t)) nothing.

Fixpoint remove_entries (dir : path) (keep : list string) (entries : list (string * bool)) : F unit :=
  match entries with
  | [] => mret tt
  | (name, _) :: entries' =>
      if mem name keep then remove_entries dir keep entries' else
      let p := dir ++ [name] in
      r ← try (RemoveAll p);
      match r with
      | inl err => if is_not_exist err then remove_entries dir keep entries'
                   else failed ("removing " +:+ path_text p +:+ ": " +:+ text err)
      | inr _ => remove_entries dir keep entries'
      end
  end.
Definition wipeDirContents (dir : path) (keep : list string) : F unit :=
  r ← try (ReadDir dir);
  match r with
  | inl err => if is_not_exist err then mret tt else fail err
  | inr entries => remove_entries dir keep entries
  end.

Definition writeFileSynced (p : path) (content : string) : F unit :=
  _ ← OpenTrunc p; _ ← Write p content; _ ← Sync p; Close p.

(** The steps of a reset that follow its refusals. *)
Definition keepSignState (statePath : path) : F unit :=
  r ← try (Stat statePath);
  match r with
  | inr _ => mret tt
  | inl err =>
      if is_not_exist err
      then wrapF ("reset-data: writing " +:+ path_text statePath +:+ ": ")
             (writeFileSynced statePath emptyPrivValidatorState)
      else failed ("reset-data: checking " +:+ path_text statePath +:+ ": " +:+ text err)
  end.
Definition clearMarker (markerPath : path) : F unit :=
  r ← try (Remove markerPath);
  match r with
  | inl err => if is_not_exist err then mret tt
               else failed ("reset-data: removing marker " +:+ path_text markerPath +:+ ": " +:+ text err)
  | inr _ => mret tt
  end.
Definition wipe (home : path) : F Z :=
  let dataDir := Join home "data" in
  measured ← try (dirSize dataDir);
  let size := match measured with inl _ => (-1)%Z | inr n => n end in
  _ ← wrapF ("reset-data: wiping " +:+ path_text dataDir +:+ ": ") (wipeDirContents dataDir [privValidatorStateFile]);
  _ ← wrapF ("reset-data: recreating " +:+ path_text dataDir +:+ ": ") (MkdirAll dataDir);
  _ ← keepSignState (Join dataDir privValidatorStateFile);
  _ ← clearMarker (Join home stateSyncMarkerFile);
  mret size.

Definition reset (home : path) (rpcUp : bool) (proc : result (list proc_entry)) : F Z :=
  if rpcUp then
    failed "reset-data: seid RPC is serving; node is not held — refusing to wipe a live data directory"
  else
    _ ← lift (refuseDataUsers proc);
    _ ← refuseMovedSignState home;
    wipe home.

(** ** configure-state-sync (statesync.go) *)
Record StateSyncRequest := mkStateSync {
  sr_UseLocalSnapshot : bool; sr_TrustPeriod : string; sr_BackfillBlocks : Z; sr_RpcServers : list string;
}.
Record StateSyncConfig := mkStateSyncConfig {
  sf_TrustHeight : Z; sf_TrustHash : string; sf_TrustPeriod : string; sf_RpcServers : string;
  sf_UseLocalSnapshot : bool; sf_BackfillBlocks : Z;
}.
Definition trustHeightOffset : Z := 2000.

Definition markerExists (home : path) (name : string) : F bool :=
  r ← try (Stat (Join home name)); mret (match r with inl _ => false | inr _ => true end).
Definition writeMarker (home : path) (name : string) : F unit :=
  let p := Join home name in
  _ ← wrapF ("writing marker file " +:+ path_text p +:+ ": ") (OpenTrunc p); Close p.

Definition readPeersFromConfig (home : path) : F (list string) :=
  doc ← wrapF "reading config.toml: " (ReadTOML (Join (Join home "config") "config.toml"));
  match tbl_lookup "p2p" doc with
  | Some (JObj p2p) =>
      match tbl_lookup "persistent-peers" p2p with
      | Some (JStr raw) =>
          if raw =s "" then mret []
          else mret (filter (fun p => p <> "") (map TrimSpace (split_on "," raw)))
      | _ => mret []
      end
  | _ => mret []
  end.

(** [s] cut at the last [c]. *)
Fixpoint cut_last (c : ascii) (s : string) : option (string * string) :=
  match s with
  | EmptyString => None
  | String a s' =>
      match cut_last c s' with
      | Some (x, y) => Some (String a x, y)
      | None => if Ascii.eqb a c then Some (EmptyString, s') else None
      end
  end.
Fixpoint extractRPCHosts (peers : list string) (maxHosts : nat) : list string :=
  match maxHosts, peers with
  | O, _ | _, [] => []
  | S n, p :: peers' =>
      if negb (contains p "@") then extractRPCHosts peers' maxHosts else
      let hostPort := (cut "@" p).2 in
      let host := match cut_last ":" hostPort with Some (h, _) => h | None => hostPort end in
      if host =s "" then extractRPCHosts peers' maxHosts else host :: extractRPCHosts peers' n
  end.

Definition rpcPort : string := "26657".
Definition witnessCandidates (home : path) (p : StateSyncRequest) : F (list string) :=
  match sr_RpcServers p with
  | [] =>
      peers ← readPeersFromConfig home;
      match peers with
      | [] => failed "no peers in config.toml"
      | _ =>
          match extractRPCHosts peers 2 with
          | [] => failed "could not extract RPC hosts from peers"
          | hosts => mret (map (fun h => h +:+ ":" +:+ rpcPort) hosts)
          end
      end
  | servers => mret servers
  end.

(** The port of [net.SplitHostPort], when it takes the text. *)
Definition split_port (hostport : string) : option string :=
  match cut_last ":" hostport with
  | None => None
  | Some (before, port) =>
      match hostport with
      | String "[" rest =>
          if negb (contains rest "]") then None else
          let '(host, after) := cut "]" rest in
          if negb (after =s ":" +:+ port) || contains rest "[" || contains after "]" then None else Some port
      | _ => if contains before ":" || contains hostport "[" || contains hostport "]" then None else Some port
      end
  end.
Definition witnessScheme (endpoint : string) : string :=
  match split_port endpoint with Some port => if port =s "443" then "https" else "http" | None => "http" end.
Definition witness_url (endpoint : string) : string := witnessScheme endpoint +:+ "://" +:+ endpoint.

(** What the peers answer: to the probes, and to the queries that follow. *)
Context `{RpcTexts} (Probe Ask : string -> http_answer).

Definition probeWitness (endpoint : string) : bool := is_ok (Get Probe (witness_url endpoint) "/status").
Definition reachableWitnesses (candidates : list string) : list string := filter (fun ep => probeWitness ep = true) candidates.

(** The largest snapshot below the data directory. *)
Definition snapshot_height (e : string * bool) : option Z :=
  if e.2 then match ParseInt e.1 with Ok h => Some h | Err _ => None end else None.
Definition discoverLocalSnapshotHeight (home : path) : F Z :=
  let snapshotDir := Join (Join home "data") "snapshots" in
  entries ← wrapF "reading snapshots directory: " (ReadDir snapshotDir);
  let maxHeight := fold_left Z.max (omap snapshot_height entries) 0%Z in
  if (maxHeight =? 0)%Z then failed ("no snapshot found in " +:+ path_text snapshotDir) else mret maxHeight.

Definition queryLatestHeight (endpoint : string) : result Z :=
  raw ← Get Ask (witness_url endpoint) "/status";
  status ← wrap_err "parsing status response: " (decode_raw status_field raw zero_status);
  let h := sy_LatestBlockHeight (sr_SyncInfo status) in
  wrap_err ("parsing height " +:+ quote h +:+ ": ") (ParseInt h).
Definition queryBlockHash (endpoint : string) (height : Z) : result string :=
  raw ← Get Ask (witness_url endpoint) ("/block?height=" +:+ pretty height);
  block ← wrap_err "parsing block response: " (decode_raw block_field raw (mkBlockResult ""));
  let hash := br_Hash block in
  if hash =s "" then Err ("empty block hash at height " +:+ pretty height)
  else if negb (String.length hash =? 64) then
    Err ("unexpected block hash length at height " +:+ pretty height +:+ ": got " +:+
         pretty (Z.of_nat (String.length hash)) +:+ ", want 64")
  else Ok hash.

(** At least two witnesses: a single one is named twice. *)
Definition padded (reachable : list string) : list string :=
  match reachable with [w] => [w; w] | _ => reachable end.

Definition statesync_patch (cfg : StateSyncConfig) : table :=
  [("enable", JBool true); ("trust-height", JNum (pretty (sf_TrustHeight cfg))); ("trust-hash", JStr (sf_TrustHash cfg));
   ("rpc-servers", JStr (sf_RpcServers cfg)); ("use-local-snapshot", JBool (sf_UseLocalSnapshot cfg))] ++
  (if sf_TrustPeriod cfg =s "" then [] else [("trust-period", JStr (sf_TrustPeriod cfg))]) ++
  (if (0 <? sf_BackfillBlocks cfg)%Z then [("backfill-blocks", JNum (pretty (sf_BackfillBlocks cfg)))] else []).
Definition writeStateSyncToConfig (home : path) (cfg : StateSyncConfig) : F unit :=
  mergeAndWrite (Join (Join home "config") "config.toml") [("statesync", JObj (statesync_patch cfg))].

Definition Configure (home : path) (p : StateSyncRequest) : F unit :=
  synced ← markerExists home stateSyncMarkerFile;
  if synced : bool then mret tt else
  candidates ← wrapF "configure-state-sync: " (witnessCandidates home p);
  match reachableWitnesses candidates with
  | [] => failed ("configure-state-sync: no reachable RPC witness among [" +:+ join " " candidates +:+ "]")
  | (primary :: _) as reachable =>
      trustHeight ← (if sr_UseLocalSnapshot p
                     then wrapF "configure-state-sync: discovering local snapshot height: " (discoverLocalSnapshotHeight home)
                     else lift (latestHeight ← wrap_err "configure-state-sync: querying latest height: "
                                                 (queryLatestHeight primary);
                                Ok (Z.max (latestHeight - trustHeightOffset) 1)));
      trustHash ← lift (wrap_err ("configure-state-sync: querying block hash at height " +:+ pretty (trustHeight : Z) +:+ ": ")
                          (queryBlockHash primary trustHeight));
      let cfg := mkStateSyncConfig trustHeight trustHash (sr_TrustPeriod p) (join "," (padded reachable))
                   (sr_UseLocalSnapshot p) (sr_BackfillBlocks p) in
      _ ← wrapF "configure-state-sync: writing config.toml: " (writeStateSyncToConfig home cfg);
      writeMarker home stateSyncMarkerFile
  end.
End tasks.

(** ** Merging into a file *)
Section merge.
Context `{TomlLib}.

(** The document a file holds; a missing file holds the empty one. *)
Definition holds (t : tree) (p : path) (doc : table) : Prop :=
  (t !! p = None /\ doc = []) \/ exists data, t !! p = Some (File data) /\ toml_Unmarshal data = Ok doc.
Lemma holds_fun t p doc doc' : holds t p doc -> holds t p doc' -> doc = doc'.
Proof. intros [[? ->]|(? & ? & ?)] [[? ->]|(? & ? & ?)]; congruence. Qed.

Lemma ReadTOML_holds t0 p :
  triple (fun t => t = t0) (ReadTOML p) (fun doc t => t = t0 /\ holds t0 p doc) (fun _ t => t = t0) (fun t => t = t0).
Proof.
  unfold ReadTOML.
  eapply (disk_bind _ _ _ (fun r t => t = t0 /\ match r with
    | inr data => t0 !! p = Some (File data)
    | inl e => is_not_exist e = true -> t0 !! p = None end)).
  - eapply (disk_try _ _ (fun data t => t = t0 /\ t0 !! p = Some (File data))
      (fun e t => t = t0 /\ (is_not_exist e = true -> t0 !! p = None))); [|auto..].
    apply disk_read; intros t ->; [by destruct (t0 !! p) as [[]|]|].
    split; [done|]. intros e He. split; [done|congruence].
  - intros [e|data].
    + destruct (is_not_exist e); [apply disk_ret; intros t [-> Hn]; split; [done|left; by split; [apply Hn|]]|].
      apply disk_fail. by intros t [-> _].
    + apply disk_lift; [|by intros ? t [-> _]]. intros doc t Hdoc [-> Hd]. split; [done|]. right. by exists data.
Qed.

(** The text a merge writes. *)
Definition merged_text (t0 : tree) (p : path) (patch : table) (content : string) : Prop :=
  exists doc, holds t0 p doc /\ toml_Encode (members (Merge (JObj doc) (JObj patch))) = Ok content.
Definition untouched_or_merged (t0 : tree) (p : path) (patch : table) (t : tree) : Prop :=
  t = t0 \/ exists content, merged_text t0 p patch content /\ old_or_new t0 p content t.

Lemma mergeAndWrite_spec t0 dir name patch :
  has_prefix ".tmp-" name = false ->
  triple (fun t => t = t0) (mergeAndWrite (dir ++ [name]) patch)
    (fun _ t => exists content, merged_text t0 (dir ++ [name]) patch content /\
       t !! (dir ++ [name]) = Some (File content) /\ forall q, q <> dir ++ [name] -> t !! q = t0 !! q)
    (fun _ t => untouched_or_merged t0 (dir ++ [name]) patch t)
    (untouched_or_merged t0 (dir ++ [name]) patch).
Proof.
  intros Hname. set (p := dir ++ [name]). unfold mergeAndWrite.
  eapply disk_bind.
  { apply disk_wrap. eapply disk_conseq; [apply (ReadTOML_holds t0 p)|intros t Ht; exact Ht|intros a t Ht; exact Ht| |].
    - intros ? t -> ?. by left.
    - intros t ->. by left. }
  intros doc. rewrite Merge_obj. unfold WriteTOML.
  destruct (toml_Encode (merge_map patch (members (JObj doc)))) as [content|e] eqn:Ee.
  - cbn [wrap_err lift]. intros d [Hd Hh].
    assert (Hm : merged_text t0 p patch content) by (exists doc; split; [done|]; by rewrite Merge_obj).
    pose proof (WriteFileAtomic_old_or_new t0 dir name content Hname d Hd) as Hw. fold p in Hw.
    unfold mbind, F_bind, mret, F_ret in *. destruct (WriteFileAtomic p content d) as [[u|e|] d'].
    + exists content. by split.
    + destruct Hw as [?|?]; [by left|right; by exists content].
    + destruct Hw as [?|?]; [by left|right; by exists content].
  - intros d [Hd Hh]. by left.
Qed.
End merge.

(** ** The paths of a reset *)
Section reset.
Context `{TomlLib} (home : path).

Definition data_dir : path := home ++ ["data"].
Definition state_path : path := data_dir ++ [privValidatorStateFile].
Definition marker_path : path := home ++ [stateSyncMarkerFile].
Definition config_path : path := (home ++ ["config"]) ++ ["config.toml"].

Lemma join_paths :
  Join home "data" = data_dir /\ Join data_dir privValidatorStateFile = state_path /\
  Join home stateSyncMarkerFile = marker_path /\ Join (Join home "config") "config.toml" = config_path /\
  Join home defaultPrivValidatorStatePath = state_path.
Proof. split_and!; reflexivity. Qed.

(** What lies in the data directory and is not the sign state. *)
Definition chain_data (q : path) : Prop := exists n r, n <> privValidatorStateFile /\ q = data_dir ++ n :: r.

Lemma app_inv_home (r r' : path) : home ++ r = home ++ r' -> r = r'.
Proof. apply app_inv_head. Qed.
Lemma state_not_chain_data : ~ chain_data state_path.
Proof. intros (n & r & Hn & Hq). unfold state_path in Hq. by apply app_inv_head in Hq as [= <- _]. Qed.
Lemma marker_not_chain_data : ~ chain_data marker_path.
Proof.
  intros (n & r & _ & Hq). unfold marker_path, data_dir in Hq. rewrite <- app_assoc in Hq.
  by apply app_inv_head in Hq.
Qed.
Lemma state_not_marker : state_path <> marker_path.
Proof. unfold state_path, marker_path, data_dir. rewrite <- app_assoc. by intros ?%app_inv_head. Qed.
Lemma config_kept : ~ chain_data config_path /\ config_path <> state_path /\ config_path <> marker_path.
Proof.
  unfold config_path, state_path, marker_path, chain_data, data_dir. rewrite <- !app_assoc.
  split_and!; [intros (n & r & _ & Hq); rewrite <- app_assoc in Hq|intros Hq..]; by apply app_inv_head in Hq.
Qed.
Lemma data_prefix_not_chain q : q `prefix_of` data_dir -> ~ chain_data q /\ q <> state_path /\ q <> marker_path.
Proof.
  intros [r Hr]. split_and!.
  - intros (n & r' & _ & ->). apply (f_equal length) in Hr. rewrite !length_app in Hr. simpl in Hr. lia.
  - intros ->. unfold state_path in Hr. apply (f_equal length) in Hr. rewrite !length_app in Hr. simpl in Hr. lia.
  - intros ->. unfold marker_path, data_dir in Hr. rewrite <- app_assoc in Hr. by apply app_inv_head in Hr.
Qed.

(** ** What a reset may have done to a tree [t0], wherever it stops *)
Definition partly_written (t : tree) : Prop :=
  t !! state_path = None \/ exists n, t !! state_path = Some (File (String.substring 0 n emptyPrivValidatorState)).
Definition resetting (t0 t : tree) : Prop :=
  (forall q, ~ chain_data q -> q <> state_path -> q <> marker_path ->
     t !! q = t0 !! q \/ (t0 !! q = None /\ t !! q = Some Dir /\ q `prefix_of` data_dir)) /\
  (forall e, t0 !! state_path = Some e -> t !! state_path = Some e) /\
  (t0 !! state_path = None -> partly_written t) /\
  (t0 !! marker_path = None -> t !! marker_path = None).
(** The chain data is gone, when each entry of [t0] lay in a directory. *)
Definition wiped (t0 t : tree) : Prop := closed t0 -> forall q, chain_data q -> t !! q = None.

Lemma resetting_refl t : resetting t t.
Proof. split_and!; [by left|done|by left|done]. Qed.
Lemma resetting_remove t0 t t' n :
  n <> privValidatorStateFile -> resetting t0 t ->
  (forall q, under (data_dir ++ [n]) q = false -> t' !! q = t !! q) ->
  resetting t0 t'.
Proof.
  intros Hn (H1 & H2 & H3 & H4) Ht.
  assert (Hframe : forall q, ~ chain_data q -> t' !! q = t !! q).
  { intros q Hq. apply Ht, not_under. intros r ->. apply Hq. exists n, r. split; [done|]. by rewrite <- app_assoc. }
  split_and!.
  - intros q Hq ? ?. rewrite Hframe by done. by apply H1.
  - intros e He. rewrite Hframe by apply state_not_chain_data. by apply H2.
  - intros He. unfold partly_written. rewrite Hframe by apply state_not_chain_data. by apply H3.
  - intros He. rewrite Hframe by apply marker_not_chain_data. by apply H4.
Qed.
Lemma resetting_dirs t0 t t' : resetting t0 t -> dirs_made data_dir t t' -> resetting t0 t'.
Proof.
  intros (H1 & H2 & H3 & H4) Hd.
  assert (Hframe : forall q, ~ q `prefix_of` data_dir -> t' !! q = t !! q).
  { intros q Hq. destruct (Hd q) as [?|(_ & _ & ?)]; done. }
  assert (Hs : ~ state_path `prefix_of` data_dir).
  { intros Hp. by destruct (data_prefix_not_chain _ Hp) as (_ & ? & _). }
  assert (Hm : ~ marker_path `prefix_of` data_dir).
  { intros Hp. by destruct (data_prefix_not_chain _ Hp) as (_ & _ & ?). }
  split_and!.
  - intros q Hq Hqs Hqm. specialize (H1 q Hq Hqs Hqm). destruct (Hd q) as [Hsame|(Hn & ? & ?)]; [by rewrite Hsame|].
    destruct H1 as [E|(_ & E & _)]; [rewrite E in Hn; by right|congruence].
  - intros e He. rewrite Hframe by done. by apply H2.
  - intros He. unfold partly_written. rewrite Hframe by done. by apply H3.
  - intros He. rewrite Hframe by done. by apply H4.
Qed.
Lemma resetting_state t0 t content n :
  t0 !! state_path = None -> resetting t0 t -> content = String.substring 0 n emptyPrivValidatorState ->
  resetting t0 (<[state_path := File content]> t).
Proof.
  intros Hnone (H1 & H2 & H3 & H4) ->. pose proof state_not_marker. split_and!.
  - intros q ? ? ?. rewrite lookup_insert_ne by done. by apply H1.
  - intros e He. congruence.
  - intros _. right. exists n. by rewrite lookup_insert_eq.
  - intros ?. rewrite lookup_insert_ne by done. by apply H4.
Qed.
Lemma resetting_marker t0 t : resetting t0 t -> resetting t0 (delete marker_path t).
Proof.
  intros (H1 & H2 & H3 & H4). pose proof state_not_marker. split_and!.
  - intros q ? ? ?. rewrite lookup_delete_ne by done. by apply H1.
  - intros e He. rewrite lookup_delete_ne by done. by apply H2.
  - intros ?. unfold partly_written. rewrite lookup_delete_ne by done. by apply H3.
  - intros _. by rewrite lookup_delete_eq.
Qed.

(** ** The steps of a reset *)

(** Before the sign state is looked at, it is what it was. *)
Definition clearing (t0 t : tree) : Prop := resetting t0 t /\ t !! state_path = t0 !! state_path.
(** What is left of the chain data lies under these names. *)
Definition left_in (t0 : tree) (names : list string) (t : tree) : Prop :=
  closed t0 -> forall n r, n <> privValidatorStateFile -> t !! (data_dir ++ n :: r) <> None -> n ∈ names.
Lemma left_in_nil t0 t : left_in t0 [] t -> wiped t0 t.
Proof.
  intros H0 Hcl q (n & r & Hn & ->). apply dec_stable. intros Hq. specialize (H0 Hcl n r Hn Hq). by apply elem_of_nil in H0.
Qed.

Lemma clearing_remove t0 t t' n :
  n <> privValidatorStateFile -> clearing t0 t ->
  (forall q, under (data_dir ++ [n]) q = false -> t' !! q = t !! q) -> clearing t0 t'.
Proof.
  intros Hn [Hr Hs] Ht. split; [by eapply resetting_remove|]. rewrite Ht; [done|].
  apply not_under. intros r Hq. apply state_not_chain_data. exists n, r. split; [done|].
  rewrite Hq. by rewrite <- app_assoc.
Qed.

Lemma remove_entries_clears t0 entries :
  triple (fun t => clearing t0 t /\ left_in t0 (keys entries) t) (remove_entries data_dir [privValidatorStateFile] entries)
    (fun _ t => clearing t0 t /\ wiped t0 t) (fun _ t => clearing t0 t) (clearing t0).
Proof.
  induction entries as [|[name d] entries IH].
  { apply disk_ret. intros t [Hc Hl]. split; [done|]. by apply left_in_nil. }
  cbn [remove_entries]. destruct (mem name [privValidatorStateFile]) eqn:Em.
  - eapply disk_conseq; [exact IH| |auto..]. intros t [Hc Hl]. split; [done|]. intros Hcl n r Hn Hq.
    specialize (Hl Hcl n r Hn Hq). apply elem_of_cons in Hl as [->|Hl]; [|done].
    simpl in Em. rewrite orb_false_r in Em. by apply String.eqb_eq in Em.
  - assert (Hname : name <> privValidatorStateFile).
    { intros ->. discriminate Em. }
    eapply (disk_bind _ _ _ (fun r t => match r with
      | inl e => is_not_exist e = false /\ clearing t0 t
      | inr _ => clearing t0 t /\ left_in t0 (keys entries) t end)).
    + eapply (disk_try _ _ (fun _ t => clearing t0 t /\ left_in t0 (keys entries) t)
                 (fun e t => is_not_exist e = false /\ clearing t0 t)); [|auto..].
      eapply disk_conseq; [apply (disk_RemoveAll _ (fun t => clearing t0 t /\ left_in t0 (keys ((name, d) :: entries)) t)
        (fun t => clearing t0 t /\ left_in t0 (keys entries) t))|auto..].
      * intros t t' [Hc Hl] Hsame Hnone. split; [by eapply clearing_remove|].
        intros Hcl n r Hn Hq. apply (Hl Hcl n r Hn). intros Hq'. by apply Hq, Hnone.
      * intros t [Hc Hl] Hgone. split; [done|]. intros Hcl n r Hn Hq. specialize (Hl Hcl n r Hn Hq).
        apply elem_of_cons in Hl as [->|Hl]; [|done]. destruct Hq. apply Hgone. apply under_spec. exists r.
        by rewrite <- app_assoc.
      * intros e t (? & ? & ?). done.
      * by intros t [? ?].
    + intros [e|u]; [|exact IH]. destruct (is_not_exist e) eqn:Ee; [by intros dd [? ?]; congruence|].
      apply disk_fail. by intros t [_ ?].
Qed.

Lemma wipeDirContents_clears t0 :
  triple (fun t => t = t0) (wipeDirContents data_dir [privValidatorStateFile])
    (fun _ t => clearing t0 t /\ wiped t0 t) (fun _ t => clearing t0 t) (clearing t0).
Proof.
  assert (H0 : clearing t0 t0) by (split; [apply resetting_refl|done]). unfold wipeDirContents.
  eapply (disk_bind _ _ _ (fun r t => t = t0 /\ match r with
    | inl e => is_not_exist e = true -> wiped t0 t0
    | inr entries => left_in t0 (keys entries) t0 end)).
  - eapply (disk_try _ _ (fun entries t => t = t0 /\ left_in t0 (keys entries) t0)
             (fun e t => t = t0 /\ (is_not_exist e = true -> wiped t0 t0))); [|auto..].
    apply disk_read.
    + intros t ->. destruct (is_dir t0 data_dir) eqn:Ed.
      * split; [done|]. intros Hc n r Hn Hq. unfold keys. rewrite <- list_fmap_compose.
        apply list_elem_of_fmap. exists n. split; [done|]. rewrite merge_sort_Permutation.
        by eapply closed_first.
      * split; [done|]. intros He. unfold data_dir in Ed, He. rewrite is_dir_snoc in Ed.
        destruct (t0 !! (home ++ ["data"])) as [e|] eqn:E; [done|].
        intros Hc q (n & r & Hn & ->). apply dec_stable. intros Hq.
        apply (closed_ancestor t0 data_dir (n :: r)) in Hq; [|done..|by unfold data_dir; destruct home].
        unfold data_dir in Hq. congruence.
    + intros t ->. split; [done|]. intros e He. split; [done|]. congruence.
  - intros [e|entries].
    + destruct (is_not_exist e); [apply disk_ret; intros t [-> Hw]; auto|apply disk_fail; by intros t [-> _]].
    + eapply disk_conseq; [apply remove_entries_clears|by intros t [-> ?]|auto..].
Qed.

(** The sign state a reset ends with: the one that was there, or the zero state. *)
Definition state_kept (t0 t : tree) : Prop :=
  t !! state_path = Some (default (File emptyPrivValidatorState) (t0 !! state_path)).
Definition clean (t0 t : tree) : Prop := wiped t0 t /\ t !! data_dir = Some Dir.

Lemma clean_insert t0 t e : clean t0 t -> clean t0 (<[state_path := e]> t).
Proof.
  intros [Hw Hd]. split.
  - intros Hc q Hq. rewrite lookup_insert_ne; [by apply Hw|]. intros <-. by apply state_not_chain_data.
  - rewrite lookup_insert_ne; [done|]. intros He. pose proof (data_prefix_not_chain data_dir) as (_ & ? & _); [done|congruence].
Qed.
Lemma clean_delete t0 t : clean t0 t -> clean t0 (delete marker_path t).
Proof.
  intros [Hw Hd]. split.
  - intros Hc q Hq. destruct (decide (q = marker_path)) as [->|?]; [by rewrite lookup_delete_eq|].
    rewrite lookup_delete_ne by done. by apply Hw.
  - rewrite lookup_delete_ne; [done|]. intros He. pose proof (data_prefix_not_chain data_dir) as (_ & _ & ?); [done|congruence].
Qed.

Lemma keepSignState_keeps t0 :
  triple (fun t => clearing t0 t /\ clean t0 t) (keepSignState state_path)
    (fun _ t => resetting t0 t /\ clean t0 t /\ state_kept t0 t) (fun _ t => resetting t0 t) (resetting t0).
Proof.
  unfold keepSignState.
  eapply (disk_bind _ _ _ (fun r t => resetting t0 t /\ clean t0 t /\ match r with
    | inr _ => state_kept t0 t
    | inl e => is_not_exist e = true -> t0 !! state_path = None end)).
  - eapply (disk_try _ _ (fun _ t => resetting t0 t /\ clean t0 t /\ state_kept t0 t)
       (fun e t => resetting t0 t /\ clean t0 t /\ (is_not_exist e = true -> t0 !! state_path = None))); [|auto..].
    apply disk_Stat.
    + intros t e [[Hr Hs] Hcl] He. split_and!; [done..|]. unfold state_kept, state_path in *. by rewrite <- Hs, He.
    + intros t er [[Hr Hs] Hcl] He. split_and!; [done..|]. intros Hn. rewrite <- Hs. by apply He.
    + by intros t [[Hr Hs] Hcl].
  - intros [e|u]; [|by apply disk_ret]. destruct (is_not_exist e); [|apply disk_fail; by intros t (? & ? & ?)].
    apply disk_wrap. unfold writeFileSynced.
    set (I := fun t => resetting t0 t /\ clean t0 t /\ t0 !! state_path = None).
    set (J := fun t => I t /\ t !! state_path = Some (File emptyPrivValidatorState)).
    assert (HI : forall n t, I t -> I (<[state_path := File (String.substring 0 n emptyPrivValidatorState)]> t)).
    { intros n t (Hr & Hcl & Hn). split_and!; [|by apply clean_insert|done]. by eapply resetting_state. }
    eapply disk_conseq with (P' := I) (Q' := fun _ => J) (E' := fun _ => I) (K' := I).
    + eapply disk_bind; [apply (disk_keeps_OpenTrunc I); intros t Ht; by apply (HI 0)|]. intros ?.
      eapply disk_bind; [apply (disk_Write I); intros t n Ht; by apply HI|]. intros ?.
      eapply disk_bind; [apply (disk_keeps_into J I); [apply disk_keeps_Sync|by intros t []]|]. intros ?.
      apply (disk_keeps_into J I); [apply disk_keeps_Close|by intros t []].
    + intros t (? & ? & ?). split_and!; auto.
    + intros a t [(Hr & Hcl & Hn) Hs]. split_and!; [done..|]. unfold state_kept. by rewrite Hn.
    + intros a t (? & _) e'. done.
    + by intros t (? & _).
Qed.

Lemma clearMarker_clears t0 :
  triple (fun t => resetting t0 t /\ clean t0 t /\ state_kept t0 t) (clearMarker marker_path)
    (fun _ t => resetting t0 t /\ clean t0 t /\ state_kept t0 t /\ t !! marker_path = None)
    (fun _ t => resetting t0 t) (resetting t0).
Proof.
  set (I := fun t => resetting t0 t /\ clean t0 t /\ state_kept t0 t).
  assert (HI : forall t, I t -> I (delete marker_path t)).
  { intros t (? & ? & Hs). split_and!; [by apply resetting_marker|by apply clean_delete|].
    unfold state_kept. rewrite lookup_delete_ne; [done|]. intros E. by apply state_not_marker. }
  unfold clearMarker.
  eapply (disk_bind _ _ _ (fun r t => I t /\ match r with
    | inr _ => t !! marker_path = None
    | inl e => is_not_exist e = true -> t !! marker_path = None end)).
  - eapply (disk_try _ _ (fun _ t => I t /\ t !! marker_path = None)
             (fun e t => I t /\ (is_not_exist e = true -> t !! marker_path = None))); [|auto..].
    eapply disk_conseq; [apply (disk_Remove _ I HI)|auto..]. by intros t (? & ?).
  - intros [e|u]; [|apply disk_ret; by intros t [(? & ? & ?) ?]].
    destruct (is_not_exist e); [apply disk_ret; intros t [(? & ? & ?) ?]; auto|].
    apply disk_fail. by intros t [(? & ? & ?) _].
Qed.

Lemma wipe_resets t0 :
  triple (fun t => t = t0) (wipe home)
    (fun _ t => resetting t0 t /\ clean t0 t /\ state_kept t0 t /\ t !! marker_path = None)
    (fun _ t => resetting t0 t) (resetting t0).
Proof.
  unfold wipe. destruct join_paths as (-> & -> & -> & _).
  assert (Hrefl : forall t, t = t0 -> resetting t0 t) by (intros t ->; apply resetting_refl).
  eapply disk_bind.
  { eapply disk_conseq; [apply (disk_keeps_try (fun t => t = t0)), disk_keeps_read|intros t Ht; exact Ht|intros a t Ht; exact Ht|auto|auto]. }
  intros measured. eapply disk_bind.
  { apply disk_wrap. eapply disk_conseq; [apply wipeDirContents_clears|intros t Ht; exact Ht|intros a t Ht; exact Ht| |].
    - intros ? t [Hr _] ?. exact Hr.
    - by intros t [Hr _]. }
  intros ?. eapply disk_bind.
  { apply disk_wrap. eapply disk_conseq with (Q' := fun _ t => clearing t0 t /\ clean t0 t).
    - apply (disk_MkdirAll data_dir (fun t => clearing t0 t /\ wiped t0 t)).
      + intros t t' [[Hr Hs] Hw] Hd.
        assert (Hframe : forall q, ~ q `prefix_of` data_dir -> t' !! q = t !! q).
        { intros q Hq. destruct (Hd q) as [?|(_ & _ & ?)]; done. }
        split_and!; [split; [by eapply resetting_dirs|]|].
        * rewrite Hframe; [done|]. intros Hp. by destruct (data_prefix_not_chain _ Hp) as (_ & ? & _).
        * intros Hc q Hq. rewrite Hframe; [by apply Hw|]. intros Hp. by destruct (data_prefix_not_chain _ Hp).
      + intros t [Hcl Hw] _ Hdir. by split_and!.
      + intros Hnil. unfold data_dir in Hnil. by destruct home.
    - intros t H0. exact H0.
    - intros ? t H0. exact H0.
    - intros ? t [[Hr _] _] ?. exact Hr.
    - by intros t [[Hr _] _]. }
  intros ?. eapply disk_bind; [apply keepSignState_keeps|]. intros ?.
  eapply disk_bind; [apply clearMarker_clears|]. intros ?. by apply disk_ret.
Qed.

(** ** The refusals read only *)
Lemma disk_keeps_ReadTOML I p : keeps I (ReadTOML p).
Proof.
  unfold ReadTOML. apply disk_keeps_bind; [auto with keeps|]. intros [e|data]; [destruct (is_not_exist e)|]; auto with keeps.
Qed.
Lemma disk_keeps_refuseMovedSignState I : keeps I (refuseMovedSignState home).
Proof. apply disk_keeps_bind; [apply disk_keeps_wrap, disk_keeps_ReadTOML|]. intros doc. apply disk_keeps_lift. Qed.

(** ** Where the sign state is *)
Definition config_names (doc : table) (s : string) : Prop :=
  exists sectionName key section, sectionName ∈ state_sections /\ key ∈ state_keys /\
    tbl_lookup sectionName doc = Some (JObj section) /\ tbl_lookup key section = Some (JStr s).
Definition config_says (t : tree) (doc : table) : Prop := holds t config_path doc.
(** The default place, and any the configuration names. *)
Definition sign_path (t : tree) (q : path) : Prop :=
  q = state_path \/ exists doc s, config_says t doc /\ config_names doc s /\ q = resolve home s.

Lemma check_keys_accepts name section names key v :
  check_keys home name section names = Ok tt -> key ∈ names -> tbl_lookup key section = Some v ->
  accepts_state_file home name key v = Ok tt.
Proof.
  induction names as [|k names IH]; cbn [check_keys]; intros Hc Hk Hv; [by apply elem_of_nil in Hk|].
  apply elem_of_cons in Hk as [->|Hk].
  - rewrite Hv in Hc. by destruct (accepts_state_file home name k v) as [[]|].
  - destruct (tbl_lookup k section) as [v'|]; [|by apply IH].
    destruct (accepts_state_file home name k v'); [by apply IH|done].
Qed.
Lemma check_sections_accepts doc sections s name key section :
  check_sections home doc sections = Ok tt -> name ∈ sections -> key ∈ state_keys ->
  tbl_lookup name doc = Some (JObj section) -> tbl_lookup key section = Some (JStr s) ->
  accepts_state_file home name key (JStr s) = Ok tt.
Proof.
  induction sections as [|n sections IH]; cbn [check_sections]; intros Hc Hn Hk Hs Hv; [by apply elem_of_nil in Hn|].
  apply elem_of_cons in Hn as [->|Hn].
  - rewrite Hs in Hc. destruct (check_keys home n section state_keys) as [[]|] eqn:E; [|done].
    by eapply check_keys_accepts.
  - destruct (tbl_lookup n doc) as [v|]; [|by apply IH]. destruct v; try done.
    destruct (check_keys home n l state_keys); [by apply IH|done].
Qed.

(** What the check accepts leads to the file the wipe keeps, or is no setting. *)
Lemma accepted_is_kept doc s :
  Forall plain home -> check_sections home doc state_sections = Ok tt -> config_names doc s ->
  s = "" \/ resolve home s = state_path.
Proof.
  intros Hh Hc (name & key & section & Hn & Hk & Hs & Hv).
  pose proof (check_sections_accepts _ _ _ _ _ _ Hc Hn Hk Hs Hv) as Ha. unfold accepts_state_file in Ha.
  destruct (s =s "") eqn:E; [left; by apply String.eqb_eq|]. right.
  assert (Hpath : state_path = home ++ ["data"; privValidatorStateFile]).
  { unfold state_path, data_dir. by rewrite <- app_assoc. }
  rewrite Hpath. apply Clean_resolves; [done|done|repeat constructor; done|]. rewrite <- Hpath.
  destruct (Clean s =s defaultPrivValidatorStatePath) eqn:E1; [left; apply String.eqb_eq in E1; by rewrite E1|]. simpl in Ha.
  right. destruct (Clean s =s path_text (Join home defaultPrivValidatorStatePath)) eqn:E2; [|done].
  apply String.eqb_eq in E2. by rewrite E2.
Qed.

(** ** A whole reset *)
Lemma refuseMovedSignState_checks t0 :
  triple (fun t => t = t0) (refuseMovedSignState home)
    (fun _ t => t = t0 /\ exists doc, config_says t0 doc /\ check_sections home doc state_sections = Ok tt)
    (fun _ t => t = t0) (fun t => t = t0).
Proof.
  unfold refuseMovedSignState. eapply disk_bind.
  - apply disk_wrap. eapply disk_conseq; [apply (ReadTOML_holds t0 config_path)|intros t Ht; exact Ht|intros a t Ht; exact Ht|auto|auto].
  - intros doc. apply disk_lift; [|by intros e t [-> _]]. intros [] t Hc [-> Hs]. split; [done|]. by exists doc.
Qed.

(** What a reset did when it got past its refusals, and when it did not. *)
Definition reset_done (t0 : tree) (r : outcome Z) (t : tree) : Prop :=
  resetting t0 t /\
  match r with Ret _ => clean t0 t /\ state_kept t0 t /\ t !! marker_path = None | _ => True end.
Lemma reset_spec rpcUp proc d :
  let '(r, d') := reset home rpcUp proc d in
  (d_tree d' = d_tree d /\ (forall n, r <> Ret n)) \/
  (rpcUp = false /\ refuseDataUsers proc = Ok tt /\
   (exists doc, config_says (d_tree d) doc /\ check_sections home doc state_sections = Ok tt) /\
   reset_done (d_tree d) r (d_tree d')).
Proof.
  unfold reset. destruct rpcUp; [by left|]. unfold mbind, F_bind.
  destruct (refuseDataUsers proc) as [[]|e]; [|by left]. cbn [lift mret F_ret].
  pose proof (refuseMovedSignState_checks (d_tree d) d eq_refl) as Hm. unfold mbind, F_bind in *.
  destruct (refuseMovedSignState home d) as [[[]|e|] d1]; [|by left..]. destruct Hm as [Ht Hdoc].
  pose proof (wipe_resets (d_tree d) d1 Ht) as Hw. unfold reset_done.
  destruct (wipe home d1) as [[n|e|] d2]; right; [|by split_and!..]. destruct Hw as (? & ? & ? & ?). by split_and!.
Qed.

(** A file that is not the node's to reset stays: the sign state, and anything
    outside the data directory but the marker. *)
Lemma resetting_file t0 t q c :
  resetting t0 t -> ~ chain_data q -> q <> marker_path -> t0 !! q = Some (File c) -> t !! q = Some (File c).
Proof.
  intros (H1 & H2 & _ & _) Hq Hm Hc. destruct (decide (q = state_path)) as [->|Hs]; [by apply H2|].
  destruct (H1 q Hq Hs Hm) as [->|(Hn & _)]; [done|congruence].
Qed.

(** Runs of the task, each with what it meets: the node's RPC, the processes,
    what becomes of its calls. *)
Definition reset_run : Type := bool * result (list proc_entry) * list (option fault).
Definition run_reset (t : tree) (run : reset_run) : tree :=
  let '(rpcUp, proc, faults) := run in d_tree (reset home rpcUp proc (mkDisk t faults [])).2.
Definition run_resets (t : tree) (runs : list reset_run) : tree := fold_left run_reset runs t.

Lemma run_reset_keeps t run q c :
  Forall plain home -> sign_path t q -> t !! q = Some (File c) ->
  sign_path (run_reset t run) q /\ run_reset t run !! q = Some (File c).
Proof.
  intros Hh Hq Hc. destruct run as [[rpcUp proc] faults]. unfold run_reset.
  pose proof (reset_spec rpcUp proc (mkDisk t faults [])) as Hs.
  destruct (reset home rpcUp proc (mkDisk t faults [])) as [r d']. cbn [d_tree snd] in *.
  destruct Hs as [[-> _]|(_ & _ & (doc & Hsays & Hcheck) & Hr & _)]; [done|].
  assert (Hnot : ~ chain_data q /\ q <> marker_path).
  { destruct Hq as [->|(doc' & s & Hsays' & Hn & ->)]; [split; [apply state_not_chain_data|apply state_not_marker]|].
    pose proof (holds_fun _ _ _ _ Hsays Hsays') as <-.
    destruct (accepted_is_kept doc s Hh Hcheck Hn) as [->| ->]; [|split; [apply state_not_chain_data|apply state_not_marker]].
    destruct (data_prefix_not_chain (resolve home "")) as (? & _ & ?); [by exists ["data"]|done]. }
  split; [|by eapply resetting_file; [exact Hr|apply Hnot..|]].
  destruct Hq as [->|(doc' & s & Hsays' & Hn & ->)]; [by left|]. right. exists doc', s. split_and!; [|done..].
  destruct Hsays' as [[Hnone ->]|(data & Hd & Ho)].
  - destruct Hn as (? & ? & ? & _ & _ & Hl & _). done.
  - right. exists data. split; [|done]. pose proof config_kept as (? & ? & ?). by eapply resetting_file.
Qed.

(** ** A reset whose calls all do what they say *)

(** Nothing stands where the reset makes its directory or removes its marker. *)
Definition ready (t : tree) : Prop := way_clear data_dir t /\ t !! marker_path <> Some Dir.
Lemma ready_insert t s : ready t -> ready (<[state_path := File s]> t).
Proof.
  intros [Hw Hm]. split.
  - intros q x Hq. rewrite lookup_insert_ne; [by apply Hw|]. intros <-.
    by destruct (data_prefix_not_chain state_path Hq) as (_ & ? & _).
  - rewrite lookup_insert_ne; [done|]. apply state_not_marker.
Qed.
Lemma ready_dirs t t' : ready t -> dirs_made data_dir t t' -> ready t'.
Proof.
  intros [Hw Hm] Hd. split.
  - intros q x Hq Hx. destruct (Hd q) as [E|(_ & E & _)]; [rewrite E in Hx; by eapply Hw|congruence].
  - intros Hx. destruct (Hd marker_path) as [E|(_ & _ & Hp)]; [congruence|].
    by destruct (data_prefix_not_chain _ Hp) as (_ & _ & ?).
Qed.
Lemma ready_remove t p : ready t -> ready (remove_under p t).
Proof. intros [Hw Hm]. split; [intros q x Hq|]; rewrite lookup_remove_under; destruct (under p _); auto. Qed.

Lemma wipeDirContents_total : total ready (wipeDirContents data_dir [privValidatorStateFile]) (fun _ => ready) never.
Proof.
  unfold wipeDirContents. eapply (calm_bind _ _ _ (fun r t => ready t /\ match r with
    | inl e => is_not_exist e = true | inr _ => True end)).
  - eapply (calm_try _ _ (fun _ t => ready t) (fun e t => ready t /\ is_not_exist e = true)); [|auto..].
    apply calm_syscall. intros t Ht. destruct (is_dir t data_dir) eqn:Ed; [done|]. split; [done|].
    unfold data_dir in *. rewrite is_dir_snoc in Ed. destruct (t !! (home ++ ["data"])) as [[s|]|] eqn:E; [|done|done].
    exfalso. by apply (proj1 Ht (home ++ ["data"]) s).
  - intros [e|entries].
    + destruct (is_not_exist e) eqn:Ee; [apply calm_ret; by intros t []|]. intros d _ [_ He]. congruence.
    + eapply calm_conseq with (P' := ready) (Q' := fun _ => ready) (E' := never); [|by intros t []|auto..].
      induction entries as [|[name b] entries IH]; [by apply calm_ret|]. cbn [remove_entries].
      destruct (mem name [privValidatorStateFile]); [done|].
      eapply (calm_bind _ _ _ (fun r t => ready t /\ exists u, r = inr u)).
      * eapply (calm_try _ _ (fun _ => ready) never); [|intros a t Ht; split; [done|by exists a]|done].
        apply calm_syscall. intros t Ht. by apply ready_remove.
      * intros [e|u]; [intros d _ [_ [? ?]]; done|].
        eapply calm_conseq; [exact IH|by intros t []|auto..].
Qed.

Lemma wipe_total : total ready (wipe home) (fun _ _ => True) never.
Proof.
  unfold wipe. destruct join_paths as (-> & -> & -> & _).
  eapply (calm_bind _ _ _ (fun _ => ready)).
  { eapply (calm_try _ _ (fun _ => ready) never); [by apply calm_syscall|auto|done]. }
  intros ?. eapply (calm_bind _ _ _ (fun _ => ready)); [apply calm_wrap, wipeDirContents_total|].
  set (I := fun t => ready t /\ t !! data_dir = Some Dir).
  intros ?. eapply (calm_bind _ _ _ (fun _ => I)).
  { apply calm_wrap, calm_MkdirAll; [unfold data_dir; by destruct home|by intros t []|]. apply ready_dirs. }
  intros ?. eapply (calm_bind _ _ _ (fun _ => ready)).
  - unfold keepSignState.
    eapply (calm_bind _ _ _ (fun r t => I t /\ match r with inl e => is_not_exist e = true /\ t !! state_path = None | inr _ => True end)).
    + eapply (calm_try _ _ (fun _ => I) (fun e t => I t /\ is_not_exist e = true /\ t !! state_path = None)); [|auto..].
      by apply calm_Stat.
    + intros [e|u]; [|apply calm_ret; by intros t [[] _]].
      destruct (is_not_exist e) eqn:Ee; [|intros d _ (_ & ? & _); congruence].
      apply calm_wrap. eapply calm_conseq with (P' := fun t => I t /\ t !! state_path <> Some Dir) (E' := never).
      * apply (calm_write_through state_path (fun t => I t /\ t !! state_path <> Some Dir)).
        -- intros t [[_ Hd] Hn]. split; [|done]. unfold Dir_of, state_path. rewrite length_app. simpl.
           rewrite Nat.add_1_r. simpl. rewrite take_app_length' by done. unfold data_dir in *.
           rewrite is_dir_snoc. by apply bool_decide_eq_true.
        -- intros t s [[Hr Hd] _]. split; [split; [by apply ready_insert|]|by rewrite lookup_insert_eq].
           rewrite lookup_insert_ne; [done|]. intros He.
           pose proof (data_prefix_not_chain data_dir) as (_ & ? & _); [done|congruence].
      * intros t (? & _ & Hn). split; [done|congruence].
      * by intros ? t [[] _].
      * done.
  - intros ?. eapply (calm_bind _ _ _ (fun _ _ => True)); [|intros ?; by apply calm_ret]. unfold clearMarker.
    eapply (calm_bind _ _ _ (fun r _ => match r with inl e => is_not_exist e = true | inr _ => True end)).
    + eapply (calm_try _ _ (fun _ _ => True) (fun e _ => is_not_exist e = true)); [|auto..].
      apply calm_syscall. intros t [_ Hm]. by destruct (t !! marker_path) as [[]|].
    + intros [e|u]; [|by apply calm_ret]. destruct (is_not_exist e) eqn:Ee; [by apply calm_ret|].
      intros d _ He. congruence.
Qed.

Lemma refuseMovedSignState_total t0 doc :
  config_says t0 doc -> check_sections home doc state_sections = Ok tt ->
  total (fun t => t = t0) (refuseMovedSignState home) (fun _ t => t = t0) never.
Proof.
  intros Hsays Hcheck. unfold refuseMovedSignState.
  eapply (calm_bind _ _ _ (fun doc' t => t = t0 /\ doc' = doc)).
  - apply calm_wrap. change (Join (Join home "config") "config.toml") with config_path. unfold ReadTOML.
    eapply (calm_bind _ _ _ (fun r t => t = t0 /\ match r with
      | inr data => toml_Unmarshal data = Ok doc
      | inl e => is_not_exist e = true /\ doc = [] end)).
    + eapply (calm_try _ _ (fun data t => t = t0 /\ toml_Unmarshal data = Ok doc)
        (fun e t => t = t0 /\ is_not_exist e = true /\ doc = [])); [|auto..].
      apply calm_syscall. intros t ->. by destruct Hsays as [[-> ->]|(data & -> & ?)].
    + intros [e|data].
      * destruct (is_not_exist e) eqn:Ee; [apply calm_ret; by intros t (-> & _ & ->)|intros d _ (_ & ? & _); congruence].
      * intros d Hd [Ht Hdoc]. rewrite Hdoc. by split.
  - intros doc' d Hd [Ht ->]. rewrite Hcheck. by split.
Qed.

Lemma reset_answers proc d doc :
  findDataUsers proc = Ok [] -> config_says (d_tree d) doc -> check_sections home doc state_sections = Ok tt ->
  d_faults d = [] -> ready (d_tree d) -> exists n, (reset home false proc d).1 = Ret n.
Proof.
  intros Hp Hs Hc Hd Hr. unfold reset, refuseDataUsers. rewrite Hp. unfold mbind, F_bind. cbn [lift mret F_ret].
  pose proof (refuseMovedSignState_total _ _ Hs Hc d Hd eq_refl) as Hm. unfold mbind, F_bind in *.
  destruct (refuseMovedSignState home d) as [[u|e|] d1]; [|by destruct Hm..]. destruct Hm as [Hd1 Ht].
  pose proof (wipe_total d1 Hd1) as Hw. rewrite Ht in Hw. specialize (Hw Hr).
  destruct (wipe home d1) as [[n|e|] d2]; [by exists n|by destruct Hw..].
Qed.
Lemma refuse_seid proc pid : seid_runs proc pid -> exists e, refuseDataUsers proc = Err e.
Proof.
  intros Hr. unfold refuseDataUsers. destruct (findDataUsers proc) as [users|e] eqn:E; [|by eexists].
  pose proof (seid_runs_uses_data _ _ _ Hr E). destruct users; [done|by eexists].
Qed.
End reset.

(** C7: The sign state survives. Wherever config.toml puts the file of the last
    signed height, in any of the four spellings, or at its default place, its
    content is the same after any number of resets: whether they are refused,
    complete, fail or die in any of their calls with a part of their work
    done. *)
Theorem sign_state_survives `{TomlLib} (home : path) (t : tree) (q : path) (c : string) (runs : list reset_run) :
  Forall plain home -> sign_path home t q -> t !! q = Some (File c) -> run_resets home t runs !! q = Some (File c).
Proof.
  intros Hh. unfold run_resets. revert t. induction runs as [|run runs IH]; intros t Hq Hc; [done|].
  simpl. destruct (run_reset_keeps home t run q c Hh Hq Hc) as [Hq' Hc']. by apply IH.
Qed.

(** C8: A reset clears the chain data and nothing else, and only under a node
    that is stopped. From a tree whose entries lie in directories: it succeeds
    only when the RPC was silent and no process ran seid start, and then
    nothing is left in the data directory but the sign state, which is the one
    that was there or the zero one, and the marker of state sync is gone; with
    the node up it changes nothing; whatever happens, everything outside stays;
    and when no seid runs, the configuration leaves the sign state in place,
    every call does what it says and nothing blocks its paths, it succeeds. *)
Theorem reset_clears `{TomlLib} (home : path) (rpcUp : bool) (proc : result (list proc_entry)) (d : disk) :
  closed (d_tree d) ->
  let '(r, d') := reset home rpcUp proc d in
  (forall n, r = Ret n ->
     rpcUp = false /\ (forall pid, ~ seid_runs proc pid) /\
     (forall q, chain_data home q -> d_tree d' !! q = None) /\ d_tree d' !! data_dir home = Some Dir /\
     d_tree d' !! state_path home = Some (default (File emptyPrivValidatorState) (d_tree d !! state_path home)) /\
     d_tree d' !! marker_path home = None) /\
  (rpcUp = true \/ (exists pid, seid_runs proc pid) -> d_tree d' = d_tree d /\ forall n, r <> Ret n) /\
  (forall q e, ~ chain_data home q -> q <> marker_path home -> d_tree d !! q = Some e -> d_tree d' !! q = Some e) /\
  (rpcUp = false -> findDataUsers proc = Ok [] -> d_faults d = [] -> ready home (d_tree d) ->
   (exists doc, config_says home (d_tree d) doc /\ check_sections home doc state_sections = Ok tt) -> exists n, r = Ret n).
Proof.
  intros Hclosed. pose proof (reset_spec home rpcUp proc d) as Hs.
  pose proof (reset_answers home proc d) as Hans.
  destruct (reset home rpcUp proc d) as [r d'] eqn:E.
  assert (Hlive : rpcUp = false -> findDataUsers proc = Ok [] -> d_faults d = [] -> ready home (d_tree d) ->
   (exists doc, config_says home (d_tree d) doc /\ check_sections home doc state_sections = Ok tt) -> exists n, r = Ret n).
  { intros -> Hp Hf Hr (doc & H1 & H2). destruct (Hans doc Hp H1 H2 Hf Hr) as [n Hn]. exists n. by rewrite E in Hn. }
  destruct Hs as [[Ht Hn]|(-> & Hp & _ & Hdone)].
  - rewrite Ht. split_and!; [|done..]. intros n Hr. by destruct (Hn n).
  - destruct Hdone as [Hres Hret]. pose proof Hres as (H1 & H2 & _ & _). split_and!; [| | |done].
    + intros n ->. destruct Hret as ([Hw Hd] & Hk & Hm). split_and!; [done| |by apply Hw|done..].
      intros pid Hpid. destruct (refuse_seid _ _ Hpid) as [e He]. congruence.
    + intros [?|[pid Hpid]]; [done|]. destruct (refuse_seid _ _ Hpid) as [e He]. congruence.
    + intros q e Hq Hm He. destruct (decide (q = state_path home)) as [->|Hqs]; [by apply H2|].
      destruct (H1 q Hq Hqs Hm) as [->|(Hn & _)]; [done|congruence].
Qed.

(** Property: A config patch is applied whole or not at all. For a patch of a file of
    the config directory, whatever its calls do, the file then holds either what
    it held or the encoding of its document merged with the patch, and no other
    file but a temporary one is new; when the task succeeds it is the merged
    one, nothing else changed, and in the document that was encoded every path
    is what the patch says: a value it gives, absent or null where it deletes,
    a table where it descends, and as before where it is silent. *)
Theorem config_patch_atomic `{TomlLib} (home : path) (name : string) (patch : table) (d : disk) :
  no_slash name = true -> ~ In name [""; "."; ".."] -> has_prefix ".tmp-" name = false -> distinct (JObj patch) = true ->
  let p := (home ++ ["config"]) ++ [name] in
  let '(r, d') := ConfigPatcher_Handler home [(name, JObj patch)] d in
  (d_tree d' !! p = d_tree d !! p \/
   exists content, d_tree d' !! p = Some (File content) /\ merged_text (d_tree d) p patch content) /\
  (forall q, q <> p -> d_tree d' !! q = d_tree d !! q \/ (d_tree d !! q = None /\ temp_name (home ++ ["config"]) q)) /\
  (r = Ret tt ->
   (forall q, q <> p -> d_tree d' !! q = d_tree d !! q) /\
   exists doc merged content, holds (d_tree d) p doc /\ toml_Encode merged = Ok content /\
     d_tree d' !! p = Some (File content) /\
     forall k, match says k (JObj patch) with
               | Keeps => at_path k (JObj merged) = at_path k (JObj doc)
               | Deletes => default JNull (at_path k (JObj merged)) = JNull
               | Gives v => at_path k (JObj merged) = Some v
               | Descends => exists m, at_path k (JObj merged) = Some (JObj m)
               end).
Proof.
  intros Hns Hin Htmp Hd p.
  assert (Hp : Join (Join home "config") name = p).
  { unfold Join. rewrite (split_word name) by done. simpl. unfold clean_step at 1.
    assert (Hneq : forall x, In x [""; "."; ".."] -> (name =s x) = false).
    { intros x Hx. apply String.eqb_neq. by intros ->. }
    rewrite !Hneq by (simpl; auto). done. }
  assert (Hspec : triple (fun t => t = d_tree d) (ConfigPatcher_Handler home [(name, JObj patch)])
    (fun _ t => exists content, merged_text (d_tree d) p patch content /\ t !! p = Some (File content) /\
       forall q, q <> p -> t !! q = d_tree d !! q)
    (fun _ t => untouched_or_merged (d_tree d) p patch t) (untouched_or_merged (d_tree d) p patch)).
  { unfold ConfigPatcher_Handler, PatchFiles. rewrite Hp.
    eapply disk_bind.
    - apply disk_wrap. eapply disk_conseq; [by apply mergeAndWrite_spec|intros t Ht; exact Ht|intros ? t Ht; exact Ht| |auto].
      intros ? t Ht ?. exact Ht.
    - intros ?. apply disk_ret. auto. }
  specialize (Hspec d eq_refl).
  assert (Hpart : forall t, untouched_or_merged (d_tree d) p patch t ->
    (t !! p = d_tree d !! p \/ exists content, t !! p = Some (File content) /\ merged_text (d_tree d) p patch content) /\
    (forall q, q <> p -> t !! q = d_tree d !! q \/ (d_tree d !! q = None /\ temp_name (home ++ ["config"]) q))).
  { intros t [->|(content & Hm & [(tmp & Hn & H1 & H2 & H3)|[Hc Hsame]])]; [auto| |].
    - assert (Hdir : Dir_of p = home ++ ["config"]).
      { unfold Dir_of, p. rewrite length_app. simpl. rewrite Nat.add_1_r. simpl. by rewrite take_app_length' by done. }
      rewrite Hdir in Hn. split.
      + left. apply H3. destruct Hn as [n ->]. intros E. apply app_inv_head in E as [= ->].
        by rewrite has_prefix_app in Htmp.
      + intros q Hq. destruct (decide (q = tmp)) as [->|?]; [by right|left; by apply H3].
    - split; [right; by exists content|]. intros q Hq. left. by apply Hsame. }
  destruct (ConfigPatcher_Handler home [(name, JObj patch)] d) as [[[]|e|] d'].
  - destruct Hspec as (content & Hm & Hc & Hsame). split_and!; [right; by exists content|by auto|].
    intros _. split; [done|]. destruct Hm as (doc & Hh & He).
    exists doc, (members (Merge (JObj doc) (JObj patch))), content. split_and!; [done..|]. intros k.
    pose proof (merge_by_path (JObj doc) (JObj patch) k Hd) as Hk. rewrite Merge_obj in Hk |- *. exact Hk.
  - destruct (Hpart _ Hspec) as [? ?]. by split_and!.
  - destruct (Hpart _ Hspec) as [? ?]. by split_and!.
Qed.

(** ** State sync *)
Section statesync.
Context `{TomlLib} `{RpcTexts} (Probe Ask : string -> http_answer).

(** What a successful run found out and wrote. *)
Record trust_found (home : path) (p : StateSyncRequest) (t0 t : tree) (witnesses : list string)
    (height : Z) (hash : string) : Prop := {
  tf_reachable : forall w, w ∈ witnesses -> probeWitness Probe w = true;
  tf_named : sr_RpcServers p <> [] -> witnesses `sublist_of` sr_RpcServers p;
  tf_height : sr_UseLocalSnapshot p = false ->
    exists primary latest, head witnesses = Some primary /\ queryLatestHeight Ask primary = Ok latest /\
      height = Z.max (latest - 2000) 1;
  tf_hash : exists primary, head witnesses = Some primary /\ queryBlockHash Ask primary height = Ok hash /\
    String.length hash = 64;
  tf_servers : 2 <= length (padded witnesses);
  tf_written : exists doc merged content, holds t0 (config_path home) doc /\ toml_Encode merged = Ok content /\
    t !! config_path home = Some (File content) /\
    (forall k v, tbl_lookup k (statesync_patch (mkStateSyncConfig height hash (sr_TrustPeriod p)
       (join "," (padded witnesses)) (sr_UseLocalSnapshot p) (sr_BackfillBlocks p))) = Some v ->
       at_path ["statesync"; k] (JObj merged) = Some v) /\
    (forall k, head k <> Some "statesync" -> k <> [] -> at_path k (JObj merged) = at_path k (JObj doc));
  tf_marked : t !! marker_path home = Some (File "");
}.

Lemma queryBlockHash_length endpoint height hash :
  queryBlockHash Ask endpoint height = Ok hash -> String.length hash = 64.
Proof.
  unfold queryBlockHash. destruct (Get Ask _ _) as [raw|]; [|done]. simpl.
  destruct (decode_raw block_field raw (mkBlockResult "")) as [b|]; [|done]. simpl.
  destruct (br_Hash b =s ""); [done|]. destruct (String.length (br_Hash b) =? 64) eqn:E; [|done].
  intros [= <-]. by apply Nat.eqb_eq.
Qed.
Lemma statesync_patch_distinct cfg : distinct (JObj [("statesync", JObj (statesync_patch cfg))]) = true.
Proof.
  unfold statesync_patch. destruct (sf_TrustPeriod cfg =s ""), (0 <? sf_BackfillBlocks cfg)%Z; reflexivity.
Qed.
Lemma padded_two ws : ws <> [] -> 2 <= length (padded ws).
Proof. destruct ws as [|w [|w' ws]]; simpl; [done|lia..]. Qed.

Lemma witnessCandidates_named home p t0 :
  triple (fun t => t = t0) (witnessCandidates home p)
    (fun ws t => t = t0 /\ (sr_RpcServers p <> [] -> ws = sr_RpcServers p)) (fun _ _ => True) (fun _ => True).
Proof.
  unfold witnessCandidates. destruct (sr_RpcServers p) as [|w ws]; [|by apply disk_ret].
  eapply (disk_bind _ _ _ (fun _ t => t = t0)).
  - unfold readPeersFromConfig. eapply (disk_bind _ _ _ (fun _ t => t = t0)).
    + apply disk_wrap. eapply disk_conseq; [apply (disk_keeps_ReadTOML (fun t => t = t0))|auto..].
    + intros doc. destruct (tbl_lookup "p2p" doc) as [[]|]; try by apply disk_ret.
      destruct (tbl_lookup "persistent-peers" l) as [[]|]; try by apply disk_ret.
      destruct (s =s ""); by apply disk_ret.
  - intros [|peer peers]; [by apply disk_fail|]. destruct (extractRPCHosts (peer :: peers) 2); [by apply disk_fail|].
    by apply disk_ret.
Qed.
Lemma trustHeight_found home p t0 primary :
  triple (fun t => t = t0)
    (if sr_UseLocalSnapshot p
     then wrapF "configure-state-sync: discovering local snapshot height: " (discoverLocalSnapshotHeight home)
     else lift (latestHeight ← wrap_err "configure-state-sync: querying latest height: " (queryLatestHeight Ask primary);
                Ok (Z.max (latestHeight - trustHeightOffset) 1)))
    (fun h t => t = t0 /\ (sr_UseLocalSnapshot p = false ->
       exists latest, queryLatestHeight Ask primary = Ok latest /\ h = Z.max (latest - 2000) 1))
    (fun _ _ => True) (fun _ => True).
Proof.
  destruct (sr_UseLocalSnapshot p).
  - apply disk_wrap. unfold discoverLocalSnapshotHeight. eapply (disk_bind _ _ _ (fun _ t => t = t0)).
    + apply disk_wrap. eapply disk_conseq; [apply (disk_keeps_ReadDir (fun t => t = t0))|auto..].
    + intros entries. destruct (_ =? 0)%Z; [by apply disk_fail|]. by apply disk_ret.
  - apply disk_lift; [|done]. intros h t Hq ->. split; [done|]. intros _.
    destruct (queryLatestHeight Ask primary) as [latest|]; [|done]. simpl in Hq. simplify_eq. by exists latest.
Qed.

Lemma Configure_finds home p t0 :
  t0 !! marker_path home = None ->
  triple (fun t => t = t0) (Configure Probe Ask home p)
    (fun _ t => exists witnesses height hash, trust_found home p t0 t witnesses height hash)
    (fun _ _ => True) (fun _ => True).
Proof.
  intros Hmark. unfold Configure. eapply (disk_bind _ _ _ (fun b t => t = t0 /\ b = false)).
  { unfold markerExists. eapply (disk_bind _ _ _ (fun r t => t = t0 /\ exists e, r = inl e)).
    - eapply (disk_try _ _ (fun _ _ => False) (fun _ t => t = t0)); [|done|intros e t ->; split; [done|by exists e]].
      apply disk_Stat; [|by intros ? ? ->|done]. intros t e -> Hs. pose proof (eq_trans (eq_sym Hs) Hmark). discriminate.
    - intros [e|b]; [by apply disk_ret; intros t [-> _]|]. intros d [_ [? ?]]. discriminate. }
  intros [|]; [by intros d [_ ?]|].
  eapply disk_bind.
  { apply disk_wrap. eapply disk_conseq; [apply (witnessCandidates_named home p t0)|by intros t []|
      intros a t Ht; exact Ht|by intros|done]. }
  intros candidates. destruct (reachableWitnesses Probe candidates) as [|primary ws] eqn:Er; [by apply disk_fail|].
  eapply disk_bind.
  { apply (disk_also (sr_RpcServers p <> [] -> candidates = sr_RpcServers p)). apply trustHeight_found. }
  intros height. eapply (disk_bind _ _ _ (fun hash t => (t = t0 /\ (sr_UseLocalSnapshot p = false ->
      exists latest, queryLatestHeight Ask primary = Ok latest /\ height = Z.max (latest - 2000) 1)) /\
    (sr_RpcServers p <> [] -> candidates = sr_RpcServers p) /\ queryBlockHash Ask primary height = Ok hash)).
  { apply disk_lift; [|done]. intros hash t Hq [? ?]. split_and!; [by apply H1..|done|].
    destruct (queryBlockHash Ask primary height); [simpl in Hq; by simplify_eq|done]. }
  intros hash. set (cfg := mkStateSyncConfig _ _ _ _ _ _).
  intros d ([Hd Hlatest] & Hn & Hhash).
  assert (Hmw : triple (fun t => t = t0) (wrapF "configure-state-sync: writing config.toml: " (writeStateSyncToConfig home cfg))
    (fun _ t => exists content, merged_text t0 (config_path home) [("statesync", JObj (statesync_patch cfg))] content /\
       t !! config_path home = Some (File content)) (fun _ _ => True) (fun _ => True)).
  { apply disk_wrap. eapply disk_conseq; [by apply (mergeAndWrite_spec t0 (home ++ ["config"]) "config.toml")|auto| |auto..].
    intros ? t (content & Hm & Hc & _). by exists content. }
  assert (Hwm : forall content, triple (fun t => t !! config_path home = Some (File content)) (writeMarker home stateSyncMarkerFile)
    (fun _ t => t !! config_path home = Some (File content) /\ t !! marker_path home = Some (File "")) (fun _ _ => True) (fun _ => True)).
  { intros content. unfold writeMarker. change (Join home stateSyncMarkerFile) with (marker_path home).
    destruct (config_kept home) as (_ & _ & Hne).
    eapply (disk_bind _ _ _ (fun _ t => t !! config_path home = Some (File content) /\ t !! marker_path home = Some (File ""))).
    - apply disk_wrap, disk_syscall; [|done]. intros t Ht. unfold open_trunc.
      destruct (is_dir t (Dir_of (marker_path home))); [|done]. simpl.
      destruct (t !! marker_path home) as [[]|]; try done;
        (split; [by rewrite lookup_insert_ne|by rewrite lookup_insert_eq]).
    - intros ?. apply (disk_keeps_into _ (fun _ => True)); [apply disk_keeps_Close|done]. }
  specialize (Hmw d Hd). unfold mbind, F_bind.
  destruct (wrapF _ _ d) as [[u|e|] d1]; [|done..]. destruct Hmw as (content & Hm & Hc).
  specialize (Hwm content d1 Hc). destruct (writeMarker home stateSyncMarkerFile d1) as [[u'|e|] d2]; [|done..].
  destruct Hwm as [Hc2 Hmk]. exists (primary :: ws), height, hash. split.
  - intros w Hw. rewrite <- Er in Hw. by apply list_elem_of_filter in Hw as [? _].
  - intros Hne. rewrite <- Er, <- (Hn Hne). unfold reachableWitnesses. apply sublist_filter.
  - intros Hl. destruct (Hlatest Hl) as (latest & ? & ?). by exists primary, latest.
  - exists primary. split_and!; [done..|by eapply queryBlockHash_length].
  - by apply padded_two.
  - destruct Hm as (doc & Hh & He). exists doc, (members (Merge (JObj doc) (JObj [("statesync", JObj (statesync_patch cfg))]))), content.
    split_and!; [done..| |].
    + intros k v Hk. pose proof (merge_by_path (JObj doc) _ ["statesync"; k] (statesync_patch_distinct cfg)) as Hp.
      change (tbl_lookup k (statesync_patch cfg) = Some v) in Hk.
      rewrite Merge_obj in Hp |- *. rewrite says_section, Hk in Hp.
      assert (Hleaf : says [] v = Gives v).
      { assert (Hv : forall m, v <> JObj m /\ v <> JNull).
        { intros m. apply tbl_lookup_Some_in in Hk. unfold statesync_patch in Hk.
          repeat (apply elem_of_app in Hk as [Hk|Hk] || apply elem_of_cons in Hk as [[= _ ->]|Hk] || by apply elem_of_nil in Hk);
            try done; destruct (sf_TrustPeriod cfg =s ""), (0 <? sf_BackfillBlocks cfg)%Z;
            repeat (apply elem_of_cons in Hk as [[= _ ->]|Hk] || by apply elem_of_nil in Hk); done. }
        destruct v; try done; [by destruct (Hv [])|by destruct (Hv l)]. }
      rewrite Hleaf in Hp. exact Hp.
    + intros k Hk Hnil. pose proof (merge_by_path (JObj doc) _ k (statesync_patch_distinct cfg)) as Hp.
      rewrite Merge_obj in Hp |- *. destruct k as [|k0 k]; [done|].
      assert (Hs : says (k0 :: k) (JObj [("statesync", JObj (statesync_patch cfg))]) = Keeps).
      { simpl. destruct (String.eqb k0 "statesync") eqn:E; [|done]. apply String.eqb_eq in E as ->. by destruct Hk. }
      rewrite Hs in Hp. exact Hp.
  - done.
Qed.
End statesync.

(** Property: State sync is set up on evidence. When configure-state-sync succeeds on a
    node that was not set up, the witnesses it wrote are ones that answered
    their probe, at least two after padding, taken from the request when it
    names any; the trust height is two thousand below the first witness's
    height, at least one, unless a local snapshot gives it; the trust hash is
    the 64 digits that witness gave for that height; config.toml has those
    values in its statesync section and is as before elsewhere; and the marker
    is there. *)
Theorem configure_state_sync_trusts `{TomlLib} `{RpcTexts} (Probe Ask : string -> http_answer) (home : path)
    (p : StateSyncRequest) (d d' : disk) :
  d_tree d !! marker_path home = None -> Configure Probe Ask home p d = (Ret tt, d') ->
  exists witnesses height hash, trust_found Probe Ask home p (d_tree d) (d_tree d') witnesses height hash.
Proof.
  intros Hm Hrun. pose proof (Configure_finds Probe Ask home p (d_tree d) Hm d eq_refl) as Hf. by rewrite Hrun in Hf.
Qed.

(** ** A node's home directory *)
Definition sample_home : path := ["sei"].
Definition sample_doc : table :=
  [("priv-validator", JObj [("state-file", JStr "data/../data/./priv_validator_state.json")]);
   ("p2p", JObj [("persistent-peers", JStr "ab@10.0.0.1:26656, cd@10.0.0.2:26656")])].
(** A format whose texts are read back from what they were written from. *)
Definition sample_toml : TomlLib :=
  {| toml_Encode doc := Ok (json_marshal (JObj doc));
     toml_Unmarshal s := if s =s json_marshal (JObj sample_doc) then Ok sample_doc else Ok [] |}.
Definition last_signed : string := "height 4711".
Definition sample_tree : tree :=
  list_to_map
    [(["sei"], Dir); (["sei"; "config"], Dir); (["sei"; "config"; "config.toml"], File (json_marshal (JObj sample_doc)));
     (["sei"; "data"], Dir); (["sei"; "data"; privValidatorStateFile], File last_signed);
     (["sei"; "data"; "application.db"], Dir); (["sei"; "data"; "application.db"; "000001.log"], File "abc");
     (["sei"; "data"; "wasm"], Dir); (["sei"; stateSyncMarkerFile], File "")].

(** A reset that dies in its first removal, one whose zero state is refused, one
    that completes. *)
Definition sample_runs : list reset_run :=
  [(false, Ok [], [None; None; None; Some (mkFault [["sei"; "data"; "application.db"; "000001.log"]] 0 None)]);
   (true, Ok sample_proc, []); (false, Ok sample_proc, []);
   (false, Ok [], [None; None; None; None; Some (mkFault [] 0 (Some "input/output error"))]);
   (false, Ok [], [])].

Lemma sign_state_survives_witness :
  run_resets (H := sample_toml) sample_home sample_tree sample_runs !! ["sei"; "data"; privValidatorStateFile]
    = Some (File last_signed) /\
  run_resets (H := sample_toml) sample_home sample_tree sample_runs !! ["sei"; "data"; "application.db"] = None.
Proof.
  split; [|vm_compute; reflexivity].
  apply (sign_state_survives (H := sample_toml) sample_home sample_tree _ last_signed sample_runs).
  - repeat constructor; discriminate.
  - right. exists sample_doc, "data/../data/./priv_validator_state.json". split_and!.
    + right. exists (json_marshal (JObj sample_doc)). split; vm_compute; reflexivity.
    + exists "priv-validator", "state-file", [("state-file", JStr "data/../data/./priv_validator_state.json")].
      split_and!; [left|left|reflexivity|reflexivity].
    + reflexivity.
  - vm_compute. reflexivity.
Defined.

Lemma reset_clears_witness :
  exists d', reset (H := sample_toml) sample_home false (Ok []) (mkDisk sample_tree [] []) = (Ret 14%Z, d') /\
    d_tree d' !! state_path sample_home = Some (File last_signed) /\
    (forall q, chain_data sample_home q -> d_tree d' !! q = None).
Proof.
  pose proof (reset_clears (H := sample_toml) sample_home false (Ok []) (mkDisk sample_tree [] [])
                (closed_check_ok sample_tree ltac:(vm_compute; reflexivity))) as Hr.
  assert (Hv : (reset (H := sample_toml) sample_home false (Ok []) (mkDisk sample_tree [] [])).1 = Ret 14%Z) by (vm_compute; reflexivity).
  destruct (reset (H := sample_toml) sample_home false (Ok []) (mkDisk sample_tree [] [])) as [r d'].
  simpl in Hv. subst r. exists d'. split; [reflexivity|].
  destruct Hr as (Hr & _). destruct (Hr 14%Z eq_refl) as (_ & _ & Hw & _ & Hs & _). split; [|exact Hw].
  rewrite Hs. reflexivity.
Defined.

Definition sample_patch : table := [("p2p", JObj [("persistent-peers", JStr "ef@10.0.0.3:26656"); ("seeds", JNull)])].
Lemma config_patch_atomic_witness :
  exists d', ConfigPatcher_Handler (H := sample_toml) sample_home [("config.toml", JObj sample_patch)]
               (mkDisk sample_tree [] ["123"]) = (Ret tt, d') /\
    d_tree d' !! ["sei"; "data"; "application.db"] = Some Dir.
Proof.
  pose proof (config_patch_atomic (H := sample_toml) sample_home "config.toml" sample_patch (mkDisk sample_tree [] ["123"])
    eq_refl ltac:(simpl; intuition discriminate) eq_refl ltac:(vm_compute; reflexivity)) as Hp.
  assert (Hv : (ConfigPatcher_Handler (H := sample_toml) sample_home [("config.toml", JObj sample_patch)]
               (mkDisk sample_tree [] ["123"])).1 = Ret tt) by (vm_compute; reflexivity).
  destruct (ConfigPatcher_Handler (H := sample_toml) sample_home [("config.toml", JObj sample_patch)]
               (mkDisk sample_tree [] ["123"])) as [r d'].
  simpl in Hv. subst r. exists d'. split; [reflexivity|].
  destruct Hp as (_ & _ & Hok). destruct (Hok eq_refl) as (Hsame & _). rewrite Hsame; [reflexivity|discriminate].
Defined.

Definition sample_peers (url : string) : http_answer :=
  if contains url "/block?height=2711" then
    HttpResp 200 (RawValue (JObj [("block_id", JObj [("hash", JStr (String.concat "" (replicate 64 "A")))])])) ""
  else if contains url "10.0.0.2" then HttpErr "connection refused"
  else HttpResp 200 (RawValue (status_body "4711" false)) "".
Definition unmarked : tree := delete ["sei"; stateSyncMarkerFile] sample_tree.
Lemma configure_state_sync_trusts_witness :
  exists d' witnesses height hash,
    trust_found (H := sample_toml) (H0 := sample_rpc) sample_peers sample_peers sample_home (mkStateSync false "" 0 [])
      unmarked (d_tree d') witnesses height hash.
Proof.
  set (run := Configure (H := sample_toml) (H0 := sample_rpc) sample_peers sample_peers sample_home (mkStateSync false "" 0 [])
    (mkDisk unmarked [] ["7"])).
  assert (Hv : run.1 = Ret tt) by (vm_compute; reflexivity).
  destruct run as [r d'] eqn:Er. simpl in Hv. subst r. exists d'.
  apply (configure_state_sync_trusts (H := sample_toml) (H0 := sample_rpc) sample_peers sample_peers sample_home
    (mkStateSync false "" 0 []) (mkDisk unmarked [] ["7"]) d'); [vm_compute; reflexivity|exact Er].
Defined.

(** ** What interrupted writes leave *)

(** The zero sign state is not written atomically. A process that dies in the
    write leaves a part of it, the next reset takes that file for a sign state,
    keeps it and reports success: seid then starts on a file that is no JSON. *)
Definition unsigned_tree : tree := delete ["sei"; "data"; privValidatorStateFile] sample_tree.
Theorem interrupted_zero_state_kept :
  let t1 := run_reset (H := sample_toml) sample_home unsigned_tree
    (false, Ok [], [None; None; None; None; None; None; None; None; Some (mkFault [] 9 None)]) in
  let '(r, d2) := reset (H := sample_toml) sample_home false (Ok []) (mkDisk t1 [] []) in
  is_ok (match r with Ret n => Ok n | _ => Err "" end) = true /\
  d_tree d2 !! state_path sample_home = Some (File (String.substring 0 9 emptyPrivValidatorState)).
Proof. vm_compute. split; reflexivity. Qed.

(** Nor is the default configuration: once the file exists it is never written again. *)
Theorem interrupted_default_config_kept :
  let start := mkDisk (delete ["sei"; "config"; "config.toml"] sample_tree) [None; None; None; None; Some (mkFault [] 4 None)] [] in
  let d1 := (EnsureDefaultConfig (Ok "[statesync]") sample_home start).2 in
  let '(r, d2) := EnsureDefaultConfig (Ok "[statesync]") sample_home (mkDisk (d_tree d1) [] []) in
  r = Ret tt /\ d_tree d2 !! config_path sample_home = Some (File "[sta").
Proof. vm_compute. split; reflexivity. Qed.

(** The temporary file of an atomic write stays when the rename fails, though
    nothing is left to remove it: the clean-up is disarmed before the rename. *)
Theorem failed_rename_leaves_temp :
  let '(r, d') := ConfigPatcher_Handler (H := sample_toml) sample_home [("config.toml", JObj sample_patch)]
    (mkDisk sample_tree [None; None; None; None; None; None; Some (mkFault [] 0 (Some "disk quota exceeded"))] ["123"]) in
  (exists e, r = Fail e) /\ d_tree d' !! config_path sample_home = sample_tree !! config_path sample_home /\
  exists s, d_tree d' !! ["sei"; "config"; ".tmp-123"] = Some (File s).
Proof. vm_compute. split_and!; eauto. Qed.

(** The files of a config-patch are documented as those of the config directory;
    a name that climbs out of it is not refused, and can be the sign state. *)
Theorem config_patch_climbs (home : path) :
  Join (Join home "config") ("../data/" +:+ privValidatorStateFile) = state_path home.
Proof.
  assert (Hup : clean_step true (home ++ ["config"]) ".." = home).
  { unfold clean_step. simpl. rewrite last_snoc. simpl. rewrite length_app. simpl. rewrite Nat.add_1_r. simpl.
    by rewrite take_app_length' by done. }
  change (clean_step true (clean_step true (clean_step true (home ++ ["config"]) "..") "data") privValidatorStateFile = state_path home).
  by rewrite Hup.
Qed.
