(* ===== verification/TaskWire.v ===== *)
(** * Task requests on the wire (src/sidecarapi/client/tasks.go,
      src/sidecar/engine/typed_handler.go and the parameter structs of the handlers)

    The client turns a typed task into a request of mixed values; the sidecar
    decodes it into a map, and its handler that map into its own struct. The two
    sides spell every field twice, in two packages. *)

From stdpp Require Import base list strings gmap pretty.
From Stdlib Require Import ZArith Lia Ascii Sorted.
From S2P Require Import Prelude Api Config Task SignTx GovTasks TomlPatch RpcClient JsonWire ProcessTasks HomeDir DataTasks.

(** ** Requests *)
Record TaskRequest := mkTaskRequest { rq_Type : string; rq_Params : option (list (string * goval)) }.

(** A member that is set under a condition. *)
Definition member (b : bool) (k : string) (v : goval) : list (string * goval) := if b then [(k, v)] else [].
Definition nonempty (s : string) : bool := s <>s "".
Definition some_params (l : list (string * goval)) : option (list (string * goval)) :=
  match l with [] => None | _ => Some l end.
(** The members of a Go map come in the order of the keys. *)
Definition of_gmap (m : gmap string raw_json) : goval :=
  GObj (sorted_members (map (fun kv => (kv.1, GRaw kv.2)) (map_to_list m))).

(** ** The intent of config-apply

    [seiconfig.ConfigIntent], with the fields the client sends, and what the two
    sides rely on in sei-config: its validation ([None] is valid), and the tags of
    the struct, which are the names the client writes (internal/task/config.go).
    A nil map of overrides is the empty one. *)
Record ConfigIntent := mkConfigIntent {
  in_Mode : string;
  in_Overrides : gmap string string;
  in_Incremental : bool;
  in_TargetVersion : Z;
}.
Class SeiConfig `{RpcTexts} := {
  ValidateIntent : ConfigIntent -> option string;
  ConfigIntent_field : string -> jval -> ConfigIntent -> result ConfigIntent;
  (** The range of [TargetVersion]'s type. *)
  version_ok : Z -> Prop;
  intent_mode s m o i v :
    ConfigIntent_field "mode" (JStr s) (mkConfigIntent m o i v) = Ok (mkConfigIntent s o i v);
  intent_overrides j m o i v :
    ConfigIntent_field "overrides" j (mkConfigIntent m o i v) =
    (fun x => mkConfigIntent m x i v) <$> decode_map decode_string "" j o;
  intent_incremental b m o i v :
    ConfigIntent_field "incremental" (JBool b) (mkConfigIntent m o i v) = Ok (mkConfigIntent m o b v);
  intent_version n m o i v : version_ok n ->
    ConfigIntent_field "targetversion" (num n) (mkConfigIntent m o i v) = Ok (mkConfigIntent m o i n);
}.

Section Client.
Context `{SeiConfig} (libs : ClientLibs).

(** ** The typed tasks: their checks and their requests *)
Definition SnapshotRestore_request (targetHeight : Z) : TaskRequest :=
  mkTaskRequest TaskSnapshotRestore (some_params (member (0 <? targetHeight)%Z "targetHeight" (gnum targetHeight))).

Definition TaskTypeSnapshotUpload := "snapshot-upload".
Definition TaskTypeSnapshotUploadOnce := "snapshot-upload-once".
Definition TaskTypeEVMDigest := "evm-digest".
Definition SnapshotUpload_request : TaskRequest := mkTaskRequest TaskTypeSnapshotUpload None.
Definition SnapshotUploadOnce_request : TaskRequest := mkTaskRequest TaskTypeSnapshotUploadOnce None.

Definition ConfigureGenesis_request (expectedGenesisHash : string) (autobahn : bool) : TaskRequest :=
  mkTaskRequest TaskConfigureGenesis
    (some_params (member (nonempty expectedGenesisHash) "expectedGenesisHash" (gstr expectedGenesisHash) ++
                  member autobahn "autobahn" (gbool true))).

Definition ConfigPatch_Validate (files : list (string * table)) : result unit :=
  params_Validate libs (ConfigPatchTask files).
Definition ConfigPatch_request (files : list (string * table)) : TaskRequest :=
  mkTaskRequest TaskConfigPatch
    (Some [("files", GObj (sorted_members (map (fun kv => (kv.1, GJson (JObj kv.2))) files)))]).

Definition ConfigureStateSync_request (t : StateSyncRequest) : TaskRequest :=
  mkTaskRequest TaskConfigureStateSync
    (some_params (member (sr_UseLocalSnapshot t) "useLocalSnapshot" (gbool true) ++
                  member (nonempty (sr_TrustPeriod t)) "trustPeriod" (gstr (sr_TrustPeriod t)) ++
                  member (0 <? sr_BackfillBlocks t)%Z "backfillBlocks" (gnum (sr_BackfillBlocks t)) ++
                  member (negb (bool_decide (sr_RpcServers t = []))) "rpcServers" (GArr (map gstr (sr_RpcServers t))))).

Definition MarkReady_request : TaskRequest := mkTaskRequest TaskMarkReady None.

Definition UpCheckScheme_string (s : UpCheckScheme) : string :=
  match s with UpCheckHTTP => "http" | UpCheckTCP => "tcp" end.
Definition upCheckTaskRequest (taskType : string) (check : option UpCheck) : TaskRequest :=
  mkTaskRequest taskType
    ((fun u => [("upCheck", GObj [("scheme", gstr (UpCheckScheme_string (uc_Scheme u))); ("port", gnum (uc_Port u));
                                  ("path", gstr (uc_Path u))])]) <$> check).
Definition RestartSeid_Validate (check : option UpCheck) : result unit := params_Validate libs (RestartSeidTask check).
Definition RestartSeid_request (check : option UpCheck) : TaskRequest := upCheckTaskRequest TaskTypeRestartSeid check.
Definition MarkNotReady_request : TaskRequest := mkTaskRequest taskTypeMarkNotReady None.
Definition StopSeid_Validate (check : option UpCheck) : result unit := params_Validate libs (StopSeidTask check).
Definition StopSeid_request (check : option UpCheck) : TaskRequest := upCheckTaskRequest taskTypeStopSeid check.
Definition AwaitSeidStart_request : TaskRequest := mkTaskRequest TaskTypeAwaitSeidStart None.
Definition ResetDataKeepSignState_request : TaskRequest := mkTaskRequest TaskTypeResetDataKeepSignState None.
Definition ResetData_request : TaskRequest := mkTaskRequest taskTypeResetData None.
Definition SetGenesisPeers_request : TaskRequest := mkTaskRequest TaskSetGenesisPeers None.
Definition ConfigApply_Validate (intent : ConfigIntent) : result unit :=
  match ValidateIntent intent with
  | Some diagnostics => Err ("config-apply: invalid intent: " +:+ diagnostics)
  | None => Ok tt
  end.
Definition ConfigApply_request (intent : ConfigIntent) : TaskRequest :=
  mkTaskRequest TaskConfigApply
    (Some ([("mode", gstr (in_Mode intent)); ("incremental", gbool (in_Incremental intent));
            ("targetVersion", gnum (in_TargetVersion intent))] ++
           member (negb (bool_decide (in_Overrides intent = ∅))) "overrides"
             (GObj (sorted_members (map (fun kv => (kv.1, gstr kv.2)) (map_to_list (in_Overrides intent))))))).
Definition ConfigValidate_request : TaskRequest := mkTaskRequest TaskConfigValidate None.

Definition GenerateIdentity_Validate (chainID moniker : string) : result unit :=
  params_Validate libs (GenerateIdentityTask chainID moniker).
Definition GenerateIdentity_request (chainID moniker : string) : TaskRequest :=
  mkTaskRequest TaskGenerateIdentity (Some [("chainId", gstr chainID); ("moniker", gstr moniker)]).

Definition GenerateGentx_Validate (chainID stakingAmount accountBalance : string) : result unit :=
  params_Validate libs (GenerateGentxTask chainID stakingAmount accountBalance).
Definition GenerateGentx_request (chainID stakingAmount accountBalance : string) : TaskRequest :=
  mkTaskRequest TaskGenerateGentx
    (Some [("chainId", gstr chainID); ("stakingAmount", gstr stakingAmount); ("accountBalance", gstr accountBalance)]).

Definition UploadGenesisArtifacts_Validate (nodeName namespace : string) (autobahn : bool) : result unit :=
  params_Validate libs (UploadGenesisArtifactsTask nodeName namespace autobahn).
Definition UploadGenesisArtifacts_request (nodeName namespace : string) (autobahn : bool) : TaskRequest :=
  mkTaskRequest TaskUploadGenesisArtifacts
    (Some (("nodeName", gstr nodeName) ::
           (if autobahn then [("namespace", gstr namespace); ("autobahn", gbool true)] else []))).

(** *** Assembly of the genesis *)
Record AssembleGenesisRequest := mkAssemble {
  as_AccountBalance : string;
  as_Namespace : string;
  as_Nodes : list string;
  as_Accounts : list GenesisAccount;
  as_Overrides : gmap string raw_json;
  as_ConsensusParams : raw_json;
  as_Autobahn : bool;
  as_AutobahnConfig : option AutobahnCeremonySpec;
}.
Definition vesting_value (v : GenesisAccountVesting) : goval :=
  GObj [("amount", gstr (gv_Amount v)); ("endTime", gnum (gv_EndTime v)); ("delayed", gbool (gv_Delayed v))].
Definition account_value (a : GenesisAccount) : goval :=
  GObj ([("address", gstr (ga_Address a)); ("balance", gstr (ga_Balance a))] ++
        match ga_Vesting a with Some v => [("vesting", vesting_value v)] | None => [] end).
Definition genesisAccountsToWire (accounts : list GenesisAccount) : option goval :=
  match accounts with [] => None | _ => Some (GArr (map account_value accounts)) end.
Definition AutobahnConfigParams_value (c : AutobahnCeremonySpec) : goval :=
  GObj (member (nonempty (ab_BlockInterval c)) "blockInterval" (gstr (ab_BlockInterval c)) ++
        match ab_AllowEmptyBlocks c with Some b => [("allowEmptyBlocks", gbool b)] | None => [] end ++
        match ab_MaxTxsPerBlock c with Some n => [("maxTxsPerBlock", gnum n)] | None => [] end ++
        match ab_EnableEvmProxy c with Some b => [("enableEvmProxy", gbool b)] | None => [] end).
Definition Assemble_Validate (t : AssembleGenesisRequest) : result unit :=
  assemble_Validate libs (as_AccountBalance t) (as_Namespace t) (as_Nodes t) (as_Accounts t)
    (as_ConsensusParams t) (as_Autobahn t) (as_AutobahnConfig t).
Definition Assemble_request (t : AssembleGenesisRequest) : TaskRequest :=
  mkTaskRequest TaskAssembleGenesis
    (Some ([("accountBalance", gstr (as_AccountBalance t)); ("namespace", gstr (as_Namespace t));
            ("nodes", GArr (map (fun n => GObj [("name", gstr n)]) (as_Nodes t)))] ++
           match genesisAccountsToWire (as_Accounts t) with Some v => [("accounts", v)] | None => [] end ++
           member (negb (bool_decide (as_Overrides t = ∅))) "overrides" (of_gmap (as_Overrides t)) ++
           match as_ConsensusParams t with RawNone => [] | r => [("consensusParams", GRaw r)] end ++
           (if as_Autobahn t then
              ("autobahn", gbool true) ::
              match as_AutobahnConfig t with Some c => [("autobahnConfig", AutobahnConfigParams_value c)] | None => [] end
            else []))).

(** *** Await, digest and the transactions *)
Definition ConditionHeight := "height".
Definition ConditionCatchingUp := "catchingUp".
Definition ActionSIGTERM := "SIGTERM_SEID".
Definition AwaitCondition_Validate (t : AwaitConditionRequest) : result unit :=
  let checkAction :=
    if nonempty (ac_Action t) && (ac_Action t <>s ActionSIGTERM)
    then Err ("await-condition: unknown action " +:+ quote (ac_Action t)) else Ok tt in
  if ac_Condition t =s ConditionHeight then
    (if (ac_TargetHeight t <=? 0)%Z then Err "await-condition: height condition requires TargetHeight > 0" else checkAction)
  else if ac_Condition t =s ConditionCatchingUp then checkAction
  else Err ("await-condition: unknown condition " +:+ quote (ac_Condition t)).
Definition AwaitCondition_request (t : AwaitConditionRequest) : TaskRequest :=
  mkTaskRequest TaskAwaitCondition
    (Some ([("condition", gstr (ac_Condition t))] ++
           member (0 <? ac_TargetHeight t)%Z "targetHeight" (gnum (ac_TargetHeight t)) ++
           member (nonempty (ac_Action t)) "action" (gstr (ac_Action t)))).

Record EVMDigestRequest := mkEVMDigest { ed_Height : Z; ed_Backend : string; ed_OpenMode : string }.
Definition EVMDigestBackendMemiavl := "memiavl".
Definition EVMDigestBackendComposite := "composite".
Definition EVMDigest_Validate (t : EVMDigestRequest) : result unit :=
  if (ed_Height t <=? 0)%Z then Err "evm-digest: height required (must be > 0)"
  else if (ed_Backend t =s EVMDigestBackendMemiavl) || (ed_Backend t =s EVMDigestBackendComposite) then Ok tt
  else Err ("evm-digest: backend must be " +:+ EVMDigestBackendMemiavl +:+ " or " +:+ EVMDigestBackendComposite).
Definition EVMDigest_request (t : EVMDigestRequest) : TaskRequest :=
  mkTaskRequest TaskTypeEVMDigest
    (Some ([("height", gnum (ed_Height t)); ("backend", gstr (ed_Backend t))] ++
           member (nonempty (ed_OpenMode t)) "openMode" (gstr (ed_OpenMode t)))).

(** The first check that fails. *)
Fixpoint first_error (l : list (bool * string)) : result unit :=
  match l with [] => Ok tt | (bad, e) :: l' => if bad then Err e else first_error l' end.
Definition empty (s : string) : bool := s =s "".

Definition GovVote_Validate (t : GovVoteRequest) : result unit :=
  _ ← first_error [(empty (gv_ChainID t), "gov-vote: chainId required"); (empty (gv_KeyName t), "gov-vote: keyName required");
                   ((gv_ProposalID t =? 0)%Z, "gov-vote: proposalId required (must be > 0)")];
  _ ← wrap_err "gov-vote: " (ParseVoteOption (gv_Option t));
  first_error [(empty (gv_Fees t), "gov-vote: fees required"); ((gv_Gas t =? 0)%Z, "gov-vote: gas required (must be > 0)")].
Definition GovVote_request (t : GovVoteRequest) : TaskRequest :=
  mkTaskRequest TaskGovVote
    (Some ([("chainId", gstr (gv_ChainID t)); ("keyName", gstr (gv_KeyName t)); ("proposalId", gnum (gv_ProposalID t));
            ("option", gstr (gv_Option t)); ("fees", gstr (gv_Fees t)); ("gas", gnum (gv_Gas t))] ++
           member (nonempty (gv_Memo t)) "memo" (gstr (gv_Memo t)))).

Definition Unjail_Validate (t : UnjailRequest) : result unit :=
  first_error [(empty (uj_ChainID t), "unjail: chainId required"); (empty (uj_KeyName t), "unjail: keyName required");
               (empty (uj_Fees t), "unjail: fees required"); ((uj_Gas t =? 0)%Z, "unjail: gas required (must be > 0)")].
Definition Unjail_request (t : UnjailRequest) : TaskRequest :=
  mkTaskRequest TaskTypeUnjail
    (Some ([("chainId", gstr (uj_ChainID t)); ("keyName", gstr (uj_KeyName t)); ("fees", gstr (uj_Fees t));
            ("gas", gnum (uj_Gas t))] ++ member (nonempty (uj_Memo t)) "memo" (gstr (uj_Memo t)))).

Definition GovSoftwareUpgrade_Validate (t : GovSoftwareUpgradeRequest) : result unit :=
  let p := "gov-software-upgrade: " in
  first_error [(empty (su_ChainID t), p +:+ "chainId required"); (empty (su_KeyName t), p +:+ "keyName required");
               (empty (su_Title t), p +:+ "title required"); (empty (su_Description t), p +:+ "description required");
               (empty (su_UpgradeName t), p +:+ "upgradeName required");
               ((su_UpgradeHeight t <=? 0)%Z, p +:+ "upgradeHeight required (must be > 0)");
               (empty (su_InitialDeposit t), p +:+ "initialDeposit required"); (empty (su_Fees t), p +:+ "fees required");
               ((su_Gas t =? 0)%Z, p +:+ "gas required (must be > 0)")].
Definition GovSoftwareUpgrade_request (t : GovSoftwareUpgradeRequest) : TaskRequest :=
  mkTaskRequest TaskGovSoftwareUpgrade
    (Some ([("chainId", gstr (su_ChainID t)); ("keyName", gstr (su_KeyName t)); ("title", gstr (su_Title t));
            ("description", gstr (su_Description t)); ("upgradeName", gstr (su_UpgradeName t));
            ("upgradeHeight", gnum (su_UpgradeHeight t)); ("initialDeposit", gstr (su_InitialDeposit t));
            ("fees", gstr (su_Fees t)); ("gas", gnum (su_Gas t))] ++
           member (nonempty (su_UpgradeInfo t)) "upgradeInfo" (gstr (su_UpgradeInfo t)) ++
           member (nonempty (su_Memo t)) "memo" (gstr (su_Memo t)))).

(** The client's changes carry raw JSON; the handler's hold its text. *)
Record ParamChangeInput := mkParamChangeInput { pi_Subspace : string; pi_Key : string; pi_Value : raw_json }.
Record GovParamChangeInput := mkGovParamChangeInput {
  gp_ChainID : string; gp_KeyName : string; gp_Title : string; gp_Description : string;
  gp_Changes : list ParamChangeInput; gp_InitialDeposit : string; gp_Memo : string; gp_Fees : string; gp_Gas : Z;
}.
Fixpoint checkChangeInputs (i : nat) (l : list ParamChangeInput) : result unit :=
  match l with
  | [] => Ok tt
  | c :: l' =>
      let at_ := "gov-param-change: changes[" +:+ pretty i +:+ "]." in
      _ ← first_error [(empty (pi_Subspace c), at_ +:+ "subspace required"); (empty (pi_Key c), at_ +:+ "key required");
                       (match pi_Value c with RawNone => true | _ => false end, at_ +:+ "value required")];
      checkChangeInputs (S i) l'
  end.
Definition GovParamChange_Validate (t : GovParamChangeInput) : result unit :=
  let p := "gov-param-change: " in
  _ ← first_error [(empty (gp_ChainID t), p +:+ "chainId required"); (empty (gp_KeyName t), p +:+ "keyName required");
                   (empty (gp_Title t), p +:+ "title required"); (empty (gp_Description t), p +:+ "description required");
                   (bool_decide (length (gp_Changes t) = 0), p +:+ "at least one change required")];
  _ ← checkChangeInputs 0 (gp_Changes t);
  first_error [(empty (gp_InitialDeposit t), p +:+ "initialDeposit required"); (empty (gp_Fees t), p +:+ "fees required");
               ((gp_Gas t =? 0)%Z, p +:+ "gas required (must be > 0)")].
Definition change_value (c : ParamChangeInput) : goval :=
  GObj [("subspace", gstr (pi_Subspace c)); ("key", gstr (pi_Key c)); ("value", GRaw (pi_Value c))].
Definition GovParamChange_request (t : GovParamChangeInput) : TaskRequest :=
  mkTaskRequest TaskGovParamChange
    (Some ([("chainId", gstr (gp_ChainID t)); ("keyName", gstr (gp_KeyName t)); ("title", gstr (gp_Title t));
            ("description", gstr (gp_Description t)); ("changes", GArr (map change_value (gp_Changes t)));
            ("initialDeposit", gstr (gp_InitialDeposit t)); ("fees", gstr (gp_Fees t)); ("gas", gnum (gp_Gas t))] ++
           member (nonempty (gp_Memo t)) "memo" (gstr (gp_Memo t)))).

Fixpoint checkUpdates (i : nat) (seen : list Z) (l : list (Z * string)) : result unit :=
  match l with
  | [] => Ok tt
  | (codeID, permission) :: l' =>
      let p := "gov-update-instantiate-config: " in
      if (codeID =? 0)%Z then Err (p +:+ "updates[" +:+ pretty i +:+ "].codeId required (must be > 0)")
      else if existsb (Z.eqb codeID) seen then Err (p +:+ "duplicate codeId " +:+ pretty codeID)
      else
        _ ← (if (permission =s "nobody") || (permission =s "everybody") then Ok tt
             else if permission =s "" then Err (p +:+ "updates[" +:+ pretty i +:+ "].permission required")
             else wrap_err (p +:+ "updates[" +:+ pretty i +:+ "].permission: ") (validateSeiAccountAddress libs permission));
        checkUpdates (S i) (codeID :: seen) l'
  end.
Definition GovUpdateInstantiateConfig_Validate (t : GovUpdateInstantiateConfigRequest) : result unit :=
  let p := "gov-update-instantiate-config: " in
  _ ← first_error [(empty (ui_ChainID t), p +:+ "chainId required"); (empty (ui_KeyName t), p +:+ "keyName required");
                   (empty (ui_Title t), p +:+ "title required"); (empty (ui_Description t), p +:+ "description required");
                   (bool_decide (length (ui_Updates t) = 0), p +:+ "at least one update required")];
  _ ← checkUpdates 0 [] (ui_Updates t);
  first_error [(empty (ui_InitialDeposit t), p +:+ "initialDeposit required"); (empty (ui_Fees t), p +:+ "fees required");
               ((ui_Gas t =? 0)%Z, p +:+ "gas required (must be > 0)")].
Definition update_value (u : Z * string) : goval := GObj [("codeId", gnum u.1); ("permission", gstr u.2)].
Definition GovUpdateInstantiateConfig_request (t : GovUpdateInstantiateConfigRequest) : TaskRequest :=
  mkTaskRequest TaskGovUpdateInstantiateConfig
    (Some ([("chainId", gstr (ui_ChainID t)); ("keyName", gstr (ui_KeyName t)); ("title", gstr (ui_Title t));
            ("description", gstr (ui_Description t)); ("updates", GArr (map update_value (ui_Updates t)));
            ("initialDeposit", gstr (ui_InitialDeposit t)); ("fees", gstr (ui_Fees t)); ("gas", gnum (ui_Gas t))] ++
           member (nonempty (ui_Memo t)) "memo" (gstr (ui_Memo t)))).

(** ** [TaskBuilder]: the tasks of the client *)
Inductive ClientTask :=
| SnapshotRestore (targetHeight : Z)
| SnapshotUpload
| SnapshotUploadOnce
| ConfigureGenesis (expectedGenesisHash : string) (autobahn : bool)
| ConfigApply (intent : ConfigIntent)
| ConfigPatch (files : list (string * table))
| ConfigureStateSync (t : StateSyncRequest)
| MarkReady
| RestartSeid (upCheck : option UpCheck)
| MarkNotReady
| StopSeid (upCheck : option UpCheck)
| AwaitSeidStart
| ResetDataKeepSignState
| ResetData
| SetGenesisPeers
| ConfigValidate
| GenerateIdentity (chainID moniker : string)
| GenerateGentx (chainID stakingAmount accountBalance : string)
| UploadGenesisArtifacts (nodeName namespace : string) (autobahn : bool)
| AssembleAndUploadGenesis (t : AssembleGenesisRequest)
| AwaitCondition (t : AwaitConditionRequest)
| GovVote (t : GovVoteRequest)
| Unjail (t : UnjailRequest)
| GovSoftwareUpgrade (t : GovSoftwareUpgradeRequest)
| GovParamChange (t : GovParamChangeInput)
| GovUpdateInstantiateConfig (t : GovUpdateInstantiateConfigRequest)
| EVMDigest (t : EVMDigestRequest).

Definition Validate (t : ClientTask) : result unit :=
  match t with
  | ConfigApply i => ConfigApply_Validate i
  | ConfigPatch files => ConfigPatch_Validate files
  | RestartSeid u => RestartSeid_Validate u
  | StopSeid u => StopSeid_Validate u
  | GenerateIdentity c m => GenerateIdentity_Validate c m
  | GenerateGentx c s b => GenerateGentx_Validate c s b
  | UploadGenesisArtifacts n ns a => UploadGenesisArtifacts_Validate n ns a
  | AssembleAndUploadGenesis t => Assemble_Validate t
  | AwaitCondition t => AwaitCondition_Validate t
  | GovVote t => GovVote_Validate t
  | Unjail t => Unjail_Validate t
  | GovSoftwareUpgrade t => GovSoftwareUpgrade_Validate t
  | GovParamChange t => GovParamChange_Validate t
  | GovUpdateInstantiateConfig t => GovUpdateInstantiateConfig_Validate t
  | EVMDigest t => EVMDigest_Validate t
  | _ => Ok tt
  end.
Definition ToTaskRequest (t : ClientTask) : TaskRequest :=
  match t with
  | SnapshotRestore h => SnapshotRestore_request h
  | SnapshotUpload => SnapshotUpload_request
  | SnapshotUploadOnce => SnapshotUploadOnce_request
  | ConfigureGenesis h a => ConfigureGenesis_request h a
  | ConfigApply i => ConfigApply_request i
  | ConfigPatch files => ConfigPatch_request files
  | ConfigureStateSync t => ConfigureStateSync_request t
  | MarkReady => MarkReady_request
  | RestartSeid u => RestartSeid_request u
  | MarkNotReady => MarkNotReady_request
  | StopSeid u => StopSeid_request u
  | AwaitSeidStart => AwaitSeidStart_request
  | ResetDataKeepSignState => ResetDataKeepSignState_request
  | ResetData => ResetData_request
  | SetGenesisPeers => SetGenesisPeers_request
  | ConfigValidate => ConfigValidate_request
  | GenerateIdentity c m => GenerateIdentity_request c m
  | GenerateGentx c s b => GenerateGentx_request c s b
  | UploadGenesisArtifacts n ns a => UploadGenesisArtifacts_request n ns a
  | AssembleAndUploadGenesis t => Assemble_request t
  | AwaitCondition t => AwaitCondition_request t
  | GovVote t => GovVote_request t
  | Unjail t => Unjail_request t
  | GovSoftwareUpgrade t => GovSoftwareUpgrade_request t
  | GovParamChange t => GovParamChange_request t
  | GovUpdateInstantiateConfig t => GovUpdateInstantiateConfig_request t
  | EVMDigest t => EVMDigest_request t
  end.
End Client.

(** ** The sidecar: the structs the handlers decode *)
Inductive request :=
| ReqNone
| ReqSnapshotRestore (targetHeight : Z)
| ReqConfigureGenesis (expectedGenesisHash : string) (autobahn : bool)
| ReqConfigApply (intent : ConfigIntent)
| ReqConfigPatch (files : gmap string jval)
| ReqStateSync (r : StateSyncRequest)
| ReqUpCheck (check : option (string * Z * string))
| ReqGenerateIdentity (chainID moniker : string)
| ReqGenerateGentx (chainID stakingAmount accountBalance : string)
| ReqUploadArtifacts (nodeName namespace : string) (autobahn : bool)
| ReqAssembleGenesis (r : AssembleGenesisRequest)
| ReqAwaitCondition (r : AwaitConditionRequest)
| ReqGovVote (r : GovVoteRequest)
| ReqUnjail (r : UnjailRequest)
| ReqGovSoftwareUpgrade (r : GovSoftwareUpgradeRequest)
| ReqGovParamChange (r : GovParamChangeRequest)
| ReqGovUpdateInstantiateConfig (r : GovUpdateInstantiateConfigRequest)
| ReqEVMDigest (r : EVMDigestRequest).

Section Handlers.
Context `{SC : SeiConfig}.

(** A field of a struct: [set] stores what [dec] makes of the value. *)
Definition field_of {A T} (dec : jval -> A -> result A) (get : T -> A) (set : A -> T) (v : jval) (o : T) : result T :=
  a ← dec v (get o); Ok (set a).

Definition SnapshotRestoreRequest_field (k : string) (v : jval) (h : Z) : result Z :=
  if k =s "targetheight" then decode_int64 v h else Ok h.
Definition ConfigureGenesisRequest_field (k : string) (v : jval) (o : string * bool) : result (string * bool) :=
  if k =s "expectedgenesishash" then field_of decode_string fst (fun a => (a, o.2)) v o
  else if k =s "autobahn" then field_of decode_bool snd (fun a => (o.1, a)) v o
  else Ok o.
(** A patch is a nested map, nil for [null]. *)
Definition decode_patch (v : jval) (old : jval) : result jval :=
  match v with JObj l => Ok v | JNull => Ok (JObj []) | _ => Err (type_text "map" v) end.
Definition ConfigPatchRequest_field (k : string) (v : jval) (o : gmap string jval) : result (gmap string jval) :=
  if k =s "files" then decode_map decode_patch (JObj []) v o else Ok o.
Definition StateSyncRequest_field (k : string) (v : jval) (o : StateSyncRequest) : result StateSyncRequest :=
  let '(mkStateSync l p b s) := o in
  if k =s "uselocalsnapshot" then field_of decode_bool sr_UseLocalSnapshot (fun a => mkStateSync a p b s) v o
  else if k =s "trustperiod" then field_of decode_string sr_TrustPeriod (fun a => mkStateSync l a b s) v o
  else if k =s "backfillblocks" then field_of decode_int64 sr_BackfillBlocks (fun a => mkStateSync l p a s) v o
  else if k =s "rpcservers" then field_of (decode_slice decode_string "") sr_RpcServers (fun a => mkStateSync l p b a) v o
  else Ok o.
Definition UpCheck_field (k : string) (v : jval) (o : string * Z * string) : result (string * Z * string) :=
  let '(s, p, path) := o in
  if k =s "scheme" then field_of decode_string (fun o => o.1.1) (fun a => (a, p, path)) v o
  else if k =s "port" then field_of decode_int32 (fun o => o.1.2) (fun a => (s, a, path)) v o
  else if k =s "path" then field_of decode_string (fun o => o.2) (fun a => (s, p, a)) v o
  else Ok o.
Definition restartSeidParams_field (k : string) (v : jval) (o : option (string * Z * string))
    : result (option (string * Z * string)) :=
  if k =s "upcheck" then decode_pointer (decode_struct UpCheck_field) ("", 0%Z, "") v o else Ok o.
Definition GenerateIdentityRequest_field (k : string) (v : jval) (o : string * string) : result (string * string) :=
  if k =s "chainid" then field_of decode_string fst (fun a => (a, o.2)) v o
  else if k =s "moniker" then field_of decode_string snd (fun a => (o.1, a)) v o
  else Ok o.
Definition GenerateGentxRequest_field (k : string) (v : jval) (o : string * string * string) : result (string * string * string) :=
  let '(c, s, b) := o in
  if k =s "chainid" then field_of decode_string (fun o => o.1.1) (fun a => (a, s, b)) v o
  else if k =s "stakingamount" then field_of decode_string (fun o => o.1.2) (fun a => (c, a, b)) v o
  else if k =s "accountbalance" then field_of decode_string (fun o => o.2) (fun a => (c, s, a)) v o
  else Ok o.
Definition UploadArtifactsRequest_field (k : string) (v : jval) (o : string * string * bool) : result (string * string * bool) :=
  let '(n, ns, ab) := o in
  if k =s "nodename" then field_of decode_string (fun o => o.1.1) (fun a => (a, ns, ab)) v o
  else if k =s "namespace" then field_of decode_string (fun o => o.1.2) (fun a => (n, a, ab)) v o
  else if k =s "autobahn" then field_of decode_bool (fun o => o.2) (fun a => (n, ns, a)) v o
  else Ok o.

Definition AssembleNodeEntry_field (k : string) (v : jval) (o : string) : result string :=
  if k =s "name" then decode_string v o else Ok o.
Definition Vesting_field (k : string) (v : jval) (o : GenesisAccountVesting) : result GenesisAccountVesting :=
  let '(mkVesting a e d) := o in
  if k =s "amount" then field_of decode_string gv_Amount (fun x => mkVesting x e d) v o
  else if k =s "endtime" then field_of decode_int64 gv_EndTime (fun x => mkVesting a x d) v o
  else if k =s "delayed" then field_of decode_bool gv_Delayed (fun x => mkVesting a e x) v o
  else Ok o.
Definition GenesisAccountEntry_field (k : string) (v : jval) (o : GenesisAccount) : result GenesisAccount :=
  let '(mkGenesisAccount a b ve) := o in
  if k =s "address" then field_of decode_string ga_Address (fun x => mkGenesisAccount x b ve) v o
  else if k =s "balance" then field_of decode_string ga_Balance (fun x => mkGenesisAccount a x ve) v o
  else if k =s "vesting" then
    field_of (decode_pointer (decode_struct Vesting_field) (mkVesting "" 0 false)) ga_Vesting (fun x => mkGenesisAccount a b x) v o
  else Ok o.
Definition AutobahnConfigOverrides_field (k : string) (v : jval) (o : AutobahnCeremonySpec) : result AutobahnCeremonySpec :=
  let '(mkAutobahnCeremony i e m p) := o in
  if k =s "blockinterval" then field_of decode_string ab_BlockInterval (fun x => mkAutobahnCeremony x e m p) v o
  else if k =s "allowemptyblocks" then
    field_of (decode_pointer decode_bool false) ab_AllowEmptyBlocks (fun x => mkAutobahnCeremony i x m p) v o
  else if k =s "maxtxsperblock" then
    field_of (decode_pointer decode_int64 0%Z) ab_MaxTxsPerBlock (fun x => mkAutobahnCeremony i e x p) v o
  else if k =s "enableevmproxy" then
    field_of (decode_pointer decode_bool false) ab_EnableEvmProxy (fun x => mkAutobahnCeremony i e m x) v o
  else Ok o.
Definition zero_assemble : AssembleGenesisRequest := mkAssemble "" "" [] [] ∅ RawNone false None.
Definition AssembleGenesisRequest_field (k : string) (v : jval) (o : AssembleGenesisRequest) : result AssembleGenesisRequest :=
  let '(mkAssemble b n ns ac ov cp ab cfg) := o in
  if k =s "accountbalance" then field_of decode_string as_AccountBalance (fun x => mkAssemble x n ns ac ov cp ab cfg) v o
  else if k =s "namespace" then field_of decode_string as_Namespace (fun x => mkAssemble b x ns ac ov cp ab cfg) v o
  else if k =s "nodes" then
    field_of (decode_slice (decode_struct AssembleNodeEntry_field) "") as_Nodes (fun x => mkAssemble b n x ac ov cp ab cfg) v o
  else if k =s "accounts" then
    field_of (decode_slice (decode_struct GenesisAccountEntry_field) (mkGenesisAccount "" "" None)) as_Accounts
      (fun x => mkAssemble b n ns x ov cp ab cfg) v o
  else if k =s "overrides" then
    field_of (decode_map decode_message RawNone) as_Overrides (fun x => mkAssemble b n ns ac x cp ab cfg) v o
  else if k =s "consensusparams" then
    field_of decode_message as_ConsensusParams (fun x => mkAssemble b n ns ac ov x ab cfg) v o
  else if k =s "autobahn" then field_of decode_bool as_Autobahn (fun x => mkAssemble b n ns ac ov cp x cfg) v o
  else if k =s "autobahnconfig" then
    field_of (decode_pointer (decode_struct AutobahnConfigOverrides_field) (mkAutobahnCeremony "" None None None))
      as_AutobahnConfig (fun x => mkAssemble b n ns ac ov cp ab x) v o
  else Ok o.
Definition AwaitConditionRequest_field (k : string) (v : jval) (o : AwaitConditionRequest) : result AwaitConditionRequest :=
  let '(mkAwaitCondition c a h) := o in
  if k =s "condition" then field_of decode_string ac_Condition (fun x => mkAwaitCondition x a h) v o
  else if k =s "action" then field_of decode_string ac_Action (fun x => mkAwaitCondition c x h) v o
  else if k =s "targetheight" then field_of decode_int64 ac_TargetHeight (fun x => mkAwaitCondition c a x) v o
  else Ok o.
Definition evmDigestParams_field (k : string) (v : jval) (o : EVMDigestRequest) : result EVMDigestRequest :=
  let '(mkEVMDigest h b m) := o in
  if k =s "height" then field_of decode_int64 ed_Height (fun x => mkEVMDigest x b m) v o
  else if k =s "backend" then field_of decode_string ed_Backend (fun x => mkEVMDigest h x m) v o
  else if k =s "openmode" then field_of decode_string ed_OpenMode (fun x => mkEVMDigest h b x) v o
  else Ok o.
Definition GovVoteRequest_field (k : string) (v : jval) (o : GovVoteRequest) : result GovVoteRequest :=
  let '(mkGovVoteRequest c n p op m f g) := o in
  if k =s "chainid" then field_of decode_string gv_ChainID (fun x => mkGovVoteRequest x n p op m f g) v o
  else if k =s "keyname" then field_of decode_string gv_KeyName (fun x => mkGovVoteRequest c x p op m f g) v o
  else if k =s "proposalid" then field_of decode_uint64 gv_ProposalID (fun x => mkGovVoteRequest c n x op m f g) v o
  else if k =s "option" then field_of decode_string gv_Option (fun x => mkGovVoteRequest c n p x m f g) v o
  else if k =s "memo" then field_of decode_string gv_Memo (fun x => mkGovVoteRequest c n p op x f g) v o
  else if k =s "fees" then field_of decode_string gv_Fees (fun x => mkGovVoteRequest c n p op m x g) v o
  else if k =s "gas" then field_of decode_uint64 gv_Gas (fun x => mkGovVoteRequest c n p op m f x) v o
  else Ok o.
Definition UnjailRequest_field (k : string) (v : jval) (o : UnjailRequest) : result UnjailRequest :=
  let '(mkUnjailRequest c n m f g) := o in
  if k =s "chainid" then field_of decode_string uj_ChainID (fun x => mkUnjailRequest x n m f g) v o
  else if k =s "keyname" then field_of decode_string uj_KeyName (fun x => mkUnjailRequest c x m f g) v o
  else if k =s "memo" then field_of decode_string uj_Memo (fun x => mkUnjailRequest c n x f g) v o
  else if k =s "fees" then field_of decode_string uj_Fees (fun x => mkUnjailRequest c n m x g) v o
  else if k =s "gas" then field_of decode_uint64 uj_Gas (fun x => mkUnjailRequest c n m f x) v o
  else Ok o.
Definition GovSoftwareUpgradeRequest_field (k : string) (v : jval) (o : GovSoftwareUpgradeRequest)
    : result GovSoftwareUpgradeRequest :=
  let '(mkGovSoftwareUpgradeRequest c n t d u h i dep m f g) := o in
  let mk := mkGovSoftwareUpgradeRequest in
  if k =s "chainid" then field_of decode_string su_ChainID (fun x => mk x n t d u h i dep m f g) v o
  else if k =s "keyname" then field_of decode_string su_KeyName (fun x => mk c x t d u h i dep m f g) v o
  else if k =s "title" then field_of decode_string su_Title (fun x => mk c n x d u h i dep m f g) v o
  else if k =s "description" then field_of decode_string su_Description (fun x => mk c n t x u h i dep m f g) v o
  else if k =s "upgradename" then field_of decode_string su_UpgradeName (fun x => mk c n t d x h i dep m f g) v o
  else if k =s "upgradeheight" then field_of decode_int64 su_UpgradeHeight (fun x => mk c n t d u x i dep m f g) v o
  else if k =s "upgradeinfo" then field_of decode_string su_UpgradeInfo (fun x => mk c n t d u h x dep m f g) v o
  else if k =s "initialdeposit" then field_of decode_string su_InitialDeposit (fun x => mk c n t d u h i x m f g) v o
  else if k =s "memo" then field_of decode_string su_Memo (fun x => mk c n t d u h i dep x f g) v o
  else if k =s "fees" then field_of decode_string su_Fees (fun x => mk c n t d u h i dep m x g) v o
  else if k =s "gas" then field_of decode_uint64 su_Gas (fun x => mk c n t d u h i dep m f x) v o
  else Ok o.
(** The value of a change is the text of the message. *)
Definition decode_text (v : jval) (_ : string) : result string := Ok (json_marshal v).
Definition paramChange_field (k : string) (v : jval) (o : paramChange) : result paramChange :=
  let '(mkParamChange s n x) := o in
  if k =s "subspace" then field_of decode_string pc_Subspace (fun y => mkParamChange y n x) v o
  else if k =s "key" then field_of decode_string pc_Key (fun y => mkParamChange s y x) v o
  else if k =s "value" then field_of decode_text pc_Value (fun y => mkParamChange s n y) v o
  else Ok o.
Definition GovParamChangeRequest_field (k : string) (v : jval) (o : GovParamChangeRequest) : result GovParamChangeRequest :=
  let '(mkGovParamChangeRequest c n t d ch dep m f g) := o in
  let mk := mkGovParamChangeRequest in
  if k =s "chainid" then field_of decode_string pr_ChainID (fun x => mk x n t d ch dep m f g) v o
  else if k =s "keyname" then field_of decode_string pr_KeyName (fun x => mk c x t d ch dep m f g) v o
  else if k =s "title" then field_of decode_string pr_Title (fun x => mk c n x d ch dep m f g) v o
  else if k =s "description" then field_of decode_string pr_Description (fun x => mk c n t x ch dep m f g) v o
  else if k =s "changes" then
    field_of (decode_slice (decode_struct paramChange_field) (mkParamChange "" "" "")) pr_Changes
      (fun x => mk c n t d x dep m f g) v o
  else if k =s "initialdeposit" then field_of decode_string pr_InitialDeposit (fun x => mk c n t d ch x m f g) v o
  else if k =s "memo" then field_of decode_string pr_Memo (fun x => mk c n t d ch dep x f g) v o
  else if k =s "fees" then field_of decode_string pr_Fees (fun x => mk c n t d ch dep m x g) v o
  else if k =s "gas" then field_of decode_uint64 pr_Gas (fun x => mk c n t d ch dep m f x) v o
  else Ok o.
Definition instantiateConfigUpdate_field (k : string) (v : jval) (o : Z * string) : result (Z * string) :=
  if k =s "codeid" then field_of decode_uint64 fst (fun x => (x, o.2)) v o
  else if k =s "permission" then field_of decode_string snd (fun x => (o.1, x)) v o
  else Ok o.
Definition GovUpdateInstantiateConfigRequest_field (k : string) (v : jval) (o : GovUpdateInstantiateConfigRequest)
    : result GovUpdateInstantiateConfigRequest :=
  let '(mkGovUpdateInstantiateConfigRequest c n t d u dep m f g) := o in
  let mk := mkGovUpdateInstantiateConfigRequest in
  if k =s "chainid" then field_of decode_string ui_ChainID (fun x => mk x n t d u dep m f g) v o
  else if k =s "keyname" then field_of decode_string ui_KeyName (fun x => mk c x t d u dep m f g) v o
  else if k =s "title" then field_of decode_string ui_Title (fun x => mk c n x d u dep m f g) v o
  else if k =s "description" then field_of decode_string ui_Description (fun x => mk c n t x u dep m f g) v o
  else if k =s "updates" then
    field_of (decode_slice (decode_struct instantiateConfigUpdate_field) (0%Z, "")) ui_Updates
      (fun x => mk c n t d x dep m f g) v o
  else if k =s "initialdeposit" then field_of decode_string ui_InitialDeposit (fun x => mk c n t d u x m f g) v o
  else if k =s "memo" then field_of decode_string ui_Memo (fun x => mk c n t d u dep x f g) v o
  else if k =s "fees" then field_of decode_string ui_Fees (fun x => mk c n t d u dep m x g) v o
  else if k =s "gas" then field_of decode_uint64 ui_Gas (fun x => mk c n t d u dep m f x) v o
  else Ok o.

(** [TypedHandler]: what the handler of a type gets ([serve.go] lists them). *)
Definition TypedHandler {T} (mk : T -> request) (field : string -> jval -> T -> result T) (zero : T)
    (params : option table) : result request :=
  mk <$> wrap_err "parsing params: " (decode_params field zero params).
Definition no_field (k : string) (v : jval) (o : unit) : result unit := Ok o.
Definition handlers : list (string * (option table -> result request)) :=
  let none := TypedHandler (fun _ => ReqNone) no_field tt in
  [ (TaskSnapshotRestore, TypedHandler ReqSnapshotRestore SnapshotRestoreRequest_field 0%Z);
    (TaskConfigApply, TypedHandler ReqConfigApply ConfigIntent_field (mkConfigIntent "" ∅ false 0));
    (TaskConfigPatch, TypedHandler ReqConfigPatch ConfigPatchRequest_field ∅);
    (TaskConfigValidate, none); (TaskMarkReady, none); (taskTypeMarkNotReady, none);
    (TaskTypeRestartSeid, TypedHandler ReqUpCheck restartSeidParams_field None);
    (taskTypeStopSeid, TypedHandler ReqUpCheck restartSeidParams_field None);
    (TaskTypeAwaitSeidStart, none); (taskTypeResetData, none); (TaskTypeResetDataKeepSignState, none);
    (TaskConfigureGenesis,
     TypedHandler (fun o => ReqConfigureGenesis o.1 o.2) ConfigureGenesisRequest_field ("", false));
    (TaskConfigureStateSync, TypedHandler ReqStateSync StateSyncRequest_field (mkStateSync false "" 0 []));
    (TaskTypeSnapshotUpload, none); (TaskTypeSnapshotUploadOnce, none);
    (TaskAwaitCondition, TypedHandler ReqAwaitCondition AwaitConditionRequest_field (mkAwaitCondition "" "" 0));
    (TaskGenerateIdentity,
     TypedHandler (fun o => ReqGenerateIdentity o.1 o.2) GenerateIdentityRequest_field ("", ""));
    (TaskGenerateGentx,
     TypedHandler (fun o => ReqGenerateGentx o.1.1 o.1.2 o.2) GenerateGentxRequest_field ("", "", ""));
    (TaskUploadGenesisArtifacts,
     TypedHandler (fun o => ReqUploadArtifacts o.1.1 o.1.2 o.2) UploadArtifactsRequest_field ("", "", false));
    (TaskAssembleGenesis, TypedHandler ReqAssembleGenesis AssembleGenesisRequest_field zero_assemble);
    (TaskSetGenesisPeers, none);
    (TaskTypeEVMDigest, TypedHandler ReqEVMDigest evmDigestParams_field (mkEVMDigest 0 "" ""));
    (TaskGovVote, TypedHandler ReqGovVote GovVoteRequest_field (mkGovVoteRequest "" "" 0 "" "" "" 0));
    (TaskGovSoftwareUpgrade,
     TypedHandler ReqGovSoftwareUpgrade GovSoftwareUpgradeRequest_field
       (mkGovSoftwareUpgradeRequest "" "" "" "" "" 0 "" "" "" "" 0));
    (TaskGovParamChange,
     TypedHandler ReqGovParamChange GovParamChangeRequest_field (mkGovParamChangeRequest "" "" "" "" [] "" "" "" 0));
    (TaskGovUpdateInstantiateConfig,
     TypedHandler ReqGovUpdateInstantiateConfig GovUpdateInstantiateConfigRequest_field
       (mkGovUpdateInstantiateConfigRequest "" "" "" "" [] "" "" "" 0));
    (TaskTypeUnjail, TypedHandler ReqUnjail UnjailRequest_field (mkUnjailRequest "" "" "" "" 0)) ].

(** [SubmitTask]'s body, and the task [handlePostTask] makes of it. *)
Definition SubmitTask_body (r : TaskRequest) : result (string * option table) :=
  params ← match rq_Params r with
           | None => Ok None
           | Some l => Some <$> wrap_err ("submitting " +:+ rq_Type r +:+ " task to sidecar: ") (Marshal_value (GObj l))
           end;
  Ok (rq_Type r, match wire <$> params with Some (JObj l) => Some l | _ => None end).
Definition handlePostTask (body : string * option table) : result (string * option table) :=
  if body.1 =s "" then Err "type is required" else Ok body.
Definition dispatch (task : string * option table) : result request :=
  match List.find (fun h => h.1 =s task.1) handlers with
  | None => Err ("unknown task type: " +:+ task.1)
  | Some (_, h) => h task.2
  end.
(** A task on its way from the client to its handler. *)
Definition delivered (t : ClientTask) : result request :=
  body ← SubmitTask_body (ToTaskRequest t); task ← handlePostTask body; dispatch task.

(** ** What the caller wrote

    The handler's struct with every field of the caller's. Raw JSON is compared
    as the value it parses to: the members of an object by key, the last of two
    with one key, and text as UTF-8; a nil message is [null]. *)
Definition wire_raw (r : raw_json) : raw_json :=
  match r with RawValue v => RawValue (wire v) | _ => RawValue JNull end.
Definition written_assemble (t : AssembleGenesisRequest) : AssembleGenesisRequest :=
  mkAssemble (as_AccountBalance t) (as_Namespace t) (as_Nodes t) (as_Accounts t) (wire_raw <$> as_Overrides t)
    (match as_ConsensusParams t with RawNone => RawNone | r => wire_raw r end) (as_Autobahn t) (as_AutobahnConfig t).
Definition raw_text (r : raw_json) : string := match wire_raw r with RawValue v => json_marshal v | _ => "" end.
Definition written_change (c : ParamChangeInput) : paramChange :=
  mkParamChange (pi_Subspace c) (pi_Key c) (raw_text (pi_Value c)).
Definition written (t : ClientTask) : request :=
  match t with
  | SnapshotRestore h => ReqSnapshotRestore h
  | ConfigureGenesis h a => ReqConfigureGenesis h a
  | ConfigApply i => ReqConfigApply i
  | ConfigPatch files => ReqConfigPatch (list_to_map (map (fun kv => (kv.1, wire (JObj kv.2))) files))
  | ConfigureStateSync t => ReqStateSync t
  | RestartSeid u | StopSeid u => ReqUpCheck ((fun u => (UpCheckScheme_string (uc_Scheme u), uc_Port u, uc_Path u)) <$> u)
  | GenerateIdentity c m => ReqGenerateIdentity c m
  | GenerateGentx c s b => ReqGenerateGentx c s b
  | UploadGenesisArtifacts n ns a => ReqUploadArtifacts n ns a
  | AssembleAndUploadGenesis t => ReqAssembleGenesis (written_assemble t)
  | AwaitCondition t => ReqAwaitCondition t
  | GovVote t => ReqGovVote t
  | Unjail t => ReqUnjail t
  | GovSoftwareUpgrade t => ReqGovSoftwareUpgrade t
  | GovParamChange t =>
      ReqGovParamChange (mkGovParamChangeRequest (gp_ChainID t) (gp_KeyName t) (gp_Title t) (gp_Description t)
        (map written_change (gp_Changes t)) (gp_InitialDeposit t) (gp_Memo t) (gp_Fees t) (gp_Gas t))
  | GovUpdateInstantiateConfig t => ReqGovUpdateInstantiateConfig t
  | EVMDigest t => ReqEVMDigest t
  | SnapshotUpload | SnapshotUploadOnce | MarkReady | MarkNotReady | AwaitSeidStart | ResetDataKeepSignState
  | ResetData | SetGenesisPeers | ConfigValidate => ReqNone
  end.

(** The fields the client does not send although they are set: a negative height
    or block count, and the namespace of an upload or the configuration of an
    assembly that is not for Autobahn. The handler finds the zero value there. *)
Definition unsent (t : ClientTask) : Prop :=
  match t with
  | SnapshotRestore h => (h < 0)%Z
  | ConfigureStateSync t => (sr_BackfillBlocks t < 0)%Z
  | AwaitCondition t => (ac_TargetHeight t < 0)%Z
  | UploadGenesisArtifacts _ ns a => a = false /\ ns <> ""
  | AssembleAndUploadGenesis t => as_Autobahn t = false /\ as_AutobahnConfig t <> None
  | _ => False
  end.
Definition zeroed (t : ClientTask) : ClientTask :=
  match t with
  | SnapshotRestore h => SnapshotRestore 0
  | ConfigureStateSync t => ConfigureStateSync (mkStateSync (sr_UseLocalSnapshot t) (sr_TrustPeriod t) 0 (sr_RpcServers t))
  | AwaitCondition t => AwaitCondition (mkAwaitCondition (ac_Condition t) (ac_Action t) 0)
  | UploadGenesisArtifacts n _ a => UploadGenesisArtifacts n "" a
  | AssembleAndUploadGenesis t =>
      AssembleAndUploadGenesis (mkAssemble (as_AccountBalance t) (as_Namespace t) (as_Nodes t) (as_Accounts t)
        (as_Overrides t) (as_ConsensusParams t) (as_Autobahn t) None)
  | _ => t
  end.

(** ** A request reaches its handler *)
Lemma dispatch_to ty params h :
  snd <$> List.find (fun h => h.1 =s ty) handlers = Some h -> dispatch (ty, params) = h params.
Proof.
  unfold dispatch. change ((ty, params).1) with ty. change ((ty, params).2) with params.
  destruct (List.find _ handlers) as [[ty' h']|]; [|done]. by intros [= ->].
Qed.
Lemma delivered_dispatch t ty params :
  SubmitTask_body (ToTaskRequest t) = Ok (ty, params) -> (ty =s "") = false -> delivered t = dispatch (ty, params).
Proof.
  intros Hb Hty. unfold delivered. rewrite Hb. unfold mbind, result_bind, handlePostTask. cbn [fst]. by rewrite Hty.
Qed.
Lemma deliver {T} (mk : T -> request) field zero a t l tbl :
  rq_Params (ToTaskRequest t) = Some l -> Marshal_value (GObj l) = Ok (JObj tbl) ->
  (rq_Type (ToTaskRequest t) =s "") = false ->
  snd <$> List.find (fun h => h.1 =s rq_Type (ToTaskRequest t)) handlers = Some (TypedHandler mk field zero) ->
  decode_struct field (wire (JObj tbl)) zero = Ok a ->
  delivered t = Ok (mk a).
Proof.
  intros Hp Hm Hty Hf Hd. set (tbl' := sorted_members (map (fun kv => (valid_utf8 kv.1, wire kv.2)) tbl)).
  rewrite (delivered_dispatch t (rq_Type (ToTaskRequest t)) (Some tbl')).
  - rewrite (dispatch_to _ _ _ Hf). unfold TypedHandler, decode_params.
    change (JObj tbl') with (wire (JObj tbl)). by rewrite wire_idem, Hd.
  - unfold SubmitTask_body. by rewrite Hp, Hm.
  - exact Hty.
Qed.
Lemma deliver_none {T} (mk : T -> request) field zero t :
  rq_Params (ToTaskRequest t) = None -> (rq_Type (ToTaskRequest t) =s "") = false ->
  snd <$> List.find (fun h => h.1 =s rq_Type (ToTaskRequest t)) handlers = Some (TypedHandler mk field zero) ->
  delivered t = Ok (mk zero).
Proof.
  intros Hp Hty Hf. rewrite (delivered_dispatch t (rq_Type (ToTaskRequest t)) None).
  - by rewrite (dispatch_to _ _ _ Hf).
  - unfold SubmitTask_body. by rewrite Hp.
  - exact Hty.
Qed.

Lemma wire_str (s : string) : is_utf8 s -> wire (JStr s) = JStr s.
Proof. unfold is_utf8. simpl. by intros ->. Qed.
Lemma wire_num n : wire (num n) = num n.
Proof. reflexivity. Qed.
(** *** What [json.Marshal] makes of the values *)
Lemma marshal_nil : Marshal_value (GObj []) = Ok (JObj []).
Proof. reflexivity. Qed.
Lemma marshal_cons k x l v tbl :
  Marshal_value x = Ok v -> Marshal_value (GObj l) = Ok (JObj tbl) ->
  Marshal_value (GObj ((k, x) :: l)) = Ok (JObj ((k, v) :: tbl)).
Proof.
  intros Hx Hl. cbn [Marshal_value] in *. rewrite Hx. cbn [mbind result_bind].
  match type of Hl with JObj <$> ?r = _ => destruct r as [t|e]; [|done] end. simpl in *. by injection Hl as ->.
Qed.
Lemma marshal_elements {A} (enc : A -> goval) (f : A -> jval) l :
  Forall (fun x => Marshal_value (enc x) = Ok (f x)) l -> Marshal_value (GArr (map enc l)) = Ok (JArr (map f l)).
Proof.
  induction 1 as [|x l Hx Hl IH]; [done|]. cbn [Marshal_value map] in *.
  rewrite Hx. cbn [mbind result_bind].
  match type of IH with JArr <$> ?r = _ => destruct r as [t|e]; [|done] end. simpl in *. by injection IH as ->.
Qed.
Lemma marshal_strings l : Marshal_value (GArr (map gstr l)) = Ok (JArr (map JStr l)).
Proof. apply marshal_elements. by induction l; constructor. Qed.

Lemma map_wire {A} (f : A -> jval) (g : A -> jval) l :
  Forall (fun x => wire (f x) = g x) l -> map wire (map f l) = map g l.
Proof. rewrite map_map. apply map_ext_Forall. Qed.
Lemma wire_strings l : Forall is_utf8 l -> map wire (map JStr l) = map JStr l.
Proof. intros Hl. apply map_wire. eapply Forall_impl; [exact Hl|]. intros s. apply wire_str. Qed.
Lemma decode_strings l : decode_elements decode_string "" (map JStr l) = Ok l.
Proof. rewrite <-(map_id l) at 2. apply decode_elements_map. by induction l; constructor. Qed.

Arguments num : simpl never.
Arguments valid_utf8 : simpl never.
Arguments decode_int64 : simpl never.
Arguments decode_uint64 : simpl never.
Arguments decode_int32 : simpl never.
Arguments field_of {A T} dec get set v o /.
Arguments nonempty : simpl never.
Arguments to_lower : simpl never.
Arguments of_gmap : simpl never.
Arguments genesisAccountsToWire : simpl never.
Arguments AutobahnConfigParams_value : simpl never.
Arguments SnapshotRestoreRequest_field k v h /.
Arguments ConfigureGenesisRequest_field k v o /.
Arguments ConfigPatchRequest_field k v o /.
Arguments StateSyncRequest_field k v o /.
Arguments UpCheck_field k v o /.
Arguments restartSeidParams_field k v o /.
Arguments GenerateIdentityRequest_field k v o /.
Arguments GenerateGentxRequest_field k v o /.
Arguments UploadArtifactsRequest_field k v o /.
Arguments AssembleNodeEntry_field k v o /.
Arguments Vesting_field k v o /.
Arguments GenesisAccountEntry_field k v o /.
Arguments AutobahnConfigOverrides_field k v o /.
Arguments AssembleGenesisRequest_field k v o /.
Arguments AwaitConditionRequest_field k v o /.
Arguments evmDigestParams_field k v o /.
Arguments GovVoteRequest_field k v o /.
Arguments UnjailRequest_field k v o /.
Arguments GovSoftwareUpgradeRequest_field k v o /.
Arguments paramChange_field k v o /.
Arguments GovParamChangeRequest_field k v o /.
Arguments instantiateConfigUpdate_field k v o /.
Arguments GovUpdateInstantiateConfigRequest_field k v o /.

Lemma nonempty_false s : nonempty s = false -> s = "".
Proof. unfold nonempty. destruct (s =s "") eqn:E; [|done]. intros _. by apply String.eqb_eq in E. Qed.
Lemma positive_false n : (0 <? n)%Z = false -> Z.max 0 n = 0%Z.
Proof. intros Hn%Z.ltb_ge. lia. Qed.
Lemma positive_true n : (0 <? n)%Z = true -> Z.max 0 n = n.
Proof. intros Hn%Z.ltb_lt. lia. Qed.

(** The members set under a condition: one case each, and the zero value when
    the member is left out. *)
Ltac optional s := let E := fresh "E" in destruct (nonempty s) eqn:E; [|apply nonempty_false in E; subst s].
Ltac positive n :=
  let E := fresh "E" in
  destruct (0 <? n)%Z eqn:E; [rewrite ?(positive_true n E)|rewrite ?(positive_false n E)].
Ltac bools := repeat match goal with
  | E : ?b = true |- context [?b] => rewrite E
  | E : ?b = false |- context [?b] => rewrite E
  end.
(** Strings arrive as they are; numbers are in the range of their type. *)
Ltac keys := repeat match goal with
  | |- context [valid_utf8 (String ?c ?s)] =>
      let k := eval vm_compute in (valid_utf8 (String c s)) in change (valid_utf8 (String c s)) with k
  | |- context [to_lower (String ?c ?s)] =>
      let k := eval vm_compute in (to_lower (String c s)) in change (to_lower (String c s)) with k
  end.
Ltac decoded :=
  repeat match goal with
  | Hs : Forall is_utf8 (_ :: _) |- _ => apply Forall_cons in Hs as [? ?]
  | Hs : Forall is_utf8 (_ ++ _) |- _ => apply Forall_app in Hs as [? ?]
  end;
  repeat (simpl; keys; first
    [ rewrite decode_int64_num by done | rewrite decode_uint64_num by done | rewrite decode_int32_num by done
    | rewrite decode_strings
    | match goal with
      | Hd : decode_elements _ _ _ = Ok _ |- _ => rewrite Hd; clear Hd
      | Hd : decode_pointer _ _ _ _ = Ok _ |- _ => rewrite Hd; clear Hd
      | Hd : decode_entries _ _ _ _ = Ok _ |- _ => rewrite Hd; clear Hd
      | Hs : is_utf8 ?s |- context [valid_utf8 ?s] => rewrite (Hs : valid_utf8 s = s)
      | Hs : Forall is_utf8 ?l |- context [map wire (map JStr ?l)] => rewrite (wire_strings l Hs)
      end ]); simpl; keys.
Ltac marshaled := unfold member; cbn -[Marshal_value]; bools; cbn -[Marshal_value];
  repeat (eapply marshal_cons; [first [reflexivity|apply marshal_strings|eassumption]|]); apply marshal_nil.
Ltac requested := unfold member; cbn -[Marshal_value]; bools; reflexivity.
Tactic Notation "delivery" "by" uconstr(D) :=
  eapply D; [requested|marshaled|reflexivity|reflexivity|decoded; try done].
Ltac delivery := delivery by deliver.

Lemma vote_delivered t :
  Forall is_utf8 [gv_ChainID t; gv_KeyName t; gv_Option t; gv_Memo t; gv_Fees t] ->
  uint64 (gv_ProposalID t) -> uint64 (gv_Gas t) -> delivered (GovVote t) = Ok (ReqGovVote t).
Proof.
  intros Hc Hp Hg. destruct t as [c n p o m f g]; simpl in *. optional m; delivery.
Qed.
Lemma unjail_delivered t :
  Forall is_utf8 [uj_ChainID t; uj_KeyName t; uj_Memo t; uj_Fees t] ->
  uint64 (uj_Gas t) -> delivered (Unjail t) = Ok (ReqUnjail t).
Proof. intros Hc Hg. destruct t as [c n m f g]; simpl in *. optional m; delivery. Qed.
Lemma upgrade_delivered t :
  Forall is_utf8 [su_ChainID t; su_KeyName t; su_Title t; su_Description t; su_UpgradeName t; su_UpgradeInfo t;
                  su_InitialDeposit t; su_Memo t; su_Fees t] ->
  int64 (su_UpgradeHeight t) -> uint64 (su_Gas t) -> delivered (GovSoftwareUpgrade t) = Ok (ReqGovSoftwareUpgrade t).
Proof.
  intros Hc Hh Hg. destruct t as [c n ti d u h i dep m f g]; simpl in *. optional i; optional m; delivery.
Qed.
Lemma digest_delivered t :
  Forall is_utf8 [ed_Backend t; ed_OpenMode t] -> int64 (ed_Height t) -> delivered (EVMDigest t) = Ok (ReqEVMDigest t).
Proof. intros Hc Hh. destruct t as [h b m]; simpl in *. optional m; delivery. Qed.
Lemma await_delivered t :
  Forall is_utf8 [ac_Condition t; ac_Action t] -> int64 (ac_TargetHeight t) ->
  delivered (AwaitCondition t) =
  Ok (ReqAwaitCondition (mkAwaitCondition (ac_Condition t) (ac_Action t) (Z.max 0 (ac_TargetHeight t)))).
Proof. intros Hc Hh. destruct t as [c a h]; simpl in *. positive h; optional a; delivery. Qed.
Lemma restore_delivered h : int64 h -> delivered (SnapshotRestore h) = Ok (ReqSnapshotRestore (Z.max 0 h)).
Proof. intros Hh. positive h; [delivery|]. apply (deliver_none ReqSnapshotRestore SnapshotRestoreRequest_field 0%Z); [|done..]. requested. Qed.
Lemma state_sync_delivered t :
  Forall is_utf8 (sr_TrustPeriod t :: sr_RpcServers t) -> int64 (sr_BackfillBlocks t) ->
  delivered (ConfigureStateSync t) =
  Ok (ReqStateSync (mkStateSync (sr_UseLocalSnapshot t) (sr_TrustPeriod t) (Z.max 0 (sr_BackfillBlocks t)) (sr_RpcServers t))).
Proof.
  intros Hc Hb. destruct t as [l p b s]; simpl in *.
  destruct (bool_decide (s = [])) eqn:Es; [apply bool_decide_eq_true in Es as ->|]; destruct l; optional p; positive b.
  all: try (by delivery).
  all: simpl in *.  apply (deliver_none ReqStateSync StateSyncRequest_field (mkStateSync false "" 0 [])); [requested|done..]. 
Qed.
Lemma genesis_delivered h a : is_utf8 h -> delivered (ConfigureGenesis h a) = Ok (ReqConfigureGenesis h a).
Proof.
  intros Hh. optional h; destruct a.
  1-3: match goal with |- delivered (ConfigureGenesis ?h ?a) = _ =>
    delivery by (deliver (fun o => ReqConfigureGenesis o.1 o.2) ConfigureGenesisRequest_field ("", false) (h, a)) end.
  apply (deliver_none (fun o => ReqConfigureGenesis o.1 o.2) ConfigureGenesisRequest_field ("", false)); [requested|done..].
Qed.
Lemma up_check_delivered ty u :
  snd <$> List.find (fun h => h.1 =s ty) handlers = Some (TypedHandler ReqUpCheck restartSeidParams_field None) ->
  (ty =s "") = false ->
  match u with Some u => is_utf8 (uc_Path u) /\ int32 (uc_Port u) | None => True end ->
  forall t, ToTaskRequest t = upCheckTaskRequest ty u ->
  delivered t = Ok (ReqUpCheck ((fun u => (UpCheckScheme_string (uc_Scheme u), uc_Port u, uc_Path u)) <$> u)).
Proof.
  intros Hf Hty Hu t Ht. destruct u as [[s p path]|]; simpl in *.
  - destruct Hu as [Hpath Hp].
    eapply (deliver ReqUpCheck restartSeidParams_field None); rewrite ?Ht; [reflexivity|reflexivity|exact Hty|exact Hf|].
    destruct s; decoded; done.
  - apply (deliver_none ReqUpCheck restartSeidParams_field None); rewrite ?Ht; done.
Qed.
Lemma identity_delivered c m :
  Forall is_utf8 [c; m] -> delivered (GenerateIdentity c m) = Ok (ReqGenerateIdentity c m).
Proof. 
  intros Hc. delivery by (deliver (fun o => ReqGenerateIdentity o.1 o.2) _ _ (c, m)).
Qed.
Lemma gentx_delivered c s b :
  Forall is_utf8 [c; s; b] -> delivered (GenerateGentx c s b) = Ok (ReqGenerateGentx c s b).
Proof. 
  intros Hc. delivery by (deliver (fun o => ReqGenerateGentx o.1.1 o.1.2 o.2) _ _ (c, s, b)).
Qed.
Lemma upload_delivered n ns (a : bool) :
  Forall is_utf8 [n; ns] -> delivered (UploadGenesisArtifacts n ns a) = Ok (ReqUploadArtifacts n (if a then ns else "") a).
Proof. 
  intros Hc. destruct a.
  - delivery by (deliver (fun o => ReqUploadArtifacts o.1.1 o.1.2 o.2) _ _ (n, ns, true)).
  - delivery by (deliver (fun o => ReqUploadArtifacts o.1.1 o.1.2 o.2) _ _ (n, "", false)).
Qed.

(** *** Maps *)
Lemma marshal_members (f : goval -> jval) l :
  Forall (fun kv : string * goval => Marshal_value kv.2 = Ok (f kv.2)) l ->
  Marshal_value (GObj l) = Ok (JObj (map (fun kv => (kv.1, f kv.2)) l)).
Proof. induction 1 as [|[k x] l Hx Hl IH]; [done|]. by apply marshal_cons. Qed.
Lemma decode_entries_spec {A} (dec : jval -> A -> result A) zero (g : jval -> A) l m :
  Forall (fun kv => dec kv.2 zero = Ok (g kv.2)) l ->
  decode_entries dec zero l m = Ok (fold_left (fun m kv => <[kv.1 := g kv.2]> m) l m).
Proof. intros Hl. revert m. induction Hl as [|[k v] l Hx Hl IH]; intros m; simpl in *; [done|]. rewrite Hx. apply IH. Qed.
Lemma fold_insert_distinct {A B} (g : A -> B) l (m : gmap string B) :
  NoDup l.*1 ->
  fold_left (fun m kv => <[kv.1 := g kv.2]> m) l m = list_to_map (map (fun kv => (kv.1, g kv.2)) l) ∪ m.
Proof.
  revert m. induction l as [|[k v] l IH]; intros m Hl; simpl in *; [by rewrite (left_id_L ∅ (∪))|].
  apply NoDup_cons in Hl as [Hk Hl]. rewrite fold_insert_absent, IH by
    (try done; apply Forall_forall; intros [k' v'] Hin Hkk; simpl in Hkk; subst; apply Hk, list_elem_of_fmap; by exists (k, v')).
  by rewrite insert_union_l.
Qed.
Lemma map_arrives {A} (dec : jval -> A -> result A) zero (f : goval -> jval) (g : goval -> A) (h : jval -> A) l :
  NoDup l.*1 -> Forall (fun kv => is_utf8 kv.1) l ->
  Forall (fun kv : string * goval => Marshal_value kv.2 = Ok (f kv.2)) l ->
  Forall (fun kv : string * goval => dec (wire (f kv.2)) zero = Ok (h (wire (f kv.2))) /\ h (wire (f kv.2)) = g kv.2) l ->
  exists tbl, Marshal_value (GObj (sorted_members l)) = Ok (JObj tbl) /\
    decode_entries dec zero (sorted_members (map (fun kv => (valid_utf8 kv.1, wire kv.2)) tbl)) ∅ =
    Ok (list_to_map (map (fun kv => (kv.1, g kv.2)) l)).
Proof.
  intros Hnd Hk Hf Hd. exists (map (fun kv => (kv.1, f kv.2)) (sorted_members l)).
  split; [by apply marshal_members, sorted_members_Forall|].
  rewrite map_map. simpl.
  rewrite (map_ext_Forall _ (fun kv => (kv.1, wire (f kv.2))));
    [|apply sorted_members_Forall; eapply Forall_impl; [exact Hk|]; intros [k v]; simpl; by intros ->].
  rewrite (decode_entries_spec _ _ h).
  - rewrite fold_insert_sorted_members.
    assert (Hmap : forall (L : list (string * goval)) (m : gmap string A),
      fold_left (fun m kv => <[kv.1 := h kv.2]> m) (map (fun kv => (kv.1, wire (f kv.2))) L) m =
      fold_left (fun m kv => <[kv.1 := h (wire (f kv.2))]> m) L m)
      by (induction L as [|x L IH]; intros m; simpl; [done|apply IH]).
    rewrite Hmap, (fold_insert_sorted_members (fun v => h (wire (f v)))), (fold_insert_distinct (fun v => h (wire (f v)))), (right_id_L ∅ (∪)) by done.
    do 2 f_equal. apply map_ext_Forall. eapply Forall_impl; [exact Hd|]. intros [k v]. simpl. by intros [_ ->].
  - apply sorted_members_Forall, Forall_map, sorted_members_Forall. eapply Forall_impl; [exact Hd|].
    intros [k v]. simpl. by intros [-> _].
Qed.

Lemma patch_delivered files :
  NoDup files.*1 -> Forall is_utf8 files.*1 -> delivered (ConfigPatch files) = Ok (written (ConfigPatch files)).
Proof.
  intros Hnd Hk. simpl.
  destruct (map_arrives decode_patch (JObj []) (fun v => match v with GJson j => j | _ => JNull end)
    (fun v => match v with GJson j => wire j | _ => JNull end) id
    (map (fun kv => (kv.1, GJson (JObj kv.2))) files)) as (tbl & Hm & Hd).
  - by rewrite <-list_fmap_compose.
  - rewrite Forall_map. rewrite Forall_fmap in Hk. exact Hk.
  - rewrite Forall_map. by apply Forall_true.
  - rewrite Forall_map. apply Forall_true. done.
  - rewrite map_map in Hd. simpl in Hd.
    eapply (deliver ReqConfigPatch ConfigPatchRequest_field ∅);
      [reflexivity|eapply marshal_cons; [exact Hm|apply marshal_nil]|done|done|].
    simpl. keys. simpl. by rewrite Hd.
Qed.

Lemma apply_delivered i :
  is_utf8 (in_Mode i) -> map_Forall (fun k v => is_utf8 k /\ is_utf8 v) (in_Overrides i) ->
  version_ok (in_TargetVersion i) -> delivered (ConfigApply i) = Ok (ReqConfigApply i).
Proof.
  intros Hm Ho Hv. destruct i as [mode ov inc ver]; simpl in *.
  assert (Hl : Forall (fun kv : string * string => is_utf8 kv.1 /\ is_utf8 kv.2) (map_to_list ov)).
  { apply Forall_forall. intros [k v] Hin%elem_of_map_to_list. by apply (Ho k v). }
  destruct (map_arrives decode_string "" (fun v => match v with GJson j => j | _ => JNull end)
    (fun v => match v with GJson (JStr x) => x | _ => "" end) (fun j => match j with JStr x => x | _ => "" end)
    (map (fun kv => (kv.1, gstr kv.2)) (map_to_list ov))) as (tbl & Hmar & Hd).
  - rewrite <-list_fmap_compose. apply (NoDup_fst_map_to_list ov).
  - rewrite Forall_map. eapply Forall_impl; [exact Hl|]. by intros kv [? _].
  - rewrite Forall_map. by apply Forall_true.
  - rewrite Forall_map. eapply Forall_impl; [exact Hl|]. intros [k v] [_ Hu]. simpl in *.
    by rewrite (Hu : valid_utf8 v = v).
  - rewrite map_map in Hd. simpl in Hd.
    assert (Heq : list_to_map (map (fun kv : string * string => (kv.1, kv.2)) (map_to_list ov)) = ov).
    { rewrite <-(list_to_map_to_list ov) at 2. f_equal. rewrite <-(map_id (map_to_list ov)) at 2. by apply map_ext; intros []. }
    rewrite Heq in Hd.
    destruct (bool_decide (ov = ∅)) eqn:Eo; [apply bool_decide_eq_true in Eo as ->|].
    all: eapply (deliver ReqConfigApply ConfigIntent_field (mkConfigIntent "" ∅ false 0));
      [requested| |reflexivity|reflexivity|].
    + marshaled.
    + simpl. keys. rewrite (Hm : valid_utf8 mode = mode).
      rewrite intent_incremental. simpl. rewrite intent_mode. simpl.
      change (JNum (pretty ver)) with (num ver). by rewrite intent_version.
    + marshaled.
    + simpl. keys. rewrite (Hm : valid_utf8 mode = mode).
      rewrite intent_incremental. simpl. rewrite intent_mode. simpl. rewrite intent_overrides. simpl.
      rewrite Hd. simpl. change (JNum (pretty ver)) with (num ver). by rewrite intent_version.
Qed.

(** *** Lists of structs *)
Definition raw_value (r : raw_json) : jval := match r with RawValue v => v | _ => JNull end.
Lemma wire_raw_value r : wire_raw r = RawValue (wire (raw_value r)).
Proof. by destruct r. Qed.
Lemma marshal_raw r : r <> RawMalformed -> Marshal_value (GRaw r) = Ok (raw_value r).
Proof. by destruct r. Qed.
Lemma slice_arrives {A B} (enc : B -> goval) (js ws : B -> jval) (f : B -> A) dec zero l :
  Forall (fun x => Marshal_value (enc x) = Ok (js x) /\ wire (js x) = ws x /\ dec (ws x) zero = Ok (f x)) l ->
  Marshal_value (GArr (map enc l)) = Ok (JArr (map js l)) /\
  decode_elements dec zero (map wire (map js l)) = Ok (map f l).
Proof.
  intros Hl. split.
  - apply marshal_elements. eapply Forall_impl; [exact Hl|]. by intros x (? & _).
  - rewrite (map_wire js ws) by (eapply Forall_impl; [exact Hl|]; by intros x (_ & ? & _)).
    apply decode_elements_map. eapply Forall_impl; [exact Hl|]. by intros x (_ & _ & ?).
Qed.

Lemma change_arrives c :
  is_utf8 (pi_Subspace c) -> is_utf8 (pi_Key c) -> pi_Value c <> RawMalformed ->
  let js := JObj [("subspace", JStr (pi_Subspace c)); ("key", JStr (pi_Key c)); ("value", raw_value (pi_Value c))] in
  Marshal_value (change_value c) = Ok js /\ wire js = wire js /\
  decode_struct paramChange_field (wire js) (mkParamChange "" "" "") = Ok (written_change c).
Proof.
  intros Hs Hk Hv. destruct c as [s k v]; simpl in *. split_and!; [|done|].
  - unfold change_value. simpl. destruct v; done.
  - unfold written_change, raw_text. simpl. rewrite wire_raw_value. decoded. done.
Qed.
Lemma param_change_delivered t :
  Forall is_utf8 [gp_ChainID t; gp_KeyName t; gp_Title t; gp_Description t; gp_InitialDeposit t; gp_Memo t; gp_Fees t] ->
  Forall (fun c => is_utf8 (pi_Subspace c) /\ is_utf8 (pi_Key c) /\ pi_Value c <> RawMalformed) (gp_Changes t) ->
  uint64 (gp_Gas t) -> delivered (GovParamChange t) = Ok (written (GovParamChange t)).
Proof.
  intros Hc Hl Hg. destruct t as [c n ti d l dep m f g]; simpl in *.
  destruct (slice_arrives change_value
    (fun c => JObj [("subspace", JStr (pi_Subspace c)); ("key", JStr (pi_Key c)); ("value", raw_value (pi_Value c))])
    (fun c => wire (JObj [("subspace", JStr (pi_Subspace c)); ("key", JStr (pi_Key c)); ("value", raw_value (pi_Value c))]))
    written_change (decode_struct paramChange_field) (mkParamChange "" "" "") l) as [Hm Hd].
  { eapply Forall_impl; [exact Hl|]. intros x (? & ? & ?). by apply change_arrives. }
  optional m; delivery.
Qed.

Lemma update_arrives u :
  is_utf8 u.2 -> uint64 u.1 ->
  let js := JObj [("codeId", num u.1); ("permission", JStr u.2)] in
  Marshal_value (update_value u) = Ok js /\ wire js = wire js /\
  decode_struct instantiateConfigUpdate_field (wire js) (0%Z, "") = Ok u.
Proof. intros Hp Hc. destruct u as [c p]; simpl in *. split_and!; [done..|]. decoded. done. Qed.
Lemma update_config_delivered t :
  Forall is_utf8 [ui_ChainID t; ui_KeyName t; ui_Title t; ui_Description t; ui_InitialDeposit t; ui_Memo t; ui_Fees t] ->
  Forall (fun u => is_utf8 u.2 /\ uint64 u.1) (ui_Updates t) -> uint64 (ui_Gas t) ->
  delivered (GovUpdateInstantiateConfig t) = Ok (ReqGovUpdateInstantiateConfig t).
Proof.
  intros Hc Hl Hg. destruct t as [c n ti d l dep m f g]; simpl in *.
  destruct (slice_arrives update_value (fun u => JObj [("codeId", num u.1); ("permission", JStr u.2)])
    (fun u => wire (JObj [("codeId", num u.1); ("permission", JStr u.2)])) id
    (decode_struct instantiateConfigUpdate_field) (0%Z, "") l) as [Hm Hd].
  { eapply Forall_impl; [exact Hl|]. intros x [? ?]. by apply update_arrives. }
  rewrite map_id in Hd. optional m; delivery.
Qed.

(** *** The assembly *)
Lemma node_arrives n :
  is_utf8 n ->
  let js := JObj [("name", JStr n)] in
  Marshal_value (GObj [("name", gstr n)]) = Ok js /\ wire js = wire js /\
  decode_struct AssembleNodeEntry_field (wire js) "" = Ok n.
Proof. intros Hn. simpl. split_and!; [done..|]. decoded. done. Qed.

Definition vesting_json (v : GenesisAccountVesting) : jval :=
  JObj [("amount", JStr (gv_Amount v)); ("endTime", num (gv_EndTime v)); ("delayed", JBool (gv_Delayed v))].
Definition account_json (a : GenesisAccount) : jval :=
  JObj ([("address", JStr (ga_Address a)); ("balance", JStr (ga_Balance a))] ++
        match ga_Vesting a with Some v => [("vesting", vesting_json v)] | None => [] end).
Definition account_sound (a : GenesisAccount) : Prop :=
  is_utf8 (ga_Address a) /\ is_utf8 (ga_Balance a) /\
  match ga_Vesting a with Some v => is_utf8 (gv_Amount v) /\ int64 (gv_EndTime v) | None => True end.
Lemma account_arrives a :
  account_sound a ->
  Marshal_value (account_value a) = Ok (account_json a) /\ wire (account_json a) = wire (account_json a) /\
  decode_struct GenesisAccountEntry_field (wire (account_json a)) (mkGenesisAccount "" "" None) = Ok a.
Proof.
  destruct a as [ad b [[am e d]|]]; intros (Ha & Hb & Hv); simpl in Hv; split_and!; try done.
  - destruct Hv as [Hm He]. simpl in *. unfold vesting_json. decoded. done.
  - simpl in *. decoded. done.
Qed.

Definition ceremony_sound (c : AutobahnCeremonySpec) : Prop :=
  is_utf8 (ab_BlockInterval c) /\ match ab_MaxTxsPerBlock c with Some n => int64 n | None => True end.
Lemma ceremony_arrives c :
  ceremony_sound c ->
  exists js, Marshal_value (AutobahnConfigParams_value c) = Ok js /\
    decode_pointer (decode_struct AutobahnConfigOverrides_field) (mkAutobahnCeremony "" None None None) (wire js) None =
    Ok (Some c).
Proof.
  intros [Hi Hm]. destruct c as [i e m p]; simpl in Hi, Hm. unfold AutobahnConfigParams_value.
  optional i; destruct e, m, p; eexists; (split; [marshaled|decoded; done]).
Qed.

Lemma overrides_arrive (m : gmap string raw_json) :
  map_Forall (fun k r => is_utf8 k /\ r <> RawMalformed) m ->
  exists tbl, Marshal_value (of_gmap m) = Ok (JObj tbl) /\
    decode_entries decode_message RawNone (sorted_members (map (fun kv => (valid_utf8 kv.1, wire kv.2)) tbl)) ∅ =
    Ok (wire_raw <$> m).
Proof.
  intros Hm. assert (Hl : Forall (fun kv : string * raw_json => is_utf8 kv.1 /\ kv.2 <> RawMalformed) (map_to_list m)).
  { apply Forall_forall. intros [k r] Hin%elem_of_map_to_list. by apply (Hm k r). }
  destruct (map_arrives decode_message RawNone (fun v => match v with GRaw r => raw_value r | _ => JNull end)
    (fun v => match v with GRaw r => wire_raw r | _ => RawNone end) RawValue
    (map (fun kv => (kv.1, GRaw kv.2)) (map_to_list m))) as (tbl & Hmar & Hd).
  - rewrite <-list_fmap_compose. apply (NoDup_fst_map_to_list m).
  - rewrite Forall_map. eapply Forall_impl; [exact Hl|]. by intros kv [? _].
  - rewrite Forall_map. eapply Forall_impl; [exact Hl|]. intros kv [_ ?]. by apply marshal_raw.
  - rewrite Forall_map. apply Forall_true. intros kv. simpl. by rewrite wire_raw_value.
  - exists tbl. split; [exact Hmar|]. rewrite Hd, map_map. simpl. f_equal.
    rewrite <-(list_to_map_to_list m) at 2. rewrite <-list_to_map_fmap. done.
Qed.

Record assemble_sound (t : AssembleGenesisRequest) : Prop := {
  aso_strings : Forall is_utf8 ([as_AccountBalance t; as_Namespace t] ++ as_Nodes t);
  aso_accounts : Forall account_sound (as_Accounts t);
  aso_overrides : map_Forall (fun k r => is_utf8 k /\ r <> RawMalformed) (as_Overrides t);
  aso_params : as_ConsensusParams t <> RawMalformed;
  aso_config : match as_AutobahnConfig t with Some c => ceremony_sound c | None => True end;
}.
Lemma assemble_delivered t :
  assemble_sound t ->
  delivered (AssembleAndUploadGenesis t) =
  Ok (ReqAssembleGenesis (mkAssemble (as_AccountBalance t) (as_Namespace t) (as_Nodes t) (as_Accounts t)
    (wire_raw <$> as_Overrides t) (match as_ConsensusParams t with RawNone => RawNone | r => wire_raw r end) (as_Autobahn t)
    (if as_Autobahn t then as_AutobahnConfig t else None))).
Proof.
  intros [Hc Ha Ho Hp Hcfg]. destruct t as [b ns nodes accounts ov cp ab cfg]; simpl in *.
  apply Forall_cons in Hc as [Hb Hc]. apply Forall_cons in Hc as [Hns Hnodes].
  destruct (slice_arrives (fun n => GObj [("name", gstr n)]) (fun n => JObj [("name", JStr n)])
    (fun n => wire (JObj [("name", JStr n)])) id (decode_struct AssembleNodeEntry_field) "" nodes) as [Hnm Hnd].
  { eapply Forall_impl; [exact Hnodes|]. intros n. apply node_arrives. }
  destruct (slice_arrives account_value account_json (fun a => wire (account_json a)) id
    (decode_struct GenesisAccountEntry_field) (mkGenesisAccount "" "" None) accounts) as [Ham Had].
  { eapply Forall_impl; [exact Ha|]. apply account_arrives. }
  rewrite !map_id in *. destruct (overrides_arrive ov Ho) as (otbl & Hom & Hod).
  assert (Hcfg' : ab = true -> forall c, cfg = Some c -> exists js, Marshal_value (AutobahnConfigParams_value c) = Ok js /\
    decode_pointer (decode_struct AutobahnConfigOverrides_field) (mkAutobahnCeremony "" None None None) (wire js) None =
    Ok (Some c)) by (intros _ c ->; by apply ceremony_arrives).
  clear Hcfg Ha.
  assert (Hacc : genesisAccountsToWire accounts = None /\ accounts = [] \/
                 genesisAccountsToWire accounts = Some (GArr (map account_value accounts)))
    by (destruct accounts; [by left|by right]).
  destruct (bool_decide (ov = ∅)) eqn:Eov; [apply bool_decide_eq_true in Eov as ->; rewrite fmap_empty|];
  (destruct Hacc as [[Hacc ->]|Hacc]); (destruct cp as [| |cp]; [|done|]);
  (destruct ab; [destruct cfg as [c|]; [destruct (Hcfg' eq_refl c eq_refl) as (js & Hjm & Hjd)|]|]); clear Hcfg'.
  all: eapply (deliver ReqAssembleGenesis AssembleGenesisRequest_field zero_assemble); [reflexivity| |reflexivity|reflexivity|].
  all: first [unfold member; cbn -[Marshal_value]; rewrite ?Hacc; bools; cbn -[Marshal_value]; marshaled|decoded; done].
Qed.

(** ** Every task *)

(** What Go's types and the API server make true of a task: integers are in the
    range of their type, a map has each key once, raw JSON is JSON, and text is
    UTF-8. *)
Definition sound (t : ClientTask) : Prop :=
  match t with
  | SnapshotRestore h => int64 h
  | ConfigureGenesis h _ => is_utf8 h
  | ConfigApply i =>
      is_utf8 (in_Mode i) /\ map_Forall (fun k v => is_utf8 k /\ is_utf8 v) (in_Overrides i) /\ version_ok (in_TargetVersion i)
  | ConfigPatch files => NoDup files.*1 /\ Forall is_utf8 files.*1
  | ConfigureStateSync t => Forall is_utf8 (sr_TrustPeriod t :: sr_RpcServers t) /\ int64 (sr_BackfillBlocks t)
  | RestartSeid u | StopSeid u => match u with Some u => is_utf8 (uc_Path u) /\ int32 (uc_Port u) | None => True end
  | GenerateIdentity c m => Forall is_utf8 [c; m]
  | GenerateGentx c s b => Forall is_utf8 [c; s; b]
  | UploadGenesisArtifacts n ns _ => Forall is_utf8 [n; ns]
  | AssembleAndUploadGenesis t => assemble_sound t
  | AwaitCondition t => Forall is_utf8 [ac_Condition t; ac_Action t] /\ int64 (ac_TargetHeight t)
  | GovVote t =>
      Forall is_utf8 [gv_ChainID t; gv_KeyName t; gv_Option t; gv_Memo t; gv_Fees t] /\
      uint64 (gv_ProposalID t) /\ uint64 (gv_Gas t)
  | Unjail t => Forall is_utf8 [uj_ChainID t; uj_KeyName t; uj_Memo t; uj_Fees t] /\ uint64 (uj_Gas t)
  | GovSoftwareUpgrade t =>
      Forall is_utf8 [su_ChainID t; su_KeyName t; su_Title t; su_Description t; su_UpgradeName t; su_UpgradeInfo t;
                      su_InitialDeposit t; su_Memo t; su_Fees t] /\
      int64 (su_UpgradeHeight t) /\ uint64 (su_Gas t)
  | GovParamChange t =>
      Forall is_utf8 [gp_ChainID t; gp_KeyName t; gp_Title t; gp_Description t; gp_InitialDeposit t; gp_Memo t; gp_Fees t] /\
      Forall (fun c => is_utf8 (pi_Subspace c) /\ is_utf8 (pi_Key c) /\ pi_Value c <> RawMalformed) (gp_Changes t) /\
      uint64 (gp_Gas t)
  | GovUpdateInstantiateConfig t =>
      Forall is_utf8 [ui_ChainID t; ui_KeyName t; ui_Title t; ui_Description t; ui_InitialDeposit t; ui_Memo t; ui_Fees t] /\
      Forall (fun u => is_utf8 u.2 /\ uint64 u.1) (ui_Updates t) /\ uint64 (ui_Gas t)
  | EVMDigest t => Forall is_utf8 [ed_Backend t; ed_OpenMode t] /\ int64 (ed_Height t)
  | _ => True
  end.

(** C33: Every task of the client reaches the handler of its type, and the struct
    the handler decodes on the task's first run holds what the caller wrote: each
    field under its name and in its type, integers as they are, an unset field as
    its zero value, raw JSON as the value it parses to with its number literals.
    The caller's text has to be UTF-8 and its raw JSON JSON. The exceptions are
    what the client does not send although it is set, where the handler finds
    zero: a negative height or block count, and the namespace of an upload or the
    configuration of an assembly that is not for Autobahn. *)
Theorem request_reaches_handler (t : ClientTask) :
  sound t ->
  (~ unsent t -> delivered t = Ok (written t)) /\ (unsent t -> delivered t = Ok (written (zeroed t))).
Proof.
  intros Hs. destruct t; simpl in Hs;
    try (split; [intros _|intros []]; by apply (deliver_none (fun _ => ReqNone) no_field tt)).
  - rewrite restore_delivered by done. split; simpl; intros Hn; do 2 f_equal; lia.
  - split; [intros _|intros []]. by apply genesis_delivered.
  - split; [intros _|intros []]. destruct Hs as (? & ? & ?). by apply apply_delivered.
  - split; [intros _|intros []]. destruct Hs. by apply patch_delivered.
  - destruct Hs. rewrite state_sync_delivered by done. destruct t. split; simpl; intros Hn; do 3 f_equal; lia.
  - split; [intros _|intros []]. by apply (up_check_delivered TaskTypeRestartSeid).
  - split; [intros _|intros []]. by apply (up_check_delivered taskTypeStopSeid).
  - split; [intros _|intros []]. by apply identity_delivered.
  - split; [intros _|intros []]. by apply gentx_delivered.
  - rewrite upload_delivered by done. split; simpl; [|by intros [-> _]]. intros Hn.
    destruct autobahn; [done|]. destruct (decide (namespace = "")) as [->|]; [done|]. by destruct Hn.
  - rewrite assemble_delivered by done. unfold unsent, written, zeroed, written_assemble. split.
    + intros Hn. destruct (as_Autobahn t); [done|]. destruct (as_AutobahnConfig t); [|done]. by destruct Hn.
    + intros [Ha _]. simpl. by rewrite Ha.
  - destruct Hs. rewrite await_delivered by done. destruct t. split; simpl; intros Hn; do 3 f_equal; lia.
  - split; [intros _|intros []]. destruct Hs as (? & ? & ?). by apply vote_delivered.
  - split; [intros _|intros []]. destruct Hs. by apply unjail_delivered.
  - split; [intros _|intros []]. destruct Hs as (? & ? & ?). by apply upgrade_delivered.
  - split; [intros _|intros []]. destruct Hs as (? & ? & ?). by apply param_change_delivered.
  - split; [intros _|intros []]. destruct Hs as (? & ? & ?). by apply update_config_delivered.
  - split; [intros _|intros []]. destruct Hs. by apply digest_delivered.
Qed.

(** Invalid UTF-8 is not what the caller wrote any more. *)
Lemma invalid_text_replaced :
  delivered (GenerateIdentity "c" (Prelude.bytes [97; 255])) = Ok (ReqGenerateIdentity "c" ("a" +:+ replacement)).
Proof. vm_compute. reflexivity. Qed.
End Handlers.

Definition sample_assembly : AssembleGenesisRequest :=
  mkAssemble "10usei" "nodes" ["val-0"; "val-1"] [mkGenesisAccount "sei1abc" "5usei" (Some (mkVesting "1usei" 1900000000 true))]
    {["gov.params" := RawValue (JObj [("z", JNum "1.50"); ("a", JStr "x")])]}
    (RawValue (JObj [("block", JNull)])) true (Some (mkAutobahnCeremony "400ms" (Some false) (Some 2000%Z) None)).
(** A sei-config with those tags, which takes every intent. *)
#[local] Existing Instance sample_rpc.
Definition sample_intent_field (k : string) (v : jval) (o : ConfigIntent) : result ConfigIntent :=
  let '(mkConfigIntent m ov i ver) := o in
  if k =s "mode" then field_of decode_string in_Mode (fun x => mkConfigIntent x ov i ver) v o
  else if k =s "overrides" then
    field_of (decode_map decode_string "") in_Overrides (fun x => mkConfigIntent m x i ver) v o
  else if k =s "incremental" then field_of decode_bool in_Incremental (fun x => mkConfigIntent m ov x ver) v o
  else if k =s "targetversion" then
    field_of decode_int64 in_TargetVersion (fun x => mkConfigIntent m ov i x) v o
  else Ok o.
#[refine] Definition sample_seiconfig : SeiConfig :=
  {| ValidateIntent := fun _ => None; ConfigIntent_field := sample_intent_field; version_ok := int64 |}.
Proof.
  - done.
  - intros j m o i v. unfold sample_intent_field, field_of. simpl. destruct (decode_map _ _ _ _); reflexivity.
  - done.
  - intros n m o i v Hn. change ((a ← decode_int64 (num n) v; Ok (mkConfigIntent m o i a)) = Ok (mkConfigIntent m o i n)).
    unfold num. by rewrite decode_int64_num.
Defined.
Definition sample_intent : ConfigIntent :=
  mkConfigIntent "validator" {["evm.http_port" := "8545"]} true 3.

Lemma request_reaches_handler_witness :
  @sound _ sample_seiconfig (AssembleAndUploadGenesis sample_assembly) /\
  delivered (SC := sample_seiconfig) (AssembleAndUploadGenesis sample_assembly) =
  Ok (ReqAssembleGenesis (mkAssemble "10usei" "nodes" ["val-0"; "val-1"]
    [mkGenesisAccount "sei1abc" "5usei" (Some (mkVesting "1usei" 1900000000 true))]
    {["gov.params" := RawValue (JObj [("a", JStr "x"); ("z", JNum "1.50")])]}
    (RawValue (JObj [("block", JNull)])) true (Some (mkAutobahnCeremony "400ms" (Some false) (Some 2000%Z) None)))) /\
  delivered (SC := sample_seiconfig) (ConfigApply sample_intent) = Ok (ReqConfigApply sample_intent) /\
  delivered (SC := sample_seiconfig) (SnapshotRestore (-1)) = Ok (ReqSnapshotRestore 0).
Proof.
  assert (Hs : @sound _ sample_seiconfig (AssembleAndUploadGenesis sample_assembly)).
  { split; simpl.
    - repeat constructor.
    - repeat constructor; simpl; lia.
    - apply map_Forall_singleton. by split.
    - done.
    - split; [done|]. split; lia. }
  assert (Hi : @sound _ sample_seiconfig (ConfigApply sample_intent)).
  { split; [done|]. split; [|split; simpl; lia]. simpl. apply map_Forall_singleton. by split. }
  split_and!; [exact Hs|..].
  - rewrite (proj1 (request_reaches_handler (SC := sample_seiconfig) _ Hs)) by (intros [? _]; done).
    vm_compute. reflexivity.
  - exact (proj1 (request_reaches_handler (SC := sample_seiconfig) _ Hi) (fun x => x)).
  - refine (proj2 (request_reaches_handler (SC := sample_seiconfig) (SnapshotRestore (-1)) _) _); simpl; [split; lia|lia].
Defined.
