(* ===== verification/EvmDigest.v ===== *)
(** * The EVM digest comparison (src/internal/evmdigestcompare,
      src/sidecar/tasks/evm_digest.go)

    Every round of a chain picks one height below the lowest tip of its nodes, has
    each node scan its own state at that height through an evm-digest task, and
    compares the reports pair by pair into metrics. What the sidecars answer is a
    parameter; the state is the last height of each chain and the metrics. A gauge
    holds the integer it is set to, before its conversion to a float; logs are left
    out. *)

From stdpp Require Import base list strings gmap pretty.
From Stdlib Require Import ZArith Lia Ascii Sorted.
From S2P Require Import Prelude Api Config TomlPatch RpcClient JsonWire HomeDir TaskWire.

(** ** Configuration (config.go) *)
Definition BackendMemiavl := "memiavl".
Definition BackendComposite := "composite".
Record Endpoint := mkEndpoint { ep_Namespace : string; ep_Name : string; ep_URL : string }.
Record Node := mkNode { nd_Endpoint : Endpoint; nd_Backend : string }.
Record Chain := mkChain { ch_Name : string; ch_Nodes : list Node }.

Definition Label (e : Endpoint) : string :=
  if ep_Name e <>s "" then ep_Namespace e +:+ "/" +:+ ep_Name e else ep_URL e.
Definition InCluster (e : Endpoint) : bool := ep_URL e =s "".
Definition RBACProxyPort : Z := 8443.
Definition SidecarURLForNode (name namespace : string) : string :=
  "http://" +:+ name +:+ "-0." +:+ name +:+ "." +:+ namespace +:+ ".svc.cluster.local:" +:+ pretty RBACProxyPort.
Definition BaseURL (e : Endpoint) : string :=
  if negb (InCluster e) then ep_URL e else SidecarURLForNode (ep_Name e) (ep_Namespace e).
Definition node_label (n : Node) : string := Label (nd_Endpoint n).

Definition Endpoint_validate (e : Endpoint) : result unit :=
  if (ep_URL e <>s "") && ((ep_Name e <>s "") || (ep_Namespace e <>s "")) then
    Err "set either url or namespace and name, not both"
  else if ep_URL e <>s "" then Ok tt
  else if (ep_Name e =s "") || (ep_Namespace e =s "") then Err "namespace and name are required when url is unset"
  else Ok tt.
Fixpoint validateNodes (i j : nat) (seen : list string) (nodes : list Node) : result unit :=
  match nodes with
  | [] => Ok tt
  | n :: nodes' =>
      let at_ := "chains[" +:+ pretty i +:+ "].nodes[" +:+ pretty j +:+ "]" in
      _ ← wrap_err (at_ +:+ ": ") (Endpoint_validate (nd_Endpoint n));
      if negb ((nd_Backend n =s BackendMemiavl) || (nd_Backend n =s BackendComposite)) then
        Err (at_ +:+ " (" +:+ node_label n +:+ "): backend must be " +:+ BackendMemiavl +:+ " or " +:+ BackendComposite)
      else if mem (node_label n) seen then Err (at_ +:+ ": duplicate node " +:+ quote (node_label n))
      else validateNodes i (S j) (node_label n :: seen) nodes'
  end.
Fixpoint validateChains (i : nat) (seen : list string) (chains : list Chain) : result unit :=
  match chains with
  | [] => Ok tt
  | c :: chains' =>
      let at_ := "chains[" +:+ pretty i +:+ "]" in
      if ch_Name c =s "" then Err (at_ +:+ ": chain is required")
      else if mem (ch_Name c) seen then Err (at_ +:+ ": duplicate chain " +:+ quote (ch_Name c))
      else if length (ch_Nodes c) <? 2 then
        Err (at_ +:+ " (" +:+ ch_Name c +:+ "): at least two nodes are required to compare")
      else
        _ ← validateNodes i 0 [] (ch_Nodes c);
        validateChains (S i) (ch_Name c :: seen) chains'
  end.
Definition Config_Validate (chains : list Chain) : result unit :=
  match chains with [] => Err "config has no chains" | _ => validateChains 0 [] chains end.

(** ** Metrics (metrics.go) *)
Abbreviation chain_series := (gmap string Z).
Abbreviation node_series := (gmap (string * string) Z).
Abbreviation pair_series := (gmap (string * string * string) Z).
Record Metrics := mkMetrics {
  mt_Diverged : pair_series;
  mt_Mismatches : pair_series;
  mt_ComparedHeights : chain_series;
  mt_LastComparedHeight : chain_series;
  mt_LastComparedTimestamp : chain_series;
  mt_SourceHeight : node_series;
  mt_ScannedHeight : node_series;
  mt_SourceErrors : pair_series;
}.
Definition NewMetrics : Metrics := mkMetrics ∅ ∅ ∅ ∅ ∅ ∅ ∅ ∅.

(** [WithLabelValues] creates the series; [Inc] adds one to it. *)
Definition touch `{Countable K} (k : K) (m : gmap K Z) : gmap K Z :=
  match m !! k with Some _ => m | None => <[k := 0%Z]> m end.
Definition inc `{Countable K} (k : K) (m : gmap K Z) : gmap K Z := <[k := (default 0 (m !! k) + 1)%Z]> m.

Definition ReasonUnavailable := "unavailable".
Definition ReasonScanFailed := "scan_failed".
Definition ReasonNoTip := "no_tip".
Definition set_pairs (d x : pair_series) (m : Metrics) : Metrics :=
  mkMetrics d x (mt_ComparedHeights m) (mt_LastComparedHeight m) (mt_LastComparedTimestamp m) (mt_SourceHeight m)
    (mt_ScannedHeight m) (mt_SourceErrors m).
Definition set_chain (c h t : chain_series) (m : Metrics) : Metrics :=
  mkMetrics (mt_Diverged m) (mt_Mismatches m) c h t (mt_SourceHeight m) (mt_ScannedHeight m) (mt_SourceErrors m).
Definition set_nodes (s x : node_series) (e : pair_series) (m : Metrics) : Metrics :=
  mkMetrics (mt_Diverged m) (mt_Mismatches m) (mt_ComparedHeights m) (mt_LastComparedHeight m)
    (mt_LastComparedTimestamp m) s x e.

(** The pairs [i < j] of a list, in the order of the loops. *)
Fixpoint pairs {A} (l : list A) : list (A * A) :=
  match l with [] => [] | a :: l' => map (fun b => (a, b)) l' ++ pairs l' end.
Definition initNode (chain : string) (m : Metrics) (n : Node) : Metrics :=
  let k := (chain, node_label n) in
  set_nodes (touch k (mt_SourceHeight m)) (touch k (mt_ScannedHeight m))
    (fold_left (fun e reason => touch (k, reason) e) [ReasonUnavailable; ReasonScanFailed; ReasonNoTip] (mt_SourceErrors m)) m.
Definition initPair (chain : string) (m : Metrics) (p : Node * Node) : Metrics :=
  let k := (chain, node_label p.1, node_label p.2) in
  set_pairs (<[k := 0%Z]> (mt_Diverged m)) (touch k (mt_Mismatches m)) m.
Definition initChain (now : Z) (m : Metrics) (c : Chain) : Metrics :=
  let m := set_chain (touch (ch_Name c) (mt_ComparedHeights m)) (mt_LastComparedHeight m)
             (<[ch_Name c := now]> (mt_LastComparedTimestamp m)) m in
  fold_left (initPair (ch_Name c)) (pairs (ch_Nodes c)) (fold_left (initNode (ch_Name c)) (ch_Nodes c) m).

(** ** A round (run.go) *)
Record Report := mkReport { rp_Version : Z; rp_Count : Z; rp_Digest : string }.
#[export] Instance Report_eq_dec : EqDecision Report.
Proof. solve_decision. Defined.
Inductive tip_answer := Tip (height : Z) | ErrNoTip | TipErr (e : string).

(** Where a round looks at its context. *)
Inductive moment := AfterTip (i : nat) | AfterScans | AfterScan (i : nat).
(** What the sidecars answer in a round, by the index of the node, when its
    context is found cancelled, and the clock at its end. *)
Record world := mkWorld {
  w_Tip : nat -> tip_answer;
  w_Digest : nat -> Z -> string -> result Report;
  w_done : moment -> bool;
  w_now : Z;
}.
Definition wrap64 (z : Z) : Z := ((z + 2 ^ 63) mod 2 ^ 64 - 2 ^ 63)%Z.
Definition MaxInt64 : Z := (2 ^ 63 - 1)%Z.

Section Round.
Context (HeightLag : Z) (w : world) (chain : string).

Definition sourceError (at_ : moment) (n : Node) (reason : string) (m : Metrics) : Metrics :=
  if w_done w at_ then m
  else set_nodes (mt_SourceHeight m) (mt_ScannedHeight m) (inc (chain, node_label n, reason) (mt_SourceErrors m)) m.

(** The tips, from node [i]: the nodes that answered, and the lowest tip. *)
Fixpoint readTips (i : nat) (nodes : list Node) (live : list (nat * Node)) (minTip : Z) (m : Metrics)
    : list (nat * Node) * Z * Metrics :=
  match nodes with
  | [] => (live, minTip, m)
  | n :: nodes' =>
      match w_Tip w i with
      | Tip h =>
          readTips (S i) nodes' (live ++ [(i, n)]) (if (h <? minTip)%Z then h else minTip)
            (set_nodes (<[(chain, node_label n) := h]> (mt_SourceHeight m)) (mt_ScannedHeight m) (mt_SourceErrors m) m)
      | ErrNoTip => readTips (S i) nodes' live minTip (sourceError (AfterTip i) n ReasonNoTip m)
      | TipErr _ => readTips (S i) nodes' live minTip (sourceError (AfterTip i) n ReasonUnavailable m)
      end
  end.

(** The scans of the round, and what they report. *)
Definition scans (height : Z) (live : list (nat * Node)) : list (nat * Z * string) :=
  map (fun x => (x.1, height, nd_Backend x.2)) live.
Fixpoint collect (height : Z) (live : list (nat * Node)) (got : list (Node * Report)) (m : Metrics)
    : list (Node * Report) * Metrics :=
  match live with
  | [] => (got, m)
  | (i, n) :: live' =>
      match w_Digest w i height (nd_Backend n) with
      | Err _ => collect height live' got (sourceError (AfterScan i) n ReasonScanFailed m)
      | Ok r =>
          collect height live' (got ++ [(n, r)])
            (set_nodes (mt_SourceHeight m) (<[(chain, node_label n) := height]> (mt_ScannedHeight m)) (mt_SourceErrors m) m)
      end
  end.

Definition same_report (a b : Report) : bool :=
  (rp_Version a =? rp_Version b)%Z && (rp_Count a =? rp_Count b)%Z && (rp_Digest a =s rp_Digest b).
Definition recordPair (m : Metrics) (p : (Node * Report) * (Node * Report)) : Metrics :=
  if same_report p.1.2 p.2.2 then m
  else
    let k := (chain, node_label p.1.1, node_label p.2.1) in
    set_pairs (<[k := 1%Z]> (mt_Diverged m)) (inc k (mt_Mismatches m)) m.
Definition record (height : Z) (got : list (Node * Report)) (m : Metrics) : Metrics :=
  let m := fold_left recordPair (pairs got) m in
  set_chain (inc chain (mt_ComparedHeights m)) (<[chain := height]> (mt_LastComparedHeight m))
    (<[chain := w_now w]> (mt_LastComparedTimestamp m)) m.

(** The round: the scans it asks for, the new last height and the metrics. *)
Definition round (nodes : list Node) (lastHeight : Z) (m : Metrics) : list (nat * Z * string) * Z * Metrics :=
  let '(live, minTip, m) := readTips 0 nodes [] MaxInt64 m in
  if length live <? 2 then ([], lastHeight, m)
  else
    let height := wrap64 (minTip - HeightLag) in
    if (height <=? 0)%Z || (height <=? lastHeight)%Z then ([], lastHeight, m)
    else if w_done w AfterScans then (scans height live, lastHeight, m)
    else
      let '(got, m) := collect height live [] m in
      if length got <? 2 then (scans height live, lastHeight, m)
      else (scans height live, height, record height got m).
End Round.

(** [Run]: the chains are set up in turn, and then run rounds of their own. *)
Definition state := (gmap string Z * Metrics)%type.
Definition start (now : Z) (chains : list Chain) : state := (∅, fold_left (initChain now) chains NewMetrics).
Definition run_round (HeightLag : Z) (s : state) (x : Chain * world) : state :=
  let '(c, w) := x in
  let '(_, last, m) := round HeightLag w (ch_Name c) (ch_Nodes c) (default 0%Z (s.1 !! ch_Name c)) s.2 in
  (<[ch_Name c := last]> s.1, m).
Definition run_rounds (HeightLag : Z) (s : state) (xs : list (Chain * world)) : state := fold_left (run_round HeightLag) xs s.

(** ** What a round compares *)

(** The nodes whose tip was read, the lowest of their tips, and the reports of
    the scans that succeeded. *)
Definition answered (w : world) (i0 : nat) (nodes : list Node) : list (nat * Node * Z) :=
  omap (fun x => match w_Tip w x.1 with Tip h => Some (x, h) | _ => None end)
    (imap (fun i n => (i0 + i, n)) nodes).
Definition lowest (tips : list (nat * Node * Z)) : Z := foldr (fun x acc => Z.min x.2 acc) MaxInt64 tips.
Definition reported (w : world) (height : Z) (live : list (nat * Node)) : list (Node * Report) :=
  omap (fun x => match w_Digest w x.1 height (nd_Backend x.2) with Ok r => Some (x.2, r) | Err _ => None end) live.
Definition compared (HeightLag : Z) (w : world) (nodes : list Node) (last : Z) : option (Z * list (Node * Report)) :=
  let tips := answered w 0 nodes in
  let height := wrap64 (lowest tips - HeightLag) in
  let got := reported w height (map fst tips) in
  if (length tips <? 2) || (height <=? 0)%Z || (height <=? last)%Z || w_done w AfterScans || (length got <? 2)
  then None else Some (height, got).

(** The heights a chain has compared, with the reports. *)
Fixpoint history (HeightLag : Z) (c : Chain) (last : Z) (xs : list (Chain * world)) : list (Z * list (Node * Report)) :=
  match xs with
  | [] => []
  | (c', w) :: xs' =>
      if ch_Name c' =s ch_Name c then
        match compared HeightLag w (ch_Nodes c') last with
        | Some (h, got) => (h, got) :: history HeightLag c h xs'
        | None => history HeightLag c last xs'
        end
      else history HeightLag c last xs'
  end.
(** Two reports differ in one of the three fields that are compared. *)
Definition unlike (x y : Report) : Prop :=
  rp_Version x <> rp_Version y \/ rp_Count x <> rp_Count y \/ rp_Digest x <> rp_Digest y.
#[export] Instance unlike_dec x y : Decision (unlike x y).
Proof. unfold unlike. apply _. Defined.
(** Two nodes that both reported, and differently. *)
Definition differs (a b : Node) (got : list (Node * Report)) : bool :=
  existsb (fun x => existsb (fun y =>
    (node_label x.1 =s node_label a) && (node_label y.1 =s node_label b) && bool_decide (unlike x.2 y.2)) got) got.
Lemma same_report_unlike x y : negb (same_report x y) = bool_decide (unlike x y).
Proof.
  unfold same_report. symmetry. destruct (Z.eqb_spec (rp_Version x) (rp_Version y));
    [|by apply bool_decide_eq_true; left].
  destruct (Z.eqb_spec (rp_Count x) (rp_Count y)); [|by apply bool_decide_eq_true; right; left].
  destruct (String.eqb_spec (rp_Digest x) (rp_Digest y)); simpl;
    [apply bool_decide_eq_false; intros [?|[?|?]]; done|by apply bool_decide_eq_true; right; right].
Qed.

(** *** The loops *)
Definition same_outcome (m m' : Metrics) : Prop :=
  mt_Diverged m' = mt_Diverged m /\ mt_Mismatches m' = mt_Mismatches m /\
  mt_ComparedHeights m' = mt_ComparedHeights m /\ mt_LastComparedHeight m' = mt_LastComparedHeight m /\
  mt_LastComparedTimestamp m' = mt_LastComparedTimestamp m.
#[export] Instance same_outcome_trans : Transitive same_outcome.
Proof. intros m1 m2 m3 (? & ? & ? & ? & ?) (? & ? & ? & ? & ?). split_and!; congruence. Qed.
Lemma sourceError_outcome w chain at_ n reason m : same_outcome m (sourceError w chain at_ n reason m).
Proof. unfold sourceError. by case_match. Qed.

Lemma answered_cons w i0 n nodes :
  answered w i0 (n :: nodes) =
  match w_Tip w i0 with Tip h => (i0, n, h) :: answered w (S i0) nodes | _ => answered w (S i0) nodes end.
Proof.
  unfold answered. cbn [imap]. cbn [omap list_omap]. simpl. rewrite Nat.add_0_r.
  replace (imap _ nodes) with (imap (fun i n => (S i0 + i, n)) nodes)
    by (apply imap_ext; intros; simpl; by rewrite Nat.add_succ_r).
  by destruct (w_Tip w i0).
Qed.
Lemma readTips_spec w chain nodes : forall i live minTip m, (minTip <= MaxInt64)%Z ->
  exists m', readTips w chain i nodes live minTip m =
    (live ++ map fst (answered w i nodes), Z.min minTip (lowest (answered w i nodes)), m') /\ same_outcome m m'.
Proof.
  induction nodes as [|n nodes IH]; intros i live minTip m Hmin.
  - exists m. simpl. rewrite app_nil_r. split; [|done]. unfold lowest. simpl. by rewrite Z.min_l.
  - rewrite answered_cons. cbn [readTips]. destruct (w_Tip w i) as [h| |e].
    + edestruct (IH (S i) (live ++ [(i, n)]) (if (h <? minTip)%Z then h else minTip)) as (m' & -> & Hm).
      { destruct (Z.ltb_spec h minTip); lia. }
      exists m'. split; [|etrans; [|exact Hm]; done]. rewrite <-app_assoc. simpl. unfold lowest. simpl.
      do 2 f_equal. destruct (Z.ltb_spec h minTip); lia.
    + edestruct (IH (S i) live minTip) as (m' & -> & Hm); [done|].
      exists m'. split; [done|]. etrans; [apply sourceError_outcome|exact Hm].
    + edestruct (IH (S i) live minTip) as (m' & -> & Hm); [done|].
      exists m'. split; [done|]. etrans; [apply sourceError_outcome|exact Hm].
Qed.
Lemma collect_spec w chain height live : forall got m,
  exists m', collect w chain height live got m = (got ++ reported w height live, m') /\ same_outcome m m'.
Proof.
  induction live as [|[i n] live IH]; intros got m; [exists m; simpl; by rewrite app_nil_r|].
  unfold reported. cbn [collect omap list_omap]. simpl. destruct (w_Digest w i height (nd_Backend n)) as [r|e].
  - edestruct IH as (m' & -> & Hm). exists m'. split; [by rewrite <-app_assoc|]. etrans; [|exact Hm]. done.
  - edestruct IH as (m' & -> & Hm). exists m'. split; [done|]. etrans; [apply sourceError_outcome|exact Hm].
Qed.
Lemma lowest_le tips : (lowest tips <= MaxInt64)%Z.
Proof. induction tips; unfold lowest in *; simpl; lia. Qed.
Lemma round_spec lag w chain nodes last m :
  let '(calls, last', m') := round lag w chain nodes last m in
  exists m1, same_outcome m m1 /\
  match compared lag w nodes last with
  | Some (h, got) => last' = h /\ m' = record w chain h got m1
  | None => last' = last /\ m' = m1
  end.
Proof.
  unfold round, compared. destruct (readTips_spec w chain nodes 0 [] MaxInt64 m) as (m' & -> & Hm); [done|].
  rewrite Z.min_r by apply lowest_le. simpl. set (tips := answered w 0 nodes). rewrite length_map.
  destruct (length tips <? 2); [by exists m'|]. cbn [orb].
  set (h := wrap64 _). destruct (h <=? 0)%Z; [by exists m'|]. destruct (h <=? last)%Z; [by exists m'|]. cbn [orb].
  destruct (w_done w AfterScans); [by exists m'|]. cbn [orb].
  destruct (collect_spec w chain h (map fst tips) [] m') as (m2 & -> & Hm2). simpl.
  destruct (length (reported w h (map fst tips)) <? 2); [exists m2|exists m2]; (split; [by etrans|done]).
Qed.

(** *** Pairs *)
Lemma pairs_map {A B} (f : A -> B) l : pairs (map f l) = map (fun p => (f p.1, f p.2)) (pairs l).
Proof.
  induction l as [|a l IH]; [done|]. simpl. rewrite map_app, IH. f_equal. by rewrite !map_map.
Qed.
Lemma pairs_in {A} (l : list A) p : p ∈ pairs l -> p.1 ∈ l /\ p.2 ∈ l.
Proof.
  induction l as [|a l IH]; simpl; [by intros ?%not_elem_of_nil|].
  intros [Hp|Hp]%elem_of_app; rewrite !elem_of_cons.
  - apply list_elem_of_fmap in Hp as (b & -> & Hb). simpl. auto.
  - apply IH in Hp as [? ?]. auto.
Qed.
Lemma pairs_nodup {A} (l : list A) : NoDup l -> NoDup (pairs l).
Proof.
  induction 1 as [|a l Ha Hl IH]; [constructor|]. simpl. apply NoDup_app. split_and!; [| |done].
  - apply NoDup_fmap_2; [|done]. by intros x y [= ->].
  - intros p (b & -> & Hb)%list_elem_of_fmap Hp. apply pairs_in in Hp as [Hp _]. done.
Qed.
(** A sublist keeps the order of its elements. *)
Lemma pairs_sublist {A} (l' l : list A) a b :
  l' `sublist_of` l -> NoDup l -> (a, b) ∈ pairs l -> a ∈ l' -> b ∈ l' -> (a, b) ∈ pairs l'.
Proof.
  induction 1 as [|x l' l Hs IH|x l' l Hs IH]; intros Hn Hp Ha Hb; [done|..]; apply NoDup_cons in Hn as [Hx Hn];
    simpl in Hp; apply elem_of_app in Hp as [Hp|Hp].
  - apply list_elem_of_fmap in Hp as (y & [= -> ->] & Hy). simpl. apply elem_of_app. left.
    apply list_elem_of_fmap. exists y. split; [done|]. apply elem_of_cons in Hb as [->|Hb]; [done|done].
  - destruct (pairs_in _ _ Hp) as [Hal Hbl]. simpl in *. apply elem_of_app. right.
    apply elem_of_cons in Ha as [->|Ha]; [done|]. apply elem_of_cons in Hb as [->|Hb]; [done|]. by apply IH.
  - apply list_elem_of_fmap in Hp as (y & [= -> ->] & Hy). destruct Hx. eapply elem_of_submseteq; [exact Ha|by apply sublist_submseteq].
  - by apply IH.
Qed.

(** *** The reports of a round, by label *)
Definition labels (got : list (Node * Report)) : list string := map (fun x => node_label x.1) got.
Lemma reported_sublist w h i nodes :
  map fst (reported w h (map fst (answered w i nodes))) `sublist_of` nodes.
Proof.
  revert i. induction nodes as [|n nodes IH]; intros i; [constructor|]. rewrite answered_cons.
  destruct (w_Tip w i) as [t| |e]; [|by apply sublist_cons..].
  unfold reported in *. cbn [map omap list_omap fst]. simpl. destruct (w_Digest w i h (nd_Backend n)); simpl;
    [by apply sublist_skip|by apply sublist_cons].
Qed.
Lemma sublist_map {A B} (f : A -> B) l k : l `sublist_of` k -> map f l `sublist_of` map f k.
Proof. induction 1; simpl; by constructor. Qed.
Lemma labels_unique got x y :
  NoDup (labels got) -> x ∈ got -> y ∈ got -> node_label x.1 = node_label y.1 -> x = y.
Proof.
  induction got as [|z got IH]; intros Hn Hx Hy He; [by apply not_elem_of_nil in Hx|].
  simpl in Hn. apply NoDup_cons in Hn as [Hz Hn]. apply elem_of_cons in Hx as [->|Hx]; apply elem_of_cons in Hy as [->|Hy].
  - done.
  - destruct Hz. apply list_elem_of_fmap. by exists y.
  - destruct Hz. apply list_elem_of_fmap. by exists x.
  - by apply IH.
Qed.

Definition hit (la lb : string) (p : (Node * Report) * (Node * Report)) : bool :=
  (node_label p.1.1 =s la) && (node_label p.2.1 =s lb) && bool_decide (unlike p.1.2 p.2.2).
Lemma differs_hit a b got nodes :
  NoDup (map node_label nodes) -> map fst got `sublist_of` nodes -> (a, b) ∈ pairs nodes ->
  existsb (hit (node_label a) (node_label b)) (pairs got) = differs a b got.
Proof.
  intros Hn Hs Hab. apply eq_true_iff_eq. unfold differs. rewrite !existsb_exists. split.
  - intros (p & Hp & Hh). apply list_elem_of_In in Hp. destruct (pairs_in _ _ Hp) as [H1 H2].
    exists p.1. split; [by apply list_elem_of_In|]. apply existsb_exists. exists p.2. split; [by apply list_elem_of_In|].
    exact Hh.
  - intros (x & Hx & (y & Hy & Hh)%existsb_exists). apply list_elem_of_In in Hx, Hy.
    exists (x, y). split; [|exact Hh]. apply list_elem_of_In.
    apply andb_true_iff in Hh as [[Ex Ey]%andb_true_iff _]. apply String.eqb_eq in Ex, Ey.
    assert (Hls : labels got `sublist_of` map node_label nodes).
    { apply (sublist_map node_label) in Hs. unfold labels. by rewrite map_map in Hs. }
    assert (Hl : NoDup (labels got)) by (by eapply sublist_NoDup; [exact Hn|exact Hls]).
    assert (Hp : (node_label a, node_label b) ∈ pairs (labels got)).
    { apply (pairs_sublist _ (map node_label nodes)); [done|done| | |].
      - rewrite pairs_map. apply list_elem_of_fmap. by exists (a, b).
      - rewrite <-Ex. apply list_elem_of_fmap. by exists x.
      - rewrite <-Ey. apply list_elem_of_fmap. by exists y. }
    unfold labels in Hp. rewrite pairs_map in Hp. apply list_elem_of_fmap in Hp as ([x' y'] & [= E1 E2] & Hp).
    destruct (pairs_in _ _ Hp) as [Hx' Hy']. simpl in *.
    rewrite (labels_unique got x x'), (labels_unique got y y'); congruence.
Qed.

(** *** What a record writes *)
Definition pair_key (chain : string) (p : (Node * Report) * (Node * Report)) : string * string * string :=
  (chain, node_label p.1.1, node_label p.2.1).
Lemma hit_key chain la lb p : hit la lb p = true -> pair_key chain p = (chain, la, lb).
Proof.
  unfold hit, pair_key. intros [[Ha Hb]%andb_true_iff _]%andb_true_iff. apply String.eqb_eq in Ha, Hb. by subst.
Qed.
Lemma record_other chain ps m k :
  k.1.1 <> chain ->
  mt_Diverged (fold_left (recordPair chain) ps m) !! k = mt_Diverged m !! k /\
  mt_Mismatches (fold_left (recordPair chain) ps m) !! k = mt_Mismatches m !! k.
Proof.
  intros Hk. revert m. induction ps as [|p ps IH]; intros m; [done|]. simpl. destruct (IH (recordPair chain m p)) as [-> ->].
  unfold recordPair. destruct (same_report _ _); [done|]. simpl. unfold inc.
  rewrite !lookup_insert_ne by (intros <-; by apply Hk). done.
Qed.
Lemma record_pairs chain la lb ps m :
  NoDup (map (pair_key chain) ps) ->
  let k := (chain, la, lb) in
  let m' := fold_left (recordPair chain) ps m in
  mt_Diverged m' !! k = (if existsb (hit la lb) ps then Some 1%Z else mt_Diverged m !! k) /\
  mt_Mismatches m' !! k =
    (if existsb (hit la lb) ps then Some (default 0 (mt_Mismatches m !! k) + 1)%Z else mt_Mismatches m !! k).
Proof.
  revert m. induction ps as [|p ps IH]; intros m Hn; [done|]. simpl in Hn. apply NoDup_cons in Hn as [Hp Hn].
  simpl. destruct (IH (recordPair chain m p) Hn) as [-> ->]. clear IH.
  destruct (hit la lb p) eqn:Eh; simpl.
  - assert (Hno : existsb (hit la lb) ps = false).
    { apply not_true_iff_false. intros (q & Hq & Ehq)%existsb_exists. apply Hp.
      rewrite (hit_key chain _ _ _ Eh), <-(hit_key chain _ _ _ Ehq). apply list_elem_of_fmap.
      exists q. split; [done|]. by apply list_elem_of_In. }
    rewrite Hno. unfold recordPair. pose proof (hit_key chain _ _ _ Eh) as Hk. unfold pair_key in Hk.
    unfold hit in Eh. rewrite <-same_report_unlike in Eh. apply andb_true_iff in Eh as [_ Hs]. destruct (same_report _ _); [done|]. rewrite Hk. simpl.
    unfold inc. by rewrite !lookup_insert_eq.
  - assert (Hsame : mt_Diverged (recordPair chain m p) !! (chain, la, lb) = mt_Diverged m !! (chain, la, lb) /\
                    mt_Mismatches (recordPair chain m p) !! (chain, la, lb) = mt_Mismatches m !! (chain, la, lb)).
    { unfold recordPair. unfold hit in Eh. rewrite <-same_report_unlike in Eh. destruct (same_report p.1.2 p.2.2); [done|]. rewrite andb_true_r in Eh.
      simpl. unfold inc. rewrite !lookup_insert_ne; [done|intros [= E1 E2]..];
      by rewrite E1, E2, !String.eqb_refl in Eh. }
    destruct Hsame as [-> ->]. done.
Qed.
Lemma pair_keys_nodup chain got : NoDup (labels got) -> NoDup (map (pair_key chain) (pairs got)).
Proof.
  intros Hn. apply (NoDup_fmap_1 (fun k => (k.1.2, k.2))). rewrite <-list_fmap_compose.
  apply pairs_nodup in Hn. unfold labels in Hn. rewrite pairs_map in Hn. exact Hn.
Qed.

(** *** A valid configuration *)
Lemma validateNodes_ok i : forall nodes j seen,
  validateNodes i j seen nodes = Ok tt ->
  NoDup (map node_label nodes) /\ Forall (fun n => ~ node_label n ∈ seen) nodes /\
  Forall (fun n => Endpoint_validate (nd_Endpoint n) = Ok tt /\ nd_Backend n ∈ [BackendMemiavl; BackendComposite]) nodes.
Proof.
  induction nodes as [|n nodes IH]; intros j seen Hv; [split_and!; constructor|]. simpl in Hv.
  destruct (Endpoint_validate (nd_Endpoint n)) as [[]|] eqn:Ee; [|done]. simpl in Hv.
  destruct ((nd_Backend n =s BackendMemiavl) || (nd_Backend n =s BackendComposite)) eqn:Eb; [|done]. simpl in Hv.
  destruct (mem (node_label n) seen) eqn:Em; [done|]. destruct (IH _ _ Hv) as (Hn & Hs & Hf).
  split_and!; [| |constructor; [|done]].
  - simpl. constructor; [|done]. intros (m & Hm & Hin)%list_elem_of_fmap. rewrite Forall_forall in Hs.
    apply (Hs m Hin). rewrite <-Hm. by apply list_elem_of_here.
  - constructor; [intros ?%list_elem_of_In%mem_In; congruence|]. eapply Forall_impl; [exact Hs|]. intros m Hm ?.
    apply Hm. by apply list_elem_of_further.
  - split; [done|]. apply orb_true_iff in Eb as [->%String.eqb_eq| ->%String.eqb_eq]; set_solver.
Qed.
Definition valid_chain (c : Chain) : Prop :=
  ch_Name c <> "" /\ 2 <= length (ch_Nodes c) /\ NoDup (map node_label (ch_Nodes c)).
Lemma validateChains_ok : forall chains i seen,
  validateChains i seen chains = Ok tt ->
  NoDup (map ch_Name chains) /\ Forall (fun c => ~ ch_Name c ∈ seen) chains /\ Forall valid_chain chains.
Proof.
  induction chains as [|c chains IH]; intros i seen Hv; [split_and!; constructor|]. simpl in Hv.
  destruct (String.eqb_spec (ch_Name c) ""); [done|]. destruct (mem (ch_Name c) seen) eqn:Em; [done|].
  destruct (Nat.ltb_spec (length (ch_Nodes c)) 2) as [?|Hlen]; [done|].
  destruct (validateNodes i 0 [] (ch_Nodes c)) as [[]|] eqn:En; [|done]. simpl in Hv.
  apply validateNodes_ok in En as (Hnd & _ & _). destruct (IH _ _ Hv) as (Hn & Hs & Hf).
  split_and!; [| |by constructor].
  - simpl. constructor; [|done]. intros (d & Hd & Hin)%list_elem_of_fmap. rewrite Forall_forall in Hs.
    apply (Hs d Hin). rewrite <-Hd. by apply list_elem_of_here.
  - constructor; [intros ?%list_elem_of_In%mem_In; congruence|]. eapply Forall_impl; [exact Hs|]. intros d Hd ?.
    apply Hd. by apply list_elem_of_further.
Qed.
Lemma Config_Validate_ok chains :
  Config_Validate chains = Ok tt -> NoDup (map ch_Name chains) /\ Forall valid_chain chains.
Proof. destruct chains as [|c chains]; [done|]. intros (? & _ & ?)%validateChains_ok. done. Qed.

(** *** The series at the start *)
Definition zeros `{Countable K} (m : gmap K Z) : Prop := map_Forall (fun _ v => v = 0%Z) m.
Record fresh (m : Metrics) : Prop := {
  fr_diverged : zeros (mt_Diverged m); fr_mismatches : zeros (mt_Mismatches m); fr_compared : zeros (mt_ComparedHeights m);
  fr_height : mt_LastComparedHeight m = ∅;
}.
Lemma zeros_insert `{Countable K} (k : K) (m : gmap K Z) : zeros m -> zeros (<[k := 0%Z]> m).
Proof. intros Hm. by apply map_Forall_insert_2. Qed.
Lemma zeros_touch `{Countable K} (k : K) (m : gmap K Z) : zeros m -> zeros (touch k m).
Proof. intros Hm. unfold touch. case_match; [done|by apply zeros_insert]. Qed.
Lemma touch_some `{Countable K} (k : K) (m : gmap K Z) : is_Some (touch k m !! k).
Proof. unfold touch. destruct (m !! k) eqn:E; [by rewrite E|by rewrite lookup_insert_eq]. Qed.
Lemma touch_keeps `{Countable K} (k k' : K) (m : gmap K Z) : is_Some (m !! k') -> is_Some (touch k m !! k').
Proof.
  intros Hs. unfold touch. destruct (m !! k) eqn:E; [done|]. destruct (decide (k = k')) as [->|Hne];
  [by rewrite lookup_insert_eq|by rewrite lookup_insert_ne].
Qed.
Lemma insert_keeps `{Countable K} (k k' : K) v (m : gmap K Z) : is_Some (m !! k') -> is_Some (<[k := v]> m !! k').
Proof. intros Hs. destruct (decide (k = k')) as [->|Hne]; [by rewrite lookup_insert_eq|by rewrite lookup_insert_ne]. Qed.

(** The series that exist stay. *)
Definition grows (m m' : Metrics) : Prop :=
  (forall k, is_Some (mt_Diverged m !! k) -> is_Some (mt_Diverged m' !! k)) /\
  (forall k, is_Some (mt_Mismatches m !! k) -> is_Some (mt_Mismatches m' !! k)) /\
  (forall k, is_Some (mt_ComparedHeights m !! k) -> is_Some (mt_ComparedHeights m' !! k)).
#[export] Instance grows_trans : Transitive grows.
Proof. intros m1 m2 m3 (? & ? & ?) (? & ? & ?). split_and!; auto. Qed.
Lemma growing_refl m : grows m m.
Proof. by split_and!. Qed.

Lemma initNodes_fresh chain nodes : forall m, fresh m ->
  fresh (fold_left (initNode chain) nodes m) /\ grows m (fold_left (initNode chain) nodes m).
Proof.
  induction nodes as [|n nodes IH]; intros m Hm; simpl; [by split; [|apply growing_refl]|].
  destruct (IH (initNode chain m n)) as [Hf Hg]; [by destruct Hm; constructor|].
  split; [exact Hf|]. etrans; [|exact Hg]. by split_and!.
Qed.
Lemma initPairs_fresh chain ps : forall m, fresh m ->
  let m' := fold_left (initPair chain) ps m in
  fresh m' /\ grows m m' /\ Forall (fun p => let k := (chain, node_label p.1, node_label p.2) in
    is_Some (mt_Diverged m' !! k) /\ is_Some (mt_Mismatches m' !! k)) ps.
Proof.
  induction ps as [|p ps IH]; intros m Hm; simpl; [split_and!; [done|apply growing_refl|constructor]|].
  destruct (IH (initPair chain m p)) as (Hf & Hg & Hp).
  { destruct Hm. constructor; simpl; [by apply zeros_insert|by apply zeros_touch|done..]. }
  split_and!; [exact Hf| |constructor; [|exact Hp]].
  - etrans; [|exact Hg]. split_and!; simpl; intros k; [apply insert_keeps|apply touch_keeps|done].
  - destruct Hg as (Hd & Hx & _). split; [apply Hd; simpl; by rewrite lookup_insert_eq|apply Hx; simpl; apply touch_some].
Qed.
Lemma initChain_fresh now c m : fresh m ->
  let m' := initChain now m c in
  fresh m' /\ grows m m' /\ is_Some (mt_ComparedHeights m' !! ch_Name c) /\
  Forall (fun p => let k := (ch_Name c, node_label p.1, node_label p.2) in
    is_Some (mt_Diverged m' !! k) /\ is_Some (mt_Mismatches m' !! k)) (pairs (ch_Nodes c)).
Proof.
  intros Hm. unfold initChain. set (m0 := set_chain _ _ _ m).
  assert (H0 : fresh m0) by (destruct Hm; constructor; simpl; [done|done|by apply zeros_touch|done]).
  assert (G0 : grows m m0) by (split_and!; simpl; intros k; [done|done|apply touch_keeps]).
  assert (C0 : is_Some (mt_ComparedHeights m0 !! ch_Name c)) by apply touch_some.
  destruct (initNodes_fresh (ch_Name c) (ch_Nodes c) m0 H0) as [H1 G1].
  destruct (initPairs_fresh (ch_Name c) (pairs (ch_Nodes c)) _ H1) as (H2 & G2 & Hp).
  simpl. split_and!; [done| | |done].
  - etrans; [exact G0|]. by etrans.
  - apply G2, G1, C0.
Qed.
Lemma start_fresh now chains :
  let m := (start now chains).2 in
  fresh m /\ Forall (fun c => is_Some (mt_ComparedHeights m !! ch_Name c) /\
    Forall (fun p => let k := (ch_Name c, node_label p.1, node_label p.2) in
      is_Some (mt_Diverged m !! k) /\ is_Some (mt_Mismatches m !! k)) (pairs (ch_Nodes c))) chains.
Proof.
  unfold start. simpl. assert (Hn : fresh NewMetrics) by (constructor; try done; apply map_Forall_empty).
  revert Hn. generalize NewMetrics as m. induction chains as [|c chains IH]; intros m Hm; simpl; [by split|].
  destruct (initChain_fresh now c m Hm) as (H1 & G1 & C1 & P1). destruct (IH _ H1) as [H2 F2].
  split; [exact H2|]. constructor; [|exact F2].
  assert (G2 : forall cs m, fresh m -> grows m (fold_left (initChain now) cs m)).
  { clear. induction cs as [|d cs IHc]; intros m Hm; [apply growing_refl|]. simpl.
    destruct (initChain_fresh now d m Hm) as (Hf & Hg & _). etrans; [exact Hg|by apply IHc]. }
  destruct (G2 chains _ H1) as (GD & GX & GC). split; [by apply GC|].
  eapply Forall_impl; [exact P1|]. intros p [? ?]. split; [by apply GD|by apply GX].
Qed.

(** *** The rounds of a chain *)
Definition count_differs (a b : Node) (hist : list (Z * list (Node * Report))) : nat :=
  length (List.filter (fun e => differs a b e.2) hist).

(** The series of a chain after its history, from what they held before it. *)
Record series (c : Chain) (m m' : Metrics) (hist : list (Z * list (Node * Report))) : Prop := {
  se_pairs : forall a b, (a, b) ∈ pairs (ch_Nodes c) ->
    let k := (ch_Name c, node_label a, node_label b) in
    mt_Diverged m' !! k = (if existsb (fun e => differs a b e.2) hist then Some 1%Z else mt_Diverged m !! k) /\
    (forall x, mt_Mismatches m !! k = Some x -> mt_Mismatches m' !! k = Some (x + Z.of_nat (count_differs a b hist))%Z);
  se_compared : forall x, mt_ComparedHeights m !! ch_Name c = Some x ->
    mt_ComparedHeights m' !! ch_Name c = Some (x + Z.of_nat (length hist))%Z;
  se_height : mt_LastComparedHeight m' !! ch_Name c =
    match last hist with Some e => Some e.1 | None => mt_LastComparedHeight m !! ch_Name c end;
}.
Lemma series_same c m m' : same_outcome m m' -> series c m m' [].
Proof.
  intros (HD & HX & HC & HH & _). constructor.
  - intros a b _. simpl. rewrite HD, HX. split; [done|]. intros x ->. f_equal. unfold count_differs. simpl. lia.
  - intros x. rewrite HC. intros ->. f_equal. simpl. lia.
  - by rewrite HH.
Qed.
Lemma series_app c m1 m2 m3 h1 h2 : series c m1 m2 h1 -> series c m2 m3 h2 -> series c m1 m3 (h1 ++ h2).
Proof.
  intros [P1 C1 L1] [P2 C2 L2]. constructor.
  - intros a b Hab. destruct (P1 a b Hab) as [D1 X1], (P2 a b Hab) as [D2 X2]. split.
    + rewrite D2, D1, existsb_app. by destruct (existsb _ h1), (existsb _ h2).
    + intros x Hx. rewrite (X2 _ (X1 _ Hx)). unfold count_differs. rewrite List.filter_app, length_app. f_equal. lia.
  - intros x Hx. rewrite (C2 _ (C1 _ Hx)), length_app. f_equal. lia.
  - rewrite L2, L1, last_app. by destruct (last h2).
Qed.
Lemma series_record w c h nodes got m :
  NoDup (map node_label (ch_Nodes c)) -> nodes = ch_Nodes c -> map fst got `sublist_of` nodes ->
  series c m (record w (ch_Name c) h got m) [(h, got)].
Proof.
  intros Hn -> Hs. assert (Hl : NoDup (labels got)).
  { eapply sublist_NoDup; [exact Hn|]. apply (sublist_map node_label) in Hs. unfold labels. by rewrite map_map in Hs. }
  constructor.
  - intros a b Hab. unfold record. simpl.
    destruct (record_pairs (ch_Name c) (node_label a) (node_label b) (pairs got) m (pair_keys_nodup _ _ Hl)) as [HD HX].
    rewrite HD, HX, (differs_hit a b got (ch_Nodes c)) by done. unfold count_differs. simpl. rewrite orb_false_r.
    split; [done|]. intros x ->. destruct (differs a b got); simpl; f_equal; lia.
  - intros x Hx. unfold record. simpl. unfold inc.
    assert (HC : forall ps m, mt_ComparedHeights (fold_left (recordPair (ch_Name c)) ps m) = mt_ComparedHeights m).
    { clear. induction ps as [|p ps IH]; intros m; [done|]. simpl. rewrite IH. unfold recordPair. by case_match. }
    rewrite HC, Hx. by rewrite lookup_insert_eq.
  - unfold record. simpl. by rewrite lookup_insert_eq.
Qed.
Lemma series_other c m m1 w chain h got :
  chain <> ch_Name c -> same_outcome m m1 -> series c m (record w chain h got m1) [].
Proof.
  intros Hne (HD & HX & HC & HH & _).
  assert (HE : forall ps m, mt_ComparedHeights (fold_left (recordPair chain) ps m) = mt_ComparedHeights m /\
                            mt_LastComparedHeight (fold_left (recordPair chain) ps m) = mt_LastComparedHeight m).
  { clear. induction ps as [|p ps IH]; intros m; [done|]. simpl. destruct (IH (recordPair chain m p)) as [-> ->].
    unfold recordPair. by case_match. }
  destruct (HE (pairs got) m1) as [E1 E2]. constructor.
  - intros a b _. unfold record. simpl.
    destruct (record_other chain (pairs got) m1 (ch_Name c, node_label a, node_label b)) as [-> ->]; [simpl; congruence|].
    rewrite HD, HX. split; [done|]. intros x ->. f_equal. unfold count_differs. simpl. lia.
  - intros x. unfold record. simpl. unfold inc. rewrite lookup_insert_ne, E1, HC by done. intros ->. f_equal. simpl. lia.
  - unfold record. simpl. by rewrite lookup_insert_ne, E2, HH.
Qed.

Lemma same_chain config c c' :
  NoDup (map ch_Name config) -> c ∈ config -> c' ∈ config -> ch_Name c' = ch_Name c -> c' = c.
Proof.
  induction config as [|d config IH]; intros Hn Hc Hc' He; [by apply not_elem_of_nil in Hc|].
  simpl in Hn. apply NoDup_cons in Hn as [Hd Hn].
  apply elem_of_cons in Hc as [->|Hc]; apply elem_of_cons in Hc' as [->|Hc']; [done| | |by apply IH].
  - destruct Hd. apply list_elem_of_fmap. by exists c'.
  - destruct Hd. apply list_elem_of_fmap. by exists c.
Qed.
Lemma compared_sublist lag w nodes last h got : compared lag w nodes last = Some (h, got) -> map fst got `sublist_of` nodes.
Proof.
  unfold compared. destruct (_ || _); [done|]. intros [= <- <-]. apply reported_sublist.
Qed.
Lemma run_rounds_series lag config c xs : forall s,
  NoDup (map ch_Name config) -> Forall valid_chain config -> c ∈ config -> Forall (fun x => x.1 ∈ config) xs ->
  series c s.2 (run_rounds lag s xs).2 (history lag c (default 0%Z (s.1 !! ch_Name c)) xs).
Proof.
  induction xs as [|[c' w] xs IH]; intros s Hn Hv Hc Hxs; [by apply series_same|].
  apply Forall_cons in Hxs as [Hc' Hxs]. simpl in Hc'. cbn [run_rounds fold_left history].
  set (s1 := run_round lag s (c', w)). specialize (IH s1 Hn Hv Hc Hxs).
  assert (Hstep : s1 = run_round lag s (c', w)) by done. clearbody s1. unfold run_round in Hstep.
  pose proof (round_spec lag w (ch_Name c') (ch_Nodes c') (default 0%Z (s.1 !! ch_Name c')) s.2) as Hr.
  destruct (round _ _ _ _ _ _) as [[calls last'] m']. destruct Hr as (m1 & Hm1 & Hr).
  destruct (String.eqb_spec (ch_Name c') (ch_Name c)) as [He|Hne].
  - assert (c' = c) as -> by (by eapply same_chain). rewrite Hstep in IH. simpl in IH. rewrite lookup_insert_eq in IH. simpl in IH.
    destruct (compared lag w (ch_Nodes c) _) as [[h got]|] eqn:Ec; destruct Hr as [-> ->].
    + change ((h, got) :: history lag c h xs) with ([(h, got)] ++ history lag c h xs).
      eapply series_app; [|rewrite Hstep; exact IH].
      rewrite Forall_forall in Hv. destruct (Hv c Hc) as (_ & _ & Hnd).
      change [(h, got)] with ([] ++ [(h, got)]). eapply series_app; [by apply series_same|].
      eapply series_record; [done|done|by eapply compared_sublist].
    + change (history lag c (default 0%Z (s.1 !! ch_Name c)) xs) with ([] ++ history lag c (default 0%Z (s.1 !! ch_Name c)) xs).
      eapply series_app; [by apply series_same|rewrite Hstep; exact IH].
  - rewrite Hstep in IH. simpl in IH. rewrite lookup_insert_ne in IH by done.
    change (history lag c (default 0%Z (s.1 !! ch_Name c)) xs) with ([] ++ history lag c (default 0%Z (s.1 !! ch_Name c)) xs).
    eapply series_app; [|rewrite Hstep; exact IH].
    destruct (compared _ _ _ _) as [[h got]|]; destruct Hr as [-> ->]; [by apply series_other|by apply series_same].
Qed.

(** *** Where a history comes from *)
Lemma compared_height lag w nodes last h got :
  compared lag w nodes last = Some (h, got) -> (last < h)%Z /\ (0 < h)%Z.
Proof.
  unfold compared. destruct (_ || _) eqn:E; [done|]. intros [= <- <-].
  apply orb_false_iff in E as [[[[_ E1]%orb_false_iff E2]%orb_false_iff _]%orb_false_iff _].
  apply Z.leb_gt in E1, E2. done.
Qed.
Lemma history_sorted lag c xs : forall last,
  StronglySorted Z.lt (map fst (history lag c last xs)) /\ Forall (fun e => last < e.1 /\ 0 < e.1)%Z (history lag c last xs).
Proof.
  induction xs as [|[c' w] xs IH]; intros last; [split; constructor|]. simpl.
  destruct (ch_Name c' =s ch_Name c); [|apply IH].
  destruct (compared lag w (ch_Nodes c') last) as [[h got]|] eqn:Ec; [|apply IH].
  destruct (compared_height _ _ _ _ _ _ Ec) as [Hl Hp]. destruct (IH h) as [Hs Hf]. split; simpl.
  - constructor; [exact Hs|]. rewrite Forall_map. eapply Forall_impl; [exact Hf|]. by intros e [? _].
  - constructor; [done|]. eapply Forall_impl; [exact Hf|]. intros e [? ?]. simpl in *. lia.
Qed.
Lemma answered_in w i0 nodes x : x ∈ answered w i0 nodes ->
  exists i, x.1.1 = i0 + i /\ nodes !! i = Some x.1.2 /\ w_Tip w x.1.1 = Tip x.2.
Proof.
  revert i0. induction nodes as [|n nodes IH]; intros i0 Hx; [by apply not_elem_of_nil in Hx|].
  rewrite answered_cons in Hx. assert (Hrec : x ∈ answered w (S i0) nodes ->
    exists i, x.1.1 = i0 + i /\ (n :: nodes) !! i = Some x.1.2 /\ w_Tip w x.1.1 = Tip x.2).
  { intros (i & E & Hi & Ht)%IH. exists (S i). split_and!; [lia|done|done]. }
  destruct (w_Tip w i0) eqn:Et; [|by apply Hrec..]. apply elem_of_cons in Hx as [->|Hx]; [|by apply Hrec].
  exists 0. simpl. split_and!; [lia|done|done].
Qed.
Lemma lowest_min tips x : x ∈ tips -> (lowest tips <= x.2)%Z.
Proof.
  induction tips as [|y tips IH]; [by intros ?%not_elem_of_nil|]. unfold lowest in *. simpl.
  intros [->|Hx]%elem_of_cons; [lia|]. specialize (IH Hx). lia.
Qed.
Lemma answered_all w i0 nodes i h : i < length nodes -> w_Tip w (i0 + i) = Tip h ->
  exists n, (i0 + i, n, h) ∈ answered w i0 nodes.
Proof.
  revert i0 i. induction nodes as [|n nodes IH]; intros i0 i Hi Ht; simpl in Hi; [lia|]. rewrite answered_cons.
  destruct i as [|i].
  - rewrite Nat.add_0_r in *. rewrite Ht. exists n. apply list_elem_of_here.
  - rewrite <-Nat.add_succ_comm in *. destruct (IH (S i0) i ltac:(lia) Ht) as (n' & Hin). exists n'.
    destruct (w_Tip w i0); [by apply list_elem_of_further|done..].
Qed.

(** A report of a compared height is what the node's scan at that height
    returned. *)
Definition scanned (c : Chain) (w : world) (e : Z * list (Node * Report)) : Prop :=
  Forall (fun x => exists i, ch_Nodes c !! i = Some x.1 /\ w_Digest w i e.1 (nd_Backend x.1) = Ok x.2) e.2.
(** A height is under every tip that was read, by the lag. *)
Definition under_tips (lag : Z) (c : Chain) (w : world) (height : Z) : Prop :=
  forall i h, i < length (ch_Nodes c) -> w_Tip w i = Tip h -> (height + lag <= h)%Z.
Definition no_negative_tip (w : world) : Prop := forall i h, w_Tip w i = Tip h -> (0 <= h)%Z.
Lemma wrap64_id z : (- 2 ^ 63 <= z < 2 ^ 63)%Z -> wrap64 z = z.
Proof. intros Hz. unfold wrap64. rewrite Z.mod_small; lia. Qed.
Lemma compared_scanned lag c w last e :
  compared lag w (ch_Nodes c) last = Some e ->
  scanned c w e /\ ((0 <= lag < 2 ^ 63)%Z -> no_negative_tip w -> under_tips lag c w e.1).
Proof.
  unfold compared. destruct (_ || _); [done|]. intros [= <-]. split; simpl.
  - apply Forall_forall. intros [n r] Hin. unfold reported in Hin. apply list_elem_of_omap in Hin as ([i n'] & Hin & Hr).
    simpl in Hr. destruct (w_Digest w i _ _) as [r'|] eqn:Ed; [|done]. injection Hr as -> ->.
    apply list_elem_of_fmap in Hin as ([[i' n''] h] & [= -> ->] & Hin). apply answered_in in Hin as (j & E & Hj & _).
    simpl in *. subst. by exists j.
  - intros Hlag Hpos i h Hi Ht. destruct (answered_all w 0 (ch_Nodes c) i h Hi Ht) as (n & Hin).
    apply lowest_min in Hin. simpl in Hin.
    assert (H0 : (0 <= lowest (answered w 0 (ch_Nodes c)))%Z).
    { assert (Hall : Forall (fun x => (0 <= x.2)%Z) (answered w 0 (ch_Nodes c)))
        by (apply Forall_forall; intros x (j & _ & _ & Hx)%answered_in; by apply (Hpos x.1.1)).
      clear -Hall. unfold lowest. induction Hall; simpl; [done|]. by apply Z.min_glb. }
    pose proof (lowest_le (answered w 0 (ch_Nodes c))). rewrite wrap64_id; unfold MaxInt64 in *; lia.
Qed.
Lemma history_scanned lag config c xs : forall last,
  NoDup (map ch_Name config) -> c ∈ config -> Forall (fun x => x.1 ∈ config) xs ->
  Forall (fun e => exists w, (c, w) ∈ xs /\ scanned c w e /\
    ((0 <= lag < 2 ^ 63)%Z -> no_negative_tip w -> under_tips lag c w e.1)) (history lag c last xs).
Proof.
  induction xs as [|[c' w] xs IH]; intros last Hn Hc Hxs; [constructor|]. apply Forall_cons in Hxs as [Hc' Hxs]. simpl.
  assert (Hrec : forall l, Forall (fun e => exists w', (c, w') ∈ (c', w) :: xs /\ scanned c w' e /\
    ((0 <= lag < 2 ^ 63)%Z -> no_negative_tip w' -> under_tips lag c w' e.1)) (history lag c l xs)).
  { intros l. eapply Forall_impl; [by apply IH|]. intros e (w' & Hw & Hs). exists w'. split; [by apply list_elem_of_further|done]. }
  destruct (String.eqb_spec (ch_Name c') (ch_Name c)) as [He|Hne]; [|apply Hrec].
  assert (c' = c) as -> by (by eapply same_chain).
  destruct (compared lag w (ch_Nodes c) last) as [[h got]|] eqn:Ec; [|apply Hrec].
  constructor; [|apply Hrec]. exists w. split; [apply list_elem_of_here|by eapply compared_scanned].
Qed.

(** C34: Over any rounds of a valid configuration, the chains' rounds interleaved and the
    sidecars answering as they like, the metrics of a chain tell its history exactly: a
    pair's diverged gauge is 1 when a compared height had both nodes report, with a
    different version, entry count or digest, and stays 1; its mismatch counter counts
    those heights; each height is compared once, in growing order; and every report
    compared is what that node's scan returned at that height. Where the configured lag
    is in [0, 2^63) and no sidecar of the round reports a negative tip, the height lies
    under all tips that were read, by the lag. *)
Theorem digest_rounds_exact (lag now : Z) (config : list Chain) (c : Chain) (xs : list (Chain * world)) :
  Config_Validate config = Ok tt -> c ∈ config -> Forall (fun x => x.1 ∈ config) xs ->
  let m := (run_rounds lag (start now config) xs).2 in
  let hist := history lag c 0 xs in
  (forall a b, (a, b) ∈ pairs (ch_Nodes c) ->
     let k := (ch_Name c, node_label a, node_label b) in
     mt_Diverged m !! k = Some (if existsb (fun e => differs a b e.2) hist then 1 else 0)%Z /\
     mt_Mismatches m !! k = Some (Z.of_nat (count_differs a b hist))) /\
  mt_ComparedHeights m !! ch_Name c = Some (Z.of_nat (length hist)) /\
  mt_LastComparedHeight m !! ch_Name c = fst <$> last hist /\
  StronglySorted Z.lt (map fst hist) /\
  Forall (fun e => (0 < e.1)%Z /\ exists w, (c, w) ∈ xs /\ scanned c w e /\
    ((0 <= lag < 2 ^ 63)%Z -> no_negative_tip w -> under_tips lag c w e.1)) hist.
Proof.
  intros Hv Hc Hxs. destruct (Config_Validate_ok _ Hv) as [Hn Hvc].
  pose proof (run_rounds_series lag config c xs (start now config) Hn Hvc Hc Hxs) as [HP HC HH].
  destruct (start_fresh now config) as [[FD FX FC FH] HS].
  rewrite Forall_forall in HS. destruct (HS c Hc) as [[x Hx] Hps].
  change (default 0%Z ((start now config).1 !! ch_Name c)) with 0%Z in *. cbv zeta. split_and!.
  - intros a b Hab. destruct (HP a b Hab) as [HD HX]. rewrite Forall_forall in Hps.
    destruct (Hps (a, b) Hab) as [[d Hd] [y Hy]]. cbn [fst snd] in Hd, Hy. split.
    + rewrite HD, Hd. rewrite (FD _ _ Hd). by destruct (existsb _ _).
    + rewrite (HX y Hy). f_equal. rewrite (FX _ _ Hy). lia.
  - rewrite (HC x Hx). f_equal. rewrite (FC _ _ Hx). lia.
  - rewrite HH, FH. destruct (last _); [done|]. apply lookup_empty.
  - apply history_sorted.
  - apply Forall_forall. intros e He. destruct (history_sorted lag c xs 0) as [_ Hpos].
    pose proof (history_scanned lag config c xs 0 Hn Hc Hxs) as Hsc.
    rewrite Forall_forall in Hpos, Hsc. destruct (Hpos e He) as [_ ?]. split; [done|by apply Hsc].
Qed.

(** ** One node's sidecar (source.go) *)
Definition Report_final_field `{RpcTexts} (k : string) (v : jval) (o : Report) : result Report :=
  if k =s "count" then field_of decode_uint64 rp_Count (fun x => mkReport (rp_Version o) x (rp_Digest o)) v o
  else if k =s "digest" then field_of decode_string rp_Digest (fun x => mkReport (rp_Version o) (rp_Count o) x) v o
  else Ok o.
Definition Report_field `{RpcTexts} (k : string) (v : jval) (o : Report) : result Report :=
  if k =s "version" then field_of decode_int64 rp_Version (fun x => mkReport x (rp_Count o) (rp_Digest o)) v o
  else if k =s "final" then decode_struct Report_final_field v o
  else Ok o.
Definition zero_report : Report := mkReport 0 0 "".
Definition decode_report `{RpcTexts} (raw : raw_json) : result Report := decode_raw Report_field raw zero_report.

Inductive TaskStatus := Running | Completed | Failed.
Record TaskResult := mkTaskResult { tr_Status : TaskStatus; tr_Result : option raw_json; tr_Error : option string }.
Inductive get_answer := GetErr (not_found : bool) | GotTask (r : TaskResult).
(** A turn of the poll: the context is done, or the ticker fires and the task is read. *)
Inductive wake := CtxDone (e : string) | Ticked (a : get_answer).
Inductive call := Submit (r : TaskRequest) | Get (id : string) | Delete (id : string).

Section Source.
Context `{RpcTexts}.

Fixpoint poll_task (id : string) (wakes : list wake) : list call * option (result Report) :=
  match wakes with
  | [] => ([], None)
  | CtxDone e :: _ => ([], Some (Err ("evm-digest task " +:+ id +:+ ": " +:+ e)))
  | Ticked (GetErr true) :: _ => ([Get id], Some (Err ("evm-digest task " +:+ id +:+ " vanished mid-scan")))
  | Ticked (GetErr false) :: wakes' => let '(cs, r) := poll_task id wakes' in (Get id :: cs, r)
  | Ticked (GotTask t) :: wakes' =>
      match tr_Status t with
      | Completed =>
          ([Get id], Some match tr_Result t with
                          | None => Err "evm-digest task completed with no result"
                          | Some raw => wrap_err "evm-digest task result is not a report: " (decode_report raw)
                          end)
      | Failed => ([Get id], Some (Err ("evm-digest task failed: " +:+ default "no error detail" (tr_Error t))))
      | Running => let '(cs, r) := poll_task id wakes' in (Get id :: cs, r)
      end
  end.
(** What one attempt meets: the answer to its submission, its polls, then the
    error of the context after it and during the pause. *)
Record attempt := mkAttempt {
  at_submit : result string; at_wakes : list wake; at_ctx : option string; at_pause : option string;
}.
Definition digestOnce (height : Z) (backend : string) (a : attempt) : list call * option (result Report) :=
  let submit := Submit (EVMDigest_request (mkEVMDigest height backend "")) in
  match at_submit a with
  | Err e => ([submit], Some (Err e))
  | Ok id =>
      let '(cs, r) := poll_task id (at_wakes a) in
      (submit :: cs ++ match r with Some _ => [Delete id] | None => [] end, r)
  end.
Fixpoint attempt_loop (n : nat) (height : Z) (backend : string) (env : list attempt) (lastErr : string)
    : list call * option (result Report) :=
  match n with
  | O => ([], Some (Err lastErr))
  | S n' =>
      match env with
      | [] => ([], None)
      | a :: env' =>
          let '(cs, r) := digestOnce height backend a in
          match r with
          | None => (cs, None)
          | Some (Ok report) => (cs, Some (Ok report))
          | Some (Err e) =>
              match at_ctx a, at_pause a with
              | Some ce, _ => (cs, Some (Err ce))
              | None, Some pe => (cs, Some (Err pe))
              | None, None => let '(cs', r') := attempt_loop n' height backend env' e in (cs ++ cs', r')
              end
          end
      end
  end.
Definition max_attempts (Attempts : Z) : nat := Z.to_nat (Z.max Attempts 1).
Definition Digest (Attempts : Z) (height : Z) (backend : string) (env : list attempt) : list call * option (result Report) :=
  attempt_loop (max_attempts Attempts) height backend env "".
End Source.

(** [Tip]: the height of the sidecar's status. *)
Definition SidecarSource_Tip (status : result (option Z)) : tip_answer :=
  match status with Err e => TipErr e | Ok None => ErrNoTip | Ok (Some h) => Tip h end.

(** ** The evm-digest task (src/sidecar/tasks/evm_digest.go) *)
Definition DefaultEVMDigestOpenMode := "changelog".
Definition evmDigestBackendMemiavl := "memiavl".
Definition evmDigestBackendComposite := "composite".
(** What seidb printed, and the error of its run. *)
Record seidb_run := mkRun { sd_stdout : raw_json; sd_stderr : string; sd_err : option string }.
Definition take_last (n : nat) (s : string) : string := String.substring (String.length s - n) n s.
Definition stderrTail (stderr : string) : string :=
  let trimmed := TrimSpace stderr in
  if trimmed =s "" then "" else ": " +:+ (if 2048 <? String.length trimmed then take_last 2048 trimmed else trimmed).
Definition parseEVMDigestReport `{RpcTexts} (stdout : raw_json) : result Report :=
  report ← wrap_err "seidb output is not a JSON report: " (decode_report stdout);
  if (rp_Version report =? 0)%Z then Err "seidb report has no version"
  else if rp_Digest report =s "" then Err "seidb report has no final.digest"
  else Ok report.

Section Digester.
Context `{RpcTexts} (home : list string) (dirExists : list string -> bool) (run : list string -> seidb_run).

Definition dataDir : list string := Join home "data".
Definition memiavlDir : result (list string) :=
  if dirExists (Join (Join dataDir "committer.db") "current") then Ok (Join dataDir "committer.db")
  else
    let dir := Join (Join dataDir "state_commit") "memiavl" in
    if dirExists dir then Ok dir else Err ("evm-digest: no memiavl store under " +:+ path_text dataDir).
Definition flatkvDir : result (list string) :=
  if dirExists (Join (Join dataDir "flatkv") "current") then Ok (Join dataDir "flatkv")
  else
    let dir := Join (Join dataDir "state_commit") "flatkv" in
    if dirExists dir then Ok dir
    else Err ("evm-digest: no flatkv store under " +:+ path_text dataDir +:+ " (node not migrating?)").
Definition digest_args (p : EVMDigestRequest) : result (list string) :=
  let openMode := if ed_OpenMode p =s "" then DefaultEVMDigestOpenMode else ed_OpenMode p in
  let args := ["evm-logical-digest"; "--memiavl-open-mode"; openMode; "--height"; pretty (ed_Height p); "--json"] in
  if (ed_Height p <=? 0)%Z then Err "evm-digest: height required (must be > 0)"
  else if ed_Backend p =s evmDigestBackendMemiavl then
    dir ← memiavlDir; Ok (args ++ ["--backend"; "memiavl"; "--db-dir"; path_text dir])
  else if ed_Backend p =s evmDigestBackendComposite then
    flatkv ← flatkvDir; memiavl ← memiavlDir;
    Ok (args ++ ["--backend"; "composite"; "--flatkv-dir"; path_text flatkv; "--memiavl-dir"; path_text memiavl])
  else Err ("evm-digest: backend must be " +:+ evmDigestBackendMemiavl +:+ " or " +:+ evmDigestBackendComposite).
(** The runs of seidb, and the result; [cancelled]: the context ends while
    another scan holds the semaphore. *)
Definition digest (cancelled : option string) (p : EVMDigestRequest) : list (list string) * result raw_json :=
  match digest_args p with
  | Err e => ([], Err e)
  | Ok args =>
      match cancelled with
      | Some e => ([], Err e)
      | None =>
          let out := run args in
          ([args], match sd_err out with
                   | Some e => Err ("evm-digest: seidb failed: " +:+ e +:+ stderrTail (sd_stderr out))
                   | None => _ ← wrap_err "evm-digest: " (parseEVMDigestReport (sd_stdout out)); Ok (sd_stdout out)
                   end)
      end
  end.

End Digester.

(** ** The attempts of a node *)
Section Attempts.
Context `{RpcTexts}.
Definition digest_request (height : Z) (backend : string) : call := Submit (EVMDigest_request (mkEVMDigest height backend "")).
(** An attempt whose submission failed calls nothing else; one whose submission
    returned an ID reads that task, and deletes it last. *)
Definition attempt_calls (height : Z) (backend : string) (a : attempt) (b : list call) : Prop :=
  match at_submit a with
  | Err _ => b = [digest_request height backend]
  | Ok id => exists n, b = digest_request height backend :: repeat (Get id) n ++ [Delete id]
  end.
(** The context of an attempt ends: it has a timeout. *)
Definition ends (a : attempt) : Prop := exists e, CtxDone e ∈ at_wakes a.
(** The report is the result of a task that this attempt submitted. *)
Definition from_task (env : list attempt) (report : Report) : Prop :=
  exists a id raw e, a ∈ env /\ at_submit a = Ok id /\
    Ticked (GotTask (mkTaskResult Completed (Some raw) e)) ∈ at_wakes a /\ decode_report raw = Ok report.

Lemma poll_task_answers id wakes e : CtxDone e ∈ wakes ->
  exists n r, poll_task id wakes = (repeat (Get id) n, Some r) /\
    forall report, r = Ok report -> exists raw err,
      Ticked (GotTask (mkTaskResult Completed (Some raw) err)) ∈ wakes /\ decode_report raw = Ok report.
Proof.
  induction wakes as [|w wakes IH]; [by intros ?%not_elem_of_nil|]. intros Hw. simpl.
  destruct w as [e'|[[]|[[] res err]]]; simpl.
  1: by (exists 0; eexists; split).
  1: by (exists 1; eexists; split).
  1-2: apply elem_of_cons in Hw as [?|Hw]; [done|]; destruct (IH Hw) as (n & r & -> & Hr); exists (S n), r;
    (split; [done|]); intros report Er; destruct (Hr report Er) as (raw & er & Hin & Hd); exists raw, er;
    (split; [by apply list_elem_of_further|done]).
  - exists 1. eexists. split; [done|]. intros report Er. destruct res as [raw|]; [|done].
    exists raw, err. split; [apply list_elem_of_here|]. by destruct (decode_report raw).
  - by (exists 1; eexists; split).
Qed.
Lemma digestOnce_answers height backend a : ends a ->
  exists cs r, digestOnce height backend a = (cs, Some r) /\ attempt_calls height backend a cs /\
    forall report, r = Ok report -> from_task [a] report.
Proof.
  intros [e He]. unfold digestOnce, attempt_calls. destruct (at_submit a) as [id|err] eqn:Es.
  - destruct (poll_task_answers id _ _ He) as (n & r & -> & Hr). eexists _, r. split_and!; [done|by exists n|].
    intros report Er. destruct (Hr report Er) as (raw & err & Hin & Hd). exists a, id, raw, err.
    split_and!; [apply list_elem_of_here|done..].
  - by eexists _, _.
Qed.

(** C36: With a timeout on each attempt, [Digest] answers: after at most [Attempts]
    submissions (one, if that is less). The calls of an attempt whose submission
    failed are the submission alone; those of one that got a task ID are the submission,
    reads of that task and, last, its deletion, however the attempt ended, before the
    next submission and before the answer. A report it returns is the result of a task
    one of these attempts submitted and saw completed. *)
Theorem digest_cleans_up (Attempts height : Z) (backend : string) (env : list attempt) :
  max_attempts Attempts <= length env -> Forall ends env ->
  exists blocks r, Digest Attempts height backend env = (concat blocks, Some r) /\
    1 <= length blocks <= max_attempts Attempts /\
    Forall2 (attempt_calls height backend) (take (length blocks) env) blocks /\
    forall report, r = Ok report -> from_task (take (length blocks) env) report.
Proof.
  intros Hlen He. unfold Digest. assert (H1 : 1 <= max_attempts Attempts) by (unfold max_attempts; lia).
  revert H1 Hlen. generalize (max_attempts Attempts) as n. generalize "" as lastErr.
  induction He as [|a env Ha He IH]; intros lastErr n H1 Hlen; simpl in Hlen; [lia|].
  destruct n as [|n]; [lia|]. simpl. destruct (digestOnce_answers height backend a Ha) as (cs & r & -> & Hcs & Hr).
  assert (Hone : forall r', (forall report, r' = Ok report -> from_task [a] report) ->
    exists blocks r'', (cs, Some r') = (concat blocks, Some r'') /\ 1 <= length blocks <= S n /\
      Forall2 (attempt_calls height backend) (take (length blocks) (a :: env)) blocks /\
      forall report, r'' = Ok report -> from_task (take (length blocks) (a :: env)) report).
  { intros r' Hr'. exists [cs], r'. simpl. rewrite app_nil_r, take_0.
    split_and!; [done|lia|lia|by constructor|exact Hr']. }
  destruct r as [report|e]; [by apply Hone|].
  destruct (at_ctx a) as [ce|]; [by apply Hone|]. destruct (at_pause a) as [pe|]; [by apply Hone|].
  destruct n as [|n]; [simpl; rewrite app_nil_r; by apply Hone|].
  destruct (IH e (S n)) as (blocks & r & -> & Hb & Hall & Hrep); [lia..|].
  exists (cs :: blocks), r. simpl. split_and!; [done|lia|lia|by constructor|].
  intros report Er. destruct (Hrep report Er) as (a' & id & raw & e' & Hin & ?). exists a', id, raw, e'.
  split; [by apply list_elem_of_further|done].
Qed.

(** ** From the comparator to seidb and back *)
Definition digest_command (height : Z) (backend : string) (dirs : list string) : list string :=
  ["evm-logical-digest"; "--memiavl-open-mode"; "changelog"; "--height"; pretty height; "--json"; "--backend"; backend] ++ dirs.

End Attempts.

Section EndToEnd.
Context `{SC : SeiConfig} (home : list string) (dirExists : list string -> bool) (run : list string -> seidb_run).

(** C35: A digest the comparator asks of a node is delivered to the node's sidecar as
    asked; if its task completes, seidb was run once, at that height and with that
    backend, and printed a report that has a version and a digest; and the report the
    comparator reads off the task's result is that one. *)
Theorem evm_digest_end_to_end (height : Z) (backend id : string) (polls : nat) cancelled runs raw :
  int64 height -> is_utf8 backend ->
  digest home dirExists run cancelled (mkEVMDigest height backend "") = (runs, Ok raw) ->
  delivered (EVMDigest (mkEVMDigest height backend "")) = Ok (ReqEVMDigest (mkEVMDigest height backend "")) /\
  (0 < height)%Z /\ (backend = BackendMemiavl \/ backend = BackendComposite) /\
  exists dirs report,
    runs = [digest_command height backend dirs] /\ sd_stdout (run (digest_command height backend dirs)) = raw /\
    rp_Version report <> 0%Z /\ rp_Digest report <> "" /\
    digestOnce height backend
      (mkAttempt (Ok id) (repeat (Ticked (GotTask (mkTaskResult Running None None))) polls ++
                          [Ticked (GotTask (mkTaskResult Completed (Some raw) None))]) None None) =
    (digest_request height backend :: repeat (Get id) (S polls) ++ [Delete id], Some (Ok report)).
Proof.
  intros Hh Hb Hd. split.
  { change (EVMDigest_request _) with (ToTaskRequest (EVMDigest (mkEVMDigest height backend ""))).
    apply digest_delivered; [|done]. repeat constructor; done. }
  unfold digest in Hd. destruct (digest_args _ _ _) as [args|] eqn:Ea; [|done]. destruct cancelled; [done|].
  injection Hd as <- Hd. destruct (sd_err (run args)); [done|].
  destruct (parseEVMDigestReport (sd_stdout (run args))) as [rep|] eqn:Ep; [|done]. simpl in Hd. injection Hd as Hraw.
  unfold parseEVMDigestReport in Ep. destruct (decode_report (sd_stdout (run args))) as [rep'|] eqn:Er; [|done].
  simpl in Ep. destruct (Z.eqb_spec (rp_Version rep') 0); [done|]. destruct (String.eqb_spec (rp_Digest rep') ""); [done|].
  injection Ep as ->.
  assert (Hargs : (0 < height)%Z /\ (backend = BackendMemiavl \/ backend = BackendComposite) /\
    exists dirs, args = digest_command height backend dirs).
  { unfold digest_args in Ea. simpl in Ea. destruct (Z.leb_spec height 0); [done|].
    destruct (String.eqb_spec backend evmDigestBackendMemiavl) as [->|_].
    - destruct (memiavlDir home dirExists) as [dir|]; [|done]. injection Ea as <-. split_and!; [done|by left|]. by eexists.
    - destruct (String.eqb_spec backend evmDigestBackendComposite) as [->|_]; [|done].
      destruct (flatkvDir home dirExists) as [f|]; [|done]. destruct (memiavlDir home dirExists) as [dir|]; [|done]. injection Ea as <-.
      split_and!; [done|by right|]. by eexists. }
  destruct Hargs as (Hpos & Hback & dirs & ->). split_and!; [done..|]. exists dirs, rep. split_and!; try done.
  unfold digestOnce. simpl. rewrite Hraw in Er.
  assert (Hpoll : forall k, poll_task id (repeat (Ticked (GotTask (mkTaskResult Running None None))) k ++
    [Ticked (GotTask (mkTaskResult Completed (Some raw) None))]) = (repeat (Get id) (S k), Some (Ok rep))).
  { induction k as [|k IH]; simpl in *; [by rewrite Er|by rewrite IH]. }
  by rewrite Hpoll.
Qed.
End EndToEnd.

(** ** A cell of two nodes *)
Definition node_a : Node := mkNode (mkEndpoint "arctic-1" "migrating-0" "") BackendComposite.
Definition node_b : Node := mkNode (mkEndpoint "arctic-1" "reserve-0" "") BackendMemiavl.
Definition arctic : Chain := mkChain "arctic-1" [node_a; node_b].
Definition answers (tipA tipB : Z) (digestA digestB : string) : world :=
  mkWorld (fun i => Tip (if i =? 0 then tipA else tipB))
    (fun i _ _ => Ok (mkReport 1 42 (if i =? 0 then digestA else digestB))) (fun _ => false) 1800000000.
(** A matching round, one at a height already compared, and a mismatch. *)
Definition arctic_rounds : list (Chain * world) :=
  [(arctic, answers 105 100 "0xabc" "0xabc"); (arctic, answers 106 100 "0xabc" "0xBAD");
   (arctic, answers 205 200 "0xabc" "0xBAD")].
Lemma digest_rounds_exact_witness :
  Config_Validate [arctic] = Ok tt /\
  let m := (run_rounds 20 (start 7 [arctic]) arctic_rounds).2 in
  mt_Diverged m !! ("arctic-1", "arctic-1/migrating-0", "arctic-1/reserve-0") = Some 1%Z /\
  mt_Mismatches m !! ("arctic-1", "arctic-1/migrating-0", "arctic-1/reserve-0") = Some 1%Z /\
  mt_ComparedHeights m !! "arctic-1" = Some 2%Z /\ mt_LastComparedHeight m !! "arctic-1" = Some 180%Z.
Proof.
  assert (Hv : Config_Validate [arctic] = Ok tt) by reflexivity. split; [exact Hv|].
  assert (Hin : arctic ∈ [arctic]) by apply list_elem_of_here.
  assert (Hxs : Forall (fun x => x.1 ∈ [arctic]) arctic_rounds) by (repeat (constructor; [exact Hin|]); constructor).
  destruct (digest_rounds_exact 20 7 [arctic] arctic arctic_rounds Hv Hin Hxs) as (HP & HC & HL & _).
  assert (Hab : (node_a, node_b) ∈ pairs (ch_Nodes arctic)) by apply list_elem_of_here.
  destruct (HP node_a node_b Hab) as [HD HX]. split_and!; [exact HD|exact HX|exact HC|exact HL].
Defined.

Definition seidb_report (digest : string) : raw_json :=
  RawValue (JObj [("version", JNum "1"); ("final", JObj [("count", JNum "42"); ("digest", JStr digest)])]).
Definition digest_attempts : list attempt :=
  [mkAttempt (Ok "t-1") [Ticked (GetErr false); Ticked (GotTask (mkTaskResult Failed None (Some "torn"))); CtxDone "deadline"] None None;
   mkAttempt (Ok "t-2") [Ticked (GotTask (mkTaskResult Completed (Some (seidb_report "0xabc")) None)); CtxDone "deadline"] None None].
Lemma digest_cleans_up_witness :
  Forall ends digest_attempts /\
  exists blocks, Digest (H := sample_rpc) 2 80 BackendMemiavl digest_attempts = (concat blocks, Some (Ok (mkReport 1 42 "0xabc"))) /\
    length blocks = 2 /\
    concat blocks = [digest_request 80 BackendMemiavl; Get "t-1"; Get "t-1"; Delete "t-1";
                     digest_request 80 BackendMemiavl; Get "t-2"; Delete "t-2"].
Proof.
  assert (He : Forall ends digest_attempts).
  { constructor; [|constructor; [|constructor]]; exists "deadline"; simpl; rewrite !elem_of_cons; auto. }
  split; [exact He|].
  destruct (digest_cleans_up (H := sample_rpc) 2 80 BackendMemiavl digest_attempts) as (blocks & r & Hd & Hl & Hb & _); [done|exact He|].
  exists blocks.
  assert (Hrun : Digest (H := sample_rpc) 2 80 BackendMemiavl digest_attempts =
    ([digest_request 80 BackendMemiavl; Get "t-1"; Get "t-1"; Delete "t-1";
      digest_request 80 BackendMemiavl; Get "t-2"; Delete "t-2"], Some (Ok (mkReport 1 42 "0xabc")))) by reflexivity.
  rewrite Hrun in Hd. injection Hd as Hc <-. split_and!; [by rewrite Hrun, Hc| |by symmetry].
  destruct blocks as [|b1 [|b2 [|b3 blocks]]]; [done| |done|].
  - simpl in Hc. rewrite app_nil_r in Hc. apply Forall2_cons in Hb as [(n & ->) _].
    do 4 (destruct n as [|n]; [done|]; simpl in Hc; injection Hc; intros; simplify_eq).
  - simpl in Hl. unfold max_attempts in Hl. simpl in Hl. lia.
Defined.

Definition sample_home_dir : list string := ["home"; "nonroot"; ".sei"].
Definition sample_dirs (p : list string) : bool := bool_decide (last p = Some "memiavl").
Lemma evm_digest_end_to_end_witness :
  digest (H := sample_rpc) sample_home_dir sample_dirs (fun _ => mkRun (seidb_report "0xabc") "" None) None (mkEVMDigest 80 BackendMemiavl "") =
    ([digest_command 80 BackendMemiavl ["--db-dir"; "/home/nonroot/.sei/data/state_commit/memiavl"]], Ok (seidb_report "0xabc")) /\
  delivered (SC := sample_seiconfig) (EVMDigest (mkEVMDigest 80 BackendMemiavl "")) = Ok (ReqEVMDigest (mkEVMDigest 80 BackendMemiavl "")).
Proof.
  assert (Hd : digest (H := sample_rpc) sample_home_dir sample_dirs (fun _ => mkRun (seidb_report "0xabc") "" None) None
      (mkEVMDigest 80 BackendMemiavl "") =
    ([digest_command 80 BackendMemiavl ["--db-dir"; "/home/nonroot/.sei/data/state_commit/memiavl"]], Ok (seidb_report "0xabc")))
    by (vm_compute; reflexivity).
  split; [exact Hd|].
  apply (evm_digest_end_to_end (SC := sample_seiconfig) sample_home_dir sample_dirs (fun _ => mkRun (seidb_report "0xabc") "" None)
    80 BackendMemiavl "t-1" 3 None _ _ ltac:(split; lia) eq_refl Hd).
Defined.
