(* ===== verification/Peering.v ===== *)
(** * Peer resolution (src/internal/peering, src/internal/controller/node/peers.go)

    [spec.peers] is resolved into the composed persistent_peers of a node: label
    sources over the listed SeiNodes and their sidecars, static sources as they
    are, EC2 sources over the pages of DescribeInstances. The reader, the sidecars
    and the EC2 API are parameters. *)

From stdpp Require Import base list strings gmap sorting pretty.
From Stdlib Require Import ZArith Ascii Lia.
From S2P Require Import Prelude Api NodeState Platform Config Resolve.

(** ** EC2 instances (ec2.go) *)
Definition tagNodeID := "sei.io/node-id".
Definition tagP2PPort := "sei.io/p2p-port".

(** The fields read of [ec2types.Instance]; [aws.ToString] of an absent text is empty. *)
Record EC2Instance := mkInstance {
  in_Tags : list (option string * option string);
  in_PublicDnsName : option string;
  in_PublicIpAddress : option string;
  in_PrivateDnsName : option string;
  in_PrivateIpAddress : option string;
}.
Definition ToString (s : option string) : string := default "" s.

(** [^[0-9a-f]{40}$] *)
Definition hex_char (c : ascii) : bool :=
  is_digit c || (let n := nat_of_ascii c in (97 <=? n) && (n <=? 102)).
Definition nodeIDPattern (s : string) : bool := (String.length s =? 40) && str_forall hex_char s.

(** A rune below 128 is a byte of its own, so the runes are checked as bytes. *)
Definition host_char (c : ascii) : bool :=
  let n := nat_of_ascii c in negb ((n =? 44) || (n <=? 32) || (n =? 127)).
Definition validHost (host : string) : bool := str_forall host_char host.

Fixpoint firstNonEmpty (vals : list string) : string :=
  match vals with
  | [] => ""
  | v :: vals' => if v <>s "" then v else firstNonEmpty vals'
  end.

(** [strconv.ParseInt(p, 10, 32)] *)
Definition ParseInt32 (p : string) : option Z :=
  n ← parse_int p; if (- 2 ^ 31 <=? n)%Z && (n <? 2 ^ 31)%Z then Some n else None.

Section EC2.
Context {C : SeiConfig}.

Definition instance_tags (inst : EC2Instance) : gmap string string :=
  fold_left (fun m t => <[ToString t.1 := ToString t.2]> m) (in_Tags inst) ∅.
Definition instance_host (inst : EC2Instance) : string :=
  firstNonEmpty [ToString (in_PublicDnsName inst); ToString (in_PublicIpAddress inst);
                 ToString (in_PrivateDnsName inst); ToString (in_PrivateIpAddress inst)].
Definition instance_port (tags : gmap string string) : Z :=
  match tags !! tagP2PPort with
  | Some p => match ParseInt32 p with Some n => if (0 <? n)%Z then n else PortP2P | None => PortP2P end
  | None => PortP2P
  end.
Definition composeEC2Peer (inst : EC2Instance) : option string :=
  let tags := instance_tags inst in
  let nodeID := default "" (tags !! tagNodeID) in
  if nodeID =s "" then None
  else if negb (nodeIDPattern nodeID) then None
  else
    let host := instance_host inst in
    if host =s "" then None
    else if negb (validHost host) then None
    else Some (nodeID +:+ "@" +:+ host +:+ ":" +:+ pretty (instance_port tags)).

(** What a call answers: an error, or the instances of each reservation and the token of the next page. *)
Inductive page := PageErr (e : string) | Page (reservations : list (list EC2Instance)) (next : option string).
(** A call: its filters and the token it continues from. *)
Record describe := mkDescribe { de_Filters : list (string * string); de_Token : option string }.

Definition ec2_filters (src : EC2TagsPeerSource) : list (string * string) :=
  ("instance-state-name", "running") :: map (fun kv => ("tag:" +:+ kv.1, kv.2)) (map_to_list (ec_Tags src)).

(** The loop, against the answers its calls meet: its calls, and what it returns,
    or nothing while a page is still to come. *)
Fixpoint describe_loop (src : EC2TagsPeerSource) (token : option string) (peers : list string) (answers : list page)
    : list describe * option (result (list string)) :=
  match answers with
  | [] => ([mkDescribe (ec2_filters src) token], None)
  | PageErr e :: _ =>
      ([mkDescribe (ec2_filters src) token],
       Some (Err ("describing EC2 instances in " +:+ ec_Region src +:+ ": " +:+ e)))
  | Page reservations next :: answers' =>
      let peers := peers ++ omap composeEC2Peer (concat reservations) in
      let '(calls, r) := match next with
                         | None => ([], Some (Ok peers))
                         | Some t => describe_loop src (Some t) peers answers'
                         end in
      (mkDescribe (ec2_filters src) token :: calls, r)
  end.
Definition resolveEC2Instances (src : EC2TagsPeerSource) (answers : list page)
    : list describe * option (result (list string)) :=
  describe_loop src None [] answers.
End EC2.

(** ** [Resolver.Resolve] (resolver.go) *)

(** [strings.Index(p, "@")] with the text around it. *)
Fixpoint cut (c : ascii) (s : string) : option (string * string) :=
  match s with
  | EmptyString => None
  | String d s' =>
      if Ascii.eqb d c then Some (EmptyString, s')
      else '(a, b) ← cut c s'; Some (String d a, b)
  end.
Definition at_sign : ascii := "@"%char.
(** The address of an entry that has an id and an address. *)
Definition entry_host (p : string) : option string :=
  match cut at_sign p with
  | Some (EmptyString, _) | Some (_, EmptyString) | None => None
  | Some (_, host) => Some host
  end.
Definition indexResolvedPeersByHost (peers : list string) : gmap string string :=
  fold_left (fun m p => match entry_host p with Some h => <[h := p]> m | None => m end) peers ∅.

Definition compact : list string -> list string := fix go l :=
  match l with
  | a :: ((b :: _) as l') => if a =s b then go l' else a :: go l'
  | _ => l
  end.

(** What a reconcile's resolution depends on: the lists of the reader, by the
    position of the source, the sidecar factory, absent or not, the node id
    each sidecar gives, and the EC2 resolver, absent or not. *)
Record resolver (sidecar : Type) := mkResolver {
  rv_List : nat -> string -> gmap string string -> result (list SeiNode);
  rv_BuildSidecarClient : option (SeiNode -> result sidecar);
  rv_GetNodeID : sidecar -> result string;
  rv_EC2 : option (EC2TagsPeerSource -> result (list string));
}.
Arguments mkResolver {sidecar} _ _ _ _.
Arguments rv_List {sidecar} _ _ _ _.
Arguments rv_BuildSidecarClient {sidecar} _.
Arguments rv_GetNodeID {sidecar} _ _.
Arguments rv_EC2 {sidecar} _.

Section Resolver.
Context {C : SeiConfig} {sidecar : Type}.
Implicit Types (r : resolver sidecar) (node peer : SeiNode).

Definition peerAddress peer : string :=
  if sp_ExternalAddress (n_Spec peer) <>s "" then sp_ExternalAddress (n_Spec peer)
  else n_Name peer +:+ "-0." +:+ n_Name peer +:+ "." +:+ n_Namespace peer +:+ ".svc.cluster.local:" +:+ pretty PortP2P.

Definition errNoSidecarFactory := "sidecar client factory is nil".
Definition fetchNodeID r peer : result string :=
  sc ← match rv_BuildSidecarClient r with Some build => build peer | None => Err errNoSidecarFactory end;
  rv_GetNodeID r sc.

Definition is_self node peer : bool := (n_Name peer =s n_Name node) && (n_Namespace peer =s n_Namespace node).
Definition label_entry r (priorByHost : gmap string string) peer : option string :=
  match fetchNodeID r peer with
  | Ok nodeID => Some (nodeID +:+ "@" +:+ peerAddress peer)
  | Err _ => priorByHost !! peerAddress peer
  end.
Definition label_namespace node (src : LabelPeerSource) : string :=
  if lp_Namespace src <>s "" then lp_Namespace src else n_Namespace node.
Definition resolveLabel r node (i : nat) (src : LabelPeerSource) (priorByHost : gmap string string) : result (list string) :=
  items ← wrap_err "listing peers by label: " (rv_List r i (label_namespace node src) (lp_Selector src));
  Ok (omap (label_entry r priorByHost) (List.filter (fun peer => negb (is_self node peer)) items)).

(** The peers, and whether the prior ones are kept. *)
Definition resolveEC2 r (src : EC2TagsPeerSource) : list string * bool :=
  match rv_EC2 r with
  | None => ([], true)
  | Some resolve => match resolve src with Ok peers => (peers, false) | Err _ => ([], true) end
  end.

Fixpoint resolve_sources r node (priorByHost : gmap string string) (i : nat) (srcs : list PeerSource)
    (peers : list string) (preserveEC2Prior : bool) : result (list string * bool) :=
  match srcs with
  | [] => Ok (peers, preserveEC2Prior)
  | src :: srcs' =>
      match ps_Label src, ps_Static src, ps_EC2Tags src with
      | Some l, _, _ =>
          endpoints ← resolveLabel r node i l priorByHost;
          resolve_sources r node priorByHost (S i) srcs' (peers ++ endpoints) preserveEC2Prior
      | None, Some addresses, _ =>
          resolve_sources r node priorByHost (S i) srcs' (peers ++ addresses) preserveEC2Prior
      | None, None, Some e =>
          let '(endpoints, preservePrior) := resolveEC2 r e in
          resolve_sources r node priorByHost (S i) srcs' (peers ++ endpoints) (preserveEC2Prior || preservePrior)
      | None, None, None => resolve_sources r node priorByHost (S i) srcs' peers preserveEC2Prior
      end
  end.
Definition Resolve r node (prior : list string) : result (list string) :=
  '(peers, preserveEC2Prior) ← resolve_sources r node (indexResolvedPeersByHost prior) 0 (sp_Peers (n_Spec node)) [] false;
  Ok (compact (sort_strings (if (preserveEC2Prior : bool) then peers ++ prior else peers))).
End Resolver.

(** ** [reconcilePeers] and [setPeersReady] (node/peers.go) *)
Definition ConditionPeersReady := "PeersReady".
Definition ReasonPeersResolved := "Resolved".
Definition ReasonPeersAwaiting := "AwaitingPeers".
Definition ReasonPeersUnresolved := "Unresolved".
Definition ReasonPeersNotApplicable := "NotApplicable".
Definition set_ResolvedPeers (peers : list string) (s : SeiNodeStatus) : SeiNodeStatus :=
  mkSeiNodeStatus (st_Phase s) (st_CurrentImage s) (st_CurrentConfigValuesHash s)
    (st_CurrentSidecarImage s) (st_CurrentNodeIsolation s) (st_CurrentNodePool s) (st_Conditions s)
    (st_PhaseTransitionTime s) (st_Plan s) peers (st_ResolvedStateSyncers s)
    (st_DataResetGeneration s) (st_MaintenanceHold s).

Section Ready.
Context {SC : StatusConditions}.

Definition peers_verdict (node : SeiNode) (now : Z) : ConditionStatus * string * string :=
  if bool_decide (sp_Peers (n_Spec node) = []) then (ConditionFalse, ReasonPeersNotApplicable, "spec.peers is empty")
  else if bool_decide (st_ResolvedPeers (n_Status node) <> []) then
    (ConditionTrue, ReasonPeersResolved,
     pretty (length (st_ResolvedPeers (n_Status node))) +:+ " persistent peers resolved")
  else if PeersBlockPlan node now then
    (ConditionFalse, ReasonPeersAwaiting, "no label peer resolved yet; init plan held for up to 10m0s after creation")
  else (ConditionFalse, ReasonPeersUnresolved,
        "no peer resolved; seid runs without persistent peers until the next deployment").
Definition setPeersReady (now : Z) (node : SeiNode) : SeiNode :=
  let '(status, reason, message) := peers_verdict node now in
  set_node_cond ConditionPeersReady status reason message node.

Definition reconcilePeers {C : SeiConfig} {sidecar} (r : resolver sidecar) (now : Z) (node : SeiNode) : result SeiNode :=
  peers ← wrap_err "resolving peers: " (Resolve r node (st_ResolvedPeers (n_Status node)));
  Ok (setPeersReady now (upd_status (set_ResolvedPeers peers) node)).
End Ready.

(** ** Lemmas: the order of the entries *)
Definition strictly_sorted (l : list string) : Prop := StronglySorted String.le l /\ NoDup l.

Lemma compact_cons a b l : compact (a :: b :: l) = if a =s b then compact (b :: l) else a :: compact (b :: l).
Proof. done. Qed.
Lemma compact_in l x : x ∈ compact l <-> x ∈ l.
Proof.
  induction l as [|a l IH]; [done|]. destruct l as [|b l]; [done|]. rewrite compact_cons.
  destruct (String.eqb_spec a b) as [->|Hne].
  - rewrite IH. set_solver.
  - rewrite (elem_of_cons (compact _)), IH. set_solver.
Qed.
Lemma compact_sorted l : StronglySorted String.le l -> strictly_sorted (compact l).
Proof.
  induction l as [|a l IH]; intros Hs; [split; constructor|]. destruct l as [|b l].
  { split; [done|]. apply NoDup_singleton. }
  inversion Hs as [|? ? Hl Ha]; subst. destruct (IH Hl) as [Hs' Hn]. rewrite compact_cons.
  destruct (String.eqb_spec a b) as [->|Hne]; [done|]. rewrite Forall_forall in Ha. split.
  - constructor; [done|]. apply Forall_forall. intros x Hx. apply Ha. by rewrite <-compact_in.
  - apply NoDup_cons. split; [|done]. rewrite compact_in. intros Hin. apply elem_of_cons in Hin as [->|Hin]; [done|].
    apply Hne. apply (anti_symm String.le); [apply Ha; set_solver|].
    inversion Hl as [|? ? _ Hb]; subst. rewrite Forall_forall in Hb. by apply Hb.
Qed.
Lemma compact_sort_in l x : x ∈ compact (sort_strings l) <-> x ∈ l.
Proof. by rewrite compact_in, sort_strings_perm. Qed.
Lemma compact_sort_sorted l : strictly_sorted (compact (sort_strings l)).
Proof. apply compact_sorted, StronglySorted_merge_sort; apply _. Qed.
(** A set of entries has one such list. *)
Lemma strictly_sorted_unique l k : strictly_sorted l -> strictly_sorted k -> (forall x, x ∈ l <-> x ∈ k) -> l = k.
Proof.
  intros [Hl Nl] [Hk Nk] H. apply (StronglySorted_unique String.le); [done|done|]. by apply NoDup_Permutation.
Qed.

(** ** Lemmas: entries and their hosts *)
Lemma cut_app c a b : without c a = true -> cut c (a +:+ String c b) = Some (a, b).
Proof.
  induction a as [|d a IH]; intros Ha.
  - change ("" +:+ String c b) with (String c b). simpl. by rewrite Ascii.eqb_refl.
  - change (String d a +:+ String c b) with (String d (a +:+ String c b)). simpl in *.
    apply andb_true_iff in Ha as [Hd Ha]. apply negb_true_iff in Hd. by rewrite Hd, (IH Ha).
Qed.
Lemma entry_host_compose id host : id <> "" -> without at_sign id = true -> host <> "" ->
  entry_host (id +:+ "@" +:+ host) = Some host.
Proof.
  intros Hid Hw Hh. unfold entry_host. change ("@" +:+ host) with (String at_sign host). rewrite (cut_app _ _ _ Hw).
  by destruct id, host.
Qed.
Lemma index_lookup peers h p : indexResolvedPeersByHost peers !! h = Some p -> p ∈ peers /\ entry_host p = Some h.
Proof.
  unfold indexResolvedPeersByHost. rewrite <-(app_nil_l peers) at 2. generalize (@nil string) as seen.
  assert (H0 : forall q k, (∅ : gmap string string) !! k = Some q -> q ∈ (@nil string) /\ entry_host q = Some k) by done.
  revert H0. generalize (∅ : gmap string string) as m. intros m H0 seen.
  assert (Hm : forall q k, m !! k = Some q -> q ∈ seen /\ entry_host q = Some k).
  { intros q k Hq. destruct (H0 q k Hq) as [[]%not_elem_of_nil _]. }
  clear H0. revert m seen Hm. induction peers as [|x peers IH]; intros m seen Hm; simpl.
  - intros Hp. rewrite app_nil_r. by apply Hm.
  - replace (seen ++ x :: peers) with ((seen ++ [x]) ++ peers) by (by rewrite <-app_assoc). apply IH.
    intros q k. destruct (entry_host x) as [hx|] eqn:Ex.
    + intros [[<- <-]|[_ Hq]]%lookup_insert_Some; [set_solver|]. destruct (Hm q k Hq). set_solver.
    + intros Hq. destruct (Hm q k Hq). set_solver.
Qed.
Lemma index_some peers h p : p ∈ peers -> entry_host p = Some h -> is_Some (indexResolvedPeersByHost peers !! h).
Proof.
  unfold indexResolvedPeersByHost. intros Hp Hh. generalize (∅ : gmap string string) as m.
  assert (Hk : forall l (m : gmap string string) k, is_Some (m !! k) ->
    is_Some (fold_left (fun m p => match entry_host p with Some h => <[h := p]> m | None => m end) l m !! k)).
  { clear. induction l as [|x l IH]; intros m k Hm; [done|]. simpl. apply IH. destruct (entry_host x) as [hx|]; [|done].
    destruct (decide (hx = k)) as [->|Hne]; [by rewrite lookup_insert_eq|by rewrite lookup_insert_ne]. }
  induction peers as [|x peers IH]; intros m; [by apply not_elem_of_nil in Hp|]. simpl.
  apply elem_of_cons in Hp as [<-|Hp]; [|by apply IH].
  rewrite Hh. apply Hk. by rewrite lookup_insert_eq.
Qed.

(** ** Lemmas: what the sources offer *)
Section Offers.
Context {C : SeiConfig} {sidecar : Type}.
Implicit Types (r : resolver sidecar) (node peer : SeiNode).

(** An EC2 source that resolves to nothing this time. *)
Definition is_ec2 (src : PeerSource) : option EC2TagsPeerSource :=
  match ps_Label src, ps_Static src with None, None => ps_EC2Tags src | _, _ => None end.
Definition source_down r (src : PeerSource) : bool :=
  match is_ec2 src with Some e => (resolveEC2 r e).2 | None => false end.
(** The entries a source gives. *)
Definition offers r node (idx : gmap string string) (i : nat) (src : PeerSource) (p : string) : Prop :=
  match ps_Label src, ps_Static src, ps_EC2Tags src with
  | Some l, _, _ =>
      exists items peer, rv_List r i (label_namespace node l) (lp_Selector l) = Ok items /\
        peer ∈ items /\ is_self node peer = false /\ label_entry r idx peer = Some p
  | None, Some addresses, _ => p ∈ addresses
  | None, None, Some e => p ∈ (resolveEC2 r e).1
  | None, None, None => False
  end.
(** The list of a label source is read. *)
Definition listed r node (i : nat) (src : PeerSource) : Prop :=
  match ps_Label src with
  | Some l => exists items, rv_List r i (label_namespace node l) (lp_Selector l) = Ok items
  | None => True
  end.

Lemma resolveLabel_spec r node i l idx endpoints : resolveLabel r node i l idx = Ok endpoints ->
  exists items, rv_List r i (label_namespace node l) (lp_Selector l) = Ok items /\
    forall p, p ∈ endpoints <-> exists peer, peer ∈ items /\ is_self node peer = false /\ label_entry r idx peer = Some p.
Proof.
  unfold resolveLabel. destruct (rv_List r i _ _) as [items|] eqn:El; simpl; [|done]. intros [= <-]. exists items.
  split; [done|]. intros p. rewrite list_elem_of_omap. split.
  - intros (peer & Hin & Hp). apply list_elem_of_In, List.filter_In in Hin as [Hin Hs]. exists peer.
    split_and!; [by apply list_elem_of_In|by apply negb_true_iff|done].
  - intros (peer & Hin & Hs & Hp). exists peer. split; [|done]. apply list_elem_of_In, List.filter_In.
    split; [by apply list_elem_of_In|by rewrite Hs].
Qed.

Lemma resolve_sources_ok r node idx srcs : forall i peers b res, resolve_sources r node idx i srcs peers b = Ok res ->
  res.2 = b || existsb (source_down r) srcs /\
  (forall j src, srcs !! j = Some src -> listed r node (i + j) src) /\
  forall p, p ∈ res.1 <-> p ∈ peers \/ exists j src, srcs !! j = Some src /\ offers r node idx (i + j) src p.
Proof.
  assert (Hstep : forall src srcs' i (peers endpoints : list string) (b down : bool) (res : list string * bool),
    (res.2 = (b || down) || existsb (source_down r) srcs' /\
     (forall j s, srcs' !! j = Some s -> listed r node (S i + j) s) /\
     forall p, p ∈ res.1 <-> p ∈ peers ++ endpoints \/ exists j s, srcs' !! j = Some s /\ offers r node idx (S i + j) s p) ->
    source_down r src = down -> listed r node i src -> (forall p, offers r node idx i src p <-> p ∈ endpoints) ->
    res.2 = b || existsb (source_down r) (src :: srcs') /\
    (forall j s, (src :: srcs') !! j = Some s -> listed r node (i + j) s) /\
    forall p, p ∈ res.1 <-> p ∈ peers \/ exists j s, (src :: srcs') !! j = Some s /\ offers r node idx (i + j) s p).
  { intros src srcs' i peers endpoints b down res (Hb & Hl & Hp) Hd Hl0 Ho. split_and!.
    - rewrite Hb. simpl. by rewrite Hd, orb_assoc.
    - intros [|j] s Hs; [injection Hs as <-; by rewrite Nat.add_0_r|]. rewrite <-Nat.add_succ_comm. by apply Hl.
    - intros p. rewrite Hp, elem_of_app. split.
      + intros [[?|He]|(j & s & Hs & Hof)]; [by left| |].
        * right. exists 0, src. rewrite Nat.add_0_r. split; [done|by apply Ho].
        * right. exists (S j), s. rewrite <-Nat.add_succ_comm. done.
      + intros [?|([|j] & s & Hs & Hof)]; [by left; left| |].
        * injection Hs as <-. rewrite Nat.add_0_r in Hof. left. right. by apply Ho.
        * right. exists j, s. rewrite Nat.add_succ_comm. done. }
  induction srcs as [|src srcs IH]; intros i peers b res.
  { intros [= <-]. simpl. rewrite orb_false_r. split_and!; [done|done|]. intros p. split; [by left|by intros [?|(? & ? & ? & _)]]. }
  cbn [resolve_sources]. destruct (ps_Label src) as [l|] eqn:El; [|destruct (ps_Static src) as [s|] eqn:Es];
    [| |destruct (ps_EC2Tags src) as [e|] eqn:Ee].
  - destruct (resolveLabel r node i l idx) as [endpoints|] eqn:Er; [|done]. cbn. intros H%IH.
    destruct (resolveLabel_spec _ _ _ _ _ _ Er) as (items & Hl & Hin).
    apply (Hstep src srcs i peers endpoints b false); [by rewrite orb_false_r| | |].
    + unfold source_down, is_ec2. by rewrite El.
    + unfold listed. rewrite El. by exists items.
    + intros p. unfold offers. rewrite El, Hin. split.
      * intros (items' & peer & Hl' & Hq). rewrite Hl in Hl'. injection Hl' as <-. by exists peer.
      * intros (peer & Hq). by exists items, peer.
  - intros H%IH. apply (Hstep src srcs i peers s b false); [by rewrite orb_false_r| | |].
    + unfold source_down, is_ec2. by rewrite El, Es.
    + unfold listed. by rewrite El.
    + intros p. unfold offers. by rewrite El, Es.
  - destruct (resolveEC2 r e) as [endpoints down] eqn:Er. intros H%IH.
    apply (Hstep src srcs i peers endpoints b down); [done| | |].
    + unfold source_down, is_ec2. by rewrite El, Es, Ee, Er.
    + unfold listed. by rewrite El.
    + intros p. unfold offers. by rewrite El, Es, Ee, Er.
  - intros H%IH. apply (Hstep src srcs i peers [] b false); [by rewrite orb_false_r, app_nil_r| | |].
    + unfold source_down, is_ec2. by rewrite El, Es, Ee.
    + unfold listed. by rewrite El.
    + intros p. unfold offers. rewrite El, Es, Ee. by rewrite elem_of_nil.
Qed.
Lemma resolve_sources_total r node idx srcs : forall i peers b,
  (forall j src, srcs !! j = Some src -> listed r node (i + j) src) ->
  exists res, resolve_sources r node idx i srcs peers b = Ok res.
Proof.
  induction srcs as [|src srcs IH]; intros i peers b Hl; [by eexists|]. cbn [resolve_sources].
  assert (Hl' : forall j s, srcs !! j = Some s -> listed r node (S i + j) s).
  { intros j s Hs. rewrite Nat.add_succ_comm. by apply (Hl (S j)). }
  specialize (Hl 0 src eq_refl). rewrite Nat.add_0_r in Hl. unfold listed in Hl.
  destruct (ps_Label src) as [l|]; [|destruct (ps_Static src); [|destruct (ps_EC2Tags src) as [e|]]].
  - destruct Hl as [items Hl]. unfold resolveLabel. rewrite Hl. cbn. by apply IH.
  - by apply IH.
  - destruct (resolveEC2 r e). by apply IH.
  - by apply IH.
Qed.

(** The result: sorted, without duplicates, and exactly what the sources offer,
    with the prior peers when an EC2 source gave nothing. *)
Lemma Resolve_spec r node prior peers : Resolve r node prior = Ok peers ->
  strictly_sorted peers /\
  (forall j src, sp_Peers (n_Spec node) !! j = Some src -> listed r node j src) /\
  forall p, p ∈ peers <->
    (exists j src, sp_Peers (n_Spec node) !! j = Some src /\ offers r node (indexResolvedPeersByHost prior) j src p) \/
    (existsb (source_down r) (sp_Peers (n_Spec node)) = true /\ p ∈ prior).
Proof.
  unfold Resolve. destruct (resolve_sources _ _ _ _ _ _ _) as [[ps b]|] eqn:E; [|done]. cbn. intros [= <-].
  destruct (resolve_sources_ok _ _ _ _ _ _ _ _ E) as (Hb & Hl & Hp). cbn in Hb, Hl, Hp.
  split_and!; [apply compact_sort_sorted|done|]. intros p. rewrite compact_sort_in, <-Hb.
  assert (Hq : p ∈ ps <-> exists j src, sp_Peers (n_Spec node) !! j = Some src /\
                offers r node (indexResolvedPeersByHost prior) j src p).
  { rewrite Hp. split; [|by right]. intros [[]%not_elem_of_nil|H]. done. }
  destruct b; [rewrite elem_of_app|]; rewrite Hq; [|by split; [left|intros [?|[? _]]]].
  split; (intros [?|?]; [by left|right]); [done|by destruct_and?].
Qed.
Lemma Resolve_total r node prior :
  (forall j src, sp_Peers (n_Spec node) !! j = Some src -> listed r node j src) -> exists peers, Resolve r node prior = Ok peers.
Proof.
  intros Hl. unfold Resolve. destruct (resolve_sources_total r node (indexResolvedPeersByHost prior)
    (sp_Peers (n_Spec node)) 0 [] false) as [[ps b] ->]; [done|]. by eexists.
Qed.
End Offers.

(** ** Properties *)
Section Stability.
Context {C : SeiConfig} {sidecar : Type}.
Implicit Types (r : resolver sidecar) (node peer : SeiNode).

(** [r'] is [r] with some sidecars and some of EC2 not answering. *)
Record outage r r' : Prop := {
  ou_list : rv_List r' = rv_List r;
  ou_id : forall peer, fetchNodeID r' peer = fetchNodeID r peer \/ exists e, fetchNodeID r' peer = Err e;
  ou_ec2 : forall e, resolveEC2 r' e = resolveEC2 r e \/ (resolveEC2 r' e).2 = true;
}.
(** Node ids are not empty and hold no at-sign. *)
Definition plain_ids r : Prop :=
  forall peer id, fetchNodeID r peer = Ok id -> id <> "" /\ without at_sign id = true.
(** No two entries have one address. *)
Definition distinct_hosts (peers : list string) : Prop :=
  forall p q h, p ∈ peers -> q ∈ peers -> entry_host p = Some h -> entry_host q = Some h -> p = q.

Lemma peerAddress_some peer : peerAddress peer <> "".
Proof.
  unfold peerAddress. destruct (String.eqb_spec (sp_ExternalAddress (n_Spec peer)) ""); simpl; [|done].
  by destruct (n_Name peer).
Qed.
Lemma label_entry_host r idx peer p : plain_ids r ->
  (forall h q, idx !! h = Some q -> entry_host q = Some h) ->
  label_entry r idx peer = Some p -> entry_host p = Some (peerAddress peer).
Proof.
  intros Hp Hi. unfold label_entry. destruct (fetchNodeID r peer) as [id|] eqn:Ef; [|apply Hi].
  intros [= <-]. destruct (Hp _ _ Ef). apply entry_host_compose; [done|done|apply peerAddress_some].
Qed.
Lemma ec2_down_offers r node idx i src p : source_down r src = true -> ~ offers r node idx i src p.
Proof.
  unfold source_down, is_ec2, offers. destruct (ps_Label src), (ps_Static src); try done.
  destruct (ps_EC2Tags src) as [e|]; [|done]. unfold resolveEC2. destruct (rv_EC2 r) as [f|]; [destruct (f e)|]; simpl; try done.
  all: intros _; apply not_elem_of_nil.
Qed.
Lemma outage_down r r' src : outage r r' -> source_down r src = true -> source_down r' src = true.
Proof.
  intros [_ _ He]. unfold source_down. destruct (is_ec2 src) as [e|]; [|done]. by destruct (He e) as [->|].
Qed.

(** What an outage changes of the offers: an entry is still offered by its
    source, over the index of the peers resolved before; or its source is down. *)
Lemma outage_offers r r' node idx peers i src p : outage r r' -> plain_ids r -> distinct_hosts peers ->
  (forall h q, idx !! h = Some q -> entry_host q = Some h) ->
  p ∈ peers -> offers r node idx i src p ->
  offers r' node (indexResolvedPeersByHost peers) i src p \/ source_down r' src = true.
Proof.
  intros [Hl Hf He] Hp Hd Hi Hin Ho. unfold offers in *. rewrite Hl.
  destruct (ps_Label src) as [l|] eqn:El; [|destruct (ps_Static src) as [s|] eqn:Es]; [| |destruct (ps_EC2Tags src) as [e|] eqn:Ee].
  - left. destruct Ho as (items & peer & Hit & Hpe & Hs & Hle). exists items, peer. split_and!; try done.
    assert (Hh : entry_host p = Some (peerAddress peer)) by (by eapply label_entry_host).
    assert (Hpr : indexResolvedPeersByHost peers !! peerAddress peer = Some p).
    { destruct (index_some peers (peerAddress peer) p Hin Hh) as [q Hq]. rewrite Hq. f_equal.
      destruct (index_lookup _ _ _ Hq). by eapply Hd. }
    unfold label_entry in *. destruct (Hf peer) as [->|[e ->]]; [|done]. by destruct (fetchNodeID r peer).
  - by left.
  - destruct (He e) as [->|Hdn]; [by left|]. right. unfold source_down, is_ec2. by rewrite El, Es, Ee.
  - done.
Qed.
Lemma offers_after_outage r r' node idx peers i src p : outage r r' ->
  offers r' node (indexResolvedPeersByHost peers) i src p -> offers r node idx i src p \/ p ∈ peers.
Proof.
  intros Ho Hof. pose proof Ho as [Hl Hf He]. unfold offers in *. rewrite Hl in Hof.
  destruct (ps_Label src) as [l|] eqn:El; [|destruct (ps_Static src) as [s|] eqn:Es]; [| |destruct (ps_EC2Tags src) as [e|] eqn:Ee].
  - destruct Hof as (items & peer & Hit & Hpe & Hs & Hle). unfold label_entry in Hle.
    destruct (Hf peer) as [Hfe|[e Hfe]]; rewrite Hfe in Hle; [|right; by apply index_lookup in Hle as [? _]].
    destruct (fetchNodeID r peer) as [id|] eqn:Ef; [|right; by apply index_lookup in Hle as [? _]].
    left. exists items, peer. split_and!; try done. unfold label_entry. by rewrite Ef.
  - by left.
  - destruct (He e) as [Hs|Hdn]; [rewrite Hs in Hof; by left|]. exfalso. eapply (ec2_down_offers r' node ∅ i src p).
    + unfold source_down, is_ec2. by rewrite El, Es, Ee.
    + unfold offers. by rewrite El, Es, Ee.
  - done.
Qed.

(** C19: An outage does not change the peers of a node: when the sidecars of any of the
    listed peers and any of the EC2 sources stop to answer, resolving again from
    the stored peers gives the same list, entry for entry, unless two stored
    entries have one address. And when all of them answer, the list
    does not depend on what was stored. *)
Theorem outage_keeps_peers r r' node (prior peers : list string) :
  Resolve r node prior = Ok peers -> plain_ids r ->
  (outage r r' -> distinct_hosts peers -> Resolve r' node peers = Ok peers) /\
  ((forall peer, is_ok (fetchNodeID r peer)) -> existsb (source_down r) (sp_Peers (n_Spec node)) = false ->
   forall prior', Resolve r node prior' = Ok peers).
Proof.
  intros Hr Hp. destruct (Resolve_spec _ _ _ _ Hr) as (Hs & Hl & Hin). split.
  - intros Ho Hd. destruct (Resolve_total r' node peers) as [peers' Hr'].
    { intros j src Hj. specialize (Hl j src Hj). unfold listed in *. by rewrite (ou_list _ _ Ho). }
    rewrite Hr'. f_equal. destruct (Resolve_spec _ _ _ _ Hr') as (Hs' & _ & Hin').
    apply strictly_sorted_unique; [done|done|]. intros p. rewrite Hin'. split.
    + intros [(j & src & Hj & Hof)|[_ ?]]; [|done].
      destruct (offers_after_outage r r' node (indexResolvedPeersByHost prior) _ _ _ _ Ho Hof); [|done].
      apply Hin. left. by exists j, src.
    + intros Hpe. pose proof Hpe as [(j & src & Hj & Hof)|[Hdn _]]%Hin.
      * destruct (outage_offers r r' node (indexResolvedPeersByHost prior) peers j src p Ho Hp Hd);
          [by intros h q [_ ?]%index_lookup|done|done|left; by exists j, src|right].
        split; [|done]. apply existsb_exists. exists src. split; [|done]. by apply list_elem_of_In, list_elem_of_lookup_2 with j.
      * right. split; [|done]. apply existsb_exists in Hdn as (src & Hsrc & Hdn). apply existsb_exists.
        exists src. split; [done|by eapply outage_down].
  - intros Hok Hup prior'. destruct (Resolve_total r node prior') as [peers' Hr']; [done|].
    rewrite Hr'. f_equal. destruct (Resolve_spec _ _ _ _ Hr') as (Hs' & _ & Hin').
    apply strictly_sorted_unique; [done|done|]. intros p. rewrite Hin', Hin, Hup.
    assert (Hidx : forall idx idx' j src, offers r node idx j src p -> offers r node idx' j src p).
    { intros idx idx' j src. unfold offers. destruct (ps_Label src); [|done].
      intros (items & peer & H1 & H2 & H3 & H4). exists items, peer. split_and!; try done. revert H4.
      unfold label_entry. specialize (Hok peer). by destruct (fetchNodeID r peer). }
    split; (intros [(j & src & Hj & Hof)|[? _]]; [left; exists j, src; split; [done|by eapply Hidx]|done]).
Qed.
End Stability.

(** *** EC2 sources *)
Section EC2Entries.
Context {C : SeiConfig}.

(** The entry of an instance: a node id of 40 hexadecimal digits, a host and a port. *)
Definition well_formed_entry (p : string) : Prop :=
  exists id host port, p = id +:+ "@" +:+ host +:+ ":" +:+ pretty (port : Z) /\
    nodeIDPattern id = true /\ host <> "" /\ validHost host = true /\
    (port = PortP2P \/ 0 < port < 2 ^ 31)%Z.

Lemma hex_host c : hex_char c = true -> host_char c = true.
Proof.
  unfold hex_char, is_digit, host_char. rewrite orb_true_iff, !andb_true_iff, !Nat.leb_le.
  intros [[? ?]|[? ?]]; rewrite negb_true_iff, !orb_false_iff, !Nat.eqb_neq, Nat.leb_gt; lia.
Qed.
Lemma pretty_host (z : Z) : str_forall host_char (pretty z) = true.
Proof.
  assert (Hd : forall c, is_digit c = true -> host_char c = true)
    by (intros c Hc; apply hex_host; unfold hex_char; by rewrite Hc).
  assert (Hn : forall p, str_forall host_char (pretty (N.pos p)) = true).
  { intros p. eapply str_forall_impl; [exact Hd|]. rewrite <-positive_nat_N. apply pretty_nat_digits. }
  destruct z as [|p|p]; [done|apply Hn|]. change (pretty (Z.neg p)) with (String "-" (pretty (N.pos p))). simpl. apply Hn.
Qed.
(** No byte of an entry ends it early, neither in the joined list nor in a line of config.toml. *)
Lemma entry_chars p : well_formed_entry p -> str_forall host_char p = true.
Proof.
  intros (id & host & port & -> & Hid & _ & Hh & _). rewrite !str_forall_app. unfold validHost in Hh. rewrite Hh.
  apply andb_true_iff in Hid as [_ Hid]. by rewrite (str_forall_impl _ _ _ hex_host Hid), pretty_host.
Qed.
Lemma entry_no_comma p : well_formed_entry p -> without "," p = true.
Proof.
  intros Hp%entry_chars. eapply str_forall_impl; [|exact Hp]. intros c Hc. apply negb_true_iff.
  destruct (Ascii.eqb_spec c ","%char) as [->|]; done.
Qed.
Lemma ParseInt32_range s n : ParseInt32 s = Some n -> (- 2 ^ 31 <= n < 2 ^ 31)%Z.
Proof.
  unfold ParseInt32. destruct (parse_int s) as [m|]; simpl; [|done]. destruct (_ && _) eqn:E; [|done]. intros [= <-].
  apply andb_true_iff in E as [H1%Z.leb_le H2%Z.ltb_lt]. done.
Qed.
Lemma composeEC2Peer_spec inst :
  match composeEC2Peer inst with
  | Some p => well_formed_entry p
  | None => nodeIDPattern (default "" (instance_tags inst !! tagNodeID)) = false \/ instance_host inst = "" \/
            validHost (instance_host inst) = false
  end.
Proof.
  unfold composeEC2Peer. set (id := default "" _).
  destruct (String.eqb_spec id "") as [->|Hid]; [by left|]. destruct (nodeIDPattern id) eqn:Hp; simpl; [|by left].
  destruct (String.eqb_spec (instance_host inst) "") as [->|Hh]; [by right; left|].
  destruct (validHost (instance_host inst)) eqn:Hv; simpl; [|by right; right].
  exists id, (instance_host inst), (instance_port (instance_tags inst)). split_and!; try done.
  clearbody id. unfold instance_port. destruct (_ !! _) as [s|]; [|by left]. destruct (ParseInt32 s) as [n|] eqn:En; [|by left].
  destruct (0 <? n)%Z eqn:E0; [|by left]. apply ParseInt32_range in En. apply Z.ltb_lt in E0. right. lia.
Qed.

Definition more (x : list (list EC2Instance) * string) : page := Page x.1 (Some x.2).
Definition pages_calls (src : EC2TagsPeerSource) (token : option string) (firsts : list (list (list EC2Instance) * string))
    : list describe :=
  map (mkDescribe (ec2_filters src)) (token :: map (fun x => Some x.2) firsts).
Lemma describe_loop_pages src firsts last rest : forall token peers,
  describe_loop src token peers (map more firsts ++ last :: rest) =
  (pages_calls src token firsts,
   let seen := peers ++ omap composeEC2Peer (concat (concat (map fst firsts))) in
   match last with
   | PageErr e => Some (Err ("describing EC2 instances in " +:+ ec_Region src +:+ ": " +:+ e))
   | Page reservations None => Some (Ok (seen ++ omap composeEC2Peer (concat reservations)))
   | Page reservations (Some t) =>
       (describe_loop src (Some t) (seen ++ omap composeEC2Peer (concat reservations)) rest).2
   end) \/ exists reservations t, last = Page reservations (Some t).
Proof.
  induction firsts as [|[rs t] firsts IH]; intros token peers; simpl.
  - rewrite app_nil_r. destruct last as [e|rs [t|]]; [by left|by right; eexists _, _|by left].
  - destruct (IH (Some t) (peers ++ omap composeEC2Peer (concat rs))) as [->|Hr]; [|by right].
    left. simpl. rewrite concat_app, omap_app, app_assoc. done.
Qed.

(** Property: An EC2 source is read to its last page: each page is asked for with the token
    of the one before, under the source's tags and for running instances only, the
    entries are those of all instances with a valid id and host, in order, and an
    error on any page gives no entries. Whatever the tags of an instance hold, its
    entry is one id of 40 hexadecimal digits, one host and one port, so the
    entries read back from the joined persistent_peers as they were. *)
Theorem ec2_pages_resolved (src : EC2TagsPeerSource) (firsts : list (list (list EC2Instance) * string))
    (reservations : list (list EC2Instance)) (e : string) (rest : list page) :
  let peers := omap composeEC2Peer (concat (concat (map fst firsts) ++ reservations)) in
  resolveEC2Instances src (map more firsts ++ Page reservations None :: rest) =
    (pages_calls src None firsts, Some (Ok peers)) /\
  resolveEC2Instances src (map more firsts ++ PageErr e :: rest) =
    (pages_calls src None firsts,
     Some (Err ("describing EC2 instances in " +:+ ec_Region src +:+ ": " +:+ e))) /\
  Forall well_formed_entry peers /\ (peers = [] \/ split_on "," (join "," peers) = peers).
Proof.
  intros peers. unfold resolveEC2Instances.
  assert (Hp : Forall well_formed_entry peers).
  { apply Forall_forall. intros p (inst & _ & Hi)%list_elem_of_omap. pose proof (composeEC2Peer_spec inst) as H. by rewrite Hi in H. }
  split_and!; [| |done|].
  - destruct (describe_loop_pages src firsts (Page reservations None) rest None []) as [->|(? & ? & ?)]; [|done].
    simpl. unfold peers. by rewrite concat_app, omap_app.
  - destruct (describe_loop_pages src firsts (PageErr e) rest None []) as [->|(? & ? & ?)]; done.
  - destruct (decide (peers = [])) as [|Hne]; [by left|right]. apply split_on_join; [done|].
    eapply Forall_impl; [exact Hp|]. apply entry_no_comma.
Qed.
End EC2Entries.

(** ** Witnesses and examples *)
Definition peer_spec (peers : list PeerSource) : SeiNodeSpec :=
  mkSeiNodeSpec "arctic-1" "sei:v1" peers ∅ None None [] None None None
    (Some (mkFullNodeSpec None None None)) None None None None "" false 0 None.
Definition peer_status : SeiNodeStatus :=
  mkSeiNodeStatus PhaseRunning "" "" "" IsolationNone "" [] None None [] [] 0 HoldNone.
Definition sample_node (name : string) (peers : list PeerSource) : SeiNode :=
  mkSeiNode name "nodes" 1 0 ∅ (peer_spec peers) peer_status.
Definition label_source : PeerSource := mkPeerSource None None (Some (mkLabelPeerSource {["role" := "peer"]} "")).
Definition static_source : PeerSource := mkPeerSource None (Some ["abc@1.2.3.4:26656"]) None.
Definition ec2_source : PeerSource := mkPeerSource (Some (mkEC2TagsPeerSource "us-east-1" {["role" := "seed"]})) None None.
(** A namespace of three nodes; [ids] answers for the sidecars. *)
Definition sample_resolver (ids : string -> result string) (ec2 : option (list string)) : resolver string :=
  mkResolver (fun _ _ _ => Ok [sample_node "a" []; sample_node "b" []; sample_node "me" []])
    (Some (fun n => Ok (n_Name n))) ids
    (Some (fun _ => match ec2 with Some l => Ok l | None => Err "RequestLimitExceeded" end)).
Definition up_ids (name : string) : result string := Ok (if name =s "a" then "aaa" else "bbb").
Definition a_silent (name : string) : result string := if name =s "a" then Err "connection refused" else up_ids name.
Definition me : SeiNode := sample_node "me" [label_source; static_source; ec2_source].
Definition entry_a := "aaa@a-0.a.nodes.svc.cluster.local:26656".
Definition entry_b := "bbb@b-0.b.nodes.svc.cluster.local:26656".

#[local] Existing Instance sample_config.
Lemma outage_keeps_peers_witness :
  Resolve (sample_resolver a_silent None) me [entry_a; "abc@1.2.3.4:26656"; entry_b; "eee@5.6.7.8:26656"] =
  Ok [entry_a; "abc@1.2.3.4:26656"; entry_b; "eee@5.6.7.8:26656"].
Proof.
  refine (proj1 (outage_keeps_peers (sample_resolver up_ids (Some ["eee@5.6.7.8:26656"])) (sample_resolver a_silent None)
    me [] _ _ _) _ _).
  - vm_compute. reflexivity.
  - intros peer id. simpl. intros [= <-]. by destruct (_ =s _).
  - split; [done| |].
    + intros peer. cbn. destruct (n_Name peer =s "a") eqn:E; unfold fetchNodeID; cbn; unfold a_silent; rewrite E; [right; by eexists|by left].
    + intros e. by right.
  - intros p q h Hp Hq. revert h. rewrite !elem_of_cons in Hp, Hq.
    destruct Hp as [->|[->|[->|[->|[]%not_elem_of_nil]]]], Hq as [->|[->|[->|[->|[]%not_elem_of_nil]]]]; intros h; vm_compute; congruence.
Defined.

(** Property: With two stored entries of one address, which an EC2 error leaves
    after a peer has changed its key, the next silence of that peer drops the entry
    of its live key and keeps the stale one. *)
Theorem rotated_key_dropped :
  let new_id := fun name => if name =s "a" then Ok "000" else up_ids name in
  let new_a := "000@a-0.a.nodes.svc.cluster.local:26656" in
  Resolve (sample_resolver new_id None) me [entry_a; entry_b] =
    Ok [new_a; entry_a; "abc@1.2.3.4:26656"; entry_b] /\
  Resolve (sample_resolver a_silent (Some [])) me [new_a; entry_a; "abc@1.2.3.4:26656"; entry_b] =
    Ok [entry_a; "abc@1.2.3.4:26656"; entry_b].
Proof. vm_compute. done. Qed.
