(* ===== verification/DataVolume.v ===== *)
(** * The data volume of a node

    The claim a node's data lives on, from the pre-flight of its performance class
    over its creation or import (src/internal/task/ensure_pvc.go) and its growth
    to its deletion (src/internal/controller/node/volumeattributesclass.go,
    datavolumeresize.go, controller.go), with what the claim is to be
    (src/internal/noderesource). Reads go through a cache that lags the API server. *)

From stdpp Require Import base list strings gmap relations pretty.
From Stdlib Require Import ZArith Ascii Lia.
From S2P Require Import Prelude Api NodeState Platform Executor Config Task.

(** ** Quantities (k8s.io/apimachinery) *)
Class Quantities := {
  Quantity : Type;
  Cmp : Quantity -> Quantity -> comparison;
  ParseQuantity : string -> option Quantity;
  qty_String : Quantity -> string;
  qty_zero : Quantity;
}.
(** The order is total, and the text of a quantity reads back as its equal. *)
Class QuantitiesLaws (Q : Quantities) : Prop := {
  Cmp_refl : forall a, Cmp a a = Eq;
  Cmp_opp : forall a b, Cmp b a = CompOpp (Cmp a b);
  Cmp_eq : forall a b c, Cmp a b = Eq -> Cmp a c = Cmp b c;
  parse_String : forall q, exists q', ParseQuantity (qty_String q) = Some q' /\ Cmp q' q = Eq;
}.
(** [a.Cmp(b) >= 0] *)
Definition at_least {Q : Quantities} (a b : Quantity) : bool :=
  match Cmp a b with Lt => false | _ => true end.

(** ** What a node asks for (api/v1alpha1, noderesource) *)
Section Spec.
Context {Q : Quantities}.

Record DataVolumeStorage := mkDataVolumeStorage {
  ds_Resources : option (gmap string Quantity);  (** [Resources.Requests] *)
  ds_VolumeAttributesClassName : option string;
}.
Record DataVolumeSpec := mkDataVolumeSpec {
  dv_Import : option string;  (** [Import.PVCName] *)
  dv_Storage : option DataVolumeStorage;
}.
(** The SeiNode with the fields only its volume depends on. *)
Record vnode := mkVnode {
  vn_Node : SeiNode;
  vn_UID : string;
  vn_DataVolume : option DataVolumeSpec;
}.
Definition vn_upd (f : SeiNode -> SeiNode) (n : vnode) : vnode := mkVnode (f (vn_Node n)) (vn_UID n) (vn_DataVolume n).

Definition ResourceStorage := "storage".
Definition imported (n : vnode) : option string :=
  match vn_DataVolume n ≫= dv_Import with
  | Some name => if name <>s "" then Some name else None
  | None => None
  end.
Definition DataPVCName (n : vnode) : string :=
  match imported n with Some name => name | None => "data-" +:+ n_Name (vn_Node n) end.
Definition crdStorageSize (n : vnode) : option Quantity :=
  dv ← vn_DataVolume n; s ← dv_Storage dv; r ← ds_Resources s; r !! ResourceStorage.
Definition GrowableStorageSize (n : vnode) : option Quantity :=
  match sp_NodeConfig (n_Spec (vn_Node n)) with None => None | Some _ => crdStorageSize n end.
Definition VolumeAttributesClassForNode (n : vnode) : option string :=
  dv ← vn_DataVolume n; s ← dv_Storage dv; ds_VolumeAttributesClassName s.

(** The storage settings of the platform configuration. *)
Record StorageConfig := mkStorageConfig {
  sg_ClassPerf : string; sg_ClassDefault : string; sg_ClassArchive : string;
  sg_SizeDefault : string; sg_SizeArchive : string; sg_SizeSeed : string;
}.
Definition defaultStorageSizeSeed := "20Gi".
Definition SeedStorageSize (p : StorageConfig) : string :=
  if sg_SizeSeed p <>s "" then sg_SizeSeed p else defaultStorageSizeSeed.
Definition NodeMode (node : SeiNode) : ConfigMode :=
  match sp_Archive (n_Spec node), sp_Validator (n_Spec node), sp_Seed (n_Spec node) with
  | Some _, _, _ => ModeArchive
  | None, Some _, _ => ModeValidator
  | None, None, Some _ => ModeSeed
  | None, None, None => ModeFull
  end.
(** The class and the size; every mode has a case. *)
Definition DefaultStorageForMode (mode : ConfigMode) (p : StorageConfig) : string * string :=
  match mode with
  | ModeArchive => (sg_ClassArchive p, sg_SizeArchive p)
  | ModeFull | ModeValidator => (sg_ClassPerf p, sg_SizeDefault p)
  | ModeSeed => (sg_ClassDefault p, SeedStorageSize p)
  end.
Definition StorageForNode (n : vnode) (p : StorageConfig) : string * string :=
  let '(class, size) := DefaultStorageForMode (NodeMode (vn_Node n)) p in
  (class, match crdStorageSize n with Some q => qty_String q | None => size end).

(** ** Claims and volumes *)
Inductive AccessMode := ReadWriteOnce | ReadWriteOncePod | ReadOnlyMany | ReadWriteMany.
#[export] Instance AccessMode_eq_dec : EqDecision AccessMode.
Proof. solve_decision. Defined.
Definition mode_string (m : AccessMode) : string :=
  match m with
  | ReadWriteOnce => "ReadWriteOnce" | ReadWriteOncePod => "ReadWriteOncePod"
  | ReadOnlyMany => "ReadOnlyMany" | ReadWriteMany => "ReadWriteMany"
  end.
Inductive ClaimPhase := ClaimNoPhase | ClaimPending | ClaimBound | ClaimLost.
#[export] Instance ClaimPhase_eq_dec : EqDecision ClaimPhase.
Proof. solve_decision. Defined.
Definition claim_phase_string (p : ClaimPhase) : string :=
  match p with ClaimNoPhase => "" | ClaimPending => "Pending" | ClaimBound => "Bound" | ClaimLost => "Lost" end.

(** A claim, without its labels; [pvc_Controller] is the UID of its controller
    reference, [pvc_DeletionTimestamp] the text of that time. *)
Record PVC := mkPVC {
  pvc_Name : string;
  pvc_Version : Z;
  pvc_Controller : option string;
  pvc_DeletionTimestamp : option string;
  pvc_AccessModes : list AccessMode;
  pvc_StorageClass : string;
  pvc_VolumeAttributesClass : option string;
  pvc_Request : option Quantity;
  pvc_VolumeName : string;
  pvc_Phase : ClaimPhase;
  pvc_Capacity : option Quantity;
  pvc_Conditions : list (string * ConditionStatus * string);
  pvc_AllocatedStatus : option string;
}.
Definition pvc_meta (name : string) (version : Z) (deleted : option string) (p : PVC) : PVC :=
  mkPVC name version (pvc_Controller p) deleted (pvc_AccessModes p) (pvc_StorageClass p)
    (pvc_VolumeAttributesClass p) (pvc_Request p) (pvc_VolumeName p) (pvc_Phase p) (pvc_Capacity p)
    (pvc_Conditions p) (pvc_AllocatedStatus p).
Definition pvc_requesting (q : Quantity) (p : PVC) : PVC :=
  mkPVC (pvc_Name p) (pvc_Version p) (pvc_Controller p) (pvc_DeletionTimestamp p) (pvc_AccessModes p) (pvc_StorageClass p)
    (pvc_VolumeAttributesClass p) (Some q) (pvc_VolumeName p) (pvc_Phase p) (pvc_Capacity p)
    (pvc_Conditions p) (pvc_AllocatedStatus p).
Record PV := mkPV { pv_Failed : bool; pv_Capacity : option Quantity }.

Definition IsControlledBy (p : PVC) (n : vnode) : bool := bool_decide (pvc_Controller p = Some (vn_UID n)).

(** [GenerateDataPVC] with the controller reference set; nothing where
    [resource.MustParse] panics. *)
Definition GenerateDataPVC (n : vnode) (p : StorageConfig) : option PVC :=
  let '(class, size) := StorageForNode n p in
  q ← ParseQuantity size;
  Some (mkPVC (DataPVCName n) 0 (Some (vn_UID n)) None [ReadWriteOnce] class (VolumeAttributesClassForNode n) (Some q)
          "" ClaimNoPhase None [] None).

(** ** The API server *)

(** The claims of the namespace, what the cache shows of them, the volumes and
    classes of the cluster, the next version, what becomes of the next calls, and
    the writes of the controller that took effect, for which node. *)
Inductive write :=
| WCreate (n : vnode) (c : PVC)
| WGrow (n : vnode) (before : PVC) (q : Quantity)
| WDelete (n : vnode) (c : PVC).
Record vworld := mkVworld {
  vw_claims : gmap string PVC;
  vw_seen : gmap string PVC;
  vw_volumes : gmap string PV;
  vw_classes : gmap string string;
  vw_next : Z;
  vw_faults : list fault;
  vw_log : list write;
}.
Definition vw_with_faults (fs : list fault) (w : vworld) : vworld :=
  mkVworld (vw_claims w) (vw_seen w) (vw_volumes w) (vw_classes w) (vw_next w) fs (vw_log w).
(** A write of the controller to one claim. *)
Definition vw_write (c : PVC) (entry : write) (w : vworld) : vworld :=
  mkVworld (<[pvc_Name c := c]> (vw_claims w)) (vw_seen w) (vw_volumes w) (vw_classes w) (vw_next w + 1) (vw_faults w)
    (vw_log w ++ [entry]).
Definition vw_fault (w : vworld) : fault * vworld :=
  match vw_faults w with [] => (Done, w) | f :: fs => (f, vw_with_faults fs w) end.

Definition read_ {A} (look : vworld -> option A) (w : vworld) : (api_error + A) * vworld :=
  let '(f, w) := vw_fault w in
  match f with
  | Done => (match look w with Some a => inr a | None => inl ENotFound end, w)
  | Lost | Refused false => (inl EOther, w)
  | Refused true => (inl EConflict, w)
  end.
Definition GetClaim (name : string) := read_ (fun w => vw_seen w !! name).
Definition GetVolume (name : string) := read_ (fun w => vw_volumes w !! name).
Definition GetClass (name : string) := read_ (fun w => vw_classes w !! name).

Inductive create_error := EAlreadyExists | ECreate.
Definition CreateClaim (n : vnode) (c : PVC) (w : vworld) : option create_error * vworld :=
  let '(f, w) := vw_fault w in
  match f, vw_claims w !! pvc_Name c with
  | Refused _, _ => (Some ECreate, w)
  | _, Some _ => (Some EAlreadyExists, w)
  | f, None =>
      (match f with Done => None | _ => Some ECreate end,
       vw_write (pvc_meta (pvc_Name c) (vw_next w) None c) (WCreate n c) w)
  end.
(** The patch of the request, with the optimistic lock. *)
Definition PatchRequest (n : vnode) (base : PVC) (q : Quantity) (w : vworld) : option api_error * vworld :=
  let '(f, w) := vw_fault w in
  match f, vw_claims w !! pvc_Name base with
  | Refused c, _ => (Some (if c then EConflict else EOther), w)
  | _, None => (Some ENotFound, w)
  | f, Some stored =>
      if negb (pvc_Version stored =? pvc_Version base)%Z then (Some EConflict, w)
      else (match f with Done => None | _ => Some EOther end,
            vw_write (pvc_meta (pvc_Name stored) (vw_next w) (pvc_DeletionTimestamp stored) (pvc_requesting q stored))
              (WGrow n stored q) w)
  end.
(** The claim is marked; it goes when no pod uses it. *)
Definition DeleteClaim (n : vnode) (name now : string) (w : vworld) : option api_error * vworld :=
  let '(f, w) := vw_fault w in
  match f, vw_claims w !! name with
  | Refused c, _ => (Some (if c then EConflict else EOther), w)
  | _, None => (Some ENotFound, w)
  | f, Some stored =>
      (match f with Done => None | _ => Some EOther end,
       vw_write (pvc_meta name (vw_next w) (Some now) stored) (WDelete n stored) w)
  end.
End Spec.

(** ** The platform configuration is checked once, at startup (platform.go) *)
Section Validate.
Context {Q : Quantities}.

Record ResourceOverride := mkResourceOverride { ro_CPURequest : string; ro_Memory : string }.
Record Config := mkConfig {
  cf_NodepoolName : string; cf_NodepoolArchive : string; cf_NodepoolValidator : string; cf_NodepoolSeed : string;
  cf_TolerationKey : string; cf_ServiceAccount : string;
  cf_Storage : StorageConfig;
  cf_SnapshotBucket : string; cf_SnapshotRegion : string; cf_GenesisBucket : string; cf_GenesisRegion : string;
  cf_SidecarImage : string; cf_KubeRBACProxyImage : string;
  cf_GatewayName : string; cf_GatewayNamespace : string; cf_GatewayDomain : string;
  cf_Validator : ResourceOverride; cf_Node : ResourceOverride; cf_Replayer : ResourceOverride;
  cf_Archive : ResourceOverride; cf_Seed : ResourceOverride;
  cf_DriftUpdateBudgetPercent : Z;
}.
Fixpoint check_quantities (key : string) (fields : list (string * string)) : result unit :=
  match fields with
  | [] => Ok tt
  | (name, val) :: fields' =>
      if TrimSpace val =s "" then check_quantities key fields'
      else match ParseQuantity val with
           | Some _ => check_quantities key fields'
           | None => Err (key +:+ "." +:+ name +:+ ": invalid quantity " +:+ quote val)
           end
  end.
Definition override_validate (key : string) (o : ResourceOverride) : result unit :=
  check_quantities key [("cpuRequest", ro_CPURequest o); ("memory", ro_Memory o)].
Fixpoint first_missing (fields : list (string * string)) : option string :=
  match fields with
  | [] => None
  | (name, val) :: fields' => if TrimSpace val =s "" then Some name else first_missing fields'
  end.
Definition Config_Validate (c : Config) : result unit :=
  match first_missing
    [("scheduling.nodepoolName", cf_NodepoolName c); ("scheduling.nodepoolArchive", cf_NodepoolArchive c);
     ("scheduling.nodepoolValidator", cf_NodepoolValidator c); ("scheduling.nodepoolSeed", cf_NodepoolSeed c);
     ("scheduling.tolerationKey", cf_TolerationKey c); ("scheduling.serviceAccount", cf_ServiceAccount c);
     ("storage.classPerf", sg_ClassPerf (cf_Storage c)); ("storage.classDefault", sg_ClassDefault (cf_Storage c));
     ("storage.classArchive", sg_ClassArchive (cf_Storage c)); ("storage.sizeDefault", sg_SizeDefault (cf_Storage c));
     ("storage.sizeArchive", sg_SizeArchive (cf_Storage c));
     ("snapshot.bucket", cf_SnapshotBucket c); ("snapshot.region", cf_SnapshotRegion c);
     ("genesis.bucket", cf_GenesisBucket c); ("genesis.region", cf_GenesisRegion c);
     ("images.sidecar", cf_SidecarImage c); ("images.kubeRBACProxy", cf_KubeRBACProxyImage c);
     ("SEI_GATEWAY_NAME", cf_GatewayName c); ("SEI_GATEWAY_NAMESPACE", cf_GatewayNamespace c);
     ("SEI_GATEWAY_DOMAIN", cf_GatewayDomain c)] with
  | Some name => Err (name +:+ " is required")
  | None =>
      _ ← override_validate "resources.validator" (cf_Validator c);
      _ ← override_validate "resources.node" (cf_Node c);
      _ ← override_validate "resources.replayer" (cf_Replayer c);
      _ ← override_validate "resources.archive" (cf_Archive c);
      _ ← override_validate "resources.seed" (cf_Seed c);
      if (cf_DriftUpdateBudgetPercent c <? 0)%Z || (100 <? cf_DriftUpdateBudgetPercent c)%Z then
        Err ("rollout.driftUpdateBudgetPercent must be between 0 and 100, got " +:+ pretty (cf_DriftUpdateBudgetPercent c))
      else Ok tt
  end.
End Validate.

(** ** The operations *)
Definition ConditionImportPVCReady := "ImportPVCReady".
Definition ConditionVolumeAttributesClassReady := "VolumeAttributesClassReady".
Definition ConditionDataVolumeResizeInProgress := "DataVolumeResizeInProgress".
Definition ReasonPVCValidated := "PVCValidated".
Definition ReasonPVCNotReady := "PVCNotReady".
Definition ReasonPVCInvalid := "PVCInvalid".
Definition ReasonVolumeAttributesClassFound := "VolumeAttributesClassFound".
Definition ReasonModeDefaultStorage := "ModeDefaultStorage".
Definition ReasonVolumeAttributesClassNotFound := "VolumeAttributesClassNotFound".
Definition ReasonVolumeAttributesClassLookupError := "VolumeAttributesClassLookupError".
Definition ReasonVolumeAttributesClassNotApplicable := "NotApplicable".
Definition ReasonDataVolumeResizing := "Resizing".
Definition ReasonDataVolumeResizeFailed := "ResizeFailed".
Definition ReasonDataVolumeResizeComplete := "ResizeComplete".
Definition ReasonDataVolumeResizeNotApplicable := "NotApplicable".
Definition ReasonDataVolumePVCLookupError := "PVCLookupError".

Section Operations.
Context {Q : Quantities} {SC : StatusConditions} (error_text : api_error -> string) (storage : StorageConfig).
Implicit Types (n : vnode) (w : vworld).

(** *** The pre-flight of the class (volumeattributesclass.go) *)
Definition setVolumeAttributesClassReady status reason message n : vnode :=
  vn_upd (set_node_cond ConditionVolumeAttributesClassReady status reason message) n.
Definition reconcileVolumeAttributesClass n w : vnode * vworld :=
  match imported n with
  | Some pvc =>
      (setVolumeAttributesClassReady ConditionFalse ReasonVolumeAttributesClassNotApplicable
         ("data volume is imported from PVC " +:+ quote pvc +:+ ", which keeps the importer's volume attributes") n, w)
  | None =>
      match VolumeAttributesClassForNode n with
      | None =>
          (setVolumeAttributesClassReady ConditionTrue ReasonModeDefaultStorage
             "no volumeAttributesClassName selected; the mode-default storage class supplies the volume's performance" n, w)
      | Some name =>
          let '(got, w) := GetClass name w in
          (match got with
           | inr driver =>
               setVolumeAttributesClassReady ConditionTrue ReasonVolumeAttributesClassFound
                 ("VolumeAttributesClass " +:+ quote name +:+ " exists (driver " +:+ quote driver +:+ ")")
           | inl ENotFound =>
               setVolumeAttributesClassReady ConditionFalse ReasonVolumeAttributesClassNotFound
                 ("VolumeAttributesClass " +:+ quote name +:+
                  " not found; the platform must add it before this volume can be provisioned")
           | inl e =>
               setVolumeAttributesClassReady ConditionFalse ReasonVolumeAttributesClassLookupError
                 ("reading VolumeAttributesClass " +:+ quote name +:+ ": " +:+ error_text e)
           end n, w)
      end
  end.

(** *** Creation and import (ensure_pvc.go) *)
Definition transient (msg : string) : exec_error := mkExecError false msg.
Definition terminal (msg : string) : exec_error := mkExecError true msg.
Definition holdForVolumeAttributesClass n : option exec_error :=
  match VolumeAttributesClassForNode n with
  | None => None
  | Some name =>
      match node_cond (vn_Node n) ConditionVolumeAttributesClassReady with
      | None => Some (transient ("VolumeAttributesClass " +:+ quote name +:+ " pre-flight has not resolved yet"))
      | Some c =>
          if decide (c_Status c = ConditionTrue) then None
          else Some (transient ("VolumeAttributesClass " +:+ quote name +:+ " is not ready (" +:+ c_Reason c +:+ "): "
                                +:+ c_Message c))
      end
  end.

Definition not_owned n (existing : PVC) : exec_error :=
  terminal ("data PVC " +:+ quote (pvc_Name existing) +:+ " already exists and is not owned by SeiNode " +:+
            quote (n_Name (vn_Node n)) +:+ "; set spec.dataVolume.import.pvcName to adopt, or delete the PVC").
(** Nothing when the size does not parse, where the code panics. *)
Definition executeCreate (b : taskBase) n w : option (option exec_error * taskBase * vworld) :=
  match GenerateDataPVC n storage with
  | None => None
  | Some desired =>
      let '(got, w) := GetClaim (pvc_Name desired) w in
      Some match got with
      | inr existing =>
          if IsControlledBy existing n then (None, complete b, w)
          else (Some (not_owned n existing), b, w)
      | inl ENotFound =>
          match holdForVolumeAttributesClass n with
          | Some e => (Some e, b, w)
          | None =>
              let '(err, w) := CreateClaim n desired w in
              match err with
              | Some EAlreadyExists => (Some (transient "data PVC created concurrently"), b, w)
              | Some ECreate => (Some (transient "creating data PVC"), b, w)
              | None => (None, complete b, w)
              end
          end
      | inl e => (Some (transient ("checking for existing data PVC: " +:+ error_text e)), b, w)
      end
  end.

Definition qty_text (q : option Quantity) : string := qty_String (default qty_zero q).
Definition checkVolume (name : string) (actual : Quantity) (pvName : string) w : option exec_error * vworld :=
  let '(got, w) := GetVolume pvName w in
  (match got with
   | inl ENotFound => Some (transient ("underlying PV " +:+ quote pvName +:+ " for PVC " +:+ quote name +:+ " not found"))
   | inl e => Some (transient ("getting PV " +:+ quote pvName +:+ ": " +:+ error_text e))
   | inr pv =>
       if pv_Failed pv then
         Some (terminal ("underlying PV " +:+ quote pvName +:+ " for PVC " +:+ quote name +:+ " is in phase Failed"))
       else if match pv_Capacity pv with Some c => match Cmp c actual with Eq => true | _ => false end | None => false end
       then None
       else Some (terminal ("underlying PV " +:+ quote pvName +:+ " capacity " +:+ qty_text (pv_Capacity pv) +:+
                            " does not match PVC " +:+ quote name +:+ " capacity " +:+ qty_String actual))
   end, w).
Definition validateImport n (name : string) w : option exec_error * vworld :=
  let '(got, w) := GetClaim name w in
  match got with
  | inl ENotFound =>
      (Some (transient ("PVC " +:+ quote name +:+ " not found in namespace " +:+ quote (n_Namespace (vn_Node n)))), w)
  | inl e => (Some (transient ("getting PVC " +:+ quote name +:+ ": " +:+ error_text e)), w)
  | inr pvc =>
      match pvc_DeletionTimestamp pvc with
      | Some t => (Some (transient ("PVC " +:+ quote name +:+ " is being deleted (deletionTimestamp=" +:+ t +:+ ")")), w)
      | None =>
          match pvc_Phase pvc with
          | ClaimLost => (Some (terminal ("PVC " +:+ quote name +:+ " phase is Lost; underlying PV is gone")), w)
          | ClaimBound =>
              if negb (bool_decide (ReadWriteOnce ∈ pvc_AccessModes pvc) || bool_decide (ReadWriteOncePod ∈ pvc_AccessModes pvc))
              then (Some (terminal ("PVC " +:+ quote name +:+ " accessModes [" +:+
                                    join " " (map mode_string (pvc_AccessModes pvc)) +:+
                                    "] must include ReadWriteOnce or ReadWriteOncePod")), w)
              else
                let requiredStr := (StorageForNode n storage).2 in
                match ParseQuantity requiredStr with
                | None => (Some (terminal ("cannot parse required storage " +:+ quote requiredStr)), w)
                | Some required =>
                    match pvc_Capacity pvc with
                    | None => (Some (transient ("PVC " +:+ quote name +:+ " has no status.capacity.storage reported yet")), w)
                    | Some actual =>
                        if negb (at_least actual required) then
                          (Some (terminal ("PVC " +:+ quote name +:+ " capacity " +:+ qty_String actual +:+
                                           " is less than required " +:+ qty_String required)), w)
                        else if pvc_VolumeName pvc =s "" then
                          (Some (transient ("PVC " +:+ quote name +:+ " is Bound but has no spec.volumeName")), w)
                        else checkVolume name actual (pvc_VolumeName pvc) w
                    end
                end
          | p => (Some (transient ("PVC " +:+ quote name +:+ " phase is " +:+ quote (claim_phase_string p) +:+
                                   ", waiting for Bound")), w)
          end
      end
  end.
Definition setImportPVCCondition status reason message n : vnode :=
  vn_upd (set_node_cond ConditionImportPVCReady status reason message) n.
Definition executeImport (b : taskBase) n (name : string) w : option exec_error * taskBase * vnode * vworld :=
  let '(err, w) := validateImport n name w in
  match err with
  | None =>
      (None, complete b,
       setImportPVCCondition ConditionTrue ReasonPVCValidated ("PVC " +:+ quote name +:+ " passes all import requirements") n, w)
  | Some e =>
      if ee_terminal e then (Some e, b, setImportPVCCondition ConditionFalse ReasonPVCInvalid (ee_msg e) n, w)
      else (None, b, setImportPVCCondition ConditionFalse ReasonPVCNotReady (ee_msg e) n, w)
  end.
Definition ensureDataPVC_Execute (b : taskBase) n w : option (option exec_error * taskBase * vnode * vworld) :=
  match imported n with
  | Some name => Some (executeImport b n name w)
  | None => '(err, b, w) ← executeCreate b n w; Some (err, b, n, w)
  end.

(** *** Growth (datavolumeresize.go) *)
Definition growableSize n : Quantity + string :=
  match imported n with
  | Some name => inr ("data volume is imported from PVC " +:+ quote name +:+ "; the importer owns its size")
  | None =>
      match sp_NodeConfig (n_Spec (vn_Node n)) with
      | None => inr "only a node with spec.nodeConfig can grow its data volume after creation"
      | Some _ =>
          match GrowableStorageSize n with
          | None => inr "spec.dataVolume.storage.resources.requests.storage is unset; set it to grow the volume"
          | Some want => inl want
          end
      end
  end.
(** A claim the node does not control is nothing. *)
Definition ownedDataPVC n w : (api_error + option PVC) * vworld :=
  let '(got, w) := GetClaim (DataPVCName n) w in
  (match got with
   | inl e => inl e
   | inr pvc => inr (if IsControlledBy pvc n then Some pvc else None)
   end, w).
Definition resize_signals : list string :=
  ["Resizing"; "FileSystemResizePending"; "ControllerResizeError"; "NodeResizeError"].
Definition pvcResizeDetail (pvc : PVC) : string :=
  let parts := omap (fun '(type, status, message) =>
    if negb (mem type resize_signals) || bool_decide (status <> ConditionTrue) then None
    else Some (if message <>s "" then type +:+ ": " +:+ message else type)) (pvc_Conditions pvc) in
  join "; " (parts ++ match pvc_AllocatedStatus pvc with Some s => ["allocatedResourceStatus: " +:+ s] | None => [] end).
Definition setDataVolumeResize status reason message n : vnode :=
  vn_upd (set_node_cond ConditionDataVolumeResizeInProgress status reason message) n.
Definition reconcileDataVolumeResize n w : vnode * vworld :=
  match growableSize n with
  | inr reason => (setDataVolumeResize ConditionFalse ReasonDataVolumeResizeNotApplicable reason n, w)
  | inl want =>
      let '(got, w) := ownedDataPVC n w in
      let claim := "data PVC " +:+ quote (DataPVCName n) in
      (match got with
       | inl ENotFound =>
           setDataVolumeResize ConditionFalse ReasonDataVolumeResizeNotApplicable
             (claim +:+ " does not exist yet; ensure-data-pvc provisions it at " +:+ qty_String want)
       | inl e =>
           setDataVolumeResize ConditionUnknown ReasonDataVolumePVCLookupError
             ("reading " +:+ claim +:+ ": " +:+ error_text e)
       | inr None =>
           setDataVolumeResize ConditionFalse ReasonDataVolumeResizeNotApplicable
             (claim +:+ " is not controlled by this SeiNode, so the controller never resizes it")
       | inr (Some pvc) =>
           let claim := "data PVC " +:+ quote (pvc_Name pvc) in
           let capacity := default qty_zero (pvc_Capacity pvc) in
           if bool_decide (pvc_Phase pvc <> ClaimBound) then
             setDataVolumeResize ConditionFalse ReasonDataVolumeResizeNotApplicable
               (claim +:+ " is " +:+ claim_phase_string (pvc_Phase pvc) +:+
                ", not Bound; a claim grows only once it is bound")
           else if at_least capacity want then
             setDataVolumeResize ConditionFalse ReasonDataVolumeResizeComplete
               (claim +:+ " capacity " +:+ qty_String capacity +:+ " meets the requested " +:+ qty_String want)
           else
             setDataVolumeResize ConditionTrue ReasonDataVolumeResizing
               (claim +:+ " capacity " +:+ qty_String capacity +:+ ", requested " +:+ qty_String want +:+
                (let detail := pvcResizeDetail pvc in if detail <>s "" then "; " +:+ detail else "") +:+
                (if sp_Paused (n_Spec (vn_Node n))
                 then "; the controller raises the claim's request only while spec.paused is false" else ""))
       end n, w)
  end.
Definition growDataPVC n w : vnode * vworld :=
  match growableSize n with
  | inr _ => (n, w)
  | inl want =>
      let '(got, w) := ownedDataPVC n w in
      match got with
      | inr (Some pvc) =>
          let current := default qty_zero (pvc_Request pvc) in
          if bool_decide (pvc_Phase pvc <> ClaimBound) || at_least current want then (n, w)
          else
            let '(err, w) := PatchRequest n pvc want w in
            match err with
            | None | Some EConflict => (n, w)
            | Some e =>
                (setDataVolumeResize ConditionTrue ReasonDataVolumeResizeFailed
                   ("raising data PVC " +:+ quote (pvc_Name pvc) +:+ " request from " +:+ qty_String current +:+ " to " +:+
                    qty_String want +:+ ": " +:+ error_text e) n, w)
            end
      | _ => (n, w)
      end
  end.

(** *** The volume's part of a reconcile (controller.go) *)

(** Whether a reconcile gets past its returns for a Failed and for a paused node. *)
Definition past_returns n : bool :=
  negb (bool_decide (st_Phase (n_Status (vn_Node n)) = PhaseFailed)) && negb (sp_Paused (n_Spec (vn_Node n))).
(** The pre-flights are above the returns, the growth is below them. *)
Definition volume_pass n w : vnode * vworld :=
  let '(n, w) := reconcileVolumeAttributesClass n w in
  let '(n, w) := reconcileDataVolumeResize n w in
  if past_returns n then growDataPVC n w else (n, w).

(** *** Deletion (controller.go) *)
Definition deleteNodeDataPVC (now : string) n w : option api_error * vworld :=
  match imported n with
  | Some _ => (None, w)
  | None =>
      let '(got, w) := GetClaim (DataPVCName n) w in
      match got with
      | inl ENotFound => (None, w)
      | inl e => (Some e, w)
      | inr pvc => DeleteClaim n (pvc_Name pvc) now w
      end
  end.
End Operations.

(** ** The volume over time *)
Section Life.
Context {Q : Quantities} {QL : QuantitiesLaws Q} {SC : StatusConditions} {SCL : StatusConditionsLaws SC}.
Context (error_text : api_error -> string) (storage : StorageConfig).
Implicit Types (n : vnode) (w : vworld) (c : PVC) (found : option (string * string)).

(** The same node, with another status. *)
Definition same_volume n n1 : Prop :=
  vn_UID n1 = vn_UID n /\ vn_DataVolume n1 = vn_DataVolume n /\ n_Name (vn_Node n1) = n_Name (vn_Node n) /\
  n_Spec (vn_Node n1) = n_Spec (vn_Node n).

(** *** A reconcile in progress *)

(** What the read of the class answers when a reconcile of [n] begins: the name
    the node selects and the driver of the class under it, or nothing when the
    node selects none, the class is not there or the read fails. *)
Definition class_answer n (fs : list fault) w : option (string * string) :=
  name ← VolumeAttributesClassForNode n;
  match fs with
  | [] | Done :: _ => driver ← vw_classes w !! name; Some (name, driver)
  | _ => None
  end.

(** The reconcile in progress, if one is: its node in memory and what its read of
    the class answered; the world; and each write of the controller with what
    the reconcile that made it had been answered. The controller works on one
    node at a time, so there is at most one. *)
Record life := mkLife {
  lf_pass : option (vnode * option (string * string));
  lf_world : vworld;
  lf_audit : list (write * option (string * string));
}.
(** An operation of the reconcile left the world [w]. *)
Definition made (pass : option (vnode * option (string * string))) found w (s : life) : life :=
  mkLife pass w (lf_audit s ++ map (fun e => (e, found)) (drop (length (vw_log (lf_world s))) (vw_log w))).

(** Other actors write or remove a claim, which is never a write of the controller;
    the cache takes a claim over; the cluster's volumes and classes change. *)
Inductive outside : vworld -> vworld -> Prop :=
| out_actor name c w :
    outside w (mkVworld (<[name := pvc_meta name (vw_next w) (pvc_DeletionTimestamp c) c]> (vw_claims w)) (vw_seen w)
                 (vw_volumes w) (vw_classes w) (vw_next w + 1) [] (vw_log w))
| out_gone name w :
    outside w (mkVworld (delete name (vw_claims w)) (vw_seen w) (vw_volumes w) (vw_classes w) (vw_next w) [] (vw_log w))
| out_sync name w :
    outside w (mkVworld (vw_claims w) (partial_alter (fun _ => vw_claims w !! name) name (vw_seen w))
                 (vw_volumes w) (vw_classes w) (vw_next w) [] (vw_log w))
| out_cluster volumes classes w :
    outside w (mkVworld (vw_claims w) (vw_seen w) volumes classes (vw_next w) [] (vw_log w)).

(** A step: something outside the controller, at any time; a reconcile begins with
    any node, its class pre-flight first; it goes on with the other operations
    on its node in memory, the growth and the task only past its returns, and
    changes what else is in the status, though never the condition of the class
    (the pre-flight is its sole writer); it ends, or dies; the deletion half
    runs. In each operation the calls fail as they may. *)
Inductive vstep : life -> life -> Prop :=
| vs_outside w' s : outside (lf_world s) w' -> vstep s (mkLife (lf_pass s) w' (lf_audit s))
| vs_begin n fs s :
    let r := reconcileVolumeAttributesClass error_text n (vw_with_faults fs (lf_world s)) in
    vstep s (made (Some (r.1, class_answer n fs (lf_world s))) None r.2 s)
| vs_memory n n' found s :
    lf_pass s = Some (n, found) -> same_volume n n' ->
    node_cond (vn_Node n') ConditionVolumeAttributesClassReady = node_cond (vn_Node n) ConditionVolumeAttributesClassReady ->
    vstep s (mkLife (Some (n', found)) (lf_world s) (lf_audit s))
| vs_resize n found fs s :
    lf_pass s = Some (n, found) ->
    let r := reconcileDataVolumeResize error_text n (vw_with_faults fs (lf_world s)) in
    vstep s (made (Some (r.1, found)) found r.2 s)
| vs_grow n found fs s :
    lf_pass s = Some (n, found) -> past_returns n = true ->
    let r := growDataPVC error_text n (vw_with_faults fs (lf_world s)) in
    vstep s (made (Some (r.1, found)) found r.2 s)
| vs_ensure b n found fs s err b' n' w' :
    lf_pass s = Some (n, found) -> past_returns n = true ->
    ensureDataPVC_Execute error_text storage b n (vw_with_faults fs (lf_world s)) = Some (err, b', n', w') ->
    vstep s (made (Some (n', found)) found w' s)
| vs_end s : vstep s (mkLife None (lf_world s) (lf_audit s))
| vs_delete now n fs s :
    vstep s (made None None (deleteNodeDataPVC now n (vw_with_faults fs (lf_world s))).2 s).

(** What may be written, for which node, by a reconcile whose read of the class
    answered [found]; [before] and [c] are the claims as stored. *)
Definition justified (e : write * option (string * string)) : Prop :=
  match e.1 with
  | WCreate n c =>
      imported n = None /\ GenerateDataPVC n storage = Some c /\ past_returns n = true /\
      forall name, VolumeAttributesClassForNode n = Some name -> exists driver, e.2 = Some (name, driver)
  | WGrow n before q =>
      imported n = None /\ sp_NodeConfig (n_Spec (vn_Node n)) <> None /\ crdStorageSize n = Some q /\
      past_returns n = true /\
      pvc_Name before = "data-" +:+ n_Name (vn_Node n) /\ IsControlledBy before n = true /\
      pvc_Phase before = ClaimBound /\ Cmp (default qty_zero (pvc_Request before)) q = Lt
  | WDelete n c => imported n = None /\ pvc_Name c = "data-" +:+ n_Name (vn_Node n)
  end.

Record vw_ok w : Prop := {
  vo_names : forall k c, vw_claims w !! k = Some c -> pvc_Name c = k;
  vo_seen_names : forall k c, vw_seen w !! k = Some c -> pvc_Name c = k;
  vo_claims : forall k c, vw_claims w !! k = Some c -> (pvc_Version c < vw_next w)%Z;
  vo_seen : forall k c, vw_seen w !! k = Some c -> (pvc_Version c < vw_next w)%Z;
  vo_cache : forall k c d, vw_claims w !! k = Some c -> vw_seen w !! k = Some d -> pvc_Version c = pvc_Version d -> c = d;
}.

(** What an operation does to the store: nothing, or one justified write. *)
Definition same_store w w' : Prop :=
  vw_claims w' = vw_claims w /\ vw_seen w' = vw_seen w /\ vw_next w' = vw_next w /\ vw_log w' = vw_log w.
Definition one_write found w w' : Prop :=
  exists c e, pvc_Version c = vw_next w /\ vw_claims w' = <[pvc_Name c := c]> (vw_claims w) /\ vw_seen w' = vw_seen w /\
    vw_next w' = (vw_next w + 1)%Z /\ vw_log w' = vw_log w ++ [e] /\ justified (e, found).
Definition moved found w w' : Prop := same_store w w' \/ one_write found w w'.

Lemma moved_same found w w' : same_store w w' -> moved found w w'.
Proof. by left. Qed.
Lemma moved_after found w w1 w' : same_store w w1 -> moved found w1 w' -> moved found w w'.
Proof. unfold moved, same_store, one_write. intros (<- & <- & <- & <-). done. Qed.
Lemma same_trans w w1 w' : same_store w w1 -> same_store w1 w' -> same_store w w'.
Proof. unfold same_store. by intros (<- & <- & <- & <-). Qed.
Lemma ok_same w w' : same_store w w' -> vw_ok w -> vw_ok w'.
Proof. intros (E1 & E2 & E3 & E4) [H1 H2 H3 H4 H5]. split; rewrite ?E1, ?E2, ?E3, ?E4; done. Qed.
Lemma ok_moved found w w' : moved found w w' -> vw_ok w -> vw_ok w'.
Proof.
  intros [Hs|(c & e & Hv & E1 & E2 & E3 & E4 & He)]; [by apply ok_same|]. intros [H1 H2 H3 H4 H5].
  split; rewrite ?E1, ?E2, ?E3, ?E4.
  - intros k d [[<- <-]|[_ Hd]]%lookup_insert_Some; [done|by apply H1].
  - done.
  - intros k d [[<- <-]|[_ Hd]]%lookup_insert_Some; [lia|]. specialize (H3 k d Hd). lia.
  - intros k d Hd. specialize (H4 k d Hd). lia.
  - intros k d d' [[<- <-]|[_ Hd]]%lookup_insert_Some Hd' Hver; [|by eapply H5]. specialize (H4 _ _ Hd'). lia.
Qed.

Lemma fault_same w f w' : vw_fault w = (f, w') -> same_store w w'.
Proof. unfold vw_fault. destruct (vw_faults w); intros [= <- <-]; by split_and!. Qed.
Lemma faults_same fs w : same_store w (vw_with_faults fs w).
Proof. by split_and!. Qed.
Lemma read_spec {A} (look : vworld -> option A) w got w' :
  (forall w1 w2, vw_claims w1 = vw_claims w2 -> vw_seen w1 = vw_seen w2 -> vw_volumes w1 = vw_volumes w2 ->
     vw_classes w1 = vw_classes w2 -> look w1 = look w2) ->
  read_ look w = (got, w') -> same_store w w' /\ (forall a, got = inr a -> look w = Some a).
Proof.
  intros Hl. unfold read_. destruct (vw_fault w) as [f w1] eqn:Ef. pose proof (fault_same _ _ _ Ef) as Hs.
  assert (E : look w1 = look w).
  { unfold vw_fault in Ef. by destruct (vw_faults w); injection Ef as _ <-; apply Hl. }
  destruct f as [| |[]]; intros [= <- <-]; (split; [exact Hs|]); try done.
  rewrite E. intros a. destruct (look w); [by intros [= ->]|done].
Qed.
Lemma GetClaim_spec name w got w' : GetClaim name w = (got, w') ->
  same_store w w' /\ (forall c, got = inr c -> vw_seen w !! name = Some c).
Proof. apply (read_spec (fun w => vw_seen w !! name)). by intros ? ? _ ->. Qed.
Lemma GetVolume_same name w got w' : GetVolume name w = (got, w') -> same_store w w'.
Proof. intros H. apply (read_spec (fun w => vw_volumes w !! name)) in H as [? _]; [done|]. by intros ? ? _ _ ->. Qed.
Lemma GetClass_same name w got w' : GetClass name w = (got, w') -> same_store w w'.
Proof. intros H. apply (read_spec (fun w => vw_classes w !! name)) in H as [? _]; [done|]. by intros ? ? _ _ _ ->. Qed.

Lemma CreateClaim_moved found n c w : justified (WCreate n c, found) -> moved found w (CreateClaim n c w).2.
Proof.
  intros He. unfold CreateClaim. destruct (vw_fault w) as [f w1] eqn:Ef. apply (moved_after _ _ w1); [by eapply fault_same|].
  destruct f; destruct (vw_claims w1 !! pvc_Name c); try (by left); right; eexists _, _; split_and!; try reflexivity; done.
Qed.
Lemma PatchRequest_moved found n c q w : vw_ok w -> vw_seen w !! pvc_Name c = Some c -> justified (WGrow n c q, found) ->
  moved found w (PatchRequest n c q w).2.
Proof.
  intros Hok Hc He. unfold PatchRequest. destruct (vw_fault w) as [f w1] eqn:Ef. apply fault_same in Ef as Hs.
  apply (moved_after _ _ w1); [done|]. destruct Hs as (E1 & E2 & _).
  destruct f; destruct (vw_claims w1 !! pvc_Name c) as [stored|] eqn:El; try (by left); cbn [snd];
    destruct (Z.eqb_spec (pvc_Version stored) (pvc_Version c)) as [Hv|]; simpl; try (by left); right;
    rewrite E1 in El; rewrite (vo_cache w Hok _ _ _ El Hc Hv) in *;
    eexists _, _; split_and!; try reflexivity; done.
Qed.
Lemma DeleteClaim_moved found n name now w : vw_ok w -> imported n = None -> name = "data-" +:+ n_Name (vn_Node n) ->
  moved found w (DeleteClaim n name now w).2.
Proof.
  intros Hok Hi He. unfold DeleteClaim. destruct (vw_fault w) as [f w1] eqn:Ef. apply fault_same in Ef as Hs.
  apply (moved_after _ _ w1); [done|]. destruct Hs as (E1 & _).
  destruct f; destruct (vw_claims w1 !! name) as [stored|] eqn:El; try (by left); right; cbn [snd];
    rewrite E1 in El; ((eexists _, _; split_and!; try reflexivity); [done|split; [done|by rewrite (vo_names w Hok _ _ El)]]).
Qed.

(** Each operation. *)
Lemma class_same n w : same_store w (reconcileVolumeAttributesClass error_text n w).2.
Proof.
  unfold reconcileVolumeAttributesClass. destruct (imported n); [by split_and!|].
  destruct (VolumeAttributesClassForNode n) as [name|]; [|by split_and!].
  destruct (GetClass name w) as [got w1] eqn:Eg. by eapply GetClass_same.
Qed.
(** The class a node selects was found, as far as its condition says. *)
Definition class_ready n found : Prop :=
  forall name, imported n = None -> VolumeAttributesClassForNode n = Some name ->
  cond_is (vn_Node n) ConditionVolumeAttributesClassReady ConditionTrue = true -> exists driver, found = Some (name, driver).
Lemma class_frame n w : same_volume n (reconcileVolumeAttributesClass error_text n w).1.
Proof.
  unfold reconcileVolumeAttributesClass. destruct (imported n); [by split_and!|].
  destruct (VolumeAttributesClassForNode n); [|by split_and!]. destruct (GetClass _ w) as [[[]|] ?]; by split_and!.
Qed.
Lemma same_volume_asks n n1 : same_volume n n1 ->
  imported n1 = imported n /\ VolumeAttributesClassForNode n1 = VolumeAttributesClassForNode n /\
  GenerateDataPVC n1 storage = GenerateDataPVC n storage.
Proof.
  intros (Eu & Ev & En & Es). unfold GenerateDataPVC, DataPVCName, imported, StorageForNode, crdStorageSize,
    VolumeAttributesClassForNode, NodeMode. by rewrite Eu, Ev, En, Es.
Qed.
(** After the pre-flight a True condition is this reconcile's own answer. *)
Lemma class_begins n fs w :
  class_ready (reconcileVolumeAttributesClass error_text n (vw_with_faults fs w)).1 (class_answer n fs w).
Proof.
  intros name Hi Hv Hc. destruct (same_volume_asks n _ (class_frame n (vw_with_faults fs w))) as (Hi' & Hv' & _).
  rewrite Hi' in Hi. rewrite Hv' in Hv. revert Hc. unfold reconcileVolumeAttributesClass. rewrite Hi, Hv.
  unfold class_answer. rewrite Hv. simpl. unfold GetClass, read_, vw_fault. simpl.
  destruct fs as [|[| |[]] fs]; simpl; try (destruct (vw_classes w !! name) as [driver|]; simpl);
    rewrite ?cond_is_set; try done; by eexists.
Qed.
Lemma class_kept n n' found : same_volume n n' ->
  node_cond (vn_Node n') ConditionVolumeAttributesClassReady = node_cond (vn_Node n) ConditionVolumeAttributesClassReady ->
  class_ready n found -> class_ready n' found.
Proof.
  intros Hs Hc H name. destruct (same_volume_asks n n' Hs) as (-> & -> & _). unfold cond_is. rewrite Hc. apply H.
Qed.
Lemma class_set n t st r m found : t <> ConditionVolumeAttributesClassReady ->
  class_ready n found -> class_ready (vn_upd (set_node_cond t st r m) n) found.
Proof. intros Ht. apply class_kept; [by split_and!|]. by apply node_cond_set_other. Qed.
Lemma own_name n : imported n = None -> DataPVCName n = "data-" +:+ n_Name (vn_Node n).
Proof. unfold DataPVCName. by intros ->. Qed.
Lemma create_moved b n found w res : imported n = None -> past_returns n = true -> class_ready n found ->
  executeCreate error_text storage b n w = Some res -> moved found w res.2.
Proof.
  intros Hi Hp Hr. unfold executeCreate. destruct (GenerateDataPVC n storage) as [desired|] eqn:Eg; [|done].
  destruct (GetClaim _ w) as [got w1] eqn:Er. destruct (GetClaim_spec _ _ _ _ Er) as [Hs _]. intros [= <-].
  destruct got as [[]|c].
  - destruct (holdForVolumeAttributesClass n) as [e|] eqn:Eh; [by left|].
    assert (Hj : justified (WCreate n desired, found)).
    { split_and!; [done..|]. intros name Hv. apply (Hr name Hi Hv). unfold holdForVolumeAttributesClass in Eh.
      rewrite Hv in Eh. unfold cond_is. destruct (node_cond _ _) as [d|]; [|done].
      apply bool_decide_eq_true. by destruct (decide _). }
    apply (moved_after _ _ w1); [done|]. pose proof (CreateClaim_moved found n desired w1 Hj) as H.
    by destruct (CreateClaim n desired w1) as [[[]|] w2].
  - by left.
  - by left.
  - destruct (IsControlledBy c n); by left.
Qed.
Lemma validateImport_same n name w : same_store w (validateImport error_text storage n name w).2.
Proof.
  unfold validateImport. destruct (GetClaim name w) as [got w1] eqn:Eg. destruct (GetClaim_spec _ _ _ _ Eg) as [Hs _].
  destruct got as [[]|c]; [done..|]. destruct (pvc_DeletionTimestamp c); [done|]. destruct (pvc_Phase c); [done|done| |done].
  destruct (negb _); [done|]. destruct (ParseQuantity _) as [req|]; [|done]. destruct (pvc_Capacity c) as [q|]; [|done].
  destruct (negb _); [done|]. destruct (_ =s _); [done|]. unfold checkVolume.
  destruct (GetVolume _ w1) as [got w2] eqn:Ev. apply GetVolume_same in Ev. by eapply same_trans.
Qed.
Lemma ensure_moved b n found w err b' n' w' : past_returns n = true -> class_ready n found ->
  ensureDataPVC_Execute error_text storage b n w = Some (err, b', n', w') -> moved found w w' /\ class_ready n' found.
Proof.
  intros Hp Hr. unfold ensureDataPVC_Execute. destruct (imported n) as [name|] eqn:Ei.
  - unfold executeImport. pose proof (validateImport_same n name w) as H.
    destruct (validateImport _ _ n name w) as [[e|] w1]; [destruct (ee_terminal e)|]; intros [= <- <- <- <-];
      (split; [by left|by apply class_set]).
  - destruct (executeCreate error_text storage b n w) as [[[e b1] w1]|] eqn:Ec; [|done]. intros [= <- <- <- <-].
    split; [by apply (create_moved b n found w (e, b1, w1))|done].
Qed.
Lemma owned_spec n w got w' : ownedDataPVC n w = (got, w') -> same_store w w' /\
  (forall c, got = inr (Some c) -> vw_seen w !! DataPVCName n = Some c /\ IsControlledBy c n = true).
Proof.
  unfold ownedDataPVC. destruct (GetClaim _ w) as [g w1] eqn:Eg. destruct (GetClaim_spec _ _ _ _ Eg) as [Hs Hc].
  intros [= <- <-]. split; [done|]. intros c. destruct g as [e|d]; [done|]. specialize (Hc d eq_refl).
  destruct (IsControlledBy d n) eqn:Ec; [|done]. by intros [= <-].
Qed.
Lemma resize_moved n found w : moved found w (reconcileDataVolumeResize error_text n w).2.
Proof.
  unfold reconcileDataVolumeResize. destruct (growableSize n); [|by left].
  destruct (ownedDataPVC n w) as [got w1] eqn:Eo. left. by apply (owned_spec n w got w1).
Qed.
Lemma resize_ready n found w : class_ready n found -> class_ready (reconcileDataVolumeResize error_text n w).1 found.
Proof.
  intros H. unfold reconcileDataVolumeResize. repeat case_match; by apply class_set.
Qed.
Lemma grow_ready n found w : class_ready n found -> class_ready (growDataPVC error_text n w).1 found.
Proof. intros H. unfold growDataPVC. repeat case_match; first [done|by apply class_set]. Qed.
Lemma growable_spec n want : growableSize n = inl want ->
  imported n = None /\ sp_NodeConfig (n_Spec (vn_Node n)) <> None /\ crdStorageSize n = Some want.
Proof.
  unfold growableSize, GrowableStorageSize. destruct (imported n); [done|].
  destruct (sp_NodeConfig _); [|done]. destruct (crdStorageSize n); [|done]. intros [= <-]. done.
Qed.
Lemma at_least_false (a b : Quantity) : at_least a b = false <-> Cmp a b = Lt.
Proof. unfold at_least. by destruct (Cmp a b). Qed.
Lemma grow_moved n found w : vw_ok w -> past_returns n = true -> moved found w (growDataPVC error_text n w).2.
Proof.
  intros Hok Hpr. unfold growDataPVC. destruct (growableSize n) as [want|] eqn:Eg; [|by left].
  destruct (growable_spec n want Eg) as (Hi & Hc & Hz).
  destruct (ownedDataPVC n w) as [got w1] eqn:Eo. destruct (owned_spec _ _ _ _ Eo) as [Hs Hown].
  destruct got as [e|[c|]]; [by left| |by left]. destruct (Hown c eq_refl) as [Hseen Hctl].
  destruct (_ || _) eqn:Eb; [by left|]. apply orb_false_iff in Eb as [Hb%bool_decide_eq_false Hl%at_least_false].
  apply (moved_after _ _ w1); [done|]. apply (ok_same _ _ Hs) in Hok as Hok1. destruct Hs as (_ & E2 & _).
  rewrite own_name in Hseen by done. pose proof (vo_seen_names w Hok _ _ Hseen) as Hn.
  assert (Hph : pvc_Phase c = ClaimBound) by (by destruct (decide (pvc_Phase c = ClaimBound))).
  pose proof (PatchRequest_moved found n c want w1 Hok1) as H. rewrite E2, Hn in H.
  specialize (H Hseen). destruct (PatchRequest n c want w1) as [[[]|] w2]; apply H; by split_and!.
Qed.
Lemma delete_moved now n found w : vw_ok w -> moved found w (deleteNodeDataPVC now n w).2.
Proof.
  intros Hok. unfold deleteNodeDataPVC. destruct (imported n) eqn:Hi; [by left|].
  destruct (GetClaim (DataPVCName n) w) as [got w1] eqn:Eg. destruct (GetClaim_spec _ _ _ _ Eg) as [Hs Hc].
  destruct got as [[]|c]; [by left..|]. apply (moved_after _ _ w1); [done|].
  apply DeleteClaim_moved; [by apply (ok_same w)|done|]. rewrite <-own_name by done.
  by apply (vo_seen_names w Hok _ _ (Hc c eq_refl)).
Qed.

Lemma outside_ok w w' : outside w w' -> vw_ok w -> vw_ok w' /\ vw_log w' = vw_log w.
Proof.
  intros Hs [H1 H2 H3 H4 H5]. destruct Hs as [name c w|name w|name w|volumes classes w]; (split; [|done]).
  - split; simpl; try done.
    + intros k d [[<- <-]|[_ Hd]]%lookup_insert_Some; [done|by apply H1].
    + intros k d [[<- <-]|[_ Hd]]%lookup_insert_Some; [simpl; lia|]. specialize (H3 k d Hd). lia.
    + intros k d Hd. specialize (H4 k d Hd). lia.
    + intros k d d' [[<- <-]|[_ Hd]]%lookup_insert_Some Hd' Hver; [|by eapply H5]. specialize (H4 _ _ Hd'). simpl in Hver. lia.
  - split; simpl; try done.
    + intros k d [_ Hd]%lookup_delete_Some. by apply H1.
    + intros k d [_ Hd]%lookup_delete_Some. by eapply H3.
    + intros k d d' [_ Hd]%lookup_delete_Some. by apply H5.
  - assert (Hseen : forall k d, partial_alter (fun _ => vw_claims w !! name) name (vw_seen w) !! k = Some d ->
      vw_claims w !! k = Some d \/ vw_seen w !! k = Some d).
    { intros k d. destruct (decide (name = k)) as [<-|Hne]; [rewrite lookup_partial_alter_eq; by left|].
      rewrite lookup_partial_alter_ne by done. by right. }
    split; simpl; try done.
    + intros k d [?|?]%Hseen; [by apply H1|by apply H2].
    + intros k d [?|?]%Hseen; [by eapply H3|by eapply H4].
    + intros k c d Hc [Hd|Hd]%Hseen Hv; [congruence|by eapply H5].
  - by split.
Qed.

Record life_ok (s : life) : Prop := {
  lo_world : vw_ok (lf_world s);
  lo_pass : forall n found, lf_pass s = Some (n, found) -> class_ready n found;
  lo_writes : map fst (lf_audit s) = vw_log (lf_world s);
  lo_audit : Forall justified (lf_audit s);
}.
(** An operation that made a justified write, or none, and left a node whose class
    is known. *)
Lemma made_ok pass found fs w' (s : life) :
  life_ok s -> moved found (vw_with_faults fs (lf_world s)) w' -> (forall n f, pass = Some (n, f) -> class_ready n f) ->
  life_ok (made pass found w' s).
Proof.
  intros [Hw _ Hm Ha] Hmv Hp. split; simpl; [|exact Hp|..].
  - eapply ok_moved; [exact Hmv|]. eapply ok_same; [apply faults_same|done].
  - rewrite map_app, Hm, map_map. simpl. rewrite map_id.
    destruct Hmv as [(_ & _ & _ & E)|(c & e & _ & _ & _ & _ & E & _)]; rewrite E; simpl.
    + by rewrite drop_all, app_nil_r.
    + by rewrite drop_app_length.
  - destruct Hmv as [(_ & _ & _ & E)|(c & e & _ & _ & _ & _ & E & He)]; rewrite E; simpl.
    + by rewrite drop_all, app_nil_r.
    + rewrite drop_app_length. apply Forall_app. split; [done|]. by constructor.
Qed.
Lemma vstep_ok s s' : vstep s s' -> life_ok s -> life_ok s'.
Proof.
  intros Hs Hok. pose proof Hok as [Hw Hp Hm Ha].
  assert (Hf : forall fs, vw_ok (vw_with_faults fs (lf_world s))) by (intros; eapply ok_same; [apply faults_same|done]).
  destruct Hs as [w' s Ho|n fs s r|n n' found s E Hsv Hc|n found fs s E r|n found fs s E Hl r|b n found fs s err b' n' w' E Hl He|s|now n fs s].
  - destruct (outside_ok _ _ Ho Hw) as [Hw' El]. split; simpl; [done..| |done]. by rewrite El.
  - eapply made_ok; [done|left; apply class_same|]. intros ? ? [= <- <-]. apply class_begins.
  - split; simpl; try done. intros ? ? [= <- <-]. eapply class_kept; [done..|by apply Hp].
  - eapply made_ok; [done|apply resize_moved|]. intros ? ? [= <- <-]. by apply resize_ready, Hp.
  - eapply made_ok; [done|by apply grow_moved|]. intros ? ? [= <- <-]. by apply grow_ready, Hp.
  - destruct (ensure_moved _ _ found _ _ _ _ _ Hl (Hp _ _ E) He) as [Hmv Hr].
    eapply made_ok; [done|exact Hmv|]. by intros ? ? [= <- <-].
  - by split.
  - eapply made_ok; [done|by apply delete_moved|done].
Qed.

Definition vw_init (volumes : gmap string PV) (classes : gmap string string) : vworld :=
  mkVworld ∅ ∅ volumes classes 0 [] [].

Definition life_init (volumes : gmap string PV) (classes : gmap string string) : life :=
  mkLife None (vw_init volumes classes) [].

(** C14: Whatever other actors do to the claims of the namespace and to the classes of
    the cluster, at any time, however stale the cache of claims is, wherever a
    reconcile dies and whichever calls fail or are lost, each write of the
    controller that takes effect is justified. A claim is created only under the
    node's own name, as the node's spec asks, in a reconcile past its returns for
    a Failed and for a paused node, and when the node selects a class, that very
    reconcile had read the class under that name and had been answered with its
    driver: a True condition left by an earlier reconcile is not enough. A request
    is changed only upwards, to the size of the spec, past the same returns, on a
    bound claim the node controls, of a node with a mounted config. A claim is
    deleted only under the node's own name. A node that imports its volume writes
    nothing. *)
Theorem volume_writes_justified volumes classes s :
  rtc vstep (life_init volumes classes) s ->
  map fst (lf_audit s) = vw_log (lf_world s) /\ Forall justified (lf_audit s).
Proof.
  intros Hr. assert (Hrun : forall a b, rtc vstep a b -> life_ok a -> life_ok b) by (induction 1; eauto using vstep_ok).
  assert (Hok : life_ok s) by (apply (Hrun _ _ Hr); by repeat split). split; [apply Hok|apply Hok].
Qed.
End Life.

(** ** When the server answers *)
Section Calm.
Context {Q : Quantities} {QL : QuantitiesLaws Q} {SC : StatusConditions} {SCL : StatusConditionsLaws SC}.
Context (error_text : api_error -> string) (storage : StorageConfig).
Implicit Types (n : vnode) (w : vworld) (c : PVC).

(** No call fails, and the cache shows the claims as they are. *)
Definition calm w : Prop := vw_faults w = [] /\ vw_seen w = vw_claims w.
Definition synced w : vworld :=
  mkVworld (vw_claims w) (vw_claims w) (vw_volumes w) (vw_classes w) (vw_next w) (vw_faults w) (vw_log w).
(** The provider reports the capacity of a claim. *)
Definition provides (name : string) (q : Quantity) w : vworld :=
  let report c := mkPVC (pvc_Name c) (vw_next w) (pvc_Controller c) (pvc_DeletionTimestamp c) (pvc_AccessModes c)
    (pvc_StorageClass c) (pvc_VolumeAttributesClass c) (pvc_Request c) (pvc_VolumeName c) (pvc_Phase c) (Some q)
    (pvc_Conditions c) (pvc_AllocatedStatus c) in
  synced (mkVworld (alter report name (vw_claims w)) (vw_seen w) (vw_volumes w) (vw_classes w) (vw_next w + 1)
    (vw_faults w) (vw_log w)).

Lemma calm_read {A} (look : vworld -> option A) w : vw_faults w = [] ->
  read_ look w = (match look w with Some a => inr a | None => inl ENotFound end, w).
Proof. intros Hf. unfold read_, vw_fault. by rewrite Hf. Qed.
Lemma calm_owned n w : calm w ->
  ownedDataPVC n w = (match vw_claims w !! DataPVCName n with
                      | Some c => inr (if IsControlledBy c n then Some c else None)
                      | None => inl ENotFound
                      end, w).
Proof. intros [Hf Hs]. unfold ownedDataPVC, GetClaim. rewrite (calm_read _ w Hf), Hs. by destruct (_ !! _). Qed.
Lemma resize_status n w want c : calm w -> growableSize n = inl want -> vw_claims w !! DataPVCName n = Some c ->
  IsControlledBy c n = true -> pvc_Phase c = ClaimBound ->
  cond_is (vn_Node (reconcileDataVolumeResize error_text n w).1) ConditionDataVolumeResizeInProgress
    (if at_least (default qty_zero (pvc_Capacity c)) want then ConditionFalse else ConditionTrue) = true.
Proof.
  intros Hw Hg Hc Hctl Hb. unfold reconcileDataVolumeResize. rewrite Hg, calm_owned, Hc, Hctl by done. cbn [fst].
  rewrite bool_decide_eq_false_2 by (rewrite Hb; congruence).
  destruct (at_least _ want); unfold setDataVolumeResize, vn_upd; simpl; rewrite cond_is_set; by apply bool_decide_eq_true.
Qed.
Lemma at_least_refl (q : Quantity) : at_least q q = true.
Proof. unfold at_least. by rewrite Cmp_refl. Qed.

Lemma class_calm n w : calm w -> (reconcileVolumeAttributesClass error_text n w).2 = w.
Proof.
  intros [Hf _]. unfold reconcileVolumeAttributesClass, GetClass. destruct (imported n); [done|].
  destruct (VolumeAttributesClassForNode n); [|done]. by rewrite (calm_read _ w Hf).
Qed.
Lemma resize_calm n w : calm w -> (reconcileDataVolumeResize error_text n w).2 = w.
Proof. intros Hw. unfold reconcileDataVolumeResize. destruct (growableSize n); [|done]. by rewrite calm_owned. Qed.
Lemma resize_frame n w : same_volume n (reconcileDataVolumeResize error_text n w).1.
Proof. unfold reconcileDataVolumeResize. repeat case_match; by split_and!. Qed.
Lemma same_volume_trans n n1 n2 : same_volume n n1 -> same_volume n1 n2 -> same_volume n n2.
Proof. unfold same_volume. intros (<- & <- & <- & <-). done. Qed.
Lemma same_volume_grows n n1 : same_volume n n1 ->
  growableSize n1 = growableSize n /\ DataPVCName n1 = DataPVCName n /\ forall c, IsControlledBy c n1 = IsControlledBy c n.
Proof.
  intros (Eu & Ev & En & Es). unfold growableSize, GrowableStorageSize, DataPVCName, imported, crdStorageSize, IsControlledBy.
  by rewrite Eu, Ev, En, Es.
Qed.
Lemma preflights_returns n w :
  past_returns (reconcileDataVolumeResize error_text (reconcileVolumeAttributesClass error_text n w).1 w).1 = past_returns n.
Proof.
  assert (H1 : past_returns (reconcileVolumeAttributesClass error_text n w).1 = past_returns n)
    by (unfold reconcileVolumeAttributesClass; by repeat case_match).
  rewrite <- H1. generalize (reconcileVolumeAttributesClass error_text n w).1. intros n1.
  unfold reconcileDataVolumeResize. by repeat case_match.
Qed.
(** The pass with the pre-flights done. *)
Lemma volume_pass_calm n w : calm w -> exists n2, same_volume n n2 /\
  volume_pass error_text n w = (if past_returns n then growDataPVC error_text n2 w else (n2, w)) /\
  forall want c, growableSize n = inl want -> vw_claims w !! DataPVCName n = Some c ->
    IsControlledBy c n = true -> pvc_Phase c = ClaimBound ->
    cond_is (vn_Node n2) ConditionDataVolumeResizeInProgress
      (if at_least (default qty_zero (pvc_Capacity c)) want then ConditionFalse else ConditionTrue) = true.
Proof.
  intros Hw. exists (reconcileDataVolumeResize error_text (reconcileVolumeAttributesClass error_text n w).1 w).1.
  pose proof (class_frame error_text n w) as Hs. pose proof (preflights_returns n w) as Hp.
  split_and!; [by eapply same_volume_trans, resize_frame| |].
  - unfold volume_pass. pose proof (class_calm n w Hw) as E1.
    destruct (reconcileVolumeAttributesClass error_text n w) as [n1 w1]. simpl in *. subst w1.
    pose proof (resize_calm n1 w Hw) as E2. destruct (reconcileDataVolumeResize error_text n1 w) as [n2 w2]. simpl in *. subst w2.
    by rewrite Hp.
  - intros want c Hg Hc Hctl Hb. destruct (same_volume_grows _ _ Hs) as (Eg & En & Ec).
    apply resize_status; [done|by rewrite Eg|by rewrite En|by rewrite Ec|done].
Qed.
(** The growth of a bound claim the node controls: the patch is not refused. *)
Lemma grow_calm n w want c : calm w -> growableSize n = inl want -> pvc_Name c = DataPVCName n ->
  vw_claims w !! DataPVCName n = Some c -> IsControlledBy c n = true -> pvc_Phase c = ClaimBound ->
  exists w', growDataPVC error_text n w = (n, w') /\ vw_faults w' = [] /\
  if at_least (default qty_zero (pvc_Request c)) want then w' = w
  else exists c1, vw_claims w' = <[DataPVCName n := c1]> (vw_claims w) /\ pvc_Name c1 = DataPVCName n /\
    pvc_Controller c1 = pvc_Controller c /\ pvc_Phase c1 = ClaimBound /\ pvc_Request c1 = Some want.
Proof.
  intros Hw Hg Hn Hc Hctl Hb. unfold growDataPVC. rewrite Hg, calm_owned, Hc, Hctl by done.
  rewrite bool_decide_eq_false_2 by (rewrite Hb; congruence). simpl. destruct Hw as [Hf Hs].
  destruct (at_least _ want); [by exists w|].
  unfold PatchRequest, vw_fault. rewrite Hf, Hn, Hc, Z.eqb_refl. simpl.
  eexists. split_and!; [reflexivity|done|]. simpl. rewrite Hn. by eexists.
Qed.
Lemma provides_spec name q w c : vw_faults w = [] -> vw_claims w !! name = Some c ->
  calm (provides name q w) /\ exists c', vw_claims (provides name q w) !! name = Some c' /\ pvc_Name c' = pvc_Name c /\
    pvc_Controller c' = pvc_Controller c /\ pvc_Phase c' = pvc_Phase c /\ pvc_Capacity c' = Some q.
Proof.
  intros Hf Hc. split; [by split|]. unfold provides. simpl. rewrite lookup_alter_eq, Hc. by eexists.
Qed.

(** C15: The growth of a volume ends where the spec says, on a node whose reconciles
    get past their returns. Take a node with a growable size and a bound claim it
    controls, and reconciles whose calls are all answered and whose cache of
    claims holds what the server does. The volume's part of one reconcile of a
    node that is neither Failed nor paused raises the claim's request to the size
    of the spec, unless it is there already, and that of the next writes
    nothing; a Failed or a paused node's raises nothing. Neither touches another
    claim. And every later one, paused or not, leaves DataVolumeResizeInProgress
    True as long as the capacity the provider reports is below that size, and
    False when it is not. *)
Theorem growth_converges n w want c :
  calm w -> growableSize n = inl want -> pvc_Name c = DataPVCName n -> vw_claims w !! DataPVCName n = Some c ->
  IsControlledBy c n = true -> pvc_Phase c = ClaimBound ->
  let w1 := synced (volume_pass error_text n w).2 in
  (if past_returns n then
     (exists c1, vw_claims w1 !! DataPVCName n = Some c1 /\
        default qty_zero (pvc_Request c1) = (if at_least (default qty_zero (pvc_Request c)) want
                                             then default qty_zero (pvc_Request c) else want)) /\
     forall n', same_volume n n' -> (volume_pass error_text n' w1).2 = w1
   else vw_claims w1 = vw_claims w) /\
  (forall name, name <> DataPVCName n -> vw_claims w1 !! name = vw_claims w !! name) /\
  forall n' q, same_volume n n' ->
    cond_is (vn_Node (volume_pass error_text n' (provides (DataPVCName n) q w1)).1)
      ConditionDataVolumeResizeInProgress (if at_least q want then ConditionFalse else ConditionTrue) = true.
Proof.
  intros Hw Hg Hn Hc Hctl Hb w1.
  assert (H1 : exists c1, vw_claims w1 = <[DataPVCName n := c1]> (vw_claims w) /\ vw_faults w1 = [] /\
    pvc_Name c1 = DataPVCName n /\ pvc_Controller c1 = pvc_Controller c /\ pvc_Phase c1 = ClaimBound /\
    if past_returns n then default qty_zero (pvc_Request c1) = (if at_least (default qty_zero (pvc_Request c)) want
                             then default qty_zero (pvc_Request c) else want)
    else c1 = c).
  { unfold w1. destruct (volume_pass_calm n w Hw) as (n2 & Hs & -> & _). destruct (same_volume_grows _ _ Hs) as (Eg & En & Ec).
    destruct (past_returns n); [|exists c; simpl; rewrite insert_id by done; by destruct Hw].
    destruct (grow_calm n2 w want c) as (w' & -> & Hf' & Hr); [done|congruence|congruence|by rewrite En|by rewrite Ec|done|].
    simpl. destruct (at_least _ want); [subst w'; exists c; by rewrite insert_id|].
    destruct Hr as (c1 & E1 & Hn1 & Hc1 & Hp1 & Hr1). rewrite En in *. exists c1. split_and!; try done. by rewrite Hr1. }
  destruct H1 as (c1 & E1 & Hf1 & Hn1 & Hc1 & Hb1 & Hr1).
  assert (Hl1 : vw_claims w1 !! DataPVCName n = Some c1) by (rewrite E1; apply lookup_insert_eq).
  assert (Hctl1 : forall c', pvc_Controller c' = pvc_Controller c1 -> IsControlledBy c' n = true)
    by (intros c' E; revert Hctl; unfold IsControlledBy; by rewrite E, Hc1).
  assert (Hw1 : calm w1) by (by split). clearbody w1.
  split_and!.
  - destruct (past_returns n); [split; [by exists c1|]|by rewrite E1, Hr1, insert_id].
    intros n' Hs. destruct (volume_pass_calm n' w1 Hw1) as (n2 & Hs2 & -> & _). destruct (past_returns n'); [|done].
    destruct (same_volume_grows _ _ (same_volume_trans _ _ _ Hs Hs2)) as (Eg & En & Ec).
    destruct (grow_calm n2 w1 want c1) as (w' & -> & _ & Hr);
      [done|congruence|congruence|by rewrite En|rewrite Ec; by apply Hctl1|done|].
    rewrite Hr1 in Hr. destruct (at_least (default qty_zero (pvc_Request c)) want) eqn:El; [by rewrite El in Hr|].
    by rewrite at_least_refl in Hr.
  - intros name Hne. by rewrite E1, lookup_insert_ne.
  - intros n' q Hs. destruct (provides_spec (DataPVCName n) q w1 c1 Hf1 Hl1) as (Hwq & c' & Hl' & Hn' & Hc' & Hb' & Hq).
    set (wq := provides (DataPVCName n) q w1) in *. clearbody wq.
    destruct (volume_pass_calm n' wq Hwq) as (n2 & Hs2 & -> & Hst).
    destruct (same_volume_grows _ _ Hs) as (Eg' & En' & Ec').
    assert (Hcond := Hst want c' ltac:(congruence) ltac:(by rewrite En') ltac:(rewrite Ec'; by apply Hctl1) ltac:(congruence)).
    rewrite Hq in Hcond. simpl in Hcond. destruct (past_returns n'); [|done].
    destruct (same_volume_grows _ _ (same_volume_trans _ _ _ Hs Hs2)) as (Eg & En & Ec).
    destruct (grow_calm n2 wq want c') as (w' & -> & _ & _);
      [done|congruence|congruence|by rewrite En|rewrite Ec; by apply Hctl1|congruence|done].
Qed.

(** *** Creation *)
Lemma class_condition n w : imported n = None -> calm w ->
  reconcileVolumeAttributesClass error_text n w =
    ((reconcileVolumeAttributesClass error_text n w).1, w) /\
  cond_is (vn_Node (reconcileVolumeAttributesClass error_text n w).1) ConditionVolumeAttributesClassReady
    (match VolumeAttributesClassForNode n with
     | Some name => match vw_classes w !! name with Some _ => ConditionTrue | None => ConditionFalse end
     | None => ConditionTrue
     end) = true.
Proof.
  intros Hi [Hf _]. unfold reconcileVolumeAttributesClass, GetClass. rewrite Hi.
  destruct (VolumeAttributesClassForNode n) as [name|]; [rewrite (calm_read _ w Hf); destruct (_ !! _)|];
    (split; [done|]); simpl; rewrite cond_is_set; by apply bool_decide_eq_true.
Qed.
Lemma hold_iff n status : cond_is (vn_Node n) ConditionVolumeAttributesClassReady status = true ->
  VolumeAttributesClassForNode n <> None ->
  is_Some (holdForVolumeAttributesClass n) <-> status <> ConditionTrue.
Proof.
  unfold cond_is, holdForVolumeAttributesClass. destruct (VolumeAttributesClassForNode n); [|done].
  destruct (node_cond _ _) as [d|]; [|done]. intros <-%bool_decide_eq_true _.
  destruct (decide (c_Status d = ConditionTrue)) as [->|]; [by split; [intros []|]|]. split; [done|by eexists].
Qed.

Lemma generated_claim n d : GenerateDataPVC n storage = Some d ->
  pvc_Name d = DataPVCName n /\ pvc_Controller d = Some (vn_UID n).
Proof.
  unfold GenerateDataPVC. destruct (StorageForNode n storage). destruct (ParseQuantity _); simpl; [|done]. by intros [= <-].
Qed.
Lemma create_calm b n w d : calm w -> imported n = None -> GenerateDataPVC n storage = Some d ->
  ensureDataPVC_Execute error_text storage b n w =
    match vw_claims w !! DataPVCName n with
    | Some c => if IsControlledBy c n then Some (None, complete b, n, w)
                else Some (Some (not_owned n c), b, n, w)
    | None => match holdForVolumeAttributesClass n with
              | Some e => Some (Some e, b, n, w)
              | None => Some (None, complete b, n,
                              vw_write (pvc_meta (DataPVCName n) (vw_next w) None d) (WCreate n d) w)
              end
    end.
Proof.
  intros [Hf Hs] Hi Hd. destruct (generated_claim n d Hd) as [Hn _]. unfold ensureDataPVC_Execute. rewrite Hi.
  unfold executeCreate, GetClaim. rewrite Hd, Hn, (calm_read _ w Hf), Hs.
  destruct (vw_claims w !! DataPVCName n) as [c|] eqn:Ec; [by destruct (IsControlledBy c n)|].
  destruct (holdForVolumeAttributesClass n); [done|]. unfold CreateClaim, vw_fault. by rewrite Hf, Hn, Ec.
Qed.
Lemma hold_transient n e : holdForVolumeAttributesClass n = Some e -> ee_terminal e = false.
Proof.
  unfold holdForVolumeAttributesClass. destruct (VolumeAttributesClassForNode n); [|done].
  destruct (node_cond _ _); [destruct (decide _)|]; try done; by intros [= <-].
Qed.
(** The class the node selects is there, or it selects none. *)
Definition class_found n w : bool :=
  match VolumeAttributesClassForNode n with Some name => bool_decide (is_Some (vw_classes w !! name)) | None => true end.
Lemma hold_found n w : imported n = None -> calm w ->
  is_Some (holdForVolumeAttributesClass (reconcileVolumeAttributesClass error_text n w).1) <-> class_found n w = false.
Proof.
  intros Hi Hw. destruct (class_condition n w Hi Hw) as [_ Hc]. unfold class_found.
  destruct (same_volume_asks storage n _ (class_frame error_text n w)) as (_ & Hv & _).
  destruct (VolumeAttributesClassForNode n) as [name|].
  - rewrite (hold_iff _ _ Hc) by (by rewrite Hv). destruct (vw_classes w !! name).
    + rewrite bool_decide_eq_true_2 by (by eexists). by split; [intros []|].
    + rewrite bool_decide_eq_false_2 by (by intros []). by split.
  - unfold holdForVolumeAttributesClass. rewrite Hv. split; [by intros []|done].
Qed.

(** Property: A volume is created once, when the class it selects is there: with the
    server answering and no claim under the node's name, the pre-flight and then the
    task create the claim the spec asks for and complete, or, when the
    class is missing, create nothing and ask to be called again; a
    second run of the task finds the claim and writes nothing. *)
Theorem volume_created_once b n w d :
  calm w -> imported n = None -> GenerateDataPVC n storage = Some d -> vw_claims w !! DataPVCName n = None ->
  let n1 := (reconcileVolumeAttributesClass error_text n w).1 in
  if class_found n w then
    let w1 := vw_write (pvc_meta (DataPVCName n) (vw_next w) None d) (WCreate n1 d) w in
    ensureDataPVC_Execute error_text storage b n1 w = Some (None, complete b, n1, w1) /\
    ensureDataPVC_Execute error_text storage b n1 (synced w1) = Some (None, complete b, n1, synced w1)
  else exists e, ensureDataPVC_Execute error_text storage b n1 w = Some (Some e, b, n1, w) /\ ee_terminal e = false.
Proof.
  intros Hw Hi Hd Hn n1. pose proof (hold_found n w Hi Hw) as Hh. fold n1 in Hh.
  pose proof (class_frame error_text n w) as Hsame. fold n1 in Hsame. clearbody n1.
  destruct (same_volume_asks storage n n1 Hsame) as (Hi1 & _ & Hd1). rewrite Hi in Hi1. rewrite Hd in Hd1.
  destruct (generated_claim n1 d Hd1) as [Hdn Hctl].
  assert (Hname : DataPVCName n1 = DataPVCName n) by (destruct (generated_claim n d Hd); congruence).
  pose proof (create_calm b n1 w d Hw Hi1 Hd1) as Hrun. rewrite Hname, Hn in Hrun.
  destruct (class_found n w); (destruct (holdForVolumeAttributesClass n1) as [e|] eqn:Eh).
  - discriminate (proj1 Hh (mk_is_Some _ _ eq_refl)).
  - split; [done|]. rewrite (create_calm b n1 _ d) by (done || by split; [apply Hw|]). simpl.
    rewrite Hname, lookup_insert_eq. unfold IsControlledBy. simpl. by rewrite Hctl, bool_decide_eq_true_2.
  - exists e. split; [done|by eapply hold_transient].
  - by destruct (proj2 Hh eq_refl).
Qed.

(** *** Import *)
(** What an imported claim must be. *)
Definition importable n (name : string) w : Prop :=
  exists pvc actual required pv,
    vw_claims w !! name = Some pvc /\ pvc_DeletionTimestamp pvc = None /\ pvc_Phase pvc = ClaimBound /\
    (ReadWriteOnce ∈ pvc_AccessModes pvc \/ ReadWriteOncePod ∈ pvc_AccessModes pvc) /\
    pvc_Capacity pvc = Some actual /\ ParseQuantity (StorageForNode n storage).2 = Some required /\
    at_least actual required = true /\ pvc_VolumeName pvc <> "" /\
    vw_volumes w !! pvc_VolumeName pvc = Some pv /\ pv_Failed pv = false /\
    exists vc, pv_Capacity pv = Some vc /\ Cmp vc actual = Eq.
Lemma checkVolume_calm name actual pvName w : vw_faults w = [] ->
  (checkVolume error_text name actual pvName w).1 = None <->
  exists pv, vw_volumes w !! pvName = Some pv /\ pv_Failed pv = false /\ exists vc, pv_Capacity pv = Some vc /\ Cmp vc actual = Eq.
Proof.
  intros Hf. unfold checkVolume, GetVolume. rewrite (calm_read _ w Hf).
  destruct (vw_volumes w !! pvName) as [pv|]; [|split; [done|by intros (? & ? & _)]]. cbn [fst].
  destruct (pv_Failed pv) eqn:Ef; [split; [done|intros (pv' & [= <-] & ? & _); congruence]|].
  destruct (pv_Capacity pv) as [c|] eqn:Ec; [destruct (Cmp c actual) eqn:Em|];
    (split; [try done|intros (pv' & [= <-] & _ & c' & Hc' & Hm); congruence]).
  intros _. exists pv. split_and!; [done|done|by exists c].
Qed.
Lemma validateImport_calm n name w : calm w ->
  (validateImport error_text storage n name w).1 = None <-> importable n name w.
Proof.
  intros [Hf Hs]. unfold validateImport, GetClaim, importable. rewrite (calm_read _ w Hf), Hs.
  destruct (vw_claims w !! name) as [pvc|]; [|split; [done|by intros (? & ? & ? & ? & ? & _)]].
  destruct (pvc_DeletionTimestamp pvc) eqn:Et; [split; [done|intros (? & ? & ? & ? & [= <-] & ? & _); congruence]|].
  destruct (pvc_Phase pvc) eqn:Ep; try (split; [done|intros (? & ? & ? & ? & [= <-] & _ & ? & _); congruence]).
  destruct (negb _) eqn:Em.
  { split; [done|]. intros (? & ? & ? & ? & [= <-] & _ & _ & Hm & _). apply negb_true_iff, orb_false_iff in Em as [H1 H2].
    apply bool_decide_eq_false in H1, H2. by destruct Hm. }
  apply negb_false_iff, orb_true_iff in Em. rewrite !bool_decide_eq_true in Em.
  destruct (ParseQuantity _) as [req|] eqn:Er; [|split; [done|by intros (? & ? & ? & ? & [= <-] & _ & _ & _ & _ & ? & _)]].
  destruct (pvc_Capacity pvc) as [actual|] eqn:Ea; [|split; [done|intros (? & ? & ? & ? & [= <-] & _ & _ & _ & ? & _); congruence]].
  destruct (at_least actual req) eqn:El; cbn [negb];
    [|split; [done|intros (? & ? & ? & ? & [= <-] & _ & _ & _ & Ha & [= <-] & ? & _); congruence]].
  destruct (String.eqb_spec (pvc_VolumeName pvc) "") as [Ev|Ev];
    [split; [done|by intros (? & ? & ? & ? & [= <-] & _ & _ & _ & _ & _ & _ & ? & _)]|].
  rewrite checkVolume_calm by done. split.
  - intros (pv & ? & ? & ?). exists pvc, actual, req, pv. by split_and!.
  - intros (? & ? & ? & pv & [= <-] & _ & _ & _ & Ha & [= <-] & _ & _ & Hv & Hpf & c & Hc & Hm).
    exists pv. split_and!; [done|done|]. exists c. split; [done|congruence].
Qed.

(** Property: An imported volume is taken exactly when it can carry the node: with the
    server answering, the task completes and ImportPVCReady is True if the claim is
    there, stays, is bound for a single writer and is large enough, on a volume of
    the same size that has not failed; otherwise the condition is False and the
    task fails for good or waits; either way nothing is written. *)
Theorem import_verdict b n name w : calm w -> imported n = Some name ->
  exists err b' n', ensureDataPVC_Execute error_text storage b n w = Some (err, b', n', (validateImport error_text storage n name w).2) /\
    same_store w (validateImport error_text storage n name w).2 /\
    (importable n name w -> err = None /\ b' = complete b /\
       cond_is (vn_Node n') ConditionImportPVCReady ConditionTrue = true) /\
    (~ importable n name w -> b' = b /\ (forall e, err = Some e -> ee_terminal e = true) /\
       cond_is (vn_Node n') ConditionImportPVCReady ConditionFalse = true).
Proof.
  intros Hw Hi. pose proof (validateImport_calm n name w Hw) as Hv. pose proof (validateImport_same error_text storage n name w) as Hs.
  unfold ensureDataPVC_Execute. rewrite Hi. unfold executeImport.
  destruct (validateImport _ _ n name w) as [[e|] w1]; cbn [fst snd] in *; [destruct (ee_terminal e) eqn:Et|];
    eexists _, _, _; (split_and!; [reflexivity|done|intros H|intros H]).
  all: try (apply Hv in H; done). all: try (by destruct H; apply Hv).
  all: split_and!; try done; try (simpl; rewrite cond_is_set; by apply bool_decide_eq_true).
  by intros ? [= <-].
Qed.
End Calm.

(** ** What the startup check leaves open *)
Definition with_size_default {Q : Quantities} (size : string) (c : Config) : Config :=
  let s := cf_Storage c in
  mkConfig (cf_NodepoolName c) (cf_NodepoolArchive c) (cf_NodepoolValidator c) (cf_NodepoolSeed c) (cf_TolerationKey c)
    (cf_ServiceAccount c)
    (mkStorageConfig (sg_ClassPerf s) (sg_ClassDefault s) (sg_ClassArchive s) size (sg_SizeArchive s) (sg_SizeSeed s))
    (cf_SnapshotBucket c) (cf_SnapshotRegion c) (cf_GenesisBucket c) (cf_GenesisRegion c) (cf_SidecarImage c)
    (cf_KubeRBACProxyImage c) (cf_GatewayName c) (cf_GatewayNamespace c) (cf_GatewayDomain c) (cf_Validator c) (cf_Node c)
    (cf_Replayer c) (cf_Archive c) (cf_Seed c) (cf_DriftUpdateBudgetPercent c).

Lemma first_missing_none fields : first_missing fields = None <-> Forall (fun f => TrimSpace f.2 <> "") fields.
Proof.
  induction fields as [|[name val] fields IH]; simpl; [split; [constructor|done]|]. rewrite Forall_cons. simpl.
  destruct (String.eqb_spec (TrimSpace val) ""); [|rewrite IH]; naive_solver.
Qed.
(** Property: The startup check accepts a storage size that is no quantity: any text for
    storage.sizeDefault passes with a configuration that passes otherwise, and
    the task that creates the volume of a full node without a size of its own then panics. *)
Theorem unparsed_size_panics {Q : Quantities} {SC : StatusConditions} (c : Config) (size : string) error_text b n w :
  Config_Validate c = Ok tt -> TrimSpace size <> "" -> ParseQuantity size = None ->
  Config_Validate (with_size_default size c) = Ok tt /\
  (imported n = None -> NodeMode (vn_Node n) = ModeFull -> crdStorageSize n = None ->
   ensureDataPVC_Execute error_text (cf_Storage (with_size_default size c)) b n w = None).
Proof.
  intros Hv Hs Hp. split.
  - unfold Config_Validate in *. cbn [with_size_default cf_NodepoolName cf_NodepoolArchive cf_NodepoolValidator cf_NodepoolSeed
      cf_TolerationKey cf_ServiceAccount cf_Storage sg_ClassPerf sg_ClassDefault sg_ClassArchive sg_SizeDefault sg_SizeArchive
      cf_SnapshotBucket cf_SnapshotRegion cf_GenesisBucket cf_GenesisRegion cf_SidecarImage cf_KubeRBACProxyImage
      cf_GatewayName cf_GatewayNamespace cf_GatewayDomain cf_Validator cf_Node cf_Replayer cf_Archive cf_Seed
      cf_DriftUpdateBudgetPercent] in *.
    destruct (first_missing _) eqn:E in Hv; [done|]. apply first_missing_none in E.
    rewrite (proj2 (first_missing_none _)); [exact Hv|].
    rewrite !Forall_cons in *. simpl in *. naive_solver.
  - intros Hi Hm Hz. unfold ensureDataPVC_Execute. rewrite Hi. unfold executeCreate, GenerateDataPVC, StorageForNode.
    rewrite Hm, Hz. simpl. by rewrite Hp.
Qed.

(** ** Witnesses and examples *)
(** Quantities written in tally marks. *)
Fixpoint tally (q : nat) : string := match q with O => EmptyString | S q' => String "|"%char (tally q') end.
Definition all_tally (s : string) : bool := str_forall (Ascii.eqb "|"%char) s.
Definition tally_quantities : Quantities :=
  {| Quantity := nat; Cmp := Nat.compare; qty_String := tally; qty_zero := 0;
     ParseQuantity := fun s => if all_tally s then Some (String.length s) else None |}.
Lemma tally_quantities_laws : QuantitiesLaws tally_quantities.
Proof.
  split; simpl.
  - apply Nat.compare_refl.
  - apply Nat.compare_antisym.
  - intros a b c H. apply Nat.compare_eq in H. by subst.
  - intros q. exists q. split; [|apply Nat.compare_refl].
    assert (Ht : all_tally (tally q) = true) by (induction q; [done|apply IHq]). rewrite Ht. f_equal. induction q; [done|].
    simpl in *. by f_equal; apply IHq.
Qed.

Module VolumeExamples.
#[local] Existing Instances tally_quantities list_conditions tally_quantities_laws list_conditions_laws.
Definition text (e : api_error) : string := "server error".
Definition sizes : StorageConfig := mkStorageConfig "perf" "default" "archive" "|||||" "||||||||" "".
Definition spec : SeiNodeSpec :=
  mkSeiNodeSpec "arctic-1" "sei:v1" [] ∅ None None [] (Some (mkNodeConfig "cfg" "app")) None None
    (Some (mkFullNodeSpec None None None)) None None None None "" false 0 None.
Definition status : SeiNodeStatus := mkSeiNodeStatus PhasePending "" "" "" IsolationNone "" [] None None [] [] 0 HoldNone.
Definition node (size : nat) : vnode :=
  mkVnode (mkSeiNode "full-0" "nodes" 1 0 ∅ spec status) "uid-1"
    (Some (mkDataVolumeSpec None (Some (mkDataVolumeStorage (Some {[ResourceStorage := size]}) (Some "gp3-fast"))))).
Definition importing : vnode :=
  mkVnode (vn_Node (node 5)) "uid-1" (Some (mkDataVolumeSpec (Some "old-data") None)).
Definition w0 : vworld := vw_init ∅ {["gp3-fast" := "ebs.csi.aws.com"]}.
Definition ensure n w := ensureDataPVC_Execute text sizes newBase n w.
Definition checked (size : nat) w : vnode := (reconcileVolumeAttributesClass text (node size) w).1.
Definition after (o : option (option exec_error * taskBase * vnode * vworld)) w : vworld :=
  match o with Some (_, _, _, w') => w' | None => w end.
Definition w_created : vworld := after (ensure (checked 5 w0) w0) w0.
(** The provider binds the claim, and the cache takes it over. *)
Definition bound (c : PVC) : PVC :=
  mkPVC (pvc_Name c) (pvc_Version c) (pvc_Controller c) (pvc_DeletionTimestamp c) (pvc_AccessModes c) (pvc_StorageClass c)
    (pvc_VolumeAttributesClass c) (pvc_Request c) "pv-1" ClaimBound (pvc_Request c) [] None.
Definition claim : PVC :=
  bound (default (mkPVC "" 0 None None [] "" None None "" ClaimNoPhase None [] None) (vw_claims w_created !! "data-full-0")).
Definition bound_claim : PVC := pvc_meta "data-full-0" (vw_next w_created) (pvc_DeletionTimestamp claim) claim.
Definition w_bound : vworld :=
  mkVworld (<["data-full-0" := bound_claim]> (vw_claims w_created)) (vw_seen w_created) (vw_volumes w_created)
    (vw_classes w_created) (vw_next w_created + 1) [] (vw_log w_created).
(** A reconcile begins, its task runs, its growth runs. *)
Definition begun n (s : life) : life :=
  let r := reconcileVolumeAttributesClass text n (vw_with_faults [] (lf_world s)) in
  made (Some (r.1, class_answer n [] (lf_world s))) None r.2 s.
Definition ensured n found (s : life) : life :=
  match ensureDataPVC_Execute text sizes newBase n (vw_with_faults [] (lf_world s)) with
  | Some (_, _, n', w') => made (Some (n', found)) found w' s
  | None => s
  end.
Definition grown n found (s : life) : life :=
  let r := growDataPVC text n (vw_with_faults [] (lf_world s)) in made (Some (r.1, found)) found r.2 s.
Lemma ensured_step n found s : lf_pass s = Some (n, found) -> past_returns n = true ->
  rtc (vstep text sizes) s (ensured n found s).
Proof.
  intros Hp Hr. unfold ensured. destruct (ensureDataPVC_Execute _ _ _ _ _) as [[[[err b] n'] w']|] eqn:E; [|done].
  eapply rtc_once, vs_ensure; done.
Qed.
Definition s_begun : life := begun (node 5) (life_init ∅ (vw_classes w0)).
Definition answered : option (string * string) := Some ("gp3-fast", "ebs.csi.aws.com").
Definition s_created : life := ensured (checked 5 w0) answered s_begun.
Definition put_world w (s : life) : life := mkLife (lf_pass s) w (lf_audit s).
Definition s_bound : life :=
  put_world (mkVworld (<["data-full-0" := pvc_meta "data-full-0" (vw_next (lf_world s_created)) (pvc_DeletionTimestamp claim) claim]>
    (vw_claims (lf_world s_created))) (vw_seen (lf_world s_created)) (vw_volumes (lf_world s_created))
    (vw_classes (lf_world s_created)) (vw_next (lf_world s_created) + 1) [] (vw_log (lf_world s_created))) s_created.
Definition s_seen : life :=
  put_world (mkVworld (vw_claims (lf_world s_bound))
    (partial_alter (fun _ => vw_claims (lf_world s_bound) !! "data-full-0") "data-full-0" (vw_seen (lf_world s_bound)))
    (vw_volumes (lf_world s_bound)) (vw_classes (lf_world s_bound)) (vw_next (lf_world s_bound)) [] (vw_log (lf_world s_bound)))
    s_bound.
Definition s_again : life := begun (node 8) s_seen.
Definition s_grown : life := grown (checked 8 w0) answered s_again.

Lemma volume_writes_justified_witness :
  map fst (lf_audit s_grown) = vw_log (lf_world s_grown) /\ Forall (justified sizes) (lf_audit s_grown) /\
  map snd (lf_audit s_grown) = [answered; answered].
Proof.
  assert (Hr : rtc (vstep text sizes) (life_init ∅ (vw_classes w0)) s_grown).
  { eapply rtc_l; [apply (vs_begin text sizes (node 5) [])|]. fold (begun (node 5) (life_init ∅ (vw_classes w0))).
    etrans; [apply (ensured_step (checked 5 w0) answered s_begun); vm_compute; reflexivity|].
    eapply (rtc_l _ _ s_bound); [apply (vs_outside text sizes _ s_created), out_actor|].
    eapply (rtc_l _ _ s_seen); [apply (vs_outside text sizes _ s_bound), out_sync|].
    eapply (rtc_l _ _ s_again); [apply (vs_begin text sizes (node 8) [])|].
    apply rtc_once, (vs_grow text sizes (checked 8 w0) answered []); vm_compute; reflexivity. }
  destruct (volume_writes_justified text sizes ∅ (vw_classes w0) s_grown Hr) as [H1 H2].
  split; [exact H1|]. split; [exact H2|]. vm_compute. reflexivity.
Defined.
Lemma growth_converges_witness :
  exists c1, vw_claims (synced (volume_pass text (node 8) (synced w_bound)).2) !! "data-full-0" = Some c1 /\
             default qty_zero (pvc_Request c1) = 8.
Proof.
  refine (proj1 (proj1 (growth_converges text (node 8) (synced w_bound) 8 bound_claim _ _ _ _ _ _))).
  - by split.
  - vm_compute. reflexivity.
  - vm_compute. reflexivity.
  - apply lookup_insert_eq.
  - vm_compute. reflexivity.
  - vm_compute. reflexivity.
Defined.

(** Property: A claim that was there before the node, which the task refuses to use and
    leaves alone, is deleted with the node: the deletion does not ask
    whether the node controls the claim. *)
Theorem foreign_claim_deleted :
  let n := mkVnode (vn_Node (node 5)) "uid-1" None in
  let theirs := mkPVC "data-full-0" 0 (Some "someone-else") None [ReadWriteOnce] "perf" None (Some 5) "pv-9" ClaimBound
                  (Some 5) [] None in
  let w := synced (mkVworld {["data-full-0" := theirs]} ∅ ∅ ∅ 1 [] []) in
  match ensure (reconcileVolumeAttributesClass text n w).1 w with
  | Some (Some e, b, _, w') => ee_terminal e = true /\ b = newBase /\ vw_log w' = []
  | _ => False
  end /\
  let '(err, w') := deleteNodeDataPVC "now" n w in
  err = None /\ vw_log w' = [WDelete n theirs] /\
  (pvc_DeletionTimestamp <$> vw_claims w' !! "data-full-0") = Some (Some "now").
Proof. vm_compute. split_and!; reflexivity. Qed.
End VolumeExamples.
