(* ===== verification/NodeReconcile.v ===== *)
(** * The node controller around its plan (src/internal/controller/node)

    What a reconcile of a SeiNode does besides the plan and the workflow: the
    always-present conditions resolved first (statesync.go, evmserving.go,
    volumeattributesclass.go, datavolumeresize.go, peers.go), the published
    endpoints (endpoints.go), the StatefulSet (statefulset.go, noderesource/sync.go),
    the drift half (controller.go), the height stamp, the requeue, the events, the
    wake-ups (driftwake.go) and the deletion of a node. *)

From stdpp Require Import base list strings gmap pretty.
From Stdlib Require Import ZArith Ascii Lia.
From S2P Require Import Prelude Api NodeState Platform Executor Config Task Planner StaticConfig Resolve NetApi Workflow Peering DataVolume.

(** ** The state-sync gate (statesync.go) *)
Definition minCanonicalSyncers : nat := 2.
Definition ReasonStateSyncReady := "Ready".
Definition ReasonStateSyncNoSyncersConfigured := "NoSyncersConfigured".
Definition ReasonStateSyncNotApplicable := "NotApplicable".
Definition ReasonStateSyncSyncerSourceError := "SyncerSourceError".

(** [strings.FieldsFunc]: the non-empty pieces between separators. *)
Definition separator (c : ascii) : bool :=
  let n := nat_of_ascii c in (n =? 10) || (n =? 13) || (n =? 44) || (n =? 32) || (n =? 9).
Fixpoint FieldsFunc (sep : ascii -> bool) (word s : string) : list string :=
  let flush l := if word <>s "" then word :: l else l in
  match s with
  | EmptyString => flush []
  | String c s' => if sep c then flush (FieldsFunc sep "" s') else FieldsFunc sep (word +:+ String c EmptyString) s'
  end.
Definition parseSyncerList (raw : string) : list string :=
  compact (sort_strings (List.filter (fun f => f <>s "") (FieldsFunc separator "" raw))).

(** The configuration file: absent, unreadable, or its bytes; and the YAML
    decoder, here down to [stateSync.syncers]. *)
Inductive read_file := FileNotExist | FileErr (e : string) | FileBytes (raw : string).

Definition set_ResolvedStateSyncers (syncers : list string) (s : SeiNodeStatus) : SeiNodeStatus :=
  mkSeiNodeStatus (st_Phase s) (st_CurrentImage s) (st_CurrentConfigValuesHash s)
    (st_CurrentSidecarImage s) (st_CurrentNodeIsolation s) (st_CurrentNodePool s) (st_Conditions s)
    (st_PhaseTransitionTime s) (st_Plan s) (st_ResolvedPeers s) syncers
    (st_DataResetGeneration s) (st_MaintenanceHold s).

Section StateSync.
Context {SC : StatusConditions} (ControllerConfigFile : string) (ReadFile : string -> read_file)
  (Unmarshal : string -> result (gmap string (list string))).

Definition ReadFileConfig (path : string) : result (gmap string (list string)) :=
  if TrimSpace path =s "" then Ok ∅
  else match ReadFile path with
       | FileNotExist => Ok ∅
       | FileErr e => Err ("reading controller config file " +:+ quote path +:+ ": " +:+ e)
       | FileBytes raw => wrap_err ("parsing controller config file " +:+ quote path +:+ ": ") (Unmarshal raw)
       end.
Definition newline : string := String (ascii_of_nat 10) EmptyString.
Definition canonicalSyncers (chainID : string) : result (list string) :=
  syncers ← ReadFileConfig ControllerConfigFile;
  Ok (parseSyncerList (join newline (default [] (syncers !! chainID)))).

Definition setStateSyncReady (status : ConditionStatus) (reason message : string) (node : SeiNode) : SeiNode :=
  set_node_cond ConditionStateSyncReady status reason message node.
(** The gate: whether the node is blocked, and the node. *)
Definition reconcileStateSyncGate (node : SeiNode) : bool * SeiNode :=
  let chain := sp_ChainID (n_Spec node) in
  let resolved syncers := upd_status (set_ResolvedStateSyncers syncers) node in
  match SnapshotSourceOf (n_Spec node) with
  | None =>
      (false, setStateSyncReady ConditionFalse ReasonStateSyncNotApplicable
                "node does not bootstrap from a snapshot" (resolved []))
  | Some snap =>
      let specSyncers := compact (sort_strings (ss_RpcServers snap)) in
      if minCanonicalSyncers <=? length specSyncers then
        (false, setStateSyncReady ConditionTrue ReasonStateSyncReady
                  (pretty (length specSyncers) +:+ " rpc-servers declared on spec for chain " +:+ quote chain)
                  (resolved specSyncers))
      else match canonicalSyncers chain with
      | Err e =>
          (true, setStateSyncReady ConditionUnknown ReasonStateSyncSyncerSourceError
                   ("reading canonical-syncer source for chain " +:+ quote chain +:+ ": " +:+ e) (resolved []))
      | Ok syncers =>
          if length syncers <? minCanonicalSyncers then
            (true, setStateSyncReady ConditionFalse ReasonStateSyncNoSyncersConfigured
                     ("state sync requires >=2 canonical syncers configured for chain " +:+ quote chain +:+ "; found " +:+
                      pretty (length syncers) +:+ " — register syncers for the chain in the controller config, or declare " +:+
                      ">=2 spec.fullNode.snapshot.rpcServers on the SeiNode") (resolved []))
          else
            (false, setStateSyncReady ConditionTrue ReasonStateSyncReady
                      (pretty (length syncers) +:+ " canonical syncers configured for chain " +:+ quote chain)
                      (resolved syncers))
      end
  end.
End StateSync.

(** ** The node with what its volume, StatefulSet and status carry besides *)
Record StatefulSetRef := mkStsRef { sr_Name : string; sr_UID : string }.
#[export] Instance StatefulSetRef_eq_dec : EqDecision StatefulSetRef.
Proof. solve_decision. Defined.
Record rnode {Q : Quantities} := mkRnode {
  rn_V : vnode;
  rn_StatefulSet : option StatefulSetRef;
  rn_Endpoint : option NodeEndpointStatus;
  rn_CommittedHeight : option Z;
  rn_CommittedHeightTime : option Z;
}.
Arguments rnode : clear implicits.
Arguments rnode {Q}.
Arguments mkRnode {Q} _ _ _ _ _.

Section Node.
Context {Q : Quantities}.
Definition rn_Node (n : rnode) : SeiNode := vn_Node (rn_V n).
Definition set_V (v : vnode) (n : rnode) : rnode :=
  mkRnode v (rn_StatefulSet n) (rn_Endpoint n) (rn_CommittedHeight n) (rn_CommittedHeightTime n).
Definition rn_upd (f : SeiNode -> SeiNode) (n : rnode) : rnode := set_V (vn_upd f (rn_V n)) n.
Definition set_StatefulSet (s : option StatefulSetRef) (n : rnode) : rnode :=
  mkRnode (rn_V n) s (rn_Endpoint n) (rn_CommittedHeight n) (rn_CommittedHeightTime n).
Definition set_Endpoint (e : option NodeEndpointStatus) (n : rnode) : rnode :=
  mkRnode (rn_V n) (rn_StatefulSet n) e (rn_CommittedHeight n) (rn_CommittedHeightTime n).
Definition set_Height (h now : Z) (n : rnode) : rnode :=
  mkRnode (rn_V n) (rn_StatefulSet n) (rn_Endpoint n) (Some h) (Some now).

(** ** EVM serving and the endpoints (evmserving.go, endpoints.go) *)
Definition ConditionEvmServing := "EvmServing".
Definition ReasonEvmServing := "Serving".
Definition ReasonEvmListenerRefused := "ListenerRefused".
Definition ReasonEvmHttpDisabled := "HttpDisabled".
Definition ReasonEvmNotApplicable := "NotApplicable".

(** A pod: its conditions and labels. *)
Record npod := mkNpod { np_Conditions : list (string * ConditionStatus); np_Labels : gmap string string }.
Fixpoint pod_ready (conditions : list (string * ConditionStatus)) : bool :=
  match conditions with
  | [] => false
  | (type, status) :: rest => if type =s "Ready" then bool_decide (status = ConditionTrue) else pod_ready rest
  end.
Definition podReady (pod : npod) : bool := pod_ready (np_Conditions pod).

Section Serving.
Context {C : SeiConfig} {SC : StatusConditions} (error_text : api_error -> string).

Definition setEvmServing (status : ConditionStatus) (reason message : string) (n : rnode) : rnode :=
  rn_upd (set_node_cond ConditionEvmServing status reason message) n.
Definition reconcileEvmServing (GetPod : string -> api_error + npod) (n : rnode) : rnode :=
  let engine := EffectiveExecutionEngine (n_Spec (rn_Node n)) in
  if negb (IsEvmOnly engine) then
    setEvmServing ConditionFalse ReasonEvmNotApplicable
      "execution engine is not EvmOnly; EVM serving is a property of the seid mode, not this condition" n
  else if negb (EvmHTTPEnabled engine) then
    setEvmServing ConditionFalse ReasonEvmHttpDisabled
      "spec.executionEngine.evmOnly.httpEnabled is false; the EVM JSON-RPC listener is not started" n
  else match rn_StatefulSet n with
  | None =>
      setEvmServing ConditionFalse ReasonEvmListenerRefused
        "no StatefulSet yet; the EVM JSON-RPC listener has not started" n
  | Some sts =>
      let key := sr_Name sts +:+ "-0" in
      match GetPod key with
      | inl ENotFound =>
          setEvmServing ConditionFalse ReasonEvmListenerRefused
            ("pod " +:+ key +:+ " not found; the EVM JSON-RPC listener is not reachable") n
      | inl e =>
          setEvmServing ConditionFalse ReasonEvmListenerRefused ("reading pod " +:+ key +:+ ": " +:+ error_text e) n
      | inr pod =>
          if podReady pod then
            setEvmServing ConditionTrue ReasonEvmServing
              ("pod " +:+ key +:+ " passes readiness on the EVM JSON-RPC listener") n
          else
            setEvmServing ConditionFalse ReasonEvmListenerRefused
              ("pod " +:+ key +:+ " is not Ready; the EVM JSON-RPC listener refuses or has not started") n
      end
  end.

Definition servesEVM (node : SeiNode) : bool :=
  match sp_FullNode (n_Spec node), sp_Archive (n_Spec node) with None, None => false | _, _ => true end.
Definition node_url (scheme : string) (node : SeiNode) (port : Z) : string :=
  scheme +:+ "://" +:+ n_Name node +:+ "." +:+ n_Namespace node +:+ ".svc:" +:+ pretty port.
Definition composeNodeEndpoints (node : SeiNode) : option NodeEndpointStatus :=
  if IsEvmOnly (EffectiveExecutionEngine (n_Spec node)) then
    if cond_is node ConditionEvmServing ConditionTrue
    then Some (mkNodeEndpointStatus (node_url "http" node PortEVMHTTP) "" "" "")
    else None
  else if negb (servesEVM node) then
    match sp_Validator (n_Spec node) with
    | None => None
    | Some _ => Some (mkNodeEndpointStatus "" "" (node_url "http" node PortRPC) "")
    end
  else Some (mkNodeEndpointStatus (node_url "http" node PortEVMHTTP) (node_url "ws" node PortEVMWS)
               (node_url "http" node PortRPC) (node_url "http" node PortREST)).

(** ** The conditions of every path (controller.go) *)
Definition ConditionSeiNodePaused := "Paused".
Definition setNodePausedCondition (node : SeiNode) : SeiNode :=
  if sp_Paused (n_Spec node)
  then set_node_cond ConditionSeiNodePaused ConditionTrue "Paused" "spec.paused is true; reconciliation is frozen" node
  else set_node_cond ConditionSeiNodePaused ConditionFalse "NotPaused" "spec.paused is unset or false" node.

(** From the pause mirror to [ResolveMaintenance]: whether the gate blocks, the
    node, and the world its reads went through. *)
Definition resolveConditions (ControllerConfigFile : string) (ReadFile : string -> read_file)
    (Unmarshal : string -> result (gmap string (list string))) (GetPod : string -> api_error + npod) (now : Z)
    (n : rnode) (w : vworld) : bool * rnode * vworld :=
  let n := rn_upd setNodePausedCondition n in
  let '(blocked, node) := reconcileStateSyncGate ControllerConfigFile ReadFile Unmarshal (rn_Node n) in
  let n := rn_upd (fun _ => node) n in
  let '(v, w) := reconcileVolumeAttributesClass error_text (rn_V n) w in
  let '(v, w) := reconcileDataVolumeResize error_text v w in
  let n := reconcileEvmServing GetPod (set_V v n) in
  let n := if IsEvmOnly (EffectiveExecutionEngine (n_Spec (rn_Node n)))
           then set_Endpoint (composeNodeEndpoints (rn_Node n)) n else n in
  let n := rn_upd (setPeersReady now) n in
  let n := rn_upd ResolveDataReset n in
  (blocked, rn_upd ResolveMaintenance n, w).
End Serving.
End Node.

(** ** Lemmas: one condition at a time *)
Section Conditions.
Context {Q : Quantities} {C : SeiConfig} {SC : StatusConditions} {SCL : StatusConditionsLaws SC}.
Context (error_text : api_error -> string).

(** A condition resolved at the node's generation. *)
Definition resolved_at (t : string) (n : SeiNode) : Prop :=
  exists c, node_cond n t = Some c /\ c_ObservedGeneration c = n_Generation n.
(** A step that may write the condition [t], and nothing the other conditions depend on. *)
Record writes (t : string) (n n' : SeiNode) : Prop := {
  wr_name : n_Name n' = n_Name n;
  wr_ns : n_Namespace n' = n_Namespace n;
  wr_gen : n_Generation n' = n_Generation n;
  wr_spec : n_Spec n' = n_Spec n;
  wr_phase : st_Phase (n_Status n') = st_Phase (n_Status n);
  wr_syncers : st_ResolvedStateSyncers (n_Status n') = st_ResolvedStateSyncers (n_Status n);
  wr_plan : st_Plan (n_Status n') = st_Plan (n_Status n);
  wr_other : forall t', t' <> t -> node_cond n' t' = node_cond n t';
}.
Lemma writes_refl t n : writes t n n.
Proof. by split. Qed.
Lemma writes_set t status reason message n : writes t n (set_node_cond t status reason message n).
Proof. split; try done. intros t' Ht. by apply node_cond_set_other. Qed.
Lemma resolved_set t status reason message n : resolved_at t (set_node_cond t status reason message n).
Proof. eexists. by rewrite node_cond_set. Qed.
Lemma writes_resolved t t' n n' : writes t n n' -> t' <> t -> resolved_at t' n -> resolved_at t' n'.
Proof. intros H Ht (c & Hc & Hg). exists c. by rewrite (wr_other _ _ _ H), (wr_gen _ _ _ H). Qed.
Lemma writes_cond_is t t' n n' status : writes t n n' -> t' <> t -> cond_is n' t' status = cond_is n t' status.
Proof. intros H Ht. unfold cond_is. by rewrite (wr_other _ _ _ H). Qed.
Hint Resolve writes_refl writes_set resolved_set : sei.

Lemma paused_writes n : writes ConditionSeiNodePaused n (setNodePausedCondition n) /\
  resolved_at ConditionSeiNodePaused (setNodePausedCondition n).
Proof. unfold setNodePausedCondition. destruct (sp_Paused _); auto with sei. Qed.
Lemma class_writes n w : let v := (reconcileVolumeAttributesClass error_text n w).1 in
  writes ConditionVolumeAttributesClassReady (vn_Node n) (vn_Node v) /\
  resolved_at ConditionVolumeAttributesClassReady (vn_Node v).
Proof.
  unfold reconcileVolumeAttributesClass. destruct (imported n); [simpl; auto with sei|].
  destruct (VolumeAttributesClassForNode n); [|simpl; auto with sei].
  destruct (GetClass _ w) as [[[]|] ?]; simpl; auto with sei.
Qed.
Lemma resize_writes n w : let v := (reconcileDataVolumeResize error_text n w).1 in
  writes ConditionDataVolumeResizeInProgress (vn_Node n) (vn_Node v) /\
  resolved_at ConditionDataVolumeResizeInProgress (vn_Node v).
Proof.
  unfold reconcileDataVolumeResize. destruct (growableSize n); [|simpl; auto with sei].
  destruct (ownedDataPVC n w) as [[[]|[]] ?]; simpl; try (by auto with sei).
  destruct (bool_decide _); [|destruct (at_least _ _)]; simpl; auto with sei.
Qed.
Lemma serving_writes GetPod n : let n' := reconcileEvmServing error_text GetPod n in
  writes ConditionEvmServing (rn_Node n) (rn_Node n') /\ resolved_at ConditionEvmServing (rn_Node n').
Proof.
  cbv zeta. unfold reconcileEvmServing. repeat case_match; (split; [apply writes_set|apply resolved_set]).
Qed.
Lemma peers_writes now n : writes ConditionPeersReady n (setPeersReady now n) /\
  resolved_at ConditionPeersReady (setPeersReady now n).
Proof. unfold setPeersReady. destruct (peers_verdict n now) as [[? ?] ?]. auto with sei. Qed.
Lemma maintenance_writes n : writes ConditionMaintenanceInProgress n (ResolveMaintenance n) /\
  resolved_at ConditionMaintenanceInProgress (ResolveMaintenance n).
Proof. unfold ResolveMaintenance, setMaintenanceCondition. repeat case_match; auto with sei. Qed.
Lemma reset_writes n : writes ConditionDataResetInProgress n (ResolveDataReset n).
Proof.
  unfold ResolveDataReset, setDataResetCondition. destruct (sp_NodeConfig _); [|apply writes_set].
  set (node := if _ && _ then _ else _).
  assert (Hn : writes ConditionDataResetInProgress n node) by (unfold node; by destruct (_ && _)).
  assert (Hs : forall a b c, writes ConditionDataResetInProgress n (set_node_cond ConditionDataResetInProgress a b c node)).
  { intros a b c. destruct Hn as [H1 H2 H3 H4 H5 H6 H7 H8]. split; try done. intros t' Ht. rewrite node_cond_set_other by done. by apply H8. }
  clearbody node. repeat case_match; done.
Qed.

(** DataResetInProgress after its resolution: at the node's generation, or as it
    was, where a stored reset plan owns it, or the last reset's end is to stay
    readable. *)
Definition reset_resolved (before after : SeiNode) : Prop :=
  resolved_at ConditionDataResetInProgress after \/
  sp_NodeConfig (n_Spec after) <> None /\
  node_cond after ConditionDataResetInProgress = node_cond before ConditionDataResetInProgress /\
  (isDataResetPlan (st_Plan (n_Status before)) = true \/
   exists c, node_cond before ConditionDataResetInProgress = Some c /\
     ((c_Reason c = ReasonResetComplete /\ DataResetPending after = false) \/
      (c_Reason c = ReasonResetFailed /\ DataResetPending after = true))).
Lemma reason_some n t r : (cond_reason n t =s r) = true -> r <> "" -> exists c, node_cond n t = Some c /\ c_Reason c = r.
Proof.
  unfold cond_reason. intros E%String.eqb_eq Hr. destruct (node_cond n t) as [c|]; [by exists c|by subst r].
Qed.
Lemma reset_resolves n : reset_resolved n (ResolveDataReset n).
Proof.
  unfold ResolveDataReset, setDataResetCondition, dataResetReason. destruct (sp_NodeConfig (n_Spec n)) eqn:Ec; [|left; apply resolved_set].
  set (node := if _ && _ then _ else _).
  assert (Hn : n_Spec node = n_Spec n /\ st_Plan (n_Status node) = st_Plan (n_Status n) /\ n_Generation node = n_Generation n /\
    forall t, node_cond node t = node_cond n t) by (unfold node; by destruct (_ && _)).
  clearbody node. destruct Hn as (Es & Ep & Eg & Hc).
  assert (Hcfg : sp_NodeConfig (n_Spec node) <> None) by (by rewrite Es, Ec).
  destruct (isDataResetPlan _) eqn:Epl; [right; split_and!; [done|done|left; congruence]|].
  destruct (DataResetPending node) eqn:Ed; cbn [negb].
  - destruct (cond_reason _ _ =s _) eqn:Er; [right|left; apply resolved_set].
    apply reason_some in Er as (c & Hcc & Hr); [|done]. split_and!; [done|done|right]. exists c. rewrite <- Hc. auto.
  - destruct (cond_reason _ _ =s ReasonResetComplete) eqn:Er; cbn [negb]; [right|left; apply resolved_set].
    apply reason_some in Er as (c & Hcc & Hr); [|done]. split_and!; [done|done|right]. exists c. rewrite <- Hc. auto.
Qed.
Lemma reset_resolved_around before n n' after :
  node_cond n ConditionDataResetInProgress = node_cond before ConditionDataResetInProgress ->
  st_Plan (n_Status n) = st_Plan (n_Status before) ->
  node_cond after ConditionDataResetInProgress = node_cond n' ConditionDataResetInProgress ->
  n_Generation after = n_Generation n' -> n_Spec after = n_Spec n' -> DataResetPending after = DataResetPending n' ->
  reset_resolved n n' -> reset_resolved before after.
Proof.
  unfold reset_resolved, resolved_at. intros <- <- -> -> -> ->. done.
Qed.
Lemma maintenance_pending n : DataResetPending (ResolveMaintenance n) = DataResetPending n.
Proof. unfold ResolveMaintenance, setMaintenanceCondition. by repeat case_match. Qed.

(** The verdict of the gate: StateSyncReady is True exactly with two witnesses or
    more, and blocks exactly a node with a snapshot and none. *)
Record gate_ok (blocked : bool) (n n' : SeiNode) : Prop := {
  go_resolved : resolved_at ConditionStateSyncReady n';
  go_other : forall t, t <> ConditionStateSyncReady -> node_cond n' t = node_cond n t;
  go_same : n_Generation n' = n_Generation n /\ n_Spec n' = n_Spec n /\ st_Plan (n_Status n') = st_Plan (n_Status n);
  go_true : cond_is n' ConditionStateSyncReady ConditionTrue = true <-> st_ResolvedStateSyncers (n_Status n') <> [];
  go_two : st_ResolvedStateSyncers (n_Status n') = [] \/
           2 <= length (st_ResolvedStateSyncers (n_Status n')) /\ strictly_sorted (st_ResolvedStateSyncers (n_Status n'));
  go_blocked : blocked = true <-> SnapshotSourceOf (n_Spec n) <> None /\ st_ResolvedStateSyncers (n_Status n') = [];
  go_none : SnapshotSourceOf (n_Spec n) = None -> st_ResolvedStateSyncers (n_Status n') = [];
}.
Lemma gate_closed status reason message n : status <> ConditionTrue ->
  gate_ok (match SnapshotSourceOf (n_Spec n) with Some _ => true | None => false end) n
    (setStateSyncReady status reason message (upd_status (set_ResolvedStateSyncers []) n)).
Proof.
  intros Ht. split; try done.
  - apply resolved_set.
  - intros t Hne. unfold setStateSyncReady. by rewrite node_cond_set_other.
  - unfold setStateSyncReady. rewrite cond_is_set, bool_decide_eq_true. by split.
  - by left.
  - destruct (SnapshotSourceOf _); [by split|]. by split; [|intros [[] _]].
Qed.
Lemma gate_open reason message n syncers : SnapshotSourceOf (n_Spec n) <> None ->
  2 <= length syncers -> strictly_sorted syncers ->
  gate_ok false n (setStateSyncReady ConditionTrue reason message (upd_status (set_ResolvedStateSyncers syncers) n)).
Proof.
  intros Hn Hl Hs. assert (Hne : syncers <> []) by (intros ->; simpl in Hl; lia). split; try done.
  - apply resolved_set.
  - intros t Ht. unfold setStateSyncReady. by rewrite node_cond_set_other.
  - unfold setStateSyncReady. rewrite cond_is_set, bool_decide_eq_true. by split.
  - by right.
  - split; [done|by intros [_ ?]].
Qed.
Lemma gate_spec file ReadFile Unmarshal n :
  let '(blocked, n') := reconcileStateSyncGate file ReadFile Unmarshal n in gate_ok blocked n n'.
Proof.
  unfold reconcileStateSyncGate. destruct (SnapshotSourceOf (n_Spec n)) as [snap|] eqn:Es.
  2:{ pose proof (gate_closed ConditionFalse ReasonStateSyncNotApplicable "node does not bootstrap from a snapshot" n) as H.
      rewrite Es in H. by apply H. }
  assert (Hc : forall status reason message, status <> ConditionTrue ->
    gate_ok true n (setStateSyncReady status reason message (upd_status (set_ResolvedStateSyncers []) n))).
  { intros status reason message Ht. pose proof (gate_closed status reason message n Ht) as H. by rewrite Es in H. }
  assert (Hn : SnapshotSourceOf (n_Spec n) <> None) by (by rewrite Es).
  destruct (minCanonicalSyncers <=? _) eqn:El.
  { apply Nat.leb_le in El. apply gate_open; [done|exact El|apply compact_sort_sorted]. }
  destruct (canonicalSyncers _ _ _ _) as [syncers|e] eqn:Ec; [|by apply Hc].
  destruct (_ <? _) eqn:Ef; [by apply Hc|]. apply Nat.ltb_ge in Ef. apply gate_open; [done|exact Ef|].
  unfold canonicalSyncers in Ec. destruct (ReadFileConfig _ _ _); simpl in Ec; [|done]. injection Ec as <-.
  apply compact_sort_sorted.
Qed.

(** ** Property: the conditions of every path *)

(** The always-present conditions of the API that this part resolves at the node's
    own generation; with DataResetInProgress they are all that are resolved
    before the returns (WorkflowInProgress is seeded below them). *)
Definition always_present : list string :=
  [ConditionSeiNodePaused; ConditionStateSyncReady; ConditionVolumeAttributesClassReady;
   ConditionDataVolumeResizeInProgress; ConditionEvmServing; ConditionPeersReady; ConditionMaintenanceInProgress].

(** C20: However the reads of a reconcile answer, the node that reaches its Failed and
    Paused returns has its always-present conditions. Paused, StateSyncReady,
    VolumeAttributesClassReady, DataVolumeResizeInProgress, EvmServing,
    PeersReady and MaintenanceInProgress are each there at the node's own
    generation. DataResetInProgress is too, with three exceptions, on a node
    with a mounted config, where it is just as it was: while a reset plan is
    stored, whose transitions own it (the planner stores none without it,
    [reset_plan_reported]); while it says ResetComplete and no reset
    is pending; and while it says ResetFailed and one is. StateSyncReady is True
    exactly when the status names two witnesses or more, sorted and distinct, so
    that a node with a snapshot that has not started waits unless it has them,
    and the gate asks for a requeue exactly then; and an EVM-only node publishes
    an endpoint exactly while EvmServing is True, the JSON-RPC URL alone. *)
Theorem conditions_always_resolved file ReadFile Unmarshal GetPod now (n : rnode) w :
  let '(blocked, n', w') := resolveConditions error_text file ReadFile Unmarshal GetPod now n w in
  let node := rn_Node n' in
  let syncers := st_ResolvedStateSyncers (n_Status node) in
  Forall (fun t => resolved_at t node) always_present /\
  reset_resolved (rn_Node n) node /\
  (cond_is node ConditionStateSyncReady ConditionTrue = true <-> syncers <> []) /\
  (syncers = [] \/ 2 <= length syncers /\ strictly_sorted syncers) /\
  (blocked = true <-> SnapshotSourceOf (n_Spec node) <> None /\ syncers = []) /\
  (StateSyncBlocksPlan node = true <-> is_Running node = false /\ SnapshotSourceOf (n_Spec node) <> None /\ syncers = []) /\
  (IsEvmOnly (EffectiveExecutionEngine (n_Spec node)) = true ->
   rn_Endpoint n' = if cond_is node ConditionEvmServing ConditionTrue
                    then Some (mkNodeEndpointStatus (node_url "http" node PortEVMHTTP) "" "" "") else None).
Proof.
  unfold resolveConditions. cbv zeta. set (n1 := setNodePausedCondition (rn_Node n)).
  destruct (paused_writes (rn_Node n)) as [W1 H1]. fold n1 in W1, H1.
  change (rn_Node (rn_upd setNodePausedCondition n)) with n1.
  pose proof (gate_spec file ReadFile Unmarshal n1) as Hg. destruct (reconcileStateSyncGate _ _ _ _) as [blocked n2].
  set (v2 := rn_V (rn_upd (fun _ => n2) (rn_upd setNodePausedCondition n))). change n2 with (vn_Node v2) in Hg.
  pose proof (class_writes v2 w) as [W3 R3]. destruct (reconcileVolumeAttributesClass error_text v2 w) as [v3 w3].
  pose proof (resize_writes v3 w3) as [W4 R4]. destruct (reconcileDataVolumeResize error_text v3 w3) as [v4 w4].
  cbn [fst] in W3, R3, W4, R4.
  set (r4 := set_V v4 (rn_upd (fun _ => n2) (rn_upd setNodePausedCondition n))).
  pose proof (serving_writes GetPod r4) as [W5 R5]. set (n5 := reconcileEvmServing error_text GetPod r4) in *.
  change (rn_Node r4) with (vn_Node v4) in W5. clearbody n5.
  set (n6 := if IsEvmOnly _ then _ else n5). assert (E6 : rn_Node n6 = rn_Node n5) by (unfold n6; by destruct (IsEvmOnly _)).
  change (rn_Node (rn_upd ResolveMaintenance (rn_upd ResolveDataReset (rn_upd (setPeersReady now) n6)))) with
    (ResolveMaintenance (ResolveDataReset (setPeersReady now (rn_Node n6)))). rewrite E6.
  destruct (peers_writes now (rn_Node n5)) as [W7 R7]. set (n7 := setPeersReady now (rn_Node n5)) in *.
  pose proof (reset_writes n7) as W8. pose proof (reset_resolves n7) as R8. set (n8 := ResolveDataReset n7) in *.
  destruct (maintenance_writes n8) as [W9 R9]. pose proof (maintenance_pending n8) as P9. set (n9 := ResolveMaintenance n8) in *.
  (* what the later steps leave of the earlier ones *)
  assert (Hkeep : forall t, t <> ConditionPeersReady -> t <> ConditionDataResetInProgress -> t <> ConditionMaintenanceInProgress ->
    node_cond n9 t = node_cond (rn_Node n5) t).
  { intros t Ht1 Ht2 Ht3. by rewrite (wr_other _ _ _ W9), (wr_other _ _ _ W8), (wr_other _ _ _ W7). }
  assert (Hgate : forall t, t = ConditionStateSyncReady -> node_cond n9 t = node_cond (vn_Node v2) t).
  { intros t ->. by rewrite Hkeep, (wr_other _ _ _ W5), (wr_other _ _ _ W4), (wr_other _ _ _ W3). }
  assert (Hspec : n_Spec n9 = n_Spec (vn_Node v2)).
  { by rewrite (wr_spec _ _ _ W9), (wr_spec _ _ _ W8), (wr_spec _ _ _ W7), (wr_spec _ _ _ W5), (wr_spec _ _ _ W4), (wr_spec _ _ _ W3). }
  assert (Hsync : st_ResolvedStateSyncers (n_Status n9) = st_ResolvedStateSyncers (n_Status (vn_Node v2))).
  { by rewrite (wr_syncers _ _ _ W9), (wr_syncers _ _ _ W8), (wr_syncers _ _ _ W7), (wr_syncers _ _ _ W5),
      (wr_syncers _ _ _ W4), (wr_syncers _ _ _ W3). }
  destruct Hg as [G1 G2 (G3 & G4 & Gp) G5 G6 G7 G8].
  assert (Hready : forall status, cond_is n9 ConditionStateSyncReady status = cond_is (vn_Node v2) ConditionStateSyncReady status)
    by (intros status; unfold cond_is; by rewrite Hgate).
  rewrite Hready, Hspec, Hsync. split_and!; try done.
  - assert (R1 : resolved_at ConditionSeiNodePaused (vn_Node v2)).
    { destruct H1 as (c & Hc & Hgn). exists c. by rewrite G2, G3. }
    repeat apply Forall_cons_2; [..|apply Forall_nil_2]; repeat (done || eapply writes_resolved).
  - apply (reset_resolved_around (rn_Node n) n7 n8 n9); try done.
    + by rewrite (wr_other _ _ _ W7), (wr_other _ _ _ W5), (wr_other _ _ _ W4), (wr_other _ _ _ W3), G2, (wr_other _ _ _ W1).
    + by rewrite (wr_plan _ _ _ W7), (wr_plan _ _ _ W5), (wr_plan _ _ _ W4), (wr_plan _ _ _ W3), Gp, (wr_plan _ _ _ W1).
    + by rewrite (wr_other _ _ _ W9).
    + apply (wr_gen _ _ _ W9).
    + apply (wr_spec _ _ _ W9).
  - by rewrite G4.
  - unfold StateSyncBlocksPlan, needsStateSyncWitnesses. rewrite Hspec, Hgate by done.
    destruct (is_Running n9); [by split; [|intros (? & _)]|].
    destruct (SnapshotSourceOf (n_Spec (vn_Node v2))); [|by split; [|intros (_ & ? & _)]]. cbn [negb].
    destruct G1 as (c & Hc & _). unfold cond_is in G5. rewrite Hc in *. rewrite bool_decide_eq_true in *.
    destruct (decide (c_Status c = ConditionTrue)) as [Et|Et].
    + split; [done|]. intros (_ & _ & E). apply G5 in Et. by destruct Et.
    + split; [|done]. intros _. split_and!; [done|done|].
      destruct (st_ResolvedStateSyncers _) eqn:E; [done|]. destruct Et. by apply G5.
  - intros He. change (rn_Endpoint (rn_upd ResolveMaintenance (rn_upd ResolveDataReset (rn_upd (setPeersReady now) n6))))
      with (rn_Endpoint n6). unfold n6.
    assert (Es5 : n_Spec (rn_Node n5) = n_Spec (vn_Node v2)) by (by rewrite (wr_spec _ _ _ W5), (wr_spec _ _ _ W4), (wr_spec _ _ _ W3)).
    rewrite Es5, He. unfold composeNodeEndpoints. rewrite Es5, He. unfold cond_is. rewrite Hkeep by done.
    unfold node_url. rewrite (wr_name _ _ _ W9), (wr_name _ _ _ W8), (wr_name _ _ _ W7), (wr_ns _ _ _ W9), (wr_ns _ _ _ W8), (wr_ns _ _ _ W7).
    done.
Qed.
End Conditions.

(** ** A concrete reconcile *)
Module ReconcileExamples.
#[local] Existing Instances tally_quantities list_conditions list_conditions_laws sample_config.
Definition text (e : api_error) : string := "server error".
Definition evm_spec : SeiNodeSpec :=
  mkSeiNodeSpec "arctic-1" "sei:v1" [] ∅ None (Some (mkExecutionEngineSpec ExecutionEngineEvmOnly None)) [] None None None
    (Some (mkFullNodeSpec (Some (mkSnapshotSource None None "" [] 0)) None None)) None None None None "" false 0 None.
Definition evm_node : rnode :=
  mkRnode (mkVnode (mkSeiNode "full-0" "nodes" 3 0 ∅ evm_spec VolumeExamples.status) "uid-1" None)
    (Some (mkStsRef "full-0" "uid-2")) None None None.
Definition ready_pod : npod := mkNpod [("Ready", ConditionTrue)] ∅.
Definition resolved_once :=
  resolveConditions text "/etc/app.yaml" (fun _ => FileBytes "syncers") (fun _ => Ok {["arctic-1" := ["b:1,a:1"]]})
    (fun _ => inr ready_pod) 0 evm_node VolumeExamples.w0.
Lemma conditions_always_resolved_witness :
  st_ResolvedStateSyncers (n_Status (rn_Node resolved_once.1.2)) = ["a:1"; "b:1"] /\
  StateSyncBlocksPlan (rn_Node resolved_once.1.2) = false /\
  rn_Endpoint resolved_once.1.2 = Some (mkNodeEndpointStatus (node_url "http" (rn_Node resolved_once.1.2) PortEVMHTTP) "" "" "").
Proof.
  pose proof (conditions_always_resolved text "/etc/app.yaml" (fun _ => FileBytes "syncers")
    (fun _ => Ok {["arctic-1" := ["b:1,a:1"]]}) (fun _ => inr ready_pod) 0 evm_node VolumeExamples.w0) as H.
  fold resolved_once in H.
  assert (Es : st_ResolvedStateSyncers (n_Status (rn_Node resolved_once.1.2)) = ["a:1"; "b:1"]) by (vm_compute; reflexivity).
  assert (Ee : IsEvmOnly (EffectiveExecutionEngine (n_Spec (rn_Node resolved_once.1.2))) = true) by (vm_compute; reflexivity).
  assert (Ec : cond_is (rn_Node resolved_once.1.2) ConditionEvmServing ConditionTrue = true) by (vm_compute; reflexivity).
  destruct resolved_once as [[blocked n'] w']. cbn [fst snd] in *.
  destruct H as (_ & _ & _ & _ & _ & Hb & He). specialize (He Ee). rewrite Ec in He.
  split; [exact Es|]. split; [|exact He]. destruct (StateSyncBlocksPlan (rn_Node n')); [|done].
  destruct (proj1 Hb eq_refl) as (_ & _ & Hx). by rewrite Es in Hx.
Defined.
End ReconcileExamples.
