(* ===== verification/NodeEvents.v ===== *)
(** * The transition events of a node (src/internal/controller/node/controller.go)

    A reconcile compares a condition as it was with the condition as it is and
    reports the change as an Event. What "as it was" holds depends on memory: two
    of the four comparisons keep the pointer [FindStatusCondition] answers, which
    points into the slice [SetStatusCondition] updates in place; the two others
    keep a copy ([conditionSnapshot]). The memory of the condition slice is
    therefore modelled, with the functions of apimachinery as an interface. *)

From stdpp Require Import base list strings.
From Stdlib Require Import ZArith Lia.
From S2P Require Import Prelude Api NodeState Planner Resolve NodeReconcile.

(** ** Condition slices and pointers into them

    [cm_Arrays] are the backing arrays of the process, by address; [cm_Live] is the
    one [node.Status.Conditions] views. *)
Record cmem := mkCmem { cm_Arrays : list (list Condition); cm_Live : nat }.
Record cptr := mkPtr { cp_Array : nat; cp_Index : nat }.
Definition conditions (m : cmem) : list Condition := default [] (cm_Arrays m !! cm_Live m).
Definition deref (m : cmem) (p : cptr) : option Condition := cm_Arrays m !! cp_Array p ≫= fun a => a !! cp_Index p.
Definition store_at (p : cptr) (c : Condition) (m : cmem) : cmem :=
  mkCmem (alter (fun a => <[cp_Index p := c]> a) (cp_Array p) (cm_Arrays m)) (cm_Live m).

Class ConditionSlices := {
  cs_index : list Condition -> string -> option nat;  (** the element [FindStatusCondition] points at *)
  cs_set : cmem -> Condition -> cmem;                 (** [SetStatusCondition(&node.Status.Conditions, c)] *)
}.
(** The element found is the first of its type; an existing condition is updated
    where it is; a new one is appended, in place or in a larger array, the old array
    keeping its elements. *)
Class ConditionSlicesLaws (CS : ConditionSlices) : Prop := {
  cs_index_some : forall l t i, cs_index l t = Some i ->
    exists c, l !! i = Some c /\ c_Type c = t /\ forall j d, l !! j = Some d -> c_Type d = t -> i <= j;
  cs_index_none : forall l t, cs_index l t = None <-> Forall (fun c => c_Type c <> t) l;
  cs_update : forall m c i, cs_index (conditions m) (c_Type c) = Some i ->
    cs_set m c = store_at (mkPtr (cm_Live m) i) c m;
  cs_append : forall m c, cs_index (conditions m) (c_Type c) = None -> cm_Live m < length (cm_Arrays m) ->
    conditions (cs_set m c) = conditions m ++ [c] /\ cm_Live (cs_set m c) < length (cm_Arrays (cs_set m c)) /\
    (forall p d, deref m p = Some d -> deref (cs_set m c) p = Some d);
}.

Inductive event_kind := EventNormal | EventWarning.
Record event := mkEvent { ev_Kind : event_kind; ev_Reason : string; ev_Message : string }.

Section Events.
Context {CS : ConditionSlices}.

(** [apimeta.FindStatusCondition]: a pointer, not a value. *)
Definition FindPtr (m : cmem) (t : string) : option cptr := mkPtr (cm_Live m) <$> cs_index (conditions m) t.
Definition conditionSnapshot (m : cmem) (t : string) : option Condition := FindPtr m t ≫= deref m.

(** ** The emitters

    [prev] of the first two is a pointer, read when they run. *)
Definition emitSidecarReadinessEvent (m : cmem) (prev : option cptr) : list event :=
  match FindPtr m ConditionSidecarReady ≫= deref m with
  | None => []
  | Some cur =>
      let was := prev ≫= deref m in
      let was_false := match was with Some p => bool_decide (c_Status p = ConditionFalse) | None => false end in
      if bool_decide (c_Status cur = ConditionFalse) && (c_Reason cur =s "NotReady") && negb was_false then
        [mkEvent EventWarning "SidecarReadinessLost" "sidecar Healthz returned 503; controller will re-issue mark-ready"]
      else if bool_decide (c_Status cur = ConditionTrue) && was_false then
        [mkEvent EventNormal "SidecarReadinessRestored" "sidecar Healthz returned 200; mark-ready gate is open"]
      else []
  end.
Definition blocked_reason (reason : string) : bool :=
  (reason =s ReasonStateSyncNoSyncersConfigured) || (reason =s ReasonStateSyncSyncerSourceError).
Definition emitStateSyncBlockedEvent (chainID : string) (m : cmem) (prev : option cptr) : list event :=
  match FindPtr m ConditionStateSyncReady ≫= deref m with
  | None => []
  | Some cur =>
      if bool_decide (c_Status cur = ConditionTrue) || negb (blocked_reason (c_Reason cur)) then []
      else if match prev ≫= deref m with
              | Some p => bool_decide (c_Status p = c_Status cur) && (c_Reason p =s c_Reason cur)
              | None => false
              end then []
      else [mkEvent EventWarning "StateSyncBlocked"
              ("state sync enabled but not ready for chain " +:+ quote chainID +:+ " (" +:+ c_Reason cur +:+
               "); not building plan")]
  end.
Definition emitDataResetEvent (m : cmem) (prev : option Condition) : list event :=
  match FindPtr m ConditionDataResetInProgress ≫= deref m with
  | None => []
  | Some cur =>
      if match prev with
         | Some p => (c_Reason p =s c_Reason cur) && (c_Message p =s c_Message cur)
         | None => false
         end then []
      else if c_Reason cur =s ReasonResetRunning then [mkEvent EventNormal "DataResetStarted" (c_Message cur)]
      else if c_Reason cur =s ReasonResetComplete then [mkEvent EventNormal "DataResetComplete" (c_Message cur)]
      else if c_Reason cur =s ReasonResetFailed then [mkEvent EventWarning "DataResetFailed" (c_Message cur)]
      else []
  end.
Definition emitMaintenanceEvent (m : cmem) (prev : option Condition) : list event :=
  match FindPtr m ConditionMaintenanceInProgress ≫= deref m with
  | None => []
  | Some cur =>
      if match prev with Some p => c_Reason p =s c_Reason cur | None => false end then []
      else if c_Reason cur =s ReasonHeld then [mkEvent EventNormal "MaintenanceHeld" (c_Message cur)]
      else if c_Reason cur =s ReasonArmed then [mkEvent EventNormal "MaintenanceArmed" (c_Message cur)]
      else if c_Reason cur =s ReasonNotHeld then
        match prev with
        | Some p => if bool_decide (c_Status p = ConditionTrue)
                    then [mkEvent EventNormal "MaintenanceReleased" (c_Message cur)] else []
        | None => []
        end
      else []
  end.

(** What a reconcile reports of the updates it made to the conditions, on the way
    that ends without an early return. *)
Record reported := mkReported {
  rp_Sidecar : list event; rp_StateSync : list event; rp_DataReset : list event; rp_Maintenance : list event;
}.
Definition reconcileEvents (chainID : string) (before : cmem) (updates : list Condition) : reported :=
  let prevSidecar := FindPtr before ConditionSidecarReady in
  let prevStateSync := FindPtr before ConditionStateSyncReady in
  let prevDataReset := conditionSnapshot before ConditionDataResetInProgress in
  let prevMaintenance := conditionSnapshot before ConditionMaintenanceInProgress in
  let m := foldl cs_set before updates in
  mkReported (emitSidecarReadinessEvent m prevSidecar) (emitStateSyncBlockedEvent chainID m prevStateSync)
    (emitDataResetEvent m prevDataReset) (emitMaintenanceEvent m prevMaintenance).
End Events.

(** ** Lemmas: updates of conditions that are there *)
Section Updates.
Context {CS : ConditionSlices} {CSL : ConditionSlicesLaws CS}.
Implicit Types (m : cmem) (c d : Condition) (t : string).

Definition cm_ok m : Prop := cm_Live m < length (cm_Arrays m).
Definition types m : list string := c_Type <$> conditions m.
(** The value of the last of [updates] to a condition. *)
Definition latest t (was : option Condition) (updates : list Condition) : option Condition :=
  foldl (fun was c => if c_Type c =s t then Some c else was) was updates.

Lemma index_types (l l' : list Condition) t : c_Type <$> l = c_Type <$> l' -> cs_index l t = cs_index l' t.
Proof.
  intros El. assert (H : forall l l' i, c_Type <$> l = c_Type <$> l' -> cs_index l t = Some i ->
    exists j, cs_index l' t = Some j /\ j <= i).
  { clear l l' El. intros l l' i El Hi. destruct (cs_index_some l t i Hi) as (c & Hc & Ht & _).
    assert (Hl : (c_Type <$> l') !! i = Some t) by (by rewrite <- El, list_lookup_fmap, Hc; simpl; rewrite Ht).
    rewrite list_lookup_fmap in Hl. destruct (l' !! i) as [d|] eqn:Ed; [|done].
    injection Hl as Hl. destruct (cs_index l' t) as [j|] eqn:Ej.
    - exists j. split; [done|]. destruct (cs_index_some _ _ _ Ej) as (_ & _ & _ & Hmin). by apply (Hmin i d).
    - apply cs_index_none in Ej. rewrite Forall_lookup in Ej. by destruct (Ej i d Ed). }
  destruct (cs_index l t) as [i|] eqn:Ei, (cs_index l' t) as [j|] eqn:Ej; [|..|done].
  - destruct (H _ _ _ El Ei) as (j' & E1 & H1). destruct (H _ _ _ (eq_sym El) Ej) as (i' & E2 & H2).
    f_equal. rewrite Ei in E2. rewrite Ej in E1. simplify_eq. lia.
  - destruct (H _ _ _ El Ei) as (? & ? & _). congruence.
  - destruct (H _ _ _ (eq_sym El) Ej) as (? & ? & _). congruence.
Qed.

Lemma index_of_type m t : t ∈ types m -> exists i c, cs_index (conditions m) t = Some i /\ conditions m !! i = Some c /\ c_Type c = t.
Proof.
  intros Ht. destruct (cs_index (conditions m) t) as [i|] eqn:Ei.
  - destruct (cs_index_some _ _ _ Ei) as (c & Hc & Hct & _). by exists i, c.
  - apply cs_index_none in Ei. unfold types in Ht. apply list_elem_of_fmap in Ht as (c & -> & Hc).
    rewrite Forall_forall in Ei. by destruct (Ei c Hc).
Qed.
Lemma deref_live m i : cm_ok m -> deref m (mkPtr (cm_Live m) i) = conditions m !! i.
Proof.
  unfold cm_ok, deref, conditions. intros H. simpl. apply lookup_lt_is_Some_2 in H as [a Ha]. by rewrite Ha.
Qed.

Lemma set_existing m c : cm_ok m -> c_Type c ∈ types m ->
  cm_ok (cs_set m c) /\ cm_Live (cs_set m c) = cm_Live m /\ types (cs_set m c) = types m /\
  exists i, cs_index (conditions m) (c_Type c) = Some i /\ conditions (cs_set m c) = <[i := c]> (conditions m).
Proof.
  intros Hok Ht. destruct (index_of_type m _ Ht) as (i & d & Hi & Hd & Hdt). rewrite (cs_update m c i Hi).
  assert (Ec : conditions (store_at (mkPtr (cm_Live m) i) c m) = <[i := c]> (conditions m)).
  { unfold conditions, store_at. simpl. rewrite list_lookup_alter, decide_True by done.
    apply lookup_lt_is_Some_2 in Hok as [a Ha]. by rewrite Ha. }
  split_and!; [|done| |by exists i].
  - unfold cm_ok, store_at. simpl. by rewrite length_alter.
  - unfold types. rewrite Ec, list_fmap_insert. apply list_insert_id. by rewrite list_lookup_fmap, Hd, <- Hdt.
Qed.
Lemma value_set m c t : cm_ok m -> c_Type c ∈ types m ->
  conditionSnapshot (cs_set m c) t = if c_Type c =s t then Some c else conditionSnapshot m t.
Proof.
  intros Hok Ht. destruct (set_existing m c Hok Ht) as (Hok' & Hl & Hty & i & Hi & Ec).
  unfold conditionSnapshot, FindPtr. rewrite (index_types _ (conditions m) t Hty).
  destruct (String.eqb_spec (c_Type c) t) as [<-|Hne].
  - rewrite Hi. cbn [fmap option_fmap option_map mbind option_bind]. rewrite deref_live, Ec by done.
    destruct (cs_index_some _ _ _ Hi) as (d & Hd & _). rewrite list_lookup_insert_eq; [done|]. by eapply lookup_lt_Some.
  - destruct (cs_index (conditions m) t) as [j|] eqn:Ej; [|done]. cbn [fmap option_fmap option_map mbind option_bind].
    rewrite !deref_live, Ec by done. rewrite list_lookup_insert_ne; [done|]. intros <-.
    destruct (cs_index_some _ _ _ Hi) as (d & Hd & Hdt & _). destruct (cs_index_some _ _ _ Ej) as (d' & Hd' & Hdt' & _).
    congruence.
Qed.
Lemma updates_existing updates m : cm_ok m -> Forall (fun c => c_Type c ∈ types m) updates ->
  let m' := foldl cs_set m updates in
  cm_ok m' /\ (forall t, FindPtr m' t = FindPtr m t) /\
  (forall t, conditionSnapshot m' t = latest t (conditionSnapshot m t) updates).
Proof.
  revert m. induction updates as [|c updates IH]; intros m Hok Hu; [done|]. cbn [foldl].
  apply Forall_cons in Hu as [Hc Hu]. destruct (set_existing m c Hok Hc) as (Hok' & Hl & Hty & _).
  destruct (IH (cs_set m c)) as (H1 & H2 & H3); [done|by rewrite Hty|]. split_and!; [done|..].
  - intros t. rewrite H2. unfold FindPtr. by rewrite Hl, (index_types _ (conditions m) t Hty).
  - intros t. rewrite H3. unfold latest at 2. cbn [foldl]. by rewrite value_set.
Qed.

(** ** Property: what a reconcile reports *)
Ltac on_reason c :=
  match goal with |- context [String.eqb (c_Reason c) ?x] => destruct (String.eqb_spec (c_Reason c) x) end.

(** Property: The Events of a reconcile that adds no condition type, over any memory and
    any updates: a data reset and a maintenance hold are reported exactly when what
    they last became differs from what the condition was at the start (by reason and
    message, and by reason), while a lost or restored sidecar readiness and a
    blocked state sync are never reported, however the condition changed: the pointer to what it
    was shows what it is. *)
Theorem events_of_reconcile chainID before updates : cm_ok before ->
  Forall (fun c => c_Type c ∈ types before) updates ->
  let r := reconcileEvents chainID before updates in
  let was t := conditionSnapshot before t in
  let now t := latest t (was t) updates in
  rp_Sidecar r = [] /\ rp_StateSync r = [] /\
  (forall p c, was ConditionDataResetInProgress = Some p -> now ConditionDataResetInProgress = Some c ->
   rp_DataReset r <> [] <->
   (c_Reason p <> c_Reason c \/ c_Message p <> c_Message c) /\
   c_Reason c ∈ [ReasonResetRunning; ReasonResetComplete; ReasonResetFailed]) /\
  (forall p c, was ConditionMaintenanceInProgress = Some p -> now ConditionMaintenanceInProgress = Some c ->
   rp_Maintenance r <> [] <->
   c_Reason p <> c_Reason c /\
   (c_Reason c ∈ [ReasonHeld; ReasonArmed] \/ c_Reason c = ReasonNotHeld /\ c_Status p = ConditionTrue)).
Proof.
  intros Hok Hu. cbv zeta. unfold reconcileEvents. destruct (updates_existing updates before Hok Hu) as (_ & Hptr & Hval).
  set (m := foldl cs_set before updates) in *. clearbody m. split_and!; cbn [rp_Sidecar rp_StateSync rp_DataReset rp_Maintenance].
  - unfold emitSidecarReadinessEvent. rewrite Hptr.
    destruct (FindPtr before ConditionSidecarReady ≫= deref m) as [c|]; [|done]. cbv zeta.
    destruct (bool_decide_reflect (c_Status c = ConditionFalse)) as [->|]; by rewrite ?andb_false_r.
  - unfold emitStateSyncBlockedEvent. rewrite Hptr.
    destruct (FindPtr before ConditionStateSyncReady ≫= deref m) as [c|]; [|done].
    rewrite (bool_decide_eq_true_2 (c_Status c = c_Status c)), String.eqb_refl by done. by destruct (_ || _).
  - intros p c Hp Hc. unfold emitDataResetEvent. fold (conditionSnapshot m ConditionDataResetInProgress).
    rewrite Hval, Hc, Hp. rewrite !elem_of_cons, elem_of_nil.
    destruct (String.eqb_spec (c_Reason p) (c_Reason c)), (String.eqb_spec (c_Message p) (c_Message c)); cbn [andb];
      repeat on_reason c; split; intuition (done || congruence).
  - intros p c Hp Hc. unfold emitMaintenanceEvent. fold (conditionSnapshot m ConditionMaintenanceInProgress).
    rewrite Hval, Hc, Hp. rewrite !elem_of_cons, elem_of_nil.
    destruct (String.eqb_spec (c_Reason p) (c_Reason c)); repeat on_reason c;
      try (destruct (bool_decide_reflect (c_Status p = ConditionTrue))); split; intuition (done || congruence).
Qed.
End Updates.

(** ** The interface can hold, and a transition lost *)
Module EventExamples.
Definition first_of (l : list Condition) (t : string) : option nat := fst <$> list_find (fun c => c_Type c = t) l.
(** An append that moves the slice to a larger array. *)
Definition slices : ConditionSlices := {|
  cs_index := first_of;
  cs_set m c := match first_of (conditions m) (c_Type c) with
                | Some i => store_at (mkPtr (cm_Live m) i) c m
                | None => mkCmem (cm_Arrays m ++ [conditions m ++ [c]]) (length (cm_Arrays m))
                end;
|}.
Lemma slices_laws : ConditionSlicesLaws slices.
Proof.
  split; simpl.
  - intros l t i. unfold first_of. destruct (list_find _ l) as [[j c]|] eqn:Ef; [|done]. intros [= <-].
    apply list_find_Some in Ef as (Hc & Ht & Hmin). exists c. split_and!; [done|done|]. intros k d Hd Hdt.
    destruct (decide (j <= k)) as [|Hlt]; [done|]. by destruct (Hmin k d Hd ltac:(lia)).
  - intros l t. unfold first_of. destruct (list_find _ l) as [[j c]|] eqn:Ef.
    + split; [done|]. apply list_find_Some in Ef as (Hc & Ht & _). rewrite Forall_lookup. intros H. by destruct (H j c Hc).
    + split; [|done]. intros _. by apply list_find_None in Ef.
  - intros m c i Hi. by rewrite Hi.
  - intros m c Hi Hl. rewrite Hi. split_and!.
    + unfold conditions at 1. simpl. by rewrite lookup_app_r, Nat.sub_diag by lia.
    + simpl. rewrite length_app. simpl. lia.
    + intros p d. unfold deref. simpl. intros Hd. destruct (cm_Arrays m !! cp_Array p) as [a|] eqn:Ea; [|done].
      by rewrite (lookup_app_l_Some _ _ _ _ Ea).
Qed.

Definition cond (t : string) (status : ConditionStatus) (reason message : string) : Condition :=
  mkCondition t status reason message 1.
Definition settled_node : cmem :=
  mkCmem [[cond ConditionSidecarReady ConditionTrue "Ready" "sidecar returned 200";
           cond ConditionStateSyncReady ConditionTrue ReasonStateSyncReady "2 canonical syncers";
           cond ConditionDataResetInProgress ConditionFalse ReasonNoResetRequested "";
           cond ConditionMaintenanceInProgress ConditionFalse ReasonNotHeld ""]] 0.
(** The sidecar stops being ready, the syncers go, and a data reset starts. *)
Definition updates : list Condition :=
  [cond ConditionStateSyncReady ConditionFalse ReasonStateSyncNoSyncersConfigured "found 0";
   cond ConditionDataResetInProgress ConditionTrue ReasonResetRunning "wiping";
   cond ConditionSidecarReady ConditionFalse "NotReady" "sidecar returned 503, re-issuing mark-ready"].

(** Property: Of three transitions in one reconcile the Events name the data reset alone;
    had the condition been copied as the data reset's is, the two others would be there. *)
Theorem readiness_transition_unreported :
  let m := foldl (@cs_set slices) settled_node updates in
  @reconcileEvents slices "pacific-1" settled_node updates =
    mkReported [] [] [mkEvent EventNormal "DataResetStarted" "wiping"] [] /\
  (** the same comparisons, against arrays nothing wrote to since *)
  let kept := mkCmem (cm_Arrays m ++ cm_Arrays settled_node) (cm_Live m) in
  map ev_Reason (@emitSidecarReadinessEvent slices kept (Some (mkPtr 1 0))) = ["SidecarReadinessLost"] /\
  map ev_Reason (@emitStateSyncBlockedEvent slices "pacific-1" kept (Some (mkPtr 1 1))) = ["StateSyncBlocked"].
Proof.
  cbv zeta. repeat split; vm_compute; reflexivity.
Qed.
Lemma events_of_reconcile_witness :
  rp_Sidecar (@reconcileEvents slices "pacific-1" settled_node updates) = [] /\
  rp_DataReset (@reconcileEvents slices "pacific-1" settled_node updates) <> [].
Proof.
  assert (Ht : Forall (fun c => c_Type c ∈ types settled_node) updates) by (unfold updates; repeat constructor).
  destruct (@events_of_reconcile slices slices_laws "pacific-1" settled_node updates ltac:(unfold cm_ok; simpl; lia) Ht)
    as (H1 & _ & H2 & _).
  split; [exact H1|]. eapply H2; [reflexivity..|]. split; [by left|]. by left.
Defined.
End EventExamples.
