(* ===== verification/NodeLifecycle.v ===== *)
(** * The life of a node around its plan (src/internal/controller/node)

    Its StatefulSet (statefulset.go, noderesource/sync.go), the half of a reconcile
    that no workflow occupies: the isolation baseline, the plan, the height stamp
    and the requeue (controller.go, statefulset.go); what wakes a waiting node
    (driftwake.go, evmserving.go); and its deletion (controller.go), with the data
    volume of DataVolume.v and the workflows of Workflow.v. *)

From stdpp Require Import base list strings gmap pretty sorting.
From Stdlib Require Import ZArith Ascii Lia Sorted.
From S2P Require Import Prelude Api NodeState Platform Executor Config Task Planner StaticConfig Resolve NetApi Workflow Peering DataVolume NodeReconcile NodeEvents.

(** ** The StatefulSet of a node *)
Section StatefulSets.
Context {Q : Quantities} {T : Type}.

(** The live object: [sfs_Template] is what [GenerateStatefulSet] renders apart
    from the name and the replicas. *)
Record StatefulSet := mkSts { sfs_Name : string; sfs_UID : string; sfs_Replicas : Z; sfs_Template : T }.
Inductive sts_write :=
| StsDeleted (named : StatefulSet) (victim : option StatefulSet)  (** the object read, the object that went *)
| StsApplied (s : StatefulSet).
(** The object of the node's name: at the server and in the cache, the next
    UID, what becomes of the next calls, and the writes. *)
Record sworld := mkSworld {
  sw_live : option StatefulSet;
  sw_seen : option StatefulSet;
  sw_next : nat;
  sw_faults : list fault;
  sw_log : list sts_write;
}.
Definition sw_fault (w : sworld) : fault * sworld :=
  match sw_faults w with
  | [] => (Done, w)
  | f :: fs => (f, mkSworld (sw_live w) (sw_seen w) (sw_next w) fs (sw_log w))
  end.
Definition refused_as (conflict : bool) : api_error := if conflict then EConflict else EOther.

Definition GetSts (w : sworld) : (api_error + StatefulSet) * sworld :=
  let '(f, w) := sw_fault w in
  match f with
  | Done => (match sw_seen w with Some s => inr s | None => inl ENotFound end, w)
  | Lost => (inl EOther, w)
  | Refused c => (inl (refused_as c), w)
  end.
(** By name: no precondition on the UID. *)
Definition DeleteSts (named : StatefulSet) (w : sworld) : option api_error * sworld :=
  let '(f, w) := sw_fault w in
  match f, sw_live w with
  | Refused c, _ => (Some (refused_as c), w)
  | _, None => (Some ENotFound, w)
  | f, Some victim =>
      (match f with Done => None | _ => Some EOther end,
       mkSworld None (sw_seen w) (sw_next w) (sw_faults w) (sw_log w ++ [StsDeleted named (Some victim)]))
  end.
(** Server-side apply: the object is updated in place, or created under a new UID. *)
Definition uid_of (k : nat) : string := "uid-" +:+ pretty k.
Definition ApplySts (desired : StatefulSet) (w : sworld) : (api_error + StatefulSet) * sworld :=
  let '(f, w) := sw_fault w in
  let '(uid, next) := match sw_live w with
                      | Some s => (sfs_UID s, sw_next w)
                      | None => (uid_of (sw_next w), S (sw_next w))
                      end in
  let stored := mkSts (sfs_Name desired) uid (sfs_Replicas desired) (sfs_Template desired) in
  let w' := mkSworld (Some stored) (sw_seen w) next (sw_faults w) (sw_log w ++ [StsApplied stored]) in
  match f with
  | Done => (inr stored, w')
  | Lost => (inl EOther, w')
  | Refused c => (inl (refused_as c), w)
  end.

(** [render]: [GenerateStatefulSet] on the platform at hand. *)
Context (render : SeiNode -> result T) (error_text : api_error -> string).

Definition desiredSts (node : SeiNode) (template : T) : StatefulSet :=
  mkSts (n_Name node) "" (if sp_Paused (n_Spec node) then 0 else 1)%Z template.
Definition applySts (node : SeiNode) (template : T) (w : sworld) : (string + option StatefulSet) * sworld :=
  match ApplySts (desiredSts node template) w with
  | (inl e, w) => (inl ("applying statefulset: " +:+ error_text e), w)
  | (inr s, w) => (inr (Some s), w)
  end.
Definition SyncStatefulSet (n : rnode) (w : sworld) : (string + option StatefulSet) * rnode * sworld :=
  let node := rn_Node n in
  match render node with
  | Err e => (inl ("generating statefulset: " +:+ e), n, w)
  | Ok template =>
      match rn_StatefulSet n with
      | None => let '(r, w) := applySts node template w in (r, n, w)
      | Some tracked =>
          let '(got, w) := GetSts w in
          match got with
          | inr existing =>
              if sfs_UID existing =s sr_UID tracked then let '(r, w) := applySts node template w in (r, n, w)
              else
                let '(err, w) := DeleteSts existing w in
                match err with
                | None | Some ENotFound => (inr None, set_StatefulSet None n, w)
                | Some e => (inl ("deleting impostor statefulset: " +:+ error_text e), n, w)
                end
          | inl ENotFound => let '(r, w) := applySts node template w in (r, n, w)
          | inl e => (inl ("fetching tracked statefulset: " +:+ error_text e), n, w)
          end
      end
  end.

Definition recreated_event (node : SeiNode) (tracked : StatefulSetRef) (s : StatefulSet) : event :=
  mkEvent EventNormal "StatefulSetRecreated"
    ("Recreated StatefulSet " +:+ sfs_Name s +:+ " (previous uid " +:+ sr_UID tracked +:+ " was deleted) because SeiNode " +:+
     n_Name node +:+ " still exists; delete the SeiNode to remove its workload").
Definition reconcileStatefulSet (n : rnode) (w : sworld) : option string * list event * rnode * sworld :=
  let tracked := rn_StatefulSet n in
  let '(got, n, w) := SyncStatefulSet n w in
  match got with
  | inl e => (Some ("syncing statefulset: " +:+ e), [], n, w)
  | inr None => (None, [], n, w)
  | inr (Some s) =>
      let ref := Some (mkStsRef (sfs_Name s) (sfs_UID s)) in
      match tracked with
      | None => (None, [], set_StatefulSet ref n, w)
      | Some t =>
          (None, if sr_UID t <>s sfs_UID s then [recreated_event (rn_Node n) t s] else [],
           if (sr_UID t <>s sfs_UID s) || (sr_Name t <>s sfs_Name s) then set_StatefulSet ref n else n, w)
      end
  end.

(** The step of [Reconcile]: [renderNode] is the node, or its copy pinned to the
    running images (Resolve.v). *)
Definition holdInitialSTS {SC : StatusConditions} (now : Z) (n : rnode) : bool :=
  (StateSyncBlocksPlan (rn_Node n) || PeersBlockPlan (rn_Node n) now) && bool_decide (rn_StatefulSet n = None).
Definition keepStatefulSet (hold : bool) (renderNode : SeiNode) (n : rnode) (w : sworld)
    : option string * list event * rnode * sworld :=
  if hold then (None, [], n, w)
  else
    let '(err, events, r, w) := reconcileStatefulSet (rn_upd (fun _ => renderNode) n) w in
    match err with
    | Some e =>
        (Some ("reconciling statefulset: " +:+ e),
         events ++ [mkEvent EventWarning "StatefulSetRenderFailed" ("Cannot render the StatefulSet: " +:+ e)], n, w)
    | None => (None, events, set_StatefulSet (rn_StatefulSet r) n, w)
    end.

(** ** Lemmas and properties: the StatefulSet *)

(** All calls are answered and the cache holds what the server does. *)
Definition sts_current (w : sworld) : Prop := sw_faults w = [] /\ sw_seen w = sw_live w.
Definition sts_synced (w : sworld) : sworld := mkSworld (sw_live w) (sw_live w) (sw_next w) [] (sw_log w).
Definition tracks (n : rnode) (w : sworld) : Prop :=
  exists s, sw_live w = Some s /\ rn_StatefulSet n = Some (mkStsRef (sfs_Name s) (sfs_UID s)).
(** The live object is the node's, as rendered. *)
Definition rendered (n : rnode) (template : T) (w : sworld) : Prop :=
  exists s, sw_live w = Some s /\ sfs_Name s = n_Name (rn_Node n) /\ sfs_Template s = template /\
    sfs_Replicas s = (if sp_Paused (n_Spec (rn_Node n)) then 0 else 1)%Z.

(** Without a stranger the object is applied at once. *)
Lemma sts_applied n template w : render (rn_Node n) = Ok template -> sts_current w ->
  (forall t s, rn_StatefulSet n = Some t -> sw_live w = Some s -> sfs_UID s = sr_UID t) ->
  exists s, let '(err, events, n', w') := reconcileStatefulSet n w in
  (match rn_StatefulSet n with Some t => sr_UID t = sfs_UID s | None => True end -> events = []) /\
  err = None /\ rn_V n' = rn_V n /\ sw_live w' = Some s /\
  rn_StatefulSet n' = Some (mkStsRef (sfs_Name s) (sfs_UID s)) /\
  (forall s0, sw_live w = Some s0 -> sfs_UID s = sfs_UID s0) /\ sw_log w' = sw_log w ++ [StsApplied s] /\
  sfs_Name s = n_Name (rn_Node n) /\ sfs_Template s = template /\
  sfs_Replicas s = (if sp_Paused (n_Spec (rn_Node n)) then 0 else 1)%Z.
Proof.
  intros Hr [Hf Hs] Ht. destruct w as [live seen next faults log]. simpl in *. subst seen faults.
  unfold reconcileStatefulSet, SyncStatefulSet. rewrite Hr. destruct (rn_StatefulSet n) as [t|] eqn:En.
  - destruct live as [s|]; cbn.
    + rewrite (Ht t s eq_refl eq_refl), String.eqb_refl. cbn. eexists. split_and!; try reflexivity.
      * cbn. by rewrite String.eqb_refl.
      * by destruct (_ || _).
      * cbn. rewrite String.eqb_refl. cbn. destruct (String.eqb_spec (sr_Name t) (n_Name (rn_Node n))) as [E|]; cbn; [|done].
        rewrite En, <- E. by destruct t.
      * intros s0 [= <-]. by rewrite (Ht t s).
    + eexists. split_and!; try reflexivity; [|by destruct (_ || _)| |done].
      * cbn. intros ->. by rewrite String.eqb_refl.
      * cbn. destruct (String.eqb_spec (sr_UID t) (uid_of next)) as [E1|]; cbn; [|done].
        destruct (String.eqb_spec (sr_Name t) (n_Name (rn_Node n))) as [E2|]; cbn; [|done].
        rewrite En, <- E1, <- E2. by destruct t.
  - destruct live as [s|]; cbn; eexists; split_and!; try reflexivity; [by intros s0 [= ->]|done].
Qed.
(** A stranger is deleted, and forgotten. *)
Lemma sts_stranger n template w t s : render (rn_Node n) = Ok template -> sts_current w ->
  rn_StatefulSet n = Some t -> sw_live w = Some s -> sfs_UID s <> sr_UID t ->
  let '(err, events, n', w') := reconcileStatefulSet n w in
  err = None /\ events = [] /\ n' = set_StatefulSet None n /\ sw_live w' = None /\
  sw_log w' = sw_log w ++ [StsDeleted s (Some s)].
Proof.
  intros Hr [Hf Hs] En El Hne. destruct w as [live seen next faults log]. simpl in *. subst live seen faults.
  unfold reconcileStatefulSet, SyncStatefulSet. rewrite Hr, En. cbn. by rewrite (proj2 (String.eqb_neq _ _) Hne).
Qed.
Lemma sts_synced_current w : sts_current (sts_synced w).
Proof. by split. Qed.
Lemma sts_synced_live w : sw_live (sts_synced w) = sw_live w.
Proof. done. Qed.

Lemma sts_cases n w :
  (exists t s, rn_StatefulSet n = Some t /\ sw_live w = Some s /\ sfs_UID s <> sr_UID t) \/
  (forall t s, rn_StatefulSet n = Some t -> sw_live w = Some s -> sfs_UID s = sr_UID t).
Proof.
  destruct (rn_StatefulSet n) as [t|], (sw_live w) as [s|]; [|by right..].
  destruct (decide (sfs_UID s = sr_UID t)) as [E|E]; [right; by intros ? ? [= <-] [= <-]|left; by exists t, s].
Qed.

(** C17: The upkeep of a StatefulSet converges while the cache keeps up. Take a
    node that renders, and three passes of [reconcileStatefulSet], each with all
    its calls answered, each reading a cache that holds what the server does,
    and with nobody else writing the StatefulSet between them. Whatever is live
    and whatever the status tracks at first, the first two leave the node's
    StatefulSet live as the node renders it (no replica while the node is
    paused) and tracked in the status by its UID; the third changes neither and
    reports nothing; and nothing is deleted on the way except an object under
    the node's name whose UID is not the tracked one. A cache that lags behind
    breaks this ([stale_cache_deletes_fresh]). *)
Theorem statefulset_converges n template w : render (rn_Node n) = Ok template -> sts_current w ->
  let '(e1, _, n1, w1) := reconcileStatefulSet n w in
  let '(e2, _, n2, w2) := reconcileStatefulSet n1 (sts_synced w1) in
  let '(e3, events, n3, w3) := reconcileStatefulSet n2 (sts_synced w2) in
  e1 = None /\ e2 = None /\ e3 = None /\ rn_V n2 = rn_V n /\
  rendered n template w2 /\ tracks n2 w2 /\
  events = [] /\ rn_StatefulSet n3 = rn_StatefulSet n2 /\ sw_live w3 = sw_live w2 /\
  exists l, sw_log w3 = sw_log w ++ l /\
  forall named victim, StsDeleted named victim ∈ l ->
  victim = Some named /\ sw_live w = Some named /\
  exists t, rn_StatefulSet n = Some t /\ sr_UID t <> sfs_UID named.
Proof.
  intros Hr Hc.
  (* the last two reconciles, once nothing strange is live *)
  assert (Hend : forall n1 w1, rn_V n1 = rn_V n -> sts_current w1 ->
    (forall t s, rn_StatefulSet n1 = Some t -> sw_live w1 = Some s -> sfs_UID s = sr_UID t) ->
    let '(e2, _, n2, w2) := reconcileStatefulSet n1 w1 in
    let '(e3, events, n3, w3) := reconcileStatefulSet n2 (sts_synced w2) in
    e2 = None /\ e3 = None /\ rn_V n2 = rn_V n /\ rendered n template w2 /\ tracks n2 w2 /\ events = [] /\
    rn_StatefulSet n3 = rn_StatefulSet n2 /\ sw_live w3 = sw_live w2 /\
    exists s s', sw_log w3 = sw_log w1 ++ [StsApplied s; StsApplied s']).
  { intros n1 w1 Ev Hc1 Ht. assert (En1 : rn_Node n1 = rn_Node n) by (unfold rn_Node; by rewrite Ev).
    assert (Hr1 : render (rn_Node n1) = Ok template) by (by rewrite En1).
    destruct (sts_applied n1 template w1 Hr1 Hc1 Ht) as (s & H).
    destruct (reconcileStatefulSet n1 w1) as [[[e2 ?] n2] w2]. destruct H as (_ & -> & Ev2 & El2 & Es2 & _ & Elog2 & Hn & Htm & Hrp).
    assert (En2 : rn_Node n2 = rn_Node n1) by (unfold rn_Node; by rewrite Ev2).
    destruct (sts_applied n2 template (sts_synced w2)) as (s' & H); [by rewrite En2|apply sts_synced_current|..].
    { rewrite sts_synced_live, El2, Es2. by intros ? ? [= <-] [= <-]. }
    destruct (reconcileStatefulSet n2 (sts_synced w2)) as [[[e3 events] n3] w3].
    destruct H as (Hev & -> & Ev3 & El3 & Es3 & Hu3 & Elog3 & Hn3 & Htm3 & Hrp3).
    assert (Ess : s' = s).
    { specialize (Hu3 s El2). destruct s, s'; simpl in *. rewrite En2 in *. congruence. }
    subst s'. split_and!; try done.
    - congruence.
    - exists s. by rewrite En1 in *.
    - by exists s.
    - apply Hev. by rewrite Es2.
    - by rewrite Es2, Es3.
    - by rewrite El2, El3.
    - exists s, s. rewrite Elog3. simpl. rewrite Elog2. by rewrite <- app_assoc. }
  assert (Hquiet : forall w1 l1 s s' log, log = (sw_log w1 ++ [StsApplied s; StsApplied s'] : list sts_write) ->
    sw_log w1 = sw_log w ++ l1 ->
    (forall named victim, StsDeleted named victim ∈ l1 -> victim = Some named /\ sw_live w = Some named /\
       exists t, rn_StatefulSet n = Some t /\ sr_UID t <> sfs_UID named) ->
    exists l, log = sw_log w ++ l /\ forall named victim, StsDeleted named victim ∈ l ->
       victim = Some named /\ sw_live w = Some named /\ exists t, rn_StatefulSet n = Some t /\ sr_UID t <> sfs_UID named).
  { intros w1 l1 s s' log -> -> Hl. exists (l1 ++ [StsApplied s; StsApplied s']). split; [by rewrite <- app_assoc|].
    intros named victim [?|Hin]%elem_of_app; [by apply Hl|]. rewrite !elem_of_cons, elem_of_nil in Hin. naive_solver. }
  destruct (sts_cases n w) as [(t & s & En & El & Hne)|Hno].
  - pose proof (sts_stranger n template w t s Hr Hc En El Hne) as H.
    destruct (reconcileStatefulSet n w) as [[[e1 ev1] n1] w1]. destruct H as (-> & -> & -> & El1 & Elog1).
    specialize (Hend (set_StatefulSet None n) (sts_synced w1) eq_refl (sts_synced_current w1) ltac:(done)).
    destruct (reconcileStatefulSet _ (sts_synced w1)) as [[[e2 ev2] n2] w2].
    destruct (reconcileStatefulSet n2 _) as [[[e3 ev3] n3] w3].
    destruct Hend as (-> & -> & H1 & H2 & H3 & H4 & H5 & H6 & s1 & s2 & Hlog). split_and!; try done.
    apply (Hquiet (sts_synced w1) [StsDeleted s (Some s)] s1 s2); [done|done|].
    intros named victim. rewrite elem_of_cons, elem_of_nil. intros [[= -> ->]|[]]. split_and!; [done|done|].
    exists t. by split; [|apply not_eq_sym].
  - destruct (sts_applied n template w Hr Hc Hno) as (s & H).
    destruct (reconcileStatefulSet n w) as [[[e1 ev1] n1] w1]. destruct H as (_ & -> & Ev1 & El1 & Es1 & _ & Elog1 & _).
    specialize (Hend n1 (sts_synced w1) Ev1 (sts_synced_current w1)).
    rewrite sts_synced_live, El1, Es1 in Hend. specialize (Hend ltac:(by intros ? ? [= <-] [= <-])).
    destruct (reconcileStatefulSet _ (sts_synced w1)) as [[[e2 ev2] n2] w2].
    destruct (reconcileStatefulSet n2 _) as [[[e3 ev3] n3] w3].
    destruct Hend as (-> & -> & H1 & H2 & H3 & H4 & H5 & H6 & s1 & s2 & Hlog). split_and!; try done.
    apply (Hquiet (sts_synced w1) [StsApplied s] s1 s2); [done|done|].
    intros named victim. rewrite elem_of_cons, elem_of_nil. by intros [|[]].
Qed.

End StatefulSets.

(** ** The half of a reconcile no workflow occupies *)
Definition set_CurrentNodeIsolation (iso : NodeIsolation) (s : SeiNodeStatus) : SeiNodeStatus :=
  mkSeiNodeStatus (st_Phase s) (st_CurrentImage s) (st_CurrentConfigValuesHash s)
    (st_CurrentSidecarImage s) iso (st_CurrentNodePool s) (st_Conditions s)
    (st_PhaseTransitionTime s) (st_Plan s) (st_ResolvedPeers s) (st_ResolvedStateSyncers s)
    (st_DataResetGeneration s) (st_MaintenanceHold s).
Definition DedicatedNodeKey := "sei.io/dedicated-node".
Definition PodNodeIsolation (pod : npod) : NodeIsolation :=
  if bool_decide (np_Labels pod !! DedicatedNodeKey = Some "true") then NodeIsolationDedicated else NodeIsolationShared.

Definition statusPollInterval : Z := 30 * second.
Definition heightReadBackoff : Z := statusPollInterval.

Section Half.
Context {Q : Quantities} {C : SeiConfig} {H : Hashes} {SC : StatusConditions} {W : Type} {RT : TaskRuntime W}.
Context (error_text : api_error -> string).

Definition backfillNodeIsolation (GetPod : string -> api_error + npod) (n : rnode) : option string * rnode :=
  let node := rn_Node n in
  match rn_StatefulSet n with
  | None => (None, n)
  | Some sts =>
      if negb (is_Running node) || bool_decide (st_CurrentNodeIsolation (n_Status node) <> IsolationNone) || has_active_plan node
      then (None, n)
      else
        let key := sr_Name sts +:+ "-0" in
        match GetPod key with
        | inl ENotFound => (None, n)
        | inl e => (Some ("getting pod " +:+ key +:+ ": " +:+ error_text e), n)
        | inr pod => (None, rn_upd (upd_status (set_CurrentNodeIsolation (PodNodeIsolation pod))) n)
        end
  end.

(** The result, the fatal error, and what the plan's tasks act on. *)
Definition resolveDriftPlan (platform : PlatformConfig) (lister : option (string -> Prelude.result (list SeiNode)))
    (probe : option (Prelude.result bool)) (planID : string) (now : Z) (n : rnode) (w : W) (g : gmap (string * string) Z)
    : Executor.Result * option string * rnode * W * gmap (string * string) Z :=
  let planAlreadyActive := has_active_plan (rn_Node n) in
  let '(err, node) := ResolvePlan platform lister probe planID now (rn_Node n) in
  match err with
  | Some e => (ResultNone, Some ("resolving plan: " +:+ e), rn_upd (fun _ => node) n, w, g)
  | None =>
      let '(result, node, w, g) :=
        match st_Plan (n_Status node) with
        | None => (ResultNone, node, w, g)
        | Some p =>
            if negb planAlreadyActive then (ResultRequeueImmediate, node, w, g)
            else if bool_decide (pl_Phase p = TaskPlanActive) then
              match executePlan now (mkState (ObjNode node) p w g) with
              | Some (r, s) =>
                  (r, match es_obj s with ObjNode n' => upd_status (set_Plan (Some (es_plan s))) n' | _ => node end,
                   es_world s, es_active s)
              | None => (ResultNone, node, w, g)
              end
            else (ResultNone, node, w, g)
        end in
      let n := rn_upd (fun _ => node) n in
      let n := if negb (IsEvmOnly (EffectiveExecutionEngine (n_Spec node))) && is_Running node
               then set_Endpoint (composeNodeEndpoints node) n else n in
      (result, None, n, w, g)
  end.

(** [HeightReader]: [None] when there is none; [retry] is [heightReadRetryAt]. *)
Definition observeCommittedHeight (reader : option (Prelude.result Z)) (suppressDrift : bool) (now : Z) (n : rnode)
    (retry : gmap string Z) : rnode * gmap string Z :=
  let node := rn_Node n in
  let uid := vn_UID (rn_V n) in
  match reader with
  | None => (n, retry)
  | Some read =>
      if suppressDrift || negb (is_Running node) || has_active_plan node then (n, retry)
      else if match retry !! uid with Some t => (now <? t)%Z | None => false end then (n, retry)
      else match read with
           | Err _ => (n, <[uid := (now + heightReadBackoff)%Z]> retry)
           | Ok h => (set_Height h now n, delete uid retry)
           end
  end.

Definition steadyStateRequeue (node : SeiNode) (result : Executor.Result) (suppressDrift stateSyncBlocked : bool)
    : Executor.Result :=
  if suppressDrift then result
  else if is_Running node && negb (has_active_plan node) then Executor.mkResult statusPollInterval
  else if stateSyncBlocked && (RequeueAfter result =? 0)%Z then Executor.mkResult statusPollInterval
  else result.

(** What follows the workflow half, when it left the node alone and the status is flushed. *)
Definition driftHalf (platform : PlatformConfig) (lister : option (string -> Prelude.result (list SeiNode)))
    (probe : option (Prelude.result bool)) (planID : string) (now : Z) (GetPod : string -> api_error + npod)
    (reader : option (Prelude.result Z)) (blocked : bool) (n : rnode) (w : W) (g : gmap (string * string) Z)
    (retry : gmap string Z)
    : (string + Executor.Result) * rnode * W * gmap (string * string) Z * gmap string Z :=
  match backfillNodeIsolation GetPod n with
  | (Some e, n) => (inl ("backfilling node isolation: " +:+ e), n, w, g, retry)
  | (None, n) =>
      match resolveDriftPlan platform lister probe planID now n w g with
      | (_, Some fatal, n, w, g) => (inl fatal, n, w, g, retry)
      | (result, None, n, w, g) =>
          let '(n, retry) := observeCommittedHeight reader false now n retry in
          (inr (steadyStateRequeue (rn_Node n) result false blocked), n, w, g, retry)
      end
  end.
End Half.

(** ** Lemmas: a plan that goes on asks to be called again *)
Section Pace.
Context {W : Type} {RT : TaskRuntime W} (now : Z).

Lemma backoff_positive k : (1 <= k)%Z -> (0 < retryBackoff k)%Z.
Proof.
  intros Hk. unfold retryBackoff. cbv zeta. destruct (_ <? _)%Z; [done|].
  rewrite Z.shiftl_1_l. apply Z.mul_pos_pos; [done|]. apply Z.pow_pos_nonneg; lia.
Qed.
Lemma poll_pace cn i (t : PlannedTask) ex (s : exec_state W) r s' : (0 <= pt_RetryCount t)%Z ->
  pollTask now cn i t ex s = (r, s') -> pl_Phase (es_plan s') = TaskPlanActive -> (0 < RequeueAfter r)%Z.
Proof.
  intros Ht. unfold pollTask. destruct (Status ex (es_obj s) (es_world s)) as [[[[] ex'] o] w]; try (by intros [= <- <-]).
  destruct (_ && _); intros [= <- <-]; [|done]. intros _. apply backoff_positive. simpl. lia.
Qed.
Lemma advance_pace cn i (t : PlannedTask) (s : exec_state W) r s' : (0 <= pt_RetryCount t)%Z ->
  advanceTask now cn i t s = (r, s') -> pl_Phase (es_plan s') = TaskPlanActive -> (0 < RequeueAfter r)%Z.
Proof.
  intros Ht. unfold advanceTask. destruct (Deserialize _ _ _ _) as [ex|e]; [|by intros [= <- <-]].
  destruct (needsSubmission t); [|by apply poll_pace].
  destruct (Execute ex (es_obj s) (es_world s)) as [[[[e|] ex'] o] w].
  - destruct (ee_terminal e); by intros [= <- <-].
  - apply poll_pace. unfold task_submitted. by destruct (pt_SubmittedAt t).
Qed.
Lemma loop_pace cn fuel (s : exec_state W) r s' : Forall retry_ok (pl_Tasks (es_plan s)) ->
  executeLoop now cn fuel s = Some (r, s') -> pl_Phase (es_plan s') = TaskPlanActive -> (0 < RequeueAfter r)%Z.
Proof.
  revert s. induction fuel as [|fuel IH]; intros s Hok Hrun; [done|].
  destruct (executeLoop_S now _ _ _ _ _ Hrun)
    as [Hall _ -> | fin t todo t' s1 Hp Hf Ht Ho Ha Ht' Hc Hl | fin t todo t' Hp Hf Ht Ho Ha Ht' Hc]; [done|..].
  - destruct (outcome_tasks _ _ _ _ Ho) as (u & Hu & _ & Hr). apply (IH s1); [|done].
    rewrite Hu. apply Forall_insert; [done|]. apply Hr. rewrite Hp in Hok. by apply Forall_app in Hok as [_ [? _]%Forall_cons].
  - eapply advance_pace; [|exact Ha]. rewrite Hp in Hok. apply Forall_app in Hok as [_ [Hr _]%Forall_cons]. apply Hr.
Qed.
Lemma executePlan_pace (s : exec_state W) r s' : plan_wf (es_plan s) -> pl_Phase (es_plan s) = TaskPlanActive ->
  executePlan now s = Some (r, s') -> pl_Phase (es_plan s') = TaskPlanActive -> (0 < RequeueAfter r)%Z.
Proof. intros [Hok _] Ha. unfold executePlan. rewrite Ha. by apply loop_pace. Qed.

Context {RF : RuntimeFrame RT}.
Lemma executePlan_node (n : SeiNode) p (w : W) g r s' : pl_Phase p = TaskPlanActive ->
  executePlan now (mkState (ObjNode n) p w g) = Some (r, s') -> exists n', es_obj s' = ObjNode n'.
Proof.
  intros Ha. unfold executePlan. cbn [es_plan es_obj]. rewrite Ha. intros Hrun.
  apply executeLoop_framed in Hrun as [Hfr _]; [|done]. unfold framed in Hfr. cbn [es_obj] in Hfr. destruct (pl_Phase (es_plan s')).
  - destruct Hfr as [Ho _]. destruct (es_obj s'); try done. eauto.
  - destruct Hfr as [(o & Ho & Hph) _]. destruct o; try done. destruct (es_obj s'); try done. eauto.
  - destruct Hfr as [(o & Ho & Hph) _]. destruct o; try done. destruct (es_obj s'); try done. eauto.
Qed.
End Pace.

(** ** Lemmas: a node that is not running gets a plan *)
Section Planned.
Context {C : SeiConfig} {H : Hashes} {SC : StatusConditions}.

Definition starts_with_volume (p : TaskPlan) : Prop := head (pt_Type <$> pl_Tasks p) = Some TaskTypeEnsureDataPVC.
Lemma volume_first_no_update p : starts_with_volume p -> (classifyPlan p =s planClassNodeUpdate) = false.
Proof.
  unfold starts_with_volume, classifyPlan. destruct (isDataResetPlan _); [done|]. destruct (_ && _); [done|].
  destruct (pl_Tasks p) as [|t ts]; [done|]. simpl. intros [= ->]. done.
Qed.
Lemma overlay_volume planID prog params node p : head prog = Some TaskTypeEnsureDataPVC ->
  withConfigValues (mkTaskPlan planID TaskPlanActive (buildTasks planID params prog) PhaseRunning "" PhaseFailed None None) node = Ok p ->
  starts_with_volume p.
Proof.
  intros Hh Hw. apply (withConfigValues_spec planID) in Hw as (_ & _ & _ & _ & _ & _ & Ht); [|done|done|apply buildTasks_indexed].
  unfold starts_with_volume. rewrite Ht. cbn [pl_Tasks]. rewrite buildTasks_types.
  destruct prog as [|ty prog]; [done|]. injection Hh as ->. destruct (has_overlay node); [|done].
  by rewrite spliced_cons.
Qed.
Lemma base_volume planID node snap intent p : buildBasePlan planID node snap intent = Ok p -> starts_with_volume p.
Proof. unfold buildBasePlan. destruct (buildSidecarProgression snap); [|done]. by apply overlay_volume. Qed.

(** What an init build answers: a plan that begins with the volume, or an error. *)
Definition init_build (b : build) : Prop :=
  match b.1 with Ok (Some p) => starts_with_volume p | Ok None => False | Err _ => True end.
Lemma lift_init r node : (forall p, r = Ok p -> starts_with_volume p) -> init_build (lift_plan r node).
Proof. unfold init_build, lift_plan. destruct r; simpl; [auto|done]. Qed.
Lemma mode_init platform n0 np planID node : plannerForMode platform n0 = Ok np -> is_Running node = false ->
  init_build (np_BuildPlan np planID node).
Proof.
  intros Hm Hr. unfold plannerForMode in Hm. repeat case_match; simplify_eq; simpl;
    unfold fullNode_BuildPlan, archive_BuildPlan, replayer_BuildPlan, validator_BuildPlan, seed_BuildPlan; rewrite Hr;
    try (apply lift_init; intros p; apply base_volume).
  destruct (isGenesisCeremonyNode node); apply lift_init; intros p; [|apply base_volume].
  by apply overlay_volume.
Qed.
Lemma planner_init platform n0 np planID node : plannerFor platform n0 = Ok np -> is_Running node = false ->
  init_build (np_BuildPlan np planID node).
Proof.
  unfold plannerFor. destruct (plannerForMode platform n0) as [m|] eqn:Em; simpl; [|done]. intros Hnp Hr.
  pose proof (mode_init platform n0 m planID node Em Hr) as Hi. destruct (negb _); injection Hnp as <-; [done|].
  simpl. unfold static_BuildPlan. rewrite Hr. unfold init_build in *.
  destruct (plannerForMode_laws _ _ _ Em planID node) as [_ Hmp].
  destruct (np_BuildPlan m planID node) as [[[p|]|e] node'] eqn:Eb; simpl in *; try done.
  case_bool_decide; [done|]. simpl. destruct (parkInsteadOfRelease p) as [p'|] eqn:Ep; simpl; [|done].
  destruct (parkInsteadOfRelease_spec planID _ p p' (Hmp p eq_refl) Ep) as (_ & front & E1 & E2).
  unfold starts_with_volume in *. rewrite E1 in Hi. rewrite E2. by destruct front.
Qed.

Context {SCL : StatusConditionsLaws SC}.
Lemma gates_terminal node now : has_active_plan node = false ->
  StateSyncBlocksPlan (handleTerminalPlan node) = StateSyncBlocksPlan node /\
  PeersBlockPlan (handleTerminalPlan node) now = PeersBlockPlan node now.
Proof.
  intros Ha. destruct (handleTerminalPlan_spec node Ha) as [(cs & pl & E) _].
  assert (Hc : node_cond (handleTerminalPlan node) ConditionStateSyncReady = node_cond node ConditionStateSyncReady)
    by (by apply handleTerminalPlan_cond).
  unfold StateSyncBlocksPlan. rewrite Hc. by rewrite E.
Qed.
Lemma resolve_init platform lister probe planID now node node' :
  is_Running node = false -> has_active_plan node = false ->
  ResolvePlan platform lister probe planID now node = (None, node') ->
  StateSyncBlocksPlan node || PeersBlockPlan node now = true \/ exists p, st_Plan (n_Status node') = Some p.
Proof.
  intros Hr Ha. unfold ResolvePlan. replace (match probe with Some _ => _ | None => node end) with node
    by (destruct probe; by rewrite ?Hr).
  rewrite Ha. destruct (handleTerminalPlan_spec node Ha) as [(cs & pl & E) _].
  destruct (gates_terminal node now Ha) as [-> ->]. intros Hrun.
  destruct (StateSyncBlocksPlan node); [by left|]. destruct (PeersBlockPlan node now); [by left|]. right.
  set (n0 := handleTerminalPlan node) in *. assert (Hr0 : is_Running n0 = false) by (by rewrite E).
  destruct (plannerFor platform n0) as [np|] eqn:Enp; [|done].
  destruct (np_Validate np n0); [|done].
  pose proof (planner_init platform n0 np planID n0 Enp Hr0) as Hi.
  destruct (np_BuildPlan np planID n0) as [[[p|]|] n1]; [|done|done]. unfold init_build in Hi. simpl in Hi.
  unfold admitPlan in Hrun. cbv zeta in Hrun. destruct (negb (mountedConfigWriterInPlan n1 (Some p) =s "")); [done|].
  unfold isDriftUpdatePlan in Hrun. rewrite (volume_first_no_update p Hi), andb_false_r in Hrun.
  injection Hrun as <-. exists p. apply persistPlan_plan.
Qed.
End Planned.

(** ** Property: the unoccupied node comes back *)
Section ComesBack.
Context {Q : Quantities} {C : SeiConfig} {H : Hashes} {HL : HashesLaws H} {SC : StatusConditions} {SCL : StatusConditionsLaws SC}.
Context {W : Type} {RT : TaskRuntime W} {RF : RuntimeFrame RT} (error_text : api_error -> string).

(** The answer of a call asks for another one, or the plan that was active when
    the call began has ended in it and the node is not Running. *)
Definition comes_back (before : SeiNode) (r : Executor.Result) (node : SeiNode) : Prop :=
  (0 < RequeueAfter r)%Z \/
  has_active_plan before = true /\
  exists p, st_Plan (n_Status node) = Some p /\ pl_Phase p <> TaskPlanActive /\ is_Running node = false.
Definition before_cadence (before : SeiNode) (blocked : bool) (result : Executor.Result) (node : SeiNode) : Prop :=
  comes_back before result node \/ is_Running node && negb (has_active_plan node) = true \/
  (blocked = true /\ (0 <= RequeueAfter result)%Z).
Lemma requeue_cadence before node result blocked :
  before_cadence before blocked result node ->
  comes_back before (steadyStateRequeue node result false blocked) node.
Proof.
  unfold steadyStateRequeue, before_cadence. destruct (is_Running node && _) eqn:Er; [by left|].
  intros [[?|?]|[?|[-> ?]]]; [|by right|done|].
  - left. destruct (blocked && _); [done|lia].
  - left. simpl. destruct (Z.eqb_spec (RequeueAfter result) 0); [done|lia].
Qed.
Lemma observe_status reader now (n : rnode) retry :
  rn_Node (observeCommittedHeight reader false now n retry).1 = rn_Node n.
Proof. unfold observeCommittedHeight. by repeat case_match. Qed.
Lemma backfill_frame GetPod (n n' : rnode) err : backfillNodeIsolation error_text GetPod n = (err, n') ->
  st_Plan (n_Status (rn_Node n')) = st_Plan (n_Status (rn_Node n)) /\
  is_Running (rn_Node n') = is_Running (rn_Node n) /\
  has_active_plan (rn_Node n') = has_active_plan (rn_Node n) /\
  (forall now, StateSyncBlocksPlan (rn_Node n') || PeersBlockPlan (rn_Node n') now =
     StateSyncBlocksPlan (rn_Node n) || PeersBlockPlan (rn_Node n) now).
Proof. unfold backfillNodeIsolation. repeat case_match; by intros [= <- <-]. Qed.

(** The cases of the drift plan's resolution and execution. *)
Lemma resolveDriftPlan_comes_back platform lister probe planID now blocked (n1 : rnode) (w : W) g result n2 w2 g2 :
  (forall p, st_Plan (n_Status (rn_Node n1)) = Some p -> plan_wf p) ->
  (StateSyncBlocksPlan (rn_Node n1) || PeersBlockPlan (rn_Node n1) now = true -> blocked = true) ->
  resolveDriftPlan platform lister probe planID now n1 w g = (result, None, n2, w2, g2) ->
  before_cadence (rn_Node n1) blocked result (rn_Node n2) /\
  (is_Running (rn_Node n1) = false -> has_active_plan (rn_Node n1) = false ->
   StateSyncBlocksPlan (rn_Node n1) || PeersBlockPlan (rn_Node n1) now = false ->
   has_active_plan (rn_Node n2) = true).
Proof.
  intros Hwf Hb Ed.
  unfold resolveDriftPlan in Ed. destruct (ResolvePlan _ _ _ _ _ _) as [[e|] node] eqn:Er; [done|].
  assert (Hend : forall res nd w0 g0 (k : rnode) (P : Executor.Result -> SeiNode -> Prop), P res nd ->
    (res, None, if negb (IsEvmOnly (EffectiveExecutionEngine (n_Spec nd))) && is_Running nd
       then set_Endpoint (composeNodeEndpoints nd) (rn_upd (fun _ => nd) k) else rn_upd (fun _ => nd) k, w0, g0) =
    (result, @None string, n2, w2, g2) -> P result (rn_Node n2)).
  { intros res nd w0 g0 k P Hc [= <- <- _ _]. by destruct (_ && _). }
  destruct (ResolvePlan_cases _ _ _ _ _ _ _ _ Er) as [(Ha & Hc & _)|(Ha & Hcase)]; rewrite Ha in Ed |- *.
  - (* an active plan runs *)
    split; [|done]. pose proof Ha as Ha0.
    unfold has_active_plan in Ha. rewrite <- (conds_only_plan _ _ Hc) in Ha, Hwf.
    destruct (st_Plan (n_Status node)) as [p|] eqn:Ep; [|done]. rewrite Ha in Ed. simpl in Ed.
    apply bool_decide_eq_true in Ha. destruct (executePlan_total now (mkState (ObjNode node) p w g)) as (r & s & Es).
    rewrite Es in Ed. destruct (executePlan_node now node p w g r s Ha Es) as [nd Eo]. rewrite Eo in Ed.
    revert Ed. apply (Hend _ _ _ _ _ (before_cadence (rn_Node n1) blocked)).
    set (nd' := upd_status _ nd). assert (Ep' : st_Plan (n_Status nd') = Some (es_plan s)) by done.
    unfold before_cadence. destruct (pl_Phase (es_plan s)) eqn:Eph.
    + left. left. exact (executePlan_pace now (mkState (ObjNode node) p w g) r s (Hwf p eq_refl) Ha Es Eph).
    + destruct (is_Running nd') eqn:Erun; [right; left|left; right; split; [done|exists (es_plan s); by rewrite Eph]].
      unfold has_active_plan. by rewrite Ep', Eph.
    + destruct (is_Running nd') eqn:Erun; [right; left|left; right; split; [done|exists (es_plan s); by rewrite Eph]].
      unfold has_active_plan. by rewrite Ep', Eph.
  - (* a plan is resolved, or none is *)
    assert (Hact : forall p, st_Plan (n_Status node) = Some p -> has_active_plan node = true).
    { intros p Hp. destruct Hcase as [[_ Hn]|(_ & q & np & n0 & n4 & _ & _ & _ & _ & _ & _ & _ & _ & [Hq _] & _ & _ & ->)]; [congruence|].
      unfold has_active_plan. rewrite persistPlan_plan. apply bool_decide_eq_true, Hq. }
    destruct (st_Plan (n_Status node)) as [p|] eqn:Ep; simpl in Ed; revert Ed.
    + apply (Hend _ _ _ _ _ (fun result nd => before_cadence (rn_Node n1) blocked result nd /\ (_ -> _ -> _ -> has_active_plan nd = true))).
      split; [by left; left|]. intros _ _ _. by apply (Hact p).
    + assert (Hf : ctrl_frame (rn_Node n1) node).
      { destruct Hcase as [[Hf _]|(_ & p & np & n0 & n4 & Hp)]; [done|]. exfalso.
        destruct Hp as (_ & _ & _ & _ & _ & _ & _ & _ & _ & _ & _ & ->). by rewrite persistPlan_plan in Ep. }
      destruct (ctrl_frame_fields _ _ Hf) as (_ & _ & _ & Hph & _).
      assert (Hrr : is_Running node = is_Running (rn_Node n1)) by (unfold is_Running; by rewrite Hph).
      assert (Hini : is_Running (rn_Node n1) = false -> StateSyncBlocksPlan (rn_Node n1) || PeersBlockPlan (rn_Node n1) now = true).
      { intros Erun. destruct (resolve_init _ _ _ _ _ _ _ Erun Ha Er) as [Hbl|[p Hp]]; [done|congruence]. }
      apply (Hend _ _ _ _ _ (fun result nd => before_cadence (rn_Node n1) blocked result nd /\ (_ -> _ -> _ -> has_active_plan nd = true))).
      split; [|intros Erun _ Hg; by rewrite Hini in Hg]. right.
      destruct (is_Running (rn_Node n1)) eqn:Erun; [left; unfold has_active_plan; by rewrite Hrr, Ep|right].
      split; [by apply Hb, Hini|done].
Qed.

(** C13: A node that its workflows leave alone is never left to itself. It is about
    the reconciles that reach the node's own half: of a node that is not being
    deleted, not Failed, not paused and that no workflow occupies (the others
    are parked on purpose). Such a reconcile, when it ends without an error
    (errors are requeued by the runtime), asks to be called again, whatever the
    plan, the probes and the height read do, with one exception: the plan that
    was active when it began has ended in this very call and the node is
    outside Running, as a failed init plan leaves it. And when it ends without
    an error, a node that was not running, had no active plan and was held by
    no gate has a plan that is Active. The premises: a stored plan is well
    formed, and the reconcile knows it when a gate holds the node. *)
Theorem unoccupied_node_comes_back platform lister probe planID now GetPod reader blocked (n : rnode) (w : W) g retry :
  (forall p, st_Plan (n_Status (rn_Node n)) = Some p -> plan_wf p) ->
  (StateSyncBlocksPlan (rn_Node n) || PeersBlockPlan (rn_Node n) now = true -> blocked = true) ->
  let '(r, n', _, _, _) := driftHalf error_text platform lister probe planID now GetPod reader blocked n w g retry in
  match r with
  | inl _ => True
  | inr result =>
      comes_back (rn_Node n) result (rn_Node n') /\
      (is_Running (rn_Node n) = false -> has_active_plan (rn_Node n) = false ->
       StateSyncBlocksPlan (rn_Node n) || PeersBlockPlan (rn_Node n) now = false ->
       has_active_plan (rn_Node n') = true)
  end.
Proof.
  intros Hwf Hb. unfold driftHalf. destruct (backfillNodeIsolation error_text GetPod n) as [[e|] n1] eqn:Ebf; [done|].
  destruct (backfill_frame _ _ _ _ Ebf) as (Hp1 & Hr1 & Ha1 & Hg1).
  rewrite <- Hp1 in Hwf. rewrite <- Hg1 in Hb |- *. rewrite <- Hr1, <- Ha1.
  destruct (resolveDriftPlan platform lister probe planID now n1 w g) as [[[[result [fatal|]] n2] w2] g2] eqn:Ed; [done|].
  pose proof (observe_status reader now n2 retry) as Ho. destruct (observeCommittedHeight _ _ _ _ _) as [n3 retry'].
  simpl in Ho. rewrite Ho.
  destruct (resolveDriftPlan_comes_back _ _ _ _ _ blocked _ _ _ _ _ _ _ Hwf Hb Ed) as [Hc Hplan].
  split; [|done]. unfold comes_back. rewrite <- Ha1. by apply (requeue_cadence (rn_Node n1)).
Qed.
End ComesBack.

(** ** What wakes a node (driftwake.go, evmserving.go) *)
Section Wake.
Context {C : SeiConfig} {SC : StatusConditions}.

Inductive node_event :=
| NodeCreated (new : SeiNode)
| NodeUpdated (old new : SeiNode)
| NodeDeleted (old : SeiNode)
| NodeGeneric (n : SeiNode).
Definition nodeUpdating (node : SeiNode) : bool := cond_is node ConditionNodeUpdateInProgress ConditionTrue.
Definition slotReleased (e : node_event) : bool :=
  match e with
  | NodeCreated _ | NodeGeneric _ => false
  | NodeUpdated old new =>
      nodeUpdating old && negb (nodeUpdating new) ||
      negb (Bool.eqb (sp_Paused (n_Spec old)) (sp_Paused (n_Spec new))) ||
      bool_decide (st_Phase (n_Status old) <> st_Phase (n_Status new))
  | NodeDeleted _ => true
  end.
(** The requests, for the nodes of the namespace as listed; none when the list fails. *)
Definition deferred (node : SeiNode) : bool :=
  match node_cond node ConditionNodeUpdateInProgress with
  | Some c => c_Reason c =s ReasonUpdateDeferred
  | None => false
  end.
Definition deferredPeers (List : string -> Prelude.result (list SeiNode)) (obj : SeiNode) : list (string * string) :=
  match List (n_Namespace obj) with
  | Err _ => []
  | Ok items => map (fun n => (n_Namespace n, n_Name n)) (List.filter deferred items)
  end.

Inductive pod_event := PodCreated (new : npod) | PodUpdated (old new : npod) | PodDeleted (old : npod) | PodGeneric (p : npod).
Definition podReadyChanged (e : pod_event) : bool :=
  match e with
  | PodUpdated old new => negb (Bool.eqb (podReady old) (podReady new))
  | PodGeneric _ => false
  | PodCreated _ | PodDeleted _ => true
  end.
Definition NodeLabel := "sei.io/node".
Definition podToSeiNode (namespace : string) (pod : npod) : list (string * string) :=
  match np_Labels pod !! NodeLabel with Some name => [(namespace, name)] | None => [] end.

(** ** Lemmas: the place of a node in the order of the slots *)
Context (platform : PlatformConfig).
Definition waiting_node (y : SeiNode) : bool := counted y && negb (updateInProgress y) && podTemplateDrifted y platform.
Definition slot_order (items : list SeiNode) : list string := driftUpdating items ++ driftWaiting platform items.
Definition position (items : list SeiNode) (x : string) : nat :=
  match index_of x (slot_order items) with Some i => i | None => length (slot_order items) end.
Definition comes_before (a b : string) : Prop := String.le a b /\ a <> b.
#[local] Instance comes_before_dec a b : Decision (comes_before a b).
Proof. unfold comes_before. apply _. Defined.

Lemma index_sorted (l : list string) x : NoDup l -> x ∈ l ->
  index_of x (sort_strings l) = Some (length (filter (fun y => comes_before y x) l)).
Proof.
  intros Hnd Hx. pose proof (sort_strings_perm l) as Hp.
  rewrite <- (filter_Permutation _ _ _ Hp). rewrite <- Hp in Hnd, Hx.
  assert (Hs : StronglySorted String.le (sort_strings l)) by (apply (StronglySorted_merge_sort String.le)).
  revert Hs Hnd Hx. generalize (sort_strings l). clear. intros s.
  induction s as [|z s IH]; intros Hs Hnd Hx; [by apply not_elem_of_nil in Hx|].
  apply StronglySorted_inv in Hs as [Hs Hz]. apply NoDup_cons in Hnd as [Hzs Hnd]. rewrite Forall_forall in Hz.
  unfold index_of. simpl. destruct (decide (z = x)) as [->|Hne].
  - simpl. rewrite filter_cons_False by (by intros [_ []]). f_equal.
    destruct (filter _ s) as [|y r] eqn:E; [done|]. exfalso.
    assert (Hy : y ∈ filter (fun y => comes_before y x) s) by (rewrite E; by left).
    apply list_elem_of_filter in Hy as [[Hle Hn] Hy]. apply Hn. apply (anti_symm String.le); auto.
  - apply elem_of_cons in Hx as [->|Hx]; [done|]. rewrite filter_cons_True by (split; [by apply Hz|done]).
    specialize (IH Hs Hnd Hx). unfold index_of in IH. destruct (list_find _ s) as [[i u]|]; simpl in *; [|done].
    by injection IH as ->.
Qed.
Lemma index_app_l (l k : list string) x i : index_of x l = Some i -> index_of x (l ++ k) = Some i.
Proof.
  unfold index_of. intros Hi. destruct (list_find _ l) as [[j y]|] eqn:E; [|done].
  by rewrite (list_find_app_l _ _ _ _ _ E).
Qed.
Lemma index_app_r (l k : list string) x : x ∉ l -> index_of x (l ++ k) = (fun i => length l + i) <$> index_of x k.
Proof.
  induction l as [|y l IH]; intros Hx; simpl.
  - destruct (index_of x k); [|done]. done.
  - apply not_elem_of_cons in Hx as [Hxy Hx]. specialize (IH Hx). unfold index_of in *. simpl.
    rewrite decide_False by congruence. destruct (list_find _ (l ++ k)) as [[i u]|]; simpl in *;
      destruct (list_find _ k) as [[j v]|]; simplify_eq/=; done.
Qed.
Lemma index_none (l : list string) x : x ∉ l -> index_of x l = None.
Proof.
  intros Hx. unfold index_of. rewrite (proj2 (list_find_None _ _)); [done|]. rewrite Forall_forall. by intros y Hy ->.
Qed.

Lemma sort_strings_length l : length (sort_strings l) = length l.
Proof. by rewrite sort_strings_perm. Qed.

Section Counting.
Context (items : list SeiNode).
Definition picked (f : SeiNode -> bool) : list string := n_Name <$> List.filter f items.
Lemma picked_in f x : NoDup (n_Name <$> items) -> x ∈ items -> n_Name x ∈ picked f <-> f x = true.
Proof.
  intros Hnd Hx. unfold picked. rewrite list_elem_of_fmap. split.
  - intros (y & Hy & Hin). apply list_elem_of_In, filter_In in Hin as [Hin Hf].
    assert (x = y) as ->; [|done]. apply list_elem_of_In in Hin.
    apply list_elem_of_lookup in Hx as [i Hi], Hin as [j Hj].
    assert (i = j); [|congruence]. eapply NoDup_lookup; [exact Hnd|by rewrite list_lookup_fmap, Hi|].
    rewrite list_lookup_fmap, Hj. simpl. by rewrite Hy.
  - intros Hf. exists x. split; [done|]. apply list_elem_of_In, filter_In. by rewrite <- list_elem_of_In.
Qed.
Lemma picked_NoDup f : NoDup (n_Name <$> items) -> NoDup (picked f).
Proof.
  unfold picked. clear. induction items as [|y l IH]; simpl; [done|]. intros [Hy Hl]%NoDup_cons.
  destruct (f y); simpl; [|by apply IH]. apply NoDup_cons. split; [|by apply IH].
  intros (z & Hz & Hin)%list_elem_of_fmap. apply Hy. rewrite Hz. apply list_elem_of_fmap. exists z. split; [done|].
  by apply list_elem_of_In, filter_In, proj1, list_elem_of_In in Hin.
Qed.
Lemma picked_count f (P : string -> Prop) `{forall a, Decision (P a)} :
  length (filter P (picked f)) = length (List.filter (fun y => f y && bool_decide (P (n_Name y))) items).
Proof.
  unfold picked. clear. induction items as [|y l IH]; simpl; [done|]. destruct (f y); simpl; [|done].
  rewrite filter_cons. case_decide; [rewrite bool_decide_true by done; simpl; f_equal|rewrite bool_decide_false by done];
    exact IH.
Qed.
Lemma count_or (f g : SeiNode -> bool) : (forall y, f y = true -> g y = false) ->
  length (List.filter (fun y => f y || g y) items) = length (List.filter f items) + length (List.filter g items).
Proof.
  intros Hd. clear -Hd. induction items as [|y l IH]; simpl; [done|]. specialize (Hd y).
  destruct (f y), (g y); simpl; try lia.
Qed.
Lemma count_ext (f g : SeiNode -> bool) : (forall y, f y = g y) -> length (List.filter f items) = length (List.filter g items).
Proof. intros Hd. by rewrite (List.filter_ext _ _ Hd). Qed.

(** The nodes served before [x]. *)
Definition earlier (x y : SeiNode) : bool := bool_decide (comes_before (n_Name y) (n_Name x)).
Definition ahead (x y : SeiNode) : bool :=
  rolling y && (negb (rolling x) || earlier x y) ||
  waiting_node y && (negb (rolling x) && (negb (waiting_node x) || earlier x y)).
Lemma rolling_not_waiting y : rolling y = true -> waiting_node y = false.
Proof. unfold rolling, waiting_node. intros [-> ->]%andb_true_iff. done. Qed.
Lemma position_ahead x : NoDup (n_Name <$> items) -> x ∈ items ->
  position items (n_Name x) = length (List.filter (ahead x) items).
Proof.
  intros Hnd Hx. unfold position, slot_order, driftUpdating, driftWaiting. fold rolling waiting_node.
  change (n_Name <$> List.filter rolling items) with (picked rolling).
  change (n_Name <$> List.filter waiting_node items) with (picked waiting_node).
  pose proof (picked_NoDup rolling Hnd) as N1. pose proof (picked_NoDup waiting_node Hnd) as N2.
  pose proof (picked_in rolling x Hnd Hx) as I1. pose proof (picked_in waiting_node x Hnd Hx) as I2.
  unfold ahead. rewrite count_or.
  2:{ intros y [Hy _]%andb_true_iff. by rewrite (rolling_not_waiting y Hy). }
  destruct (rolling x) eqn:Hr.
  - rewrite (index_app_l _ _ _ _ (index_sorted _ _ N1 (proj2 I1 eq_refl))), picked_count.
    rewrite (count_ext (fun y => waiting_node y && _) (fun _ => false)) by (intros y; by rewrite andb_false_r).
    rewrite (count_ext _ (fun y => rolling y && (negb true || earlier x y))) by done.
    assert (Hz : forall l : list SeiNode, List.filter (fun _ => false) l = []) by (by induction l). rewrite Hz. simpl. lia.
  - assert (Hn1 : n_Name x ∉ sort_strings (picked rolling)) by (rewrite sort_strings_perm, I1; done).
    rewrite (count_ext (fun y => rolling y && _) rolling) by (intros y; by rewrite andb_true_r).
    rewrite (index_app_r _ _ _ Hn1), length_app, !sort_strings_length. unfold picked at 1. rewrite length_fmap.
    destruct (waiting_node x) eqn:Hw.
    + rewrite (index_sorted _ _ N2 (proj2 I2 eq_refl)). simpl. by rewrite picked_count.
    + rewrite index_none by (rewrite sort_strings_perm, I2; done). simpl. unfold picked. rewrite !length_fmap.
      by rewrite (count_ext (fun y => waiting_node y && _) waiting_node) by (intros y; by rewrite andb_true_r).
Qed.
End Counting.

Lemma DriftSlot_position items x b m : (0 < pc_DriftUpdateBudgetPercent platform)%Z ->
  DriftSlot platform (Some (fun _ => Ok items)) x = Ok (b, m) ->
  b = (Z.of_nat (position items (n_Name x)) <? driftSlots platform items)%Z.
Proof.
  intros Hpc. unfold DriftSlot. destruct (Z.leb_spec (pc_DriftUpdateBudgetPercent platform) 0); [lia|]. simpl.
  unfold position. fold (slot_order items). destruct (index_of _ _); destruct (_ <? _)%Z; by intros [= <- _].
Qed.
Lemma quiet_update old new : slotReleased (NodeUpdated old new) = false ->
  counted new = counted old /\ (updateInProgress old = true -> updateInProgress new = true).
Proof.
  unfold slotReleased, nodeUpdating, updateInProgress. intros [[Hu Hp]%orb_false_iff Hph]%orb_false_iff.
  apply negb_false_iff, eqb_prop in Hp. apply bool_decide_eq_false, dec_stable in Hph. split.
  - unfold counted, is_Running. by rewrite Hp, Hph.
  - intros Ho. rewrite Ho in Hu. by apply negb_false_iff in Hu.
Qed.
(** An event that passes no predicate leaves nobody served earlier, unless drift ended. *)
Lemma ahead_kept x old new : slotReleased (NodeUpdated old new) = false -> n_Name new = n_Name old ->
  (waiting_node old = true -> podTemplateDrifted new platform = true) -> ahead x old = true -> ahead x new = true.
Proof.
  intros [Hc Hu]%quiet_update Hn Hd. assert (He : earlier x new = earlier x old) by (unfold earlier; by rewrite Hn).
  unfold ahead. rewrite He. unfold waiting_node, rolling in *. rewrite Hc.
  destruct (updateInProgress old) eqn:Eo; [rewrite Hu by done|]; destruct (updateInProgress new) eqn:En;
    destruct (counted old); simpl in *; try done.
  - by destruct (podTemplateDrifted old platform); simpl; [intros [-> _]%andb_true_iff|].
  - destruct (podTemplateDrifted old platform); simpl; [|done]. by rewrite Hd.
Qed.

(** C18: A freed roll slot wakes the next node. Whatever else happens in a namespace, when
    one update of a node lets another one that was refused a roll slot have one, and
    that node says it waits, the update passes the predicate of the watch and its
    requests name the waiting node; the one exception is an update by which a node that waited itself no
    longer differs from its pod template, which moves up those behind it unnoticed until their poll. *)
Theorem freed_slot_wakes items i old new x m m' : (0 < pc_DriftUpdateBudgetPercent platform)%Z ->
  NoDup (n_Name <$> items) -> items !! i = Some old -> n_Name new = n_Name old ->
  x ∈ items -> n_Name x <> n_Name old -> deferred x = true ->
  DriftSlot platform (Some (fun _ => Ok items)) x = Ok (false, m) ->
  DriftSlot platform (Some (fun _ => Ok (<[i := new]> items))) x = Ok (true, m') ->
  (slotReleased (NodeUpdated old new) = true /\
   (n_Namespace x, n_Name x) ∈ deferredPeers (fun _ => Ok (<[i := new]> items)) new) \/
  (waiting_node old = true /\ podTemplateDrifted new platform = false).
Proof.
  intros Hpc Hnd Hi Hn Hx Hne Hdef Hno Hyes.
  assert (Hx' : x ∈ <[i := new]> items).
  { apply list_elem_of_lookup in Hx as [j Hj]. apply list_elem_of_lookup. exists j.
    rewrite list_lookup_insert_ne; [done|]. intros ->. congruence. }
  destruct (slotReleased (NodeUpdated old new)) eqn:Es.
  { left. split; [done|]. unfold deferredPeers. apply list_elem_of_In, in_map_iff. exists x. split; [done|].
    apply filter_In. split; [by apply list_elem_of_In|done]. }
  right. destruct (waiting_node old) eqn:Ew, (podTemplateDrifted new platform) eqn:Ed; [exfalso|done|exfalso..];
    (assert (Hk : ahead x old = true -> ahead x new = true) by (apply ahead_kept; [done|done|by rewrite ?Ew]));
    apply DriftSlot_position in Hno, Hyes; try done; symmetry in Hno, Hyes;
    apply Z.ltb_ge in Hno; apply Z.ltb_lt in Hyes;
    destruct (quiet_update old new Es) as [Hc _];
    rewrite (slots_insert platform items i old new Hi Hc) in Hyes;
    rewrite position_ahead in Hno, Hyes by (rewrite ?(names_insert items i old new Hi Hn); done);
    pose proof (filter_insert_count (ahead x) items i old new Hi); destruct (ahead x old), (ahead x new); try lia; by discriminate Hk.
Qed.
End Wake.

(** ** The finalizer and the deletion of a node *)
Definition nodeFinalizerName := "sei.io/seinode-finalizer".
(** The stored node, its claims and workflows, the height retries of the process,
    and what becomes of the writes of the node. *)
Record dworld {Q : Quantities} (W : Type) := mkDworld {
  dw_Phase : SeiNodePhase;
  dw_Finalizers : list string;
  dw_volumes : vworld;
  dw_workflows : world W;
  dw_retry : gmap string Z;
  dw_faults : list fault;
}.
Arguments mkDworld {Q W} _ _ _ _ _ _.
Arguments dw_Phase {Q W} _.
Arguments dw_Finalizers {Q W} _.
Arguments dw_volumes {Q W} _.
Arguments dw_workflows {Q W} _.
Arguments dw_retry {Q W} _.
Arguments dw_faults {Q W} _.

Section Deletion.
Context {Q : Quantities} {W : Type} (error_text : api_error -> string).
Abbreviation dworld := (dworld W).

(** A write of the node: what becomes of it, and its answer. *)
Definition node_write (apply : dworld -> dworld) (w : dworld) : option api_error * dworld :=
  let '(f, rest) := match dw_faults w with [] => (Done, []) | f :: fs => (f, fs) end in
  let w := mkDworld (dw_Phase w) (dw_Finalizers w) (dw_volumes w) (dw_workflows w) (dw_retry w) rest in
  match f with
  | Done => (None, apply w)
  | Lost => (Some EOther, apply w)
  | Refused c => (Some (refused_as c), w)
  end.
Definition with_phase (p : SeiNodePhase) (w : dworld) : dworld :=
  mkDworld p (dw_Finalizers w) (dw_volumes w) (dw_workflows w) (dw_retry w) (dw_faults w).
Definition with_finalizers (fs : list string) (w : dworld) : dworld :=
  mkDworld (dw_Phase w) fs (dw_volumes w) (dw_workflows w) (dw_retry w) (dw_faults w).
Definition with_volumes (v : vworld) (w : dworld) : dworld :=
  mkDworld (dw_Phase w) (dw_Finalizers w) v (dw_workflows w) (dw_retry w) (dw_faults w).
Definition with_workflows (x : world W) (w : dworld) : dworld :=
  mkDworld (dw_Phase w) (dw_Finalizers w) (dw_volumes w) x (dw_retry w) (dw_faults w).
Definition with_retry (r : gmap string Z) (w : dworld) : dworld :=
  mkDworld (dw_Phase w) (dw_Finalizers w) (dw_volumes w) (dw_workflows w) r (dw_faults w).

Definition ContainsFinalizer (name : string) (finalizers : list string) : bool := mem name finalizers.
Definition RemoveFinalizer (name : string) (finalizers : list string) : list string :=
  List.filter (fun f => f <>s name) finalizers.
(** [finalizers]: those of the node in memory. *)
Definition ensureNodeFinalizer (finalizers : list string) (w : dworld) : option api_error * list string * dworld :=
  if ContainsFinalizer nodeFinalizerName finalizers then (None, finalizers, w)
  else
    let finalizers := finalizers ++ [nodeFinalizerName] in
    let '(err, w) := node_write (with_finalizers finalizers) w in
    (err, finalizers, w).

Definition handleNodeDeletion (now : string) (n : vnode) (finalizers : list string) (w : dworld) : option string * dworld :=
  let w := with_retry (delete (vn_UID n) (dw_retry w)) w in
  if negb (ContainsFinalizer nodeFinalizerName finalizers) then (None, w)
  else
    match node_write (with_phase PhaseTerminating) w with
    | (Some e, w) => (Some ("setting terminating status: " +:+ error_text e), w)
    | (None, w) =>
        let '(err, v) := deleteNodeDataPVC now n (dw_volumes w) in
        let w := with_volumes v w in
        match err with
        | Some e => (Some ("deleting data PVC: " +:+ error_text e), w)
        | None =>
            let '(err, x) := releaseWorkflowFinalizersForNode (vn_Node n) (dw_workflows w) in
            let w := with_workflows x w in
            match err with
            | Some e => (Some ("releasing workflow finalizers: " +:+ error_text e), w)
            | None =>
                let '(err, w) := node_write (with_finalizers (RemoveFinalizer nodeFinalizerName finalizers)) w in
                (error_text <$> err, w)
            end
        end
    end.

(** *** Lemmas: the workflows let go *)
Definition no_conflict (w : world W) : Prop := Refused true ∉ wd_faults w.
(** The stored workflows under the listed names that have no finalizer. *)
Definition freed (wf : SeiNodeTaskWorkflow) (w : world W) : Prop :=
  forall st, wd_wfs w !! fw_Name wf = Some st -> fw_Finalizer st = false.

Lemma patch_frees wf (w : world W) e wf' w' : patchWorkflowFinalizer false wf w = (e, wf', w') ->
  (forall st, wd_wfs w !! fw_Name wf = Some st -> fw_Finalizer wf = false -> fw_Finalizer st = false) -> e = None -> freed wf w'.
Proof.
  intros E Hk ->. destruct (patchWorkflowFinalizer_spec _ _ _ _ _ _ E) as (_ & Hc). unfold freed. intros st1 H1.
  destruct Hc as [(Hm & Hn & He)|(st & Hl & [Hm|[_ Hm]] & _)].
  - rewrite Hm in H1. destruct (He eq_refl) as [[Hf _]|Hx]; [by apply Hk|congruence].
  - rewrite Hm, lookup_insert_eq in H1. by injection H1 as <-.
  - by rewrite Hm, lookup_delete_eq in H1.
Qed.
Lemma patch_keeps_freed wf wf1 (w : world W) e wf' w' : patchWorkflowFinalizer false wf w = (e, wf', w') ->
  freed wf1 w -> freed wf1 w'.
Proof.
  intros E Hf st1 H1. destruct (patchWorkflowFinalizer_spec _ _ _ _ _ _ E) as (_ & Hc).
  destruct Hc as [(Hm & _)|(st & Hl & [Hm|[_ Hm]] & _)]; rewrite Hm in H1.
  - by apply Hf.
  - apply lookup_insert_Some in H1 as [[_ <-]|[_ H1]]; [done|by apply Hf].
  - apply lookup_delete_Some in H1 as [_ H1]. by apply Hf.
Qed.
Lemma patch_calm wf (w : world W) e wf' w' : patchWorkflowFinalizer false wf w = (e, wf', w') ->
  no_conflict w -> no_conflict w' /\ e <> Some EConflict.
Proof.
  unfold patchWorkflowFinalizer, no_conflict. destruct (Bool.eqb _ _); [by intros [= <- <- <-]|].
  unfold PatchFinalizer, next_fault. destruct (wd_faults w) as [|f fs] eqn:Ef.
  - destruct (wd_wfs w !! fw_Name wf); simpl; [destruct (_ && _ && _)|]; intros [= <- <- <-]; simpl; by rewrite ?Ef.
  - intros E [Hf Hfs]%not_elem_of_cons. revert E. simpl.
    destruct (wd_wfs w !! fw_Name wf); simpl; [destruct (_ && _ && _), f as [| |[]]|]; intros [= <- <- <-]; by simpl.
Qed.
(** What the listed object says of its finalizer holds of the stored one. *)
Definition listed (wf : SeiNodeTaskWorkflow) (w : world W) : Prop :=
  forall st, wd_wfs w !! fw_Name wf = Some st -> fw_Finalizer wf = false -> fw_Finalizer st = false.
Lemma patch_keeps_listed wf wf1 (w : world W) e wf' w' : patchWorkflowFinalizer false wf w = (e, wf', w') ->
  listed wf1 w -> listed wf1 w'.
Proof.
  intros E Hl st1 H1 Hf. revert st1 H1. refine (patch_keeps_freed wf wf1 w e wf' w' E _). intros st H1. by apply Hl.
Qed.
Lemma strip_frees wfs (w w' : world W) : (forall wf, wf ∈ wfs -> listed wf w) -> no_conflict w ->
  stripFinalizers (fun _ => true) wfs w = (None, w') ->
  (forall wf, wf ∈ wfs -> freed wf w') /\ (forall wf, freed wf w -> freed wf w').
Proof.
  revert w. induction wfs as [|wf wfs IH]; intros w Hl Hc; cbn [stripFinalizers].
  - intros [= <-]. split; [|done]. by intros wf Hin%not_elem_of_nil.
  - destruct (patchWorkflowFinalizer false wf w) as [[e wf'] w1] eqn:E.
    destruct (patch_calm _ _ _ _ _ E Hc) as [Hc1 He]. intros Hrun.
    assert (He' : e = None /\ stripFinalizers (fun _ => true) wfs w1 = (None, w')) by (by destruct e as [[]|]).
    destruct He' as [-> Hrun']. destruct (IH w1) as [H1 H2]; [|done|done|].
    + intros x Hx. eapply patch_keeps_listed; [exact E|]. apply Hl. by right.
    + split.
      * intros x [->|Hx]%elem_of_cons; [|by apply H1]. apply H2. eapply patch_frees; [exact E| |done]. apply Hl. by left.
      * intros x Hx. apply H2. by eapply patch_keeps_freed.
Qed.
(** No workflow appears, and none changes its target. *)
Lemma strip_targets keep wfs (w : world W) k st' : wd_wfs (stripFinalizers keep wfs w).2 !! k = Some st' ->
  exists st, wd_wfs w !! k = Some st /\ fw_Spec st' = fw_Spec st.
Proof.
  revert w. induction wfs as [|wf wfs IH]; intros w; cbn [stripFinalizers]; [eauto|].
  destruct (keep wf); [|apply IH]. destruct (patchWorkflowFinalizer false wf w) as [[e wf'] w1] eqn:E.
  assert (Hone : forall st1, wd_wfs w1 !! k = Some st1 -> exists st, wd_wfs w !! k = Some st /\ fw_Spec st1 = fw_Spec st).
  { intros st1 H1. destruct (patchWorkflowFinalizer_spec _ _ _ _ _ _ E) as (_ & Hc).
    destruct Hc as [(Hm & _)|(st & Hl & [Hm|[_ Hm]] & _)]; rewrite Hm in H1; [eauto| |].
    - apply lookup_insert_Some in H1 as [[<- <-]|[_ H1]]; eauto.
    - apply lookup_delete_Some in H1 as [_ H1]. eauto. }
  assert (Hrec : wd_wfs (stripFinalizers keep wfs w1).2 !! k = Some st' -> exists st, wd_wfs w !! k = Some st /\ fw_Spec st' = fw_Spec st).
  { intros (st1 & H1 & Hs)%IH. destruct (Hone st1 H1) as (st & H2 & Hs2). exists st. split; [done|congruence]. }
  destruct e as [[]|]; [apply Hone|apply Hrec|apply Hone|apply Hrec].
Qed.
Lemma release_frees node (w w' : world W) : (forall k wf, wd_wfs w !! k = Some wf -> fw_Name wf = k) -> no_conflict w ->
  releaseWorkflowFinalizersForNode node w = (None, w') ->
  forall k wf, wd_wfs w' !! k = Some wf -> fs_NodeRef (fw_Spec wf) = n_Name node -> fw_Finalizer wf = false.
Proof.
  intros Hn Hc. unfold releaseWorkflowFinalizersForNode, ListWorkflows.
  destruct (next_fault w) as [f w1] eqn:Ef. destruct (next_fault_same w f w1 Ef) as [_ Hm]. destruct f; [|done..].
  assert (Hc1 : no_conflict w1).
  { unfold next_fault, no_conflict in *. destruct (wd_faults w) as [|f fs] eqn:Efs; [injection Ef as <-; by rewrite Efs|].
    injection Ef as -> <-.
    simpl. by apply not_elem_of_cons in Hc as [_ ?]. }
  set (wfs := filter _ _). intros Hrun k wf Hk Ht.
  assert (Hin : forall k wf, wd_wfs w !! k = Some wf -> fs_NodeRef (fw_Spec wf) = n_Name node -> wf ∈ wfs).
  { intros k0 wf0 H0 Ht0. apply list_elem_of_filter. split; [done|]. apply list_elem_of_fmap. exists (k0, wf0).
    split; [done|]. by rewrite elem_of_map_to_list, Hm. }
  assert (Hlist : forall wf, wf ∈ wfs -> listed wf w1).
  { intros wf0 Hw0. apply list_elem_of_filter in Hw0 as [_ Hw0]. apply list_elem_of_fmap in Hw0 as ([k0 x] & -> & Hx).
    apply elem_of_map_to_list in Hx. intros st. simpl. rewrite Hm in *. rewrite (Hn _ _ Hx), Hx. by intros [= <-]. }
  destruct (strip_frees wfs w1 w' Hlist Hc1 Hrun) as [Hfree _].
  assert (E2 : (stripFinalizers (fun _ => true) wfs w1).2 = w') by (by rewrite Hrun). rewrite <- E2 in Hk.
  destruct (strip_targets _ _ _ _ _ Hk) as (st & Hst & Hs). rewrite E2 in Hk. rewrite Hm in Hst. rewrite Hs in Ht.
  apply (Hfree st (Hin k st Hst Ht)). by rewrite (Hn _ _ Hst).
Qed.
(** The claim goes: whoever asks finds none in its cache, or one that is being deleted. *)
Lemma delete_marks now n (v v' : vworld) : (forall k c, vw_seen v !! k = Some c -> pvc_Name c = k) ->
  deleteNodeDataPVC now n v = (None, v') ->
  match imported n with
  | Some _ => v' = v
  | None => vw_seen v !! DataPVCName n = None \/
            exists c, vw_claims v' !! DataPVCName n = Some c /\ pvc_DeletionTimestamp c = Some now
  end.
Proof.
  intros Hn. unfold deleteNodeDataPVC. destruct (imported n); [by intros [= <-]|].
  unfold GetClaim, read_. destruct (vw_fault v) as [f v1] eqn:Ef. destruct (fault_same _ _ _ Ef) as (Ec & Es & _ & _).
  destruct f as [| |[]]; [|done..]. rewrite Es. destruct (vw_seen v !! DataPVCName n) as [pvc|] eqn:Ep; [|by left].
  rewrite (Hn _ _ Ep). unfold DeleteClaim. destruct (vw_fault v1) as [f v2] eqn:Ef2.
  destruct f, (vw_claims v2 !! DataPVCName n); try done. intros [= <-]. right. eexists. split; [simpl; apply lookup_insert_eq|done].
Qed.
Lemma node_write_spec (apply : dworld -> dworld) (w w' : dworld) err : node_write apply w = (err, w') ->
  exists w0, dw_Phase w0 = dw_Phase w /\ dw_Finalizers w0 = dw_Finalizers w /\ dw_volumes w0 = dw_volumes w /\
    dw_workflows w0 = dw_workflows w /\ dw_retry w0 = dw_retry w /\ (w' = apply w0 \/ err <> None /\ w' = w0).
Proof.
  unfold node_write. destruct (dw_faults w) as [|[| |c] fs]; intros [= <- <-];
    (eexists (mkDworld _ _ _ _ _ _); split_and!; [reflexivity..|]; auto).
Qed.

(** C16: A node lets go of everything before it goes. However the calls of a deletion answer,
    once it has taken the node's finalizer off: the status says Terminating, the height retry of its UID
    is forgotten, its claim (unless it was imported, and then its volume is untouched) is not
    in the cache or is being deleted, and no workflow aimed at it keeps the deletion gate,
    if none of their patches was refused by a conflict. It ends without an error only
    with the finalizer off, so that every failed step is tried again. *)
Theorem node_deletion_lets_go now n finalizers (w : dworld) :
  (forall k c, vw_seen (dw_volumes w) !! k = Some c -> pvc_Name c = k) ->
  (forall k wf, wd_wfs (dw_workflows w) !! k = Some wf -> fw_Name wf = k) ->
  ContainsFinalizer nodeFinalizerName finalizers = true -> nodeFinalizerName ∈ dw_Finalizers w ->
  let '(err, w') := handleNodeDeletion now n finalizers w in
  (err = None -> nodeFinalizerName ∉ dw_Finalizers w') /\
  (nodeFinalizerName ∉ dw_Finalizers w' ->
   dw_Phase w' = PhaseTerminating /\ dw_retry w' !! vn_UID n = None /\
   match imported n with
   | Some _ => dw_volumes w' = dw_volumes w
   | None => vw_seen (dw_volumes w) !! DataPVCName n = None \/
             exists c, vw_claims (dw_volumes w') !! DataPVCName n = Some c /\ pvc_DeletionTimestamp c = Some now
   end /\
   (no_conflict (dw_workflows w) -> forall k wf, wd_wfs (dw_workflows w') !! k = Some wf ->
    fs_NodeRef (fw_Spec wf) = n_Name (vn_Node n) -> fw_Finalizer wf = false)).
Proof.
  intros Hv Hf Hc Hin. unfold handleNodeDeletion. rewrite Hc. cbn [negb].
  destruct (node_write _ _) as [[e|] w1] eqn:E1; destruct (node_write_spec _ _ _ _ E1) as (w0 & _ & Hfin & Hvol & Hwf & Hret & Hw1).
  { split; [done|]. intros []. destruct Hw1 as [->|[_ ->]]; simpl; by rewrite Hfin. }
  destruct Hw1 as [Hw1|[? _]]; [|done].
  assert (H1 : dw_Phase w1 = PhaseTerminating /\ dw_Finalizers w1 = dw_Finalizers w /\ dw_volumes w1 = dw_volumes w /\
    dw_workflows w1 = dw_workflows w /\ dw_retry w1 = delete (vn_UID n) (dw_retry w)) by (rewrite Hw1; by split_and!).
  clear Hw1 Hfin Hvol Hwf Hret. destruct H1 as (Hph & Hfin & Hvol & Hwf & Hret).
  cbn [with_volumes dw_workflows]. rewrite Hvol, Hwf.
  destruct (deleteNodeDataPVC now n (dw_volumes w)) as [[e|] v'] eqn:E2; [split; [done|]; simpl; by rewrite Hfin|].
  destruct (releaseWorkflowFinalizersForNode (vn_Node n) (dw_workflows w)) as [[e|] x'] eqn:E3;
    [split; [done|]; simpl; by rewrite Hfin|].
  destruct (node_write (with_finalizers _) _) as [err w2] eqn:E4; destruct (node_write_spec _ _ _ _ E4) as (w3 & Hph3 & Hfin3 & Hvol3 & Hwf3 & Hret3 & Hw2).
  cbn [with_workflows with_volumes dw_Phase dw_Finalizers dw_volumes dw_workflows dw_retry] in *.
  assert (Hall : dw_Phase w2 = PhaseTerminating /\ dw_volumes w2 = v' /\ dw_workflows w2 = x' /\ dw_retry w2 !! vn_UID n = None).
  { destruct Hw2 as [->|[_ ->]]; simpl; rewrite Hph3, Hvol3, Hwf3, Hret3, Hret; by rewrite lookup_delete_eq. }
  destruct Hall as (-> & -> & -> & ->). split.
  - intros Hn. destruct Hw2 as [->|[Hne _]]; [|by destruct err]. simpl. unfold RemoveFinalizer.
    intros Hx. apply list_elem_of_In, filter_In in Hx as [_ Hx]. by rewrite String.eqb_refl in Hx.
  - intros _. split_and!; [done|done| |].
    + pose proof (delete_marks now n _ _ Hv E2). by destruct (imported n).
    + intros Hnc. by apply (release_frees _ _ _ Hf Hnc E3).
Qed.
End Deletion.

(** ** Concrete runs *)
Module LifecycleExamples.
#[local] Existing Instances tally_quantities list_conditions list_conditions_laws sample_config sample_hashes.
Definition text (e : api_error) : string := "server error".

(** *** The StatefulSet *)
Definition template (node : SeiNode) : result string := Ok (sp_Image (n_Spec node)).
Definition tracking (uid : option string) : rnode :=
  mkRnode (VolumeExamples.node 5) (mkStsRef "full-0" <$> uid) None None None.
Definition sts (uid : string) : StatefulSet (T := string) := mkSts "full-0" uid 1 "sei:v1".
Definition sts_only (live seen : option StatefulSet) : sworld (T := string) := mkSworld live seen 7 [] [].
Definition upkeep (n : rnode) (w : sworld) := reconcileStatefulSet template text n w.

Lemma statefulset_converges_witness :
  let '(_, _, n1, w1) := upkeep (tracking (Some "uid-a")) (sts_only (Some (sts "uid-b")) (Some (sts "uid-b"))) in
  let '(_, _, n2, w2) := upkeep n1 (sts_synced w1) in
  sw_live w1 = None /\ rendered (tracking (Some "uid-a")) "sei:v1" w2 /\ tracks n2 w2.
Proof.
  pose proof (statefulset_converges template text (tracking (Some "uid-a")) "sei:v1"
    (sts_only (Some (sts "uid-b")) (Some (sts "uid-b"))) eq_refl ltac:(by split)) as H.
  unfold upkeep. revert H. destruct (reconcileStatefulSet _ _ (tracking _) _) as [[[e1 ev1] n1] w1] eqn:E1.
  assert (Hl : sw_live w1 = None) by (vm_compute in E1; by injection E1 as _ _ _ <-).
  destruct (reconcileStatefulSet _ _ n1 _) as [[[e2 ev2] n2] w2].
  destruct (reconcileStatefulSet _ _ n2 _) as [[[e3 ev3] n3] w3].
  intros (_ & _ & _ & _ & H1 & H2 & _). by split.
Defined.

(** Property: The delete of an impostor names the object, not its UID: while the cache
    still shows the impostor, the reconcile after the one that applied the node's
    own StatefulSet deletes that one, and the pod with it. *)
Theorem stale_cache_deletes_fresh :
  let stranger := sts "uid-b" in
  let '(e1, _, n1, w1) := upkeep (tracking (Some "uid-a")) (sts_only (Some stranger) (Some stranger)) in
  let '(e2, _, n2, w2) := upkeep n1 w1 in
  let '(e3, _, n3, w3) := upkeep n2 w2 in
  e1 = None /\ e2 = None /\ e3 = None /\
  sw_live w2 = Some (sts "uid-7") /\ rn_StatefulSet n2 = Some (mkStsRef "full-0" "uid-7") /\
  sw_log w3 = [StsDeleted stranger (Some stranger); StsApplied (sts "uid-7"); StsDeleted stranger (Some (sts "uid-7"))] /\
  sw_live w3 = None /\ rn_StatefulSet n3 = None.
Proof. vm_compute. repeat split. Qed.

(** *** The unoccupied node *)
Definition waiting_peers : rnode := tracking None.
Lemma unoccupied_node_comes_back_witness :
  match driftHalf (W := list Scripted.outcome) text (mkPlatformConfig "side" 0) None None "plan" 0
          (fun _ => inl ENotFound) None false waiting_peers [] ∅ ∅ with
  | (inr r, n, _, _, _) => (0 < RequeueAfter r)%Z /\ has_active_plan (rn_Node n) = true
  | _ => False
  end.
Proof.
  pose proof (unoccupied_node_comes_back (HL := sample_hashes_laws) (RF := scripted_frame) text (mkPlatformConfig "side" 0) None None "plan" 0
    (fun _ => inl ENotFound) None false waiting_peers [] ∅ ∅ ltac:(done) ltac:(vm_compute; discriminate)) as H.
  revert H. destruct (driftHalf _ _ _ _ _ _ _ _ _ _ _ _ _) as [[[[r n] w] g] retry] eqn:E.
  assert (Hs : match r with inr _ => has_active_plan (rn_Node n) = true | inl _ => False end).
  { replace r with (driftHalf (W := list Scripted.outcome) text (mkPlatformConfig "side" 0) None None "plan" 0
      (fun _ => inl ENotFound) None false waiting_peers [] ∅ ∅).1.1.1.1 by (by rewrite E).
    replace n with (driftHalf (W := list Scripted.outcome) text (mkPlatformConfig "side" 0) None None "plan" 0
      (fun _ => inl ENotFound) None false waiting_peers [] ∅ ∅).1.1.1.2 by (by rewrite E).
    vm_compute. reflexivity. }
  destruct r as [|r]; [done|]. intros [[Hr|(Ha & _)] Hplan]; [split; [exact Hr|]|discriminate Ha].
  apply Hplan; vm_compute; reflexivity.
Defined.

(** *** A freed slot *)
Definition drifted_node (name : string) (status : ConditionStatus) (reason : string) : SeiNode :=
  setNodeUpdateCondition status reason ""
    (mkSeiNode name "ns" 1 0 ∅ (Sample.spec_with_hold HoldNone 0)
       (set_Observed "old" "side" NodeIsolationShared "" Sample.running_status)).
Definition rolling_away := drifted_node "a" ConditionTrue "UpdateStarted".
Definition rolled := drifted_node "a" ConditionFalse "UpdateFailed".
Definition waiter := drifted_node "z" ConditionFalse ReasonUpdateDeferred.
Definition settled := mkSeiNode "a" "ns" 1 0 ∅ (Sample.spec_with_hold HoldNone 0) Sample.running_status.
Lemma freed_slot_wakes_witness :
  slotReleased (NodeUpdated rolling_away settled) = true /\
  ("ns", "z") ∈ deferredPeers (fun _ => Ok (<[0 := settled]> [rolling_away; waiter])) settled.
Proof.
  destruct (freed_slot_wakes (mkPlatformConfig "side" 50) [rolling_away; waiter] 0 rolling_away settled waiter
    "drift update waits for a roll slot in namespace ns: 1 slot(s), held by a" "") as [H|[H _]].
  - reflexivity.
  - by_decide.
  - reflexivity.
  - reflexivity.
  - right. by left.
  - discriminate.
  - reflexivity.
  - vm_compute. reflexivity.
  - vm_compute. reflexivity.
  - exact H.
  - vm_compute in H. discriminate H.
Defined.

(** Property: The exception is real: the user takes back the change of the node first in
    line, which frees the slot for the next one and wakes nobody. *)
Theorem reverted_drift_wakes_nobody :
  let first := drifted_node "a" ConditionFalse ReasonUpdateDeferred in
  let slot items := DriftSlot (mkPlatformConfig "side" 50) (Some (fun _ => Ok items)) waiter in
  slot [first; waiter] = Ok (false, "drift update waits for a roll slot in namespace ns: 1 slot(s), held by a") /\
  slot [settled; waiter] = Ok (true, "") /\ slotReleased (NodeUpdated first settled) = false.
Proof. vm_compute. repeat split. Qed.

(** *** Deletion *)
Definition gated : SeiNodeTaskWorkflow := wf_meta 1 false true "" WorkflowExamples.resync.
Definition deleting (faults : list fault) : dworld unit :=
  mkDworld PhaseRunning [nodeFinalizerName] (vw_init ∅ ∅)
    (set_faults faults (set_wfs {["wf" := gated]} WorkflowExamples.w_init)) ∅ [].
Definition going : vnode := mkVnode WorkflowExamples.full_node "uid-1" None.
Definition gate_of (w : dworld unit) : option bool := fw_Finalizer <$> wd_wfs (dw_workflows w) !! "wf".
Definition delete_node (w : dworld unit) := handleNodeDeletion text "now" going [nodeFinalizerName] w.

Lemma node_deletion_lets_go_witness :
  (nodeFinalizerName ∉ dw_Finalizers (delete_node (deleting [])).2) /\ gate_of (delete_node (deleting [])).2 = Some false.
Proof.
  assert (Hv : forall k c, vw_seen (dw_volumes (deleting [])) !! k = Some c -> pvc_Name c = k)
    by (intros k c Hk; change (vw_seen _) with (∅ : gmap string (PVC (Q := tally_quantities))) in Hk; by rewrite lookup_empty in Hk).
  assert (Hw : forall k wf, wd_wfs (dw_workflows (deleting [])) !! k = Some wf -> fw_Name wf = k)
    by (intros k wf; simpl; rewrite lookup_singleton_Some; by intros [<- <-]).
  pose proof (node_deletion_lets_go text "now" going [nodeFinalizerName] (deleting []) Hv Hw eq_refl ltac:(by left)) as H.
  unfold delete_node, gate_of. destruct (handleNodeDeletion _ _ _ _ _) as [err w'] eqn:E.
  assert (He : err = None) by (replace err with (delete_node (deleting [])).1 by (unfold delete_node; by rewrite E); vm_compute; reflexivity).
  assert (Hg : wd_wfs (dw_workflows w') !! "wf" = Some (with_fin false gated)).
  { replace w' with (delete_node (deleting [])).2 by (unfold delete_node; by rewrite E). vm_compute. reflexivity. }
  destruct H as [H1 H2]. specialize (H1 He). split; [exact H1|]. simpl. rewrite Hg.
  destruct (H2 H1) as (_ & _ & _ & H3). exact (f_equal Some (H3 (not_elem_of_nil _) "wf" _ Hg eq_refl)).
Defined.

(** Property: A patch of a workflow's finalizer that a conflict refuses is passed over, also
    on the deletion of the node, after which no reconcile of it comes: the node
    goes and the workflow keeps its deletion gate for good. *)
Theorem conflicting_workflow_left_gated :
  let '(err, w') := delete_node (deleting [Done; Refused true]) in
  err = None /\ dw_Finalizers w' = [] /\ gate_of w' = Some true.
Proof. vm_compute. repeat split. Qed.
End LifecycleExamples.
